(* ===== verification/_CoqProject ===== *)
-Q . S2P
Prelude.v
Types.v
Crc.v
Os.v
Bytes.v
Bitmap.v
Replacement.v
Clog.v
ClogFile.v
LogFiles.v
LogHandler.v
LogSafety.v
LogRecovery.v
LogTheorems.v
PageIO.v
LruCache.v
MemPool.v
Stats.v
Latch.v
Frame.v
FrameManager.v
FrameSafety.v
BufferPool.v
DoubleWrite.v
DiskBufferPool.v
StorageSafety.v
PoolSafety.v
PageAccess.v
RecordPage.v
PoolDemo.v
FileHeader.v
PageAlloc.v
PageDispose.v
PoolTheorems.v
LatchKept.v
RecordManager.v
RecordSafety.v
RecordFile.v
RecordInsert.v
RecordScan.v
RecordScanSafety.v
RecordReplay.v
RecordTheorems.v
IndexKey.v
IndexNode.v
IndexNodeSpec.v
IndexPool.v
IndexLog.v
BplusTree.v
BplusTreeOps.v
BplusTreeScan.v
IndexLaws.v
IndexSteps.v
IndexRoot.v
IndexNodeOps.v
IndexTree.v
IndexFind.v
IndexInsert.v
IndexInsertEntry.v
IndexMtr.v
IndexScan.v
IndexBody.v
IndexPair.v
IndexDelete.v
IndexTheorems.v
TableMeta.v
Mvcc.v
MvccSpec.v
MvccRead.v
MvccWrite.v
HeapTable.v
HeapTableSpec.v
HeapTableOps.v
HeapTableTrx.v
HeapTableDemo.v
HeapTableTheorems.v
MvccTheorems.v
Value.v
Row.v
Expression.v
