(* ===== verification/Prelude.v ===== *)
(** * The storage kernel of CSU-DBMS: a verified shallow embedding

    The program is a teaching database server in C++ (MiniOB with an extended buffer
    pool).  Its SQL layers sit on a storage kernel: files of 8 KiB pages, a buffer
    pool that caches the pages of all open files in a bounded set of frames, a
    double write buffer, a write-ahead log, heap files of fixed-size records, B+ tree
    indexes, tables that keep both together, and multi-version transactions on top.
    This library models that kernel and proves it correct, and with it the values,
    rows and expressions that the SQL layers compute with.  Paths below are relative
    to [src/src/].

    ** How the code is modelled

    A method is a computation [M S A] over the state of the objects it can reach:
    [None] is a failed [ASSERT] or undefined behaviour (an access out of bounds, a
    null or dangling pointer, an invalid bit index), [Some (a, s')] the result and
    the state left behind.  A theorem of the form [f x s = Some (r, s') ∧ ...]
    therefore says that the call returns, and that no assertion fails on the way.
    Error codes are values of [RC.RC].  Machine integers are [Z] with the wrap-around
    written out ([swrap], [uwrap]); bytes are [Z] in the range of [char]; objects
    that are shared through pointers live in heaps keyed by [Ptr].  Loops are
    recursive functions; where the recursion is not structural they carry fuel, the
    bound is chosen from the data (the number of pages, frames, bytes or slots), and
    the theorems show that the run ends within it.

    What the operating system decides is input: the system calls of [Os] take partial
    transfers, interruptions and failures from a schedule.  The theorems on the transfer
    loops, on reading a log file and on the running log hold for schedules with failures;
    those on the buffer pool, on heap files and on a restart are for schedules whose
    transfers may be short but where no call fails ([benign], which is part of [sys_inv]):
    what a failed read or write leaves behind is modelled and not claimed.  A hash table's order is a parameter ([HashOrder], [BeginOf]); an
    uninitialised field is a parameter ([uninit]).  Where components meet there is a
    type class of operations and one of their laws: the replacement policy
    ([ReplacementPolicy], [PolicyLaws]; implemented by LRU, FIFO, LRU-K and Clock),
    the log of the buffer pool ([LogHandler], [LogLaws]; the vacuous and the disk
    log), the file of a B+ tree ([IndexPool], [IndexPoolLaws]), the record files and
    trees of a table ([Storage], [StorageLaws]: any call may fail and then changes nothing;
    [TreesReturn]: the changes of trees end; [ReliableStorage]: no call fails on what is
    there; each theorem names what it needs) and the tables of a transaction
    ([Tables], [TablesLaws]; implemented by heap tables).  The laws of
    [IndexPool] and of [Storage] have an instance that keeps pages or records in
    memory, on which the theorems run; [IndexPool] has a second one, which evicts every
    frame that is given back, and the one of [Storage] also fails where a test asks for
    it.  Threads: the latches and the flush thread of the log are transition
    systems whose theorems hold in every interleaving; the operations of the buffer
    pool and of heap files run one after the other, as they do under their locks.

    ** Files

    Foundations.  [Types]: result codes and the page constants ([common/sys/rc.h],
    [observer/common/types.h]).  [Bytes]: byte layouts.  [Crc]: [common/math/crc.cpp].
    [Os]: [common/io/io.cpp] over a file system with partial transfers.  [Bitmap]:
    [common/lang/bitmap.cpp].  [MemPool]: [common/mm/mem_pool.h].  [LruCache]:
    [common/lang/lru_cache.h].

    Pages and frames ([observer/storage/os/]).  [Replacement]: the policies of
    [replacement/].  [Stats]: the counters of [diagnostics/].  [Latch] and [Frame]:
    [page/frame.cpp] with its recursive latches.  [FrameManager] and [FrameSafety]:
    [BPFrameManager] and the invariant [fm_wf] that every step keeps.  [PageIO]: the
    two page I/O backends.

    Buffer pool ([observer/storage/os/buffer/]).  [BufferPool]: the world of open
    files, the log interface and the file header.  [DoubleWrite]:
    [double_write_buffer.cpp].  [DiskBufferPool]: [disk_buffer_pool.cpp], every
    operation of [DiskBufferPool] and [BufferPoolManager].  [StorageSafety]: what is
    stored in the files and in the double write buffer.  [PoolSafety], [PageAccess],
    [FileHeader], [PageAlloc], [PageDispose]: the invariant [sys_inv] and what the
    operations do to it and to the content of the pages.  [PoolDemo]: a concrete file.
    [PoolTheorems]: the claims.

    Write-ahead log ([observer/storage/clog/]).  [Clog]: entries and the buffer.
    [ClogFile], [LogFiles]: log files and their directory.  [LogHandler]:
    [disk_log_handler.cpp] with its thread as a transition system.  [LogSafety],
    [LogRecovery]: the invariant and crash recovery.  [LogTheorems]: the claims.

    Records ([observer/storage/record/]).  [RecordPage]: the layout of record pages
    as functions on bytes, refined by a map from slots to records ([page_ok]).
    [RecordManager]: [record_manager.cpp], the page handlers and [RecordFileHandler],
    and the log records of [record_log.cpp].  [RecordScan]: both scanners.
    [RecordReplay]: the replayer and
    what it does to a heap file.  [LatchKept]: no operation of the buffer pool
    touches a latch.  [RecordSafety]: what holds while a handler holds a page, and
    what the page operations do.  [RecordFile], [RecordInsert], [RecordScanSafety]: the operations of a heap file against the abstract
    file, a finite map from record ids to bytes ([heap_file]).  [RecordTheorems]: the
    claims.

    B+ tree ([observer/storage/index/]).  [IndexKey], [IndexNode]: comparators and
    nodes as bytes of pages.  [IndexPool]: the file and the latch memo
    ([latch_memo.cpp]).  [IndexLog]: the log entries ([bplus_tree_log_entry.cpp]).
    [BplusTree], [BplusTreeOps], [BplusTreeScan]: [bplus_tree.cpp], mini transactions
    ([bplus_tree_log.cpp]), scans and [validate_tree].  [IndexNodeSpec], [IndexTree]:
    nodes as lists of items, trees as inductive data with their order and fill.
    [IndexLaws]: the laws of the file and a file in memory.
    [IndexSteps], [IndexRoot], [IndexNodeOps], [IndexFind], [IndexBody],
    [IndexPair], [IndexMtr]: what the steps of an operation do to the tree.
    [IndexInsert], [IndexInsertEntry], [IndexDelete], [IndexScan]: the operations.
    [IndexTheorems]: the claims.

    Tables ([observer/storage/table/]).  [TableMeta]: the metadata of fields, indexes
    and tables ([table_meta.cpp], [field/], [index/index_meta.cpp]).  [HeapTable]:
    [heap_table_engine.cpp] and [index/bplus_tree_index.cpp].  [HeapTableSpec]: the
    laws of the storage and when a table is consistent ([table_ok]).
    [HeapTableOps]: the operations.
    [HeapTableTrx]: heap tables are what transactions rely on.  [HeapTableDemo]: a
    storage in memory.  [HeapTableTheorems]: the claims.

    Transactions ([observer/storage/trx/]).  [Mvcc]: [mvcc_trx.cpp],
    [mvcc_trx_log.cpp], [vacuous_trx.cpp] over the interface of tables.  [MvccSpec]:
    snapshot isolation as an abstract machine.  [MvccRead], [MvccWrite]: what the operations do to it.  [MvccTheorems]: the claims
    and a database in memory.

    Values.  [Value]: [observer/common/value.cpp] and the data types of
    [observer/common/type/]; a [float] is an IEEE binary32 number.  [Row]: how a row
    becomes a record ([table/table.cpp]) and is read again ([RowTuple] of
    [observer/sql/expr/tuple.h]).  [Expression]: expressions, tuples and aggregators
    of [observer/sql/expr/], row at a time.  Each file ends with its claims.

    ** What the theorems show

    Buffer pool: [get_this_page], [allocate_page], [dispose_page], [flush_page] and
    the redo of logged allocations return, when no system call fails, and do to the abstract
    files (pages in use, content of every page, pins) what they promise, whatever is
    evicted, written back or moved through the double write buffer meanwhile.  Frames
    and policies: the frame table, the free list, the policy and the counters stay
    consistent; the victim is the one each policy defines; pinned frames are never
    evicted.  Latches: mutual exclusion and recursion in every interleaving.  Page
    I/O: whole pages under any partial transfers; CRC-32 against its polynomial
    definition.  Log: in every interleaving of clients and flush thread the log is a
    list of durable and a list of pending entries, a crash at any point loses exactly
    the entries that were not durable, and stopping drains the queue.  Records: the
    layout arithmetic; insert, delete, get and visit refine the finite map; a scan
    lists it in order; opening a file rebuilds [free_pages_]; redo skips
    what the LSN of the page covers, so that a second replay changes nothing, and puts an
    insertion in the first free slot of the page, which need not be the logged one.
    B+ tree: every history of insertions, deletions and lookups
    is answered like a sorted list of keys with record ids, the tree keeps its order
    and fill, pins, latches and locks are given back; for deletions this is proved
    only on a pool that evicts no frame meanwhile ([KeepsFrames]), because [coalesce]
    and [adjust_root] change pages without marking them dirty ([merge_is_lost_on_eviction]
    is a tree that cannot be searched after such a deletion); scans list exactly the
    entries between their bounds, in order;
    log entries are read back from their bytes.  Tables: records and indexes agree
    after every operation, failed ones included, with these exceptions, which the theorems
    name: a deletion that the file refuses leaves the record without its keys, an update
    that fails restores the indexes unless the calls that restore them fail, a new index
    has only the records that the transaction sees; the fields of a new
    table do not overlap.  Transactions: every history is answered as snapshot
    isolation says, when the log takes every record and the tables do not fail on records
    that are there, except for what [allowed] leaves out:
    three deletions, which are shown to go wrong, the rollback of a transaction that has
    changed a table with an index, and ids beyond 2^31;
    replay never rolls a transaction back.  Values: dates are read back from what is
    printed and ordered as dates; a row is read back from its record; comparisons agree
    with SQL's three-valued logic, and counts, sums that do not overflow, minima and
    maxima with their definitions, except for floats, whose comparison is not transitive;
    nothing is claimed of averages.

    ** Bounds

    Pin counts are assumed below 2^30 and 64-bit counters below their limit where a
    theorem says so; [init_layout] is proved for record sizes below 2^30 and up to
    1990 columns, which is what fits a page.  An insertion is proved for records that
    fit a page and a log that accepts its records; the theorem on [allocate_page]
    covers a log that refuses.  The descent of a B+ tree, its coalescing and its scans
    carry fuel; the theorems ask for more than the height of the tree or the number of
    its leaves.  Dates are proved up to the year 214747, beyond which their number does
    not fit an [int].  Creating an index carries as much fuel as there are records.

    ** Not modelled

    The operations of a B+ tree, a table and a transaction run one after the other;
    only their latch protocol is proved, not their interleavings.  The B+ tree and the
    tables are proved over the interfaces above and not composed with the theorems of
    the buffer pool.  Creating and opening the files of a table, databases and the
    catalog: file system calls around JSON text, which the third-party jsoncpp reads
    and writes.  Expressions on columns and chunks, and the physical operators that
    drive expressions.  The PAX operations that only return [UNIMPLEMENTED] are constants.  Large
    objects, the LSM tree, vectorised operators, SQL front end, optimizer, executors,
    network and client: they are above the kernel, generated by bison and flex, or
    I/O.  Log messages and diagnostics output are left out, their counters are not. *)

From Stdlib Require Export ZArith Lia.
From stdpp Require Export base tactics option list gmap sets strings numbers.

Open Scope Z_scope.

(** ** A state monad with failed assertions

    The methods of the modelled classes read and write shared objects and may
    hit an [ASSERT] or undefined behaviour (an index out of bounds, a null
    dereference).  [M S A] is a computation over the state [S]: [None] is the
    failed assertion, [Some (a, s')] the result and the state left behind. *)
Definition M (S A : Type) : Type := S → option (A * S).

#[global] Instance M_ret {S} : MRet (M S) := λ A a s, Some (a, s).
#[global] Instance M_bind {S} : MBind (M S) := λ A B k m s,
  match m s with
  | Some (a, s') => k a s'
  | None => None
  end.

Definition fetch {S} : M S S := λ s, Some (s, s).
Definition store {S} (s' : S) : M S unit := λ _, Some (tt, s').
Definition gets {S A} (f : S → A) : M S A := λ s, Some (f s, s).
Definition modify {S} (f : S → S) : M S unit := λ s, Some (tt, f s).
Definition abort {S A} : M S A := λ _, None.
(** [ASSERT(b, ...)] of [common/log/log.h]. *)
Definition assertb {S} (b : bool) : M S unit := if b then mret tt else abort.
(** Reading through a pointer or an index that may be invalid. *)
Definition deref {S A} (o : option A) : M S A :=
  match o with Some a => mret a | None => abort end.

Lemma bind_Some {S A B} (m : M S A) (k : A → M S B) s b s2 :
  (m ≫= k) s = Some (b, s2) ↔ ∃ a s1, m s = Some (a, s1) ∧ k a s1 = Some (b, s2).
Proof.
  unfold mbind, M_bind. destruct (m s) as [[a s1]|]; naive_solver.
Qed.

(** Executing the first computation of a sequence. *)
Lemma bind_run {S A B} (m : M S A) (k : A → M S B) s a s1 :
  m s = Some (a, s1) → (m ≫= k) s = k a s1.
Proof. intros E. unfold mbind, M_bind. by rewrite E. Qed.

(** The same with the equation as its only explicit argument: [rewrite (exec E)]
    executes the next call of a body. *)
Lemma exec {S A B} {m : M S A} {k : A → M S B} {s a s1} : m s = Some (a, s1) → (m ≫= k) s = k a s1.
Proof. apply bind_run. Qed.

(** A pointer that is known to be valid. *)
Ltac exec_deref := erewrite (bind_run (deref _)) by done.

(** Symbolic execution of a monadic body. *)
Ltac mstep :=
  unfold mbind, M_bind, mret, M_ret, gets, modify, fetch, store, deref, assertb, abort; cbn.

(** ** Machine integers *)

(** Signed wrap-around at width [w]. *)
Definition swrap (w : Z) (z : Z) : Z := (z + 2 ^ (w - 1)) mod 2 ^ w - 2 ^ (w - 1).
(** Unsigned wrap-around at width [w]. *)
Definition uwrap (w : Z) (z : Z) : Z := z mod 2 ^ w.

Definition in_srange (w z : Z) : Prop := - 2 ^ (w - 1) ≤ z < 2 ^ (w - 1).

Lemma swrap_id w z : 0 < w → in_srange w z → swrap w z = z.
Proof.
  unfold swrap, in_srange. intros Hw Hz.
  assert (2 ^ w = 2 * 2 ^ (w - 1)) as E.
  { rewrite <-Z.pow_succ_r by lia. f_equal. lia. }
  rewrite Z.mod_small; lia.
Qed.

Lemma swrap_range w z : 0 < w → in_srange w (swrap w z).
Proof.
  unfold swrap, in_srange. intros Hw.
  assert (2 ^ w = 2 * 2 ^ (w - 1)) as E.
  { rewrite <-Z.pow_succ_r by lia. f_equal. lia. }
  pose proof (Z.mod_pos_bound (z + 2 ^ (w - 1)) (2 ^ w)). lia.
Qed.

Lemma uwrap_id w z : 0 ≤ z < 2 ^ w → uwrap w z = z.
Proof. intros. unfold uwrap. by rewrite Z.mod_small. Qed.

(** A narrowing conversion keeps the low bits. *)
Lemma swrap_testbit w z i : 0 < w → 0 ≤ i < w → Z.testbit (swrap w z) i = Z.testbit z i.
Proof.
  intros Hw Hi.
  assert (swrap w z mod 2 ^ w = z mod 2 ^ w) as E.
  { unfold swrap. rewrite Zminus_mod_idemp_l. f_equal. lia. }
  rewrite <-(Z.mod_pow2_bits_low (swrap w z) w i) by lia.
  rewrite E. by rewrite Z.mod_pow2_bits_low by lia.
Qed.

(** ** Lists *)
Section lists.
Context {A : Type}.
Implicit Types l : list A.

Lemma lookup_insert_cases l i j x y :
  <[i:=x]> l !! j = Some y ↔
  (i = j ∧ x = y ∧ (i < length l)%nat) ∨ (i ≠ j ∧ l !! j = Some y).
Proof. rewrite list_lookup_insert_Some. naive_solver. Qed.

Lemma elem_of_drop_l x n l : x ∈ drop n l → x ∈ l.
Proof. intros H. rewrite <-(take_drop n l). apply elem_of_app. by right. Qed.

Lemma elem_of_take_l x n l : x ∈ take n l → x ∈ l.
Proof. intros H. rewrite <-(take_drop n l). apply elem_of_app. by left. Qed.

Context `{EqDecision A}.

(** Removal of the (first) occurrence of an element. *)
Fixpoint list_remove1 (x : A) l : list A :=
  match l with
  | [] => []
  | y :: l' => if decide (x = y) then l' else y :: list_remove1 x l'
  end.

Lemma list_remove1_sublist x l : list_remove1 x l `sublist_of` l.
Proof.
  induction l as [|y l IH]; cbn; [constructor|]. case_decide; repeat constructor; auto.
Qed.

Lemma list_remove1_NoDup x l : NoDup l → NoDup (list_remove1 x l).
Proof. intros H. eapply sublist_NoDup; [exact H|apply list_remove1_sublist]. Qed.

Lemma list_remove1_not_elem x l : x ∉ l → list_remove1 x l = l.
Proof.
  induction l as [|y l IH]; cbn; [done|]. intros Hx%not_elem_of_cons.
  case_decide; [naive_solver|]. f_equal. naive_solver.
Qed.

Lemma elem_of_list_remove1 x y l :
  NoDup l → y ∈ list_remove1 x l ↔ y ≠ x ∧ y ∈ l.
Proof.
  induction l as [|z l IH]; cbn; intros Hnd; [set_solver|].
  apply list.NoDup_cons in Hnd as [Hz Hnd]. case_decide as E.
  - subst. rewrite elem_of_cons. naive_solver.
  - rewrite !elem_of_cons, IH by done. naive_solver.
Qed.

Lemma length_list_remove1 x l :
  x ∈ l → S (length (list_remove1 x l)) = length l.
Proof.
  induction l as [|y l IH]; cbn; [set_solver|]. intros Hx.
  case_decide; [done|]. cbn. f_equal. apply IH. set_solver.
Qed.

Lemma list_remove1_app x l1 l2 :
  x ∉ l1 → list_remove1 x (l1 ++ x :: l2) = l1 ++ l2.
Proof.
  induction l1 as [|y l1 IH]; cbn; intros Hx.
  - by case_decide.
  - case_decide; [set_solver|]. f_equal. apply IH. set_solver.
Qed.

Lemma list_remove1_app_r x l1 l2 :
  x ∉ l1 → list_remove1 x (l1 ++ l2) = l1 ++ list_remove1 x l2.
Proof.
  induction l1 as [|g l1 IH]; cbn; [done|]. intros H%not_elem_of_cons.
  rewrite decide_False by naive_solver. f_equal. naive_solver.
Qed.

Lemma list_remove1_app_l x l1 l2 :
  x ∈ l1 → list_remove1 x (l1 ++ l2) = list_remove1 x l1 ++ l2.
Proof.
  induction l1 as [|g l1 IH]; cbn; [set_solver|]. intros H.
  case_decide; [done|]. cbn. f_equal. apply IH. set_solver.
Qed.

Lemma delete_list_remove1 x l i :
  l !! i = Some x → x ∉ take i l → delete i l = list_remove1 x l.
Proof.
  intros Hi Hn. rewrite <-(take_drop_middle l i x Hi) at 2.
  rewrite list_remove1_app by done. by rewrite delete_take_drop.
Qed.
End lists.
