(* ===== verification/Types.v ===== *)
(** * Shared types: result codes, pages and frame identifiers

    Models [common/sys/rc.h], [observer/common/types.h],
    [storage/os/page/page.h] and the class [FrameId] of
    [storage/os/page/frame.h]. *)

From S2P Require Import Prelude.

(** ** Result codes: [enum class RC] *)
Module RC.
Inductive RC : Type :=
  | SUCCESS | INVALID_ARGUMENT | UNIMPLEMENTED | SQL_SYNTAX
  | INTERNAL | NOMEM | NOTFOUND | EMPTY
  | FULL | EXIST | NOT_EXIST | BUFFERPOOL_OPEN
  | BUFFERPOOL_NOBUF | BUFFERPOOL_INVALID_PAGE_NUM | RECORD_OPENNED | RECORD_INVALID_RID
  | RECORD_INVALID_KEY | RECORD_DUPLICATE_KEY | RECORD_NOMEM | RECORD_EOF
  | RECORD_NOT_EXIST | RECORD_INVISIBLE | SCHEMA_DB_EXIST | SCHEMA_DB_NOT_EXIST
  | SCHEMA_DB_NOT_OPENED | SCHEMA_TABLE_NOT_EXIST | SCHEMA_TABLE_EXIST | SCHEMA_FIELD_NOT_EXIST
  | SCHEMA_FIELD_MISSING | SCHEMA_FIELD_TYPE_MISMATCH | SCHEMA_FIELD_NOT_NULL | SCHEMA_INDEX_NAME_REPEAT
  | IOERR_READ | IOERR_WRITE | IOERR_ACCESS | IOERR_OPEN
  | IOERR_CLOSE | IOERR_SEEK | IOERR_TOO_LONG | IOERR_SYNC
  | LOCKED_UNLOCK | LOCKED_NEED_WAIT | LOCKED_CONCURRENCY_CONFLICT | FILE_EXIST
  | FILE_NOT_EXIST | FILE_NAME | FILE_BOUND | FILE_CREATE
  | FILE_OPEN | FILE_NOT_OPENED | FILE_CLOSE | FILE_REMOVE
  | VARIABLE_NOT_EXISTS | VARIABLE_NOT_VALID | LOGBUF_FULL | LOG_FILE_FULL
  | LOG_ENTRY_INVALID | JSON_PARSE_FAILED | JSON_MEMBER_MISSING | RANGE_ERROR
  | WAL_INVALID_FILENAME | INPUT_EOF | INVALID_TOKEN | UNEXPECTED_END_OF_STRING
  | SYNTAX_ERROR | UNSUPPORTED | AUTHENTICATION_FAILED | AUTHORIZATION_DENIED
  | USER_EXIST | USER_NOT_EXIST.

#[global] Instance RC_eq_dec : EqDecision RC.
Proof. solve_decision. Defined.

(** [OB_SUCC] and [OB_FAIL] of [common/sys/rc.cpp]. *)
Definition OB_SUCC (rc : RC) : bool := bool_decide (rc = SUCCESS).
Definition OB_FAIL (rc : RC) : bool := bool_decide (rc ≠ SUCCESS).

Lemma OB_FAIL_SUCC rc : OB_FAIL rc = negb (OB_SUCC rc).
Proof. unfold OB_FAIL, OB_SUCC. repeat case_bool_decide; naive_solver. Qed.
End RC.
Notation RC := RC.RC.
Export (notations) RC.

(** ** Pages *)
Definition PageNum := Z.
Definition SlotNum := Z.
Definition LSN := Z.

Inductive ReadWriteMode : Type := READ_ONLY | READ_WRITE.
#[global] Instance ReadWriteMode_eq_dec : EqDecision ReadWriteMode.
Proof. solve_decision. Defined.

Definition BP_INVALID_PAGE_NUM : Z := -1.
Definition BP_HEADER_PAGE : Z := 0.
Definition BP_PAGE_SIZE : Z := Z.shiftl 1 13.
(** [sizeof(LSN)] is 8 and [sizeof(CheckSum)] is 4. *)
Definition BP_PAGE_DATA_SIZE : Z := BP_PAGE_SIZE - 8 - 4.

(** [struct Page]: [data] holds [BP_PAGE_DATA_SIZE] chars. *)
Record Page : Type := mkPage {
  lsn : Z;
  check_sum : Z;
  data : list Z
}.

#[global] Instance Page_eq_dec : EqDecision Page.
Proof. solve_decision. Defined.

(** The page [memset] to zero by [Frame::clear_page] and [create_file]. *)
Definition zero_page : Page :=
  {| lsn := 0; check_sum := 0; data := replicate (Z.to_nat BP_PAGE_DATA_SIZE) 0 |}.

Definition set_lsn (l : Z) (p : Page) : Page := mkPage l (check_sum p) (data p).
Definition set_check_sum (c : Z) (p : Page) : Page := mkPage (lsn p) c (data p).
Definition set_data (d : list Z) (p : Page) : Page := mkPage (lsn p) (check_sum p) d.

(** ** Frame identifiers: [class FrameId] *)
Record FrameId : Type := mkFrameId {
  fid_buffer_pool_id : Z;
  fid_page_num : Z
}.

#[global] Instance FrameId_eq_dec : EqDecision FrameId.
Proof. solve_decision. Defined.
#[global] Instance FrameId_countable : Countable FrameId.
Proof.
  apply (inj_countable' (λ f, (fid_buffer_pool_id f, fid_page_num f))
    (λ p, mkFrameId p.1 p.2)). by intros [].
Defined.

(** [FrameId::equal_to] compares both fields. *)
Definition FrameId_equal_to (a b : FrameId) : bool :=
  (fid_buffer_pool_id a =? fid_buffer_pool_id b) && (fid_page_num a =? fid_page_num b).

Lemma FrameId_equal_to_spec a b : FrameId_equal_to a b = true ↔ a = b.
Proof.
  unfold FrameId_equal_to. rewrite andb_true_iff, !Z.eqb_eq.
  destruct a, b; cbn. naive_solver.
Qed.

(** [FrameId::hash]: the pool id in the high word, or-ed with the
    sign-extended page number, as a 64-bit [size_t]. *)
Definition FrameId_hash (f : FrameId) : Z :=
  uwrap 64 (Z.lor (Z.shiftl (uwrap 64 (fid_buffer_pool_id f)) 32) (uwrap 64 (fid_page_num f))).
