(* ===== verification/Crc.v ===== *)
(** * The page checksum

    Models [common/math/crc.cpp].  The table is the one of the source; the
    reference is the shift register of CRC-32 with the reflected polynomial
    [0xEDB88320], one bit at a time. *)

From S2P Require Import Prelude.
Local Open Scope Z_scope.

(** The 256 entries of [crc_table]. *)
Definition crc_table : list Z :=
  [
    0x00000000; 0x77073096; 0xee0e612c; 0x990951ba; 0x076dc419; 0x706af48f; 0xe963a535; 0x9e6495a3;
    0x0edb8832; 0x79dcb8a4; 0xe0d5e91e; 0x97d2d988; 0x09b64c2b; 0x7eb17cbd; 0xe7b82d07; 0x90bf1d91;
    0x1db71064; 0x6ab020f2; 0xf3b97148; 0x84be41de; 0x1adad47d; 0x6ddde4eb; 0xf4d4b551; 0x83d385c7;
    0x136c9856; 0x646ba8c0; 0xfd62f97a; 0x8a65c9ec; 0x14015c4f; 0x63066cd9; 0xfa0f3d63; 0x8d080df5;
    0x3b6e20c8; 0x4c69105e; 0xd56041e4; 0xa2677172; 0x3c03e4d1; 0x4b04d447; 0xd20d85fd; 0xa50ab56b;
    0x35b5a8fa; 0x42b2986c; 0xdbbbc9d6; 0xacbcf940; 0x32d86ce3; 0x45df5c75; 0xdcd60dcf; 0xabd13d59;
    0x26d930ac; 0x51de003a; 0xc8d75180; 0xbfd06116; 0x21b4f4b5; 0x56b3c423; 0xcfba9599; 0xb8bda50f;
    0x2802b89e; 0x5f058808; 0xc60cd9b2; 0xb10be924; 0x2f6f7c87; 0x58684c11; 0xc1611dab; 0xb6662d3d;
    0x76dc4190; 0x01db7106; 0x98d220bc; 0xefd5102a; 0x71b18589; 0x06b6b51f; 0x9fbfe4a5; 0xe8b8d433;
    0x7807c9a2; 0x0f00f934; 0x9609a88e; 0xe10e9818; 0x7f6a0dbb; 0x086d3d2d; 0x91646c97; 0xe6635c01;
    0x6b6b51f4; 0x1c6c6162; 0x856530d8; 0xf262004e; 0x6c0695ed; 0x1b01a57b; 0x8208f4c1; 0xf50fc457;
    0x65b0d9c6; 0x12b7e950; 0x8bbeb8ea; 0xfcb9887c; 0x62dd1ddf; 0x15da2d49; 0x8cd37cf3; 0xfbd44c65;
    0x4db26158; 0x3ab551ce; 0xa3bc0074; 0xd4bb30e2; 0x4adfa541; 0x3dd895d7; 0xa4d1c46d; 0xd3d6f4fb;
    0x4369e96a; 0x346ed9fc; 0xad678846; 0xda60b8d0; 0x44042d73; 0x33031de5; 0xaa0a4c5f; 0xdd0d7cc9;
    0x5005713c; 0x270241aa; 0xbe0b1010; 0xc90c2086; 0x5768b525; 0x206f85b3; 0xb966d409; 0xce61e49f;
    0x5edef90e; 0x29d9c998; 0xb0d09822; 0xc7d7a8b4; 0x59b33d17; 0x2eb40d81; 0xb7bd5c3b; 0xc0ba6cad;
    0xedb88320; 0x9abfb3b6; 0x03b6e20c; 0x74b1d29a; 0xead54739; 0x9dd277af; 0x04db2615; 0x73dc1683;
    0xe3630b12; 0x94643b84; 0x0d6d6a3e; 0x7a6a5aa8; 0xe40ecf0b; 0x9309ff9d; 0x0a00ae27; 0x7d079eb1;
    0xf00f9344; 0x8708a3d2; 0x1e01f268; 0x6906c2fe; 0xf762575d; 0x806567cb; 0x196c3671; 0x6e6b06e7;
    0xfed41b76; 0x89d32be0; 0x10da7a5a; 0x67dd4acc; 0xf9b9df6f; 0x8ebeeff9; 0x17b7be43; 0x60b08ed5;
    0xd6d6a3e8; 0xa1d1937e; 0x38d8c2c4; 0x4fdff252; 0xd1bb67f1; 0xa6bc5767; 0x3fb506dd; 0x48b2364b;
    0xd80d2bda; 0xaf0a1b4c; 0x36034af6; 0x41047a60; 0xdf60efc3; 0xa867df55; 0x316e8eef; 0x4669be79;
    0xcb61b38c; 0xbc66831a; 0x256fd2a0; 0x5268e236; 0xcc0c7795; 0xbb0b4703; 0x220216b9; 0x5505262f;
    0xc5ba3bbe; 0xb2bd0b28; 0x2bb45a92; 0x5cb36a04; 0xc2d7ffa7; 0xb5d0cf31; 0x2cd99e8b; 0x5bdeae1d;
    0x9b64c2b0; 0xec63f226; 0x756aa39c; 0x026d930a; 0x9c0906a9; 0xeb0e363f; 0x72076785; 0x05005713;
    0x95bf4a82; 0xe2b87a14; 0x7bb12bae; 0x0cb61b38; 0x92d28e9b; 0xe5d5be0d; 0x7cdcefb7; 0x0bdbdf21;
    0x86d3d2d4; 0xf1d4e242; 0x68ddb3f8; 0x1fda836e; 0x81be16cd; 0xf6b9265b; 0x6fb077e1; 0x18b74777;
    0x88085ae6; 0xff0f6a70; 0x66063bca; 0x11010b5c; 0x8f659eff; 0xf862ae69; 0x616bffd3; 0x166ccf45;
    0xa00ae278; 0xd70dd2ee; 0x4e048354; 0x3903b3c2; 0xa7672661; 0xd06016f7; 0x4969474d; 0x3e6e77db;
    0xaed16a4a; 0xd9d65adc; 0x40df0b66; 0x37d83bf0; 0xa9bcae53; 0xdebb9ec5; 0x47b2cf7f; 0x30b5ffe9;
    0xbdbdf21c; 0xcabac28a; 0x53b39330; 0x24b4a3a6; 0xbad03605; 0xcdd70693; 0x54de5729; 0x23d967bf;
    0xb3667a2e; 0xc4614ab8; 0x5d681b02; 0x2a6f2b94; 0xb40bbe37; 0xc30c8ea1; 0x5a05df1b; 0x2d02ef8d
  ].

(** One round of the loop: [buffer[i]] is a [char], converted to [unsigned]. *)
Definition crc_round (crc : Z) (c : Z) : option Z :=
  e ← crc_table !! Z.to_nat (Z.land (Z.lxor crc (uwrap 32 c)) 0xff);
  Some (Z.lxor e (Z.shiftr crc 8)).

Fixpoint crc_loop (n : nat) (crc : Z) (buffer : list Z) : option Z :=
  match n, buffer with
  | O, _ => Some crc
  | S n, c :: buffer => crc ← crc_round crc c; crc_loop n crc buffer
  | S _, [] => None
  end.

Definition crc32 (buffer : list Z) (size : Z) : option Z :=
  crc_loop (Z.to_nat size) 0xffffffff buffer.

(** ** The reference *)
Definition crc_poly : Z := 0xEDB88320.

Definition lfsr (x : Z) : Z := Z.lxor (Z.shiftr x 1) (if Z.odd x then crc_poly else 0).

Definition lfsr8 (x : Z) : Z := lfsr (lfsr (lfsr (lfsr (lfsr (lfsr (lfsr (lfsr x))))))).

(** A byte enters the low end of the register. *)
Definition crc_byte (crc c : Z) : Z := lfsr8 (Z.lxor crc (c mod 256)).

Definition crc32_reference (buffer : list Z) : Z := foldl crc_byte 0xffffffff buffer.

(** ** Linearity and the table *)
Lemma lfsr_lxor x y : lfsr (Z.lxor x y) = Z.lxor (lfsr x) (lfsr y).
Proof.
  unfold lfsr. rewrite Z.shiftr_lxor.
  assert (Z.odd (Z.lxor x y) = xorb (Z.odd x) (Z.odd y)) as ->.
  { by rewrite <-!Z.bit0_odd, Z.lxor_spec. }
  apply Z.bits_inj'. intros i Hi.
  destruct (Z.odd x), (Z.odd y); cbn [xorb]; rewrite !Z.lxor_spec, ?Z.bits_0;
    destruct (Z.testbit (Z.shiftr x 1) i), (Z.testbit (Z.shiftr y 1) i), (Z.testbit crc_poly i); done.
Qed.

Lemma lfsr8_lxor x y : lfsr8 (Z.lxor x y) = Z.lxor (lfsr8 x) (lfsr8 y).
Proof. unfold lfsr8. by rewrite !lfsr_lxor. Qed.

Lemma lfsr_double x : lfsr (2 * x) = x.
Proof.
  unfold lfsr. rewrite Z.odd_mul. cbn [Z.odd andb]. rewrite Z.lxor_0_r, Z.shiftr_div_pow2 by lia.
  change (2 ^ 1) with 2. rewrite Z.mul_comm. by apply Z.div_mul.
Qed.

Lemma lfsr8_shift y : lfsr8 (Z.shiftl y 8) = y.
Proof.
  rewrite Z.shiftl_mul_pow2 by lia.
  replace (y * 2 ^ 8) with (2 * (2 * (2 * (2 * (2 * (2 * (2 * (2 * y)))))))) by lia.
  unfold lfsr8. by rewrite !lfsr_double.
Qed.

(** Every entry of the table is eight shifts of its index. *)
Lemma crc_table_lfsr i : 0 ≤ i < 256 → crc_table !! Z.to_nat i = Some (lfsr8 i).
Proof.
  intros Hi.
  assert (∀ n, (n < 256)%nat → crc_table !! n = Some (lfsr8 (Z.of_nat n))) as H.
  {
    assert (forallb (λ n, bool_decide (crc_table !! n = Some (lfsr8 (Z.of_nat n)))) (seq 0 256) = true) as H
      by (vm_compute; reflexivity).
    rewrite forallb_forall in H. intros n Hn. specialize (H n).
    rewrite bool_decide_eq_true in H. apply H. apply in_seq. lia. }
  rewrite H by lia. by rewrite Z2Nat.id by lia.
Qed.

Lemma split_byte x : x = Z.lxor (Z.shiftl (Z.shiftr x 8) 8) (Z.land x 0xff).
Proof.
  apply Z.bits_inj'. intros i Hi. rewrite Z.lxor_spec, Z.land_spec, Z.shiftl_spec by done.
  change 0xff with (Z.ones 8). destruct (decide (i < 8)).
  - rewrite Z.ones_spec_low by lia. rewrite (Z.testbit_neg_r _ (i - 8)) by lia. rewrite andb_true_r.
    by destruct (Z.testbit x i).
  - rewrite Z.ones_spec_high, Z.shiftr_spec by lia. rewrite andb_false_r.
    replace (i - 8 + 8) with i by lia. by destruct (Z.testbit x i).
Qed.

Lemma shiftr_byte c : Z.shiftr (c mod 256) 8 = 0.
Proof.
  rewrite Z.shiftr_div_pow2 by lia. apply Z.div_small. change (2 ^ 8) with 256.
  apply Z.mod_pos_bound. lia.
Qed.

(** A round of the loop is a byte of the reference, and the index is in range. *)
Lemma crc_round_byte crc c : crc_round crc c = Some (crc_byte crc c).
Proof.
  unfold crc_round, crc_byte.
  assert (Z.land (Z.lxor crc (uwrap 32 c)) 0xff = Z.land (Z.lxor crc (c mod 256)) 0xff) as ->.
  { change 0xff with (Z.ones 8). rewrite !Z.land_ones by lia. apply Z.bits_inj'. intros i Hi.
    destruct (decide (i < 8)).
    - rewrite !Z.mod_pow2_bits_low, !Z.lxor_spec by lia. f_equal. unfold uwrap.
      rewrite Z.mod_pow2_bits_low by lia. change 256 with (2 ^ 8). by rewrite Z.mod_pow2_bits_low by lia.
    - by rewrite !Z.mod_pow2_bits_high by lia. }
  rewrite crc_table_lfsr.
  2:{ change 0xff with (Z.ones 8). rewrite Z.land_ones by lia. apply Z.mod_pos_bound. lia. }
  cbn. f_equal. rewrite (split_byte (Z.lxor crc (c mod 256))) at 2.
  rewrite lfsr8_lxor, lfsr8_shift, Z.shiftr_lxor, shiftr_byte, Z.lxor_0_r. apply Z.lxor_comm.
Qed.

Lemma crc_loop_reference buffer crc : crc_loop (length buffer) crc buffer = Some (foldl crc_byte crc buffer).
Proof.
  revert crc. induction buffer as [|c buffer IH]; intros crc; cbn; [done|].
  rewrite crc_round_byte. cbn. apply IH.
Qed.

(** ** The register is a bijection *)
Definition in_reg (x : Z) : Prop := 0 ≤ x < 2 ^ 32.

Lemma lfsr_range x : in_reg x → in_reg (lfsr x).
Proof.
  unfold in_reg, lfsr. intros Hx. rewrite Z.shiftr_div_pow2 by lia.
  assert (0 ≤ x / 2 ^ 1 < 2 ^ 31) as Hh by (change (2 ^ 1) with 2; Z.to_euclidean_division_equations; lia).
  set (y := x / 2 ^ 1) in *. clearbody y.
  set (p := if Z.odd x then crc_poly else 0).
  assert (0 ≤ p < 2 ^ 32) as Hp by (unfold p; destruct (Z.odd x); cbv; split; congruence).
  clearbody p. split; [apply Z.lxor_nonneg; lia|].
  destruct (decide (Z.lxor y p = 0)) as [->|Hne]; [lia|].
  assert (0 ≤ Z.lxor y p) by (apply Z.lxor_nonneg; lia).
  apply Z.log2_lt_pow2; [lia|]. eapply Z.le_lt_trans; [apply Z.log2_lxor; lia|].
  destruct (decide (y = 0)) as [->|], (decide (p = 0)) as [->|]; cbn [Z.log2 Z.max]; try lia;
    apply Z.max_lub_lt; try (apply Z.log2_lt_pow2; lia); cbn; lia.
Qed.

Lemma lfsr_top x : in_reg x → Z.testbit (lfsr x) 31 = Z.odd x.
Proof.
  unfold in_reg, lfsr. intros Hx. rewrite Z.lxor_spec, Z.shiftr_spec by lia.
  assert (Z.testbit x (31 + 1) = false) as ->.
  { apply Z.testbit_false; [lia|]. rewrite Z.div_small by (change (31 + 1) with 32; lia). done. }
  by destruct (Z.odd x).
Qed.

Lemma lfsr_inj x y : in_reg x → in_reg y → lfsr x = lfsr y → x = y.
Proof.
  intros Hx Hy E. assert (Z.odd x = Z.odd y) as Ho by (rewrite <-!lfsr_top, E by done; done).
  unfold lfsr in E. rewrite Ho in E.
  assert (Z.shiftr x 1 = Z.shiftr y 1) as Es.
  { set (q := if Z.odd y then crc_poly else 0) in E.
    assert (Z.lxor (Z.lxor (Z.shiftr x 1) q) q = Z.lxor (Z.lxor (Z.shiftr y 1) q) q) as E2 by (by rewrite E).
    by rewrite !Z.lxor_assoc, Z.lxor_nilpotent, !Z.lxor_0_r in E2. }
  rewrite !Z.shiftr_div_pow2 in Es by lia. change (2 ^ 1) with 2 in Es.
  rewrite (Z.div_mod x 2), (Z.div_mod y 2), Es, !Zmod_odd, Ho by lia. done.
Qed.

Lemma lfsr8_range x : in_reg x → in_reg (lfsr8 x).
Proof. intros H. unfold lfsr8. by do 8 apply lfsr_range. Qed.

Lemma lfsr8_inj x y : in_reg x → in_reg y → lfsr8 x = lfsr8 y → x = y.
Proof.
  intros Hx Hy. unfold lfsr8. intros E.
  repeat (apply lfsr_inj in E; [|auto 10 using lfsr_range..]). done.
Qed.

Lemma in_reg_lxor x c : in_reg x → in_reg (Z.lxor x (c mod 256)).
Proof.
  intros Hx. unfold in_reg in *. pose proof (Z.mod_pos_bound c 256) as Hc.
  assert (0 ≤ Z.lxor x (c mod 256)) by (apply Z.lxor_nonneg; lia). split; [done|].
  destruct (decide (Z.lxor x (c mod 256) = 0)) as [->|]; [lia|].
  apply Z.log2_lt_pow2; [lia|]. eapply Z.le_lt_trans; [apply Z.log2_lxor; lia|].
  destruct (decide (x = 0)) as [->|], (decide (c mod 256 = 0)) as [->|]; cbn [Z.log2 Z.max]; try lia;
    apply Z.max_lub_lt; try (apply Z.log2_lt_pow2; lia); cbn; lia.
Qed.

Lemma crc_byte_eq crc c : crc_byte crc c = lfsr8 (Z.lxor crc (c mod 256)).
Proof. reflexivity. Qed.

Lemma crc_byte_range crc c : in_reg crc → in_reg (crc_byte crc c).
Proof. intros H. rewrite crc_byte_eq. by apply lfsr8_range, in_reg_lxor. Qed.

Lemma crc_bytes_range l crc : in_reg crc → in_reg (foldl crc_byte crc l).
Proof. revert crc. induction l as [|c l IH]; intros crc H; cbn; [done|]. by apply IH, crc_byte_range. Qed.

Lemma lxor_cancel_r x y z : Z.lxor x z = Z.lxor y z → x = y.
Proof.
  intros E. assert (Z.lxor (Z.lxor x z) z = Z.lxor (Z.lxor y z) z) as E2 by (by rewrite E).
  by rewrite !Z.lxor_assoc, Z.lxor_nilpotent, !Z.lxor_0_r in E2.
Qed.

Lemma crc_bytes_inj l x y : in_reg x → in_reg y → foldl crc_byte x l = foldl crc_byte y l → x = y.
Proof.
  revert x y. induction l as [|c l IH]; intros x y Hx Hy; cbn; [done|]. intros E.
  apply IH in E; [|by apply crc_byte_range..]. rewrite !crc_byte_eq in E.
  apply lfsr8_inj in E; [|by apply in_reg_lxor..]. by apply lxor_cancel_r in E.
Qed.

Lemma char_mod_inj c d : in_srange 8 c → in_srange 8 d → c mod 256 = d mod 256 → c = d.
Proof. unfold in_srange. change (2 ^ (8 - 1)) with 128. Z.to_euclidean_division_equations; lia. Qed.

Lemma crc_byte_inj crc c d :
  in_reg crc → in_srange 8 c → in_srange 8 d → crc_byte crc c = crc_byte crc d → c = d.
Proof.
  intros Hr Hc Hd E. rewrite !crc_byte_eq in E. apply lfsr8_inj in E; [|by apply in_reg_lxor..].
  rewrite !(Z.lxor_comm crc) in E. apply lxor_cancel_r in E. by apply char_mod_inj.
Qed.

Lemma crc32_total buffer : crc32 buffer (Z.of_nat (length buffer)) = Some (crc32_reference buffer).
Proof. unfold crc32. rewrite Nat2Z.id. apply crc_loop_reference. Qed.

Lemma crc32_bound buffer : in_reg (crc32_reference buffer).
Proof. apply crc_bytes_range. by unfold in_reg. Qed.

(** ** The claims *)

(** C39: The table-driven loop computes the CRC-32 of the buffer: it never
    indexes outside the 256-entry table, equals the bitwise shift register with
    the reflected polynomial over every byte, and its result fits the 32-bit
    [CheckSum] field. *)
Theorem crc32_is_crc buffer :
  ∃ r, crc32 buffer (Z.of_nat (length buffer)) = Some r ∧ r = crc32_reference buffer ∧ 0 ≤ r < 2 ^ 32.
Proof. exists (crc32_reference buffer). split_and!; [apply crc32_total|done|apply crc32_bound..]. Qed.

(** Corruption confined to one byte is always detected: two buffers of chars
    that differ in exactly one byte, at any position and whatever the difference,
    have different checksums. *)
Theorem crc32_detects_byte_error l1 c d l2 :
  in_srange 8 c → in_srange 8 d → c ≠ d →
  crc32 (l1 ++ c :: l2) (Z.of_nat (length (l1 ++ c :: l2))) ≠
  crc32 (l1 ++ d :: l2) (Z.of_nat (length (l1 ++ d :: l2))).
Proof.
  intros Hc Hd Hne. rewrite !crc32_total. intros [= E]. apply Hne.
  unfold crc32_reference in E. rewrite !foldl_app in E. cbn in E.
  assert (in_reg (foldl crc_byte 0xffffffff l1)) as Hr by (apply crc_bytes_range; by unfold in_reg).
  apply crc_bytes_inj in E; [|by apply crc_byte_range..]. by apply crc_byte_inj in E.
Qed.

Lemma crc32_detects_byte_error_witness :
  in_srange 8 (-3) ∧ crc32 [1; 2; -3; 4] 4 = Some 0xc3fcc801 ∧
  crc32 ([1; 2] ++ (-3) :: [4]) 4 ≠ crc32 ([1; 2] ++ 3 :: [4]) 4.
Proof.
  split; [split; [intros H; vm_compute in H; discriminate|reflexivity]|].
  split; [vm_compute; reflexivity|].
  apply (crc32_detects_byte_error [1; 2] (-3) 3 [4]).
  - split; [intros H; vm_compute in H; discriminate|reflexivity].
  - split; [intros H; vm_compute in H; discriminate|reflexivity].
  - discriminate.
Defined.
