(* ===== verification/Os.v ===== *)
(** * Files and the transfer loops

    The operating system as the storage code uses it (descriptors, byte files,
    [read], [write], [pread], [pwrite], [lseek], the clock) and the loops of
    [common/io/io.cpp] that hide partial transfers.  A system call may transfer
    less than asked or fail: the next outcomes are listed in [os_script], and
    once the list is used up every call does all of what it was asked.  The list
    is arbitrary, so a theorem covers every finite sequence of short transfers,
    interruptions and errors. *)

From S2P Require Import Prelude.
Local Open Scope Z_scope.

(** The outcome of the next system call: at most so many bytes, or [errno]. *)
Inductive sysret : Type := Transfer (n : Z) | Errno (e : positive).

Record OS : Type := mkOS {
  os_files : gmap string (list Z);
  os_fds : gmap Z (string * Z);
  os_script : list sysret;
  os_now : Z;
  os_ticks : list Z
}.

Definition set_files (fs : gmap string (list Z)) (s : OS) : OS :=
  mkOS fs (os_fds s) (os_script s) (os_now s) (os_ticks s).
Definition set_fds (m : gmap Z (string * Z)) (s : OS) : OS :=
  mkOS (os_files s) m (os_script s) (os_now s) (os_ticks s).
Definition set_script (l : list sysret) (s : OS) : OS :=
  mkOS (os_files s) (os_fds s) l (os_now s) (os_ticks s).

Definition EINTR : Z := 4.
Definition EIO : Z := 5.
Definition EBADF : Z := 9.
Definition EAGAIN : Z := 11.
Definition EINVAL : Z := 22.

(** What the environment decided for this call; [None] is a full success. *)
Definition next_call : M OS (option sysret) :=
  s ← fetch;
  match os_script s with
  | [] => mret None
  | r :: l => store (set_script l s);; mret (Some r)
  end.

(** [steady_clock::now]: time advances by the next tick. *)
Definition clock_now : M OS Z :=
  s ← fetch;
  match os_ticks s with
  | [] => mret (os_now s)
  | t :: l => store (mkOS (os_files s) (os_fds s) (os_script s) (os_now s + t) l);; mret (os_now s + t)
  end.

(** ** System calls *)
Inductive ioret : Type := IoOk (bs : list Z) | IoErr (e : Z).

Definition content (s : OS) (name : string) : list Z := default [] (os_files s !! name).

(** The bytes a read may return: none only at the end of the file. *)
Definition read_slice (c : list Z) (off size : Z) (r : option sysret) : list Z :=
  let avail := take (Z.to_nat size) (drop (Z.to_nat off) c) in
  match r with
  | Some (Transfer k) => take (Z.to_nat (Z.max 1 k)) avail
  | _ => avail
  end.

(** The bytes a write accepts. *)
Definition write_slice (bs : list Z) (r : option sysret) : list Z :=
  match r with
  | Some (Transfer k) => take (Z.to_nat k) bs
  | _ => bs
  end.

(** Storing bytes at an offset; a gap after the end reads as zeros. *)
Definition file_put (c : list Z) (off : Z) (bs : list Z) : list Z :=
  match bs with
  | [] => c
  | _ => take (Z.to_nat off) c ++ replicate (Z.to_nat off - length c) 0 ++ bs
           ++ drop (Z.to_nat off + length bs) c
  end.

Definition seek_to (fd off : Z) : M OS unit :=
  modify (λ s, match os_fds s !! fd with
               | Some (name, _) => set_fds (<[fd := (name, off)]> (os_fds s)) s
               | None => s
               end).

Definition put_bytes (name : string) (off : Z) (bs : list Z) : M OS unit :=
  modify (λ s, set_files (<[name := file_put (content s name) off bs]> (os_files s)) s).

Definition sys_pread (fd size offset : Z) : M OS ioret :=
  r ← next_call; s ← fetch;
  match os_fds s !! fd, r with
  | None, _ => mret (IoErr EBADF)
  | _, Some (Errno e) => mret (IoErr (Z.pos e))
  | Some (name, _), _ =>
      if offset <? 0 then mret (IoErr EINVAL) else mret (IoOk (read_slice (content s name) offset size r))
  end.

Definition sys_pwrite (fd : Z) (bs : list Z) (offset : Z) : M OS ioret :=
  r ← next_call; s ← fetch;
  match os_fds s !! fd, r with
  | None, _ => mret (IoErr EBADF)
  | _, Some (Errno e) => mret (IoErr (Z.pos e))
  | Some (name, _), _ =>
      if offset <? 0 then mret (IoErr EINVAL)
      else put_bytes name offset (write_slice bs r);; mret (IoOk (write_slice bs r))
  end.

(** [read] and [write] work at the descriptor's offset and move it. *)
Definition sys_read (fd size : Z) : M OS ioret :=
  s ← fetch;
  match os_fds s !! fd with
  | None => sys_pread fd size 0
  | Some (_, off) =>
      r ← sys_pread fd size off;
      match r with
      | IoOk bs => seek_to fd (off + Z.of_nat (length bs));; mret r
      | IoErr _ => mret r
      end
  end.

Definition sys_write (fd : Z) (bs : list Z) : M OS ioret :=
  s ← fetch;
  match os_fds s !! fd with
  | None => sys_pwrite fd bs 0
  | Some (_, off) =>
      r ← sys_pwrite fd bs off;
      match r with
      | IoOk done => seek_to fd (off + Z.of_nat (length done));; mret r
      | IoErr _ => mret r
      end
  end.

(** [lseek(fd, offset, SEEK_SET)]: [false] is the result -1. *)
Definition sys_lseek (fd offset : Z) : M OS bool :=
  r ← next_call; s ← fetch;
  match os_fds s !! fd, r with
  | None, _ => mret false
  | _, Some (Errno _) => mret false
  | Some _, _ => if offset <? 0 then mret false else seek_to fd offset;; mret true
  end.

(** [open]: an existing file, or a new one if [create]; it must be new if [excl].
    The result is a descriptor above all open ones, or -1. *)
Definition new_fd (m : gmap Z (string * Z)) : Z := map_fold (λ fd _ n, Z.max (fd + 1) n) 3 m.

Definition sys_open (name : string) (create excl : bool) : M OS Z :=
  r ← next_call; s ← fetch;
  match r, os_files s !! name with
  | Some (Errno _), _ => mret (-1)
  | _, None => if create then
                 store (set_fds (<[new_fd (os_fds s) := (name, 0)]> (os_fds s))
                          (set_files (<[name := []]> (os_files s)) s));; mret (new_fd (os_fds s))
               else mret (-1)
  | _, Some _ => if excl then mret (-1)
                 else store (set_fds (<[new_fd (os_fds s) := (name, 0)]> (os_fds s)) s);; mret (new_fd (os_fds s))
  end.

(** [close] releases the descriptor even if it reports an error. *)
Definition sys_close (fd : Z) : M OS Z :=
  r ← next_call; s ← fetch;
  store (set_fds (delete fd (os_fds s)) s);;
  match os_fds s !! fd, r with
  | None, _ | _, Some (Errno _) => mret (-1)
  | Some _, _ => mret 0
  end.

(** ** The loops of [common/io/io.cpp]

    Each round uses up an outcome or does everything, so two rounds more than
    there are outcomes are enough.  The result is the return value together with
    the bytes placed in the caller's buffer. *)
Definition retry (e : Z) : bool := (e =? EAGAIN) || (e =? EINTR).

Fixpoint writen_loop (n : nat) (fd : Z) (buf : list Z) : M OS Z :=
  match buf with
  | [] => mret 0
  | _ =>
      match n with
      | O => abort
      | S n =>
          r ← sys_write fd buf;
          match r with
          | IoOk bs => writen_loop n fd (drop (length bs) buf)
          | IoErr err => if negb (retry err) then mret err else writen_loop n fd buf
          end
      end
  end.

Definition writen (fd : Z) (buf : list Z) : M OS Z := λ s, writen_loop (2 + length (os_script s)) fd buf s.

Fixpoint readn_loop (n : nat) (fd size : Z) (buf : list Z) : M OS (Z * list Z) :=
  if 0 <? size then
    match n with
    | O => abort
    | S n =>
        r ← sys_read fd size;
        match r with
        | IoOk [] => mret (-1, buf)
        | IoOk bs => readn_loop n fd (size - Z.of_nat (length bs)) (buf ++ bs)
        | IoErr err => if negb (retry err) then mret (err, buf) else readn_loop n fd size buf
        end
    end
  else mret (0, buf).

Definition readn (fd size : Z) : M OS (Z * list Z) := λ s, readn_loop (2 + length (os_script s)) fd size [] s.

Fixpoint preadn_loop (n : nat) (fd size offset : Z) (buf : list Z) : M OS (Z * list Z) :=
  if 0 <? size then
    match n with
    | O => abort
    | S n =>
        r ← sys_pread fd size offset;
        match r with
        | IoOk [] => mret (-1, buf)
        | IoOk bs => preadn_loop n fd (size - Z.of_nat (length bs)) (offset + Z.of_nat (length bs)) (buf ++ bs)
        | IoErr err => if negb (retry err) then mret (err, buf) else preadn_loop n fd size offset buf
        end
    end
  else mret (0, buf).

Definition preadn (fd size offset : Z) : M OS (Z * list Z) :=
  λ s, preadn_loop (2 + length (os_script s)) fd size offset [] s.

Fixpoint pwriten_loop (n : nat) (fd : Z) (buf : list Z) (offset : Z) : M OS Z :=
  match buf with
  | [] => mret 0
  | _ =>
      match n with
      | O => abort
      | S n =>
          r ← sys_pwrite fd buf offset;
          match r with
          | IoOk [] => mret EIO
          | IoOk bs => pwriten_loop n fd (drop (length bs) buf) (offset + Z.of_nat (length bs))
          | IoErr err => if negb (retry err) then mret err else pwriten_loop n fd buf offset
          end
      end
  end.

Definition pwriten (fd : Z) (buf : list Z) (offset : Z) : M OS Z :=
  λ s, pwriten_loop (2 + length (os_script s)) fd buf offset s.

(** ** Bytes stored at an offset *)
Lemma lookup_take_if {A} (l : list A) n i : take n l !! i = if decide (i < n)%nat then l !! i else None.
Proof. case_decide; [by apply lookup_take_lt|]. apply lookup_take_ge. lia. Qed.

Lemma lookup_replicate_if {A} (x : A) n i : replicate n x !! i = if decide (i < n)%nat then Some x else None.
Proof. case_decide; [by apply lookup_replicate_2|]. apply lookup_replicate_None. lia. Qed.

Lemma file_put_lookup c off bs i :
  0 ≤ off → bs ≠ [] →
  file_put c off bs !! i =
    if decide (Z.to_nat off ≤ i < Z.to_nat off + length bs)%nat then bs !! (i - Z.to_nat off)%nat
    else if decide (i < Z.to_nat off ∧ length c ≤ i)%nat then Some 0
    else c !! i.
Proof.
  intros Ho Hb. unfold file_put. destruct bs as [|b bs]; [done|]. clear Hb. set (l := b :: bs). clearbody l.
  set (o := Z.to_nat off). clearbody o.
  rewrite !lookup_app, lookup_take_if, lookup_replicate_if, length_take, length_replicate, lookup_drop.
  destruct (decide (i < o)%nat) as [H1|H1].
  - rewrite (decide_False (P:=(o ≤ i < o + length l)%nat)) by lia.
    destruct (c !! i) as [x|] eqn:E.
    + apply lookup_lt_Some in E. rewrite decide_False by lia. done.
    + apply lookup_ge_None in E. rewrite decide_True by lia.
      rewrite decide_True by lia. done.
  - rewrite (decide_False (P:=(i < o ∧ length c ≤ i)%nat)) by lia.
    rewrite (decide_False (P:=(_ < o - length c)%nat)) by lia.
    replace (i - o `min` length c - (o - length c))%nat with (i - o)%nat by lia.
    destruct (decide (o ≤ i < o + length l)%nat) as [H2|H2].
    + destruct (lookup_lt_is_Some_2 l (i - o)) as [x ->]; [lia|done].
    + rewrite (lookup_ge_None_2 l) by lia. f_equal. lia.
Qed.

Lemma file_put_length c off bs :
  0 ≤ off → bs ≠ [] → length (file_put c off bs) = Nat.max (length c) (Z.to_nat off + length bs).
Proof.
  intros Ho Hb. unfold file_put. destruct bs as [|b bs]; [done|].
  rewrite !length_app, length_take, length_replicate, length_drop. lia.
Qed.

(** Two adjacent pieces are one. *)
Lemma file_put_app c off bs1 bs2 :
  0 ≤ off → file_put (file_put c off bs1) (off + Z.of_nat (length bs1)) bs2 = file_put c off (bs1 ++ bs2).
Proof.
  intros Ho. destruct bs1 as [|a bs1]; [by rewrite Z.add_0_r|]. set (l1 := a :: bs1).
  destruct bs2 as [|b bs2]; [by rewrite app_nil_r|]. set (l2 := b :: bs2).
  assert (l1 ≠ [] ∧ l2 ≠ [] ∧ l1 ++ l2 ≠ []) as (H1 & H2 & H3) by done. clearbody l1 l2.
  apply list_eq. intros i. rewrite !file_put_lookup, file_put_length, length_app, lookup_app by (done || lia).
  replace (Z.to_nat (off + Z.of_nat (length l1))) with (Z.to_nat off + length l1)%nat by lia.
  destruct (decide (Z.to_nat off + length l1 ≤ i < Z.to_nat off + length l1 + length l2)%nat).
  - rewrite decide_True by lia. rewrite (lookup_ge_None_2 l1) by lia. f_equal. lia.
  - destruct (decide (Z.to_nat off ≤ i < Z.to_nat off + length l1)%nat).
    + rewrite decide_False by lia. rewrite decide_True by lia.
      destruct (lookup_lt_is_Some_2 l1 (i - Z.to_nat off)) as [x ->]; [lia|done].
    + rewrite decide_False by lia. rewrite (decide_False (P:=(Z.to_nat off ≤ i < _)%nat)) by lia. done.
Qed.

(** ** The loops *)

(** The state in which [fd]'s file holds [c], its offset is [off] and the
    outcomes [l] are left. *)
Definition os_at (s : OS) (fd : Z) (name : string) (c : list Z) (off : Z) (l : list sysret) : OS :=
  mkOS (<[name := c]> (os_files s)) (<[fd := (name, off)]> (os_fds s)) l (os_now s) (os_ticks s).

Lemma os_at_eq s fd name off c :
  os_fds s !! fd = Some (name, off) → os_files s !! name = Some c → os_at s fd name c off (os_script s) = s.
Proof. intros H1 H2. unfold os_at. rewrite (insert_id _ _ _ H1), (insert_id _ _ _ H2). by destruct s. Qed.

Lemma os_at_at s fd name c off l c' off' l' :
  os_at (os_at s fd name c off l) fd name c' off' l' = os_at s fd name c' off' l'.
Proof. unfold os_at. cbn. by rewrite !insert_insert_eq. Qed.

Definition next_script (l : list sysret) : list sysret := drop 1 l.

Lemma next_call_eq s : next_call s = Some (head (os_script s), set_script (next_script (os_script s)) s).
Proof. unfold next_call. mstep. destruct s as [fs fds [|r l] now ticks]; done. Qed.

Lemma sys_pread_eq s fd name c off l size offset :
  0 ≤ offset →
  sys_pread fd size offset (os_at s fd name c off l) =
  Some (match head l with
        | Some (Errno e) => IoErr (Z.pos e)
        | r => IoOk (read_slice c offset size r)
        end, os_at s fd name c off (next_script l)).
Proof.
  intros Ho%Z.ltb_ge. unfold sys_pread. rewrite (exec (next_call_eq _)). mstep. unfold content. cbn.
  rewrite !lookup_insert_eq, Ho. cbn. destruct (head l) as [[k|e]|]; done.
Qed.

Lemma sys_pwrite_eq s fd name c off l bs offset :
  0 ≤ offset →
  sys_pwrite fd bs offset (os_at s fd name c off l) =
  Some (match head l with
        | Some (Errno e) => (IoErr (Z.pos e), os_at s fd name c off (next_script l))
        | r => (IoOk (write_slice bs r),
                os_at s fd name (file_put c offset (write_slice bs r)) off (next_script l))
        end).
Proof.
  intros Ho%Z.ltb_ge. unfold sys_pwrite. rewrite (exec (next_call_eq _)). mstep. unfold content. cbn.
  rewrite !lookup_insert_eq, Ho. cbn.
  destruct (head l) as [[k|e]|]; [|done|]; unfold put_bytes, modify, content, set_files; cbn;
    rewrite lookup_insert_eq, insert_insert_eq; done.
Qed.

Lemma seek_to_eq s fd name c off l off' :
  seek_to fd off' (os_at s fd name c off l) = Some (tt, os_at s fd name c off' l).
Proof.
  unfold seek_to, modify. cbn. rewrite lookup_insert_eq.
  unfold os_at, set_fds. cbn. by rewrite insert_insert_eq.
Qed.

Lemma sys_lseek_eq s fd name c off l off' :
  0 ≤ off' →
  sys_lseek fd off' (os_at s fd name c off l) =
  Some (match head l with
        | Some (Errno _) => (false, os_at s fd name c off (next_script l))
        | _ => (true, os_at s fd name c off' (next_script l))
        end).
Proof.
  intros Ho. unfold sys_lseek. rewrite (exec (next_call_eq _)).
  erewrite (bind_run fetch) by done. cbn [os_fds os_at set_script]. rewrite lookup_insert_eq.
  rewrite (proj2 (Z.ltb_ge _ _)) by lia. cbn [os_script os_at].
  change (set_script (next_script l) (os_at s fd name c off l)) with (os_at s fd name c off (next_script l)).
  destruct (head l) as [[k|e]|]; [|done|]; by rewrite (exec (seek_to_eq _ _ _ _ _ _ _)).
Qed.

Lemma sys_read_eq s fd name c off l size :
  0 ≤ off →
  sys_read fd size (os_at s fd name c off l) =
  Some (match head l with
        | Some (Errno e) => (IoErr (Z.pos e), os_at s fd name c off (next_script l))
        | r => let bs := read_slice c off size r in
               (IoOk bs, os_at s fd name c (off + Z.of_nat (length bs)) (next_script l))
        end).
Proof.
  intros Ho. unfold sys_read. erewrite (bind_run fetch) by done. cbn [os_fds os_at].
  rewrite lookup_insert_eq. rewrite (exec (sys_pread_eq _ _ _ _ _ _ _ _ Ho)).
  destruct (head l) as [[k|e]|]; [|done|]; by rewrite (exec (seek_to_eq _ _ _ _ _ _ _)).
Qed.

Lemma sys_write_eq s fd name c off l bs :
  0 ≤ off →
  sys_write fd bs (os_at s fd name c off l) =
  Some (match head l with
        | Some (Errno e) => (IoErr (Z.pos e), os_at s fd name c off (next_script l))
        | r => let d := write_slice bs r in
               (IoOk d, os_at s fd name (file_put c off d) (off + Z.of_nat (length d)) (next_script l))
        end).
Proof.
  intros Ho. unfold sys_write. erewrite (bind_run fetch) by done. cbn [os_fds os_at].
  rewrite lookup_insert_eq.
  destruct (head l) as [[k|e]|] eqn:Hl;
    (erewrite bind_run by (rewrite sys_pwrite_eq, Hl by done; reflexivity)); cbv beta iota zeta; [|done|];
    by rewrite (exec (seek_to_eq _ _ _ _ _ _ _)).
Qed.

Lemma next_script_suffix l : next_script l `suffix_of` l.
Proof. destruct l as [|r l]; cbn; [done|]. by apply suffix_cons_r. Qed.

Lemma next_script_length l n : (S (length l) ≤ S n)%nat → head l ≠ None → (S (length (next_script l)) ≤ n)%nat.
Proof. destruct l; cbn; intros; [done|]. rewrite drop_0. lia. Qed.

(** Outcomes that are at worst short transfers. *)
Definition benign (l : list sysret) : Prop :=
  Forall (λ r, match r with Transfer k => 0 < k | Errno _ => False end) l.

Lemma benign_suffix l l' : l' `suffix_of` l → benign l → benign l'.
Proof. intros [k ->] H. by apply Forall_app in H as [_ ?]. Qed.

Lemma benign_next l : benign l → benign (next_script l).
Proof. apply benign_suffix, next_script_suffix. Qed.

Lemma benign_head l r : benign l → head l = Some r → ∃ k, r = Transfer k ∧ 0 < k.
Proof. destruct l as [|r' l]; [done|]. intros [H _]%list.Forall_cons [= ->]. destruct r; [eauto|done]. Qed.

Lemma benign_no_errno l e : head l = Some (Errno e) → ¬ benign l.
Proof. intros Hl Hb. by destruct (benign_head _ _ Hb Hl) as (k & ? & _). Qed.

Lemma write_slice_prefix bs r : write_slice bs r `prefix_of` bs.
Proof. destruct r as [[k|e]|]; cbn; [apply prefix_take|done..]. Qed.

Lemma prefix_drop {A} (d l : list A) : d `prefix_of` l → l = d ++ drop (length d) l.
Proof. intros [k ->]. by rewrite drop_app_length. Qed.

Lemma retry_pos e : retry e = true → e ≠ 0.
Proof. unfold retry, EAGAIN, EINTR. intros [->%Z.eqb_eq| ->%Z.eqb_eq]%orb_true_iff; done. Qed.

(** What a write loop leaves: the bytes [d] accepted so far, all of them exactly
    if it returns 0. *)
Record written (s : OS) (fd : Z) (name : string) (c : list Z) (offset : Z) (moved : bool) (off : Z)
    (l : list sysret) (buf : list Z) (ret : Z) (s' : OS) : Prop := {
  wr_state : ∃ d l', s' = os_at s fd name (file_put c offset d) (if moved then off + Z.of_nat (length d) else off) l' ∧
               d `prefix_of` buf ∧ l' `suffix_of` l ∧ (ret = 0 ↔ d = buf);
  wr_calm : benign l → ret = 0
}.

Lemma written_more s fd name c offset moved off l d buf ret s' :
  0 ≤ offset → d `prefix_of` buf → head l ≠ None →
  written s fd name (file_put c offset d) (offset + Z.of_nat (length d)) moved
    (if moved then off + Z.of_nat (length d) else off) (next_script l) (drop (length d) buf) ret s' →
  written s fd name c offset moved off l buf ret s'.
Proof.
  intros Ho Hd Hl [(d' & l' & -> & Hp & Hs & Hr) Hcalm]. split; [|by intros ?%benign_next; apply Hcalm].
  exists (d ++ d'), l'. rewrite file_put_app, length_app by done. rewrite (prefix_drop _ _ Hd) at 2.
  split_and!.
  - destruct moved; [|done]. f_equal. lia.
  - rewrite (prefix_drop _ _ Hd). by apply prefix_app.
  - etrans; [exact Hs|]. apply next_script_suffix.
  - rewrite Hr, (inj_iff (app d)). done.
Qed.

Lemma written_stop s fd name c offset moved off l buf e :
  ¬ benign l → buf ≠ [] → e ≠ 0 →
  written s fd name c offset moved off l buf e (os_at s fd name c off (next_script l)).
Proof.
  intros Hl Hb He. split; [|done]. exists [], (next_script l). cbn.
  split_and!; [destruct moved; f_equal; lia|apply prefix_nil|apply next_script_suffix|].
  split; intros; congruence.
Qed.

Lemma written_all s fd name c offset moved off buf :
  written s fd name c offset moved off [] buf 0
    (os_at s fd name (file_put c offset buf) (if moved then off + Z.of_nat (length buf) else off) []).
Proof. split; [|done]. by exists buf, []. Qed.

Lemma writen_loop_ok n s fd name c off l buf :
  0 ≤ off → (S (length l) ≤ n)%nat →
  ∃ ret s', writen_loop n fd buf (os_at s fd name c off l) = Some (ret, s') ∧
    written s fd name c off true off l buf ret s'.
Proof.
  revert c off l buf. induction n as [|n IH]; intros c off l buf Ho Hn; [lia|].
  destruct buf as [|b buf].
  { eexists _, _. split; [done|]. split; [|done]. exists [], l. cbn. rewrite Z.add_0_r. done. }
  set (bs := b :: buf). assert (bs ≠ []) as Hbs by done.
  assert (writen_loop (S n) fd bs = (r ← sys_write fd bs; match r with
          | IoOk d => writen_loop n fd (drop (length d) bs)
          | IoErr err => if negb (retry err) then mret err else writen_loop n fd bs end)) as -> by done.
  clearbody bs. pose proof (next_script_length l n Hn) as Hlen.
  assert (∀ d, d `prefix_of` bs → head l ≠ None → ∃ ret s',
    writen_loop n fd (drop (length d) bs) (os_at s fd name (file_put c off d) (off + Z.of_nat (length d)) (next_script l)) = Some (ret, s') ∧
    written s fd name c off true off l bs ret s') as Hmore.
  { intros d Hd Hl. destruct (IH (file_put c off d) (off + Z.of_nat (length d)) (next_script l) (drop (length d) bs))
      as (ret & s' & E & Hw); [lia|by apply Hlen|]. exists ret, s'. split; [done|].
    by eapply written_more. }
  destruct (head l) as [[k|e]|] eqn:Hl; erewrite bind_run by (rewrite sys_write_eq, Hl by done; reflexivity); cbv beta iota zeta.
  - apply Hmore; [apply write_slice_prefix|done].
  - destruct (retry (Z.pos e)) eqn:Hr; cbn [negb].
    + specialize (Hmore []). cbn in Hmore. rewrite Z.add_0_r in Hmore. apply Hmore; [apply prefix_nil|done].
    + eexists _, _. split; [done|]. apply written_stop; [by eapply benign_no_errno|done|done].
  - destruct l; [|done]. cbn [write_slice]. rewrite drop_all. eexists 0, _.
    split; [by destruct n|]. apply (written_all s fd name c off true off bs).
Qed.

Lemma pwriten_loop_ok n s fd name c offset off l buf :
  0 ≤ offset → (S (length l) ≤ n)%nat →
  ∃ ret s', pwriten_loop n fd buf offset (os_at s fd name c off l) = Some (ret, s') ∧
    written s fd name c offset false off l buf ret s'.
Proof.
  revert c offset l buf. induction n as [|n IH]; intros c offset l buf Ho Hn; [lia|].
  destruct buf as [|b buf].
  { eexists _, _. split; [done|]. split; [|done]. by exists [], l. }
  set (bs := b :: buf). assert (bs ≠ []) as Hbs by done.
  assert (pwriten_loop (S n) fd bs offset = (r ← sys_pwrite fd bs offset; match r with
          | IoOk [] => mret EIO
          | IoOk d => pwriten_loop n fd (drop (length d) bs) (offset + Z.of_nat (length d))
          | IoErr err => if negb (retry err) then mret err else pwriten_loop n fd bs offset end)) as -> by done.
  clearbody bs. pose proof (next_script_length l n Hn) as Hlen.
  assert (∀ d, d `prefix_of` bs → head l ≠ None → ∃ ret s',
    pwriten_loop n fd (drop (length d) bs) (offset + Z.of_nat (length d))
      (os_at s fd name (file_put c offset d) off (next_script l)) = Some (ret, s') ∧
    written s fd name c offset false off l bs ret s') as Hmore.
  { intros d Hd Hl. destruct (IH (file_put c offset d) (offset + Z.of_nat (length d)) (next_script l) (drop (length d) bs))
      as (ret & s' & E & Hw); [lia|by apply Hlen|]. exists ret, s'. split; [done|].
    by eapply written_more. }
  destruct (head l) as [[k|e]|] eqn:Hl; erewrite bind_run by (rewrite sys_pwrite_eq, Hl by done; reflexivity); cbv beta iota zeta.
  - pose proof (write_slice_prefix bs (Some (Transfer k))) as Hp.
    destruct (write_slice bs (Some (Transfer k))) as [|d0 d] eqn:Hd.
    + eexists _, _. split; [done|]. apply written_stop; [|done|done]. intros Hb.
      destruct (benign_head _ _ Hb Hl) as (k' & [= <-] & Hk). cbn in Hd. destruct bs; [done|].
      destruct (Z.to_nat k) eqn:E; [lia|done].
    + apply Hmore; [done|done].
  - destruct (retry (Z.pos e)) eqn:Hr; cbn [negb].
    + specialize (Hmore []). cbn in Hmore. rewrite Z.add_0_r in Hmore. apply Hmore; [apply prefix_nil|done].
    + eexists _, _. split; [done|]. apply written_stop; [by eapply benign_no_errno|done|done].
  - destruct l; [|done]. cbn [write_slice]. destruct bs as [|b0 bs]; [done|]. rewrite drop_all. eexists 0, _.
    split; [by destruct n|]. apply (written_all s fd name c offset false off (b0 :: bs)).
Qed.

(** ** Reading *)
Definition slice (c : list Z) (off n : Z) : list Z := take (Z.to_nat n) (drop (Z.to_nat off) c).

Lemma slice_app c off a b :
  0 ≤ off → 0 ≤ a → 0 ≤ b → slice c off (a + b) = slice c off a ++ slice c (off + a) b.
Proof.
  intros Ho Ha Hb. unfold slice. rewrite !Z2Nat.inj_add by lia.
  rewrite <-drop_drop. symmetry. apply take_take_drop.
Qed.

Lemma slice_length c off n : 0 ≤ off → 0 ≤ n → Z.of_nat (length (slice c off n)) = Z.max 0 (Z.min n (Z.of_nat (length c) - off)).
Proof. intros. unfold slice. rewrite length_take, length_drop. lia. Qed.

Lemma read_slice_spec c off size r :
  0 ≤ off → 0 < size →
  let bs := read_slice c off size r in
  bs = slice c off (Z.of_nat (length bs)) ∧ Z.of_nat (length bs) ≤ size ∧
  (bs = [] → Z.of_nat (length c) ≤ off).
Proof.
  intros Ho Hs bs. assert (∃ k, bs = slice c off k ∧ 0 < k ≤ size) as (k & E & Hk).
  { unfold bs, read_slice, slice. destruct r as [[k|e]|]; [|by exists size; split; [|lia]..].
    exists (Z.min (Z.max 1 k) size). split; [|lia]. rewrite take_take. f_equal. lia. }
  rewrite E, slice_length by lia. split_and!.
  - unfold slice. rewrite <-(take_drop (Z.to_nat k) (drop (Z.to_nat off) c)) at 2.
    rewrite take_app_le; [|rewrite length_take, length_drop; lia].
    symmetry. apply take_ge. rewrite length_take, length_drop. lia.
  - lia.
  - intros Hn. pose proof (slice_length c off k Ho) as Hl. rewrite Hn in Hl. cbn in Hl. lia.
Qed.

(** What a read loop returns: a piece of the file, the whole request exactly if
    it returns 0. *)
Record got (s : OS) (fd : Z) (name : string) (c : list Z) (offset : Z) (moved : bool) (off : Z)
    (l : list sysret) (size : Z) (ret : Z) (bs : list Z) (s' : OS) : Prop := {
  gt_state : ∃ l', s' = os_at s fd name c (if moved then off + Z.of_nat (length bs) else off) l' ∧ l' `suffix_of` l;
  gt_bytes : bs = slice c offset (Z.of_nat (length bs));
  gt_size : Z.of_nat (length bs) ≤ size;
  gt_ret : ret = 0 ↔ Z.of_nat (length bs) = size;
  gt_calm : benign l → offset + size ≤ Z.of_nat (length c) → ret = 0
}.

Lemma got_more s fd name c offset moved off l size ret bs bs2 s' :
  0 ≤ offset → bs = slice c offset (Z.of_nat (length bs)) → Z.of_nat (length bs) ≤ size →
  got s fd name c (offset + Z.of_nat (length bs)) moved (if moved then off + Z.of_nat (length bs) else off)
    (next_script l) (size - Z.of_nat (length bs)) ret bs2 s' →
  got s fd name c offset moved off l size ret (bs ++ bs2) s'.
Proof.
  intros Ho Hb Hs [(l' & -> & Hl') Hb2 Hs2 Hr Hcalm]. split; rewrite ?length_app, ?Nat2Z.inj_add.
  - exists l'. split; [|etrans; [exact Hl'|apply next_script_suffix]]. destruct moved; [|done]. f_equal. lia.
  - rewrite slice_app by lia. by rewrite <-Hb, <-Hb2.
  - lia.
  - rewrite Hr. lia.
  - intros Hbe Hlen. apply Hcalm; [by apply benign_next|]. lia.
Qed.

Lemma got_stop s fd name c offset moved off l size e :
  0 < size → e ≠ 0 → (benign l → Z.of_nat (length c) ≤ offset) →
  got s fd name c offset moved off l size e [] (os_at s fd name c off (next_script l)).
Proof.
  intros Hs He Hl. split; cbn; try done; try lia.
  - exists (next_script l). split; [destruct moved; f_equal; lia|apply next_script_suffix].
  - intros Hb. specialize (Hl Hb). lia.
Qed.

Lemma got_none s fd name c offset moved off l :
  got s fd name c offset moved off l 0 0 [] (os_at s fd name c off l).
Proof. split; cbn; try done. exists l. split; [destruct moved; f_equal; lia|done]. Qed.

(** Rounds that are enough: two more than the outcomes left, or one at the end of
    the file. *)
Definition rounds_ok (n : nat) (l : list sysret) (c : list Z) (offset size : Z) : Prop :=
  (length l + 2 ≤ n)%nat ∨ (l = [] ∧ Z.of_nat (length c) ≤ offset ∧ (1 ≤ n)%nat) ∨ size = 0.

Lemma rounds_next n l c offset size offset' size' :
  rounds_ok (S n) l c offset size → size ≠ 0 → head l ≠ None → rounds_ok n (next_script l) c offset' size'.
Proof.
  intros [H|[[-> _]|H]] Hs Hl; [|done|done]. left. destruct l; [done|]. cbn in *. rewrite drop_0. lia.
Qed.

(** With no outcome left a read is short only at the end of the file. *)
Lemma rounds_end n c offset size :
  rounds_ok (S n) [] c offset size → 0 ≤ offset → 0 < size → read_slice c offset size None ≠ [] →
  rounds_ok n [] c (offset + Z.of_nat (length (read_slice c offset size None)))
    (size - Z.of_nat (length (read_slice c offset size None))).
Proof.
  intros Hr Ho Hs Hne. unfold rounds_ok. unfold read_slice in *.
  rewrite length_take, length_drop. destruct Hr as [H|[(_ & Hc & _)|H]]; [cbn in H| |lia].
  - destruct (decide (size ≤ Z.of_nat (length c) - offset)); [right; right; lia|].
    right; left. split_and!; [done|lia|lia].
  - exfalso. apply Hne. rewrite drop_ge by lia. apply take_nil.
Qed.

Lemma got_read s fd name c offset moved off l size ret bs2 s' :
  let bs := read_slice c offset size (head l) in
  0 ≤ offset → 0 < size →
  got s fd name c (offset + Z.of_nat (length bs)) moved (if moved then off + Z.of_nat (length bs) else off)
    (next_script l) (size - Z.of_nat (length bs)) ret bs2 s' →
  got s fd name c offset moved off l size ret (bs ++ bs2) s'.
Proof.
  intros bs Ho Hs Hg. destruct (read_slice_spec c offset size (head l) Ho Hs) as (H1 & H2 & _).
  by eapply got_more.
Qed.

Lemma rounds_step n l c offset size :
  let d := read_slice c offset size (head l) in
  rounds_ok (S n) l c offset size → 0 ≤ offset → 0 < size → d ≠ [] →
  rounds_ok n (next_script l) c (offset + Z.of_nat (length d)) (size - Z.of_nat (length d)).
Proof.
  intros d Hr Ho Hs Hd. destruct l as [|r l]; [by apply rounds_end|].
  eapply rounds_next; [done|lia|done].
Qed.

(** The two results of a call. *)
Lemma sys_read_cases s fd name c off l size :
  0 ≤ off →
  (∃ e, head l = Some (Errno e) ∧
     sys_read fd size (os_at s fd name c off l) = Some (IoErr (Z.pos e), os_at s fd name c off (next_script l))) ∨
  (let d := read_slice c off size (head l) in
   sys_read fd size (os_at s fd name c off l) =
     Some (IoOk d, os_at s fd name c (off + Z.of_nat (length d)) (next_script l))).
Proof. intros Ho. rewrite sys_read_eq by done. destruct (head l) as [[k|e]|]; [by right|left; by exists e|by right]. Qed.

Lemma sys_pread_cases s fd name c off l size offset :
  0 ≤ offset →
  (∃ e, head l = Some (Errno e) ∧
     sys_pread fd size offset (os_at s fd name c off l) = Some (IoErr (Z.pos e), os_at s fd name c off (next_script l))) ∨
  (sys_pread fd size offset (os_at s fd name c off l) =
     Some (IoOk (read_slice c offset size (head l)), os_at s fd name c off (next_script l))).
Proof. intros Ho. rewrite sys_pread_eq by done. destruct (head l) as [[k|e]|]; [by right|left; by exists e|by right]. Qed.

Lemma got_retry s fd name c offset moved off l size ret bs s' :
  0 ≤ offset → 0 ≤ size → head l ≠ None →
  got s fd name c offset moved off (next_script l) size ret bs s' →
  got s fd name c offset moved off l size ret bs s'.
Proof.
  intros Ho Hs Hl Hg. apply (got_more s fd name c offset moved off l size ret [] bs s'); cbn; try done.
  rewrite !Z.add_0_r, Z.sub_0_r. by destruct moved.
Qed.

Lemma readn_loop_ok n s fd name c off l size buf :
  0 ≤ off → 0 ≤ size → rounds_ok n l c off size →
  ∃ ret bs s', readn_loop n fd size buf (os_at s fd name c off l) = Some ((ret, buf ++ bs), s') ∧
    got s fd name c off true off l size ret bs s'.
Proof.
  revert off l size buf. induction n as [|n IH]; intros off l size buf Ho Hs Hr;
    (destruct (decide (size = 0)) as [->|Hz]; [eexists 0, [], _; rewrite app_nil_r; split; [done|apply got_none]|]).
  { destruct Hr as [?|[(? & ? & ?)|?]]; lia. }
  cbn [readn_loop]. rewrite (proj2 (Z.ltb_lt _ _)) by lia.
  destruct (read_slice_spec c off size (head l)) as (_ & Hb & He); [lia..|].
  destruct (sys_read_cases s fd name c off l size Ho) as [(e & Hl & E)|E];
    cbv zeta in E; rewrite (exec E); cbv beta iota.
  - destruct (retry (Z.pos e)); cbn [negb].
    + edestruct (IH off (next_script l) size buf Ho Hs) as (ret & bs & s' & E' & Hg);
        [eapply rounds_next; [done|lia|congruence]|].
      exists ret, bs, s'. split; [done|]. apply got_retry; [done..|congruence|done].
    + eexists _, [], _. rewrite app_nil_r. split; [done|]. apply got_stop; [lia|done|]. by intros ?%(benign_no_errno _ _ Hl).
  - destruct (read_slice c off size (head l)) as [|d0 d1] eqn:Hd.
    + eexists _, [], _. cbn [length]. rewrite app_nil_r, Z.add_0_r. split; [done|]. apply got_stop; [lia|done|auto].
    + rewrite <-Hd in *. edestruct (IH (off + Z.of_nat (length (read_slice c off size (head l)))) (next_script l)
          (size - Z.of_nat (length (read_slice c off size (head l)))) (buf ++ read_slice c off size (head l)))
        as (ret & bs & s' & E' & Hg); [| |by apply rounds_step; [done|done|lia|rewrite Hd]|]; [lia..|].
      eexists ret, (_ ++ bs), s'. rewrite app_assoc. split; [exact E'|]. apply got_read; [done|lia|done].
Qed.

Lemma preadn_loop_ok n s fd name c offset off l size buf :
  0 ≤ offset → 0 ≤ size → rounds_ok n l c offset size →
  ∃ ret bs s', preadn_loop n fd size offset buf (os_at s fd name c off l) = Some ((ret, buf ++ bs), s') ∧
    got s fd name c offset false off l size ret bs s'.
Proof.
  revert offset l size buf. induction n as [|n IH]; intros offset l size buf Ho Hs Hr;
    (destruct (decide (size = 0)) as [->|Hz]; [eexists 0, [], _; rewrite app_nil_r; split; [done|apply got_none]|]).
  { destruct Hr as [?|[(? & ? & ?)|?]]; lia. }
  cbn [preadn_loop]. rewrite (proj2 (Z.ltb_lt _ _)) by lia.
  destruct (read_slice_spec c offset size (head l)) as (_ & Hb & He); [lia..|].
  destruct (sys_pread_cases s fd name c off l size offset Ho) as [(e & Hl & E)|E];
    cbv zeta in E; rewrite (exec E); cbv beta iota.
  - destruct (retry (Z.pos e)); cbn [negb].
    + edestruct (IH offset (next_script l) size buf Ho Hs) as (ret & bs & s' & E' & Hg);
        [eapply rounds_next; [done|lia|congruence]|].
      exists ret, bs, s'. split; [done|]. apply got_retry; [done..|congruence|done].
    + eexists _, [], _. rewrite app_nil_r. split; [done|]. apply got_stop; [lia|done|]. by intros ?%(benign_no_errno _ _ Hl).
  - destruct (read_slice c offset size (head l)) as [|d0 d1] eqn:Hd.
    + eexists _, [], _. rewrite app_nil_r. split; [done|]. apply got_stop; [lia|done|auto].
    + rewrite <-Hd in *. edestruct (IH (offset + Z.of_nat (length (read_slice c offset size (head l)))) (next_script l)
          (size - Z.of_nat (length (read_slice c offset size (head l)))) (buf ++ read_slice c offset size (head l)))
        as (ret & bs & s' & E' & Hg); [| |by apply rounds_step; [done|done|lia|rewrite Hd]|]; [lia..|].
      eexists ret, (_ ++ bs), s'. rewrite app_assoc. split; [exact E'|]. apply got_read; [done|lia|done].
Qed.

Section open_file.
Context (s : OS) (fd : Z) (name : string) (off : Z) (c : list Z).
Context (Hfd : os_fds s !! fd = Some (name, off)) (Hc : os_files s !! name = Some c) (Hoff : 0 ≤ off).

Lemma writen_ok buf :
  ∃ ret s', writen fd buf s = Some (ret, s') ∧ written s fd name c off true off (os_script s) buf ret s'.
Proof.
  pose proof (writen_loop_ok (2 + length (os_script s)) s fd name c off (os_script s) buf Hoff) as H.
  rewrite os_at_eq in H by done. apply H. lia.
Qed.

Lemma pwriten_ok buf offset :
  0 ≤ offset →
  ∃ ret s', pwriten fd buf offset s = Some (ret, s') ∧
    written s fd name c offset false off (os_script s) buf ret s'.
Proof.
  intros Ho. pose proof (pwriten_loop_ok (2 + length (os_script s)) s fd name c offset off (os_script s) buf Ho) as H.
  rewrite os_at_eq in H by done. apply H. lia.
Qed.

Lemma readn_ok size :
  0 ≤ size →
  ∃ ret bs s', readn fd size s = Some ((ret, bs), s') ∧ got s fd name c off true off (os_script s) size ret bs s'.
Proof.
  intros Hs. pose proof (readn_loop_ok (2 + length (os_script s)) s fd name c off (os_script s) size [] Hoff Hs) as H.
  rewrite os_at_eq in H by done. apply H. left. lia.
Qed.

Lemma preadn_ok size offset :
  0 ≤ size → 0 ≤ offset →
  ∃ ret bs s', preadn fd size offset s = Some ((ret, bs), s') ∧
    got s fd name c offset false off (os_script s) size ret bs s'.
Proof.
  intros Hs Ho.
  pose proof (preadn_loop_ok (2 + length (os_script s)) s fd name c offset off (os_script s) size [] Ho Hs) as H.
  rewrite os_at_eq in H by done. apply H. left. lia.
Qed.
End open_file.

(** C38: The transfer loops hide partial transfers.  Whatever sequence of short
    transfers, interruptions and errors the system calls produce, [writen],
    [pwriten], [readn] and [preadn] return; a write has stored exactly a prefix
    of the buffer at its offset, and the whole buffer if and only if it returned
    0; a read has delivered exactly the bytes of the file at its offset, and as
    many as asked for if and only if it returned 0; [pwrite] and [pread] leave
    the descriptor's offset alone, the others move it by what was transferred;
    if the calls are only short, never failing, the loops succeed (a read as far
    as the file is long enough). *)
Theorem transfer_loops_exact s fd name off c buf size offset :
  os_fds s !! fd = Some (name, off) → os_files s !! name = Some c → 0 ≤ off → 0 ≤ size → 0 ≤ offset →
  (∃ ret s', writen fd buf s = Some (ret, s') ∧ written s fd name c off true off (os_script s) buf ret s') ∧
  (∃ ret s', pwriten fd buf offset s = Some (ret, s') ∧
     written s fd name c offset false off (os_script s) buf ret s') ∧
  (∃ ret bs s', readn fd size s = Some ((ret, bs), s') ∧
     got s fd name c off true off (os_script s) size ret bs s') ∧
  (∃ ret bs s', preadn fd size offset s = Some ((ret, bs), s') ∧
     got s fd name c offset false off (os_script s) size ret bs s').
Proof.
  intros Hfd Hc Ho Hs Hf. split_and!;
    [by apply writen_ok|by apply pwriten_ok|by apply readn_ok|by apply preadn_ok].
Qed.

(** A file of five bytes; the next calls move two bytes, are interrupted, then
    fail with EIO. *)
Definition demo_os : OS :=
  mkOS {["f" := [1; 2; 3; 4; 5]]} {[3 := ("f", 1)]} [Transfer 2; Errno 4; Transfer 1; Errno 5] 0 [].

Lemma transfer_loops_exact_witness :
  os_fds demo_os !! 3 = Some ("f", 1) ∧
  (fst <$> writen 3 [7; 8; 9; 10] demo_os) = Some 5 ∧
  (fst <$> readn 3 3 demo_os) = Some (0, [2; 3; 4]) ∧
  (∃ ret s', writen 3 [7; 8; 9; 10] demo_os = Some (ret, s') ∧
     written demo_os 3 "f" [1; 2; 3; 4; 5] 1 true 1 (os_script demo_os) [7; 8; 9; 10] ret s').
Proof.
  split; [reflexivity|]. split; [vm_compute; reflexivity|]. split; [vm_compute; reflexivity|].
  refine (proj1 (transfer_loops_exact demo_os 3 "f" 1 [1; 2; 3; 4; 5] [7; 8; 9; 10] 3 0 _ _ _ _ _));
    [reflexivity|reflexivity|lia|lia|lia].
Defined.
