(* ===== verification/Bytes.v ===== *)
(** * Fields in byte arrays

    The storage code overlays structs on [char] arrays: a field of [n] bytes is
    stored in little-endian order.  Chars are signed bytes. *)

From S2P Require Import Prelude.
Local Open Scope Z_scope.

(** The [n] low bytes of [z], and the unsigned value of a byte sequence. *)
Fixpoint le_bytes (n : nat) (z : Z) : list Z :=
  match n with
  | O => []
  | S n => swrap 8 z :: le_bytes n (z / 256)
  end.

Fixpoint le_val (l : list Z) : Z :=
  match l with
  | [] => 0
  | b :: l => b mod 256 + 256 * le_val l
  end.

(** [n] bytes at offset [off], if the array is long enough; storing bytes there. *)
Definition get_bytes (l : list Z) (off : nat) (n : nat) : option (list Z) :=
  if decide (off + n ≤ length l)%nat then Some (take n (drop off l)) else None.

Definition set_bytes (l : list Z) (off : nat) (bs : list Z) : option (list Z) :=
  if decide (off + length bs ≤ length l)%nat then Some (take off l ++ bs ++ drop (off + length bs) l) else None.

(** An [int32_t] field. *)
Definition get_i32 (l : list Z) (off : nat) : option Z := bs ← get_bytes l off 4; Some (swrap 32 (le_val bs)).
Definition set_i32 (l : list Z) (off : nat) (z : Z) : option (list Z) := set_bytes l off (le_bytes 4 z).

Definition chars (l : list Z) : Prop := Forall (in_srange 8) l.

Lemma le_bytes_length n z : length (le_bytes n z) = n.
Proof. revert z. induction n as [|n IH]; intros z; cbn; [done|]. by rewrite IH. Qed.

Lemma le_bytes_chars n z : chars (le_bytes n z).
Proof.
  revert z. induction n as [|n IH]; intros z; cbn; constructor; [|apply IH]. apply swrap_range. lia.
Qed.

Lemma swrap8_mod z : swrap 8 z mod 256 = z mod 256.
Proof. unfold swrap. change (2 ^ 8) with 256. rewrite Zminus_mod_idemp_l. f_equal. lia. Qed.

Lemma le_val_bytes n z : le_val (le_bytes n z) = z mod 256 ^ Z.of_nat n.
Proof.
  revert z. induction n as [|n IH]; intros z; cbn [le_bytes le_val]; [by rewrite Z.mod_1_r|].
  rewrite swrap8_mod, IH. rewrite Nat2Z.inj_succ, Z.pow_succ_r by lia.
  rewrite Z.rem_mul_r by lia. done.
Qed.

Lemma le_val_range l : 0 ≤ le_val l < 256 ^ Z.of_nat (length l).
Proof.
  induction l as [|b l IH]; cbn [le_val length]; [cbn; lia|].
  rewrite Nat2Z.inj_succ, Z.pow_succ_r by lia. pose proof (Z.mod_pos_bound b 256). lia.
Qed.

Lemma swrap8_char b x : in_srange 8 b → x mod 256 = b mod 256 → swrap 8 x = b.
Proof.
  intros Hb E. rewrite <-(swrap_id 8 b) by (done || lia). unfold swrap. f_equal. change (2 ^ 8) with 256.
  rewrite <-(Zplus_mod_idemp_l x), E, Zplus_mod_idemp_l. done.
Qed.

Lemma le_bytes_val l : chars l → le_bytes (length l) (le_val l) = l.
Proof.
  induction l as [|b l IH]; cbn; [done|]. intros [Hb Hl]%list.Forall_cons. pose proof (Z.mod_pos_bound b 256).
  f_equal.
  - apply swrap8_char; [done|]. rewrite Z.mul_comm, Z_mod_plus_full. by rewrite Z.mod_mod.
  - rewrite Z.mul_comm, Z.div_add, Z.div_small, Z.add_0_l by lia. by apply IH.
Qed.

(** Decoding at the signed width undoes the encoding. *)
Lemma swrap_mod w z : 0 < w → swrap w (z mod 2 ^ w) = swrap w z.
Proof. intros Hw. unfold swrap. f_equal. by rewrite Zplus_mod_idemp_l. Qed.

Lemma le_signed n z : (0 < n)%nat → in_srange (8 * Z.of_nat n) z → swrap (8 * Z.of_nat n) (le_val (le_bytes n z)) = z.
Proof.
  intros Hn Hz. rewrite le_val_bytes. change 256 with (2 ^ 8). rewrite <-Z.pow_mul_r by lia.
  rewrite swrap_mod by lia. by apply swrap_id; [lia|].
Qed.

Lemma le_unsigned n z : 0 ≤ z < 256 ^ Z.of_nat n → le_val (le_bytes n z) = z.
Proof. intros Hz. rewrite le_val_bytes. by apply Z.mod_small. Qed.

Lemma swrap_congr w x y : 0 < w → x mod 2 ^ w = y mod 2 ^ w → swrap w x = swrap w y.
Proof. intros Hw E. by rewrite <-(swrap_mod w x), <-(swrap_mod w y), E. Qed.

(** Encoding what was decoded gives the bytes back. *)
Lemma le_bytes_mod n x y : x mod 256 ^ Z.of_nat n = y mod 256 ^ Z.of_nat n → le_bytes n x = le_bytes n y.
Proof.
  revert x y. induction n as [|n IH]; intros x y E; cbn [le_bytes]; [done|].
  rewrite Nat2Z.inj_succ, Z.pow_succ_r, !Z.rem_mul_r in E by lia.
  pose proof (Z.mod_pos_bound x 256). pose proof (Z.mod_pos_bound y 256). f_equal.
  - apply swrap_congr; [lia|]. change (2 ^ 8) with 256. lia.
  - apply IH. lia.
Qed.

Lemma swrap_mod_id w z : 0 < w → swrap w z mod 2 ^ w = z mod 2 ^ w.
Proof. intros Hw. unfold swrap. rewrite Zminus_mod_idemp_l. f_equal. lia. Qed.

Lemma le_bytes_swrap n z : (0 < n)%nat → le_bytes n (swrap (8 * Z.of_nat n) z) = le_bytes n z.
Proof.
  intros Hn. apply le_bytes_mod. change 256 with (2 ^ 8). rewrite <-Z.pow_mul_r by lia.
  apply swrap_mod_id. lia.
Qed.

(** ** Reading back *)
Lemma get_bytes_length l off n bs : get_bytes l off n = Some bs → length bs = n.
Proof. unfold get_bytes. case_decide; [|done]. intros [= <-]. rewrite length_take, length_drop. lia. Qed.

Lemma set_bytes_Some l off bs :
  (off + length bs ≤ length l)%nat → set_bytes l off bs = Some (take off l ++ bs ++ drop (off + length bs) l).
Proof. intros. unfold set_bytes. by rewrite decide_True. Qed.

Lemma set_bytes_length l off bs l' : set_bytes l off bs = Some l' → length l' = length l.
Proof.
  unfold set_bytes. case_decide; [|done]. intros [= <-]. rewrite !length_app, length_take, length_drop. lia.
Qed.

Lemma set_bytes_chars l off bs l' : chars l → chars bs → set_bytes l off bs = Some l' → chars l'.
Proof.
  unfold set_bytes. case_decide; [|done]. intros Hl Hb [= <-].
  apply Forall_app; split; [by apply Forall_take|]. apply Forall_app; split; [done|by apply Forall_drop].
Qed.

Lemma set_bytes_lookup l off bs l' i :
  set_bytes l off bs = Some l' →
  l' !! i = if decide (off ≤ i < off + length bs)%nat then bs !! (i - off)%nat else l !! i.
Proof.
  unfold set_bytes. case_decide as H; [|done]. intros [= <-]. rewrite !lookup_app, length_take, lookup_drop.
  destruct (decide (i < off)%nat) as [Hi|Hi].
  - rewrite decide_False by lia. rewrite lookup_take_lt by done.
    destruct (lookup_lt_is_Some_2 l i) as [x ->]; [lia|done].
  - rewrite lookup_take_ge by lia. replace (i - off `min` length l)%nat with (i - off)%nat by lia.
    case_decide as Hd.
    + destruct (lookup_lt_is_Some_2 bs (i - off)) as [x ->]; [lia|done].
    + rewrite (lookup_ge_None_2 bs) by lia. f_equal. lia.
Qed.

Lemma get_bytes_eq l l' off n :
  length l' = length l → (∀ i, (off ≤ i < off + n)%nat → l' !! i = l !! i) → get_bytes l' off n = get_bytes l off n.
Proof.
  intros Hlen H. unfold get_bytes. rewrite Hlen. case_decide; [|done]. f_equal. apply list_eq. intros i.
  destruct (decide (i < n)%nat).
  - rewrite !lookup_take_lt, !lookup_drop by done. apply H. lia.
  - by rewrite !lookup_take_ge by lia.
Qed.

Lemma get_set_same l off bs l' : set_bytes l off bs = Some l' → get_bytes l' off (length bs) = Some bs.
Proof.
  intros E. pose proof (set_bytes_length _ _ _ _ E) as Hl. pose proof E as E0.
  unfold set_bytes in E0. case_decide as H; [|done]. injection E0 as <-. unfold get_bytes.
  rewrite decide_True by lia. f_equal. rewrite drop_app_length', take_app_length; [done|rewrite length_take; lia].
Qed.

Lemma get_set_other l off bs l' off' n :
  set_bytes l off bs = Some l' → (off' + n ≤ off ∨ off + length bs ≤ off')%nat →
  get_bytes l' off' n = get_bytes l off' n.
Proof.
  intros E H. apply get_bytes_eq; [by eapply set_bytes_length|]. intros i Hi.
  rewrite (set_bytes_lookup _ _ _ _ _ E), decide_False by lia. done.
Qed.

Lemma get_i32_range l off z : get_i32 l off = Some z → in_srange 32 z.
Proof. unfold get_i32. destruct (get_bytes l off 4); cbn; [|done]. intros [= <-]. apply swrap_range. lia. Qed.

Lemma set_i32_Some l off z : (off + 4 ≤ length l)%nat → is_Some (set_i32 l off z).
Proof. intros. unfold set_i32. rewrite set_bytes_Some; [eauto|]. by rewrite le_bytes_length. Qed.

Lemma get_i32_Some l off : (off + 4 ≤ length l)%nat → is_Some (get_i32 l off).
Proof. intros. unfold get_i32, get_bytes. rewrite decide_True by done. cbn. eauto. Qed.

Lemma get_set_i32 l off z l' : set_i32 l off z = Some l' → in_srange 32 z → get_i32 l' off = Some z.
Proof.
  intros E Hz. unfold get_i32. pose proof (get_set_same _ _ _ _ E) as H.
  rewrite le_bytes_length in H. rewrite H. cbn [mbind option_bind].
  f_equal. apply (le_signed 4); [lia|exact Hz].
Qed.

Lemma get_set_i32_other l off z l' off' :
  set_i32 l off z = Some l' → (off' + 4 ≤ off ∨ off + 4 ≤ off')%nat → get_i32 l' off' = get_i32 l off'.
Proof.
  intros E H. unfold get_i32. by rewrite (get_set_other _ _ _ _ _ _ E) by (rewrite le_bytes_length; lia).
Qed.

Lemma set_i32_length l off z l' : set_i32 l off z = Some l' → length l' = length l.
Proof. apply set_bytes_length. Qed.

Lemma set_i32_chars l off z l' : chars l → set_i32 l off z = Some l' → chars l'.
Proof. intros H. apply set_bytes_chars; [done|apply le_bytes_chars]. Qed.
