(* ===== verification/Bitmap.v ===== *)
(** * Allocation bitmaps: [common/lang/bitmap.cpp]

    A [Bitmap] is a pointer to [char]s owned by somebody else (the page header
    or the record page) and a number of bits.  The storage is a list of signed
    chars; an access out of its bounds or a negative bit index, both undefined
    in the source, is [None].  [bit] is the abstract view of the storage as a
    set of bits, against which every operation is specified. *)

From S2P Require Import Prelude Types.

Module Bitmap.

(** [bitmap_[i]]. *)
Definition byte_at (bm : list Z) (i : Z) : option Z :=
  if 0 <=? i then bm !! Z.to_nat i else None.

Fixpoint find_first_zero_loop (n : nat) (byte i : Z) : Z :=
  match n with
  | O => -1
  | S n' =>
      if Z.land byte (Z.shiftl 1 i) =? 0 then i
      else find_first_zero_loop n' byte (i + 1)
  end.

Definition find_first_zero (byte start : Z) : Z :=
  find_first_zero_loop (Z.to_nat (8 - start)) byte start.

Fixpoint find_first_setted_loop (n : nat) (byte i : Z) : Z :=
  match n with
  | O => -1
  | S n' =>
      if negb (Z.land byte (Z.shiftl 1 i) =? 0) then i
      else find_first_setted_loop n' byte (i + 1)
  end.

Definition find_first_setted (byte start : Z) : Z :=
  find_first_setted_loop (Z.to_nat (8 - start)) byte start.

Definition bytes (size : Z) : Z :=
  if Z.rem size 8 =? 0 then Z.quot size 8 else Z.quot size 8 + 1.

Definition get_bit (bm : list Z) (index : Z) : option bool :=
  if index <? 0 then None else
  bits ← byte_at bm (Z.quot index 8);
  Some (negb (Z.land bits (Z.shiftl 1 (Z.rem index 8)) =? 0)).

Definition set_bit (bm : list Z) (index : Z) : option (list Z) :=
  if index <? 0 then None else
  bits ← byte_at bm (Z.quot index 8);
  Some (<[Z.to_nat (Z.quot index 8) := swrap 8 (Z.lor bits (Z.shiftl 1 (Z.rem index 8)))]> bm).

Definition clear_bit (bm : list Z) (index : Z) : option (list Z) :=
  if index <? 0 then None else
  bits ← byte_at bm (Z.quot index 8);
  Some (<[Z.to_nat (Z.quot index 8) :=
           swrap 8 (Z.land bits (Z.lnot (Z.shiftl 1 (Z.rem index 8))))]> bm).

(** The loop over the bytes [iter .. end-1]; the first byte starts at bit
    [start_in_byte], the later ones at bit 0. *)
Fixpoint unsetted_loop (n : nat) (bm : list Z) (iter start_in_byte : Z) : option Z :=
  match n with
  | O => Some (-1)
  | S n' =>
      byte ← byte_at bm iter;
      if byte =? -1 then unsetted_loop n' bm (iter + 1) 0 else
      let index_in_byte := find_first_zero byte start_in_byte in
      if 0 <=? index_in_byte then Some (iter * 8 + index_in_byte)
      else unsetted_loop n' bm (iter + 1) 0
  end.

Definition next_unsetted_bit (bm : list Z) (size start : Z) : option Z :=
  if start <? 0 then None else
  ret ← unsetted_loop (Z.to_nat (bytes size - Z.quot start 8)) bm (Z.quot start 8) (Z.rem start 8);
  Some (if size <=? ret then -1 else ret).

Fixpoint setted_loop (n : nat) (bm : list Z) (iter start_in_byte : Z) : option Z :=
  match n with
  | O => Some (-1)
  | S n' =>
      byte ← byte_at bm iter;
      if byte =? 0 then setted_loop n' bm (iter + 1) 0 else
      let index_in_byte := find_first_setted byte start_in_byte in
      if 0 <=? index_in_byte then Some (iter * 8 + index_in_byte)
      else setted_loop n' bm (iter + 1) 0
  end.

Definition next_setted_bit (bm : list Z) (size start : Z) : option Z :=
  if start <? 0 then None else
  ret ← setted_loop (Z.to_nat (bytes size - Z.quot start 8)) bm (Z.quot start 8) (Z.rem start 8);
  Some (if size <=? ret then -1 else ret).

(** ** The abstract view *)

Definition bit (bm : list Z) (i : Z) : bool :=
  match byte_at bm (i / 8) with
  | Some b => Z.testbit b (i mod 8)
  | None => false
  end.

(** The storage holds chars and covers [size] bits. *)
Definition wf (bm : list Z) (size : Z) : Prop :=
  Forall (in_srange 8) bm ∧ 0 ≤ size ≤ 8 * Z.of_nat (length bm).

(** Number of set bits among the first [n]. *)
Fixpoint popcount_nat (bm : list Z) (n : nat) : Z :=
  match n with
  | O => 0
  | S n' => popcount_nat bm n' + Z.b2z (bit bm (Z.of_nat n'))
  end.

Definition popcount (bm : list Z) (n : Z) : Z := popcount_nat bm (Z.to_nat n).

(** ** Bytes *)

Lemma land_pow2_testbit b i :
  0 ≤ i → (Z.land b (Z.shiftl 1 i) =? 0) = negb (Z.testbit b i).
Proof.
  intros Hi. rewrite Z.shiftl_1_l.
  destruct (Z.testbit b i) eqn:E; cbn.
  - apply Z.eqb_neq. intros H.
    assert (Z.testbit (Z.land b (2 ^ i)) i = true) as Hb.
    { by rewrite Z.land_spec, E, Z.pow2_bits_true by lia. }
    rewrite H, Z.bits_0 in Hb. done.
  - apply Z.eqb_eq. apply Z.bits_inj'. intros n Hn.
    rewrite Z.land_spec, Z.bits_0, Z.pow2_bits_eqb by lia.
    destruct (Z.eqb_spec i n); subst; rewrite ?E; auto using andb_false_r, andb_false_l.
Qed.

Lemma find_first_zero_loop_spec n b i :
  0 ≤ i →
  let r := find_first_zero_loop n b i in
  (r = -1 ∧ ∀ j, i ≤ j < i + Z.of_nat n → Z.testbit b j = true) ∨
  (i ≤ r < i + Z.of_nat n ∧ Z.testbit b r = false ∧ ∀ j, i ≤ j < r → Z.testbit b j = true).
Proof.
  revert i. induction n as [|n IH]; intros i Hi; cbn [find_first_zero_loop].
  - left. split; [done|lia].
  - rewrite land_pow2_testbit by lia. destruct (Z.testbit b i) eqn:E; cbn.
    + destruct (IH (i + 1)) as [[-> H]|(H1 & H2 & H3)]; [lia|left|right].
      * split; [done|]. intros j Hj. destruct (decide (j = i)); [congruence|apply H; lia].
      * split; [lia|]. split; [done|]. intros j Hj.
        destruct (decide (j = i)); [congruence|apply H3; lia].
    + right. split; [lia|]. split; [done|lia].
Qed.

Lemma find_first_setted_loop_spec n b i :
  0 ≤ i →
  let r := find_first_setted_loop n b i in
  (r = -1 ∧ ∀ j, i ≤ j < i + Z.of_nat n → Z.testbit b j = false) ∨
  (i ≤ r < i + Z.of_nat n ∧ Z.testbit b r = true ∧ ∀ j, i ≤ j < r → Z.testbit b j = false).
Proof.
  revert i. induction n as [|n IH]; intros i Hi; cbn [find_first_setted_loop].
  - left. split; [done|lia].
  - rewrite land_pow2_testbit, negb_involutive by lia. destruct (Z.testbit b i) eqn:E.
    + right. split; [lia|]. split; [done|lia].
    + destruct (IH (i + 1)) as [[-> H]|(H1 & H2 & H3)]; [lia|left|right].
      * split; [done|]. intros j Hj. destruct (decide (j = i)); [congruence|apply H; lia].
      * split; [lia|]. split; [done|]. intros j Hj.
        destruct (decide (j = i)); [congruence|apply H3; lia].
Qed.

Lemma byte_at_Some bm i :
  0 ≤ i < Z.of_nat (length bm) → ∃ b, byte_at bm i = Some b ∧ b ∈ bm.
Proof.
  intros Hi. unfold byte_at. destruct (Z.leb_spec 0 i); [|lia].
  destruct (lookup_lt_is_Some_2 bm (Z.to_nat i)) as [b Hb]; [lia|].
  exists b. split; [done|]. eapply list_elem_of_lookup_2, Hb.
Qed.

Lemma bit_byte bm k j b :
  0 ≤ j < 8 → byte_at bm k = Some b → bit bm (k * 8 + j) = Z.testbit b j.
Proof.
  intros Hj Hb. unfold bit.
  replace ((k * 8 + j) / 8) with k by (rewrite Z.div_add_l, Z.div_small; lia).
  rewrite Hb. f_equal. rewrite Z.add_comm, Z.mod_add, Z.mod_small; lia.
Qed.

Lemma byte_minus1_bits j : 0 ≤ j → Z.testbit (-1) j = true.
Proof. intros. by apply Z.bits_m1. Qed.

(** ** Scanning: both loops are instances of one scan *)

(** What a scan for a bit equal to [want] in [[lo, hi)] returns. *)
Definition first_bit (bm : list Z) (want : bool) (lo hi r : Z) : Prop :=
  (r = -1 ∧ ∀ i, lo ≤ i < hi → bit bm i = negb want) ∨
  (lo ≤ r < hi ∧ bit bm r = want ∧ ∀ i, lo ≤ i < r → bit bm i = negb want).

Section scan.
Context (want : bool) (skip : Z) (find : Z → Z → Z).
Hypothesis skip_spec : ∀ j, 0 ≤ j < 8 → Z.testbit skip j = negb want.
Hypothesis find_spec : ∀ b s, 0 ≤ s < 8 →
  (find b s = -1 ∧ ∀ j, s ≤ j < 8 → Z.testbit b j = negb want) ∨
  (s ≤ find b s < 8 ∧ Z.testbit b (find b s) = want ∧
   ∀ j, s ≤ j < find b s → Z.testbit b j = negb want).

Fixpoint scan_loop (n : nat) (bm : list Z) (iter s : Z) : option Z :=
  match n with
  | O => Some (-1)
  | S n' =>
      byte ← byte_at bm iter;
      if byte =? skip then scan_loop n' bm (iter + 1) 0 else
      let r := find byte s in
      if 0 <=? r then Some (iter * 8 + r) else scan_loop n' bm (iter + 1) 0
  end.

(** A byte without the wanted bit passes the scan on to the next one. *)
Lemma first_bit_next bm k s hi b r :
  0 ≤ s < 8 → byte_at bm k = Some b → (k + 1) * 8 ≤ hi →
  (∀ j, s ≤ j < 8 → Z.testbit b j = negb want) →
  first_bit bm want ((k + 1) * 8 + 0) hi r → first_bit bm want (k * 8 + s) hi r.
Proof.
  intros Hs Hb Hhi Hj.
  assert (∀ i, k * 8 + s ≤ i < (k + 1) * 8 → bit bm i = negb want) as Hbyte.
  { intros i Hi. replace i with (k * 8 + (i - k * 8)) by lia.
    erewrite bit_byte by (eauto; lia). apply Hj. lia. }
  intros [[-> H]|(H1 & H2 & H3)]; [left|right].
  - split; [done|]. intros i Hi. destruct (decide (i < (k + 1) * 8)); [apply Hbyte|apply H]; lia.
  - split; [lia|]. split; [done|]. intros i Hi.
    destruct (decide (i < (k + 1) * 8)); [apply Hbyte|apply H3]; lia.
Qed.

Lemma scan_loop_spec n bm k s :
  0 ≤ k → 0 ≤ s < 8 → k + Z.of_nat n ≤ Z.of_nat (length bm) →
  ∃ r, scan_loop n bm k s = Some r ∧
       (n = O ∧ r = -1 ∨ first_bit bm want (k * 8 + s) ((k + Z.of_nat n) * 8) r).
Proof.
  revert k s. induction n as [|n IH]; intros k s Hk Hs Hn; cbn [scan_loop].
  { exists (-1). split; [done|]. left. done. }
  destruct (byte_at_Some bm k) as (b & Hb & _); [lia|]. rewrite Hb. cbn.
  destruct (IH (k + 1) 0) as (r & Er & Hr); [lia..|].
  assert (∀ i, (∀ j, s ≤ j < 8 → Z.testbit b j = negb want) → i = r →
            first_bit bm want (k * 8 + s) ((k + Z.of_nat (S n)) * 8) i) as Hnext.
  { intros i Hj ->. eapply first_bit_next; [done..|lia|exact Hj|].
    destruct Hr as [[-> ->]|Hr].
    - left. split; [done|lia].
    - replace (k + Z.of_nat (S n)) with (k + 1 + Z.of_nat n) by lia. done. }
  destruct (Z.eqb_spec b skip) as [->|Hskip].
  { exists r. split; [done|]. right. apply Hnext; [|done]. intros. apply skip_spec. lia. }
  destruct (find_spec b s Hs) as [[E H]|(H1 & H2 & H3)].
  - rewrite E. cbn. exists r. split; [done|]. right. by apply Hnext.
  - destruct (Z.leb_spec 0 (find b s)); [|lia].
    exists (k * 8 + find b s). split; [done|]. right. right.
    split; [lia|]. split; [by erewrite bit_byte by (eauto; lia)|].
    intros i Hi. replace i with (k * 8 + (i - k * 8)) by lia.
    erewrite bit_byte by (eauto; lia). apply H3. lia.
Qed.

(** The whole search, with the clamp to [size]. *)
Definition scan (bm : list Z) (size start : Z) : option Z :=
  if start <? 0 then None else
  ret ← scan_loop (Z.to_nat (bytes size - Z.quot start 8)) bm (Z.quot start 8) (Z.rem start 8);
  Some (if size <=? ret then -1 else ret).

Lemma bytes_bound size : 0 ≤ size → size ≤ 8 * bytes size < size + 8.
Proof.
  intros H. unfold bytes. rewrite Z.rem_mod_nonneg, Z.quot_div_nonneg by lia.
  destruct (Z.eqb_spec (size mod 8) 0); Z.to_euclidean_division_equations; lia.
Qed.

Lemma scan_spec bm size start :
  wf bm size → 0 ≤ start →
  ∃ r, scan bm size start = Some r ∧ first_bit bm want start size r.
Proof.
  intros [_ Hsz] Hst. unfold scan.
  destruct (Z.ltb_spec start 0); [lia|].
  rewrite Z.rem_mod_nonneg, Z.quot_div_nonneg by lia.
  pose proof (bytes_bound size). 
  destruct (decide (start / 8 ≤ bytes size)) as [Hle|Hgt]; cycle 1.
  { replace (Z.to_nat (bytes size - start / 8)) with O by lia. cbn.
    exists (-1). split.
    - destruct (Z.leb_spec size (-1)); done.
    - left. split; [done|]. intros i. Z.to_euclidean_division_equations; lia. }
  destruct (scan_loop_spec (Z.to_nat (bytes size - start / 8)) bm (start / 8) (start mod 8))
    as (r & -> & Hr).
  - Z.to_euclidean_division_equations; lia.
  - apply Z.mod_pos_bound. lia.
  - rewrite Z2Nat.id by lia. lia.
  - cbn. exists (if size <=? r then -1 else r). split; [done|].
    replace (start / 8 * 8 + start mod 8) with start in Hr
      by (Z.to_euclidean_division_equations; lia).
    rewrite Z2Nat.id in Hr by lia.
    destruct Hr as [[Hn ->]|[[-> H1]|(H1 & H2 & H3)]].
    + destruct (Z.leb_spec size (-1)); left; (split; [done|]); intros i;
        Z.to_euclidean_division_equations; lia.
    + destruct (Z.leb_spec size (-1)); left; (split; [done|]); intros i Hi; apply H1; lia.
    + destruct (Z.leb_spec size r); [left|right].
      * split; [done|]. intros i Hi. apply H3. lia.
      * split; [lia|done].
Qed.
End scan.

Lemma next_unsetted_bit_scan bm size start :
  next_unsetted_bit bm size start = scan (-1) find_first_zero bm size start.
Proof. reflexivity. Qed.

Lemma next_setted_bit_scan bm size start :
  next_setted_bit bm size start = scan 0 find_first_setted bm size start.
Proof. reflexivity. Qed.

Lemma next_unsetted_bit_first bm size start :
  wf bm size → 0 ≤ start →
  ∃ r, next_unsetted_bit bm size start = Some r ∧ first_bit bm false start size r.
Proof.
  intros Hwf Hst.
  destruct (scan_spec false (-1) find_first_zero) with (3 := Hwf) (4 := Hst) as (r & Hr & ?).
  - intros j Hj. by rewrite byte_minus1_bits by lia.
  - intros b s Hs. unfold find_first_zero.
    pose proof (find_first_zero_loop_spec (Z.to_nat (8 - s)) b s) as H.
    rewrite Z2Nat.id in H by lia. replace (s + (8 - s)) with 8 in H by lia. apply H. lia.
  - exists r. by rewrite next_unsetted_bit_scan.
Qed.

Lemma next_setted_bit_first bm size start :
  wf bm size → 0 ≤ start →
  ∃ r, next_setted_bit bm size start = Some r ∧ first_bit bm true start size r.
Proof.
  intros Hwf Hst.
  destruct (scan_spec true 0 find_first_setted) with (3 := Hwf) (4 := Hst) as (r & Hr & ?).
  - intros j Hj. apply Z.bits_0.
  - intros b s Hs. unfold find_first_setted.
    pose proof (find_first_setted_loop_spec (Z.to_nat (8 - s)) b s) as H.
    rewrite Z2Nat.id in H by lia. replace (s + (8 - s)) with 8 in H by lia. apply H. lia.
  - exists r. by rewrite next_setted_bit_scan.
Qed.

(** ** Reading and writing one bit *)

Lemma get_bit_spec bm size i :
  wf bm size → 0 ≤ i < size → get_bit bm i = Some (bit bm i).
Proof.
  intros [_ Hsz] Hi. unfold get_bit, bit.
  destruct (Z.ltb_spec i 0); [lia|].
  rewrite Z.rem_mod_nonneg, Z.quot_div_nonneg by lia.
  destruct (byte_at_Some bm (i / 8)) as (b & -> & _).
  { Z.to_euclidean_division_equations; lia. }
  cbn. rewrite land_pow2_testbit, negb_involutive by (apply Z.mod_pos_bound; lia). done.
Qed.

Lemma byte_at_insert bm k x j :
  0 ≤ k < Z.of_nat (length bm) →
  byte_at (<[Z.to_nat k := x]> bm) j = if decide (j = k) then Some x else byte_at bm j.
Proof.
  intros Hk. unfold byte_at. destruct (Z.leb_spec 0 j).
  - destruct (decide (j = k)) as [->|Hne].
    + apply list_lookup_insert_eq. lia.
    + rewrite list_lookup_insert_ne; [done|lia].
  - destruct (decide (j = k)); [lia|done].
Qed.

(** Overwriting one byte by one that differs from it only in bit [j mod 8]. *)
Lemma bit_insert_byte bm i b x v :
  0 ≤ i < 8 * Z.of_nat (length bm) → byte_at bm (i / 8) = Some b →
  (∀ j, 0 ≤ j < 8 → Z.testbit x j = if decide (j = i mod 8) then v else Z.testbit b j) →
  ∀ j, 0 ≤ j → bit (<[Z.to_nat (i / 8) := x]> bm) j = if decide (j = i) then v else bit bm j.
Proof.
  intros Hi Hb Hx j Hj. unfold bit.
  rewrite byte_at_insert by (Z.to_euclidean_division_equations; lia).
  pose proof (Z.mod_pos_bound j 8). destruct (decide (j / 8 = i / 8)) as [E|E].
  - rewrite Hx by lia. rewrite E, Hb.
    destruct (decide (j = i)), (decide (j mod 8 = i mod 8)); try done; exfalso;
      Z.to_euclidean_division_equations; lia.
  - rewrite decide_False; [done|]. congruence.
Qed.

Lemma Forall_srange_insert bm k z :
  Forall (in_srange 8) bm → Forall (in_srange 8) (<[k := swrap 8 z]> bm).
Proof. intros. apply Forall_insert; [done|]. apply swrap_range. lia. Qed.

(** What changing bit [i] to [v] does to the storage. *)
Definition updated (bm : list Z) (i : Z) (v : bool) (bm' : list Z) : Prop :=
  length bm' = length bm ∧
  (Forall (in_srange 8) bm → Forall (in_srange 8) bm') ∧
  ∀ j, 0 ≤ j → bit bm' j = if decide (j = i) then v else bit bm j.

Lemma set_bit_updated bm size i :
  wf bm size → 0 ≤ i < size → ∃ bm', set_bit bm i = Some bm' ∧ updated bm i true bm'.
Proof.
  intros [_ Hsz] Hi. unfold set_bit. destruct (Z.ltb_spec i 0); [lia|].
  rewrite Z.rem_mod_nonneg, Z.quot_div_nonneg by lia.
  destruct (byte_at_Some bm (i / 8)) as (b & Eb & _).
  { Z.to_euclidean_division_equations; lia. }
  rewrite Eb. cbn. eexists. split; [done|].
  split_and!; [apply length_insert|apply Forall_srange_insert|].
  pose proof (Z.mod_pos_bound i 8).
  apply bit_insert_byte with (b := b); [lia|done|]. intros j Hj.
  rewrite swrap_testbit by lia.
  rewrite Z.lor_spec, Z.shiftl_1_l, Z.pow2_bits_eqb by lia.
  destruct (Z.eqb_spec (i mod 8) j), (decide (j = i mod 8)); try lia;
    by rewrite ?orb_true_r, ?orb_false_r.
Qed.

Lemma clear_bit_updated bm size i :
  wf bm size → 0 ≤ i < size → ∃ bm', clear_bit bm i = Some bm' ∧ updated bm i false bm'.
Proof.
  intros [_ Hsz] Hi. unfold clear_bit. destruct (Z.ltb_spec i 0); [lia|].
  rewrite Z.rem_mod_nonneg, Z.quot_div_nonneg by lia.
  destruct (byte_at_Some bm (i / 8)) as (b & Eb & _).
  { Z.to_euclidean_division_equations; lia. }
  rewrite Eb. cbn. eexists. split; [done|].
  split_and!; [apply length_insert|apply Forall_srange_insert|].
  pose proof (Z.mod_pos_bound i 8).
  apply bit_insert_byte with (b := b); [lia|done|]. intros j Hj.
  rewrite swrap_testbit by lia.
  rewrite Z.land_spec, Z.lnot_spec, Z.shiftl_1_l, Z.pow2_bits_eqb by lia.
  destruct (Z.eqb_spec (i mod 8) j), (decide (j = i mod 8)); try lia;
    by rewrite ?andb_true_r, ?andb_false_r.
Qed.

Lemma updated_wf bm i v bm' size : updated bm i v bm' → wf bm size → wf bm' size.
Proof. intros (Hl & Hf & _) [Hc Hs]. split; [auto|]. by rewrite Hl. Qed.

(** ** Counting set bits *)

Lemma popcount_succ bm n :
  0 ≤ n → popcount bm (n + 1) = popcount bm n + Z.b2z (bit bm n).
Proof.
  intros Hn. unfold popcount. rewrite Z2Nat.inj_add, Nat.add_1_r by lia. cbn.
  by rewrite Z2Nat.id by lia.
Qed.

(** Induction over the number of counted bits. *)
Lemma count_ind (P : Z → Prop) :
  P 0 → (∀ n, 0 ≤ n → P n → P (n + 1)) → ∀ n, 0 ≤ n → P n.
Proof. intros H0 HS. apply natlike_ind; [done|]. intros. rewrite <-Z.add_1_r. auto. Qed.

Lemma popcount_bound bm n : 0 ≤ n → 0 ≤ popcount bm n ≤ n.
Proof.
  revert n. apply count_ind; [done|]. intros n Hn IH. rewrite popcount_succ by done.
  destruct (bit bm n); cbn; lia.
Qed.

Lemma popcount_ext bm bm' n :
  0 ≤ n → (∀ j, 0 ≤ j < n → bit bm' j = bit bm j) → popcount bm' n = popcount bm n.
Proof.
  revert n. apply (count_ind (λ n, _ → _)); [done|]. intros n Hn IH H.
  rewrite !popcount_succ, IH, H by (intros; try apply H; lia). done.
Qed.

(** Flipping a bit changes the count by one. *)
Lemma popcount_flip bm i v bm' n :
  (∀ j, 0 ≤ j < n → bit bm' j = if decide (j = i) then v else bit bm j) → 0 ≤ i < n →
  popcount bm' n = popcount bm n + Z.b2z v - Z.b2z (bit bm i).
Proof.
  intros H Hi. assert (0 ≤ n) as Hn by lia. revert n Hn H Hi.
  apply (count_ind (λ n, _ → _ → _)); [lia|]. intros n Hn IH H Hi.
  rewrite !popcount_succ, H by lia. destruct (decide (n = i)) as [->|].
  - rewrite (popcount_ext bm bm' i); [lia|lia|].
    intros j Hj. rewrite H, decide_False by lia. done.
  - rewrite IH by (lia || (intros j Hj; apply H; lia)). lia.
Qed.

Lemma popcount_updated bm i v bm' n :
  updated bm i v bm' → 0 ≤ i < n →
  popcount bm' n = popcount bm n + Z.b2z v - Z.b2z (bit bm i).
Proof. intros (_ & _ & H) Hi. apply popcount_flip; [|done]. intros j Hj. apply H. lia. Qed.

Lemma popcount_updated_beyond bm i v bm' n :
  updated bm i v bm' → 0 ≤ n ≤ i → popcount bm' n = popcount bm n.
Proof.
  intros (_ & _ & H) Hi. apply popcount_ext; [lia|]. intros j Hj.
  rewrite H, decide_False by lia. done.
Qed.

(** The count reaches the number of bits exactly when none is clear. *)
Lemma popcount_full bm n :
  0 ≤ n → popcount bm n = n ↔ (∀ j, 0 ≤ j < n → bit bm j = true).
Proof.
  revert n. apply count_ind.
  - split; [lia|done].
  - intros n Hn IH. rewrite popcount_succ by done.
    pose proof (popcount_bound bm n Hn). split.
    + intros E j Hj. destruct (bit bm n) eqn:Eb; cbn in E; [|lia].
      destruct (decide (j = n)) as [->|]; [done|]. apply IH; lia.
    + intros E. rewrite E by lia. cbn. rewrite (proj2 IH); [lia|]. intros j Hj. apply E. lia.
Qed.

Lemma popcount_zero bm n :
  0 ≤ n → popcount bm n = 0 ↔ (∀ j, 0 ≤ j < n → bit bm j = false).
Proof.
  revert n. apply count_ind.
  - split; [lia|done].
  - intros n Hn IH. rewrite popcount_succ by done.
    pose proof (popcount_bound bm n Hn). split.
    + intros E j Hj. destruct (bit bm n) eqn:Eb; cbn in E; [lia|].
      destruct (decide (j = n)) as [->|]; [done|]. apply IH; lia.
    + intros E. rewrite E by lia. cbn. rewrite (proj2 IH); [lia|]. intros j Hj. apply E. lia.
Qed.

(** ** The bitmap as the code uses it *)

(** C40: [next_unsetted_bit] and [next_setted_bit] return, for every in-bounds
    storage and start, the smallest free (used) bit at or after [start] and
    below [size], and -1 exactly when there is none, including when the hit in
    the last byte lies beyond [size]. *)
Theorem bitmap_scan_correct bm size start :
  wf bm size → 0 ≤ start →
  (∃ r, next_unsetted_bit bm size start = Some r ∧ first_bit bm false start size r) ∧
  (∃ r, next_setted_bit bm size start = Some r ∧ first_bit bm true start size r).
Proof. intros. split; [by apply next_unsetted_bit_first|by apply next_setted_bit_first]. Qed.

Lemma bitmap_scan_correct_witness :
  (∃ r, next_unsetted_bit [-1; 7] 12 0 = Some r ∧ first_bit [-1; 7] false 0 12 r) ∧
  (∃ r, next_setted_bit [-1; 7] 12 0 = Some r ∧ first_bit [-1; 7] true 0 12 r).
Proof.
  apply (bitmap_scan_correct [-1; 7] 12 0); [|lia].
  split; [repeat constructor; vm_compute; congruence|cbn; lia].
Defined.

(** setting or clearing an in-range bit changes that bit and no other,
    keeps every byte a [char], and moves the number of set bits by exactly the
    change of that bit. *)
Theorem bitmap_update_correct bm size i v :
  wf bm size → 0 ≤ i < size →
  ∃ bm', (if v : bool then set_bit bm i else clear_bit bm i) = Some bm' ∧
    get_bit bm' i = Some v ∧
    (∀ j, 0 ≤ j < size → j ≠ i → get_bit bm' j = get_bit bm j) ∧
    wf bm' size ∧
    popcount bm' size = popcount bm size + Z.b2z v - Z.b2z (bit bm i).
Proof.
  intros Hwf Hi.
  assert (∃ bm', (if v then set_bit bm i else clear_bit bm i) = Some bm' ∧ updated bm i v bm')
    as (bm' & E & Hu).
  { destruct v; [by eapply set_bit_updated|by eapply clear_bit_updated]. }
  pose proof (updated_wf _ _ _ _ _ Hu Hwf) as Hwf'. exists bm'. split_and!; [done|..|done|].
  - erewrite get_bit_spec by done. destruct Hu as (_ & _ & ->); [|lia]. by rewrite decide_True.
  - intros j Hj Hne. erewrite !get_bit_spec by done.
    destruct Hu as (_ & _ & ->); [|lia]. by rewrite decide_False.
  - by apply popcount_updated.
Qed.

Lemma bitmap_update_correct_witness :
  ∃ bm', clear_bit [-1; 7] 7 = Some bm' ∧
    get_bit bm' 7 = Some false ∧
    (∀ j, 0 ≤ j < 12 → j ≠ 7 → get_bit bm' j = get_bit [-1; 7] j) ∧
    wf bm' 12 ∧ popcount bm' 12 = popcount [-1; 7] 12 + Z.b2z false - Z.b2z (bit [-1; 7] 7).
Proof.
  apply (bitmap_update_correct [-1; 7] 12 7 false); [|lia].
  split; [repeat constructor; vm_compute; congruence|cbn; lia].
Defined.

End Bitmap.
