(* ===== verification/Replacement.v ===== *)
(** * Frame replacement policies: [storage/os/replacement/replacement_policy.cpp]

    The interface [ReplacementPolicy] is a class of operations with its laws
    ([PolicyLaws]); LRU and FIFO share [OrderedReplacementPolicy], LRU-K keeps
    the last two access stamps of each page and CLOCK a ring with reference
    bits.  The frame manager is verified against the laws only. *)

From S2P Require Import Prelude Types.
From stdpp Require Import pretty sorting.
Local Open Scope Z_scope.

(** ** The interface: [class ReplacementPolicy] *)
Class ReplacementPolicy (P : Type) := {
  on_insert : FrameId → P → P;
  on_access : FrameId → P → P;
  on_pin : FrameId → P → P;
  on_unpin : FrameId → P → P;
  on_remove : FrameId → P → P;
  choose_victim : (FrameId → bool) → M P (option FrameId);
  metadata : FrameId → P → string;
  policy_name : P → string
}.

(** What the frame manager relies on.  [tracked] are the pages the policy
    knows; [choose_victim] does not abort, keeps them, and finds a replaceable
    page exactly when one is tracked. *)
Class PolicyLaws (P : Type) `{!ReplacementPolicy P} := {
  tracked : P → gset FrameId;
  policy_ok : P → Prop;
  on_insert_ok f p : policy_ok p → policy_ok (on_insert f p);
  on_access_ok f p : policy_ok p → policy_ok (on_access f p);
  on_remove_ok f p : policy_ok p → policy_ok (on_remove f p);
  on_pin_id f p : on_pin f p = p;
  on_unpin_id f p : on_unpin f p = p;
  tracked_insert f p : policy_ok p → tracked (on_insert f p) = {[f]} ∪ tracked p;
  tracked_access f p : policy_ok p → f ∈ tracked p → tracked (on_access f p) = tracked p;
  tracked_remove f p : policy_ok p → tracked (on_remove f p) = tracked p ∖ {[f]};
  choose_victim_spec rep p :
    policy_ok p →
    ∃ r p', choose_victim rep p = Some (r, p') ∧ policy_ok p' ∧ tracked p' = tracked p ∧
      match r with
      | Some f => f ∈ tracked p ∧ rep f = true
      | None => ∀ f, f ∈ tracked p → rep f = false
      end
}.

(** ** LRU and FIFO: [OrderedReplacementPolicy]

    [order_] is the linked list, oldest first; [positions_] are the keys of the
    map from pages to their list nodes. *)
Record Ordered : Type := mkOrdered {
  touch_on_access_ : bool;
  order_ : list FrameId;
  positions_ : gset FrameId
}.

Definition ordered_on_remove (f : FrameId) (p : Ordered) : Ordered :=
  if bool_decide (f ∈ positions_ p)
  then mkOrdered (touch_on_access_ p) (list_remove1 f (order_ p)) (positions_ p ∖ {[f]})
  else p.

Definition ordered_on_insert (f : FrameId) (p : Ordered) : Ordered :=
  let p1 := ordered_on_remove f p in
  mkOrdered (touch_on_access_ p1) (order_ p1 ++ [f]) ({[f]} ∪ positions_ p1).

Definition ordered_on_access (f : FrameId) (p : Ordered) : Ordered :=
  if touch_on_access_ p then
    if bool_decide (f ∈ positions_ p)
    then mkOrdered true (list_remove1 f (order_ p) ++ [f]) (positions_ p)
    else p
  else p.

Fixpoint ordered_scan (rep : FrameId → bool) (l : list FrameId) : option FrameId :=
  match l with
  | [] => None
  | f :: l' => if rep f then Some f else ordered_scan rep l'
  end.

Definition ordered_choose_victim (rep : FrameId → bool) : M Ordered (option FrameId) :=
  λ p, Some (ordered_scan rep (order_ p), p).

Fixpoint ordered_index (f : FrameId) (l : list FrameId) (index : nat) : option nat :=
  match l with
  | [] => None
  | c :: l' => if FrameId_equal_to c f then Some index else ordered_index f l' (S index)
  end.

Definition ordered_metadata (f : FrameId) (p : Ordered) : string :=
  match ordered_index f (order_ p) 0 with
  | Some i => String.append "order=" (pretty i)
  | None => "order=unknown"
  end.

Definition LRUReplacementPolicy : Ordered := mkOrdered true [] ∅.
Definition FIFOReplacementPolicy : Ordered := mkOrdered false [] ∅.
Definition ordered_name (p : Ordered) : string := if touch_on_access_ p then "LRU" else "FIFO".

#[global] Instance Ordered_policy : ReplacementPolicy Ordered := {|
  on_insert := ordered_on_insert;
  on_access := ordered_on_access;
  on_pin _ p := p;
  on_unpin _ p := p;
  on_remove := ordered_on_remove;
  choose_victim := ordered_choose_victim;
  metadata := ordered_metadata;
  policy_name := ordered_name
|}.

(** Nodes and positions agree, and no page is listed twice. *)
Definition ordered_ok (p : Ordered) : Prop :=
  NoDup (order_ p) ∧ ∀ f, f ∈ positions_ p ↔ f ∈ order_ p.

Lemma ordered_scan_spec rep l :
  match ordered_scan rep l with
  | Some f => ∃ l1 l2, l = l1 ++ f :: l2 ∧ rep f = true ∧ Forall (λ g, rep g = false) l1
  | None => Forall (λ g, rep g = false) l
  end.
Proof.
  induction l as [|f l IH]; cbn; [constructor|]. destruct (rep f) eqn:E.
  - exists [], l. auto.
  - destruct (ordered_scan rep l) as [g|].
    + destruct IH as (l1 & l2 & -> & Hg & Hl1). exists (f :: l1), l2. auto.
    + by constructor.
Qed.

Lemma ordered_remove_ok f p : ordered_ok p → ordered_ok (ordered_on_remove f p).
Proof.
  intros [Hnd Hpos]. unfold ordered_on_remove. case_bool_decide; [|done].
  split; cbn; [by apply list_remove1_NoDup|]. intros g.
  rewrite elem_of_list_remove1, elem_of_difference, elem_of_singleton, Hpos by done. naive_solver.
Qed.

Lemma ordered_remove_elem f p g :
  ordered_ok p → g ∈ order_ (ordered_on_remove f p) ↔ g ≠ f ∧ g ∈ order_ p.
Proof.
  intros [Hnd Hpos]. unfold ordered_on_remove. case_bool_decide as E; cbn.
  - by apply elem_of_list_remove1.
  - rewrite Hpos in E. naive_solver.
Qed.

Lemma ordered_insert_ok f p : ordered_ok p → ordered_ok (ordered_on_insert f p).
Proof.
  intros Hok. pose proof (ordered_remove_ok f p Hok) as [Hnd Hpos]. split; cbn.
  - apply NoDup_app. split_and!; [done| |apply NoDup_singleton].
    intros g Hg Hgf%list_elem_of_singleton. subst.
    apply ordered_remove_elem in Hg; naive_solver.
  - intros g. rewrite elem_of_app, elem_of_union, elem_of_singleton, list_elem_of_singleton, Hpos.
    naive_solver.
Qed.

Lemma ordered_access_ok f p : ordered_ok p → ordered_ok (ordered_on_access f p).
Proof.
  intros [Hnd Hpos]. unfold ordered_on_access. destruct (touch_on_access_ p); [|done].
  case_bool_decide as E; [|done]. rewrite Hpos in E. split; cbn.
  - apply NoDup_app. split_and!; [by apply list_remove1_NoDup| |apply NoDup_singleton].
    intros g Hg Hgf%list_elem_of_singleton. subst.
    apply elem_of_list_remove1 in Hg; naive_solver.
  - intros g. rewrite Hpos, elem_of_app, elem_of_list_remove1, list_elem_of_singleton by done.
    destruct (decide (g = f)); naive_solver.
Qed.

#[global] Program Instance Ordered_laws : PolicyLaws Ordered := {|
  tracked := positions_;
  policy_ok := ordered_ok
|}.
Next Obligation. apply ordered_insert_ok. Qed.
Next Obligation. apply ordered_access_ok. Qed.
Next Obligation. apply ordered_remove_ok. Qed.
Next Obligation. done. Qed.
Next Obligation. done. Qed.
Next Obligation.
  intros f p _. cbn. unfold ordered_on_remove. case_bool_decide; cbn; [|done].
  apply set_eq. intros g. destruct (decide (g = f)); set_solver.
Qed.
Next Obligation.
  intros f p _ _. cbn. unfold ordered_on_access. destruct (touch_on_access_ p); [|done].
  by case_bool_decide.
Qed.
Next Obligation.
  intros f p _. cbn. unfold ordered_on_remove. case_bool_decide; cbn; [done|].
  apply set_eq. set_solver.
Qed.
Next Obligation.
  intros rep p Hok. exists (ordered_scan rep (order_ p)), p. split_and!; [done..|].
  destruct Hok as [_ Hpos]. pose proof (ordered_scan_spec rep (order_ p)) as H.
  destruct (ordered_scan rep (order_ p)) as [f|].
  - destruct H as (l1 & l2 & E & Hf & _). split; [|done]. apply Hpos. rewrite E. set_solver.
  - intros f Hf%Hpos. by eapply Forall_forall in H.
Qed.

(** *** Recency specification of LRU and FIFO

    A trace of policy events, newest first.  [stamp touch tr f] is the time of
    the event that fixes the rank of [f]: its insertion, or its last access
    when accesses count ([touch], LRU); [None] when [f] is not cached. *)
Inductive pevent : Type :=
  | EInsert (f : FrameId)
  | EAccess (f : FrameId)
  | ERemove (f : FrameId).

Definition apply_event {P} `{!ReplacementPolicy P} (e : pevent) (p : P) : P :=
  match e with
  | EInsert f => on_insert f p
  | EAccess f => on_access f p
  | ERemove f => on_remove f p
  end.

Definition run_events {P} `{!ReplacementPolicy P} (p : P) (tr : list pevent) : P :=
  foldr apply_event p tr.

Fixpoint stamp (touch : bool) (tr : list pevent) (f : FrameId) : option nat :=
  match tr with
  | [] => None
  | EInsert g :: tr' => if decide (g = f) then Some (length tr') else stamp touch tr' f
  | EAccess g :: tr' =>
      if decide (g = f) then
        match stamp touch tr' f with
        | Some t => Some (if touch then length tr' else t)
        | None => None
        end
      else stamp touch tr' f
  | ERemove g :: tr' => if decide (g = f) then None else stamp touch tr' f
  end.

Definition older (touch : bool) (tr : list pevent) (f g : FrameId) : Prop :=
  ∃ x y, stamp touch tr f = Some x ∧ stamp touch tr g = Some y ∧ (x < y)%nat.

Lemma stamp_bound touch tr f t : stamp touch tr f = Some t → (t < length tr)%nat.
Proof.
  revert t. induction tr as [|[g|g|g] tr IH]; cbn; intros t Ht; [done|..];
    repeat case_decide; simplify_eq; try lia.
  - apply IH in Ht. lia.
  - destruct (stamp touch tr f) eqn:E; simplify_eq. specialize (IH _ eq_refl). destruct touch; lia.
  - apply IH in Ht. lia.
  - apply IH in Ht. lia.
Qed.

(** [l] lists exactly the stamped pages, oldest stamp first. *)
Definition ranked (s : FrameId → option nat) (l : list FrameId) : Prop :=
  StronglySorted (λ f g, ∃ x y, s f = Some x ∧ s g = Some y ∧ (x < y)%nat) l ∧
  ∀ f, f ∈ l ↔ is_Some (s f).

Lemma StronglySorted_impl_elem {A} (R1 R2 : relation A) (l : list A) :
  StronglySorted R1 l → (∀ x y, x ∈ l → y ∈ l → R1 x y → R2 x y) → StronglySorted R2 l.
Proof.
  induction 1 as [|x l Hl IH Hx]; intros HR; constructor.
  - apply IH. intros. apply HR; set_solver.
  - rewrite Forall_forall in Hx |- *. intros y Hy. apply HR; set_solver.
Qed.

Lemma StronglySorted_sublist {A} (R : relation A) (l k : list A) :
  l `sublist_of` k → StronglySorted R k → StronglySorted R l.
Proof.
  induction 1 as [|x l k Hlk IH|x l k Hlk IH]; intros Hs; [done|..];
    apply StronglySorted_inv in Hs as [Hs Hx].
  - constructor; [auto|]. rewrite Forall_forall in Hx |- *. intros y Hy. by apply Hx, (elem_of_sublist l).
  - auto.
Qed.

Lemma StronglySorted_snoc {A} (R : relation A) (l : list A) x :
  StronglySorted R l → Forall (λ y, R y x) l → StronglySorted R (l ++ [x]).
Proof.
  intros Hl Hx. apply StronglySorted_app. rewrite Forall_forall in Hx.
  split_and!; [|done|repeat constructor]. intros y z Hy ->%list_elem_of_singleton. auto.
Qed.

(** Moving [f] to the newest end. *)
Lemma ranked_touch s s' l f n :
  NoDup l → ranked s l → (∀ g t, s g = Some t → (t < n)%nat) →
  s' f = Some n → (∀ g, g ≠ f → s' g = s g) → ranked s' (list_remove1 f l ++ [f]).
Proof.
  intros Hnd [Hs Hin] Hb Hf Hg. split.
  - apply StronglySorted_snoc.
    + eapply StronglySorted_impl_elem.
      { eapply StronglySorted_sublist; [apply list_remove1_sublist|done]. }
      cbn. intros x y Hx Hy. rewrite elem_of_list_remove1 in Hx, Hy by done.
      rewrite !Hg by naive_solver. done.
    + apply Forall_forall. intros g Hgl. rewrite elem_of_list_remove1 in Hgl by done.
      destruct Hgl as [Hne [t Ht]%Hin]. exists t, n. rewrite Hg by done.
      split_and!; [done..|]. by eapply Hb.
  - intros g. rewrite elem_of_app, elem_of_list_remove1, list_elem_of_singleton, Hin by done.
    destruct (decide (g = f)) as [->|]; [|rewrite Hg by done; naive_solver].
    rewrite Hf. naive_solver.
Qed.

Lemma ranked_remove s s' l f :
  NoDup l → ranked s l → s' f = None → (∀ g, g ≠ f → s' g = s g) → ranked s' (list_remove1 f l).
Proof.
  intros Hnd [Hs Hin] Hf Hg. split.
  - eapply StronglySorted_impl_elem.
    { eapply StronglySorted_sublist; [apply list_remove1_sublist|done]. }
    cbn. intros x y Hx Hy. rewrite elem_of_list_remove1 in Hx, Hy by done.
    rewrite !Hg by naive_solver. done.
  - intros g. rewrite elem_of_list_remove1, Hin by done.
    destruct (decide (g = f)) as [->|]; [rewrite Hf|rewrite Hg by done]; naive_solver.
Qed.

Lemma ranked_ext s s' l : (∀ g, s' g = s g) → ranked s l → ranked s' l.
Proof.
  intros Hg [Hs Hin]. split.
  - eapply StronglySorted_impl_elem; [done|]. cbn. intros. by rewrite !Hg.
  - intros. by rewrite Hin, Hg.
Qed.

Lemma ordered_remove_order f p :
  ordered_ok p → order_ (ordered_on_remove f p) = list_remove1 f (order_ p).
Proof.
  intros [_ Hpos]. unfold ordered_on_remove. case_bool_decide as E; [done|].
  rewrite list_remove1_not_elem; [done|]. by rewrite <-Hpos.
Qed.

Lemma ordered_touch_const e p : touch_on_access_ (apply_event e p) = touch_on_access_ p.
Proof.
  destruct e as [f|f|f], p as [[] o q]; cbn; unfold ordered_on_access, ordered_on_insert, ordered_on_remove;
    cbn; repeat case_bool_decide; done.
Qed.

Lemma ordered_run_inv touch tr :
  let p := run_events (mkOrdered touch [] ∅) tr in
  ordered_ok p ∧ touch_on_access_ p = touch ∧ ranked (stamp touch tr) (order_ p).
Proof.
  induction tr as [|e tr IH]; cbn [run_events foldr].
  { split_and!; [split; [constructor|set_solver]|done|].
    split; [constructor|]. intros f. split; [inversion 1|by intros []]. }
  destruct IH as (Hok & Ht & Hr).
  change (foldr apply_event (mkOrdered touch [] ∅) tr) with (run_events (mkOrdered touch [] ∅) tr).
  set (p := run_events (mkOrdered touch [] ∅) tr) in *.
  pose proof Hok as [Hnd Hpos]. rewrite ordered_touch_const. split; [|split; [done|]].
  { destruct e; cbn; [by apply ordered_insert_ok|by apply ordered_access_ok|by apply ordered_remove_ok]. }
  destruct e as [f|f|f]; cbn.
  - rewrite ordered_remove_order by done.
    eapply ranked_touch; [done|exact Hr|intros ?? ?; by eapply stamp_bound|by rewrite decide_True|].
    intros g Hg. by rewrite decide_False by congruence.
  - unfold ordered_on_access. rewrite Ht. destruct touch.
    + case_bool_decide as E; cbn.
      * apply Hpos, Hr in E as [t Et].
        eapply ranked_touch; [done|exact Hr|intros ?? ?; by eapply stamp_bound| |].
        -- rewrite decide_True by done. by rewrite Et.
        -- intros g Hg. by rewrite decide_False by congruence.
      * eapply ranked_ext; [|exact Hr]. intros g. cbn. case_decide; [|done]. subst.
        destruct (stamp true tr g) eqn:Eg; [|done].
        exfalso. apply E, Hpos, Hr. by eexists.
    + eapply ranked_ext; [|exact Hr]. intros g. cbn. case_decide; [|done].
      by destruct (stamp false tr g).
  - rewrite ordered_remove_order by done.
    eapply ranked_remove; [done|exact Hr|by rewrite decide_True|].
    intros g Hg. by rewrite decide_False by congruence.
Qed.

(** After any sequence of insertions, accesses and removals, LRU evicts the
    replaceable page whose last insertion or access is the oldest, FIFO the one
    inserted first whatever was accessed since, and neither finds a victim
    only if no cached page is replaceable. *)
Theorem ordered_victim_is_oldest touch tr rep :
  let p := run_events (mkOrdered touch [] ∅) tr in
  choose_victim rep p = Some (ordered_scan rep (order_ p), p) ∧
  match ordered_scan rep (order_ p) with
  | Some f =>
      rep f = true ∧ is_Some (stamp touch tr f) ∧
      ∀ g, g ≠ f → rep g = true → is_Some (stamp touch tr g) → older touch tr f g
  | None => ∀ g, is_Some (stamp touch tr g) → rep g = false
  end.
Proof.
  cbn. split; [done|]. destruct (ordered_run_inv touch tr) as ([Hnd _] & _ & Hs & Hin).
  pose proof (ordered_scan_spec rep (order_ (run_events (mkOrdered touch [] ∅) tr))) as H.
  destruct (ordered_scan _ _) as [f|].
  - destruct H as (l1 & l2 & E & Hf & Hl1). rewrite E in Hs, Hin.
    split_and!; [done|apply Hin; set_solver|]. intros g Hne Hrep Hg%Hin.
    apply elem_of_app in Hg as [Hg|Hg].
    { rewrite Forall_forall in Hl1. apply Hl1 in Hg. congruence. }
    apply StronglySorted_app in Hs as (_ & _ & Hs).
    apply StronglySorted_inv in Hs as [_ Hs]. rewrite Forall_forall in Hs.
    apply Hs. set_solver.
  - intros g Hg%Hin. rewrite Forall_forall in H. by apply H.
Qed.

(** ** LRU-K with K = 2: [LRUKReplacementPolicy]

    [histories_] is a hash map; the scan visits it in an unspecified order, so
    the model scans any enumeration of it and [lruk_scan_perm] shows that the
    order does not matter. *)
Definition LRUK_K : nat := 2.

Record LRUK : Type := mkLRUK {
  current_timestamp_ : Z;
  histories_ : gmap FrameId (list Z)
}.

Definition lruk_on_remove (f : FrameId) (p : LRUK) : LRUK :=
  mkLRUK (current_timestamp_ p) (delete f (histories_ p)).

Definition lruk_record_access (f : FrameId) (p : LRUK) : LRUK :=
  let history := default [] (histories_ p !! f) in
  let history := if decide (length history = LRUK_K) then tail history else history in
  let ts := uwrap 64 (current_timestamp_ p + 1) in
  mkLRUK ts (<[f := history ++ [ts]]> (histories_ p)).

Definition lruk_on_insert (f : FrameId) (p : LRUK) : LRUK :=
  lruk_record_access f (lruk_on_remove f p).

Definition lruk_on_access (f : FrameId) (p : LRUK) : LRUK := lruk_record_access f p.

(** One round of the loop; the accumulator is the victim so far with
    [victim_is_cold] and [oldest_relevant_access]. *)
Definition lruk_better (cold : bool) (t : Z) (vc : bool) (vt : Z) : bool :=
  (cold && negb vc) || (Bool.eqb cold vc && (t <? vt)).

Definition lruk_step (rep : FrameId → bool) (acc : option (FrameId * (bool * Z)))
    (e : FrameId * list Z) : option (FrameId * (bool * Z)) :=
  match e.2 with
  | [] => acc
  | t :: _ =>
      if rep e.1 then
        let cold := bool_decide (length e.2 < LRUK_K)%nat in
        match acc with
        | Some (_, (vc, vt)) => if lruk_better cold t vc vt then Some (e.1, (cold, t)) else acc
        | None => Some (e.1, (cold, t))
        end
      else acc
  end.

Definition lruk_scan (rep : FrameId → bool) (es : list (FrameId * list Z)) :
    option (FrameId * (bool * Z)) := foldl (lruk_step rep) None es.

Definition lruk_choose_victim (rep : FrameId → bool) : M LRUK (option FrameId) :=
  λ p, Some (fst <$> lruk_scan rep (map_to_list (histories_ p)), p).

Definition lruk_metadata (f : FrameId) (p : LRUK) : string :=
  match histories_ p !! f with
  | None => "history=unknown"
  | Some h =>
      String.append "k=2,history=" (String.append (pretty (length h))
        (String.append ",class=" (if bool_decide (length h < LRUK_K)%nat then "cold" else "hot")))
  end.

Definition LRUKReplacementPolicy : LRUK := mkLRUK 0 ∅.

#[global] Instance LRUK_policy : ReplacementPolicy LRUK := {|
  on_insert := lruk_on_insert;
  on_access := lruk_on_access;
  on_pin _ p := p;
  on_unpin _ p := p;
  on_remove := lruk_on_remove;
  choose_victim := lruk_choose_victim;
  metadata := lruk_metadata;
  policy_name _ := "LRU-K"
|}.

(** Every history holds the last one or two access stamps. *)
Definition lruk_ok (p : LRUK) : Prop :=
  map_Forall (λ _ h, h ≠ [] ∧ (length h ≤ LRUK_K)%nat) (histories_ p).

(** The key of the entries that compete: cold before hot, then older stamp. *)
Definition lruk_key (e : FrameId * list Z) : option (bool * Z) :=
  match e.2 with
  | [] => None
  | t :: _ => Some (bool_decide (length e.2 < LRUK_K)%nat, t)
  end.

(** [lruk_beats k1 k2]: an entry with key [k1] is evicted before one with [k2]. *)
Definition lruk_beats (k1 k2 : bool * Z) : Prop :=
  (k1.1 = true ∧ k2.1 = false) ∨ (k1.1 = k2.1 ∧ k1.2 < k2.2).

Lemma lruk_better_beats c t vc vt :
  lruk_better c t vc vt = true ↔ lruk_beats (c, t) (vc, vt).
Proof.
  unfold lruk_better, lruk_beats. cbn. destruct c, vc; cbn;
    rewrite ?Z.ltb_lt, ?orb_true_iff; naive_solver.
Qed.

Lemma lruk_beats_trans k1 k2 k3 : lruk_beats k1 k2 → lruk_beats k2 k3 → lruk_beats k1 k3.
Proof.
  unfold lruk_beats. destruct k1 as [[] ?], k2 as [[] ?], k3 as [[] ?]; cbn; intros; 
    destruct_or!; destruct_and!; try done; [right; split; [done|lia]|by left|by left|right; split; [done|lia]].
Qed.

Lemma lruk_beats_irrefl k : ¬ lruk_beats k k.
Proof. unfold lruk_beats. destruct k as [[] ?]; cbn; intros [[??]|[??]]; try done; lia. Qed.

Lemma lruk_beats_total k1 k2 : lruk_beats k1 k2 ∨ k1 = k2 ∨ lruk_beats k2 k1.
Proof.
  unfold lruk_beats. destruct k1 as [[] a], k2 as [[] b]; cbn;
    destruct (Z.lt_total a b) as [?|[->|?]]; auto 10.
Qed.

(** The entries taking part in a scan. *)
Definition lruk_candidate (rep : FrameId → bool) (e : FrameId * list Z) : Prop :=
  rep e.1 = true ∧ e.2 ≠ [].

(** [v] is a candidate of [es] that no other candidate beats. *)
Definition lruk_best rep (es : list (FrameId * list Z)) (v : FrameId * (bool * Z)) : Prop :=
  (∃ h, (v.1, h) ∈ es ∧ rep v.1 = true ∧ lruk_key (v.1, h) = Some v.2) ∧
  ∀ e k, e ∈ es → rep e.1 = true → lruk_key e = Some k → ¬ lruk_beats k v.2.

Lemma lruk_scan_best rep es :
  match lruk_scan rep es with
  | Some v => lruk_best rep es v
  | None => ∀ e, e ∈ es → ¬ lruk_candidate rep e
  end.
Proof.
  unfold lruk_scan. induction es as [|[f h] es IH] using rev_ind.
  { cbn. intros e He. by apply elem_of_nil in He. }
  rewrite foldl_app. cbn. unfold lruk_step at 1. cbn.
  destruct h as [|t h]; cbn.
  { destruct (foldl _ _ es) as [v|].
    - destruct IH as [(h' & Hin & Hrep & Hk) Hb]. split.
      + exists h'. set_solver.
      + intros e k [He| ->%list_elem_of_singleton]%elem_of_app Hre Hke; [eauto|done].
    - intros e [He| ->%list_elem_of_singleton]%elem_of_app; [auto|]. by intros [_ ?]. }
  destruct (rep f) eqn:Ef; cycle 1.
  { destruct (foldl _ _ es) as [v|].
    - destruct IH as [(h' & Hin & Hrep & Hk) Hb]. split.
      + exists h'. set_solver.
      + intros e k [He| ->%list_elem_of_singleton]%elem_of_app Hre Hke; [eauto|cbn in *; congruence].
    - intros e [He| ->%list_elem_of_singleton]%elem_of_app; [auto|]. intros [? _]. cbn in *. congruence. }
  set (c := bool_decide _).
  destruct (foldl _ _ es) as [[v [vc vt]]|]; cycle 1.
  { split; cbn.
    - exists (t :: h). set_solver.
    - intros e k [He| ->%list_elem_of_singleton]%elem_of_app Hre Hke.
      + exfalso. apply (IH e He). split; [done|]. intros E. unfold lruk_key in Hke. by rewrite E in Hke.
      + cbn in Hke. simplify_eq. apply lruk_beats_irrefl. }
  destruct IH as [(h' & Hin & Hrep & Hk) Hb]. cbn in *.
  destruct (lruk_better c t vc vt) eqn:Eb.
  - apply lruk_better_beats in Eb. split; cbn.
    + exists (t :: h). set_solver.
    + intros e k [He| ->%list_elem_of_singleton]%elem_of_app Hre Hke Hbe.
      * eapply Hb; [done..|]. by eapply lruk_beats_trans.
      * cbn in Hke. simplify_eq. by eapply lruk_beats_irrefl.
  - split; cbn.
    + exists h'. set_solver.
    + intros e k [He| ->%list_elem_of_singleton]%elem_of_app Hre Hke; [eauto|].
      cbn in Hke. simplify_eq. rewrite <-lruk_better_beats. fold c. congruence.
Qed.

Lemma lruk_record_access_ok f p : lruk_ok p → lruk_ok (lruk_record_access f p).
Proof.
  intros Hok. apply map_Forall_insert_2; [|done].
  split; [by destruct (if decide _ then _ else _)|].
  rewrite length_app. cbn. unfold LRUK_K in *.
  destruct (histories_ p !! f) as [h|] eqn:E; cbn.
  - apply Hok in E as [_ Hl]. unfold LRUK_K in Hl. case_decide; [|lia].
    destruct h; cbn in *; lia.
  - case_decide; cbn in *; lia.
Qed.

#[global] Program Instance LRUK_laws : PolicyLaws LRUK := {|
  tracked p := dom (histories_ p);
  policy_ok := lruk_ok
|}.
Next Obligation.
  intros f p Hok. apply lruk_record_access_ok. by apply map_Forall_delete.
Qed.
Next Obligation. intros f p. apply lruk_record_access_ok. Qed.
Next Obligation. intros f p Hok. by apply map_Forall_delete. Qed.
Next Obligation. done. Qed.
Next Obligation. done. Qed.
Next Obligation.
  intros f p _. cbn. rewrite dom_insert_L, dom_delete_L. apply set_eq. intros g.
  destruct (decide (g = f)); set_solver.
Qed.
Next Obligation. intros f p _ Hf. cbn in *. rewrite dom_insert_L. set_solver. Qed.
Next Obligation. intros f p _. cbn. by rewrite dom_delete_L. Qed.
Next Obligation.
  intros rep p Hok. eexists _, p. split_and!; [done..|].
  pose proof (lruk_scan_best rep (map_to_list (histories_ p))) as H.
  destruct (lruk_scan _ _) as [[f k]|]; cbn.
  - destruct H as [(h & Hin%elem_of_map_to_list & Hrep & _) _]. split; [|done].
    by eapply elem_of_dom_2.
  - intros f [h Hf]%elem_of_dom. apply not_true_iff_false. intros Hrep.
    eapply (H (f, h)); [by apply elem_of_map_to_list|]. split; [done|]. by eapply Hok.
Qed.

(** *** Recency specification of LRU-K *)

(** Insertions and accesses so far: the logical clock. *)
Fixpoint ticks (tr : list pevent) : Z :=
  match tr with
  | [] => 0
  | ERemove _ :: tr' => ticks tr'
  | _ :: tr' => ticks tr' + 1
  end.

(** Times of the uses of [f] since it was last cached, newest first. *)
Fixpoint use_times (tr : list pevent) (f : FrameId) : list Z :=
  match tr with
  | [] => []
  | EInsert g :: tr' => if decide (g = f) then [ticks tr' + 1] else use_times tr' f
  | EAccess g :: tr' =>
      if decide (g = f) then (ticks tr' + 1) :: use_times tr' f else use_times tr' f
  | ERemove g :: tr' => if decide (g = f) then [] else use_times tr' f
  end.

(** Rank of a page by its backward 2-distance: pages used once come first, by
    that use; the others by their second newest use. *)
Definition two_distance (tr : list pevent) (f : FrameId) : option (bool * Z) :=
  match use_times tr f with
  | [] => None
  | [t] => Some (true, t)
  | _ :: t :: _ => Some (false, t)
  end.

Lemma ticks_nonneg tr : 0 ≤ ticks tr.
Proof. induction tr as [|[] tr IH]; cbn; lia. Qed.

Lemma use_times_bound tr f t : t ∈ use_times tr f → 0 < t ≤ ticks tr.
Proof.
  pose proof (ticks_nonneg tr). revert t.
  induction tr as [|[g|g|g] tr IH]; cbn; intros t Ht.
  { by apply elem_of_nil in Ht. }
  all: pose proof (ticks_nonneg tr); repeat case_decide.
  all: try (apply IH in Ht; [lia|done]).
  - apply list_elem_of_singleton in Ht. lia.
  - apply elem_of_cons in Ht as [->|Ht]; [lia|]. apply IH in Ht; [lia|done].
  - by apply elem_of_nil in Ht.
Qed.

Lemma use_times_inj tr f g t : t ∈ use_times tr f → t ∈ use_times tr g → f = g.
Proof.
  induction tr as [|[h|h|h] tr IH]; cbn; intros Hf Hg.
  { by apply elem_of_nil in Hf. }
  all: repeat case_decide; subst; try done.
  all: rewrite ?elem_of_cons, ?elem_of_nil in *; destruct_or?; subst; auto; try done.
  all: try (match goal with H : _ ∈ use_times _ _ |- _ => apply use_times_bound in H; lia end).
Qed.

Definition last2 (l : list Z) : option (list Z) :=
  match l with
  | [] => None
  | [t] => Some [t]
  | a :: b :: _ => Some [b; a]
  end.

Lemma lruk_run_inv tr :
  ticks tr < 2 ^ 64 →
  let p := run_events LRUKReplacementPolicy tr in
  current_timestamp_ p = ticks tr ∧ ∀ f, histories_ p !! f = last2 (use_times tr f).
Proof.
  induction tr as [|e tr IH]; intros Hb.
  { split; [done|]. intros f. apply lookup_empty. }
  assert (ticks tr ≤ ticks (e :: tr)) by (destruct e; cbn; lia).
  destruct IH as [Ht Hh]; [lia|]. cbn [run_events foldr].
  change (foldr apply_event LRUKReplacementPolicy tr) with (run_events LRUKReplacementPolicy tr).
  set (p := run_events LRUKReplacementPolicy tr) in *.
  pose proof (ticks_nonneg tr).
  destruct e as [g|g|g]; cbn in *; rewrite ?Ht.
  - rewrite uwrap_id by lia. split; [done|]. intros f.
    rewrite lookup_delete_eq. cbn. rewrite lookup_insert.
    repeat case_decide; simplify_eq; try done. by rewrite lookup_delete_ne.
  - rewrite uwrap_id by lia. split; [done|]. intros f. rewrite lookup_insert.
    repeat case_decide; simplify_eq; rewrite ?Hh in *; try done;
      destruct (use_times tr f) as [|a [|b l]]; cbn in *; try done.
  - split; [done|]. intros f. rewrite lookup_delete.
    repeat case_decide; simplify_eq; [done|apply Hh].
Qed.

Lemma lruk_key_two_distance tr f h :
  ticks tr < 2 ^ 64 →
  histories_ (run_events LRUKReplacementPolicy tr) !! f = Some h →
  lruk_key (f, h) = two_distance tr f.
Proof.
  intros Hb Hh. destruct (lruk_run_inv tr Hb) as [_ E]. rewrite E in Hh.
  unfold two_distance. destruct (use_times tr f) as [|a [|b l]]; cbn in *; by simplify_eq.
Qed.

Lemma two_distance_inj tr f g k : two_distance tr f = Some k → two_distance tr g = Some k → f = g.
Proof.
  unfold two_distance.
  destruct (use_times tr f) as [|a [|b l]] eqn:Ef, (use_times tr g) as [|a' [|b' l']] eqn:Eg;
    intros; simplify_eq.
  - eapply (use_times_inj tr); [rewrite Ef; constructor 1|rewrite Eg; constructor 1].
  - eapply (use_times_inj tr); [rewrite Ef; constructor 2; constructor 1|
                                rewrite Eg; constructor 2; constructor 1].
Qed.

(** After any trace of fewer than 2^64 uses, in whatever order the hash map
    is scanned, LRU-K evicts the replaceable cached page with the smallest
    backward 2-distance rank (pages used only once before the others, then the
    oldest use), and that page is unique; it fails only if none is
    replaceable. *)
Theorem lruk_victim_two_distance tr rep es :
  ticks tr < 2 ^ 64 →
  es ≡ₚ map_to_list (histories_ (run_events LRUKReplacementPolicy tr)) →
  match fst <$> lruk_scan rep es with
  | Some f =>
      rep f = true ∧ ∃ k, two_distance tr f = Some k ∧
      ∀ g k', g ≠ f → rep g = true → two_distance tr g = Some k' → lruk_beats k k'
  | None => ∀ g, is_Some (two_distance tr g) → rep g = false
  end.
Proof.
  intros Hb Hp. set (p := run_events LRUKReplacementPolicy tr) in *.
  assert (∀ f h, (f, h) ∈ es ↔ histories_ p !! f = Some h) as Hes.
  { intros. by rewrite Hp, elem_of_map_to_list. }
  assert (∀ f k, two_distance tr f = Some k → ∃ h, (f, h) ∈ es ∧ lruk_key (f, h) = Some k) as Hcand.
  { intros f k Hk. destruct (histories_ p !! f) as [h|] eqn:Eh.
    - exists h. split; [by apply Hes|]. by rewrite (lruk_key_two_distance tr f h Hb Eh).
    - exfalso. destruct (lruk_run_inv tr Hb) as [_ E]. rewrite E in Eh.
      unfold two_distance in Hk. by destruct (use_times tr f) as [|? []]. }
  pose proof (lruk_scan_best rep es) as H. destruct (lruk_scan rep es) as [[f k]|]; cbn.
  - destruct H as [(h & Hin & Hrep & Hk) Hbest]. cbn in *. split; [done|]. exists k.
    rewrite (lruk_key_two_distance tr f h Hb) in Hk by by apply Hes. split; [done|].
    intros g k' Hne Hg Hk'. destruct (Hcand g k' Hk') as (h' & Hin' & Hkey).
    destruct (lruk_beats_total k k') as [?|[->|?]]; [done|..].
    + exfalso. by eapply Hne, two_distance_inj.
    + exfalso. by eapply (Hbest (g, h')).
  - intros g [k Hk]. apply not_true_iff_false. intros Hg.
    destruct (Hcand g k Hk) as (h & Hin & Hkey). apply (H (g, h) Hin). split; [done|].
    cbn. intros ->. done.
Qed.

Lemma lruk_victim_two_distance_witness :
  let a := mkFrameId 1 1 in let b := mkFrameId 1 2 in
  let tr := [EAccess a; EInsert b; EInsert a] in
  let p := run_events LRUKReplacementPolicy tr in
  let es := map_to_list (histories_ p) in
  fst <$> lruk_scan (λ _, true) es = Some b ∧
  match fst <$> lruk_scan (λ _, true) es with
  | Some f => true = true ∧ ∃ k, two_distance tr f = Some k ∧
      ∀ g k', g ≠ f → true = true → two_distance tr g = Some k' → lruk_beats k k'
  | None => ∀ g, is_Some (two_distance tr g) → true = false
  end.
Proof.
  intros a b tr p es. split; [vm_compute; reflexivity|].
  apply (lruk_victim_two_distance tr (λ _, true) es); [vm_compute; reflexivity|reflexivity].
Defined.

(** ** CLOCK: [ClockReplacementPolicy] *)
Record Clock : Type := mkClock {
  ring_ : list FrameId;
  referenced_ : gmap FrameId bool;
  hand_ : nat
}.

Definition clock_on_remove (f : FrameId) (p : Clock) : Clock :=
  match ordered_index f (ring_ p) 0 with
  | None => mkClock (ring_ p) (delete f (referenced_ p)) (hand_ p)
  | Some index =>
      let hand := if bool_decide (index < hand_ p)%nat && bool_decide (0 < hand_ p)%nat
                  then (hand_ p - 1)%nat else hand_ p in
      let ring := delete index (ring_ p) in
      let referenced := delete f (referenced_ p) in
      mkClock ring referenced
        (if bool_decide (ring = []) || bool_decide (length ring ≤ hand)%nat then 0%nat else hand)
  end.

Definition clock_on_insert (f : FrameId) (p : Clock) : Clock :=
  let p1 := clock_on_remove f p in
  mkClock (ring_ p1 ++ [f]) (<[f := true]> (referenced_ p1)) (hand_ p1).

Definition clock_on_access (f : FrameId) (p : Clock) : Clock :=
  match referenced_ p !! f with
  | Some _ => mkClock (ring_ p) (<[f := true]> (referenced_ p)) (hand_ p)
  | None => p
  end.

(** The scan loop; [ring_[hand_]] out of bounds is undefined. *)
Fixpoint clock_scan (n : nat) (rep : FrameId → bool) (p : Clock) : option (option FrameId * Clock) :=
  match n with
  | O => Some (None, p)
  | S n' =>
      match ring_ p !! hand_ p with
      | None => None
      | Some candidate =>
          let hand := ((hand_ p + 1) mod length (ring_ p))%nat in
          if rep candidate then
            let p1 := mkClock (ring_ p) (<[candidate := false]> (referenced_ p)) hand in
            if default false (referenced_ p !! candidate)
            then clock_scan n' rep p1
            else Some (Some candidate, p1)
          else clock_scan n' rep (mkClock (ring_ p) (referenced_ p) hand)
      end
  end.

Definition clock_choose_victim (rep : FrameId → bool) : M Clock (option FrameId) := λ p,
  if bool_decide (ring_ p = []) then Some (None, p)
  else clock_scan (length (ring_ p) * 2) rep p.

Definition clock_metadata (f : FrameId) (p : Clock) : string :=
  match (referenced_ p !! f : option bool), ordered_index f (ring_ p) 0 with
  | Some r, Some slot =>
      String.append "reference=" (String.append (if r then "1" else "0")
        (String.append ",clock_slot=" (pretty slot)))
  | _, _ => "reference=unknown"
  end.

Definition ClockReplacementPolicy : Clock := mkClock [] ∅ 0.

#[global] Instance Clock_policy : ReplacementPolicy Clock := {|
  on_insert := clock_on_insert;
  on_access := clock_on_access;
  on_pin _ p := p;
  on_unpin _ p := p;
  on_remove := clock_on_remove;
  choose_victim := clock_choose_victim;
  metadata := clock_metadata;
  policy_name _ := "CLOCK"
|}.

(** The hand points into the ring and exactly the ring's pages have a bit. *)
Definition clock_ok (p : Clock) : Prop :=
  NoDup (ring_ p) ∧ (∀ f, f ∈ dom (referenced_ p) ↔ f ∈ ring_ p) ∧
  ((hand_ p < length (ring_ p))%nat ∨ ring_ p = [] ∧ hand_ p = 0%nat).

(** The pages in the order in which the hand meets them. *)
Definition clock_order (p : Clock) : list FrameId :=
  drop (hand_ p) (ring_ p) ++ take (hand_ p) (ring_ p).

Lemma ordered_index_Some f (l : list FrameId) n i :
  ordered_index f l n = Some i → (n ≤ i)%nat ∧ l !! (i - n)%nat = Some f ∧
    f ∉ take (i - n)%nat l.
Proof.
  revert n. induction l as [|g l IH]; intros n; cbn; [done|].
  destruct (FrameId_equal_to g f) eqn:E.
  - apply FrameId_equal_to_spec in E as ->. intros [= ->]. rewrite Nat.sub_diag. cbn.
    split_and!; [lia|done|apply not_elem_of_nil].
  - intros (H1 & H2 & H3)%IH. replace (i - n)%nat with (S (i - S n)) by lia. cbn.
    split_and!; [lia|done|]. apply not_elem_of_cons. split; [|done]. intros ->.
    by rewrite (proj2 (FrameId_equal_to_spec g g) eq_refl) in E.
Qed.

Lemma ordered_index_None f (l : list FrameId) n : ordered_index f l n = None → f ∉ l.
Proof.
  revert n. induction l as [|g l IH]; intros n; cbn; [set_solver|].
  destruct (FrameId_equal_to g f) eqn:E; [done|]. intros H%IH.
  apply not_elem_of_cons. split; [|done]. intros ->.
  by rewrite (proj2 (FrameId_equal_to_spec g g) eq_refl) in E.
Qed.

Lemma ordered_index_split f (l : list FrameId) i :
  ordered_index f l 0 = Some i → ∃ l1 l2, l = l1 ++ f :: l2 ∧ i = length l1 ∧ f ∉ l1.
Proof.
  intros (_ & Hi & Hn)%ordered_index_Some. rewrite Nat.sub_0_r in Hi, Hn.
  exists (take i l), (drop (S i) l). split_and!; [|rewrite length_take_le|done].
  - by rewrite take_drop_middle.
  - done.
  - apply Nat.lt_le_incl. by eapply lookup_lt_Some.
Qed.

(** The hand after the page at position [i] of a ring of [S n] pages went. *)
Definition clock_hand_after (i n hand : nat) : nat :=
  let h := if bool_decide (i < hand)%nat then (hand - 1)%nat else hand in
  if bool_decide (n ≤ h)%nat then 0%nat else h.

Lemma clock_on_remove_split f l1 l2 refs hand :
  f ∉ l1 →
  clock_on_remove f (mkClock (l1 ++ f :: l2) refs hand) =
    mkClock (l1 ++ l2) (delete f refs) (clock_hand_after (length l1) (length (l1 ++ l2)) hand).
Proof.
  intros Hf. unfold clock_on_remove, clock_hand_after. cbn.
  assert (ordered_index f (l1 ++ f :: l2) 0 = Some (length l1)) as ->.
  { destruct (ordered_index _ _ _) as [i|] eqn:E.
    - apply ordered_index_Some in E as (_ & Hi & Hn). rewrite Nat.sub_0_r in *. f_equal.
      destruct (lt_eq_lt_dec i (length l1)) as [[?|?]|?]; [exfalso|done|exfalso].
      + rewrite lookup_app_l in Hi by done. by apply list_elem_of_lookup_2 in Hi.
      + apply Hn. rewrite take_app_ge by lia. apply elem_of_app. right.
        destruct (i - length l1)%nat eqn:Ed; [lia|]. cbn. set_solver.
    - apply ordered_index_None in E. set_solver. }
  rewrite (delete_list_remove1 f), list_remove1_app; [|done|by apply list_lookup_middle|by rewrite take_app_length].
  f_equal. repeat case_bool_decide; cbn; try done; try lia.
  all: match goal with H : _ = [] |- _ => rewrite H in *; cbn in *; lia end.
Qed.

Lemma clock_order_remove_split f (l1 l2 : list FrameId) hand :
  f ∉ l1 ++ l2 → (hand < length (l1 ++ f :: l2))%nat →
  let h := clock_hand_after (length l1) (length (l1 ++ l2)) hand in
  drop h (l1 ++ l2) ++ take h (l1 ++ l2) =
    list_remove1 f (drop hand (l1 ++ f :: l2) ++ take hand (l1 ++ f :: l2)) ∧
  ((h < length (l1 ++ l2))%nat ∨ l1 ++ l2 = [] ∧ h = 0%nat).
Proof.
  intros Hf Hh. unfold clock_hand_after. rewrite !length_app in *. cbn in *.
  destruct (decide (length l1 < hand)%nat) as [Hih|Hih].
  - rewrite (bool_decide_eq_true_2 (length l1 < hand)%nat) by done.
    rewrite bool_decide_eq_false_2 by lia. split; [|left; lia].
    replace hand with (length l1 + S (hand - S (length l1)))%nat by lia.
    rewrite drop_app_add, take_app_add. cbn.
    rewrite list_remove1_app_r by (intros Hx%elem_of_drop_l; set_solver).
    rewrite list_remove1_app by set_solver.
    replace (length l1 + S (hand - S (length l1)) - 1)%nat
      with (length l1 + (hand - S (length l1)))%nat by lia.
    by rewrite drop_app_add, take_app_add.
  - rewrite (bool_decide_eq_false_2 (length l1 < hand)%nat) by done.
    rewrite (drop_app_le l1 (f :: l2)), (take_app_le l1 (f :: l2)) by lia.
    rewrite list_remove1_app_l by (apply elem_of_app; right; set_solver).
    rewrite list_remove1_app by (intros Hx%elem_of_drop_l; set_solver).
    case_bool_decide as Hlast.
    + assert (hand = length l1 ∧ l2 = []) as [-> ->].
      { split; [|apply length_zero_iff_nil]; lia. }
      rewrite !app_nil_r, drop_all, take_ge by lia. cbn. rewrite ?drop_0, ?take_0, ?app_nil_r.
      split; [done|]. destruct l1; [right|left]; cbn; [done|lia].
    + rewrite drop_app_le, take_app_le by lia. split; [done|left; lia].
Qed.

(** Removing a page never makes the hand skip or revisit another one. *)
Lemma clock_remove_order f p :
  clock_ok p →
  clock_order (clock_on_remove f p) = list_remove1 f (clock_order p) ∧
  ring_ (clock_on_remove f p) = list_remove1 f (ring_ p) ∧
  referenced_ (clock_on_remove f p) = delete f (referenced_ p) ∧
  ((hand_ (clock_on_remove f p) < length (ring_ (clock_on_remove f p)))%nat ∨
   ring_ (clock_on_remove f p) = [] ∧ hand_ (clock_on_remove f p) = 0%nat).
Proof.
  intros (Hnd & _ & Hh). destruct p as [ring refs hand]; cbn in *.
  destruct (ordered_index f ring 0) as [i|] eqn:E.
  - apply ordered_index_split in E as (l1 & l2 & -> & -> & Hf).
    rewrite clock_on_remove_split by done. unfold clock_order. cbn.
    apply NoDup_app in Hnd as (_ & _ & Hnd). apply list.NoDup_cons in Hnd as [Hf2 _].
    destruct (clock_order_remove_split f l1 l2 hand); [set_solver| |].
    + destruct Hh as [?|[H _]]; [done|]. by destruct l1.
    + by rewrite (list_remove1_app f) by done.
  - unfold clock_on_remove, clock_order. cbn. rewrite E. cbn.
    apply ordered_index_None in E. rewrite !list_remove1_not_elem; [done|done|].
    rewrite elem_of_app. intros [H|H]; apply E; [by eapply elem_of_drop_l|by eapply elem_of_take_l].
Qed.

(** *** The scan, on the pages in the order of the hand *)
Fixpoint rot_scan (n : nat) (rep : FrameId → bool) (l : list FrameId) (refs : gmap FrameId bool) :
    option FrameId * list FrameId * gmap FrameId bool :=
  match n, l with
  | O, _ | _, [] => (None, l, refs)
  | S n', c :: l' =>
      if rep c then
        if default false (refs !! c) then rot_scan n' rep (l' ++ [c]) (<[c := false]> refs)
        else (Some c, l' ++ [c], <[c := false]> refs)
      else rot_scan n' rep (l' ++ [c]) refs
  end.

Lemma clock_order_step ring refs refs' hand c :
  ring !! hand = Some c →
  ∃ l, clock_order (mkClock ring refs hand) = c :: l ∧
       clock_order (mkClock ring refs' ((hand + 1) mod length ring)%nat) = l ++ [c].
Proof.
  intros Hc. pose proof (lookup_lt_Some _ _ _ Hc) as Hlt. unfold clock_order. cbn [hand_ ring_].
  exists (drop (S hand) ring ++ take hand ring). rewrite (drop_S ring c hand Hc). split; [done|].
  rewrite Nat.add_1_r. destruct (decide (S hand = length ring)) as [E|E].
  - rewrite E, Nat.Div0.mod_same, drop_0, take_0, app_nil_r, drop_all. cbn.
    rewrite <-(take_drop_middle ring hand c Hc) at 1. by rewrite E, drop_all.
  - rewrite Nat.mod_small by lia. by rewrite (take_S_r ring hand c Hc), app_assoc.
Qed.

Lemma clock_scan_rot n rep p :
  (hand_ p < length (ring_ p))%nat →
  ∃ r p', clock_scan n rep p = Some (r, p') ∧ ring_ p' = ring_ p ∧
    (hand_ p' < length (ring_ p'))%nat ∧
    rot_scan n rep (clock_order p) (referenced_ p) = (r, clock_order p', referenced_ p').
Proof.
  revert p. induction n as [|n IH]; intros [ring refs hand] Hh;
    cbn [clock_scan ring_ hand_ referenced_] in *.
  { eexists _, _. by split_and!. }
  destruct (lookup_lt_is_Some_2 ring hand Hh) as [c Hc]. rewrite Hc.
  assert (((hand + 1) mod length ring < length ring)%nat) as Hmod.
  { apply Nat.mod_upper_bound. lia. }
  destruct (clock_order_step ring refs (<[c := false]> refs) hand c Hc) as (l & E1 & E2).
  destruct (clock_order_step ring refs refs hand c Hc) as (l' & E1' & E3).
  rewrite E1 in E1'. simplify_eq. rewrite E1. cbn [rot_scan].
  destruct (rep c).
  - destruct (default false (refs !! c)).
    + rewrite <-E2. exact (IH (mkClock ring (<[c:=false]> refs) ((hand + 1) mod length ring)%nat) Hmod).
    + eexists _, _. split_and!; [done..|]. by rewrite E2.
  - rewrite <-E3. exact (IH (mkClock ring refs ((hand + 1) mod length ring)%nat) Hmod).
Qed.

(** The reference bits after the hand passed over [l]. *)
Definition clear_bits (rep : FrameId → bool) (l : list FrameId) (refs : gmap FrameId bool) :
    gmap FrameId bool :=
  foldl (λ r c, if rep c then <[c := false]> r else r) refs l.

Lemma clear_bits_lookup rep l refs g :
  clear_bits rep l refs !! g =
    if bool_decide (g ∈ l) && rep g then Some false else refs !! g.
Proof.
  revert refs. induction l as [|c l IH]; intros refs.
  - by rewrite bool_decide_eq_false_2 by apply not_elem_of_nil.
  - change (clear_bits rep (c :: l) refs)
      with (clear_bits rep l (if rep c then <[c := false]> refs else refs)).
    rewrite IH. destruct (decide (g = c)) as [->|Hne].
    + rewrite (bool_decide_eq_true_2 (c ∈ c :: l)) by set_solver. cbn.
      destruct (rep c); rewrite ?andb_false_r, ?lookup_insert_eq; [|done].
      by destruct (bool_decide (c ∈ l)).
    + rewrite (bool_decide_ext (g ∈ c :: l) (g ∈ l)) by (rewrite elem_of_cons; naive_solver).
      destruct (rep c); [|done]. by rewrite lookup_insert_ne by done.
Qed.

(** Pages that are not replaceable or referenced are passed over. *)
Lemma rot_scan_skip rep l1 l2 refs k :
  NoDup l1 → (∀ g, g ∈ l1 → rep g = true → refs !! g = Some true) →
  rot_scan (length l1 + k) rep (l1 ++ l2) refs = rot_scan k rep (l2 ++ l1) (clear_bits rep l1 refs).
Proof.
  revert l2 refs. induction l1 as [|c l1 IH]; intros l2 refs Hnd Href.
  { cbn. by rewrite app_nil_r. }
  apply list.NoDup_cons in Hnd as [Hc Hnd].
  assert (l2 ++ c :: l1 = (l2 ++ [c]) ++ l1) as -> by by rewrite <-app_assoc.
  cbn. rewrite <-app_assoc. destruct (rep c) eqn:Ec.
  - rewrite (Href c) by set_solver. cbn. apply IH; [done|].
    intros g Hg Hrep. rewrite lookup_insert_ne; [apply Href; set_solver|set_solver].
  - apply IH; [done|]. intros g Hg Hrep. apply Href; set_solver.
Qed.

Lemma rot_scan_hit rep c l refs k :
  rep c = true → refs !! c ≠ Some true → rot_scan (S k) rep (c :: l) refs =
    (Some c, l ++ [c], <[c := false]> refs).
Proof. intros Hr Hc. cbn. rewrite Hr. by destruct (refs !! c) as [[]|]. Qed.

(** First element of a list with a decidable property. *)
Lemma list_first_dec {A} (P : A → Prop) `{∀ x, Decision (P x)} (l : list A) :
  (∃ l1 x l2, l = l1 ++ x :: l2 ∧ P x ∧ Forall (λ y, ¬ P y) l1) ∨ Forall (λ y, ¬ P y) l.
Proof.
  induction l as [|x l IH]; [right; constructor|].
  destruct (decide (P x)) as [Hx|Hx]; [left; by exists [], x, l|].
  destruct IH as [(l1 & y & l2 & -> & Hy & Hl)|Hl]; [left|right; by constructor].
  exists (x :: l1), y, l2. split_and!; [done..|by constructor].
Qed.

(** Outcome of a scan of [2 * length l] steps over [l]. *)
Inductive second_chance (rep : FrameId → bool) (l : list FrameId) (refs : gmap FrameId bool) :
    option FrameId * list FrameId * gmap FrameId bool → Prop :=
  | sc_first l1 v l2 :
      (** a replaceable unreferenced page: the first one met *)
      l = l1 ++ v :: l2 → rep v = true → refs !! v = Some false →
      (∀ g, g ∈ l1 → rep g = true → refs !! g = Some true) →
      second_chance rep l refs (Some v, l2 ++ l1 ++ [v], clear_bits rep l1 refs)
  | sc_second l1 v l2 :
      (** all replaceable pages referenced: all lose their bit, the first goes *)
      l = l1 ++ v :: l2 → rep v = true → (∀ g, g ∈ l1 → rep g = false) →
      (∀ g, g ∈ l → rep g = true → refs !! g = Some true) →
      second_chance rep l refs (Some v, l2 ++ l1 ++ [v], clear_bits rep l refs)
  | sc_none :
      (∀ g, g ∈ l → rep g = false) → second_chance rep l refs (None, l, refs).

Lemma rot_scan_lap rep l refs k :
  NoDup l → (∀ g, g ∈ l → rep g = true → refs !! g = Some true) →
  rot_scan (length l + k) rep l refs = rot_scan k rep l (clear_bits rep l refs).
Proof.
  intros Hnd Hl. pose proof (rot_scan_skip rep l [] refs k Hnd Hl) as E.
  by rewrite app_nil_r in E.
Qed.

Lemma clear_bits_none rep l refs : (∀ g, g ∈ l → rep g = false) → clear_bits rep l refs = refs.
Proof.
  intros H. apply map_eq. intros g. rewrite clear_bits_lookup. case_bool_decide; [|done]. by rewrite H.
Qed.

(** A replaceable page without its bit is found within the first lap. *)
Lemma rot_scan_first rep l1 v l2 refs :
  NoDup (l1 ++ v :: l2) → rep v = true → refs !! v = Some false →
  (∀ g, g ∈ l1 → rep g = true → refs !! g = Some true) →
  rot_scan (length (l1 ++ v :: l2) * 2) rep (l1 ++ v :: l2) refs =
    (Some v, l2 ++ l1 ++ [v], clear_bits rep l1 refs).
Proof.
  intros (Hnd & Hdis & _)%NoDup_app Hv Hf Hl1. rewrite length_app. cbn [length].
  replace ((length l1 + S (length l2)) * 2)%nat
    with (length l1 + S (length l1 + length l2 * 2 + 1))%nat by lia.
  assert (clear_bits rep l1 refs !! v = Some false) as Ev.
  { rewrite clear_bits_lookup, bool_decide_eq_false_2 by set_solver. done. }
  rewrite rot_scan_skip by done. cbn [app]. rewrite rot_scan_hit by (rewrite ?Ev; done).
  by rewrite insert_id, <-app_assoc.
Qed.

(** If all have their bit, the second lap takes the first replaceable page. *)
Lemma rot_scan_second rep l1 v l2 refs :
  let l := l1 ++ v :: l2 in
  NoDup l → rep v = true → (∀ g, g ∈ l1 → rep g = false) →
  (∀ g, g ∈ l → rep g = true → refs !! g = Some true) →
  rot_scan (length l * 2) rep l refs = (Some v, l2 ++ l1 ++ [v], clear_bits rep l refs).
Proof.
  intros l Hnd Hv Hl1 Hall.
  assert (clear_bits rep l refs !! v = Some false) as Ev.
  { rewrite clear_bits_lookup, bool_decide_eq_true_2, Hv by set_solver. done. }
  replace (length l * 2)%nat with (length l + (length l1 + S (length l2)))%nat
    by (unfold l; rewrite length_app; cbn; lia).
  rewrite rot_scan_lap by done. unfold l at 1. apply NoDup_app in Hnd as [Hnd _].
  rewrite rot_scan_skip by (try done; intros g Hg Hr; rewrite Hl1 in Hr; done).
  rewrite (clear_bits_none rep l1) by done. cbn [app].
  rewrite rot_scan_hit by (rewrite ?Ev; done). by rewrite insert_id, <-app_assoc.
Qed.

Lemma rot_scan_second_chance rep l refs :
  NoDup l → (∀ g, g ∈ l → is_Some (refs !! g)) →
  second_chance rep l refs (rot_scan (length l * 2) rep l refs).
Proof.
  intros Hnd Hdom.
  assert (∀ k, Forall (λ g, ¬ (rep g = true ∧ refs !! g = Some false)) k → k ⊆ l →
    ∀ g, g ∈ k → rep g = true → refs !! g = Some true) as Hbits.
  { intros k Hk Hkl g Hg Hrep. rewrite Forall_forall in Hk. specialize (Hk g Hg).
    destruct (Hdom g) as [[] Hgb]; [set_solver|done|naive_solver]. }
  destruct (list_first_dec (λ g, rep g = true ∧ refs !! g = Some false) l)
    as [(l1 & v & l2 & -> & [Hv Hf] & Hl1)|Hnone].
  - assert (l1 ⊆ l1 ++ v :: l2) by set_solver. rewrite rot_scan_first by eauto. apply sc_first; eauto.
  - specialize (Hbits l Hnone ltac:(set_solver)).
    destruct (list_first_dec (λ g, rep g = true) l) as [(l1 & v & l2 & -> & Hv & Hl1)|Hno].
    + assert (∀ g, g ∈ l1 → rep g = false) as Hl1'.
      { intros g Hg. rewrite Forall_forall in Hl1. by apply not_true_iff_false, Hl1. }
      rewrite rot_scan_second by done. by apply sc_second.
    + assert (∀ g, g ∈ l → rep g = false) as Hno'.
      { intros g Hg. rewrite Forall_forall in Hno. by apply not_true_iff_false, Hno. }
      replace (length l * 2)%nat with (length l + (length l + 0))%nat by lia.
      rewrite !rot_scan_lap by (rewrite ?clear_bits_none; done).
      rewrite !clear_bits_none by done. by apply sc_none.
Qed.

Lemma clock_choose_spec rep p :
  clock_ok p →
  ∃ r p', clock_choose_victim rep p = Some (r, p') ∧ ring_ p' = ring_ p ∧
    ((hand_ p' < length (ring_ p'))%nat ∨ ring_ p' = [] ∧ hand_ p' = 0%nat) ∧
    second_chance rep (clock_order p) (referenced_ p) (r, clock_order p', referenced_ p').
Proof.
  intros (Hnd & Hdom & Hh). unfold clock_choose_victim. case_bool_decide as Er.
  { exists None, p. split_and!; [done..|]. apply sc_none. unfold clock_order. rewrite Er.
    rewrite drop_nil, take_nil. set_solver. }
  destruct Hh as [Hh|[? _]]; [|done].
  destruct (clock_scan_rot (length (ring_ p) * 2) rep p Hh) as (r & p' & -> & Hring & Hh' & E).
  exists r, p'. split_and!; [done..|by left|]. rewrite <-E.
  assert (clock_order p ≡ₚ ring_ p) as Hperm.
  { unfold clock_order. by rewrite (Permutation_app_comm (drop _ _)), take_drop. }
  rewrite <-(Permutation_length Hperm). apply rot_scan_second_chance; [by rewrite Hperm|].
  intros g. rewrite Hperm, <-Hdom. apply elem_of_dom.
Qed.

Lemma second_chance_result rep l refs r l' refs' :
  second_chance rep l refs (r, l', refs') →
  l' ≡ₚ l ∧ (∀ g, g ∈ l → is_Some (refs !! g)) → dom refs' = dom refs ∧
  match r with
  | Some f => f ∈ l ∧ rep f = true
  | None => ∀ f, f ∈ l → rep f = false
  end.
Proof.
  intros H [_ Hdom].
  assert (∀ k, k ⊆ l → dom (clear_bits rep k refs) = dom refs) as Hclear.
  { intros k Hk. apply set_eq. intros g. rewrite !elem_of_dom, clear_bits_lookup.
    case_bool_decide as Hg; cbn; [|done]. destruct (rep g); [|done].
    split; [intros _; apply Hdom; set_solver|by eexists]. }
  inversion H; subst; split; try apply Hclear; try done; try (split; [set_solver|done]); set_solver.
Qed.

Lemma second_chance_perm rep l refs r l' refs' :
  second_chance rep l refs (r, l', refs') → l' ≡ₚ l.
Proof.
  inversion 1; subst; try done;
    rewrite app_assoc, (Permutation_app_comm l2 l1), <-app_assoc;
    by rewrite <-Permutation_cons_append.
Qed.

#[global] Program Instance Clock_laws : PolicyLaws Clock := {|
  tracked p := dom (referenced_ p);
  policy_ok := clock_ok
|}.
Next Obligation.
  intros f p Hok. destruct (clock_remove_order f p Hok) as (_ & Er & Eref & Hh).
  destruct Hok as (Hnd & Hdom & _). cbn. unfold clock_on_insert, clock_ok. cbn.
  rewrite Er, Eref in *. split_and!.
  - apply NoDup_app. split_and!; [by apply list_remove1_NoDup| |apply NoDup_singleton].
    intros g Hg ->%list_elem_of_singleton. apply elem_of_list_remove1 in Hg; naive_solver.
  - intros g. rewrite dom_insert, dom_delete, elem_of_app, elem_of_list_remove1 by done.
    rewrite elem_of_union, elem_of_difference, Hdom, elem_of_singleton, list_elem_of_singleton.
    destruct (decide (g = f)); naive_solver.
  - left. rewrite length_app. cbn. destruct Hh as [?|[-> ->]]; cbn; lia.
Qed.
Next Obligation.
  intros f p (Hnd & Hdom & Hh). cbn. unfold clock_on_access.
  destruct (referenced_ p !! f) eqn:E; [|by split_and!]. split_and!; [done| |done].
  intros g. cbn. rewrite dom_insert, elem_of_union, elem_of_singleton, Hdom.
  split; [intros [->|?]; [|done]|auto]. apply Hdom. by eapply elem_of_dom_2.
Qed.
Next Obligation.
  intros f p Hok. destruct (clock_remove_order f p Hok) as (_ & Er & Eref & Hh).
  destruct Hok as (Hnd & Hdom & _). cbn. split_and!; [..|done].
  - rewrite Er. by apply list_remove1_NoDup.
  - intros g. rewrite Er, Eref, dom_delete, elem_of_list_remove1, elem_of_difference, Hdom by done.
    rewrite elem_of_singleton. naive_solver.
Qed.
Next Obligation. done. Qed.
Next Obligation. done. Qed.
Next Obligation.
  intros f p Hok. cbn. destruct (clock_remove_order f p Hok) as (_ & _ & -> & _).
  rewrite dom_insert_L, dom_delete_L. apply set_eq. intros g.
  destruct (decide (g = f)); set_solver.
Qed.
Next Obligation.
  intros f p _ [b Hb]%elem_of_dom. cbn. unfold clock_on_access. rewrite Hb. cbn.
  apply dom_insert_lookup_L. by eexists.
Qed.
Next Obligation.
  intros f p Hok. cbn. destruct (clock_remove_order f p Hok) as (_ & _ & -> & _).
  by rewrite dom_delete_L.
Qed.
Next Obligation.
  intros rep p Hok. destruct (clock_choose_spec rep p Hok) as (r & p' & E & Hring & Hh & Hsc).
  destruct Hok as (Hnd & Hdom & _).
  assert (clock_order p ≡ₚ ring_ p) as Hperm.
  { unfold clock_order. by rewrite (Permutation_app_comm (drop _ _)), take_drop. }
  destruct (second_chance_result _ _ _ _ _ _ Hsc) as [Hd Hr].
  { split; [by eapply second_chance_perm|]. intros g. rewrite Hperm, <-Hdom. apply elem_of_dom. }
  exists r, p'. split_and!; [done| |done|].
  - split_and!; [by rewrite Hring| |done]. intros g. by rewrite Hring, Hd.
  - destruct r as [f|]; [|intros f]; rewrite Hdom, <-Hperm; [done|apply Hr].
Qed.

(** From every reachable CLOCK state, [choose_victim] terminates within two
    laps without leaving the ring and gives every referenced replaceable page
    exactly one second chance: it takes the first replaceable page in the order
    of the hand whose bit is clear, clearing the bits it passes; if all have
    their bit, all are cleared and the first replaceable page goes; and it
    fails exactly if no page is replaceable.  The hand stops just behind the
    victim. *)
Theorem clock_second_chance rep p :
  clock_ok p →
  ∃ r p', choose_victim rep p = Some (r, p') ∧ clock_ok p' ∧ ring_ p' = ring_ p ∧
    second_chance rep (clock_order p) (referenced_ p) (r, clock_order p', referenced_ p').
Proof.
  intros Hok. destruct (clock_choose_spec rep p Hok) as (r & p' & E & Hring & _ & Hsc).
  destruct (@choose_victim_spec _ _ Clock_laws rep p Hok) as (r2 & p2 & E2 & Hok2 & _).
  cbn in E2. rewrite E in E2. simplify_eq. by exists r2, p2.
Qed.

Lemma clock_second_chance_witness :
  let a := mkFrameId 1 1 in let b := mkFrameId 1 2 in
  let p := run_events ClockReplacementPolicy [EInsert b; EInsert a] in
  ∃ r p', choose_victim (λ f, bool_decide (f = b)) p = Some (r, p') ∧ clock_ok p' ∧
    ring_ p' = ring_ p ∧
    second_chance (λ f, bool_decide (f = b)) (clock_order p) (referenced_ p)
      (r, clock_order p', referenced_ p').
Proof.
  intros a b p. apply (clock_second_chance (λ f, bool_decide (f = b)) p).
  apply (@on_insert_ok _ _ Clock_laws b), (@on_insert_ok _ _ Clock_laws a).
  split_and!; [constructor|set_solver|by right].
Defined.

(** removing a page from the CLOCK ring leaves the other pages in the order
    in which the hand will meet them: none is skipped and none is met twice,
    whether the removed page lies before, at or behind the hand. *)
Theorem clock_remove_keeps_order f p :
  clock_ok p →
  clock_order (on_remove f p) = list_remove1 f (clock_order p) ∧ clock_ok (on_remove f p).
Proof.
  intros Hok. split; [by apply clock_remove_order|by apply (@on_remove_ok _ _ Clock_laws f)].
Qed.

Lemma clock_remove_keeps_order_witness :
  let p := mkClock [mkFrameId 1 1; mkFrameId 1 2; mkFrameId 1 3]
             (list_to_map [(mkFrameId 1 1, true); (mkFrameId 1 2, false); (mkFrameId 1 3, true)]) 2 in
  clock_order (on_remove (mkFrameId 1 1) p) = list_remove1 (mkFrameId 1 1) (clock_order p) ∧
  clock_ok (on_remove (mkFrameId 1 1) p).
Proof.
  intros p. apply (clock_remove_keeps_order (mkFrameId 1 1) p).
  split_and!; [cbn; repeat constructor; set_solver| |left; cbn; lia].
  intros f. unfold p. cbn [referenced_ ring_]. rewrite dom_list_to_map_L. set_solver.
Defined.

(** ** The factory *)
Inductive BufferPoolReplacementPolicy : Type := LRU | LRU_K | FIFO | CLOCK.

Inductive AnyPolicy : Type :=
  | PolicyOrdered (p : Ordered)
  | PolicyLRUK (p : LRUK)
  | PolicyClock (p : Clock).

Definition create_replacement_policy (policy : BufferPoolReplacementPolicy) : AnyPolicy :=
  match policy with
  | LRU => PolicyOrdered LRUReplacementPolicy
  | LRU_K => PolicyLRUK LRUKReplacementPolicy
  | FIFO => PolicyOrdered FIFOReplacementPolicy
  | CLOCK => PolicyClock ClockReplacementPolicy
  end.

Definition buffer_pool_replacement_policy_name (policy : BufferPoolReplacementPolicy) : string :=
  match policy with
  | LRU => "LRU"
  | LRU_K => "LRU-K"
  | FIFO => "FIFO"
  | CLOCK => "CLOCK"
  end.

(** ASCII [tolower], and [strcasecmp(a.c_str(), b) == 0]. *)
Definition tolower (c : Ascii.ascii) : Ascii.ascii :=
  let n := Ascii.N_of_ascii c in
  if ((65 <=? n) && (n <=? 90))%N then Ascii.ascii_of_N (n + 32) else c.

Fixpoint c_str_lower (s : string) : list Ascii.ascii :=
  match s with
  | EmptyString => []
  | String c s' => if bool_decide (c = Ascii.zero) then [] else tolower c :: c_str_lower s'
  end.

Definition strcasecmp_eq (a b : string) : bool := bool_decide (c_str_lower a = c_str_lower b).

Definition parse_buffer_pool_replacement_policy (name : string) : option BufferPoolReplacementPolicy :=
  if strcasecmp_eq name "lru" then Some LRU
  else if strcasecmp_eq name "lru-k" || strcasecmp_eq name "lruk" || strcasecmp_eq name "lru_k"
  then Some LRU_K
  else if strcasecmp_eq name "fifo" then Some FIFO
  else if strcasecmp_eq name "clock" then Some CLOCK
  else None.

(** Every policy's printed name parses back to it. *)
Lemma policy_name_roundtrip policy :
  parse_buffer_pool_replacement_policy (buffer_pool_replacement_policy_name policy) = Some policy.
Proof. by destruct policy. Qed.

(** Dispatch of the virtual calls. *)
Definition any_map (fo : Ordered → Ordered) (fk : LRUK → LRUK) (fc : Clock → Clock)
    (p : AnyPolicy) : AnyPolicy :=
  match p with
  | PolicyOrdered p => PolicyOrdered (fo p)
  | PolicyLRUK p => PolicyLRUK (fk p)
  | PolicyClock p => PolicyClock (fc p)
  end.

Definition any_choose (rep : FrameId → bool) : M AnyPolicy (option FrameId) := λ p,
  match p with
  | PolicyOrdered p => prod_map id PolicyOrdered <$> choose_victim rep p
  | PolicyLRUK p => prod_map id PolicyLRUK <$> choose_victim rep p
  | PolicyClock p => prod_map id PolicyClock <$> choose_victim rep p
  end.

#[global] Instance Any_policy : ReplacementPolicy AnyPolicy := {|
  on_insert f := any_map (on_insert f) (on_insert f) (on_insert f);
  on_access f := any_map (on_access f) (on_access f) (on_access f);
  on_pin f := any_map (on_pin f) (on_pin f) (on_pin f);
  on_unpin f := any_map (on_unpin f) (on_unpin f) (on_unpin f);
  on_remove f := any_map (on_remove f) (on_remove f) (on_remove f);
  choose_victim := any_choose;
  metadata f p := match p with
                  | PolicyOrdered p => metadata f p
                  | PolicyLRUK p => metadata f p
                  | PolicyClock p => metadata f p
                  end;
  policy_name p := match p with
                   | PolicyOrdered p => policy_name p
                   | PolicyLRUK p => policy_name p
                   | PolicyClock p => policy_name p
                   end
|}.

#[global] Program Instance Any_laws : PolicyLaws AnyPolicy := {|
  tracked p := match p with
               | PolicyOrdered p => tracked p
               | PolicyLRUK p => tracked p
               | PolicyClock p => tracked p
               end;
  policy_ok p := match p with
                 | PolicyOrdered p => policy_ok p
                 | PolicyLRUK p => policy_ok p
                 | PolicyClock p => policy_ok p
                 end
|}.
Next Obligation. intros f []; apply on_insert_ok. Qed.
Next Obligation. intros f []; apply on_access_ok. Qed.
Next Obligation. intros f []; apply on_remove_ok. Qed.
Next Obligation. by intros f []. Qed.
Next Obligation. by intros f []. Qed.
Next Obligation. intros f []; apply tracked_insert. Qed.
Next Obligation. intros f []; apply tracked_access. Qed.
Next Obligation. intros f []; apply tracked_remove. Qed.
Next Obligation.
  intros rep [p|p|p] Hok; destruct (choose_victim_spec rep p Hok) as (r & p' & E & Hok' & Ht & Hr);
    cbn [choose_victim Any_policy any_choose]; rewrite E; eexists _, _; by split_and!.
Qed.

Lemma create_replacement_policy_ok policy :
  policy_ok (create_replacement_policy policy) ∧ tracked (create_replacement_policy policy) = ∅.
Proof.
  destruct policy; cbn; split; try done; try (split; [constructor|set_solver]).
Qed.
