(* ===== verification/Clog.v ===== *)
(** * The write-ahead log

    Models [storage/clog]: log entries and their bytes ([log_entry]), the entry
    buffer ([log_buffer]), log files and their manager ([log_file]) and
    [DiskLogHandler].  The flush thread is a transition system, one transition
    for a round of [thread_func]'s loop up to the first entry and one for each
    entry that [flush] takes out of the buffer, so that clients may append
    between any two of them.  A client that has to wait (buffer full, LSN not
    flushed) is a method that returns no result yet. *)

From S2P Require Import Prelude Types Bytes Os.
From Stdlib Require Import DecimalString DecimalZ.
Local Open Scope Z_scope.

(** ** [LogModule], [LogHeader] and [LogEntry] *)
Inductive LogModuleId : Type := MOD_BUFFER_POOL | MOD_BPLUS_TREE | MOD_RECORD_MANAGER | MOD_TRANSACTION.

Definition module_index (i : LogModuleId) : Z :=
  match i with MOD_BUFFER_POOL => 0 | MOD_BPLUS_TREE => 1 | MOD_RECORD_MANAGER => 2 | MOD_TRANSACTION => 3 end.

Definition module_name (i : Z) : string :=
  if i =? 0 then "BUFFER_POOL" else if i =? 1 then "BPLUS_TREE" else if i =? 2 then "RECORD_MANAGER"
  else if i =? 3 then "TRANSACTION" else "UNKNOWN".

Record LogHeader : Type := mkLogHeader { lh_lsn : LSN; lh_size : Z; lh_module_id : Z }.

(** [sizeof(LogHeader)]. *)
Definition LOG_HEADER_SIZE : Z := 8 + 4 + 4.

Definition header_bytes (h : LogHeader) : list Z :=
  le_bytes 8 (lh_lsn h) ++ le_bytes 4 (lh_size h) ++ le_bytes 4 (lh_module_id h).

Definition bytes_header (l : list Z) : LogHeader :=
  mkLogHeader (swrap 64 (le_val (take 8 l))) (swrap 32 (le_val (take 4 (drop 8 l))))
    (swrap 32 (le_val (take 4 (drop 12 l)))).

Record LogEntry : Type := mkLogEntry { header_ : LogHeader; le_data : list Z }.

Definition entry_max_size : Z := 4 * 1024 * 1024.
Definition max_payload_size : Z := entry_max_size - LOG_HEADER_SIZE.

Definition le_lsn (e : LogEntry) : LSN := lh_lsn (header_ e).
Definition payload_size (e : LogEntry) : Z := lh_size (header_ e).
Definition total_size (e : LogEntry) : Z := LOG_HEADER_SIZE + lh_size (header_ e).

Definition new_log_entry : LogEntry := mkLogEntry (mkLogHeader 0 0 0) [].
(** What a move leaves behind: no LSN, no size. *)
Definition moved_from (e : LogEntry) : LogEntry := mkLogEntry (mkLogHeader 0 0 (lh_module_id (header_ e))) [].

Definition entry_init (e : LogEntry) (lsn : LSN) (module : Z) (data : list Z) : RC * LogEntry :=
  if max_payload_size <? swrap 32 (Z.of_nat (length data)) then (RC.INVALID_ARGUMENT, e)
  else (RC.SUCCESS, mkLogEntry (mkLogHeader lsn (swrap 32 (Z.of_nat (length data))) module) data).

Definition entry_set_lsn (lsn : LSN) (e : LogEntry) : LogEntry :=
  mkLogEntry (mkLogHeader lsn (lh_size (header_ e)) (lh_module_id (header_ e))) (le_data e).

(** ** [LogEntryBuffer] *)
Record LogEntryBuffer : Type := mkLogBuffer {
  entries_ : list LogEntry;
  bytes_ : Z;
  current_lsn_ : LSN;
  flushed_lsn_ : LSN;
  max_bytes_ : Z
}.

Definition new_log_buffer : LogEntryBuffer := mkLogBuffer [] 0 0 0 (4 * 1024 * 1024).

Definition buf_init (lsn : LSN) (max_bytes : Z) (b : LogEntryBuffer) : LogEntryBuffer :=
  mkLogBuffer (entries_ b) (bytes_ b) lsn lsn (if 0 <? max_bytes then max_bytes else max_bytes_ b).

(** [append]; [None] while the caller sleeps because the buffer is full.  The
    size is added after the entry has been moved into the queue. *)
Definition buf_append (lsn : LSN) (module : Z) (data : list Z) (b : LogEntryBuffer) : option (RC * LSN * LogEntryBuffer) :=
  if max_bytes_ b <=? bytes_ b then None
  else
    let '(rc, entry) := entry_init new_log_entry lsn module data in
    if RC.OB_FAIL rc then Some (rc, lsn, b)
    else
      let current := current_lsn_ b + 1 in
      let entry := entry_set_lsn current entry in
      let bytes := bytes_ b + total_size (moved_from entry) in
      Some (RC.SUCCESS, current, mkLogBuffer (entries_ b ++ [entry]) bytes current (flushed_lsn_ b) (max_bytes_ b)).

(** ** [LogFileReader] *)
Definition sys_open_read (name : string) : M OS Z := sys_open name false false.

(** [lseek(fd, delta, SEEK_CUR)]. *)
Definition sys_lseek_cur (fd delta : Z) : M OS bool :=
  s ← fetch;
  match os_fds s !! fd with
  | None => sys_lseek fd 0
  | Some (_, off) => sys_lseek fd (off + delta)
  end.

Definition rd_open (filename : string) : M OS (RC * Z) :=
  fd ← sys_open_read filename;
  if fd <? 0 then mret (RC.FILE_OPEN, fd) else mret (RC.SUCCESS, fd).

Definition rd_close (fd : Z) : M OS RC :=
  if fd <? 0 then mret RC.FILE_NOT_OPENED else sys_close fd;; mret RC.SUCCESS.

(** The bytes of the open file; every round of the reading loops consumes a
    header, so one round more than there are bytes is enough. *)
Definition rounds (fd : Z) (s : OS) : nat :=
  match os_fds s !! fd with Some (name, _) => S (length (content s name)) | None => 1%nat end.

Definition bad_size (h : LogHeader) : bool := (lh_size h <? 0) || (max_payload_size <? lh_size h).

Fixpoint skip_loop (n : nat) (fd : Z) (start_lsn : LSN) : M OS RC :=
  match n with
  | O => abort
  | S n =>
      '(ret, bs) ← readn fd LOG_HEADER_SIZE;
      if negb (ret =? 0) then (if ret =? -1 then mret RC.SUCCESS else mret RC.IOERR_READ)
      else
        let header := bytes_header bs in
        if start_lsn <=? lh_lsn header then
          ok ← sys_lseek_cur fd (- LOG_HEADER_SIZE);
          if negb ok then mret RC.IOERR_SEEK else mret RC.SUCCESS
        else if bad_size header then mret RC.IOERR_READ
        else
          ok ← sys_lseek_cur fd (lh_size header);
          if negb ok then mret RC.IOERR_SEEK else skip_loop n fd start_lsn
  end.

Definition skip_rounds (fd : Z) (start_lsn : LSN) : M OS RC := λ s, skip_loop (rounds fd s) fd start_lsn s.

Definition skip_to (fd : Z) (start_lsn : LSN) : M OS RC :=
  if fd <? 0 then mret RC.FILE_NOT_OPENED
  else
    ok ← sys_lseek fd 0;
    if negb ok then mret RC.IOERR_SEEK else skip_rounds fd start_lsn.

Section iterate.
Context {E : Type} (callback : LogEntry → M E RC).

Definition in_os {A} (op : M OS A) : M (OS * E) A := λ '(s, e), '(a, s') ← op s; Some (a, (s', e)).
Definition in_client {A} (op : M E A) : M (OS * E) A := λ '(s, e), '(a, e') ← op e; Some (a, (s, e')).

Fixpoint iterate_loop (n : nat) (fd : Z) : M (OS * E) RC :=
  match n with
  | O => abort
  | S n =>
      '(ret, bs) ← in_os (readn fd LOG_HEADER_SIZE);
      if negb (ret =? 0) then (if ret =? -1 then mret RC.SUCCESS else mret RC.IOERR_READ)
      else
        let header := bytes_header bs in
        if bad_size header then mret RC.IOERR_READ
        else
          '(ret, data) ← in_os (readn fd (lh_size header));
          if negb (ret =? 0) then mret RC.IOERR_READ
          else
            let '(_, entry) := entry_init new_log_entry (lh_lsn header) (lh_module_id header) data in
            rc ← in_client (callback entry);
            if RC.OB_FAIL rc then mret rc else iterate_loop n fd
  end.

Definition iterate_rounds (fd : Z) : M (OS * E) RC := λ w, iterate_loop (rounds fd w.1) fd w.

Definition rd_iterate (fd : Z) (start_lsn : LSN) : M (OS * E) RC :=
  rc ← in_os (skip_to fd start_lsn);
  if RC.OB_FAIL rc then mret rc else iterate_rounds fd.
End iterate.

(** ** [LogFileWriter]: LSNs are kept in [int]s. *)
Record LogFileWriter : Type := mkLogWriter {
  fw_filename_ : string;
  fw_fd_ : Z;
  last_lsn_ : Z;
  end_lsn_ : Z
}.

Definition new_log_writer : LogFileWriter := mkLogWriter "" (-1) 0 0.

(** [O_WRONLY | O_APPEND | O_CREAT]: the one writer of the file starts at its end. *)
Definition sys_open_append (name : string) : M OS Z :=
  fd ← sys_open name true false;
  if fd <? 0 then mret fd
  else s ← fetch; seek_to fd (Z.of_nat (length (content s name)));; mret fd.

Definition fw_open (filename : string) (end_lsn : Z) (w : LogFileWriter) : M OS (RC * LogFileWriter) :=
  if 0 <=? fw_fd_ w then mret (RC.FILE_OPEN, w)
  else
    fd ← sys_open_append filename;
    let w := mkLogWriter filename fd (last_lsn_ w) (swrap 32 end_lsn) in
    if fd <? 0 then mret (RC.FILE_OPEN, w) else mret (RC.SUCCESS, w).

Definition fw_close (w : LogFileWriter) : M OS (RC * LogFileWriter) :=
  if fw_fd_ w <? 0 then mret (RC.FILE_NOT_OPENED, w)
  else sys_close (fw_fd_ w);; mret (RC.SUCCESS, mkLogWriter (fw_filename_ w) (-1) (last_lsn_ w) (end_lsn_ w)).

Definition fw_write (entry : LogEntry) (w : LogFileWriter) : M OS (RC * LogFileWriter) :=
  if end_lsn_ w <? le_lsn entry then mret (RC.LOG_FILE_FULL, w)
  else if fw_fd_ w <? 0 then mret (RC.FILE_NOT_OPENED, w)
  else if le_lsn entry <=? last_lsn_ w then mret (RC.INVALID_ARGUMENT, w)
  else
    ret ← writen (fw_fd_ w) (header_bytes (header_ entry));
    if negb (ret =? 0) then mret (RC.IOERR_WRITE, w)
    else
      ret ← writen (fw_fd_ w) (take (Z.to_nat (payload_size entry)) (le_data entry));
      if negb (ret =? 0) then mret (RC.IOERR_WRITE, w)
      else mret (RC.SUCCESS, mkLogWriter (fw_filename_ w) (fw_fd_ w) (swrap 32 (le_lsn entry)) (end_lsn_ w)).

Definition fw_valid (w : LogFileWriter) : bool := 0 <=? fw_fd_ w.
Definition fw_full (w : LogFileWriter) : bool := end_lsn_ w <=? last_lsn_ w.

(** ** [LogFileManager]: [log_files_] is a map ordered by key. *)
Record LogFileManager : Type := mkLogFiles {
  directory_ : string;
  max_entry_number_per_file_ : Z;
  log_files_ : list (LSN * string)
}.

Definition file_prefix_ : string := "clog_".
Definition file_suffix_ : string := ".log".

(** [std::to_string] and [std::from_chars] of a 64-bit integer; [from_chars]
    reads the longest prefix that is a number. *)
Definition to_string (z : Z) : string := NilEmpty.string_of_int (Z.to_int z).

Definition is_digit (a : Ascii.ascii) : bool :=
  let n := Z.of_nat (Ascii.nat_of_ascii a) in (48 <=? n) && (n <=? 57).

Fixpoint digits (s : string) : string :=
  match s with
  | EmptyString => EmptyString
  | String a s => if is_digit a then String a (digits s) else EmptyString
  end.

Definition minus : Ascii.ascii := Ascii.ascii_of_nat 45.

Definition number_prefix (s : string) : string :=
  match s with
  | String a s' => if Ascii.eqb a minus then String a (digits s') else digits s
  | EmptyString => EmptyString
  end.

Definition from_chars (s : string) : option Z :=
  z ← Z.of_int <$> NilEmpty.int_of_string (number_prefix s);
  if decide (number_prefix s = "" ∨ number_prefix s = "-") then None
  else if decide (in_srange 64 z) then Some z else None.

Definition starts_with (p s : string) : bool := String.prefix p s.
Definition ends_with (p s : string) : bool :=
  let n := String.length s in let k := String.length p in
  bool_decide (k ≤ n)%nat && bool_decide (String.substring (n - k) k s = p).

Definition get_lsn_from_filename (filename : string) : RC * LSN :=
  if negb (starts_with file_prefix_ filename) || negb (ends_with file_suffix_ filename) then (RC.INVALID_ARGUMENT, 0)
  else
    let n := String.length filename in let p := String.length file_prefix_ in let q := String.length file_suffix_ in
    match from_chars (String.substring p (n - q - p) filename) with
    | Some lsn => (RC.SUCCESS, lsn)
    | None => (RC.INVALID_ARGUMENT, 0)
    end.

(** [map::emplace]: nothing happens if the key is there. *)
Fixpoint emplace (k : LSN) (v : string) (l : list (LSN * string)) : list (LSN * string) :=
  match l with
  | [] => [(k, v)]
  | (k', v') :: l' => if k <? k' then (k, v) :: l else if k =? k' then l else (k', v') :: emplace k v l'
  end.

Definition path_join (directory filename : string) : string :=
  String.append directory (String.append "/" filename).

(** [init]; [entries] are the regular files that the directory iterator yields,
    in its order; [exists_] and [created] are the answers of [is_directory] and
    [create_directories]. *)
Fixpoint scan_files (directory : string) (entries : list string) (l : list (LSN * string)) : list (LSN * string) :=
  match entries with
  | [] => l
  | filename :: entries =>
      let '(rc, lsn) := get_lsn_from_filename filename in
      if RC.OB_FAIL rc then scan_files directory entries l
      else scan_files directory entries (emplace lsn (path_join directory filename) l)
  end.

Definition lfm_init (directory : string) (max_entry_number_per_file : Z) (exists_ created : bool) (entries : list string) :
    RC * LogFileManager :=
  let m := mkLogFiles directory max_entry_number_per_file [] in
  if negb exists_ && negb created then (RC.FILE_CREATE, m)
  else (RC.SUCCESS, mkLogFiles directory max_entry_number_per_file (scan_files directory entries [])).

Definition list_files (m : LogFileManager) (start_lsn : LSN) : list string :=
  (filter (λ f : LSN * string, start_lsn ≤ f.1 + max_entry_number_per_file_ m - 1) (log_files_ m)).*2.

Definition next_file (m : LogFileManager) (w : LogFileWriter) : M OS (RC * (LogFileManager * LogFileWriter)) :=
  '(_, w) ← fw_close w;
  let lsn := match list.last (log_files_ m) with
             | Some (k, _) => k + max_entry_number_per_file_ m
             | None => 0
             end in
  let file_path := path_join (directory_ m) (String.append file_prefix_ (String.append (to_string lsn) file_suffix_)) in
  let m := mkLogFiles (directory_ m) (max_entry_number_per_file_ m) (emplace lsn file_path (log_files_ m)) in
  '(rc, w) ← fw_open file_path (lsn + max_entry_number_per_file_ m - 1) w;
  mret (rc, (m, w)).

Definition last_file (m : LogFileManager) (w : LogFileWriter) : M OS (RC * (LogFileManager * LogFileWriter)) :=
  match list.last (log_files_ m) with
  | None => next_file m w
  | Some (k, path) =>
      '(_, w) ← fw_close w;
      '(rc, w) ← fw_open path (k + max_entry_number_per_file_ m - 1) w;
      mret (rc, (m, w))
  end.
