(* ===== verification/ClogFile.v ===== *)
(** * Log files: what is written is what is read

    Proofs about [Clog]: the bytes of an entry, the reading loops on a file that
    holds a list of entries followed by a torn one, their termination on any
    bytes, the writer, and the names of log files. *)

From S2P Require Import Prelude Types Bytes Os Clog.
Local Open Scope Z_scope.

(** ** Entries as bytes *)
Definition encode (e : LogEntry) : list Z := header_bytes (header_ e) ++ le_data e.
Definition encode_all (es : list LogEntry) : list Z := concat (encode <$> es).

(** An entry as [append] makes it. *)
Record entry_ok (e : LogEntry) : Prop := {
  eo_lsn : in_srange 64 (le_lsn e);
  eo_pos : 0 < le_lsn e;
  eo_size : payload_size e = Z.of_nat (length (le_data e));
  eo_bound : 0 < payload_size e ≤ max_payload_size;
  eo_module : in_srange 32 (lh_module_id (header_ e))
}.

Lemma max_payload_eq : max_payload_size = 4194288.
Proof. done. Qed.

Lemma header_bytes_length h : length (header_bytes h) = 16%nat.
Proof. unfold header_bytes. by rewrite !length_app, !le_bytes_length. Qed.

Lemma encode_length e : entry_ok e → Z.of_nat (length (encode e)) = total_size e.
Proof.
  intros []. unfold encode, total_size. rewrite length_app, header_bytes_length.
  unfold payload_size in *. unfold LOG_HEADER_SIZE. lia.
Qed.

Lemma encode_all_cons e es : encode_all (e :: es) = encode e ++ encode_all es.
Proof. done. Qed.

Lemma encode_all_app es1 es2 : encode_all (es1 ++ es2) = encode_all es1 ++ encode_all es2.
Proof. unfold encode_all. by rewrite fmap_app, concat_app. Qed.

(** Reading back a header. *)
Lemma bytes_header_bytes h rest :
  in_srange 64 (lh_lsn h) → in_srange 32 (lh_size h) → in_srange 32 (lh_module_id h) →
  bytes_header (header_bytes h ++ rest) = h.
Proof.
  intros H1 H2 H3. unfold bytes_header, header_bytes.
  rewrite <-!app_assoc. rewrite (take_app_length' _ _ 8) by (by rewrite le_bytes_length).
  rewrite (drop_app_length' _ _ 8) by (by rewrite le_bytes_length).
  rewrite (take_app_length' _ _ 4) by (by rewrite le_bytes_length).
  rewrite (app_assoc (le_bytes 8 _)). rewrite (drop_app_length' _ _ 12) by (by rewrite length_app, !le_bytes_length).
  rewrite (take_app_length' _ _ 4) by (by rewrite le_bytes_length).
  pose proof (le_signed 8 (lh_lsn h)) as E1. pose proof (le_signed 4 (lh_size h)) as E2.
  pose proof (le_signed 4 (lh_module_id h)) as E3.
  change (8 * Z.of_nat 8) with 64 in E1. change (8 * Z.of_nat 4) with 32 in E2, E3.
  rewrite E1, E2, E3 by (lia || done). by destruct h.
Qed.

Lemma entry_header e rest : entry_ok e → bytes_header (header_bytes (header_ e) ++ rest) = header_ e.
Proof.
  intros []. apply bytes_header_bytes; [done| |done]. rewrite max_payload_eq in *.
  unfold in_srange. unfold payload_size in *. change (2 ^ (32 - 1)) with 2147483648. lia.
Qed.

Lemma entry_size_ok e : entry_ok e → bad_size (header_ e) = false.
Proof.
  intros []. unfold bad_size. unfold payload_size in *. apply orb_false_iff.
  split; apply Z.ltb_ge; lia.
Qed.

Lemma entry_init_ok e : entry_ok e →
  entry_init new_log_entry (le_lsn e) (lh_module_id (header_ e)) (le_data e) = (RC.SUCCESS, e).
Proof.
  intros []. unfold entry_init. rewrite max_payload_eq in *. rewrite swrap_id; [|lia|]; last first.
  { unfold in_srange. change (2 ^ (32 - 1)) with 2147483648. lia. }
  rewrite (proj2 (Z.ltb_ge _ _)) by lia. rewrite <-eo_size0. by destruct e as [[]].
Qed.

(** ** Reading from a file *)

(** At worst short transfers: the loop ends at the end of the file. *)
Lemma readn_loop_calm n s fd name c off l size buf ret bs s' :
  0 ≤ off → benign l →
  readn_loop n fd size buf (os_at s fd name c off l) = Some ((ret, bs), s') → ret = 0 ∨ ret = -1.
Proof.
  revert off l size buf. induction n as [|n IH]; intros off l size buf Ho Hl; cbn [readn_loop];
    (destruct (0 <? size); [|intros [= <- _ _]; by left]); [done|].
  destruct (sys_read_cases s fd name c off l size Ho) as [(e & He & E)|E].
  { by destruct (benign_no_errno _ _ He). }
  cbv zeta in E. rewrite (exec E). cbv beta iota.
  destruct (read_slice c off size (head l)) as [|d0 d] eqn:Hd; [intros [= <- _ _]; by right|].
  apply IH; [lia|]. by apply benign_next.
Qed.

Section reading.
Context (s0 : OS) (fd : Z) (name : string) (c : list Z).
Notation at_ := (os_at s0 fd name c).

Lemma readn_at off l size :
  0 ≤ off → 0 ≤ size →
  ∃ ret bs l', readn fd size (at_ off l) = Some ((ret, bs), at_ (off + Z.of_nat (length bs)) l') ∧
    l' `suffix_of` l ∧ bs = slice c off (Z.of_nat (length bs)) ∧
    (ret = 0 ↔ Z.of_nat (length bs) = size) ∧ Z.of_nat (length bs) ≤ size ∧
    (benign l → ret = if decide (off + size ≤ Z.of_nat (length c) ∨ size = 0) then 0 else -1).
Proof.
  intros Ho Hs. destruct (readn_loop_ok (2 + length l) s0 fd name c off l size []) as (ret & bs & s' & E & Hg);
    [done|done|left; cbn; lia|].
  destruct (gt_state _ _ _ _ _ _ _ _ _ _ _ _ Hg) as (l' & -> & Hl). destruct Hg as [_ Hb Hsz Hr Hc].
  exists ret, bs, l'. split_and!; try done. intros Hben. pose proof (readn_loop_calm _ _ _ _ _ _ _ _ _ _ _ _ Ho Hben E) as H2.
  rewrite Hb in Hr at 1. rewrite slice_length in Hr by lia.
  case_decide as Hd.
  - destruct Hd as [Hd| ->]; [by apply Hc|]. apply Hr. lia.
  - destruct H2 as [->|]; [|done]. exfalso. apply Hd.
    pose proof (proj1 Hr eq_refl). assert (Z.of_nat (length bs) = size) by (rewrite Hb, slice_length; lia). lia.
Qed.

(** The header and payload of the entry that the file holds at [off]. *)
Lemma slice_here off x y :
  0 ≤ off → drop (Z.to_nat off) c = x ++ y → slice c off (Z.of_nat (length x)) = x.
Proof. intros Ho E. unfold slice. rewrite E, Nat2Z.id. by rewrite take_app_length. Qed.

Lemma drop_here off x y :
  0 ≤ off → drop (Z.to_nat off) c = x ++ y → drop (Z.to_nat (off + Z.of_nat (length x))) c = y.
Proof. intros Ho E. rewrite Z2Nat.inj_add, Nat2Z.id by lia. rewrite <-drop_drop, E. by rewrite drop_app_length. Qed.

Lemma length_here off x y :
  0 ≤ off → x ≠ [] → drop (Z.to_nat off) c = x ++ y → off + Z.of_nat (length x) ≤ Z.of_nat (length c).
Proof.
  intros Ho Hx E. assert (length (drop (Z.to_nat off) c) = length (x ++ y)) as L by (by rewrite E).
  rewrite length_drop, length_app in L. destruct x; [done|]. cbn [length] in *. lia.
Qed.

Lemma readn_here off l x y :
  0 ≤ off → benign l → drop (Z.to_nat off) c = x ++ y →
  ∃ l', readn fd (Z.of_nat (length x)) (at_ off l) = Some ((0, x), at_ (off + Z.of_nat (length x)) l') ∧ benign l'.
Proof.
  intros Ho Hl E. destruct (readn_at off l (Z.of_nat (length x))) as (ret & bs & l' & R & Hs & Hb & Hr & _ & Hc); [lia..|].
  exists l'. split; [|by eapply benign_suffix].
  specialize (Hc Hl). rewrite decide_True in Hc; last first.
  { destruct x; [by right|]. left. by eapply length_here. }
  apply Hr in Hc as Hlen. rewrite Hlen in Hb, R. rewrite (slice_here _ _ _ Ho E) in Hb. by subst.
Qed.

Lemma readn_eof off l size :
  0 ≤ off → benign l → Z.of_nat (length c) < off + size → 0 < size →
  ∃ bs off' l', readn fd size (at_ off l) = Some ((-1, bs), at_ off' l') ∧ benign l' ∧ off ≤ off'.
Proof.
  intros Ho Hl Hlt Hs. destruct (readn_at off l size) as (ret & bs & l' & R & Hsuf & _ & _ & _ & Hc); [lia..|].
  specialize (Hc Hl). rewrite decide_False in Hc by lia. subst ret.
  eexists bs, _, l'. split; [exact R|]. split; [by eapply benign_suffix|lia].
Qed.

Lemma lseek_at off l off' :
  0 ≤ off' → benign l → sys_lseek fd off' (at_ off l) = Some (true, at_ off' (next_script l)).
Proof.
  intros Ho Hl. rewrite sys_lseek_eq by done. destruct (head l) as [[k|e]|] eqn:Hh; [done| |done].
  by destruct (benign_no_errno _ _ Hh).
Qed.

Lemma lseek_cur_eq off l delta : sys_lseek_cur fd delta (at_ off l) = sys_lseek fd (off + delta) (at_ off l).
Proof. unfold sys_lseek_cur. erewrite (bind_run fetch) by done. cbn [os_fds os_at]. by rewrite lookup_insert_eq. Qed.

Lemma rounds_at off l : rounds fd (at_ off l) = S (length c).
Proof. unfold rounds, content. cbn. by rewrite !lookup_insert_eq. Qed.
End reading.

(** ** The reading loops on a well-formed file *)

(** The entries from the first one whose LSN is at least [start]. *)
Fixpoint since (start : LSN) (es : list LogEntry) : list LogEntry :=
  match es with
  | [] => []
  | e :: es' => if start <=? le_lsn e then es else since start es'
  end.

Lemma since_Forall (P : LogEntry → Prop) start es : Forall P es → Forall P (since start es).
Proof. induction 1; cbn; [constructor|]. destruct (_ <=? _); [by constructor|done]. Qed.

(** The callback on one entry after the other, up to its first failure. *)
Fixpoint deliver {E} (callback : LogEntry → M E RC) (es : list LogEntry) : M E RC :=
  match es with
  | [] => mret RC.SUCCESS
  | e :: es => rc ← callback e; if RC.OB_FAIL rc then mret rc else deliver callback es
  end.

(** [t] is what a crash left of the entry [e]. *)
Record torn (e : LogEntry) (t : list Z) : Prop := {
  to_entry : entry_ok e;
  to_prefix : t `prefix_of` encode e;
  to_short : (length t < length (encode e))%nat
}.

Lemma torn_header e t : torn e t → (16 ≤ length t)%nat → ∃ p, t = header_bytes (header_ e) ++ p ∧ p `prefix_of` le_data e.
Proof.
  intros [He [r Hr] _] Hl. unfold encode in Hr. exists (drop 16 t).
  assert (take 16 t = header_bytes (header_ e)) as H1.
  { rewrite <-(take_app_le t r 16) by lia. rewrite <-Hr. apply take_app_length'. by rewrite header_bytes_length. }
  split; [by rewrite <-H1, take_drop|]. exists r.
  assert (drop 16 (t ++ r) = drop 16 t ++ r) as <- by (by apply drop_app_le).
  rewrite <-Hr. symmetry. apply drop_app_length'. by rewrite header_bytes_length.
Qed.

Section loops.
Context (s0 : OS) (fd : Z) (name : string) (c : list Z).
Notation at_ := (os_at s0 fd name c).
Context (last : LogEntry) (t : list Z) (Ht : torn last t).

(** Bytes left at an offset. *)
Definition left (off : Z) : Z := Z.of_nat (length c) - off.

Lemma read_header off l e y :
  0 ≤ off → benign l → entry_ok e → drop (Z.to_nat off) c = header_bytes (header_ e) ++ y →
  ∃ l' bs, readn fd LOG_HEADER_SIZE (at_ off l) = Some ((0, bs), at_ (off + 16) l') ∧ benign l' ∧
    bytes_header bs = header_ e ∧ 16 ≤ left off ∧ drop (Z.to_nat (off + 16)) c = y.
Proof.
  intros Ho Hl He E. destruct (readn_here s0 fd name c off l _ _ Ho Hl E) as (l' & R & Hl').
  rewrite header_bytes_length in R. exists l', (header_bytes (header_ e)). split_and!; [exact R|done| | |].
  - rewrite <-(app_nil_r (header_bytes _)). by apply entry_header.
  - unfold left. assert (header_bytes (header_ e) ≠ []) as Hn by (intros Hn; pose proof (header_bytes_length (header_ e)) as Hx; by rewrite Hn in Hx).
    pose proof (length_here c off _ _ Ho Hn E) as H2. rewrite header_bytes_length in H2. lia.
  - pose proof (drop_here c off _ _ Ho E) as H2. by rewrite header_bytes_length in H2.
Qed.

Lemma read_end off l :
  0 ≤ off → benign l → left off < 16 →
  ∃ bs off' l', readn fd LOG_HEADER_SIZE (at_ off l) = Some ((-1, bs), at_ off' l') ∧ benign l' ∧ 0 ≤ off' ∧ left off' < 16.
Proof.
  unfold left. intros Ho Hl Hlt. destruct (readn_eof s0 fd name c off l LOG_HEADER_SIZE) as (bs & off' & l' & R & Hl' & Hle);
    [lia|done|unfold LOG_HEADER_SIZE; lia|done|].
  exists bs, off', l'. split_and!; [done|done|lia|lia].
Qed.

(** Where [skip_loop] stops: at the first entry that is wanted, or where no
    header is left. *)
Definition skipped (start : LSN) (es : list LogEntry) (off : Z) : Prop :=
  drop (Z.to_nat off) c = encode_all (since start es) ++ t ∧ (since start es ≠ [] ∨ start ≤ le_lsn last) ∨
  since start es = [] ∧ ((length t < 16)%nat ∨ le_lsn last < start) ∧ left off < 16.

Lemma left_tail off : 0 ≤ off → drop (Z.to_nat off) c = t → left off ≤ Z.of_nat (length t).
Proof. intros Ho <-. rewrite length_drop. unfold left. lia. Qed.

Lemma skip_end n start off l :
  0 ≤ off → benign l → left off < 16 →
  ∃ off' l', skip_loop (S n) fd start (at_ off l) = Some (RC.SUCCESS, at_ off' l') ∧ benign l' ∧ 0 ≤ off' ∧ left off' < 16.
Proof.
  intros Ho Hl He. destruct (read_end off l Ho Hl He) as (bs & off' & l' & R & Hl' & Ho' & He').
  exists off', l'. cbn [skip_loop]. by rewrite (exec R).
Qed.

Lemma skip_header n start off l e y :
  0 ≤ off → benign l → entry_ok e → drop (Z.to_nat off) c = header_bytes (header_ e) ++ y →
  ∃ l', benign l' ∧ skip_loop (S n) fd start (at_ off l) =
    if start <=? le_lsn e then Some (RC.SUCCESS, at_ off l')
    else skip_loop n fd start (at_ (off + total_size e) l').
Proof.
  intros Ho Hl He E. destruct (read_header off l e y Ho Hl He E) as (l1 & bs & R & Hl1 & Hh & _ & _).
  exists (next_script l1). split; [by apply benign_next|]. cbn [skip_loop]. rewrite (exec R).
  cbv beta iota. change (negb (0 =? 0)) with false. cbv iota zeta. rewrite Hh, (entry_size_ok e He).
  change (lh_lsn (header_ e)) with (le_lsn e). destruct (start <=? le_lsn e).
  - erewrite bind_run by (rewrite lseek_cur_eq, lseek_at; [reflexivity|unfold LOG_HEADER_SIZE; lia|done]).
    cbn [negb]. unfold LOG_HEADER_SIZE. replace (off + 16 + - (8 + 4 + 4)) with off by lia. done.
  - destruct He as [_ _ Hs Hb _]. unfold payload_size in *.
    erewrite bind_run by (rewrite lseek_cur_eq, lseek_at; [reflexivity|lia|done]).
    cbn [negb]. unfold total_size, LOG_HEADER_SIZE. by replace (off + 16 + lh_size (header_ e)) with (off + (8 + 4 + 4 + lh_size (header_ e))) by lia.
Qed.

Lemma skip_tail n start off l :
  0 ≤ off → benign l → drop (Z.to_nat off) c = t → (length t ≤ n)%nat →
  ∃ off' l', skip_loop (S n) fd start (at_ off l) = Some (RC.SUCCESS, at_ off' l') ∧ benign l' ∧ 0 ≤ off' ∧
    skipped start [] off'.
Proof.
  intros Ho Hl E Hn. unfold skipped. cbn [since]. change (encode_all [] ++ t) with t. pose proof (left_tail off Ho E).
  destruct (decide (length t < 16)%nat) as [Hlt|Hge].
  { destruct (skip_end n start off l) as (off' & l' & R & ? & ? & ?); [done|done|lia|].
    exists off', l'. split_and!; [done|done|done|]. right. auto. }
  destruct (torn_header last t Ht) as (p & Ep & Hp); [lia|]. rewrite Ep in E at 1. destruct n as [|n]; [lia|].
  destruct (skip_header (S n) start off l last p Ho Hl (to_entry _ _ Ht) E) as (l1 & Hl1 & ->).
  destruct (start <=? le_lsn last) eqn:Hst.
  { apply Z.leb_le in Hst. exists off, l1. split_and!; [done..|]. left. split; [by rewrite E|by right]. }
  apply Z.leb_gt in Hst. pose proof (encode_length last (to_entry _ _ Ht)) as Hlen.
  pose proof (to_short _ _ Ht). unfold left in *.
  destruct (skip_end n start (off + total_size last) l1) as (off' & l' & R & ? & ? & ?); [lia|done|unfold left; lia|].
  exists off', l'. split_and!; [done|done|done|]. right. auto.
Qed.

Lemma total_size_pos e : entry_ok e → 16 < total_size e.
Proof. intros []. unfold total_size, LOG_HEADER_SIZE. unfold payload_size in *. lia. Qed.

Lemma skip_loop_ok n start es off l :
  0 ≤ off → benign l → Forall entry_ok es → drop (Z.to_nat off) c = encode_all es ++ t →
  (length (encode_all es ++ t) ≤ n)%nat →
  ∃ off' l', skip_loop (S n) fd start (at_ off l) = Some (RC.SUCCESS, at_ off' l') ∧ benign l' ∧ 0 ≤ off' ∧
    skipped start es off'.
Proof.
  revert n off l. induction es as [|e es IH]; intros n off l Ho Hl Hes E Hn; [by apply skip_tail|].
  apply list.Forall_cons in Hes as [He Hes]. rewrite encode_all_cons, <-app_assoc in E, Hn. pose proof E as E2.
  pose proof (encode_length e He). pose proof (total_size_pos e He).
  rewrite length_app in Hn. destruct n as [|n]; [lia|].
  unfold encode in E. rewrite <-app_assoc in E.
  destruct (skip_header (S n) start off l e _ Ho Hl He E) as (l1 & Hl1 & ->).
  unfold skipped. cbn [since]. destruct (start <=? le_lsn e).
  { exists off, l1. split_and!; [done..|]. left. split; [by rewrite E2, encode_all_cons, app_assoc|by left]. }
  apply IH; [lia|done|done| |lia]. rewrite <-(encode_length e He). by apply drop_here with (x := encode e).
Qed.

Section iteration.
Context {E : Type} (callback : LogEntry → M E RC).

Lemma in_os_run {A} (op : M OS A) s a s' x : op s = Some (a, s') → in_os op (s, x : E) = Some (a, (s', x)).
Proof. unfold in_os. intros ->. done. Qed.

Lemma iterate_end n off l x :
  0 ≤ off → benign l → left off < 16 →
  ∃ off' l', iterate_loop callback (S n) fd (at_ off l, x) = Some (RC.SUCCESS, (at_ off' l', x)) ∧ benign l'.
Proof.
  intros Ho Hl He. destruct (read_end off l Ho Hl He) as (bs & off' & l' & R & Hl' & _).
  exists off', l'. cbn [iterate_loop]. by rewrite (exec (in_os_run _ _ _ _ x R)).
Qed.

(** After a torn entry's header its payload cannot be read. *)
Lemma iterate_torn n off l x :
  0 ≤ off → benign l → drop (Z.to_nat off) c = t → (16 ≤ length t)%nat →
  ∃ off' l', iterate_loop callback (S n) fd (at_ off l, x) = Some (RC.IOERR_READ, (at_ off' l', x)) ∧ benign l'.
Proof.
  intros Ho Hl Hd Hlen. destruct (torn_header last t Ht Hlen) as (p & Ep & Hp). pose proof (to_entry _ _ Ht) as He.
  rewrite Ep in Hd at 1. destruct (read_header off l last p Ho Hl He Hd) as (l1 & bs & R & Hl1 & Hh & Hleft & Hd2).
  pose proof (to_short _ _ Ht) as Hs. rewrite Ep in Hs. unfold encode in Hs. rewrite !length_app in Hs.
  assert (length (drop (Z.to_nat (off + 16)) c) = length p) as Hc by (by rewrite Hd2). rewrite length_drop in Hc.
  destruct (readn_eof s0 fd name c (off + 16) l1 (payload_size last)) as (bs2 & off2 & l2 & R2 & Hl2 & _);
    [lia|done| |apply (eo_bound _ He)|].
  { rewrite (eo_size _ He). unfold left in Hleft. lia. }
  exists off2, l2. split; [|done]. cbn [iterate_loop]. rewrite (exec (in_os_run _ _ _ _ x R)).
  cbv beta iota. change (negb (0 =? 0)) with false. cbv iota zeta. rewrite Hh, (entry_size_ok _ He).
  by rewrite (exec (in_os_run _ _ _ _ x R2)).
Qed.

Lemma iterate_entry n off l x e y :
  0 ≤ off → benign l → entry_ok e → drop (Z.to_nat off) c = encode e ++ y →
  ∃ l', benign l' ∧ iterate_loop callback (S n) fd (at_ off l, x) =
    match callback e x with
    | None => None
    | Some (rc, x') => if RC.OB_FAIL rc then Some (rc, (at_ (off + total_size e) l', x'))
                       else iterate_loop callback n fd (at_ (off + total_size e) l', x')
    end.
Proof.
  intros Ho Hl He Hd. unfold encode in Hd. rewrite <-app_assoc in Hd.
  destruct (read_header off l e _ Ho Hl He Hd) as (l1 & bs & R & Hl1 & Hh & _ & Hd2).
  destruct (readn_here s0 fd name c (off + 16) l1 _ _ ltac:(lia) Hl1 Hd2) as (l2 & R2 & Hl2).
  rewrite <-(eo_size _ He) in R2. exists l2. split; [done|].
  cbn [iterate_loop]. rewrite (exec (in_os_run _ _ _ _ x R)).
  cbv beta iota. change (negb (0 =? 0)) with false. cbv iota zeta. rewrite Hh, (entry_size_ok _ He).
  rewrite (exec (in_os_run _ _ _ _ x R2)). cbv beta iota. change (negb (0 =? 0)) with false. cbv iota.
  change (lh_lsn (header_ e)) with (le_lsn e). rewrite (entry_init_ok e He).
  unfold total_size, LOG_HEADER_SIZE. unfold payload_size in *.
  replace (off + (8 + 4 + 4 + lh_size (header_ e))) with (off + 16 + lh_size (header_ e)) by lia.
  unfold mbind at 1, M_bind at 1, in_client. destruct (callback e x) as [[rc x']|]; [|done]. cbn.
  by destruct (RC.OB_FAIL rc).
Qed.

(** The result once every entry has been delivered. *)
Definition tail_rc : RC := if decide (16 ≤ length t)%nat then RC.IOERR_READ else RC.SUCCESS.

Definition after (d : option (RC * E)) (rc_end : RC) (s' : OS) : option (RC * (OS * E)) :=
  match d with
  | None => None
  | Some (rc, x') => Some (if RC.OB_FAIL rc then rc else rc_end, (s', x'))
  end.

Lemma iterate_loop_ok n es off l x :
  0 ≤ off → benign l → Forall entry_ok es → drop (Z.to_nat off) c = encode_all es ++ t →
  (length (encode_all es ++ t) ≤ n)%nat →
  ∃ off' l', benign l' ∧ iterate_loop callback (S n) fd (at_ off l, x) = after (deliver callback es x) tail_rc (at_ off' l').
Proof.
  revert n off l x. induction es as [|e es IH]; intros n off l x Ho Hl Hes Hd Hn.
  { unfold tail_rc. case_decide as Hlen.
    - destruct (iterate_torn n off l x Ho Hl Hd Hlen) as (off' & l' & R & ?). exists off', l'. by rewrite R.
    - pose proof (left_tail off Ho Hd).
      destruct (iterate_end n off l x Ho Hl ltac:(lia)) as (off' & l' & R & ?). exists off', l'. by rewrite R. }
  apply list.Forall_cons in Hes as [He Hes]. rewrite encode_all_cons, <-app_assoc in Hd, Hn.
  pose proof (encode_length e He). pose proof (total_size_pos e He).
  rewrite length_app in Hn. destruct n as [|n]; [lia|].
  destruct (iterate_entry (S n) off l x e _ Ho Hl He Hd) as (l1 & Hl1 & ->).
  cbn [deliver]. unfold mbind at 1, M_bind at 1. destruct (callback e x) as [[rc x']|]; [|by exists off, l].
  destruct (RC.OB_FAIL rc) eqn:Hrc; [exists (off + total_size e), l1; cbn; by rewrite Hrc|].
  apply IH; [lia|done|done| |lia]. rewrite <-(encode_length e He). by apply drop_here with (x := encode e).
Qed.

(** [LogFileReader::iterate] on a file of entries with a torn one at its end. *)
Lemma rd_iterate_ok start es off l x :
  c = encode_all es ++ t → 0 ≤ fd → benign l → Forall entry_ok es →
  ∃ off' l', benign l' ∧ rd_iterate callback fd start (at_ off l, x) =
    after (deliver callback (since start es) x)
      (if decide (since start es = [] ∧ le_lsn last < start) then RC.SUCCESS else tail_rc) (at_ off' l').
Proof.
  intros Hc Hfd Hl Hes.
  destruct (skip_loop_ok (length c) start es 0 (next_script l)) as (off1 & l1 & R & Hl1 & Ho1 & Hsk);
    [done|by apply benign_next|done|done|by rewrite Hc|].
  assert (skip_to fd start (at_ off l) = Some (RC.SUCCESS, at_ off1 l1)) as Rs.
  { unfold skip_to. rewrite (proj2 (Z.ltb_ge _ _)) by lia. rewrite (exec (lseek_at s0 fd name c off l 0 ltac:(lia) Hl)).
    cbn [negb]. unfold skip_rounds. by rewrite rounds_at. }
  unfold rd_iterate. rewrite (exec (in_os_run _ _ _ _ x Rs)). cbn [RC.OB_FAIL].
  change (RC.OB_FAIL RC.SUCCESS) with false. cbv iota. unfold iterate_rounds. cbn [fst]. rewrite rounds_at.
  destruct Hsk as [(Hd & Hw)|(Hs & Hor & Hleft)].
  - assert (Forall entry_ok (since start es)) as Hes' by (by apply since_Forall).
    destruct (iterate_loop_ok (length c) (since start es) off1 l1 x Ho1 Hl1 Hes' Hd) as (off' & l' & Hb & R2).
    { rewrite <-Hd, length_drop. lia. }
    exists off', l'. split; [done|]. rewrite decide_False; [done|]. intros [? ?]. destruct Hw; [done|lia].
  - rewrite Hs. destruct (iterate_end (length c) off1 l1 x Ho1 Hl1 Hleft) as (off' & l' & R2 & Hb).
    exists off', l'. split; [done|]. rewrite R2. cbn. do 3 f_equal. unfold tail_rc.
    destruct Hor as [Hlt|Hlt]; [by repeat case_decide; lia || done|by rewrite decide_True].
Qed.
End iteration.
End loops.

(** ** Any bytes, any outcomes: the loops end *)
Section totality.
Context (s0 : OS) (fd : Z) (name : string) (c : list Z).
Notation at_ := (os_at s0 fd name c).

Lemma lseek_total off l off' :
  0 ≤ off' → ∃ ok off2 l2, sys_lseek fd off' (at_ off l) = Some (ok, at_ off2 l2) ∧
    (ok = true → off2 = off').
Proof.
  intros Ho. rewrite sys_lseek_eq by done. destruct (head l) as [[k|e]|];
    [exists true, off', (next_script l)|exists false, off, (next_script l)|exists true, off', (next_script l)]; by split.
Qed.

(** A header that was read is in the file. *)
Lemma read_header_total off l :
  0 ≤ off → ∃ ret bs off2 l2, readn fd LOG_HEADER_SIZE (at_ off l) = Some ((ret, bs), at_ off2 l2) ∧ off ≤ off2 ∧
    (ret = 0 → off2 = off + 16 ∧ off + 16 ≤ Z.of_nat (length c)).
Proof.
  intros Ho. destruct (readn_at s0 fd name c off l LOG_HEADER_SIZE) as (ret & bs & l2 & R & _ & Hb & Hr & _); [done|done|].
  exists ret, bs, (off + Z.of_nat (length bs)), l2. split_and!; [exact R|lia|]. intros ->.
  pose proof (proj1 Hr eq_refl) as Hlen. pose proof (slice_length c off (Z.of_nat (length bs)) Ho ltac:(lia)) as Hs.
  rewrite <-Hb, Hlen in Hs. unfold LOG_HEADER_SIZE in *. rewrite Hlen. lia.
Qed.

Lemma skip_loop_total n start off l :
  0 ≤ off → Z.max 0 (left c off) < Z.of_nat n →
  ∃ rc off' l', skip_loop n fd start (at_ off l) = Some (rc, at_ off' l') ∧ (rc = RC.SUCCESS → 0 ≤ off').
Proof.
  revert off l. induction n as [|n IH]; intros off l Ho Hn; [lia|]. cbn [skip_loop].
  destruct (read_header_total off l Ho) as (ret & bs & off2 & l2 & R & Hle & Hr). rewrite (exec R). cbv beta iota.
  destruct (ret =? 0) eqn:Hz; cbn [negb]; last first.
  { exists (if ret =? -1 then RC.SUCCESS else RC.IOERR_READ), off2, l2. split; [by destruct (ret =? -1)|lia]. }
  apply Z.eqb_eq in Hz as ->. destruct (Hr eq_refl) as [-> Hin]. cbv zeta. destruct (start <=? _).
  - destruct (lseek_total (off + 16) l2 off Ho) as (ok & off3 & l3 & R3 & H3).
    exists (if ok then RC.SUCCESS else RC.IOERR_SEEK), off3, l3. split; [|by destruct ok; [intros; rewrite H3|]].
    erewrite bind_run by (rewrite lseek_cur_eq; unfold LOG_HEADER_SIZE;
      replace (off + 16 + - (8 + 4 + 4)) with off by lia; exact R3). by destruct ok.
  - destruct (bad_size _) eqn:Hbad; [by eexists RC.IOERR_READ, _, _|]. apply orb_false_iff in Hbad as [Hb1%Z.ltb_ge Hb2%Z.ltb_ge].
    destruct (lseek_total (off + 16) l2 (off + 16 + lh_size (bytes_header bs)) ltac:(lia)) as (ok & off3 & l3 & R3 & H3).
    erewrite bind_run by (rewrite lseek_cur_eq; exact R3). destruct ok; cbn [negb]; [|by eexists RC.IOERR_SEEK, _, _].
    rewrite (H3 eq_refl) in *. unfold left in *. apply IH; lia.
Qed.

Context {E : Type} (callback : LogEntry → M E RC) (Hcb : ∀ e x, is_Some (callback e x)).

Lemma iterate_loop_total n off l x :
  0 ≤ off → Z.max 0 (left c off) < Z.of_nat n →
  ∃ rc off' l' x', iterate_loop callback n fd (at_ off l, x) = Some (rc, (at_ off' l', x')).
Proof.
  revert off l x. induction n as [|n IH]; intros off l x Ho Hn; [lia|]. cbn [iterate_loop].
  destruct (read_header_total off l Ho) as (ret & bs & off2 & l2 & R & Hle & Hr).
  rewrite (exec (in_os_run _ _ _ _ x R)). cbv beta iota.
  destruct (ret =? 0) eqn:Hz; cbn [negb]; last first.
  { exists (if ret =? -1 then RC.SUCCESS else RC.IOERR_READ), off2, l2, x. by destruct (ret =? -1). }
  apply Z.eqb_eq in Hz as ->. destruct (Hr eq_refl) as [-> Hin]. cbv zeta.
  destruct (bad_size _) eqn:Hbad; [by eexists RC.IOERR_READ, _, _, _|]. apply orb_false_iff in Hbad as [Hb1%Z.ltb_ge Hb2%Z.ltb_ge].
  destruct (readn_at s0 fd name c (off + 16) l2 (lh_size (bytes_header bs))) as (ret & bs2 & l3 & R3 & _ & _ & _); [lia|lia|].
  rewrite (exec (in_os_run _ _ _ _ x R3)). cbv beta iota.
  destruct (negb (ret =? 0)); [by eexists RC.IOERR_READ, _, _, _|].
  destruct (entry_init _ _ _ _) as [rc0 entry]. destruct (Hcb entry x) as [[rc x'] Ec].
  erewrite bind_run by (unfold in_client; rewrite Ec; reflexivity).
  destruct (RC.OB_FAIL rc); [by eexists rc, _, _, x'|]. unfold left in *. apply IH; lia.
Qed.

Lemma rd_iterate_total start off l x :
  0 ≤ fd → ∃ rc off' l' x', rd_iterate callback fd start (at_ off l, x) = Some (rc, (at_ off' l', x')).
Proof.
  intros Hfd. destruct (lseek_total off l 0 ltac:(lia)) as (ok & off1 & l1 & R1 & H1).
  assert (∃ rc off2 l2, skip_to fd start (at_ off l) = Some (rc, at_ off2 l2) ∧ (rc = RC.SUCCESS → 0 ≤ off2))
    as (rc & off2 & l2 & R & H2).
  { unfold skip_to. rewrite (proj2 (Z.ltb_ge _ _)) by lia. rewrite (exec R1).
    destruct ok; cbn [negb]; [|by eexists RC.IOERR_SEEK, _, _]. unfold skip_rounds. rewrite rounds_at, (H1 eq_refl).
    apply skip_loop_total; unfold left; lia. }
  unfold rd_iterate. rewrite (exec (in_os_run _ _ _ _ x R)).
  destruct (RC.OB_FAIL rc) eqn:Hrc; [by eexists rc, _, _, x|].
  assert (rc = RC.SUCCESS) as -> by (unfold RC.OB_FAIL in Hrc; apply bool_decide_eq_false in Hrc; destruct (decide (rc = RC.SUCCESS)); naive_solver).
  unfold iterate_rounds. cbn [fst]. rewrite rounds_at. specialize (H2 eq_refl). apply iterate_loop_total; unfold left; lia.
Qed.
End totality.
