(* ===== verification/LogFiles.v ===== *)
(** * The writer, the names and the directory of log files

    Proofs about [LogFileWriter] and [LogFileManager] of [Clog]: an append adds
    the entry's bytes or a torn piece of them, a file name gives back its LSN,
    scanning a directory finds the files in order. *)

From S2P Require Import Prelude Types Bytes Os Clog ClogFile.
From stdpp Require Import sorting.
From Stdlib Require DecimalString DecimalZ DecimalFacts.
Local Open Scope Z_scope.

(** ** Appending *)
Lemma file_put_end c d : file_put c (Z.of_nat (length c)) d = c ++ d.
Proof.
  unfold file_put. destruct d as [|b d]; [by rewrite app_nil_r|]. rewrite Nat2Z.id, take_ge by done.
  rewrite Nat.sub_diag. cbn [replicate]. by rewrite drop_ge, app_nil_r by (cbn [length]; lia).
Qed.

Section append.
Context (s0 : OS) (fd : Z) (name : string).

(** The file holds [c] and the descriptor is at its end. *)
Definition at_end (c : list Z) (l : list sysret) : OS := os_at s0 fd name c (Z.of_nat (length c)) l.

Lemma writen_end c l buf :
  ∃ ret d l', writen fd buf (at_end c l) = Some (ret, at_end (c ++ d) l') ∧
    d `prefix_of` buf ∧ l' `suffix_of` l ∧ (ret = 0 ↔ d = buf) ∧ (benign l → ret = 0).
Proof.
  destruct (writen_loop_ok (2 + length l) s0 fd name c (Z.of_nat (length c)) l buf) as (ret & s' & R & [(d & l' & -> & Hd & Hl & Hr) Hc]);
    [lia|cbn; lia|].
  exists ret, d, l'. split_and!; [|done..]. unfold writen. cbn [os_script at_end os_at]. unfold at_end in *. cbn [os_at os_script] in *.
  rewrite R, file_put_end. by rewrite length_app, Nat2Z.inj_add.
Qed.

(** What [LogFileWriter::write] does to a file: all of the entry or a torn
    piece of it. *)
Lemma fw_write_end c l w e :
  entry_ok e → fw_fd_ w = fd → 0 ≤ fd → le_lsn e ≤ end_lsn_ w → last_lsn_ w < le_lsn e →
  ∃ rc w' d l', fw_write e w (at_end c l) = Some ((rc, w'), at_end (c ++ d) l') ∧ l' `suffix_of` l ∧
    (benign l → rc = RC.SUCCESS) ∧
    (rc = RC.SUCCESS ∧ d = encode e ∧ w' = mkLogWriter (fw_filename_ w) fd (swrap 32 (le_lsn e)) (end_lsn_ w) ∨
     rc = RC.IOERR_WRITE ∧ w' = w ∧ torn e d).
Proof.
  intros He Hfd Hfd0 Hend Hlast. unfold fw_write. rewrite Hfd.
  rewrite (proj2 (Z.ltb_ge _ _)) by done. rewrite (proj2 (Z.ltb_ge _ _)) by done. rewrite (proj2 (Z.leb_gt _ _)) by done.
  destruct (writen_end c l (header_bytes (header_ e))) as (ret & d & l1 & R & Hd & Hl & Hr & Hc).
  rewrite (exec R). destruct (ret =? 0) eqn:Hz; cbn [negb]; last first.
  { apply Z.eqb_neq in Hz. exists RC.IOERR_WRITE, w, d, l1. split_and!; [done|done|by intros ?%Hc|]. right.
    split_and!; [done|done|]. split; [done|by unfold encode; apply prefix_app_r|].
    apply prefix_length in Hd as Hle. unfold encode. rewrite length_app. pose proof (encode_length e He).
    pose proof (total_size_pos e He). unfold encode in *. rewrite length_app, header_bytes_length in *. lia. }
  apply Z.eqb_eq in Hz. apply Hr in Hz as ->.
  assert (take (Z.to_nat (payload_size e)) (le_data e) = le_data e) as ->.
  { apply take_ge. rewrite (eo_size _ He). lia. }
  destruct (writen_end (c ++ header_bytes (header_ e)) l1 (le_data e)) as (ret2 & d2 & l2 & R2 & Hd2 & Hl2 & Hr2 & Hc2).
  rewrite (exec R2). rewrite <-app_assoc. destruct (ret2 =? 0) eqn:Hz; cbn [negb].
  - apply Z.eqb_eq in Hz. apply Hr2 in Hz as ->. eexists RC.SUCCESS, _, (encode e), l2.
    split_and!; [done|by etrans|done|by left].
  - apply Z.eqb_neq in Hz. exists RC.IOERR_WRITE, w, (header_bytes (header_ e) ++ d2), l2.
    split_and!; [done|by etrans|intros Hb; destruct Hz; apply Hc2; by eapply benign_suffix|]. right.
    split_and!; [done|done|]. split; [done|by unfold encode; apply prefix_app|].
    unfold encode. rewrite !length_app. assert (length d2 ≠ length (le_data e)) as Hne.
    { intros Hn. destruct Hz. apply Hr2. destruct Hd2 as [k Hk]. rewrite Hk, length_app in Hn. destruct k; [by rewrite Hk, app_nil_r|cbn in Hn; lia]. }
    apply prefix_length in Hd2. lia.
Qed.
End append.

(** ** File names *)
Lemma substring_skip a b n : String.substring (String.length a) n (String.append a b) = String.substring 0 n b.
Proof. induction a as [|x a IH]; [done|]. exact IH. Qed.

Lemma substring_all a b : String.substring 0 (String.length a) (String.append a b) = a.
Proof. induction a as [|x a IH]; [by destruct b|]. exact (f_equal (String x) IH). Qed.

Lemma append_empty a : String.append a "" = a.
Proof. induction a as [|x a IH]; [done|]. exact (f_equal (String x) IH). Qed.

Lemma append_length a b : String.length (String.append a b) = (String.length a + String.length b)%nat.
Proof. induction a as [|x a IH]; [done|]. exact (f_equal S IH). Qed.

Lemma starts_with_app p a : starts_with p (String.append p a) = true.
Proof. apply String.prefix_correct. apply substring_all. Qed.

Lemma ends_with_app a p : ends_with p (String.append a p) = true.
Proof.
  unfold ends_with. rewrite append_length. apply andb_true_iff. split; apply bool_decide_eq_true; [lia|].
  replace (String.length a + String.length p - String.length p)%nat with (String.length a) by lia.
  rewrite substring_skip. rewrite <-(append_empty p) at 2. apply substring_all.
Qed.

Lemma digits_uint d : digits (DecimalString.NilEmpty.string_of_uint d) = DecimalString.NilEmpty.string_of_uint d.
Proof. induction d as [| ? IH| ? IH| ? IH| ? IH| ? IH| ? IH| ? IH| ? IH| ? IH| ? IH]; cbn -[is_digit]; [done|..]; by rewrite IH. Qed.

Lemma number_prefix_to_string z : number_prefix (to_string z) = to_string z.
Proof.
  unfold to_string. destruct (Z.to_int z) as [d|d]; cbn [DecimalString.NilEmpty.string_of_int].
  - transitivity (digits (DecimalString.NilEmpty.string_of_uint d)); [by destruct d|apply digits_uint].
  - cbn. by rewrite digits_uint.
Qed.

Lemma to_string_not_empty z : ¬ (to_string z = "" ∨ to_string z = "-").
Proof.
  pose proof (DecimalZ.of_to z) as E. unfold to_string. destruct (Z.to_int z) as [d|d] eqn:Hd;
    destruct d; cbn in E |- *; try (by intros [?|?]); subst z; done.
Qed.

Lemma from_chars_to_string z : in_srange 64 z → from_chars (to_string z) = Some z.
Proof.
  intros Hz. unfold from_chars. rewrite number_prefix_to_string.
  assert (DecimalString.NilEmpty.int_of_string (to_string z) = Some (Z.to_int z)) as -> by apply DecimalString.NilEmpty.isi.
  cbn [fmap option_fmap option_map mbind option_bind].
  rewrite DecimalZ.of_to, decide_False by apply to_string_not_empty. by rewrite decide_True.
Qed.

(** The name that [next_file] gives to the file that starts at an LSN. *)
Definition log_file_name (lsn : LSN) : string :=
  String.append file_prefix_ (String.append (to_string lsn) file_suffix_).

Lemma filename_round_trip lsn : in_srange 64 lsn → get_lsn_from_filename (log_file_name lsn) = (RC.SUCCESS, lsn).
Proof.
  intros H. unfold get_lsn_from_filename, log_file_name. rewrite starts_with_app.
  assert (String.append file_prefix_ (String.append (to_string lsn) file_suffix_) =
          String.append (String.append file_prefix_ (to_string lsn)) file_suffix_) as E by done.
  rewrite E at 1. rewrite ends_with_app. cbn [negb orb]. rewrite !append_length, substring_skip.
  replace (String.length file_prefix_ + (String.length (to_string lsn) + String.length file_suffix_) -
           String.length file_suffix_ - String.length file_prefix_)%nat with (String.length (to_string lsn)) by lia.
  rewrite substring_all. by rewrite from_chars_to_string.
Qed.

Lemma log_file_name_inj a b : in_srange 64 a → in_srange 64 b → log_file_name a = log_file_name b → a = b.
Proof.
  intros Ha Hb E. pose proof (filename_round_trip a Ha) as H1. rewrite E, (filename_round_trip b Hb) in H1. by injection H1.
Qed.

Definition log_file_path (directory : string) (lsn : LSN) : string := path_join directory (log_file_name lsn).

Lemma append_inj_r p a b : String.append p a = String.append p b → a = b.
Proof. induction p as [|x p IH]; [done|]. intros [= ?]. auto. Qed.

Lemma log_file_path_inj d a b : in_srange 64 a → in_srange 64 b → log_file_path d a = log_file_path d b → a = b.
Proof. unfold log_file_path, path_join. intros Ha Hb E%append_inj_r%append_inj_r. by apply log_file_name_inj. Qed.

(** ** The directory *)
Definition by_key (a b : LSN * string) : Prop := a.1 < b.1.

Lemma emplace_elem k v l f : f ∈ emplace k v l → f = (k, v) ∨ f ∈ l.
Proof.
  induction l as [|[k' v'] l IH]; cbn [emplace]; [set_solver|].
  destruct (k <? k'); [set_solver|]. destruct (k =? k'); set_solver.
Qed.

Lemma emplace_keeps k v l f : f ∈ l → f ∈ emplace k v l.
Proof.
  induction l as [|[k' v'] l IH]; cbn [emplace]; [set_solver|].
  destruct (k <? k'); [set_solver|]. destruct (k =? k'); set_solver.
Qed.

Lemma emplace_key k v l : ∃ v', (k, v') ∈ emplace k v l.
Proof.
  induction l as [|[k' v'] l [w IH]]; cbn [emplace]; [exists v; set_solver|].
  destruct (k <? k'); [exists v; set_solver|]. destruct (k =? k') eqn:E; [|exists w; set_solver].
  apply Z.eqb_eq in E as ->. exists v'. set_solver.
Qed.

Lemma emplace_sorted k v l : StronglySorted by_key l → StronglySorted by_key (emplace k v l).
Proof.
  induction 1 as [|[k' v'] l Hs IH Hf]; cbn [emplace]; [repeat constructor|].
  destruct (k <? k') eqn:E1; [|destruct (k =? k') eqn:E2]; rewrite ?Z.ltb_lt, ?Z.ltb_ge, ?Z.eqb_neq in *.
  - constructor; [by constructor|]. constructor; [done|]. eapply Forall_impl; [exact Hf|]. unfold by_key. cbn. intros; lia.
  - by constructor.
  - constructor; [done|]. apply Forall_forall. intros f [->|Hin]%emplace_elem; [unfold by_key; cbn; lia|].
    rewrite Forall_forall in Hf. auto.
Qed.

Lemma by_key_unique l1 l2 :
  StronglySorted by_key l1 → StronglySorted by_key l2 → (∀ f, f ∈ l1 ↔ f ∈ l2) → l1 = l2.
Proof.
  intros H1 H2 Hel. assert (∀ l, StronglySorted by_key l → NoDup l) as Hnd.
  { induction 1 as [|f l Hs IH Hf]; constructor; [|done]. intros Hin. rewrite Forall_forall in Hf.
    specialize (Hf f Hin). unfold by_key in Hf. lia. }
  apply (StronglySorted_unique_strong by_key); [|done|done|apply NoDup_Permutation; auto].
  unfold by_key. intros a b ? ? ? ?. lia.
Qed.

(** The files numbered [0 .. n-1] with [N] entries each. *)
Definition log_files_upto (d : string) (N : Z) (n : nat) : list (LSN * string) :=
  (λ i : nat, (Z.of_nat i * N, log_file_path d (Z.of_nat i * N))) <$> seq 0 n.

Lemma log_files_upto_S d N n :
  log_files_upto d N (S n) = log_files_upto d N n ++ [(Z.of_nat n * N, log_file_path d (Z.of_nat n * N))].
Proof. unfold log_files_upto. by rewrite seq_S, fmap_app. Qed.

Lemma log_files_upto_elem d N n f :
  f ∈ log_files_upto d N n ↔ ∃ i, (i < n)%nat ∧ f = (Z.of_nat i * N, log_file_path d (Z.of_nat i * N)).
Proof.
  unfold log_files_upto. rewrite list_elem_of_fmap. split; intros (i & H1 & H2); exists i.
  - rewrite elem_of_seq in H2. split; [lia|done].
  - rewrite elem_of_seq. split; [done|lia].
Qed.

Lemma log_files_upto_sorted d N n : 0 < N → StronglySorted by_key (log_files_upto d N n).
Proof.
  intros HN. unfold log_files_upto. generalize 0%nat. induction n as [|n IH]; intros a; cbn; constructor; [apply IH|].
  apply Forall_fmap, Forall_forall. intros i Hi%elem_of_seq. unfold by_key. cbn. nia.
Qed.

Lemma log_files_upto_last d N n :
  list.last (log_files_upto d N n) =
  match n with O => None | S m => Some (Z.of_nat m * N, log_file_path d (Z.of_nat m * N)) end.
Proof. destruct n as [|m]; [done|]. rewrite log_files_upto_S. by rewrite last_snoc. Qed.

Lemma emplace_next d N n :
  0 < N → emplace (Z.of_nat n * N) (log_file_path d (Z.of_nat n * N)) (log_files_upto d N n) = log_files_upto d N (S n).
Proof.
  intros HN. rewrite log_files_upto_S. assert (Forall (λ f, f.1 < Z.of_nat n * N) (log_files_upto d N n)) as Hf.
  { apply Forall_forall. intros f (i & Hi & ->)%log_files_upto_elem. cbn. nia. }
  induction Hf as [|[k v] l Hk Hf IH]; cbn [emplace app]; [done|]. cbn in Hk.
  rewrite (proj2 (Z.ltb_ge _ _)) by lia. rewrite (proj2 (Z.eqb_neq _ _)) by lia. by rewrite IH.
Qed.

(** Scanning a directory, in whatever order the file system lists it. *)
Lemma scan_files_spec d names l :
  StronglySorted by_key l → (∀ f, f ∈ l → f.2 = log_file_path d f.1) →
  (∀ name lsn, name ∈ names → get_lsn_from_filename name = (RC.SUCCESS, lsn) → name = log_file_name lsn) →
  let r := scan_files d names l in
  StronglySorted by_key r ∧
  (∀ f, f ∈ r ↔ f ∈ l ∨ f.2 = log_file_path d f.1 ∧ ∃ name, name ∈ names ∧ get_lsn_from_filename name = (RC.SUCCESS, f.1)).
Proof.
  revert l. induction names as [|name names IH]; intros l Hs Hp Hn; cbn [scan_files]; [set_solver|].
  destruct (get_lsn_from_filename name) as [rc lsn] eqn:E.
  destruct (RC.OB_FAIL rc) eqn:Hrc.
  - destruct (IH l Hs Hp) as [H1 H2]; [set_solver|]. split; [done|]. intros f. rewrite H2. split; [set_solver|].
    intros [?|(? & nm & [->|?]%elem_of_cons & E2)]; [by left| |by eauto]. rewrite E in E2. injection E2 as -> _. done.
  - assert (rc = RC.SUCCESS) as -> by (destruct rc; done).
    pose proof (Hn name lsn ltac:(set_solver) E) as ->. fold (log_file_path d lsn).
    destruct (IH (emplace lsn (log_file_path d lsn) l)) as [H1 H2].
    + by apply emplace_sorted.
    + intros f [->|?]%emplace_elem; [done|auto].
    + intros nm k ? ?. apply Hn; [set_solver|done].
    + split; [done|]. intros f. rewrite H2. split.
      * intros [[->|?]%emplace_elem|(? & nm & ? & ?)]; [|by left|right; split; [done|]; exists nm; set_solver].
        right. split; [done|]. exists (log_file_name lsn). set_solver.
      * intros [?|(Hf & nm & [->|?]%elem_of_cons & E2)]; [left; by apply emplace_keeps| |right; eauto].
        left. rewrite E in E2. destruct f as [k p]. cbn in *. injection E2 as ->. subst p.
        destruct (emplace_key k (log_file_path d k) l) as [v Hv].
        assert (v = log_file_path d k) as ->; [|done].
        apply emplace_elem in Hv as Hv2. destruct Hv2 as [[= ->]|Hv2]; [done|by apply Hp in Hv2].
Qed.

Lemma scan_recovers d N n names :
  0 < N → Z.of_nat n * N < 2 ^ 63 →
  (∀ i, (i < n)%nat → log_file_name (Z.of_nat i * N) ∈ names) →
  (∀ name lsn, name ∈ names → get_lsn_from_filename name = (RC.SUCCESS, lsn) →
     ∃ i, (i < n)%nat ∧ lsn = Z.of_nat i * N ∧ name = log_file_name lsn) →
  scan_files d names [] = log_files_upto d N n.
Proof.
  intros HN Hb Hin Hall. destruct (scan_files_spec d names []) as [H1 H2]; [constructor|set_solver|naive_solver|].
  apply by_key_unique; [done|by apply log_files_upto_sorted|]. intros f. rewrite H2, log_files_upto_elem. split.
  - intros [?|(Hp & name & Hn & E)]; [set_solver|]. destruct (Hall _ _ Hn E) as (i & Hi & Hk & _).
    exists i. split; [done|]. destruct f; cbn in *; by subst.
  - intros (i & Hi & ->). right. split; [done|]. exists (log_file_name (Z.of_nat i * N)). split; [by apply Hin|].
    apply filename_round_trip. unfold in_srange. cbn. change (2 ^ 63) with 9223372036854775808 in Hb. nia.
Qed.
