(* ===== verification/LogHandler.v ===== *)
(** * The log handler and its flush thread

    Models [storage/clog/disk_log_handler], [LogEntryBuffer::flush] and
    [storage/clog/integrated_log_replayer].  The handler's methods are functions
    on the handler; [thread_func] is a transition system: one transition tests
    the loop's condition and opens a file if needed, one takes an entry out of
    the buffer, one writes it.  Clients may run between any two transitions, as
    the code releases the buffer's mutex there.  A client that has to wait gets
    no result yet. *)

From S2P Require Import Prelude Types Bytes Os Clog.
Local Open Scope Z_scope.

(** ** State *)

(** Where the thread is: at the head of [thread_func]'s loop, at the head of
    [flush]'s loop, holding an entry it took out of the buffer, or returned. *)
Inductive ThreadPc : Type := AtLoop | AtFlush | AtWrite (entry : LogEntry) | AtExit.

Record LogThread : Type := mkThread {
  th_pc : ThreadPc;
  th_writer : LogFileWriter;
  th_rc : RC;
  th_flush_count : Z
}.

Record DiskLogHandler : Type := mkHandler {
  thread_ : option LogThread;
  running_ : bool;
  file_manager_ : LogFileManager;
  entry_buffer_ : LogEntryBuffer
}.

Definition new_handler (m : LogFileManager) : DiskLogHandler := mkHandler None false m new_log_buffer.

Definition set_thread (t : option LogThread) (h : DiskLogHandler) : DiskLogHandler :=
  mkHandler t (running_ h) (file_manager_ h) (entry_buffer_ h).
Definition set_running (b : bool) (h : DiskLogHandler) : DiskLogHandler :=
  mkHandler (thread_ h) b (file_manager_ h) (entry_buffer_ h).
Definition set_manager (m : LogFileManager) (h : DiskLogHandler) : DiskLogHandler :=
  mkHandler (thread_ h) (running_ h) m (entry_buffer_ h).
Definition set_buffer (b : LogEntryBuffer) (h : DiskLogHandler) : DiskLogHandler :=
  mkHandler (thread_ h) (running_ h) (file_manager_ h) b.

(** ** Methods *)
Definition max_entry_number_per_file : Z := 1000.

(** [init]; see [lfm_init] for what the file system answers. *)
Definition dlh_init (path : string) (exists_ created : bool) (entries : list string) (h : DiskLogHandler) :
    RC * DiskLogHandler :=
  let '(rc, m) := lfm_init path max_entry_number_per_file exists_ created entries in
  (rc, set_manager m h).

Definition new_thread : LogThread := mkThread AtLoop new_log_writer RC.SUCCESS 0.

Definition dlh_start (h : DiskLogHandler) : RC * DiskLogHandler :=
  match thread_ h with
  | Some _ => (RC.INTERNAL, h)
  | None => (RC.SUCCESS, set_thread (Some new_thread) (set_running true h))
  end.

Definition dlh_stop (h : DiskLogHandler) : RC * DiskLogHandler :=
  match thread_ h with
  | None => (RC.INTERNAL, h)
  | Some _ => (RC.SUCCESS, set_running false h)
  end.

(** [await_termination]: [join] returns once the thread has. *)
Definition await_termination (h : DiskLogHandler) : option (RC * DiskLogHandler) :=
  match thread_ h with
  | None => Some (RC.INTERNAL, h)
  | Some t =>
      if running_ h then Some (RC.INTERNAL, h)
      else match th_pc t with
           | AtExit => Some (RC.SUCCESS, set_thread None h)
           | _ => None
           end
  end.

(** [_append]: no result while the buffer is full. *)
Definition dlh_append (lsn : LSN) (module : Z) (data : list Z) : M DiskLogHandler (option (RC * LSN)) :=
  h ← fetch;
  assertb (running_ h);;
  match buf_append lsn module data (entry_buffer_ h) with
  | None => mret None
  | Some (rc, lsn, b) => store (set_buffer b h);; mret (Some (rc, lsn))
  end.

Definition current_lsn (h : DiskLogHandler) : LSN := current_lsn_ (entry_buffer_ h).
Definition current_flushed_lsn (h : DiskLogHandler) : LSN := flushed_lsn_ (entry_buffer_ h).

(** [wait_lsn] sleeps as long as the first holds, then returns the second, which
    reads the flushed LSN again. *)
Definition wait_lsn_sleeps (lsn : LSN) (h : DiskLogHandler) : bool := running_ h && (current_flushed_lsn h <? lsn).
Definition wait_lsn_result (lsn : LSN) (h : DiskLogHandler) : RC :=
  if lsn <=? current_flushed_lsn h then RC.SUCCESS else RC.INTERNAL.

(** ** [iterate] and [replay] *)
Section replay.
Context {E : Type}.

Fixpoint iterate_files (callback : LogEntry → M E RC) (files : list string) (start_lsn : LSN) : M (OS * E) RC :=
  match files with
  | [] => mret RC.SUCCESS
  | file :: files =>
      '(rc, fd) ← in_os (rd_open file);
      if RC.OB_FAIL rc then mret rc
      else
        rc ← rd_iterate callback fd start_lsn;
        if RC.OB_FAIL rc then mret rc
        else
          rc ← in_os (rd_close fd);
          if RC.OB_FAIL rc then mret rc else iterate_files callback files start_lsn
  end.

Definition dlh_iterate (callback : LogEntry → M E RC) (start_lsn : LSN) (h : DiskLogHandler) : M (OS * E) RC :=
  iterate_files callback (list_files (file_manager_ h) start_lsn) start_lsn.
End replay.

(** [class LogReplayer] over the state [E] of what is replayed. *)
Record LogReplayer (E : Type) : Type := mkReplayer {
  replay : LogEntry → M E RC;
  on_done : M E RC
}.
Arguments mkReplayer {E}.
Arguments replay {E}.
Arguments on_done {E}.

Section replayers.
Context {E : Type}.

Definition replay_callback (replayer : LogReplayer E) (entry : LogEntry) : M (LSN * E) RC := λ '(max_lsn, e),
  '(rc, e') ← replay replayer entry e;
  Some (rc, ((if max_lsn <? le_lsn entry then le_lsn entry else max_lsn), e')).

Definition dlh_replay (replayer : LogReplayer E) (start_lsn : LSN) (h : DiskLogHandler) :
    M (OS * E) (RC * DiskLogHandler) := λ '(s, e),
  '(rc, (s', (max_lsn, e'))) ← dlh_iterate (replay_callback replayer) start_lsn h (s, (0 : LSN, e));
  Some ((rc, if RC.OB_FAIL rc then h else set_buffer (buf_init max_lsn 0 (entry_buffer_ h)) h), (s', e')).

(** [IntegratedLogReplayer]: one replayer per module; the one for transactions
    is a null pointer after the first constructor. *)
Record IntegratedLogReplayer : Type := mkIntegrated {
  buffer_pool_log_replayer_ : LogReplayer E;
  record_log_replayer_ : LogReplayer E;
  bplus_tree_log_replayer_ : LogReplayer E;
  trx_log_replayer_ : option (LogReplayer E)
}.

Definition integrated_replay (r : IntegratedLogReplayer) (entry : LogEntry) : M E RC :=
  let id := lh_module_id (header_ entry) in
  if id =? module_index MOD_BUFFER_POOL then replay (buffer_pool_log_replayer_ r) entry
  else if id =? module_index MOD_RECORD_MANAGER then replay (record_log_replayer_ r) entry
  else if id =? module_index MOD_BPLUS_TREE then replay (bplus_tree_log_replayer_ r) entry
  else if id =? module_index MOD_TRANSACTION then t ← deref (trx_log_replayer_ r); replay t entry
  else mret RC.INVALID_ARGUMENT.

Definition integrated_on_done (r : IntegratedLogReplayer) : M E RC :=
  rc ← on_done (buffer_pool_log_replayer_ r);
  if RC.OB_FAIL rc then mret rc
  else
    rc ← on_done (record_log_replayer_ r);
    if RC.OB_FAIL rc then mret rc
    else
      rc ← on_done (bplus_tree_log_replayer_ r);
      if RC.OB_FAIL rc then mret rc
      else
        t ← deref (trx_log_replayer_ r);
        rc ← on_done t;
        if RC.OB_FAIL rc then mret rc else mret RC.SUCCESS.

Definition integrated_replayer (r : IntegratedLogReplayer) : LogReplayer E :=
  mkReplayer (integrated_replay r) (integrated_on_done r).
End replayers.
Arguments IntegratedLogReplayer : clear implicits.

(** ** The flush thread *)
Definition LogSys : Type := DiskLogHandler * OS.

Definition log_os {A} (op : M OS A) : M LogSys A := λ '(h, s), '(a, s') ← op s; Some (a, (h, s')).

Definition thread_at (pc : ThreadPc) (w : LogFileWriter) (rc : RC) (count : Z) : M LogSys unit :=
  modify (λ '(h, s), (set_thread (Some (mkThread pc w rc count)) h, s)).

(** [if (rc == RC::LOG_FILE_FULL) next_file else last_file]. *)
Definition open_log_file (t : LogThread) : M LogSys (RC * LogFileWriter) :=
  '(h, _) ← fetch;
  '(rc, (m, w)) ← log_os (if decide (th_rc t = RC.LOG_FILE_FULL) then next_file (file_manager_ h) (th_writer t)
                          else last_file (file_manager_ h) (th_writer t));
  modify (λ '(h, s), (set_manager m h, s));;
  mret (rc, w).

(** A round of [thread_func] up to the call of [flush]; when the loop ends the
    writer's destructor closes its file. *)
Definition loop_step (t : LogThread) : M LogSys unit :=
  '(h, _) ← fetch;
  if running_ h || negb (bool_decide (entries_ (entry_buffer_ h) = [])) then
    if negb (fw_valid (th_writer t)) || bool_decide (th_rc t = RC.LOG_FILE_FULL) then
      '(rc, w) ← open_log_file t;
      if RC.OB_FAIL rc then thread_at AtLoop w rc (th_flush_count t) else thread_at AtFlush w rc 0
    else thread_at AtFlush (th_writer t) (th_rc t) 0
  else
    '(_, w) ← log_os (fw_close (th_writer t));
    thread_at AtExit w (th_rc t) (th_flush_count t).

Definition valid_entry (e : LogEntry) : bool := (0 <? le_lsn e) && (0 <? payload_size e).

(** The locked block of [flush]. *)
Definition pop_step (t : LogThread) : M LogSys unit :=
  '(h, _) ← fetch;
  let b := entry_buffer_ h in
  match entries_ b with
  | [] => thread_at AtLoop (th_writer t) RC.SUCCESS (th_flush_count t)
  | entry :: rest =>
      assertb (valid_entry entry);;
      modify (λ '(h, s), (set_buffer (mkLogBuffer rest (bytes_ b - total_size entry) (current_lsn_ b) (flushed_lsn_ b)
                                        (max_bytes_ b)) h, s));;
      thread_at (AtWrite entry) (th_writer t) (th_rc t) (th_flush_count t)
  end.

(** The write of [flush]: a failed entry goes back to the front. *)
Definition write_step (entry : LogEntry) (t : LogThread) : M LogSys unit :=
  '(rc, w) ← log_os (fw_write entry (th_writer t));
  '(h, _) ← fetch;
  let b := entry_buffer_ h in
  if RC.OB_FAIL rc then
    modify (λ '(h, s), (set_buffer (mkLogBuffer (entry :: entries_ b) (bytes_ b) (current_lsn_ b) (flushed_lsn_ b)
                                      (max_bytes_ b)) h, s));;
    assertb (valid_entry entry);;
    thread_at AtLoop w rc (th_flush_count t)
  else
    modify (λ '(h, s), (set_buffer (mkLogBuffer (entries_ b) (bytes_ b) (current_lsn_ b) (le_lsn entry) (max_bytes_ b)) h, s));;
    thread_at AtFlush w (th_rc t) (th_flush_count t + 1).

Definition thread_step : M LogSys unit :=
  '(h, _) ← fetch;
  match thread_ h with
  | None => mret tt
  | Some t =>
      match th_pc t with
      | AtLoop => loop_step t
      | AtFlush => pop_step t
      | AtWrite entry => write_step entry t
      | AtExit => mret tt
      end
  end.

(** ** The system: one thread and its clients

    [_append] tests [running_] before it enters the buffer's [append]: the test
    may be arbitrarily old when the entry is pushed, so the push is a transition
    that any client may take at any time.  Payloads are shorter than 2 GiB. *)
Definition push_step (lsn : LSN) (module : Z) (data : list Z) : M LogSys (option (RC * LSN)) := λ '(h, s),
  match buf_append lsn module data (entry_buffer_ h) with
  | None => Some (None, (h, s))
  | Some (rc, lsn, b) => Some (Some (rc, lsn), (set_buffer b h, s))
  end.

Inductive log_step : LogSys → LogSys → Prop :=
  | step_thread w w' : thread_step w = Some (tt, w') → log_step w w'
  | step_push lsn module data r w w' :
      Z.of_nat (length data) < 2 ^ 31 → push_step lsn (module_index module) data w = Some (r, w') → log_step w w'
  | step_start h s rc h' : dlh_start h = (rc, h') → log_step (h, s) (h', s)
  | step_stop h s rc h' : dlh_stop h = (rc, h') → log_step (h, s) (h', s)
  | step_join h s rc h' : await_termination h = Some (rc, h') → log_step (h, s) (h', s).
