(* ===== verification/LogSafety.v ===== *)
(** * The log refines a list of entries

    The invariant of the log: the files hold exactly the durable entries, entry
    by entry and file by file, and the entry the thread holds together with the
    buffer are the pending ones; LSNs number the entries from 1.  Every
    transition of the thread and of its clients is a transition of an abstract
    log whose state is the two lists. *)

From S2P Require Import Prelude Types Bytes Os Clog ClogFile LogFiles LogHandler.
Local Open Scope Z_scope.

(** ** Lists *)
Lemma filter_nothing {A} (P : A → Prop) `{!∀ x, Decision (P x)} (l : list A) : (∀ x, x ∈ l → ¬ P x) → filter P l = [].
Proof. induction l as [|x l IH]; intros H0; [done|]. rewrite filter_cons_False by (apply H0; set_solver). apply IH. set_solver. Qed.

(** ** Opening and closing *)
Lemma new_fd_pos m : 3 ≤ new_fd m.
Proof. unfold new_fd. apply (map_fold_weak_ind (λ r _, 3 ≤ r)); [lia|]. intros. lia. Qed.

Lemma next_call_head s : ∃ r l, next_call s = Some (r, set_script l s) ∧ l `suffix_of` os_script s ∧ (benign (os_script s) → ∀ e, r ≠ Some (Errno e)).
Proof.
  exists (head (os_script s)), (next_script (os_script s)). split_and!; [apply next_call_eq|apply next_script_suffix|].
  intros Hb e He. by destruct (benign_no_errno _ _ He).
Qed.

(** What opening a log file for writing may do: nothing, or a descriptor at its end. *)
Record opened_at (name : string) (s : OS) (fd : Z) (s' : OS) : Prop := {
  oa_file : os_files s' !! name = Some (content s name);
  oa_others : ∀ o, o ≠ name → os_files s' !! o = os_files s !! o;
  oa_fd : os_fds s' !! fd = Some (name, Z.of_nat (length (content s name)));
  oa_pos : 0 ≤ fd
}.

Lemma open_append_ok name s :
  ∃ fd s', sys_open_append name s = Some (fd, s') ∧ os_script s' `suffix_of` os_script s ∧
    (fd = -1 ∧ os_files s' = os_files s ∨ opened_at name s fd s') ∧ (benign (os_script s) → 0 ≤ fd).
Proof.
  destruct (next_call_head s) as (r & l & R & Hl & Hb). pose proof (new_fd_pos (os_fds s)) as Hp.
  unfold sys_open_append, sys_open. destruct r as [[k|e]|].
  2: { exists (-1), (set_script l s). split_and!; [|done|by left|intros Hc; by destruct (Hb Hc e)].
       erewrite bind_run by (rewrite (exec R); reflexivity). done. }
  all: destruct (os_files s !! name) as [c|] eqn:Hf.
  all: erewrite bind_run by (rewrite (exec R); erewrite (bind_run fetch) by done; cbn [os_files set_script];
         rewrite Hf; reflexivity).
  all: cbv beta; cbn [os_fds set_script]; rewrite (proj2 (Z.ltb_ge _ _)) by lia.
  all: unfold seek_to, content; mstep; rewrite ?lookup_insert_eq, ?Hf; cbn; eexists _, _; split_and!; [reflexivity|done| |intros _; lia].
  all: right; split; cbn; rewrite ?lookup_insert_eq; unfold content; rewrite ?Hf; try done.
  all: first [lia|intros o Ho; by rewrite ?lookup_insert_ne by done].
Qed.

Lemma close_ok fd s : ∃ r l, sys_close fd s = Some (r, set_fds (delete fd (os_fds s)) (set_script l s)) ∧ l `suffix_of` os_script s.
Proof.
  destruct (next_call_head s) as (r & l & R & Hl & _). unfold sys_close. rewrite (exec R). mstep.
  destruct (os_fds s !! fd); [destruct r as [[k|e]|]|]; eexists _, l; by split.
Qed.

Lemma fw_close_ok w s :
  ∃ rc s', fw_close w s = Some ((rc, mkLogWriter (fw_filename_ w) (if fw_fd_ w <? 0 then fw_fd_ w else -1) (last_lsn_ w) (end_lsn_ w)), s') ∧
    os_files s' = os_files s ∧ os_script s' `suffix_of` os_script s.
Proof.
  unfold fw_close. destruct (fw_fd_ w <? 0); [by destruct w; eexists _, s|].
  destruct (close_ok (fw_fd_ w) s) as (r & l & R & Hl). eexists _, _. rewrite (exec R). by split_and!.
Qed.

Lemma fw_open_ok name e w s :
  fw_fd_ w < 0 →
  ∃ rc fd s', fw_open name e w s = Some ((rc, mkLogWriter name fd (last_lsn_ w) (swrap 32 e)), s') ∧
    os_script s' `suffix_of` os_script s ∧ (benign (os_script s) → rc = RC.SUCCESS) ∧
    (rc = RC.FILE_OPEN ∧ fd = -1 ∧ os_files s' = os_files s ∨ rc = RC.SUCCESS ∧ opened_at name s fd s').
Proof.
  intros Hw. unfold fw_open. rewrite (proj2 (Z.leb_gt _ _)) by done.
  destruct (open_append_ok name s) as (fd & s' & R & Hl & Hc & Hb). rewrite (exec R).
  exists (if fd <? 0 then RC.FILE_OPEN else RC.SUCCESS), fd, s'. destruct (fd <? 0) eqn:Hfd.
  - apply Z.ltb_lt in Hfd. split_and!; [done|done|intros ?%Hb; lia|]. left. destruct Hc as [[-> ?]|Ho]; [done|].
    pose proof (oa_pos _ _ _ _ Ho). lia.
  - apply Z.ltb_ge in Hfd. split_and!; [done|done|done|]. right. destruct Hc as [[-> ?]|Ho]; [lia|done].
Qed.

(** ** The files and what they hold *)
Section log.
Context (d : string) (N : Z) (HN : 0 < N).

Definition key (i : nat) : LSN := Z.of_nat i * N.
Definition path (i : nat) : string := log_file_path d (key i).

(** The entries of file [i]. *)
Definition seg (i : nat) (D : list LogEntry) : list LogEntry := filter (λ e, key i ≤ le_lsn e < key (S i)) D.

(** Entries are numbered from 1. *)
Definition numbered (es : list LogEntry) : Prop := le_lsn <$> es = seqZ 1 (Z.of_nat (length es)).

Record dir_ok (s : OS) (m : LogFileManager) (n : nat) (D : list LogEntry) : Prop := {
  dk_manager : m = mkLogFiles d N (log_files_upto d N n);
  dk_files : ∀ i, (i < n)%nat → content s (path i) = encode_all (seg i D);
  dk_exist : ∀ i, (S i < n)%nat → is_Some (os_files s !! path i);
  dk_fresh : ∀ i, (n ≤ i)%nat → key i < 2 ^ 63 → os_files s !! path i = None;
  dk_ok : Forall entry_ok D;
  dk_lsns : numbered D;
  dk_hi : Z.of_nat (length D) < Z.max 1 (key n);
  dk_lo : key n - N ≤ Z.of_nat (length D) + 1
}.

Record writer_ok (s : OS) (w : LogFileWriter) (n : nat) (D : list LogEntry) : Prop := {
  wk_last : last_lsn_ w ≤ Z.of_nat (length D);
  wk_open : 0 ≤ fw_fd_ w → ∃ m c, n = S m ∧ os_files s !! path m = Some c ∧
              os_fds s !! fw_fd_ w = Some (path m, Z.of_nat (length c)) ∧ end_lsn_ w = key n - 1
}.

(** LSNs that the writer's [int]s can hold. *)
Definition lsn_room (z : Z) : Prop := z + N < 2 ^ 31.

Lemma key_S i : key (S i) = key i + N.
Proof. unfold key. lia. Qed.

Lemma path_inj i j : key i < 2 ^ 63 → key j < 2 ^ 63 → path i = path j → i = j.
Proof.
  unfold path, key. intros Hi Hj E. apply log_file_path_inj in E; [nia|..];
    unfold in_srange; cbn; change (2 ^ 63) with 9223372036854775808 in *; nia.
Qed.

Lemma numbered_snoc es e : numbered es → le_lsn e = Z.of_nat (length es) + 1 → numbered (es ++ [e]).
Proof.
  unfold numbered. intros H He. rewrite fmap_app, length_app, H. cbn [fmap list_fmap length].
  rewrite Nat2Z.inj_add, seqZ_app by lia. f_equal. rewrite He.
  change (seqZ (1 + Z.of_nat (length es)) (Z.of_nat 1)) with [0 + (1 + Z.of_nat (length es))]. f_equal. lia.
Qed.

Lemma numbered_app es1 es2 : numbered (es1 ++ es2) → numbered es1.
Proof.
  unfold numbered. rewrite fmap_app, length_app, Nat2Z.inj_add, seqZ_app by lia.
  intros H. apply app_inj_1 in H; [by destruct H|]. by rewrite length_fmap, length_seqZ, Nat2Z.id.
Qed.

Lemma numbered_mid es e es2 : numbered (es ++ e :: es2) → le_lsn e = Z.of_nat (length es) + 1.
Proof.
  intros H. assert ((le_lsn <$> (es ++ e :: es2)) !! length es = Some (le_lsn e)) as Hl.
  { rewrite list_lookup_fmap, lookup_app_r, Nat.sub_diag by done. done. }
  rewrite H in Hl. apply lookup_seqZ in Hl as [-> _]. lia.
Qed.

Lemma numbered_range es e : numbered es → e ∈ es → 1 ≤ le_lsn e ≤ Z.of_nat (length es).
Proof.
  intros H Hin. assert (le_lsn e ∈ le_lsn <$> es) as Hl by (by apply list_elem_of_fmap_2).
  rewrite H in Hl. apply elem_of_seqZ in Hl. lia.
Qed.

Lemma seg_join i D1 D2 : seg i (D1 ++ D2) = seg i D1 ++ seg i D2.
Proof. apply list.filter_app. Qed.

Lemma seg_in i e : key i ≤ le_lsn e < key (S i) → seg i [e] = [e].
Proof. intros. unfold seg. by rewrite filter_cons_True. Qed.

Lemma seg_out i e : ¬ (key i ≤ le_lsn e < key (S i)) → seg i [e] = [].
Proof. intros. unfold seg. by rewrite filter_cons_False. Qed.

(** Appending the next entry to the last file. *)
Lemma dir_ok_append s s' m n D e c :
  dir_ok s m (S n) D → entry_ok e → le_lsn e = Z.of_nat (length D) + 1 → le_lsn e < key (S n) → key (S n) < 2 ^ 63 →
  os_files s !! path n = Some c →
  os_files s' = <[path n := c ++ encode e]> (os_files s) →
  dir_ok s' m (S n) (D ++ [e]).
Proof.
  intros [Hm Hf Hex Hfr Hok Hl Hhi Hlo] He Hlsn Hend Hb Hc Hs.
  pose proof (key_S n) as HkS. assert (∀ i, (i < S n)%nat → key i ≤ key n) as Hkeys by (unfold key; intros; nia).
  split.
  - done.
  - intros i Hi. rewrite seg_join, encode_all_app. unfold content. rewrite Hs.
    destruct (decide (i = n)) as [->|Hne].
    + rewrite lookup_insert_eq. cbn [default]. specialize (Hf n Hi). unfold content in Hf. rewrite Hc in Hf. cbn in Hf. subst c.
      rewrite seg_in by lia. cbn. by rewrite app_nil_r.
    + rewrite lookup_insert_ne; last first.
      { intros E%path_inj; [done|lia|specialize (Hkeys i Hi); lia]. }
      rewrite <-(Hf i Hi). unfold content. rewrite seg_out; [by rewrite app_nil_r|].
      assert (key (S i) ≤ key n) by (unfold key; nia). lia.
  - intros i Hi. rewrite Hs. destruct (decide (path i = path n)) as [->|]; [by rewrite lookup_insert_eq|].
    rewrite lookup_insert_ne by done. by apply Hex.
  - intros i Hi Hk. rewrite Hs, lookup_insert_ne; [by apply Hfr|]. intros E%path_inj; lia.
  - by apply Forall_app_2; [|constructor].
  - by apply numbered_snoc.
  - rewrite length_app. cbn. lia.
  - rewrite length_app. cbn. lia.
Qed.

(** A file for the next LSN. *)
Lemma dir_ok_next s s' m n D :
  dir_ok s m n D → (n = 0%nat ∨ key n = Z.of_nat (length D) + 1) → key n < 2 ^ 63 →
  (∀ i, S i = n → is_Some (os_files s !! path i)) →
  (∀ o, o ≠ path n → os_files s' !! o = os_files s !! o) →
  content s' (path n) = [] →
  dir_ok s' (mkLogFiles d N (log_files_upto d N (S n))) (S n) D.
Proof.
  intros [Hm Hf Hex Hfr Hok Hl Hhi Hlo] Hn Hb Hlast Ho Hc. pose proof (key_S n) as HkS.
  assert (∀ i, (i < n)%nat → key i < key n) as Hkeys by (unfold key; intros; nia).
  split; [done| | | |done|done| |].
  - intros i Hi. destruct (decide (i = n)) as [->|Hne].
    + rewrite Hc. unfold seg. rewrite filter_nothing; [done|]. intros e Hin. apply numbered_range in Hin; [|done].
      destruct Hn as [->|Hn]; [change (key 0) with 0 in *|]; lia.
    + rewrite <-Hf by lia. unfold content. rewrite Ho; [done|]. intros E%path_inj; [done|specialize (Hkeys i); lia|lia].
  - intros i Hi. rewrite Ho.
    + destruct (decide (S i = n)); [by apply Hlast|]. apply Hex. lia.
    + intros E%path_inj; [lia|specialize (Hkeys i); lia|lia].
  - intros i Hi Hk. rewrite Ho; [apply Hfr; [lia|done]|]. intros E%path_inj; lia.
  - destruct Hn as [->|Hn]; [change (key 0) with 0 in *|]; lia.
  - destruct Hn as [->|Hn]; [change (key 0) with 0 in *|]; lia.
Qed.

Lemma dir_ok_files s s' m n D : dir_ok s m n D → (∀ o, content s' o = content s o) →
  (∀ o, is_Some (os_files s !! o) → is_Some (os_files s' !! o)) →
  (∀ i, (n ≤ i)%nat → key i < 2 ^ 63 → os_files s' !! path i = None) → dir_ok s' m n D.
Proof. intros [] Hc He Hn. split; [done| |auto|done|done|done|done|done]. intros i Hi. rewrite Hc. auto. Qed.

(** ** Opening a log file *)

(** The writer after an attempt to open the last of [n] files. *)
Definition reopened (s s' : OS) (n : nat) (D : list LogEntry) (rc : RC) (m' : LogFileManager) (w' : LogFileWriter) : Prop :=
  os_script s' `suffix_of` os_script s ∧ dir_ok s' m' n D ∧ writer_ok s' w' n D ∧
  (benign (os_script s) → rc = RC.SUCCESS) ∧
  (rc = RC.SUCCESS ∧ 0 ≤ fw_fd_ w' ∨ rc = RC.FILE_OPEN ∧ fw_fd_ w' = -1).

Lemma end_lsn_fits z : 0 ≤ z < 2 ^ 31 → swrap 32 z = z.
Proof. intros Hz. apply swrap_id; [lia|]. unfold in_srange. change (2 ^ (32 - 1)) with (2 ^ 31). lia. Qed.

Lemma next_file_ok s m n D w :
  dir_ok s m n D → (n = 0%nat ∨ key n = Z.of_nat (length D) + 1) → lsn_room (Z.of_nat (length D)) →
  last_lsn_ w ≤ Z.of_nat (length D) → (∀ i, S i = n → is_Some (os_files s !! path i)) →
  ∃ rc m' w' s', next_file m w s = Some ((rc, (m', w')), s') ∧ reopened s s' (S n) D rc m' w'.
Proof.
  intros Hd Hn Hroom Hlast Hex. pose proof (dk_manager _ _ _ _ Hd) as ->. unfold lsn_room in *.
  change (2 ^ 31) with 2147483648 in *.
  assert (0 ≤ key n ≤ Z.of_nat (length D) + 1) as Hkn by (destruct Hn as [->|Hn]; unfold key in *; lia).
  assert (key n < 2 ^ 63) as Hk63 by (change (2 ^ 63) with 9223372036854775808; lia).
  unfold next_file. cbn [log_files_ directory_ max_entry_number_per_file_].
  destruct (fw_close_ok w s) as (rc0 & s1 & R1 & Hf1 & Hl1). rewrite (exec R1). cbv beta iota zeta.
  set (w1 := mkLogWriter _ _ _ _). assert (fw_fd_ w1 < 0) as Hw1.
  { unfold w1. cbn. destruct (fw_fd_ w <? 0) eqn:E; [by apply Z.ltb_lt|lia]. }
  assert (match list.last (log_files_upto d N n) with Some (k, _) => k + N | None => 0 end = key n) as ->.
  { rewrite log_files_upto_last. unfold key. destruct n; [done|]. lia. }
  fold (log_file_name (key n)). fold (log_file_path d (key n)). change (log_file_path d (key n)) with (path n).
  rewrite (emplace_next d N n HN : emplace (key n) (path n) _ = _).
  destruct (fw_open_ok (path n) (key n + N - 1) w1 s1 Hw1) as (rc & fd & s2 & R2 & Hl2 & Hb2 & Hc).
  rewrite (exec R2). rewrite end_lsn_fits by (change (2 ^ 31) with 2147483648; lia).
  assert (os_files s1 !! path n = None) as Hnone by (rewrite Hf1; by apply (dk_fresh _ _ _ _ Hd)).
  assert (content s1 (path n) = []) as Hempty by (unfold content; by rewrite Hnone).
  assert (benign (os_script s) → rc = RC.SUCCESS) as Hb by (intros Hbn; apply Hb2; by eapply benign_suffix).
  eexists rc, _, _, s2. split; [done|]. unfold reopened. split; [by etrans|].
  destruct Hc as [(-> & -> & Hf2)|(-> & [Ho1 Ho2 Ho3 Ho4])].
  - split_and!; [| |done|by right].
    + eapply dir_ok_next; [done|done|done|done|by rewrite Hf2, Hf1|]. unfold content. by rewrite Hf2, Hnone.
    + split; [exact Hlast|cbn; lia].
  - split_and!; [| |done|by left].
    + eapply dir_ok_next; [done|done|done|done|intros o Ho; by rewrite Ho2, Hf1|]. unfold content. by rewrite Ho1, Hempty.
    + split; [exact Hlast|]. intros _. rewrite Hempty in *. eexists n, []. split_and!; [done|exact Ho1|exact Ho3|].
      cbn. rewrite key_S. lia.
Qed.

Lemma last_file_ok s m n D w :
  dir_ok s m n D → lsn_room (Z.of_nat (length D)) → last_lsn_ w ≤ Z.of_nat (length D) → fw_fd_ w < 0 →
  ∃ rc m' w' s', last_file m w s = Some ((rc, (m', w')), s') ∧ reopened s s' (Nat.max 1 n) D rc m' w'.
Proof.
  intros Hd Hroom Hlast Hw. pose proof (dk_manager _ _ _ _ Hd) as Hm. unfold last_file.
  assert (list.last (log_files_ m) = list.last (log_files_upto d N n)) as -> by (by rewrite Hm).
  rewrite log_files_upto_last. destruct n as [|n].
  { apply next_file_ok; [done|by left|done|done|done]. }
  replace (Nat.max 1 (S n)) with (S n) by lia. unfold lsn_room in *. change (2 ^ 31) with 2147483648 in *.
  unfold fw_close. rewrite (proj2 (Z.ltb_lt _ _)) by done. erewrite (bind_run (mret _)) by done. cbv beta iota.
  fold (key n). change (log_file_path d (key n)) with (path n).
  destruct (fw_open_ok (path n) (key n + max_entry_number_per_file_ m - 1) w s Hw) as (rc & fd & s2 & R2 & Hl2 & Hb2 & Hc).
  rewrite (exec R2). replace (max_entry_number_per_file_ m) with N by (by rewrite Hm).
  pose proof (dk_lo _ _ _ _ Hd) as Hlo. pose proof (key_S n) as HkS.
  assert (0 ≤ key n) as Hk0 by (unfold key; lia). assert (key n < 2 ^ 63) as Hk63 by (change (2 ^ 63) with 9223372036854775808; lia).
  rewrite end_lsn_fits by (change (2 ^ 31) with 2147483648; lia).
  eexists rc, m, _, s2. split; [done|]. unfold reopened. split; [done|].
  destruct Hc as [(-> & -> & Hf2)|(-> & [Ho1 Ho2 Ho3 Ho4])].
  - split_and!; [| |done|by right].
    + eapply dir_ok_files; [done|by unfold content; rewrite Hf2|by rewrite Hf2|]. rewrite Hf2. apply (dk_fresh _ _ _ _ Hd).
    + split; [exact Hlast|cbn; lia].
  - split_and!; [| |done|by left].
    + eapply dir_ok_files; [done| | |].
      * intros o. unfold content. destruct (decide (o = path n)) as [->|Hne]; [by rewrite Ho1|by rewrite Ho2].
      * intros o. destruct (decide (o = path n)) as [->|Hne]; [by rewrite Ho1|by rewrite Ho2].
      * intros i Hi Hk. rewrite Ho2; [by apply (dk_fresh _ _ _ _ Hd)|]. intros E%path_inj; lia.
    + split; [exact Hlast|]. intros _. eexists n, _. split_and!; [done|exact Ho1|exact Ho3|]. cbn. lia.
Qed.

(** ** The abstract log *)

(** Entries as [append] makes them; only those with a payload may be written. *)
Record made (e : LogEntry) : Prop := {
  md_lsn : in_srange 64 (le_lsn e);
  md_pos : 0 < le_lsn e;
  md_size : payload_size e = Z.of_nat (length (le_data e));
  md_bound : payload_size e ≤ max_payload_size;
  md_module : in_srange 32 (lh_module_id (header_ e))
}.

Lemma made_ok e : made e → valid_entry e = true → entry_ok e.
Proof. intros [] [_ Hp%Z.ltb_lt]%andb_true_iff. by split. Qed.

Definition AbsLog : Type := list LogEntry * list LogEntry.

Definition next_entry (lsn : LSN) (module : LogModuleId) (data : list Z) : LogEntry :=
  mkLogEntry (mkLogHeader lsn (Z.of_nat (length data)) (module_index module)) data.

(** Durable and pending entries: an append adds a pending entry with the next
    LSN, a flush makes the oldest pending entry durable. *)
Inductive abs_step : AbsLog → AbsLog → Prop :=
  | abs_skip a : abs_step a a
  | abs_append D P module data :
      Z.of_nat (length data) ≤ max_payload_size →
      abs_step (D, P) (D, P ++ [next_entry (Z.of_nat (length (D ++ P)) + 1) module data])
  | abs_flush D e P : abs_step (D, e :: P) (D ++ [e], P).

Definition in_flight (h : DiskLogHandler) : list LogEntry :=
  match thread_ h with Some (mkThread (AtWrite e) _ _ _) => [e] | _ => [] end.

Record thread_ok (s : OS) (t : LogThread) (n : nat) (D P : list LogEntry) : Prop := {
  tk_writer : writer_ok s (th_writer t) n D;
  tk_open : (th_pc t = AtFlush ∨ ∃ e, th_pc t = AtWrite e) → 0 ≤ fw_fd_ (th_writer t);
  tk_valid : ∀ e, th_pc t = AtWrite e → valid_entry e = true;
  tk_full : th_rc t = RC.LOG_FILE_FULL → th_pc t = AtLoop ∧ P ≠ [] ∧ key n = Z.of_nat (length D) + 1 ∧
             0 ≤ fw_fd_ (th_writer t)
}.

Record log_rel_n (n : nat) (w : LogSys) (a : AbsLog) : Prop := {
  lr_dir : dir_ok w.2 (file_manager_ w.1) n a.1;
  lr_pending : a.2 = in_flight w.1 ++ entries_ (entry_buffer_ w.1);
  lr_made : Forall made a.2;
  lr_lsns : numbered (a.1 ++ a.2);
  lr_current : current_lsn w.1 = Z.of_nat (length (a.1 ++ a.2));
  lr_flushed : current_flushed_lsn w.1 = Z.of_nat (length a.1);
  lr_thread : ∀ t, thread_ w.1 = Some t → thread_ok w.2 t n a.1 a.2
}.

Definition log_rel (w : LogSys) (a : AbsLog) : Prop := ∃ n, log_rel_n n w a.

(** A write that failed half-way may have left bytes behind. *)
Definition torn_write (w : LogSys) : Prop := ∃ t, thread_ w.1 = Some t ∧ th_rc t = RC.IOERR_WRITE.

Section transitions.
Context (n : nat) (h : DiskLogHandler) (s : OS) (D P : list LogEntry) (t : LogThread).
Context (R : log_rel_n n (h, s) (D, P)) (Ht : thread_ h = Some t) (Hroom : lsn_room (Z.of_nat (length (D ++ P)))).

Lemma room_durable : lsn_room (Z.of_nat (length D)).
Proof. unfold lsn_room in *. rewrite length_app in Hroom. lia. Qed.

(** The thread moves on with its writer and the files it left. *)
Lemma rel_thread pc w rc count s' m n' :
  th_pc t = AtLoop → pc = AtLoop ∨ pc = AtFlush ∨ pc = AtExit →
  dir_ok s' m n' D → thread_ok s' (mkThread pc w rc count) n' D P →
  log_rel_n n' (set_thread (Some (mkThread pc w rc count)) (set_manager m h), s') (D, P).
Proof.
  intros Hpc Hpc' Hd Hok. destruct R as [_ Hp Hm Hl Hcur Hfl _]. cbn in *. split; cbn; [done| |done|done|done|done|by intros t' [= <-]].
  rewrite Hp. unfold in_flight. rewrite Ht. cbn. destruct t as [pc0 w0 rc0 c0]. cbn in Hpc. subst pc0. by destruct Hpc' as [->|[->| ->]].
Qed.

Lemma rel_thread_same pc w rc count s' :
  th_pc t = AtLoop → pc = AtLoop ∨ pc = AtFlush ∨ pc = AtExit →
  dir_ok s' (file_manager_ h) n D → thread_ok s' (mkThread pc w rc count) n D P →
  log_rel_n n (set_thread (Some (mkThread pc w rc count)) h, s') (D, P).
Proof. intros Hpc Hpc' Hd Hok. pose proof (rel_thread pc w rc count s' _ n Hpc Hpc' Hd Hok) as H1. by destruct h. Qed.

Lemma open_log_file_ok :
  th_pc t = AtLoop → negb (fw_valid (th_writer t)) || bool_decide (th_rc t = RC.LOG_FILE_FULL) = true →
  ∃ rc m' w' s' n', open_log_file t (h, s) = Some ((rc, w'), (set_manager m' h, s')) ∧ reopened s s' n' D rc m' w' ∧
    (th_rc t = RC.LOG_FILE_FULL → n' = S n).
Proof.
  intros Hpc Hopen. pose proof (lr_thread _ _ _ R t Ht) as [Hw _ _ Hfull]. cbn in Hw, Hfull.
  pose proof (lr_dir _ _ _ R) as Hd. cbn in Hd. pose proof room_durable as Hr. pose proof (wk_last _ _ _ _ Hw) as Hlast.
  unfold open_log_file. erewrite (bind_run fetch) by done. cbv beta iota.
  destruct (decide (th_rc t = RC.LOG_FILE_FULL)) as [Hrc|Hrc].
  - destruct (Hfull Hrc) as (_ & _ & Hkey & Hfd). destruct (next_file_ok s _ n D (th_writer t) Hd) as (rc & m' & w' & s' & E & Hre);
      [by right|done|done|intros i Hi; destruct (wk_open _ _ _ _ Hw Hfd) as (j & c & E & Hc & _); simplify_eq; by rewrite Hc|].
    exists rc, m', w', s', (S n). split; [|by split]. erewrite bind_run by (unfold log_os; rewrite E; reflexivity). done.
  - rewrite bool_decide_eq_false_2, orb_false_r in Hopen by done. unfold fw_valid in Hopen.
    apply negb_true_iff, Z.leb_gt in Hopen.
    destruct (last_file_ok s _ n D (th_writer t) Hd) as (rc & m' & w' & s' & E & Hre); [done..|].
    exists rc, m', w', s', (Nat.max 1 n). split; [|by split]. erewrite bind_run by (unfold log_os; rewrite E; reflexivity). done.
Qed.

(** What a transition of the thread keeps, and where it leaves the thread. *)
Definition moved (w' : LogSys) (Q : LogThread → Prop) : Prop :=
  running_ w'.1 = running_ h ∧ os_script w'.2 `suffix_of` os_script s ∧ ∃ t', thread_ w'.1 = Some t' ∧ Q t'.

Lemma loop_step_ok :
  th_pc t = AtLoop →
  ∃ n' w', loop_step t (h, s) = Some (tt, w') ∧ log_rel_n n' w' (D, P) ∧
    (th_rc t = RC.LOG_FILE_FULL → P ≠ [] ∧ n' = S n) ∧
    moved w' (λ t', if running_ h || negb (bool_decide (P = []))
                    then th_pc t' = AtFlush ∨ ¬ benign (os_script s) ∧ th_pc t' = AtLoop else th_pc t' = AtExit).
Proof.
  intros Hpc. pose proof (lr_thread _ _ _ R t Ht) as Htk. pose proof (lr_pending _ _ _ R) as HP. cbn in HP, Htk.
  assert (in_flight h = []) as Hin. { unfold in_flight. rewrite Ht. destruct t; cbn in Hpc; by subst. }
  rewrite Hin in HP. cbn in HP. unfold loop_step. erewrite (bind_run fetch) by done. cbv beta iota. rewrite <-HP.
  destruct (running_ h || negb (bool_decide (P = []))) eqn:Hgo.
  - destruct (negb (fw_valid (th_writer t)) || bool_decide (th_rc t = RC.LOG_FILE_FULL)) eqn:Hopen.
    + destruct (open_log_file_ok Hpc Hopen) as (rc & m' & w' & s' & n' & E & (Hsuf & Hd & Hw & Hb & Hc) & Hn').
      rewrite (exec E). cbv beta iota. destruct Hc as [(-> & Hfd)|(-> & Hfd)].
      * eexists n', _. split; [done|]. split.
        { apply rel_thread; [done|by auto|done|]. split; cbn; [done|done|by intros|done]. }
        split; [intros Hrc; split; [by destruct (tk_full _ _ _ _ _ Htk Hrc) as (_ & ? & _)|auto]|]. split_and!; [done|done|]. eexists. split; [done|]. by left.
      * eexists n', _. split; [done|]. split.
        { apply rel_thread; [done|by auto|done|]. split; cbn; [done|by intros [|[]]|done|done]. }
        split; [intros Hrc; split; [by destruct (tk_full _ _ _ _ _ Htk Hrc) as (_ & ? & _)|auto]|]. split_and!; [done|done|]. eexists. split; [done|]. right. split; [|done]. by intros ?%Hb.
    + apply orb_false_iff in Hopen as [Hv%negb_false_iff Hrc%bool_decide_eq_false]. unfold fw_valid in Hv. apply Z.leb_le in Hv.
      eexists n, _. split; [done|]. split.
      { apply rel_thread_same; [done|by auto|apply R|].
        split; cbn; [apply Htk|done|by intros|done]. }
      split; [done|]. split_and!; [done|done|]. eexists. split; [done|]. by left.
  - destruct (fw_close_ok (th_writer t) s) as (rc0 & s1 & E & Hf & Hl).
    erewrite bind_run by (unfold log_os; rewrite E; reflexivity). cbv beta iota. eexists n, _. split; [done|]. split.
    { apply rel_thread_same; [done|by auto| |].
      - eapply dir_ok_files; [apply R|by unfold content; rewrite Hf|by rewrite Hf|]. rewrite Hf. apply (dk_fresh _ _ _ _ (lr_dir _ _ _ R)).
      - apply orb_false_iff in Hgo as [_ Hgo%negb_false_iff%bool_decide_eq_true]. split; cbn.
        + split; cbn; [apply Htk|]. destruct (fw_fd_ (th_writer t) <? 0) eqn:Hz; [apply Z.ltb_lt in Hz|]; lia.
        + by intros [|[]].
        + done.
        + intros Hrc. by destruct (tk_full _ _ _ _ _ Htk Hrc) as (_ & ? & _). }
    split; [|split_and!; [done|done|by eexists]].
    apply orb_false_iff in Hgo as [_ Hgo%negb_false_iff%bool_decide_eq_true]. intros Hrc.
    by destruct (tk_full _ _ _ _ _ Htk Hrc) as (_ & ? & _).
Qed.

Lemma pop_step_ok :
  th_pc t = AtFlush → (∀ e P', P = e :: P' → valid_entry e = true) →
  ∃ w', pop_step t (h, s) = Some (tt, w') ∧ log_rel_n n w' (D, P) ∧
    moved w' (λ t', th_pc t' = match P with [] => AtLoop | e :: _ => AtWrite e end).
Proof.
  intros Hpc Hvalid. pose proof (lr_thread _ _ _ R t Ht) as Htk. pose proof (lr_pending _ _ _ R) as HP. cbn in HP, Htk.
  assert (in_flight h = []) as Hin. { unfold in_flight. rewrite Ht. destruct t; cbn in Hpc; by subst. }
  rewrite Hin in HP. cbn in HP. unfold pop_step. erewrite (bind_run fetch) by done. cbv beta iota zeta. rewrite <-HP.
  assert (th_rc t ≠ RC.LOG_FILE_FULL) as Hnf. { intros Hrc. destruct (tk_full _ _ _ _ _ Htk Hrc) as [? _]. congruence. }
  destruct R as [Hd _ Hm Hl Hcur Hfl _]. cbn in *. destruct P as [|e P'] eqn:HeqP.
  - eexists. split; [done|]. split; [|split_and!; [done|done|by eexists]].
    split; cbn; [done|exact HP|done|done|done|done|]. intros t' [= <-]. split; cbn; [apply Htk|by intros [|[]]|by intros|done].
  - rewrite (Hvalid e P' eq_refl). eexists. split; [done|]. split; [|split_and!; [done|done|by eexists]].
    split; cbn; [done|done|done|done|done|done|]. intros t' [= <-].
    split; cbn; [apply Htk|intros _; apply (tk_open _ _ _ _ _ Htk); by left|intros ? [= <-]; by eapply Hvalid|done].
Qed.

(** The file is full: the entry goes back and a new file is due. *)
Lemma write_full_ok e P' :
  th_pc t = AtWrite e → P = e :: P' → end_lsn_ (th_writer t) < le_lsn e →
  ∃ w', write_step e t (h, s) = Some (tt, w') ∧ log_rel_n n w' (D, P) ∧ moved w' (λ t', th_pc t' = AtLoop ∧ th_rc t' = RC.LOG_FILE_FULL) ∧
    key n = Z.of_nat (length D) + 1.
Proof.
  intros Hpc HeqP Hend. pose proof (lr_thread _ _ _ R t Ht) as Htk. destruct R as [Hd HP Hm Hl Hcur Hfl _]. cbn in *.
  assert (key n = Z.of_nat (length D) + 1) as Hkey.
  { pose proof (tk_open _ _ _ _ _ Htk ltac:(eauto)) as Hfd. destruct (wk_open _ _ _ _ (tk_writer _ _ _ _ _ Htk) Hfd) as (k & c & -> & _ & _ & He).
    rewrite He in Hend. rewrite HeqP in Hl. apply numbered_mid in Hl. pose proof (dk_hi _ _ _ _ Hd) as Hhi.
    rewrite key_S in *. assert (0 ≤ key k) by (unfold key; lia). lia. }
  unfold write_step, fw_write. rewrite (proj2 (Z.ltb_lt _ _)) by done.
  erewrite bind_run by (unfold log_os; reflexivity). cbv beta iota. erewrite (bind_run fetch) by done. cbv beta iota zeta.
  change (RC.OB_FAIL RC.LOG_FILE_FULL) with true. cbv iota.
  rewrite (tk_valid _ _ _ _ _ Htk e Hpc). eexists. split; [done|]. split; [|split; [split_and!; [done|done|by eexists]|done]].
  assert (in_flight h = [e]) as Hin. { unfold in_flight. rewrite Ht. destruct t; cbn in Hpc; by subst. }
  split; cbn; [done|by rewrite HP, Hin|done|done|done|done|]. intros t' [= <-].
  split; cbn; [apply Htk|by intros [|[]]|done|]. intros _. split_and!; [done|by rewrite HeqP|done|]. apply (tk_open _ _ _ _ _ Htk). by eauto.
Qed.

(** A piece of the entry [e] is at the end of the last file. *)
Definition torn_file (s' : OS) (e : LogEntry) : Prop :=
  ∃ k c b, n = S k ∧ os_files s !! path k = Some c ∧ os_files s' = <[path k := c ++ b]> (os_files s) ∧
    torn e b ∧ le_lsn e < key n.

(** The entry is written to the last file, or torn. *)
Lemma write_entry_ok e P' :
  th_pc t = AtWrite e → P = e :: P' → le_lsn e ≤ end_lsn_ (th_writer t) →
  ∃ w', write_step e t (h, s) = Some (tt, w') ∧
    (log_rel_n n w' (D ++ [e], P') ∧ moved w' (λ t', th_pc t' = AtFlush) ∨
     torn_write w' ∧ ¬ benign (os_script s) ∧ torn_file w'.2 e).
Proof.
  intros Hpc HeqP Hend. pose proof (lr_thread _ _ _ R t Ht) as Htk. destruct R as [Hd HP Hm Hl Hcur Hfl _]. cbn in *.
  pose proof (tk_open _ _ _ _ _ Htk ltac:(eauto)) as Hfd. pose proof (tk_writer _ _ _ _ _ Htk) as Hw.
  destruct (wk_open _ _ _ _ Hw Hfd) as (k & c & -> & Hc & Hoff & He). pose proof (tk_valid _ _ _ _ _ Htk e Hpc) as Hv.
  assert (entry_ok e) as Heok. { apply made_ok; [|done]. rewrite HeqP in Hm. by apply list.Forall_cons in Hm as [? _]. }
  assert (le_lsn e = Z.of_nat (length D) + 1) as Hlsn by (rewrite HeqP in Hl; by apply numbered_mid in Hl).
  assert (in_flight h = [e]) as Hin. { unfold in_flight. rewrite Ht. destruct t; cbn in Hpc; by subst. }
  rewrite Hin in HP. cbn in HP. rewrite HeqP in HP. injection HP as HP.
  destruct (fw_write_end s (fw_fd_ (th_writer t)) (path k) c (os_script s) (th_writer t) e) as (rc & w' & b & l' & E & Hsuf & Hben & Hcase);
    [done|done|done|done|pose proof (wk_last _ _ _ _ Hw); lia|].
  unfold at_end in E. rewrite os_at_eq in E by done.
  unfold write_step. erewrite bind_run by (unfold log_os; rewrite E; reflexivity). cbv beta iota.
  erewrite (bind_run fetch) by done. cbv beta iota zeta. destruct Hcase as [(-> & -> & ->)|(-> & -> & Htorn)].
  - change (RC.OB_FAIL RC.SUCCESS) with false. cbv iota. eexists. split; [done|]. left.
    assert (key (S k) < 2 ^ 63) as Hk63.
    { pose proof (dk_lo _ _ _ _ Hd). pose proof room_durable as Hr. unfold lsn_room in Hr.
      change (2 ^ 31) with 2147483648 in Hr. change (2 ^ 63) with 9223372036854775808. lia. }
    split; [|split_and!; [done|done|by eexists]].
    split; cbn.
    + eapply (dir_ok_append s); [exact Hd|done|done|lia|done|done|done].
    + done.
    + by rewrite HeqP in Hm; apply list.Forall_cons in Hm as [_ ?].
    + rewrite <-app_assoc. by rewrite HeqP in Hl.
    + rewrite HeqP in Hcur. unfold current_lsn in *. by rewrite <-app_assoc.
    + rewrite length_app. unfold current_flushed_lsn. cbn. lia.
    + intros t' [= <-]. assert (th_rc t ≠ RC.LOG_FILE_FULL) as Hnf.
      { intros Hrc. destruct (tk_full _ _ _ _ _ Htk Hrc) as [? _]. congruence. }
      split; cbn; [|done|by intros|done]. split; cbn.
      * rewrite length_app. cbn. rewrite end_lsn_fits; [lia|]. pose proof room_durable as Hr. unfold lsn_room in Hr. lia.
      * intros _. exists k, (c ++ encode e). unfold at_end. cbn. by rewrite !lookup_insert_eq.
  - change (RC.OB_FAIL RC.IOERR_WRITE) with true. cbv iota. rewrite Hv. eexists. split; [done|]. right. split; [by eexists|].
    split; [by intros ?%Hben|]. exists k, c, b. split_and!; [done|done|done|done|]. match goal with Hn : n = S k |- _ => rewrite Hn end. lia.
Qed.

Lemma write_step_ok e P' :
  th_pc t = AtWrite e → P = e :: P' →
  ∃ w', write_step e t (h, s) = Some (tt, w') ∧
    (log_rel_n n w' (D ++ [e], P') ∧ moved w' (λ t', th_pc t' = AtFlush) ∨
     log_rel_n n w' (D, P) ∧ moved w' (λ t', th_pc t' = AtLoop ∧ th_rc t' = RC.LOG_FILE_FULL) ∧ key n = Z.of_nat (length D) + 1 ∨
     torn_write w' ∧ ¬ benign (os_script s) ∧ torn_file w'.2 e).
Proof.
  intros Hpc HP. destruct (decide (end_lsn_ (th_writer t) < le_lsn e)) as [Hlt|Hge].
  - destruct (write_full_ok e P' Hpc HP Hlt) as (w' & ? & ? & ? & ?). exists w'. split; [done|]. right. left. by split.
  - destruct (write_entry_ok e P' Hpc HP ltac:(lia)) as (w' & E & [?|?]); exists w'; (split; [done|]); [by left|by right; right].
Qed.
End transitions.

(** ** Every transition is one of the abstract log *)
Lemma module_index_range i : in_srange 32 (module_index i).
Proof. unfold in_srange. destruct i; cbn; lia. Qed.

(** [LogEntryBuffer::append] waits, refuses a payload that is too long, or queues
    the entry under the next LSN. *)
Lemma buf_append_cases lsn module data b r :
  Z.of_nat (length data) < 2 ^ 31 → buf_append lsn (module_index module) data b = r →
  max_bytes_ b ≤ bytes_ b ∧ r = None ∨
  bytes_ b < max_bytes_ b ∧ max_payload_size < Z.of_nat (length data) ∧ r = Some (RC.INVALID_ARGUMENT, lsn, b) ∨
  bytes_ b < max_bytes_ b ∧ Z.of_nat (length data) ≤ max_payload_size ∧
    r = Some (RC.SUCCESS, current_lsn_ b + 1,
              mkLogBuffer (entries_ b ++ [next_entry (current_lsn_ b + 1) module data]) (bytes_ b + LOG_HEADER_SIZE)
                (current_lsn_ b + 1) (flushed_lsn_ b) (max_bytes_ b)).
Proof.
  intros Hlen <-. unfold buf_append. destruct (max_bytes_ b <=? bytes_ b) eqn:Hb; [left; split; [by apply Z.leb_le|done]|].
  apply Z.leb_gt in Hb. right. unfold entry_init. rewrite end_lsn_fits by lia.
  destruct (max_payload_size <? Z.of_nat (length data)) eqn:Hs;
    [apply Z.ltb_lt in Hs; left; by split_and!|apply Z.ltb_ge in Hs; right; by split_and!].
Qed.

Lemma push_step_ok n lsn module data r w w' a :
  log_rel_n n w a → Z.of_nat (length data) < 2 ^ 31 → push_step lsn (module_index module) data w = Some (r, w') →
  lsn_room (current_lsn w'.1) → ∃ a', abs_step a a' ∧ log_rel_n n w' a'.
Proof.
  destruct w as [h s], a as [D P]. intros R Hlen E Hroom. unfold push_step in E.
  destruct (buf_append_cases lsn module data (entry_buffer_ h) _ Hlen eq_refl) as [(_ & Hr)|[(_ & _ & Hr)|(_ & Hmax & Hr)]];
    rewrite Hr in E; injection E as _ <-.
  - exists (D, P). split; [constructor|done].
  - exists (D, P). split; [constructor|]. by destruct h.
  - destruct R as [Hd HP Hm Hl Hcur Hfl Ht]. cbn in *. unfold current_lsn in Hcur. rewrite Hcur in *.
    eexists. split; [by apply (abs_append D P module data)|]. unfold lsn_room in Hroom. cbn in Hroom.
    change (2 ^ 31) with 2147483648 in *. split; cbn.
    + done.
    + rewrite HP, <-app_assoc. by destruct h.
    + apply Forall_app_2; [done|]. constructor; [|constructor].
      split; cbn; [|lia|done|done|apply module_index_range]. unfold in_srange, le_lsn. cbn. lia.
    + rewrite app_assoc. by apply numbered_snoc.
    + unfold current_lsn. cbn. rewrite app_assoc, (length_app _ [_]). cbn. lia.
    + exact Hfl.
    + intros t Hth. destruct (Ht t Hth) as [H1 H2 H3 H4]. split; [done..|]. intros Hrc. destruct (H4 Hrc) as (? & ? & ? & ?).
      split_and!; [done| |done|done]. by intros [? ?]%app_eq_nil.
Qed.

Lemma thread_step_ok n h s t D P w' :
  log_rel_n n (h, s) (D, P) → lsn_room (Z.of_nat (length (D ++ P))) → thread_ h = Some t →
  thread_step (h, s) = Some (tt, w') →
  (torn_write w' ∧ ∃ e P', P = e :: P' ∧ torn_file n s w'.2 e) ∨ ∃ n' a', abs_step (D, P) a' ∧ log_rel_n n' w' a'.
Proof.
  intros R Hroom Ht E. unfold thread_step in E. erewrite (bind_run fetch) in E by done. cbv beta iota in E. rewrite Ht in E.
  destruct (th_pc t) as [| |e|] eqn:Hpc.
  - destruct (loop_step_ok n h s D P t R Ht Hroom Hpc) as (n' & w2 & E2 & R2 & _ & _). rewrite E in E2. injection E2 as ->.
    right. exists n', (D, P). split; [constructor|done].
  - pose proof (lr_pending _ _ _ R) as HP. cbn in HP.
    assert (in_flight h = []) as Hin. { unfold in_flight. rewrite Ht. destruct t; cbn in Hpc; by subst. }
    destruct (pop_step_ok n h s D P t R Ht Hroom Hpc) as (w2 & E2 & R2 & _).
    { intros e P' HeqP. unfold pop_step in E. erewrite (bind_run fetch) in E by done. cbv beta iota zeta in E.
      rewrite Hin in HP. cbn in HP. rewrite <-HP, HeqP in E. destruct (valid_entry e); [done|]. by mstep. }
    rewrite E in E2. injection E2 as ->. right. exists n, (D, P). split; [constructor|done].
  - pose proof (lr_pending _ _ _ R) as HP. cbn in HP.
    assert (in_flight h = [e]) as Hin. { unfold in_flight. rewrite Ht. destruct t; cbn in Hpc; by subst. }
    rewrite Hin in HP. cbn in HP.
    destruct (write_step_ok n h s D P t R Ht Hroom e _ Hpc HP) as (w2 & E2 & Hc). rewrite E in E2. injection E2 as ->.
    destruct Hc as [(R2 & _)|[(R2 & _ & _)|(? & _ & ?)]]; [| |left; split; [done|by eexists _, _]]; right.
    + exists n, (D ++ [e], entries_ (entry_buffer_ h)). split; [|done]. rewrite HP. constructor.
    + exists n, (D, P). split; [constructor|done].
  - injection E as <-. right. exists n, (D, P). split; [constructor|done].
Qed.

(** The handler is started, stopped or joined: the log is the same. *)
Lemma rel_same n h h' s a :
  log_rel_n n (h, s) a → file_manager_ h' = file_manager_ h → entry_buffer_ h' = entry_buffer_ h →
  in_flight h' = in_flight h → (∀ t, thread_ h' = Some t → thread_ok s t n a.1 a.2) → log_rel_n n (h', s) a.
Proof.
  intros [Hd HP Hm Hl Hcur Hfl Ht] E1 E2 E3 Ht'. unfold current_lsn, current_flushed_lsn in *. cbn in *.
  split; cbn; unfold current_lsn, current_flushed_lsn; rewrite ?E1, ?E2, ?E3; done.
Qed.

Lemma new_thread_ok s n D P : thread_ok s new_thread n D P.
Proof. split; cbn; [|by intros [|[]]|done|done]. split; cbn; lia. Qed.

(** A transition after which no write has been torn and the LSNs still fit. *)
Definition calm_step (w w' : LogSys) : Prop :=
  log_step w w' ∧ lsn_room (current_lsn w.1) ∧ lsn_room (current_lsn w'.1) ∧ ¬ torn_write w'.

Lemma calm_step_ok w w' a : log_rel w a → calm_step w w' → ∃ a', abs_step a a' ∧ log_rel w' a'.
Proof.
  intros (n & R) (Hstep & Hroom & Hroom' & Hcalm).
  destruct Hstep as [[h s] w2 E|lsn module data r w1 w2 Hlen E|h s rc h' E|h s rc h' E|h s rc h' E].
  - destruct a as [D P]. cbn in Hroom. rewrite (lr_current _ _ _ R : current_lsn h = _) in Hroom. destruct (thread_ h) as [t|] eqn:Ht.
    + destruct (thread_step_ok n h s t D P w2 R Hroom Ht E) as [(? & _)|(n' & a' & ? & ?)]; [done|]. exists a'. split; [done|by exists n'].
    + unfold thread_step in E. erewrite (bind_run fetch) in E by done. cbv beta iota in E. rewrite Ht in E. injection E as <-.
      exists (D, P). split; [constructor|by exists n].
  - destruct (push_step_ok n _ _ _ _ _ _ _ R Hlen E Hroom') as (a' & ? & ?). exists a'. split; [done|by exists n].
  - exists a. split; [constructor|]. exists n. unfold dlh_start in E. destruct (thread_ h) eqn:Ht; injection E as _ <-; [done|].
    apply (rel_same n h); [done..| |]; [by unfold in_flight; rewrite Ht|]. intros t [= <-]. apply new_thread_ok.
  - exists a. split; [constructor|]. exists n. unfold dlh_stop in E. destruct (thread_ h) eqn:Ht; injection E as _ <-; [|done].
    apply (rel_same n h); [done..|]. apply (lr_thread _ _ _ R).
  - exists a. split; [constructor|]. exists n. unfold await_termination in E. destruct (thread_ h) as [t|] eqn:Ht; [|by injection E as _ <-].
    destruct (running_ h); [by injection E as _ <-|]. destruct (th_pc t) eqn:Hpc; try done. injection E as _ <-.
    apply (rel_same n h); [done..| |done]. unfold in_flight. rewrite Ht. destruct t; cbn in *; by subst.
Qed.

Lemma calm_run_ok w w' a : log_rel w a → rtc calm_step w w' → ∃ a', rtc abs_step a a' ∧ log_rel w' a'.
Proof.
  intros R Hrun. revert a R. induction Hrun as [w|w w1 w' Hs Hrun IH]; intros a R; [by exists a|].
  destruct (calm_step_ok _ _ _ R Hs) as (a1 & Ha & R1). destruct (IH a1 R1) as (a' & Ha' & R'). exists a'. split; [by eapply rtc_l|done].
Qed.

(** Durable entries stay, appended entries are never lost or reordered. *)
Lemma abs_run_grows a a' : rtc abs_step a a' → a.1 `prefix_of` a'.1 ∧ a.1 ++ a.2 `prefix_of` a'.1 ++ a'.2.
Proof.
  induction 1 as [a|a a1 a2 Hs Hr IH]; [done|]. destruct IH as [IH1 IH2].
  destruct Hs as [a|D P module data Hm|D e P]; cbn in *; [done| |].
  - split; [done|]. etrans; [|exact IH2]. rewrite app_assoc. by apply prefix_app_r.
  - split; [etrans; [|exact IH1]; by apply prefix_app_r|]. by rewrite <-app_assoc in IH2.
Qed.
End log.
