(* ===== verification/LogRecovery.v ===== *)
(** * Draining the log and starting from it

    Two ends of the log's life: after [stop] the thread writes everything that
    is pending and returns; after a restart [init] and [replay] deliver exactly
    the durable entries and continue their numbering. *)

From stdpp Require Import sorting.
From S2P Require Import Prelude Types Bytes Os Clog ClogFile LogFiles LogHandler LogSafety.
Local Open Scope Z_scope.

(** ** The thread returns *)
Fixpoint thread_run (k : nat) : M LogSys unit :=
  match k with
  | O => mret tt
  | S k => thread_step;; thread_run k
  end.

Lemma thread_run_app k1 k2 w w1 r :
  thread_run k1 w = Some (tt, w1) → thread_run k2 w1 = r → thread_run (k1 + k2) w = r.
Proof.
  revert w. induction k1 as [|k1 IH]; intros w E1 E2; cbn [thread_run Nat.add] in *; [by injection E1 as ->|].
  apply bind_Some in E1 as ([] & w2 & E & E1). rewrite (exec E). by apply IH.
Qed.

Lemma thread_run_1 w w1 : thread_step w = Some (tt, w1) → thread_run 1 w = Some (tt, w1).
Proof. intros E. cbn [thread_run]. by rewrite (exec E). Qed.

Section drain.
Context (d : string) (N : Z) (HN : 0 < N).
Notation rel := (log_rel_n d N).

Lemma thread_step_eq h s t :
  thread_ h = Some t → thread_step (h, s) =
    match th_pc t with AtLoop => loop_step t (h, s) | AtFlush => pop_step t (h, s) | AtWrite e => write_step e t (h, s) | AtExit => Some (tt, (h, s)) end.
Proof. intros Ht. unfold thread_step. erewrite (bind_run fetch) by done. cbv beta iota. rewrite Ht. by destruct (th_pc t). Qed.

(** A stopped handler whose system calls do not fail. *)
Record stopping (n : nat) (w : LogSys) (D P : list LogEntry) (Q : LogThread → Prop) : Prop := {
  sp_rel : rel n w (D, P);
  sp_room : lsn_room N (Z.of_nat (length (D ++ P)));
  sp_valid : Forall (λ e, valid_entry e = true) P;
  sp_stopped : running_ w.1 = false;
  sp_calm : benign (os_script w.2);
  sp_thread : ∃ t, thread_ w.1 = Some t ∧ Q t
}.

Lemma stopping_moved n n' w w' D P D' P' Q Q' :
  stopping n w D P Q → rel n' w' (D', P') → moved w.1 w.2 w' Q' → D' ++ P' = D ++ P → P' `suffix_of` P →
  stopping n' w' D' P' Q'.
Proof.
  intros [R Hr Hv Hs Hc _] R' (Hm1 & Hm2 & Hm3) E [k Hk]. split; [done|by rewrite E| |congruence|by eapply benign_suffix|done].
  rewrite Hk in Hv. by apply Forall_app in Hv as [_ ?].
Qed.

Lemma drain_loop n w D P Q : stopping n w D P (λ t, th_pc t = AtLoop ∧ Q t) →
  ∃ n' w', thread_step w = Some (tt, w') ∧
    stopping n' w' D P (λ t, th_pc t = if decide (P = []) then AtExit else AtFlush) ∧
    (∀ t, thread_ w.1 = Some t → th_rc t = RC.LOG_FILE_FULL → n' = S n).
Proof.
  intros Hsp. destruct w as [h s]. pose proof Hsp as [R Hroom _ Hs Hc (t & Ht & Hpc & _)]. cbn in *.
  destruct (loop_step_ok d N HN n h s D P t R Ht Hroom Hpc) as (n' & w' & E & R' & Hfull & Hm).
  exists n', w'. split; [by rewrite (thread_step_eq h s t Ht), Hpc|]. split; [|intros t' Ht' Hrc; rewrite Ht in Ht'; injection Ht' as <-; by apply Hfull].
  eapply (stopping_moved n n' (h, s)); [exact Hsp|done| |done|done].
  destruct Hm as (Hm1 & Hm2 & t' & Ht' & Hq). split_and!; [done|done|]. exists t'. split; [done|]. rewrite Hs in Hq. cbn in Hq.
  case_decide; [by rewrite bool_decide_eq_true_2 in Hq|]. rewrite bool_decide_eq_false_2 in Hq by done. by destruct Hq as [?|[??]].
Qed.

Lemma drain_pop n w D P : stopping n w D P (λ t, th_pc t = AtFlush) →
  ∃ w', thread_step w = Some (tt, w') ∧
    stopping n w' D P (λ t, th_pc t = match P with [] => AtLoop | e :: _ => AtWrite e end).
Proof.
  intros Hsp. destruct w as [h s]. pose proof Hsp as [R Hroom Hv Hs Hc (t & Ht & Hpc)]. cbn in *.
  destruct (pop_step_ok d N n h s D P t R Ht Hroom Hpc) as (w' & E & R' & Hm).
  { intros e P' ->. by apply list.Forall_cons in Hv as [? _]. }
  exists w'. split; [by rewrite (thread_step_eq h s t Ht), Hpc|]. by eapply (stopping_moved n n (h, s)).
Qed.

Lemma drain_write n w D e P : stopping n w D (e :: P) (λ t, th_pc t = AtWrite e) →
  ∃ w', thread_step w = Some (tt, w') ∧
    (stopping n w' (D ++ [e]) P (λ t, th_pc t = AtFlush) ∨
     stopping n w' D (e :: P) (λ t, th_pc t = AtLoop ∧ th_rc t = RC.LOG_FILE_FULL) ∧ key N n = Z.of_nat (length D) + 1).
Proof.
  intros Hsp. destruct w as [h s]. pose proof Hsp as [R Hroom _ Hs Hc (t & Ht & Hpc)]. cbn in *.
  destruct (write_step_ok d N HN n h s D (e :: P) t R Ht Hroom e P Hpc eq_refl) as (w' & E & Hcase).
  exists w'. split; [by rewrite (thread_step_eq h s t Ht), Hpc|]. destruct Hcase as [(R' & Hm)|[(R' & Hm & Hk)|(_ & ? & _)]]; [| |done].
  - left. eapply (stopping_moved n n (h, s)); [exact Hsp|done|done|by rewrite <-app_assoc|by exists [e]].
  - right. split; [|done]. by eapply (stopping_moved n n (h, s)).
Qed.
(** From some state the thread runs until everything is written. *)
Definition drains (w : LogSys) (D P : list LogEntry) (Q : LogThread → Prop) : Prop :=
  ∃ k n' w', thread_run k w = Some (tt, w') ∧ stopping n' w' (D ++ P) [] Q.

Lemma drains_step w w1 D P Q : thread_step w = Some (tt, w1) → drains w1 D P Q → drains w D P Q.
Proof.
  intros E (k & n' & w' & Er & Hd). exists (S k), n', w'. split; [|done]. cbn [thread_run]. by rewrite (exec E).
Qed.

(** The entry at the head of the queue takes two transitions, or five when it
    is the first of a new file. *)
Lemma drain_entry n w D e P :
  stopping n w D (e :: P) (λ t, th_pc t = AtFlush) →
  ∃ k n' w', thread_run k w = Some (tt, w') ∧ stopping n' w' (D ++ [e]) P (λ t, th_pc t = AtFlush).
Proof.
  intros H0. destruct (drain_pop _ _ _ _ H0) as (w1 & E1 & H1). destruct (drain_write _ _ _ _ _ H1) as (w2 & E2 & [H2|[H2 Hk]]).
  { exists 2%nat, n, w2. split; [|done]. eapply (thread_run_app 1 1); by apply thread_run_1. }
  destruct (sp_thread _ _ _ _ _ H2) as (t2 & Ht2 & _ & Hrc).
  destruct (drain_loop _ _ _ _ _ H2) as (n' & w3 & E3 & H3 & Hn'). rewrite (Hn' t2 Ht2 Hrc) in *. rewrite decide_False in H3 by done.
  destruct (drain_pop _ _ _ _ H3) as (w4 & E4 & H4). destruct (drain_write _ _ _ _ _ H4) as (w5 & E5 & [H5|[H5 Hk']]); last first.
  { exfalso. rewrite key_S in Hk'. lia. }
  exists 5%nat, (S n), w5. split; [|done].
  eapply (thread_run_app 2 3); [eapply (thread_run_app 1 1); by apply thread_run_1|].
  eapply (thread_run_app 1 2); [by apply thread_run_1|]. eapply (thread_run_app 1 1); by apply thread_run_1.
Qed.

Lemma drain_flush n w D P :
  stopping n w D P (λ t, th_pc t = AtFlush) → drains w D P (λ t, th_pc t = AtLoop).
Proof.
  revert n w D. induction P as [|e P IH]; intros n w D H0.
  - destruct (drain_pop _ _ _ _ H0) as (w1 & E1 & H1). exists 1%nat, n, w1. rewrite app_nil_r. split; [by apply thread_run_1|done].
  - destruct (drain_entry _ _ _ _ _ H0) as (k & n1 & w1 & E1 & H1). destruct (IH n1 w1 (D ++ [e]) H1) as (k2 & n2 & w2 & E2 & H2).
    exists (k + k2)%nat, n2, w2. split; [by eapply thread_run_app|]. by rewrite <-app_assoc in H2.
Qed.

Lemma drain_from_loop n w D P Q :
  stopping n w D P (λ t, th_pc t = AtLoop ∧ Q t) → drains w D P (λ t, th_pc t = AtExit).
Proof.
  intros H0. destruct (drain_loop _ _ _ _ _ H0) as (n1 & w1 & E1 & H1 & _). eapply drains_step; [exact E1|].
  case_decide as HP; [subst P; exists 0%nat, n1, w1; rewrite app_nil_r; by split|].
  destruct (drain_flush _ _ _ _ H1) as (k & n2 & w2 & E2 & H2).
  destruct (drain_loop n2 w2 (D ++ P) [] (λ _, True)) as (n3 & w3 & E3 & H3 & _).
  { destruct H2 as [? ? ? ? ? (t & ? & ?)]. split; [done..|]. exists t. by split_and!. }
  exists (k + 1)%nat, n3, w3. split; [eapply thread_run_app; [exact E2|by apply thread_run_1]|]. by rewrite decide_True in H3.
Qed.

Lemma drain_ok n w D P :
  stopping n w D P (λ t, th_pc t ≠ AtExit) → drains w D P (λ t, th_pc t = AtExit).
Proof.
  intros H0. destruct (sp_thread _ _ _ _ _ H0) as (t & Ht & Hpc).
  assert (∀ Q : LogThread → Prop, Q t → stopping n w D P Q) as Hq by (intros Q Hq; destruct H0; split; [done..|by exists t]).
  assert (∀ m w1 D1 P1, stopping m w1 D1 P1 (λ t, th_pc t = AtFlush) → drains w1 D1 P1 (λ t, th_pc t = AtExit)) as Hflush.
  { intros m w1 D1 P1 H1. destruct (drain_flush _ _ _ _ H1) as (k & n2 & w2 & E2 & H2).
    destruct (drain_from_loop n2 w2 (D1 ++ P1) [] (λ _, True)) as (k3 & n3 & w3 & E3 & H3).
    { destruct H2 as [? ? ? ? ? (t2 & ? & ?)]. split; [done..|]. exists t2. by split_and!. }
    exists (k + k3)%nat, n3, w3. split; [by eapply thread_run_app|]. by rewrite app_nil_r in H3. }
  destruct (th_pc t) as [| |e|] eqn:Hpct; [| | |done].
  - eapply (drain_from_loop _ _ _ _ (λ _, True)). by apply Hq.
  - eapply Hflush. by apply Hq.
  - pose proof (lr_pending _ _ _ _ _ (sp_rel _ _ _ _ _ H0)) as HP. cbn in HP. unfold in_flight in HP. rewrite Ht in HP.
    destruct t as [pc w0 rc c]. cbn in Hpct. subst pc. cbn in HP. set (P' := entries_ _) in HP. subst P.
    destruct (drain_write n w D e P') as (w2 & E2 & [H2|[H2 _]]); [by apply Hq|..]; eapply drains_step; try exact E2.
    + apply Hflush in H2 as (k & n3 & w3 & E3 & H3). exists k, n3, w3. split; [done|]. by rewrite <-app_assoc in H3.
    + exact (drain_from_loop _ _ _ _ _ H2).
Qed.
End drain.

(** ** Reading the files back *)
Section iterate.
Context {E : Type} (callback : LogEntry → M E RC).

Lemma deliver_app es1 es2 x :
  deliver callback (es1 ++ es2) x =
  match deliver callback es1 x with
  | Some (rc, x') => if RC.OB_FAIL rc then Some (rc, x') else deliver callback es2 x'
  | None => None
  end.
Proof.
  revert x. induction es1 as [|e es1 IH]; intros x; [done|]. cbn [app deliver]. unfold mbind, M_bind.
  destruct (callback e x) as [[rc x']|]; [|done]. destruct (RC.OB_FAIL rc) eqn:Hrc; [|apply IH]. cbn. by rewrite Hrc.
Qed.

Lemma iterate_files_app fs1 fs2 start w :
  iterate_files callback (fs1 ++ fs2) start w =
  match iterate_files callback fs1 start w with
  | Some (rc, w') => if RC.OB_FAIL rc then Some (rc, w') else iterate_files callback fs2 start w'
  | None => None
  end.
Proof.
  revert w. induction fs1 as [|f fs1 IH]; intros w; [done|]. cbn [app iterate_files]. unfold mbind, M_bind.
  destruct (in_os (rd_open f) w) as [[[rc fd] w1]|]; [|done]. destruct (RC.OB_FAIL rc) eqn:H1; [by cbn; rewrite H1|].
  destruct (rd_iterate callback fd start w1) as [[rc2 w2]|]; [|done]. destruct (RC.OB_FAIL rc2) eqn:H2; [by cbn; rewrite H2|].
  destruct (in_os (rd_close fd) w2) as [[rc3 w3]|]; [|done]. destruct (RC.OB_FAIL rc3) eqn:H3; [by cbn; rewrite H3|]. apply IH.
Qed.

(** The result after all entries, when the file ends with [t], torn off [e]. *)
Definition end_rc (start : LSN) (e : LogEntry) (t : list Z) : RC :=
  if decide (start ≤ le_lsn e ∧ (16 ≤ length t)%nat) then RC.IOERR_READ else RC.SUCCESS.

Lemma rd_open_ok name s c :
  os_files s !! name = Some c → benign (os_script s) →
  ∃ fd l, 0 ≤ fd ∧ rd_open name s = Some ((RC.SUCCESS, fd), os_at s fd name c 0 l) ∧ benign l.
Proof.
  intros Hc Hb. destruct (next_call_head s) as (r & l & R & Hl & Hn). specialize (Hn Hb).
  pose proof (new_fd_pos (os_fds s)) as Hp. exists (new_fd (os_fds s)), l.
  split_and!; [lia| |by eapply benign_suffix]. unfold rd_open, sys_open_read, sys_open.
  erewrite bind_run; last first.
  { rewrite (exec R). erewrite (bind_run fetch) by done. cbn [os_files set_script]. rewrite Hc.
    destruct r as [[k|e]|]; [reflexivity|by destruct (Hn e)|reflexivity]. }
  cbn [os_fds set_script]. rewrite (proj2 (Z.ltb_ge _ _)) by lia. unfold os_at. rewrite (insert_id _ _ _ Hc). by destruct s.
Qed.

Lemma rd_close_ok fd s :
  0 ≤ fd → ∃ s', rd_close fd s = Some (RC.SUCCESS, s') ∧ os_files s' = os_files s ∧ os_script s' `suffix_of` os_script s.
Proof.
  intros Hfd. unfold rd_close. rewrite (proj2 (Z.ltb_ge _ _)) by done. destruct (close_ok fd s) as (r & l & R & Hl).
  rewrite (exec R). by eexists.
Qed.

Lemma since_sorted_last start es e :
  (∀ x, x ∈ es → le_lsn x < le_lsn e) → le_lsn e < start → since start es = [].
Proof.
  intros Hlt Hs. induction es as [|x es IH]; [done|]. cbn [since].
  rewrite (proj2 (Z.leb_gt _ _)); [apply IH; set_solver|]. specialize (Hlt x ltac:(set_solver)). lia.
Qed.

(** One file, opened, read to its end and closed. *)
Lemma read_file_ok name start es e t s x :
  os_files s !! name = Some (encode_all es ++ t) → benign (os_script s) → Forall entry_ok es → torn e t →
  (∀ x, x ∈ es → le_lsn x < le_lsn e) →
  ∃ s', os_files s' = os_files s ∧ benign (os_script s') ∧
    iterate_files callback [name] start (s, x) = after (deliver callback (since start es) x) (end_rc start e t) s'.
Proof.
  intros Hf Hb Hes Ht Hlt. destruct (rd_open_ok name s _ Hf Hb) as (fd & l & Hfd & Ro & Hl).
  destruct (rd_iterate_ok s fd name (encode_all es ++ t) e t Ht callback start es 0 l x eq_refl Hfd Hl Hes)
    as (off' & l' & Hl' & Ri).
  assert (os_files (os_at s fd name (encode_all es ++ t) off' l') = os_files s) as Hsame by (cbn; by apply insert_id).
  assert ((if decide (since start es = [] ∧ le_lsn e < start) then RC.SUCCESS else tail_rc t) = end_rc start e t) as Hrc.
  { unfold end_rc, tail_rc. repeat case_decide; try done; try naive_solver lia.
    destruct (decide (start ≤ le_lsn e)); [naive_solver|]. exfalso. apply H. split; [|lia].
    eapply since_sorted_last; [done|lia]. }
  rewrite Hrc in Ri. clear Hrc. cbn [iterate_files].
  rewrite (exec (in_os_run _ _ _ _ x Ro)). cbv beta iota. change (RC.OB_FAIL RC.SUCCESS) with false. cbv iota.
  unfold mbind at 1, M_bind at 1. rewrite Ri. unfold after.
  destruct (deliver callback (since start es) x) as [[rc x']|]; [|by exists s].
  destruct (RC.OB_FAIL rc) eqn:Hrc; [rewrite Hrc; by eexists|]. destruct (RC.OB_FAIL (end_rc start e t)) eqn:Hend.
  { by eexists. }
  destruct (rd_close_ok fd (os_at s fd name (encode_all es ++ t) off' l') Hfd) as (s' & Rc & Hf' & Hl2).
  rewrite (exec (in_os_run _ _ _ _ x' Rc)). cbv iota. change (RC.OB_FAIL RC.SUCCESS) with false. cbv iota.
  exists s'. split_and!; [congruence|by eapply benign_suffix|]. unfold end_rc in *. by case_decide.
Qed.
End iterate.

(** ** Ordered entries *)
Definition lsn_lt (a b : LogEntry) : Prop := le_lsn a < le_lsn b.

Lemma numbered_sorted es : numbered es → StronglySorted lsn_lt es.
Proof.
  intros Hn. assert (∀ es a, le_lsn <$> es = seqZ a (Z.of_nat (length es)) → StronglySorted lsn_lt es) as Hgen; [|by eapply Hgen].
  clear. induction es as [|e es IH]; intros a Hn; [constructor|]. cbn [fmap list_fmap length] in Hn.
  rewrite Nat2Z.inj_succ, seqZ_cons, Z.pred_succ in Hn by lia. injection Hn as He Hes. constructor; [by eapply IH|].
  apply list.Forall_forall. intros x Hx%(list_elem_of_fmap_2 le_lsn). rewrite Hes in Hx. apply elem_of_seqZ in Hx. unfold lsn_lt. lia.
Qed.

Lemma filter_sorted {A} (R : relation A) (P : A → Prop) `{!∀ x, Decision (P x)} (l : list A) :
  StronglySorted R l → StronglySorted R (filter P l).
Proof.
  induction 1 as [|x l Hs IH Hf]; [constructor|]. destruct (decide (P x)); [rewrite filter_cons_True by done|by rewrite filter_cons_False].
  constructor; [done|]. apply list.Forall_forall. intros y [_ Hy]%list_elem_of_filter. rewrite list.Forall_forall in Hf. auto.
Qed.

Lemma filter_everything {A} (P : A → Prop) `{!∀ x, Decision (P x)} (l : list A) : (∀ x, x ∈ l → P x) → filter P l = l.
Proof. induction l as [|x l IH]; intros H0; [done|]. rewrite filter_cons_True by (apply H0; set_solver). f_equal. apply IH. set_solver. Qed.

Lemma since_filter start es : StronglySorted lsn_lt es → since start es = filter (λ e, start ≤ le_lsn e) es.
Proof.
  induction 1 as [|e es Hs IH Hf]; [done|]. cbn [since]. destruct (start <=? le_lsn e) eqn:E.
  - apply Z.leb_le in E. rewrite filter_everything; [done|]. rewrite list.Forall_forall in Hf.
    intros x [->|Hx%Hf]%elem_of_cons; [done|]. unfold lsn_lt in Hx. lia.
  - apply Z.leb_gt in E. rewrite filter_cons_False by lia. done.
Qed.

(** Cutting an ordered list in two. *)
Lemma filter_split k1 k2 es :
  k1 ≤ k2 → StronglySorted lsn_lt es →
  filter (λ e, le_lsn e < k2) es = filter (λ e, le_lsn e < k1) es ++ filter (λ e, k1 ≤ le_lsn e < k2) es.
Proof.
  intros Hk. induction 1 as [|e es Hs IH Hf]; [done|]. destruct (decide (le_lsn e < k1)) as [H1|H1].
  - rewrite !(filter_cons_True _ e) by lia. rewrite (filter_cons_False _ e) by lia. cbn. by rewrite IH.
  - rewrite (filter_cons_False (λ e, le_lsn e < k1)) by done.
    assert (filter (λ e, le_lsn e < k1) es = []) as H0.
    { apply filter_nothing. intros x Hx. rewrite list.Forall_forall in Hf. specialize (Hf x Hx). unfold lsn_lt in Hf. lia. }
    rewrite H0 in IH |- *. rewrite app_nil_l in IH |- *. destruct (decide (le_lsn e < k2)).
    + rewrite !(filter_cons_True _ e) by lia. by rewrite IH.
    + rewrite !(filter_cons_False _ e) by lia. done.
Qed.

Section files.
Context (d : string) (N : Z) (HN : 0 < N).

Lemma segs_below n es :
  StronglySorted lsn_lt es → (∀ e, e ∈ es → 0 ≤ le_lsn e) →
  concat ((λ i, seg N i es) <$> seq 0 n) = filter (λ e, le_lsn e < key N n) es.
Proof.
  intros Hs Hpos. induction n as [|n IH].
  { cbn. rewrite filter_nothing; [done|]. intros e He%Hpos. unfold key. lia. }
  rewrite seq_S, fmap_app, concat_app, IH. cbn. rewrite app_nil_r. symmetry. apply (filter_split (key N n)); [rewrite key_S; lia|done].
Qed.

Lemma segs_all n D :
  numbered D → Z.of_nat (length D) < Z.max 1 (key N n) → concat ((λ i, seg N i D) <$> seq 0 n) = D.
Proof.
  intros Hn Hhi. rewrite segs_below; [|by apply numbered_sorted|].
  - apply filter_everything. intros e He%numbered_range; [|done]. lia.
  - intros e He%numbered_range; [|done]. lia.
Qed.

(** What the listed files hold from an LSN on. *)
Lemma listed_entries n D start :
  numbered D → Z.of_nat (length D) < Z.max 1 (key N n) →
  concat ((λ i, since start (seg N i D)) <$> filter (λ i, start ≤ key N i + N - 1) (seq 0 n)) = since start D.
Proof.
  intros Hn Hhi. rewrite (since_filter start D) by (by apply numbered_sorted).
  transitivity (filter (λ e, start ≤ le_lsn e) (concat ((λ i, seg N i D) <$> seq 0 n))); [|by rewrite segs_all].
  clear Hhi. induction (seq 0 n) as [|i l IH]; [done|]. cbn [fmap list_fmap concat]. rewrite list.filter_app, <-IH.
  assert (since start (seg N i D) = filter (λ e, start ≤ le_lsn e) (seg N i D)) as Hs.
  { apply since_filter, filter_sorted. by apply numbered_sorted. }
  destruct (decide (start ≤ key N i + N - 1)).
  - rewrite filter_cons_True by done. cbn. by rewrite Hs.
  - rewrite filter_cons_False by done. rewrite (filter_nothing _ (seg N i D)); [done|].
    intros e [[_ He] _]%list_elem_of_filter. rewrite key_S in He. lia.
Qed.

Lemma list_files_eq n start :
  list_files (mkLogFiles d N (log_files_upto d N n)) start = path d N <$> filter (λ i, start ≤ key N i + N - 1) (seq 0 n).
Proof.
  unfold list_files, log_files_upto. cbn [log_files_ max_entry_number_per_file_].
  induction (seq 0 n) as [|i l IH]; [done|]. cbn [fmap list_fmap]. destruct (decide (start ≤ key N i + N - 1)).
  - rewrite !filter_cons_True by done. cbn [fmap list_fmap]. f_equal. exact IH.
  - rewrite !filter_cons_False by done. exact IH.
Qed.

(** The log on disk: [n] files that hold the entries [D], the last one followed
    by a piece [t] of the next entry [e]. *)
Record disk_log (s : OS) (n : nat) (D : list LogEntry) (e : LogEntry) (t : list Z) : Prop := {
  dl_files : ∀ i, (i < n)%nat → os_files s !! path d N i = Some (encode_all (seg N i D) ++ if decide (S i = n) then t else []);
  dl_fresh : ∀ i, (n ≤ i)%nat → key N i < 2 ^ 63 → os_files s !! path d N i = None;
  dl_ok : Forall entry_ok D;
  dl_lsns : numbered D;
  dl_hi : Z.of_nat (length D) < Z.max 1 (key N n);
  dl_lo : key N n - N ≤ Z.of_nat (length D) + 1;
  dl_torn : torn e t;
  dl_next : le_lsn e = Z.of_nat (length D) + 1;
  dl_in : t ≠ [] → le_lsn e < key N n
}.

Lemma torn_nil e t : torn e t → torn e [].
Proof. intros [He _ Hs]. split; [done|apply prefix_nil|cbn; lia]. Qed.

Lemma seg_ok i D : Forall entry_ok D → Forall entry_ok (seg N i D).
Proof. rewrite !list.Forall_forall. intros H0 x [_ Hx]%list_elem_of_filter. auto. Qed.

Section reading.
Context {E : Type} (callback : LogEntry → M E RC).

Lemma seg_older n D e s t : disk_log s n D e t → ∀ i x, x ∈ seg N i D → le_lsn x < le_lsn e.
Proof. intros H0 i x [_ Hx]%list_elem_of_filter. apply numbered_range in Hx; [|apply H0]. rewrite (dl_next _ _ _ _ _ H0). lia. Qed.

(** Files that are complete. *)
Lemma read_files_ok s0 n D e t is_ start s x :
  disk_log s0 n D e t → os_files s = os_files s0 → benign (os_script s) → Forall (λ i, (S i < n)%nat) is_ →
  ∃ s', os_files s' = os_files s0 ∧ benign (os_script s') ∧
    iterate_files callback (path d N <$> is_) start (s, x) =
    after (deliver callback (concat ((λ i, since start (seg N i D)) <$> is_)) x) RC.SUCCESS s'.
Proof.
  intros H0 Hf Hb His. revert s x Hf Hb. induction His as [|i l Hi Hl IH]; intros s x Hf Hb; [by exists s|].
  destruct (read_file_ok callback (path d N i) start (seg N i D) e [] s x) as (s1 & Hf1 & Hb1 & R1).
  - rewrite Hf, (dl_files _ _ _ _ _ H0) by lia. by rewrite decide_False by lia.
  - done.
  - apply seg_ok, H0.
  - by eapply torn_nil, H0.
  - by eapply seg_older.
  - cbn [fmap list_fmap concat]. rewrite deliver_app. change (path d N i :: ?l) with ([path d N i] ++ l).
    rewrite iterate_files_app, R1. unfold end_rc. rewrite decide_False by (cbn; lia).
    destruct (deliver callback (since start (seg N i D)) x) as [[rc x']|]; [|by exists s; rewrite Hf].
    cbn [after]. destruct (RC.OB_FAIL rc) eqn:Hrc.
    + exists s1. split_and!; [congruence|done|]. cbv iota. cbn [after]. by rewrite !Hrc.
    + change (RC.OB_FAIL RC.SUCCESS) with false. cbv iota. apply IH; [congruence|done].
Qed.

Lemma dlh_iterate_ok h s n D e t start x :
  disk_log s n D e t → file_manager_ h = mkLogFiles d N (log_files_upto d N n) → benign (os_script s) →
  ∃ s', os_files s' = os_files s ∧ benign (os_script s') ∧
    dlh_iterate callback start h (s, x) = after (deliver callback (since start D) x) (end_rc start e t) s'.
Proof.
  intros H0 Hm Hb. pose proof (dl_torn _ _ _ _ _ H0) as Ht. pose proof (dl_in _ _ _ _ _ H0) as Hin.
  unfold dlh_iterate. rewrite Hm, list_files_eq, <-(listed_entries n D start) by apply H0.
  assert (n = 0%nat ∨ key N n ≤ start → end_rc start e t = RC.SUCCESS) as Hnone.
  { intros Hc. unfold end_rc. rewrite decide_False; [done|]. intros [Hle Hlen].
    assert (t ≠ []) as Hn by (intros ->; cbn in Hlen; lia). specialize (Hin Hn).
    destruct Hc as [->|Hc]; [|lia]. pose proof (eo_pos _ (to_entry _ _ Ht)). unfold key in Hin. lia. }
  destruct n as [|m].
  { exists s. rewrite Hnone by auto. by split_and!. }
  rewrite seq_S, list.filter_app, !fmap_app, concat_app. cbn [Nat.add].
  destruct (read_files_ok s (S m) D e t (filter (λ i, start ≤ key N i + N - 1) (seq 0 m)) start s x) as (s1 & Hf1 & Hb1 & R1); [done..| |].
  { apply list.Forall_forall. intros i [_ Hi%elem_of_seq]%list_elem_of_filter. lia. }
  destruct (decide (start ≤ key N m + N - 1)) as [Hl|Hl]; last first.
  { exists s1. rewrite Hnone by (right; rewrite key_S; lia). rewrite !filter_cons_False by done. cbn [fmap list_fmap concat].
    rewrite (app_nil_r (path d N <$> _)). split_and!; [done|done|]. rewrite R1. by rewrite app_nil_r. }
  rewrite !filter_cons_True by done. rewrite !filter_nil. cbn [fmap list_fmap concat]. rewrite iterate_files_app, R1, deliver_app, app_nil_r.
  destruct (deliver callback _ x) as [[rc x']|]; [|by exists s]. cbn [after]. destruct (RC.OB_FAIL rc) eqn:Hrc.
  { exists s1. split_and!; [done|done|]. cbn. by rewrite !Hrc. }
  change (RC.OB_FAIL RC.SUCCESS) with false. cbv iota.
  destruct (read_file_ok callback (path d N m) start (seg N m D) e t s1 x') as (s2 & Hf2 & Hb2 & R2).
  - rewrite Hf1, (dl_files _ _ _ _ _ H0) by lia. by rewrite decide_True by lia.
  - done.
  - apply seg_ok, H0.
  - done.
  - by eapply seg_older.
  - exists s2. split_and!; [congruence|done|exact R2].
Qed.
End reading.

(** ** What a crash leaves on disk *)
Lemma encode_ne e : encode e ≠ [].
Proof. unfold encode. intros [Hn _]%app_eq_nil. pose proof (header_bytes_length (header_ e)) as Hl. by rewrite Hn in Hl. Qed.

Lemma encode_all_nil es : encode_all es = [] → es = [].
Proof. destruct es as [|e es]; [done|]. rewrite encode_all_cons. intros [Hn _]%app_eq_nil. by destruct (encode_ne e). Qed.

(** An entry that would come next, for a file that is not torn. *)
Definition any_next (D : list LogEntry) : LogEntry := mkLogEntry (mkLogHeader (Z.of_nat (length D) + 1) 1 0) [0].

Lemma any_next_torn D : Z.of_nat (length D) < 2 ^ 31 → torn (any_next D) [].
Proof.
  intros Hb. change (2 ^ 31) with 2147483648 in Hb. split; [|apply prefix_nil|cbn; lia].
  split; cbn; unfold in_srange, le_lsn; cbn; rewrite ?max_payload_eq; lia.
Qed.

Lemma dir_disk s m n D :
  dir_ok d N s m n D → Z.of_nat (length D) < 2 ^ 31 → key N n < 2 ^ 63 → ∃ n', (n' ≤ n)%nat ∧ disk_log s n' D (any_next D) [].
Proof.
  intros [Hm Hf Hex Hfr Hok Hl Hhi Hlo] Hb Hk. pose proof (any_next_torn D Hb) as Ht.
  assert (∀ i, (i < n)%nat → is_Some (os_files s !! path d N i) → os_files s !! path d N i = Some (encode_all (seg N i D) ++ [])) as Hfile.
  { intros i Hi [c Hc]. rewrite app_nil_r, <-Hf by done. unfold content. by rewrite Hc. }
  assert ((∃ k, n = S k ∧ os_files s !! path d N k = None) ∨ ¬ (∃ k, n = S k ∧ os_files s !! path d N k = None)) as [Hmiss|Hall].
  { destruct n as [|k]; [by right; intros (? & ? & _)|]. destruct (os_files s !! path d N k) eqn:Hp; [right|left; by exists k].
    intros (? & [= <-] & ?). congruence. }
  - destruct Hmiss as (k & -> & Hnone). exists k. split; [lia|].
    assert (seg N k D = []) as Hseg. { apply encode_all_nil. rewrite <-Hf by lia. unfold content. by rewrite Hnone. }
    rewrite key_S in *. split; [| |done|done| |lia|done|done|done].
    + intros i Hi. rewrite Hfile; [by case_decide|lia|apply Hex; lia].
    + intros i Hi Hki. destruct (decide (i = k)) as [->|]; [done|]. apply Hfr; [lia|done].
    + destruct (decide (length D = 0%nat)) as [H0|H0]; [lia|].
      destruct (last_is_Some D) as [_ Hlast]. destruct (Hlast ltac:(by intros ->)) as [x Hx].
      apply last_Some in Hx as [D' ->]. pose proof (numbered_mid D' x [] Hl) as Hlx. rewrite length_app in *. cbn in *.
      destruct (decide (key N k ≤ le_lsn x)); [|lia]. exfalso.
      assert (x ∈ seg N k (D' ++ [x])) as Hin; [|rewrite Hseg in Hin; set_solver].
      apply list_elem_of_filter. rewrite key_S. split; [lia|set_solver].
  - exists n. split; [done|]. split; [|done|done|done|done|done|done|done|done].
    intros i Hi. rewrite Hfile; [by case_decide|done|]. destruct (decide (S i = n)) as [HS|]; [|apply Hex; lia].
    destruct (os_files s !! path d N i) eqn:Hn; [done|]. exfalso. apply Hall. by exists i.
Qed.

Lemma torn_disk n s s' m D e :
  dir_ok d N s m n D → key N n < 2 ^ 63 → le_lsn e = Z.of_nat (length D) + 1 → torn_file d N n s s' e →
  ∃ t, disk_log s' n D e t.
Proof.
  intros [Hm Hf Hex Hfr Hok Hl Hhi Hlo] Hk He (k & c & b & -> & Hc & Hs & Ht & Hend). exists b.
  assert (∀ i, (i ≤ k)%nat → key N i < 2 ^ 63) as Hkeys by (intros i Hi; rewrite key_S in Hk; unfold key in *; nia).
  assert (∀ i, path d N i = path d N k → key N i < 2 ^ 63 → i = k) as Hinj by (intros i Hi Hki; by eapply path_inj; [..|exact Hi]; auto).
  split; [| |done|done|done|done|done|done|done].
  - intros i Hi. rewrite Hs. destruct (decide (i = k)) as [->|Hne].
    + rewrite lookup_insert_eq, decide_True by done. f_equal. f_equal. rewrite <-Hf by lia. unfold content. by rewrite Hc.
    + rewrite lookup_insert_ne, decide_False by (first [lia|intros Hp; symmetry in Hp; apply Hinj in Hp; [lia|apply Hkeys; lia]]).
      rewrite app_nil_r, <-Hf by lia. unfold content. destruct (Hex i ltac:(lia)) as [c' Hc']. by rewrite Hc'.
  - intros i Hi Hki. rewrite Hs, lookup_insert_ne; [by apply Hfr|]. intros Hp. symmetry in Hp. apply Hinj in Hp; [lia|done].
Qed.
End files.

(** ** Restart *)
Section restart.
Context {E : Type} (replayer : LogReplayer E).

(** The highest LSN delivered. *)
Lemma deliver_max es m x :
  deliver (replay_callback replayer) es (m, x) =
  match deliver (replay replayer) es x with
  | None => None
  | Some (rc, x') =>
      match deliver (replay_callback replayer) es (m, x) with
      | Some (rc', (m', y)) => Some (rc, (if RC.OB_FAIL rc then m' else foldl Z.max m (le_lsn <$> es), x'))
      | None => None
      end
  end.
Proof.
  revert m x. induction es as [|e es IH]; intros m x; [done|]. cbn [deliver fmap list_fmap foldl].
  unfold mbind, M_bind, replay_callback. cbn. destruct (replay replayer e x) as [[rc x']|]; [|done]. cbn.
  assert ((if m <? le_lsn e then le_lsn e else m) = Z.max m (le_lsn e)) as -> by (destruct (Z.ltb_spec m (le_lsn e)); lia).
  destruct (RC.OB_FAIL rc) eqn:Hrc; [cbn; by rewrite Hrc|]. exact (IH _ x').
Qed.

Lemma foldl_max_ge l m : m ≤ foldl Z.max m l.
Proof. revert m. induction l as [|a l IH]; intros m; cbn; [lia|]. specialize (IH (Z.max m a)). lia. Qed.

Lemma foldl_max_le l m k : (∀ a, a ∈ l → a ≤ k) → m ≤ k → foldl Z.max m l ≤ k.
Proof.
  revert m. induction l as [|a l IH]; intros m Hle Hm; cbn; [done|]. apply IH; [set_solver|].
  specialize (Hle a ltac:(set_solver)). lia.
Qed.

Lemma foldl_max_elem l m k : k ∈ l → k ≤ foldl Z.max m l.
Proof.
  revert m. induction l as [|a l IH]; intros m Hin; [set_solver|]. cbn. apply elem_of_cons in Hin as [->|Hin]; [|by apply IH].
  etrans; [|apply foldl_max_ge]. lia.
Qed.

(** The LSN at which a restarted log continues: that of the last entry that was
    read. *)
Definition resumed_lsn (start : LSN) (D : list LogEntry) : LSN :=
  if decide (start ≤ Z.of_nat (length D)) then Z.of_nat (length D) else 0.

Lemma resumed_max start D :
  numbered D → foldl Z.max 0 (le_lsn <$> since start D) = resumed_lsn start D.
Proof.
  intros Hn. rewrite since_filter by (by apply numbered_sorted). unfold resumed_lsn.
  assert (∀ a, a ∈ le_lsn <$> filter (λ e, start ≤ le_lsn e) D → start ≤ a ≤ Z.of_nat (length D)) as Hr.
  { intros a (e & -> & [Hs He]%list_elem_of_filter)%list_elem_of_fmap. apply numbered_range in He; [lia|done]. }
  case_decide as Hs.
  - apply Z.le_antisymm; [apply foldl_max_le; [intros a Ha%Hr; lia|lia]|].
    destruct D as [|e0 D0] eqn:HD; [cbn; lia|]. rewrite <-HD in *.
    destruct (last_is_Some D) as [_ Hlast]. destruct (Hlast ltac:(by subst)) as [x Hx]. apply last_Some in Hx as [D' Hx].
    rewrite Hx in Hn. pose proof (numbered_mid D' x [] Hn) as Hlx.
    assert (Z.of_nat (length D) = le_lsn x) as Hlen by (rewrite Hx, length_app; cbn; lia). rewrite Hlen in *.
    apply foldl_max_elem, list_elem_of_fmap_2, list_elem_of_filter. split; [done|]. rewrite Hx. set_solver.
  - destruct (filter _ D) as [|e l]; [done|]. exfalso. specialize (Hr (le_lsn e) ltac:(set_solver)). lia.
Qed.

(** [replay] delivers the entries from [start] on, in order, until the replayer
    fails; if all is well the buffer continues after the last of them. *)
Lemma dlh_replay_ok d N (HN : 0 < N) h s n D e t start x :
  disk_log d N s n D e t → file_manager_ h = mkLogFiles d N (log_files_upto d N n) → benign (os_script s) →
  ∃ s', os_files s' = os_files s ∧ benign (os_script s') ∧
    dlh_replay replayer start h (s, x) =
    match deliver (replay replayer) (since start D) x with
    | None => None
    | Some (rc, x') =>
        let rc := if RC.OB_FAIL rc then rc else end_rc start e t in
        Some ((rc, if RC.OB_FAIL rc then h else set_buffer (buf_init (resumed_lsn start D) 0 (entry_buffer_ h)) h), (s', x'))
    end.
Proof.
  intros H0 Hm Hb. destruct (dlh_iterate_ok d N HN (replay_callback replayer) h s n D e t start (@pair LSN E 0 x) H0 Hm Hb) as (s' & Hf & Hb' & R).
  exists s'. split_and!; [done|done|]. unfold dlh_replay. cbv beta iota. rewrite R, deliver_max. unfold after.
  assert (is_Some (deliver (replay replayer) (since start D) x) → is_Some (deliver (replay_callback replayer) (since start D) (@pair LSN E 0 x))) as Hex.
  { generalize (since start D) (0 : LSN). intros es. clear. revert x. induction es as [|e0 es IH]; intros x m; [done|]. cbn [deliver].
    unfold mbind, M_bind, replay_callback. cbn. destruct (replay replayer e0 x) as [[rc x']|]; [|done]. cbn.
    destruct (RC.OB_FAIL rc); [done|]. apply IH. }
  destruct (deliver (replay replayer) (since start D) x) as [[rc x']|]; [|done].
  destruct Hex as [[rc' [m' y]] ->]; [done|]. cbn. rewrite resumed_max by apply H0.
  destruct (RC.OB_FAIL rc) eqn:Hrc; [by rewrite Hrc|]. done.
Qed.
End restart.

(** The directory as the restarted process lists it. *)
Record listing (d : string) (s : OS) (names : list string) : Prop := {
  ls_all : ∀ name, name ∈ names ↔ is_Some (os_files s !! path_join d name);
  ls_ours : ∀ name lsn, name ∈ names → get_lsn_from_filename name = (RC.SUCCESS, lsn) →
              0 ≤ lsn < 2 ^ 63 ∧ lsn mod max_entry_number_per_file = 0 ∧ name = log_file_name lsn
}.

Lemma disk_listing d s n D e t names :
  disk_log d max_entry_number_per_file s n D e t → listing d s names → key max_entry_number_per_file n < 2 ^ 63 →
  scan_files d names [] = log_files_upto d max_entry_number_per_file n.
Proof.
  intros H0 [Hall Hours] Hk. apply scan_recovers; [done|exact Hk| |].
  - intros i Hi. apply Hall. change (path_join d (log_file_name _)) with (path d max_entry_number_per_file i).
    by rewrite (dl_files _ _ _ _ _ _ _ H0).
  - intros name lsn Hin Hn. destruct (Hours name lsn Hin Hn) as (Hr & Hmod & ->).
    assert (lsn = Z.of_nat (Z.to_nat (lsn / max_entry_number_per_file)) * max_entry_number_per_file) as Hlsn.
    { rewrite Z2Nat.id by (apply Z.div_pos; [lia|done]). unfold max_entry_number_per_file in *.
      pose proof (Z.div_mod lsn 1000). lia. }
    exists (Z.to_nat (lsn / max_entry_number_per_file)). split_and!; [|done|done].
    destruct (decide (Z.to_nat (lsn / max_entry_number_per_file) < n)%nat) as [|Hge]; [done|]. exfalso.
    apply Hall in Hin as [c Hc]. pose proof (dl_fresh _ _ _ _ _ _ _ H0 (Z.to_nat (lsn / max_entry_number_per_file)) ltac:(lia)) as Hfr.
    unfold path, key in Hfr. rewrite <-Hlsn in Hfr. unfold log_file_path in Hfr. rewrite Hfr in Hc; [done|lia].
Qed.

(** A new process: [init], then [replay]. *)
Definition restarted {E} (replayer : LogReplayer E) (d : string) (names : list string) (start : LSN) :
    M (OS * E) (RC * DiskLogHandler) :=
  let '(rc, h) := dlh_init d true true names (new_handler (mkLogFiles "" 0 [])) in
  if RC.OB_FAIL rc then mret (rc, h) else dlh_replay replayer start h.
