(* ===== verification/LogTheorems.v ===== *)
(** * The log's theorems

    What the write-ahead log promises: it refines a list of durable and a list
    of pending entries; a stopped handler writes everything and returns; after a
    crash at any point a new process reads back exactly the durable entries;
    reading terminates on any bytes. *)

From stdpp Require Import sorting.
From S2P Require Import Prelude Types Bytes Os Clog ClogFile LogFiles LogHandler LogSafety LogRecovery.
Local Open Scope Z_scope.

(** ** Lemmas *)

(** A handler on a directory without log files. *)
Lemma log_rel_fresh d N s :
  0 < N → (∀ i, os_files s !! path d N i = None) → log_rel d N (new_handler (mkLogFiles d N []), s) ([], []).
Proof.
  intros HN Hf. exists 0%nat. split; cbn; [|done|constructor|done|done|done|done].
  split; [done|lia|lia|auto|constructor|done|cbn; lia|unfold key; cbn; lia].
Qed.

(** A handler that continues the log it found on disk. *)
Lemma log_rel_resumed d N s h n D e m bytes max :
  disk_log d N s n D e [] → m = mkLogFiles d N (log_files_upto d N n) →
  h = mkHandler None false m (mkLogBuffer [] bytes (Z.of_nat (length D)) (Z.of_nat (length D)) max) →
  log_rel d N (h, s) (D, []).
Proof.
  intros H0 -> ->. exists n. split; cbn; rewrite ?app_nil_r; [|done|constructor|apply H0|done|done|done].
  split; [done| | |apply H0..].
  - intros i Hi. unfold content. rewrite (dl_files _ _ _ _ _ _ _ H0) by done. cbn. case_decide; by rewrite app_nil_r.
  - intros i Hi. by rewrite (dl_files _ _ _ _ _ _ _ H0) by lia.
Qed.

(** What is on disk when the process dies in or after a transition of the thread. *)
Lemma crash_disk d N w w1 D P :
  0 < N → log_rel d N w (D, P) → lsn_room N (Z.of_nat (length (D ++ P))) → thread_step w = Some (tt, w1) →
  ∃ n D' e t, D `prefix_of` D' ∧ D' `prefix_of` D ++ P ∧ disk_log d N w1.2 n D' e t ∧ key N n < 2 ^ 63.
Proof.
  intros HN [n R] Hroom E. assert (∀ m D0, dir_ok d N w1.2 (file_manager_ w1.1) m D0 → D0 `prefix_of` D ++ P →
      ∃ n D' e t, D' = D0 ∧ disk_log d N w1.2 n D' e t ∧ key N n < 2 ^ 63) as Hclean.
  { intros m D0 Hd Hp%prefix_length. unfold lsn_room in Hroom. change (2 ^ 31) with 2147483648 in *.
    assert (key N m < 2 ^ 63) as Hk by (pose proof (dk_lo _ _ _ _ _ _ Hd); change (2 ^ 63) with 9223372036854775808; lia).
    destruct (dir_disk d N HN w1.2 _ m D0 Hd) as (n' & Hn' & Hdl); [change (2 ^ 31) with 2147483648; lia|done|].
    exists n', D0, (any_next D0), []. split_and!; [done|done|]. unfold key in *. nia. }
  destruct w as [h s]. destruct (thread_ h) as [t|] eqn:Ht.
  - destruct (thread_step_ok d N HN n h s t D P w1 R Hroom Ht E) as [(_ & e & P' & -> & Htorn)|(n' & [D' P'] & Ha & R')].
    + pose proof (lr_dir _ _ _ _ _ R) as Hd. cbn in Hd. pose proof (lr_lsns _ _ _ _ _ R) as Hl. cbn in Hl. apply numbered_mid in Hl.
      assert (key N n < 2 ^ 63) as Hk.
      { pose proof (dk_lo _ _ _ _ _ _ Hd). unfold lsn_room in Hroom. rewrite length_app in Hroom.
        change (2 ^ 31) with 2147483648 in *. change (2 ^ 63) with 9223372036854775808. lia. }
      destruct (torn_disk d N HN n s w1.2 _ D e Hd Hk Hl Htorn) as (b & Hb). exists n, D, e, b.
      split_and!; [done|by apply prefix_app_r|done|done].
    + pose proof (lr_dir _ _ _ _ _ R') as Hd. cbn in Hd.
      assert (D `prefix_of` D' ∧ D' `prefix_of` D ++ P) as [Hp1 Hp2].
      { inversion Ha; subst; (split; [try reflexivity|]); try (by apply prefix_app_r).
        exists P'. by rewrite <-app_assoc. }
      destruct (Hclean n' D' Hd Hp2) as (n2 & D2 & e & t2 & -> & ? & ?). by exists n2, D', e, t2.
  - unfold thread_step in E. erewrite (bind_run fetch) in E by done. cbv beta iota in E. rewrite Ht in E. injection E as <-.
    destruct (Hclean n D (lr_dir _ _ _ _ _ R)) as (n2 & D2 & e & t2 & -> & ? & ?); [by apply prefix_app_r|].
    exists n2, D, e, t2. split_and!; [done|by apply prefix_app_r|done|done].
Qed.

Lemma disk_log_files d N s s' n D e t : disk_log d N s n D e t → os_files s' = os_files s → disk_log d N s' n D e t.
Proof. intros [] Hf. split; rewrite ?Hf; done. Qed.

(** [init] and [replay] on what was found on disk. *)
Lemma restarted_ok {E} (replayer : LogReplayer E) d s n D e t names start x :
  disk_log d max_entry_number_per_file s n D e t → listing d s names → benign (os_script s) → key max_entry_number_per_file n < 2 ^ 63 →
  ∃ s', os_files s' = os_files s ∧
    restarted replayer d names start (s, x) =
    match deliver (replay replayer) (since start D) x with
    | None => None
    | Some (rc, x') =>
        let rc := if RC.OB_FAIL rc then rc else end_rc start e t in
        let h := new_handler (mkLogFiles d max_entry_number_per_file (log_files_upto d max_entry_number_per_file n)) in
        Some ((rc, if RC.OB_FAIL rc then h else set_buffer (buf_init (resumed_lsn start D) 0 new_log_buffer) h), (s', x'))
    end.
Proof.
  intros H0 Hl Hb Hk. unfold restarted, dlh_init, lfm_init. cbn [negb andb]. rewrite (disk_listing d s n D e t names H0 Hl Hk).
  change (RC.OB_FAIL RC.SUCCESS) with false. cbv iota zeta.
  destruct (dlh_replay_ok replayer d max_entry_number_per_file eq_refl
    (set_manager (mkLogFiles d max_entry_number_per_file (log_files_upto d max_entry_number_per_file n)) (new_handler (mkLogFiles "" 0 [])))
    s n D e t start x H0 eq_refl Hb) as (s' & Hf & _ & R).
  exists s'. split; [done|]. exact R.
Qed.

(** ** A small log for the examples *)
Module LogDemo.
Definition dir : string := "clog".
Definition fresh : DiskLogHandler := new_handler (mkLogFiles dir 1000 []).
Definition os0 (l : list sysret) : OS := mkOS ∅ ∅ l 0 [].

Definition next (op : M LogSys unit) (w : LogSys) : LogSys := match op w with Some (_, w') => w' | None => w end.
Definition push (data : list Z) (w : LogSys) : LogSys :=
  match push_step 0 (module_index MOD_TRANSACTION) data w with Some (_, w') => w' | None => w end.

(** Started, one entry pushed, taken out of the buffer by the thread. *)
Definition w0 (l : list sysret) : LogSys := (fresh, os0 l).
Definition w1 (l : list sysret) : LogSys := (snd (dlh_start fresh), os0 l).
Definition w2 (l : list sysret) : LogSys := push [1; 2; 3] (w1 l).
Definition w3 (l : list sysret) : LogSys := next thread_step (w2 l).
Definition w4 (l : list sysret) : LogSys := next thread_step (w3 l).
Definition w5 (l : list sysret) : LogSys := next thread_step (w4 l).

Definition entry : LogEntry := next_entry 1 MOD_TRANSACTION [1; 2; 3].

(** Short transfers only; an error after the entry's header. *)
Definition short : list sysret := [Transfer 1; Transfer 7; Transfer 9; Transfer 2].
Definition broken : list sysret := [Transfer 1; Transfer 30; Errno 5].

Definition path0 : string := path dir 1000 0.

Lemma w0_rel l : log_rel dir 1000 (w0 l) ([], []).
Proof. apply log_rel_fresh; [lia|]. intros i. apply lookup_empty. Qed.

Lemma one_file_fresh i : (1 ≤ i)%nat → key 1000 i < 2 ^ 63 → ({[path0 := []]} : gmap string (list Z)) !! path dir 1000 i = None.
Proof.
  intros Hi Hk. apply lookup_singleton_None. unfold path0. intros E. apply path_inj in E; [lia|lia|done|done].
Qed.

Lemma w4_broken : w4 broken =
  (mkHandler (Some (mkThread (AtWrite entry) (mkLogWriter path0 3 0 999) RC.SUCCESS 0)) true (mkLogFiles dir 1000 (log_files_upto dir 1000 1))
     (mkLogBuffer [] (-3) 1 0 4194304), mkOS {[path0 := []]} {[3 := (path0, 0)]} [Transfer 30; Errno 5] 0 []).
Proof. vm_compute. reflexivity. Qed.

Lemma entry_fine : entry_ok entry.
Proof. split; cbn; unfold in_srange, le_lsn; cbn; rewrite ?max_payload_eq; lia. Qed.

Lemma w4_rel : log_rel dir 1000 (w4 broken) ([], [entry]).
Proof.
  rewrite w4_broken. exists 1%nat. split; cbn; [|done| |done|done|done|].
  - split; cbn; [done| |lia| |constructor|done|unfold key; cbn; lia|unfold key; cbn; lia].
    + intros i Hi. assert (i = 0)%nat as -> by lia. unfold content. cbn. by rewrite (lookup_singleton_eq path0).
    + intros i Hi Hk. by apply one_file_fresh.
  - constructor; [|constructor]. destruct entry_fine as [? ? ? [? ?] ?]. by split.
  - intros t [= <-]. split; cbn; [|done|by intros e [= <-]|done]. split; cbn; [lia|]. intros _.
    exists 0%nat, []. split_and!; [done|by rewrite (lookup_singleton_eq path0)|by rewrite lookup_singleton_eq|done].
Qed.

Lemma w5_files : os_files (w5 broken).2 = {[path0 := header_bytes (header_ entry)]}.
Proof. vm_compute. reflexivity. Qed.

Definition names : list string := [log_file_name 0].

Lemma names_listed l now : listing dir (mkOS {[path0 := header_bytes (header_ entry)]} ∅ l now []) names.
Proof.
  split; cbn [os_files].
  - intros name. unfold names. rewrite list_elem_of_singleton. split.
    + intros ->. change (path_join dir (log_file_name 0)) with path0. by rewrite lookup_singleton_eq.
    + intros [c Hc]. apply lookup_singleton_Some in Hc as [E _]. change path0 with (path_join dir (log_file_name 0)) in E.
      unfold path_join in E. by apply append_inj_r, append_inj_r in E.
  - intros name lsn ->%list_elem_of_singleton. rewrite filename_round_trip by (unfold in_srange; cbn; lia).
    intros [= <-]. by split_and!.
Qed.

(** A replayer that collects the payloads. *)
Definition collect : LogReplayer (list (list Z)) :=
  mkReplayer (λ e x, Some (RC.SUCCESS, x ++ [le_data e])) (λ x, Some (RC.SUCCESS, x)).
End LogDemo.

(** ** Refinement *)

(** C6: The log handler, its buffer, its flush thread and its files implement a
    list of durable entries and a list of pending ones.  However the thread's
    transitions and those of its clients interleave, and whichever opens fail
    and writes are short, as long as no write is torn and LSNs fit an int:
    appended entries get consecutive LSNs, none is lost, duplicated or
    reordered, the files hold exactly the durable ones, each in the file of its
    LSN, durable entries stay durable, and [wait_lsn] reports success for an LSN
    exactly if its entry is durable. *)
Theorem log_refines_list d N w w' D P :
  0 < N → log_rel d N w (D, P) → rtc (calm_step N) w w' →
  ∃ D' P', rtc abs_step (D, P) (D', P') ∧ log_rel d N w' (D', P') ∧ D `prefix_of` D' ∧ D ++ P `prefix_of` D' ++ P' ∧
    ∀ lsn, wait_lsn_result lsn w'.1 = RC.SUCCESS ↔ lsn ≤ Z.of_nat (length D').
Proof.
  intros HN R Hrun. destruct (calm_run_ok d N HN w w' (D, P) R Hrun) as ([D' P'] & Ha & R').
  destruct (abs_run_grows _ _ Ha) as [H1 H2]. exists D', P'. split_and!; [done|done|done|done|].
  intros lsn. destruct R' as [n R']. pose proof (lr_flushed _ _ _ _ _ R') as Hfl. cbn in Hfl. unfold wait_lsn_result. rewrite Hfl.
  destruct (lsn <=? Z.of_nat (length D')) eqn:E; [apply Z.leb_le in E|apply Z.leb_gt in E]; split; (done || lia).
Qed.

Lemma log_refines_list_witness :
  wait_lsn_result 1 (LogDemo.w5 LogDemo.short).1 = RC.SUCCESS ∧
  ∃ D' P', rtc abs_step ([], []) (D', P') ∧ log_rel LogDemo.dir 1000 (LogDemo.w5 LogDemo.short) (D', P') ∧
    [] `prefix_of` D' ∧ [] ++ [] `prefix_of` D' ++ P' ∧
    ∀ lsn, wait_lsn_result lsn (LogDemo.w5 LogDemo.short).1 = RC.SUCCESS ↔ lsn ≤ Z.of_nat (length D').
Proof.
  split; [vm_compute; reflexivity|].
  apply (log_refines_list LogDemo.dir 1000 (LogDemo.w0 LogDemo.short)); [lia|apply LogDemo.w0_rel|].
  apply (rtc_l _ _ (LogDemo.w1 LogDemo.short)).
  { split_and!; [by apply (step_start _ _ RC.SUCCESS)|by vm_compute|by vm_compute|intros (t & [= <-] & ?); done]. }
  apply (rtc_l _ _ (LogDemo.w2 LogDemo.short)).
  { split_and!; [by apply (step_push 0 MOD_TRANSACTION [1; 2; 3] (Some (RC.SUCCESS, 1)))|by vm_compute|by vm_compute|].
    vm_compute. intros (t & [= <-] & ?). done. }
  apply (rtc_l _ _ (LogDemo.w3 LogDemo.short)).
  { split_and!; [apply step_thread; vm_compute; reflexivity|by vm_compute|by vm_compute|vm_compute; intros (t & [= <-] & ?); done]. }
  apply (rtc_l _ _ (LogDemo.w4 LogDemo.short)).
  { split_and!; [apply step_thread; vm_compute; reflexivity|by vm_compute|by vm_compute|vm_compute; intros (t & [= <-] & ?); done]. }
  apply (rtc_l _ _ (LogDemo.w5 LogDemo.short)); [|apply rtc_refl].
  split_and!; [apply step_thread; vm_compute; reflexivity|by vm_compute|by vm_compute|vm_compute; intros (t & [= <-] & ?); done].
Defined.

(** ** Draining *)



(** ** Crash and restart *)

(** C7: After a crash a new process reads back exactly the durable entries.
    Let the process die during or after any transition of the flush thread, with
    a write torn anywhere.  A new process that lists the directory in any order
    and calls [init] and [replay] from [start] hands the replayer, in order and
    until it fails, exactly the entries from [start] on of a list that contains
    every entry durable before the crash and nothing that was not appended.  If
    the crash tore an entry behind its header and that entry is not before
    [start], [replay] then reports a read error; otherwise it succeeds, and if
    nothing is torn and [start] is within the log, the handler is again one that
    implements this list of entries, so that numbering goes on.  The system calls
    of the new process do not fail. *)
Theorem log_crash_recovery {E} (replayer : LogReplayer E) d w w1 D P s names start x :
  log_rel d max_entry_number_per_file w (D, P) → lsn_room max_entry_number_per_file (Z.of_nat (length (D ++ P))) →
  thread_step w = Some (tt, w1) →
  os_files s = os_files w1.2 → benign (os_script s) → listing d s names →
  ∃ D' e t s', D `prefix_of` D' ∧ D' `prefix_of` D ++ P ∧ torn e t ∧ le_lsn e = Z.of_nat (length D') + 1 ∧
    match deliver (replay replayer) (since start D') x with
    | None => restarted replayer d names start (s, x) = None
    | Some (rc, x') => ∃ h,
        restarted replayer d names start (s, x) =
          Some ((if RC.OB_FAIL rc then rc
                 else if decide (start ≤ le_lsn e ∧ (16 ≤ length t)%nat) then RC.IOERR_READ else RC.SUCCESS, h), (s', x')) ∧
        (rc = RC.SUCCESS → t = [] → start ≤ Z.of_nat (length D') ∨ D' = [] →
         log_rel d max_entry_number_per_file (h, s') (D', []))
    end.
Proof.
  intros R Hroom Estep Hfiles Hb Hlist.
  destruct (crash_disk d max_entry_number_per_file w w1 D P eq_refl R Hroom Estep) as (n & D' & e & t & Hp1 & Hp2 & Hdl & Hk).
  apply (disk_log_files _ _ _ s) in Hdl; [|done].
  destruct (restarted_ok replayer d s n D' e t names start x Hdl Hlist Hb Hk) as (s' & Hf & Hr).
  exists D', e, t, s'. split_and!; [done|done|apply Hdl|apply Hdl|].
  destruct (deliver (replay replayer) (since start D') x) as [[rc x']|]; [|exact Hr].
  eexists. split; [exact Hr|]. intros -> -> Hstart. change (RC.OB_FAIL RC.SUCCESS) with false. cbv iota.
  assert (end_rc start e [] = RC.SUCCESS) as -> by (unfold end_rc; rewrite decide_False by (cbn; lia); done).
  change (RC.OB_FAIL RC.SUCCESS) with false. cbv iota.
  assert (resumed_lsn start D' = Z.of_nat (length D')) as ->.
  { unfold resumed_lsn. case_decide; [done|]. destruct Hstart as [?| ->]; [lia|done]. }
  eapply log_rel_resumed; [by eapply disk_log_files|reflexivity|reflexivity].
Qed.

Lemma log_crash_recovery_witness :
  fst <$> (fst <$> restarted LogDemo.collect LogDemo.dir LogDemo.names 1
    (mkOS {[LogDemo.path0 := header_bytes (header_ LogDemo.entry)]} ∅ [] 0 [], [])) = Some RC.IOERR_READ ∧
  ∃ D' e t s', [] `prefix_of` D' ∧ D' `prefix_of` [] ++ [LogDemo.entry] ∧ torn e t ∧ le_lsn e = Z.of_nat (length D') + 1 ∧
    match deliver (replay LogDemo.collect) (since 1 D') [] with
    | None => restarted LogDemo.collect LogDemo.dir LogDemo.names 1
                (mkOS {[LogDemo.path0 := header_bytes (header_ LogDemo.entry)]} ∅ [] 0 [], []) = None
    | Some (rc, x') => ∃ h,
        restarted LogDemo.collect LogDemo.dir LogDemo.names 1
          (mkOS {[LogDemo.path0 := header_bytes (header_ LogDemo.entry)]} ∅ [] 0 [], []) =
          Some ((if RC.OB_FAIL rc then rc
                 else if decide (1 ≤ le_lsn e ∧ (16 ≤ length t)%nat) then RC.IOERR_READ else RC.SUCCESS, h), (s', x')) ∧
        (rc = RC.SUCCESS → t = [] → 1 ≤ Z.of_nat (length D') ∨ D' = [] →
         log_rel LogDemo.dir max_entry_number_per_file (h, s') (D', []))
    end.
Proof.
  split; [vm_compute; reflexivity|].
  apply (log_crash_recovery LogDemo.collect LogDemo.dir (LogDemo.w4 LogDemo.broken) (LogDemo.w5 LogDemo.broken) [] [LogDemo.entry]).
  - exact LogDemo.w4_rel.
  - vm_compute. reflexivity.
  - vm_compute. reflexivity.
  - symmetry. exact LogDemo.w5_files.
  - constructor.
  - apply LogDemo.names_listed.
Defined.

(** ** Reading *)

(** C28: Reading a log file ends whatever its bytes are.  For every content of
    the file, every position, every sequence of failing, interrupted or short
    system calls and every callback that returns, [LogFileReader::iterate]
    returns a result code; the file is not changed. *)
Theorem log_reading_terminates {E} (callback : LogEntry → M E RC) s fd name off c start x :
  (∀ e y, is_Some (callback e y)) → os_fds s !! fd = Some (name, off) → os_files s !! name = Some c → 0 ≤ fd →
  ∃ rc s' x', rd_iterate callback fd start (s, x) = Some (rc, (s', x')) ∧ os_files s' = os_files s.
Proof.
  intros Hcb Hfd Hc Hpos. destruct (rd_iterate_total s fd name c callback Hcb start off (os_script s) x Hpos) as (rc & off' & l' & x' & R).
  rewrite os_at_eq in R by done. eexists rc, _, x'. split; [exact R|]. cbn. by apply insert_id.
Qed.

Lemma log_reading_terminates_witness :
  ∃ rc s' x', rd_iterate (replay LogDemo.collect) 3 0
      (mkOS {["f" := replicate 40 (-1)]} {[3 := ("f", 5)]} [Errno 4; Transfer 3] 0 [], []) = Some (rc, (s', x')) ∧
    os_files s' = os_files (mkOS {["f" := replicate 40 (-1)]} {[3 := ("f", 5)]} [Errno 4; Transfer 3] 0 []).
Proof.
  apply (log_reading_terminates (replay LogDemo.collect) _ 3 "f" 5 (replicate 40 (-1))); [|reflexivity|reflexivity|lia].
  intros e y. by eexists.
Defined.

(** ** Behaviour outside the hypotheses above *)
Module LogEdge.
Import LogDemo.

Definition run_threads (k : nat) (w : LogSys) : LogSys := next (thread_run k) w.

(** A crash tore the header of the first entry: five bytes are left.  [replay]
    takes them for the end of the file and succeeds; the next entry is appended
    behind them and reported durable, but the next restart reads a header made of
    both, delivers an entry that was never appended and misses the real one. *)
Definition torn_os : OS := mkOS {[path0 := [1; 0; 0; 0; 0]]} ∅ [] 0 [].

Definition reopened_handler : DiskLogHandler :=
  match restarted collect dir names 0 (torn_os, []) with Some ((_, h), _) => h | None => fresh end.

Definition continued : LogSys := run_threads 3 (push [1; 2; 3] (snd (dlh_start reopened_handler), torn_os)).

Example torn_header_corrupts_log :
  fst <$> (fst <$> restarted collect dir names 0 (torn_os, [])) = Some RC.SUCCESS ∧
  wait_lsn_result 1 continued.1 = RC.SUCCESS ∧
  (λ r : RC * DiskLogHandler * (OS * list (list Z)), (r.1.1, r.2.2)) <$>
    restarted collect dir names 0 (mkOS (os_files continued.2) ∅ [] 0 [], []) = Some (RC.SUCCESS, [[]]).
Proof. vm_compute. by split_and!. Qed.

(** The counter of buffered bytes: an entry adds the size of a moved-from entry
    and subtracts its own, so the counter falls with every entry written. *)
Example buffered_bytes_fall : bytes_ (entry_buffer_ (w5 short).1) = -3.
Proof. vm_compute. reflexivity. Qed.

(** The last LSN of a file is kept in an [int]: from 2^31 on a new file is full
    before its first entry. *)
Example file_full_beyond_int :
  fst <$> (fst <$> (('(_, w) ← fw_open path0 (2147483000 + 1000 - 1) new_log_writer;
                     fw_write (entry_set_lsn 2147483648 entry) w) (os0 []))) = Some RC.LOG_FILE_FULL.
Proof. vm_compute. reflexivity. Qed.

(** An entry without payload is accepted, and stops the thread on an assertion. *)
Example empty_payload_asserts :
  fst <$> push_step 0 0 [] (w1 []) = Some (Some (RC.SUCCESS, 1)) ∧ thread_run 2 (push [] (w1 [])) = None.
Proof. vm_compute. by split. Qed.

(** An append that tested [running_] before [stop] may enter the buffer after
    the thread has returned: it succeeds and is never written. *)
Definition stopped : LogSys := run_threads 1 (snd (dlh_stop (w1 []).1), (w1 []).2).

Example append_after_exit :
  fst <$> await_termination (push [1] stopped).1 = Some RC.SUCCESS ∧
  fst <$> push_step 0 0 [1] stopped = Some (Some (RC.SUCCESS, 1)) ∧
  length (entries_ (entry_buffer_ (push [1] stopped).1)) = 1%nat.
Proof. vm_compute. by split_and!. Qed.
End LogEdge.
