(* ===== verification/PageIO.v ===== *)
(** * Page I/O

    Models [storage/os/io/page_io_backend.cpp]: the two backends that move whole
    pages between memory and a paged file, [lseek] with [read]/[write] and
    [pread]/[pwrite], on the byte files of [Os].  A page is its 8192 bytes: the
    64-bit LSN, the 32-bit checksum and the data, little-endian. *)

From S2P Require Import Prelude Types Os Bytes Replacement.
Local Open Scope Z_scope.

(** ** Pages as bytes *)
Definition page_bytes (p : Page) : list Z := le_bytes 8 (lsn p) ++ le_bytes 4 (check_sum p) ++ data p.

Definition bytes_page (l : list Z) : Page :=
  mkPage (swrap 64 (le_val (take 8 l))) (le_val (take 4 (drop 8 l))) (drop 12 l).

(** What the types of the fields of [struct Page] guarantee. *)
Record page_wf (p : Page) : Prop := {
  pw_lsn : in_srange 64 (lsn p);
  pw_sum : 0 ≤ check_sum p < 2 ^ 32;
  pw_size : Z.of_nat (length (data p)) = BP_PAGE_DATA_SIZE;
  pw_data : chars (data p)
}.

Lemma page_bytes_length p : page_wf p → Z.of_nat (length (page_bytes p)) = BP_PAGE_SIZE.
Proof.
  intros W. unfold page_bytes. rewrite !length_app, !le_bytes_length, !Nat2Z.inj_add, (pw_size _ W). done.
Qed.

Lemma page_bytes_chars p : page_wf p → chars (page_bytes p).
Proof.
  intros W. unfold page_bytes. apply Forall_app; split; [apply le_bytes_chars|].
  apply Forall_app; split; [apply le_bytes_chars|apply W].
Qed.

Lemma bytes_page_bytes p : page_wf p → bytes_page (page_bytes p) = p.
Proof.
  intros W. unfold bytes_page, page_bytes. rewrite app_assoc at 3.
  rewrite !take_app_length', !drop_app_length', take_app_length'
    by (rewrite ?length_app, ?le_bytes_length; done).
  destruct p as [l c d], W; cbn in *. f_equal.
  - by apply (le_signed 8); [lia|].
  - by apply (le_unsigned 4).
Qed.

Lemma page_bytes_page l :
  Z.of_nat (length l) = BP_PAGE_SIZE → chars l → page_bytes (bytes_page l) = l.
Proof.
  change BP_PAGE_SIZE with 8192. intros Hl Hc. unfold page_bytes, bytes_page. cbn [lsn check_sum data].
  assert (le_bytes 8 (swrap 64 (le_val (take 8 l))) = take 8 l) as ->.
  { rewrite (le_bytes_swrap 8) by lia. rewrite <-(le_bytes_val (take 8 l)) at 2 by (by apply Forall_take).
    f_equal. rewrite length_take. lia. }
  assert (le_bytes 4 (le_val (take 4 (drop 8 l))) = take 4 (drop 8 l)) as ->.
  { rewrite <-(le_bytes_val (take 4 (drop 8 l))) at 2 by (by apply Forall_take, Forall_drop).
    f_equal. rewrite length_take, length_drop. lia. }
  rewrite <-(take_drop 8 l) at 4. f_equal. rewrite <-(take_drop 4 (drop 8 l)) at 2. by rewrite drop_drop.
Qed.

Lemma bytes_page_wf l : Z.of_nat (length l) = BP_PAGE_SIZE → chars l → page_wf (bytes_page l).
Proof.
  change BP_PAGE_SIZE with 8192. intros Hl Hc. split; cbn [bytes_page lsn check_sum data].
  - by apply swrap_range.
  - pose proof (le_val_range (take 4 (drop 8 l))) as H. rewrite length_take, length_drop in H.
    replace (4 `min` (length l - 8))%nat with 4%nat in H by lia. exact H.
  - rewrite length_drop. change BP_PAGE_DATA_SIZE with 8180. lia.
  - by apply Forall_drop.
Qed.

Lemma zero_page_wf : page_wf zero_page.
Proof.
  split; cbn [zero_page lsn check_sum data]; [by split|by split| |].
  - by rewrite length_replicate.
  - apply Forall_replicate. by split.
Qed.

(** ** The backends *)
Inductive PageIOBackendType : Type := LEGACY | POSITIONAL.
#[global] Instance PageIOBackendType_eq_dec : EqDecision PageIOBackendType.
Proof. solve_decision. Defined.

(** [read_page] fills the caller's page: after a failure its first bytes are
    those that arrived, the others are as before. *)
Definition received (page : Page) (bs : list Z) : Page := bytes_page (bs ++ drop (length bs) (page_bytes page)).

Definition legacy_read_page (fd : Z) (page_num : PageNum) (page : Page) : M OS (RC * Page) :=
  let offset := page_num * BP_PAGE_SIZE in
  ok ← sys_lseek fd offset;
  if negb ok then mret (RC.IOERR_SEEK, page)
  else
    '(ret, bs) ← readn fd BP_PAGE_SIZE;
    if negb (ret =? 0) then mret (RC.IOERR_READ, received page bs)
    else mret (RC.SUCCESS, received page bs).

Definition legacy_write_page (fd : Z) (page_num : PageNum) (page : Page) : M OS RC :=
  let offset := page_num * BP_PAGE_SIZE in
  ok ← sys_lseek fd offset;
  if negb ok then mret RC.IOERR_SEEK
  else
    ret ← writen fd (page_bytes page);
    if negb (ret =? 0) then mret RC.IOERR_WRITE else mret RC.SUCCESS.

Definition positional_read_page (fd : Z) (page_num : PageNum) (page : Page) : M OS (RC * Page) :=
  let offset := page_num * BP_PAGE_SIZE in
  '(ret, bs) ← preadn fd BP_PAGE_SIZE offset;
  if negb (ret =? 0) then mret (RC.IOERR_READ, received page bs)
  else mret (RC.SUCCESS, received page bs).

Definition positional_write_page (fd : Z) (page_num : PageNum) (page : Page) : M OS RC :=
  let offset := page_num * BP_PAGE_SIZE in
  ret ← pwriten fd (page_bytes page) offset;
  if negb (ret =? 0) then mret RC.IOERR_WRITE else mret RC.SUCCESS.

(** [sync] of both backends: [fsync], which moves no bytes of this model. *)
Definition backend_sync (fd : Z) : M OS RC :=
  r ← next_call; s ← fetch;
  match os_fds s !! fd, r with
  | None, _ | _, Some (Errno _) => mret RC.IOERR_SYNC
  | Some _, _ => mret RC.SUCCESS
  end.

(** The virtual calls through [PageIOBackend]. *)
Definition io_read_page (t : PageIOBackendType) : Z → PageNum → Page → M OS (RC * Page) :=
  match t with LEGACY => legacy_read_page | POSITIONAL => positional_read_page end.
Definition io_write_page (t : PageIOBackendType) : Z → PageNum → Page → M OS RC :=
  match t with LEGACY => legacy_write_page | POSITIONAL => positional_write_page end.

Definition page_io_backend_name (t : PageIOBackendType) : string :=
  match t with LEGACY => "legacy" | POSITIONAL => "positional" end.

Definition parse_page_io_backend (name : string) : option PageIOBackendType :=
  if strcasecmp_eq name "legacy" then Some LEGACY
  else if strcasecmp_eq name "positional" then Some POSITIONAL
  else None.

(** [create_page_io_backend]: both enumerators have their class; the object is
    its type here, and other values cannot arise. *)
Definition create_page_io_backend (t : PageIOBackendType) : PageIOBackendType :=
  match t with LEGACY => LEGACY | POSITIONAL => POSITIONAL end.

(** ** The page a file holds *)
Definition file_page (c : list Z) (pn : PageNum) : option Page :=
  if decide (0 ≤ pn ∧ (pn + 1) * BP_PAGE_SIZE ≤ Z.of_nat (length c))
  then Some (bytes_page (slice c (pn * BP_PAGE_SIZE) BP_PAGE_SIZE)) else None.

Definition os_wf (s : OS) : Prop :=
  (∀ name c, os_files s !! name = Some c → chars c) ∧
  (∀ fd name off, os_fds s !! fd = Some (name, off) → 0 ≤ off ∧ is_Some (os_files s !! name)).

Lemma slice_ext c c' off n :
  (∀ i, (Z.to_nat off ≤ i < Z.to_nat off + Z.to_nat n)%nat → c' !! i = c !! i) → slice c' off n = slice c off n.
Proof.
  intros H. unfold slice. apply list_eq. intros i. destruct (decide (i < Z.to_nat n)%nat).
  - rewrite !lookup_take_lt, !lookup_drop by done. apply H. lia.
  - by rewrite !lookup_take_ge by lia.
Qed.

Lemma slice_put c off bs : 0 ≤ off → bs ≠ [] → slice (file_put c off bs) off (Z.of_nat (length bs)) = bs.
Proof.
  intros Ho Hb. unfold slice. apply list_eq. intros i. destruct (decide (i < length bs)%nat).
  - rewrite lookup_take_lt, lookup_drop, file_put_lookup by (done || lia).
    rewrite decide_True by lia. f_equal. lia.
  - rewrite lookup_take_ge by lia. symmetry. apply lookup_ge_None_2. lia.
Qed.

Lemma file_put_chars c off bs : chars c → chars bs → chars (file_put c off bs).
Proof.
  intros Hc Hb. unfold file_put. destruct bs as [|b bs]; [done|].
  repeat (apply Forall_app; split); [by apply Forall_take|apply Forall_replicate; by split|done|by apply Forall_drop].
Qed.

(** Writing a page: it reads back, and every other page stays, even if only a
    part of it was written. *)
Lemma file_page_put c pn p :
  0 ≤ pn → page_wf p → file_page (file_put c (pn * BP_PAGE_SIZE) (page_bytes p)) pn = Some p.
Proof.
  intros Hpn W. pose proof (page_bytes_length p W) as Hl. change BP_PAGE_SIZE with 8192 in *.
  assert (page_bytes p ≠ []) as Hne by (intros E; rewrite E in Hl; done).
  unfold file_page. change BP_PAGE_SIZE with 8192. rewrite decide_True by (rewrite file_put_length by (done || lia); lia).
  f_equal. rewrite <-Hl at 3. rewrite slice_put by (done || lia). by apply bytes_page_bytes.
Qed.

Lemma file_page_put_other c pn pn' p q d :
  0 ≤ pn → pn' ≠ pn → page_wf p → d `prefix_of` page_bytes p → file_page c pn' = Some q →
  file_page (file_put c (pn * BP_PAGE_SIZE) d) pn' = Some q.
Proof.
  intros Hpn Hne W Hd. pose proof (page_bytes_length p W) as Hl. apply prefix_length in Hd.
  destruct (decide (d = [])) as [->|Hn]; [done|].
  unfold file_page. change BP_PAGE_SIZE with 8192 in *. case_decide as H; intros Hq; [|discriminate Hq].
  injection Hq as <-. rewrite decide_True by (rewrite file_put_length by (done || lia); lia).
  apply (f_equal (λ x, Some (bytes_page x))), slice_ext. intros i Hi. rewrite file_put_lookup by (done || lia).
  rewrite decide_False by lia. by rewrite decide_False by lia.
Qed.

Lemma file_page_wf c pn p : chars c → file_page c pn = Some p → page_wf p.
Proof.
  intros Hc. unfold file_page. case_decide as H; [|done]. intros [= <-].
  change BP_PAGE_SIZE with 8192 in H.
  apply bytes_page_wf; [|by apply Forall_take, Forall_drop]. change BP_PAGE_SIZE with 8192.
  rewrite slice_length by lia. lia.
Qed.

(** ** The contract of the backends *)
Section backend.
Context (s : OS) (fd : Z) (name : string) (off : Z) (c : list Z).
Context (Hwf : os_wf s) (Hfd : os_fds s !! fd = Some (name, off)) (Hc : os_files s !! name = Some c).

Lemma os_at_wf c' off' l : chars c' → 0 ≤ off' → os_wf (os_at s fd name c' off' l).
Proof.
  destruct Hwf as [Hf Hd]. intros Hc' Ho. split; cbn.
  - intros n x [[_ <-]|[_ Hx]]%lookup_insert_Some; [done|by eapply Hf].
  - intros fd' n o [[_ [= <- <-]]|[_ Hx]]%lookup_insert_Some; rewrite lookup_insert_is_Some'; [by split; [|left]|].
    destruct (Hd _ _ _ Hx). auto.
Qed.

Definition read_result (t : PageIOBackendType) (pn : PageNum) (rc : RC) (pg : Page) (s' : OS) : Prop :=
  page_wf pg ∧
  (∃ off' l', s' = os_at s fd name c off' l' ∧ 0 ≤ off' ∧ l' `suffix_of` os_script s ∧ (t = POSITIONAL → off' = off)) ∧
  (rc = RC.SUCCESS → file_page c pn = Some pg) ∧
  (benign (os_script s) → is_Some (file_page c pn) → rc = RC.SUCCESS).

Definition write_result (t : PageIOBackendType) (pn : PageNum) (page : Page) (rc : RC) (s' : OS) : Prop :=
  ∃ d off' l', s' = os_at s fd name (file_put c (pn * BP_PAGE_SIZE) d) off' l' ∧ 0 ≤ off' ∧
    l' `suffix_of` os_script s ∧ (t = POSITIONAL → off' = off) ∧
    d `prefix_of` page_bytes page ∧ (rc = RC.SUCCESS → d = page_bytes page) ∧
    (benign (os_script s) → rc = RC.SUCCESS).

Lemma off_nonneg : 0 ≤ off.
Proof. destruct Hwf as [_ Hd]. by destruct (Hd _ _ _ Hfd). Qed.

Lemma content_chars : chars c.
Proof. destruct Hwf as [Hf _]. by eapply Hf. Qed.

Lemma received_wf page bs off1 :
  page_wf page → bs = slice c off1 (Z.of_nat (length bs)) → Z.of_nat (length bs) ≤ BP_PAGE_SIZE →
  page_wf (received page bs).
Proof.
  intros W Hb Hl. apply bytes_page_wf.
  - pose proof (page_bytes_length page W). rewrite length_app, length_drop. lia.
  - apply Forall_app; split; [rewrite Hb; apply Forall_take, Forall_drop, content_chars|].
    by apply Forall_drop, page_bytes_chars.
Qed.

Lemma received_all page bs pn :
  page_wf page → 0 ≤ pn → bs = slice c (pn * BP_PAGE_SIZE) (Z.of_nat (length bs)) →
  Z.of_nat (length bs) = BP_PAGE_SIZE → file_page c pn = Some (received page bs).
Proof.
  intros W Hpn Hb Hl. pose proof (page_bytes_length page W) as Hp. unfold file_page, received.
  rewrite drop_ge by lia. rewrite app_nil_r. change BP_PAGE_SIZE with 8192 in *.
  pose proof (slice_length c (pn * 8192) (Z.of_nat (length bs))) as Hs. rewrite <-Hb in Hs.
  rewrite decide_True by lia. by rewrite Hb, Hl at 1.
Qed.

Lemma file_page_bound pn : is_Some (file_page c pn) → pn * BP_PAGE_SIZE + BP_PAGE_SIZE ≤ Z.of_nat (length c).
Proof. unfold file_page. case_decide as H; [|by intros []]. change BP_PAGE_SIZE with 8192 in *. lia. Qed.

(** Both reads end in the same way. *)
Lemma read_finish t pn page off1 moved l ret bs s1 s' :
  page_wf page → 0 ≤ pn → off1 = pn * BP_PAGE_SIZE → l `suffix_of` os_script s →
  (t = POSITIONAL → moved = false ∧ s1 = s) →
  (∃ o, s1 = os_at s fd name c o l ∧ 0 ≤ o ∧
     got s1 fd name c off1 moved o l BP_PAGE_SIZE ret bs s') →
  read_result t pn (if negb (ret =? 0) then RC.IOERR_READ else RC.SUCCESS) (received page bs) s'.
Proof.
  intros W Hpn -> Hl Ht (o & Es1 & Ho & [(l' & -> & Hl') Hb Hsz Hr Hcalm]). split_and!.
  - by eapply received_wf.
  - eexists _, l'. rewrite Es1, os_at_at. split_and!; [done|destruct moved; lia|by etrans|].
    intros Hp. destruct (Ht Hp) as [-> E]. rewrite E in Es1. rewrite Es1 in Hfd. cbn in Hfd.
    rewrite lookup_insert_eq in Hfd. by injection Hfd.
  - destruct (Z.eqb_spec ret 0) as [Hz|Hz]; [|done]. intros _. apply received_all; [done..|]. by apply Hr.
  - intros Hs Hsome. apply (benign_suffix _ _ Hl) in Hs.
    rewrite (proj2 (Z.eqb_eq _ _)); [done|]. apply Hcalm; [done|by apply file_page_bound].
Qed.

Lemma lseek_cases pn :
  0 ≤ pn →
  ∃ (ok : bool) o, sys_lseek fd (pn * BP_PAGE_SIZE) s = Some (ok, os_at s fd name c o (next_script (os_script s))) ∧
    0 ≤ o ∧ (if ok then o = pn * BP_PAGE_SIZE else ¬ benign (os_script s)).
Proof.
  intros Hpn. pose proof off_nonneg. change BP_PAGE_SIZE with 8192.
  pose proof (sys_lseek_eq s fd name c off (os_script s) (pn * 8192)) as E. rewrite os_at_eq in E by done.
  rewrite E by lia. clear E.
  destruct (head (os_script s)) as [[k|e]|] eqn:Hh.
  - exists true, (pn * 8192). split_and!; [done|lia|done].
  - exists false, off. split_and!; [done|done|]. by eapply benign_no_errno.
  - exists true, (pn * 8192). split_and!; [done|lia|done].
Qed.

Lemma os_at_lookup o l : os_fds (os_at s fd name c o l) !! fd = Some (name, o).
Proof. apply lookup_insert_eq. Qed.

Lemma os_at_content o l : os_files (os_at s fd name c o l) !! name = Some c.
Proof. apply lookup_insert_eq. Qed.

Lemma io_read_page_ok t pn page :
  0 ≤ pn → page_wf page →
  ∃ rc pg s', io_read_page t fd pn page s = Some ((rc, pg), s') ∧ read_result t pn rc pg s'.
Proof.
  intros Hpn W. assert (0 ≤ BP_PAGE_SIZE) as HP by (by vm_compute).
  assert (0 ≤ pn * BP_PAGE_SIZE) as HO by lia. destruct t; cbn [io_read_page].
  - unfold legacy_read_page. destruct (lseek_cases pn Hpn) as (ok & o & E & Ho & Hok).
    rewrite (exec E). destruct ok; cbn [negb].
    + destruct (readn_ok _ fd name o c (os_at_lookup o (next_script (os_script s))) (os_at_content _ _) Ho BP_PAGE_SIZE HP) as (ret & bs & s' & Er & Hg).
      rewrite (exec Er). exists (if negb (ret =? 0) then RC.IOERR_READ else RC.SUCCESS), (received page bs), s'.
      split; [by destruct (negb (ret =? 0))|].
      rewrite Hok in Hg. eapply read_finish; [done|done|reflexivity|apply next_script_suffix|done|].
      exists o. split_and!; [reflexivity|done|]. by rewrite Hok.
    + eexists _, _, _. split; [done|]. split_and!; [done| |done|done].
      exists o, (next_script (os_script s)). split_and!; [done|done|apply next_script_suffix|done].
  - unfold positional_read_page.
    destruct (preadn_ok s fd name off c Hfd Hc BP_PAGE_SIZE (pn * BP_PAGE_SIZE) HP HO) as (ret & bs & s' & Er & Hg).
    rewrite (exec Er). exists (if negb (ret =? 0) then RC.IOERR_READ else RC.SUCCESS), (received page bs), s'.
      split; [by destruct (negb (ret =? 0))|].
    eapply read_finish; [done|done|reflexivity|reflexivity|done|].
    exists off. split_and!; [symmetry; by apply os_at_eq|apply off_nonneg|exact Hg].
Qed.

Lemma write_finish t pn page moved o l ret s1 s' :
  0 ≤ o → l `suffix_of` os_script s → s1 = os_at s fd name c o l → (t = POSITIONAL → moved = false ∧ o = off) →
  written s1 fd name c (pn * BP_PAGE_SIZE) moved o l (page_bytes page) ret s' →
  write_result t pn page (if negb (ret =? 0) then RC.IOERR_WRITE else RC.SUCCESS) s'.
Proof.
  intros Ho Hl -> Ht [(d & l' & -> & Hd & Hl' & Hr) Hcalm].
  eexists d, _, l'. rewrite os_at_at. split_and!; [done|destruct moved; lia|by etrans| |done| |].
  - intros Hp. by destruct (Ht Hp) as [-> ->].
  - destruct (Z.eqb_spec ret 0) as [Hz|Hz]; [|done]. intros _. by apply Hr.
  - intros Hs%(benign_suffix _ _ Hl). by rewrite (Hcalm Hs).
Qed.

Lemma io_write_page_ok t pn page :
  0 ≤ pn → ∃ rc s', io_write_page t fd pn page s = Some (rc, s') ∧ write_result t pn page rc s'.
Proof.
  intros Hpn. assert (0 ≤ BP_PAGE_SIZE) as HP by (by vm_compute).
  assert (0 ≤ pn * BP_PAGE_SIZE) as HO by lia. destruct t; cbn [io_write_page].
  - unfold legacy_write_page. destruct (lseek_cases pn Hpn) as (ok & o & E & Ho & Hok).
    rewrite (exec E). destruct ok; cbn [negb].
    + destruct (writen_ok _ fd name o c (os_at_lookup o (next_script (os_script s))) (os_at_content _ _) Ho (page_bytes page)) as (ret & s' & Er & Hg).
      rewrite (exec Er). exists (if negb (ret =? 0) then RC.IOERR_WRITE else RC.SUCCESS), s'.
      split; [by destruct (negb (ret =? 0))|].
      rewrite Hok in Hg at 2. eapply write_finish; [done|apply next_script_suffix|reflexivity|done|exact Hg].
    + eexists _, _. split; [done|]. exists [], o, (next_script (os_script s)).
      split_and!; [done|done|apply next_script_suffix|done|apply prefix_nil|done|done].
  - unfold positional_write_page.
    destruct (pwriten_ok s fd name off c Hfd Hc (page_bytes page) (pn * BP_PAGE_SIZE) HO) as (ret & s' & Er & Hg).
    rewrite (exec Er). exists (if negb (ret =? 0) then RC.IOERR_WRITE else RC.SUCCESS), s'.
      split; [by destruct (negb (ret =? 0))|].
    eapply write_finish; [apply off_nonneg|reflexivity|symmetry; by apply os_at_eq|done|exact Hg].
Qed.
End backend.

Lemma write_result_files s fd name off c t pn page rc s' :
  os_wf s → os_fds s !! fd = Some (name, off) → os_files s !! name = Some c → 0 ≤ pn → page_wf page →
  write_result s fd name off c t pn page rc s' →
  ∃ c' off', os_files s' = <[name := c']> (os_files s) ∧ os_fds s' = <[fd := (name, off')]> (os_fds s) ∧
    os_wf s' ∧ (t = POSITIONAL → off' = off) ∧ os_script s' `suffix_of` os_script s ∧
    (rc = RC.SUCCESS → file_page c' pn = Some page) ∧
    (∀ pn' q, pn' ≠ pn → file_page c pn' = Some q → file_page c' pn' = Some q).
Proof.
  intros Hwf Hfd Hc Hpn W (d & off' & l' & -> & Ho & Hl & Ht & Hd & Hs & _).
  eexists _, off'. split_and!; [reflexivity|reflexivity| |done|done| |].
  - apply os_at_wf; [done| |done]. apply file_put_chars; [by eapply content_chars|].
    pose proof (page_bytes_chars page W) as Hp. destruct Hd as [k Hk]. unfold chars in Hp. rewrite Hk in Hp.
    by apply Forall_app in Hp as [? _].
  - intros ->%Hs. by apply file_page_put.
  - intros pn' q Hne Hq. by eapply file_page_put_other.
Qed.

(** Both backends move whole pages.  Whatever the system calls do, a page
    write returns and changes no other page of the file and no other file; if it
    reports success the page is on file, and a later read through either backend
    that meets no error returns exactly it; a read changes no file and returns
    the page on file whenever it reports success, a failure included when the
    file is too short.  The positional backend leaves the descriptor's offset
    alone. *)
Theorem page_io_backends_correct t s fd name off c pn page :
  os_wf s → os_fds s !! fd = Some (name, off) → os_files s !! name = Some c → 0 ≤ pn → page_wf page →
  (∃ rc s' c', io_write_page t fd pn page s = Some (rc, s') ∧ os_wf s' ∧
     os_files s' = <[name := c']> (os_files s) ∧
     (∀ pn' q, pn' ≠ pn → file_page c pn' = Some q → file_page c' pn' = Some q) ∧
     (rc = RC.SUCCESS → file_page c' pn = Some page) ∧
     (benign (os_script s) → rc = RC.SUCCESS) ∧
     (t = POSITIONAL → os_fds s' = os_fds s) ∧
     (rc = RC.SUCCESS → benign (os_script s') → ∀ t2 old,
        page_wf old → ∃ s2, io_read_page t2 fd pn old s' = Some ((RC.SUCCESS, page), s2))) ∧
  (∃ rc pg s', io_read_page t fd pn page s = Some ((rc, pg), s') ∧ os_files s' = os_files s ∧
     (rc = RC.SUCCESS → file_page c pn = Some pg) ∧
     (benign (os_script s) → is_Some (file_page c pn) → rc = RC.SUCCESS) ∧
     (t = POSITIONAL → os_fds s' = os_fds s)).
Proof.
  intros Hwf Hfd Hc Hpn W. split.
  - destruct (io_write_page_ok s fd name off c Hwf Hfd Hc t pn page Hpn) as (rc & s' & E & Hw).
    destruct (write_result_files _ _ _ _ _ _ _ _ _ _ Hwf Hfd Hc Hpn W Hw)
      as (c' & off' & Hf & Hd & Hwf' & Ht & _ & Hok & Hoth).
    exists rc, s', c'. split_and!; try done.
    + destruct Hw as (d & o & l & _ & _ & _ & _ & _ & _ & H). exact H.
    + intros Hp. rewrite Hd, (Ht Hp). by apply insert_id.
    + intros Hrc Hl t2 old Wo. specialize (Hok Hrc).
      destruct (io_read_page_ok s' fd name off' c' Hwf') with (t := t2) (pn := pn) (page := old)
        as (rc2 & pg & s2 & E2 & _ & _ & H1 & H2); [by rewrite Hd, lookup_insert_eq|by rewrite Hf, lookup_insert_eq|done|done|].
      exists s2. assert (rc2 = RC.SUCCESS) as -> by (apply H2; [done|eauto]).
      specialize (H1 eq_refl). rewrite Hok in H1. injection H1 as <-. done.
  - destruct (io_read_page_ok s fd name off c Hwf Hfd Hc t pn page Hpn W) as (rc & pg & s' & E & _ & Hs & H1 & H2).
    destruct Hs as (off' & l' & -> & _ & _ & Ht).
    exists rc, pg, (os_at s fd name c off' l'). split_and!; try done; cbn.
    + by apply insert_id.
    + intros Hp. rewrite (Ht Hp). by apply insert_id.
Qed.

(** An empty file opened on descriptor 3. *)
Definition demo_disk : OS := mkOS {["f" := []]} {[3 := ("f", 0)]} [] 0 [].

Lemma page_io_backends_correct_witness :
  os_wf demo_disk ∧ page_wf zero_page ∧
  ∃ rc s' c', io_write_page LEGACY 3 1 zero_page demo_disk = Some (rc, s') ∧ rc = RC.SUCCESS ∧
    os_files s' = <["f" := c']> (os_files demo_disk) ∧ file_page c' 1 = Some zero_page.
Proof.
  assert (os_wf demo_disk) as Hwf.
  { unfold demo_disk, os_wf. cbn [os_files os_fds]. split; intros ??; [intros H; apply lookup_singleton_Some in H as [_ <-]; constructor|].
    intros off H. apply lookup_singleton_Some in H as [_ [= <- <-]]. split; [lia|]. by eexists. }
  split; [exact Hwf|]. split; [exact zero_page_wf|].
  destruct (page_io_backends_correct LEGACY demo_disk 3 "f" 0 [] 1 zero_page Hwf)
    as [(rc & s' & c' & E & _ & Hf & _ & Hok & Hs & _) _]; [reflexivity|reflexivity|lia|exact zero_page_wf|].
  exists rc, s', c'. split; [exact E|]. split; [exact (Hs ltac:(constructor))|]. split; [exact Hf|]. exact (Hok (Hs ltac:(constructor))).
Defined.
