(* ===== verification/LruCache.v ===== *)
(** * The cache container of [common/lang/lru_cache.h]

    [LruCache] keeps its nodes in a doubly linked list, most recently used
    first, and finds them through a hash set of node pointers whose hash and
    equality look at the key.  Two levels are modelled:
    - the pointer structure: a heap of [ListNode]s, the front and tail pointers
      and the set, with every field assignment of [lru_touch], [lru_push] and
      [lru_remove] in the order of the source.  Following a null or deleted
      pointer aborts;
    - the list of key/value pairs that the structure stands for ([lru_get],
      [lru_put], ...), which the other components use.
    The refinement theorem relates the two for every sequence of operations. *)

From S2P Require Import Prelude.
Local Open Scope Z_scope.

(** ** The abstract cache: key/value pairs, most recently used first *)
Section abstract_cache.
Context {K V : Type} `{EqDecision K}.
Implicit Types l : list (K * V).

Fixpoint lru_peek (k : K) l : option V :=
  match l with
  | [] => None
  | (k', v) :: l' => if decide (k = k') then Some v else lru_peek k l'
  end.

Fixpoint lru_remove (k : K) l : list (K * V) :=
  match l with
  | [] => []
  | (k', v) :: l' => if decide (k = k') then l' else (k', v) :: lru_remove k l'
  end.

Definition lru_put (k : K) (v : V) l : list (K * V) := (k, v) :: lru_remove k l.

Definition lru_get (k : K) l : option V * list (K * V) :=
  match lru_peek k l with
  | Some v => (Some v, (k, v) :: lru_remove k l)
  | None => (None, l)
  end.

(** The visits of [foreach]: [func] gets the state it captures and says whether
    to go on. *)
Fixpoint lru_foreach {A} (func : K → V → A → bool * A) l (a : A) : A :=
  match l with
  | [] => a
  | (k, v) :: l' => let '(go, a') := func k v a in if go then lru_foreach func l' a' else a'
  end.

(** No key twice. *)
Definition lru_wf l : Prop := NoDup l.*1.

Lemma lru_remove_sublist k l : lru_remove k l `sublist_of` l.
Proof.
  induction l as [|[k' v'] l IH]; cbn; [constructor|].
  case_decide; repeat constructor; auto.
Qed.

Lemma lru_remove_wf k l : lru_wf l → lru_wf (lru_remove k l).
Proof. intros H. eapply sublist_NoDup; [exact H|]. apply fmap_sublist, lru_remove_sublist. Qed.

Lemma elem_of_lru_remove_keys k k' l :
  lru_wf l → k' ∈ (lru_remove k l).*1 ↔ k' ≠ k ∧ k' ∈ l.*1.
Proof.
  unfold lru_wf. induction l as [|[k2 v2] l IH]; cbn; intros Hnd; [set_solver|].
  apply list.NoDup_cons in Hnd as [Hk Hnd]. case_decide as E.
  - subst. rewrite elem_of_cons. naive_solver.
  - cbn. rewrite !elem_of_cons, IH by done. naive_solver.
Qed.

Lemma elem_of_lru_remove k k' v l :
  lru_wf l → (k', v) ∈ lru_remove k l ↔ k' ≠ k ∧ (k', v) ∈ l.
Proof.
  unfold lru_wf. induction l as [|[k2 v2] l IH]; cbn; intros Hnd; [set_solver|].
  apply list.NoDup_cons in Hnd as [Hk Hnd]. case_decide as E.
  - subst k2. rewrite elem_of_cons. split; [|naive_solver]. intros Hin. split; [|by right].
    intros ->. apply Hk. exact (list_elem_of_fmap_2 fst _ _ Hin).
  - rewrite !elem_of_cons, IH by done. naive_solver.
Qed.

Lemma lru_put_wf k v l : lru_wf l → lru_wf (lru_put k v l).
Proof.
  intros H. constructor; [|by apply lru_remove_wf].
  change (k ∉ (lru_remove k l).*1). rewrite elem_of_lru_remove_keys by done. naive_solver.
Qed.

Lemma lru_peek_elem k v l : lru_wf l → lru_peek k l = Some v ↔ (k, v) ∈ l.
Proof.
  unfold lru_wf. induction l as [|[k' v'] l IH]; cbn; intros Hnd; [set_solver|].
  apply list.NoDup_cons in Hnd as [Hk Hnd]. rewrite elem_of_cons. case_decide as E.
  - subst. split; [naive_solver|]. intros [?|Hin]; [naive_solver|].
    destruct Hk. by apply (list_elem_of_fmap_2 fst _ (k', v)).
  - rewrite IH by done. naive_solver.
Qed.

Lemma lru_peek_None k l : lru_peek k l = None ↔ k ∉ l.*1.
Proof.
  induction l as [|[k' v'] l IH]; cbn; [set_solver|].
  rewrite not_elem_of_cons. case_decide; naive_solver.
Qed.

Lemma lru_peek_remove k k' l : lru_wf l → k ≠ k' → lru_peek k (lru_remove k' l) = lru_peek k l.
Proof.
  intros Hwf Hne. induction l as [|[k2 v2] l IH]; cbn; [done|].
  apply list.NoDup_cons in Hwf as [_ Hwf].
  repeat (case_decide; subst; cbn); rewrite ?decide_False, ?decide_True by done; naive_solver.
Qed.

Lemma lru_remove_not_elem k l : k ∉ l.*1 → lru_remove k l = l.
Proof.
  induction l as [|[k' v'] l IH]; cbn; [done|]. intros [? ?]%not_elem_of_cons.
  rewrite decide_False by done. f_equal. auto.
Qed.

Lemma lru_remove_app k v l1 l2 : k ∉ l1.*1 → lru_remove k (l1 ++ (k, v) :: l2) = l1 ++ l2.
Proof.
  induction l1 as [|[k' v'] l1 IH]; cbn; intros Hk; [by rewrite decide_True|].
  apply not_elem_of_cons in Hk as [? ?]. rewrite decide_False by done. f_equal. auto.
Qed.

Lemma lru_peek_split k v l :
  lru_peek k l = Some v → ∃ l1 l2, l = l1 ++ (k, v) :: l2 ∧ k ∉ l1.*1.
Proof.
  induction l as [|[k' v'] l IH]; cbn; [done|]. case_decide as E.
  - intros [= ->]. subst. exists [], l. split; [done|]. set_solver.
  - intros (l1 & l2 & -> & Hk)%IH. exists ((k', v') :: l1), l2. split; [done|]. set_solver.
Qed.
End abstract_cache.

(** ** The pointer structure *)
Section pointer_cache.
Context {K V : Type} `{Countable K}.

(** Addresses of nodes; [nullptr] is [None]. *)
Notation ptr := nat.

Record ListNode : Type := mkListNode {
  key_ : K;
  value_ : V;
  prev_ : option ptr;
  next_ : option ptr
}.

Definition set_value (v : V) (n : ListNode) := mkListNode (key_ n) v (prev_ n) (next_ n).
Definition set_prev (p : option ptr) (n : ListNode) := mkListNode (key_ n) (value_ n) p (next_ n).
Definition set_next (p : option ptr) (n : ListNode) := mkListNode (key_ n) (value_ n) (prev_ n) p.

(** [searcher_] holds node pointers and compares them by their key: it is a map
    from the keys to the nodes.  [node_heap] are the live nodes. *)
Record LruCache : Type := mkLruCache {
  node_heap : gmap ptr ListNode;
  searcher_ : gmap K ptr;
  lru_front_ : option ptr;
  lru_tail_ : option ptr
}.

Definition empty_cache : LruCache := mkLruCache ∅ ∅ None None.

Definition set_heap (h : gmap ptr ListNode) (c : LruCache) :=
  mkLruCache h (searcher_ c) (lru_front_ c) (lru_tail_ c).
Definition set_searcher (s : gmap K ptr) (c : LruCache) :=
  mkLruCache (node_heap c) s (lru_front_ c) (lru_tail_ c).
Definition set_front (p : option ptr) (c : LruCache) :=
  mkLruCache (node_heap c) (searcher_ c) p (lru_tail_ c).
Definition set_tail (p : option ptr) (c : LruCache) :=
  mkLruCache (node_heap c) (searcher_ c) (lru_front_ c) p.

(** [p->field] and [p->field = x]. *)
Definition node_at (p : ptr) : M LruCache ListNode :=
  c ← fetch; deref (node_heap c !! p).
Definition upd_node (p : ptr) (f : ListNode → ListNode) : M LruCache unit :=
  n ← node_at p; modify (λ c, set_heap (<[p := f n]> (node_heap c)) c).

Definition lru_touch (node : ptr) : M LruCache unit :=
  n ← node_at node;
  match prev_ n with
  | None => mret tt
  | Some q =>
      upd_node q (set_next (next_ n));;
      match next_ n with
      | Some r => upd_node r (set_prev (prev_ n))
      | None => modify (set_tail (prev_ n))
      end;;
      upd_node node (set_prev None);;
      c ← fetch;
      upd_node node (set_next (lru_front_ c));;
      match lru_front_ c with
      | Some g => upd_node g (set_prev (Some node))
      | None => mret tt
      end;;
      modify (set_front (Some node))
  end.

Definition lru_push (node : ptr) : M LruCache unit :=
  c ← fetch;
  match lru_tail_ c with
  | None => modify (set_tail (Some node))
  | Some _ => mret tt
  end;;
  upd_node node (set_prev None);;
  upd_node node (set_next (lru_front_ c));;
  match lru_front_ c with
  | Some g => upd_node g (set_prev (Some node))
  | None => mret tt
  end;;
  modify (set_front (Some node));;
  n ← node_at node;
  modify (λ c, match searcher_ c !! key_ n with
               | Some _ => c
               | None => set_searcher (<[key_ n := node]> (searcher_ c)) c
               end).

Definition lru_remove_node (node : ptr) : M LruCache unit :=
  n ← node_at node;
  match prev_ n with
  | Some q => upd_node q (set_next (next_ n))
  | None => mret tt
  end;;
  match next_ n with
  | Some r => upd_node r (set_prev (prev_ n))
  | None => mret tt
  end;;
  modify (λ c, if decide (lru_front_ c = Some node) then set_front (next_ n) c else c);;
  modify (λ c, if decide (lru_tail_ c = Some node) then set_tail (prev_ n) c else c);;
  modify (λ c, set_searcher (delete (key_ n) (searcher_ c)) c);;
  modify (λ c, set_heap (delete node (node_heap c)) c).

Definition cache_count (c : LruCache) : nat := size (searcher_ c).

Definition cache_get (key : K) : M LruCache (option V) :=
  c ← fetch;
  match searcher_ c !! key with
  | None => mret None
  | Some p => lru_touch p;; n ← node_at p; mret (Some (value_ n))
  end.

Definition cache_peek (key : K) : M LruCache (option V) :=
  c ← fetch;
  match searcher_ c !! key with
  | None => mret None
  | Some p => n ← node_at p; mret (Some (value_ n))
  end.

(** [new ListNode(key, value)]: some address that is not live. *)
Definition new_node (key : K) (value : V) : M LruCache ptr :=
  c ← fetch;
  let p := fresh (dom (node_heap c)) in
  store (set_heap (<[p := mkListNode key value None None]> (node_heap c)) c);;
  mret p.

Definition cache_put (key : K) (value : V) : M LruCache unit :=
  c ← fetch;
  match searcher_ c !! key with
  | Some ln => upd_node ln (set_value value);; lru_touch ln
  | None => ln ← new_node key value; lru_push ln
  end.

Definition cache_remove (key : K) : M LruCache unit :=
  c ← fetch;
  match searcher_ c !! key with
  | Some p => lru_remove_node p
  | None => mret tt
  end.

(** The loops of [foreach] (along [next_] from the front) and [foreach_reverse]
    (along [prev_] from the tail). *)
Fixpoint foreach_loop {A} (n : nat) (step : ListNode → option ptr)
    (func : K → V → A → bool * A) (node : option ptr) (a : A) : M LruCache A :=
  match node, n with
  | None, _ => mret a
  | Some _, O => abort
  | Some p, S n =>
      nd ← node_at p;
      let '(go, a') := func (key_ nd) (value_ nd) a in
      if go then foreach_loop n step func (step nd) a' else mret a'
  end.

Definition cache_foreach {A} (func : K → V → A → bool * A) (a : A) : M LruCache A :=
  c ← fetch; foreach_loop (cache_count c) next_ func (lru_front_ c) a.

Definition cache_foreach_reverse {A} (func : K → V → A → bool * A) (a : A) : M LruCache A :=
  c ← fetch; foreach_loop (cache_count c) prev_ func (lru_tail_ c) a.

(** [destroy]: every node of [searcher_] is deleted. *)
Definition cache_destroy : M LruCache unit :=
  modify (λ c, mkLruCache
    (filter (λ e, e.1 ∉ (map_to_list (searcher_ c)).*2) (node_heap c)) ∅ None None).

(** ** The representation *)

(** Entries of the list: a node address with its pair. *)
Notation entry := (ptr * (K * V))%type.
Implicit Types es : list entry.

Definition first_ptr es (nx : option ptr) : option ptr :=
  match es with [] => nx | e :: _ => Some e.1 end.

Fixpoint final_ptr es (pv : option ptr) : option ptr :=
  match es with [] => pv | e :: es' => final_ptr es' (Some e.1) end.

(** The nodes of [es] are linked in this order between [pv] and [nx]. *)
Fixpoint seg (h : gmap ptr ListNode) (pv : option ptr) es (nx : option ptr) : Prop :=
  match es with
  | [] => True
  | (p, (k, v)) :: es' =>
      h !! p = Some (mkListNode k v pv (first_ptr es' nx)) ∧ seg h (Some p) es' nx
  end.

(** [c] stands for the pairs of [es]: the links, both ends and the search map
    agree with it, and no other node is live. *)
Record rep (c : LruCache) es : Prop := {
  rep_seg : seg (node_heap c) None es None;
  rep_front : lru_front_ c = first_ptr es None;
  rep_tail : lru_tail_ c = final_ptr es None;
  rep_ptrs : NoDup es.*1;
  rep_keys : NoDup es.*2.*1;
  rep_dom : dom (node_heap c) = list_to_set es.*1;
  rep_search : ∀ k p, searcher_ c !! k = Some p ↔ ∃ v, (p, (k, v)) ∈ es
}.

Lemma first_ptr_app es1 es2 nx : first_ptr (es1 ++ es2) nx = first_ptr es1 (first_ptr es2 nx).
Proof. by destruct es1. Qed.

Lemma final_ptr_app es1 es2 pv : final_ptr (es1 ++ es2) pv = final_ptr es2 (final_ptr es1 pv).
Proof. revert pv. induction es1 as [|e es1 IH]; cbn; auto. Qed.

Lemma final_ptr_is_Some es p : is_Some (final_ptr es (Some p)).
Proof. revert p. induction es as [|e es IH]; cbn; eauto. Qed.

Lemma seg_app h pv es1 es2 nx :
  seg h pv (es1 ++ es2) nx ↔
  seg h pv es1 (first_ptr es2 nx) ∧ seg h (final_ptr es1 pv) es2 nx.
Proof.
  revert pv. induction es1 as [|[p [k v]] es1 IH]; intros pv; cbn; [naive_solver|].
  rewrite IH, first_ptr_app. naive_solver.
Qed.

(** Writes outside a segment do not disturb it. *)
Lemma seg_frame h h' pv es nx :
  (∀ p, p ∈ es.*1 → h' !! p = h !! p) → seg h pv es nx → seg h' pv es nx.
Proof.
  revert pv. induction es as [|[p [k v]] es IH]; intros pv Hf; cbn; [done|].
  intros [Hp Hs]. split; [rewrite Hf by set_solver; done|]. apply IH; [set_solver|done].
Qed.

(** Rewriting the boundary pointers of a segment. *)
Lemma seg_set_next h pv es nx nx' :
  NoDup es.*1 → seg h pv es nx →
  seg (match final_ptr es None with Some q => alter (set_next nx') q h | None => h end) pv es nx'.
Proof.
  destruct es as [|e es _] using rev_ind; [done|].
  rewrite fmap_app, list.NoDup_app, final_ptr_app. destruct e as [p [k v]]. cbn. intros (_ & Hnd & _) Hs.
  apply seg_app in Hs as [Hs1 [Hp _]]. apply seg_app. cbn. split; [|split; [|done]].
  - eapply seg_frame; [|exact Hs1]. intros q Hq.
    rewrite lookup_alter_ne; [done|]. intros ->. set_solver.
  - by rewrite lookup_alter, decide_True, Hp.
Qed.

Lemma seg_set_prev h pv pv' es nx :
  NoDup es.*1 → seg h pv es nx →
  seg (match first_ptr es None with Some q => alter (set_prev pv') q h | None => h end) pv' es nx.
Proof.
  destruct es as [|[p [k v]] es]; [done|]. cbn. intros [Hp _]%list.NoDup_cons [Hl Hs]. split.
  - by rewrite lookup_alter, decide_True, Hl.
  - eapply seg_frame; [|exact Hs]. intros q Hq. rewrite lookup_alter_ne; [done|]. intros ->. by destruct Hp.
Qed.
Lemma seg_lookup h pv es1 p k v es2 nx :
  seg h pv (es1 ++ (p, (k, v)) :: es2) nx →
  h !! p = Some (mkListNode k v (final_ptr es1 pv) (first_ptr es2 nx)).
Proof. rewrite seg_app. cbn. naive_solver. Qed.

(** The heaps after a node is unhooked from between [es1] and [es2], and after
    the first node of [es] gets [p] as its predecessor. *)
Definition unhooked es1 es2 (h : gmap ptr ListNode) : gmap ptr ListNode :=
  let h1 := match final_ptr es1 None with
            | Some q => alter (set_next (first_ptr es2 None)) q h
            | None => h
            end in
  match first_ptr es2 None with
  | Some r => alter (set_prev (final_ptr es1 None)) r h1
  | None => h1
  end.

Definition hooked es (p : ptr) (h : gmap ptr ListNode) : gmap ptr ListNode :=
  match first_ptr es None with Some g => alter (set_prev (Some p)) g h | None => h end.

Lemma final_ptr_elem es p : final_ptr es None = Some p → p ∈ es.*1.
Proof.
  destruct es as [|[q kv] es _] using rev_ind; [done|].
  rewrite final_ptr_app, fmap_app. cbn. intros [= ->]. set_solver.
Qed.

Lemma first_ptr_elem es p : first_ptr es None = Some p → p ∈ es.*1.
Proof. destruct es as [|[q kv] es]; cbn; [done|]. intros [= ->]. set_solver. Qed.

Lemma unhooked_frame es1 es2 h p :
  p ∉ es1.*1 → p ∉ es2.*1 → unhooked es1 es2 h !! p = h !! p.
Proof.
  intros H1 H2. unfold unhooked.
  destruct (final_ptr es1 None) as [q|] eqn:Eq; destruct (first_ptr es2 None) as [r|] eqn:Er;
    try apply final_ptr_elem in Eq; try apply first_ptr_elem in Er;
    rewrite ?lookup_alter_ne; try done; intros ->; done.
Qed.

Lemma unhooked_dom es1 es2 h : dom (unhooked es1 es2 h) = dom h.
Proof. unfold unhooked. repeat case_match; by rewrite ?dom_alter_L. Qed.

Lemma hooked_frame es p h q : q ∉ es.*1 → hooked es p h !! q = h !! q.
Proof.
  intros Hq. unfold hooked. case_match eqn:E; [|done].
  apply first_ptr_elem in E. rewrite lookup_alter_ne; [done|]. by intros ->.
Qed.

Lemma hooked_dom es p h : dom (hooked es p h) = dom h.
Proof. unfold hooked. case_match; by rewrite ?dom_alter_L. Qed.

Lemma seg_unhook h es1 e es2 :
  NoDup (es1 ++ e :: es2).*1 → seg h None (es1 ++ e :: es2) None →
  seg (unhooked es1 es2 h) None (es1 ++ es2) None.
Proof.
  destruct e as [p [k v]]. rewrite fmap_app. cbn. intros (Hn1 & Hd & Hn2)%list.NoDup_app Hs.
  apply list.NoDup_cons in Hn2 as [Hp Hn2]. apply seg_app in Hs as [Hs1 [_ Hs2]].
  apply seg_app. unfold unhooked. split.
  - eapply seg_frame; [|exact (seg_set_next _ _ _ _ (first_ptr es2 None) Hn1 Hs1)].
    intros q Hq. destruct (first_ptr es2 None) as [r|] eqn:Er; [|done].
    apply first_ptr_elem in Er. rewrite lookup_alter_ne; [done|]. intros ->. set_solver.
  - eapply (seg_set_prev _ (Some p) (final_ptr es1 None)); [done|].
    eapply seg_frame; [|exact Hs2]. intros q Hq.
    destruct (final_ptr es1 None) as [r|] eqn:Er; [|done].
    apply final_ptr_elem in Er. rewrite lookup_alter_ne; [done|]. intros ->. set_solver.
Qed.

Lemma seg_hook h es p k v :
  NoDup es.*1 → p ∉ es.*1 → seg h None es None →
  h !! p = Some (mkListNode k v None (first_ptr es None)) →
  seg (hooked es p h) None ((p, (k, v)) :: es) None.
Proof.
  intros Hnd Hp Hs Hl. split; [by rewrite hooked_frame|]. by apply (seg_set_prev _ None).
Qed.

Lemma upd_node_eq p f c :
  p ∈ dom (node_heap c) →
  upd_node p f c = Some (tt, set_heap (alter f p (node_heap c)) c).
Proof.
  intros [n Hn]%elem_of_dom. unfold upd_node, node_at. mstep. rewrite Hn. cbn.
  f_equal. f_equal. f_equal. apply map_eq. intros q.
  rewrite lookup_alter, lookup_insert. case_decide; subst; by rewrite ?Hn.
Qed.
Lemma rep_elem_dom c es p : rep c es → p ∈ es.*1 → p ∈ dom (node_heap c).
Proof. intros R Hp. rewrite (rep_dom _ _ R). by apply elem_of_list_to_set. Qed.

(** Rearranging the same entries keeps everything but the links. *)
Lemma rep_permute c es h fr tl es' :
  rep c es → es ≡ₚ es' → dom h = dom (node_heap c) →
  seg h None es' None → fr = first_ptr es' None → tl = final_ptr es' None →
  rep (mkLruCache h (searcher_ c) fr tl) es'.
Proof.
  intros R Hp Hd Hs Hf Ht. split; cbn; try done.
  - rewrite <-Hp. apply R.
  - rewrite <-Hp. apply R.
  - rewrite Hd, (rep_dom _ _ R). apply list_to_set_perm_L. by rewrite Hp.
  - intros k q. rewrite (rep_search _ _ R). by setoid_rewrite Hp.
Qed.

Lemma NoDup_fmap_middle {A B} (f : A → B) (l1 l2 : list A) x :
  NoDup (f <$> l1 ++ x :: l2) → f x ∉ f <$> l1 ++ l2 ∧ NoDup (f <$> l1 ++ l2).
Proof. rewrite <-Permutation_middle. apply list.NoDup_cons. Qed.

Lemma node_at_eq p n c : node_heap c !! p = Some n → node_at p c = Some (n, c).
Proof. intros E. unfold node_at. mstep. by rewrite E. Qed.

Lemma hook_run es p fr c :
  first_ptr es None = fr → (∀ q, q ∈ es.*1 → q ∈ dom (node_heap c)) →
  (match fr with
   | Some g => upd_node g (set_prev (Some p))
   | None => mret tt
   end) c = Some (tt, set_heap (hooked es p (node_heap c)) c).
Proof.
  intros Ef Hd. unfold hooked. rewrite Ef. destruct fr as [g|]; [|by destruct c].
  apply upd_node_eq, Hd. by apply first_ptr_elem.
Qed.

(** The state after the body of [lru_touch] on a node that is not in front. *)
Lemma lru_touch_run c es1 p k v es2 :
  rep c (es1 ++ (p, (k, v)) :: es2) → es1 ≠ [] →
  lru_touch p c = Some (tt, mkLruCache
    (hooked (es1 ++ es2) p
       (alter (set_next (first_ptr (es1 ++ es2) None)) p
          (alter (set_prev None) p (unhooked es1 es2 (node_heap c)))))
    (searcher_ c) (Some p) (final_ptr (es1 ++ es2) None)).
Proof.
  intros R Hne. pose proof (seg_lookup _ _ _ _ _ _ _ _ (rep_seg _ _ R)) as Hl.
  assert (∀ q, q ∈ es1.*1 ∨ q = p ∨ q ∈ es2.*1 → q ∈ dom (node_heap c)) as Hdom.
  { intros q Hq. apply (rep_elem_dom _ _ _ R). rewrite fmap_app. set_solver. }
  destruct (final_ptr es1 None) as [q|] eqn:Eq.
  2:{ destruct es1 as [|e es1 _] using rev_ind; [done|]. by rewrite final_ptr_app in Eq. }
  assert (first_ptr (es1 ++ es2) None = lru_front_ c) as Efr.
  { rewrite (rep_front _ _ R), !first_ptr_app. by destruct es1. }
  unfold lru_touch. rewrite (exec (node_at_eq _ _ _ Hl)). cbn.
  erewrite bind_run by (apply upd_node_eq, Hdom; left; by apply final_ptr_elem).
  erewrite (bind_run _ _ _ tt (mkLruCache (unhooked es1 es2 (node_heap c)) (searcher_ c)
    (lru_front_ c) (final_ptr (es1 ++ es2) None))).
  2:{ unfold unhooked. rewrite Eq, final_ptr_app, Eq.
      destruct (first_ptr es2 None) as [r|] eqn:Er.
      - rewrite upd_node_eq.
        + unfold set_heap. cbn. repeat f_equal. rewrite (rep_tail _ _ R), final_ptr_app.
          by destruct es2.
        + cbn. rewrite dom_alter_L. apply Hdom. right. right. by apply first_ptr_elem.
      - by destruct es2. }
  erewrite bind_run by (apply upd_node_eq; cbn; rewrite unhooked_dom; apply Hdom; by right; left).
  erewrite (bind_run fetch) by done.
  erewrite bind_run by (apply upd_node_eq; cbn; rewrite dom_alter_L, unhooked_dom;
    apply Hdom; by right; left).
  erewrite bind_run.
  2:{ apply (hook_run (es1 ++ es2)); cbn; [done|]. intros r Hr.
      rewrite !dom_alter_L, unhooked_dom. apply Hdom. rewrite fmap_app in Hr. set_solver. }
  unfold modify, set_front, set_heap. cbn. by rewrite Efr.
Qed.

Lemma lru_touch_rep c es1 p k v es2 :
  rep c (es1 ++ (p, (k, v)) :: es2) →
  ∃ c', lru_touch p c = Some (tt, c') ∧ rep c' ((p, (k, v)) :: es1 ++ es2).
Proof.
  intros R. pose proof (seg_lookup _ _ _ _ _ _ _ _ (rep_seg _ _ R)) as Hl.
  destruct (decide (es1 = [])) as [->|Hne].
  { exists c. split; [|done]. unfold lru_touch.
    by rewrite (exec (node_at_eq _ _ _ Hl)). }
  eexists. split; [by eapply lru_touch_run|].
  destruct (NoDup_fmap_middle _ _ _ _ (rep_ptrs _ _ R)) as [Hp Hnd].
  apply (rep_permute c (es1 ++ (p, (k, v)) :: es2)); [done| | | |done|].
  - symmetry. apply Permutation_middle.
  - by rewrite hooked_dom, !dom_alter_L, unhooked_dom.
  - apply seg_hook; [done|done| |].
    + eapply seg_frame; [|eapply seg_unhook; [|exact (rep_seg _ _ R)]]; [|apply R].
      intros r Hr. rewrite !lookup_alter_ne; [done| |]; by intros <-.
    + rewrite !lookup_alter, !decide_True by done. rewrite fmap_app in Hp.
      rewrite unhooked_frame by set_solver. by rewrite Hl.
  - cbn. by destruct es1.
Qed.

(** [lru_push] of a node that is fresh both as an address and as a key. *)
Lemma lru_push_rep c es p k v :
  rep c es → p ∉ es.*1 → k ∉ es.*2.*1 →
  ∃ c', lru_push p (set_heap (<[p := mkListNode k v None None]> (node_heap c)) c) = Some (tt, c') ∧
    rep c' ((p, (k, v)) :: es).
Proof.
  intros R Hp Hk.
  assert (searcher_ c !! k = None) as Hs.
  { destruct (searcher_ c !! k) as [q|] eqn:E; [|done].
    apply (rep_search _ _ R) in E as [v' Hin]. destruct Hk.
    rewrite <-list_fmap_compose. exact (list_elem_of_fmap_2 (λ e, e.2.1) _ _ Hin). }
  set (h := alter (set_next (first_ptr es None)) p (alter (set_prev None) p
              (<[p := mkListNode k v None None]> (node_heap c)))).
  assert (h !! p = Some (mkListNode k v None (first_ptr es None))) as Hh.
  { unfold h. rewrite !lookup_alter, !decide_True by done. by rewrite lookup_insert, decide_True. }
  assert (dom h = {[p]} ∪ dom (node_heap c)) as Hd.
  { unfold h. by rewrite !dom_alter_L, dom_insert_L. }
  assert (p ∈ dom h) as Hpd by (rewrite Hd; set_solver).
  exists (mkLruCache (hooked es p h) (<[k := p]> (searcher_ c)) (Some p)
            (final_ptr ((p, (k, v)) :: es) None)).
  split.
  - unfold lru_push. erewrite (bind_run fetch) by done. cbn [lru_tail_ lru_front_ set_heap].
    erewrite (bind_run _ _ _ tt (mkLruCache (<[p := mkListNode k v None None]> (node_heap c))
      (searcher_ c) (lru_front_ c) (final_ptr es (Some p)))).
    2:{ pose proof (rep_tail _ _ R) as Et. destruct es as [|e es]; cbn in Et |- *; rewrite Et; [done|].
        destruct (final_ptr_is_Some es e.1) as [? Ef]. rewrite Ef in *. unfold set_heap. cbn. by rewrite Et. }
    erewrite bind_run by (apply upd_node_eq; cbn; rewrite dom_insert_L; set_solver).
    erewrite bind_run by (apply upd_node_eq; cbn; rewrite dom_alter_L, dom_insert_L; set_solver).
    erewrite bind_run.
    2:{ apply (hook_run es); cbn; [by rewrite (rep_front _ _ R)|].
        intros r Hr. rewrite !dom_alter_L, dom_insert_L. apply (rep_elem_dom _ _ _ R) in Hr. set_solver. }
    erewrite (bind_run (modify _)) by done.
    erewrite bind_run.
    2:{ apply (node_at_eq _ (mkListNode k v None (first_ptr es None))). cbn.
        rewrite (rep_front _ _ R). fold h. by rewrite hooked_frame. }
    unfold modify. cbn. by rewrite Hs, (rep_front _ _ R).
  - split; cbn.
    + apply seg_hook; [apply R|done| |done].
      eapply seg_frame; [|exact (rep_seg _ _ R)]. intros q Hq. unfold h.
      rewrite !lookup_alter_ne, lookup_insert_ne; [done| | |]; by intros <-.
    + done.
    + done.
    + constructor; [done|apply R].
    + constructor; [done|apply R].
    + rewrite hooked_dom, Hd, (rep_dom _ _ R). set_solver.
    + intros k' q. rewrite lookup_insert. setoid_rewrite elem_of_cons. case_decide as E.
      * subst k'. split; [intros [= <-]; exists v; by left|]. intros [v' [[=]|Hin]]; [by subst|].
        destruct Hk. rewrite <-list_fmap_compose. exact (list_elem_of_fmap_2 (λ e, e.2.1) _ _ Hin).
      * rewrite (rep_search _ _ R). naive_solver.
Qed.
Lemma final_ptr_middle es1 p kv es2 :
  p ∉ es2.*1 →
  (if decide (final_ptr (es1 ++ (p, kv) :: es2) None = Some p) then final_ptr es1 None
   else final_ptr (es1 ++ (p, kv) :: es2) None) = final_ptr (es1 ++ es2) None.
Proof.
  intros Hp. rewrite !final_ptr_app. cbn.
  destruct es2 as [|e es2]; cbn; [by rewrite decide_True|].
  rewrite decide_False; [done|]. intros E. destruct Hp.
  change (p ∈ (e :: es2).*1). by apply final_ptr_elem.
Qed.

Lemma first_ptr_middle es1 p kv es2 :
  p ∉ es1.*1 →
  (if decide (first_ptr (es1 ++ (p, kv) :: es2) None = Some p) then first_ptr es2 None
   else first_ptr (es1 ++ (p, kv) :: es2) None) = first_ptr (es1 ++ es2) None.
Proof.
  intros Hp. destruct es1 as [|e es1]; cbn; [by rewrite decide_True|].
  rewrite decide_False; [done|]. intros [= <-]. destruct Hp. left.
Qed.

Lemma lru_remove_run c es1 p k v es2 :
  rep c (es1 ++ (p, (k, v)) :: es2) →
  lru_remove_node p c = Some (tt, mkLruCache
    (delete p (unhooked es1 es2 (node_heap c))) (delete k (searcher_ c))
    (first_ptr (es1 ++ es2) None) (final_ptr (es1 ++ es2) None)).
Proof.
  intros R. pose proof (seg_lookup _ _ _ _ _ _ _ _ (rep_seg _ _ R)) as Hl.
  assert (∀ q, q ∈ es1.*1 ∨ q ∈ es2.*1 → q ∈ dom (node_heap c)) as Hdom.
  { intros q Hq. apply (rep_elem_dom _ _ _ R). rewrite fmap_app. set_solver. }
  destruct (NoDup_fmap_middle _ _ _ _ (rep_ptrs _ _ R)) as [Hp _].
  rewrite fmap_app in Hp. apply not_elem_of_app in Hp as [Hp1 Hp2].
  unfold lru_remove_node. rewrite (exec (node_at_eq _ _ _ Hl)). cbn [prev_ next_ key_].
  erewrite (bind_run _ _ _ tt (set_heap (match final_ptr es1 None with
      | Some q => alter (set_next (first_ptr es2 None)) q (node_heap c)
      | None => node_heap c end) c)).
  2:{ destruct (final_ptr es1 None) as [q|] eqn:Eq; [|by destruct c].
      apply upd_node_eq, Hdom. left. by apply final_ptr_elem. }
  erewrite (bind_run _ _ _ tt (set_heap (unhooked es1 es2 (node_heap c)) c)).
  2:{ unfold unhooked. destruct (first_ptr es2 None) as [r|] eqn:Er; [|by destruct c].
      rewrite upd_node_eq; [by destruct c|]. cbn.
      destruct (final_ptr es1 None); rewrite ?dom_alter_L; apply Hdom; right; by apply first_ptr_elem. }
  erewrite !(bind_run (modify _)) by done. unfold modify. repeat f_equal.
  rewrite <-(first_ptr_middle es1 p (k, v)), <-(final_ptr_middle es1 p (k, v)) by done.
  rewrite <-(rep_front _ _ R), <-(rep_tail _ _ R). cbn.
  destruct (decide (lru_front_ c = Some p)); cbn; by destruct (decide (lru_tail_ c = Some p)).
Qed.

Lemma rep_key_unique c es p k v p' v' :
  rep c es → (p, (k, v)) ∈ es → (p', (k, v')) ∈ es → p = p' ∧ v = v'.
Proof.
  intros R H1 H2.
  assert (p = p') as <-.
  { enough (Some p = Some p') by naive_solver.
    rewrite <-(proj2 (rep_search _ _ R k p)) by eauto.
    by rewrite <-(proj2 (rep_search _ _ R k p')) by eauto. }
  split; [done|].
  apply list_elem_of_split in H1 as (l1 & l2 & E).
  pose proof (rep_ptrs _ _ R) as Hnd. rewrite E in Hnd, H2.
  apply NoDup_fmap_middle in Hnd as [Hn _].
  apply elem_of_app in H2 as [H2|[H2|H2]%elem_of_cons]; [|naive_solver|]; destruct Hn;
    apply (list_elem_of_fmap_2 fst _ (p, (k, v'))); set_solver.
Qed.

Lemma lru_remove_rep c es1 p k v es2 :
  rep c (es1 ++ (p, (k, v)) :: es2) →
  ∃ c', lru_remove_node p c = Some (tt, c') ∧ rep c' (es1 ++ es2).
Proof.
  intros R. eexists. split; [by eapply lru_remove_run|].
  destruct (NoDup_fmap_middle _ _ _ _ (rep_ptrs _ _ R)) as [Hp Hnd].
  split; cbn; try done.
  - eapply seg_frame; [|eapply seg_unhook; [|exact (rep_seg _ _ R)]]; [|apply R].
    intros q Hq. rewrite lookup_delete_ne; [done|]. by intros <-.
  - pose proof (rep_keys _ _ R) as Hk. rewrite <-list_fmap_compose in Hk |- *.
    by apply NoDup_fmap_middle in Hk as [_ ?].
  - rewrite dom_delete_L, unhooked_dom, (rep_dom _ _ R). rewrite fmap_app in Hp |- *.
    rewrite !fmap_app, fmap_cons, !list_to_set_app_L. set_solver.
  - intros k' q. rewrite lookup_delete_Some, (rep_search _ _ R).
    setoid_rewrite elem_of_app. setoid_rewrite elem_of_cons. split.
    + intros [Hne [v' Hin]]. exists v'. naive_solver.
    + intros [v' Hin]. split; [|naive_solver]. intros <-.
      destruct (rep_key_unique c _ p k v q v' R) as [<- <-]; [set_solver|set_solver|].
      destruct Hp. apply (list_elem_of_fmap_2 fst _ (p, (k, v))). set_solver.
Qed.
(** ** Operations and their specification *)
Context {A : Type}.

Inductive cache_op : Type :=
  | OpCount
  | OpGet (k : K)
  | OpPeek (k : K)
  | OpPut (k : K) (v : V)
  | OpRemove (k : K)
  | OpForeach (func : K → V → A → bool * A) (a : A)
  | OpForeachReverse (func : K → V → A → bool * A) (a : A)
  | OpDestroy.

Inductive cache_result : Type :=
  | RUnit
  | RCount (n : nat)
  | RFound (v : option V)
  | RAcc (a : A).

Definition cache_run (op : cache_op) : M LruCache cache_result :=
  match op with
  | OpCount => c ← fetch; mret (RCount (cache_count c))
  | OpGet k => r ← cache_get k; mret (RFound r)
  | OpPeek k => r ← cache_peek k; mret (RFound r)
  | OpPut k v => cache_put k v;; mret RUnit
  | OpRemove k => cache_remove k;; mret RUnit
  | OpForeach f a => r ← cache_foreach f a; mret (RAcc r)
  | OpForeachReverse f a => r ← cache_foreach_reverse f a; mret (RAcc r)
  | OpDestroy => cache_destroy;; mret RUnit
  end.

Definition list_run (op : cache_op) (l : list (K * V)) : cache_result * list (K * V) :=
  match op with
  | OpCount => (RCount (length l), l)
  | OpGet k => let '(r, l') := lru_get k l in (RFound r, l')
  | OpPeek k => (RFound (lru_peek k l), l)
  | OpPut k v => (RUnit, lru_put k v l)
  | OpRemove k => (RUnit, lru_remove k l)
  | OpForeach f a => (RAcc (lru_foreach f l a), l)
  | OpForeachReverse f a => (RAcc (lru_foreach f (reverse l) a), l)
  | OpDestroy => (RUnit, [])
  end.

Fixpoint cache_runs (ops : list cache_op) : M LruCache (list cache_result) :=
  match ops with
  | [] => mret []
  | op :: ops => r ← cache_run op; rs ← cache_runs ops; mret (r :: rs)
  end.

Fixpoint list_runs (ops : list cache_op) (l : list (K * V)) : list cache_result * list (K * V) :=
  match ops with
  | [] => ([], l)
  | op :: ops =>
      let '(r, l1) := list_run op l in
      let '(rs, l2) := list_runs ops l1 in (r :: rs, l2)
  end.

Lemma rep_lookup c es k :
  rep c es →
  match searcher_ c !! k with
  | Some p => ∃ v es1 es2, es = es1 ++ (p, (k, v)) :: es2 ∧ lru_peek k es.*2 = Some v ∧
                lru_remove k es.*2 = (es1 ++ es2).*2 ∧
                node_heap c !! p = Some (mkListNode k v (final_ptr es1 None) (first_ptr es2 None))
  | None => k ∉ es.*2.*1
  end.
Proof.
  intros R. destruct (searcher_ c !! k) as [p|] eqn:E.
  - apply (rep_search _ _ R) in E as [v Hin]. exists v.
    apply list_elem_of_split in Hin as (es1 & es2 & ->). exists es1, es2.
    pose proof (rep_keys _ _ R) as Hk. split; [done|].
    assert (k ∉ es1.*2.*1) as Hk1.
    { rewrite <-list_fmap_compose in Hk. apply NoDup_fmap_middle in Hk as [Hk _].
      rewrite fmap_app in Hk. rewrite <-list_fmap_compose. set_solver. }
    split_and!.
    + apply lru_peek_elem; [done|]. rewrite fmap_app. set_solver.
    + rewrite !fmap_app. cbn. by apply lru_remove_app.
    + by eapply seg_lookup, rep_seg.
  - intros Hin. rewrite <-list_fmap_compose in Hin. apply list_elem_of_fmap in Hin as ([p [k' v]] & -> & Hin).
    assert (searcher_ c !! k' = Some p) as E2; [|cbn in E; congruence].
    apply (rep_search _ _ R). by exists v.
Qed.

Lemma rep_count c es : rep c es → cache_count c = length es.
Proof.
  intros R. unfold cache_count.
  assert (dom (searcher_ c) = list_to_set es.*2.*1) as E.
  { apply set_eq. intros k. rewrite elem_of_dom, elem_of_list_to_set. unfold is_Some.
    setoid_rewrite (rep_search _ _ R). rewrite <-list_fmap_compose, list_elem_of_fmap. split.
    - intros (p & v & Hin). by exists (p, (k, v)).
    - intros ([p [k' v]] & -> & Hin). by exists p, v. }
  rewrite <-size_dom, E, size_list_to_set by apply R. by rewrite !length_fmap.
Qed.

Lemma foreach_seg (f : K → V → A → bool * A) c es pv n a :
  seg (node_heap c) pv es None → (length es ≤ n)%nat →
  foreach_loop n next_ f (first_ptr es None) a c = Some (lru_foreach f es.*2 a, c).
Proof.
  revert pv n a. induction es as [|[p [k v]] es IH]; intros pv n a Hs Hn; cbn in *; [by destruct n|].
  destruct Hs as [Hp Hs], n as [|n]; [lia|]. cbn.
  rewrite (exec (node_at_eq _ _ _ Hp)). cbn.
  destruct (f k v a) as [[] a']; [|done]. apply (IH (Some p)); [done|lia].
Qed.

Lemma foreach_reverse_seg (f : K → V → A → bool * A) c es nx n a :
  seg (node_heap c) None es nx → (length es ≤ n)%nat →
  foreach_loop n prev_ f (final_ptr es None) a c = Some (lru_foreach f (reverse es.*2) a, c).
Proof.
  revert nx n a. induction es as [|[p [k v]] es IH] using rev_ind; intros nx n a Hs Hn; [by destruct n|].
  rewrite length_app in Hn. cbn in Hn. destruct n as [|n]; [lia|].
  apply seg_app in Hs as [Hs [Hp _]]. rewrite final_ptr_app. cbn.
  rewrite (exec (node_at_eq _ _ _ Hp)). cbn.
  rewrite fmap_app, reverse_app. cbn.
  destruct (f k v a) as [[] a']; [|done]. by eapply IH; [|lia].
Qed.

Lemma cache_put_rep c es k v :
  rep c es → ∃ c' es', cache_put k v c = Some (tt, c') ∧ rep c' es' ∧ es'.*2 = lru_put k v es.*2.
Proof.
  intros R. unfold cache_put. erewrite (bind_run fetch) by done.
  pose proof (rep_lookup c es k R) as Hl. destruct (searcher_ c !! k) as [p|].
  - destruct Hl as (v0 & es1 & es2 & -> & _ & Hr & Hp).
    assert (rep (set_heap (alter (set_value v) p (node_heap c)) c) (es1 ++ (p, (k, v)) :: es2)) as R'.
    { destruct (NoDup_fmap_middle _ _ _ _ (rep_ptrs _ _ R)) as [Hn _]. rewrite fmap_app in Hn.
      destruct R as [Hs Hf Ht Hnd Hk Hd Hse]. split; cbn; try done.
      - apply seg_app in Hs as [Hs1 [Hs2 Hs3]]. apply seg_app. split; [|split].
        + eapply seg_frame; [|exact Hs1]. intros q Hq. rewrite lookup_alter_ne; [done|]. set_solver.
        + by rewrite lookup_alter, decide_True, Hs2.
        + eapply seg_frame; [|exact Hs3]. intros q Hq. rewrite lookup_alter_ne; [done|]. set_solver.
      - rewrite Hf, !first_ptr_app. by destruct es1.
      - rewrite Ht, !final_ptr_app. done.
      - by rewrite fmap_app in Hnd |- *.
      - by rewrite !fmap_app in Hk |- *.
      - rewrite dom_alter_L, Hd. by rewrite !fmap_app.
      - intros k' q. rewrite Hse. setoid_rewrite elem_of_app. setoid_rewrite elem_of_cons. naive_solver. }
    destruct (lru_touch_rep _ _ _ _ _ _ R') as (c' & E & R2).
    exists c', ((p, (k, v)) :: es1 ++ es2). split_and!; [|done|].
    + erewrite bind_run; [exact E|]. apply upd_node_eq. apply elem_of_dom. eauto.
    + unfold lru_put. by rewrite Hr.
  - set (p := fresh (dom (node_heap c))).
    assert (p ∉ es.*1) as Hp.
    { intros Hin. apply (is_fresh (dom (node_heap c))). by apply (rep_elem_dom _ _ _ R). }
    destruct (lru_push_rep c es p k v R Hp Hl) as (c' & E & R2).
    exists c', ((p, (k, v)) :: es). split_and!; [done|done|].
    unfold lru_put. cbn. by rewrite lru_remove_not_elem.
Qed.

(** One operation of the pointer structure does what it does on the list. *)
Lemma cache_run_refines op c es :
  rep c es →
  ∃ c' es', cache_run op c = Some ((list_run op es.*2).1, c') ∧ rep c' es' ∧
    es'.*2 = (list_run op es.*2).2.
Proof.
  intros R. destruct op as [|k|k|k v|k|f a|f a|]; cbn.
  - exists c, es. split_and!; [|done|done]. mstep. by rewrite (rep_count _ _ R), length_fmap.
  - unfold cache_get, lru_get. pose proof (rep_lookup c es k R) as Hl. mstep.
    destruct (searcher_ c !! k) as [p|].
    + destruct Hl as (v & es1 & es2 & -> & Hv & Hr & Hp).
      destruct (lru_touch_rep _ _ _ _ _ _ R) as (c' & E & R2). rewrite Hv, Hr, E. cbn.
      exists c', ((p, (k, v)) :: es1 ++ es2). split_and!; [|done|done].
      destruct (rep_seg _ _ R2) as [Hn _]. by rewrite (node_at_eq _ _ _ Hn).
    + apply lru_peek_None in Hl. rewrite Hl. by exists c, es.
  - unfold cache_peek. pose proof (rep_lookup c es k R) as Hl. mstep.
    destruct (searcher_ c !! k) as [p|].
    + destruct Hl as (v & es1 & es2 & E & -> & _ & Hp). exists c, es.
      by rewrite (node_at_eq _ _ _ Hp).
    + apply lru_peek_None in Hl. rewrite Hl. by exists c, es.
  - destruct (cache_put_rep c es k v R) as (c' & es' & E & R2 & Hes).
    exists c', es'. by rewrite (exec E).
  - unfold cache_remove. pose proof (rep_lookup c es k R) as Hl. mstep.
    destruct (searcher_ c !! k) as [p|].
    + destruct Hl as (v & es1 & es2 & -> & _ & Hr & _).
      destruct (lru_remove_rep _ _ _ _ _ _ R) as (c' & E & R2).
      exists c', (es1 ++ es2). by rewrite E, Hr.
    + exists c, es. by rewrite lru_remove_not_elem.
  - exists c, es. split_and!; [|done|done]. unfold cache_foreach. mstep.
    rewrite (rep_front _ _ R), (rep_count _ _ R).
    by rewrite (foreach_seg f c es None) by (done || apply R).
  - exists c, es. split_and!; [|done|done]. unfold cache_foreach_reverse. mstep.
    rewrite (rep_tail _ _ R), (rep_count _ _ R).
    by rewrite (foreach_reverse_seg f c es None) by (done || apply R).
  - eexists _, []. split_and!; [done| |done]. cbn. split; cbn; try done; [constructor|constructor| |].
    + apply set_eq. intros p. rewrite elem_of_dom. split; [|set_solver].
      intros [n Hn]. apply map_lookup_filter_Some in Hn as [Hn Hp]. exfalso. apply Hp. cbn.
      assert (p ∈ es.*1) as Hin.
      { apply (elem_of_list_to_set (C:=gset nat)). rewrite <-(rep_dom _ _ R). apply elem_of_dom. eauto. }
      apply list_elem_of_fmap in Hin as ([p' [k v]] & -> & Hin). apply list_elem_of_fmap.
      exists (k, p'). split; [done|]. apply elem_of_map_to_list, (rep_search _ _ R). eauto.
    + intros k p. split; [done|]. set_solver.
Qed.

Lemma cache_runs_refines ops c es :
  rep c es →
  ∃ c' es', cache_runs ops c = Some ((list_runs ops es.*2).1, c') ∧ rep c' es' ∧
    es'.*2 = (list_runs ops es.*2).2.
Proof.
  revert c es. induction ops as [|op ops IH]; intros c es R; [by exists c, es|].
  destruct (cache_run_refines op c es R) as (c1 & es1 & E1 & R1 & H1).
  destruct (IH c1 es1 R1) as (c2 & es2 & E2 & R2 & H2). exists c2, es2. cbn.
  rewrite (exec E1), (exec E2).
  destruct (list_run op es.*2) as [r l1]. cbn in H1. rewrite H1 in *. cbn.
  by destruct (list_runs ops l1).
Qed.

(** For every sequence of operations from the empty cache, the doubly linked
    list with its hash set follows no null or dangling pointer, every loop
    ends, every result is that of the list of pairs ordered by last use, and in
    the final state exactly the nodes of that list are live (none leaks), with
    both ends and all links in place. *)
Theorem lru_cache_refines (ops : list cache_op) :
  ∃ c' es', cache_runs ops empty_cache = Some ((list_runs ops []).1, c') ∧
    rep c' es' ∧ es'.*2 = (list_runs ops []).2.
Proof.
  apply (cache_runs_refines ops empty_cache []).
  split; cbn; try done; [constructor|constructor|]. intros k p. set_solver.
Qed.
End pointer_cache.
