(* ===== verification/MemPool.v ===== *)
(** * The object pool of [common/mm/mem_pool.h]

    [MemPoolSimple<T>] allocates arrays of [T] and hands the elements out one by
    one: [frees] is the queue of idle objects and [used] the set of those handed
    out.  The objects live in the heap [mp_heap]; an address outside it is not
    live and following it aborts.  Arrays are placed at increasing addresses.
    The template needs [T] to have [reinit] and [reset]; the mutex is recursive
    and every operation holds it throughout. *)

From S2P Require Import Prelude.
Local Open Scope Z_scope.

(** What the template asks of its element type. *)
Class PoolItem (T : Type) := {
  item_new : T;
  item_reinit : T → T;
  item_reset : T → T
}.

Notation Ptr := Z (only parsing).

Section mem_pool.
Context {T : Type} `{!PoolItem T}.

Record MemPoolSimple : Type := mkMemPoolSimple {
  mp_heap : gmap Ptr T;
  mp_top : Ptr;
  pools : list Ptr;
  used : gset Ptr;
  frees : list Ptr;
  pool_size : Z;
  dynamic : bool;
  item_num_per_pool : Z
}.

(** A pool before [init]: [dynamic] and [item_num_per_pool] are not set. *)
Definition new_pool : MemPoolSimple := mkMemPoolSimple ∅ 0 [] ∅ [] 0 false 0.

(** The [n] addresses from [base] on. *)
Definition block (base : Ptr) (n : Z) : list Ptr := (λ i, base + Z.of_nat i) <$> seq 0 (Z.to_nat n).

Definition set_dynamic (b : bool) (m : MemPoolSimple) : MemPoolSimple :=
  mkMemPoolSimple (mp_heap m) (mp_top m) (pools m) (used m) (frees m) (pool_size m) b (item_num_per_pool m).
Definition set_item_num (n : Z) (m : MemPoolSimple) : MemPoolSimple :=
  mkMemPoolSimple (mp_heap m) (mp_top m) (pools m) (used m) (frees m) (pool_size m) (dynamic m) n.
Definition mp_set_heap (h : gmap Ptr T) (m : MemPoolSimple) : MemPoolSimple :=
  mkMemPoolSimple h (mp_top m) (pools m) (used m) (frees m) (pool_size m) (dynamic m) (item_num_per_pool m).

(** [extend]: 0 on success.  [size] is an [int]; its overflow is undefined. *)
Definition extend : M MemPoolSimple Z :=
  m ← fetch;
  if negb (dynamic m) then mret (-1)
  else
    let n := item_num_per_pool m in
    let base := mp_top m in
    assertb (bool_decide (in_srange 32 (pool_size m + n)));;
    store (mkMemPoolSimple
      (foldr (λ p h, <[p := item_new]> h) (mp_heap m) (block base n))
      (base + n) (pools m ++ [base]) (used m) (frees m ++ block base n)
      (pool_size m + n) (dynamic m) n);;
    mret 0.

(** [cleanup]: all objects are idle again and every array is deleted. *)
Definition pool_cleanup : M MemPoolSimple unit :=
  m ← fetch;
  match pools m with
  | [] => mret tt
  | _ :: _ =>
      let gone := pools m ≫= λ base, block base (item_num_per_pool m) in
      store (mkMemPoolSimple (filter (λ e, e.1 ∉ gone) (mp_heap m)) (mp_top m) [] ∅ [] 0
               (dynamic m) (item_num_per_pool m))
  end.

Fixpoint extend_loop (n : nat) : M MemPoolSimple Z :=
  match n with
  | O => mret 0
  | S n => r ← extend; if r <? 0 then pool_cleanup;; mret (-1) else extend_loop n
  end.

Definition pool_init (dyn : bool) (pool_num item_num : Z) : M MemPoolSimple Z :=
  m ← fetch;
  match pools m with
  | _ :: _ => mret 0
  | [] =>
      if (pool_num <=? 0) || (item_num <=? 0) then mret (-1)
      else
        modify (set_item_num item_num);;
        modify (set_dynamic true);;
        r ← extend_loop (Z.to_nat pool_num);
        if r <? 0 then mret (-1)
        else modify (set_dynamic dyn);; mret 0
  end.

(** [alloc]: [None] is the null pointer. *)
Definition pool_take : M MemPoolSimple (option Ptr) :=
  m ← fetch;
  match frees m with
  | [] => abort
  | buffer :: rest =>
      store (mkMemPoolSimple (mp_heap m) (mp_top m) (pools m) ({[buffer]} ∪ used m) rest
               (pool_size m) (dynamic m) (item_num_per_pool m));;
      x ← deref (mp_heap m !! buffer);
      modify (λ m, mp_set_heap (<[buffer := item_reinit x]> (mp_heap m)) m);;
      mret (Some buffer)
  end.

Definition pool_alloc : M MemPoolSimple (option Ptr) :=
  m ← fetch;
  match frees m with
  | [] =>
      if negb (dynamic m) then mret None
      else r ← extend; if r <? 0 then mret None else pool_take
  | _ :: _ => pool_take
  end.

(** [free]: an object that is not handed out is reset but not queued. *)
Definition pool_free (buf : Ptr) : M MemPoolSimple unit :=
  m ← fetch;
  x ← deref (mp_heap m !! buf);
  modify (λ m, mp_set_heap (<[buf := item_reset x]> (mp_heap m)) m);;
  m ← fetch;
  if negb (bool_decide (buf ∈ used m)) then mret tt
  else store (mkMemPoolSimple (mp_heap m) (mp_top m) (pools m) (used m ∖ {[buf]}) (frees m ++ [buf])
               (pool_size m) (dynamic m) (item_num_per_pool m)).

Definition get_used_num (m : MemPoolSimple) : nat := size (used m).

(** ** The invariant: every live object is either idle or handed out, never
    both, never twice. *)
Record pool_wf (m : MemPoolSimple) : Prop := {
  pool_frees_nodup : NoDup (frees m);
  pool_disj : ∀ p, p ∈ frees m → p ∉ used m;
  pool_dom : ∀ p, is_Some (mp_heap m !! p) ↔ p ∈ used m ∨ p ∈ frees m;
  pool_top : ∀ p, is_Some (mp_heap m !! p) → p < mp_top m;
  pool_count : pool_size m = Z.of_nat (size (used m)) + Z.of_nat (length (frees m));
  pool_range : 0 ≤ pool_size m < 2 ^ 31;
  pool_blocks : ∀ p, is_Some (mp_heap m !! p) →
                ∃ base, base ∈ pools m ∧ p ∈ block base (item_num_per_pool m);
  pool_num_pos : pools m ≠ [] ∨ dynamic m = true → 0 < item_num_per_pool m
}.

Lemma elem_of_block base n p : p ∈ block base n ↔ base ≤ p < base + n.
Proof.
  unfold block. rewrite list_elem_of_fmap. setoid_rewrite elem_of_seq. split.
  - intros (i & -> & Hi). lia.
  - intros Hp. exists (Z.to_nat (p - base)). lia.
Qed.

Lemma length_block base n : length (block base n) = Z.to_nat n.
Proof. unfold block. by rewrite length_fmap, length_seq. Qed.

Lemma NoDup_block base n : NoDup (block base n).
Proof. apply NoDup_fmap_2; [intros i j ?; lia|apply NoDup_seq]. Qed.

Lemma lookup_foldr_insert {A} (x : A) (l : list Ptr) (h : gmap Ptr A) p :
  foldr (λ q h, <[q := x]> h) h l !! p = if decide (p ∈ l) then Some x else h !! p.
Proof.
  induction l as [|q l IH]; cbn; [by rewrite decide_False by set_solver|].
  rewrite lookup_insert, IH. repeat case_decide; set_solver.
Qed.

Lemma new_pool_wf : pool_wf new_pool.
Proof.
  split; cbn; try done.
  - apply NoDup_nil_2.
  - intros p. rewrite lookup_empty. split; [by intros []|]. rewrite elem_of_nil. set_solver.
  - intros p. rewrite lookup_empty. by intros [].
  - intros p. rewrite lookup_empty. by intros [].
  - by intros [].
Qed.

Lemma extend_wf m :
  pool_wf m → dynamic m = true → 0 < item_num_per_pool m → pool_size m + item_num_per_pool m < 2 ^ 31 →
  ∃ m', extend m = Some (0, m') ∧ pool_wf m' ∧ used m' = used m ∧
    frees m' = frees m ++ block (mp_top m) (item_num_per_pool m) ∧
    pool_size m' = pool_size m + item_num_per_pool m ∧
    dynamic m' = true ∧ item_num_per_pool m' = item_num_per_pool m ∧ pools m' ≠ [] ∧
    (∀ p, is_Some (mp_heap m !! p) → mp_heap m' !! p = mp_heap m !! p) ∧
    (∀ p, p ∈ block (mp_top m) (item_num_per_pool m) → mp_heap m' !! p = Some item_new).
Proof.
  intros W Hd Hn Hs. unfold extend. erewrite (bind_run fetch) by done. rewrite Hd. cbn.
  pose proof (pool_range _ W).
  assert (bool_decide (in_srange 32 (pool_size m + item_num_per_pool m)) = true) as ->.
  { apply bool_decide_eq_true. unfold in_srange. lia. }
  mstep. set (b := block _ _). eexists. split; [done|]. cbn.
  assert (∀ p, is_Some (mp_heap m !! p) → p ∉ b) as Hfresh.
  { intros p Hp%(pool_top _ W). unfold b. rewrite elem_of_block. lia. }
  split_and!; try done.
  - split; cbn.
    + apply list.NoDup_app. split_and!; [apply W| |apply NoDup_block].
      intros p Hp. apply Hfresh, (pool_dom _ W). by right.
    + intros p [Hp|Hp]%elem_of_app; [by apply W|]. intros Hu. apply (Hfresh p); [|done].
      apply (pool_dom _ W). by left.
    + intros p. rewrite lookup_foldr_insert, elem_of_app. case_decide.
      * split; [tauto|done].
      * rewrite (pool_dom _ W). tauto.
    + intros p. rewrite lookup_foldr_insert. case_decide as Hp.
      * intros _. unfold b in Hp. apply elem_of_block in Hp. lia.
      * intros Hs'%(pool_top _ W). lia.
    + rewrite length_app, (pool_count _ W). unfold b. rewrite length_block. lia.
    + lia.
    + intros p. rewrite lookup_foldr_insert. case_decide as Hp.
      * intros _. exists (mp_top m). split; [set_solver|done].
      * intros (base & Hb & Hin)%(pool_blocks _ W). exists base. split; [set_solver|done].
    + done.
  - by destruct (pools m).
  - intros p Hp. rewrite lookup_foldr_insert, decide_False; auto.
  - intros p Hp. by rewrite lookup_foldr_insert, decide_True.
Qed.

Lemma extend_loop_wf n m :
  pool_wf m → dynamic m = true → 0 < item_num_per_pool m →
  pool_size m + Z.of_nat n * item_num_per_pool m < 2 ^ 31 →
  ∃ m', extend_loop n m = Some (0, m') ∧ pool_wf m' ∧ used m' = used m ∧
    pool_size m' = pool_size m + Z.of_nat n * item_num_per_pool m ∧
    item_num_per_pool m' = item_num_per_pool m ∧ (n ≠ O ∨ pools m ≠ [] → pools m' ≠ []) ∧
    ∀ p x, mp_heap m' !! p = Some x → mp_heap m !! p = Some x ∨ x = item_new.
Proof.
  revert m. induction n as [|n IH]; intros m W Hd Hn Hs.
  { exists m. split_and!; try done; [lia|naive_solver|naive_solver]. }
  destruct (extend_wf m W Hd Hn) as (m1 & E & W1 & Hu & Hf & Hsz & Hd1 & Hi & Hp & Hold & Hnew); [lia|].
  destruct (IH m1 W1 Hd1) as (m2 & E2 & W2 & Hu2 & Hsz2 & Hi2 & Hp2 & Hx2); [lia|rewrite Hi; nia|].
  exists m2. cbn. rewrite (exec E). cbn.
  split_and!; try done; [congruence|rewrite Hsz2, Hi, Hsz; nia|congruence|tauto|].
  intros p x [Hx|Hx]%Hx2; [|by right].
  assert (p ∈ used m1 ∨ p ∈ frees m1) as Hin by (apply (pool_dom _ W1); eauto).
  rewrite Hu, Hf, elem_of_app in Hin. destruct Hin as [Hin|[Hin|Hin]].
  1,2: left; rewrite <-Hx; symmetry; apply Hold, (pool_dom _ W); auto.
  right. rewrite (Hnew p Hin) in Hx. naive_solver.
Qed.

Lemma set_dynamic_wf b m :
  pool_wf m → 0 < item_num_per_pool m → pool_wf (set_dynamic b m).
Proof. by intros [] ?. Qed.

(** Arming an empty pool for its first arrays. *)
Lemma pool_arm_wf m n : pool_wf m → pools m = [] → 0 < n → pool_wf (set_dynamic true (set_item_num n m)).
Proof.
  intros W Hp Hn. destruct W as [H1 H2 H3 H4 H5 H6 H7 H8]. split; cbn; try done.
  intros p (base & Hb & _)%H7. rewrite Hp in Hb. by apply not_elem_of_nil in Hb.
Qed.

Lemma pool_init_new dyn pool_num item_num :
  0 < pool_num → 0 < item_num → pool_num * item_num < 2 ^ 31 →
  ∃ m', pool_init dyn pool_num item_num new_pool = Some (0, m') ∧ pool_wf m' ∧
    used m' = ∅ ∧ Z.of_nat (length (frees m')) = pool_num * item_num ∧ dynamic m' = dyn ∧
    ∀ p x, mp_heap m' !! p = Some x → x = item_new.
Proof.
  intros Hp Hi Hm. unfold pool_init. erewrite (bind_run fetch) by done. cbn [pools new_pool].
  rewrite (proj2 (Z.leb_gt _ _) Hp), (proj2 (Z.leb_gt _ _) Hi). cbn [orb].
  erewrite !(bind_run (modify _)) by done.
  set (m0 := set_dynamic true (set_item_num item_num new_pool)).
  assert (pool_wf m0) as W0 by (apply pool_arm_wf; [apply new_pool_wf|done|done]).
  destruct (extend_loop_wf (Z.to_nat pool_num) m0 W0) as (m1 & E & W1 & Hu & Hs & Hi1 & _ & Hx);
    [done|done|cbn; lia|].
  exists (set_dynamic dyn m1). rewrite (exec E). cbn.
  split_and!; try done; [apply set_dynamic_wf; [done|by rewrite Hi1]| |].
  - pose proof (pool_count _ W1) as Hc. rewrite Hu in Hc. cbn in Hc, Hs.
    rewrite size_empty in Hc. lia.
  - intros p x Hl%Hx. cbn in Hl. rewrite lookup_empty in Hl. naive_solver.
Qed.

Lemma pool_take_wf m b rest x :
  pool_wf m → frees m = b :: rest → mp_heap m !! b = Some x →
  let m' := mkMemPoolSimple (<[b := item_reinit x]> (mp_heap m)) (mp_top m) (pools m)
              ({[b]} ∪ used m) rest (pool_size m) (dynamic m) (item_num_per_pool m) in
  pool_take m = Some (Some b, m') ∧ pool_wf m' ∧ b ∉ used m.
Proof.
  intros W Hf Hx m'.
  pose proof (pool_frees_nodup _ W) as Hnd. rewrite Hf in Hnd. apply list.NoDup_cons in Hnd as [Hb Hnd].
  assert (b ∉ used m) as Hbu by (apply (pool_disj _ W); rewrite Hf; left).
  split_and!; [|split; cbn|done].
  - unfold pool_take. mstep. by rewrite Hf, Hx.
  - done.
  - intros p Hp [->%elem_of_singleton|Hu]%elem_of_union; [done|].
    apply (pool_disj _ W p); [rewrite Hf; by right|done].
  - intros p. pose proof (pool_dom _ W p) as Hd. rewrite Hf, elem_of_cons in Hd.
    rewrite lookup_insert_is_Some', Hd, elem_of_union, elem_of_singleton. naive_solver.
  - intros p. rewrite lookup_insert_is_Some'. intros [->|Hp]; apply (pool_top _ W); eauto.
  - rewrite size_union by set_solver. rewrite size_singleton, (pool_count _ W), Hf. cbn. lia.
  - apply W.
  - intros p. rewrite lookup_insert_is_Some'. intros [->|Hp]; apply (pool_blocks _ W); eauto.
  - apply W.
Qed.

(** [alloc] on a pool that does not grow: null exactly when nothing is idle. *)
Lemma pool_alloc_fixed m :
  pool_wf m → dynamic m = false →
  match frees m with
  | [] => pool_alloc m = Some (None, m)
  | b :: rest => ∃ x, mp_heap m !! b = Some x ∧
      let m' := mkMemPoolSimple (<[b := item_reinit x]> (mp_heap m)) (mp_top m) (pools m)
                  ({[b]} ∪ used m) rest (pool_size m) (dynamic m) (item_num_per_pool m) in
      pool_alloc m = Some (Some b, m') ∧ pool_wf m' ∧ b ∉ used m
  end.
Proof.
  intros W Hd. unfold pool_alloc. mstep. destruct (frees m) as [|b rest] eqn:Hf.
  - by rewrite Hd.
  - assert (is_Some (mp_heap m !! b)) as [x Hx]
      by (apply (pool_dom _ W); right; rewrite Hf; left).
    exists x. split; [done|]. by apply pool_take_wf.
Qed.

(** [free] of an object that is handed out queues it behind the idle ones. *)
Lemma pool_free_used m b x :
  pool_wf m → b ∈ used m → mp_heap m !! b = Some x →
  let m' := mkMemPoolSimple (<[b := item_reset x]> (mp_heap m)) (mp_top m) (pools m)
              (used m ∖ {[b]}) (frees m ++ [b]) (pool_size m) (dynamic m) (item_num_per_pool m) in
  pool_free b m = Some (tt, m') ∧ pool_wf m'.
Proof.
  intros W Hb Hx m'. assert (b ∉ frees m) as Hbf by (intros Hf; by apply (pool_disj _ W b)).
  split; [|split; cbn].
  - unfold pool_free. mstep. rewrite Hx. cbn. by rewrite bool_decide_eq_true_2.
  - apply list.NoDup_app. split_and!; [apply W|set_solver|apply NoDup_singleton].
  - intros p [Hp|Hp%list_elem_of_singleton]%elem_of_app; [|set_solver].
    pose proof (pool_disj _ W p Hp). set_solver.
  - intros p. rewrite lookup_insert_is_Some', (pool_dom _ W p), elem_of_app, list_elem_of_singleton.
    rewrite elem_of_difference, elem_of_singleton. destruct (decide (p = b)); naive_solver.
  - intros p. rewrite lookup_insert_is_Some'. intros [->|Hp]; apply (pool_top _ W); eauto.
  - rewrite length_app, size_difference by set_solver. rewrite size_singleton, (pool_count _ W). cbn.
    assert (size (used m) ≠ 0%nat); [|lia]. intros Hs%size_empty_inv. set_solver.
  - apply W.
  - intros p. rewrite lookup_insert_is_Some'. intros [->|Hp]; apply (pool_blocks _ W); eauto.
  - apply W.
Qed.

(** After [cleanup] of an initialised pool nothing is live. *)
Lemma pool_cleanup_ok m :
  pool_wf m →
  ∃ m', pool_cleanup m = Some (tt, m') ∧ pool_wf m' ∧ mp_heap m' = ∅ ∧ used m' = ∅ ∧
    frees m' = [] ∧ pool_size m' = 0 ∧ pools m' = [].
Proof.
  intros W. unfold pool_cleanup. mstep. destruct (pools m) as [|b bs] eqn:Hp.
  - assert (∀ p, mp_heap m !! p = None) as Hn.
    { intros p. destruct (mp_heap m !! p) eqn:E; [|done]. exfalso.
      destruct (pool_blocks _ W p) as (base & Hb & _); [eauto|]. rewrite Hp in Hb. set_solver. }
    assert (used m = ∅) as Hu.
    { apply set_eq. intros p. split; [|set_solver]. intros Hin.
      assert (is_Some (mp_heap m !! p)) as [x E] by (apply (pool_dom _ W); auto). by rewrite Hn in E. }
    assert (frees m = []) as Hf.
    { destruct (frees m) as [|p l] eqn:E; [done|]. exfalso.
      assert (is_Some (mp_heap m !! p)) as [x Hx] by (apply (pool_dom _ W); rewrite E; right; left).
      by rewrite Hn in Hx. }
    exists m. split_and!; try done; [by apply map_eq|].
    rewrite (pool_count _ W), Hu, Hf, size_empty. done.
  - eexists. split; [done|]. cbn.
    match goal with |- context [filter ?Q (mp_heap m)] => set (h := filter Q (mp_heap m)) end.
    assert (h = ∅) as ->.
    { apply map_empty_filter_2. intros p x Hx Hn.
      destruct (pool_blocks _ W p) as (base & Hb & Hin); [eauto|]. apply Hn.
      apply (list_elem_of_bind (λ base, block base (item_num_per_pool m)) p (b :: bs)).
      exists base. split; [done|]. by rewrite <-Hp. }
    split_and!; try done.
    destruct new_pool_wf. split; cbn; try done.
    + intros p. rewrite lookup_empty. by intros [].
    + intros p. rewrite lookup_empty. by intros [].
    + intros [?|?]; [done|]. apply (pool_num_pos _ W). auto.
Qed.

(** Writing to a live object changes nothing else. *)
Lemma pool_wf_write m p x :
  pool_wf m → is_Some (mp_heap m !! p) → pool_wf (mp_set_heap (<[p := x]> (mp_heap m)) m).
Proof.
  intros W Hp.
  assert (∀ q, is_Some (<[p := x]> (mp_heap m) !! q) ↔ is_Some (mp_heap m !! q)) as Hq.
  { intros q. rewrite lookup_insert_is_Some'. split; [|auto]. intros [->|?]; eauto. }
  destruct W. split; cbn; try done; intros q; rewrite Hq; auto.
Qed.

(** ** Histories of a pool *)
Inductive pool_op : Type :=
  | PInit (dyn : bool) (pool_num item_num : Z)
  | PAlloc
  | PFree (p : Ptr)
  | PCleanup.

(** The addresses handed out, kept by the clients: an [alloc] that succeeds adds
    its result, a [free] takes it away. *)
Definition pool_step (op : pool_op) : M (MemPoolSimple * gset Ptr) unit := λ '(m, held),
  match op with
  | PInit d a b => '(_, m') ← pool_init d a b m; Some (tt, (m', held))
  | PAlloc =>
      '(r, m') ← pool_alloc m;
      Some (tt, (m', match r with Some p => {[p]} ∪ held | None => held end))
  | PFree p => '(_, m') ← pool_free p m; Some (tt, (m', held ∖ {[p]}))
  | PCleanup => '(_, m') ← pool_cleanup m; Some (tt, (m', ∅))
  end.

Fixpoint pool_steps (ops : list pool_op) : M (MemPoolSimple * gset Ptr) unit :=
  match ops with
  | [] => mret tt
  | op :: ops => pool_step op;; pool_steps ops
  end.

Lemma extend_inv m r m' :
  pool_wf m → extend m = Some (r, m') →
  (r = -1 ∧ m' = m ∧ dynamic m = false) ∨
  (r = 0 ∧ pool_wf m' ∧ used m' = used m ∧ dynamic m' = true ∧ dynamic m = true ∧
   item_num_per_pool m' = item_num_per_pool m ∧ frees m' ≠ []).
Proof.
  intros W E. destruct (dynamic m) eqn:Hd.
  - right. assert (0 < item_num_per_pool m) as Hn by (apply (pool_num_pos _ W); auto).
    destruct (decide (pool_size m + item_num_per_pool m < 2 ^ 31)) as [Hs|Hs].
    + destruct (extend_wf m W Hd Hn Hs) as (m1 & E1 & W1 & Hu & Hf & _ & Hd1 & Hi & _).
      rewrite E in E1. simplify_eq. split_and!; try done. rewrite Hf.
      intros [_ Hb]%app_eq_nil. apply (f_equal length) in Hb. rewrite length_block in Hb. cbn in Hb. lia.
    + exfalso. revert E. unfold extend. mstep. rewrite Hd. cbn.
      rewrite bool_decide_eq_false_2; [done|]. unfold in_srange. lia.
  - left. revert E. unfold extend. mstep. rewrite Hd. cbn. naive_solver.
Qed.

Lemma extend_loop_inv n m r m' :
  pool_wf m → dynamic m = true → extend_loop n m = Some (r, m') →
  r = 0 ∧ pool_wf m' ∧ used m' = used m ∧ item_num_per_pool m' = item_num_per_pool m.
Proof.
  revert m. induction n as [|n IH]; intros m W Hd; cbn.
  { mstep. naive_solver. }
  intros (r1 & m1 & E1 & E2)%bind_Some.
  destruct (extend_inv _ _ _ W E1) as [(-> & -> & ?)|(-> & W1 & Hu & Hd1 & _ & Hi & _)]; [congruence|].
  cbn in E2. destruct (IH _ W1 Hd1 E2) as (-> & W2 & Hu2 & Hi2). split_and!; congruence.
Qed.

Lemma pool_init_inv dyn a b m r m' :
  pool_wf m → pool_init dyn a b m = Some (r, m') → pool_wf m' ∧ used m' = used m.
Proof.
  intros W. unfold pool_init. intros (? & ? & [= <- <-] & E)%bind_Some.
  destruct (pools m) as [|? ?] eqn:Hp; [|by simplify_eq/=; injection E; intros; subst].
  destruct ((a <=? 0) || (b <=? 0)) eqn:Hab; [by injection E; intros; subst|].
  apply orb_false_iff in Hab as [_ Hb%Z.leb_gt].
  erewrite !(bind_run (modify _)) in E by done.
  apply bind_Some in E as (r1 & m1 & E1 & E).
  destruct (extend_loop_inv _ _ _ _ (pool_arm_wf m b W Hp Hb) eq_refl E1) as (-> & W1 & Hu & Hi).
  cbn in E. injection E as <- <-. split; [|done]. apply set_dynamic_wf; [done|]. by rewrite Hi.
Qed.

Lemma pool_alloc_inv m r m' :
  pool_wf m → pool_alloc m = Some (r, m') →
  pool_wf m' ∧
  match r with
  | Some p => p ∉ used m ∧ used m' = {[p]} ∪ used m
  | None => m' = m ∧ dynamic m = false ∧ frees m = []
  end.
Proof.
  intros W. unfold pool_alloc. intros (? & ? & [= <- <-] & E)%bind_Some.
  assert (∀ m, pool_wf m → frees m ≠ [] → pool_take m = Some (r, m') →
    pool_wf m' ∧ ∃ p, r = Some p ∧ p ∉ used m ∧ used m' = {[p]} ∪ used m) as Htake.
  { clear. intros m W Hne E. destruct (frees m) as [|b rest] eqn:Hf; [done|].
    assert (is_Some (mp_heap m !! b)) as [x Hx] by (apply (pool_dom _ W); right; rewrite Hf; left).
    destruct (pool_take_wf m b rest x W Hf Hx) as (E1 & W1 & Hb). rewrite E in E1. simplify_eq.
    split; [done|]. by exists b. }
  destruct (frees m) as [|b rest] eqn:Hf.
  - destruct (dynamic m) eqn:Hd; cbn in E; [|by injection E as <- <-].
    apply bind_Some in E as (r1 & m1 & E1 & E).
    destruct (extend_inv _ _ _ W E1) as [(-> & -> & ?)|(-> & W1 & Hu & _ & _ & _ & Hne)]; [congruence|].
    cbn in E. destruct (Htake m1 W1 Hne E) as (W2 & p & -> & Hp & Hu2).
    split; [done|]. by rewrite <-Hu.
  - destruct (Htake m W) as (W2 & p & -> & Hp & Hu2); [by rewrite Hf|done|]. done.
Qed.

Lemma pool_free_inv m p m' :
  pool_wf m → pool_free p m = Some (tt, m') → pool_wf m' ∧ used m' = used m ∖ {[p]}.
Proof.
  intros W E. assert (is_Some (mp_heap m !! p)) as [x Hx].
  { revert E. unfold pool_free. mstep. destruct (mp_heap m !! p); [eauto|done]. }
  destruct (decide (p ∈ used m)) as [Hu|Hu].
  - destruct (pool_free_used m p x W Hu Hx) as [E1 W1]. rewrite E in E1. by simplify_eq.
  - revert E. unfold pool_free. mstep. rewrite Hx. cbn. rewrite bool_decide_eq_false_2 by done. cbn.
    intros [= <-]. cbn. split; [|set_solver].
    apply pool_wf_write; [done|]. rewrite Hx. eauto.
Qed.

Lemma pool_step_inv op m held m' held' :
  pool_wf m → used m = held → pool_step op (m, held) = Some (tt, (m', held')) →
  pool_wf m' ∧ used m' = held'.
Proof.
  intros W Hu. destruct op; cbn.
  - destruct (pool_init _ _ _ m) as [[r m1]|] eqn:E; cbn; [|done]. intros [= <- <-].
    apply pool_init_inv in E as [? ?]; [|done]. split; congruence.
  - destruct (pool_alloc m) as [[r m1]|] eqn:E; cbn; [|done]. intros [= <- <-].
    apply pool_alloc_inv in E as [? Hr]; [|done]. split; [done|].
    destruct r; [|naive_solver]. destruct Hr as [_ ->]. by subst.
  - destruct (pool_free p m) as [[[] m1]|] eqn:E; cbn; [|done]. intros [= <- <-].
    apply pool_free_inv in E as [? ?]; [|done]. split; congruence.
  - destruct (pool_cleanup_ok m W) as (m1 & -> & W1 & _ & Hu1 & _). cbn. intros [= <- <-]. done.
Qed.

Lemma pool_steps_inv ops m held m' held' :
  pool_wf m → used m = held → pool_steps ops (m, held) = Some (tt, (m', held')) →
  pool_wf m' ∧ used m' = held'.
Proof.
  revert m held. induction ops as [|op ops IH]; intros m held W Hu; cbn.
  { mstep. naive_solver. }
  intros ([] & [m1 held1] & E1 & E2)%bind_Some.
  destruct (pool_step_inv _ _ _ _ _ W Hu E1) as [W1 Hu1]. exact (IH _ _ W1 Hu1 E2).
Qed.

(** after any history of [init], [alloc], [free] and [cleanup] calls, the
    objects in [used] are exactly those that the clients hold, an idle object is
    queued once and held by nobody, [get_size] counts both kinds, and the next
    [alloc] never hands out an object somebody holds: it answers null only on a
    pool that may not grow and has nothing idle. *)
Theorem pool_history_safe (ops : list pool_op) m held :
  pool_steps ops (new_pool, ∅) = Some (tt, (m, held)) →
  used m = held ∧ NoDup (frees m) ∧ (∀ p, p ∈ frees m → p ∉ held) ∧
  pool_size m = Z.of_nat (size held) + Z.of_nat (length (frees m)) ∧
  (∀ p, is_Some (mp_heap m !! p) ↔ p ∈ held ∨ p ∈ frees m) ∧
  ∀ r m', pool_alloc m = Some (r, m') →
    match r with
    | Some p => p ∉ held ∧ is_Some (mp_heap m' !! p)
    | None => dynamic m = false ∧ frees m = []
    end.
Proof.
  intros E. destruct (pool_steps_inv _ _ _ _ _ new_pool_wf eq_refl E) as [W <-].
  split_and!; try apply W; [done|]. intros r m' Ha.
  destruct (pool_alloc_inv _ _ _ W Ha) as [W' Hr]. destruct r as [p|]; [|naive_solver].
  destruct Hr as [Hp Hu]. split; [done|]. apply (pool_dom _ W'). left. set_solver.
Qed.
End mem_pool.

Lemma pool_history_safe_witness :
  let _ : PoolItem Z := {| item_new := 0; item_reinit x := x; item_reset x := x |} in
  ∃ m held, pool_steps [PInit false 1 2; PAlloc; PAlloc; PFree 0; PAlloc] (new_pool, ∅)
              = Some (tt, (m, held)) ∧ used m = held ∧ (∀ p, p ∈ frees m → p ∉ held).
Proof.
  intros I. eexists _, _. split; [vm_compute; reflexivity|].
  match goal with |- used ?m = ?h ∧ _ =>
    destruct (pool_history_safe [PInit false 1 2; PAlloc; PAlloc; PFree 0; PAlloc] m h) as (H1 & _ & H2 & _)
  end; [vm_compute; reflexivity|]. split; [exact H1|exact H2].
Defined.
Arguments MemPoolSimple : clear implicits.
