(* ===== verification/Stats.v ===== *)
(** * Buffer pool statistics

    Models [storage/os/diagnostics/buffer_pool_stats.{h,cpp}]: one 64-bit atomic
    counter per metric, the recording functions and the two compare-exchange
    loops ([update_max], [decrement_if_positive]), first under interference by
    other threads, then as the single steps they amount to. *)

From S2P Require Import Prelude.
Local Open Scope Z_scope.

Inductive FlushReason : Type := EXPLICIT | EVICTION | SHUTDOWN | CHECKPOINT | OTHER.
#[global] Instance FlushReason_eq_dec : EqDecision FlushReason.
Proof. solve_decision. Defined.

(** The fields of [BufferPoolStats] and of its snapshot. *)
Inductive Counter : Type :=
  | page_requests | cache_hits | cache_misses | disk_reads | disk_writes
  | evictions | dirty_evictions | flushes | page_allocations | page_disposals
  | pin_requests | unpin_requests | no_buffer_failures
  | current_pinned_frames | peak_pinned_frames | dirty_pages_current | peak_dirty_pages
  | bytes_read | bytes_written
  | read_latency_ns_total | write_latency_ns_total | flush_latency_ns_total
  | read_latency_max_ns | write_latency_max_ns
  | eviction_flushes | explicit_flushes | shutdown_flushes.
#[global] Instance Counter_eq_dec : EqDecision Counter.
Proof. solve_decision. Defined.

Definition BufferPoolStats : Type := Counter → Z.
Definition BufferPoolStatsSnapshot : Type := Counter → Z.

Definition zero_stats : BufferPoolStats := λ _, 0.

Definition stat_set (c : Counter) (v : Z) (s : BufferPoolStats) : BufferPoolStats :=
  λ c', if decide (c' = c) then v else s c'.

(** ** The compare-exchange loops under interference

    Each round, [target] is first found at some value [t] that other threads
    left, and the weak exchange may fail spuriously.  The result is the value of
    [target] when the loop ends, [None] if it is still running. *)
Fixpoint update_max_loop (rounds : list (Z * bool)) (current value target : Z) : option Z :=
  if current <? value then
    match rounds with
    | [] => None
    | (t, spurious) :: rounds =>
        if (t =? current) && negb spurious then Some value
        else update_max_loop rounds t value t
    end
  else Some target.

Fixpoint decrement_loop (rounds : list (Z * bool)) (current target : Z) : option Z :=
  if 0 <? current then
    match rounds with
    | [] => None
    | (t, spurious) :: rounds =>
        if (t =? current) && negb spurious then Some (current - 1)
        else decrement_loop rounds t t
    end
  else Some target.

(** Without interference the loops take one round. *)
Definition update_max (c : Counter) (value : Z) (s : BufferPoolStats) : BufferPoolStats :=
  match update_max_loop [(s c, false)] (s c) value (s c) with
  | Some t => stat_set c t s
  | None => s
  end.

Definition decrement_if_positive (c : Counter) (s : BufferPoolStats) : BufferPoolStats :=
  match decrement_loop [(s c, false)] (s c) (s c) with
  | Some t => stat_set c t s
  | None => s
  end.

(** [fetch_add] on a 64-bit counter. *)
Definition fetch_add (c : Counter) (n : Z) (s : BufferPoolStats) : BufferPoolStats :=
  stat_set c (uwrap 64 (s c + n)) s.

(** ** Recording *)
Definition record_page_request (hit : bool) (s : BufferPoolStats) : BufferPoolStats :=
  let s := fetch_add page_requests 1 s in
  if hit then fetch_add cache_hits 1 s else fetch_add cache_misses 1 s.

Definition record_disk_read (bytes latency_ns : Z) (s : BufferPoolStats) : BufferPoolStats :=
  update_max read_latency_max_ns latency_ns
    (fetch_add read_latency_ns_total latency_ns (fetch_add bytes_read bytes (fetch_add disk_reads 1 s))).

Definition record_disk_write (bytes latency_ns : Z) (s : BufferPoolStats) : BufferPoolStats :=
  update_max write_latency_max_ns latency_ns
    (fetch_add write_latency_ns_total latency_ns
       (fetch_add bytes_written bytes (fetch_add disk_writes 1 s))).

Definition record_eviction (dirty : bool) (s : BufferPoolStats) : BufferPoolStats :=
  let s := fetch_add evictions 1 s in
  if dirty then fetch_add dirty_evictions 1 s else s.

Definition record_flush (reason : FlushReason) (latency_ns : Z) (s : BufferPoolStats) : BufferPoolStats :=
  let s := fetch_add flush_latency_ns_total latency_ns (fetch_add flushes 1 s) in
  match reason with
  | EVICTION => fetch_add eviction_flushes 1 s
  | EXPLICIT => fetch_add explicit_flushes 1 s
  | SHUTDOWN => fetch_add shutdown_flushes 1 s
  | CHECKPOINT | OTHER => s
  end.

Definition record_page_allocation (s : BufferPoolStats) := fetch_add page_allocations 1 s.
Definition record_page_disposal (s : BufferPoolStats) := fetch_add page_disposals 1 s.

Definition record_pin (first_pin : bool) (s : BufferPoolStats) : BufferPoolStats :=
  let s := fetch_add pin_requests 1 s in
  if first_pin then
    let current := uwrap 64 (s current_pinned_frames + 1) in
    update_max peak_pinned_frames current (fetch_add current_pinned_frames 1 s)
  else s.

Definition record_unpin (last_unpin : bool) (s : BufferPoolStats) : BufferPoolStats :=
  let s := fetch_add unpin_requests 1 s in
  if last_unpin then decrement_if_positive current_pinned_frames s else s.

Definition record_no_buffer_failure (s : BufferPoolStats) := fetch_add no_buffer_failures 1 s.

Definition record_dirty (s : BufferPoolStats) : BufferPoolStats :=
  let current := uwrap 64 (s dirty_pages_current + 1) in
  update_max peak_dirty_pages current (fetch_add dirty_pages_current 1 s).

Definition record_clean (s : BufferPoolStats) : BufferPoolStats :=
  decrement_if_positive dirty_pages_current s.

Definition stats_snapshot (s : BufferPoolStats) : BufferPoolStatsSnapshot := λ c, s c.

(** [reset] clears every counter but the two current values; the peaks restart
    from these. *)
Definition stats_reset (s : BufferPoolStats) : BufferPoolStats := λ c,
  match c with
  | current_pinned_frames | peak_pinned_frames => s current_pinned_frames
  | dirty_pages_current | peak_dirty_pages => s dirty_pages_current
  | _ => 0
  end.

(** ** Lemmas *)

(** Whatever the other threads do, a loop that ends leaves the maximum of the
    last value it met and [value]. *)
Lemma update_max_loop_max rounds current value target r :
  target = current → update_max_loop rounds current value target = Some r →
  ∃ t, (t = current ∨ t ∈ rounds.*1) ∧ r = Z.max t value.
Proof.
  revert current target. induction rounds as [|[t b] rounds IH]; intros current target ->; cbn;
    destruct (current <? value) eqn:E; intros Hr.
  - done.
  - apply Z.ltb_ge in E. injection Hr as <-. exists current. split; [by left|lia].
  - apply Z.ltb_lt in E. destruct ((t =? current) && negb b) eqn:Et.
    + injection Hr as <-. apply andb_true_iff in Et as [->%Z.eqb_eq _].
      exists current. split; [by left|lia].
    + destruct (IH t t eq_refl Hr) as (u & [->|Hu] & ->);
        [exists t|exists u]; (split; [|done]); right; [left|by right].
  - apply Z.ltb_ge in E. injection Hr as <-. exists current. split; [by left|lia].
Qed.

(** Likewise the decrement takes one from the last value it met, and never
    below zero. *)
Lemma decrement_loop_pred rounds current target r :
  target = current → 0 ≤ current → (∀ t, t ∈ rounds.*1 → 0 ≤ t) →
  decrement_loop rounds current target = Some r →
  ∃ t, (t = current ∨ t ∈ rounds.*1) ∧ r = Z.max 0 (t - 1) ∧ 0 ≤ r.
Proof.
  revert current target. induction rounds as [|[t b] rounds IH]; intros current target -> Hc Ht; cbn;
    destruct (0 <? current) eqn:E; intros Hr.
  - done.
  - apply Z.ltb_ge in E. injection Hr as <-. exists current. split; [by left|lia].
  - apply Z.ltb_lt in E. destruct ((t =? current) && negb b) eqn:Et.
    + injection Hr as <-. apply andb_true_iff in Et as [->%Z.eqb_eq _].
      exists current. split; [by left|lia].
    + destruct (IH t t eq_refl) as (u & [->|Hu] & Hu2); [apply Ht; left|intros v Hv; apply Ht; by right|done| |];
        [exists t|exists u]; (split; [|done]); right; [left|by right].
  - apply Z.ltb_ge in E. injection Hr as <-. exists current. split; [by left|lia].
Qed.

Lemma update_max_eq c value s : update_max c value s = stat_set c (Z.max (s c) value) s.
Proof.
  unfold update_max. cbn. rewrite Z.eqb_refl. cbn.
  destruct (s c <? value) eqn:E; [apply Z.ltb_lt in E|apply Z.ltb_ge in E]; f_equal; lia.
Qed.

Lemma decrement_if_positive_eq c s :
  decrement_if_positive c s = stat_set c (if 0 <? s c then s c - 1 else s c) s.
Proof. unfold decrement_if_positive. cbn. rewrite Z.eqb_refl. cbn. by destruct (0 <? s c). Qed.

(** ** Histories of the counters *)
Inductive stat_event : Type :=
  | SRequest (hit : bool)
  | SRead (bytes latency : Z)
  | SWrite (bytes latency : Z)
  | SEviction (dirty : bool)
  | SFlush (reason : FlushReason) (latency : Z)
  | SAllocation
  | SDisposal
  | SPin (first : bool)
  | SUnpin (last : bool)
  | SNoBuffer
  | SDirty
  | SClean
  | SReset.

Definition stat_step (s : BufferPoolStats) (e : stat_event) : BufferPoolStats :=
  match e with
  | SRequest hit => record_page_request hit s
  | SRead b l => record_disk_read b l s
  | SWrite b l => record_disk_write b l s
  | SEviction d => record_eviction d s
  | SFlush r l => record_flush r l s
  | SAllocation => record_page_allocation s
  | SDisposal => record_page_disposal s
  | SPin f => record_pin f s
  | SUnpin l => record_unpin l s
  | SNoBuffer => record_no_buffer_failure s
  | SDirty => record_dirty s
  | SClean => record_clean s
  | SReset => stats_reset s
  end.

(** How often an event of a kind happened since the last reset. *)
Fixpoint since_reset (p : stat_event → bool) (tr : list stat_event) : Z :=
  match tr with
  | [] => 0
  | SReset :: _ => 0
  | e :: tr => since_reset p tr + Z.b2z (p e)
  end.

(** The highest number the counter of pinned (dirty) frames reached since the
    last reset, and its value now. *)
Fixpoint level (up down : stat_event → bool) (tr : list stat_event) : Z :=
  match tr with
  | [] => 0
  | SReset :: tr => level up down tr
  | e :: tr =>
      let l := level up down tr in
      if up e then l + 1 else if down e then Z.max 0 (l - 1) else l
  end.

Fixpoint peak (up down : stat_event → bool) (tr : list stat_event) : Z :=
  match tr with
  | [] => 0
  | SReset :: tr => level up down tr
  | e :: tr => Z.max (peak up down tr) (level up down (e :: tr))
  end.

Definition is_pin (e : stat_event) := match e with SPin true => true | _ => false end.
Definition is_unpin (e : stat_event) := match e with SUnpin true => true | _ => false end.
Definition is_dirty (e : stat_event) := match e with SDirty => true | _ => false end.
Definition is_clean (e : stat_event) := match e with SClean => true | _ => false end.
Definition is_hit (e : stat_event) := match e with SRequest true => true | _ => false end.
Definition is_miss (e : stat_event) := match e with SRequest false => true | _ => false end.
Definition is_eviction (e : stat_event) := match e with SEviction _ => true | _ => false end.
Definition is_dirty_eviction (e : stat_event) := match e with SEviction true => true | _ => false end.
Definition is_flush_for (r : FlushReason) (e : stat_event) :=
  match e with SFlush r' _ => bool_decide (r = r') | _ => false end.

(** Newest event first. *)
Definition stat_run (tr : list stat_event) : BufferPoolStats := foldr (λ e s, stat_step s e) zero_stats tr.

Lemma level_bound up down tr : 0 ≤ level up down tr ≤ Z.of_nat (length tr).
Proof.
  induction tr as [|e tr IH]; [cbn; lia|].
  destruct e; cbn [level length]; try (destruct (up _); [|destruct (down _)]); lia.
Qed.

Lemma peak_bound up down tr : level up down tr ≤ peak up down tr ≤ Z.of_nat (length tr).
Proof.
  induction tr as [|e tr IH]; [cbn; lia|].
  pose proof (level_bound up down (e :: tr)). pose proof (level_bound up down tr).
  destruct e; cbn [peak length level] in *; lia.
Qed.

Lemma since_reset_bound p tr : 0 ≤ since_reset p tr ≤ Z.of_nat (length tr).
Proof.
  induction tr as [|e tr IH]; cbn [since_reset length]; [lia|].
  destruct e; try lia; destruct (p _); cbn [Z.b2z]; lia.
Qed.

(** Reading a counter of a state built by the recording functions. *)
Ltac stat_eval :=
  unfold record_page_request, record_disk_read, record_disk_write, record_eviction, record_flush,
    record_page_allocation, record_page_disposal, record_pin, record_unpin, record_no_buffer_failure,
    record_dirty, record_clean;
  repeat match goal with
         | |- context [if ?b then _ else _] => is_var b; destruct b
         | |- context [match ?r with _ => _ end] => is_var r; destruct r
         end;
  rewrite ?update_max_eq, ?decrement_if_positive_eq;
  unfold fetch_add, stat_set;
  repeat (rewrite ?decide_True by done; rewrite ?decide_False by done).

Definition is_request (e : stat_event) := match e with SRequest _ => true | _ => false end.

Lemma since_reset_hit_miss tr :
  since_reset is_request tr = since_reset is_hit tr + since_reset is_miss tr.
Proof.
  induction tr as [|e tr IH]; [done|]. destruct e as [[]| | | | | | | | | | | |]; cbn; lia.
Qed.

(** A counter that goes up on the events of [p] counts them. *)
Lemma counter_counts (c : Counter) (p : stat_event → bool) tr :
  (∀ s e, stat_step s e c = match e with
                            | SReset => 0
                            | _ => if p e then uwrap 64 (s c + 1) else s c
                            end) →
  Z.of_nat (length tr) < 2 ^ 64 → stat_run tr c = since_reset p tr.
Proof.
  intros Hstep. induction tr as [|e tr IH]; [done|]. cbn [length]. intros Hlen.
  change (stat_run (e :: tr)) with (stat_step (stat_run tr) e). rewrite Hstep, IH by lia.
  pose proof (since_reset_bound p tr).
  destruct e; cbn [since_reset]; try done; destruct (p _); cbn [Z.b2z]; rewrite ?uwrap_id; lia.
Qed.

(** A counter that follows the events [up] and [down], and its peak. *)
Lemma level_counts (c pk : Counter) (up down : stat_event → bool) tr :
  (∀ s e, stat_step s e c = match e with
                            | SReset => s c
                            | _ => if up e then uwrap 64 (s c + 1)
                                   else if down e then (if 0 <? s c then s c - 1 else s c) else s c
                            end) →
  (∀ s e, stat_step s e pk = match e with
                             | SReset => s c
                             | _ => if up e then Z.max (s pk) (uwrap 64 (s c + 1)) else s pk
                             end) →
  Z.of_nat (length tr) < 2 ^ 64 →
  stat_run tr c = level up down tr ∧ stat_run tr pk = peak up down tr.
Proof.
  intros Hc Hp. induction tr as [|e tr IH]; [done|]. cbn [length]. intros Hlen.
  change (stat_run (e :: tr)) with (stat_step (stat_run tr) e). rewrite Hc, Hp.
  destruct IH as [IHc IHp]; [lia|]. rewrite IHc, IHp.
  pose proof (level_bound up down tr). pose proof (peak_bound up down tr).
  destruct e; cbn [level peak]; try done; (destruct (up _); [rewrite uwrap_id; lia|]);
    (destruct (down _); [destruct (0 <? level up down tr) eqn:E; lia|]); lia.
Qed.

Ltac stat_case :=
  let s := fresh "s" in let e := fresh "e" in
  intros s e; destruct e as [[]| | |[]|[]| | |[]|[]| | | |]; cbn [stat_step]; stat_eval; done.

(** after any history of fewer than 2^64 recorded events, every counter of
    the snapshot has its meaning: requests are hits plus misses since the last
    reset, dirty evictions and flushes are counted per kind, and the current
    numbers of pinned and of dirty frames (which a reset keeps) and their peaks
    are those of the history. *)
Theorem stats_snapshot_meaning (tr : list stat_event) :
  Z.of_nat (length tr) < 2 ^ 64 →
  let s := stats_snapshot (stat_run tr) in
  s cache_hits = since_reset is_hit tr ∧ s cache_misses = since_reset is_miss tr ∧
  s page_requests = s cache_hits + s cache_misses ∧
  s evictions = since_reset is_eviction tr ∧ s dirty_evictions = since_reset is_dirty_eviction tr ∧
  s eviction_flushes = since_reset (is_flush_for EVICTION) tr ∧
  s explicit_flushes = since_reset (is_flush_for EXPLICIT) tr ∧
  s shutdown_flushes = since_reset (is_flush_for SHUTDOWN) tr ∧
  s current_pinned_frames = level is_pin is_unpin tr ∧ s peak_pinned_frames = peak is_pin is_unpin tr ∧
  s dirty_pages_current = level is_dirty is_clean tr ∧ s peak_dirty_pages = peak is_dirty is_clean tr.
Proof.
  intros Hlen s. subst s. unfold stats_snapshot.
  rewrite (counter_counts cache_hits is_hit), (counter_counts cache_misses is_miss),
    (counter_counts page_requests is_request), (counter_counts evictions is_eviction),
    (counter_counts dirty_evictions is_dirty_eviction),
    (counter_counts eviction_flushes (is_flush_for EVICTION)),
    (counter_counts explicit_flushes (is_flush_for EXPLICIT)),
    (counter_counts shutdown_flushes (is_flush_for SHUTDOWN)) by (done || stat_case).
  destruct (level_counts current_pinned_frames peak_pinned_frames is_pin is_unpin tr) as [-> ->];
    [stat_case|stat_case|done|].
  destruct (level_counts dirty_pages_current peak_dirty_pages is_dirty is_clean tr) as [-> ->];
    [stat_case|stat_case|done|].
  split_and!; try done. apply since_reset_hit_miss.
Qed.

Lemma stats_snapshot_meaning_witness :
  let tr := [SUnpin true; SDirty; SReset; SPin true; SRequest true; SPin true] in
  stats_snapshot (stat_run tr) current_pinned_frames = 1 ∧
  stats_snapshot (stat_run tr) current_pinned_frames = level is_pin is_unpin tr ∧
  stats_snapshot (stat_run tr) peak_pinned_frames = peak is_pin is_unpin tr.
Proof.
  intros tr. destruct (stats_snapshot_meaning tr) as (_ & _ & _ & _ & _ & _ & _ & _ & H1 & H2 & _);
    [reflexivity|]. split_and!; [reflexivity|exact H1|exact H2].
Defined.
