(* ===== verification/Latch.v ===== *)
(** * The read/write latch [RecursiveSharedMutex]

    Models the [CONCURRENCY] version of [common/lang/mutex.{h,cpp}].  Between
    two waits a method runs with [mutex_] held, so it is one atomic action of
    the four fields; a method whose condition fails puts its thread on a
    condition variable and, once woken, tries again.  The actions are functions
    on the fields; the step relation interleaves the threads' calls, wakes
    waiting threads (also spuriously) and keeps track of who holds what.

    Clients follow the rule of the class comment: a thread that holds a read
    latch does not ask for the write latch, and a writer not for a read latch. *)

From S2P Require Import Prelude.
Local Open Scope Z_scope.

Notation thread_id := nat (only parsing).

Record RecursiveSharedMutex : Type := mkRSM {
  shared_lock_count_ : Z;
  exclusive_lock_count_ : Z;
  recursive_owner_ : option thread_id;
  recursive_count_ : Z
}.

Definition new_mutex : RecursiveSharedMutex := mkRSM 0 0 None 0.

(** One pass through the loop of [lock_shared]: [None] waits on [shared_lock_cv_]. *)
Definition rsm_lock_shared (m : RecursiveSharedMutex) : option RecursiveSharedMutex :=
  if 0 <? exclusive_lock_count_ m then None
  else Some (mkRSM (shared_lock_count_ m + 1) (exclusive_lock_count_ m) (recursive_owner_ m) (recursive_count_ m)).

Definition rsm_try_lock_shared (m : RecursiveSharedMutex) : bool * RecursiveSharedMutex :=
  if exclusive_lock_count_ m =? 0 then
    (true, mkRSM (shared_lock_count_ m + 1) (exclusive_lock_count_ m) (recursive_owner_ m) (recursive_count_ m))
  else (false, m).

(** The second result is whether [exclusive_lock_cv_.notify_one] is called. *)
Definition rsm_unlock_shared (m : RecursiveSharedMutex) : RecursiveSharedMutex * bool :=
  let n := shared_lock_count_ m - 1 in
  (mkRSM n (exclusive_lock_count_ m) (recursive_owner_ m) (recursive_count_ m), n =? 0).

(** One pass through the loop of [lock] by thread [t]: [None] waits on
    [exclusive_lock_cv_]. *)
Definition rsm_lock (t : thread_id) (m : RecursiveSharedMutex) : option RecursiveSharedMutex :=
  if (0 <? shared_lock_count_ m) || (0 <? exclusive_lock_count_ m) then
    if bool_decide (recursive_owner_ m = Some t) then
      Some (mkRSM (shared_lock_count_ m) (exclusive_lock_count_ m) (recursive_owner_ m) (recursive_count_ m + 1))
    else None
  else Some (mkRSM (shared_lock_count_ m) (exclusive_lock_count_ m + 1) (Some t) 1).

(** The second result is whether the waiters of both variables are notified. *)
Definition rsm_unlock (t : thread_id) (m : RecursiveSharedMutex) : RecursiveSharedMutex * bool :=
  if bool_decide (recursive_owner_ m = Some t) && (1 <? recursive_count_ m) then
    (mkRSM (shared_lock_count_ m) (exclusive_lock_count_ m) (recursive_owner_ m) (recursive_count_ m - 1), false)
  else
    let n := exclusive_lock_count_ m - 1 in
    (mkRSM (shared_lock_count_ m) n None 0, n =? 0).

(** ** Interleaved executions *)

(** [readers] and [writers] list a thread once per read or write latch it holds;
    [wait_*] are blocked on a condition variable, [woken_*] have been notified
    and will try again. *)
Record latch_state : Type := mkLatch {
  lk : RecursiveSharedMutex;
  readers : list thread_id;
  writers : list thread_id;
  wait_s : gset thread_id;
  woken_s : gset thread_id;
  wait_x : gset thread_id;
  woken_x : gset thread_id
}.

Definition initial_latch : latch_state := mkLatch new_mutex [] [] ∅ ∅ ∅ ∅.

(** The thread is inside [lock_shared] or [lock]. *)
Definition inside (g : latch_state) (t : thread_id) : Prop :=
  t ∈ wait_s g ∪ woken_s g ∪ wait_x g ∪ woken_x g.

(** [notify_one] on [exclusive_lock_cv_]: some waiter, if there is one. *)
Inductive notify_one_x (g : latch_state) : latch_state → Prop :=
  | notify_none : wait_x g = ∅ → notify_one_x g g
  | notify_some w : w ∈ wait_x g →
      notify_one_x g (mkLatch (lk g) (readers g) (writers g) (wait_s g) (woken_s g)
                        (wait_x g ∖ {[w]}) ({[w]} ∪ woken_x g)).

Definition notify_all_s (g : latch_state) : latch_state :=
  mkLatch (lk g) (readers g) (writers g) ∅ (wait_s g ∪ woken_s g) (wait_x g) (woken_x g).

(** The pass of [lock_shared] (resp. [lock]) by [t], which is on none of the sets. *)
Definition pass_shared (t : thread_id) (g : latch_state) : latch_state :=
  match rsm_lock_shared (lk g) with
  | Some m => mkLatch m (t :: readers g) (writers g) (wait_s g) (woken_s g) (wait_x g) (woken_x g)
  | None => mkLatch (lk g) (readers g) (writers g) ({[t]} ∪ wait_s g) (woken_s g) (wait_x g) (woken_x g)
  end.

Definition pass_exclusive (t : thread_id) (g : latch_state) : latch_state :=
  match rsm_lock t (lk g) with
  | Some m => mkLatch m (readers g) (t :: writers g) (wait_s g) (woken_s g) (wait_x g) (woken_x g)
  | None => mkLatch (lk g) (readers g) (writers g) (wait_s g) (woken_s g) ({[t]} ∪ wait_x g) (woken_x g)
  end.

Inductive latch_step : latch_state → latch_state → Prop :=
  | step_lock_shared t g :
      ¬ inside g t → t ∉ writers g → latch_step g (pass_shared t g)
  | step_retry_shared t g :
      t ∈ woken_s g →
      latch_step g (pass_shared t (mkLatch (lk g) (readers g) (writers g) (wait_s g)
                                     (woken_s g ∖ {[t]}) (wait_x g) (woken_x g)))
  | step_try_lock_shared t g b m :
      ¬ inside g t → t ∉ writers g → rsm_try_lock_shared (lk g) = (b, m) →
      latch_step g (mkLatch m (if b then t :: readers g else readers g) (writers g) (wait_s g)
                      (woken_s g) (wait_x g) (woken_x g))
  | step_unlock_shared t g m b g' :
      ¬ inside g t → t ∈ readers g → rsm_unlock_shared (lk g) = (m, b) →
      let g1 := mkLatch m (list_remove1 t (readers g)) (writers g) (wait_s g) (woken_s g)
                  (wait_x g) (woken_x g) in
      (if b then notify_one_x g1 g' else g' = g1) → latch_step g g'
  | step_lock t g :
      ¬ inside g t → t ∉ readers g → latch_step g (pass_exclusive t g)
  | step_retry_exclusive t g :
      t ∈ woken_x g →
      latch_step g (pass_exclusive t (mkLatch (lk g) (readers g) (writers g) (wait_s g) (woken_s g)
                                        (wait_x g) (woken_x g ∖ {[t]})))
  | step_unlock t g m b g' :
      ¬ inside g t → t ∈ writers g → rsm_unlock t (lk g) = (m, b) →
      let g1 := mkLatch m (readers g) (list_remove1 t (writers g)) (wait_s g) (woken_s g)
                  (wait_x g) (woken_x g) in
      (if b then notify_one_x (notify_all_s g1) g' else g' = g1) → latch_step g g'
  | step_spurious_s t g :
      t ∈ wait_s g →
      latch_step g (mkLatch (lk g) (readers g) (writers g) (wait_s g ∖ {[t]}) ({[t]} ∪ woken_s g)
                      (wait_x g) (woken_x g))
  | step_spurious_x t g :
      t ∈ wait_x g →
      latch_step g (mkLatch (lk g) (readers g) (writers g) (wait_s g) (woken_s g)
                      (wait_x g ∖ {[t]}) ({[t]} ∪ woken_x g)).

Definition latch_reachable (g : latch_state) : Prop := rtc latch_step initial_latch g.

(** ** The invariant *)
Record latch_core (g : latch_state) : Prop := {
  li_shared : shared_lock_count_ (lk g) = Z.of_nat (length (readers g));
  li_writers : match recursive_owner_ (lk g) with
               | Some t => exclusive_lock_count_ (lk g) = 1 ∧ 1 ≤ recursive_count_ (lk g) ∧
                           writers g = replicate (Z.to_nat (recursive_count_ (lk g))) t
               | None => exclusive_lock_count_ (lk g) = 0 ∧ recursive_count_ (lk g) = 0 ∧ writers g = []
               end;
  li_excl : readers g = [] ∨ writers g = [];
  li_hold : ∀ t, t ∈ readers g ∨ t ∈ writers g → ¬ inside g t;
  li_disj_s : wait_s g ## woken_s g ∪ wait_x g ∪ woken_x g;
  li_disj_x : wait_x g ## woken_s g ∪ woken_x g;
  li_disj_w : woken_s g ## woken_x g;
  li_wait_s : wait_s g ≠ ∅ → writers g ≠ []
}.

(** No wake-up is lost: writers wait only while the latch is held or while
    another writer is about to try. *)
Definition no_lost_wakeup (g : latch_state) : Prop :=
  wait_x g ≠ ∅ → readers g ≠ [] ∨ writers g ≠ [] ∨ woken_x g ≠ ∅.

Definition latch_inv (g : latch_state) : Prop := latch_core g ∧ no_lost_wakeup g.

Lemma latch_inv_init : latch_inv initial_latch.
Proof.
  split; [split|]; cbn; try done; try set_solver. by left.
Qed.

(** Either nobody writes or one thread does. *)
Lemma latch_writer_cases g :
  latch_core g → (writers g = [] ∧ exclusive_lock_count_ (lk g) = 0 ∧ recursive_owner_ (lk g) = None) ∨
                 (writers g ≠ [] ∧ exclusive_lock_count_ (lk g) = 1 ∧
                  ∃ t, recursive_owner_ (lk g) = Some t ∧ ∀ u, u ∈ writers g ↔ u = t).
Proof.
  intros I. pose proof (li_writers _ I) as Hw. destruct (recursive_owner_ (lk g)) as [t|].
  - destruct Hw as (He & Hc & Hw). right. rewrite Hw. split_and!; [|done|].
    + destruct (Z.to_nat _) eqn:E; [lia|done].
    + exists t. split; [done|]. intros u. rewrite elem_of_replicate. split; [tauto|]. intros ->. lia.
  - left. tauto.
Qed.

Lemma not_inside g t :
  ¬ inside g t ↔ t ∉ wait_s g ∧ t ∉ woken_s g ∧ t ∉ wait_x g ∧ t ∉ woken_x g.
Proof. unfold inside. set_solver. Qed.

Lemma pass_shared_inv t g :
  latch_core g → ¬ inside g t → t ∉ writers g → latch_inv (pass_shared t g).
Proof.
  intros I (H1 & H2 & H3 & H4)%not_inside Hw. unfold pass_shared, rsm_lock_shared.
  destruct (latch_writer_cases g I) as [(Hn & He & Ho)|(Hn & He & _)]; rewrite He; cbn; destruct I.
  - split; [split|]; cbn; try done; [lia|by rewrite He in *|by right| |].
    + intros u [[->|Hu]%elem_of_cons|Hu]; [by apply not_inside|by apply li_hold0; left|by apply li_hold0; right].
    + intros _. by left.
  - destruct li_excl0 as [Hr|Hr]; [|done].
    split; [split|]; cbn; try done.
    + by left.
    + intros u [Hu|Hu]; [rewrite Hr in Hu; by apply not_elem_of_nil in Hu|].
      specialize (li_hold0 u (or_intror Hu)).
      assert (u ≠ t) by (by intros ->). apply not_inside in li_hold0. apply not_inside. cbn. set_solver.
    + clear -li_disj_s0 H2 H3 H4. set_solver.
    + intros _. by right; left.
Qed.
Lemma pass_exclusive_inv t g :
  latch_core g → ¬ inside g t → t ∉ readers g → latch_inv (pass_exclusive t g).
Proof.
  intros I (H1 & H2 & H3 & H4)%not_inside Hr. unfold pass_exclusive, rsm_lock.
  destruct (latch_writer_cases g I) as [(Hn & He & Ho)|(Hn & He & u & Ho & Hu)].
  - rewrite He, Ho, (li_shared _ I). cbn. rewrite orb_false_r.
    destruct (0 <? Z.of_nat (length (readers g))) eqn:El.
    + destruct I. rewrite bool_decide_eq_false_2 by done.
      assert (readers g ≠ []) by (by intros E; rewrite E in El).
      split; [split|]; cbn; try done; rewrite ?Ho; try done.
      * intros v Hv. assert (v ≠ t).
        { intros ->. rewrite Hn in Hv. destruct Hv as [?|Hv]; [done|]. by apply not_elem_of_nil in Hv. }
        specialize (li_hold0 v Hv). apply not_inside in li_hold0. apply not_inside. cbn. set_solver.
      * clear -li_disj_s0 H1. set_solver.
      * clear -li_disj_x0 H2 H4. set_solver.
      * intros _. by left.
    + assert (readers g = []) as Hrs by (destruct (readers g); [done|apply Z.ltb_ge in El; cbn [length] in El; lia]). destruct I.
      split; [split|]; cbn; try done; rewrite ?Hn; try done; try lia.
      * by left.
      * intros v. rewrite Hrs. intros [Hv|Hv%list_elem_of_singleton]; [by apply not_elem_of_nil in Hv|].
        subst v. by apply not_inside.
      * intros _. by right; left.
  - destruct (li_excl _ I) as [Hrs|?]; [|done]. rewrite He, Ho, orb_true_r.
    pose proof (li_writers _ I) as Hws. rewrite Ho in Hws. destruct Hws as (_ & Hc & Hws).
    destruct I. case_bool_decide as Eu.
    + injection Eu as ->. split; [split|]; cbn; try done.
      * split_and!; [done|lia|]. rewrite Hws, <-replicate_S. f_equal. lia.
      * by left.
      * intros v [Hv|[->|Hv]%elem_of_cons]; [by apply li_hold0; left|by apply not_inside|by apply li_hold0; right].
      * intros _. by right; left.
    + split; [split|]; cbn; rewrite ?Ho; try done.
      * intros v Hv. assert (v ≠ t).
        { intros ->. destruct Hv as [?|Hv%Hu]; [done|]. by subst. }
        specialize (li_hold0 v Hv). apply not_inside in li_hold0. apply not_inside. cbn. set_solver.
      * clear -li_disj_s0 H1. set_solver.
      * clear -li_disj_x0 H2 H4. set_solver.
      * intros _. by right; left.
Qed.

(** A notification moves threads from waiting to woken. *)
Lemma notify_one_inv g g' :
  latch_core g → notify_one_x g g' → latch_inv g'.
Proof.
  intros I [Hw|w Hw]; [split; [done|]; intros ?; done|].
  destruct I. split; [split|]; cbn; try done.
  - intros u Hu. specialize (li_hold0 u Hu). apply not_inside in li_hold0. apply not_inside. cbn. set_solver.
  - clear -li_disj_s0 Hw. set_solver.
  - clear -li_disj_x0. set_solver.
  - clear -li_disj_w0 li_disj_x0 Hw. set_solver.
  - intros _. right. right. cbn. clear. set_solver.
Qed.

Lemma remove1_replicate n (t : thread_id) : list_remove1 t (replicate n t) = replicate (n - 1) t.
Proof. destruct n; cbn; [done|]. rewrite decide_True by done. f_equal. lia. Qed.

Lemma length_remove1_Z (t : thread_id) l :
  t ∈ l → Z.of_nat (length (list_remove1 t l)) = Z.of_nat (length l) - 1.
Proof. intros H%length_list_remove1. lia. Qed.

Lemma unlock_shared_inv t g m b g' :
  latch_inv g → t ∈ readers g → rsm_unlock_shared (lk g) = (m, b) →
  (if b then notify_one_x (mkLatch m (list_remove1 t (readers g)) (writers g) (wait_s g) (woken_s g)
               (wait_x g) (woken_x g)) g'
   else g' = mkLatch m (list_remove1 t (readers g)) (writers g) (wait_s g) (woken_s g)
               (wait_x g) (woken_x g)) → latch_inv g'.
Proof.
  intros [I _] Ht E Hg.
  assert (latch_core (mkLatch m (list_remove1 t (readers g)) (writers g) (wait_s g) (woken_s g)
                        (wait_x g) (woken_x g))) as I'.
  { unfold rsm_unlock_shared in E. injection E as <- <-. destruct I. split; cbn; try done.
    - rewrite length_remove1_Z by done. lia.
    - right. destruct li_excl0 as [Hr|?]; [rewrite Hr in Ht; by apply not_elem_of_nil in Ht|done].
    - intros u [Hu|Hu]; apply li_hold0; [left|by right].
      eapply elem_of_sublist; [exact Hu|apply list_remove1_sublist]. }
  destruct b; [by eapply notify_one_inv|]. subst g'. split; [done|]. intros _. left. cbn.
  unfold rsm_unlock_shared in E. injection E as <- Hb. apply Z.eqb_neq in Hb.
  rewrite (li_shared _ I), <-(length_remove1_Z t) in Hb by done. by destruct (list_remove1 t (readers g)).
Qed.

Lemma notify_all_core g m ws :
  latch_core (mkLatch m (readers g) ws ∅ (wait_s g ∪ woken_s g) (wait_x g) (woken_x g)) →
  latch_core (notify_all_s (mkLatch m (readers g) ws (wait_s g) (woken_s g) (wait_x g) (woken_x g))).
Proof. done. Qed.

Lemma unlock_inv t g m b g' :
  latch_inv g → t ∈ writers g → rsm_unlock t (lk g) = (m, b) →
  let g1 := mkLatch m (readers g) (list_remove1 t (writers g)) (wait_s g) (woken_s g)
              (wait_x g) (woken_x g) in
  (if b then notify_one_x (notify_all_s g1) g' else g' = g1) → latch_inv g'.
Proof.
  intros [I _] Ht E g1 Hg.
  destruct (latch_writer_cases g I) as [(Hn & _)|(Hn & He & u & Ho & Hu)];
    [rewrite Hn in Ht; by apply not_elem_of_nil in Ht|].
  apply Hu in Ht as ->. destruct (li_excl _ I) as [Hr|?]; [|done].
  pose proof (li_writers _ I) as Hw. rewrite Ho in Hw. destruct Hw as (_ & Hc & Hw).
  assert (list_remove1 u (writers g) = replicate (Z.to_nat (recursive_count_ (lk g) - 1)) u) as Hrm.
  { rewrite Hw, remove1_replicate. f_equal. lia. }
  unfold rsm_unlock in E. rewrite Ho, bool_decide_eq_true_2 in E by done. cbn in E.
  destruct (1 <? recursive_count_ (lk g)) eqn:El; injection E as <- <-.
  - apply Z.ltb_lt in El. subst g'. unfold g1.
    assert (list_remove1 u (writers g) ≠ []) as Hne.
    { rewrite Hrm. intros Hl%(f_equal length). rewrite length_replicate in Hl. cbn in Hl. lia. }
    destruct I. split; [split|]; cbn; rewrite ?Ho; try done.
    + split_and!; [done|lia|done].
    + by left.
    + intros v [Hv|Hv]; [by apply li_hold0; left|]. apply li_hold0. right.
      eapply elem_of_sublist; [exact Hv|apply list_remove1_sublist].
    + intros _. right. left. exact Hne.
  - apply Z.ltb_ge in El. rewrite He in Hg. cbn in Hg.
    assert (list_remove1 u (writers g) = []) as Hnil.
    { rewrite Hrm. replace (recursive_count_ (lk g) - 1) with 0 by lia. done. }
    eapply notify_one_inv; [|exact Hg]. unfold g1. rewrite Hnil. destruct I.
    split; cbn; rewrite ?He; try done.
    + by right.
    + intros v [Hv|Hv]; [rewrite Hr in Hv|]; by apply not_elem_of_nil in Hv.
    + clear -li_disj_s0 li_disj_x0. set_solver.
    + clear -li_disj_s0 li_disj_w0. set_solver.
Qed.

Lemma latch_step_inv g g' : latch_inv g → latch_step g g' → latch_inv g'.
Proof.
  intros [I Hx] St. destruct St as [t g Ht Hw|t g Ht|t g b m Ht Hw E|t g m b g' Ht Hr E g1 Hg|t g Ht Hr
    |t g Ht|t g m b g' Ht Hw E g1 Hg|t g Ht|t g Ht].
  - by apply pass_shared_inv.
  - apply pass_shared_inv; destruct I; [split; cbn; try done| |].
    + intros u Hu. specialize (li_hold0 u Hu). apply not_inside in li_hold0. apply not_inside. cbn. set_solver.
    + clear -li_disj_s0. set_solver.
    + clear -li_disj_x0. set_solver.
    + clear -li_disj_w0. set_solver.
    + apply not_inside. cbn. clear -Ht li_disj_s0 li_disj_x0 li_disj_w0. set_solver.
    + cbn. intros Hu. apply (li_hold0 t); [by right|]. unfold inside. clear -Ht. set_solver.
  - unfold rsm_try_lock_shared in E.
    destruct (latch_writer_cases g I) as [(Hn & He & Ho)|(Hn & He & _)]; rewrite He in E; cbn in E;
      injection E as <- <-; [|by destruct g].
    pose proof (pass_shared_inv t g I Ht Hw) as Hp. unfold pass_shared, rsm_lock_shared in Hp.
    by rewrite He in Hp.
  - by eapply unlock_shared_inv.
  - by apply pass_exclusive_inv.
  - apply pass_exclusive_inv; destruct I; [split; cbn; try done| |].
    + intros u Hu. specialize (li_hold0 u Hu). apply not_inside in li_hold0. apply not_inside. cbn. set_solver.
    + clear -li_disj_s0. set_solver.
    + clear -li_disj_x0. set_solver.
    + clear -li_disj_w0. set_solver.
    + apply not_inside. cbn. clear -Ht li_disj_s0 li_disj_x0 li_disj_w0. set_solver.
    + cbn. intros Hu. apply (li_hold0 t); [by left|]. unfold inside. clear -Ht. set_solver.
  - by eapply unlock_inv.
  - destruct I. split; [split|]; cbn; try done.
    + intros u Hu. specialize (li_hold0 u Hu). apply not_inside in li_hold0. apply not_inside. cbn. set_solver.
    + clear -li_disj_s0. set_solver.
    + clear -li_disj_x0 li_disj_s0 Ht. set_solver.
    + clear -li_disj_w0 li_disj_s0 Ht. set_solver.
    + intros _. apply li_wait_s0. clear -Ht. set_solver.
  - destruct I. split; [split|]; cbn; try done.
    + intros u Hu. specialize (li_hold0 u Hu). apply not_inside in li_hold0. apply not_inside. cbn. set_solver.
    + clear -li_disj_s0 Ht. set_solver.
    + clear -li_disj_x0 Ht. set_solver.
    + clear -li_disj_w0 li_disj_x0 Ht. set_solver.
    + intros _. right. right. cbn. clear. set_solver.
Qed.

Lemma latch_reachable_inv g : latch_reachable g → latch_inv g.
Proof.
  revert g. apply (rtc_ind_r (λ g, latch_inv g) initial_latch); [apply latch_inv_init|].
  intros g g' _ Hs IH. by eapply latch_step_inv.
Qed.

(** C36: mutual exclusion.  In every interleaving, a write latch excludes all read
    latches and all other threads' write latches, however often its owner took
    it; and [try_lock_shared] succeeds exactly when nobody writes. *)
Theorem latch_mutual_exclusion g :
  latch_reachable g →
  (readers g = [] ∨ writers g = []) ∧
  (∀ t u, t ∈ writers g → u ∈ writers g → t = u) ∧
  ((rsm_try_lock_shared (lk g)).1 = true ↔ writers g = []).
Proof.
  intros [I _]%latch_reachable_inv. split; [apply I|].
  destruct (latch_writer_cases g I) as [(Hn & He & _)|(Hn & He & t & _ & Ht)].
  - rewrite Hn. split; [intros ? ? Hu; by apply not_elem_of_nil in Hu|].
    unfold rsm_try_lock_shared. by rewrite He.
  - split; [intros u v ->%Ht ->%Ht; done|].
    unfold rsm_try_lock_shared. by rewrite He.
Qed.

(** C37: no deadlock by a lost wake-up.  Whenever a thread is blocked inside
    [lock] or [lock_shared], some thread that is not blocked holds the latch, or
    a notified thread is about to try and will get it. *)
Theorem latch_no_lost_wakeup g :
  latch_reachable g → ∀ t, inside g t →
  (∃ u, (u ∈ readers g ∨ u ∈ writers g) ∧ ¬ inside g u) ∨
  (∃ u, u ∈ woken_s g ∧ is_Some (rsm_lock_shared (lk g))) ∨
  (∃ u, u ∈ woken_x g ∧ is_Some (rsm_lock u (lk g))).
Proof.
  intros [I Hx]%latch_reachable_inv t Ht.
  destruct (readers g) as [|u us] eqn:Hr.
  2:{ left. exists u. split; [left; left|]. apply I. left. rewrite Hr. left. }
  destruct (writers g) as [|u us] eqn:Hw.
  2:{ left. exists u. split; [right; left|]. apply I. right. rewrite Hw. left. }
  right. destruct (latch_writer_cases g I) as [(_ & He & _)|(Hn & _)]; [|done].
  pose proof (li_shared _ I) as Hs. rewrite Hr in Hs. cbn in Hs.
  assert (wait_s g = ∅) as Hws.
  { destruct (decide (wait_s g = ∅)) as [|Hne]; [done|]. by apply (li_wait_s _ I) in Hne. }
  assert (∀ u, u ∈ woken_x g → is_Some (rsm_lock u (lk g))) as Hget.
  { intros u _. unfold rsm_lock. rewrite Hs, He. cbn. eauto. }
  destruct (decide (woken_x g = ∅)) as [Hwx|Hwx].
  - left. exists t. unfold rsm_lock_shared. rewrite He. cbn. split; [|eauto].
    destruct (decide (wait_x g = ∅)) as [Hwx'|Hne].
    + unfold inside in Ht. rewrite Hws, Hwx, Hwx' in Ht. clear -Ht. set_solver.
    + destruct (Hx Hne) as [?|[?|?]]; congruence.
  - right. apply set_choose_L in Hwx as [u Hu]. eauto.
Qed.

(** Two readers, a writer that waits and is then woken. *)
Definition latch_example : latch_state :=
  mkLatch (mkRSM 0 0 None 0) [] [] ∅ ∅ ∅ {[2%nat]}.

Lemma latch_example_reachable : latch_reachable latch_example.
Proof.
  eapply rtc_l; [apply (step_lock_shared 1); [apply not_inside; compute_done|compute_done]|].
  eapply rtc_l; [apply (step_lock 2); [apply not_inside; compute_done|compute_done]|].
  eapply rtc_l; [eapply (step_unlock_shared 1); [apply not_inside; compute_done|left|reflexivity|]|].
  { apply (notify_some _ 2). cbn. set_solver. }
  match goal with |- rtc _ ?g _ => replace g with latch_example by (vm_compute; reflexivity) end.
  apply rtc_refl.
Qed.

Lemma latch_mutual_exclusion_witness :
  latch_reachable latch_example ∧ (rsm_try_lock_shared (lk latch_example)).1 = true.
Proof.
  split; [apply latch_example_reachable|].
  apply (latch_mutual_exclusion latch_example latch_example_reachable). reflexivity.
Defined.

Lemma latch_no_lost_wakeup_witness :
  inside latch_example 2 ∧
  ((∃ u, (u ∈ readers latch_example ∨ u ∈ writers latch_example) ∧ ¬ inside latch_example u) ∨
   (∃ u, u ∈ woken_s latch_example ∧ is_Some (rsm_lock_shared (lk latch_example))) ∨
   (∃ u, u ∈ woken_x latch_example ∧ is_Some (rsm_lock u (lk latch_example)))).
Proof.
  assert (inside latch_example 2) as H by (unfold inside; cbn; set_solver).
  split; [exact H|]. apply (latch_no_lost_wakeup latch_example latch_example_reachable 2 H).
Defined.
