(* ===== verification/Frame.v ===== *)
(** * Page frames

    Models [class Frame] of [storage/os/page/frame.{h,cpp}] in the build with
    [DEBUG] and [CONCURRENCY]: the page, the pin count, the dirty flag, the
    latch of [Latch] and the debug records of who holds it.  A pointer to the
    statistics is either null or that of the frame manager: [stats_] is a
    Boolean and the counters are passed along. *)

From S2P Require Import Prelude Types Stats Latch MemPool.
Local Open Scope Z_scope.

Record Frame : Type := mkFrame {
  dirty_ : bool;
  pin_count_ : Z;
  acc_time_ : Z;
  frame_id_ : FrameId;
  page_ : Page;
  stats_ : bool;
  lock_ : RecursiveSharedMutex;
  write_locker_ : Z;
  write_recursive_count_ : Z;
  read_lockers_ : gmap Z Z
}.

(** A default-constructed frame; [FrameId]'s members default to -1.  The bytes of
    the page are indeterminate in the source; they are zero here and nothing
    below depends on them. *)
Definition new_frame : Frame :=
  mkFrame false 0 0 (mkFrameId (-1) (-1)) zero_page false new_mutex 0 0 ∅.

Definition set_dirty (b : bool) (f : Frame) : Frame :=
  mkFrame b (pin_count_ f) (acc_time_ f) (frame_id_ f) (page_ f) (stats_ f) (lock_ f)
    (write_locker_ f) (write_recursive_count_ f) (read_lockers_ f).
Definition set_pin_count (n : Z) (f : Frame) : Frame :=
  mkFrame (dirty_ f) n (acc_time_ f) (frame_id_ f) (page_ f) (stats_ f) (lock_ f)
    (write_locker_ f) (write_recursive_count_ f) (read_lockers_ f).
Definition set_acc_time (t : Z) (f : Frame) : Frame :=
  mkFrame (dirty_ f) (pin_count_ f) t (frame_id_ f) (page_ f) (stats_ f) (lock_ f)
    (write_locker_ f) (write_recursive_count_ f) (read_lockers_ f).
Definition set_frame_id (i : FrameId) (f : Frame) : Frame :=
  mkFrame (dirty_ f) (pin_count_ f) (acc_time_ f) i (page_ f) (stats_ f) (lock_ f)
    (write_locker_ f) (write_recursive_count_ f) (read_lockers_ f).
Definition set_page (p : Page) (f : Frame) : Frame :=
  mkFrame (dirty_ f) (pin_count_ f) (acc_time_ f) (frame_id_ f) p (stats_ f) (lock_ f)
    (write_locker_ f) (write_recursive_count_ f) (read_lockers_ f).
Definition set_stats (b : bool) (f : Frame) : Frame :=
  mkFrame (dirty_ f) (pin_count_ f) (acc_time_ f) (frame_id_ f) (page_ f) b (lock_ f)
    (write_locker_ f) (write_recursive_count_ f) (read_lockers_ f).
Definition set_latch (m : RecursiveSharedMutex) (wl wc : Z) (rl : gmap Z Z) (f : Frame) : Frame :=
  mkFrame (dirty_ f) (pin_count_ f) (acc_time_ f) (frame_id_ f) (page_ f) (stats_ f) m wl wc rl.

(** [reinit] and [reset] are empty. *)
#[global] Instance Frame_item : PoolItem Frame := {|
  item_new := new_frame;
  item_reinit f := f;
  item_reset f := f
|}.

Definition clear_page (f : Frame) : Frame := set_page zero_page f.
Definition set_buffer_pool_id (id : Z) (f : Frame) : Frame :=
  set_frame_id (mkFrameId id (fid_page_num (frame_id_ f))) f.
Definition set_page_num (n : PageNum) (f : Frame) : Frame :=
  set_frame_id (mkFrameId (fid_buffer_pool_id (frame_id_ f)) n) f.
Definition frame_set_lsn (l : LSN) (f : Frame) : Frame := set_page (set_lsn l (page_ f)) f.
Definition frame_set_check_sum (c : Z) (f : Frame) : Frame := set_page (set_check_sum c (page_ f)) f.
Definition can_purge (f : Frame) : bool := pin_count_ f =? 0.
(** [access]: [now] is the monotonic clock. *)
Definition frame_access (now : Z) (f : Frame) : Frame := set_acc_time now f.

(** ** Pins and the dirty flag *)
Definition pin (f : Frame) (s : BufferPoolStats) : Frame * BufferPoolStats :=
  let n := swrap 32 (pin_count_ f + 1) in
  (set_pin_count n f, if stats_ f then record_pin (n =? 1) s else s).

Definition unpin (f : Frame) (s : BufferPoolStats) : option (Z * (Frame * BufferPoolStats)) :=
  if 0 <? pin_count_ f then
    let n := swrap 32 (pin_count_ f - 1) in
    let s' := if stats_ f then record_unpin (n =? 0) s else s in
    if (n =? 0) && negb ((write_locker_ f =? 0) && bool_decide (read_lockers_ f = ∅)) then None
    else Some (n, (set_pin_count n f, s'))
  else None.

Definition mark_dirty (f : Frame) (s : BufferPoolStats) : Frame * BufferPoolStats :=
  if dirty_ f then (f, s) else (set_dirty true f, if stats_ f then record_dirty s else s).

Definition clear_dirty (f : Frame) (s : BufferPoolStats) : Frame * BufferPoolStats :=
  if dirty_ f then (set_dirty false f, if stats_ f then record_clean s else s) else (f, s).

(** ** Latches

    [xid_of t] is what [get_default_debug_xid] returns in thread [t].  A latch
    request may block: [Blocked] leaves the frame as it is and the thread tries
    again after it is woken. *)
Inductive latch_result : Type := Blocked | Granted (f : Frame).

Section latches.
Context (xid_of : thread_id → Z).

Definition write_latch (t : thread_id) (f : Frame) : option latch_result :=
  if negb (0 <? pin_count_ f) then None
  else if bool_decide (is_Some (read_lockers_ f !! xid_of t)) then None
  else match rsm_lock t (lock_ f) with
       | None => Some Blocked
       | Some m => Some (Granted (set_latch m (xid_of t) (write_recursive_count_ f + 1) (read_lockers_ f) f))
       end.

Definition write_unlatch (t : thread_id) (f : Frame) : option Frame :=
  if negb (0 <? pin_count_ f) then None
  else if negb (write_locker_ f =? xid_of t) then None
  else
    let n := write_recursive_count_ f - 1 in
    let '(m, _) := rsm_unlock t (lock_ f) in
    Some (set_latch m (if n =? 0 then 0 else write_locker_ f) n (read_lockers_ f) f).

Definition read_latch (t : thread_id) (f : Frame) : option latch_result :=
  if negb (0 <? pin_count_ f) then None
  else if xid_of t =? write_locker_ f then None
  else match rsm_lock_shared (lock_ f) with
       | None => Some Blocked
       | Some m =>
           let x := xid_of t in
           Some (Granted (set_latch m (write_locker_ f) (write_recursive_count_ f)
             (<[x := default 0 (read_lockers_ f !! x) + 1]> (read_lockers_ f)) f))
       end.

Definition try_read_latch (t : thread_id) (f : Frame) : option (bool * Frame) :=
  if negb (0 <? pin_count_ f) then None
  else if xid_of t =? write_locker_ f then None
  else
    let x := xid_of t in
    let '(ret, m) := rsm_try_lock_shared (lock_ f) in
    Some (ret, set_latch m (write_locker_ f) (write_recursive_count_ f)
      (if ret then <[x := default 0 (read_lockers_ f !! x) + 1]> (read_lockers_ f) else read_lockers_ f) f).

Definition read_unlatch (t : thread_id) (f : Frame) : option Frame :=
  if negb (0 <? pin_count_ f) then None
  else
    let x := xid_of t in
    let recursive_count := default 0 (read_lockers_ f !! x) in
    if negb (0 <? recursive_count) then None
    else
      let rl := if recursive_count =? 1 then delete x (read_lockers_ f)
                else <[x := recursive_count - 1]> (read_lockers_ f) in
      let '(m, _) := rsm_unlock_shared (lock_ f) in
      Some (set_latch m (write_locker_ f) (write_recursive_count_ f) rl f).

(** ** Histories of one frame *)
Inductive frame_event : Type :=
  | FPin | FUnpin
  | FReadLatch (t : thread_id) | FTryReadLatch (t : thread_id) | FReadUnlatch (t : thread_id)
  | FWriteLatch (t : thread_id) | FWriteUnlatch (t : thread_id).

(** [None]: an assertion failed. *)
Definition frame_step (e : frame_event) (fs : Frame * BufferPoolStats) : option (Frame * BufferPoolStats) :=
  let '(f, s) := fs in
  match e with
  | FPin => Some (pin f s)
  | FUnpin => snd <$> unpin f s
  | FReadLatch t => r ← read_latch t f; Some (match r with Granted f' => (f', s) | Blocked => (f, s) end)
  | FTryReadLatch t => '(_, f') ← try_read_latch t f; Some (f', s)
  | FReadUnlatch t => f' ← read_unlatch t f; Some (f', s)
  | FWriteLatch t => r ← write_latch t f; Some (match r with Granted f' => (f', s) | Blocked => (f, s) end)
  | FWriteUnlatch t => f' ← write_unlatch t f; Some (f', s)
  end.

Definition frame_steps (es : list frame_event) (fs : Frame * BufferPoolStats) :
    option (Frame * BufferPoolStats) :=
  foldl (λ o e, fs ← o; frame_step e fs) (Some fs) es.

(** The debug records agree with the latch. *)
Definition lockers_sum (m : gmap Z Z) : Z := map_fold (λ _ n acc, n + acc) 0 m.

Record frame_latch_ok (f : Frame) : Prop := {
  fl_readers : shared_lock_count_ (lock_ f) = lockers_sum (read_lockers_ f);
  fl_positive : map_Forall (λ _ n, 0 < n) (read_lockers_ f);
  fl_writer : match recursive_owner_ (lock_ f) with
              | Some t => write_locker_ f = xid_of t ∧ exclusive_lock_count_ (lock_ f) = 1 ∧
                          write_recursive_count_ f = recursive_count_ (lock_ f) ∧
                          1 ≤ recursive_count_ (lock_ f)
              | None => write_locker_ f = 0 ∧ exclusive_lock_count_ (lock_ f) = 0 ∧
                        write_recursive_count_ f = 0
              end;
  fl_excl : shared_lock_count_ (lock_ f) = 0 ∨ exclusive_lock_count_ (lock_ f) = 0;
  fl_free : pin_count_ f = 0 → shared_lock_count_ (lock_ f) = 0 ∧ exclusive_lock_count_ (lock_ f) = 0
}.

Lemma lockers_sum_delete x m : lockers_sum m = default 0 (m !! x) + lockers_sum (delete x m).
Proof.
  unfold lockers_sum. destruct (m !! x) as [n|] eqn:E; cbn.
  - rewrite <-(map_fold_delete_L (λ (_ n acc : Z), n + acc) 0 x n m); [done| |done]. intros; lia.
  - by rewrite delete_id.
Qed.

Lemma lockers_sum_insert x n m : lockers_sum (<[x := n]> m) = n + lockers_sum (delete x m).
Proof. rewrite (lockers_sum_delete x), lookup_insert, decide_True by done. by rewrite delete_insert_eq. Qed.

Lemma lockers_sum_nonneg m : map_Forall (λ _ n, 0 < n) m → 0 ≤ lockers_sum m ∧ (lockers_sum m = 0 → m = ∅).
Proof.
  induction m as [|x n m Hx IH] using map_ind; [done|]. intros Hf.
  apply map_Forall_insert in Hf as [Hn Hf]; [|done]. destruct (IH Hf) as [H1 _].
  rewrite lockers_sum_insert, delete_id by done. split; lia.
Qed.

Lemma read_lockers_add x m :
  map_Forall (λ _ n, 0 < n) m →
  let m' := <[x := default 0 (m !! x) + 1]> m in
  lockers_sum m' = lockers_sum m + 1 ∧ map_Forall (λ _ n, 0 < n) m'.
Proof.
  intros Hf m'. unfold m'. split.
  - rewrite lockers_sum_insert, (lockers_sum_delete x m). lia.
  - apply map_Forall_insert_2; [|done]. destruct (m !! x) as [n|] eqn:E; cbn; [|lia].
    apply Hf in E. lia.
Qed.

Lemma read_lockers_sub x m n :
  map_Forall (λ _ n, 0 < n) m → default 0 (m !! x) = n → 0 < n →
  let m' := if n =? 1 then delete x m else <[x := n - 1]> m in
  lockers_sum m' = lockers_sum m - 1 ∧ map_Forall (λ _ n, 0 < n) m'.
Proof.
  intros Hf Hn Hpos m'. unfold m'. rewrite (lockers_sum_delete x m), Hn.
  destruct (n =? 1) eqn:E.
  - apply Z.eqb_eq in E. split; [lia|]. by apply map_Forall_delete.
  - apply Z.eqb_neq in E. rewrite lockers_sum_insert. split; [lia|].
    apply map_Forall_insert_2; [lia|done].
Qed.

Context (Hxid_nonzero : ∀ t, xid_of t ≠ 0) (Hxid_inj : ∀ t u, xid_of t = xid_of u → t = u).

Lemma rsm_fields m : mkRSM (shared_lock_count_ m) (exclusive_lock_count_ m) (recursive_owner_ m) (recursive_count_ m) = m.
Proof. by destruct m. Qed.

Lemma shared_lock_ok t f m :
  frame_latch_ok f → 0 < pin_count_ f → exclusive_lock_count_ (lock_ f) = 0 →
  m = mkRSM (shared_lock_count_ (lock_ f) + 1) (exclusive_lock_count_ (lock_ f))
        (recursive_owner_ (lock_ f)) (recursive_count_ (lock_ f)) →
  frame_latch_ok (set_latch m (write_locker_ f) (write_recursive_count_ f)
    (<[xid_of t := default 0 (read_lockers_ f !! xid_of t) + 1]> (read_lockers_ f)) f).
Proof.
  intros [] Hp He ->. destruct (read_lockers_add (xid_of t) (read_lockers_ f)) as [Hs Hf]; [done|].
  split; cbn; [lia|done|done|by right|lia].
Qed.

(** The counters of the new state. *)
Ltac latch_arith :=
  split; cbn; try done; try lia; try (by split_and!; try lia); try (by left; lia).

Lemma write_latch_ok t f r :
  frame_latch_ok f → write_latch t f = Some r → match r with Granted f' => frame_latch_ok f' | Blocked => True end.
Proof.
  intros H. unfold write_latch.
  destruct (0 <? pin_count_ f) eqn:Hp; [|done]. apply Z.ltb_lt in Hp. cbn. case_bool_decide; [done|].
  unfold rsm_lock. destruct ((0 <? _) || _) eqn:Hb.
  - case_bool_decide as Ho; [|by intros [= <-]]. intros [= <-]. destruct H. rewrite Ho in *.
    destruct fl_writer0 as (Hw & He & Hr & Hc). latch_arith.
  - intros [= <-]. apply orb_false_iff in Hb as [Hs%Z.ltb_ge He%Z.ltb_ge]. destruct H.
    pose proof (lockers_sum_nonneg _ fl_positive0) as [Hnn _].
    destruct (recursive_owner_ (lock_ f)); [destruct fl_writer0 as (_ & He' & _); lia|].
    destruct fl_writer0 as (_ & He' & Hr). latch_arith.
Qed.

Lemma write_unlatch_ok t f f' : frame_latch_ok f → write_unlatch t f = Some f' → frame_latch_ok f'.
Proof.
  intros []. unfold write_unlatch.
  destruct (0 <? pin_count_ f) eqn:Hp; [|done]. apply Z.ltb_lt in Hp. cbn.
  destruct (write_locker_ f =? xid_of t) eqn:Hw; [|done]. apply Z.eqb_eq in Hw. cbn.
  destruct (recursive_owner_ (lock_ f)) as [u|] eqn:Ho; [|destruct fl_writer0 as (? & _); by destruct (Hxid_nonzero t); congruence].
  destruct fl_writer0 as (Hw' & He & Hr & Hc). assert (u = t) as -> by (apply Hxid_inj; congruence).
  unfold rsm_unlock. rewrite Ho, bool_decide_eq_true_2 by done. cbn.
  destruct (1 <? recursive_count_ (lock_ f)) eqn:Hc'; intros [= <-].
  - apply Z.ltb_lt in Hc'. rewrite (proj2 (Z.eqb_neq _ _)) by lia. latch_arith.
  - apply Z.ltb_ge in Hc'. rewrite (proj2 (Z.eqb_eq _ _)) by lia. latch_arith.
Qed.

Lemma read_latch_ok t f r :
  frame_latch_ok f → read_latch t f = Some r → match r with Granted f' => frame_latch_ok f' | Blocked => True end.
Proof.
  intros H. unfold read_latch.
  destruct (0 <? pin_count_ f) eqn:Hp; [|done]. apply Z.ltb_lt in Hp. cbn.
  destruct (xid_of t =? write_locker_ f); [done|].
  unfold rsm_lock_shared. destruct (0 <? exclusive_lock_count_ (lock_ f)) eqn:He; intros [= <-]; [done|].
  apply Z.ltb_ge in He. apply shared_lock_ok; [done|done| |done].
  destruct H. destruct (recursive_owner_ (lock_ f)); destruct fl_writer0 as (_ & ? & _); lia.
Qed.

Lemma try_read_latch_ok t f b f' : frame_latch_ok f → try_read_latch t f = Some (b, f') → frame_latch_ok f'.
Proof.
  intros H. unfold try_read_latch.
  destruct (0 <? pin_count_ f) eqn:Hp; [|done]. apply Z.ltb_lt in Hp. cbn.
  destruct (xid_of t =? write_locker_ f); [done|]. unfold rsm_try_lock_shared.
  destruct (exclusive_lock_count_ (lock_ f) =? 0) eqn:He; intros [= <- <-].
  - apply Z.eqb_eq in He. by apply shared_lock_ok.
  - unfold set_latch. by destruct f.
Qed.

Lemma read_unlatch_ok t f f' : frame_latch_ok f → read_unlatch t f = Some f' → frame_latch_ok f'.
Proof.
  intros []. unfold read_unlatch.
  destruct (0 <? pin_count_ f) eqn:Hp; [|done]. apply Z.ltb_lt in Hp. cbn.
  set (n := default 0 _). destruct (0 <? n) eqn:Hn; [|done]. apply Z.ltb_lt in Hn. cbn. intros [= <-].
  destruct (read_lockers_sub (xid_of t) (read_lockers_ f) n fl_positive0 eq_refl Hn) as [Hs Hf].
  pose proof (lockers_sum_nonneg _ Hf) as [Hnn _].
  split; cbn; [lia|done|done| |lia]. destruct fl_excl0; [lia|by right].
Qed.

Lemma latch_ok_pin_count n f :
  frame_latch_ok f → n ≠ 0 → frame_latch_ok (set_pin_count n f).
Proof. by intros [] ?. Qed.

(** Latches do not touch the pin count. *)
Lemma latch_step_pin_count e f s f' s' :
  e ≠ FPin → e ≠ FUnpin → frame_step e (f, s) = Some (f', s') → pin_count_ f' = pin_count_ f.
Proof.
  destruct e; try done; intros _ _; cbn;
    unfold read_latch, try_read_latch, read_unlatch, write_latch, write_unlatch;
    intros E; repeat (case_match || simplify_eq/=); done.
Qed.

Lemma unpin_ok f s n f' s' :
  frame_latch_ok f → pin_count_ f < 2 ^ 31 → unpin f s = Some (n, (f', s')) →
  frame_latch_ok f' ∧ 0 ≤ pin_count_ f' < pin_count_ f.
Proof.
  intros H Hp. unfold unpin. destruct (0 <? pin_count_ f) eqn:Hc; [|done]. apply Z.ltb_lt in Hc.
  rewrite swrap_id by (unfold in_srange; lia).
  destruct (pin_count_ f - 1 =? 0) eqn:Hz; cbn [andb].
  - destruct (negb _) eqn:Hb; [done|]. cbn. intros [= _ <- _].
    apply negb_false_iff, andb_true_iff in Hb as [Hw%Z.eqb_eq Hr%bool_decide_eq_true].
    apply Z.eqb_eq in Hz. cbn. split; [|lia]. destruct H. split; cbn; try done. intros _.
    rewrite fl_readers0, Hr. split; [done|].
    destruct (recursive_owner_ (lock_ f)) as [t|]; [|tauto].
    by destruct fl_writer0 as (? & _); destruct (Hxid_nonzero t); congruence.
  - apply Z.eqb_neq in Hz. cbn. intros [= _ <- _]. cbn. split; [by apply latch_ok_pin_count|lia].
Qed.

Lemma frame_step_ok e f s f' s' n :
  frame_latch_ok f → 0 ≤ pin_count_ f ≤ n → n < 2 ^ 31 - 1 →
  frame_step e (f, s) = Some (f', s') →
  frame_latch_ok f' ∧ 0 ≤ pin_count_ f' ≤ n + 1.
Proof.
  intros H Hp Hn E. pose proof (latch_step_pin_count e f s f' s') as Hpin. destruct e as [| |t|t|t|t|t]; cbn in E.
  - injection E as <- _. rewrite swrap_id by (unfold in_srange; lia). cbn.
    split; [by apply latch_ok_pin_count; [|lia]|lia].
  - destruct (unpin f s) as [[m [f1 s1]]|] eqn:Eu; [|done]. cbn in E. injection E as <- <-.
    apply unpin_ok in Eu as [? ?]; [split; [done|lia]|done|lia].
  - rewrite Hpin by done. split; [|lia]. destruct (read_latch t f) as [r|] eqn:Er; [|done]. cbn in E.
    apply read_latch_ok in Er; [|done]. by destruct r; injection E as <- _.
  - rewrite Hpin by done. split; [|lia]. destruct (try_read_latch t f) as [[b f1]|] eqn:Er; [|done].
    injection E as <- _. by eapply try_read_latch_ok.
  - rewrite Hpin by done. split; [|lia]. destruct (read_unlatch t f) as [f1|] eqn:Er; [|done].
    injection E as <- _. by eapply read_unlatch_ok.
  - rewrite Hpin by done. split; [|lia]. destruct (write_latch t f) as [r|] eqn:Er; [|done]. cbn in E.
    apply write_latch_ok in Er; [|done]. by destruct r; injection E as <- _.
  - rewrite Hpin by done. split; [|lia]. destruct (write_unlatch t f) as [f1|] eqn:Er; [|done].
    injection E as <- _. by eapply write_unlatch_ok.
Qed.

Lemma frame_steps_ok es f s :
  Z.of_nat (length es) < 2 ^ 31 → frame_steps es (new_frame, zero_stats) = Some (f, s) →
  frame_latch_ok f ∧ 0 ≤ pin_count_ f ≤ Z.of_nat (length es).
Proof.
  revert f s. induction es as [|e es IH] using rev_ind; intros f s Hl.
  - intros [= <- <-]. split; [|cbn; lia]. split; cbn; try done. by left.
  - unfold frame_steps. rewrite foldl_snoc. fold (frame_steps es (new_frame, zero_stats)).
    rewrite length_app in *. cbn in Hl |- *.
    destruct (frame_steps es (new_frame, zero_stats)) as [[f1 s1]|] eqn:E; [|done]. cbn. intros Es.
    destruct (IH f1 s1) as [H1 H2]; [lia|done|].
    destruct (frame_step_ok e f1 s1 f s _ H1 H2) as [? ?]; [lia|done|]. split; [done|lia].
Qed.

(** A frame that passes its own assertions keeps the latch discipline.
    After any history of fewer than 2^31 pins, unpins and (read, try-read, write)
    latch operations by any threads in which no assertion fails: a frame whose
    pin count is zero is latched by nobody, a recorded writer excludes recorded
    readers, and the recorded writer is the owner of the latch. *)
Theorem frame_latch_discipline es f s :
  Z.of_nat (length es) < 2 ^ 31 → frame_steps es (new_frame, zero_stats) = Some (f, s) →
  (pin_count_ f = 0 → shared_lock_count_ (lock_ f) = 0 ∧ exclusive_lock_count_ (lock_ f) = 0 ∧
                      write_locker_ f = 0 ∧ read_lockers_ f = ∅) ∧
  (write_locker_ f ≠ 0 → read_lockers_ f = ∅) ∧
  (∀ t, write_locker_ f = xid_of t ↔ recursive_owner_ (lock_ f) = Some t).
Proof.
  intros Hl E. destruct (frame_steps_ok es f s Hl E) as [[] _].
  pose proof (lockers_sum_nonneg _ fl_positive0) as [_ Hnil].
  destruct (recursive_owner_ (lock_ f)) as [u|] eqn:Ho; split_and!.
  - intros Hp%fl_free0. destruct fl_writer0 as (_ & ? & _). lia.
  - intros _. apply Hnil. destruct fl_writer0 as (_ & ? & _). lia.
  - intros t. destruct fl_writer0 as (-> & _). split; [intros ->%Hxid_inj; done|naive_solver].
  - intros Hp%fl_free0. destruct fl_writer0 as (? & ? & _). split_and!; [tauto|done|done|].
    apply Hnil. lia.
  - by destruct fl_writer0 as (? & _).
  - intros t. destruct fl_writer0 as (-> & _). split; [|done]. intros Ht. by destruct (Hxid_nonzero t).
Qed.
End latches.

Lemma frame_latch_discipline_witness :
  let es := [FPin; FPin; FReadLatch 1; FReadLatch 2; FReadUnlatch 1; FReadUnlatch 2; FUnpin;
             FWriteLatch 1; FWriteLatch 1; FWriteUnlatch 1] in
  let xid t := Z.of_nat t + 1 in
  ∃ f s, frame_steps xid es (new_frame, zero_stats) = Some (f, s) ∧
         (write_locker_ f ≠ 0 → read_lockers_ f = ∅) ∧
         (write_locker_ f = xid 1%nat ↔ recursive_owner_ (lock_ f) = Some 1%nat).
Proof.
  intros es xid.
  destruct (frame_steps xid es (new_frame, zero_stats)) as [[f s]|] eqn:E; [|discriminate E].
  exists f, s. split; [reflexivity|].
  destruct (frame_latch_discipline xid ltac:(unfold xid; lia) ltac:(unfold xid; lia) es f s) as (_ & H1 & H2);
    [reflexivity|exact E|]. split; [exact H1|exact (H2 1%nat)].
Defined.
