(* ===== verification/FrameManager.v ===== *)
(** * The frame manager

    Models [class BPFrameManager] of [storage/os/buffer/disk_buffer_pool.{h,cpp}]:
    the map from page identifiers to frames (an [LruCache]), the pool that owns
    the frame objects, the replacement policy and the global statistics.  It is
    written over any type [P] that implements [ReplacementPolicy], and its
    theorems use the laws of that class only.  Every method holds [lock_] from
    its first to its last action, so it is one atomic computation. *)

From S2P Require Import Prelude Types LruCache MemPool Stats Latch Frame Replacement.
From stdpp Require Import pretty.
Local Open Scope Z_scope.

Section frame_manager.
Context {P : Type} `{!ReplacementPolicy P}.

Record BPFrameManager : Type := mkFM {
  frames_ : list (FrameId * Ptr);
  allocator_ : MemPoolSimple Frame;
  replacement_policy_ : P;
  fm_stats : BufferPoolStats;
  capacity_ : Z
}.

Definition set_frames (l : list (FrameId * Ptr)) (m : BPFrameManager) : BPFrameManager :=
  mkFM l (allocator_ m) (replacement_policy_ m) (fm_stats m) (capacity_ m).
Definition set_allocator (a : MemPoolSimple Frame) (m : BPFrameManager) : BPFrameManager :=
  mkFM (frames_ m) a (replacement_policy_ m) (fm_stats m) (capacity_ m).
Definition set_policy (p : P) (m : BPFrameManager) : BPFrameManager :=
  mkFM (frames_ m) (allocator_ m) p (fm_stats m) (capacity_ m).
Definition set_fm_stats (s : BufferPoolStats) (m : BPFrameManager) : BPFrameManager :=
  mkFM (frames_ m) (allocator_ m) (replacement_policy_ m) s (capacity_ m).
Definition set_capacity (c : Z) (m : BPFrameManager) : BPFrameManager :=
  mkFM (frames_ m) (allocator_ m) (replacement_policy_ m) (fm_stats m) c.

Definition new_frame_manager (policy : P) : BPFrameManager :=
  mkFM [] new_pool policy zero_stats 0.

(** The frame objects, by address. *)
Definition heap (m : BPFrameManager) : gmap Ptr Frame := mp_heap (allocator_ m).

(** [frame->...]: reading a frame and running one of its methods. *)
Definition frame_at (p : Ptr) : M BPFrameManager Frame := m ← fetch; deref (heap m !! p).

Definition put_frame (p : Ptr) (f : Frame) : M BPFrameManager unit :=
  modify (λ m, set_allocator (mp_set_heap (<[p := f]> (heap m)) (allocator_ m)) m).

Definition on_frame (p : Ptr) (op : Frame → BufferPoolStats → Frame * BufferPoolStats) :
    M BPFrameManager unit :=
  f ← frame_at p; s ← gets fm_stats;
  let '(f', s') := op f s in
  put_frame p f';; modify (set_fm_stats s').

Definition on_frame_set (p : Ptr) (op : Frame → Frame) : M BPFrameManager unit :=
  on_frame p (λ f s, (op f, s)).

Definition frame_unpin (p : Ptr) : M BPFrameManager Z :=
  f ← frame_at p; s ← gets fm_stats;
  '(n, (f', s')) ← deref (unpin f s);
  put_frame p f';; modify (set_fm_stats s');; mret n.

(** Running a method of the pool or of the policy. *)
Definition on_allocator {A} (op : M (MemPoolSimple Frame) A) : M BPFrameManager A := λ m,
  '(a, al) ← op (allocator_ m); Some (a, set_allocator al m).
Definition on_policy {A} (op : M P A) : M BPFrameManager A := λ m,
  '(a, p) ← op (replacement_policy_ m); Some (a, set_policy p m).
Definition policy_do (op : P → P) : M BPFrameManager unit :=
  modify (λ m, set_policy (op (replacement_policy_ m)) m).

(** ** The operations *)
Definition fm_init (pool_num item_num : Z) : M BPFrameManager RC :=
  ret ← on_allocator (pool_init false pool_num item_num);
  if ret =? 0 then modify (set_capacity (pool_num * item_num));; mret RC.SUCCESS
  else mret RC.NOMEM.

Definition fm_cleanup : M BPFrameManager RC :=
  m ← fetch;
  if bool_decide (0 < length (frames_ m))%nat then mret RC.INTERNAL
  else modify (set_frames []);; mret RC.SUCCESS.

Definition get_internal (frame_id : FrameId) : M BPFrameManager (option Ptr) :=
  m ← fetch;
  match lru_peek frame_id (frames_ m) with
  | None => mret None
  | Some frame =>
      policy_do (on_access frame_id);;
      on_frame frame pin;;
      policy_do (on_pin frame_id);;
      mret (Some frame)
  end.

Definition fm_get (buffer_pool_id : Z) (page_num : PageNum) : M BPFrameManager (option Ptr) :=
  get_internal (mkFrameId buffer_pool_id page_num).

Definition fm_alloc (buffer_pool_id : Z) (page_num : PageNum) : M BPFrameManager (option Ptr) :=
  let frame_id := mkFrameId buffer_pool_id page_num in
  r ← get_internal frame_id;
  match r with
  | Some frame => mret (Some frame)
  | None =>
      r ← on_allocator pool_alloc;
      match r with
      | None => mret None
      | Some frame =>
          f ← frame_at frame;
          assertb (pin_count_ f =? 0);;
          on_frame_set frame (set_buffer_pool_id buffer_pool_id);;
          on_frame_set frame (set_page_num page_num);;
          on_frame_set frame (set_stats true);;
          on_frame frame pin;;
          modify (λ m, set_frames (lru_put frame_id frame (frames_ m)) m);;
          policy_do (on_insert frame_id);;
          policy_do (on_pin frame_id);;
          mret (Some frame)
      end
  end.

Definition free_internal (frame_id : FrameId) (frame : Ptr) : M BPFrameManager RC :=
  m ← fetch;
  f ← frame_at frame;
  assertb (bool_decide (lru_peek frame_id (frames_ m) = Some frame) && (pin_count_ f =? 1));;
  on_frame frame clear_dirty;;
  on_frame_set frame (set_page_num (-1));;
  frame_unpin frame;;
  policy_do (on_unpin frame_id);;
  policy_do (on_remove frame_id);;
  modify (λ m, set_frames (lru_remove frame_id (frames_ m)) m);;
  on_frame_set frame (set_stats false);;
  on_allocator (pool_free frame);;
  mret RC.SUCCESS.

Definition fm_free (buffer_pool_id : Z) (page_num : PageNum) (frame : Ptr) : M BPFrameManager RC :=
  free_internal (mkFrameId buffer_pool_id page_num) frame.

(** [find_list]: the visits of [foreach], each of which pins. *)
Fixpoint find_list_loop (l : list (FrameId * Ptr)) (buffer_pool_id : Z) (acc : list Ptr) :
    M BPFrameManager (list Ptr) :=
  match l with
  | [] => mret acc
  | (frame_id, frame) :: l =>
      if buffer_pool_id =? fid_buffer_pool_id frame_id then
        on_frame frame pin;;
        policy_do (on_pin frame_id);;
        find_list_loop l buffer_pool_id (acc ++ [frame])
      else find_list_loop l buffer_pool_id acc
  end.

Definition find_list (buffer_pool_id : Z) : M BPFrameManager (list Ptr) :=
  m ← fetch; find_list_loop (frames_ m) buffer_pool_id [].

(** The callback given to the policy. *)
Definition is_replaceable (m : BPFrameManager) (frame_id : FrameId) : bool :=
  match lru_peek frame_id (frames_ m) with
  | Some frame => match heap m !! frame with Some f => can_purge f | None => false end
  | None => false
  end.

(** The first loop of [purge_frames]: victims are chosen and pinned until there
    are [count] of them.  Each round pins one more cached frame, so
    [length frames_ + 1] rounds are enough. *)
Fixpoint choose_loop (n : nat) (count : Z) (acc : list Ptr) : M BPFrameManager (list Ptr) :=
  if bool_decide (Z.of_nat (length acc) < count) then
    match n with
    | O => abort
    | S n =>
        m ← fetch;
        r ← on_policy (choose_victim (is_replaceable m));
        match r with
        | None => mret acc
        | Some victim =>
            match lru_peek victim (frames_ m) with
            | None => mret acc
            | Some frame =>
                f ← frame_at frame;
                if negb (can_purge f) then mret acc
                else
                  on_frame frame pin;;
                  policy_do (on_pin victim);;
                  choose_loop n count (acc ++ [frame])
            end
        end
    end
  else mret acc.

(** The second loop: [purger] writes a victim back; it may change the rest of
    the system [E]. *)
Section purge.
Context {E : Type}.

Definition with_fm {A} (op : M BPFrameManager A) : M (BPFrameManager * E) A := λ '(m, e),
  '(a, m') ← op m; Some (a, (m', e)).

Fixpoint purge_loop (purger : Ptr → M (BPFrameManager * E) RC) (l : list Ptr) (freed_count : Z) :
    M (BPFrameManager * E) Z :=
  match l with
  | [] => mret freed_count
  | frame :: l =>
      f ← with_fm (frame_at frame);
      rc ← purger frame;
      if bool_decide (rc = RC.SUCCESS) then
        with_fm (modify (λ m, set_fm_stats (record_eviction (dirty_ f) (fm_stats m)) m));;
        f' ← with_fm (frame_at frame);
        with_fm (free_internal (frame_id_ f') frame);;
        purge_loop purger l (freed_count + 1)
      else
        with_fm (frame_unpin frame);;
        f' ← with_fm (frame_at frame);
        with_fm (policy_do (on_unpin (frame_id_ f')));;
        purge_loop purger l freed_count
  end.

Definition purge_frames (count : Z) (purger : Ptr → M (BPFrameManager * E) RC) :
    M (BPFrameManager * E) Z :=
  let count := if count <=? 0 then 1 else count in
  '(m, _) ← fetch;
  frames_can_purge ← with_fm (choose_loop (S (length (frames_ m))) count []);
  purge_loop purger frames_can_purge 0.
End purge.

(** ** The diagnostic snapshot *)
Record FrameSnapshot : Type := mkFrameSnapshot {
  fsn_frame_id : string;
  fsn_buffer_pool_id : Z;
  fsn_page_num : Z;
  fsn_pin_count : Z;
  fsn_dirty : bool;
  fsn_replaceable : bool;
  fsn_last_access_ns : Z;
  fsn_policy_metadata : string
}.

Record BufferPoolSnapshot : Type := mkBufferPoolSnapshot {
  sn_capacity : Z;
  sn_used_frames : Z;
  sn_free_frames : Z;
  sn_pinned_frames : Z;
  sn_dirty_frames : Z;
  sn_replacement_policy : string;
  sn_io_backend : string;
  sn_file_name : string;
  sn_buffer_pool_id : Z;
  sn_stats : BufferPoolStatsSnapshot;
  sn_frames : list FrameSnapshot
}.

Definition FrameId_to_string (i : FrameId) : string :=
  String.append "buffer_pool_id:" (String.append (pretty (fid_buffer_pool_id i))
    (String.append ",page_num:" (pretty (fid_page_num i)))).

(** The file name, the backend and the pool number of the snapshot are filled in
    by [DiskBufferPool::snapshot].  The collector called by [foreach]; a dangling pointer aborts. *)
Fixpoint snapshot_loop (m : BPFrameManager) (buffer_pool_id : Z) (l : list (FrameId * Ptr))
    (r : BufferPoolSnapshot) : option BufferPoolSnapshot :=
  match l with
  | [] => Some r
  | (id, frame) :: l =>
      if (0 <=? buffer_pool_id) && negb (fid_buffer_pool_id id =? buffer_pool_id)
      then snapshot_loop m buffer_pool_id l r
      else
        f ← heap m !! frame;
        let item := mkFrameSnapshot (FrameId_to_string id) (fid_buffer_pool_id id) (fid_page_num id)
                      (pin_count_ f) (dirty_ f) (can_purge f) (acc_time_ f)
                      (metadata id (replacement_policy_ m)) in
        snapshot_loop m buffer_pool_id l
          (mkBufferPoolSnapshot (sn_capacity r) (sn_used_frames r + 1) (sn_free_frames r)
             (sn_pinned_frames r + (if 0 <? pin_count_ f then 1 else 0))
             (sn_dirty_frames r + (if dirty_ f then 1 else 0))
             (sn_replacement_policy r) (sn_io_backend r) (sn_file_name r) (sn_buffer_pool_id r)
             (sn_stats r) (sn_frames r ++ [item]))
  end.

Definition fm_snapshot (m : BPFrameManager) (buffer_pool_id : Z) : option BufferPoolSnapshot :=
  let n := Z.of_nat (length (frames_ m)) in
  let r := mkBufferPoolSnapshot (capacity_ m) 0 (if n <? capacity_ m then capacity_ m - n else 0) 0 0
             (policy_name (replacement_policy_ m)) "" "" (-1) (stats_snapshot zero_stats) [] in
  r ← snapshot_loop m buffer_pool_id (frames_ m) r;
  Some (mkBufferPoolSnapshot (sn_capacity r) (sn_used_frames r) (sn_free_frames r) (sn_pinned_frames r)
          (sn_dirty_frames r) (sn_replacement_policy r) (sn_io_backend r) (sn_file_name r)
          (sn_buffer_pool_id r) (stats_snapshot (fm_stats m)) (sn_frames r)).

(** ** Counting frames *)
Definition pinned (f : Frame) : bool := 0 <? pin_count_ f.

(** How many of the frames listed pass a test. *)
Fixpoint fcount (t : Frame → bool) (h : gmap Ptr Frame) (l : list (FrameId * Ptr)) : Z :=
  match l with
  | [] => 0
  | (_, p) :: l => (match h !! p with Some f => Z.b2z (t f) | None => 0 end) + fcount t h l
  end.

Lemma b2z_bound b : 0 ≤ Z.b2z b ≤ 1.
Proof. destruct b; cbn; lia. Qed.

Lemma fcount_bound t h l : 0 ≤ fcount t h l ≤ Z.of_nat (length l).
Proof.
  induction l as [|[id p] l IH]; cbn [fcount length]; [lia|].
  destruct (h !! p) as [f|]; [pose proof (b2z_bound (t f))|]; lia.
Qed.

Lemma fcount_frame t h l p f : p ∉ l.*2 → fcount t (<[p := f]> h) l = fcount t h l.
Proof.
  induction l as [|[id q] l IH]; cbn; [done|]. intros [Hp Hl]%not_elem_of_cons.
  rewrite lookup_insert_ne by done. by rewrite IH.
Qed.

Lemma fcount_write t h l p f f0 :
  NoDup l.*2 → p ∈ l.*2 → h !! p = Some f0 →
  fcount t (<[p := f]> h) l = fcount t h l + Z.b2z (t f) - Z.b2z (t f0).
Proof.
  intros Hnd Hin Hp. induction l as [|[id q] l IH]; cbn in *; [by apply not_elem_of_nil in Hin|].
  apply list.NoDup_cons in Hnd as [Hq Hnd]. apply elem_of_cons in Hin as [->|Hin].
  - rewrite lookup_insert, decide_True, Hp by done. rewrite fcount_frame by done. lia.
  - assert (p ≠ q) by (by intros ->). rewrite lookup_insert_ne, IH by done. lia.
Qed.

Lemma fcount_remove t h l id p f :
  lru_wf l → (id, p) ∈ l → h !! p = Some f →
  fcount t h (lru_remove id l) = fcount t h l - Z.b2z (t f).
Proof.
  intros Hwf Hin Hp. apply (lru_peek_elem id p) in Hin; [|done].
  apply lru_peek_split in Hin as (l1 & l2 & -> & Hl1). rewrite lru_remove_app by done. clear -Hp.
  induction l1 as [|[id1 p1] l1 IH]; cbn; [rewrite Hp|]; lia.
Qed.

Lemma fcount_elem t h l id p f : (id, p) ∈ l → h !! p = Some f → t f = true → 1 ≤ fcount t h l.
Proof.
  intros Hin Hp Ht. induction l as [|[id1 p1] l IH]; [by apply not_elem_of_nil in Hin|]. cbn.
  pose proof (fcount_bound t h l). apply elem_of_cons in Hin as [[= -> ->]|Hin].
  - rewrite Hp, Ht. cbn. lia.
  - specialize (IH Hin). destruct (h !! p1) as [f1|]; [pose proof (b2z_bound (t f1))|]; lia.
Qed.

Lemma fcount_none t h l :
  (∀ id p f, (id, p) ∈ l → h !! p = Some f → t f = false) → fcount t h l = 0.
Proof.
  induction l as [|[id p] l IH]; cbn; [done|]. intros Ht. rewrite IH.
  - destruct (h !! p) as [f|] eqn:E; [|done]. by rewrite (Ht id p f) by (left || done).
  - intros id' q f Hq. apply (Ht id'). by right.
Qed.

(** ** The invariant *)
Context `{!PolicyLaws P}.

Definition unlatched (f : Frame) : Prop := write_locker_ f = 0 ∧ read_lockers_ f = ∅.

(** A frame in the cache knows its identifier and the statistics, and is latched
    only while pinned; an idle one is clean and unpinned. *)
Record cached_ok (id : FrameId) (f : Frame) : Prop := {
  ck_id : frame_id_ f = id;
  ck_stats : stats_ f = true;
  ck_pin : 0 ≤ pin_count_ f < 2 ^ 31;
  ck_latch : pin_count_ f = 0 → unlatched f
}.

Record idle_ok (f : Frame) : Prop := {
  ik_pin : pin_count_ f = 0;
  ik_dirty : dirty_ f = false;
  ik_latch : unlatched f;
  ik_stats : stats_ f = false
}.

(** Cache, pool, policy and statistics agree. *)
Record fm_wf (m : BPFrameManager) : Prop := {
  fw_pool : pool_wf (allocator_ m);
  fw_fixed : dynamic (allocator_ m) = false;
  fw_keys : lru_wf (frames_ m);
  fw_ptrs : NoDup (frames_ m).*2;
  fw_used : used (allocator_ m) = list_to_set (frames_ m).*2;
  fw_cached : ∀ id p, (id, p) ∈ frames_ m → ∃ f, heap m !! p = Some f ∧ cached_ok id f;
  fw_idle : ∀ p f, p ∈ frees (allocator_ m) → heap m !! p = Some f → idle_ok f;
  fw_policy : policy_ok (replacement_policy_ m);
  fw_tracked : tracked (replacement_policy_ m) = list_to_set (frames_ m).*1;
  fw_capacity : capacity_ m = pool_size (allocator_ m);
  fw_pinned : fm_stats m current_pinned_frames = fcount pinned (heap m) (frames_ m);
  fw_dirty : fm_stats m dirty_pages_current = fcount dirty_ (heap m) (frames_ m)
}.

(** The state after a frame and the statistics are written. *)
Definition upd (m : BPFrameManager) (p : Ptr) (f : Frame) (s : BufferPoolStats) : BPFrameManager :=
  mkFM (frames_ m) (mp_set_heap (<[p := f]> (heap m)) (allocator_ m)) (replacement_policy_ m) s (capacity_ m).

Lemma fm_length_bound m : fm_wf m → Z.of_nat (length (frames_ m)) < 2 ^ 31.
Proof.
  intros W. pose proof (pool_count _ (fw_pool _ W)) as Hc. pose proof (pool_range _ (fw_pool _ W)).
  rewrite (fw_used _ W), size_list_to_set, length_fmap in Hc by apply W. lia.
Qed.

Lemma frame_at_eq p f m : heap m !! p = Some f → frame_at p m = Some (f, m).
Proof. intros E. unfold frame_at. mstep. by rewrite E. Qed.

Lemma on_frame_eq p op f f' s' m :
  heap m !! p = Some f → op f (fm_stats m) = (f', s') → on_frame p op m = Some (tt, upd m p f' s').
Proof. intros E1 E2. unfold on_frame. rewrite (exec (frame_at_eq _ _ _ E1)). mstep. by rewrite E2. Qed.

Lemma frame_unpin_eq p f n f' s' m :
  heap m !! p = Some f → unpin f (fm_stats m) = Some (n, (f', s')) →
  frame_unpin p m = Some (n, upd m p f' s').
Proof. intros E1 E2. unfold frame_unpin. rewrite (exec (frame_at_eq _ _ _ E1)). mstep. by rewrite E2. Qed.

Lemma ptr_key_unique m id id' p : fm_wf m → (id, p) ∈ frames_ m → (id', p) ∈ frames_ m → id = id'.
Proof.
  intros W (f & Hf & Hi)%(fw_cached _ W) (f' & Hf' & Hi')%(fw_cached _ W).
  rewrite Hf in Hf'. injection Hf' as <-. by rewrite <-(ck_id _ _ Hi), <-(ck_id _ _ Hi').
Qed.

(** Changing a cached frame together with the counters keeps the invariant. *)
Lemma upd_wf m id p f f' s' :
  fm_wf m → (id, p) ∈ frames_ m → heap m !! p = Some f → cached_ok id f' →
  s' current_pinned_frames = fm_stats m current_pinned_frames + Z.b2z (pinned f') - Z.b2z (pinned f) →
  s' dirty_pages_current = fm_stats m dirty_pages_current + Z.b2z (dirty_ f') - Z.b2z (dirty_ f) →
  fm_wf (upd m p f' s').
Proof.
  intros W Hin Hf Hok Hs1 Hs2.
  assert (p ∈ (frames_ m).*2) as Hp2 by exact (list_elem_of_fmap_2 snd _ _ Hin).
  split; cbn; try apply W.
  - apply pool_wf_write; [apply W|]. unfold heap in Hf. rewrite Hf. eauto.
  - intros id' q Hq. unfold heap. cbn. destruct (decide (q = p)) as [->|Hne].
    + assert (id' = id) as -> by (by eapply ptr_key_unique).
      exists f'. by rewrite lookup_insert, decide_True.
    + rewrite lookup_insert_ne by done. by apply (fw_cached _ W).
  - intros q g Hq. unfold heap. cbn. destruct (decide (q = p)) as [->|Hne].
    + exfalso. apply (pool_disj _ (fw_pool _ W) p Hq). rewrite (fw_used _ W). by apply elem_of_list_to_set.
    + rewrite lookup_insert_ne by done. by apply (fw_idle _ W).
  - rewrite Hs1, (fw_pinned _ W). symmetry. apply fcount_write; [apply W|done|done].
  - rewrite Hs2, (fw_dirty _ W). symmetry. apply fcount_write; [apply W|done|done].
Qed.

(** ** The statistics side of the frame methods *)
Lemma pin_effect f s :
  stats_ f = true → 0 ≤ pin_count_ f < 2 ^ 31 - 1 → 0 ≤ s current_pinned_frames < 2 ^ 64 - 1 →
  ∃ s', pin f s = (set_pin_count (pin_count_ f + 1) f, s') ∧
    s' current_pinned_frames = s current_pinned_frames + 1 - Z.b2z (pinned f) ∧
    s' dirty_pages_current = s dirty_pages_current.
Proof.
  intros Hs Hp Hc. unfold pin. rewrite Hs, swrap_id by (unfold in_srange; lia). eexists. split; [done|].
  unfold pinned. destruct (pin_count_ f + 1 =? 1) eqn:E; [apply Z.eqb_eq in E|apply Z.eqb_neq in E].
  - rewrite (proj2 (Z.ltb_ge _ _)) by lia. stat_eval. rewrite uwrap_id by lia. cbn. lia.
  - rewrite (proj2 (Z.ltb_lt _ _)) by lia. stat_eval. cbn. lia.
Qed.

Lemma unpin_effect f s :
  stats_ f = true → 0 < pin_count_ f < 2 ^ 31 → (pin_count_ f = 1 → unlatched f) →
  0 < s current_pinned_frames →
  ∃ s', unpin f s = Some (pin_count_ f - 1, (set_pin_count (pin_count_ f - 1) f, s')) ∧
    s' current_pinned_frames = s current_pinned_frames + Z.b2z (0 <? pin_count_ f - 1) - 1 ∧
    s' dirty_pages_current = s dirty_pages_current.
Proof.
  intros Hs Hp Hl Hc. unfold unpin. rewrite Hs, (proj2 (Z.ltb_lt _ _)) by lia.
  rewrite swrap_id by (unfold in_srange; lia).
  destruct (pin_count_ f - 1 =? 0) eqn:E; [apply Z.eqb_eq in E|apply Z.eqb_neq in E].
  - destruct Hl as [Hw Hr]; [lia|]. rewrite Hw, Hr. cbn. eexists. split; [done|].
    rewrite (proj2 (Z.ltb_ge _ _)) by lia. stat_eval. rewrite (proj2 (Z.ltb_lt _ _)) by done. cbn. lia.
  - cbn. eexists. split; [done|]. rewrite (proj2 (Z.ltb_lt _ _)) by lia. stat_eval. cbn. lia.
Qed.

Lemma clear_dirty_effect f s :
  stats_ f = true → (dirty_ f = true → 0 < s dirty_pages_current) →
  ∃ s', clear_dirty f s = (set_dirty false f, s') ∧
    s' current_pinned_frames = s current_pinned_frames ∧
    s' dirty_pages_current = s dirty_pages_current - Z.b2z (dirty_ f).
Proof.
  intros Hs Hd. unfold clear_dirty. destruct (dirty_ f) eqn:E.
  - rewrite Hs. eexists. split; [done|]. stat_eval. rewrite (proj2 (Z.ltb_lt _ _)) by auto. cbn. lia.
  - exists s. split; [|cbn; lia]. unfold set_dirty. rewrite <-E. by destruct f.
Qed.

Lemma mark_dirty_effect f s :
  stats_ f = true → 0 ≤ s dirty_pages_current < 2 ^ 64 - 1 →
  ∃ s', mark_dirty f s = (set_dirty true f, s') ∧
    s' current_pinned_frames = s current_pinned_frames ∧
    s' dirty_pages_current = s dirty_pages_current + 1 - Z.b2z (dirty_ f).
Proof.
  intros Hs Hd. unfold mark_dirty. destruct (dirty_ f) eqn:E.
  - exists s. split; [|cbn; lia]. unfold set_dirty. rewrite <-E. by destruct f.
  - rewrite Hs. eexists. split; [done|]. stat_eval. rewrite uwrap_id by lia. cbn. lia.
Qed.

Lemma fm_counters m :
  fm_wf m → (0 ≤ fm_stats m current_pinned_frames < 2 ^ 31) ∧ (0 ≤ fm_stats m dirty_pages_current < 2 ^ 31).
Proof.
  intros W. pose proof (fm_length_bound _ W). rewrite (fw_pinned _ W), (fw_dirty _ W).
  pose proof (fcount_bound pinned (heap m) (frames_ m)).
  pose proof (fcount_bound dirty_ (heap m) (frames_ m)). lia.
Qed.

(** Pinning a cached frame. *)
Lemma frame_pin_ok m id p f :
  fm_wf m → (id, p) ∈ frames_ m → heap m !! p = Some f → pin_count_ f < 2 ^ 31 - 1 →
  ∃ s', on_frame p pin m = Some (tt, upd m p (set_pin_count (pin_count_ f + 1) f) s') ∧
    fm_wf (upd m p (set_pin_count (pin_count_ f + 1) f) s').
Proof.
  intros W Hin Hf Hb. destruct (fw_cached _ W _ _ Hin) as (f0 & Hf0 & Hok).
  rewrite Hf in Hf0. injection Hf0 as <-. pose proof (fm_counters _ W). destruct Hok.
  destruct (pin_effect f (fm_stats m)) as (s' & Ep & H1 & H2); [done|lia|lia|].
  exists s'. split; [by eapply on_frame_eq|]. apply (upd_wf m id p f); try done.
  - split; cbn; try done; lia.
  - rewrite H1. unfold pinned at 2. cbn. rewrite (proj2 (Z.ltb_lt 0 _)) by lia. cbn. lia.
  - cbn. lia.
Qed.

Lemma frame_unpin_ok m id p f :
  fm_wf m → (id, p) ∈ frames_ m → heap m !! p = Some f → 0 < pin_count_ f →
  (pin_count_ f = 1 → unlatched f) →
  ∃ s', frame_unpin p m = Some (pin_count_ f - 1, upd m p (set_pin_count (pin_count_ f - 1) f) s') ∧
    fm_wf (upd m p (set_pin_count (pin_count_ f - 1) f) s').
Proof.
  intros W Hin Hf Hb Hl. destruct (fw_cached _ W _ _ Hin) as (f0 & Hf0 & Hok).
  rewrite Hf in Hf0. injection Hf0 as <-. destruct Hok.
  assert (pinned f = true) as Hpf by (apply Z.ltb_lt; done).
  assert (0 < fm_stats m current_pinned_frames) as Hpos.
  { rewrite (fw_pinned _ W). pose proof (fcount_elem pinned (heap m) _ _ _ _ Hin Hf Hpf). lia. }
  destruct (unpin_effect f (fm_stats m)) as (s' & Ep & H1 & H2); [done|lia|done|done|].
  exists s'. split; [by eapply frame_unpin_eq|]. apply (upd_wf m id p f); try done.
  - split; cbn; try done; [lia|]. intros ?. apply Hl. lia.
  - rewrite H1, Hpf. unfold pinned. cbn. lia.
  - cbn. lia.
Qed.

(** The policy may change without touching which pages it tracks. *)
Lemma set_policy_wf m q :
  fm_wf m → policy_ok q → tracked q = tracked (replacement_policy_ m) → fm_wf (set_policy q m).
Proof. intros [] Hq Ht. split; cbn; try done. by rewrite Ht. Qed.

Lemma on_access_wf m id p : fm_wf m → (id, p) ∈ frames_ m →
  fm_wf (set_policy (on_access id (replacement_policy_ m)) m).
Proof.
  intros W Hin. pose proof (fw_policy _ W) as Hp. apply set_policy_wf; [done|by apply on_access_ok|].
  apply tracked_access; [done|]. rewrite (fw_tracked _ W). apply elem_of_list_to_set.
  exact (list_elem_of_fmap_2 fst _ _ Hin).
Qed.

Lemma policy_pin_id id m : policy_do (on_pin id) m = Some (tt, m).
Proof. unfold policy_do. mstep. rewrite on_pin_id. by destruct m. Qed.

Lemma policy_unpin_id id m : policy_do (on_unpin id) m = Some (tt, m).
Proof. unfold policy_do. mstep. rewrite on_unpin_id. by destruct m. Qed.

(** [get_internal]: a hit pins the cached frame and tells the policy; a miss
    changes nothing. *)
Lemma get_internal_ok m id :
  fm_wf m →
  match lru_peek id (frames_ m) with
  | None => get_internal id m = Some (None, m)
  | Some p => ∃ f, heap m !! p = Some f ∧ cached_ok id f ∧
      (pin_count_ f < 2 ^ 31 - 1 →
       ∃ s', let m' := set_policy (on_access id (replacement_policy_ m))
                         (upd m p (set_pin_count (pin_count_ f + 1) f) s') in
         get_internal id m = Some (Some p, m') ∧ fm_wf m')
  end.
Proof.
  intros W. unfold get_internal. destruct (lru_peek id (frames_ m)) as [p|] eqn:E.
  - apply lru_peek_elem in E as Hin; [|apply W].
    destruct (fw_cached _ W _ _ Hin) as (f & Hf & Hok). exists f. split_and!; [done|done|]. intros Hb.
    pose proof (on_access_wf m id p W Hin) as W1.
    destruct (frame_pin_ok _ id p f W1 Hin Hf Hb) as (s' & Ep & W2). exists s'. split; [|done].
    erewrite (bind_run fetch) by done. rewrite E.
    erewrite (bind_run (policy_do _)) by done.
    rewrite (exec Ep), (exec (policy_pin_id _ _)). done.
  - mstep. by rewrite E.
Qed.

(** ** [alloc] *)
Lemma heap_upd m p f s : heap (upd m p f s) !! p = Some f.
Proof. unfold heap. cbn. by rewrite lookup_insert, decide_True. Qed.

Lemma heap_upd_ne m p q f s : q ≠ p → heap (upd m p f s) !! q = heap m !! q.
Proof. intros. unfold heap. cbn. by rewrite lookup_insert_ne. Qed.

Lemma upd_upd m p f s g s2 : upd (upd m p f s) p g s2 = upd m p g s2.
Proof. unfold upd, heap, mp_set_heap. cbn. by rewrite insert_insert, decide_True. Qed.

Lemma on_frame_set_eq p op f m :
  heap m !! p = Some f → on_frame_set p op m = Some (tt, upd m p (op f) (fm_stats m)).
Proof. intros E. unfold on_frame_set. by eapply on_frame_eq. Qed.

(** The frame that [alloc] hands out for [id]: the page keeps its old content. *)
Definition fresh_frame (id : FrameId) (x : Frame) : Frame :=
  set_pin_count 1 (set_stats true (set_frame_id id x)).

(** The state after a miss of [alloc] that takes the idle frame [b]. *)
Definition alloc_state (m : BPFrameManager) (id : FrameId) (b : Ptr) (rest : list Ptr) (f : Frame)
    (s : BufferPoolStats) : BPFrameManager :=
  let a := allocator_ m in
  mkFM ((id, b) :: frames_ m)
    (mkMemPoolSimple (<[b := f]> (heap m)) (mp_top a) (pools a) ({[b]} ∪ used a) rest
       (pool_size a) (dynamic a) (item_num_per_pool a))
    (on_insert id (replacement_policy_ m)) s (capacity_ m).

Lemma fm_alloc_run m bp pn b rest x a' :
  let id := mkFrameId bp pn in
  get_internal id m = Some (None, m) → lru_peek id (frames_ m) = None →
  pool_alloc (allocator_ m) = Some (Some b, a') →
  mp_heap a' = <[b := x]> (heap m) → pin_count_ x = 0 →
  a' = mkMemPoolSimple (<[b := x]> (heap m)) (mp_top (allocator_ m)) (pools (allocator_ m))
         ({[b]} ∪ used (allocator_ m)) rest (pool_size (allocator_ m)) (dynamic (allocator_ m))
         (item_num_per_pool (allocator_ m)) →
  ∃ s', fm_alloc bp pn m = Some (Some b, alloc_state m id b rest (fresh_frame id x) s') ∧
    s' = record_pin true (fm_stats m).
Proof.
  intros id Eg Hmiss Ea Hh Hpin Ha'. eexists. split; [|reflexivity].
  unfold fm_alloc. fold id. rewrite (exec Eg). cbv beta iota.
  rewrite (bind_run (on_allocator pool_alloc) _ _ (Some b) (set_allocator a' m))
    by (unfold on_allocator; by rewrite Ea). cbv beta iota.
  assert (heap (set_allocator a' m) !! b = Some x) as H0.
  { unfold heap. cbn. by rewrite Hh, lookup_insert, decide_True. }
  rewrite (exec (frame_at_eq _ _ _ H0)). rewrite Hpin. cbn [assertb Z.eqb].
  erewrite (bind_run (mret tt)) by done.
  rewrite (exec (on_frame_set_eq _ _ _ _ H0)).
  rewrite (exec (on_frame_set_eq _ _ _ _ (heap_upd _ _ _ _))), upd_upd.
  rewrite (exec (on_frame_set_eq _ _ _ _ (heap_upd _ _ _ _))), upd_upd.
  erewrite bind_run by (eapply on_frame_eq; [apply heap_upd|reflexivity]). rewrite upd_upd.
  cbn [fm_stats upd set_allocator stats_ set_stats pin_count_ set_page_num set_buffer_pool_id set_frame_id]. rewrite Hpin.
  erewrite !(bind_run (modify _)) by done. erewrite !(bind_run (policy_do _)) by done.
  unfold mret, M_ret. f_equal. f_equal.
  unfold set_frames, set_policy, alloc_state, upd, heap, mp_set_heap. cbn.
  rewrite Ha'. cbn. rewrite on_pin_id. f_equal.
  - unfold lru_put. rewrite lru_remove_not_elem; [done|]. by apply lru_peek_None.
  - by rewrite insert_insert, decide_True.
Qed.

Lemma alloc_state_wf m id b rest x s :
  fm_wf m → lru_peek id (frames_ m) = None → frees (allocator_ m) = b :: rest →
  heap m !! b = Some x → b ∉ used (allocator_ m) →
  pool_wf (allocator_ (alloc_state m id b rest x s)) →
  s current_pinned_frames = fm_stats m current_pinned_frames + 1 →
  s dirty_pages_current = fm_stats m dirty_pages_current →
  fm_wf (alloc_state m id b rest (fresh_frame id x) s).
Proof.
  intros W Hmiss Hf Hx Hb Hpw Hs1 Hs2. apply lru_peek_None in Hmiss as Hid.
  assert (b ∉ (frames_ m).*2) as Hb2.
  { rewrite (fw_used _ W) in Hb. intros H. by apply Hb, elem_of_list_to_set. }
  destruct (fw_idle _ W b x) as [Hp Hd Hl Hst]; [rewrite Hf; left|done|].
  split; cbn.
  - destruct Hpw as [H1 H2 H3 H4 H5 H6 H7 H8]. cbn in *.
    assert (∀ q g, is_Some (<[b := g]> (heap m) !! q) ↔ is_Some (<[b := x]> (heap m) !! q)) as Hq.
    { intros q g. by rewrite !lookup_insert_is_Some'. }
    split; cbn; try done; intros q; rewrite Hq; auto.
  - apply W.
  - constructor; [done|apply W].
  - constructor; [done|apply W].
  - rewrite (fw_used _ W). done.
  - intros id' q [[= -> ->]|Hq]%elem_of_cons; unfold heap; cbn.
    + rewrite lookup_insert, decide_True by done. eexists. split; [done|].
      by split.
    + rewrite lookup_insert_ne; [by apply (fw_cached _ W)|]. intros <-. apply Hb2.
      exact (list_elem_of_fmap_2 snd _ _ Hq).
  - pose proof (pool_frees_nodup _ (fw_pool _ W)) as Hnd. rewrite Hf in Hnd.
    apply list.NoDup_cons in Hnd as [Hbr _]. intros q g Hq. unfold heap. cbn.
    rewrite lookup_insert_ne by (by intros <-). apply (fw_idle _ W). rewrite Hf. by right.
  - apply on_insert_ok, W.
  - rewrite tracked_insert, (fw_tracked _ W) by apply W. done.
  - apply W.
  - unfold heap. cbn. rewrite lookup_insert, decide_True, fcount_frame by done.
    rewrite Hs1, (fw_pinned _ W). change (pinned (fresh_frame id x)) with true. cbn. unfold heap. lia.
  - unfold heap. cbn. rewrite lookup_insert, decide_True, fcount_frame by done. cbn.
    rewrite Hs2, (fw_dirty _ W), Hd. cbn. unfold heap. lia.
Qed.

(** [alloc]: a hit behaves like [get]; a miss takes the oldest idle frame, and
    is null exactly if there is none. *)
Lemma fm_alloc_ok m bp pn :
  let id := mkFrameId bp pn in
  fm_wf m → lru_peek id (frames_ m) = None →
  match frees (allocator_ m) with
  | [] => fm_alloc bp pn m = Some (None, m)
  | b :: rest => ∃ x s', heap m !! b = Some x ∧
      let m' := alloc_state m id b rest (fresh_frame id x) s' in
      fm_alloc bp pn m = Some (Some b, m') ∧ fm_wf m'
  end.
Proof.
  intros id W Hmiss. pose proof (get_internal_ok m id W) as Hg. rewrite Hmiss in Hg.
  pose proof (pool_alloc_fixed _ (fw_pool _ W) (fw_fixed _ W)) as Ha.
  destruct (frees (allocator_ m)) as [|b rest] eqn:Hf.
  - unfold fm_alloc. fold id. rewrite (exec Hg). cbv beta iota.
    rewrite (bind_run (on_allocator pool_alloc) _ _ None m); [done|].
    unfold on_allocator. rewrite Ha. cbn. by destruct m.
  - destruct Ha as (x & Hx & Ea & Wa & Hb). destruct (fw_idle _ W b x) as [Hp _ _ _]; [rewrite Hf; left|done|].
    destruct (fm_alloc_run m bp pn b rest x _ Hg Hmiss Ea eq_refl Hp eq_refl) as (s' & E & ->).
    exists x, (record_pin true (fm_stats m)). split; [done|]. cbv zeta. split; [done|].
    pose proof (fm_counters _ W). apply alloc_state_wf; try done;
      stat_eval; rewrite ?uwrap_id; lia.
Qed.

(** ** [free] *)
Definition freed_frame (f : Frame) : Frame :=
  set_stats false (set_pin_count 0 (set_page_num (-1) (set_dirty false f))).

Definition free_state (m : BPFrameManager) (id : FrameId) (p : Ptr) (f : Frame) (s : BufferPoolStats) :
    BPFrameManager :=
  let a := allocator_ m in
  mkFM (lru_remove id (frames_ m))
    (mkMemPoolSimple (<[p := f]> (heap m)) (mp_top a) (pools a) (used a ∖ {[p]}) (frees a ++ [p])
       (pool_size a) (dynamic a) (item_num_per_pool a))
    (on_remove id (replacement_policy_ m)) s (capacity_ m).

Lemma free_internal_run m id p f :
  fm_wf m → (id, p) ∈ frames_ m → heap m !! p = Some f → pin_count_ f = 1 → unlatched f →
  ∃ s', free_internal id p m = Some (RC.SUCCESS, free_state m id p (freed_frame f) s') ∧
    s' current_pinned_frames = fm_stats m current_pinned_frames - 1 ∧
    s' dirty_pages_current = fm_stats m dirty_pages_current - Z.b2z (dirty_ f) ∧
    pool_wf (allocator_ (free_state m id p (freed_frame f) s')).
Proof.
  intros W Hin Hf Hp Hl. destruct (fw_cached _ W _ _ Hin) as (f0 & Hf0 & Hok).
  rewrite Hf in Hf0. injection Hf0 as <-. destruct Hok as [Hid Hst Hpb _].
  assert (lru_peek id (frames_ m) = Some p) as Hpk by (apply lru_peek_elem; [apply W|done]).
  assert (pinned f = true) as Hpf by (apply Z.ltb_lt; lia).
  pose proof (fcount_elem pinned (heap m) _ _ _ _ Hin Hf Hpf) as Hpos1. rewrite <-(fw_pinned _ W) in Hpos1.
  assert (dirty_ f = true → 0 < fm_stats m dirty_pages_current) as Hpos2.
  { intros Hd. rewrite (fw_dirty _ W). pose proof (fcount_elem dirty_ (heap m) _ _ _ _ Hin Hf Hd). lia. }
  destruct (clear_dirty_effect f (fm_stats m) Hst Hpos2) as (s1 & E1 & H1 & H2).
  destruct (unpin_effect (set_page_num (-1) (set_dirty false f)) s1) as (s2 & E2 & H3 & H4);
    [done|cbn; lia|done|lia|]. cbn [pin_count_ set_page_num set_frame_id set_dirty] in E2, H3. rewrite Hp in E2, H3.
  assert (p ∈ used (allocator_ m)) as Hu.
  { rewrite (fw_used _ W). apply elem_of_list_to_set. exact (list_elem_of_fmap_2 snd _ _ Hin). }
  set (al := mp_set_heap (<[p := freed_frame f]> (heap m)) (allocator_ m)).
  assert (pool_wf al) as Wal by (apply pool_wf_write; [apply W|]; unfold heap in Hf; rewrite Hf; eauto).
  destruct (pool_free_used al p (freed_frame f) Wal Hu) as [E3 Wf];
    [unfold al; cbn; by rewrite lookup_insert, decide_True|].
  change (Z.b2z (0 <? 1 - 1)) with 0 in H3. exists s2. split_and!; [|lia|lia|].
  - unfold free_internal. erewrite (bind_run fetch) by done.
    rewrite (exec (frame_at_eq _ _ _ Hf)).
    rewrite bool_decide_eq_true_2, Hp by done. cbn [assertb andb Z.eqb Pos.eqb].
    erewrite (bind_run (mret tt)) by done.
    rewrite (exec (on_frame_eq _ _ _ _ _ _ Hf E1)).
    rewrite (exec (on_frame_set_eq _ _ _ _ (heap_upd _ _ _ _))), upd_upd.
    rewrite (exec (frame_unpin_eq _ _ _ _ _ _ (heap_upd _ _ _ _) E2)), upd_upd.
    rewrite (exec (policy_unpin_id _ _)).
    erewrite (bind_run (policy_do _)) by done. erewrite (bind_run (modify _)) by done.
    erewrite (bind_run (on_frame_set _ _)).
    2:{ apply on_frame_set_eq. unfold heap. cbn. by rewrite lookup_insert, decide_True. }
    erewrite (bind_run (on_allocator _)); [reflexivity|].
    unfold on_allocator. cbn [allocator_ upd set_frames set_policy set_allocator].
    match goal with |- context [pool_free p ?a] => replace a with al end.
    + rewrite E3. cbn. rewrite insert_insert, decide_True by done. reflexivity.
    + unfold al, mp_set_heap, heap. cbn. by rewrite insert_insert, decide_True.
  - cbn. unfold al, mp_set_heap in Wf. cbn in Wf. by rewrite insert_insert, decide_True in Wf by done.
Qed.

Lemma free_state_wf m id p f s :
  fm_wf m → (id, p) ∈ frames_ m → heap m !! p = Some f → pin_count_ f = 1 → unlatched f →
  s current_pinned_frames = fm_stats m current_pinned_frames - 1 →
  s dirty_pages_current = fm_stats m dirty_pages_current - Z.b2z (dirty_ f) →
  pool_wf (allocator_ (free_state m id p (freed_frame f) s)) →
  fm_wf (free_state m id p (freed_frame f) s).
Proof.
  intros W Hin Hf Hp Hl Hs1 Hs2 Hpw. pose proof (fw_keys _ W) as Hk.
  assert (∀ id' q, (id', q) ∈ lru_remove id (frames_ m) ↔ q ≠ p ∧ (id', q) ∈ frames_ m) as Hrem.
  { intros id' q. rewrite elem_of_lru_remove by done. split.
    - intros [Hne Hq]. split; [|done]. intros ->. apply Hne. by eapply ptr_key_unique.
    - intros [Hne Hq]. split; [|done]. intros ->. apply Hne.
      apply lru_peek_elem in Hq; [|done]. apply lru_peek_elem in Hin; [|done]. congruence. }
  assert (p ∉ (lru_remove id (frames_ m)).*2) as Hp2.
  { intros ([id' q] & -> & Hq)%list_elem_of_fmap. by apply Hrem in Hq as [? _]. }
  split; cbn.
  - done.
  - apply W.
  - by apply lru_remove_wf.
  - eapply sublist_NoDup; [apply (fw_ptrs _ W)|]. apply fmap_sublist, lru_remove_sublist.
  - apply set_eq. intros q. rewrite (fw_used _ W), elem_of_difference, !elem_of_list_to_set, elem_of_singleton.
    rewrite !list_elem_of_fmap. split.
    + intros [([id' q'] & -> & Hq) Hne]. exists (id', q'). by rewrite Hrem.
    + intros ([id' q'] & -> & Hq). apply Hrem in Hq as [Hne Hq]. split; [|done]. by exists (id', q').
  - intros id' q [Hne Hq]%Hrem. unfold heap. cbn. rewrite lookup_insert_ne by done. by apply (fw_cached _ W).
  - intros q g Hq. unfold heap. cbn. apply elem_of_app in Hq as [Hq| ->%list_elem_of_singleton].
    + rewrite lookup_insert_ne; [by apply (fw_idle _ W)|]. intros <-.
      apply (pool_disj _ (fw_pool _ W) p Hq). rewrite (fw_used _ W). apply elem_of_list_to_set.
      exact (list_elem_of_fmap_2 snd _ _ Hin).
    + rewrite lookup_insert, decide_True by done. intros [= <-]. by split.
  - apply on_remove_ok, W.
  - rewrite tracked_remove, (fw_tracked _ W) by apply W. apply set_eq. intros id'.
    rewrite elem_of_difference, !elem_of_list_to_set, elem_of_singleton, elem_of_lru_remove_keys by done. tauto.
  - apply W.
  - rewrite Hs1. unfold heap. cbn. rewrite fcount_frame by done.
    rewrite (fcount_remove _ _ _ id p f) by done. rewrite (fw_pinned _ W). unfold pinned. rewrite Hp. cbn. unfold heap. lia.
  - rewrite Hs2. unfold heap. cbn. rewrite fcount_frame by done.
    rewrite (fcount_remove _ _ _ id p f) by done. rewrite (fw_dirty _ W). unfold heap. lia.
Qed.

(** [free_internal] of the last pin of an unlatched frame: no assertion fails,
    the page leaves cache, policy and pool together. *)
Lemma free_internal_ok m id p f :
  fm_wf m → (id, p) ∈ frames_ m → heap m !! p = Some f → pin_count_ f = 1 → unlatched f →
  ∃ s', let m' := free_state m id p (freed_frame f) s' in
    free_internal id p m = Some (RC.SUCCESS, m') ∧ fm_wf m'.
Proof.
  intros W Hin Hf Hp Hl. destruct (free_internal_run m id p f W Hin Hf Hp Hl) as (s' & E & H1 & H2 & Hpw).
  exists s'. cbv zeta. split; [done|]. by apply free_state_wf.
Qed.

(** ** [purge_frames]: choosing victims *)
Definition unpinned_count (m : BPFrameManager) : Z := fcount (λ f, negb (pinned f)) (heap m) (frames_ m).

(** From [m] to [m'] the frames [vs], all unpinned before, got their first pin
    and nothing else happened to cache or frames. *)
Record chosen (m : BPFrameManager) (vs : list Ptr) (m' : BPFrameManager) : Prop := {
  ch_frames : frames_ m' = frames_ m;
  ch_alloc : ∃ h, allocator_ m' = mp_set_heap h (allocator_ m);
  ch_capacity : capacity_ m' = capacity_ m;
  ch_nodup : NoDup vs;
  ch_victim : ∀ p, p ∈ vs → ∃ id f, (id, p) ∈ frames_ m ∧ heap m !! p = Some f ∧ pin_count_ f = 0 ∧
                heap m' !! p = Some (set_pin_count 1 f);
  ch_other : ∀ p, p ∉ vs → heap m' !! p = heap m !! p
}.

Lemma chosen_nil m m' :
  frames_ m' = frames_ m → allocator_ m' = allocator_ m → capacity_ m' = capacity_ m → chosen m [] m'.
Proof.
  intros H1 H2 H3. unfold heap. split; unfold heap; rewrite ?H2; try done.
  - exists (mp_heap (allocator_ m)). by destruct (allocator_ m).
  - constructor.
  - intros p Hp. by apply not_elem_of_nil in Hp.
Qed.

Lemma chosen_cons m id p f s m1 vs m' :
  m1 = upd m p (set_pin_count 1 f) s → (id, p) ∈ frames_ m → heap m !! p = Some f → pin_count_ f = 0 →
  chosen m1 vs m' → chosen m (p :: vs) m'.
Proof.
  intros -> Hin Hf Hp [H1 [h H2] H3 H4 H5 H6].
  assert (p ∉ vs) as Hn.
  { intros Hv. apply H5 in Hv as (id' & f' & _ & Hh & Hp' & _). rewrite heap_upd in Hh.
    injection Hh as <-. done. }
  split; try done.
  - exists h. by rewrite H2.
  - by constructor.
  - intros q [->|Hq]%elem_of_cons.
    + exists id, f. rewrite H6, heap_upd by done. done.
    + destruct (H5 q Hq) as (id' & f' & Hin' & Hh & Hp' & Hh'). exists id', f'.
      rewrite heap_upd_ne in Hh by (by intros ->). done.
  - intros q [Hq1 Hq2]%not_elem_of_cons. by rewrite H6, heap_upd_ne.
Qed.

Lemma upd_set_policy m q p f s : set_policy q (upd m p f s) = upd (set_policy q m) p f s.
Proof. done. Qed.

(** One round: a replaceable page is found, or none is unpinned. *)
Lemma choose_round m :
  fm_wf m →
  ∃ r q, on_policy (choose_victim (is_replaceable m)) m = Some (r, set_policy q m) ∧
    fm_wf (set_policy q m) ∧
    match r with
    | Some victim => ∃ p f, (victim, p) ∈ frames_ m ∧ heap m !! p = Some f ∧ pin_count_ f = 0
    | None => ∀ id p f, (id, p) ∈ frames_ m → heap m !! p = Some f → pin_count_ f ≠ 0
    end.
Proof.
  intros W.
  destruct (choose_victim_spec (is_replaceable m) (replacement_policy_ m) (fw_policy _ W))
    as (r & q & E & Hq & Ht & Hr).
  exists r, q. split_and!; [unfold on_policy; by rewrite E|by apply set_policy_wf|].
  rewrite (fw_tracked _ W) in Hr. destruct r as [victim|].
  - destruct Hr as [Hin%elem_of_list_to_set Hrep]. apply list_elem_of_fmap in Hin as ([id p] & -> & Hin). cbn in *.
    destruct (fw_cached _ W _ _ Hin) as (f & Hf & _). exists p, f. split_and!; [done|done|].
    unfold is_replaceable in Hrep. apply lru_peek_elem in Hin; [|apply W].
    rewrite Hin, Hf in Hrep. by apply Z.eqb_eq in Hrep.
  - intros id p f Hin Hf Hp. specialize (Hr id). rewrite elem_of_list_to_set in Hr.
    specialize (Hr (list_elem_of_fmap_2 fst _ _ Hin)).
    unfold is_replaceable in Hr. apply lru_peek_elem in Hin; [|apply W].
    rewrite Hin, Hf in Hr. unfold can_purge in Hr. by rewrite Hp in Hr.
Qed.

Lemma choose_loop_ok n count acc m :
  fm_wf m → unpinned_count m < Z.of_nat n →
  ∃ vs m', choose_loop n count acc m = Some (acc ++ vs, m') ∧ fm_wf m' ∧ chosen m vs m' ∧
    (vs = [] ∨ Z.of_nat (length (acc ++ vs)) ≤ count) ∧
    unpinned_count m' = unpinned_count m - Z.of_nat (length vs) ∧
    (Z.of_nat (length (acc ++ vs)) < count → unpinned_count m' = 0).
Proof.
  revert acc m. induction n as [|n IH]; intros acc m W Hn.
  { pose proof (fcount_bound (λ f, negb (pinned f)) (heap m) (frames_ m)). unfold unpinned_count in Hn. lia. }
  cbn [choose_loop]. case_bool_decide as Hc.
  2:{ exists [], m. rewrite app_nil_r. split_and!; [done|done|by apply chosen_nil|by left|cbn; lia|lia]. }
  erewrite (bind_run fetch) by done.
  destruct (choose_round m W) as (r & q & E & Wq & Hr). rewrite (exec E).
  destruct r as [victim|].
  2:{ exists [], (set_policy q m). rewrite app_nil_r.
      split_and!; [done|done|by apply chosen_nil|by left|cbn; unfold unpinned_count, heap; cbn; lia|].
      intros _. apply fcount_none. intros id p f Hin Hf. apply negb_false_iff, Z.ltb_lt.
      destruct (fw_cached _ W _ _ Hin) as (f0 & Hf0 & Hok). rewrite (Hf : heap m !! p = Some f) in Hf0.
      injection Hf0 as <-. pose proof (ck_pin _ _ Hok). pose proof (Hr id p f Hin Hf). lia. }
  destruct Hr as (p & f & Hin & Hf & Hp).
  assert (lru_peek victim (frames_ m) = Some p) as -> by (apply lru_peek_elem; [apply W|done]).
  rewrite (exec (frame_at_eq p f (set_policy q m) Hf)).
  unfold can_purge. rewrite Hp. cbn [Z.eqb negb].
  destruct (frame_pin_ok (set_policy q m) victim p f Wq Hin Hf) as (s' & Ep & Wp); [lia|].
  rewrite Hp in Ep, Wp. change (0 + 1) with 1 in *.
  rewrite (exec Ep), (exec (policy_pin_id _ _)).
  assert (unpinned_count (upd (set_policy q m) p (set_pin_count 1 f) s') = unpinned_count m - 1) as Hcnt.
  { unfold unpinned_count in *. cbn [frames_ upd set_policy].
    assert (p ∈ (frames_ m).*2) as Hp2 by exact (list_elem_of_fmap_2 snd _ _ Hin).
    assert (negb (pinned f) = true) as Ht by (unfold pinned; by rewrite Hp).
    change (heap (upd (set_policy q m) p (set_pin_count 1 f) s'))
      with (<[p := set_pin_count 1 f]> (heap m)).
    rewrite (fcount_write _ _ _ p _ f), Ht; [|apply W|done|done].
    change (negb (pinned (set_pin_count 1 f))) with false. cbn [Z.b2z]. lia. }
  destruct (IH (acc ++ [p]) _ Wp) as (vs & m' & E' & W' & Hch & Hlen & Hun & Hall); [lia|].
  exists (p :: vs), m'. rewrite <-app_assoc in E', Hlen, Hall. cbn [app] in *.
  split_and!; [done|done| | |cbn [length]; lia|exact Hall].
  - destruct (chosen_cons (set_policy q m) victim p f s' _ vs m' eq_refl Hin Hf Hp Hch). by split.
  - right. destruct Hlen as [->|?]; [|lia]. rewrite length_app. cbn. lia.
Qed.

(** ** [purge_frames]: evicting the victims

    The contract of the write-back callback: on a frame that only the caller
    pins, it neither fails an assertion nor touches anything but this frame's
    content and dirty flag, the counters and the rest of the system; [V] are the
    frames that were unpinned when the call began and [I] is what
    the client wants to keep, through the write-back and the eviction (after a
    success) or the release of the pin (after a failure). *)
Section purge_spec.
Context {E : Type} (V : Ptr → Prop) (I : BPFrameManager → E → Prop) (purger : Ptr → M (BPFrameManager * E) RC).

Record purger_ok : Prop := {
  purger_spec m e id p f :
    V p → fm_wf m → I m e → (id, p) ∈ frames_ m → heap m !! p = Some f → pin_count_ f = 1 → unlatched f →
    ∃ rc f' s' e', purger p (m, e) = Some (rc, (upd m p f' s', e')) ∧
      cached_ok id f' ∧ pin_count_ f' = 1 ∧ unlatched f' ∧ fm_wf (upd m p f' s') ∧
      (∀ s, if bool_decide (rc = RC.SUCCESS)
            then I (free_state (upd m p f' s') id p (freed_frame f') s) e'
            else I (upd m p (set_pin_count 0 f') s) e')
}.

Definition always_succeeds : Prop :=
  ∀ m e id p f rc st', V p → fm_wf m → I m e → (id, p) ∈ frames_ m → heap m !! p = Some f →
    pin_count_ f = 1 → unlatched f → purger p (m, e) = Some (rc, st') → rc = RC.SUCCESS.

Lemma with_fm_eq {A} (op : M BPFrameManager A) m (e : E) a m' :
  op m = Some (a, m') → with_fm op (m, e) = Some (a, (m', e)).
Proof. intros H. unfold with_fm. by rewrite H. Qed.

Lemma set_stats_wf m s :
  fm_wf m → s current_pinned_frames = fm_stats m current_pinned_frames →
  s dirty_pages_current = fm_stats m dirty_pages_current → fm_wf (set_fm_stats s m).
Proof. intros [] H1 H2. split; cbn; try done; [by rewrite H1|by rewrite H2]. Qed.

Lemma record_eviction_counters b s :
  record_eviction b s current_pinned_frames = s current_pinned_frames ∧
  record_eviction b s dirty_pages_current = s dirty_pages_current.
Proof. by split; stat_eval. Qed.

(** What happens to one victim. *)
Lemma purge_victim_ok m e id p f l k :
  purger_ok → V p → fm_wf m → I m e → (id, p) ∈ frames_ m → heap m !! p = Some f → pin_count_ f = 1 → unlatched f →
  ∃ (ok : bool) m1 e1,
    purge_loop purger (p :: l) k (m, e) = purge_loop purger l (if ok then k + 1 else k) (m1, e1) ∧
    fm_wf m1 ∧ I m1 e1 ∧ (always_succeeds → ok = true) ∧ capacity_ m1 = capacity_ m ∧
    frames_ m1 = (if ok then lru_remove id (frames_ m) else frames_ m) ∧
    (∀ q, q ≠ p → heap m1 !! q = heap m !! q) ∧
    (if ok then True else ∃ f1, heap m1 !! p = Some f1 ∧ pin_count_ f1 = 0).
Proof.
  intros Hpo HV W HI Hin Hf Hp Hl.
  destruct (purger_spec Hpo m e id p f HV W HI Hin Hf Hp Hl) as (rc & f' & s' & e' & Ep & Hok & Hp' & Hl' & W' & HI').
  cbn [purge_loop]. rewrite (exec (with_fm_eq _ _ _ _ _ (frame_at_eq _ _ _ Hf))).
  rewrite (exec Ep). exists (bool_decide (rc = RC.SUCCESS)).
  case_bool_decide as Hrc.
  - set (m2 := set_fm_stats (record_eviction (dirty_ f) s') (upd m p f' s')).
    assert (fm_wf m2) as W2.
    { apply set_stats_wf; [done|apply record_eviction_counters|apply record_eviction_counters]. }
    assert (heap m2 !! p = Some f') as Hm2 by exact (heap_upd m p f' s').
    destruct (free_internal_ok m2 id p f' W2 Hin Hm2 Hp' Hl') as (s2 & Ef & Wf).
    eexists _, e'. split.
    { erewrite bind_run by (by apply with_fm_eq).
      rewrite (exec (with_fm_eq _ _ _ _ _ (frame_at_eq _ _ _ Hm2))).
      rewrite (ck_id _ _ Hok). rewrite (exec (with_fm_eq _ _ _ _ _ Ef)). reflexivity. }
    split_and!; try done.
    + apply (HI' s2).
    + intros q Hq. unfold heap. cbn. rewrite !lookup_insert_ne by done. done.
  - destruct (frame_unpin_ok _ id p f' W' Hin (heap_upd _ _ _ _)) as (s2 & Eu & Wu); [lia|done|].
    rewrite Hp', upd_upd in Eu, Wu. change (1 - 1) with 0 in Eu, Wu.
    eexists _, e'. split.
    { rewrite (exec (with_fm_eq _ _ _ _ _ Eu)).
      rewrite (exec (with_fm_eq _ _ _ _ _ (frame_at_eq _ _ _ (heap_upd _ _ _ _)))).
      rewrite (exec (with_fm_eq _ _ _ _ _ (policy_unpin_id _ _))). reflexivity. }
    split_and!; try done.
    + intros Ha. destruct Hrc. exact (Ha m e id p f rc _ HV W HI Hin Hf Hp Hl Ep).
    + intros q Hq. by rewrite heap_upd_ne.
    + exists (set_pin_count 0 f'). by rewrite heap_upd.
Qed.

(** The victims as the second loop meets them. *)
Definition victim_ok (m : BPFrameManager) (p : Ptr) : Prop :=
  ∃ id f, (id, p) ∈ frames_ m ∧ heap m !! p = Some f ∧ pin_count_ f = 1 ∧ unlatched f.

Lemma length_lru_remove (id : FrameId) (p : Ptr) l :
  lru_wf l → (id, p) ∈ l → Z.of_nat (length (lru_remove id l)) = Z.of_nat (length l) - 1.
Proof.
  intros Hwf Hin. apply (lru_peek_elem id p) in Hin; [|done].
  apply lru_peek_split in Hin as (l1 & l2 & -> & Hl1). rewrite lru_remove_app by done.
  rewrite !length_app. cbn. lia.
Qed.

Lemma purge_loop_ok vs k m e :
  purger_ok → fm_wf m → I m e → NoDup vs → (∀ p, p ∈ vs → V p ∧ victim_ok m p) →
  ∃ d m' e', purge_loop purger vs k (m, e) = Some (k + d, (m', e')) ∧ fm_wf m' ∧ I m' e' ∧
    capacity_ m' = capacity_ m ∧ frames_ m' `sublist_of` frames_ m ∧
    Z.of_nat (length (frames_ m)) - Z.of_nat (length (frames_ m')) = d ∧
    0 ≤ d ≤ Z.of_nat (length vs) ∧ (always_succeeds → d = Z.of_nat (length vs)) ∧
    (∀ p, p ∉ vs → heap m' !! p = heap m !! p) ∧
    (∀ id p, (id, p) ∈ frames_ m → p ∉ vs → (id, p) ∈ frames_ m') ∧
    (∀ id p, (id, p) ∈ frames_ m' → p ∈ vs → ∃ f, heap m' !! p = Some f ∧ pin_count_ f = 0).
Proof.
  intros Hpo. revert k m e. induction vs as [|p vs IH]; intros k m e W HI Hnd Hv.
  { exists 0, m, e. cbn. rewrite Z.add_0_r. split_and!; try done; [lia..|].
    intros id p _ Hp. by apply not_elem_of_nil in Hp. }
  apply list.NoDup_cons in Hnd as [Hp Hnd].
  destruct (Hv p) as (HV & id & f & Hin & Hf & Hpin & Hl); [left|].
  destruct (purge_victim_ok m e id p f vs k Hpo HV W HI Hin Hf Hpin Hl)
    as (ok & m1 & e1 & E1 & W1 & HI1 & Hok & Hcap & Hfr & Hh & Hfail).
  assert (∀ id' q, (id', q) ∈ frames_ m1 → (id', q) ∈ frames_ m) as Hsub.
  { intros id' q. rewrite Hfr. destruct ok; [|done]. rewrite elem_of_lru_remove by apply W. tauto. }
  assert (∀ id' q, q ≠ p → (id', q) ∈ frames_ m → (id', q) ∈ frames_ m1) as Hkeep.
  { intros id' q Hne Hq. rewrite Hfr. destruct ok; [|done]. apply elem_of_lru_remove; [apply W|].
    split; [|done]. intros ->. apply Hne. apply lru_peek_elem in Hq; [|apply W].
    apply lru_peek_elem in Hin; [|apply W]. congruence. }
  destruct (IH (if ok then k + 1 else k) m1 e1 W1 HI1 Hnd)
    as (d & m' & e' & E2 & W' & HI' & Hcap' & Hs & Hd & Hdb & Ha & Hh' & Hk' & Hz).
  { intros q Hq. destruct (Hv q) as (HVq & id' & f' & Hin' & Hf' & Hpl); [by right|].
    assert (q ≠ p) by (by intros ->). split; [done|]. exists id', f'. rewrite Hh by done. eauto. }
  exists ((if ok then 1 else 0) + d), m', e'.
  assert (Z.of_nat (length (frames_ m1)) = Z.of_nat (length (frames_ m)) - (if ok then 1 else 0)) as Hlen.
  { rewrite Hfr. destruct ok; [|lia]. eapply length_lru_remove; [apply W|done]. }
  rewrite E1, E2. cbn [length]. split_and!; try done.
  - f_equal. f_equal. destruct ok; lia.
  - congruence.
  - etrans; [exact Hs|]. rewrite Hfr. destruct ok; [apply lru_remove_sublist|done].
  - lia.
  - destruct ok; lia.
  - destruct ok; lia.
  - intros Has. rewrite (Hok Has), (Ha Has). lia.
  - intros q [Hq1 Hq2]%not_elem_of_cons. by rewrite Hh', Hh.
  - intros id' q Hq [Hq1 Hq2]%not_elem_of_cons. apply Hk'; [by apply Hkeep|done].
  - intros id' q Hq [->|Hq2]%elem_of_cons; [|by eapply Hz].
    rewrite Hh' by done. destruct ok; [|done]. exfalso.
    pose proof (elem_of_sublist _ _ _ Hq Hs) as Hq1. rewrite Hfr in Hq1.
    apply elem_of_lru_remove in Hq1 as [Hne Hq1]; [|apply W]. apply Hne.
    exact (ptr_key_unique m id' id p W Hq1 Hin).
Qed.

End purge_spec.

(** The frames that may be evicted. *)
Definition evictable (m : BPFrameManager) (p : Ptr) : Prop := ∃ f, heap m !! p = Some f ∧ pin_count_ f = 0.

(** [purge_frames] as a whole. *)
Lemma purge_frames_ok {E : Type} (I : BPFrameManager → E → Prop) (purger : Ptr → M (BPFrameManager * E) RC) count m e :
  purger_ok (evictable m) I purger → fm_wf m → (∀ m', (∃ vs, chosen m vs m') → fm_wf m' → I m' e) →
  ∃ n m' e', purge_frames count purger (m, e) = Some (n, (m', e')) ∧ fm_wf m' ∧ I m' e' ∧
    capacity_ m' = capacity_ m ∧ frames_ m' `sublist_of` frames_ m ∧
    n = Z.of_nat (length (frames_ m)) - Z.of_nat (length (frames_ m')) ∧
    0 ≤ n ≤ Z.max 1 count ∧
    (∀ id p f, (id, p) ∈ frames_ m → heap m !! p = Some f → pin_count_ f ≠ 0 →
       (id, p) ∈ frames_ m' ∧ heap m' !! p = Some f) ∧
    (∀ id p, (id, p) ∈ frames_ m' → ∃ f f', heap m !! p = Some f ∧ heap m' !! p = Some f' ∧
       pin_count_ f' = pin_count_ f) ∧
    (always_succeeds (evictable m) I purger → n = Z.min (Z.max 1 count) (unpinned_count m)).
Proof.
  intros Hpo W HI. set (c := if count <=? 0 then 1 else count).
  assert (c = Z.max 1 count) as Hc by (unfold c; destruct (count <=? 0) eqn:Hc; lia).
  destruct (choose_loop_ok (S (length (frames_ m))) c [] m W)
    as (vs & m1 & E1 & W1 & Hch & Hlen & Hun & Hall).
  { pose proof (fcount_bound (λ f, negb (pinned f)) (heap m) (frames_ m)). unfold unpinned_count. lia. }
  cbn [app] in *. pose proof Hch as [Hfr _ _ Hnd Hvic Hoth].
  destruct (purge_loop_ok _ _ _ vs 0 m1 e Hpo W1) as (d & m' & e' & E2 & W' & HI' & Hcap & Hs & Hd & Hdb & Ha & Hh & Hk & Hz);
    [apply HI; [by exists vs|done]|done| |].
  { intros p Hp. destruct (Hvic p Hp) as (id & f & Hin & Hf & Hp0 & Hf1). split; [by exists f|]. exists id, (set_pin_count 1 f).
    rewrite Hfr. split_and!; [done|done|done|].
    destruct (fw_cached _ W _ _ Hin) as (f0 & Hf0 & Hok). rewrite Hf in Hf0. injection Hf0 as <-.
    by apply (ck_latch _ _ Hok). }
  exists d, m', e'. rewrite Hfr in *. split_and!; try done.
  - unfold purge_frames. fold c. erewrite (bind_run fetch) by done. cbv beta iota.
    by rewrite (exec (with_fm_eq _ _ _ _ _ E1)), E2.
  - rewrite Hcap. apply Hch.
  - lia.
  - destruct Hlen as [->|Hlen]; [cbn in Hdb|]; lia.
  - intros id p f Hin Hf Hp.
    assert (p ∉ vs) as Hv.
    { intros Hv. destruct (Hvic p Hv) as (id' & f' & _ & Hf' & Hp' & _). congruence. }
    split; [by apply Hk|]. by rewrite Hh, Hoth.
  - intros id p Hin. pose proof (elem_of_sublist _ _ _ Hin Hs) as Hin0.
    destruct (decide (p ∈ vs)) as [Hv|Hv].
    + destruct (Hvic p Hv) as (_ & f & _ & Hf & Hp & _). destruct (Hz id p Hin Hv) as (f' & Hf' & Hp').
      exists f, f'. split_and!; [done|done|congruence].
    + destruct (fw_cached _ W _ _ Hin0) as (f & Hf & _). exists f, f. by rewrite Hh, Hoth.
  - intros Has. specialize (Ha Has).
    pose proof (fcount_bound (λ f, negb (pinned f)) (heap m1) (frames_ m1)) as Hb.
    unfold unpinned_count in *. rewrite Hfr in *.
    destruct (decide (Z.of_nat (length vs) < c)) as [Hlt|Hge]; [specialize (Hall Hlt); lia|].
    destruct Hlen as [->|?]; cbn in *; lia.
Qed.
End frame_manager.
