(* ===== verification/FrameSafety.v ===== *)
(** * What the frame manager promises

    Histories of the frame manager and its clients as a step relation, the
    invariant in every reachable state, and the theorems about [alloc],
    [find_list], [purge_frames] and [snapshot]. *)

From S2P Require Import Prelude Types LruCache MemPool Stats Latch Frame Replacement FrameManager.
Local Open Scope Z_scope.

Section frame_safety.
Context {P : Type} `{!ReplacementPolicy P} `{!PolicyLaws P}.
Notation FM := (BPFrameManager (P:=P)).
Implicit Types m : FM.

(** ** [find_list] *)

(** Each of [ps] got one more pin, nothing else changed. *)
Record pinned_once m (ps : list Ptr) m' : Prop := {
  po_frames : frames_ m' = frames_ m;
  po_policy : replacement_policy_ m' = replacement_policy_ m;
  po_pins : ∀ p f, p ∈ ps → heap m !! p = Some f → heap m' !! p = Some (set_pin_count (pin_count_ f + 1) f);
  po_other : ∀ p, p ∉ ps → heap m' !! p = heap m !! p
}.

Definition of_pool (bp : Z) (l : list (FrameId * Ptr)) : list Ptr :=
  (filter (λ e, fid_buffer_pool_id e.1 = bp) l).*2.

Lemma find_list_loop_ok bp l acc m :
  fm_wf m → NoDup l.*2 → (∀ e, e ∈ l → e ∈ frames_ m) →
  (∀ p f, p ∈ of_pool bp l → heap m !! p = Some f → pin_count_ f < 2 ^ 31 - 1) →
  ∃ m', find_list_loop l bp acc m = Some (acc ++ of_pool bp l, m') ∧ fm_wf m' ∧ pinned_once m (of_pool bp l) m'.
Proof.
  revert acc m. induction l as [|[id p] l IH]; intros acc m W Hnd Hsub Hb; cbn [find_list_loop].
  { exists m. unfold of_pool. cbn. rewrite app_nil_r. split_and!; try done.
    split; try done. intros p f Hp. by apply not_elem_of_nil in Hp. }
  apply list.NoDup_cons in Hnd as [Hp Hnd].
  assert ((id, p) ∈ frames_ m) as Hin by (apply Hsub; left).
  unfold of_pool in *. rewrite filter_cons in *. cbn [fst] in *.
  destruct (bp =? fid_buffer_pool_id id) eqn:Eb.
  - apply Z.eqb_eq in Eb. rewrite decide_True in * by done. cbn [fmap list_fmap snd] in *.
    destruct (fw_cached _ W _ _ Hin) as (f & Hf & Hok).
    destruct (frame_pin_ok m id p f W Hin Hf) as (s' & Ep & W1); [by apply (Hb p); [left|]|].
    rewrite (exec Ep), (exec (policy_pin_id _ _)).
    assert (∀ q, q ∈ (filter (λ e, fid_buffer_pool_id e.1 = bp) l).*2 → q ≠ p) as Hne.
    { intros q Hq ->. apply list_elem_of_fmap in Hq as ([id' q'] & Eq & Hq). cbn in Eq. subst q'.
      apply list_elem_of_filter in Hq as [_ Hq]. apply Hp. exact (list_elem_of_fmap_2 snd _ _ Hq). }
    destruct (IH (acc ++ [p]) _ W1 Hnd) as (m' & E & W' & [H1 H2 H3 H4]).
    + intros e He. apply Hsub. by right.
    + intros q g Hq. rewrite heap_upd_ne by auto. apply Hb. by right.
    + exists m'. rewrite E, <-app_assoc. split_and!; [done|done|]. split; try done.
      * intros q g [->|Hq]%elem_of_cons Hg.
        -- rewrite H4; [|by intros ?%Hne]. rewrite heap_upd. congruence.
        -- apply H3; [done|]. rewrite heap_upd_ne; auto.
      * intros q [Hq1 Hq2]%not_elem_of_cons. by rewrite H4, heap_upd_ne.
  - apply Z.eqb_neq in Eb. assert (fid_buffer_pool_id id ≠ bp) as Hn by congruence.
    rewrite decide_False in Hb |- * by done.
    apply (IH acc m W Hnd); [|done]. intros e He. apply Hsub. by right.
Qed.

Lemma find_list_ok bp m :
  fm_wf m → (∀ p f, p ∈ of_pool bp (frames_ m) → heap m !! p = Some f → pin_count_ f < 2 ^ 31 - 1) →
  ∃ m', find_list bp m = Some (of_pool bp (frames_ m), m') ∧ fm_wf m' ∧
    pinned_once m (of_pool bp (frames_ m)) m'.
Proof.
  intros W Hb. unfold find_list. erewrite (bind_run fetch) by done.
  apply (find_list_loop_ok bp (frames_ m) [] m W); [apply W|done|done].
Qed.

(** ** Histories *)

(** The frame after a latch operation: only the latch and its debug records
    differ, and latches are held only while pinned. *)
Definition relatched (f f' : Frame) : Prop :=
  f' = set_latch (lock_ f') (write_locker_ f') (write_recursive_count_ f') (read_lockers_ f') f ∧
  0 < pin_count_ f.

Inductive fm_step : FM → FM → Prop :=
  | fs_get bp pn r m m' :
      (∀ p f, lru_peek (mkFrameId bp pn) (frames_ m) = Some p → heap m !! p = Some f →
        pin_count_ f < 2 ^ 31 - 1) →
      fm_get bp pn m = Some (r, m') → fm_step m m'
  | fs_alloc bp pn r m m' :
      (∀ p f, lru_peek (mkFrameId bp pn) (frames_ m) = Some p → heap m !! p = Some f →
        pin_count_ f < 2 ^ 31 - 1) →
      fm_alloc bp pn m = Some (r, m') → fm_step m m'
  | fs_free bp pn p rc m m' :
      fm_free bp pn p m = Some (rc, m') → fm_step m m'
  | fs_find_list bp ps m m' :
      (∀ p f, heap m !! p = Some f → pin_count_ f < 2 ^ 31 - 1) →
      find_list bp m = Some (ps, m') → fm_step m m'
  | fs_unpin id p n m m' :
      (id, p) ∈ frames_ m → frame_unpin p m = Some (n, m') → fm_step m m'
  | fs_mark_dirty id p m m' :
      (id, p) ∈ frames_ m → on_frame p mark_dirty m = Some (tt, m') → fm_step m m'
  | fs_clear_dirty id p m m' :
      (id, p) ∈ frames_ m → on_frame p clear_dirty m = Some (tt, m') → fm_step m m'
  | fs_write id p pg m m' :
      (id, p) ∈ frames_ m → on_frame_set p (set_page pg) m = Some (tt, m') → fm_step m m'
  | fs_latch id p f f' m :
      (id, p) ∈ frames_ m → heap m !! p = Some f → relatched f f' →
      fm_step m (upd m p f' (fm_stats m))
  | fs_purge (E : Type) (e e' : E) count purger n m m' :
      purger_ok (evictable m) (λ _ _, True) purger →
      purge_frames count purger (m, e) = Some (n, (m', e')) → fm_step m m'.

Lemma cached_frame id p m f :
  fm_wf m → (id, p) ∈ frames_ m → heap m !! p = Some f → cached_ok id f.
Proof. intros W (f0 & Hf0 & Hok)%(fw_cached _ W) Hf. by simplify_eq. Qed.

(** A frame method whose new frame and counters fit the invariant. *)
Lemma on_frame_wf id p op m m' :
  fm_wf m → (id, p) ∈ frames_ m → on_frame p op m = Some (tt, m') →
  (∀ f f' s', cached_ok id f → op f (fm_stats m) = (f', s') →
     (dirty_ f = true → 0 < fm_stats m dirty_pages_current) →
     cached_ok id f' ∧
     s' current_pinned_frames = fm_stats m current_pinned_frames + Z.b2z (pinned f') - Z.b2z (pinned f) ∧
     s' dirty_pages_current = fm_stats m dirty_pages_current + Z.b2z (dirty_ f') - Z.b2z (dirty_ f)) →
  fm_wf m'.
Proof.
  intros W Hin E Hop. destruct (fw_cached _ W _ _ Hin) as (f & Hf & Hok).
  destruct (op f (fm_stats m)) as [f' s'] eqn:Eop.
  erewrite on_frame_eq in E by done. injection E as <-.
  destruct (Hop f f' s') as (H1 & H2 & H3); [done|done| |by eapply upd_wf].
  intros Hd. rewrite (fw_dirty _ W). pose proof (fcount_elem dirty_ (heap m) _ _ _ _ Hin Hf Hd). lia.
Qed.

Lemma get_internal_wf id r m m' :
  fm_wf m →
  (∀ p f, lru_peek id (frames_ m) = Some p → heap m !! p = Some f → pin_count_ f < 2 ^ 31 - 1) →
  get_internal id m = Some (r, m') → fm_wf m'.
Proof.
  intros W Hb E. pose proof (get_internal_ok m id W) as Hg.
  destruct (lru_peek id (frames_ m)) as [p|]; [|by simplify_eq].
  destruct Hg as (f & Hf & _ & Hg). destruct Hg as (s' & E' & W'); [by apply (Hb p)|by simplify_eq].
Qed.

Lemma fm_alloc_wf bp pn r m m' :
  fm_wf m →
  (∀ p f, lru_peek (mkFrameId bp pn) (frames_ m) = Some p → heap m !! p = Some f →
     pin_count_ f < 2 ^ 31 - 1) →
  fm_alloc bp pn m = Some (r, m') → fm_wf m'.
Proof.
  intros W Hb E. destruct (lru_peek (mkFrameId bp pn) (frames_ m)) as [p|] eqn:Hp.
  - unfold fm_alloc in E. apply bind_Some in E as (r1 & m1 & E1 & E).
    assert (fm_wf m1) as W1 by (eapply get_internal_wf; [exact W| |exact E1]; rewrite Hp; exact Hb).
    pose proof (get_internal_ok m (mkFrameId bp pn) W) as Hg. rewrite Hp in Hg.
    destruct Hg as (f & Hf & _ & Hg). destruct Hg as (s' & E' & W'); [by apply (Hb p)|].
    rewrite E' in E1. simplify_eq. by injection E as <- <-.
  - pose proof (fm_alloc_ok m bp pn W Hp) as Ha. destruct (frees (allocator_ m)) as [|b rest]; [by simplify_eq|].
    destruct Ha as (x & s' & _ & E' & W'). by simplify_eq.
Qed.

(** The assertions of [unpin] and [free_internal], read off a run. *)
Lemma unpin_inv f s n f' s' :
  0 ≤ pin_count_ f < 2 ^ 31 → unpin f s = Some (n, (f', s')) →
  0 < pin_count_ f ∧ (pin_count_ f = 1 → unlatched f).
Proof.
  intros Hb. unfold unpin. destruct (0 <? pin_count_ f) eqn:Hp; [|done]. apply Z.ltb_lt in Hp.
  rewrite swrap_id by (unfold in_srange; lia). intros E. split; [done|]. intros H1. rewrite H1 in E. cbn in E.
  destruct (negb _) eqn:Hn; [done|]. apply negb_false_iff, andb_true_iff in Hn as [Hw Hr].
  apply bool_decide_eq_true in Hr. by split; [apply Z.eqb_eq|].
Qed.

Lemma frame_unpin_wf id p n m m' :
  fm_wf m → (id, p) ∈ frames_ m → frame_unpin p m = Some (n, m') → fm_wf m'.
Proof.
  intros W Hin E. destruct (fw_cached _ W _ _ Hin) as (f & Hf & Hok).
  destruct (unpin f (fm_stats m)) as [[n' [f' s']]|] eqn:Eu.
  - destruct (unpin_inv _ _ _ _ _ (ck_pin _ _ Hok) Eu) as [H1 H2].
    destruct (frame_unpin_ok m id p f W Hin Hf H1 H2) as (s1 & E1 & W1). by simplify_eq.
  - unfold frame_unpin in E. rewrite (exec (frame_at_eq _ _ _ Hf)) in E.
    unfold gets, deref, mbind, M_bind in E. by rewrite Eu in E.
Qed.

Lemma free_internal_inv id p rc m m' :
  fm_wf m → free_internal id p m = Some (rc, m') →
  (id, p) ∈ frames_ m ∧ ∃ f, heap m !! p = Some f ∧ pin_count_ f = 1 ∧ unlatched f.
Proof.
  intros W E. unfold free_internal in E. erewrite (bind_run fetch) in E by done.
  destruct (heap m !! p) as [f|] eqn:Hf;
    [|unfold frame_at, mbind, M_bind, fetch, deref, abort in E; by rewrite Hf in E].
  rewrite (exec (frame_at_eq _ _ _ Hf)) in E.
  destruct (bool_decide (lru_peek id (frames_ m) = Some p) && (pin_count_ f =? 1)) eqn:Ha; [|done].
  apply andb_true_iff in Ha as [Hpk%bool_decide_eq_true Hpin%Z.eqb_eq].
  erewrite (bind_run (assertb true)) in E by done.
  apply lru_peek_elem in Hpk; [|apply W]. split; [done|]. exists f. split_and!; [done|done|].
  pose proof (cached_frame _ _ _ _ W Hpk Hf) as Hok.
  destruct (clear_dirty f (fm_stats m)) as [f1 s1] eqn:Ec.
  assert (f1 = set_dirty false f) as ->.
  { unfold clear_dirty in Ec. destruct (dirty_ f) eqn:Hd; simplify_eq; [done|]. unfold set_dirty. rewrite <-Hd. by destruct f1. }
  rewrite (exec (on_frame_eq _ _ _ _ _ _ Hf Ec)) in E.
  rewrite (exec (on_frame_set_eq _ _ _ _ (heap_upd _ _ _ _))), upd_upd in E.
  apply bind_Some in E as (n & m2 & E & _). unfold frame_unpin in E.
  rewrite (exec (frame_at_eq _ _ _ (heap_upd _ _ _ _))) in E.
  erewrite (bind_run (gets _)) in E by done.
  destruct (unpin _ _) as [[n' [f' s']]|] eqn:Eu; [|done].
  destruct (unpin_inv _ _ _ _ _ (ck_pin _ _ Hok : 0 ≤ pin_count_ (set_page_num (-1) (set_dirty false f)) < 2 ^ 31) Eu)
    as [_ Hl]. by apply Hl.
Qed.

Lemma fm_step_wf m m' : fm_wf m → fm_step m m' → fm_wf m'.
Proof.
  intros W St. destruct St as [bp pn r m m' Hb E|bp pn r m m' Hb E|bp pn p rc m m' E|bp ps m m' Hb E
    |id p n m m' Hin E|id p m m' Hin E|id p m m' Hin E|id p pg m m' Hin E|id p f f' m Hin Hf Hr
    |T e e' count purger n m m' Hpo E].
  - by eapply get_internal_wf.
  - by eapply fm_alloc_wf.
  - destruct (free_internal_inv _ _ _ _ _ W E) as (Hin & f & Hf & Hp & Hl).
    destruct (free_internal_ok m _ p f W Hin Hf Hp Hl) as (s' & E' & W').
    unfold fm_free in E. by simplify_eq.
  - destruct (find_list_ok bp m W) as (m1 & E1 & W1 & _); [intros p f _; apply Hb|]. by simplify_eq.
  - by eapply frame_unpin_wf.
  - eapply on_frame_wf; [done|done|done|]. intros f f' s' Hok Eop _. pose proof (fm_counters _ W).
    destruct (mark_dirty_effect f (fm_stats m) (ck_stats _ _ Hok)) as (s1 & E1 & H1 & H2); [lia|].
    rewrite E1 in Eop. injection Eop as <- <-. split_and!; [destruct Hok; by split|cbn; unfold pinned; cbn; lia|cbn; lia].
  - eapply on_frame_wf; [done|done|done|]. intros f f' s' Hok Eop Hd.
    destruct (clear_dirty_effect f (fm_stats m) (ck_stats _ _ Hok) Hd) as (s1 & E1 & H1 & H2).
    rewrite E1 in Eop. injection Eop as <- <-. split_and!; [destruct Hok; by split|cbn; unfold pinned; cbn; lia|cbn; lia].
  - eapply on_frame_wf; [done|done|done|]. intros f f' s' Hok [= <- <-] _.
    split_and!; [destruct Hok; by split|unfold pinned; cbn; lia|cbn; lia].
  - pose proof (cached_frame _ _ _ _ W Hin Hf) as Hok. destruct Hr as [-> Hp].
    apply (upd_wf m id p f); [done|done|done| |unfold pinned; cbn; lia|cbn; lia].
    destruct Hok. split; cbn; try done. lia.
  - destruct (purge_frames_ok (λ _ _, True) purger count m e Hpo W) as (n1 & m1 & e1 & E1 & W1 & _); [done|].
    by simplify_eq.
Qed.

Lemma fm_reach_wf m0 m : fm_wf m0 → rtc fm_step m0 m → fm_wf m.
Proof.
  intros W0 Hr. revert m Hr. apply (rtc_ind_r fm_wf m0); [done|].
  intros m1 m2 _ St W. by eapply fm_step_wf.
Qed.

Lemma fm_init_ok pool_num item_num policy :
  0 < pool_num → 0 < item_num → pool_num * item_num < 2 ^ 31 → policy_ok policy → tracked policy = ∅ →
  ∃ m, fm_init pool_num item_num (new_frame_manager policy) = Some (RC.SUCCESS, m) ∧ fm_wf m ∧
    capacity_ m = pool_num * item_num ∧ frames_ m = [].
Proof.
  intros Hp Hi Hm Hok Ht. destruct (pool_init_new (T:=Frame) false pool_num item_num Hp Hi Hm)
    as (a & E & Wa & Hu & Hf & Hd & Hn).
  unfold fm_init. rewrite (bind_run (on_allocator _) _ _ 0 (set_allocator a (new_frame_manager policy)))
    by (unfold on_allocator; cbn; by rewrite E). cbn.
  eexists. split; [reflexivity|]. cbn. split_and!; [|done|done].
  pose proof (pool_count _ Wa) as Hc. rewrite Hu, size_empty in Hc.
  split; cbn; try done.
  - apply NoDup_nil_2.
  - apply NoDup_nil_2.
  - intros id p Hin. by apply not_elem_of_nil in Hin.
  - intros p f _ Hl%Hn. subst f. by split.
  - lia.
Qed.

Lemma snapshot_loop_ok m bp l r :
  (∀ id p, (id, p) ∈ l → is_Some (heap m !! p)) → bp < 0 →
  ∃ r', snapshot_loop m bp l r = Some r' ∧
    sn_capacity r' = sn_capacity r ∧ sn_free_frames r' = sn_free_frames r ∧
    sn_used_frames r' = sn_used_frames r + Z.of_nat (length l) ∧
    sn_pinned_frames r' = sn_pinned_frames r + fcount pinned (heap m) l ∧
    sn_dirty_frames r' = sn_dirty_frames r + fcount dirty_ (heap m) l.
Proof.
  revert r. induction l as [|[id p] l IH]; intros r Hl Hb.
  { exists r. cbn. split_and!; (done || lia). }
  cbn [snapshot_loop]. rewrite (proj2 (Z.leb_gt _ _)) by lia. cbn [andb].
  destruct (Hl id p) as [f Hf]; [left|]. rewrite Hf. cbn.
  destruct (IH (mkBufferPoolSnapshot (sn_capacity r) (sn_used_frames r + 1) (sn_free_frames r)
             (sn_pinned_frames r + (if 0 <? pin_count_ f then 1 else 0))
             (sn_dirty_frames r + (if dirty_ f then 1 else 0)) (sn_replacement_policy r)
             (sn_io_backend r) (sn_file_name r) (sn_buffer_pool_id r) (sn_stats r)
             (sn_frames r ++ [mkFrameSnapshot (FrameId_to_string id) (fid_buffer_pool_id id) (fid_page_num id)
                      (pin_count_ f) (dirty_ f) (can_purge f) (acc_time_ f)
                      (metadata id (replacement_policy_ m))])))
    as (r' & E & H1 & H2 & H3 & H4 & H5); [intros id' q Hq; apply (Hl id'); by right|done|].
  exists r'. split; [exact E|]. cbn [fcount length sn_capacity sn_free_frames sn_used_frames
    sn_pinned_frames sn_dirty_frames] in *. rewrite Hf. unfold pinned at 1.
  split_and!; [done|done|lia|destruct (0 <? pin_count_ f); cbn; lia|destruct (dirty_ f); cbn; lia].
Qed.

(** C34: in every state that the frame manager reaches from [init] by [get],
    [alloc], [free], [find_list], [purge_frames] and the clients' pins, latches,
    page writes and dirty marks, for every replacement policy: each cached page
    has its own live frame that carries its identifier, idle frames are clean
    and unpinned, cached plus idle frames make the capacity, the policy tracks
    exactly the cached pages, and the diagnostic snapshot (whose counters are
    updated one event at a time) shows the true numbers of pinned and of dirty
    frames. *)
Theorem frame_manager_invariant pool_num item_num policy m0 m :
  0 < pool_num → 0 < item_num → pool_num * item_num < 2 ^ 31 → policy_ok policy → tracked policy = ∅ →
  fm_init pool_num item_num (new_frame_manager policy) = Some (RC.SUCCESS, m0) → rtc fm_step m0 m →
  (∀ id p, (id, p) ∈ frames_ m → ∃ f, heap m !! p = Some f ∧ frame_id_ f = id) ∧
  NoDup (frames_ m).*1 ∧ NoDup (frames_ m).*2 ∧
  (∀ p f, p ∈ frees (allocator_ m) → heap m !! p = Some f → pin_count_ f = 0 ∧ dirty_ f = false) ∧
  Z.of_nat (length (frames_ m)) + Z.of_nat (length (frees (allocator_ m))) = capacity_ m ∧
  tracked (replacement_policy_ m) = list_to_set (frames_ m).*1 ∧
  ∃ sn, fm_snapshot m (-1) = Some sn ∧ sn_used_frames sn + sn_free_frames sn = capacity_ m ∧
    sn_stats sn current_pinned_frames = sn_pinned_frames sn ∧
    sn_stats sn dirty_pages_current = sn_dirty_frames sn.
Proof.
  intros Hp Hi Hm Hok Ht E Hr.
  assert (fm_wf m) as W.
  { apply (fm_reach_wf m0); [|done].
    destruct (fm_init_ok _ _ _ Hp Hi Hm Hok Ht) as (m1 & E1 & W1 & _). by simplify_eq. }
  pose proof (pool_count _ (fw_pool _ W)) as Hc. rewrite (fw_used _ W), size_list_to_set, length_fmap in Hc by apply W.
  pose proof (fw_capacity _ W) as Hcap.
  split_and!; [|apply W|apply W| |lia|apply W|].
  - intros id p (f & Hf & Hk)%(fw_cached _ W). exists f. by rewrite (ck_id _ _ Hk).
  - intros p f Hin Hf. by destruct (fw_idle _ W p f Hin Hf).
  - unfold fm_snapshot.
    match goal with |- context [snapshot_loop m (-1) _ ?r0] =>
      destruct (snapshot_loop_ok m (-1) (frames_ m) r0) as (r & Er & H1 & H2 & H3 & H4 & H5) end.
    { intros id p (f & Hf & _)%(fw_cached _ W). eauto. }
    { lia. }
    rewrite Er. cbn in *. eexists. split; [reflexivity|]. cbn. unfold stats_snapshot.
    rewrite (fw_pinned _ W), (fw_dirty _ W). split_and!; [|lia|lia].
    rewrite H2, H3. destruct (Z.of_nat (length (frames_ m)) <? capacity_ m) eqn:El; lia.
Qed.

(** [alloc] on every branch.  No assertion fails; a hit pins the cached frame
    once more and leaves its page alone; a miss takes an idle frame, pins it once
    and enters it into cache and policy, with every other frame untouched; and
    the answer is null, with nothing changed, exactly if all [capacity_] frames
    are in use by other pages. *)
Theorem frame_alloc_correct bp pn m :
  let id := mkFrameId bp pn in
  fm_wf m →
  (∀ p f, lru_peek id (frames_ m) = Some p → heap m !! p = Some f → pin_count_ f < 2 ^ 31 - 1) →
  ∃ r m', fm_alloc bp pn m = Some (r, m') ∧ fm_wf m' ∧
    match r with
    | None => m' = m ∧ lru_peek id (frames_ m) = None ∧ Z.of_nat (length (frames_ m)) = capacity_ m
    | Some p => lru_peek id (frames_ m') = Some p ∧ id ∈ tracked (replacement_policy_ m') ∧
        (∀ q, q ≠ p → heap m' !! q = heap m !! q) ∧
        ∃ f f', heap m !! p = Some f ∧ heap m' !! p = Some f' ∧ frame_id_ f' = id ∧
          page_ f' = page_ f ∧ dirty_ f' = dirty_ f ∧ pin_count_ f' = pin_count_ f + 1 ∧
          (lru_peek id (frames_ m) = None → p ∈ frees (allocator_ m) ∧ pin_count_ f' = 1 ∧ dirty_ f' = false)
    end.
Proof.
  intros id W Hb. destruct (lru_peek id (frames_ m)) as [p|] eqn:Hpk.
  - pose proof (get_internal_ok m id W) as Hg. rewrite Hpk in Hg. destruct Hg as (f & Hf & Hok & Hg).
    destruct Hg as (s' & E & W'); [by apply (Hb p)|]. eexists (Some p), _. split.
    { unfold fm_alloc. fold id. by rewrite (exec E). }
    split; [exact W'|]. split_and!; [done| | |].
    + rewrite (fw_tracked _ W'). apply elem_of_list_to_set. apply lru_peek_elem in Hpk; [|apply W].
      exact (list_elem_of_fmap_2 fst _ _ Hpk).
    + intros q Hq. exact (heap_upd_ne m p q _ s' Hq).
    + exists f, (set_pin_count (pin_count_ f + 1) f). split_and!; try done; [exact (heap_upd m p _ s')|apply Hok].
  - pose proof (fm_alloc_ok m bp pn W Hpk) as Ha.
    destruct (frees (allocator_ m)) as [|b rest] eqn:Hf.
    + exists None, m. split_and!; try done. pose proof (pool_count _ (fw_pool _ W)) as Hc.
      rewrite (fw_used _ W), size_list_to_set, length_fmap, Hf in Hc by apply W. cbn in Hc.
      rewrite (fw_capacity _ W). lia.
    + destruct Ha as (x & s' & Hx & E & W'). eexists (Some b), _. split; [exact E|]. split; [exact W'|].
      destruct (fw_idle _ W b x) as [Hp Hd _ _]; [rewrite Hf; left|done|]. split_and!.
      * cbn. by rewrite decide_True.
      * rewrite (fw_tracked _ W'). cbn. set_solver.
      * intros q Hq. unfold heap. cbn. by rewrite lookup_insert_ne.
      * exists x, (fresh_frame id x). split_and!; try done.
        -- unfold heap. cbn. by rewrite lookup_insert, decide_True.
        -- cbn. lia.
        -- intros _. split_and!; [left|done|done].
Qed.

(** C33: eviction.  For every replacement policy and every write-back callback
    that keeps its contract, [purge_frames] ends without a failed assertion and
    keeps the invariant of the manager and of its client; it evicts at most
    [max 1 count] frames, never one that is pinned (those keep content and pin
    count), releases the pin of every victim it could not evict, and if
    write-backs succeed it evicts as many as asked for or all that are
    unpinned. *)
Theorem purge_frames_safe {E : Type} (I : FM → E → Prop) (purger : Ptr → M (FM * E) RC) count m e :
  purger_ok (evictable m) I purger → fm_wf m → (∀ m', (∃ vs, chosen m vs m') → fm_wf m' → I m' e) →
  ∃ n m' e', purge_frames count purger (m, e) = Some (n, (m', e')) ∧ fm_wf m' ∧ I m' e' ∧
    capacity_ m' = capacity_ m ∧ frames_ m' `sublist_of` frames_ m ∧
    n = Z.of_nat (length (frames_ m)) - Z.of_nat (length (frames_ m')) ∧
    0 ≤ n ≤ Z.max 1 count ∧
    (∀ id p f, (id, p) ∈ frames_ m → heap m !! p = Some f → pin_count_ f ≠ 0 →
       (id, p) ∈ frames_ m' ∧ heap m' !! p = Some f) ∧
    (∀ id p, (id, p) ∈ frames_ m' → ∃ f f', heap m !! p = Some f ∧ heap m' !! p = Some f' ∧
       pin_count_ f' = pin_count_ f) ∧
    (always_succeeds (evictable m) I purger → n = Z.min (Z.max 1 count) (unpinned_count m)).
Proof. intros Hpo W HI. by apply purge_frames_ok. Qed.

(** A callback that only clears the dirty flag keeps the contract. *)
Definition clean_purger (p : Ptr) : M (FM * unit) RC :=
  with_fm (on_frame p clear_dirty);; mret RC.SUCCESS.

Lemma clean_purger_ok V : purger_ok V (λ _ _, True) clean_purger.
Proof.
  split. intros m e id p f _ W _ Hin Hf Hp Hl. pose proof (cached_frame _ _ _ _ W Hin Hf) as Hok.
  assert (dirty_ f = true → 0 < fm_stats m dirty_pages_current) as Hd.
  { intros Hd. rewrite (fw_dirty _ W). pose proof (fcount_elem dirty_ (heap m) _ _ _ _ Hin Hf Hd). lia. }
  destruct (clear_dirty_effect f (fm_stats m) (ck_stats _ _ Hok) Hd) as (s1 & E1 & H1 & H2).
  exists RC.SUCCESS, (set_dirty false f), s1, e. split_and!; try done.
  - unfold clean_purger. by rewrite (exec (with_fm_eq _ _ _ _ _ (on_frame_eq _ _ _ _ _ _ Hf E1))).
  - destruct Hok. by split.
  - apply (upd_wf m id p f); try done; [destruct Hok; by split|unfold pinned; cbn; lia|cbn; lia].
Qed.
End frame_safety.

(** ** Concrete runs *)
Notation LFM := (BPFrameManager (P:=Ordered)).

(** The state after a run, and whether it aborts. *)
Definition state_after {A} (op : M LFM A) (m : LFM) : LFM :=
  match op m with Some (_, m') => m' | None => m end.
Definition runs {A} (op : M LFM A) (m : LFM) : bool :=
  match op m with Some _ => true | None => false end.

Lemma runs_after {A} (op : M LFM A) m : runs op m = true → ∃ a, op m = Some (a, state_after op m).
Proof. unfold runs, state_after. destruct (op m) as [[a m']|]; [eauto|done]. Qed.

(** Two frames under LRU; pages 5 and 6 of file 1 are brought in, page 5 is
    changed and released. *)
Definition demo_init : LFM := state_after (fm_init 1 2) (new_frame_manager LRUReplacementPolicy).
Definition demo_one : LFM := state_after (fm_alloc 1 5) demo_init.
Definition demo_two : LFM := state_after (fm_alloc 1 6) demo_one.
Definition demo_dirty : LFM := state_after (on_frame 0 mark_dirty) demo_two.
Definition demo_state : LFM := state_after (frame_unpin 0) demo_dirty.

Lemma demo_init_run :
  fm_init 1 2 (new_frame_manager LRUReplacementPolicy) = Some (RC.SUCCESS, demo_init).
Proof. reflexivity. Qed.

Lemma demo_reach : rtc fm_step demo_init demo_state.
Proof.
  destruct (runs_after (fm_alloc 1 5) demo_init) as [r1 E1]; [vm_compute; reflexivity|].
  destruct (runs_after (fm_alloc 1 6) demo_one) as [r2 E2]; [vm_compute; reflexivity|].
  destruct (runs_after (on_frame 0 mark_dirty) demo_two) as [[] E3]; [vm_compute; reflexivity|].
  destruct (runs_after (frame_unpin 0) demo_dirty) as [r4 E4]; [vm_compute; reflexivity|].
  assert ((mkFrameId 1 5, 0) ∈ [(mkFrameId 1 6, 1); (mkFrameId 1 5, 0)]) as Hin by (right; left).
  eapply rtc_l; [eapply fs_alloc; [|exact E1]; intros p f Hp; vm_compute in Hp; discriminate|].
  eapply rtc_l; [eapply fs_alloc; [|exact E2]; intros p f Hp; vm_compute in Hp; discriminate|].
  eapply rtc_l; [eapply (fs_mark_dirty (mkFrameId 1 5) 0); [|exact E3]; exact Hin|].
  eapply rtc_l; [eapply (fs_unpin (mkFrameId 1 5) 0); [|exact E4]; exact Hin|].
  apply rtc_refl.
Qed.

Lemma demo_policy_ok : policy_ok LRUReplacementPolicy ∧ tracked LRUReplacementPolicy = ∅.
Proof. exact (create_replacement_policy_ok LRU). Qed.

Lemma demo_wf : fm_wf demo_state.
Proof.
  destruct demo_policy_ok as [Hok Ht].
  destruct (fm_init_ok 1 2 LRUReplacementPolicy) as (m & E & W & _); try done.
  rewrite demo_init_run in E. injection E as <-. exact (fm_reach_wf _ _ W demo_reach).
Qed.

Lemma frame_manager_invariant_witness :
  fm_init 1 2 (new_frame_manager LRUReplacementPolicy) = Some (RC.SUCCESS, demo_init) ∧
  Z.of_nat (length (frames_ demo_state)) + Z.of_nat (length (frees (allocator_ demo_state))) = capacity_ demo_state.
Proof.
  split; [apply demo_init_run|]. destruct demo_policy_ok as [Hok Ht].
  destruct (frame_manager_invariant 1 2 LRUReplacementPolicy demo_init demo_state) as (_ & _ & _ & _ & H & _);
    [reflexivity|reflexivity|reflexivity|exact Hok|exact Ht|exact demo_init_run|exact demo_reach|exact H].
Defined.

Lemma frame_alloc_correct_witness :
  fm_wf demo_state ∧ ∃ r m', fm_alloc 1 7 demo_state = Some (r, m') ∧ fm_wf m'.
Proof.
  split; [apply demo_wf|].
  destruct (frame_alloc_correct 1 7 demo_state demo_wf) as (r & m' & H1 & H2 & _).
  - intros p f Hp. vm_compute in Hp. discriminate.
  - exists r, m'. split; [exact H1|exact H2].
Defined.

Lemma purge_frames_safe_witness :
  fm_wf demo_state ∧ purger_ok (evictable demo_state) (λ _ _, True) (clean_purger (P:=Ordered)) ∧
  ∃ n m' e', purge_frames 1 clean_purger (demo_state, tt) = Some (n, (m', e')) ∧ fm_wf m' ∧
    (always_succeeds (evictable demo_state) (λ _ _, True) (clean_purger (P:=Ordered)) → n = Z.min (Z.max 1 1) (unpinned_count demo_state)).
Proof.
  split; [apply demo_wf|]. split; [apply clean_purger_ok|].
  destruct (purge_frames_safe (λ _ _, True) clean_purger 1 demo_state tt (clean_purger_ok _) demo_wf)
    as (n & m' & e' & H1 & H2 & _ & _ & _ & _ & _ & _ & _ & H3); [intros; exact Logic.I|].
  exists n, m', e'. split; [exact H1|]. split; [exact H2|exact H3].
Defined.
