(* ===== verification/BufferPool.v ===== *)
(** * The state of the buffer pool

    The objects that the classes of [storage/os/buffer] share, and the methods
    that the double write buffer and the paged files both use: the log interface
    and [BufferPoolLogHandler], the file header overlaid on page 0, the directory
    of open files in [BufferPoolManager] and [DiskBufferPool::write_page]. *)

From S2P Require Import Prelude Types Bytes Os PageIO Bitmap MemPool Stats Latch Frame Replacement FrameManager.
Local Open Scope Z_scope.

(** ** The log: [class LogHandler]

    [_append] and [wait_lsn] as the buffer pool calls them. *)
Class LogHandler (L : Type) := {
  log_append : Z → list Z → M L (RC * LSN);
  wait_lsn : LSN → M L RC
}.

(** [VacuousLogHandler]: nothing is kept. *)
#[global] Instance VacuousLogHandler : LogHandler unit := {|
  log_append _ _ := mret (RC.SUCCESS, 0);
  wait_lsn _ := mret RC.SUCCESS
|}.

(** [LogModule::Id::BUFFER_POOL]. *)
Definition BUFFER_POOL : Z := 0.

(** [BufferPoolOperation::Type] and [BufferPoolLogEntry]. *)
Inductive BufferPoolOperation : Type := ALLOCATE | DEALLOCATE.

Definition type_id (t : BufferPoolOperation) : Z := match t with ALLOCATE => 0 | DEALLOCATE => 1 end.
Definition operation_of (z : Z) : option BufferPoolOperation :=
  if z =? 0 then Some ALLOCATE else if z =? 1 then Some DEALLOCATE else None.

Record BufferPoolLogEntry : Type := mkBufferPoolLogEntry {
  le_buffer_pool_id : Z;
  le_operation_type : Z;
  le_page_num : PageNum
}.

(** The entry as the bytes of the struct, and back. *)
Definition log_entry_bytes (e : BufferPoolLogEntry) : list Z :=
  le_bytes 4 (le_buffer_pool_id e) ++ le_bytes 4 (le_operation_type e) ++ le_bytes 4 (le_page_num e).

Definition bytes_log_entry (l : list Z) : option BufferPoolLogEntry :=
  b ← get_i32 l 0; o ← get_i32 l 4; n ← get_i32 l 8; Some (mkBufferPoolLogEntry b o n).

(** ** The double write buffer's data *)
Record DoubleWritePageKey : Type := mkDwKey {
  dk_buffer_pool_id : Z;
  dk_page_num : PageNum
}.

#[global] Instance DoubleWritePageKey_eq_dec : EqDecision DoubleWritePageKey.
Proof. solve_decision. Defined.
#[global] Instance DoubleWritePageKey_countable : Countable DoubleWritePageKey.
Proof.
  apply (inj_countable' (λ k, (dk_buffer_pool_id k, dk_page_num k)) (λ p, mkDwKey p.1 p.2)). by intros [].
Defined.

Record DoubleWritePage : Type := mkDwPage {
  dw_key : DoubleWritePageKey;
  page_index : Z;
  valid : bool;
  dw_page : Page
}.

Definition set_valid (b : bool) (d : DoubleWritePage) : DoubleWritePage :=
  mkDwPage (dw_key d) (page_index d) b (dw_page d).
Definition set_dw_page (p : Page) (d : DoubleWritePage) : DoubleWritePage :=
  mkDwPage (dw_key d) (page_index d) (valid d) p.

(** [dblwr_pages_] maps keys to objects; [None] is a pointer whose object has
    been deleted. *)
Record DiskDoubleWriteBuffer : Type := mkDblwr {
  dw_file_desc : Z;
  max_pages_ : Z;
  header_page_cnt : Z;
  dblwr_pages_ : gmap DoubleWritePageKey (option DoubleWritePage)
}.

Inductive DoubleWriteBuffer : Type :=
  | DiskDblwr (d : DiskDoubleWriteBuffer)
  | VacuousDblwr.

(** The order in which an [unordered_map] is traversed. *)
Class HashOrder := {
  hash_order : gset DoubleWritePageKey → list DoubleWritePageKey;
  hash_order_perm X : hash_order X ≡ₚ elements X
}.

#[global] Instance elements_order : HashOrder := {| hash_order := elements; hash_order_perm X := Permutation_refl _ |}.

(** ** Paged files *)

(** [file_header_] points into the data of the frame [hdr_frame_]. *)
Record DiskBufferPool : Type := mkDiskBufferPool {
  io_backend_ : PageIOBackendType;
  bp_stats : BufferPoolStats;
  file_desc_ : Z;
  buffer_pool_id_ : Z;
  hdr_frame_ : option Ptr;
  file_header_ : option Ptr;
  disposed_pages_ : gset PageNum;
  file_name_ : string
}.

Definition set_bp_stats (s : BufferPoolStats) (b : DiskBufferPool) : DiskBufferPool :=
  mkDiskBufferPool (io_backend_ b) s (file_desc_ b) (buffer_pool_id_ b) (hdr_frame_ b) (file_header_ b)
    (disposed_pages_ b) (file_name_ b).
Definition set_file_desc (fd : Z) (b : DiskBufferPool) : DiskBufferPool :=
  mkDiskBufferPool (io_backend_ b) (bp_stats b) fd (buffer_pool_id_ b) (hdr_frame_ b) (file_header_ b)
    (disposed_pages_ b) (file_name_ b).
Definition set_bp_id (i : Z) (b : DiskBufferPool) : DiskBufferPool :=
  mkDiskBufferPool (io_backend_ b) (bp_stats b) (file_desc_ b) i (hdr_frame_ b) (file_header_ b)
    (disposed_pages_ b) (file_name_ b).
Definition set_hdr_frame (p : option Ptr) (b : DiskBufferPool) : DiskBufferPool :=
  mkDiskBufferPool (io_backend_ b) (bp_stats b) (file_desc_ b) (buffer_pool_id_ b) p (file_header_ b)
    (disposed_pages_ b) (file_name_ b).
Definition set_file_header (p : option Ptr) (b : DiskBufferPool) : DiskBufferPool :=
  mkDiskBufferPool (io_backend_ b) (bp_stats b) (file_desc_ b) (buffer_pool_id_ b) (hdr_frame_ b) p
    (disposed_pages_ b) (file_name_ b).
Definition set_disposed (s : gset PageNum) (b : DiskBufferPool) : DiskBufferPool :=
  mkDiskBufferPool (io_backend_ b) (bp_stats b) (file_desc_ b) (buffer_pool_id_ b) (hdr_frame_ b) (file_header_ b)
    s (file_name_ b).
Definition set_file_name (n : string) (b : DiskBufferPool) : DiskBufferPool :=
  mkDiskBufferPool (io_backend_ b) (bp_stats b) (file_desc_ b) (buffer_pool_id_ b) (hdr_frame_ b) (file_header_ b)
    (disposed_pages_ b) n.

Definition new_disk_buffer_pool (t : PageIOBackendType) : DiskBufferPool :=
  mkDiskBufferPool (create_page_io_backend t) zero_stats (-1) (-1) None None ∅ "".

Section state.
Context {L : Type}.

(** Everything but the frame manager: the operating system, the log, the file
    objects by address, and the other members of [BufferPoolManager]. *)
Record World : Type := mkWorld {
  w_os : OS;
  w_log : L;
  w_pools : gmap Ptr DiskBufferPool;
  w_next : Ptr;
  buffer_pools_ : gmap string Ptr;
  id_to_buffer_pools_ : gmap Z Ptr;
  next_buffer_pool_id_ : Z;
  io_backend_type_ : PageIOBackendType;
  dblwr_buffer_ : DoubleWriteBuffer
}.

Definition set_os (s : OS) (w : World) : World :=
  mkWorld s (w_log w) (w_pools w) (w_next w) (buffer_pools_ w) (id_to_buffer_pools_ w)
    (next_buffer_pool_id_ w) (io_backend_type_ w) (dblwr_buffer_ w).
Definition set_log (l : L) (w : World) : World :=
  mkWorld (w_os w) l (w_pools w) (w_next w) (buffer_pools_ w) (id_to_buffer_pools_ w)
    (next_buffer_pool_id_ w) (io_backend_type_ w) (dblwr_buffer_ w).
Definition set_pools (m : gmap Ptr DiskBufferPool) (w : World) : World :=
  mkWorld (w_os w) (w_log w) m (w_next w) (buffer_pools_ w) (id_to_buffer_pools_ w)
    (next_buffer_pool_id_ w) (io_backend_type_ w) (dblwr_buffer_ w).
Definition set_next (n : Ptr) (w : World) : World :=
  mkWorld (w_os w) (w_log w) (w_pools w) n (buffer_pools_ w) (id_to_buffer_pools_ w)
    (next_buffer_pool_id_ w) (io_backend_type_ w) (dblwr_buffer_ w).
Definition set_names (m : gmap string Ptr) (w : World) : World :=
  mkWorld (w_os w) (w_log w) (w_pools w) (w_next w) m (id_to_buffer_pools_ w)
    (next_buffer_pool_id_ w) (io_backend_type_ w) (dblwr_buffer_ w).
Definition set_ids (m : gmap Z Ptr) (w : World) : World :=
  mkWorld (w_os w) (w_log w) (w_pools w) (w_next w) (buffer_pools_ w) m
    (next_buffer_pool_id_ w) (io_backend_type_ w) (dblwr_buffer_ w).
Definition set_next_id (n : Z) (w : World) : World :=
  mkWorld (w_os w) (w_log w) (w_pools w) (w_next w) (buffer_pools_ w) (id_to_buffer_pools_ w)
    n (io_backend_type_ w) (dblwr_buffer_ w).
Definition set_dblwr (d : DoubleWriteBuffer) (w : World) : World :=
  mkWorld (w_os w) (w_log w) (w_pools w) (w_next w) (buffer_pools_ w) (id_to_buffer_pools_ w)
    (next_buffer_pool_id_ w) (io_backend_type_ w) d.

Context {P : Type} `{!ReplacementPolicy P} `{!LogHandler L}.

(** The state of a method: the frame manager and the rest. *)
Definition Sys : Type := BPFrameManager (P:=P) * World.

(** ** Reaching the parts of the state *)
Definition world : M Sys World := gets snd.
Definition on_world (f : World → World) : M Sys unit := modify (λ '(m, w), (m, f w)).
Definition on_os {A} (op : M OS A) : M Sys A := λ '(m, w),
  '(a, s) ← op (w_os w); Some (a, (m, set_os s w)).
Definition on_log {A} (op : M L A) : M Sys A := λ '(m, w),
  '(a, l) ← op (w_log w); Some (a, (m, set_log l w)).
Definition fm_do {A} (op : M BPFrameManager A) : M Sys A := with_fm op.

Definition pool_at (p : Ptr) : M Sys DiskBufferPool := w ← world; deref (w_pools w !! p).
Definition on_pool (p : Ptr) (f : DiskBufferPool → DiskBufferPool) : M Sys unit :=
  b ← pool_at p; on_world (λ w, set_pools (<[p := f b]> (w_pools w)) w).

(** [frame_manager_.stats().record_...] and [stats_.record_...]. *)
Definition global_stat (f : BufferPoolStats → BufferPoolStats) : M Sys unit :=
  fm_do (modify (λ m, set_fm_stats (f (fm_stats m)) m)).
Definition pool_stat (p : Ptr) (f : BufferPoolStats → BufferPoolStats) : M Sys unit :=
  on_pool p (λ b, set_bp_stats (f (bp_stats b)) b).

(** ** The file header: [struct BPFileHeader] *)
Definition MAX_PAGE_NUM : Z := (BP_PAGE_DATA_SIZE - 4 - 4 - 4) * 8.

Definition hdr_buffer_pool_id (d : list Z) : option Z := get_i32 d 0.
Definition hdr_page_count (d : list Z) : option Z := get_i32 d 4.
Definition hdr_allocated_pages (d : list Z) : option Z := get_i32 d 8.
Definition hdr_bitmap (d : list Z) : list Z := drop 12 d.
Definition hdr_set_bitmap (d : list Z) (bm : list Z) : list Z := take 12 d ++ bm.

(** The data overlaid by [file_header_], read and written in place. *)
Definition header (p : Ptr) : M Sys (list Z) :=
  b ← pool_at p; h ← deref (file_header_ b); f ← fm_do (frame_at h); mret (data (page_ f)).
Definition put_header (p : Ptr) (d : list Z) : M Sys unit :=
  b ← pool_at p; h ← deref (file_header_ b);
  fm_do (on_frame_set h (λ f, set_page (set_data d (page_ f)) f)).
Definition page_count (p : Ptr) : M Sys Z := d ← header p; deref (hdr_page_count d).
Definition allocated_pages (p : Ptr) : M Sys Z := d ← header p; deref (hdr_allocated_pages d).

(** [file_header_->page_count++] and the like. *)
Definition add_field (p : Ptr) (off : nat) (k : Z) : M Sys unit :=
  d ← header p; z ← deref (get_i32 d off); d' ← deref (set_i32 d off (swrap 32 (z + k))); put_header p d'.
Definition add_page_count (p : Ptr) (k : Z) : M Sys unit := add_field p 4 k.
Definition add_allocated_pages (p : Ptr) (k : Z) : M Sys unit := add_field p 8 k.

(** [bitmap[i / 8] & (1 << (i % 8))], [bitmap[i / 8] |= 1 << (i % 8)] and the
    [char tmp = 1 << (i % 8); bitmap[i / 8] &= ~tmp] of [dispose_page]; the first
    two are the bodies of [Bitmap::get_bit] and [Bitmap::set_bit]. *)
Definition header_bit (p : Ptr) (i : Z) : M Sys bool :=
  d ← header p; deref (Bitmap.get_bit (hdr_bitmap d) i).
Definition header_set_bit (p : Ptr) (i : Z) : M Sys unit :=
  d ← header p; bm ← deref (Bitmap.set_bit (hdr_bitmap d) i); put_header p (hdr_set_bitmap d bm).
Definition dispose_bit (bm : list Z) (i : Z) : option (list Z) :=
  let tmp := swrap 8 (Z.shiftl 1 (Z.rem i 8)) in
  if i <? 0 then None else
  b ← Bitmap.byte_at bm (Z.quot i 8);
  Some (<[Z.to_nat (Z.quot i 8) := swrap 8 (Z.land b (Z.lnot tmp))]> bm).
Definition header_clear_bit (p : Ptr) (i : Z) : M Sys unit :=
  d ← header p; bm ← deref (dispose_bit (hdr_bitmap d) i); put_header p (hdr_set_bitmap d bm).

Definition hdr_frame (p : Ptr) : M Sys Ptr := b ← pool_at p; deref (hdr_frame_ b).

(** ** [BufferPoolLogHandler] *)
Definition append_log (p : Ptr) (t : BufferPoolOperation) (page_num : PageNum) : M Sys (RC * LSN) :=
  b ← pool_at p;
  on_log (log_append BUFFER_POOL (log_entry_bytes (mkBufferPoolLogEntry (buffer_pool_id_ b) (type_id t) page_num))).
Definition log_allocate_page (p : Ptr) (page_num : PageNum) : M Sys (RC * LSN) := append_log p ALLOCATE page_num.
Definition log_deallocate_page (p : Ptr) (page_num : PageNum) : M Sys (RC * LSN) := append_log p DEALLOCATE page_num.
Definition log_flush_page (page : Page) : M Sys RC := on_log (wait_lsn (lsn page)).

(** ** [BufferPoolManager::get_buffer_pool] and [DiskBufferPool::write_page] *)
Definition get_buffer_pool (id : Z) : M Sys (RC * option Ptr) :=
  w ← world;
  match id_to_buffer_pools_ w !! id with
  | None => mret (RC.INTERNAL, None)
  | Some bp => mret (RC.SUCCESS, Some bp)
  end.

Definition write_page (p : Ptr) (page_num : PageNum) (page : Page) : M Sys RC :=
  b ← pool_at p;
  write_start ← on_os clock_now;
  rc ← on_os (io_write_page (io_backend_ b) (file_desc_ b) page_num page);
  now ← on_os clock_now;
  let duration_ns := now - write_start in
  if bool_decide (rc ≠ RC.SUCCESS) then mret rc
  else
    global_stat (record_disk_write BP_PAGE_SIZE duration_ns);;
    pool_stat p (record_disk_write BP_PAGE_SIZE duration_ns);;
    mret RC.SUCCESS.
End state.
Arguments World : clear implicits.
Arguments Sys : clear implicits.
