(* ===== verification/DoubleWrite.v ===== *)
(** * The double write buffer

    Models [storage/os/buffer/double_write_buffer.{h,cpp}]: pages on their way to
    the paged files are first written to slots of a shared file, so that a page
    torn by a crash can be restored from its copy.  [DiskDoubleWriteBuffer] is
    modelled down to the bytes of the shared file; [VacuousDoubleWriteBuffer]
    writes through. *)

From S2P Require Import Prelude Types Bytes Crc Os PageIO MemPool Stats Latch Frame Replacement FrameManager BufferPool.
From stdpp Require Import sorting.
Local Open Scope Z_scope.

(** ** The bytes of a slot

    [struct DoubleWritePage]: the key, the index, the flag, three bytes of
    padding (zero here) and the page. *)
Definition DW_HEADER_SIZE : Z := 4.
Definition DW_PAGE_SIZE : Z := 16 + BP_PAGE_SIZE.

Definition dw_bytes (d : DoubleWritePage) : list Z :=
  le_bytes 4 (dk_buffer_pool_id (dw_key d)) ++ le_bytes 4 (dk_page_num (dw_key d)) ++ le_bytes 4 (page_index d) ++
  [Z.b2z (valid d); 0; 0; 0] ++ page_bytes (dw_page d).

Definition bytes_dw (l : list Z) : option DoubleWritePage :=
  b ← get_i32 l 0; n ← get_i32 l 4; i ← get_i32 l 8; v ← l !! 12%nat;
  Some (mkDwPage (mkDwKey b n) i (negb (v =? 0)) (bytes_page (drop 16 l))).

(** [page_index * SIZE + SIZE] is computed as an [int32_t] by
    [write_page_internal] and as an [int64_t] by [load_pages]. *)
Definition slot_offset (i : Z) : Z := i * DW_PAGE_SIZE + DW_HEADER_SIZE.

Section double_write.
Context {P L : Type} `{!ReplacementPolicy P} `{!LogHandler L} `{!HashOrder}.
Notation Sys := (Sys L P).

Definition dblwr : M Sys DiskDoubleWriteBuffer :=
  w ← world; match dblwr_buffer_ w with DiskDblwr d => mret d | VacuousDblwr => abort end.
Definition put_dblwr (d : DiskDoubleWriteBuffer) : M Sys unit := on_world (set_dblwr (DiskDblwr d)).
Definition set_dw_pages (m : gmap DoubleWritePageKey (option DoubleWritePage)) : M Sys unit :=
  d ← dblwr; put_dblwr (mkDblwr (dw_file_desc d) (max_pages_ d) (header_page_cnt d) m).
Definition set_header_cnt (n : Z) : M Sys unit :=
  d ← dblwr; put_dblwr (mkDblwr (dw_file_desc d) (max_pages_ d) n (dblwr_pages_ d)).

(** The object behind the pointer stored for a key. *)
Definition dw_object (k : DoubleWritePageKey) : M Sys DoubleWritePage :=
  d ← dblwr; o ← deref (dblwr_pages_ d !! k); deref o.
Definition set_dw_object (k : DoubleWritePageKey) (o : option DoubleWritePage) : M Sys unit :=
  d ← dblwr; set_dw_pages (<[k := o]> (dblwr_pages_ d)).

(** [write_page_internal]: the slot is written to the shared file. *)
Definition write_page_internal (page : DoubleWritePage) : M Sys RC :=
  d ← dblwr;
  let offset := swrap 32 (slot_offset (page_index page)) in
  ok ← on_os (sys_lseek (dw_file_desc d) offset);
  if negb ok then mret RC.IOERR_SEEK
  else
    ret ← on_os (writen (dw_file_desc d) (dw_bytes page));
    if negb (ret =? 0) then mret RC.IOERR_WRITE else mret RC.SUCCESS.

(** [write_page]: the page goes to the paged file it belongs to. *)
Definition dw_write_page (page : DoubleWritePage) : M Sys RC :=
  if negb (valid page) then mret RC.SUCCESS
  else
    '(rc, disk_buffer) ← get_buffer_pool (dk_buffer_pool_id (dw_key page));
    assertb (bool_decide (rc = RC.SUCCESS) && bool_decide (disk_buffer ≠ None));;
    bp ← deref disk_buffer;
    write_page bp (dk_page_num (dw_key page)) (dw_page page).

(** [flush_page]: the loop over the map; an object is deleted after its page has
    been written, an early return leaves the deleted pointers in the map. *)
Fixpoint flush_loop (keys : list DoubleWritePageKey) : M Sys RC :=
  match keys with
  | [] => mret RC.SUCCESS
  | k :: keys =>
      o ← dw_object k;
      rc ← dw_write_page o;
      if bool_decide (rc ≠ RC.SUCCESS) then mret rc
      else
        let o' := set_valid false o in
        set_dw_object k (Some o');;
        write_page_internal o';;
        set_dw_object k None;;
        flush_loop keys
  end.

Definition dw_flush_page : M Sys RC :=
  d ← dblwr;
  rc ← flush_loop (hash_order (dom (dblwr_pages_ d)));
  if bool_decide (rc ≠ RC.SUCCESS) then mret rc
  else set_dw_pages ∅;; set_header_cnt 0;; mret RC.SUCCESS.

Definition disk_add_page (p : Ptr) (page_num : PageNum) (page : Page) : M Sys RC :=
  b ← pool_at p; d ← dblwr;
  let key := mkDwKey (buffer_pool_id_ b) page_num in
  match dblwr_pages_ d !! key with
  | Some _ =>
      o ← dw_object key;
      let o' := set_dw_page page o in
      set_dw_object key (Some o');;
      write_page_internal o'
  | None =>
      let page_cnt := Z.of_nat (size (dblwr_pages_ d)) in
      let dblwr_page := mkDwPage key (swrap 32 page_cnt) true page in
      set_dw_object key (Some dblwr_page);;
      rc ← write_page_internal dblwr_page;
      if RC.OB_FAIL rc then mret rc
      else
        rc ← (if header_page_cnt d <? page_cnt + 1 then
                set_header_cnt (swrap 32 (page_cnt + 1));;
                ok ← on_os (sys_lseek (dw_file_desc d) 0);
                if negb ok then mret RC.IOERR_SEEK
                else
                  ret ← on_os (writen (dw_file_desc d) (le_bytes 4 (swrap 32 (page_cnt + 1))));
                  if negb (ret =? 0) then mret RC.IOERR_WRITE else mret RC.SUCCESS
              else mret RC.SUCCESS);
        if bool_decide (rc ≠ RC.SUCCESS) then mret rc
        else
          d' ← dblwr;
          if max_pages_ d' <=? Z.of_nat (size (dblwr_pages_ d')) then dw_flush_page
          else mret RC.SUCCESS
  end.

Definition disk_read_page (p : Ptr) (page_num : PageNum) (page : Page) : M Sys (RC * Page) :=
  b ← pool_at p; d ← dblwr;
  let key := mkDwKey (buffer_pool_id_ b) page_num in
  match dblwr_pages_ d !! key with
  | Some _ => o ← dw_object key; mret (RC.SUCCESS, dw_page o)
  | None => mret (RC.BUFFERPOOL_INVALID_PAGE_NUM, page)
  end.

(** [clear_pages]: the pages of one file leave the map and are written back in
    the order of their numbers; a failed write stops the loop, and all of them
    are deleted. *)
Definition by_page_num (a b : DoubleWritePage) : Prop := dk_page_num (dw_key a) ≤ dk_page_num (dw_key b).
#[global] Instance by_page_num_dec a b : Decision (by_page_num a b).
Proof. unfold by_page_num. apply _. Defined.

Fixpoint clear_loop (p : Ptr) (l : list DoubleWritePage) : M Sys unit :=
  match l with
  | [] => mret tt
  | o :: l =>
      rc ← write_page p (dk_page_num (dw_key o)) (dw_page o);
      if RC.OB_FAIL rc then mret tt
      else write_page_internal (set_valid false o);; clear_loop p l
  end.

Definition remove_pred (id : Z) (o : option DoubleWritePage) : bool :=
  match o with Some o => id =? dk_buffer_pool_id (dw_key o) | None => false end.

Definition disk_clear_pages (p : Ptr) : M Sys RC :=
  b ← pool_at p; d ← dblwr;
  let keys := hash_order (dom (dblwr_pages_ d)) in
  objs ← deref (mapM (λ k, dblwr_pages_ d !! k ≫= id) keys);
  let spec_pages := filter (λ o, remove_pred (buffer_pool_id_ b) (Some o) = true) objs in
  let rest := filter (λ e, remove_pred (buffer_pool_id_ b) e.2 = false) (dblwr_pages_ d) in
  set_dw_pages rest;;
  clear_loop p (merge_sort by_page_num spec_pages);;
  mret RC.SUCCESS.

(** [load_pages]: the slots of the shared file whose page has a valid checksum. *)
Fixpoint load_loop (n : nat) (page_num : Z) : M Sys RC :=
  match n with
  | O => mret RC.SUCCESS
  | S n =>
      d ← dblwr;
      let offset := slot_offset page_num in
      ok ← on_os (sys_lseek (dw_file_desc d) offset);
      if negb ok then mret RC.IOERR_SEEK
      else
        '(ret, bs) ← on_os (readn (dw_file_desc d) DW_PAGE_SIZE);
        if negb (ret =? 0) then mret RC.IOERR_READ
        else
          o ← deref (bytes_dw bs);
          check_sum_ ← deref (crc32 (data (dw_page o)) BP_PAGE_DATA_SIZE);
          (if check_sum_ =? check_sum (dw_page o) then
             match dblwr_pages_ d !! dw_key o with
             | Some _ => mret tt
             | None => set_dw_object (dw_key o) (Some o)
             end
           else mret tt);;
          load_loop n (page_num + 1)
  end.

Definition load_pages : M Sys RC :=
  d ← dblwr;
  if dw_file_desc d <? 0 then mret RC.BUFFERPOOL_OPEN
  else if negb (bool_decide (dblwr_pages_ d = ∅)) then mret RC.BUFFERPOOL_OPEN
  else
    ok ← on_os (sys_lseek (dw_file_desc d) 0);
    if negb ok then mret RC.IOERR_SEEK
    else
      '(ret, bs) ← on_os (readn (dw_file_desc d) DW_HEADER_SIZE);
      let header := bs ++ drop (length bs) (le_bytes 4 (header_page_cnt d)) in
      let cnt := swrap 32 (le_val header) in
      set_header_cnt cnt;;
      if negb (ret =? 0) && negb (ret =? -1) then mret RC.IOERR_READ
      else load_loop (Z.to_nat cnt) 0.

Definition dw_open_file (filename : string) : M Sys RC :=
  d ← dblwr;
  if 0 <=? dw_file_desc d then mret RC.BUFFERPOOL_OPEN
  else
    fd ← on_os (sys_open filename true false);
    if fd <? 0 then mret RC.SCHEMA_DB_EXIST
    else
      put_dblwr (mkDblwr fd (max_pages_ d) (header_page_cnt d) (dblwr_pages_ d));;
      load_pages.

Definition recover : M Sys RC := dw_flush_page.

(** [new DiskDoubleWriteBuffer(bp_manager, max_pages)] and its destructor. *)
Definition new_dblwr (max_pages : Z) : DiskDoubleWriteBuffer := mkDblwr (-1) max_pages 0 ∅.
Definition dw_destroy : M Sys unit := d ← dblwr; dw_flush_page;; on_os (sys_close (dw_file_desc d));; mret tt.

(** ** The virtual calls through [class DoubleWriteBuffer] *)
Definition vacuous_add_page (p : Ptr) (page_num : PageNum) (page : Page) : M Sys RC := write_page p page_num page.
Definition vacuous_read_page (page : Page) : M Sys (RC * Page) := mret (RC.BUFFERPOOL_INVALID_PAGE_NUM, page).
Definition vacuous_clear_pages : M Sys RC := mret RC.SUCCESS.

Definition add_page (p : Ptr) (page_num : PageNum) (page : Page) : M Sys RC :=
  w ← world;
  match dblwr_buffer_ w with
  | DiskDblwr _ => disk_add_page p page_num page
  | VacuousDblwr => vacuous_add_page p page_num page
  end.

Definition dw_read_page (p : Ptr) (page_num : PageNum) (page : Page) : M Sys (RC * Page) :=
  w ← world;
  match dblwr_buffer_ w with
  | DiskDblwr _ => disk_read_page p page_num page
  | VacuousDblwr => vacuous_read_page page
  end.

Definition clear_pages (p : Ptr) : M Sys RC :=
  w ← world;
  match dblwr_buffer_ w with
  | DiskDblwr _ => disk_clear_pages p
  | VacuousDblwr => vacuous_clear_pages
  end.
End double_write.
