(* ===== verification/DiskBufferPool.v ===== *)
(** * Paged files and their manager

    Models [class DiskBufferPool], [class BufferPoolIterator] and
    [class BufferPoolManager] of [storage/os/buffer/disk_buffer_pool.{h,cpp}] and
    the replayer of [storage/os/diagnostics/buffer_pool_log.cpp].  [p] is [this].
    Each public method runs under [lock_] where its steps depend on each other,
    and is one computation here. *)

From S2P Require Import Prelude Types Bytes Crc Os PageIO Bitmap LruCache MemPool Stats Latch Frame Replacement FrameManager BufferPool DoubleWrite.
Local Open Scope Z_scope.

(** ** [BufferPoolIterator]: the bitmap is shared with the file header, [size] is
    the number of pages when it was initialised. *)
Record BufferPoolIterator : Type := mkIterator { it_size : Z; current_page_num_ : PageNum }.

Definition iterator_init (page_count start_page : Z) : BufferPoolIterator :=
  mkIterator page_count (if start_page <=? 0 then -1 else start_page - 1).
Definition iterator_has_next (bm : list Z) (it : BufferPoolIterator) : option bool :=
  r ← Bitmap.next_setted_bit bm (it_size it) (current_page_num_ it + 1); Some (negb (r =? -1)).
Definition iterator_next (bm : list Z) (it : BufferPoolIterator) : option (PageNum * BufferPoolIterator) :=
  next_page ← Bitmap.next_setted_bit bm (it_size it) (current_page_num_ it + 1);
  Some (next_page, if negb (next_page =? -1) then mkIterator (it_size it) next_page else it).
Definition iterator_reset (it : BufferPoolIterator) : BufferPoolIterator := mkIterator (it_size it) 0.

Record DirtyPageFlushResult : Type := mkFlushResult {
  flushed_count : Z;
  skipped_pinned_count : Z;
  failed_count : Z
}.

Section disk_buffer_pool.
Context {P L : Type} `{!ReplacementPolicy P} `{!LogHandler L} `{!HashOrder}.
Notation Sys := (Sys L P).

Definition bp_id (p : Ptr) : M Sys Z := b ← pool_at p; mret (buffer_pool_id_ b).
Definition access (frame : Ptr) : M Sys unit := t ← on_os clock_now; fm_do (on_frame_set frame (frame_access t)).
Definition set_frame (frame : Ptr) (f : Frame → Frame) : M Sys unit := fm_do (on_frame_set frame f).
Definition frame_of (frame : Ptr) : M Sys Frame := fm_do (frame_at frame).

(** ** Small methods *)
Definition check_page_num (p : Ptr) (page_num : PageNum) : M Sys RC :=
  n ← page_count p;
  if (page_num <? 0) || (n <=? page_num) then mret RC.BUFFERPOOL_INVALID_PAGE_NUM
  else
    b ← header_bit p page_num;
    if negb b then mret RC.BUFFERPOOL_INVALID_PAGE_NUM else mret RC.SUCCESS.

Definition unpin_page (p : Ptr) (frame : Ptr) : M Sys RC :=
  pin_count ← fm_do (frame_unpin frame);
  pool_stat p (record_unpin (pin_count =? 0));;
  mret RC.SUCCESS.

(** [flush_page_internal]: log, checksum, double write buffer, dirty flag. *)
Definition flush_page_internal (p : Ptr) (frame : Ptr) (reason : FlushReason) : M Sys RC :=
  flush_start ← on_os clock_now;
  f ← frame_of frame;
  log_flush_page (page_ f);;
  c ← deref (crc32 (data (page_ f)) BP_PAGE_DATA_SIZE);
  set_frame frame (frame_set_check_sum c);;
  f ← frame_of frame;
  rc ← add_page p (fid_page_num (frame_id_ f)) (page_ f);
  if RC.OB_FAIL rc then mret rc
  else
    fm_do (on_frame frame clear_dirty);;
    now ← on_os clock_now;
    let duration_ns := now - flush_start in
    global_stat (record_flush reason duration_ns);;
    pool_stat p (record_flush reason duration_ns);;
    mret RC.SUCCESS.

Definition flush_page (p : Ptr) (frame : Ptr) (reason : FlushReason) : M Sys RC := flush_page_internal p frame reason.

(** [BufferPoolManager::flush_page]. *)
Definition mgr_flush_page (frame : Ptr) (reason : FlushReason) : M Sys RC :=
  f ← frame_of frame; w ← world;
  match id_to_buffer_pools_ w !! fid_buffer_pool_id (frame_id_ f) with
  | None => mret RC.INTERNAL
  | Some bp => flush_page bp frame reason
  end.

(** The file a frame belongs to, as the lambda in [allocate_frame] finds it. *)
Definition victim_pool (p : Ptr) (frame : Ptr) : M Sys (option Ptr) :=
  f ← frame_of frame; id ← bp_id p;
  if fid_buffer_pool_id (frame_id_ f) =? id then mret (Some p)
  else '(_, bp) ← get_buffer_pool (fid_buffer_pool_id (frame_id_ f)); mret bp.

Definition purger (p : Ptr) (frame : Ptr) : M Sys RC :=
  f ← frame_of frame;
  let dirty := dirty_ f in
  if negb dirty then
    v ← victim_pool p frame;
    (match v with Some q => pool_stat q (record_eviction false) | None => mret tt end);;
    mret RC.SUCCESS
  else
    id ← bp_id p;
    rc ← (if fid_buffer_pool_id (frame_id_ f) =? id then flush_page_internal p frame EVICTION
          else mgr_flush_page frame EVICTION);
    if bool_decide (rc ≠ RC.SUCCESS) then mret rc
    else
      v ← victim_pool p frame;
      (match v with Some q => pool_stat q (record_eviction dirty) | None => mret tt end);;
      mret rc.

(** [allocate_frame]: a frame, after evicting one if there is no idle one.  Each
    round that goes on has freed a frame; [length frames_ + 2] rounds are
    enough. *)
Fixpoint allocate_frame_loop (n : nat) (p : Ptr) (page_num : PageNum) : M Sys (RC * option Ptr) :=
  match n with
  | O => abort
  | S n =>
      id ← bp_id p;
      r ← fm_do (fm_alloc id page_num);
      match r with
      | Some frame => mret (RC.SUCCESS, Some frame)
      | None =>
          purged ← purge_frames 1 (purger p);
          if purged =? 0 then
            global_stat record_no_buffer_failure;;
            pool_stat p record_no_buffer_failure;;
            mret (RC.BUFFERPOOL_NOBUF, None)
          else allocate_frame_loop n p page_num
      end
  end.

Definition allocate_frame (p : Ptr) (page_num : PageNum) : M Sys (RC * option Ptr) := λ '(m, w),
  allocate_frame_loop (2 + length (frames_ m)) p page_num (m, w).

Definition load_page (p : Ptr) (page_num : PageNum) (frame : Ptr) : M Sys RC :=
  f ← frame_of frame;
  '(rc, page) ← dw_read_page p page_num (page_ f);
  set_frame frame (set_page page);;
  if RC.OB_SUCC rc then mret rc
  else
    read_start ← on_os clock_now;
    b ← pool_at p;
    f ← frame_of frame;
    '(rc, page) ← on_os (io_read_page (io_backend_ b) (file_desc_ b) page_num (page_ f));
    set_frame frame (set_page page);;
    now ← on_os clock_now;
    let duration_ns := now - read_start in
    if bool_decide (rc ≠ RC.SUCCESS) then mret rc
    else
      global_stat (record_disk_read BP_PAGE_SIZE duration_ns);;
      pool_stat p (record_disk_read BP_PAGE_SIZE duration_ns);;
      set_frame frame (set_page_num page_num);;
      mret RC.SUCCESS.

Definition purge_frame (p : Ptr) (page_num : PageNum) (buf : Ptr) (reason : FlushReason) : M Sys RC :=
  f ← frame_of buf;
  if negb (pin_count_ f =? 1) then mret RC.LOCKED_UNLOCK
  else
    rc ← (if dirty_ f then flush_page_internal p buf reason else mret RC.SUCCESS);
    if bool_decide (rc ≠ RC.SUCCESS) then mret rc
    else
      id ← bp_id p;
      fm_do (fm_free id page_num buf);;
      mret RC.SUCCESS.

(** ** [get_this_page] *)
Definition get_this_page (p : Ptr) (page_num : PageNum) : M Sys (RC * option Ptr) :=
  rc ← check_page_num p page_num;
  if bool_decide (rc ≠ RC.SUCCESS) then mret (rc, None)
  else
    id ← bp_id p;
    used_match_frame ← fm_do (fm_get id page_num);
    match used_match_frame with
    | Some frame =>
        global_stat (record_page_request true);;
        pool_stat p (record_page_request true);;
        f ← frame_of frame;
        pool_stat p (record_pin (pin_count_ f =? 1));;
        access frame;;
        mret (RC.SUCCESS, Some frame)
    | None =>
        global_stat (record_page_request false);;
        pool_stat p (record_page_request false);;
        rc ← check_page_num p page_num;
        if bool_decide (rc ≠ RC.SUCCESS) then mret (rc, None)
        else
          used_match_frame ← fm_do (fm_get id page_num);
          match used_match_frame with
          | Some frame =>
              access frame;;
              f ← frame_of frame;
              pool_stat p (record_pin (pin_count_ f =? 1));;
              mret (RC.SUCCESS, Some frame)
          | None =>
              '(rc, allocated_frame) ← allocate_frame p page_num;
              if bool_decide (rc ≠ RC.SUCCESS) then mret (rc, None)
              else
                frame ← deref allocated_frame;
                set_frame frame (set_buffer_pool_id id);;
                access frame;;
                rc ← load_page p page_num frame;
                if bool_decide (rc ≠ RC.SUCCESS) then
                  purge_frame p page_num frame OTHER;; mret (rc, None)
                else
                  f ← frame_of frame;
                  pool_stat p (record_pin (pin_count_ f =? 1));;
                  mret (RC.SUCCESS, Some frame)
          end
    end.

(** ** [allocate_page] *)
Fixpoint free_scan (n : nat) (i : Z) (p : Ptr) : M Sys (option PageNum) :=
  match n with
  | O => mret None
  | S n => b ← header_bit p i; if negb b then mret (Some i) else free_scan n (i + 1) p
  end.

(** A hole of the file is used again. *)
Definition allocate_hole (p : Ptr) (i : PageNum) : M Sys (RC * option Ptr) :=
  '(rc, lsn) ← log_allocate_page p i;
  if RC.OB_FAIL rc then mret (rc, None)
  else
    hdr ← hdr_frame p;
    add_allocated_pages p 1;;
    header_set_bit p i;;
    fm_do (on_frame hdr mark_dirty);;
    set_frame hdr (frame_set_lsn lsn);;
    global_stat record_page_allocation;;
    pool_stat p record_page_allocation;;
    '(rc, frame) ← get_this_page p i;
    if RC.OB_FAIL rc then mret (rc, frame)
    else
      fr ← deref frame;
      set_frame fr clear_page;;
      set_frame fr (frame_set_lsn lsn);;
      fm_do (on_frame fr mark_dirty);;
      mret (RC.SUCCESS, Some fr).

(** The file grows by a page. *)
Definition allocate_extend (p : Ptr) : M Sys (RC * option Ptr) :=
  n ← page_count p;
  if MAX_PAGE_NUM <=? n then mret (RC.BUFFERPOOL_NOBUF, None)
  else
    '(rc, lsn) ← log_allocate_page p n;
    if RC.OB_FAIL rc then mret (rc, None)
    else
      hdr ← hdr_frame p;
      set_frame hdr (frame_set_lsn lsn);;
      page_num ← page_count p;
      '(rc, allocated_frame) ← allocate_frame p page_num;
      if bool_decide (rc ≠ RC.SUCCESS) then mret (rc, None)
      else
        frame ← deref allocated_frame;
        add_allocated_pages p 1;;
        add_page_count p 1;;
        header_set_bit p page_num;;
        fm_do (on_frame hdr mark_dirty);;
        id ← bp_id p;
        set_frame frame (set_buffer_pool_id id);;
        access frame;;
        set_frame frame clear_page;;
        n' ← page_count p;
        set_frame frame (set_page_num (n' - 1));;
        flush_page_internal p frame OTHER;;
        f ← frame_of frame;
        pool_stat p (record_pin (pin_count_ f =? 1));;
        global_stat record_page_allocation;;
        pool_stat p record_page_allocation;;
        mret (RC.SUCCESS, Some frame).

Definition allocate_page (p : Ptr) : M Sys (RC * option Ptr) :=
  a ← allocated_pages p; n ← page_count p;
  hole ← (if a <? n then free_scan (Z.to_nat n) 0 p else mret None);
  match hole with
  | Some i => allocate_hole p i
  | None => allocate_extend p
  end.

(** ** [dispose_page] *)
Definition dispose_page (p : Ptr) (page_num : PageNum) : M Sys RC :=
  if page_num =? 0 then mret RC.INTERNAL
  else
    rc ← check_page_num p page_num;
    if bool_decide (rc ≠ RC.SUCCESS) then mret rc
    else
      id ← bp_id p;
      used_frame ← fm_do (fm_get id page_num);
      pinned ← (match used_frame with
                | Some frame => f ← frame_of frame; mret (negb (pin_count_ f =? 1))
                | None => mret false
                end);
      if pinned : bool then
        frame ← deref used_frame;
        unpin_page p frame;; mret RC.LOCKED_UNLOCK
      else
        '(rc, lsn) ← log_deallocate_page p page_num;
        if RC.OB_FAIL rc then
          (match used_frame with Some frame => unpin_page p frame;; mret tt | None => mret tt end);;
          mret rc
        else
          (match used_frame with Some frame => fm_do (fm_free id page_num frame);; mret tt | None => mret tt end);;
          hdr ← hdr_frame p;
          set_frame hdr (frame_set_lsn lsn);;
          fm_do (on_frame hdr mark_dirty);;
          add_allocated_pages p (-1);;
          header_clear_bit p page_num;;
          global_stat record_page_disposal;;
          pool_stat p record_page_disposal;;
          mret RC.SUCCESS.

(** ** Releasing and flushing *)
Definition purge_page (p : Ptr) (page_num : PageNum) : M Sys RC :=
  id ← bp_id p;
  used_frame ← fm_do (fm_get id page_num);
  match used_frame with
  | Some frame =>
      rc ← purge_frame p page_num frame EXPLICIT;
      (if RC.OB_FAIL rc then unpin_page p frame;; mret tt else mret tt);;
      mret rc
  | None => mret RC.SUCCESS
  end.

Fixpoint purge_all_loop (p : Ptr) (reason : FlushReason) (used : list Ptr) (first_error : RC) : M Sys RC :=
  match used with
  | [] => mret first_error
  | frame :: used =>
      f ← frame_of frame;
      rc ← purge_frame p (fid_page_num (frame_id_ f)) frame reason;
      if RC.OB_FAIL rc then
        unpin_page p frame;;
        purge_all_loop p reason used (if bool_decide (first_error = RC.SUCCESS) then rc else first_error)
      else purge_all_loop p reason used first_error
  end.

Definition purge_all_pages (p : Ptr) (reason : FlushReason) : M Sys RC :=
  id ← bp_id p;
  used ← fm_do (find_list id);
  purge_all_loop p reason used RC.SUCCESS.

(** The warnings of [check_all_pages_unpinned] are its only result: the numbers
    of the pages found pinned. *)
Fixpoint check_unpinned_loop (frames : list Ptr) : M Sys (list PageNum) :=
  match frames with
  | [] => mret []
  | frame :: frames =>
      fm_do (frame_unpin frame);;
      f ← frame_of frame;
      let n := fid_page_num (frame_id_ f) in
      rest ← check_unpinned_loop frames;
      if (n =? BP_HEADER_PAGE) && (1 <? pin_count_ f) then mret (n :: rest)
      else if negb (n =? BP_HEADER_PAGE) && (0 <? pin_count_ f) then mret (n :: rest)
      else mret rest
  end.

Definition check_all_pages_unpinned (p : Ptr) : M Sys (RC * list PageNum) :=
  id ← bp_id p;
  frames ← fm_do (find_list id);
  warned ← check_unpinned_loop frames;
  mret (RC.SUCCESS, warned).

Fixpoint flush_all_loop (p : Ptr) (used : list Ptr) : M Sys RC :=
  match used with
  | [] => mret RC.SUCCESS
  | frame :: used =>
      rc ← flush_page p frame EXPLICIT;
      fm_do (frame_unpin frame);;
      if bool_decide (rc ≠ RC.SUCCESS) then mret rc else flush_all_loop p used
  end.

Definition flush_all_pages (p : Ptr) : M Sys RC :=
  id ← bp_id p;
  used ← fm_do (find_list id);
  flush_all_loop p used.

Fixpoint flush_dirty_loop (p : Ptr) (max_pages : Z) (reason : FlushReason) (frames : list Ptr)
    (result : DirtyPageFlushResult) (first_error : RC) : M Sys (RC * DirtyPageFlushResult) :=
  match frames with
  | [] => mret (first_error, result)
  | frame :: frames =>
      let limit_reached := (0 <? max_pages) && (max_pages <=? flushed_count result) in
      f ← frame_of frame;
      if negb (dirty_ f) || limit_reached then
        fm_do (frame_unpin frame);;
        flush_dirty_loop p max_pages reason frames result first_error
      else if negb (pin_count_ f =? 1) then
        fm_do (frame_unpin frame);;
        flush_dirty_loop p max_pages reason frames
          (mkFlushResult (flushed_count result) (skipped_pinned_count result + 1) (failed_count result)) first_error
      else
        rc ← flush_page p frame reason;
        fm_do (frame_unpin frame);;
        if bool_decide (rc = RC.SUCCESS) then
          flush_dirty_loop p max_pages reason frames
            (mkFlushResult (flushed_count result + 1) (skipped_pinned_count result) (failed_count result)) first_error
        else
          flush_dirty_loop p max_pages reason frames
            (mkFlushResult (flushed_count result) (skipped_pinned_count result) (failed_count result + 1))
            (if bool_decide (first_error = RC.SUCCESS) then rc else first_error)
  end.

Definition flush_dirty_pages (p : Ptr) (max_pages : Z) (reason : FlushReason) :
    M Sys (RC * DirtyPageFlushResult) :=
  id ← bp_id p;
  frames ← fm_do (find_list id);
  flush_dirty_loop p max_pages reason frames (mkFlushResult 0 0 0) RC.SUCCESS.

(** ** Recovery *)
Definition recover_page (p : Ptr) (page_num : PageNum) : M Sys RC :=
  b ← header_bit p page_num;
  if negb b then
    header_set_bit p page_num;;
    add_allocated_pages p 1;;
    add_page_count p 1;;
    hdr ← hdr_frame p;
    fm_do (on_frame hdr mark_dirty);;
    mret RC.SUCCESS
  else mret RC.SUCCESS.

Definition redo_allocate_page (p : Ptr) (lsn_ : LSN) (page_num : PageNum) : M Sys RC :=
  hdr ← hdr_frame p;
  f ← frame_of hdr;
  if lsn_ <=? lsn (page_ f) then mret RC.SUCCESS
  else
    n ← page_count p;
    if page_num <? n then
      b ← header_bit p page_num;
      if b : bool then mret RC.SUCCESS
      else
        header_set_bit p page_num;;
        add_allocated_pages p 1;;
        fm_do (on_frame hdr mark_dirty);;
        mret RC.SUCCESS
    else if n <? page_num then mret RC.INTERNAL
    else if MAX_PAGE_NUM <=? n then mret RC.INTERNAL
    else
      add_allocated_pages p 1;;
      add_page_count p 1;;
      set_frame hdr (frame_set_lsn lsn_);;
      fm_do (on_frame hdr mark_dirty);;
      header_set_bit p page_num;;
      mret RC.SUCCESS.

Definition header_clear_bitmap_bit (p : Ptr) (i : Z) : M Sys unit :=
  d ← header p; bm ← deref (Bitmap.clear_bit (hdr_bitmap d) i); put_header p (hdr_set_bitmap d bm).

Definition redo_deallocate_page (p : Ptr) (lsn_ : LSN) (page_num : PageNum) : M Sys RC :=
  hdr ← hdr_frame p;
  f ← frame_of hdr;
  if lsn_ <=? lsn (page_ f) then mret RC.SUCCESS
  else
    n ← page_count p;
    if (page_num <? 0) || (n <=? page_num) then mret RC.INTERNAL
    else
      b ← header_bit p page_num;
      if negb b then mret RC.INTERNAL
      else
        header_clear_bitmap_bit p page_num;;
        add_allocated_pages p (-1);;
        set_frame hdr (frame_set_lsn lsn_);;
        fm_do (on_frame hdr mark_dirty);;
        mret RC.SUCCESS.

(** [BufferPoolLogReplayer::replay] of an entry with this LSN and payload. *)
Definition replay (entry_lsn : LSN) (payload : list Z) : M Sys RC :=
  if negb (Z.of_nat (length payload) =? 12) then mret RC.INVALID_ARGUMENT
  else
    log ← deref (bytes_log_entry payload);
    '(rc, buffer_pool) ← get_buffer_pool (le_buffer_pool_id log);
    match buffer_pool with
    | None => mret rc
    | Some bp =>
        if RC.OB_FAIL rc then mret rc
        else match operation_of (le_operation_type log) with
             | Some ALLOCATE => redo_allocate_page bp entry_lsn (le_page_num log)
             | Some DEALLOCATE => redo_deallocate_page bp entry_lsn (le_page_num log)
             | None => mret RC.INTERNAL
             end
    end.

(** ** Diagnostics *)
Definition bp_snapshot (p : Ptr) : M Sys (BufferPoolSnapshot) :=
  b ← pool_at p;
  '(m, _) ← fetch;
  r ← deref (fm_snapshot m (buffer_pool_id_ b));
  let s := stats_snapshot (bp_stats b) in
  mret (mkBufferPoolSnapshot (sn_capacity r) (sn_used_frames r) (sn_free_frames r) (sn_pinned_frames r)
          (sn_dirty_frames r) (sn_replacement_policy r) (page_io_backend_name (io_backend_ b)) (file_name_ b)
          (buffer_pool_id_ b)
          (stat_set dirty_pages_current (sn_dirty_frames r)
             (stat_set current_pinned_frames (sn_pinned_frames r) s))
          (sn_frames r)).

(** The frames that [log_pinned_frames] lists: at most eight pinned ones. *)
Definition MAX_DIAGNOSTIC_FRAMES : nat := 8.

Fixpoint pinned_lines (emitted : nat) (l : list FrameSnapshot) : list FrameSnapshot :=
  match l with
  | [] => []
  | f :: l =>
      if (fsn_pin_count f <=? 0) || bool_decide (MAX_DIAGNOSTIC_FRAMES ≤ emitted)%nat then pinned_lines emitted l
      else f :: pinned_lines (S emitted) l
  end.

Definition log_pinned_frames (p : Ptr) : M Sys (list FrameSnapshot) :=
  state ← bp_snapshot p;
  if sn_pinned_frames state =? 0 then mret [] else mret (pinned_lines 0 (sn_frames state)).

(** ** Opening *)
Definition open_file (p : Ptr) (file_name : string) : M Sys RC :=
  fd ← on_os (sys_open file_name false false);
  if fd <? 0 then mret RC.IOERR_ACCESS
  else
    on_pool p (set_file_name file_name);;
    on_pool p (set_file_desc fd);;
    b ← pool_at p;
    read_start ← on_os clock_now;
    '(rc, header_page) ← on_os (io_read_page (io_backend_ b) fd BP_HEADER_PAGE zero_page);
    now ← on_os clock_now;
    if bool_decide (rc ≠ RC.SUCCESS) then
      on_os (sys_close fd);; on_pool p (set_file_desc (-1));; mret rc
    else
      global_stat (record_disk_read BP_PAGE_SIZE (now - read_start));;
      pool_stat p (record_disk_read BP_PAGE_SIZE (now - read_start));;
      id ← deref (hdr_buffer_pool_id (data header_page));
      on_pool p (set_bp_id id);;
      '(rc, hdr) ← allocate_frame p BP_HEADER_PAGE;
      if bool_decide (rc ≠ RC.SUCCESS) then
        on_os (sys_close fd);; on_pool p (set_file_desc (-1));; mret rc
      else
        frame ← deref hdr;
        on_pool p (set_hdr_frame (Some frame));;
        set_frame frame (set_buffer_pool_id id);;
        access frame;;
        rc ← load_page p BP_HEADER_PAGE frame;
        if bool_decide (rc ≠ RC.SUCCESS) then
          purge_frame p BP_HEADER_PAGE frame OTHER;;
          on_os (sys_close fd);; on_pool p (set_file_desc (-1));; mret rc
        else
          on_pool p (set_file_header (Some frame));;
          mret RC.SUCCESS.

(** ** Closing

    [DiskBufferPool::close_file], [BufferPoolManager::close_file] and the
    destructor call each other: [mgr_forget] is the part of the manager's method
    that takes the file out of its two maps, the [delete] that follows runs
    [close_file] again. *)
Definition mgr_forget (file_name : string) : M Sys (option Ptr) :=
  w ← world;
  match buffer_pools_ w !! file_name with
  | None => mret None
  | Some bp =>
      b ← pool_at bp;
      on_world (λ w, set_names (delete file_name (buffer_pools_ w))
                       (set_ids (delete (buffer_pool_id_ b) (id_to_buffer_pools_ w)) w));;
      mret (Some bp)
  end.

Definition delete_object (p : Ptr) : M Sys unit := on_world (λ w, set_pools (delete p (w_pools w)) w).

Fixpoint close_file (n : nat) (p : Ptr) : M Sys RC :=
  b ← pool_at p;
  if file_desc_ b <? 0 then mret RC.SUCCESS
  else
    hdr ← hdr_frame p;
    unpin_page p hdr;;
    log_pinned_frames p;;
    rc ← purge_all_pages p SHUTDOWN;
    if bool_decide (rc ≠ RC.SUCCESS) then mret rc
    else
      rc ← clear_pages p;
      if RC.OB_FAIL rc then mret rc
      else
        on_pool p (set_disposed ∅);;
        r ← on_os (sys_close (file_desc_ b));
        if r <? 0 then mret RC.IOERR_CLOSE
        else
          on_pool p (set_file_desc (-1));;
          found ← mgr_forget (file_name_ b);
          (match found, n with
           | None, _ => mret tt
           | Some _, O => abort
           | Some bp, S n => close_file n bp;; delete_object bp
           end);;
          mret RC.SUCCESS.

(** A file is closed at most once inside its own [close_file]. *)
Definition bp_close_file (p : Ptr) : M Sys RC := close_file 1 p.

Definition mgr_close_file (file_name : string) : M Sys RC :=
  found ← mgr_forget file_name;
  match found with
  | None => mret RC.INTERNAL
  | Some bp => bp_close_file bp;; delete_object bp;; mret RC.SUCCESS
  end.

(** ** [BufferPoolManager] *)
Definition MEM_POOL_ITEM_NUM : Z := 20.
Definition DEFAULT_ITEM_NUM_PER_POOL : Z := 128.

Definition manager_frames (memory_size : Z) : Z :=
  let memory_size := if memory_size <=? 0 then MEM_POOL_ITEM_NUM * DEFAULT_ITEM_NUM_PER_POOL * BP_PAGE_SIZE
                     else memory_size in
  Z.max (Z.quot memory_size BP_PAGE_SIZE) 1.

(** The constructor, then [init]; the operating system and the log are given. *)
Definition new_manager (memory_size : Z) (policy : P) (t : PageIOBackendType) (os : OS) (log : L)
    (dblwr_buffer : DoubleWriteBuffer) : option Sys :=
  '(_, m) ← fm_init 1 (manager_frames memory_size) (new_frame_manager policy);
  Some (m, mkWorld os log ∅ 0 ∅ ∅ 1 t dblwr_buffer).

Definition mgr_init (dblwr_buffer : DoubleWriteBuffer) : M Sys RC :=
  on_world (set_dblwr dblwr_buffer);; mret RC.SUCCESS.

(** The first page of a new file. *)
Definition initial_header (id : Z) : option (list Z) :=
  d ← set_i32 (data zero_page) 8 1;
  d ← set_i32 d 4 1;
  d ← set_i32 d 0 id;
  bm ← Bitmap.byte_at (hdr_bitmap d) 0;
  Some (hdr_set_bitmap d (<[0%nat := swrap 8 (Z.lor bm 1)]> (hdr_bitmap d))).

Definition create_file (file_name : string) : M Sys RC :=
  fd ← on_os (sys_open file_name true true);
  if fd <? 0 then mret RC.SCHEMA_DB_EXIST
  else
    on_os (sys_close fd);;
    fd ← on_os (sys_open file_name false false);
    if fd <? 0 then mret RC.IOERR_ACCESS
    else
      w ← world;
      let id := next_buffer_pool_id_ w in
      on_world (set_next_id (swrap 32 (id + 1)));;
      d ← deref (initial_header id);
      let t := create_page_io_backend (io_backend_type_ w) in
      write_start ← on_os clock_now;
      rc ← on_os (io_write_page t fd BP_HEADER_PAGE (set_data d zero_page));
      now ← on_os clock_now;
      if bool_decide (rc ≠ RC.SUCCESS) then on_os (sys_close fd);; mret rc
      else
        global_stat (record_disk_write BP_PAGE_SIZE (now - write_start));;
        on_os (sys_close fd);;
        mret RC.SUCCESS.

Definition mgr_open_file (file_name : string) : M Sys (RC * option Ptr) :=
  w ← world;
  if bool_decide (is_Some (buffer_pools_ w !! file_name)) then mret (RC.BUFFERPOOL_OPEN, None)
  else
    let p := w_next w in
    on_world (λ w, set_next (p + 1) (set_pools (<[p := new_disk_buffer_pool (io_backend_type_ w)]> (w_pools w)) w));;
    rc ← open_file p file_name;
    if bool_decide (rc ≠ RC.SUCCESS) then
      bp_close_file p;; delete_object p;; mret (rc, None)
    else
      id ← bp_id p;
      on_world (λ w, if next_buffer_pool_id_ w <=? id then set_next_id (swrap 32 (id + 1)) w else w);;
      on_world (λ w, set_names (<[file_name := p]> (buffer_pools_ w)) w);;
      on_world (λ w, match id_to_buffer_pools_ w !! id with
                     | Some _ => w
                     | None => set_ids (<[id := p]> (id_to_buffer_pools_ w)) w
                     end);;
      mret (RC.SUCCESS, Some p).

Definition mgr_snapshot : M Sys BufferPoolSnapshot :=
  '(m, w) ← fetch;
  r ← deref (fm_snapshot m (-1));
  mret (mkBufferPoolSnapshot (sn_capacity r) (sn_used_frames r) (sn_free_frames r) (sn_pinned_frames r)
          (sn_dirty_frames r) (sn_replacement_policy r) (page_io_backend_name (io_backend_type_ w)) (sn_file_name r)
          (sn_buffer_pool_id r) (sn_stats r) (sn_frames r)).

(** The destructor: the map of names is emptied first, so that the nested
    [close_file] calls find nothing in it. *)
Fixpoint destroy_pools (l : list Ptr) : M Sys unit :=
  match l with
  | [] => mret tt
  | p :: l => bp_close_file p;; delete_object p;; destroy_pools l
  end.

Definition mgr_destroy : M Sys unit :=
  w ← world;
  on_world (set_names ∅);;
  destroy_pools (map_to_list (buffer_pools_ w)).*2.
End disk_buffer_pool.
