(* ===== verification/StorageSafety.v ===== *)
(** * What the stored pages are

    The pages of the open files as the double write buffer and the paged files
    hold them together, and the contract of [DoubleWriteBuffer::add_page] for
    both implementations: the page becomes the stored one and no other stored
    page changes.  The theorems here assume system calls that are at worst short
    ([benign]). *)

From S2P Require Import Prelude Types Bytes Crc Os PageIO Bitmap LruCache MemPool Stats Latch Frame Replacement FrameManager BufferPool DoubleWrite DiskBufferPool.
From stdpp Require Import sorting.
Local Open Scope Z_scope.

Section storage.
Context {P L : Type} `{!ReplacementPolicy P} `{!LogHandler L} `{HOrd : HashOrder}.
Notation World := (World L).
Notation Sys := (Sys L P).
Implicit Types (w : World) (id : Z) (pn : PageNum) (m : BPFrameManager (P:=P)).

(** ** The stored pages *)
Definition file_content w id : option (list Z) :=
  p ← id_to_buffer_pools_ w !! id; b ← w_pools w !! p; os_files (w_os w) !! file_name_ b.
Definition disk_page w id pn : option Page := c ← file_content w id; file_page c pn.

Definition dw_entry w (k : DoubleWritePageKey) : option DoubleWritePage :=
  match dblwr_buffer_ w with DiskDblwr d => dblwr_pages_ d !! k ≫= (λ o, o) | VacuousDblwr => None end.

(** What reading a page that is not cached returns. *)
Definition stored w id pn : option Page :=
  match dw_entry w (mkDwKey id pn) with
  | Some o => Some (dw_page o)
  | None => disk_page w id pn
  end.

(** ** Worlds with the same open files *)
Definition dw_fd w : option Z :=
  match dblwr_buffer_ w with DiskDblwr d => Some (dw_file_desc d) | VacuousDblwr => None end.

Record extends w w' : Prop := {
  ex_ids : id_to_buffer_pools_ w' = id_to_buffer_pools_ w;
  ex_names : buffer_pools_ w' = buffer_pools_ w;
  ex_next : w_next w' = w_next w;
  ex_next_id : next_buffer_pool_id_ w' = next_buffer_pool_id_ w;
  ex_type : io_backend_type_ w' = io_backend_type_ w;
  ex_pools : ∀ p, ∃ s, w_pools w' !! p = set_bp_stats s <$> w_pools w !! p;
  ex_dw : dw_fd w' = dw_fd w;
  ex_fds : ∀ fd, fst <$> os_fds (w_os w') !! fd = fst <$> os_fds (w_os w) !! fd;
  ex_wf : os_wf (w_os w) → os_wf (w_os w');
  ex_benign : benign (os_script (w_os w)) → benign (os_script (w_os w'))
}.

Lemma set_bp_stats_id b : set_bp_stats (bp_stats b) b = b.
Proof. by destruct b. Qed.

Lemma pools_same_refl w p : ∃ s, w_pools w !! p = set_bp_stats s <$> w_pools w !! p.
Proof.
  destruct (w_pools w !! p) as [b|]; [exists (bp_stats b)|by exists zero_stats]. cbn. by rewrite set_bp_stats_id.
Qed.

#[global] Instance extends_refl : Reflexive extends.
Proof. intros w. split; auto using pools_same_refl. Qed.

#[global] Instance extends_trans : Transitive extends.
Proof.
  intros w1 w2 w3 [] []. split; try congruence; auto.
  intros p. destruct (ex_pools0 p) as [s1 E1], (ex_pools1 p) as [s2 E2]. exists s2. rewrite E2, E1.
  by destruct (w_pools w1 !! p).
Qed.

(** The files of the open paged files are distinct from each other and from the
    shared file of the double write buffer. *)
Record files_ok w : Prop := {
  fo_os : os_wf (w_os w);
  fo_pool : ∀ id p, id_to_buffer_pools_ w !! id = Some p → ∃ b off,
    w_pools w !! p = Some b ∧ buffer_pool_id_ b = id ∧ os_fds (w_os w) !! file_desc_ b = Some (file_name_ b, off);
  fo_inj : ∀ id1 id2 p1 p2 b1 b2,
    id_to_buffer_pools_ w !! id1 = Some p1 → id_to_buffer_pools_ w !! id2 = Some p2 →
    w_pools w !! p1 = Some b1 → w_pools w !! p2 = Some b2 → file_name_ b1 = file_name_ b2 → id1 = id2;
  fo_dw : ∀ fd, dw_fd w = Some fd → ∃ dn off, os_fds (w_os w) !! fd = Some (dn, off) ∧
    ∀ id p b, id_to_buffer_pools_ w !! id = Some p → w_pools w !! p = Some b → file_name_ b ≠ dn
}.

Lemma extends_pool w w' p b' :
  extends w w' → w_pools w' !! p = Some b' → ∃ b s, w_pools w !! p = Some b ∧ b' = set_bp_stats s b.
Proof.
  intros X E. destruct (ex_pools _ _ X p) as [s Es]. rewrite E in Es. destruct (w_pools w !! p) as [b|]; [|done].
  cbn in Es. injection Es as ->. eauto.
Qed.

Lemma extends_pool_1 w w' p b :
  extends w w' → w_pools w !! p = Some b → ∃ s, w_pools w' !! p = Some (set_bp_stats s b).
Proof. intros X E. destruct (ex_pools _ _ X p) as [s Es]. rewrite E in Es. eauto. Qed.

Lemma extends_fd w w' fd name off :
  extends w w' → os_fds (w_os w) !! fd = Some (name, off) → ∃ off', os_fds (w_os w') !! fd = Some (name, off').
Proof.
  intros X E. pose proof (ex_fds _ _ X fd) as H. rewrite E in H. cbn in H.
  destruct (os_fds (w_os w') !! fd) as [[n o]|]; [|done]. cbn in H. injection H as ->. eauto.
Qed.

Lemma extends_files_ok w w' : files_ok w → extends w w' → files_ok w'.
Proof.
  intros [H1 H2 H3 H4] X. split.
  - by apply X.
  - intros id p Hid. rewrite (ex_ids _ _ X) in Hid. destruct (H2 id p Hid) as (b & off & Hb & Hbi & Hfd).
    destruct (extends_pool_1 _ _ _ _ X Hb) as [s Hs]. destruct (extends_fd _ _ _ _ _ X Hfd) as [off' Ho].
    exists (set_bp_stats s b), off'. done.
  - intros id1 id2 p1 p2 b1 b2 E1 E2 E3 E4. rewrite (ex_ids _ _ X) in E1, E2.
    destruct (extends_pool _ _ _ _ X E3) as (c1 & s1 & Hc1 & ->).
    destruct (extends_pool _ _ _ _ X E4) as (c2 & s2 & Hc2 & ->). intros E5.
    exact (H3 _ _ _ _ _ _ E1 E2 Hc1 Hc2 E5).
  - intros fd Hfd. rewrite (ex_dw _ _ X) in Hfd. destruct (H4 fd Hfd) as (dn & off & Ho & Hn).
    destruct (extends_fd _ _ _ _ _ X Ho) as [off' Ho']. exists dn, off'. split; [done|].
    intros id p b Hid Hb. rewrite (ex_ids _ _ X) in Hid.
    destruct (extends_pool _ _ _ _ X Hb) as (c & s & Hc & ->). exact (Hn _ _ _ Hid Hc).
Qed.

(** ** Elementary steps *)
Lemma on_os_eq {A} (op : M OS A) m w a s :
  op (w_os w) = Some (a, s) → on_os op (m, w) = Some (a, (m, set_os s w)).
Proof. intros E. unfold on_os. by rewrite E. Qed.

Lemma clock_now_ok s :
  ∃ t s', clock_now s = Some (t, s') ∧ os_files s' = os_files s ∧ os_fds s' = os_fds s ∧ os_script s' = os_script s.
Proof. unfold clock_now. mstep. destruct (os_ticks s) as [|t l]; eexists _, _; done. Qed.

Lemma set_os_extends w s :
  (∀ fd, fst <$> os_fds s !! fd = fst <$> os_fds (w_os w) !! fd) → (os_wf (w_os w) → os_wf s) →
  (benign (os_script (w_os w)) → benign (os_script s)) → extends w (set_os s w).
Proof. intros H1 H2 H3. split; cbn; auto using pools_same_refl. Qed.

Lemma clock_ok m w :
  ∃ t s, on_os clock_now (m, w) = Some (t, (m, set_os s w)) ∧ extends w (set_os s w) ∧
    os_files s = os_files (w_os w).
Proof.
  destruct (clock_now_ok (w_os w)) as (t & s & E & H1 & H2 & H3). exists t, s. split_and!; [by apply on_os_eq| |done].
  apply set_os_extends; [intros fd; by rewrite H2| |by rewrite H3]. unfold os_wf. by rewrite H1, H2.
Qed.

Lemma world_eq m w : world (m, w) = Some (w, (m, w)).
Proof. done. Qed.

Lemma pool_at_eq p b m w : w_pools w !! p = Some b → pool_at p (m, w) = Some (b, (m, w)).
Proof. intros E. unfold pool_at, world. mstep. by rewrite E. Qed.

Lemma pool_stat_ok p b f m w :
  w_pools w !! p = Some b →
  ∃ w', pool_stat p f (m, w) = Some (tt, (m, w')) ∧ extends w w' ∧ w_os w' = w_os w ∧ w_log w' = w_log w ∧
    dblwr_buffer_ w' = dblwr_buffer_ w.
Proof.
  intros E. unfold pool_stat, on_pool. rewrite (exec (pool_at_eq _ _ _ _ E)).
  eexists. split; [reflexivity|]. split_and!; [|done..]. split; cbn; try done.
  intros q. destruct (decide (q = p)) as [->|Hne].
  - rewrite lookup_insert_eq, E. by eexists.
  - rewrite lookup_insert_ne by done. apply pools_same_refl.
Qed.

(** Counters other than those of pinned and dirty frames. *)
Definition quiet (s s' : BufferPoolStats) : Prop :=
  s' current_pinned_frames = s current_pinned_frames ∧ s' dirty_pages_current = s dirty_pages_current.

#[global] Instance quiet_refl : Reflexive quiet.
Proof. done. Qed.
#[global] Instance quiet_trans : Transitive quiet.
Proof. intros ??? [] []. split; congruence. Qed.

Lemma global_stat_eq f m w : global_stat f (m, w) = Some (tt, (set_fm_stats (f (fm_stats m)) m, w)).
Proof. done. Qed.

Lemma record_disk_write_quiet a b s : quiet s (record_disk_write a b s).
Proof. by split; stat_eval. Qed.
Lemma record_disk_read_quiet a b s : quiet s (record_disk_read a b s).
Proof. by split; stat_eval. Qed.
Lemma record_flush_quiet a b s : quiet s (record_flush a b s).
Proof. by split; destruct a; stat_eval. Qed.
Lemma record_request_quiet a s : quiet s (record_page_request a s).
Proof. by split; stat_eval. Qed.
Lemma record_page_allocation_quiet s : quiet s (record_page_allocation s).
Proof. by split; stat_eval. Qed.
Lemma record_no_buffer_quiet s : quiet s (record_no_buffer_failure s).
Proof. by split; stat_eval. Qed.

(** ** Writing to a paged file *)
Lemma file_content_ext w w' id :
  extends w w' → os_files (w_os w') = os_files (w_os w) → file_content w' id = file_content w id.
Proof.
  intros X Hf. unfold file_content. rewrite (ex_ids _ _ X), Hf. destruct (id_to_buffer_pools_ w !! id) as [p|]; [|done].
  cbn. destruct (ex_pools _ _ X p) as [s ->]. by destruct (w_pools w !! p).
Qed.

Lemma disk_page_ext w w' id pn :
  extends w w' → os_files (w_os w') = os_files (w_os w) → disk_page w' id pn = disk_page w id pn.
Proof. intros X Hf. unfold disk_page. by rewrite (file_content_ext w w'). Qed.

Lemma file_content_put w w' name c' id p b :
  extends w w' → os_files (w_os w') = <[name := c']> (os_files (w_os w)) →
  id_to_buffer_pools_ w !! id = Some p → w_pools w !! p = Some b →
  file_content w' id = if decide (file_name_ b = name) then Some c' else file_content w id.
Proof.
  intros X Hf Hid Hb. unfold file_content. rewrite (ex_ids _ _ X), Hf, Hid. cbn.
  destruct (ex_pools _ _ X p) as [s ->]. rewrite Hb. cbn. case_decide as E.
  - rewrite E. apply lookup_insert_eq.
  - by rewrite lookup_insert_ne.
Qed.

(** A page of one file has been written. *)
Record wrote w id pn (page : Page) w' : Prop := {
  wt_ext : extends w w';
  wt_log : w_log w' = w_log w;
  wt_dw : dblwr_buffer_ w' = dblwr_buffer_ w;
  wt_page : disk_page w' id pn = Some page;
  wt_other : ∀ id' pn' q, (id', pn') ≠ (id, pn) → disk_page w id' pn' = Some q → disk_page w' id' pn' = Some q
}.

Lemma disk_page_Some w id pn q :
  disk_page w id pn = Some q → ∃ p b c, id_to_buffer_pools_ w !! id = Some p ∧ w_pools w !! p = Some b ∧
    os_files (w_os w) !! file_name_ b = Some c ∧ file_page c pn = Some q.
Proof.
  unfold disk_page, file_content. destruct (id_to_buffer_pools_ w !! id) as [p|] eqn:Hp; [|done]. cbn.
  destruct (w_pools w !! p) as [b|] eqn:Hb; [|done]. cbn.
  destruct (os_files (w_os w) !! file_name_ b) as [c|] eqn:Hc; [|done]. cbn. intros Hq.
  exists p, b, c. done.
Qed.

Lemma io_write_wrote w id p b pn page :
  files_ok w → id_to_buffer_pools_ w !! id = Some p → w_pools w !! p = Some b → 0 ≤ pn → page_wf page →
  benign (os_script (w_os w)) →
  ∃ s, io_write_page (io_backend_ b) (file_desc_ b) pn page (w_os w) = Some (RC.SUCCESS, s) ∧
    wrote w id pn page (set_os s w).
Proof.
  intros F Hid Hb Hpn W Hbe. destruct (fo_pool _ F id p Hid) as (b0 & off & Hb0 & Hbi & Hfd).
  rewrite Hb in Hb0. injection Hb0 as <-. pose proof (fo_os _ F) as Hos.
  destruct (proj2 Hos _ _ _ Hfd) as [_ [c Hc]].
  destruct (io_write_page_ok (w_os w) _ _ off c Hos Hfd Hc (io_backend_ b) pn page Hpn) as (rc & s & E & Hw).
  destruct (write_result_files _ _ _ _ _ _ _ _ _ _ Hos Hfd Hc Hpn W Hw)
    as (c' & off' & Hf & Hd & Hwf & _ & Hsuf & Hok & Hoth).
  assert (rc = RC.SUCCESS) as -> by (by destruct Hw as (? & ? & ? & _ & _ & _ & _ & _ & _ & Hs); apply Hs).
  specialize (Hok eq_refl). exists s. split; [done|].
  assert (extends w (set_os s w)) as X.
  { apply set_os_extends; [|done|by apply benign_suffix]. intros fd. rewrite Hd.
    destruct (decide (fd = file_desc_ b)) as [->|Hne]; [by rewrite lookup_insert_eq, Hfd|by rewrite lookup_insert_ne]. }
  split; [done|done|done| |].
  - unfold disk_page. rewrite (file_content_put _ _ _ _ id p b X Hf Hid Hb), decide_True by done. done.
  - intros id' pn' q Hne Hq. pose proof Hq as Hq0. apply disk_page_Some in Hq as (p' & b' & c0 & Hid' & Hb' & Hc0 & Hq).
    unfold disk_page. rewrite (file_content_put _ _ _ _ id' p' b' X Hf Hid' Hb'). case_decide as En.
    + assert (id' = id) as -> by exact (fo_inj _ F _ _ _ _ _ _ Hid' Hid Hb' Hb En).
      cbn. apply Hoth; [congruence|]. rewrite En, Hc in Hc0. by injection Hc0 as ->.
    + done.
Qed.

Lemma wrote_ext_r w id pn page w1 w2 :
  wrote w id pn page w1 → extends w1 w2 → os_files (w_os w2) = os_files (w_os w1) → w_log w2 = w_log w1 →
  dblwr_buffer_ w2 = dblwr_buffer_ w1 → wrote w id pn page w2.
Proof.
  intros [] X Hf Hl Hd. split; [by etrans|congruence|congruence| |].
  - by rewrite (disk_page_ext w1 w2).
  - intros id' pn' q Hne Hq. rewrite (disk_page_ext w1 w2) by done. auto.
Qed.

Lemma wrote_ext_l w0 w id pn page w1 :
  extends w0 w → os_files (w_os w) = os_files (w_os w0) → w_log w = w_log w0 →
  dblwr_buffer_ w = dblwr_buffer_ w0 → wrote w id pn page w1 → wrote w0 id pn page w1.
Proof.
  intros X Hf Hl Hd []. split; [by etrans|congruence|congruence|done|].
  intros id' pn' q Hne Hq. apply wt_other0; [done|]. by rewrite (disk_page_ext w0 w).
Qed.

Lemma write_page_ok m w id p pn page :
  files_ok w → id_to_buffer_pools_ w !! id = Some p → 0 ≤ pn → page_wf page → benign (os_script (w_os w)) →
  ∃ s' w', write_page p pn page (m, w) = Some (RC.SUCCESS, (set_fm_stats s' m, w')) ∧
    quiet (fm_stats m) s' ∧ wrote w id pn page w'.
Proof.
  intros F Hid Hpn W Hbe. destruct (fo_pool _ F id p Hid) as (b & _ & Hb & _ & _). unfold write_page.
  rewrite (exec (pool_at_eq _ _ _ _ Hb)).
  destruct (clock_ok m w) as (t1 & s1 & E1 & X1 & Hf1). rewrite (exec E1).
  destruct (io_write_wrote (set_os s1 w) id p b pn page) as (s2 & E2 & Hw);
    [by eapply extends_files_ok|done|done|done|done|by apply (ex_benign _ _ X1)|].
  rewrite (exec (on_os_eq _ m _ _ _ E2)).
  destruct (clock_ok m (set_os s2 (set_os s1 w))) as (t3 & s3 & E3 & X3 & Hf3).
  rewrite (exec E3). cbv zeta. rewrite bool_decide_eq_false_2 by (by intros []).
  rewrite (exec (global_stat_eq _ _ _)).
  edestruct (pool_stat_ok p b (record_disk_write BP_PAGE_SIZE (t3 - t1))) as (w4 & E4 & X4 & H4a & H4b & H4c);
    [|rewrite (exec E4)]; [exact Hb|].
  eexists _, w4. split; [reflexivity|]. split; [apply record_disk_write_quiet|].
  eapply wrote_ext_r; [|exact X4|by rewrite H4a|by rewrite H4b|by rewrite H4c].
  eapply wrote_ext_r; [|exact X3|done|done|done].
  eapply wrote_ext_l; [exact X1|done|done|done|done].
Qed.

(** ** Writing to the shared file *)
Lemma dblwr_eq m w d : dblwr_buffer_ w = DiskDblwr d → dblwr (m, w) = Some (d, (m, w)).
Proof. intros E. unfold dblwr, world. mstep. by rewrite E. Qed.

Definition with_pages (d : DiskDoubleWriteBuffer) (pages : gmap DoubleWritePageKey (option DoubleWritePage)) :=
  mkDblwr (dw_file_desc d) (max_pages_ d) (header_page_cnt d) pages.

Lemma set_dw_object_eq m w d k o :
  dblwr_buffer_ w = DiskDblwr d →
  set_dw_object k o (m, w) = Some (tt, (m, set_dblwr (DiskDblwr (with_pages d (<[k := o]> (dblwr_pages_ d)))) w)).
Proof.
  intros E. unfold set_dw_object. rewrite (exec (dblwr_eq _ _ _ E)).
  unfold set_dw_pages. by rewrite (exec (dblwr_eq _ _ _ E)).
Qed.

Lemma set_dblwr_extends w d d' :
  dblwr_buffer_ w = DiskDblwr d → dw_file_desc d' = dw_file_desc d → extends w (set_dblwr (DiskDblwr d') w).
Proof. intros E H. split; cbn; auto using pools_same_refl. unfold dw_fd. cbn. by rewrite E, H. Qed.

(** The world after bytes were written to the shared file. *)
Record spilled w w' : Prop := {
  sp_ext : extends w w';
  sp_log : w_log w' = w_log w;
  sp_dw : dblwr_buffer_ w' = dblwr_buffer_ w;
  sp_disk : ∀ id pn, disk_page w' id pn = disk_page w id pn
}.

#[global] Instance spilled_refl : Reflexive spilled.
Proof. by split. Qed.
#[global] Instance spilled_trans : Transitive spilled.
Proof. intros ??? [] []. split; [by etrans|congruence|congruence|intros; congruence]. Qed.

Lemma spill_ok m w d off bs :
  files_ok w → dblwr_buffer_ w = DiskDblwr d → benign (os_script (w_os w)) → 0 ≤ off → chars bs →
  ∃ w1 w', on_os (sys_lseek (dw_file_desc d) off) (m, w) = Some (true, (m, w1)) ∧
    on_os (writen (dw_file_desc d) bs) (m, w1) = Some (0, (m, w')) ∧ spilled w w'.
Proof.
  intros F Hd Hbe Ho Hbs. pose proof (fo_os _ F) as Hos.
  destruct (fo_dw _ F (dw_file_desc d)) as (dn & o & Hfd & Hn); [unfold dw_fd; by rewrite Hd|].
  destruct (proj2 Hos _ _ _ Hfd) as [Ho0 [c Hc]].
  assert (sys_lseek (dw_file_desc d) off (w_os w) =
    Some (true, os_at (w_os w) (dw_file_desc d) dn c off (next_script (os_script (w_os w))))) as E1.
  { pose proof (sys_lseek_eq (w_os w) (dw_file_desc d) dn c o (os_script (w_os w)) off Ho) as E.
    rewrite os_at_eq in E by done. rewrite E.
    destruct (head (os_script (w_os w))) as [[k|e]|] eqn:Hh; [done| |done]. by apply benign_no_errno in Hh. }
  set (s1 := os_at _ _ _ _ _ _) in E1.
  destruct (writen_ok s1 (dw_file_desc d) dn off c) with (buf := bs) as (ret & s2 & E2 & [(x & l & Es2 & Hx & Hl & Hr) Hcalm]);
    [apply lookup_insert_eq|apply lookup_insert_eq|done|].
  assert (benign (os_script s1)) as Hb1 by (by apply benign_next).
  assert (ret = 0) as -> by (by apply Hcalm). specialize (proj1 Hr eq_refl) as ->.
  unfold s1 in Es2. rewrite os_at_at in Es2.
  eexists _, _. split_and!; [by apply on_os_eq|by apply on_os_eq|].
  change (set_os s2 (set_os s1 w)) with (set_os s2 w). assert (extends w (set_os s2 w)) as X.
  { rewrite Es2. apply set_os_extends; cbn.
    - intros fd. destruct (decide (fd = dw_file_desc d)) as [->|Hne]; [by rewrite lookup_insert_eq, Hfd|by rewrite lookup_insert_ne].
    - intros _. apply os_at_wf; [done| |lia]. apply file_put_chars; [by eapply (proj1 Hos)|done].
    - intros _. eapply benign_suffix; [exact Hl|done]. }
  split; [done|done|done|]. intros id pn. unfold disk_page. f_equal.
  destruct (id_to_buffer_pools_ w !! id) as [p|] eqn:Hid; [|unfold file_content; by rewrite (ex_ids _ _ X), Hid].
  destruct (fo_pool _ F id p Hid) as (b & _ & Hb & _).
  erewrite (file_content_put w _ dn _ id p b X); [|by rewrite Es2|done|done].
  rewrite decide_False; [done|]. by eapply Hn.
Qed.

(** What the code relies on for an entry of the buffer. *)
Record entry_ok w (k : DoubleWritePageKey) (o : DoubleWritePage) : Prop := {
  eo_key : dw_key o = k;
  eo_valid : valid o = true;
  eo_page : page_wf (dw_page o);
  eo_num : 0 ≤ dk_page_num k;
  eo_reg : is_Some (id_to_buffer_pools_ w !! dk_buffer_pool_id k);
  eo_index : 0 ≤ page_index o < 200000
}.

Lemma entry_ok_ext w w' k o : extends w w' → entry_ok w k o → entry_ok w' k o.
Proof. intros X []. split; try done. by rewrite (ex_ids _ _ X). Qed.

Lemma dw_bytes_chars o : page_wf (dw_page o) → chars (dw_bytes o).
Proof.
  intros W%page_bytes_chars. unfold dw_bytes. set (l := page_bytes _) in *. clearbody l.
  repeat (apply Forall_app; split); try apply le_bytes_chars; [|done].
  repeat constructor; try (by vm_compute); destruct (valid o); by vm_compute.
Qed.

Lemma slot_offset_range i : 0 ≤ i < 200000 → swrap 32 (slot_offset i) = slot_offset i ∧ 0 ≤ slot_offset i.
Proof.
  intros Hi. unfold slot_offset. change DW_PAGE_SIZE with 8208. change DW_HEADER_SIZE with 4.
  split; [|lia]. apply swrap_id; [lia|]. unfold in_srange. change (2 ^ (32 - 1)) with 2147483648. lia.
Qed.

Lemma write_page_internal_ok m w d o :
  files_ok w → dblwr_buffer_ w = DiskDblwr d → benign (os_script (w_os w)) →
  page_wf (dw_page o) → 0 ≤ page_index o < 200000 →
  ∃ w', write_page_internal o (m, w) = Some (RC.SUCCESS, (m, w')) ∧ spilled w w'.
Proof.
  intros F Hd Hbe W Hi. destruct (slot_offset_range _ Hi) as [Ho Ho0].
  destruct (spill_ok m w d (slot_offset (page_index o)) (dw_bytes o) F Hd Hbe Ho0 (dw_bytes_chars _ W))
    as (w1 & w' & E1 & E2 & Hs).
  exists w'. split; [|done]. unfold write_page_internal. rewrite (exec (dblwr_eq _ _ _ Hd)).
  cbv zeta. rewrite Ho, (exec E1). cbn [negb]. by rewrite (exec E2).
Qed.

Lemma dw_write_page_ok m w k o :
  files_ok w → entry_ok w k o → benign (os_script (w_os w)) →
  ∃ s' w', dw_write_page o (m, w) = Some (RC.SUCCESS, (set_fm_stats s' m, w')) ∧
    quiet (fm_stats m) s' ∧ wrote w (dk_buffer_pool_id k) (dk_page_num k) (dw_page o) w'.
Proof.
  intros F [Hk Hv W Hn [p Hp] Hi] Hbe. unfold dw_write_page. rewrite Hv, Hk. cbn [negb].
  erewrite bind_run by (unfold get_buffer_pool, world; mstep; rewrite Hp; reflexivity). cbv beta iota.
  erewrite (bind_run (assertb _)) by done. exec_deref.
  by apply write_page_ok.
Qed.

(** ** [flush_page]: everything buffered reaches its file *)
Lemma dw_object_eq m w d k o :
  dblwr_buffer_ w = DiskDblwr d → dblwr_pages_ d !! k = Some (Some o) → dw_object k (m, w) = Some (o, (m, w)).
Proof.
  intros Hd Hk. unfold dw_object. rewrite (exec (dblwr_eq _ _ _ Hd)). mstep. by rewrite Hk.
Qed.

Lemma flush_loop_ok keys m w d :
  files_ok w → dblwr_buffer_ w = DiskDblwr d → benign (os_script (w_os w)) → NoDup keys →
  (∀ k, k ∈ keys → ∃ o, dblwr_pages_ d !! k = Some (Some o) ∧ entry_ok w k o) →
  ∃ s' w' pages', flush_loop keys (m, w) = Some (RC.SUCCESS, (set_fm_stats s' m, w')) ∧
    quiet (fm_stats m) s' ∧ extends w w' ∧ w_log w' = w_log w ∧ dblwr_buffer_ w' = DiskDblwr (with_pages d pages') ∧
    (∀ k o, k ∈ keys → dblwr_pages_ d !! k = Some (Some o) →
       disk_page w' (dk_buffer_pool_id k) (dk_page_num k) = Some (dw_page o)) ∧
    (∀ id pn q, mkDwKey id pn ∉ keys → disk_page w id pn = Some q → disk_page w' id pn = Some q).
Proof.
  revert m w d. induction keys as [|k keys IH]; intros m w d F Hd Hbe Hnd Hk.
  { exists (fm_stats m), w, (dblwr_pages_ d). split_and!; try done.
    - by destruct m.
    - by destruct d.
    - intros k o Hk'. by apply not_elem_of_nil in Hk'. }
  apply list.NoDup_cons in Hnd as [Hk0 Hnd]. destruct (Hk k) as (o & Ho & Hok); [left|].
  cbn [flush_loop]. rewrite (exec (dw_object_eq _ _ _ _ _ Hd Ho)).
  destruct (dw_write_page_ok m w k o F Hok Hbe) as (s1 & w1 & E1 & Q1 & [X1 L1 D1 P1 O1]).
  rewrite (exec E1). rewrite bool_decide_eq_false_2 by (by intros []). cbv zeta.
  rewrite Hd in D1. rewrite (exec (set_dw_object_eq _ _ _ _ _ D1)).
  set (w2 := set_dblwr _ w1). assert (extends w1 w2) as X2 by (eapply set_dblwr_extends; [exact D1|reflexivity]).
  assert (files_ok w2) as F2 by (eapply extends_files_ok; [exact F|by etrans]).
  edestruct (write_page_internal_ok (set_fm_stats s1 m) w2 _ (set_valid false o) F2 eq_refl) as (w3 & E3 & [X3 L3 D3 K3]);
    [apply X2, X1, Hbe|apply Hok|apply Hok|].
  rewrite (exec E3). rewrite (exec (set_dw_object_eq _ _ _ _ _ D3)).
  set (d4 := with_pages _ _). set (w4 := set_dblwr _ w3).
  assert (extends w3 w4) as X4 by (eapply set_dblwr_extends; [exact D3|reflexivity]).
  assert (extends w w4) as X by (etrans; [exact X1|]; etrans; [exact X2|]; by etrans).
  edestruct (IH (set_fm_stats s1 m) w4 d4) as (s' & w' & pages' & E & Q & X' & L' & D' & Hin & Hout);
    [exact (extends_files_ok _ _ F X)|reflexivity|exact (ex_benign _ _ X Hbe)|done| |].
  { intros k' Hk'. destruct (Hk k') as (o' & Ho' & Hok'); [by right|]. exists o'.
    assert (k' ≠ k) by (by intros ->). cbn. rewrite !lookup_insert_ne by done. split; [done|].
    by eapply entry_ok_ext. }
  assert (∀ id pn, disk_page w4 id pn = disk_page w1 id pn) as Hd4.
  { intros id pn. change (disk_page w4 id pn) with (disk_page w3 id pn). by rewrite K3. }
  exists s', w', pages'. split_and!.
  - exact E.
  - by etrans.
  - by etrans.
  - rewrite L'. cbn. by rewrite L3, <-L1.
  - exact D'.
  - intros k' o' [->|Hk']%elem_of_cons Ho'.
    + rewrite Ho in Ho'. injection Ho' as <-. apply Hout; [by destruct k|]. by rewrite Hd4.
    + apply Hin; [done|]. assert (k' ≠ k) by (by intros ->). cbn. by rewrite !lookup_insert_ne.
  - intros id pn q [Hne Hn]%not_elem_of_cons Hq. apply Hout; [done|]. rewrite Hd4. apply O1; [|done].
    intros [= -> ->]. by destruct k.
Qed.

(** The buffer as the methods find it. *)
Record dw_ok w (d : DiskDoubleWriteBuffer) : Prop := {
  do_max : 0 < max_pages_ d ≤ 200000;
  do_size : Z.of_nat (size (dblwr_pages_ d)) < max_pages_ d;
  do_entry : ∀ k o, dblwr_pages_ d !! k = Some o → ∃ o', o = Some o' ∧ entry_ok w k o'
}.

Definition world_ok w : Prop :=
  files_ok w ∧ benign (os_script (w_os w)) ∧
  match dblwr_buffer_ w with DiskDblwr d => dw_ok w d | VacuousDblwr => True end.

Lemma stored_disk w d id pn :
  dblwr_buffer_ w = DiskDblwr d →
  stored w id pn = match dblwr_pages_ d !! mkDwKey id pn ≫= (λ o, o) with
                   | Some o => Some (dw_page o) | None => disk_page w id pn end.
Proof. intros Hd. unfold stored, dw_entry. by rewrite Hd. Qed.

Lemma dw_flush_page_ok m w d :
  files_ok w → dblwr_buffer_ w = DiskDblwr d → benign (os_script (w_os w)) → 0 < max_pages_ d ≤ 200000 →
  (∀ k o, dblwr_pages_ d !! k = Some o → ∃ o', o = Some o' ∧ entry_ok w k o') →
  ∃ s' w', dw_flush_page (m, w) = Some (RC.SUCCESS, (set_fm_stats s' m, w')) ∧
    quiet (fm_stats m) s' ∧ extends w w' ∧ w_log w' = w_log w ∧ world_ok w' ∧ (∀ k, dw_entry w' k = None) ∧
    (∀ id pn q, stored w id pn = Some q → stored w' id pn = Some q).
Proof.
  intros F Hd Hbe Hmax He. unfold dw_flush_page. rewrite (exec (dblwr_eq _ _ _ Hd)).
  set (keys := hash_order _). pose proof (hash_order_perm (dom (dblwr_pages_ d))) as Hperm. fold keys in Hperm.
  assert (NoDup keys) as Hnd by (rewrite Hperm; apply NoDup_elements).
  assert (∀ k, k ∈ keys ↔ is_Some (dblwr_pages_ d !! k)) as Hin.
  { intros k. rewrite Hperm, elem_of_elements. apply elem_of_dom. }
  destruct (flush_loop_ok keys m w d F Hd Hbe Hnd) as (s' & w1 & pages' & E & Q & X & Lg & D & H1 & H2).
  { intros k [o Ho]%Hin. destruct (He k o Ho) as (o' & -> & Hok). eauto. }
  rewrite (exec E). rewrite bool_decide_eq_false_2 by (by intros []).
  unfold set_dw_pages. erewrite bind_run by (rewrite (exec (dblwr_eq _ _ _ D)); reflexivity).
  unfold set_header_cnt. erewrite bind_run by (erewrite bind_run by (by apply dblwr_eq); reflexivity).
  set (w' := set_dblwr (DiskDblwr (mkDblwr (dw_file_desc d) (max_pages_ d) 0 ∅)) w1).
  exists s', w'. split; [reflexivity|].
  assert (extends w1 w') as X' by (eapply set_dblwr_extends; [exact D|done]).
  split_and!; [done|by etrans|done| |done|].
  - split_and!; [eapply extends_files_ok; [exact F|by etrans]|exact (ex_benign _ _ X' (ex_benign _ _ X Hbe))|].
    cbn. split; cbn; [done|rewrite map_size_empty; lia|]. intros k o Hk. by rewrite lookup_empty in Hk.
  - intros id pn q. rewrite (stored_disk _ _ _ _ Hd).
    destruct (dblwr_pages_ d !! mkDwKey id pn) as [o|] eqn:Hk; cbn.
    + destruct (He _ _ Hk) as (o' & -> & Hok). cbn. intros [= <-].
      exact (H1 _ _ (proj2 (Hin _) (mk_is_Some _ _ Hk)) Hk).
    + intros Hq. apply (H2 id pn q); [|done]. rewrite Hin, Hk. by intros [].
Qed.

(** ** [add_page] *)
Record added w id pn (page : Page) w' : Prop := {
  ad_ext : extends w w';
  ad_log : w_log w' = w_log w;
  ad_ok : world_ok w';
  ad_page : stored w' id pn = Some page;
  ad_other : ∀ id' pn' q, (id', pn') ≠ (id, pn) → stored w id' pn' = Some q → stored w' id' pn' = Some q
}.

Lemma vacuous_add_page_ok m w id p pn page :
  world_ok w → dblwr_buffer_ w = VacuousDblwr → id_to_buffer_pools_ w !! id = Some p → 0 ≤ pn → page_wf page →
  ∃ s' w', write_page p pn page (m, w) = Some (RC.SUCCESS, (set_fm_stats s' m, w')) ∧
    quiet (fm_stats m) s' ∧ added w id pn page w'.
Proof.
  intros (F & Hbe & _) Hd Hid Hpn W. destruct (write_page_ok m w id p pn page F Hid Hpn W Hbe) as (s' & w' & E & Q & [X Lg D Hp Ho]).
  exists s', w'. split_and!; [done|done|]. split; [done|done| |unfold stored, dw_entry; by rewrite D, Hd|].
  - split_and!; [by eapply extends_files_ok|by apply X|]. by rewrite D, Hd.
  - unfold stored, dw_entry. rewrite D, Hd. auto.
Qed.

(** The buffer with the page put under its key. *)
Definition put_entry w (d : DiskDoubleWriteBuffer) id pn (o : DoubleWritePage) : World :=
  set_dblwr (DiskDblwr (with_pages d (<[mkDwKey id pn := Some o]> (dblwr_pages_ d)))) w.

Lemma put_entry_stored w d id pn o id' pn' :
  dblwr_buffer_ w = DiskDblwr d →
  stored (put_entry w d id pn o) id' pn' =
    if decide ((id', pn') = (id, pn)) then Some (dw_page o) else stored w id' pn'.
Proof.
  intros Hd. unfold stored, dw_entry, put_entry. cbn. rewrite Hd. case_decide as E.
  - injection E as -> ->. by rewrite lookup_insert_eq.
  - rewrite lookup_insert_ne by (intros [= -> ->]; done). done.
Qed.

Lemma spilled_stored w w' id pn : spilled w w' → stored w' id pn = stored w id pn.
Proof. intros []. unfold stored, dw_entry. by rewrite sp_dw0, sp_disk0. Qed.

Lemma put_entry_entries w d id pn o k x :
  (∀ k o, dblwr_pages_ d !! k = Some o → ∃ o', o = Some o' ∧ entry_ok w k o') → entry_ok w (mkDwKey id pn) o →
  <[mkDwKey id pn := Some o]> (dblwr_pages_ d) !! k = Some x → ∃ o', x = Some o' ∧ entry_ok w k o'.
Proof. intros He Ho [[<- <-]|[_ Hx]]%lookup_insert_Some; eauto. Qed.

(** The page is put into the buffer and into the shared file. *)
Lemma put_and_spill m w d id pn o :
  world_ok w → dblwr_buffer_ w = DiskDblwr d → entry_ok w (mkDwKey id pn) o →
  ∃ w2, set_dw_object (mkDwKey id pn) (Some o) (m, w) = Some (tt, (m, put_entry w d id pn o)) ∧
    write_page_internal o (m, put_entry w d id pn o) = Some (RC.SUCCESS, (m, w2)) ∧
    spilled (put_entry w d id pn o) w2 ∧ extends w w2 ∧ files_ok w2 ∧
    (∀ k x, <[mkDwKey id pn := Some o]> (dblwr_pages_ d) !! k = Some x → ∃ o', x = Some o' ∧ entry_ok w2 k o').
Proof.
  intros (F & Hbe & Hok) Hd Ho. rewrite Hd in Hok. set (w1 := put_entry w d id pn o).
  assert (extends w w1) as X1 by (by eapply set_dblwr_extends; [exact Hd|]).
  assert (files_ok w1) as F1 by (by eapply extends_files_ok; [exact F|]).
  destruct (write_page_internal_ok m w1 _ o F1 eq_refl) as (w2 & E2 & Hs); [apply X1, Hbe|apply Ho|apply Ho|].
  exists w2. assert (extends w w2) as X2 by (etrans; [exact X1|apply Hs]). split_and!; try done.
  - by apply set_dw_object_eq.
  - exact (extends_files_ok _ _ F X2).
  - intros k x Hx. destruct (put_entry_entries w d id pn o k x (do_entry _ _ Hok) Ho Hx) as (o' & -> & Ho').
    exists o'. split; [done|]. by eapply entry_ok_ext.
Qed.

Lemma added_put w d id pn o w2 :
  dblwr_buffer_ w = DiskDblwr d → spilled (put_entry w d id pn o) w2 → extends w w2 → world_ok w2 →
  added w id pn (dw_page o) w2.
Proof.
  intros Hd Hs X Hok. split; [done|by rewrite (sp_log _ _ Hs)|done| |].
  - rewrite (spilled_stored _ _ _ _ Hs), (put_entry_stored _ _ _ _ _ _ _ Hd). by rewrite decide_True.
  - intros id' pn' q Hne Hq. rewrite (spilled_stored _ _ _ _ Hs), (put_entry_stored _ _ _ _ _ _ _ Hd).
    by rewrite decide_False.
Qed.

(** The count of slots is raised in memory and in the shared file. *)
Definition raise_header (d : DiskDoubleWriteBuffer) (page_cnt : Z) : M Sys RC :=
  if header_page_cnt d <? page_cnt + 1 then
    set_header_cnt (swrap 32 (page_cnt + 1));;
    ok ← on_os (sys_lseek (dw_file_desc d) 0);
    if negb ok then mret RC.IOERR_SEEK
    else
      ret ← on_os (writen (dw_file_desc d) (le_bytes 4 (swrap 32 (page_cnt + 1))));
      if negb (ret =? 0) then mret RC.IOERR_WRITE else mret RC.SUCCESS
  else mret RC.SUCCESS.

Lemma raise_header_ok m w d0 d n :
  files_ok w → benign (os_script (w_os w)) → dblwr_buffer_ w = DiskDblwr d → dw_file_desc d0 = dw_file_desc d →
  ∃ w' c, raise_header d0 n (m, w) = Some (RC.SUCCESS, (m, w')) ∧ extends w w' ∧ w_log w' = w_log w ∧
    dblwr_buffer_ w' = DiskDblwr (mkDblwr (dw_file_desc d) (max_pages_ d) c (dblwr_pages_ d)) ∧
    (∀ id pn, stored w' id pn = stored w id pn).
Proof.
  intros F Hbe Hd Hfd. unfold raise_header. destruct (header_page_cnt d0 <? n + 1).
  2:{ exists w, (header_page_cnt d). split_and!; try done. rewrite Hd. by destruct d. }
  unfold set_header_cnt. erewrite bind_run by (rewrite (exec (dblwr_eq _ _ _ Hd)); reflexivity).
  set (d1 := mkDblwr _ _ _ _). set (w1 := set_dblwr (DiskDblwr d1) w).
  assert (extends w w1) as X1 by (eapply set_dblwr_extends; [exact Hd|done]).
  edestruct (spill_ok m w1 d1 0 (le_bytes 4 (swrap 32 (n + 1)))) as (w2 & w' & E1 & E2 & Hs);
    [exact (extends_files_ok _ _ F X1)|done|exact (ex_benign _ _ X1 Hbe)|done|apply le_bytes_chars|].
  change (dw_file_desc d1) with (dw_file_desc d) in E1, E2. rewrite <-Hfd in E1, E2.
  change (on_world (set_dblwr (DiskDblwr d1)) (m, w)) with (Some (tt, (m, w1))).
  exists w', (swrap 32 (n + 1)). split_and!.
  - rewrite (exec E1). cbn [negb]. by rewrite (exec E2).
  - etrans; [exact X1|apply Hs].
  - apply (sp_log _ _ Hs).
  - apply (sp_dw _ _ Hs).
  - intros id pn. rewrite (spilled_stored _ _ _ _ Hs). unfold stored, dw_entry. by rewrite Hd.
Qed.

Lemma disk_add_page_ok m w d id p pn page :
  world_ok w → dblwr_buffer_ w = DiskDblwr d → id_to_buffer_pools_ w !! id = Some p → 0 ≤ pn → page_wf page →
  ∃ s' w', disk_add_page p pn page (m, w) = Some (RC.SUCCESS, (set_fm_stats s' m, w')) ∧
    quiet (fm_stats m) s' ∧ added w id pn page w'.
Proof.
  intros Hok Hd Hid Hpn W. pose proof Hok as (F & Hbe & Hdw). rewrite Hd in Hdw.
  destruct (fo_pool _ F id p Hid) as (b & _ & Hb & Hbi & _). unfold disk_add_page.
  rewrite (exec (pool_at_eq _ _ _ _ Hb)), (exec (dblwr_eq _ _ _ Hd)), Hbi.
  cbv zeta. destruct (dblwr_pages_ d !! mkDwKey id pn) as [x|] eqn:Hk.
  - destruct (do_entry _ _ Hdw _ _ Hk) as (o & -> & Ho).
    rewrite (exec (dw_object_eq _ _ _ _ _ Hd Hk)).
    assert (entry_ok w (mkDwKey id pn) (set_dw_page page o)) as Ho' by (destruct Ho; by split).
    destruct (put_and_spill m w d id pn _ Hok Hd Ho') as (w2 & E1 & E2 & Hs & X & F2 & He).
    rewrite (exec E1), E2. exists (fm_stats m), w2. split_and!; [by destruct m|done|].
    apply (added_put w d id pn (set_dw_page page o)); [done..|].
    split_and!; [done|exact (ex_benign _ _ X Hbe)|]. rewrite (sp_dw _ _ Hs). cbn.
    split; cbn; [apply Hdw| |exact He]. rewrite map_size_insert_Some by eauto. apply Hdw.
  - set (cnt := Z.of_nat (size (dblwr_pages_ d))). set (o := mkDwPage _ _ true page).
    pose proof (do_size _ _ Hdw) as Hsz. pose proof (do_max _ _ Hdw) as Hmax. fold cnt in Hsz.
    assert (entry_ok w (mkDwKey id pn) o) as Ho.
    { split; try done. cbn. rewrite swrap_id; [lia|lia|].
      unfold in_srange. change (2 ^ (32 - 1)) with 2147483648. lia. }
    destruct (put_and_spill m w d id pn _ Hok Hd Ho) as (w2 & E1 & E2 & Hs & X & F2 & He).
    rewrite (exec E1), (exec E2). change (RC.OB_FAIL RC.SUCCESS) with false. cbv iota.
    fold (raise_header d cnt).
    destruct (raise_header_ok m w2 d (with_pages d (<[mkDwKey id pn := Some o]> (dblwr_pages_ d))) cnt)
      as (w3 & c & E3 & X3 & L3 & D3 & S3); [done|exact (ex_benign _ _ X Hbe)|exact (sp_dw _ _ Hs)|done|].
    rewrite (exec E3). rewrite bool_decide_eq_false_2 by (by intros []).
    rewrite (exec (dblwr_eq _ _ _ D3)). cbn [max_pages_ dblwr_pages_ with_pages].
    assert (extends w w3) as Xw by (by etrans). assert (files_ok w3) as F3 by exact (extends_files_ok _ _ F Xw).
    assert (stored w3 id pn = Some page ∧ ∀ id' pn' q, (id', pn') ≠ (id, pn) → stored w id' pn' = Some q → stored w3 id' pn' = Some q) as [Hp Hoth].
    { split; [|intros id' pn' q Hne Hq]; rewrite S3, (spilled_stored _ _ _ _ Hs), (put_entry_stored _ _ _ _ _ _ _ Hd);
        [by rewrite decide_True|by rewrite decide_False]. }
    assert (∀ k x, <[mkDwKey id pn := Some o]> (dblwr_pages_ d) !! k = Some x → ∃ o', x = Some o' ∧ entry_ok w3 k o') as He3.
    { intros k x Hx. destruct (He k x Hx) as (o' & -> & Ho'). exists o'. split; [done|]. exact (entry_ok_ext _ _ _ _ X3 Ho'). }
    assert (w_log w3 = w_log w) as Lw by (rewrite L3; apply (sp_log _ _ Hs)).
    destruct (Z.leb_spec (max_pages_ d) (Z.of_nat (size (<[mkDwKey id pn := Some o]> (dblwr_pages_ d))))) as [Hfull|Hroom].
    + destruct (dw_flush_page_ok m w3 _ F3 D3) as (s' & w' & E4 & Q & X4 & L4 & Hok4 & _ & Hst);
        [exact (ex_benign _ _ Xw Hbe)|done|exact He3|].
      exists s', w'. split_and!; [exact E4|done|]. split; [by etrans|congruence|done|by apply Hst|auto].
    + exists (fm_stats m), w3. split_and!; [by destruct m|done|]. split; try done.
      split_and!; [done|exact (ex_benign _ _ Xw Hbe)|]. rewrite D3. split; cbn; [done|done|exact He3].
Qed.

(** Both double write buffers keep the same promise. *)
Lemma add_page_ok m w id p pn page :
  world_ok w → id_to_buffer_pools_ w !! id = Some p → 0 ≤ pn → page_wf page →
  ∃ s' w', add_page p pn page (m, w) = Some (RC.SUCCESS, (set_fm_stats s' m, w')) ∧
    quiet (fm_stats m) s' ∧ added w id pn page w'.
Proof.
  intros Hok Hid Hpn W. unfold add_page. rewrite (exec (world_eq m w)).
  destruct (dblwr_buffer_ w) as [d|] eqn:Hd; [by eapply disk_add_page_ok|by apply vacuous_add_page_ok].
Qed.
End storage.
