(* ===== verification/PoolSafety.v ===== *)
(** * The buffer pool is transparent

    The invariant that ties cached frames, the double write buffer and the paged
    files together, and the proof that flushing, evicting and loading frames
    never change what a page contains: the content of a page is that of its
    frame, or else the stored one. *)

From S2P Require Import Prelude Types Bytes Crc Os PageIO Bitmap LruCache MemPool Stats Latch Frame Replacement FrameManager FrameSafety BufferPool DoubleWrite DiskBufferPool StorageSafety.
Local Open Scope Z_scope.

(** What the buffer pool relies on: the log's methods return. *)
Class LogLaws (L : Type) `{!LogHandler L} := {
  log_ok : L → Prop;
  wait_total l x : log_ok l → ∃ rc l', wait_lsn x l = Some (rc, l') ∧ log_ok l';
  append_total l md pl : log_ok l → ∃ rc n l', log_append md pl l = Some ((rc, n), l') ∧ log_ok l' ∧ in_srange 64 n
}.

#[global] Instance VacuousLogLaws : LogLaws unit.
Proof.
  refine {| log_ok := λ _, True |}.
  - intros [] x _. by eexists _, _.
  - intros [] md pl _. eexists _, _, _. done.
Defined.

(** ** The file header *)
Record header_ok (id : Z) (d : list Z) (n a : Z) : Prop := {
  ho_id : hdr_buffer_pool_id d = Some id;
  ho_count : hdr_page_count d = Some n;
  ho_alloc : hdr_allocated_pages d = Some a;
  ho_range : 1 ≤ n ≤ MAX_PAGE_NUM;
  ho_pop : a = Bitmap.popcount (hdr_bitmap d) n;
  ho_first : Bitmap.bit (hdr_bitmap d) 0 = true;
  ho_tail : ∀ j, n ≤ j → Bitmap.bit (hdr_bitmap d) j = false
}.

Section pool_safety.
Context {P L : Type} `{!ReplacementPolicy P} `{!PolicyLaws P} `{!LogHandler L} `{!LogLaws L} `{HOrd : HashOrder}.
Notation World := (World L).
Notation Sys := (Sys L P).
Notation FM := (BPFrameManager (P:=P)).
Implicit Types (w : World) (pn : PageNum) (m : FM) (fp : Ptr).

(** ** Content of a page *)
Definition content m w (id : Z) pn : option (list Z) :=
  match lru_peek (mkFrameId id pn) (frames_ m) with
  | Some fp => data ∘ page_ <$> heap m !! fp
  | None => data <$> stored w id pn
  end.

Definition kept m w m' w' : Prop := ∀ id pn d, content m w id pn = Some d → content m' w' id pn = Some d.

Lemma kept_refl m w : kept m w m w.
Proof. by intros ???. Qed.
Lemma kept_trans m1 w1 m2 w2 m3 w3 : kept m1 w1 m2 w2 → kept m2 w2 m3 w3 → kept m1 w1 m3 w3.
Proof. intros H1 H2 id pn d Hd. by apply H2, H1. Qed.

(** ** The invariant *)
Definition hdr_inv m w (id : Z) (p : Ptr) : Prop :=
  ∃ b fp f n a, w_pools w !! p = Some b ∧ hdr_frame_ b = Some fp ∧ file_header_ b = Some fp ∧
    (mkFrameId id 0, fp) ∈ frames_ m ∧ heap m !! fp = Some f ∧ 0 < pin_count_ f ∧
    header_ok id (data (page_ f)) n a ∧ (∀ pn, 0 ≤ pn < n → is_Some (stored w id pn)) ∧
    (∀ pn q, (mkFrameId id pn, q) ∈ frames_ m → pn < n).

Definition clean_ok w (id : FrameId) (f : Frame) : Prop :=
  dirty_ f = false → ∃ q, stored w (fid_buffer_pool_id id) (fid_page_num id) = Some q ∧ data q = data (page_ f).

Record sys_inv m w : Prop := {
  si_world : world_ok w;
  si_log : log_ok (w_log w);
  si_heap : ∀ fp f, heap m !! fp = Some f → page_wf (page_ f);
  si_frame : ∀ id fp f, (id, fp) ∈ frames_ m → heap m !! fp = Some f →
    0 ≤ fid_page_num id ∧ is_Some (id_to_buffer_pools_ w !! fid_buffer_pool_id id) ∧ clean_ok w id f;
  si_pool : ∀ id p, id_to_buffer_pools_ w !! id = Some p → hdr_inv m w id p
}.

(** Frames that are no file's header. *)
Definition hdr_free w fp : Prop :=
  ∀ id p b, id_to_buffer_pools_ w !! id = Some p → w_pools w !! p = Some b → hdr_frame_ b ≠ Some fp.

Lemma hdr_free_ext w w' fp : extends w w' → hdr_free w fp → hdr_free w' fp.
Proof.
  intros X Hf id p b Hid Hb. rewrite (ex_ids _ _ X) in Hid.
  destruct (extends_pool _ _ _ _ X Hb) as (b0 & s & Hb0 & ->). exact (Hf id p b0 Hid Hb0).
Qed.

Definition more_stored w w' : Prop := ∀ id pn q, stored w id pn = Some q → stored w' id pn = Some q.

(** A change outside the frames. *)
Lemma sys_inv_world m w w' :
  sys_inv m w → extends w w' → world_ok w' → log_ok (w_log w') → more_stored w w' → sys_inv m w' ∧ kept m w m w'.
Proof.
  intros [H1 H2 H3 H4 H5] X Hw Hl Hs. split.
  - split; try done.
    + intros id fp f Hin Hf. destruct (H4 id fp f Hin Hf) as (Hn & Hr & Hc). rewrite (ex_ids _ _ X).
      split_and!; [done|done|]. intros Hd. destruct (Hc Hd) as (q & Hq & Hqd). exists q. split; [by apply Hs|done].
    + intros id p Hid. rewrite (ex_ids _ _ X) in Hid.
      destruct (H5 id p Hid) as (b & fp & f & n & a & Hb & Hf1 & Hf2 & Hin & Hf & Hp & Hh & Hbk & Hcap).
      destruct (extends_pool_1 _ _ _ _ X Hb) as [s Hb'].
      exists (set_bp_stats s b), fp, f, n, a. split_and!; try done. intros pn Hpn.
      destruct (Hbk pn Hpn) as [q Hq]. exists q. by apply Hs.
  - intros id pn d. unfold content. destruct (lru_peek (mkFrameId id pn) (frames_ m)); [done|].
    destruct (stored w id pn) as [q|] eqn:Hq; [|done]. by rewrite (Hs _ _ _ Hq).
Qed.

Lemma set_stats_inv m w s : sys_inv m w → sys_inv (set_fm_stats s m) w.
Proof. intros []. split; done. Qed.

Lemma set_policy_inv m w q : sys_inv m w → sys_inv (set_policy q m) w.
Proof. intros []. split; done. Qed.

(** A cached frame changes. *)
Lemma upd_inv m w id fp f f' s :
  fm_wf m → sys_inv m w → (id, fp) ∈ frames_ m → heap m !! fp = Some f → page_wf (page_ f') → clean_ok w id f' →
  hdr_free w fp ∨ (0 < pin_count_ f' ∧ data (page_ f') = data (page_ f)) →
  sys_inv (upd m fp f' s) w.
Proof.
  intros Wm [H1 H2 H3 H4 H5] Hin Hf Hpw Hcl Hhdr. split; try done.
  - intros q g. destruct (decide (q = fp)) as [->|Hne]; [rewrite heap_upd; by intros [= <-]|].
    rewrite heap_upd_ne by done. apply H3.
  - intros id' q g Hin' Hg. destruct (decide (q = fp)) as [->|Hne].
    + assert (id' = id) as -> by exact (ptr_key_unique m id' id fp Wm Hin' Hin).
      rewrite heap_upd in Hg. injection Hg as <-. destruct (H4 id fp f Hin Hf) as (? & ? & _). done.
    + rewrite heap_upd_ne in Hg by done. exact (H4 id' q g Hin' Hg).
  - intros id' p Hid. destruct (H5 id' p Hid) as (b & hp & hf & n & a & Hb & Hf1 & Hf2 & Hin' & Hhf & Hp & Hh & Hbk & Hcap).
    destruct (decide (hp = fp)) as [->|Hne].
    + destruct Hhdr as [Hfree|[Hp' Hd]]; [by destruct (Hfree id' p b Hid Hb)|].
      rewrite Hf in Hhf. injection Hhf as <-.
      exists b, fp, f', n, a. rewrite heap_upd, Hd. done.
    + exists b, hp, hf, n, a. rewrite heap_upd_ne by done. done.
Qed.

Lemma content_upd m w fp f f' s :
  heap m !! fp = Some f → data (page_ f') = data (page_ f) → kept m w (upd m fp f' s) w.
Proof.
  intros Hf Hd id pn d. unfold content. cbn [frames_ upd].
  destruct (lru_peek (mkFrameId id pn) (frames_ m)) as [q|]; [|done].
  destruct (decide (q = fp)) as [->|Hne]; [|by rewrite heap_upd_ne].
  rewrite heap_upd, Hf. cbn. by rewrite Hd.
Qed.

(** A cached frame, all of it. *)
Lemma cached_peek m id fp : fm_wf m → (id, fp) ∈ frames_ m → lru_peek id (frames_ m) = Some fp.
Proof. intros W Hin. apply lru_peek_elem; [apply W|done]. Qed.

(** A frame leaves the cache: nothing else changes. *)
Lemma drop_inv m w id fp f s :
  fm_wf m → sys_inv m w → (id, fp) ∈ frames_ m → heap m !! fp = Some f → hdr_free w fp →
  let m' := free_state m id fp (freed_frame f) s in
  sys_inv m' w ∧ (∀ q, q ≠ fp → heap m' !! q = heap m !! q) ∧
  (∀ id' pn, mkFrameId id' pn ≠ id → content m' w id' pn = content m w id' pn) ∧
  lru_peek id (frames_ m') = None.
Proof.
  intros Wm [H1 H2 H3 H4 H5] Hin Hf Hfree m'. pose proof (fw_keys _ Wm) as Hk.
  assert (∀ q, q ≠ fp → heap m' !! q = heap m !! q) as Hheap by (intros q Hq; unfold heap; cbn; by rewrite lookup_insert_ne).
  assert (∀ id' q, (id', q) ∈ lru_remove id (frames_ m) → (id', q) ∈ frames_ m ∧ q ≠ fp) as Hrem.
  { intros id' q Hq. apply elem_of_lru_remove in Hq as [Hne Hq]; [|done]. split; [done|]. intros ->.
    apply Hne. exact (ptr_key_unique m id' id fp Wm Hq Hin). }
  split_and!; [split; try done|done| |].
  - intros q g. destruct (decide (q = fp)) as [->|Hne]; [|rewrite Hheap by done; apply H3].
    unfold heap. cbn. rewrite lookup_insert_eq. intros [= <-]. exact (H3 fp f Hf).
  - intros id' q g Hq Hg. destruct (Hrem id' q Hq) as [Hq' Hne]. rewrite Hheap in Hg by done.
    exact (H4 id' q g Hq' Hg).
  - intros id' p Hid. destruct (H5 id' p Hid) as (b & hp & hf & n & a & Hb & Hf1 & Hf2 & Hin' & Hhf & Hp & Hh & Hbk & Hcap).
    assert (hp ≠ fp) as Hne by (intros ->; by destruct (Hfree id' p b Hid Hb)).
    exists b, hp, hf, n, a. rewrite Hheap by done. split_and!; try done.
    2:{ intros pn q Hq. apply Hrem in Hq as [Hq _]. by apply (Hcap pn q). }
    apply elem_of_lru_remove; [done|]. split; [|done]. intros E. apply Hne.
    apply (cached_peek m) in Hin'; [|done]. apply (cached_peek m) in Hin; [|done]. congruence.
  - intros id' pn Hne. unfold content. change (frames_ m') with (lru_remove id (frames_ m)).
    assert (lru_peek (mkFrameId id' pn) (lru_remove id (frames_ m)) = lru_peek (mkFrameId id' pn) (frames_ m)) as ->.
    { apply option_eq. intros q. rewrite !lru_peek_elem by (done || by apply lru_remove_wf).
      rewrite elem_of_lru_remove by done. naive_solver. }
    destruct (lru_peek (mkFrameId id' pn) (frames_ m)) as [q|] eqn:Hq; [|done]. rewrite Hheap; [done|].
    intros ->. apply Hne. apply lru_peek_elem in Hq; [|done]. exact (ptr_key_unique m _ _ fp Wm Hq Hin).
  - apply lru_peek_None. cbn. rewrite elem_of_lru_remove_keys by done. by intros [? _].
Qed.

(** A clean frame leaves the cache: no content changes. *)
Lemma free_inv m w id fp f s :
  fm_wf m → sys_inv m w → (id, fp) ∈ frames_ m → heap m !! fp = Some f → dirty_ f = false → hdr_free w fp →
  sys_inv (free_state m id fp (freed_frame f) s) w ∧ kept m w (free_state m id fp (freed_frame f) s) w.
Proof.
  intros Wm I Hin Hf Hd Hfree. destruct (drop_inv m w id fp f s Wm I Hin Hf Hfree) as (I' & _ & Hoth & Hmiss).
  split; [done|]. intros id' pn d. destruct (decide (mkFrameId id' pn = id)) as [<-|Hne]; [|by rewrite Hoth].
  unfold content. rewrite (cached_peek m _ fp), Hf, Hmiss by done. cbn. intros [= <-].
  destruct (si_frame _ _ I _ fp f Hin Hf) as (_ & _ & Hc). destruct (Hc Hd) as (q & Hq & Hqd).
  cbn in Hq. rewrite Hq. cbn. by rewrite Hqd.
Qed.

(** ** Steps on the parts of the state *)
Lemma fm_do_eq {A} (op : M FM A) m w a m' : op m = Some (a, m') → fm_do op (m, w) = Some (a, (m', w)).
Proof. apply with_fm_eq. Qed.

Lemma frame_of_eq m w fp f : heap m !! fp = Some f → frame_of fp (m, w) = Some (f, (m, w)).
Proof. intros Hf. apply fm_do_eq, frame_at_eq, Hf. Qed.

Lemma set_frame_eq m w fp f g :
  heap m !! fp = Some f → set_frame fp g (m, w) = Some (tt, (upd m fp (g f) (fm_stats m), w)).
Proof. intros Hf. apply fm_do_eq, on_frame_set_eq, Hf. Qed.

(** Changes of the world that leave the stored pages alone. *)
Record calm w w' : Prop := {
  cm_ext : extends w w';
  cm_ok : world_ok w → world_ok w';
  cm_log : log_ok (w_log w) → log_ok (w_log w');
  cm_stored : ∀ id pn, stored w' id pn = stored w id pn;
  cm_disk : ∀ id pn, disk_page w' id pn = disk_page w id pn
}.

#[global] Instance calm_refl : Reflexive calm.
Proof. by split. Qed.
#[global] Instance calm_trans : Transitive calm.
Proof. intros ??? [] []. split; [by etrans|auto|auto|intros; congruence|intros; congruence]. Qed.

Lemma world_ok_ext w w' : extends w w' → dblwr_buffer_ w' = dblwr_buffer_ w → world_ok w → world_ok w'.
Proof.
  intros X Hd (F & Hb & Hdw). split_and!; [exact (extends_files_ok _ _ F X)|exact (ex_benign _ _ X Hb)|].
  rewrite Hd. destruct (dblwr_buffer_ w) as [d|]; [|done]. destruct Hdw as [H1 H2 H3]. split; [done|done|].
  intros k o Ho. destruct (H3 k o Ho) as (o' & -> & Hok). exists o'. split; [done|]. exact (entry_ok_ext _ _ _ _ X Hok).
Qed.

Lemma calm_intro w w' :
  extends w w' → dblwr_buffer_ w' = dblwr_buffer_ w → os_files (w_os w') = os_files (w_os w) →
  (log_ok (w_log w) → log_ok (w_log w')) → calm w w'.
Proof.
  intros X Hd Hf Hl. split; [done|by apply world_ok_ext|done| |by intros; apply disk_page_ext].
  intros id pn. unfold stored, dw_entry. by rewrite Hd, (disk_page_ext w w').
Qed.

Lemma calm_clock m w : ∃ t w', on_os clock_now (m, w) = Some (t, (m, w')) ∧ calm w w'.
Proof.
  destruct (clock_ok m w) as (t & s & E & X & Hf). exists t, (set_os s w). split; [done|]. by apply calm_intro.
Qed.

Lemma calm_stat p b f m w :
  w_pools w !! p = Some b → ∃ w', pool_stat p f (m, w) = Some (tt, (m, w')) ∧ calm w w'.
Proof.
  intros Hb. destruct (pool_stat_ok p b f m w Hb) as (w' & E & X & H1 & H2 & H3). exists w'. split; [done|].
  apply calm_intro; [done|done|by rewrite H1|by rewrite H2].
Qed.

Lemma calm_log_flush m w pg :
  log_ok (w_log w) → ∃ rc w', log_flush_page pg (m, w) = Some (rc, (m, w')) ∧ calm w w'.
Proof.
  intros Hl. destruct (wait_total (w_log w) (lsn pg) Hl) as (rc & l' & E & Hl'). exists rc, (set_log l' w).
  split; [unfold log_flush_page, on_log; by rewrite E|]. apply calm_intro; [|done|done|done].
  split; cbn; auto using pools_same_refl.
Qed.

Lemma calm_append m w p b t pn :
  w_pools w !! p = Some b → log_ok (w_log w) →
  ∃ rc n w', append_log p t pn (m, w) = Some ((rc, n), (m, w')) ∧ calm w w' ∧ in_srange 64 n.
Proof.
  intros Hb Hl. unfold append_log. rewrite (exec (pool_at_eq _ _ _ _ Hb)).
  set (pl := log_entry_bytes _). destruct (append_total (w_log w) BUFFER_POOL pl Hl) as (rc & n & l' & E & Hl' & Hn).
  exists rc, n, (set_log l' w). split_and!; [unfold on_log; by rewrite E| |done]. apply calm_intro; [|done|done|done].
  split; cbn; auto using pools_same_refl.
Qed.

Lemma calm_inv m w w' : sys_inv m w → calm w w' → sys_inv m w' ∧ kept m w m w'.
Proof.
  intros I C. apply sys_inv_world; [done|apply C|by apply C, I|by apply C, I|]. intros id pn q Hq. by rewrite (cm_stored _ _ C).
Qed.

Lemma calm_pool w w' p b : calm w w' → w_pools w !! p = Some b → ∃ s, w_pools w' !! p = Some (set_bp_stats s b).
Proof. intros C. apply extends_pool_1, C. Qed.

Lemma calm_reg w w' id : calm w w' → id_to_buffer_pools_ w' !! id = id_to_buffer_pools_ w !! id.
Proof. intros C. by rewrite (ex_ids _ _ (cm_ext _ _ C)). Qed.

(** ** [flush_page_internal] *)
Lemma crc_total pg : page_wf pg → crc32 (data pg) BP_PAGE_DATA_SIZE = Some (crc32_reference (data pg)).
Proof. intros W. rewrite <-(pw_size _ W). apply crc32_total. Qed.

Lemma set_check_sum_wf pg : page_wf pg → page_wf (set_check_sum (crc32_reference (data pg)) pg).
Proof. intros []. split; try done. apply crc32_bound. Qed.

(** The frame after a flush. *)
Definition flushed (f : Frame) : Frame :=
  set_dirty false (frame_set_check_sum (crc32_reference (data (page_ f))) f).

Lemma dirty_positive m id fp f :
  fm_wf m → (id, fp) ∈ frames_ m → heap m !! fp = Some f → dirty_ f = true → 0 < fm_stats m dirty_pages_current.
Proof.
  intros W Hin Hf Hd. rewrite (fw_dirty _ W). pose proof (fcount_elem dirty_ (heap m) _ _ _ _ Hin Hf Hd). lia.
Qed.

(** The page of a cached frame becomes the stored one. *)
Lemma store_inv m w id fp f f' s w' page :
  fm_wf m → sys_inv m w → (id, fp) ∈ frames_ m → heap m !! fp = Some f →
  extends w w' → world_ok w' → log_ok (w_log w') →
  stored w' (fid_buffer_pool_id id) (fid_page_num id) = Some page →
  (∀ id' pn' q, (id', pn') ≠ (fid_buffer_pool_id id, fid_page_num id) → stored w id' pn' = Some q → stored w' id' pn' = Some q) →
  data page = data (page_ f) → data (page_ f') = data (page_ f) → page_wf (page_ f') →
  hdr_free w fp ∨ 0 < pin_count_ f' →
  sys_inv (upd m fp f' s) w' ∧ kept m w (upd m fp f' s) w'.
Proof.
  intros Wm [H1 H2 H3 H4 H5] Hin Hf X Hw Hl Hst Hoth Hd1 Hd2 Hpw Hhdr. split.
  - split; try done.
    + intros q g. destruct (decide (q = fp)) as [->|Hne]; [rewrite heap_upd; by intros [= <-]|].
      rewrite heap_upd_ne by done. apply H3.
    + intros id' q g Hin' Hg. rewrite (ex_ids _ _ X). destruct (decide (q = fp)) as [->|Hne].
      * assert (id' = id) as -> by exact (ptr_key_unique m id' id fp Wm Hin' Hin).
        rewrite heap_upd in Hg. injection Hg as <-. destruct (H4 id fp f Hin Hf) as (? & ? & _).
        split_and!; [done|done|]. intros _. exists page. split; [done|congruence].
      * rewrite heap_upd_ne in Hg by done. destruct (H4 id' q g Hin' Hg) as (? & ? & Hc). split_and!; [done|done|].
        intros Hdg. destruct (Hc Hdg) as (x & Hx & Hxd). exists x. split; [|done]. apply Hoth; [|done].
        intros [= E1 E2]. apply Hne. assert (id' = id) as -> by (destruct id, id'; cbn in *; congruence).
        apply (cached_peek m) in Hin, Hin'; [congruence|done|done].
    + intros id' p Hid. rewrite (ex_ids _ _ X) in Hid.
      destruct (H5 id' p Hid) as (b & hp & hf & n & a & Hb & Hf1 & Hf2 & Hin' & Hhf & Hp & Hh & Hbk & Hcap).
      destruct (extends_pool_1 _ _ _ _ X Hb) as [sb Hb'].
      assert (∀ pn, 0 ≤ pn < n → is_Some (stored w' id' pn)) as Hbk'.
      { intros pn Hpn. destruct (decide ((id', pn) = (fid_buffer_pool_id id, fid_page_num id))) as [E|E].
        - injection E as -> ->. by rewrite Hst.
        - destruct (Hbk pn Hpn) as [q Hq]. exists q. by apply Hoth. }
      destruct (decide (hp = fp)) as [->|Hne].
      * destruct Hhdr as [Hfree|Hp']; [by destruct (Hfree id' p b Hid Hb)|].
        rewrite Hf in Hhf. injection Hhf as <-.
        exists (set_bp_stats sb b), fp, f', n, a. rewrite heap_upd, Hd2. done.
      * exists (set_bp_stats sb b), hp, hf, n, a. rewrite heap_upd_ne by done. done.
  - intros id' pn d. unfold content. cbn [frames_ upd].
    destruct (lru_peek (mkFrameId id' pn) (frames_ m)) as [q|] eqn:Hq.
    + destruct (decide (q = fp)) as [->|Hne]; [|by rewrite heap_upd_ne]. rewrite heap_upd, Hf. cbn. by rewrite Hd2.
    + destruct (stored w id' pn) as [x|] eqn:Hx; [|done]. rewrite (Hoth id' pn x); [done| |done].
      intros [= -> ->]. apply (cached_peek m) in Hin; [|done].
      destruct id as [i n]. cbn in Hq. congruence.
Qed.

(** What a flush does, whatever the state of the other frames. *)
Lemma flush_run m w id fp f p reason :
  fm_wf m → world_ok w → log_ok (w_log w) → (id, fp) ∈ frames_ m → heap m !! fp = Some f → page_wf (page_ f) →
  0 ≤ fid_page_num id → id_to_buffer_pools_ w !! fid_buffer_pool_id id = Some p →
  ∃ s' w', flush_page_internal p fp reason (m, w) = Some (RC.SUCCESS, (upd m fp (flushed f) s', w')) ∧
    fm_wf (upd m fp (flushed f) s') ∧ extends w w' ∧ world_ok w' ∧ log_ok (w_log w') ∧
    stored w' (fid_buffer_pool_id id) (fid_page_num id) = Some (page_ (flushed f)) ∧
    (∀ id' pn' q, (id', pn') ≠ (fid_buffer_pool_id id, fid_page_num id) → stored w id' pn' = Some q → stored w' id' pn' = Some q).
Proof.
  intros Wm Hw Hlog Hin Hf Hpw Hpn Hid. pose proof (cached_frame _ _ _ _ Wm Hin Hf) as Hok. unfold flush_page_internal.
  destruct (calm_clock m w) as (t1 & w1 & E1 & C1). rewrite (exec E1).
  rewrite (exec (frame_of_eq m w1 fp f Hf)).
  destruct (calm_log_flush m w1 (page_ f)) as (rc2 & w2 & E2 & C2); [by apply C1|]. rewrite (exec E2).
  rewrite (crc_total _ Hpw). set (c := crc32_reference _). exec_deref.
  rewrite (exec (set_frame_eq m w2 fp f _ Hf)).
  set (f1 := frame_set_check_sum c f). set (m1 := upd m fp f1 (fm_stats m)).
  rewrite (exec (frame_of_eq m1 w2 fp f1 (heap_upd _ _ _ _))).
  change (frame_id_ f1) with (frame_id_ f). rewrite (ck_id _ _ Hok).
  assert (calm w w2) as C12 by (by etrans).
  destruct (add_page_ok m1 w2 (fid_buffer_pool_id id) p (fid_page_num id) (page_ f1)) as (s3 & w3 & E3 & Q3 & A3);
    [by apply C12|by rewrite (calm_reg _ _ _ C12)|done|by apply set_check_sum_wf|].
  rewrite (exec E3). change (RC.OB_FAIL RC.SUCCESS) with false. cbv iota.
  assert (fm_wf (upd m fp f1 s3)) as Wm1.
  { destruct Q3 as [Q3a Q3b]. apply (upd_wf m id fp f); [done|done|done|destruct Hok; by split| |];
      unfold pinned; cbn in *; rewrite ?Q3a, ?Q3b; lia. }
  destruct (clear_dirty_effect f1 s3) as (s4 & E4 & H4a & H4b); [apply Hok| |].
  { intros Hd. exact (dirty_positive (upd m fp f1 s3) id fp f1 Wm1 Hin (heap_upd _ _ _ _) Hd). }
  erewrite bind_run by (apply fm_do_eq, (on_frame_eq fp clear_dirty f1); [apply (heap_upd m fp f1 s3)|exact E4]).
  change (upd (set_fm_stats s3 m1) fp (set_dirty false f1) s4) with (upd (upd m fp f1 s3) fp (set_dirty false f1) s4).
  rewrite upd_upd. change (set_dirty false f1) with (flushed f).
  match goal with |- context [(on_os clock_now ≫= _) (?mm, w3)] => destruct (calm_clock mm w3) as (t5 & w5 & E5 & C5) end.
  rewrite (exec E5). cbv zeta. rewrite (exec (global_stat_eq _ _ _)).
  destruct (fo_pool _ (proj1 Hw) _ _ Hid) as (b & _ & Hb & _).
  destruct (calm_pool _ _ _ _ C12 Hb) as [sb2 Hb2]. destruct (extends_pool_1 _ _ _ _ (ad_ext _ _ _ _ _ A3) Hb2) as [sb3 Hb3].
  destruct (calm_pool _ _ _ _ C5 Hb3) as [sb5 Hb5].
  match goal with |- context [(pool_stat p ?g ≫= _) (?mm, w5)] => destruct (calm_stat p _ g mm w5 Hb5) as (w6 & E6 & C6) end.
  rewrite (exec E6).
  set (s6 := record_flush reason (t5 - t1) s4).
  assert (calm w3 w6) as C36 by (by etrans).
  eexists s6, w6. split; [reflexivity|]. split_and!.
  - destruct (record_flush_quiet reason (t5 - t1) s4) as [Q1 Q2]. destruct Q3 as [Q3a Q3b]. cbn in Q3a, Q3b.
    apply (upd_wf m id fp f); [done|done|done|destruct Hok; by split| |]; unfold s6, pinned; cbn in *; rewrite ?Q1, ?Q2; lia.
  - etrans; [apply C12|]. etrans; [apply A3|]. apply C36.
  - apply C36, A3.
  - apply C36. rewrite (ad_log _ _ _ _ _ A3). by apply C12.
  - rewrite (cm_stored _ _ C36). apply A3.
  - intros id' pn' q Hne Hq. rewrite (cm_stored _ _ C36). apply (ad_other _ _ _ _ _ A3); [done|]. by rewrite (cm_stored _ _ C12).
Qed.

Lemma flushed_wf f : page_wf (page_ f) → page_wf (page_ (flushed f)).
Proof. apply set_check_sum_wf. Qed.

Lemma flush_page_internal_ok m w id fp f p reason :
  fm_wf m → sys_inv m w → (id, fp) ∈ frames_ m → heap m !! fp = Some f →
  id_to_buffer_pools_ w !! fid_buffer_pool_id id = Some p → hdr_free w fp ∨ 0 < pin_count_ f →
  ∃ s' w', flush_page_internal p fp reason (m, w) = Some (RC.SUCCESS, (upd m fp (flushed f) s', w')) ∧
    fm_wf (upd m fp (flushed f) s') ∧ extends w w' ∧ sys_inv (upd m fp (flushed f) s') w' ∧
    kept m w (upd m fp (flushed f) s') w' ∧
    stored w' (fid_buffer_pool_id id) (fid_page_num id) = Some (page_ (flushed f)).
Proof.
  intros Wm I Hin Hf Hid Hhdr. pose proof (si_heap _ _ I _ _ Hf) as Hpw.
  destruct (si_frame _ _ I _ _ _ Hin Hf) as (Hpn & _ & _).
  destruct (flush_run m w id fp f p reason Wm (si_world _ _ I) (si_log _ _ I) Hin Hf Hpw Hpn Hid)
    as (s' & w' & E & W' & X & Hw' & Hl' & Hst & Hoth).
  exists s', w'.
  destruct (store_inv m w id fp f (flushed f) s' w' (page_ (flushed f))) as [I' K']; try done.
  by apply flushed_wf.
Qed.

(** ** The write-back callback of [allocate_frame] keeps the contract *)
Lemma upd_id m fp f : heap m !! fp = Some f → upd m fp f (fm_stats m) = m.
Proof.
  intros Hf. unfold upd. destruct m as [fr al po st ca], al. cbn in *. rewrite insert_id by exact Hf. done.
Qed.

Lemma bp_id_eq m w id p : world_ok w → id_to_buffer_pools_ w !! id = Some p → bp_id p (m, w) = Some (id, (m, w)).
Proof.
  intros (F & _) Hid. destruct (fo_pool _ F id p Hid) as (b & _ & Hb & <- & _). unfold bp_id.
  by rewrite (exec (pool_at_eq _ _ _ _ Hb)).
Qed.

Lemma victim_pool_ok m w id fp f idp p :
  fm_wf m → sys_inv m w → (id, fp) ∈ frames_ m → heap m !! fp = Some f → id_to_buffer_pools_ w !! idp = Some p →
  ∃ q b, victim_pool p fp (m, w) = Some (Some q, (m, w)) ∧ w_pools w !! q = Some b.
Proof.
  intros Wm I Hin Hf Hp. pose proof (cached_frame _ _ _ _ Wm Hin Hf) as Hok. unfold victim_pool.
  rewrite (exec (frame_of_eq m w fp f Hf)), (exec (bp_id_eq m w idp p (si_world _ _ I) Hp)).
  rewrite (ck_id _ _ Hok). pose proof (proj1 (si_world _ _ I)) as F. case_match eqn:E.
  - destruct (fo_pool _ F _ _ Hp) as (b & _ & Hb & _). exists p, b. done.
  - destruct (si_frame _ _ I _ _ _ Hin Hf) as (_ & [q Hq] & _). destruct (fo_pool _ F _ _ Hq) as (b & _ & Hb & _).
    exists q, b. split; [|done]. unfold get_buffer_pool, world. mstep. by rewrite Hq.
Qed.

Lemma purger_run m w id fp f idp p :
  fm_wf m → sys_inv m w → (id, fp) ∈ frames_ m → heap m !! fp = Some f → hdr_free w fp →
  id_to_buffer_pools_ w !! idp = Some p →
  ∃ f' s' w', purger p fp (m, w) = Some (RC.SUCCESS, (upd m fp f' s', w')) ∧ (f' = f ∨ f' = flushed f) ∧
    dirty_ f' = false ∧ fm_wf (upd m fp f' s') ∧ extends w w' ∧ sys_inv (upd m fp f' s') w' ∧
    kept m w (upd m fp f' s') w'.
Proof.
  intros Wm I Hin Hf Hhf Hp. pose proof (cached_frame _ _ _ _ Wm Hin Hf) as Hok. unfold purger.
  rewrite (exec (frame_of_eq m w fp f Hf)). cbv zeta. destruct (dirty_ f) eqn:Hd; cbn [negb].
  - rewrite (exec (bp_id_eq m w idp p (si_world _ _ I) Hp)). rewrite (ck_id _ _ Hok).
    destruct (si_frame _ _ I _ _ _ Hin Hf) as (_ & [q Hq] & _).
    destruct (flush_page_internal_ok m w id fp f q EVICTION Wm I Hin Hf Hq (or_introl Hhf))
      as (s' & w' & E & W' & X & I' & K & _).
    assert ((if fid_buffer_pool_id id =? idp then flush_page_internal p fp EVICTION else mgr_flush_page fp EVICTION) (m, w) =
      Some (RC.SUCCESS, (upd m fp (flushed f) s', w'))) as E1.
    { case_match eqn:Eid; [apply Z.eqb_eq in Eid; rewrite Eid in Hq; by simplify_eq|].
      unfold mgr_flush_page. rewrite (exec (frame_of_eq m w fp f Hf)), (exec (world_eq m w)).
      rewrite (ck_id _ _ Hok), Hq. exact E. }
    rewrite (exec E1). rewrite bool_decide_eq_false_2 by (by intros []).
    destruct (victim_pool_ok (upd m fp (flushed f) s') w' id fp (flushed f) idp p) as (v & b & Ev & Hv);
      [done|done|done|apply heap_upd|by rewrite (ex_ids _ _ X)|].
    rewrite (exec Ev).
    destruct (calm_stat v b (record_eviction true) (upd m fp (flushed f) s') w' Hv) as (w2 & E2 & C2).
    rewrite (exec E2). destruct (calm_inv _ _ _ I' C2) as [I2 K2].
    exists (flushed f), s', w2. split_and!; [done|by right|done|done|by etrans; [|apply C2]|done|by eapply kept_trans].
  - destruct (victim_pool_ok m w id fp f idp p Wm I Hin Hf Hp) as (v & b & Ev & Hv).
    rewrite (exec Ev).
    destruct (calm_stat v b (record_eviction false) m w Hv) as (w2 & E2 & C2).
    rewrite (exec E2). destruct (calm_inv _ _ _ I C2) as [I2 K2].
    exists f, (fm_stats m), w2. rewrite upd_id by done. split_and!; [done|by left|done|done|apply C2|done|done].
Qed.

(** The client's invariant during an eviction that started in [m0], [w0]. *)
Definition evict_inv m0 w0 (V : Ptr → Prop) m w : Prop :=
  sys_inv m w ∧ kept m0 w0 m w ∧ extends w0 w ∧ ∀ fp, V fp → hdr_free w fp.

Lemma cached_ok_flushed id f : cached_ok id f → cached_ok id (flushed f).
Proof. intros []. by split. Qed.

Lemma purger_contract m0 w0 V idp p :
  id_to_buffer_pools_ w0 !! idp = Some p → purger_ok V (evict_inv m0 w0 V) (purger p).
Proof.
  intros Hp. split. intros m w id fp f HV Wm (I & K & X & Hhdr) Hin Hf Hpin Hl.
  pose proof (cached_frame _ _ _ _ Wm Hin Hf) as Hok.
  destruct (purger_run m w id fp f idp p Wm I Hin Hf (Hhdr fp HV)) as (f' & s' & w' & E & Hf' & Hd & W' & X' & I' & K');
    [by rewrite (ex_ids _ _ X)|].
  assert (cached_ok id f' ∧ pin_count_ f' = 1 ∧ unlatched f') as (Hok' & Hpin' & Hl').
  { destruct Hf' as [->| ->]; split_and!; try done. by apply cached_ok_flushed. }
  exists RC.SUCCESS, f', s', w'. split_and!; try done. intros s. rewrite bool_decide_eq_true_2 by done.
  assert (hdr_free w' fp) as Hh' by (apply (hdr_free_ext w); auto).
  destruct (free_inv (upd m fp f' s') w' id fp f' s W' I' Hin (heap_upd _ _ _ _) Hd Hh') as [I2 K2].
  split_and!; [exact I2| |by etrans|].
  - eapply kept_trans; [exact K|]. by eapply kept_trans.
  - intros q Hq. apply (hdr_free_ext w); auto.
Qed.

Lemma purger_succeeds m0 w0 V idp p :
  id_to_buffer_pools_ w0 !! idp = Some p → always_succeeds V (evict_inv m0 w0 V) (purger p).
Proof.
  intros Hp m w id fp f rc st' HV Wm (I & K & X & Hhdr) Hin Hf _ _ E.
  destruct (purger_run m w id fp f idp p Wm I Hin Hf (Hhdr fp HV)) as (f' & s' & w' & E' & _);
    [by rewrite (ex_ids _ _ X)|]. rewrite E in E'. by injection E'.
Qed.

(** ** Eviction *)
Lemma chosen_inv m w vs m' :
  sys_inv m w → chosen m vs m' → sys_inv m' w ∧ kept m w m' w.
Proof.
  intros [H1 H2 H3 H4 H5] [Hfr _ _ _ Hv Ho].
  assert (∀ q, heap m' !! q = heap m !! q ∨
    ∃ f, heap m !! q = Some f ∧ heap m' !! q = Some (set_pin_count 1 f)) as Hh.
  { intros q. destruct (decide (q ∈ vs)) as [Hq|Hq]; [right|left; by apply Ho].
    destruct (Hv q Hq) as (id & f & _ & Hf & _ & Hf'). eauto. }
  split.
  - split; try done.
    + intros q g Hg. destruct (Hh q) as [E|(f & E & E')]; [rewrite E in Hg; by apply (H3 q)|].
      rewrite E' in Hg. injection Hg as <-. exact (H3 q f E).
    + intros id q g Hin Hg. rewrite Hfr in Hin. destruct (Hh q) as [E|(f & E & E')].
      * rewrite E in Hg. by apply (H4 id q).
      * rewrite E' in Hg. injection Hg as <-. exact (H4 id q f Hin E).
    + intros id p Hid. destruct (H5 id p Hid) as (b & hp & hf & n & a & Hb & Hf1 & Hf2 & Hin' & Hhf & Hp & Hh' & Hbk & Hcap).
      rewrite <-Hfr in Hin', Hcap. destruct (Hh hp) as [E|(f & E & E')].
      * exists b, hp, hf, n, a. rewrite E. done.
      * rewrite Hhf in E. injection E as <-. exists b, hp, (set_pin_count 1 hf), n, a. done.
  - intros id pn d. unfold content. rewrite Hfr. destruct (lru_peek _ (frames_ m)) as [q|]; [|done].
    destruct (Hh q) as [->|(f & -> & ->)]; done.
Qed.

Lemma hdr_not_evictable m w fp : sys_inv m w → evictable m fp → hdr_free w fp.
Proof.
  intros I (f & Hf & Hp) id p b Hid Hb Hh.
  destruct (si_pool _ _ I id p Hid) as (b' & hp & hf & n & a & Hb' & Hf1 & _ & _ & Hhf & Hpos & _).
  rewrite Hb in Hb'. injection Hb' as <-. rewrite Hh in Hf1. injection Hf1 as <-.
  rewrite Hf in Hhf. injection Hhf as <-. lia.
Qed.

(** The pin count of a page: 0 if it is not cached. *)
Definition pins m (id : FrameId) : Z :=
  default 0 (fp ← lru_peek id (frames_ m); pin_count_ <$> heap m !! fp).

Definition same_pins m m' : Prop := ∀ id, pins m' id = pins m id.
Definition pins_but (id0 : FrameId) m m' : Prop := ∀ id, id ≠ id0 → pins m' id = pins m id.

#[global] Instance same_pins_refl : Reflexive same_pins.
Proof. by intros m id. Qed.
#[global] Instance same_pins_trans : Transitive same_pins.
Proof. intros m1 m2 m3 H1 H2 id. by rewrite H2, H1. Qed.

Lemma pins_peek m id fp f : lru_peek id (frames_ m) = Some fp → heap m !! fp = Some f → pins m id = pin_count_ f.
Proof. intros Hpk Hf. unfold pins. rewrite Hpk. cbn. by rewrite Hf. Qed.

Lemma pins_upd m h f f' s : heap m !! h = Some f → pin_count_ f' = pin_count_ f → same_pins m (upd m h f' s).
Proof.
  intros Hf Hp id. unfold pins. change (frames_ (upd m h f' s)) with (frames_ m).
  destruct (lru_peek id (frames_ m)) as [q|]; [|done]. cbn [mbind option_bind].
  destruct (decide (q = h)) as [->|Hne]; [|by rewrite heap_upd_ne].
  rewrite heap_upd, Hf. cbn. by rewrite Hp.
Qed.

(** Frames that leave the cache were unpinned, the others keep their count. *)
Lemma same_pins_sublist m m' :
  fm_wf m → fm_wf m' → frames_ m' `sublist_of` frames_ m →
  (∀ id fp f, (id, fp) ∈ frames_ m → heap m !! fp = Some f → pin_count_ f ≠ 0 → (id, fp) ∈ frames_ m' ∧ heap m' !! fp = Some f) →
  (∀ id fp, (id, fp) ∈ frames_ m' → ∃ f f', heap m !! fp = Some f ∧ heap m' !! fp = Some f' ∧ pin_count_ f' = pin_count_ f) →
  same_pins m m'.
Proof.
  intros W W' Hs Hpin Hsame id. destruct (lru_peek id (frames_ m')) as [fp|] eqn:E'.
  - apply lru_peek_elem in E' as Hin'; [|apply W']. pose proof (elem_of_sublist _ _ _ Hin' Hs) as Hin.
    apply lru_peek_elem in Hin; [|apply W]. destruct (Hsame id fp Hin') as (f & f' & Hf & Hf' & E).
    by rewrite (pins_peek m' id fp f' E' Hf'), (pins_peek m id fp f Hin Hf).
  - unfold pins at 1. rewrite E'. cbn. destruct (lru_peek id (frames_ m)) as [fp|] eqn:E; [|unfold pins; by rewrite E].
    apply lru_peek_elem in E as Hin; [|apply W]. destruct (fw_cached _ W _ _ Hin) as (f & Hf & _).
    rewrite (pins_peek m id fp f E Hf). destruct (decide (pin_count_ f = 0)) as [->|Hne]; [done|].
    destruct (Hpin id fp f Hin Hf Hne) as [Hin' _]. apply lru_peek_elem in Hin'; [|apply W']. congruence.
Qed.

Lemma evict_ok m w idp p :
  fm_wf m → sys_inv m w → id_to_buffer_pools_ w !! idp = Some p →
  ∃ n m' w', purge_frames 1 (purger p) (m, w) = Some (n, (m', w')) ∧ fm_wf m' ∧ sys_inv m' w' ∧ kept m w m' w' ∧
    extends w w' ∧ capacity_ m' = capacity_ m ∧ frames_ m' `sublist_of` frames_ m ∧
    n = Z.of_nat (length (frames_ m)) - Z.of_nat (length (frames_ m')) ∧ n = Z.min 1 (unpinned_count m) ∧
    (∀ id fp f, (id, fp) ∈ frames_ m → heap m !! fp = Some f → pin_count_ f ≠ 0 →
       (id, fp) ∈ frames_ m' ∧ heap m' !! fp = Some f) ∧ same_pins m m'.
Proof.
  intros Wm I Hp.
  destruct (purge_frames_ok (evict_inv m w (evictable m)) (purger p) 1 m w)
    as (n & m' & w' & E & W' & (I' & K' & X' & _) & Hcap & Hs & Hn & _ & Hpin & Hsame & Hall);
    [by eapply purger_contract|done| |].
  { intros m' [vs Hch] _. destruct (chosen_inv m w vs m' I Hch). split_and!; try done.
    intros fp Hfp. exact (hdr_not_evictable m w fp I Hfp). }
  exists n, m', w'. split_and!; try done; [|by apply same_pins_sublist]. apply Hall. by eapply purger_succeeds.
Qed.

(** ** [allocate_frame] *)
Lemma frames_capacity m :
  fm_wf m → Z.of_nat (length (frames_ m)) + Z.of_nat (length (frees (allocator_ m))) = capacity_ m.
Proof.
  intros W. rewrite (fw_capacity _ W), (pool_count _ (fw_pool _ W)), (fw_used _ W).
  rewrite size_list_to_set, length_fmap by apply W. done.
Qed.

Lemma lru_peek_sublist (id : FrameId) (l l' : list (FrameId * Ptr)) : l' `sublist_of` l → lru_peek id l = None → lru_peek id l' = None.
Proof.
  intros Hs. rewrite !lru_peek_None. intros Hn Hin. apply Hn. by eapply elem_of_sublist; [|apply fmap_sublist].
Qed.

(** An idle frame has been handed out in the state [m], [w]. *)
Definition handed_out m (w : World) (id : FrameId) (b : Ptr) (x : Frame) (m' : FM) : Prop :=
  ∃ rest s', lru_peek id (frames_ m) = None ∧ frees (allocator_ m) = b :: rest ∧ heap m !! b = Some x ∧
    m' = alloc_state m id b rest (fresh_frame id x) s' ∧ fm_wf m'.

Lemma fm_alloc_cases m w idp pn :
  fm_wf m → lru_peek (mkFrameId idp pn) (frames_ m) = None →
  (frees (allocator_ m) = [] ∧ fm_alloc idp pn m = Some (None, m)) ∨
  (∃ b x m', fm_alloc idp pn m = Some (Some b, m') ∧ handed_out m w (mkFrameId idp pn) b x m').
Proof.
  intros W Hmiss. pose proof (fm_alloc_ok m idp pn W Hmiss) as Ha.
  destruct (frees (allocator_ m)) as [|b rest] eqn:Hf; [by left|right].
  destruct Ha as (x & s' & Hx & Ha & W'). eexists b, x, _. split; [exact Ha|]. exists rest, s'. done.
Qed.

Lemma allocate_frame_ok m w idp p pn :
  fm_wf m → sys_inv m w → id_to_buffer_pools_ w !! idp = Some p → lru_peek (mkFrameId idp pn) (frames_ m) = None →
  (∃ m' w', allocate_frame p pn (m, w) = Some ((RC.BUFFERPOOL_NOBUF, None), (m', w')) ∧
     Z.of_nat (length (frames_ m)) = capacity_ m ∧ unpinned_count m = 0 ∧
     fm_wf m' ∧ sys_inv m' w' ∧ kept m w m' w' ∧ extends w w' ∧ frames_ m' `sublist_of` frames_ m ∧
     (∀ id fp f, (id, fp) ∈ frames_ m → heap m !! fp = Some f → pin_count_ f ≠ 0 →
       (id, fp) ∈ frames_ m' ∧ heap m' !! fp = Some f) ∧ same_pins m m') ∨
  (∃ m1 w1 b x m', allocate_frame p pn (m, w) = Some ((RC.SUCCESS, Some b), (m', w1)) ∧
     fm_wf m1 ∧ sys_inv m1 w1 ∧ kept m w m1 w1 ∧ extends w w1 ∧ frames_ m1 `sublist_of` frames_ m ∧
     (∀ id fp f, (id, fp) ∈ frames_ m → heap m !! fp = Some f → pin_count_ f ≠ 0 →
       (id, fp) ∈ frames_ m1 ∧ heap m1 !! fp = Some f) ∧ same_pins m m1 ∧
     handed_out m1 w1 (mkFrameId idp pn) b x m').
Proof.
  intros Wm I Hp Hmiss. unfold allocate_frame.
  change (2 + length (frames_ m))%nat with (S (S (length (frames_ m)))). cbn [allocate_frame_loop].
  rewrite (exec (bp_id_eq m w idp p (si_world _ _ I) Hp)).
  destruct (fm_alloc_cases m w idp pn Wm Hmiss) as [[Hnil Ea]|(b & x & m' & Ea & Ho)].
  2:{ right. exists m, w, b, x, m'. rewrite (exec (fm_do_eq _ _ _ _ _ Ea)). split_and!; try done; auto using kept_refl. }
  rewrite (exec (fm_do_eq _ _ _ _ _ Ea)). pose proof (frames_capacity m Wm) as Hc. rewrite Hnil in Hc. cbn in Hc.
  destruct (evict_ok m w idp p Wm I Hp) as (n & m1 & w1 & E & W1 & I1 & K1 & X1 & Hcap & Hs & Hn & Hmin & Hpin & Hsm).
  destruct (decide (unpinned_count m = 0)) as [Hz|Hz].
  - left. assert (n = 0) as -> by lia. rewrite (exec E). cbn [Z.eqb].
    rewrite (exec (global_stat_eq _ _ _)).
    destruct (fo_pool _ (proj1 (si_world _ _ I)) _ _ Hp) as (bp & _ & Hb & _).
    destruct (extends_pool_1 _ _ _ _ X1 Hb) as [sb Hb1].
    set (m2 := set_fm_stats _ m1).
    destruct (calm_stat p _ record_no_buffer_failure m2 w1 Hb1) as (w2 & E2 & C2).
    rewrite (exec E2).
    destruct (calm_inv m2 w1 w2 (set_stats_inv m1 w1 _ I1) C2) as [I2 K2].
    destruct (record_no_buffer_quiet (fm_stats m1)) as [Q1 Q2].
    exists m2, w2. split_and!; try done.
    + lia.
    + by apply set_stats_wf.
    + by eapply kept_trans.
    + etrans; [exact X1|apply C2].
  - right. assert (n = 1) as ->.
    { pose proof (fcount_bound (λ f, negb (pinned f)) (heap m) (frames_ m)). unfold unpinned_count in *. lia. }
    rewrite (exec E). cbn [Z.eqb].
    rewrite (exec (bp_id_eq m1 w1 idp p (si_world _ _ I1) ltac:(by rewrite (ex_ids _ _ X1)))).
    pose proof (lru_peek_sublist _ _ _ Hs Hmiss) as Hmiss1.
    destruct (fm_alloc_cases m1 w1 idp pn W1 Hmiss1) as [[Hnil1 _]|(b & x & m' & Ea1 & Ho)].
    { pose proof (frames_capacity m1 W1) as Hc1. rewrite Hnil1 in Hc1. cbn in Hc1. lia. }
    exists m1, w1, b, x, m'. rewrite (exec (fm_do_eq _ _ _ _ _ Ea1)). done.
Qed.

(** ** [load_page] *)
Lemma io_read_ok w id p b pn old q :
  files_ok w → benign (os_script (w_os w)) → id_to_buffer_pools_ w !! id = Some p → w_pools w !! p = Some b →
  0 ≤ pn → page_wf old → disk_page w id pn = Some q →
  ∃ s, io_read_page (io_backend_ b) (file_desc_ b) pn old (w_os w) = Some ((RC.SUCCESS, q), s) ∧
    extends w (set_os s w) ∧ os_files s = os_files (w_os w).
Proof.
  intros F Hbe Hid Hb Hpn W Hq. destruct (fo_pool _ F id p Hid) as (b0 & off & Hb0 & _ & Hfd).
  rewrite Hb in Hb0. injection Hb0 as <-. pose proof (fo_os _ F) as Hos.
  destruct (proj2 Hos _ _ _ Hfd) as [_ [c Hc]].
  apply disk_page_Some in Hq as (p' & b' & c' & Hid' & Hb' & Hc' & Hq).
  rewrite Hid in Hid'. injection Hid' as <-. rewrite Hb in Hb'. injection Hb' as <-. rewrite Hc in Hc'. injection Hc' as <-.
  destruct (io_read_page_ok (w_os w) _ _ off c Hos Hfd Hc (io_backend_ b) pn old Hpn W)
    as (rc & pg & s & E & _ & (off' & l' & -> & Ho & Hl & _) & H1 & H2).
  assert (rc = RC.SUCCESS) as -> by (apply H2; eauto). specialize (H1 eq_refl). simplify_eq.
  eexists. split; [exact E|]. split; [|cbn; by apply insert_id].
  apply set_os_extends; cbn.
  - intros fd. destruct (decide (fd = file_desc_ b)) as [->|Hne]; [by rewrite lookup_insert_eq, Hfd|by rewrite lookup_insert_ne].
  - intros _. apply os_at_wf; [done|by eapply (proj1 Hos)|done].
  - by apply benign_suffix.
Qed.

Lemma dw_read_page_eq m w id p pn old :
  world_ok w → id_to_buffer_pools_ w !! id = Some p →
  dw_read_page p pn old (m, w) =
    Some (match dw_entry w (mkDwKey id pn) with
          | Some o => (RC.SUCCESS, dw_page o)
          | None => (RC.BUFFERPOOL_INVALID_PAGE_NUM, old)
          end, (m, w)).
Proof.
  intros (F & _ & Hd) Hid. destruct (fo_pool _ F id p Hid) as (b & _ & Hb & Hbi & _). unfold dw_read_page, dw_entry.
  rewrite (exec (world_eq m w)). destruct (dblwr_buffer_ w) as [d|] eqn:Ed; [|done].
  unfold disk_read_page. rewrite (exec (pool_at_eq _ _ _ _ Hb)), (exec (dblwr_eq _ _ _ Ed)).
  cbv zeta. rewrite Hbi. destruct (dblwr_pages_ d !! mkDwKey id pn) as [o|] eqn:Ho; [|done].
  destruct (do_entry _ _ Hd _ _ Ho) as (o' & -> & _). cbn.
  by rewrite (exec (dw_object_eq _ _ _ _ _ Ed Ho)).
Qed.

Lemma set_page_id f : set_page (page_ f) f = f.
Proof. by destruct f. Qed.

Lemma set_page_num_id f pn : fid_page_num (frame_id_ f) = pn → set_page_num pn f = f.
Proof. destruct f as [? ? ? [] ? ? ? ? ? ?]. cbn. by intros ->. Qed.

Lemma load_page_ok m w id fp f p q :
  heap m !! fp = Some f → frame_id_ f = id → page_wf (page_ f) → 0 ≤ fid_page_num id → world_ok w →
  id_to_buffer_pools_ w !! fid_buffer_pool_id id = Some p →
  stored w (fid_buffer_pool_id id) (fid_page_num id) = Some q →
  ∃ s' w', load_page p (fid_page_num id) fp (m, w) = Some (RC.SUCCESS, (upd m fp (set_page q f) s', w')) ∧
    quiet (fm_stats m) s' ∧ calm w w'.
Proof.
  intros Hf Hfid Hpw Hpn Hw Hid Hst. unfold load_page. rewrite (exec (frame_of_eq m w fp f Hf)).
  rewrite (exec (dw_read_page_eq m w _ p _ _ Hw Hid)). unfold stored in Hst.
  destruct (dw_entry w (mkDwKey (fid_buffer_pool_id id) (fid_page_num id))) as [o|] eqn:Ho.
  - injection Hst as <-. rewrite (exec (set_frame_eq m w fp f _ Hf)).
    exists (fm_stats m), w. done.
  - rewrite (exec (set_frame_eq m w fp f _ Hf)), set_page_id, upd_id by done.
    change (RC.OB_SUCC RC.BUFFERPOOL_INVALID_PAGE_NUM) with false. cbv iota.
    destruct (calm_clock m w) as (t1 & w1 & E1 & C1). rewrite (exec E1).
    pose proof (cm_ok _ _ C1 Hw) as (F1 & B1 & _).
    destruct (fo_pool _ F1 (fid_buffer_pool_id id) p) as (b & _ & Hb & _); [by rewrite (calm_reg _ _ _ C1)|].
    rewrite (exec (pool_at_eq _ _ _ _ Hb)), (exec (frame_of_eq m w1 fp f Hf)).
    assert (disk_page w1 (fid_buffer_pool_id id) (fid_page_num id) = Some q) as Hq1.
    { by rewrite (cm_disk _ _ C1). }
    destruct (io_read_ok w1 (fid_buffer_pool_id id) p b (fid_page_num id) (page_ f) q) as (s2 & E2 & X2 & Hf2);
      [done|done|by rewrite (calm_reg _ _ _ C1)|done|done|done|done|].
    rewrite (exec (on_os_eq _ m _ _ _ E2)).
    rewrite (exec (set_frame_eq m _ fp f _ Hf)).
    assert (calm w1 (set_os s2 w1)) as C2 by (by apply calm_intro).
    match goal with |- context [(on_os clock_now ≫= _) (?mm, ?ww)] => destruct (calm_clock mm ww) as (t3 & w3 & E3 & C3) end.
    rewrite (exec E3). cbv zeta. rewrite bool_decide_eq_false_2 by (by intros []).
    rewrite (exec (global_stat_eq _ _ _)).
    destruct (calm_pool (set_os s2 w1) w3 p b C3 Hb) as [sb Hb3].
    match goal with |- context [(pool_stat p ?g ≫= _) (?mm, w3)] => destruct (calm_stat p _ g mm w3 Hb3) as (w4 & E4 & C4) end.
    rewrite (exec E4).
    match goal with |- context [(set_frame fp ?g ≫= _) (?mm, w4)] =>
      rewrite (exec (set_frame_eq mm w4 fp (set_page q f) g (heap_upd m fp (set_page q f) (fm_stats m)))) end.
    rewrite set_page_num_id by (cbn; by rewrite Hfid).
    set (s' := record_disk_read BP_PAGE_SIZE (t3 - t1) (fm_stats m)).
    change (set_fm_stats _ (upd m fp (set_page q f) (fm_stats m))) with (upd m fp (set_page q f) s').
    rewrite upd_upd. exists s', w4.
    split; [done|split; [apply record_disk_read_quiet|etrans; [exact C1|]; etrans; [exact C2|]; by etrans]].
Qed.
End pool_safety.
