(* ===== verification/PageAccess.v ===== *)
(** * Fetching a page

    [get_this_page] of a file, on every path: page number check, cache hit, and
    a miss that takes a frame (evicting another page if need be) and loads the
    page into it.  The caller gets a pinned frame with the content of the page,
    whatever was evicted on the way. *)

From S2P Require Import Prelude Types Bytes Crc Os PageIO Bitmap LruCache MemPool Stats Latch Frame Replacement FrameManager FrameSafety BufferPool DoubleWrite DiskBufferPool StorageSafety PoolSafety.
Local Open Scope Z_scope.

Section page_access.
Context {P L : Type} `{!ReplacementPolicy P} `{!PolicyLaws P} `{!LogHandler L} `{!LogLaws L} `{HOrd : HashOrder}.
Notation World := (World L).
Notation Sys := (Sys L P).
Notation FM := (BPFrameManager (P:=P)).
Implicit Types (w : World) (pn : PageNum) (m : FM) (fp : Ptr).

(** ** The header of a file *)
(** The bytes overlaid by the [file_header_] of a registered file. *)
Definition header_data m w (id : Z) : option (list Z) :=
  p ← id_to_buffer_pools_ w !! id; b ← w_pools w !! p; h ← file_header_ b; f ← heap m !! h; Some (data (page_ f)).

Definition file_pages m w (id : Z) : Z := default 0 (d ← header_data m w id; hdr_page_count d).

(** Page [pn] of the file is in use. *)
Definition allocated m w (id : Z) pn : bool :=
  match header_data m w id with
  | Some d => (0 <=? pn) && (pn <? file_pages m w id) && Bitmap.bit (hdr_bitmap d) pn
  | None => false
  end.

(** What the invariant says about a file. *)
Record opened m w (id : Z) (p : Ptr) (b : DiskBufferPool) (h : Ptr) (f : Frame) (n a : Z) : Prop := {
  op_reg : id_to_buffer_pools_ w !! id = Some p;
  op_pool : w_pools w !! p = Some b;
  op_hdr : hdr_frame_ b = Some h;
  op_file : file_header_ b = Some h;
  op_cached : (mkFrameId id 0, h) ∈ frames_ m;
  op_frame : heap m !! h = Some f;
  op_pinned : 0 < pin_count_ f;
  op_ok : header_ok id (data (page_ f)) n a;
  op_page : page_wf (page_ f);
  op_stored : ∀ pn, 0 ≤ pn < n → is_Some (stored w id pn);
  op_bound : ∀ pn q, (mkFrameId id pn, q) ∈ frames_ m → pn < n
}.

Lemma opened_intro m w id p :
  sys_inv m w → id_to_buffer_pools_ w !! id = Some p → ∃ b h f n a, opened m w id p b h f n a.
Proof.
  intros I Hid. destruct (si_pool _ _ I id p Hid) as (b & h & f & n & a & Hb & H1 & H2 & Hin & Hf & Hp & Hh & Hs & Hc).
  exists b, h, f, n, a. split; try done. exact (si_heap _ _ I _ _ Hf).
Qed.

Section opened.
Context m w id p b h f n a (O : opened m w id p b h f n a).

Lemma header_data_eq : header_data m w id = Some (data (page_ f)).
Proof.
  unfold header_data. rewrite (op_reg _ _ _ _ _ _ _ _ _ O). cbn. rewrite (op_pool _ _ _ _ _ _ _ _ _ O). cbn.
  rewrite (op_file _ _ _ _ _ _ _ _ _ O). cbn. by rewrite (op_frame _ _ _ _ _ _ _ _ _ O).
Qed.

Lemma file_pages_eq : file_pages m w id = n.
Proof. unfold file_pages. rewrite header_data_eq. cbn. by rewrite (ho_count _ _ _ _ (op_ok _ _ _ _ _ _ _ _ _ O)). Qed.

Lemma allocated_eq pn : allocated m w id pn = (0 <=? pn) && (pn <? n) && Bitmap.bit (hdr_bitmap (data (page_ f))) pn.
Proof. unfold allocated. by rewrite header_data_eq, file_pages_eq. Qed.

Lemma header_eq : header p (m, w) = Some (data (page_ f), (m, w)).
Proof.
  unfold header. rewrite (exec (pool_at_eq _ _ _ _ (op_pool _ _ _ _ _ _ _ _ _ O))).
  rewrite (op_file _ _ _ _ _ _ _ _ _ O). exec_deref.
  by rewrite (exec (frame_of_eq m w h f (op_frame _ _ _ _ _ _ _ _ _ O))).
Qed.

Lemma page_count_eq : page_count p (m, w) = Some (n, (m, w)).
Proof. unfold page_count. rewrite (exec header_eq). by rewrite (ho_count _ _ _ _ (op_ok _ _ _ _ _ _ _ _ _ O)). Qed.

Lemma allocated_pages_eq : allocated_pages p (m, w) = Some (a, (m, w)).
Proof. unfold allocated_pages. rewrite (exec header_eq). by rewrite (ho_alloc _ _ _ _ (op_ok _ _ _ _ _ _ _ _ _ O)). Qed.

Lemma hdr_frame_eq : hdr_frame p (m, w) = Some (h, (m, w)).
Proof.
  unfold hdr_frame. rewrite (exec (pool_at_eq _ _ _ _ (op_pool _ _ _ _ _ _ _ _ _ O))).
  by rewrite (op_hdr _ _ _ _ _ _ _ _ _ O).
Qed.

Lemma hdr_bitmap_wf : Bitmap.wf (hdr_bitmap (data (page_ f))) MAX_PAGE_NUM.
Proof.
  destruct (op_page _ _ _ _ _ _ _ _ _ O) as [_ _ Hs Hc]. split; [by apply Forall_drop|].
  unfold hdr_bitmap. rewrite length_drop.
  unfold MAX_PAGE_NUM. assert (12 ≤ BP_PAGE_DATA_SIZE) by (by vm_compute). lia.
Qed.

Lemma header_bit_eq i : 0 ≤ i < MAX_PAGE_NUM → header_bit p i (m, w) = Some (Bitmap.bit (hdr_bitmap (data (page_ f))) i, (m, w)).
Proof.
  intros Hi. unfold header_bit. rewrite (exec header_eq).
  by rewrite (Bitmap.get_bit_spec _ MAX_PAGE_NUM i hdr_bitmap_wf Hi).
Qed.

Lemma check_page_num_eq pn :
  check_page_num p pn (m, w) =
    Some (if allocated m w id pn then RC.SUCCESS else RC.BUFFERPOOL_INVALID_PAGE_NUM, (m, w)).
Proof.
  unfold check_page_num. rewrite (exec page_count_eq), allocated_eq.
  pose proof (ho_range _ _ _ _ (op_ok _ _ _ _ _ _ _ _ _ O)).
  destruct (Z.ltb_spec pn 0), (Z.leb_spec 0 pn); try lia; [done|]. cbn [orb andb].
  destruct (Z.leb_spec n pn), (Z.ltb_spec pn n); try lia; [done|]. cbn [andb].
  rewrite (exec (header_bit_eq pn ltac:(lia))). by destruct (Bitmap.bit _ pn).
Qed.
End opened.

Lemma allocated_range m w id pn : sys_inv m w → allocated m w id pn = true → 0 ≤ pn < file_pages m w id.
Proof.
  unfold allocated. destruct (header_data m w id); [|done]. intros _ H.
  apply andb_prop in H as [[H1 H2]%andb_prop _]. lia.
Qed.

Lemma allocated_stored m w id p pn :
  sys_inv m w → id_to_buffer_pools_ w !! id = Some p → allocated m w id pn = true → ∃ q, stored w id pn = Some q.
Proof.
  intros I Hid Ha. destruct (opened_intro m w id p I Hid) as (b & h & f & n & a & O).
  pose proof (allocated_range _ _ _ _ I Ha) as Hr. rewrite (file_pages_eq _ _ _ _ _ _ _ _ _ O) in Hr.
  destruct (op_stored _ _ _ _ _ _ _ _ _ O pn Hr) as [q Hq]. by exists q.
Qed.

(** ** A page enters the cache *)
Lemma idle_not_cached m b rest : fm_wf m → frees (allocator_ m) = b :: rest → ∀ id fp, (id, fp) ∈ frames_ m → fp ≠ b.
Proof.
  intros W Hf id fp Hin ->. apply (pool_disj _ (fw_pool _ W) b); [rewrite Hf; left|].
  rewrite (fw_used _ W). apply elem_of_list_to_set. exact (list_elem_of_fmap_2 snd _ _ Hin).
Qed.

Lemma peek_cons (k id : FrameId) (b : Ptr) l : lru_peek k ((id, b) :: l) = if decide (k = id) then Some b else lru_peek k l.
Proof. cbn. repeat case_decide; congruence. Qed.

Lemma insert_inv m w id b x m' f s p :
  fm_wf m → sys_inv m w → handed_out m w id b x m' → page_wf (page_ f) → clean_ok w id f →
  id_to_buffer_pools_ w !! fid_buffer_pool_id id = Some p →
  0 ≤ fid_page_num id < file_pages m w (fid_buffer_pool_id id) →
  (∀ q, stored w (fid_buffer_pool_id id) (fid_page_num id) = Some q → data q = data (page_ f)) →
  sys_inv (upd m' b f s) w ∧ kept m w (upd m' b f s) w.
Proof.
  intros Wm I (rest & s' & Hmiss & Hfr & Hx & -> & W') Hpw Hcl Hreg Hpn Hd.
  pose proof (idle_not_cached m b rest Wm Hfr) as Hnc. pose proof I as [H1 H2 H3 H4 H5].
  assert (heap (upd (alloc_state m id b rest (fresh_frame id x) s') b f s) = <[b := f]> (heap m)) as Hh.
  { unfold upd, alloc_state, heap. cbn. by rewrite insert_insert_eq. }
  assert (∀ q, q ≠ b → <[b := f]> (heap m) !! q = heap m !! q) as Hne by (intros; by rewrite lookup_insert_ne).
  split.
  - split; try done.
    + intros q g. rewrite Hh. destruct (decide (q = b)) as [->|]; [|rewrite Hne by done; apply H3].
      rewrite lookup_insert_eq. by intros [= <-].
    + intros id' q g [[= -> ->]|Hq]%elem_of_cons; rewrite Hh.
      * rewrite lookup_insert_eq. intros [= <-]. split_and!; [lia|eauto|done].
      * rewrite Hne by (by eapply Hnc). by apply H4.
    + intros id' p' Hid. destruct (H5 id' p' Hid) as (bp & hp & hf & n & a & Hb & Hf1 & Hf2 & Hin & Hhf & Hp & Hok & Hbk & Hcap).
      exists bp, hp, hf, n, a. rewrite Hh, Hne by (by eapply Hnc). split_and!; try done; [by right|].
      intros pn q [E|Hq]%elem_of_cons; [|by apply (Hcap pn q)]. injection E as <- ->. cbn in *.
      destruct (opened_intro m w id' p' I Hid) as (bp2 & h2 & f2 & n2 & a2 & O).
      rewrite (file_pages_eq _ _ _ _ _ _ _ _ _ O) in Hpn. pose proof (op_pool _ _ _ _ _ _ _ _ _ O) as E1.
      rewrite Hb in E1. injection E1 as <-. pose proof (op_file _ _ _ _ _ _ _ _ _ O) as E1.
      rewrite Hf2 in E1. injection E1 as <-. pose proof (op_frame _ _ _ _ _ _ _ _ _ O) as E1.
      rewrite Hhf in E1. injection E1 as <-. pose proof (ho_count _ _ _ _ (op_ok _ _ _ _ _ _ _ _ _ O)) as E1.
      rewrite (ho_count _ _ _ _ Hok) in E1. injection E1 as <-. lia.
  - intros id' pn d. unfold content. rewrite Hh.
    change (frames_ (upd _ b f s)) with ((id, b) :: frames_ m). rewrite peek_cons.
    destruct (decide (mkFrameId id' pn = id)) as [<-|Hn].
    + rewrite Hmiss, lookup_insert_eq. cbn in *. destruct (stored w id' pn) as [q|]; [|done]. cbn. intros [= <-].
      by rewrite (Hd q eq_refl).
    + destruct (lru_peek (mkFrameId id' pn) (frames_ m)) as [q|] eqn:Hq; [|done]. rewrite Hne; [done|].
      apply lru_peek_elem in Hq; [by eapply Hnc|apply Wm].
Qed.

(** ** Steps that change one cached frame, not its page *)
Record touched m w fp f' m' : Prop := {
  to_wf : fm_wf m';
  to_inv : sys_inv m' w;
  to_kept : kept m w m' w;
  to_frames : frames_ m' = frames_ m;
  to_here : heap m' !! fp = Some f';
  to_other : ∀ q, q ≠ fp → heap m' !! q = heap m !! q
}.

Lemma touch_upd m w id fp f f' s :
  fm_wf m → sys_inv m w → (id, fp) ∈ frames_ m → heap m !! fp = Some f → cached_ok id f' → 0 < pin_count_ f' →
  page_ f' = page_ f → dirty_ f' = dirty_ f →
  s current_pinned_frames = fm_stats m current_pinned_frames + 1 - Z.b2z (pinned f) →
  s dirty_pages_current = fm_stats m dirty_pages_current →
  touched m w fp f' (upd m fp f' s).
Proof.
  intros Wm I Hin Hf Hok Hp Hpg Hdy Hs1 Hs2. destruct (si_frame _ _ I _ _ _ Hin Hf) as (_ & _ & Hcl).
  split; [|apply (upd_inv m w id fp f); try done| |done|apply heap_upd|intros; by apply heap_upd_ne].
  - apply (upd_wf m id fp f); try done.
    + unfold pinned at 1. rewrite (proj2 (Z.ltb_lt _ _)) by done. cbn. lia.
    + rewrite Hdy. lia.
  - rewrite Hpg. exact (si_heap _ _ I _ _ Hf).
  - unfold clean_ok. by rewrite Hdy, Hpg.
  - right. by rewrite Hpg.
  - apply (content_upd _ _ _ f); [done|by rewrite Hpg].
Qed.

Lemma access_eq m w fp f :
  heap m !! fp = Some f →
  ∃ t w', access fp (m, w) = Some (tt, (upd m fp (frame_access t f) (fm_stats m), w')) ∧ calm w w'.
Proof.
  intros Hf. unfold access. destruct (calm_clock m w) as (t & w1 & E1 & C1). exists t, w1.
  by rewrite (exec E1), (fm_do_eq _ _ _ _ _ (on_frame_set_eq fp (frame_access t) f m Hf)).
Qed.

Lemma access_ok m w id fp f :
  fm_wf m → sys_inv m w → (id, fp) ∈ frames_ m → heap m !! fp = Some f → 0 < pin_count_ f →
  ∃ f' m' w', access fp (m, w) = Some (tt, (m', w')) ∧ calm w w' ∧ touched m w' fp f' m' ∧
    page_ f' = page_ f ∧ pin_count_ f' = pin_count_ f ∧ dirty_ f' = dirty_ f ∧ frame_id_ f' = frame_id_ f.
Proof.
  intros Wm I Hin Hf Hp. destruct (access_eq m w fp f Hf) as (t & w1 & E1 & C1).
  exists (frame_access t f), (upd m fp (frame_access t f) (fm_stats m)), w1. split_and!; try done.
  destruct (calm_inv m w w1 I C1) as [I1 _]. pose proof (cached_frame _ _ _ _ Wm Hin Hf) as Hok.
  apply (touch_upd m w1 id fp f); try done.
  - destruct Hok. by split.
  - unfold pinned. rewrite (proj2 (Z.ltb_lt _ _)) by done. cbn. lia.
Qed.

Lemma fm_get_hit m w id fp f :
  fm_wf m → sys_inv m w → lru_peek id (frames_ m) = Some fp → heap m !! fp = Some f → pin_count_ f < 2 ^ 31 - 1 →
  ∃ m', fm_get (fid_buffer_pool_id id) (fid_page_num id) m = Some (Some fp, m') ∧
    touched m w fp (set_pin_count (pin_count_ f + 1) f) m'.
Proof.
  intros Wm I Hpk Hf Hb. unfold fm_get. replace (mkFrameId _ _) with id by (by destruct id).
  pose proof (get_internal_ok m id Wm) as Hg. rewrite Hpk in Hg. destruct Hg as (f0 & Hf0 & Hok & Hg).
  rewrite Hf in Hf0. injection Hf0 as <-. destruct (Hg Hb) as (s' & E & W'). eexists. split; [exact E|].
  apply lru_peek_elem in Hpk as Hin; [|apply Wm]. destruct (si_frame _ _ I _ _ _ Hin Hf) as (_ & _ & Hcl).
  split; [done| | |done| |].
  - apply set_policy_inv, (upd_inv m w id fp f); try done; [exact (si_heap _ _ I _ _ Hf)|]. right. cbn.
    pose proof (ck_pin _ _ Hok). split; [lia|done].
  - exact (content_upd m w fp f (set_pin_count (pin_count_ f + 1) f) s' Hf eq_refl).
  - exact (heap_upd m fp _ s').
  - intros q Hq. exact (heap_upd_ne m fp q _ s' Hq).
Qed.

Lemma fm_get_miss m id : fm_wf m → lru_peek id (frames_ m) = None →
  fm_get (fid_buffer_pool_id id) (fid_page_num id) m = Some (None, m).
Proof.
  intros Wm Hpk. unfold fm_get. replace (mkFrameId _ _) with id by (by destruct id).
  pose proof (get_internal_ok m id Wm) as Hg. by rewrite Hpk in Hg.
Qed.

Lemma touched_trans m w fp f1 m1 f2 m2 : touched m w fp f1 m1 → touched m1 w fp f2 m2 → touched m w fp f2 m2.
Proof.
  intros [] []. split; [done|done|by eapply kept_trans|congruence|done|].
  intros q Hq. rewrite to_other1 by done. by apply to_other0.
Qed.

Lemma touched_calm m w fp f' m' w' : touched m w fp f' m' → calm w w' → touched m w' fp f' m'.
Proof.
  intros [Wm I K Hfr Hh Ho] C. destruct (calm_inv _ _ _ I C) as [I' K']. split; try done.
  intros id pn d. specialize (K id pn d). unfold content in *. rewrite Hfr in *.
  by destruct (lru_peek (mkFrameId id pn) (frames_ m)).
Qed.

Lemma touched_stats m w fp f' s : fm_wf m → sys_inv m w → heap m !! fp = Some f' → quiet (fm_stats m) s → touched m w fp f' (set_fm_stats s m).
Proof. intros Wm I Hf [Q1 Q2]. split; try done; [by apply set_stats_wf|apply set_stats_inv, I|exact (kept_refl m w)]. Qed.

(** ** [get_this_page] *)
(** A pinned frame keeps its place and its content. *)
Definition pins_kept m m' : Prop :=
  ∀ id fp f, (id, fp) ∈ frames_ m → heap m !! fp = Some f → pin_count_ f ≠ 0 →
    (id, fp) ∈ frames_ m' ∧ ∃ f', heap m' !! fp = Some f' ∧ page_ f' = page_ f ∧ dirty_ f' = dirty_ f ∧ pin_count_ f ≤ pin_count_ f'.

(** No page is pinned [INT_MAX] times. *)
Definition pins_bounded m : Prop := ∀ fp f, heap m !! fp = Some f → pin_count_ f < 2 ^ 31 - 1.

(** A pinned frame with the page's content was handed to the caller. *)
Record fetched m w (id : FrameId) (fp : Ptr) m' (w' : World) : Prop := {
  fe_wf : fm_wf m';
  fe_inv : sys_inv m' w';
  fe_kept : kept m w m' w';
  fe_ext : extends w w';
  fe_pins : pins_kept m m';
  fe_others : pins_but id m m';
  fe_frame : ∃ f', (id, fp) ∈ frames_ m' ∧ heap m' !! fp = Some f' ∧ pin_count_ f' = pins m id + 1 ∧
    content m w (fid_buffer_pool_id id) (fid_page_num id) = Some (data (page_ f'))
}.

Lemma touched_pins m w id fp f' m' : fm_wf m → (id, fp) ∈ frames_ m → touched m w fp f' m' → pins_but id m m'.
Proof.
  intros Wm Hin T id' Hne. unfold pins. rewrite (to_frames _ _ _ _ _ T).
  destruct (lru_peek id' (frames_ m)) as [q|] eqn:Hq; [|done]. cbn. rewrite (to_other _ _ _ _ _ T); [done|].
  intros ->. apply Hne. apply lru_peek_elem in Hq; [|apply Wm]. exact (ptr_key_unique m _ _ fp Wm Hq Hin).
Qed.

Lemma touched_fetched m w id fp f f' m' w' :
  fm_wf m → lru_peek id (frames_ m) = Some fp → heap m !! fp = Some f → calm w w' → sys_inv m w →
  touched m w' fp f' m' → page_ f' = page_ f → pin_count_ f' = pin_count_ f + 1 → dirty_ f' = dirty_ f →
  fetched m w id fp m' w'.
Proof.
  intros Wm Hpk Hf C I T Hpg Hpc Hdy. apply lru_peek_elem in Hpk as Hin; [|apply Wm].
  split; [apply T|apply T| |apply C| |by eapply touched_pins|].
  - eapply kept_trans; [apply (calm_inv m w w' I C)|apply T].
  - intros id' q g Hq Hg Hne. rewrite (to_frames _ _ _ _ _ T). split; [done|].
    destruct (decide (q = fp)) as [->|Hn].
    + rewrite Hf in Hg. injection Hg as <-. exists f'. split_and!; [apply T|done|done|lia].
    + rewrite (to_other _ _ _ _ _ T) by done. by exists g.
  - exists f'. rewrite (to_frames _ _ _ _ _ T). split_and!; [done|apply T| |].
    + unfold pins. rewrite Hpk. cbn. by rewrite Hf.
    + unfold content. replace (mkFrameId _ _) with id by (by destruct id). rewrite Hpk, Hf. cbn. by rewrite Hpg.
Qed.

Lemma get_hit_ok m w id p pn fp f :
  fm_wf m → sys_inv m w → id_to_buffer_pools_ w !! id = Some p → allocated m w id pn = true →
  lru_peek (mkFrameId id pn) (frames_ m) = Some fp → heap m !! fp = Some f → pin_count_ f < 2 ^ 31 - 1 →
  ∃ m' w', get_this_page p pn (m, w) = Some ((RC.SUCCESS, Some fp), (m', w')) ∧ fetched m w (mkFrameId id pn) fp m' w' ∧
    ∃ f', heap m' !! fp = Some f' ∧ page_ f' = page_ f.
Proof.
  intros Wm I Hid Ha Hpk Hf Hb. destruct (opened_intro m w id p I Hid) as (b & h & hf & n & a & O).
  unfold get_this_page. rewrite (exec (check_page_num_eq _ _ _ _ _ _ _ _ _ O pn)), Ha.
  rewrite bool_decide_eq_false_2 by (by intros []).
  rewrite (exec (bp_id_eq m w id p (si_world _ _ I) Hid)).
  destruct (fm_get_hit m w (mkFrameId id pn) fp f Wm I Hpk Hf Hb) as (m1 & E1 & T1). cbn in E1.
  rewrite (exec (fm_do_eq _ _ w _ _ E1)).
  rewrite (exec (global_stat_eq _ _ _)). set (m2 := set_fm_stats _ m1).
  destruct (calm_stat p b (record_page_request true) m2 w (op_pool _ _ _ _ _ _ _ _ _ O)) as (w2 & E2 & C2).
  rewrite (exec E2).
  assert (touched m1 w fp (set_pin_count (pin_count_ f + 1) f) m2) as T2.
  { apply touched_stats; [apply T1|apply T1|apply T1|apply record_request_quiet]. }
  set (f1 := set_pin_count (pin_count_ f + 1) f) in *.
  rewrite (exec (frame_of_eq m2 w2 fp f1 (to_here _ _ _ _ _ T2))).
  destruct (calm_pool _ _ _ _ C2 (op_pool _ _ _ _ _ _ _ _ _ O)) as [sb2 Hb2].
  match goal with |- context [(pool_stat p ?g ≫= _) (m2, w2)] => destruct (calm_stat p _ g m2 w2 Hb2) as (w3 & E3 & C3) end.
  rewrite (exec E3).
  pose proof (touched_calm _ _ _ _ _ w3 (touched_trans _ _ _ _ _ _ _ T1 T2) ltac:(by etrans)) as T3.
  apply lru_peek_elem in Hpk as Hin; [|apply Wm].
  destruct (access_ok m2 w3 (mkFrameId id pn) fp f1) as (f4 & m4 & w4 & E4 & C4 & T4 & Hpg & Hpc & Hdy & _);
    [apply T3|apply T3|by rewrite (to_frames _ _ _ _ _ T3)|apply T3| |].
  { cbn. pose proof (ck_pin _ _ (cached_frame _ _ _ _ Wm Hin Hf)). lia. }
  rewrite (exec E4). exists m4, w4. split; [done|]. split; [|exists f4; split; [apply T4|done]].
  apply (touched_fetched m w _ fp f f4); try done; [etrans; [exact C2|by etrans]|].
  eapply touched_trans; [exact (touched_calm _ _ _ _ _ _ T3 C4)|exact T4].
Qed.

(** The header of a file is pinned, and stays. *)
Lemma header_data_kept m w m' w' id p :
  sys_inv m w → id_to_buffer_pools_ w !! id = Some p → extends w w' → pins_kept m m' →
  header_data m' w' id = header_data m w id.
Proof.
  intros I Hid X K. destruct (opened_intro m w id p I Hid) as (b & h & f & n & a & O).
  rewrite (header_data_eq _ _ _ _ _ _ _ _ _ O). unfold header_data. rewrite (ex_ids _ _ X), Hid. cbn.
  destruct (extends_pool_1 _ _ _ _ X (op_pool _ _ _ _ _ _ _ _ _ O)) as [s Hs]. rewrite Hs. cbn.
  rewrite (op_file _ _ _ _ _ _ _ _ _ O). cbn. pose proof (op_pinned _ _ _ _ _ _ _ _ _ O).
  destruct (K _ h f (op_cached _ _ _ _ _ _ _ _ _ O) (op_frame _ _ _ _ _ _ _ _ _ O)) as (_ & f' & Hf' & Hpg & _); [lia|].
  rewrite Hf'. cbn. by rewrite Hpg.
Qed.

Lemma allocated_kept m w m' w' id p :
  sys_inv m w → id_to_buffer_pools_ w !! id = Some p → extends w w' → pins_kept m m' →
  file_pages m' w' id = file_pages m w id ∧ ∀ pn, allocated m' w' id pn = allocated m w id pn.
Proof.
  intros I Hid X K. unfold allocated, file_pages. by rewrite (header_data_kept m w m' w' id p I Hid X K).
Qed.

Lemma pins_kept_same m m' : frames_ m' = frames_ m → heap m' = heap m → pins_kept m m'.
Proof. intros Hf Hh id fp f Hin Hx _. rewrite Hf, Hh. split; [done|]. by exists f. Qed.

Lemma pins_kept_refl m : pins_kept m m.
Proof. by apply pins_kept_same. Qed.

Lemma pins_kept_strong m m' :
  (∀ id fp f, (id, fp) ∈ frames_ m → heap m !! fp = Some f → pin_count_ f ≠ 0 →
     (id, fp) ∈ frames_ m' ∧ heap m' !! fp = Some f) → pins_kept m m'.
Proof. intros K id fp f Hin Hf Hp. destruct (K id fp f Hin Hf Hp) as [H1 H2]. split; [done|]. by exists f. Qed.

Lemma pins_kept_trans m1 m2 m3 : fm_wf m1 → pins_kept m1 m2 → pins_kept m2 m3 → pins_kept m1 m3.
Proof.
  intros W K1 K2 id fp f Hin Hf Hp. destruct (K1 id fp f Hin Hf Hp) as (Hin2 & f2 & Hf2 & H1 & H2 & H3).
  pose proof (ck_pin _ _ (cached_frame _ _ _ _ W Hin Hf)).
  destruct (K2 id fp f2 Hin2 Hf2) as (Hin3 & f3 & Hf3 & H4 & H5 & H6); [lia|].
  split; [done|]. exists f3. split_and!; try done; try congruence. lia.
Qed.

Lemma stored_wf w id pn q : world_ok w → stored w id pn = Some q → page_wf q.
Proof.
  intros (F & _ & Hd). unfold stored, dw_entry. destruct (dblwr_buffer_ w) as [d|].
  - destruct (dblwr_pages_ d !! mkDwKey id pn) as [o|] eqn:Ho; cbn.
    + destruct (do_entry _ _ Hd _ _ Ho) as (o' & -> & Hok). cbn. intros [= <-]. apply Hok.
    + intros (p & b & c & _ & _ & Hc & Hq)%disk_page_Some. eapply file_page_wf, Hq. by eapply (proj1 (fo_os _ F)).
  - intros (p & b & c & _ & _ & Hc & Hq)%disk_page_Some. eapply file_page_wf, Hq. by eapply (proj1 (fo_os _ F)).
Qed.

(** A page is loaded into the frame that was handed out for it. *)
Lemma fill_frame_ok m w id p pn b x m0 :
  fm_wf m → sys_inv m w → handed_out m w (mkFrameId id pn) b x m0 → id_to_buffer_pools_ w !! id = Some p →
  0 ≤ pn < file_pages m w id →
  ∃ f' s' w', (set_frame b (set_buffer_pool_id id);; access b;; load_page p pn b) (m0, w) =
      Some (RC.SUCCESS, (upd m0 b f' s', w')) ∧
    calm w w' ∧ fm_wf (upd m0 b f' s') ∧ sys_inv (upd m0 b f' s') w' ∧ kept m w (upd m0 b f' s') w' ∧
    pins_kept m (upd m0 b f' s') ∧ pins_but (mkFrameId id pn) m (upd m0 b f' s') ∧ pin_count_ f' = 1 ∧ content m w id pn = Some (data (page_ f')).
Proof.
  intros Wm I Ho Hid Hpn. pose proof Ho as (rest & s0 & Hmiss & Hfr & Hx & E0 & W0).
  set (f0 := fresh_frame (mkFrameId id pn) x). assert (heap m0 !! b = Some f0) as Hf0.
  { rewrite E0. unfold heap. cbn. by rewrite lookup_insert_eq. }
  assert ((mkFrameId id pn, b) ∈ frames_ m0) as Hin0 by (rewrite E0; left).
  pose proof (cached_frame _ _ _ _ W0 Hin0 Hf0) as Hok.
  destruct (fw_idle _ Wm b x) as [_ Hxd _ _]; [rewrite Hfr; left|done|].
  rewrite (exec (set_frame_eq m0 w b f0 _ Hf0)).
  replace (set_buffer_pool_id id f0) with f0 by done. rewrite upd_id by done.
  destruct (access_eq m0 w b f0 Hf0) as (t & w1 & E1 & C1). rewrite (exec E1).
  set (f1 := frame_access t f0). set (m1 := upd m0 b f1 (fm_stats m0)).
  destruct (opened_intro m w id p I Hid) as (bp & h & hf & n & a & O). pose proof Hpn as Hpn'.
  rewrite (file_pages_eq _ _ _ _ _ _ _ _ _ O) in Hpn'. destruct (op_stored _ _ _ _ _ _ _ _ _ O pn Hpn') as [q Hq].
  destruct (calm_inv m w w1 I C1) as [I1 K1]. pose proof (stored_wf w id pn q (si_world _ _ I) Hq) as Hqw.
  destruct (load_page_ok m1 w1 (mkFrameId id pn) b f1 p q) as (s' & w2 & E2 & Q2 & C2);
    [apply heap_upd|done|exact (si_heap _ _ I _ _ Hx)|cbn; lia|apply I1|by rewrite (calm_reg _ _ _ C1)|
     by rewrite (cm_stored _ _ C1)|].
  exists (set_page q f1), s', w2. cbn [fid_page_num] in E2. rewrite E2. unfold m1. rewrite upd_upd.
  assert (calm w w2) as C by (by etrans). destruct (calm_inv m w w2 I C) as [I2 K2].
  split; [done|]. split; [done|].
  destruct (allocated_kept m w m w2 id p I Hid (cm_ext _ _ C) (pins_kept_refl m)) as [Hfp _].
  destruct (insert_inv m w2 (mkFrameId id pn) b x m0 (set_page q f1) s' p) as [I3 K3]; try done.
  - intros _. exists q. split; [cbn; by rewrite (cm_stored _ _ C)|done].
  - cbn. by rewrite (calm_reg _ _ _ C).
  - cbn. by rewrite Hfp.
  - cbn. rewrite (cm_stored _ _ C), Hq. by intros q' [= <-].
  - split_and!; try done.
    + destruct Q2 as [Q2a Q2b]. apply (upd_wf m0 (mkFrameId id pn) b f0); [done|done|done|destruct Hok; by split|rewrite Q2a|rewrite Q2b].
      * change (pinned (set_page q f1)) with (pinned f0). change (fm_stats m1) with (fm_stats m0). lia.
      * change (dirty_ (set_page q f1)) with (dirty_ f0). change (fm_stats m1) with (fm_stats m0). lia.
    + by eapply kept_trans.
    + intros id' fp f Hin Hf Hp. rewrite E0. split; [by right|]. exists f. split_and!; try done.
      pose proof (idle_not_cached m b rest Wm Hfr id' fp Hin) as Hne. rewrite heap_upd_ne by done. unfold heap. cbn.
      by rewrite lookup_insert_ne.
    + intros id' Hne'. unfold pins. cbn [frames_ upd]. rewrite E0. cbn [frames_ alloc_state]. rewrite peek_cons, decide_False by done.
      destruct (lru_peek id' (frames_ m)) as [r|] eqn:Hr; [|done]. cbn [mbind option_bind]. apply lru_peek_elem in Hr; [|apply Wm].
      pose proof (idle_not_cached m b rest Wm Hfr id' r Hr) as Hne. rewrite heap_upd_ne by done. unfold heap. cbn.
      by rewrite lookup_insert_ne.
    + unfold content. rewrite Hmiss, Hq. done.
Qed.

(** Misses are answered from the stored page, in a frame of their own. *)
Lemma get_miss_ok m w id p pn :
  fm_wf m → sys_inv m w → id_to_buffer_pools_ w !! id = Some p → allocated m w id pn = true →
  lru_peek (mkFrameId id pn) (frames_ m) = None →
  (∃ m' w', get_this_page p pn (m, w) = Some ((RC.BUFFERPOOL_NOBUF, None), (m', w')) ∧
     Z.of_nat (length (frames_ m)) = capacity_ m ∧ unpinned_count m = 0 ∧
     fm_wf m' ∧ sys_inv m' w' ∧ kept m w m' w' ∧ extends w w' ∧ pins_kept m m' ∧ same_pins m m') ∨
  (∃ fp m' w', get_this_page p pn (m, w) = Some ((RC.SUCCESS, Some fp), (m', w')) ∧ fetched m w (mkFrameId id pn) fp m' w').
Proof.
  intros Wm I Hid Ha Hmiss. destruct (opened_intro m w id p I Hid) as (b & h & hf & n & a & O).
  unfold get_this_page. rewrite (exec (check_page_num_eq _ _ _ _ _ _ _ _ _ O pn)), Ha.
  rewrite bool_decide_eq_false_2 by (by intros []).
  rewrite (exec (bp_id_eq m w id p (si_world _ _ I) Hid)).
  rewrite (exec (fm_do_eq _ _ w _ _ (fm_get_miss m (mkFrameId id pn) Wm Hmiss))).
  rewrite (exec (global_stat_eq _ _ _)). set (m1 := set_fm_stats _ m).
  destruct (calm_stat p b (record_page_request false) m1 w (op_pool _ _ _ _ _ _ _ _ _ O)) as (w1 & E1 & C1).
  rewrite (exec E1).
  assert (fm_wf m1) as W1 by (destruct (record_request_quiet false (fm_stats m)); by apply set_stats_wf).
  destruct (calm_inv m1 w w1 (set_stats_inv m w _ I) C1) as [I1 K1].
  assert (id_to_buffer_pools_ w1 !! id = Some p) as Hid1 by (by rewrite (calm_reg _ _ _ C1)).
  destruct (allocated_kept m w m1 w1 id p I Hid (cm_ext _ _ C1) (pins_kept_same m m1 eq_refl eq_refl)) as [Hfp1 Ha1].
  destruct (opened_intro m1 w1 id p I1 Hid1) as (b1 & h1 & hf1 & n1 & a1 & O1).
  rewrite (exec (check_page_num_eq _ _ _ _ _ _ _ _ _ O1 pn)), Ha1, Ha.
  rewrite bool_decide_eq_false_2 by (by intros []).
  rewrite (exec (fm_do_eq _ _ w1 _ _ (fm_get_miss m1 (mkFrameId id pn) W1 Hmiss))).
  destruct (allocate_frame_ok m1 w1 id p pn W1 I1 Hid1 Hmiss) as
    [(m2 & w2 & E2 & Hlen & Hun & W2 & I2 & K2 & X2 & _ & Hp2 & Hsm2)|(m2 & w2 & fp & x & m3 & E2 & W2 & I2 & K2 & X2 & Hs2 & Hp2 & Hsm2 & Ho)].
  - left. rewrite (exec E2). rewrite bool_decide_eq_true_2 by done.
    exists m2, w2. split_and!; try done; [by eapply kept_trans|by etrans; [apply C1|]|].
    by apply (pins_kept_strong m m2).
  - right. rewrite (exec E2). rewrite bool_decide_eq_false_2 by (by intros []).
    exec_deref. pose proof (pins_kept_strong _ _ Hp2) as P2.
    destruct (allocated_kept m1 w1 m2 w2 id p I1 Hid1 X2 P2) as [Hfp2 Ha2].
    destruct (fill_frame_ok m2 w2 id p pn fp x m3 W2 I2 Ho) as (f' & s' & w' & E3 & C3 & W3 & I3 & K3 & P3 & B3 & Hpc & Hct).
    { by rewrite (ex_ids _ _ X2). }
    { apply (allocated_range m2 w2); [done|]. by rewrite Ha2, Ha1. }
    apply bind_Some in E3 as ([] & [m4 w4] & E4 & E5). rewrite (exec E4).
    apply bind_Some in E5 as ([] & [m5 w5] & E5 & E6). rewrite (exec E5), (exec E6).
    rewrite bool_decide_eq_false_2 by (by intros []).
    rewrite (exec (frame_of_eq _ w' fp f' (heap_upd _ _ _ _))).
    destruct (opened_intro (upd m3 fp f' s') w' id p I3) as (b3 & h3 & hf3 & n3 & a3 & O3);
      [by rewrite (calm_reg _ _ _ C3), (ex_ids _ _ X2)|].
    match goal with |- context [(pool_stat p ?g ≫= _) (?mm, w')] =>
      destruct (calm_stat p b3 g mm w' (op_pool _ _ _ _ _ _ _ _ _ O3)) as (w6 & E7 & C7) end.
    rewrite (exec E7). destruct (calm_inv _ _ _ I3 C7) as [I7 K7].
    exists fp, (upd m3 fp f' s'), w6. split; [done|].
    assert (kept m w m2 w2) as K by (by eapply kept_trans; [exact K1|]).
    split; try done.
    + eapply kept_trans; [exact K|]. by eapply kept_trans.
    + etrans; [apply C1|]. etrans; [exact X2|]. etrans; [apply C3|apply C7].
    + apply (pins_kept_trans m m2); [done|exact P2|exact P3].
    + intros id' Hne. rewrite B3 by done. apply Hsm2.
    + exists f'. split_and!.
      * destruct Ho as (rest & s0 & _ & _ & _ & -> & _). left.
      * apply heap_upd.
      * unfold pins. by rewrite Hmiss.
      * cbn. destruct (allocated_stored m w id p pn I Hid Ha) as [q Hq].
        assert (content m w id pn = Some (data q)) as Hc by (unfold content; by rewrite Hmiss, Hq).
        rewrite Hc, <-Hct. symmetry. by apply K.
Qed.
End page_access.
