(* ===== verification/RecordPage.v ===== *)
(** * Record pages

    Models the page layout of [storage/record/record_manager.h] and
    [record_manager.cpp]: the [PageHeader] at the start of a page, the bitmap of
    used slots behind it, the column index and the records, as functions on the
    chars of a page.  Reading or writing outside the page is [None].  A well-formed
    page is a finite map from slots to records; the lemmas say what the steps of
    the row handler's methods do to that map. *)

From S2P Require Import Prelude Types Bytes Bitmap.
Local Open Scope Z_scope.

(** ** [struct RID] *)
Record RID : Type := mkRID { rid_page_num : PageNum; rid_slot_num : SlotNum }.

#[global] Instance RID_eq_dec : EqDecision RID.
Proof. solve_decision. Defined.
#[global] Instance RID_countable : Countable RID.
Proof. by refine (inj_countable' (λ r, (rid_page_num r, rid_slot_num r)) (λ p, mkRID p.1 p.2) _); intros []. Defined.

(** [RID::compare]: the differences are [int]s. *)
Definition rid_compare (r1 r2 : RID) : Z :=
  let page_diff := swrap 32 (rid_page_num r1 - rid_page_num r2) in
  if negb (page_diff =? 0) then page_diff else swrap 32 (rid_slot_num r1 - rid_slot_num r2).

Definition rid_min : RID := mkRID 0 0.
Definition rid_max : RID := mkRID (2 ^ 31 - 1) (2 ^ 31 - 1).

(** ** [struct PageHeader] *)
Definition PAGE_HEADER_SIZE : Z := 7 * 4.

Definition record_num (d : list Z) : option Z := get_i32 d 0.
Definition column_num (d : list Z) : option Z := get_i32 d 4.
Definition record_real_size (d : list Z) : option Z := get_i32 d 8.
Definition record_size (d : list Z) : option Z := get_i32 d 12.
Definition record_capacity (d : list Z) : option Z := get_i32 d 16.
Definition col_idx_offset (d : list Z) : option Z := get_i32 d 20.
Definition data_offset (d : list Z) : option Z := get_i32 d 24.

Definition add_record_num (d : list Z) (k : Z) : option (list Z) :=
  n ← record_num d; set_i32 d 0 (swrap 32 (n + k)).

(** ** Layout *)
Definition align8 (size : Z) : Z := Z.land (size + 7) (Z.lnot 7).

(** [(int)((page_size - PAGE_HEADER_SIZE - fixed_size - 1) / (record_size + 0.125))].
    The quotient of these small numbers is never closer to an integer than the
    rounding error of a [double] unless it is one, so the exact quotient, cut off,
    is the result. *)
Definition page_record_capacity (page_size record_size fixed_size : Z) : Z :=
  Z.quot (8 * (page_size - PAGE_HEADER_SIZE - fixed_size - 1)) (8 * record_size + 1).

Definition page_bitmap_size (record_capacity : Z) : Z := Z.quot (record_capacity + 7) 8.

(** [fix_record_capacity]: a round takes [record_size] off the end; with a
    positive size there are no more rounds than bytes too many. *)
Fixpoint fix_loop (n : nat) (last_record_offset record_capacity record_size : Z) : option Z :=
  if BP_PAGE_DATA_SIZE <? last_record_offset then
    match n with
    | O => None
    | S n => fix_loop n (last_record_offset - record_size) (record_capacity - 1) record_size
    end
  else Some record_capacity.

Definition fix_record_capacity (data_offset record_capacity record_size : Z) : option Z :=
  let last_record_offset := data_offset + record_capacity * record_size in
  fix_loop (Z.to_nat (last_record_offset - BP_PAGE_DATA_SIZE)) last_record_offset record_capacity record_size.

(** The header, then the cleared bitmap, as both versions of [init_empty_page]
    write them; [None] also if the [ASSERT] on the page size fails. *)
Definition init_layout (d : list Z) (record_size_ column_num_ : Z) : option (list Z) :=
  let size := align8 record_size_ in
  let capacity := page_record_capacity BP_PAGE_DATA_SIZE size (column_num_ * 4) in
  let index := align8 (PAGE_HEADER_SIZE + page_bitmap_size capacity) in
  let offset := index + column_num_ * 4 in
  capacity ← fix_record_capacity offset capacity size;
  d ← set_i32 d 0 0;
  d ← set_i32 d 4 column_num_;
  d ← set_i32 d 8 record_size_;
  d ← set_i32 d 12 size;
  d ← set_i32 d 16 capacity;
  d ← set_i32 d 20 index;
  d ← set_i32 d 24 offset;
  if BP_PAGE_DATA_SIZE <? offset + capacity * size then None
  else if page_bitmap_size capacity <? 0 then None
  else set_bytes d 28 (replicate (Z.to_nat (page_bitmap_size capacity)) 0).

(** [column_index[i]]: the end of column [i], relative to the data. *)
Fixpoint column_ends (lens : list Z) (record_capacity prev : Z) : list Z :=
  match lens with
  | [] => []
  | len :: lens => let e := len * record_capacity + prev in e :: column_ends lens record_capacity e
  end.

Definition set_column_index (d : list Z) (bytes : list Z) : option (list Z) :=
  index ← col_idx_offset d;
  if index <? 0 then None else set_bytes d (Z.to_nat index) bytes.

(** ** Slots *)
Definition page_bitmap (d : list Z) : list Z := drop 28 d.
Definition set_page_bitmap (d bm : list Z) : list Z := take 28 d ++ bm.

Definition slot_used (d : list Z) (i : SlotNum) : option bool := Bitmap.get_bit (page_bitmap d) i.
Definition use_slot (d : list Z) (i : SlotNum) : option (list Z) :=
  set_page_bitmap d <$> Bitmap.set_bit (page_bitmap d) i.
Definition release_slot (d : list Z) (i : SlotNum) : option (list Z) :=
  set_page_bitmap d <$> Bitmap.clear_bit (page_bitmap d) i.
Definition free_slot (d : list Z) : option SlotNum :=
  c ← record_capacity d; Bitmap.next_unsetted_bit (page_bitmap d) c 0.
Definition next_used_slot (d : list Z) (start : SlotNum) : option SlotNum :=
  c ← record_capacity d; Bitmap.next_setted_bit (page_bitmap d) c start.

(** [get_record_data], then the record's bytes, read and written in place. *)
Definition record_offset (d : list Z) (i : SlotNum) : option nat :=
  o ← data_offset d; s ← record_size d;
  let off := o + s * i in
  if off <? 0 then None else Some (Z.to_nat off).
Definition read_record (d : list Z) (i : SlotNum) : option (list Z) :=
  off ← record_offset d i; n ← record_real_size d;
  if n <? 0 then None else get_bytes d off (Z.to_nat n).
Definition write_record (d : list Z) (i : SlotNum) (bs : list Z) : option (list Z) :=
  off ← record_offset d i; n ← record_real_size d;
  if n <? 0 then None else src ← get_bytes bs 0 (Z.to_nat n); set_bytes d off src.

Definition page_full (d : list Z) : option bool := n ← record_num d; c ← record_capacity d; Some (c <=? n).
Definition page_empty (d : list Z) : option bool := n ← record_num d; Some (n =? 0).

(** [PaxRecordPageHandler::get_field_len] and [get_field_data] (as an offset). *)
Definition column_end (d : list Z) (col_id : Z) : option Z :=
  index ← col_idx_offset d;
  if index + 4 * col_id <? 0 then None else get_i32 d (Z.to_nat (index + 4 * col_id)).
Definition get_field_len (d : list Z) (col_id : Z) : option Z :=
  c ← record_capacity d;
  if c =? 0 then None
  else if col_id =? 0 then e ← column_end d 0; Some (Z.quot e c)
  else e ← column_end d col_id; b ← column_end d (col_id - 1); Some (Z.quot (e - b) c).
Definition get_field_data (d : list Z) (i : SlotNum) (col_id : Z) : option Z :=
  o ← data_offset d; len ← get_field_len d col_id;
  if col_id =? 0 then Some (o + len * i)
  else b ← column_end d (col_id - 1); Some (o + b + len * i).

(** ** The geometry of a page *)
Record Geometry : Type := mkGeometry {
  g_columns : Z;
  g_real : Z;
  g_size : Z;
  g_capacity : Z;
  g_index : Z;
  g_data : Z
}.

(** Header, bitmap, column index and records follow each other inside the page. *)
Record geometry_ok (g : Geometry) : Prop := {
  go_columns : 0 ≤ g_columns g;
  go_real : 0 < g_real g ≤ g_size g;
  go_capacity : 0 ≤ g_capacity g;
  go_bitmap : PAGE_HEADER_SIZE + page_bitmap_size (g_capacity g) ≤ g_index g;
  go_index : g_index g + 4 * g_columns g ≤ g_data g;
  go_data : g_data g + g_capacity g * g_size g ≤ BP_PAGE_DATA_SIZE
}.

Definition record_slot_offset (g : Geometry) (i : SlotNum) : nat := Z.to_nat (g_data g + g_size g * i).

(** The header's constant fields. *)
Record header_fields (d : list Z) (g : Geometry) : Prop := {
  hf_columns : column_num d = Some (g_columns g);
  hf_real : record_real_size d = Some (g_real g);
  hf_size : record_size d = Some (g_size g);
  hf_capacity : record_capacity d = Some (g_capacity g);
  hf_index : col_idx_offset d = Some (g_index g);
  hf_data : data_offset d = Some (g_data g)
}.

(** A page seen as a counter, a set of used slots and the bytes of every slot. *)
Record page_view (d : list Z) (g : Geometry) (n : Z) (used : SlotNum → bool) (bytes : SlotNum → list Z) : Prop := {
  pv_size : Z.of_nat (length d) = BP_PAGE_DATA_SIZE;
  pv_chars : chars d;
  pv_geometry : geometry_ok g;
  pv_header : header_fields d g;
  pv_num : record_num d = Some n;
  pv_used : ∀ i, 0 ≤ i < g_capacity g → Bitmap.bit (page_bitmap d) i = used i;
  pv_bytes : ∀ i, 0 ≤ i < g_capacity g → get_bytes d (record_slot_offset g i) (Z.to_nat (g_real g)) = Some (bytes i)
}.

Lemma data_size_eq : BP_PAGE_DATA_SIZE = 8180.
Proof. reflexivity. Qed.

(** Writes behind the header keep its fields. *)
Lemma header_fields_kept d d' g :
  (∀ off, (4 ≤ off)%nat → (off + 4 ≤ 28)%nat → get_i32 d' off = get_i32 d off) → header_fields d g → header_fields d' g.
Proof.
  intros H [H1 H2 H3 H4 H5 H6].
  split; unfold column_num, record_real_size, record_size, record_capacity, col_idx_offset, data_offset in *;
    rewrite H; by (done || lia).
Qed.

Lemma slot_bounds g i :
  geometry_ok g → 0 ≤ i < g_capacity g →
  28 ≤ g_data g ∧ 28 + page_bitmap_size (g_capacity g) ≤ Z.of_nat (record_slot_offset g i) ∧
  Z.of_nat (record_slot_offset g i) = g_data g + g_size g * i ∧
  Z.of_nat (record_slot_offset g i) + g_size g ≤ BP_PAGE_DATA_SIZE.
Proof.
  intros [Hc Hr Hcap Hb Hi Hd] Hi'. unfold PAGE_HEADER_SIZE in Hb. unfold record_slot_offset.
  assert (0 ≤ page_bitmap_size (g_capacity g)) by (unfold page_bitmap_size; apply Z.quot_pos; lia).
  assert (28 ≤ g_data g) by lia. assert (g_size g * i + g_size g ≤ g_capacity g * g_size g) by nia.
  rewrite Z2Nat.id by nia. split_and!; nia.
Qed.

(** The byte of a slot's bit lies before the column index. *)
Lemma slot_byte g i : geometry_ok g → 0 ≤ i < g_capacity g → 28 + i / 8 < g_index g ∧ i / 8 < page_bitmap_size (g_capacity g).
Proof.
  intros [Hc Hr Hcap Hb Hi Hd] Hi'. unfold PAGE_HEADER_SIZE, page_bitmap_size in *.
  rewrite Z.quot_div_nonneg in * by lia. pose proof (Z.div_le_mono i (g_capacity g - 1) 8).
  assert ((g_capacity g + 7) / 8 = (g_capacity g - 1) / 8 + 1) as E.
  { replace (g_capacity g + 7) with (g_capacity g - 1 + 1 * 8) by lia. by rewrite Z.div_add. }
  lia.
Qed.

Lemma page_bitmap_wf d g n u b : page_view d g n u b → Bitmap.wf (page_bitmap d) (g_capacity g).
Proof.
  intros V. pose proof (pv_size _ _ _ _ _ V) as Hs. rewrite data_size_eq in Hs. split; [apply Forall_drop, V|].
  unfold page_bitmap. rewrite length_drop. destruct (pv_geometry _ _ _ _ _ V) as [Hc Hr Hcap Hb Hi Hd].
  unfold PAGE_HEADER_SIZE, page_bitmap_size in *. rewrite data_size_eq in Hd. rewrite Z.quot_div_nonneg in * by lia.
  pose proof (Z.div_mod (g_capacity g + 7) 8). pose proof (Z.mod_pos_bound (g_capacity g + 7) 8). nia.
Qed.

(** *** Storing the counter *)
Lemma view_set_num d g n u b z :
  page_view d g n u b → in_srange 32 z → ∃ d', set_i32 d 0 z = Some d' ∧ page_view d' g z u b.
Proof.
  intros V Hz. pose proof (pv_size _ _ _ _ _ V) as Hs. rewrite data_size_eq in Hs.
  destruct (set_i32_Some d 0 z) as [d' E]; [lia|]. exists d'. split; [done|]. destruct V as [_ Hc Hg Hh Hn Hu Hb].
  assert (∀ i, (4 ≤ i)%nat → d' !! i = d !! i) as Hl.
  { intros i Hi. rewrite (set_bytes_lookup _ _ _ _ _ E), le_bytes_length, decide_False by lia. done. }
  split; [by rewrite (set_i32_length _ _ _ _ E), Hs|by eapply set_i32_chars|done| |exact (get_set_i32 _ _ _ _ E Hz)| |].
  - eapply header_fields_kept; [|done]. intros off Ho1 Ho2. apply (get_set_i32_other _ _ _ _ _ E). lia.
  - intros i Hi. rewrite <-Hu by done. f_equal. unfold page_bitmap. apply list_eq. intros k. rewrite !lookup_drop. apply Hl. lia.
  - intros i Hi. rewrite <-Hb by done. apply get_bytes_eq; [by eapply set_i32_length|]. intros k Hk. apply Hl.
    destruct (slot_bounds g i Hg Hi) as (_ & ? & _ & _).
    assert (0 ≤ page_bitmap_size (g_capacity g)) by (unfold page_bitmap_size; apply Z.quot_pos; destruct Hg; lia). lia.
Qed.

(** *** Storing a bit *)
Lemma set_page_bitmap_bitmap d bm : (28 ≤ length d)%nat → page_bitmap (set_page_bitmap d bm) = bm.
Proof. intros H. unfold page_bitmap, set_page_bitmap. rewrite drop_app_length'; [done|]. rewrite length_take. lia. Qed.

Lemma page_set_bitmap_view d g n u b bm i v k z :
  page_view d g n u b → 0 ≤ i < g_capacity g → Bitmap.updated (page_bitmap d) i v bm →
  bm = <[k := z]> (page_bitmap d) → k = Z.to_nat (i / 8) →
  page_view (set_page_bitmap d bm) g n (λ j, if decide (j = i) then v else u j) b.
Proof.
  intros V Hi (Hlen & Hch & Hbit) Hbm Hk. pose proof (pv_size _ _ _ _ _ V) as Hs. rewrite data_size_eq in Hs.
  destruct V as [_ Hc Hg Hh Hn Hu Hb]. assert (28 ≤ length d)%nat as H28 by lia.
  assert (length (set_page_bitmap d bm) = length d) as Hl.
  { unfold set_page_bitmap, page_bitmap in *. rewrite length_app, length_take, Hlen, length_drop. lia. }
  assert (∀ j, j ≠ (28 + k)%nat → set_page_bitmap d bm !! j = d !! j) as Hlk.
  { intros j Hj. unfold set_page_bitmap. destruct (decide (j < 28)%nat).
    - rewrite lookup_app_l by (rewrite length_take; lia). by apply lookup_take_lt.
    - rewrite lookup_app_r by (rewrite length_take; lia). rewrite length_take, Hbm, list_lookup_insert_ne by lia.
      unfold page_bitmap. rewrite lookup_drop. f_equal. lia. }
  destruct (slot_byte g i Hg Hi) as [Hby1 Hby2]. assert (0 ≤ i / 8) by (apply Z.div_pos; lia).
  split; [by rewrite Hl, data_size_eq| |done| | | |].
  - apply Forall_app; split; [by apply Forall_take|]. apply Hch. by apply Forall_drop.
  - eapply header_fields_kept; [|done]. intros off Ho1 Ho2. unfold get_i32. f_equal. apply get_bytes_eq; [done|].
    intros j Hj. apply Hlk. lia.
  - rewrite <-Hn. unfold record_num, get_i32. f_equal. apply get_bytes_eq; [done|]. intros j Hj. apply Hlk. lia.
  - intros j Hj. rewrite set_page_bitmap_bitmap by done. rewrite Hbit by lia. repeat case_decide; try done. by apply Hu.
  - intros j Hj. rewrite <-Hb by done. apply get_bytes_eq; [done|]. intros m Hm. apply Hlk.
    destruct (slot_bounds g j Hg Hj) as (_ & ? & _ & _). lia.
Qed.

Lemma set_bit_insert bm i bm' : Bitmap.set_bit bm i = Some bm' → 0 ≤ i → ∃ z, bm' = <[Z.to_nat (i / 8) := z]> bm.
Proof.
  unfold Bitmap.set_bit. intros E Hi. rewrite (proj2 (Z.ltb_ge _ _)) in E by done. rewrite Z.quot_div_nonneg in E by lia.
  destruct (Bitmap.byte_at bm (i / 8)); [|done]. injection E as <-. by eexists.
Qed.

Lemma clear_bit_insert bm i bm' : Bitmap.clear_bit bm i = Some bm' → 0 ≤ i → ∃ z, bm' = <[Z.to_nat (i / 8) := z]> bm.
Proof.
  unfold Bitmap.clear_bit. intros E Hi. rewrite (proj2 (Z.ltb_ge _ _)) in E by done. rewrite Z.quot_div_nonneg in E by lia.
  destruct (Bitmap.byte_at bm (i / 8)); [|done]. injection E as <-. by eexists.
Qed.

Lemma view_use_slot d g n u b i :
  page_view d g n u b → 0 ≤ i < g_capacity g →
  ∃ d', use_slot d i = Some d' ∧ page_view d' g n (λ j, if decide (j = i) then true else u j) b.
Proof.
  intros V Hi. destruct (Bitmap.set_bit_updated _ _ i (page_bitmap_wf _ _ _ _ _ V) Hi) as (bm & E & U).
  destruct (set_bit_insert _ _ _ E ltac:(lia)) as [z Hz]. exists (set_page_bitmap d bm). unfold use_slot. rewrite E.
  split; [done|]. by eapply page_set_bitmap_view.
Qed.

Lemma view_release_slot d g n u b i :
  page_view d g n u b → 0 ≤ i < g_capacity g →
  ∃ d', release_slot d i = Some d' ∧ page_view d' g n (λ j, if decide (j = i) then false else u j) b.
Proof.
  intros V Hi. destruct (Bitmap.clear_bit_updated _ _ i (page_bitmap_wf _ _ _ _ _ V) Hi) as (bm & E & U).
  destruct (clear_bit_insert _ _ _ E ltac:(lia)) as [z Hz]. exists (set_page_bitmap d bm). unfold release_slot. rewrite E.
  split; [done|]. by eapply page_set_bitmap_view.
Qed.

(** *** Reading and storing a record *)
Lemma record_offset_eq d g n u b i :
  page_view d g n u b → 0 ≤ i < g_capacity g → record_offset d i = Some (record_slot_offset g i).
Proof.
  intros V Hi. destruct (slot_bounds g i (pv_geometry _ _ _ _ _ V) Hi) as (_ & _ & He & _). destruct (pv_header _ _ _ _ _ V).
  unfold record_offset. rewrite hf_data0, hf_size0. cbn. rewrite (proj2 (Z.ltb_ge _ _)) by lia. done.
Qed.

Lemma view_read_record d g n u b i :
  page_view d g n u b → 0 ≤ i < g_capacity g → read_record d i = Some (b i).
Proof.
  intros V Hi. unfold read_record. rewrite (record_offset_eq _ _ _ _ _ _ V Hi). destruct (pv_header _ _ _ _ _ V). rewrite hf_real0. cbn.
  destruct (go_real _ (pv_geometry _ _ _ _ _ V)). rewrite (proj2 (Z.ltb_ge _ _)) by lia. by apply (pv_bytes _ _ _ _ _ V).
Qed.

Lemma view_write_record d g n u b i bs :
  page_view d g n u b → 0 ≤ i < g_capacity g → chars bs → g_real g ≤ Z.of_nat (length bs) →
  ∃ d', write_record d i bs = Some d' ∧ page_view d' g n u (λ j, if decide (j = i) then take (Z.to_nat (g_real g)) bs else b j).
Proof.
  intros V Hi Hcb Hlen. pose proof (pv_size _ _ _ _ _ V) as Hs. destruct (slot_bounds g i (pv_geometry _ _ _ _ _ V) Hi) as (Hd & Hlo & He & Hhi).
  destruct (go_real _ (pv_geometry _ _ _ _ _ V)) as [Hr1 Hr2].
  assert (length (take (Z.to_nat (g_real g)) bs) = Z.to_nat (g_real g)) as Hl by (rewrite length_take; lia).
  assert (get_bytes bs 0 (Z.to_nat (g_real g)) = Some (take (Z.to_nat (g_real g)) bs)) as Hg.
  { unfold get_bytes. rewrite decide_True by lia. by rewrite drop_0. }
  destruct (set_bytes d (record_slot_offset g i) (take (Z.to_nat (g_real g)) bs)) as [d'|] eqn:E; last first.
  { unfold set_bytes in E. rewrite decide_True in E; [done|]. lia. }
  exists d'. split.
  { unfold write_record. rewrite (record_offset_eq _ _ _ _ _ _ V Hi). destruct (pv_header _ _ _ _ _ V). rewrite hf_real0. cbn.
    rewrite (proj2 (Z.ltb_ge _ _)) by lia. rewrite Hg. exact E. }
  assert (∀ j, (j < record_slot_offset g i ∨ record_slot_offset g i + Z.to_nat (g_real g) ≤ j)%nat → d' !! j = d !! j) as Hlk.
  { intros j Hj. rewrite (set_bytes_lookup _ _ _ _ _ E), Hl, decide_False by lia. done. }
  pose proof (set_bytes_length _ _ _ _ E) as Hl'. destruct V as [_ Hc Hgeo Hh Hn Hu Hb].
  assert (0 ≤ page_bitmap_size (g_capacity g)) as Hpb by (unfold page_bitmap_size; apply Z.quot_pos; destruct Hgeo; lia).
  split; [by rewrite Hl'| |done| | | |].
  - eapply set_bytes_chars; [exact Hc| |exact E]. by apply Forall_take.
  - eapply header_fields_kept; [|done]. intros off Ho1 Ho2. unfold get_i32. f_equal. apply get_bytes_eq; [done|].
    intros j Hj. apply Hlk. lia.
  - rewrite <-Hn. unfold record_num, get_i32. f_equal. apply get_bytes_eq; [done|]. intros j Hj. apply Hlk. lia.
  - intros j Hj. rewrite <-Hu by done. unfold Bitmap.bit, Bitmap.byte_at. destruct (slot_byte g j Hgeo Hj) as [_ ?].
    assert (0 ≤ j / 8) by (apply Z.div_pos; lia). rewrite (proj2 (Z.leb_le _ _)) by done. unfold page_bitmap. rewrite !lookup_drop.
    rewrite Hlk; [done|]. lia.
  - intros j Hj. case_decide as Hji; [subst j; rewrite <-Hl at 1; by apply get_set_same in E|].
    rewrite <-Hb by done. apply (get_set_other _ _ _ _ _ _ E). rewrite Hl.
    destruct (slot_bounds g j Hgeo Hj) as (_ & _ & Hej & _).
    assert (g_size g * j + g_size g ≤ g_size g * i ∨ g_size g * i + g_size g ≤ g_size g * j) by (destruct (decide (j < i)); nia). lia.
Qed.

(** ** Pages as maps from slots to records *)
Definition slots (g : Geometry) (used : SlotNum → bool) (bytes : SlotNum → list Z) (i : SlotNum) : option (list Z) :=
  if decide (0 ≤ i < g_capacity g) then (if used i then Some (bytes i) else None) else None.

Definition page_ok (d : list Z) (g : Geometry) (σ : SlotNum → option (list Z)) : Prop :=
  ∃ u b, page_view d g (Bitmap.popcount (page_bitmap d) (g_capacity g)) u b ∧ ∀ i, σ i = slots g u b i.

(** Changing one slot. *)
Definition upd_slot (i : SlotNum) (o : option (list Z)) (σ : SlotNum → option (list Z)) (j : SlotNum) : option (list Z) :=
  if decide (j = i) then o else σ j.

(** What the row handler does to the page, step by step. *)
Definition page_insert (d bs : list Z) : option (SlotNum * list Z) :=
  i ← free_slot d; d ← use_slot d i; d ← add_record_num d 1; d ← write_record d i bs; Some (i, d).
Definition page_delete (d : list Z) (i : SlotNum) : option (list Z) :=
  d ← release_slot d i; add_record_num d (-1).

Lemma page_ok_ext d g σ σ' : (∀ i, σ i = σ' i) → page_ok d g σ → page_ok d g σ'.
Proof. intros H (u & b & V & Hs). exists u, b. split; [done|]. intros i. by rewrite <-H. Qed.

Lemma page_ok_data d g σ : page_ok d g σ → Z.of_nat (length d) = BP_PAGE_DATA_SIZE ∧ chars d.
Proof. intros (u & b & V & _). split; apply V. Qed.

Lemma page_ok_real d g σ : page_ok d g σ → record_real_size d = Some (g_real g) ∧ 0 < g_real g.
Proof. intros (u & b & V & _). split; [apply (hf_real _ _ (pv_header _ _ _ _ _ V))|]. destruct (go_real _ (pv_geometry _ _ _ _ _ V)). lia. Qed.

Lemma page_ok_capacity d g σ : page_ok d g σ → 0 ≤ g_capacity g.
Proof. intros (u & b & V & _). exact (go_capacity _ (pv_geometry _ _ _ _ _ V)). Qed.

Section page_ops.
Context (d : list Z) (g : Geometry) (σ : SlotNum → option (list Z)) (Hok : page_ok d g σ).

Lemma page_count_range : g_capacity g < 2 ^ 30.
Proof.
  destruct Hok as (u & b & V & _). destruct (pv_geometry _ _ _ _ _ V). rewrite data_size_eq in *.
  change (2 ^ 30) with 1073741824. unfold PAGE_HEADER_SIZE in *. assert (0 ≤ page_bitmap_size (g_capacity g)) by (unfold page_bitmap_size; apply Z.quot_pos; lia). nia.
Qed.

Lemma page_num_eq : record_num d = Some (Bitmap.popcount (page_bitmap d) (g_capacity g)).
Proof. destruct Hok as (u & b & V & _). apply V. Qed.

Lemma page_capacity_eq : record_capacity d = Some (g_capacity g).
Proof. destruct Hok as (u & b & V & _). apply V. Qed.

Lemma slot_used_eq i : 0 ≤ i < g_capacity g → slot_used d i = Some (bool_decide (is_Some (σ i))).
Proof.
  intros Hi. destruct Hok as (u & b & V & Hs). unfold slot_used. rewrite (Bitmap.get_bit_spec _ _ _ (page_bitmap_wf _ _ _ _ _ V) Hi).
  rewrite (pv_used _ _ _ _ _ V i Hi), Hs. unfold slots. rewrite decide_True by done. f_equal.
  destruct (u i); symmetry; [by apply bool_decide_eq_true|apply bool_decide_eq_false; by intros []].
Qed.

Lemma slot_outside i : ¬ (0 ≤ i < g_capacity g) → σ i = None.
Proof. intros Hi. destruct Hok as (u & b & V & Hs). rewrite Hs. unfold slots. by rewrite decide_False. Qed.

Lemma read_record_eq i bs : σ i = Some bs → read_record d i = Some bs ∧ 0 ≤ i < g_capacity g ∧ Z.of_nat (length bs) = g_real g.
Proof.
  intros Hi. destruct Hok as (u & b & V & Hs). rewrite Hs in Hi. unfold slots in Hi. case_decide as Hr; [|done].
  destruct (u i); [|done]. injection Hi as <-. split; [by eapply view_read_record|]. split; [done|].
  pose proof (pv_bytes _ _ _ _ _ V i Hr) as Hb. apply get_bytes_length in Hb. destruct (go_real _ (pv_geometry _ _ _ _ _ V)). lia.
Qed.

(** The page is full exactly if every slot is used, empty exactly if none is. *)
Lemma page_full_eq : ∃ full, page_full d = Some full ∧ (full = true ↔ ∀ i, 0 ≤ i < g_capacity g → is_Some (σ i)).
Proof.
  unfold page_full. rewrite page_num_eq, page_capacity_eq. cbn. eexists. split; [done|].
  destruct Hok as (u & b & V & Hs). pose proof (go_capacity _ (pv_geometry _ _ _ _ _ V)) as Hc.
  pose proof (Bitmap.popcount_bound (page_bitmap d) _ Hc). rewrite Z.leb_le.
  assert (g_capacity g ≤ Bitmap.popcount (page_bitmap d) (g_capacity g) ↔ Bitmap.popcount (page_bitmap d) (g_capacity g) = g_capacity g) as -> by lia.
  rewrite Bitmap.popcount_full by done. split; intros Hall i Hi.
  - rewrite Hs. unfold slots. rewrite decide_True by done. rewrite <-(pv_used _ _ _ _ _ V), Hall by done. done.
  - specialize (Hall i Hi). rewrite Hs in Hall. unfold slots in Hall. rewrite decide_True in Hall by done.
    rewrite (pv_used _ _ _ _ _ V) by done. destruct (u i); [done|by destruct Hall].
Qed.

Lemma page_empty_eq : ∃ e, page_empty d = Some e ∧ (e = true ↔ ∀ i, σ i = None).
Proof.
  unfold page_empty. rewrite page_num_eq. cbn. eexists. split; [done|]. rewrite Z.eqb_eq.
  destruct Hok as (u & b & V & Hs). pose proof (go_capacity _ (pv_geometry _ _ _ _ _ V)) as Hc.
  rewrite Bitmap.popcount_zero by done. split; intros Hall i.
  - rewrite Hs. unfold slots. case_decide; [|done]. rewrite <-(pv_used _ _ _ _ _ V), Hall by done. done.
  - intros Hi. specialize (Hall i). rewrite Hs in Hall. unfold slots in Hall. rewrite decide_True in Hall by done.
    rewrite (pv_used _ _ _ _ _ V) by done. by destruct (u i).
Qed.

(** [insert_record] takes the first free slot. *)
Lemma page_insert_ok bs :
  chars bs → g_real g ≤ Z.of_nat (length bs) → (∃ i, 0 ≤ i < g_capacity g ∧ σ i = None) →
  ∃ i d', page_insert d bs = Some (i, d') ∧ 0 ≤ i < g_capacity g ∧ σ i = None ∧ (∀ j, 0 ≤ j < i → is_Some (σ j)) ∧
    page_ok d' g (upd_slot i (Some (take (Z.to_nat (g_real g)) bs)) σ).
Proof.
  intros Hbs Hlen (i0 & Hi0 & Hfree). pose proof page_capacity_eq as Hcap. pose proof page_count_range as Hr.
  destruct Hok as (u & b & V & Hs). pose proof (page_bitmap_wf _ _ _ _ _ V) as Hwf.
  destruct (Bitmap.next_unsetted_bit_first _ _ 0 Hwf ltac:(lia)) as (i & Ei & Hfirst).
  assert (∀ j, 0 ≤ j < g_capacity g → σ j = if u j then Some (b j) else None) as Hsl.
  { intros j Hj. rewrite Hs. unfold slots. by rewrite decide_True. }
  assert (0 ≤ i < g_capacity g ∧ u i = false ∧ ∀ j, 0 ≤ j < i → u j = true) as (Hi & Hui & Hbelow).
  { pose proof (pv_used _ _ _ _ _ V) as Hu. unfold Bitmap.first_bit in Hfirst.
    destruct Hfirst as [(-> & Hnone)|(Hi & Hb & Hbelow)].
    - exfalso. specialize (Hnone i0 ltac:(lia)). rewrite Hu in Hnone by done. rewrite Hsl in Hfree by done. by destruct (u i0).
    - split; [lia|]. split; [by rewrite <-Hu by lia|]. intros j Hj. specialize (Hbelow j ltac:(lia)). rewrite Hu in Hbelow by lia.
      by destruct (u j). }
  destruct (view_use_slot _ _ _ _ _ _ V Hi) as (d1 & E1 & V1).
  pose proof (go_capacity _ (pv_geometry _ _ _ _ _ V)) as Hc. pose proof (Bitmap.popcount_bound (page_bitmap d) _ Hc) as Hpb.
  assert (in_srange 32 (Bitmap.popcount (page_bitmap d) (g_capacity g) + 1)) as Hn.
  { unfold in_srange. lia. }
  destruct (view_set_num _ _ _ _ _ _ V1 Hn) as (d2 & E2 & V2). destruct (view_write_record _ _ _ _ _ _ bs V2 Hi Hbs Hlen) as (d3 & E3 & V3).
  exists i, d3. split_and!; try lia.
  - unfold page_insert, free_slot. rewrite Hcap. cbn [mbind option_bind]. rewrite Ei. cbn [mbind option_bind].
    rewrite E1. cbn [mbind option_bind]. unfold add_record_num. rewrite (pv_num _ _ _ _ _ V1). cbn [mbind option_bind].
    rewrite swrap_id by (done || lia). rewrite E2. cbn [mbind option_bind]. by rewrite E3.
  - rewrite Hsl, Hui by done. done.
  - intros j Hj. rewrite Hsl, Hbelow by lia. done.
  - eexists _, _. split.
    + assert (Bitmap.popcount (page_bitmap d3) (g_capacity g) = Bitmap.popcount (page_bitmap d) (g_capacity g) + 1) as ->; [|exact V3].
      rewrite (Bitmap.popcount_flip (page_bitmap d) i true) by (done || (intros j Hj; rewrite (pv_used _ _ _ _ _ V3), (pv_used _ _ _ _ _ V) by done; done)).
      rewrite (pv_used _ _ _ _ _ V), Hui by done. cbn. lia.
    + intros j. unfold upd_slot, slots. rewrite Hs. unfold slots. repeat case_decide; subst; done.
Qed.

Lemma page_delete_ok i bs :
  σ i = Some bs → ∃ d', page_delete d i = Some d' ∧ page_ok d' g (upd_slot i None σ).
Proof.
  intros Hi. destruct (read_record_eq i bs Hi) as (_ & Hr & _). pose proof page_count_range as Hrange. destruct Hok as (u & b & V & Hs).
  destruct (view_release_slot _ _ _ _ _ _ V Hr) as (d1 & E1 & V1).
  pose proof (go_capacity _ (pv_geometry _ _ _ _ _ V)) as Hc. pose proof (Bitmap.popcount_bound (page_bitmap d) _ Hc) as Hpb.
  assert (u i = true) as Hui. { rewrite Hs in Hi. unfold slots in Hi. rewrite decide_True in Hi by done. by destruct (u i). }
  assert (in_srange 32 (Bitmap.popcount (page_bitmap d) (g_capacity g) + -1)) as Hn.
  { unfold in_srange. lia. }
  destruct (view_set_num _ _ _ _ _ _ V1 Hn) as (d2 & E2 & V2). exists d2. split.
  - unfold page_delete. rewrite E1. cbn [mbind option_bind]. unfold add_record_num. rewrite (pv_num _ _ _ _ _ V1). cbn [mbind option_bind]. by rewrite swrap_id by (done || lia).
  - eexists _, _. split.
    + assert (Bitmap.popcount (page_bitmap d2) (g_capacity g) = Bitmap.popcount (page_bitmap d) (g_capacity g) + -1) as ->; [|exact V2].
      rewrite (Bitmap.popcount_flip (page_bitmap d) i false) by (done || (intros j Hj; rewrite (pv_used _ _ _ _ _ V2), (pv_used _ _ _ _ _ V) by done; done)).
      rewrite (pv_used _ _ _ _ _ V), Hui by done. cbn. lia.
    + intros j. unfold upd_slot, slots. rewrite Hs. unfold slots. repeat case_decide; subst; done.
Qed.

Lemma page_update_ok i old bs :
  σ i = Some old → chars bs → g_real g ≤ Z.of_nat (length bs) →
  ∃ d', write_record d i bs = Some d' ∧ page_ok d' g (upd_slot i (Some (take (Z.to_nat (g_real g)) bs)) σ).
Proof.
  intros Hi Hbs Hlen. destruct (read_record_eq i old Hi) as (_ & Hr & _). destruct Hok as (u & b & V & Hs).
  assert (u i = true) as Hui. { rewrite Hs in Hi. unfold slots in Hi. rewrite decide_True in Hi by done. by destruct (u i). }
  destruct (view_write_record _ _ _ _ _ _ bs V Hr Hbs Hlen) as (d' & E & V'). exists d'. split; [done|].
  eexists _, _. split.
  - assert (Bitmap.popcount (page_bitmap d') (g_capacity g) = Bitmap.popcount (page_bitmap d) (g_capacity g)) as ->; [|exact V'].
    apply Bitmap.popcount_ext; [apply V|]. intros j Hj. by rewrite (pv_used _ _ _ _ _ V'), (pv_used _ _ _ _ _ V).
  - intros j. unfold upd_slot, slots. rewrite Hs. unfold slots. repeat case_decide; subst; try done. by rewrite Hui.
Qed.

(** The iterator's next slot. *)
Lemma next_used_slot_ok start :
  0 ≤ start → ∃ i, next_used_slot d start = Some i ∧
    (i = -1 ∧ (∀ j, start ≤ j → σ j = None) ∨ start ≤ i ∧ is_Some (σ i) ∧ ∀ j, start ≤ j < i → σ j = None).
Proof.
  intros Hst. pose proof page_capacity_eq as Hcap. destruct Hok as (u & b & V & Hs).
  destruct (Bitmap.next_setted_bit_first _ _ start (page_bitmap_wf _ _ _ _ _ V) Hst) as (i & Ei & Hfirst).
  exists i. unfold next_used_slot. rewrite Hcap. split; [exact Ei|].
  assert (∀ j, 0 ≤ j → Bitmap.bit (page_bitmap d) j = false ∨ ¬ j < g_capacity g → σ j = None) as Hnone.
  { intros j Hj Hb. rewrite Hs. unfold slots. case_decide; [|done]. destruct Hb as [Hb|]; [|lia].
    rewrite (pv_used _ _ _ _ _ V) in Hb by done. by rewrite Hb. }
  destruct Hfirst as [(-> & Hall)|(Hi & Hb & Hall)].
  - left. split; [done|]. intros j Hj. apply Hnone; [lia|]. destruct (decide (j < g_capacity g)); [left; apply Hall; lia|by right].
  - right. split_and!; [lia| |].
    + rewrite Hs. unfold slots. rewrite decide_True by lia. rewrite (pv_used _ _ _ _ _ V) in Hb by lia. by rewrite Hb.
    + intros j Hj. apply Hnone; [lia|]. left. apply Hall. lia.
Qed.
End page_ops.

(** ** Initialising a page *)
Lemma align8_spec z : 0 ≤ z → z ≤ align8 z < z + 8 ∧ align8 z mod 8 = 0.
Proof.
  intros Hz. assert (align8 z = 8 * ((z + 7) / 8)) as ->.
  { unfold align8. assert (Z.land (z + 7) (Z.lnot 7) = Z.ldiff (z + 7) (Z.ones 3)) as ->; [by rewrite Z.ldiff_land|].
    rewrite Z.ldiff_ones_r, Z.shiftr_div_pow2, Z.shiftl_mul_pow2 by lia. change (2 ^ 3) with 8. lia. }
  rewrite Z.mul_comm, Z_mod_mult. pose proof (Z.div_mod (z + 7) 8). pose proof (Z.mod_pos_bound (z + 7) 8). lia.
Qed.

Lemma fix_loop_ok n last cap size :
  0 < size → 0 ≤ last - cap * size ≤ BP_PAGE_DATA_SIZE → 0 ≤ cap → last - BP_PAGE_DATA_SIZE ≤ Z.of_nat n →
  ∃ c, fix_loop n last cap size = Some c ∧ 0 ≤ c ≤ cap ∧ last - (cap - c) * size ≤ BP_PAGE_DATA_SIZE ∧
    (c < cap → BP_PAGE_DATA_SIZE < last - (cap - c) * size + size).
Proof.
  intros Hs. revert last cap. induction n as [|n IH]; intros last cap Hb Hc Hn; cbn [fix_loop].
  - rewrite (proj2 (Z.ltb_ge _ _)) by lia. exists cap. split_and!; [done|lia|lia|lia|lia].
  - destruct (Z.ltb_spec BP_PAGE_DATA_SIZE last) as [Hlt|Hge].
    + assert (0 < cap) by nia. destruct (IH (last - size) (cap - 1)) as (c & E & H1 & H2 & H3); [lia|lia|lia|].
      exists c. split_and!; [done|lia|lia|nia|]. intros _. destruct (decide (c < cap - 1)); [specialize (H3 ltac:(lia)); nia|nia].
    + exists cap. split_and!; [done|lia|lia|lia|lia].
Qed.

(** The layout that [init_empty_page] computes for a record size and a number of
    columns: it fits the page, and no slot could be added where it ends. *)
Definition layout (real columns capacity index : Z) : Geometry :=
  mkGeometry columns real (align8 real) capacity index (index + columns * 4).

Definition page_geometry (real columns : Z) : option Geometry :=
  let capacity0 := page_record_capacity BP_PAGE_DATA_SIZE (align8 real) (columns * 4) in
  let index := align8 (PAGE_HEADER_SIZE + page_bitmap_size capacity0) in
  capacity ← fix_record_capacity (index + columns * 4) capacity0 (align8 real);
  Some (layout real columns capacity index).

Lemma capacity_bound s c : 8 ≤ s → 0 ≤ c ≤ 2000 →
  0 ≤ page_record_capacity BP_PAGE_DATA_SIZE s (c * 4) ≤ 1003.
Proof.
  intros Hs Hc. unfold page_record_capacity, PAGE_HEADER_SIZE. rewrite data_size_eq. rewrite Z.quot_div_nonneg by lia.
  split; [apply Z.div_pos; lia|]. apply Z.lt_succ_r. apply Z.div_lt_upper_bound; nia.
Qed.

Lemma layout_ok real columns :
  0 < real < 2 ^ 30 → 0 ≤ columns ≤ 1990 →
  ∃ capacity0 capacity, 
    page_record_capacity BP_PAGE_DATA_SIZE (align8 real) (columns * 4) = capacity0 ∧
    let index := align8 (PAGE_HEADER_SIZE + page_bitmap_size capacity0) in
    fix_record_capacity (index + columns * 4) capacity0 (align8 real) = Some capacity ∧
    geometry_ok (layout real columns capacity index) ∧ 0 ≤ index ≤ 8180 ∧
    (capacity < capacity0 → BP_PAGE_DATA_SIZE < index + columns * 4 + (capacity + 1) * align8 real).
Proof.
  intros Hr Hc. destruct (align8_spec real ltac:(lia)) as [Ha Hm].
  assert (8 ≤ align8 real) as H8 by (pose proof (Z.div_mod (align8 real) 8); lia).
  destruct (capacity_bound (align8 real) columns H8 ltac:(lia)) as [Hc0 Hc1].
  set (c0 := page_record_capacity _ _ _) in *. exists c0. unfold fix_record_capacity. cbv zeta.
  assert (0 ≤ page_bitmap_size c0 ≤ 126) as Hb.
  { unfold page_bitmap_size. rewrite Z.quot_div_nonneg by lia. split; [apply Z.div_pos; lia|]. apply Z.lt_succ_r, Z.div_lt_upper_bound; lia. }
  destruct (align8_spec (PAGE_HEADER_SIZE + page_bitmap_size c0)) as [Hi _]; [unfold PAGE_HEADER_SIZE; lia|].
  set (idx := align8 (PAGE_HEADER_SIZE + _)) in *. unfold PAGE_HEADER_SIZE in Hi.
  destruct (fix_loop_ok (Z.to_nat (idx + columns * 4 + c0 * align8 real - BP_PAGE_DATA_SIZE)) (idx + columns * 4 + c0 * align8 real) c0 (align8 real))
    as (c & E & H1 & H2 & H3); [lia|rewrite data_size_eq; lia|lia|lia|].
  exists c. split; [done|]. split; [exact E|]. split; [|split; [lia|intros Hlt; specialize (H3 Hlt); nia]].
  assert (page_bitmap_size c ≤ page_bitmap_size c0) as Hmono.
  { unfold page_bitmap_size. rewrite !Z.quot_div_nonneg by lia. apply Z.div_le_mono; lia. }
  split; cbn; unfold PAGE_HEADER_SIZE; try lia.
Qed.

(** A field that was set keeps its value through later stores. *)
Lemma set_fields_ok d (fs : list (nat * Z)) :
  (∀ o z, (o, z) ∈ fs → (o + 4 ≤ length d)%nat ∧ in_srange 32 z) → NoDup fs.*1 →
  (∀ o1 o2, o1 ∈ fs.*1 → o2 ∈ fs.*1 → o1 ≠ o2 → (o1 + 4 ≤ o2 ∨ o2 + 4 ≤ o1)%nat) → chars d →
  ∃ d', foldl (λ o f, d ← o; set_i32 d f.1 f.2) (Some d) fs = Some d' ∧ length d' = length d ∧ chars d' ∧
    (∀ o z, (o, z) ∈ fs → get_i32 d' o = Some z).
Proof.
  revert d. induction fs as [|[o z] fs IH] using rev_ind; intros d Hin Hnd Hdis Hch; [exists d; split_and!; [done|done|done|by intros o z ?%elem_of_nil]|].
  rewrite foldl_app. cbn [foldl fst snd]. rewrite fmap_app in Hnd, Hdis. apply list.NoDup_app in Hnd as (Hnd & Hfresh & _).
  destruct (IH d) as (d1 & E1 & Hl1 & Hc1 & Hg1);
    [intros o' z' H'; apply Hin, elem_of_app; by left|done|intros o1 o2 H1 H2; apply Hdis; apply elem_of_app; by left|done|]. rewrite E1. cbn [mbind option_bind].
  destruct (Hin o z) as [Ho Hz]; [apply elem_of_app; right; by apply list_elem_of_singleton|]. destruct (set_i32_Some d1 o z) as [d2 E2]; [lia|].
  exists d2. split_and!; [done|by rewrite (set_i32_length _ _ _ _ E2)|by eapply set_i32_chars|].
  intros o' z' [Hin'|[= -> ->]%list_elem_of_singleton]%elem_of_app; [|by eapply get_set_i32].
  rewrite (get_set_i32_other _ _ _ _ _ E2); [by apply Hg1|].
  assert (o' ∈ fs.*1) as Ho' by (apply list_elem_of_fmap; by exists (o', z')).
  assert (o' ≠ o) as Hne by (intros ->; eapply Hfresh; [exact Ho'|cbn; by left]).
  destruct (Hdis o' o); [apply elem_of_app; by left|apply elem_of_app; right; by left|done|lia|lia].
Qed.

(** [init_layout] on any page makes an empty record page. *)
Lemma init_layout_ok d real columns :
  Z.of_nat (length d) = BP_PAGE_DATA_SIZE → chars d → 0 < real < 2 ^ 30 → 0 ≤ columns ≤ 1990 →
  ∃ d' g, init_layout d real columns = Some d' ∧ page_geometry real columns = Some g ∧ page_ok d' g (λ _, None) ∧
    g_real g = real ∧ g_columns g = columns ∧
    (g_capacity g < page_record_capacity BP_PAGE_DATA_SIZE (align8 real) (columns * 4) →
     BP_PAGE_DATA_SIZE < g_data g + (g_capacity g + 1) * g_size g).
Proof.
  intros Hlen Hch Hr Hc. destruct (layout_ok real columns Hr Hc) as (c0 & c & E0 & E & Hg & Hi & Hmax).
  set (idx := align8 (PAGE_HEADER_SIZE + page_bitmap_size c0)) in *. set (g := layout real columns c idx) in *.
  destruct (align8_spec real ltac:(lia)) as [Ha _]. rewrite data_size_eq in Hlen.
  assert (0 ≤ c) as Hc' by apply (go_capacity _ Hg).
  assert (c ≤ 8180) as Hcb by (pose proof (go_data _ Hg); rewrite data_size_eq in *; cbn in *; nia).
  set (fs := [(0%nat, 0); (4%nat, columns); (8%nat, real); (12%nat, align8 real); (16%nat, c); (20%nat, idx); (24%nat, idx + columns * 4)]).
  change (2 ^ 30) with 1073741824 in *.
  destruct (set_fields_ok d fs) as (d1 & E1 & Hl1 & Hc1 & Hg1); [| | |done|].
  { intros o z Hin. unfold fs in Hin. rewrite !elem_of_cons in Hin. unfold in_srange. change (2 ^ (32 - 1)) with 2147483648.
    destruct Hin as [[= -> ->]|[[= -> ->]|[[= -> ->]|[[= -> ->]|[[= -> ->]|[[= -> ->]|[[= -> ->]|?%elem_of_nil]]]]]]]; lia. }
  { cbn. repeat constructor; set_solver. }
  { intros o1 o2. cbn. rewrite !elem_of_cons, !elem_of_nil. lia. }
  assert (0 ≤ page_bitmap_size c ∧ 28 + page_bitmap_size c ≤ 8180) as [Hb1 Hb2].
  { unfold page_bitmap_size. rewrite Z.quot_div_nonneg by lia. split; [apply Z.div_pos; lia|].
    enough ((c + 7) / 8 < 1024) by lia. apply Z.div_lt_upper_bound; lia. }
  set (zeros := replicate (Z.to_nat (page_bitmap_size c)) 0).
  assert (length zeros = Z.to_nat (page_bitmap_size c)) as Hz by apply length_replicate.
  destruct (set_bytes d1 28 zeros) as [d2|] eqn:E2; last first.
  { unfold set_bytes in E2. rewrite decide_True in E2; [done|]. rewrite Hz. lia. }
  exists d2, g. split_and!; [| | |done|done|by rewrite E0].
  - unfold init_layout. rewrite E0. fold idx. rewrite E. cbn [mbind option_bind]. cbn [fs foldl fst snd mbind option_bind] in E1.
    cbn [mbind option_bind] in E1.
    destruct (set_i32 d 0 0) as [da|]; [|done]. cbn [mbind option_bind] in E1 |- *.
    destruct (set_i32 da 4 columns) as [db|]; [|done]. cbn [mbind option_bind] in E1 |- *.
    destruct (set_i32 db 8 real) as [dc|]; [|done]. cbn [mbind option_bind] in E1 |- *.
    destruct (set_i32 dc 12 (align8 real)) as [dd|]; [|done]. cbn [mbind option_bind] in E1 |- *.
    destruct (set_i32 dd 16 c) as [de|]; [|done]. cbn [mbind option_bind] in E1 |- *.
    destruct (set_i32 de 20 idx) as [df|]; [|done]. cbn [mbind option_bind] in E1 |- *. rewrite E1. cbn [mbind option_bind].
    rewrite (proj2 (Z.ltb_ge _ _)) by apply (go_data _ Hg). by rewrite (proj2 (Z.ltb_ge _ _)) by done.
  - unfold page_geometry. rewrite E0. fold idx. cbv zeta. by rewrite E.
  - assert (∀ off, (off + 4 ≤ 28)%nat → get_i32 d2 off = get_i32 d1 off) as Hk.
    { intros off Ho. unfold get_i32. f_equal. apply (get_set_other _ _ _ _ _ _ E2). by left. }
    assert (∀ i, 0 ≤ i < c → Bitmap.bit (page_bitmap d2) i = false) as Hbits.
    { intros i Hi'. unfold Bitmap.bit, Bitmap.byte_at. assert (0 ≤ i / 8) by (apply Z.div_pos; lia).
      destruct (slot_byte g i Hg Hi') as [_ Hlt]. cbn in Hlt. rewrite (proj2 (Z.leb_le _ _)) by done.
      unfold page_bitmap. rewrite lookup_drop, (set_bytes_lookup _ _ _ _ _ E2), decide_True by lia.
      unfold zeros. rewrite lookup_replicate_2 by lia. by rewrite Z.testbit_0_l. }
    exists (λ _, false), (λ i, default [] (get_bytes d2 (record_slot_offset g i) (Z.to_nat real))). split.
    + split; [by rewrite (set_bytes_length _ _ _ _ E2), Hl1, data_size_eq| |done| | |by intros i Hi'; apply Hbits|].
      * eapply set_bytes_chars; [exact Hc1| |exact E2]. apply Forall_replicate. unfold in_srange. lia.
      * split; unfold column_num, record_real_size, record_size, record_capacity, col_idx_offset, data_offset;
          rewrite Hk by lia; apply Hg1; unfold fs; set_solver.
      * rewrite (proj2 (Bitmap.popcount_zero _ _ Hc')) by (intros; by apply Hbits). unfold record_num. rewrite Hk by lia. apply Hg1. unfold fs. set_solver.
      * intros i Hi'. destruct (slot_bounds g i Hg Hi') as (_ & _ & _ & Hs). rewrite data_size_eq in Hs. cbn in Hs.
        change (g_real g) with real. destruct (get_bytes d2 (record_slot_offset g i) (Z.to_nat real)) eqn:Eg; [done|].
        unfold get_bytes in Eg. rewrite decide_True in Eg; [done|]. rewrite (set_bytes_length _ _ _ _ E2). lia.
    + intros i. unfold slots. by case_decide.
Qed.
