(* ===== verification/PoolDemo.v ===== *)
(** * A small database file

    One open file of three pages under LRU with two frames: the header, a page
    in use and a hole.  The invariant of the buffer pool holds of it; it is the
    concrete input at which the theorems about the pool are applied. *)

From S2P Require Import Prelude Types Bytes Crc Os PageIO Bitmap LruCache MemPool Stats Latch Frame Replacement FrameManager FrameSafety BufferPool DoubleWrite DiskBufferPool StorageSafety PoolSafety PageAccess RecordPage.
Local Open Scope Z_scope.

Module Demo.

(** Three pages, two of them in use. *)
Definition header_bytes : list Z := le_bytes 4 1 ++ le_bytes 4 3 ++ le_bytes 4 2 ++ 3 :: replicate 8167 0.
Definition header_page : Page := set_data header_bytes zero_page.

(** A record page for records of four bytes, with one record in slot 0. *)
Definition record : list Z := [10; 20; 30; 40].
Definition new_record_bytes : list Z := default [] (init_layout (replicate 8180 7) 4 0).
Definition record_page_bytes : list Z := default [] (snd <$> page_insert new_record_bytes record).
Definition geometry : Geometry := mkGeometry 0 4 8 1002 160 160.
Definition page1 : Page := set_data record_page_bytes zero_page.
Definition file : list Z := page_bytes header_page ++ page_bytes page1 ++ page_bytes zero_page.

Definition os : OS := mkOS {["t" := file; "dw" := []]} {[3 := ("t", 0); 4 := ("dw", 0)]} [] 0 [].
Definition pool : DiskBufferPool := mkDiskBufferPool POSITIONAL zero_stats 3 1 (Some 0) (Some 0) ∅ "t".
Definition world : World unit :=
  mkWorld os tt {[0 := pool]} 1 {["t" := 0]} {[1 := 0]} 2 POSITIONAL (DiskDblwr (mkDblwr 4 16 0 ∅)).

Definition LFM : Type := BPFrameManager (P:=Ordered).
Definition init : LFM := state_after (fm_init 1 2) (new_frame_manager LRUReplacementPolicy).
Definition one : LFM := state_after (fm_alloc 1 0) init.
Definition mgr : LFM := state_after (on_frame_set 0 (set_page header_page)) one.

Lemma one_frames : frames_ one = [(mkFrameId 1 0, 0)].
Proof. vm_compute. reflexivity. Qed.

Lemma mgr_wf : fm_wf mgr.
Proof.
  destruct demo_policy_ok as [Hok Ht].
  destruct (fm_init_ok 1 2 LRUReplacementPolicy) as (m & E & W & _); try done.
  assert (init = m) as <- by (unfold init, state_after; by rewrite E).
  destruct (runs_after (fm_alloc 1 0) init) as [r1 E1]; [vm_compute; reflexivity|].
  destruct (runs_after (on_frame_set 0 (set_page header_page)) one) as [[] E2]; [vm_compute; reflexivity|].
  apply (fm_reach_wf init); [done|]. assert ((mkFrameId 1 0, 0) ∈ frames_ one) as Hin by (rewrite one_frames; left).
  eapply rtc_l; [eapply fs_alloc; [|exact E1]; intros p f Hp; vm_compute in Hp; discriminate|].
  exact (rtc_once _ _ (fs_write (mkFrameId 1 0) 0 header_page one mgr Hin E2)).
Qed.

Lemma mgr_frames : frames_ mgr = [(mkFrameId 1 0, 0)].
Proof. vm_compute. reflexivity. Qed.

Lemma header_page_wf : page_wf header_page.
Proof.
  split; [by split|by split|by vm_compute|].
  cbn [header_page set_data data]. unfold header_bytes. do 3 (apply Forall_app; split; [apply le_bytes_chars|]).
  constructor; [by split|]. apply Forall_replicate. by split.
Qed.

Lemma geometry_eq : page_geometry 4 0 = Some geometry.
Proof. vm_compute. reflexivity. Qed.

Lemma record_page_ok : page_ok record_page_bytes geometry (λ i, if decide (i = 0) then Some record else None).
Proof.
  destruct (init_layout_ok (replicate 8180 7) 4 0) as (d & g & E & Hg & Hok & _); [by vm_compute|by apply Forall_replicate|lia|lia|].
  rewrite geometry_eq in Hg. injection Hg as <-.
  assert (new_record_bytes = d) as <- by (unfold new_record_bytes; by rewrite E).
  destruct (page_insert_ok _ _ _ Hok record) as (i & d' & E' & _ & _ & _ & Hok'); [repeat constructor; lia|done|by exists 0|].
  assert (record_page_bytes = d') as <- by (unfold record_page_bytes; by rewrite E').
  assert (i = 0) as ->. { assert (fst <$> page_insert new_record_bytes record = Some 0) as H by (vm_compute; reflexivity). rewrite E' in H. by injection H. }
  eapply page_ok_ext; [|exact Hok']. intros j. unfold upd_slot. by destruct (decide (j = 0)).
Qed.

Lemma page1_wf : page_wf page1.
Proof. destruct (page_ok_data _ _ _ record_page_ok). by split; [by split|by split|..]. Qed.

Lemma file_chars : chars file.
Proof.
  pose proof (page_bytes_chars _ header_page_wf). pose proof (page_bytes_chars _ page1_wf).
  pose proof (page_bytes_chars _ zero_page_wf). apply Forall_app; split; [done|]. by apply Forall_app; split.
Qed.

Lemma mgr_header : ∃ f, heap mgr !! 0 = Some f ∧ page_ f = header_page ∧ pin_count_ f = 1 ∧ dirty_ f = false.
Proof. eexists. split; [vm_compute; reflexivity|]. split; [vm_compute; reflexivity|]. split; reflexivity. Qed.

(** Frame 1 was never used. *)
Lemma mgr_heap fp f : heap mgr !! fp = Some f → page_wf (page_ f).
Proof.
  assert (map_Forall (λ _ f, page_ f = header_page ∨ page_ f = zero_page) (heap mgr)) as H.
  { apply map_Forall_to_list. vm_compute. repeat constructor; (by left) || (by right). }
  intros Hf. destruct (H fp f Hf) as [->| ->]; auto using header_page_wf, zero_page_wf.
Qed.

Lemma mgr_pins fp f : heap mgr !! fp = Some f → pin_count_ f < 2.
Proof.
  assert (map_Forall (λ _ f, pin_count_ f < 2) (heap mgr)) as H by (apply map_Forall_to_list; vm_compute; repeat constructor).
  intros Hf. exact (H fp f Hf).
Qed.

Lemma mgr_bounded : pins_bounded mgr.
Proof. intros fp f Hf. pose proof (mgr_pins fp f Hf). lia. Qed.

Lemma header_bytes_ok : header_ok 1 header_bytes 3 2.
Proof.
  split; [vm_compute; reflexivity|vm_compute; reflexivity|vm_compute; reflexivity|by split|vm_compute; reflexivity|vm_compute; reflexivity|].
  intros j Hj. unfold Bitmap.bit. change (hdr_bitmap header_bytes) with (3 :: replicate 8167 0).
  unfold Bitmap.byte_at. destruct (Z.leb_spec 0 (j / 8)) as [H|H]; [|done].
  destruct (decide (j < 8)) as [H8|H8].
  - rewrite Z.div_small, Z.mod_small by lia. cbn.
    assert (j = 3 ∨ j = 4 ∨ j = 5 ∨ j = 6 ∨ j = 7) as Hj' by lia. by repeat destruct Hj' as [->|Hj']; subst.
  - assert (1 ≤ j / 8) as H1 by (apply Z.div_le_lower_bound; lia).
    destruct (Z.to_nat (j / 8)) as [|k] eqn:Ek; [lia|]. cbn [lookup list_lookup].
    destruct (replicate 8167 0 !! k) as [x|] eqn:Ex; [|done].
    apply lookup_replicate in Ex as [-> _]. by rewrite Z.bits_0.
Qed.

Lemma reg id p : id_to_buffer_pools_ world !! id = Some p → id = 1 ∧ p = 0.
Proof. change (id_to_buffer_pools_ world) with ({[1 := 0]} : gmap Z Ptr). by intros [<- <-]%lookup_singleton_Some. Qed.

Lemma world_fine : world_ok world.
Proof.
  assert (dw_fd world = Some 4) as Hfd by done.
  split_and!; [split|apply list.Forall_nil; exact Logic.I|split].
  - split.
    + intros name c. cbn. intros [[<- <-]|[_ [<- <-]%lookup_singleton_Some]]%lookup_insert_Some; [apply file_chars|constructor].
    + intros fd name off. cbn.
      intros [[<- [= <- <-]]|[_ [<- [= <- <-]]%lookup_singleton_Some]]%lookup_insert_Some;
        (split; [done|]); by eexists.
  - intros id p [-> ->]%reg. by exists pool, 0.
  - intros id1 id2 p1 p2 b1 b2 [-> _]%reg [-> _]%reg. done.
  - intros fd [= <-]. exists "dw", 0. split; [done|].
    intros id p b [-> ->]%reg [= <-]. done.
  - done.
  - done.
  - intros k o. cbn. by rewrite lookup_empty.
Qed.

Lemma stored_eq pn : stored world 1 pn = file_page file pn.
Proof. reflexivity. Qed.

Lemma pages_stored : stored world 1 0 = Some header_page ∧ stored world 1 1 = Some page1 ∧ stored world 1 2 = Some zero_page.
Proof. rewrite !stored_eq. split_and!; vm_compute; reflexivity. Qed.

Lemma inv : sys_inv mgr world.
Proof.
  destruct mgr_header as (f & Hf & Hpg & Hpin & Hd). destruct pages_stored as (H0 & H1 & H2).
  split; [exact world_fine|done|exact mgr_heap| |].
  - intros id fp g. rewrite mgr_frames. intros [= -> ->]%list_elem_of_singleton. rewrite Hf. intros [= <-].
    split_and!; [done|by exists 0|]. intros _. exists header_page. split; [exact H0|by rewrite Hpg].
  - intros id p [-> ->]%reg. exists pool, 0, f, 3, 2. rewrite mgr_frames, Hpin, Hpg.
    split; [reflexivity|]. split; [reflexivity|]. split; [reflexivity|]. split; [left|]. split; [exact Hf|].
    split; [reflexivity|]. split; [exact header_bytes_ok|]. split.
    + intros pn Hpn. assert (pn = 0 ∨ pn = 1 ∨ pn = 2) as [->|[->| ->]] by lia; rewrite ?H0, ?H1, ?H2; by eexists.
    + intros pn q [= -> _]%list_elem_of_singleton. lia.
Qed.
End Demo.
