(* ===== verification/FileHeader.v ===== *)
(** * Changing the header of a file

    [allocate_page], [dispose_page] and the redo methods change the counters and
    the bitmap of [struct BPFileHeader] one store after the other.  [view] reads
    a header abstractly; each store changes one of its parts, and every complete
    sequence of stores keeps the header consistent. *)

From S2P Require Import Prelude Types Bytes Crc Os PageIO Bitmap LruCache MemPool Stats Latch Frame Replacement FrameManager FrameSafety BufferPool DoubleWrite DiskBufferPool StorageSafety PoolSafety PageAccess.
Local Open Scope Z_scope.

(** Data of a page with these counters and these bits. *)
Record view (d : list Z) (id n a : Z) (β : Z → bool) : Prop := {
  vw_size : Z.of_nat (length d) = BP_PAGE_DATA_SIZE;
  vw_chars : chars d;
  vw_id : hdr_buffer_pool_id d = Some id;
  vw_count : hdr_page_count d = Some n;
  vw_alloc : hdr_allocated_pages d = Some a;
  vw_bit : ∀ j, 0 ≤ j → Bitmap.bit (hdr_bitmap d) j = β j
}.

Lemma data_size_12 (d : list Z) : Z.of_nat (length d) = BP_PAGE_DATA_SIZE → (12 ≤ length d)%nat.
Proof. assert (12 ≤ BP_PAGE_DATA_SIZE) by (by vm_compute). lia. Qed.

Lemma hdr_bitmap_fits (d : list Z) : Z.of_nat (length d) = BP_PAGE_DATA_SIZE → chars d → Bitmap.wf (hdr_bitmap d) MAX_PAGE_NUM.
Proof.
  intros Hs Hc. split; [by apply Forall_drop|]. unfold hdr_bitmap. rewrite length_drop. unfold MAX_PAGE_NUM.
  pose proof (data_size_12 d Hs). lia.
Qed.

(** Storing a counter. *)
Lemma set_i32_bitmap d off z d' : set_i32 d off z = Some d' → (off + 4 ≤ 12)%nat → hdr_bitmap d' = hdr_bitmap d.
Proof.
  intros E Ho. unfold hdr_bitmap. apply list_eq. intros i. rewrite !lookup_drop.
  rewrite (set_bytes_lookup _ _ _ _ _ E), le_bytes_length, decide_False by lia. done.
Qed.

Lemma view_set_alloc d id n a β z : view d id n a β → in_srange 32 z → ∃ d', set_i32 d 8 z = Some d' ∧ view d' id n z β.
Proof.
  intros [H1 H2 H3 H4 H5 H6] Hz. pose proof (data_size_12 d H1).
  destruct (set_i32_Some d 8 z) as [d' E]; [lia|]. exists d'. split; [done|].
  split; [by rewrite (set_i32_length _ _ _ _ E)|by eapply set_i32_chars| | | |].
  - unfold hdr_buffer_pool_id. by rewrite (get_set_i32_other _ _ _ _ _ E) by lia.
  - unfold hdr_page_count. by rewrite (get_set_i32_other _ _ _ _ _ E) by lia.
  - exact (get_set_i32 _ _ _ _ E Hz).
  - rewrite (set_i32_bitmap _ _ _ _ E) by lia. done.
Qed.

Lemma view_set_count d id n a β z : view d id n a β → in_srange 32 z → ∃ d', set_i32 d 4 z = Some d' ∧ view d' id z a β.
Proof.
  intros [H1 H2 H3 H4 H5 H6] Hz. pose proof (data_size_12 d H1).
  destruct (set_i32_Some d 4 z) as [d' E]; [lia|]. exists d'. split; [done|].
  split; [by rewrite (set_i32_length _ _ _ _ E)|by eapply set_i32_chars| | | |].
  - unfold hdr_buffer_pool_id. by rewrite (get_set_i32_other _ _ _ _ _ E) by lia.
  - exact (get_set_i32 _ _ _ _ E Hz).
  - unfold hdr_allocated_pages. by rewrite (get_set_i32_other _ _ _ _ _ E) by lia.
  - rewrite (set_i32_bitmap _ _ _ _ E) by lia. done.
Qed.

(** Storing the bitmap. *)
Definition with_bit (β : Z → bool) (i : Z) (v : bool) : Z → bool := λ j, if decide (j = i) then v else β j.

Lemma get_i32_app l r r' off : (off + 4 ≤ length l)%nat → get_i32 (l ++ r) off = get_i32 (l ++ r') off.
Proof.
  intros H. unfold get_i32, get_bytes. rewrite !decide_True by (rewrite length_app; lia). cbn.
  by rewrite !drop_app_le, !take_app_le by (rewrite ?length_drop; lia).
Qed.

Lemma view_set_bitmap d id n a β bm i v :
  view d id n a β → Bitmap.updated (hdr_bitmap d) i v bm → view (hdr_set_bitmap d bm) id n a (with_bit β i v).
Proof.
  intros [H1 H2 H3 H4 H5 H6] (Hl & Hc & Hb). pose proof (data_size_12 d H1) as H12.
  assert (length (take 12 d) = 12%nat) as Ht by (rewrite length_take; lia).
  assert (hdr_bitmap (hdr_set_bitmap d bm) = bm) as Hbm.
  { unfold hdr_bitmap, hdr_set_bitmap. by rewrite drop_app_length'. }
  assert (∀ off, (off + 4 ≤ 12)%nat → get_i32 (hdr_set_bitmap d bm) off = get_i32 d off) as Hg.
  { intros off Ho. rewrite <-(take_drop 12 d) at 2. apply get_i32_app. lia. }
  split.
  - unfold hdr_set_bitmap, hdr_bitmap in *. rewrite length_app, Hl, length_drop, Ht. lia.
  - apply Forall_app; split; [by apply Forall_take|]. apply Hc. by apply Forall_drop.
  - unfold hdr_buffer_pool_id. rewrite Hg by lia. done.
  - unfold hdr_page_count. rewrite Hg by lia. done.
  - unfold hdr_allocated_pages. rewrite Hg by lia. done.
  - intros j Hj. rewrite Hbm, Hb by done. unfold with_bit. by rewrite H6.
Qed.

Lemma view_set_bit d id n a β i :
  view d id n a β → 0 ≤ i < MAX_PAGE_NUM →
  ∃ bm, Bitmap.set_bit (hdr_bitmap d) i = Some bm ∧ view (hdr_set_bitmap d bm) id n a (with_bit β i true).
Proof.
  intros V Hi. pose proof (hdr_bitmap_fits d (vw_size _ _ _ _ _ V) (vw_chars _ _ _ _ _ V)) as Hw.
  destruct (Bitmap.set_bit_updated _ _ i Hw Hi) as (bm & E & U). exists bm. split; [done|]. by apply view_set_bitmap.
Qed.

Lemma view_clear_bit d id n a β i :
  view d id n a β → 0 ≤ i < MAX_PAGE_NUM →
  ∃ bm, Bitmap.clear_bit (hdr_bitmap d) i = Some bm ∧ view (hdr_set_bitmap d bm) id n a (with_bit β i false).
Proof.
  intros V Hi. pose proof (hdr_bitmap_fits d (vw_size _ _ _ _ _ V) (vw_chars _ _ _ _ _ V)) as Hw.
  destruct (Bitmap.clear_bit_updated _ _ i Hw Hi) as (bm & E & U). exists bm. split; [done|]. by apply view_set_bitmap.
Qed.

(** The mask [char tmp = 1 << (i % 8)] of [dispose_page] is negative for bit 7;
    clearing with it is [Bitmap::clear_bit] all the same. *)
Lemma dispose_bit_clear bm i : 0 ≤ i → dispose_bit bm i = Bitmap.clear_bit bm i.
Proof.
  intros Hi. unfold dispose_bit, Bitmap.clear_bit. destruct (Z.ltb_spec i 0); [lia|].
  destruct (Bitmap.byte_at bm (Z.quot i 8)) as [b|]; [|done]. cbn. do 2 f_equal.
  assert (∀ x y, (∀ k, 0 ≤ k < 8 → Z.testbit x k = Z.testbit y k) → swrap 8 x = swrap 8 y) as Hsw.
  { intros x y Hk8. apply swrap_congr; [lia|]. apply Z.bits_inj'. intros k Hk.
    destruct (decide (k < 8)); [rewrite !Z.mod_pow2_bits_low by lia; apply Hk8; lia|by rewrite !Z.mod_pow2_bits_high by lia]. }
  apply Hsw. intros k Hk. rewrite !Z.land_spec, !Z.lnot_spec, swrap_testbit by lia. done.
Qed.

(** ** Consistent headers *)
Lemma header_view id d n a :
  Z.of_nat (length d) = BP_PAGE_DATA_SIZE → chars d → header_ok id d n a → view d id n a (Bitmap.bit (hdr_bitmap d)).
Proof. intros H1 H2 []. by split. Qed.

Lemma popcount_with_bit bm bm' i v n :
  (∀ j, 0 ≤ j → Bitmap.bit bm' j = with_bit (Bitmap.bit bm) i v j) → 0 ≤ i < n →
  Bitmap.popcount bm' n = Bitmap.popcount bm n + Z.b2z v - Z.b2z (Bitmap.bit bm i).
Proof. intros H Hi. apply Bitmap.popcount_flip; [|done]. intros j Hj. apply H. lia. Qed.

(** A free page below [n] is taken, a used one is released, the file grows. *)
Lemma header_take id d n a d' i :
  header_ok id d n a → 0 ≤ i < n → Bitmap.bit (hdr_bitmap d) i = false →
  view d' id n (a + 1) (with_bit (Bitmap.bit (hdr_bitmap d)) i true) → header_ok id d' n (a + 1).
Proof.
  intros [H1 H2 H3 H4 H5 H6 H7] Hi Hb V. split; try apply V; try done.
  - rewrite (popcount_with_bit _ _ i true n (vw_bit _ _ _ _ _ V) Hi), H5, Hb. cbn. lia.
  - rewrite (vw_bit _ _ _ _ _ V) by done. unfold with_bit. by case_decide.
  - intros j Hj. rewrite (vw_bit _ _ _ _ _ V) by lia. unfold with_bit. rewrite decide_False by lia. by apply H7.
Qed.

Lemma header_release id d n a d' i :
  header_ok id d n a → 0 < i < n → Bitmap.bit (hdr_bitmap d) i = true →
  view d' id n (a - 1) (with_bit (Bitmap.bit (hdr_bitmap d)) i false) → header_ok id d' n (a - 1).
Proof.
  intros [H1 H2 H3 H4 H5 H6 H7] Hi Hb V. split; try apply V; try done.
  - rewrite (popcount_with_bit _ _ i false n (vw_bit _ _ _ _ _ V) ltac:(lia)), H5, Hb. cbn. lia.
  - rewrite (vw_bit _ _ _ _ _ V) by done. unfold with_bit. by rewrite decide_False by lia.
  - intros j Hj. rewrite (vw_bit _ _ _ _ _ V) by lia. unfold with_bit. rewrite decide_False by lia. by apply H7.
Qed.

Lemma header_grow id d n a d' :
  header_ok id d n a → n < MAX_PAGE_NUM →
  view d' id (n + 1) (a + 1) (with_bit (Bitmap.bit (hdr_bitmap d)) n true) → header_ok id d' (n + 1) (a + 1).
Proof.
  intros [H1 H2 H3 H4 H5 H6 H7] Hn V. split; try apply V; try lia.
  - rewrite (popcount_with_bit _ _ n true (n + 1) (vw_bit _ _ _ _ _ V) ltac:(lia)), Bitmap.popcount_succ, H5 by lia. cbn. lia.
  - rewrite (vw_bit _ _ _ _ _ V) by done. unfold with_bit. by case_decide.
  - intros j Hj. rewrite (vw_bit _ _ _ _ _ V) by lia. unfold with_bit. rewrite decide_False by lia. apply H7. lia.
Qed.

(** The first clear bit of a range. *)
Lemma first_clear (β : Z → bool) i (k : nat) :
  (∀ j, i ≤ j < i + Z.of_nat k → β j = true) ∨
  (∃ j, i ≤ j < i + Z.of_nat k ∧ β j = false ∧ ∀ j', i ≤ j' < j → β j' = true).
Proof.
  revert i. induction k as [|k IH]; intros i; [left; lia|]. destruct (β i) eqn:E.
  - destruct (IH (i + 1)) as [H|(j & Hj & Ej & H)]; [left|right].
    + intros j Hj. destruct (decide (j = i)) as [->|]; [done|]. apply H. lia.
    + exists j. split_and!; [lia|lia|done|]. intros j' Hj'. destruct (decide (j' = i)) as [->|]; [done|]. apply H. lia.
  - right. exists i. split_and!; [lia|lia|done|lia].
Qed.

(** There is a free page below [n] exactly if fewer than [n] are in use. *)
Lemma header_full id d n a : header_ok id d n a → n ≤ a ↔ ∀ j, 0 ≤ j < n → Bitmap.bit (hdr_bitmap d) j = true.
Proof.
  intros [H1 H2 H3 H4 H5 H6 H7]. pose proof (Bitmap.popcount_bound (hdr_bitmap d) n ltac:(lia)) as Hb.
  rewrite <-Bitmap.popcount_full by lia. lia.
Qed.

Section header_steps.
Context {P L : Type} `{!ReplacementPolicy P} `{!PolicyLaws P} `{!LogHandler L} `{!LogLaws L} `{HOrd : HashOrder}.
Notation World := (World L).
Notation FM := (BPFrameManager (P:=P)).
Implicit Types (w : World) (pn : PageNum) (m : FM) (fp : Ptr).

Definition with_data (d : list Z) (f : Frame) : Frame := set_page (set_data d (page_ f)) f.

(** ** Stores, with the header frame [h] in the state [f] *)
Section raw.
Context w p b h (Hb : w_pools w !! p = Some b) (Hfh : file_header_ b = Some h).

Lemma header_raw m f : heap m !! h = Some f → header p (m, w) = Some (data (page_ f), (m, w)).
Proof.
  intros Hf. unfold header. rewrite (exec (pool_at_eq _ _ _ _ Hb)), Hfh.
  exec_deref. by rewrite (exec (frame_of_eq m w h f Hf)).
Qed.

Lemma put_header_raw m f s d : put_header p d (upd m h f s, w) = Some (tt, (upd m h (with_data d f) s, w)).
Proof.
  unfold put_header. rewrite (exec (pool_at_eq _ _ _ _ Hb)), Hfh.
  exec_deref.
  rewrite (fm_do_eq _ _ w _ _ (on_frame_set_eq h _ f _ (heap_upd m h f s))). by rewrite upd_upd.
Qed.

Lemma add_alloc_raw m f s id n a β k :
  view (data (page_ f)) id n a β → in_srange 32 (a + k) →
  ∃ d, add_allocated_pages p k (upd m h f s, w) = Some (tt, (upd m h (with_data d f) s, w)) ∧ view d id n (a + k) β.
Proof.
  intros V Hz. destruct (view_set_alloc _ _ _ _ _ (a + k) V Hz) as (d & Ed & V').
  exists d. split; [|done]. unfold add_allocated_pages, add_field.
  rewrite (exec (header_raw _ f (heap_upd _ _ _ _))).
  pose proof (vw_alloc _ _ _ _ _ V) as Ha. unfold hdr_allocated_pages in Ha. rewrite Ha.
  exec_deref. rewrite swrap_id, Ed by done. exec_deref.
  apply put_header_raw.
Qed.

Lemma add_count_raw m f s id n a β k :
  view (data (page_ f)) id n a β → in_srange 32 (n + k) →
  ∃ d, add_page_count p k (upd m h f s, w) = Some (tt, (upd m h (with_data d f) s, w)) ∧ view d id (n + k) a β.
Proof.
  intros V Hz. destruct (view_set_count _ _ _ _ _ (n + k) V Hz) as (d & Ed & V').
  exists d. split; [|done]. unfold add_page_count, add_field.
  rewrite (exec (header_raw _ f (heap_upd _ _ _ _))).
  pose proof (vw_count _ _ _ _ _ V) as Ha. unfold hdr_page_count in Ha. rewrite Ha.
  exec_deref. rewrite swrap_id, Ed by done. exec_deref.
  apply put_header_raw.
Qed.

Lemma set_bit_raw m f s id n a β i :
  view (data (page_ f)) id n a β → 0 ≤ i < MAX_PAGE_NUM →
  ∃ d, header_set_bit p i (upd m h f s, w) = Some (tt, (upd m h (with_data d f) s, w)) ∧ view d id n a (with_bit β i true).
Proof.
  intros V Hi. destruct (view_set_bit _ _ _ _ _ i V Hi) as (bm & Eb & V'). eexists. split; [|exact V'].
  unfold header_set_bit. rewrite (exec (header_raw _ f (heap_upd _ _ _ _))), Eb.
  exec_deref. apply put_header_raw.
Qed.

Lemma clear_bitmap_raw m f s id n a β i :
  view (data (page_ f)) id n a β → 0 ≤ i < MAX_PAGE_NUM →
  ∃ d, header_clear_bitmap_bit p i (upd m h f s, w) = Some (tt, (upd m h (with_data d f) s, w)) ∧
    view d id n a (with_bit β i false).
Proof.
  intros V Hi. destruct (view_clear_bit _ _ _ _ _ i V Hi) as (bm & Eb & V'). eexists. split; [|exact V'].
  unfold header_clear_bitmap_bit. rewrite (exec (header_raw _ f (heap_upd _ _ _ _))), Eb.
  exec_deref. apply put_header_raw.
Qed.

Lemma clear_bit_raw m f s id n a β i :
  view (data (page_ f)) id n a β → 0 ≤ i < MAX_PAGE_NUM →
  ∃ d, header_clear_bit p i (upd m h f s, w) = Some (tt, (upd m h (with_data d f) s, w)) ∧
    view d id n a (with_bit β i false).
Proof.
  intros V Hi. destruct (view_clear_bit _ _ _ _ _ i V Hi) as (bm & Eb & V'). eexists. split; [|exact V'].
  unfold header_clear_bit. rewrite (exec (header_raw _ f (heap_upd _ _ _ _))).
  rewrite dispose_bit_clear, Eb by lia. exec_deref. apply put_header_raw.
Qed.

Lemma set_frame_raw m f s g : set_frame h g (upd m h f s, w) = Some (tt, (upd m h (g f) s, w)).
Proof. rewrite (set_frame_eq _ _ _ f _ (heap_upd m h f s)). by rewrite upd_upd. Qed.

Lemma mark_dirty_raw m f s :
  stats_ f = true → 0 ≤ s dirty_pages_current < 2 ^ 64 - 1 →
  ∃ s', fm_do (on_frame h mark_dirty) (upd m h f s, w) = Some (tt, (upd m h (set_dirty true f) s', w)) ∧
    s' current_pinned_frames = s current_pinned_frames ∧
    s' dirty_pages_current = s dirty_pages_current + 1 - Z.b2z (dirty_ f).
Proof.
  intros Hs Hd. destruct (mark_dirty_effect f s Hs Hd) as (s' & E & H1 & H2). exists s'. split; [|done].
  rewrite (fm_do_eq _ _ w _ _ (on_frame_eq h _ f _ _ _ (heap_upd m h f s) E)). by rewrite upd_upd.
Qed.
End raw.

(** ** A consistent header is written *)
Definition kept_but (id : Z) m w m' w' : Prop :=
  ∀ id' pn d, (id', pn) ≠ (id, 0) → content m w id' pn = Some d → content m' w' id' pn = Some d.

Lemma opened_unique m w id p b1 h1 f1 n1 a1 b2 h2 f2 n2 a2 :
  opened m w id p b1 h1 f1 n1 a1 → opened m w id p b2 h2 f2 n2 a2 → b1 = b2 ∧ h1 = h2 ∧ f1 = f2 ∧ n1 = n2 ∧ a1 = a2.
Proof.
  intros [] []. simplify_eq. pose proof (ho_count _ _ _ _ op_ok). pose proof (ho_count _ _ _ _ op_ok0).
  pose proof (ho_alloc _ _ _ _ op_ok). pose proof (ho_alloc _ _ _ _ op_ok0). by simplify_eq.
Qed.

(** The header frame with another page, marked dirty. *)
Definition rewritten (f : Frame) (pg : Page) : Frame := set_dirty true (set_page pg f).

Lemma header_write_inv m w id p b h f n a pg n' a' s :
  fm_wf m → sys_inv m w → opened m w id p b h f n a → page_wf pg → header_ok id (data pg) n' a' → n ≤ n' →
  (∀ pn, 0 ≤ pn < n' → is_Some (stored w id pn)) →
  s current_pinned_frames = fm_stats m current_pinned_frames →
  s dirty_pages_current = fm_stats m dirty_pages_current + 1 - Z.b2z (dirty_ f) →
  let m' := upd m h (rewritten f pg) s in
  fm_wf m' ∧ sys_inv m' w ∧ kept_but id m w m' w ∧ opened m' w id p b h (rewritten f pg) n' a'.
Proof.
  intros Wm I O Hpw Hok Hn Hst Hs1 Hs2 m'. destruct O as [O1 O2 O3 O4 O5 O6 O7 O8 O9 O10 O11].
  pose proof (cached_frame _ _ _ _ Wm O5 O6) as Hck.
  assert (fm_wf m') as W'.
  { apply (upd_wf m (mkFrameId id 0) h f); [done|done|done|destruct Hck; by split| |].
    - rewrite Hs1. change (pinned (rewritten f pg)) with (pinned f). lia.
    - rewrite Hs2. change (dirty_ (rewritten f pg)) with true. cbn. lia. }
  assert (opened m' w id p b h (rewritten f pg) n' a') as O'.
  { split; try done; [apply heap_upd|]. intros pn q Hq. specialize (O11 pn q Hq). lia. }
  pose proof I as [H1 H2 H3 H4 H5]. split_and!; try done.
  - split; try done.
    + intros q g. destruct (decide (q = h)) as [->|Hne]; [|unfold m'; rewrite heap_upd_ne by done; apply H3].
      unfold m'. rewrite heap_upd. by intros [= <-].
    + intros id' q g Hin Hg. destruct (decide (q = h)) as [->|Hne].
      * assert (id' = mkFrameId id 0) as -> by exact (ptr_key_unique m _ _ h Wm Hin O5).
        unfold m' in Hg. rewrite heap_upd in Hg. injection Hg as <-.
        destruct (H4 _ h f O5 O6) as (? & ? & _). split_and!; [done|done|]. intros [=].
      * unfold m' in Hg. rewrite heap_upd_ne in Hg by done. exact (H4 id' q g Hin Hg).
    + intros id' p' Hid. destruct (decide (id' = id)) as [->|Hni].
      { rewrite O1 in Hid. injection Hid as <-. destruct O'. by exists b, h, (rewritten f pg), n', a'. }
      destruct (H5 id' p' Hid) as (b' & hp & hf & nn & aa & Hb' & Hf1 & Hf2 & Hin' & Hhf & Hp' & Hh' & Hbk & Hcap).
      exists b', hp, hf, nn, aa. unfold m'. rewrite heap_upd_ne; [done|].
      intros ->. apply Hni. assert (mkFrameId id' 0 = mkFrameId id 0) as E by exact (ptr_key_unique m _ _ h Wm Hin' O5).
      by injection E.
  - intros id' pn d Hne. unfold content, m'. cbn [frames_ upd].
    destruct (lru_peek (mkFrameId id' pn) (frames_ m)) as [q|] eqn:Hq; [|done].
    rewrite heap_upd_ne; [done|]. intros ->. apply Hne. apply lru_peek_elem in Hq; [|apply Wm].
    assert (mkFrameId id' pn = mkFrameId id 0) as E by exact (ptr_key_unique m _ _ h Wm Hq O5). by injection E as -> ->.
Qed.
End header_steps.
