(* ===== verification/PageAlloc.v ===== *)
(** * Allocating and disposing pages

    [allocate_page] takes the first hole of the file or extends it, and
    [dispose_page] makes a hole; both keep the invariant of the buffer pool and
    the content of every other page. *)

From S2P Require Import Prelude Types Bytes Crc Os PageIO Bitmap LruCache MemPool Stats Latch Frame Replacement FrameManager FrameSafety BufferPool DoubleWrite DiskBufferPool StorageSafety PoolSafety PageAccess FileHeader.
Local Open Scope Z_scope.

Section page_alloc.
Context {P L : Type} `{!ReplacementPolicy P} `{!PolicyLaws P} `{!LogHandler L} `{!LogLaws L} `{HOrd : HashOrder}.
Notation World := (World L).
Notation Sys := (Sys L P).
Notation FM := (BPFrameManager (P:=P)).
Implicit Types (w : World) (pn : PageNum) (m : FM) (fp : Ptr).

(** What a failed fetch leaves behind: every frame was pinned. *)
Record no_buffer m w m' (w' : World) : Prop := {
  nb_full : Z.of_nat (length (frames_ m)) = capacity_ m;
  nb_pinned : unpinned_count m = 0;
  nb_wf : fm_wf m';
  nb_inv : sys_inv m' w';
  nb_kept : kept m w m' w';
  nb_ext : extends w w';
  nb_pins : pins_kept m m';
  nb_same : same_pins m m'
}.

(** [get_this_page], all cases. *)
Lemma get_this_page_cases m w id p pn :
  fm_wf m → sys_inv m w → id_to_buffer_pools_ w !! id = Some p → pins_bounded m →
  (allocated m w id pn = false ∧ get_this_page p pn (m, w) = Some ((RC.BUFFERPOOL_INVALID_PAGE_NUM, None), (m, w))) ∨
  (allocated m w id pn = true ∧ lru_peek (mkFrameId id pn) (frames_ m) = None ∧ ∃ m' w',
     get_this_page p pn (m, w) = Some ((RC.BUFFERPOOL_NOBUF, None), (m', w')) ∧ no_buffer m w m' w') ∨
  (allocated m w id pn = true ∧ ∃ fp m' w',
     get_this_page p pn (m, w) = Some ((RC.SUCCESS, Some fp), (m', w')) ∧ fetched m w (mkFrameId id pn) fp m' w').
Proof.
  intros Wm I Hid Hb. destruct (allocated m w id pn) eqn:Ha.
  - right. destruct (lru_peek (mkFrameId id pn) (frames_ m)) as [fp|] eqn:Hpk.
    + right. split; [done|]. apply lru_peek_elem in Hpk as Hin; [|apply Wm].
      destruct (fw_cached _ Wm _ _ Hin) as (f & Hf & _).
      destruct (get_hit_ok m w id p pn fp f Wm I Hid Ha Hpk Hf (Hb fp f Hf)) as (m' & w' & E & F & _). by exists fp, m', w'.
    + destruct (get_miss_ok m w id p pn Wm I Hid Ha Hpk) as [(m' & w' & E & N)|(fp & m' & w' & E & F)].
      * left. split_and!; [done|done|]. exists m', w'. split; [done|]. by destruct N as (?&?&?&?&?&?&?&?).
      * right. split; [done|]. by exists fp, m', w'.
  - left. split; [done|]. destruct (opened_intro m w id p I Hid) as (b & h & hf & n & a & O).
    unfold get_this_page. rewrite (exec (check_page_num_eq _ _ _ _ _ _ _ _ _ O pn)), Ha.
    by rewrite bool_decide_eq_true_2.
Qed.

Lemma pins_nonneg m id : fm_wf m → 0 ≤ pins m id.
Proof.
  intros Wm. unfold pins. destruct (lru_peek id (frames_ m)) as [fp|] eqn:E; [|done]. cbn.
  apply lru_peek_elem in E; [|apply Wm]. destruct (fw_cached _ Wm _ _ E) as (f & Hf & Hok). rewrite Hf. cbn.
  pose proof (ck_pin _ _ Hok). lia.
Qed.

(** ** Finding a hole *)
Lemma free_scan_ok m w id p b h f n a k i :
  opened m w id p b h f n a → 0 ≤ i → i + Z.of_nat k ≤ MAX_PAGE_NUM →
  let β := Bitmap.bit (hdr_bitmap (data (page_ f))) in
  (free_scan k i p (m, w) = Some (None, (m, w)) ∧ ∀ j, i ≤ j < i + Z.of_nat k → β j = true) ∨
  (∃ j, free_scan k i p (m, w) = Some (Some j, (m, w)) ∧ i ≤ j < i + Z.of_nat k ∧ β j = false ∧
     ∀ j', i ≤ j' < j → β j' = true).
Proof.
  intros O. revert i. induction k as [|k IH]; intros i Hi Hk β; [left; split; [done|lia]|].
  cbn [free_scan]. rewrite (exec (header_bit_eq _ _ _ _ _ _ _ _ _ O i ltac:(lia))).
  fold β. destruct (β i) eqn:Eb; cbn [negb].
  - destruct (IH (i + 1)) as [[E Hall]|(j & E & Hj & Hf & Hall)]; [lia|lia|left|right].
    + split; [done|]. intros j Hj. destruct (decide (j = i)) as [->|]; [done|]. apply Hall. lia.
    + exists j. split_and!; [done|lia|lia|done|]. intros j' Hj'. destruct (decide (j' = i)) as [->|]; [done|]. apply Hall. lia.
  - right. exists i. split_and!; [done|lia|lia|done|lia].
Qed.

Lemma opened_calm m w w' id p b h f n a :
  opened m w id p b h f n a → calm w w' → ∃ s, opened m w' id p (set_bp_stats s b) h f n a.
Proof.
  intros [] C. destruct (calm_pool _ _ _ _ C op_pool) as [s Hs]. exists s. split; try done.
  - by rewrite (calm_reg _ _ _ C).
  - intros pn Hpn. rewrite (cm_stored _ _ C). auto.
Qed.

(** ** The header stores of [allocate_page] on a hole *)
Definition take_hole (p : Ptr) (hdr : Ptr) (i : PageNum) (l : LSN) : M Sys unit :=
  add_allocated_pages p 1;; header_set_bit p i;; fm_do (on_frame hdr mark_dirty);; set_frame hdr (frame_set_lsn l).

Lemma header_view_of m w id p b h f n a :
  opened m w id p b h f n a → view (data (page_ f)) id n a (Bitmap.bit (hdr_bitmap (data (page_ f)))).
Proof. intros O. apply header_view; [apply O|apply O|]. apply O. Qed.

Lemma page_count_int n : n ≤ MAX_PAGE_NUM → n < 2 ^ 31 - 1.
Proof. assert (MAX_PAGE_NUM < 2 ^ 31 - 1) by (by vm_compute). lia. Qed.

Lemma alloc_bounds id d n a : header_ok id d n a → 0 ≤ a ≤ n ∧ 1 ≤ n < 2 ^ 31 - 1.
Proof.
  intros [H1 H2 H3 H4 H5 H6 H7]. pose proof (Bitmap.popcount_bound (hdr_bitmap d) n ltac:(lia)).
  pose proof (page_count_int n). lia.
Qed.

Lemma hdr_stats m w id p b h f n a : fm_wf m → opened m w id p b h f n a → stats_ f = true.
Proof. intros Wm O. exact (ck_stats _ _ (cached_frame _ _ _ _ Wm (op_cached _ _ _ _ _ _ _ _ _ O) (op_frame _ _ _ _ _ _ _ _ _ O))). Qed.

Lemma take_hole_ok m w id p b h f n a i l :
  fm_wf m → sys_inv m w → opened m w id p b h f n a → 0 ≤ i < n →
  Bitmap.bit (hdr_bitmap (data (page_ f))) i = false → in_srange 64 l →
  ∃ pg s, let m' := upd m h (rewritten f pg) s in
    take_hole p h i l (m, w) = Some (tt, (m', w)) ∧ fm_wf m' ∧ sys_inv m' w ∧ kept_but id m w m' w ∧
    opened m' w id p b h (rewritten f pg) n (a + 1) ∧ lsn pg = l ∧
    ∀ j, 0 ≤ j → Bitmap.bit (hdr_bitmap (data pg)) j = with_bit (Bitmap.bit (hdr_bitmap (data (page_ f)))) i true j.
Proof.
  intros Wm I O Hi Hbit Hl. pose proof (op_ok _ _ _ _ _ _ _ _ _ O) as Hok. pose proof (alloc_bounds _ _ _ _ Hok) as [Ha Hn].
  pose proof (op_pool _ _ _ _ _ _ _ _ _ O) as Hb. pose proof (op_file _ _ _ _ _ _ _ _ _ O) as Hfh.
  pose proof (ho_range _ _ _ _ Hok) as Hr. destruct (fm_counters m Wm) as [_ Hc].
  assert (take_hole p h i l (m, w) = take_hole p h i l (upd m h f (fm_stats m), w)) as ->
    by (by rewrite (upd_id m h f (op_frame _ _ _ _ _ _ _ _ _ O))).
  unfold take_hole.
  destruct (add_alloc_raw w p b h Hb Hfh m f (fm_stats m) id n a _ 1 (header_view_of _ _ _ _ _ _ _ _ _ O)) as (d1 & E1 & V1);
    [unfold in_srange; lia|]. rewrite (exec E1).
  destruct (set_bit_raw w p b h Hb Hfh m (with_data d1 f) (fm_stats m) id n (a + 1) _ i V1) as (d2 & E2 & V2); [lia|].
  rewrite (exec E2).
  destruct (mark_dirty_raw w h m (with_data d2 (with_data d1 f)) (fm_stats m)) as (s & E3 & S1 & S2);
    [exact (hdr_stats _ _ _ _ _ _ _ _ _ Wm O)|lia|]. rewrite (exec E3), set_frame_raw.
  set (pg := set_lsn l (set_data d2 (page_ f))). exists pg, s. cbv zeta. split; [done|].
  assert (page_wf pg) as Hpw. { destruct (op_page _ _ _ _ _ _ _ _ _ O). split; [done|done|apply V2|apply V2]. }
  destruct (header_write_inv m w id p b h f n a pg n (a + 1) s) as (W' & I' & K' & O'); try done.
  - exact (header_take id _ n a d2 i Hok Hi Hbit V2).
  - apply O.
  - split_and!; try done. apply V2.
Qed.

(** Page [i] of the file was taken into use; [keeps]: what else is kept. *)
Definition kept_without (id : Z) (i : PageNum) m w m' w' : Prop :=
  ∀ id' pn d, (id', pn) ≠ (id, 0) → (id', pn) ≠ (id, i) → content m w id' pn = Some d → content m' w' id' pn = Some d.

Definition only_added (id : Z) (i : PageNum) m w m' w' : Prop :=
  ∀ pn, allocated m' w' id pn = if decide (pn = i) then true else allocated m w id pn.

Record new_page m w (id : Z) (i : PageNum) (fp : Ptr) m' (w' : World) : Prop := {
  np_wf : fm_wf m';
  np_inv : sys_inv m' w';
  np_ext : extends w w';
  np_free : allocated m w id i = false;
  np_alloc : only_added id i m w m' w';
  np_frame : ∃ f', (mkFrameId id i, fp) ∈ frames_ m' ∧ heap m' !! fp = Some f' ∧ 0 < pin_count_ f' ∧
    data (page_ f') = data zero_page;
  np_kept : kept_without id i m w m' w';
  np_pins : pins m' (mkFrameId id i) = pins m (mkFrameId id i) + 1;
  np_others : pins_but (mkFrameId id i) m m'
}.

Lemma not_header m w id pn fp : fm_wf m → sys_inv m w → (mkFrameId id pn, fp) ∈ frames_ m → pn ≠ 0 → hdr_free w fp.
Proof.
  intros Wm I Hin Hpn id' p b Hid Hb Hh. destruct (opened_intro m w id' p I Hid) as (b' & h & f & n & a & O).
  pose proof (op_pool _ _ _ _ _ _ _ _ _ O) as Hb'. rewrite Hb in Hb'. injection Hb' as <-.
  pose proof (op_hdr _ _ _ _ _ _ _ _ _ O) as Hh'. rewrite Hh in Hh'. injection Hh' as <-.
  pose proof (ptr_key_unique m _ _ fp Wm Hin (op_cached _ _ _ _ _ _ _ _ _ O)) as E. by injection E.
Qed.

(** The frame of a cached page other than a header has another page, and is dirty. *)
Lemma rewrite_inv m w id pn fp f pg s :
  fm_wf m → sys_inv m w → (mkFrameId id pn, fp) ∈ frames_ m → pn ≠ 0 → heap m !! fp = Some f → page_wf pg →
  s current_pinned_frames = fm_stats m current_pinned_frames →
  s dirty_pages_current = fm_stats m dirty_pages_current + 1 - Z.b2z (dirty_ f) →
  let m' := upd m fp (rewritten f pg) s in
  fm_wf m' ∧ sys_inv m' w ∧
  ∀ id' pn' d, (id', pn') ≠ (id, pn) → content m w id' pn' = Some d → content m' w id' pn' = Some d.
Proof.
  intros Wm I Hin Hpn Hf Hpw S1 S2 m'. pose proof (cached_frame _ _ _ _ Wm Hin Hf) as Hck. split_and!.
  - apply (upd_wf m (mkFrameId id pn) fp f); [done|done|done|destruct Hck; by split| |].
    + rewrite S1. change (pinned (rewritten f pg)) with (pinned f). lia.
    + rewrite S2. cbn. lia.
  - apply (upd_inv m w (mkFrameId id pn) fp f); try done. left. by eapply not_header.
  - intros id' pn' d Hne. unfold content, m'. cbn [frames_ upd].
    destruct (lru_peek (mkFrameId id' pn') (frames_ m)) as [q|] eqn:Hq; [|done].
    rewrite heap_upd_ne; [done|]. intros ->. apply Hne. apply lru_peek_elem in Hq; [|apply Wm].
    pose proof (ptr_key_unique m _ _ fp Wm Hq Hin) as Ek. by injection Ek as -> ->.
Qed.

(** A cached page other than a header is filled and marked dirty. *)
Lemma fill_dirty_ok m w id pn fp f pg :
  fm_wf m → sys_inv m w → (mkFrameId id pn, fp) ∈ frames_ m → pn ≠ 0 → heap m !! fp = Some f → page_wf pg →
  ∃ s, let m' := upd m fp (rewritten f pg) s in
    fm_do (on_frame fp mark_dirty) (upd m fp (set_page pg f) (fm_stats m), w) = Some (tt, (m', w)) ∧
    fm_wf m' ∧ sys_inv m' w ∧
    ∀ id' pn' d, (id', pn') ≠ (id, pn) → content m w id' pn' = Some d → content m' w id' pn' = Some d.
Proof.
  intros Wm I Hin Hpn Hf Hpw. pose proof (cached_frame _ _ _ _ Wm Hin Hf) as Hck. destruct (fm_counters m Wm) as [_ Hc].
  destruct (mark_dirty_raw w fp m (set_page pg f) (fm_stats m)) as (s & E & S1 & S2); [apply Hck|lia|].
  exists s. cbv zeta. split; [exact E|]. by apply rewrite_inv.
Qed.

Lemma opened_allocated m w id p b h f n a m' w' b' f' a' i :
  opened m w id p b h f n a → opened m' w' id p b' h f' n a' → 0 ≤ i < n →
  (∀ j, 0 ≤ j → Bitmap.bit (hdr_bitmap (data (page_ f'))) j = with_bit (Bitmap.bit (hdr_bitmap (data (page_ f)))) i true j) →
  only_added id i m w m' w'.
Proof.
  intros O O' Hi Hb pn. rewrite (allocated_eq _ _ _ _ _ _ _ _ _ O), (allocated_eq _ _ _ _ _ _ _ _ _ O').
  destruct (Z.leb_spec 0 pn) as [H0|H0]; cbn [andb]; [|rewrite decide_False by lia; done].
  rewrite Hb by done. unfold with_bit. destruct (decide (pn = i)) as [->|Hd].
  - by rewrite decide_True, (proj2 (Z.ltb_lt _ _)) by (done || lia).
  - by rewrite decide_False.
Qed.

Lemma pins_bounded_rewritten m h f pg s : heap m !! h = Some f → pins_bounded m → pins_bounded (upd m h (rewritten f pg) s).
Proof.
  intros Hf Hb q g. destruct (decide (q = h)) as [->|Hne]; [|rewrite heap_upd_ne by done; apply Hb].
  rewrite heap_upd. intros [= <-]. exact (Hb h f Hf).
Qed.

(** The header frame alone decides which pages are in use. *)
Lemma allocated_heap m m' w id p b h :
  id_to_buffer_pools_ w !! id = Some p → w_pools w !! p = Some b → file_header_ b = Some h → heap m' !! h = heap m !! h →
  file_pages m' w id = file_pages m w id ∧ ∀ pn, allocated m' w id pn = allocated m w id pn.
Proof.
  intros Hid Hb Hfh Hh. assert (header_data m' w id = header_data m w id) as E.
  { unfold header_data. rewrite Hid. cbn [mbind option_bind]. rewrite Hb. cbn [mbind option_bind].
    rewrite Hfh. cbn [mbind option_bind]. by rewrite Hh. }
  unfold allocated, file_pages. by rewrite E.
Qed.

Lemma allocated_upd m w id p fp f s :
  sys_inv m w → id_to_buffer_pools_ w !! id = Some p → hdr_free w fp →
  ∀ pn, allocated (upd m fp f s) w id pn = allocated m w id pn.
Proof.
  intros I Hid Hfree. destruct (opened_intro m w id p I Hid) as (b & h & hf & n & a & O).
  apply (allocated_heap m _ w id p b h); [apply O|apply O|apply O|]. apply heap_upd_ne.
  intros ->. exact (Hfree id p b Hid (op_pool _ _ _ _ _ _ _ _ _ O) (op_hdr _ _ _ _ _ _ _ _ _ O)).
Qed.

Lemma fetched_alloc m w id p k fp m' w' :
  sys_inv m w → id_to_buffer_pools_ w !! id = Some p → fetched m w k fp m' w' →
  ∀ pn, allocated m' w' id pn = allocated m w id pn.
Proof. intros I Hid F. apply (allocated_kept m w m' w' id p I Hid); apply F. Qed.

(** ** [allocate_page] on a hole *)
(** How an allocation ends: a new page; or no frame for it, with the page taken
    all the same; or a log that refuses the record, with nothing changed. *)
Inductive hole_result m w (id : Z) (i : PageNum) : RC.RC → option Ptr → FM → World → Prop :=
  | hole_taken fp m' w' : new_page m w id i fp m' w' → hole_result m w id i RC.SUCCESS (Some fp) m' w'
  | hole_leaked m' w' :
      fm_wf m' → sys_inv m' w' → extends w w' → only_added id i m w m' w' → kept_but id m w m' w' → same_pins m m' →
      hole_result m w id i RC.BUFFERPOOL_NOBUF None m' w'
  | hole_unlogged rc w' : rc ≠ RC.SUCCESS → calm w w' → hole_result m w id i rc None m w'.

Lemma allocate_hole_ok m w id p b h f n a i :
  fm_wf m → sys_inv m w → pins_bounded m → opened m w id p b h f n a → 0 ≤ i < n →
  Bitmap.bit (hdr_bitmap (data (page_ f))) i = false →
  ∃ rc r m' w', allocate_hole p i (m, w) = Some ((rc, r), (m', w')) ∧ hole_result m w id i rc r m' w'.
Proof.
  intros Wm I Hpb O Hi Hbit. unfold allocate_hole, log_allocate_page.
  destruct (calm_append m w p b ALLOCATE i (op_pool _ _ _ _ _ _ _ _ _ O) (si_log _ _ I)) as (rc & l & w1 & E1 & C1 & Hl).
  rewrite (exec E1). unfold RC.OB_FAIL. case_bool_decide as Hrc; [by eexists _, _, _, _; split; [|by apply hole_unlogged]|].
  destruct (opened_calm _ _ _ _ _ _ _ _ _ _ O C1) as [sb O1]. destruct (calm_inv m w w1 I C1) as [I1 K1].
  rewrite (exec (hdr_frame_eq _ _ _ _ _ _ _ _ _ O1)).
  destruct (take_hole_ok m w1 id p _ h f n a i l Wm I1 O1 Hi Hbit Hl) as (pg & s & E2 & W2 & I2 & K2 & O2 & Hlsn & Hbits).
  set (m2 := upd m h (rewritten f pg) s) in *.
  apply bind_Some in E2 as ([] & [m3 w3] & E2 & E3). rewrite (exec E2).
  apply bind_Some in E3 as ([] & [m4 w4] & E3 & E4). rewrite (exec E3).
  apply bind_Some in E4 as ([] & [m5 w5] & E4 & E5). rewrite (exec E4), (exec E5).
  rewrite (exec (global_stat_eq _ _ _)). set (m6 := set_fm_stats _ m2).
  destruct (calm_stat p _ record_page_allocation m6 w1 (op_pool _ _ _ _ _ _ _ _ _ O2)) as (w6 & E6 & C6).
  rewrite (exec E6).
  assert (fm_wf m6) as W6 by (destruct (record_page_allocation_quiet (fm_stats m2)); by apply set_stats_wf).
  destruct (calm_inv m6 w1 w6 (set_stats_inv m2 w1 _ I2) C6) as [I6 K6].
  assert (only_added id i m w m6 w6) as A6.
  { destruct (opened_calm _ _ _ _ _ _ _ _ _ _ O2 C6) as [sb6 O6].
    refine (opened_allocated m w id p b h f n a m6 w6 _ (rewritten f pg) (a + 1) i O _ Hi Hbits).
    destruct O6. by split. }
  assert (id_to_buffer_pools_ w6 !! id = Some p) as Hid6.
  { rewrite (calm_reg _ _ _ C6), (calm_reg _ _ _ C1). apply O. }
  assert (kept_but id m w m6 w6) as K.
  { intros id' pn d Hne Hd. apply K6. apply K2; [done|]. by apply K1. }
  assert (extends w w6) as X by (etrans; [apply C1|apply C6]).
  assert (i ≠ 0) as Hi0. { intros ->. by rewrite (ho_first _ _ _ _ (op_ok _ _ _ _ _ _ _ _ _ O)) in Hbit. }
  assert (same_pins m m6) as S6 by exact (pins_upd m h f (rewritten f pg) s (op_frame _ _ _ _ _ _ _ _ _ O) eq_refl).
  destruct (get_this_page_cases m6 w6 id p i W6 I6 Hid6) as
    [[Ha _]|[(_ & _ & m7 & w7 & E7 & N)|(Ha & fp & m7 & w7 & E7 & F)]].
  - exact (pins_bounded_rewritten m h f pg s (op_frame _ _ _ _ _ _ _ _ _ O) Hpb).
  - rewrite A6, decide_True in Ha by done. done.
  - rewrite (exec E7). eexists _, _, _, _. split; [reflexivity|]. destruct N as [N1 N2 N3 N4 N5 N6 N7 N8].
    apply hole_leaked; [done|done|by etrans| | |by etrans].
    + intros pn. rewrite (proj2 (allocated_kept m6 w6 m7 w7 id p I6 Hid6 N6 N7)). apply A6.
    + intros id' pn d Hne Hd. apply N5. by apply K.
  - rewrite (exec E7). change (bool_decide (RC.SUCCESS ≠ RC.SUCCESS)) with false. cbv iota.
    exec_deref. destruct F as [F1 F2 F3 F4 F5 F6 (f7 & Hin7 & Hf7 & Hp7 & _)].
    pose proof (proj2 (lru_peek_elem _ _ _ (fw_keys _ F1)) Hin7) as Hpk7.
    rewrite (exec (set_frame_eq m7 w7 fp f7 _ Hf7)).
    rewrite (exec (set_frame_raw w7 fp m7 _ _ _)).
    change (frame_set_lsn l (clear_page f7)) with (set_page (set_lsn l zero_page) f7).
    destruct (fill_dirty_ok m7 w7 id i fp f7 (set_lsn l zero_page) F1 F2 Hin7 Hi0 Hf7) as (s8 & E8 & W8 & I8 & K8).
    { destruct zero_page_wf. by split. }
    rewrite (exec E8). eexists _, _, _, _. split; [reflexivity|]. apply hole_taken.
    pose proof (pins_upd m7 fp f7 (rewritten f7 (set_lsn l zero_page)) s8 Hf7 eq_refl) as S8.
    split; [done|done|by etrans| | | | | |].
    + rewrite (allocated_eq _ _ _ _ _ _ _ _ _ O), Hbit. by rewrite andb_false_r.
    + intros pn. rewrite (allocated_upd m7 w7 id p fp _ _ F2); [|by rewrite (ex_ids _ _ F4)|by eapply not_header].
      rewrite (proj2 (allocated_kept m6 w6 m7 w7 id p I6 Hid6 F4 F5)). apply A6.
    + exists (rewritten f7 (set_lsn l zero_page)). split_and!; [done|apply heap_upd| |done]. cbn.
      pose proof (pins_nonneg m6 (mkFrameId id i) W6). lia.
    + intros id' pn d Hne1 Hne2 Hd. apply K8; [done|]. apply F3. by apply K.
    + by rewrite S8, (pins_peek m7 _ fp f7 Hpk7 Hf7), Hp7, S6.
    + intros id' Hne. by rewrite S8, F6, S6.
Qed.

(** ** [allocate_page] at the end of the file *)
Definition grow_header (p hdr : Ptr) (pn : PageNum) : M Sys unit :=
  add_allocated_pages p 1;; add_page_count p 1;; header_set_bit p pn;; fm_do (on_frame hdr mark_dirty).

Lemma grow_header_run m w p b h f id n a β :
  w_pools w !! p = Some b → file_header_ b = Some h → heap m !! h = Some f → view (data (page_ f)) id n a β →
  0 ≤ a ≤ n → 0 ≤ n < MAX_PAGE_NUM → stats_ f = true → 0 ≤ fm_stats m dirty_pages_current < 2 ^ 64 - 1 →
  ∃ d s, grow_header p h n (m, w) = Some (tt, (upd m h (rewritten f (set_data d (page_ f))) s, w)) ∧
    view d id (n + 1) (a + 1) (with_bit β n true) ∧
    s current_pinned_frames = fm_stats m current_pinned_frames ∧
    s dirty_pages_current = fm_stats m dirty_pages_current + 1 - Z.b2z (dirty_ f).
Proof.
  intros Hb Hfh Hf V Ha Hn Hst Hc. pose proof (page_count_int n ltac:(lia)).
  assert (grow_header p h n (m, w) = grow_header p h n (upd m h f (fm_stats m), w)) as -> by (by rewrite upd_id).
  unfold grow_header.
  destruct (add_alloc_raw w p b h Hb Hfh m f (fm_stats m) id n a β 1 V) as (d1 & E1 & V1); [unfold in_srange; lia|].
  rewrite (exec E1).
  destruct (add_count_raw w p b h Hb Hfh m (with_data d1 f) (fm_stats m) id n (a + 1) β 1 V1) as (d2 & E2 & V2); [unfold in_srange; lia|].
  rewrite (exec E2).
  destruct (set_bit_raw w p b h Hb Hfh m (with_data d2 (with_data d1 f)) (fm_stats m) id (n + 1) (a + 1) β n V2) as (d3 & E3 & V3); [lia|].
  rewrite (exec E3).
  destruct (mark_dirty_raw w h m (with_data d3 (with_data d2 (with_data d1 f))) (fm_stats m)) as (s & E4 & S1 & S2); [done|lia|].
  exists d3, s. rewrite E4. done.
Qed.

(** A page that is not cached is stored, beyond the end of the file. *)
Lemma store_beyond m w w' id p b h f n a pg :
  sys_inv m w → opened m w id p b h f n a → extends w w' → world_ok w' → log_ok (w_log w') →
  stored w' id n = Some pg →
  (∀ id' pn q, (id', pn) ≠ (id, n) → stored w id' pn = Some q → stored w' id' pn = Some q) →
  sys_inv m w' ∧ (∀ id' pn d, (id', pn) ≠ (id, n) → content m w id' pn = Some d → content m w' id' pn = Some d) ∧
  ∃ s, opened m w' id p (set_bp_stats s b) h f n a ∧ ∀ pn, 0 ≤ pn < n + 1 → is_Some (stored w' id pn).
Proof.
  intros I O X Hw Hl Hst Hoth. pose proof I as [H1 H2 H3 H4 H5].
  assert (∀ id' pn q, (mkFrameId id' pn, q) ∈ frames_ m → (id', pn) ≠ (id, n)) as Hnc.
  { intros id' pn q Hin [= -> ->]. pose proof (op_bound _ _ _ _ _ _ _ _ _ O n q Hin). lia. }
  assert (∀ pn, 0 ≤ pn < n + 1 → is_Some (stored w' id pn)) as Hall.
  { intros pn Hpn. destruct (decide (pn = n)) as [->|Hne]; [by rewrite Hst|].
    destruct (op_stored _ _ _ _ _ _ _ _ _ O pn ltac:(lia)) as [q Hq]. exists q. apply Hoth; [congruence|done]. }
  split_and!.
  - split; try done.
    + intros id' q g Hin Hg. destruct (H4 id' q g Hin Hg) as (? & ? & Hc). rewrite (ex_ids _ _ X). split_and!; [done|done|].
      intros Hd. destruct (Hc Hd) as (y & Hy & Hyd). exists y. split; [|done]. apply Hoth; [|done].
      destruct id' as [i' n']. by eapply Hnc.
    + intros id' p' Hid. rewrite (ex_ids _ _ X) in Hid.
      destruct (H5 id' p' Hid) as (b' & hp & hf & nn & aa & Hb' & Hf1 & Hf2 & Hin' & Hhf & Hp' & Hh' & Hbk & Hcap).
      destruct (extends_pool_1 _ _ _ _ X Hb') as [s Hs].
      exists (set_bp_stats s b'), hp, hf, nn, aa. split_and!; try done. intros pn Hpn.
      destruct (decide ((id', pn) = (id, n))) as [E|E]; [injection E as -> ->; by rewrite Hst|].
      destruct (Hbk pn Hpn) as [q Hq]. exists q. by apply Hoth.
  - intros id' pn d Hne. unfold content. destruct (lru_peek _ _); [done|].
    destruct (stored w id' pn) as [q|] eqn:Hq; [|done]. by rewrite (Hoth _ _ _ Hne Hq).
  - destruct (extends_pool_1 _ _ _ _ X (op_pool _ _ _ _ _ _ _ _ _ O)) as [s Hs]. exists s. split; [|done].
    destruct O. split; try done; [by rewrite (ex_ids _ _ X)|]. intros pn Hpn. apply Hall. lia.
Qed.

(** Allocating a frame and writing another one commute. *)
Lemma alloc_upd_comm m id fr rest f0 s0 h hf s1 s2 s3 s4 g :
  h ≠ fr →
  upd (alloc_state (upd m h hf s2) id fr rest f0 s3) fr g s1 = upd (upd (alloc_state m id fr rest f0 s0) h hf s4) fr g s1.
Proof.
  intros Hne. unfold upd, alloc_state, heap, mp_set_heap. cbn. do 2 f_equal.
  rewrite (insert_insert_ne _ h fr) by done. by rewrite !insert_insert_eq.
Qed.

Lemma handed_upd m w id fr x m' h hf s :
  fm_wf (upd m h hf s) → h ≠ fr → handed_out m w id fr x m' → ∃ m2, handed_out (upd m h hf s) w id fr x m2.
Proof.
  intros W Hne (rest & s0 & Hmiss & Hfr & Hx & _ & _). destruct id as [i pn].
  pose proof (fm_alloc_ok (upd m h hf s) i pn W Hmiss) as Ha. change (frees (allocator_ (upd m h hf s))) with (frees (allocator_ m)) in Ha.
  rewrite Hfr in Ha. destruct Ha as (y & s' & Hy & _ & W'). rewrite heap_upd_ne, Hx in Hy by done. injection Hy as <-.
  eexists. exists rest, s'. split_and!; try done. by rewrite heap_upd_ne.
Qed.

(** The state after an extension: header, new frame and stored page. *)
Lemma extension_inv m w id p b h hf n a fr x m' w' pg g s1 s :
  fm_wf m → sys_inv m w → opened m w id p b h hf n a → handed_out m w (mkFrameId id n) fr x m' →
  extends w w' → world_ok w' → log_ok (w_log w') → stored w' id n = Some (page_ g) →
  (∀ id' pn q, (id', pn) ≠ (id, n) → stored w id' pn = Some q → stored w' id' pn = Some q) →
  page_wf pg → page_wf (page_ g) → header_ok id (data pg) (n + 1) (a + 1) →
  let mf := upd (upd m' h (rewritten hf pg) s1) fr g s in
  sys_inv mf w' ∧ kept_without id n m w mf w' ∧ file_pages mf w' id = n + 1 ∧
  ∀ pn, allocated mf w' id pn = (0 <=? pn) && (pn <? n + 1) && Bitmap.bit (hdr_bitmap (data pg)) pn.
Proof.
  intros Wm I O Ho X Hw Hl Hst Hoth Hpw Hgw Hok mf. pose proof Ho as (rest & s0 & Hmiss & Hfr & Hx & Em & _).
  destruct (store_beyond m w w' id p b h hf n a (page_ g) I O X Hw Hl Hst Hoth) as (I1 & K1 & sb & O1 & Hall).
  pose proof (idle_not_cached m fr rest Wm Hfr _ _ (op_cached _ _ _ _ _ _ _ _ _ O)) as Hne.
  destruct (fm_counters m Wm) as [_ Hc].
  destruct (mark_dirty_effect hf (fm_stats m) (hdr_stats _ _ _ _ _ _ _ _ _ Wm O)) as (s2 & _ & S1 & S2); [lia|].
  destruct (header_write_inv m w' id p (set_bp_stats sb b) h hf n a pg (n + 1) (a + 1) s2) as (W2 & I2 & K2 & O2); try done; [lia|].
  set (m2 := upd m h (rewritten hf pg) s2) in *.
  destruct (handed_upd m w (mkFrameId id n) fr x m' h (rewritten hf pg) s2 W2 Hne Ho) as [m3 Ho2].
  pose proof Ho2 as (rest' & s3 & _ & Hfr' & _ & Em3 & _).
  change (frees (allocator_ (upd m h (rewritten hf pg) s2))) with (frees (allocator_ m)) in Hfr'.
  rewrite Hfr in Hfr'. injection Hfr' as <-.
  assert (mf = upd m3 fr g s) as Emf by (unfold mf; rewrite Em, Em3; symmetry; by apply alloc_upd_comm).
  destruct (insert_inv m2 w' (mkFrameId id n) fr x m3 g s p) as [I3 K3]; try done.
  - intros _. by exists (page_ g).
  - apply O2.
  - cbn. rewrite (file_pages_eq _ _ _ _ _ _ _ _ _ O2). pose proof (ho_range _ _ _ _ (op_ok _ _ _ _ _ _ _ _ _ O)). lia.
  - cbn. rewrite Hst. by intros q [= <-].
  - rewrite Emf. split; [done|]. split.
    + intros id' pn d Hne1 Hne2 Hd. apply K3, K2; [done|]. by apply K1.
    + destruct (allocated_heap m2 (upd m3 fr g s) w' id p (set_bp_stats sb b) h) as [-> Hal]; try apply O2.
      * rewrite heap_upd_ne, Em3 by done. unfold heap. cbn. by rewrite lookup_insert_ne.
      * rewrite (file_pages_eq _ _ _ _ _ _ _ _ _ O2). split; [done|]. intros pn. rewrite Hal.
        by rewrite (allocated_eq _ _ _ _ _ _ _ _ _ O2).
Qed.

Lemma opened_pinned m w m' w' id p b h f n a :
  opened m w id p b h f n a → sys_inv m' w' → extends w w' → heap m' !! h = Some f →
  ∃ s, opened m' w' id p (set_bp_stats s b) h f n a.
Proof.
  intros O I' X Hf. destruct O as [O1 O2 O3 O4 O5 O6 O7 O8 O9 O10 O11].
  destruct (opened_intro m' w' id p I') as (b2 & h2 & f2 & n2 & a2 & [Q1 Q2 Q3 Q4 Q5 Q6 Q7 Q8 Q9 Q10 Q11]);
    [by rewrite (ex_ids _ _ X)|].
  destruct (extends_pool_1 _ _ _ _ X O2) as [s Hs]. exists s. rewrite Q2 in Hs. injection Hs as ->. cbn in Q3, Q4.
  rewrite O3 in Q3. injection Q3 as <-. rewrite Hf in Q6. injection Q6 as <-.
  pose proof (ho_count _ _ _ _ O8) as E1. rewrite (ho_count _ _ _ _ Q8) in E1. injection E1 as ->.
  pose proof (ho_alloc _ _ _ _ O8) as E2. rewrite (ho_alloc _ _ _ _ Q8) in E2. injection E2 as ->. by split.
Qed.

Lemma header_lsn_ok m w id p b h f n a l :
  fm_wf m → sys_inv m w → opened m w id p b h f n a → in_srange 64 l →
  let m' := upd m h (frame_set_lsn l f) (fm_stats m) in
  set_frame h (frame_set_lsn l) (m, w) = Some (tt, (m', w)) ∧ fm_wf m' ∧ sys_inv m' w ∧ kept m w m' w ∧
  opened m' w id p b h (frame_set_lsn l f) n a.
Proof.
  intros Wm I O Hl m'. destruct O as [O1 O2 O3 O4 O5 O6 O7 O8 O9 O10 O11].
  pose proof (cached_frame _ _ _ _ Wm O5 O6) as Hck. assert (page_wf (page_ (frame_set_lsn l f))) as Hpw by (destruct O9; by split).
  split_and!.
  - by rewrite (set_frame_eq m w h f _ O6).
  - apply (upd_wf m (mkFrameId id 0) h f); [done|done|done|destruct Hck; by split| |].
    + change (pinned (frame_set_lsn l f)) with (pinned f). lia.
    + change (dirty_ (frame_set_lsn l f)) with (dirty_ f). lia.
  - apply (upd_inv m w (mkFrameId id 0) h f); try done; [|by right]. exact (proj2 (proj2 (si_frame _ _ I _ _ _ O5 O6))).
  - by apply (content_upd m w h f).
  - split; try done. apply heap_upd.
Qed.

(** The frame of the new page is cleared and bound to it. *)
Definition clear_new_page (p fr : Ptr) : M Sys unit :=
  id ← bp_id p; set_frame fr (set_buffer_pool_id id);; access fr;; set_frame fr clear_page;;
  n' ← page_count p; set_frame fr (set_page_num (n' - 1)).

Lemma clear_new_page_run m w p b h hf id n fr f s :
  world_ok w → id_to_buffer_pools_ w !! id = Some p → w_pools w !! p = Some b → file_header_ b = Some h →
  heap m !! h = Some hf → hdr_page_count (data (page_ hf)) = Some (n + 1) → h ≠ fr → frame_id_ f = mkFrameId id n →
  ∃ t w', clear_new_page p fr (upd m fr f s, w) = Some (tt, (upd m fr (clear_page (frame_access t f)) s, w')) ∧ calm w w'.
Proof.
  intros Hw Hid Hb Hfh Hh Hn Hne Hfid. unfold clear_new_page. rewrite (exec (bp_id_eq _ w id p Hw Hid)).
  rewrite (exec (set_frame_raw w fr m f s _)).
  replace (set_buffer_pool_id id f) with f by (destruct f; cbn in *; by rewrite Hfid).
  destruct (access_eq (upd m fr f s) w fr f (heap_upd _ _ _ _)) as (t & w1 & E1 & C1). rewrite (exec E1), upd_upd.
  exists t, w1. rewrite (exec (set_frame_raw w1 fr m _ _ _)).
  destruct (calm_pool _ _ _ _ C1 Hb) as [sb Hb1].
  assert (page_count p (upd m fr (clear_page (frame_access t f)) s, w1) =
    Some (n + 1, (upd m fr (clear_page (frame_access t f)) s, w1))) as Ep.
  { unfold page_count. rewrite (exec (header_raw w1 p _ h Hb1 Hfh _ hf ltac:(by rewrite heap_upd_ne))). by rewrite Hn. }
  rewrite (exec Ep), set_frame_raw. replace (n + 1 - 1) with n by lia.
  rewrite set_page_num_id by (cbn; by rewrite Hfid). done.
Qed.

(** The tail of an extension, once a frame has been handed out: the header
    grows, the page is cleared and flushed. *)
Lemma finish_extend_ok m w id p b h hf n a fr x m0 :
  fm_wf m → sys_inv m w → opened m w id p b h hf n a → handed_out m w (mkFrameId id n) fr x m0 → n < MAX_PAGE_NUM →
  ∃ mf w', (grow_header p h n;; clear_new_page p fr;; flush_page_internal p fr OTHER) (m0, w) = Some (RC.SUCCESS, (mf, w')) ∧
    fm_wf mf ∧ sys_inv mf w' ∧ extends w w' ∧ kept_without id n m w mf w' ∧ only_added id n m w mf w' ∧
    file_pages mf w' id = n + 1 ∧
    pins_but (mkFrameId id n) m mf ∧
    ∃ f', (mkFrameId id n, fr) ∈ frames_ mf ∧ heap mf !! fr = Some f' ∧ pin_count_ f' = 1 ∧ data (page_ f') = data zero_page.
Proof.
  intros Wm I O Ho Hmax. pose proof Ho as (rest & s0 & Hmiss & Hfr & Hx & Em & W0).
  pose proof (op_ok _ _ _ _ _ _ _ _ _ O) as Hok. pose proof (alloc_bounds _ _ _ _ Hok) as [Ha Hn].
  pose proof (idle_not_cached m fr rest Wm Hfr _ _ (op_cached _ _ _ _ _ _ _ _ _ O)) as Hne.
  set (f0 := fresh_frame (mkFrameId id n) x).
  assert (heap m0 !! fr = Some f0) as Hf0 by (rewrite Em; unfold heap; cbn; by rewrite lookup_insert_eq).
  assert (heap m0 !! h = Some hf) as Hh0.
  { rewrite Em. unfold heap. cbn. rewrite lookup_insert_ne by done. apply O. }
  assert ((mkFrameId id n, fr) ∈ frames_ m0) as Hin0 by (rewrite Em; left).
  assert ((mkFrameId id 0, h) ∈ frames_ m0) as Hinh by (rewrite Em; right; apply O).
  destruct (fm_counters m0 W0) as [_ Hc0]. pose proof (cached_frame _ _ _ _ W0 Hinh Hh0) as Hck.
  destruct (grow_header_run m0 w p b h hf id n a _ (op_pool _ _ _ _ _ _ _ _ _ O) (op_file _ _ _ _ _ _ _ _ _ O) Hh0
    (header_view_of _ _ _ _ _ _ _ _ _ O)) as (d & s1 & E1 & V1 & S1 & S2); [lia|lia|apply Hck|lia|].
  rewrite (exec E1). set (pg := set_data d (page_ hf)) in *. set (m1 := upd m0 h (rewritten hf pg) s1).
  assert (page_wf pg) as Hpw by (destruct (op_page _ _ _ _ _ _ _ _ _ O); split; [done|done|apply V1|apply V1]).
  assert (fm_wf m1) as W1.
  { apply (upd_wf m0 (mkFrameId id 0) h hf); [done|done|done|destruct Hck; by split| |].
    - rewrite S1. change (pinned (rewritten hf pg)) with (pinned hf). lia.
    - rewrite S2. change (dirty_ (rewritten hf pg)) with true. cbn. lia. }
  assert (heap m1 !! fr = Some f0) as Hf1 by (unfold m1; by rewrite heap_upd_ne by done).
  destruct (clear_new_page_run m1 w p b h (rewritten hf pg) id n fr f0 (fm_stats m1)) as (t & w2 & E2 & C2);
    [apply I|apply O|apply O|apply O|apply heap_upd|apply V1|done|done|].
  rewrite (upd_id m1 fr f0 Hf1) in E2. rewrite (exec E2). set (g0 := clear_page (frame_access t f0)).
  pose proof (cached_frame _ _ _ _ W1 Hin0 Hf1) as Hck0.
  assert (fm_wf (upd m1 fr g0 (fm_stats m1))) as W2.
  { apply (upd_wf m1 (mkFrameId id n) fr f0); [done|done|done|destruct Hck0; by split| |].
    - change (pinned g0) with (pinned f0). lia.
    - change (dirty_ g0) with (dirty_ f0). lia. }
  destruct (flush_run (upd m1 fr g0 (fm_stats m1)) w2 (mkFrameId id n) fr g0 p OTHER) as
    (s3 & w3 & E3 & W3 & X3 & Hw3 & Hl3 & Hst3 & Hoth3);
    [done|by apply C2, I|by apply C2, I|done|apply heap_upd|apply zero_page_wf|cbn; lia|cbn; rewrite (calm_reg _ _ _ C2); apply O|].
  rewrite upd_upd in E3, W3. rewrite E3. eexists _, w3. split; [reflexivity|].
  assert (extends w w3) as X by (etrans; [apply C2|done]).
  assert (∀ id' pn q, (id', pn) ≠ (id, n) → stored w id' pn = Some q → stored w3 id' pn = Some q) as Hoth.
  { intros id' pn q Hn' Hq. apply Hoth3; [exact Hn'|]. by rewrite (cm_stored _ _ C2). }
  destruct (extension_inv m w id p b h hf n a fr x m0 w3 pg (flushed g0) s1 s3 Wm I O Ho X Hw3 Hl3 Hst3 Hoth Hpw
    (flushed_wf g0 zero_page_wf) (header_grow id _ n a d Hok Hmax V1)) as (I3 & K3 & Hfp & Hal).
  - split; [exact W3|]. split; [exact I3|]. split; [exact X|]. split; [exact K3|]. split; [|split; [exact Hfp|split]].
    + intros pn. rewrite Hal, (allocated_eq _ _ _ _ _ _ _ _ _ O).
      destruct (Z.leb_spec 0 pn) as [H0|H0]; cbn [andb]; [|by rewrite decide_False by lia].
      rewrite (vw_bit _ _ _ _ _ V1) by done. unfold with_bit. destruct (decide (pn = n)) as [->|Hd].
      * by rewrite decide_True, (proj2 (Z.ltb_lt _ _)) by (done || lia).
      * rewrite decide_False by done. f_equal. destruct (Z.ltb_spec pn (n + 1)), (Z.ltb_spec pn n); lia || done.
    + rewrite Em in Hh0. intros id' Hne'. unfold pins. change (frames_ (upd m1 fr (flushed g0) s3)) with (frames_ m0). rewrite Em. cbn [frames_ alloc_state].
      rewrite peek_cons, decide_False by done. destruct (lru_peek id' (frames_ m)) as [q|] eqn:Hq; [|done]. cbn [mbind option_bind].
      apply lru_peek_elem in Hq; [|apply Wm]. pose proof (idle_not_cached m fr rest Wm Hfr id' q Hq) as Hnq. rewrite heap_upd_ne by done.
      destruct (decide (q = h)) as [->|Hqh].
      * unfold m1. rewrite heap_upd, (op_frame _ _ _ _ _ _ _ _ _ O). done.
      * unfold m1. rewrite heap_upd_ne, Em by done. unfold heap. cbn. by rewrite lookup_insert_ne.
    + exists (flushed g0). split; [exact Hin0|]. split; [apply heap_upd|]. split; reflexivity.
Qed.

(** How an extension ends. *)
Inductive extend_result m w (id : Z) (n : PageNum) : RC.RC → option Ptr → FM → World → Prop :=
  | extend_taken fp m' w' : new_page m w id n fp m' w' → file_pages m' w' id = n + 1 → extend_result m w id n RC.SUCCESS (Some fp) m' w'
  | extend_full : MAX_PAGE_NUM ≤ n → extend_result m w id n RC.BUFFERPOOL_NOBUF None m w
  | extend_no_frame m' w' :
      fm_wf m' → sys_inv m' w' → extends w w' → kept m w m' w' → (∀ pn, allocated m' w' id pn = allocated m w id pn) →
      same_pins m m' → extend_result m w id n RC.BUFFERPOOL_NOBUF None m' w'
  | extend_unlogged rc w' : rc ≠ RC.SUCCESS → calm w w' → extend_result m w id n rc None m w'.

Lemma allocate_extend_ok m w id p b h f n a :
  fm_wf m → sys_inv m w → opened m w id p b h f n a →
  ∃ rc r m' w', allocate_extend p (m, w) = Some ((rc, r), (m', w')) ∧ extend_result m w id n rc r m' w'.
Proof.
  intros Wm I O. unfold allocate_extend, log_allocate_page.
  rewrite (exec (page_count_eq _ _ _ _ _ _ _ _ _ O)).
  destruct (Z.leb_spec MAX_PAGE_NUM n) as [Hmax|Hmax]; [eexists _, _, _, _; split; [reflexivity|by apply extend_full]|].
  destruct (calm_append m w p b ALLOCATE n (op_pool _ _ _ _ _ _ _ _ _ O) (si_log _ _ I)) as (rc & l & w1 & E1 & C1 & Hl).
  rewrite (exec E1). unfold RC.OB_FAIL at 1.
  case_bool_decide as Hrc; [by eexists _, _, _, _; split; [|by apply extend_unlogged]|].
  destruct (opened_calm _ _ _ _ _ _ _ _ _ _ O C1) as [sb1 O1]. destruct (calm_inv m w w1 I C1) as [I1 K1].
  rewrite (exec (hdr_frame_eq _ _ _ _ _ _ _ _ _ O1)).
  destruct (header_lsn_ok m w1 id p _ h f n a l Wm I1 O1 Hl) as (E2 & W2 & I2 & K2 & O2).
  rewrite (exec E2). set (m2 := upd m h (frame_set_lsn l f) (fm_stats m)) in *.
  rewrite (exec (page_count_eq _ _ _ _ _ _ _ _ _ O2)).
  assert (lru_peek (mkFrameId id n) (frames_ m2) = None) as Hmiss.
  { destruct (lru_peek (mkFrameId id n) (frames_ m2)) as [q|] eqn:Hq; [|done]. apply lru_peek_elem in Hq; [|apply W2].
    pose proof (op_bound _ _ _ _ _ _ _ _ _ O2 n q Hq). lia. }
  assert (∀ pn, allocated m2 w1 id pn = allocated m w id pn) as Hal2.
  { intros pn. rewrite (allocated_eq _ _ _ _ _ _ _ _ _ O2), (allocated_eq _ _ _ _ _ _ _ _ _ O). done. }
  assert (kept m w m2 w1) as K12 by (by eapply kept_trans).
  assert (same_pins m m2) as S2 by exact (pins_upd m h f (frame_set_lsn l f) _ (op_frame _ _ _ _ _ _ _ _ _ O) eq_refl).
  destruct (allocate_frame_ok m2 w1 id p n W2 I2 (op_reg _ _ _ _ _ _ _ _ _ O2) Hmiss) as
    [(m3 & w3 & E3 & _ & _ & W3 & I3 & K3 & X3 & _ & Hp3 & S3)|(m3 & w3 & fr & x & m4 & E3 & W3 & I3 & K3 & X3 & _ & Hp3 & S3 & Ho)];
    rewrite (exec E3); (assert (extends w w3) as X by (etrans; [apply C1|done]));
    pose proof (proj2 (allocated_kept m2 w1 m3 w3 id p I2 (op_reg _ _ _ _ _ _ _ _ _ O2) X3 (pins_kept_strong _ _ Hp3))) as Hal3.
  - rewrite bool_decide_eq_true_2 by done. eexists _, _, _, _. split; [reflexivity|].
    apply extend_no_frame; [done|done|done|by eapply kept_trans| |by etrans]. intros pn. by rewrite Hal3, Hal2.
  - rewrite bool_decide_eq_false_2 by (by intros []). exec_deref.
    destruct (Hp3 _ _ _ (op_cached _ _ _ _ _ _ _ _ _ O2) (op_frame _ _ _ _ _ _ _ _ _ O2)) as [_ Hh3].
    { pose proof (op_pinned _ _ _ _ _ _ _ _ _ O2). lia. }
    destruct (opened_pinned m2 w1 m3 w3 id p _ h _ n a O2 I3 X3 Hh3) as [sb3 O3].
    destruct (finish_extend_ok m3 w3 id p _ h _ n a fr x m4 W3 I3 O3 Ho Hmax) as
      (mf & w5 & E5 & W5 & I5 & X5 & K5 & A5 & Hfp & B5 & f' & Hin & Hf' & Hpc & Hd).
    apply bind_Some in E5 as ([] & [ma wa] & Ea & E5).
    apply bind_Some in Ea as ([] & [mb wb] & Eb & Ea). rewrite (exec Eb).
    apply bind_Some in Ea as ([] & [mc wc] & Ec & Ea). rewrite (exec Ec).
    apply bind_Some in Ea as ([] & [md wd] & Ed & Ea). rewrite (exec Ed), (exec Ea).
    apply bind_Some in E5 as ([] & [me we] & Ee & E5).
    apply bind_Some in Ee as (id' & [m6 w6] & E6 & Ee). rewrite (exec E6).
    apply bind_Some in Ee as ([] & [m7 w7] & E7 & Ee). rewrite (exec E7).
    apply bind_Some in Ee as ([] & [m8 w8] & E8 & Ee). rewrite (exec E8).
    apply bind_Some in Ee as ([] & [m9 w9] & E9 & Ee). rewrite (exec E9).
    apply bind_Some in Ee as (n' & [m10 w10] & E10 & Ee). rewrite (exec E10), (exec Ee).
    rewrite (exec E5).
    assert (id_to_buffer_pools_ w5 !! id = Some p) as Hid5.
    { rewrite (ex_ids _ _ X5), (ex_ids _ _ X). apply O. }
    rewrite (exec (frame_of_eq mf w5 fr f' Hf')).
    destruct (opened_intro mf w5 id p I5 Hid5) as (b5 & h5 & f5 & n5 & a5 & O5).
    match goal with |- context [(pool_stat p ?g ≫= _) (mf, w5)] =>
      destruct (calm_stat p _ g mf w5 (op_pool _ _ _ _ _ _ _ _ _ O5)) as (w11 & E11 & C11) end.
    rewrite (exec E11), (exec (global_stat_eq _ _ _)).
    destruct (calm_pool _ _ _ _ C11 (op_pool _ _ _ _ _ _ _ _ _ O5)) as [sb11 Hb11].
    set (mg := set_fm_stats _ mf). destruct (calm_stat p _ record_page_allocation mg w11 Hb11) as (w12 & E12 & C12).
    rewrite (exec E12). eexists _, _, _, _. split; [reflexivity|].
    assert (calm w5 w12) as C by (by etrans).
    destruct (calm_inv mg w5 w12 (set_stats_inv mf w5 _ I5) C) as [I12 K12'].
    destruct (allocated_kept mf w5 mg w12 id p I5 Hid5 (cm_ext _ _ C) (pins_kept_same mf mg eq_refl eq_refl)) as [Hfp' Hal'].
    apply extend_taken; [|by rewrite Hfp', Hfp].
    split; [|done|etrans; [exact X|etrans; [exact X5|apply C]]| | | | | |].
    + destruct (record_page_allocation_quiet (fm_stats mf)). by apply set_stats_wf.
    + rewrite (allocated_eq _ _ _ _ _ _ _ _ _ O), (proj2 (Z.ltb_ge n n)) by lia. by rewrite andb_false_r.
    + intros pn. by rewrite Hal', A5, Hal3, Hal2.
    + exists f'. split_and!; [done|done|lia|done].
    + intros id1 pn d Hn1 Hn2 Hd1. apply K12', K5; [done|done|]. by apply K3, K12.
    + change (pins mg (mkFrameId id n)) with (pins mf (mkFrameId id n)).
      rewrite (pins_peek mf _ fr f' (proj2 (lru_peek_elem _ _ _ (fw_keys _ W5)) Hin) Hf'), Hpc, <-S2. unfold pins. by rewrite Hmiss.
    + intros k Hne. change (pins mg k) with (pins mf k). by rewrite B5, S3, S2.
Qed.

(** ** [allocate_page] *)
Lemma allocate_page_ok m w id p b h f n a :
  fm_wf m → sys_inv m w → pins_bounded m → opened m w id p b h f n a →
  ∃ rc r m' w', allocate_page p (m, w) = Some ((rc, r), (m', w')) ∧
    ((∃ i, 0 < i < n ∧ allocated m w id i = false ∧ (∀ j, 0 ≤ j < i → allocated m w id j = true) ∧ hole_result m w id i rc r m' w') ∨
     ((∀ j, 0 ≤ j < n → allocated m w id j = true) ∧ extend_result m w id n rc r m' w')).
Proof.
  intros Wm I Hpb O. pose proof (op_ok _ _ _ _ _ _ _ _ _ O) as Hok. pose proof (ho_range _ _ _ _ Hok) as Hr.
  set (β := Bitmap.bit (hdr_bitmap (data (page_ f)))).
  assert (∀ j, 0 ≤ j < n → allocated m w id j = β j) as Hal.
  { intros j Hj. rewrite (allocated_eq _ _ _ _ _ _ _ _ _ O), (proj2 (Z.leb_le _ _)), (proj2 (Z.ltb_lt _ _)) by lia. done. }
  unfold allocate_page. rewrite (exec (allocated_pages_eq _ _ _ _ _ _ _ _ _ O)).
  rewrite (exec (page_count_eq _ _ _ _ _ _ _ _ _ O)).
  destruct (Z.ltb_spec a n) as [Hlt|Hge].
  - destruct (free_scan_ok m w id p b h f n a (Z.to_nat n) 0 O) as [[_ Hall]|(i & E & Hi & Hbit & Hfirst)]; [lia|lia| |].
    + exfalso. assert (n ≤ a); [|lia]. apply (header_full id _ n a Hok). intros j Hj. apply Hall. lia.
    + rewrite (exec E).
      assert (i ≠ 0). { intros ->. by rewrite (ho_first _ _ _ _ Hok) in Hbit. }
      destruct (allocate_hole_ok m w id p b h f n a i Wm I Hpb O ltac:(lia) Hbit) as (rc & r & m' & w' & E' & Hres).
      exists rc, r, m', w'. split; [done|]. left. exists i. split_and!; [lia|lia| | |done].
      * rewrite Hal by lia. done.
      * intros j Hj. rewrite Hal by lia. apply Hfirst. lia.
  - erewrite (bind_run (mret None)) by done.
    destruct (allocate_extend_ok m w id p b h f n a Wm I O) as (rc & r & m' & w' & E' & Hres).
    exists rc, r, m', w'. split; [done|]. right. split; [|done]. intros j Hj. rewrite Hal by done.
    by apply (header_full id _ n a Hok).
Qed.
End page_alloc.
