(* ===== verification/PageDispose.v ===== *)
(** * Disposing pages, and redoing header changes from the log

    [dispose_page] makes a hole unless somebody else holds the page;
    [redo_allocate_page] and [redo_deallocate_page] repeat the header changes of
    logged operations: each is skipped when the header already carries its LSN,
    refuses records that do not fit the header, and keeps the header consistent. *)

From S2P Require Import Prelude Types Bytes Crc Os PageIO Bitmap LruCache MemPool Stats Latch Frame Replacement FrameManager FrameSafety BufferPool DoubleWrite DiskBufferPool StorageSafety PoolSafety PageAccess FileHeader PageAlloc.
Local Open Scope Z_scope.

Section page_dispose.
Context {P L : Type} `{!ReplacementPolicy P} `{!PolicyLaws P} `{!LogHandler L} `{!LogLaws L} `{HOrd : HashOrder}.
Notation World := (World L).
Notation Sys := (Sys L P).
Notation FM := (BPFrameManager (P:=P)).
Implicit Types (w : World) (pn : PageNum) (m : FM) (fp : Ptr).

(** ** The header stores *)
Section stores.
Context m w id p b h f n a (Wm : fm_wf m) (O : opened m w id p b h f n a).
Notation β := (Bitmap.bit (hdr_bitmap (data (page_ f)))).

(** A page of [f]'s frame with these stores applied; the statistics count the
    header as dirty. *)
Definition stored_header (prog : M Sys unit) (n' a' : Z) (β' : Z → bool) (l : LSN) : Prop :=
  ∃ pg s, prog (m, w) = Some (tt, (upd m h (rewritten f pg) s, w)) ∧ view (data pg) id n' a' β' ∧ lsn pg = l ∧
    check_sum pg = check_sum (page_ f) ∧
    s current_pinned_frames = fm_stats m current_pinned_frames ∧
    s dirty_pages_current = fm_stats m dirty_pages_current + 1 - Z.b2z (dirty_ f).

Lemma run_from prog n' a' β' l :
  (∃ pg s, prog (upd m h f (fm_stats m), w) = Some (tt, (upd m h (rewritten f pg) s, w)) ∧ view (data pg) id n' a' β' ∧ lsn pg = l ∧
    check_sum pg = check_sum (page_ f) ∧
    s current_pinned_frames = fm_stats m current_pinned_frames ∧
    s dirty_pages_current = fm_stats m dirty_pages_current + 1 - Z.b2z (dirty_ f)) → stored_header prog n' a' β' l.
Proof. rewrite upd_id by apply O. done. Qed.

Ltac bounds :=
  pose proof (op_pool _ _ _ _ _ _ _ _ _ O) as Hb; pose proof (op_file _ _ _ _ _ _ _ _ _ O) as Hfh;
  pose proof (header_view_of _ _ _ _ _ _ _ _ _ O) as V; pose proof (hdr_stats _ _ _ _ _ _ _ _ _ Wm O) as Hst;
  pose proof (alloc_bounds _ _ _ _ (op_ok _ _ _ _ _ _ _ _ _ O)) as [Ha Hn];
  pose proof (ho_range _ _ _ _ (op_ok _ _ _ _ _ _ _ _ _ O)) as Hr;
  destruct (fm_counters m Wm) as [_ Hc].

Lemma release_stores i l :
  0 ≤ i < n → 0 < a →
  stored_header (set_frame h (frame_set_lsn l);; fm_do (on_frame h mark_dirty);; add_allocated_pages p (-1);; header_clear_bit p i)
    n (a - 1) (with_bit β i false) l.
Proof.
  bounds. intros Hi Hpos. apply run_from. rewrite (exec (set_frame_raw w h m f (fm_stats m) _)).
  destruct (mark_dirty_raw w h m (frame_set_lsn l f) (fm_stats m)) as (s & E & S1 & S2); [done|lia|].
  rewrite (exec E).
  destruct (add_alloc_raw w p b h Hb Hfh m (set_dirty true (frame_set_lsn l f)) s id n a β (-1) V) as (d1 & E1 & V1);
    [unfold in_srange; lia|]. rewrite (exec E1).
  destruct (clear_bit_raw w p b h Hb Hfh m (with_data d1 (set_dirty true (frame_set_lsn l f))) s id n _ β i V1) as (d2 & E2 & V2);
    [lia|]. exists (set_data d2 (set_lsn l (page_ f))), s. rewrite E2. done.
Qed.

Lemma redo_release_stores i l :
  0 ≤ i < n → 0 < a →
  stored_header (header_clear_bitmap_bit p i;; add_allocated_pages p (-1);; set_frame h (frame_set_lsn l);; fm_do (on_frame h mark_dirty))
    n (a - 1) (with_bit β i false) l.
Proof.
  bounds. intros Hi Hpos. apply run_from.
  destruct (clear_bitmap_raw w p b h Hb Hfh m f (fm_stats m) id n a β i V) as (d1 & E1 & V1); [lia|]. rewrite (exec E1).
  destruct (add_alloc_raw w p b h Hb Hfh m (with_data d1 f) (fm_stats m) id n a _ (-1) V1) as (d2 & E2 & V2);
    [unfold in_srange; lia|]. rewrite (exec E2), (exec (set_frame_raw w h m _ _ _)).
  destruct (mark_dirty_raw w h m (frame_set_lsn l (with_data d2 (with_data d1 f))) (fm_stats m)) as (s & E & S1 & S2); [done|lia|].
  exists (set_lsn l (set_data d2 (page_ f))), s. rewrite E. done.
Qed.

(** The LSN of the header stays: this path of [redo_allocate_page] does not
    store it. *)
Lemma redo_take_stores i :
  0 ≤ i < n →
  stored_header (header_set_bit p i;; add_allocated_pages p 1;; fm_do (on_frame h mark_dirty))
    n (a + 1) (with_bit β i true) (lsn (page_ f)).
Proof.
  bounds. intros Hi. apply run_from.
  destruct (set_bit_raw w p b h Hb Hfh m f (fm_stats m) id n a β i V) as (d1 & E1 & V1); [lia|]. rewrite (exec E1).
  destruct (add_alloc_raw w p b h Hb Hfh m (with_data d1 f) (fm_stats m) id n a _ 1 V1) as (d2 & E2 & V2);
    [unfold in_srange; lia|]. rewrite (exec E2).
  destruct (mark_dirty_raw w h m (with_data d2 (with_data d1 f)) (fm_stats m)) as (s & E & S1 & S2); [done|lia|].
  exists (set_data d2 (page_ f)), s. rewrite E. done.
Qed.

Lemma redo_grow_stores l :
  n < MAX_PAGE_NUM →
  stored_header (add_allocated_pages p 1;; add_page_count p 1;; set_frame h (frame_set_lsn l);;
                 fm_do (on_frame h mark_dirty);; header_set_bit p n)
    (n + 1) (a + 1) (with_bit β n true) l.
Proof.
  bounds. intros Hmax. apply run_from.
  destruct (add_alloc_raw w p b h Hb Hfh m f (fm_stats m) id n a _ 1 V) as (d1 & E1 & V1); [unfold in_srange; lia|].
  rewrite (exec E1).
  destruct (add_count_raw w p b h Hb Hfh m (with_data d1 f) (fm_stats m) id n _ _ 1 V1) as (d2 & E2 & V2); [unfold in_srange; lia|].
  rewrite (exec E2), (exec (set_frame_raw w h m _ _ _)).
  destruct (mark_dirty_raw w h m (frame_set_lsn l (with_data d2 (with_data d1 f))) (fm_stats m)) as (s & E & S1 & S2); [done|lia|].
  rewrite (exec E).
  destruct (set_bit_raw w p b h Hb Hfh m (set_dirty true (frame_set_lsn l (with_data d2 (with_data d1 f)))) s id _ _ _ n V2) as (d3 & E3 & V3);
    [lia|]. exists (set_data d3 (set_lsn l (page_ f))), s. rewrite E3. done.
Qed.
End stores.

Lemma free_positive id d n a i : header_ok id d n a → 0 ≤ i < n → Bitmap.bit (hdr_bitmap d) i = true → 0 < a.
Proof.
  intros Hok Hi Hb. rewrite (ho_pop _ _ _ _ Hok). pose proof (Bitmap.popcount_bound (hdr_bitmap d) n ltac:(lia)).
  assert (Bitmap.popcount (hdr_bitmap d) n ≠ 0); [|lia]. intros E.
  rewrite (proj1 (Bitmap.popcount_zero _ n ltac:(lia)) E i) in Hb by lia. done.
Qed.

(** ** Redo *)
(** The header of the file is consistent, has this LSN and these pages in use. *)
Definition header_is m w (id : Z) (l : LSN) (n : Z) (used : PageNum → bool) : Prop :=
  ∃ p b h f a, id_to_buffer_pools_ w !! id = Some p ∧ w_pools w !! p = Some b ∧ hdr_frame_ b = Some h ∧
    file_header_ b = Some h ∧ heap m !! h = Some f ∧ header_ok id (data (page_ f)) n a ∧ lsn (page_ f) = l ∧
    ∀ j, allocated m w id j = used j.

Lemma header_is_opened m w id p b h f n a :
  opened m w id p b h f n a → header_is m w id (lsn (page_ f)) n (allocated m w id).
Proof. intros []. exists p, b, h, f, a. done. Qed.

Definition plus_page (used : PageNum → bool) (pn : PageNum) : PageNum → bool := λ j, if decide (j = pn) then true else used j.
Definition minus_page (used : PageNum → bool) (pn : PageNum) : PageNum → bool := λ j, if decide (j = pn) then false else used j.

Lemma stored_header_is m w id p b h f n a prog n' a' β' l used :
  fm_wf m → opened m w id p b h f n a → stored_header m w id h f prog n' a' β' l →
  (∀ d, view d id n' a' β' → header_ok id d n' a') →
  (∀ j, (0 <=? j) && (j <? n') && β' j = used j) →
  ∃ pg s, prog (m, w) = Some (tt, (upd m h (rewritten f pg) s, w)) ∧ lsn pg = l ∧
    header_is (upd m h (rewritten f pg) s) w id l n' used ∧
    (sys_inv m w → n' = n → in_srange 64 l → opened (upd m h (rewritten f pg) s) w id p b h (rewritten f pg) n' a').
Proof.
  intros Wm O (pg & s & E & V & Hl & Hsum & S1 & S2) Hok Hu. exists pg, s. split_and!; [done|done| |].
  2:{ intros I -> Hlr. apply (header_write_inv m w id p b h f n a pg n a' s); try done; [|by apply Hok|apply O].
      destruct (op_page _ _ _ _ _ _ _ _ _ O). split; [by rewrite Hl|by rewrite Hsum|apply V|apply V]. }
  exists p, b, h, (rewritten f pg), a'. destruct O as [O1 O2 O3 O4 O5 O6 O7 O8 O9 O10 O11].
  split_and!; [done|done|done|done|apply heap_upd|by apply Hok|done|]. intros j. rewrite <-Hu.
  assert (header_data (upd m h (rewritten f pg) s) w id = Some (data pg)) as Ed.
  { unfold header_data. rewrite O1. cbn [mbind option_bind]. rewrite O2. cbn [mbind option_bind]. rewrite O4.
    cbn [mbind option_bind]. by rewrite heap_upd. }
  unfold allocated, file_pages. rewrite Ed. cbn [mbind option_bind]. rewrite (vw_count _ _ _ _ _ V). cbn [default from_option].
  destruct (Z.leb_spec 0 j); cbn [andb]; [|done]. by rewrite (vw_bit _ _ _ _ _ V).
Qed.

Section redo.
Context m w id p b h f n a (Wm : fm_wf m) (O : opened m w id p b h f n a).

(** Skipped: already there, by LSN or by bit. *)
Lemma redo_allocate_skip l pn :
  l ≤ lsn (page_ f) ∨ allocated m w id pn = true → redo_allocate_page p l pn (m, w) = Some (RC.SUCCESS, (m, w)).
Proof.
  intros Hs. unfold redo_allocate_page. rewrite (exec (hdr_frame_eq _ _ _ _ _ _ _ _ _ O)).
  rewrite (exec (frame_of_eq m w h f (op_frame _ _ _ _ _ _ _ _ _ O))).
  destruct (Z.leb_spec l (lsn (page_ f))) as [Hl|Hl]; [done|]. destruct Hs as [?|Ha]; [lia|].
  rewrite (exec (page_count_eq _ _ _ _ _ _ _ _ _ O)).
  rewrite (allocated_eq _ _ _ _ _ _ _ _ _ O) in Ha. apply andb_prop in Ha as [[H1 H2]%andb_prop Hb].
  rewrite H2. pose proof (ho_range _ _ _ _ (op_ok _ _ _ _ _ _ _ _ _ O)).
  rewrite (exec (header_bit_eq _ _ _ _ _ _ _ _ _ O pn ltac:(lia))). by rewrite Hb.
Qed.

(** Refused: the file is shorter than the record says, or full. *)
Lemma redo_allocate_refuse l pn :
  lsn (page_ f) < l → n < pn ∨ (pn = n ∧ MAX_PAGE_NUM ≤ n) →
  redo_allocate_page p l pn (m, w) = Some (RC.INTERNAL, (m, w)).
Proof.
  intros Hl Hs. unfold redo_allocate_page. rewrite (exec (hdr_frame_eq _ _ _ _ _ _ _ _ _ O)).
  rewrite (exec (frame_of_eq m w h f (op_frame _ _ _ _ _ _ _ _ _ O))).
  rewrite (proj2 (Z.leb_gt _ _)) by done.
  rewrite (exec (page_count_eq _ _ _ _ _ _ _ _ _ O)), (proj2 (Z.ltb_ge _ _)) by lia.
  destruct Hs as [Hs|[-> Hs]]; [by rewrite (proj2 (Z.ltb_lt _ _)) by lia|].
  by rewrite Z.ltb_irrefl, (proj2 (Z.leb_le _ _)).
Qed.

(** Done: a hole is taken or the file grows. *)
Lemma redo_allocate_done l pn :
  lsn (page_ f) < l → 0 ≤ pn → pn ≤ n → pn < MAX_PAGE_NUM → allocated m w id pn = false →
  ∃ pg s, let m' := upd m h (rewritten f pg) s in
    redo_allocate_page p l pn (m, w) = Some (RC.SUCCESS, (m', w)) ∧
    header_is m' w id (if pn <? n then lsn (page_ f) else l) (Z.max n (pn + 1)) (plus_page (allocated m w id) pn) ∧
    (sys_inv m w → pn < n → opened m' w id p b h (rewritten f pg) n (a + 1)).
Proof.
  intros Hl H0 Hn Hmax Ha. pose proof (op_ok _ _ _ _ _ _ _ _ _ O) as Hok. pose proof (ho_range _ _ _ _ Hok) as Hr.
  unfold redo_allocate_page. rewrite (exec (hdr_frame_eq _ _ _ _ _ _ _ _ _ O)).
  rewrite (exec (frame_of_eq m w h f (op_frame _ _ _ _ _ _ _ _ _ O))), (proj2 (Z.leb_gt _ _)) by done.
  rewrite (exec (page_count_eq _ _ _ _ _ _ _ _ _ O)).
  rewrite (allocated_eq _ _ _ _ _ _ _ _ _ O), (proj2 (Z.leb_le _ _)) in Ha by lia. cbn [andb] in Ha.
  destruct (Z.ltb_spec pn n) as [Hlt|Hge]; cbn [andb] in Ha.
  - rewrite (exec (header_bit_eq _ _ _ _ _ _ _ _ _ O pn ltac:(lia))), Ha.
    destruct (stored_header_is m w id p b h f n a _ n (a + 1) _ _ (plus_page (allocated m w id) pn) Wm O
      (redo_take_stores m w id p b h f n a Wm O pn ltac:(lia))) as (pg & s & E & _ & Hh & Hop).
    + intros d V. exact (header_take id _ n a d pn Hok ltac:(lia) Ha V).
    + intros j. unfold plus_page, with_bit. rewrite (allocated_eq _ _ _ _ _ _ _ _ _ O). repeat case_decide; try done. subst.
      by rewrite (proj2 (Z.leb_le _ _)), (proj2 (Z.ltb_lt _ _)) by lia.
    + exists pg, s. rewrite Z.max_l by lia. split; [|split; [done|]].
      2:{ intros I _. apply Hop; [done|done|]. apply (op_page _ _ _ _ _ _ _ _ _ O). }
      apply bind_Some in E as ([] & [m1 w1] & E1 & E). rewrite (exec E1).
      apply bind_Some in E as ([] & [m2 w2] & E2 & E). by rewrite (exec E2), (exec E).
  - assert (pn = n) as -> by lia. rewrite Z.ltb_irrefl, (proj2 (Z.leb_gt _ _)) by lia.
    destruct (stored_header_is m w id p b h f n a _ (n + 1) (a + 1) _ _ (plus_page (allocated m w id) n) Wm O
      (redo_grow_stores m w id p b h f n a Wm O l ltac:(lia))) as (pg & s & E & _ & Hh & Hop).
    + intros d V. exact (header_grow id _ n a d Hok ltac:(lia) V).
    + intros j. unfold plus_page, with_bit. rewrite (allocated_eq _ _ _ _ _ _ _ _ _ O). repeat case_decide; try done.
      * subst. by rewrite (proj2 (Z.leb_le _ _)), (proj2 (Z.ltb_lt _ _)) by lia.
      * f_equal. f_equal. destruct (Z.ltb_spec j (n + 1)), (Z.ltb_spec j n); lia || done.
    + exists pg, s. rewrite Z.max_r by lia. split; [|split; [done|lia]].
      apply bind_Some in E as ([] & [m1 w1] & E1 & E). rewrite (exec E1).
      apply bind_Some in E as ([] & [m2 w2] & E2 & E). rewrite (exec E2).
      apply bind_Some in E as ([] & [m3 w3] & E3 & E). rewrite (exec E3).
      apply bind_Some in E as ([] & [m4 w4] & E4 & E). by rewrite (exec E4), (exec E).
Qed.

Lemma redo_deallocate_cases l pn :
  0 < pn →
  (l ≤ lsn (page_ f) ∧ redo_deallocate_page p l pn (m, w) = Some (RC.SUCCESS, (m, w))) ∨
  (lsn (page_ f) < l ∧ allocated m w id pn = false ∧ redo_deallocate_page p l pn (m, w) = Some (RC.INTERNAL, (m, w))) ∨
  (lsn (page_ f) < l ∧ allocated m w id pn = true ∧ ∃ pg s, let m' := upd m h (rewritten f pg) s in
     redo_deallocate_page p l pn (m, w) = Some (RC.SUCCESS, (m', w)) ∧
     header_is m' w id l n (minus_page (allocated m w id) pn)).
Proof.
  intros H0. pose proof (op_ok _ _ _ _ _ _ _ _ _ O) as Hok. pose proof (ho_range _ _ _ _ Hok) as Hr.
  unfold redo_deallocate_page. rewrite (exec (hdr_frame_eq _ _ _ _ _ _ _ _ _ O)).
  rewrite (exec (frame_of_eq m w h f (op_frame _ _ _ _ _ _ _ _ _ O))).
  destruct (Z.leb_spec l (lsn (page_ f))) as [Hl|Hl]; [by left|right].
  rewrite (exec (page_count_eq _ _ _ _ _ _ _ _ _ O)), (proj2 (Z.ltb_ge _ _)) by lia. cbn [orb].
  rewrite (allocated_eq _ _ _ _ _ _ _ _ _ O), (proj2 (Z.leb_le _ _)) by lia. cbn [andb].
  destruct (Z.leb_spec n pn) as [Hge|Hlt]; [left; by rewrite (proj2 (Z.ltb_ge _ _)) by lia|].
  rewrite (proj2 (Z.ltb_lt _ _)) by lia. cbn [andb].
  rewrite (exec (header_bit_eq _ _ _ _ _ _ _ _ _ O pn ltac:(lia))).
  destruct (Bitmap.bit (hdr_bitmap (data (page_ f))) pn) eqn:Hb; cbn [negb]; [right|by left]. split_and!; [done|done|].
  destruct (stored_header_is m w id p b h f n a _ n (a - 1) _ _ (minus_page (allocated m w id) pn) Wm O
    (redo_release_stores m w id p b h f n a Wm O pn l ltac:(lia) (free_positive _ _ _ _ pn Hok ltac:(lia) Hb))) as (pg & s & E & _ & Hh & Hop).
  - intros d V. exact (header_release id _ n a d pn Hok ltac:(lia) Hb V).
  - intros j. unfold minus_page, with_bit. rewrite (allocated_eq _ _ _ _ _ _ _ _ _ O). repeat case_decide; try done.
    by rewrite andb_false_r.
  - exists pg, s. split; [|done].
    apply bind_Some in E as ([] & [m1 w1] & E1 & E). rewrite (exec E1).
    apply bind_Some in E as ([] & [m2 w2] & E2 & E). rewrite (exec E2).
    apply bind_Some in E as ([] & [m3 w3] & E3 & E). by rewrite (exec E3), (exec E).
Qed.
End redo.

(** A header that carries the LSN of a record skips it. *)
Lemma header_is_skip m w id p l n used l' pn :
  id_to_buffer_pools_ w !! id = Some p → header_is m w id l n used → l' ≤ l →
  redo_allocate_page p l' pn (m, w) = Some (RC.SUCCESS, (m, w)) ∧
  redo_deallocate_page p l' pn (m, w) = Some (RC.SUCCESS, (m, w)).
Proof.
  intros Hid (p' & b & h & f & a & Hid' & Hb & Hh & _ & Hf & _ & Hl & _) Hle. rewrite Hid in Hid'. injection Hid' as <-.
  assert (hdr_frame p (m, w) = Some (h, (m, w))) as Ehd.
  { unfold hdr_frame. by rewrite (exec (pool_at_eq _ _ _ _ Hb)), Hh. }
  unfold redo_allocate_page, redo_deallocate_page. rewrite !(exec Ehd), !(exec (frame_of_eq m w h f Hf)).
  by rewrite (proj2 (Z.leb_le _ _)) by lia.
Qed.

(** ** [dispose_page] *)
Inductive dispose_result m w (id : Z) (pn : PageNum) : RC.RC → FM → World → Prop :=
  | dispose_header : pn = 0 → dispose_result m w id pn RC.INTERNAL m w
  | dispose_unused : pn ≠ 0 → allocated m w id pn = false → dispose_result m w id pn RC.BUFFERPOOL_INVALID_PAGE_NUM m w
  | dispose_held m' w' :
      pn ≠ 0 → allocated m w id pn = true → 0 < pins m (mkFrameId id pn) → fm_wf m' → sys_inv m' w' → extends w w' → kept m w m' w' →
      (∀ j, allocated m' w' id j = allocated m w id j) → same_pins m m' →
      dispose_result m w id pn RC.LOCKED_UNLOCK m' w'
  | dispose_unlogged rc m' w' :
      pn ≠ 0 → allocated m w id pn = true → rc ≠ RC.SUCCESS → fm_wf m' → sys_inv m' w' → extends w w' → kept m w m' w' →
      (∀ j, allocated m' w' id j = allocated m w id j) → same_pins m m' →
      dispose_result m w id pn rc m' w'
  | dispose_done m' w' :
      pn ≠ 0 → allocated m w id pn = true → pins m (mkFrameId id pn) = 0 → fm_wf m' → sys_inv m' w' → extends w w' →
      lru_peek (mkFrameId id pn) (frames_ m') = None → (∀ j, allocated m' w' id j = minus_page (allocated m w id) pn j) →
      kept_without id pn m w m' w' → same_pins m m' → dispose_result m w id pn RC.SUCCESS m' w'.

(** The part after the log record, once the page is out of the cache. *)
Lemma release_page_ok m w id p b h f n a pn l :
  fm_wf m → sys_inv m w → opened m w id p b h f n a → pn ≠ 0 → allocated m w id pn = true → in_srange 64 l →
  ∃ m' w', (hdr ← hdr_frame p; set_frame hdr (frame_set_lsn l);; fm_do (on_frame hdr mark_dirty);;
            add_allocated_pages p (-1);; header_clear_bit p pn;; global_stat record_page_disposal;;
            pool_stat p record_page_disposal;; mret RC.SUCCESS) (m, w) = Some (RC.SUCCESS, (m', w')) ∧
    fm_wf m' ∧ sys_inv m' w' ∧ extends w w' ∧ frames_ m' = frames_ m ∧
    (∀ j, allocated m' w' id j = minus_page (allocated m w id) pn j) ∧ kept_but id m w m' w' ∧ same_pins m m'.
Proof.
  intros Wm I O Hpn Ha Hl. pose proof (op_ok _ _ _ _ _ _ _ _ _ O) as Hok. pose proof Ha as Ha0.
  rewrite (allocated_eq _ _ _ _ _ _ _ _ _ O) in Ha0. apply andb_prop in Ha0 as [[H1 H2]%andb_prop Hb].
  destruct (release_stores m w id p b h f n a Wm O pn l ltac:(lia) (free_positive _ _ _ _ pn Hok ltac:(lia) Hb))
    as (pg & s & E & V & Hlsn & Hsum & S1 & S2).
  rewrite (exec (hdr_frame_eq _ _ _ _ _ _ _ _ _ O)).
  apply bind_Some in E as ([] & [m1 w1] & E1 & E). rewrite (exec E1).
  apply bind_Some in E as ([] & [m2 w2] & E2 & E). rewrite (exec E2).
  apply bind_Some in E as ([] & [m3 w3] & E3 & E). rewrite (exec E3), (exec E).
  assert (page_wf pg) as Hpw.
  { destruct (op_page _ _ _ _ _ _ _ _ _ O). split; [by rewrite Hlsn|by rewrite Hsum|apply V|apply V]. }
  destruct (header_write_inv m w id p b h f n a pg n (a - 1) s) as (W4 & I4 & K4 & O4); try done;
    [exact (header_release id _ n a _ pn Hok ltac:(lia) Hb V)|apply O|].
  rewrite (exec (global_stat_eq _ _ _)). set (m5 := set_fm_stats _ _).
  destruct (calm_stat p b record_page_disposal m5 w (op_pool _ _ _ _ _ _ _ _ _ O)) as (w6 & E6 & C6).
  rewrite (exec E6). exists m5, w6. destruct (calm_inv m5 w w6 (set_stats_inv _ _ _ I4) C6) as [I6 K6].
  destruct (opened_calm _ _ _ _ _ _ _ _ _ _ O4 C6) as [sb6 O6].
  assert (opened m5 w6 id p (set_bp_stats sb6 b) h (rewritten f pg) n (a - 1)) as O7 by (destruct O6; by split).
  split_and!; [done| |done|apply C6|done| | |].
  - apply set_stats_wf; [done|by stat_eval|by stat_eval].
  - intros j. rewrite (allocated_eq _ _ _ _ _ _ _ _ _ O7). unfold minus_page. rewrite (allocated_eq _ _ _ _ _ _ _ _ _ O).
    destruct (Z.leb_spec 0 j) as [Hj|Hj]; cbn [andb]; [|by case_decide].
    change (page_ (rewritten f pg)) with pg. rewrite (vw_bit _ _ _ _ _ V) by done. unfold with_bit. repeat case_decide; try done.
    by rewrite andb_false_r.
  - intros id' pn' d Hne Hd. apply K6, K4; done.
  - exact (pins_upd m h f (rewritten f pg) s (op_frame _ _ _ _ _ _ _ _ _ O) eq_refl).
Qed.

Lemma unpin_page_ok m w id fp f p b :
  fm_wf m → sys_inv m w → (id, fp) ∈ frames_ m → heap m !! fp = Some f → 0 < pin_count_ f →
  (pin_count_ f = 1 → unlatched f ∧ hdr_free w fp) → w_pools w !! p = Some b →
  ∃ m' w', unpin_page p fp (m, w) = Some (RC.SUCCESS, (m', w')) ∧ calm w w' ∧
    touched m w' fp (set_pin_count (pin_count_ f - 1) f) m'.
Proof.
  intros Wm I Hin Hf Hp Hone Hb. destruct (frame_unpin_ok m id fp f Wm Hin Hf Hp (λ E, proj1 (Hone E))) as (s & E & W').
  unfold unpin_page. rewrite (exec (fm_do_eq _ _ w _ _ E)).
  match goal with |- context [(pool_stat p ?g ≫= _) (?mm, w)] => destruct (calm_stat p b g mm w Hb) as (w1 & E1 & C1) end.
  rewrite (exec E1). eexists _, w1. split; [done|]. split; [done|].
  apply (touched_calm _ w); [|done]. destruct (si_frame _ _ I _ _ _ Hin Hf) as (_ & _ & Hcl).
  split; [done| | |done|apply heap_upd|intros; by apply heap_upd_ne].
  - apply (upd_inv m w id fp f); try done; [exact (si_heap _ _ I _ _ Hf)|].
    destruct (decide (pin_count_ f = 1)) as [E2|E2]; [left; by apply Hone|right]. cbn. split; [lia|done].
  - by apply (content_upd m w fp f).
Qed.

Lemma touched_alloc m w fp f f' m' w0 id p :
  sys_inv m w0 → id_to_buffer_pools_ w0 !! id = Some p → heap m !! fp = Some f → touched m w fp f' m' → calm w0 w → page_ f' = page_ f →
  ∀ j, allocated m' w id j = allocated m w0 id j.
Proof.
  intros I Hid Hf T C Hpg. destruct (opened_intro m w0 id p I Hid) as (b & h & hf & n & a & O).
  assert (header_data m' w id = header_data m w0 id) as E.
  { rewrite (header_data_eq _ _ _ _ _ _ _ _ _ O). destruct O as [O1 O2 O3 O4 O5 O6 O7 O8 O9 O10 O11]. unfold header_data.
    rewrite (calm_reg _ _ _ C), O1. cbn [mbind option_bind]. destruct (calm_pool _ _ _ _ C O2) as [s ->]. cbn [mbind option_bind].
    cbn [file_header_ set_bp_stats]. rewrite O4. cbn [mbind option_bind]. destruct (decide (h = fp)) as [->|Hne].
    - rewrite (to_here _ _ _ _ _ T). cbn [mbind option_bind]. rewrite Hpg. by simplify_eq.
    - by rewrite (to_other _ _ _ _ _ T), O6. }
  intros j. unfold allocated, file_pages. by rewrite E.
Qed.

Lemma pins_touched m w id fp f' m' : lru_peek id (frames_ m) = Some fp → touched m w fp f' m' → pins m' id = pin_count_ f'.
Proof. intros Hpk T. unfold pins. rewrite (to_frames _ _ _ _ _ T), Hpk. cbn. by rewrite (to_here _ _ _ _ _ T). Qed.

(** Pinned and released again. *)
Lemma repin_same m w m1 w1 id fp f m2 :
  fm_wf m → lru_peek id (frames_ m) = Some fp → heap m !! fp = Some f → touched m w fp (set_pin_count (pin_count_ f + 1) f) m1 →
  touched m1 w1 fp (set_pin_count (pin_count_ f + 1 - 1) (set_pin_count (pin_count_ f + 1) f)) m2 → same_pins m m2.
Proof.
  intros Wm Hpk Hf T1 T2 id'. apply lru_peek_elem in Hpk as Hin; [|apply Wm]. destruct (decide (id' = id)) as [->|Hne].
  - rewrite (pins_touched m1 w1 id fp _ m2 ltac:(by rewrite (to_frames _ _ _ _ _ T1)) T2), (pins_peek m id fp f Hpk Hf). cbn. lia.
  - rewrite (touched_pins m1 w1 id fp _ m2 (to_wf _ _ _ _ _ T1) ltac:(by rewrite (to_frames _ _ _ _ _ T1)) T2 id' Hne).
    by apply (touched_pins m w id fp _ m1 Wm Hin T1).
Qed.

(** An unpinned frame is dropped. *)
Lemma drop_same m w m1 id fp f s :
  fm_wf m → lru_peek id (frames_ m) = Some fp → heap m !! fp = Some f → pin_count_ f = 0 →
  touched m w fp (set_pin_count (pin_count_ f + 1) f) m1 →
  let m' := free_state m1 id fp (freed_frame (set_pin_count (pin_count_ f + 1) f)) s in
  lru_peek id (frames_ m') = None → (∀ q, q ≠ fp → heap m' !! q = heap m1 !! q) → same_pins m m'.
Proof.
  intros Wm Hpk Hf Hp T m' Hmiss Hh id'. apply lru_peek_elem in Hpk as Hin; [|apply Wm].
  destruct (decide (id' = id)) as [->|Hne]; [rewrite (pins_peek m id fp f Hpk Hf); unfold pins; by rewrite Hmiss|].
  rewrite <-(touched_pins m w id fp _ m1 Wm Hin T id' Hne). unfold pins.
  change (frames_ m') with (lru_remove id (frames_ m1)). rewrite lru_peek_remove by (done || apply (to_wf _ _ _ _ _ T)).
  destruct (lru_peek id' (frames_ m1)) as [q|] eqn:Hq; [|done]. cbn [mbind option_bind]. rewrite Hh; [done|].
  intros ->. apply Hne. apply lru_peek_elem in Hq; [|apply (to_wf _ _ _ _ _ T)].
  rewrite (to_frames _ _ _ _ _ T) in Hq. exact (ptr_key_unique m _ _ fp Wm Hq Hin).
Qed.

Lemma dispose_page_ok m w id p b h f n a pn :
  fm_wf m → sys_inv m w → pins_bounded m → opened m w id p b h f n a →
  ∃ rc m' w', dispose_page p pn (m, w) = Some (rc, (m', w')) ∧ dispose_result m w id pn rc m' w'.
Proof.
  intros Wm I Hpb O. unfold dispose_page. destruct (Z.eqb_spec pn 0) as [->|Hpn].
  { eexists _, m, w. split; [done|]. by apply dispose_header. }
  rewrite (exec (check_page_num_eq _ _ _ _ _ _ _ _ _ O pn)). destruct (allocated m w id pn) eqn:Ha.
  2:{ rewrite bool_decide_eq_true_2 by done. eexists _, m, w. split; [done|]. by apply dispose_unused. }
  rewrite bool_decide_eq_false_2 by (by intros []). pose proof (op_reg _ _ _ _ _ _ _ _ _ O) as Hid.
  rewrite (exec (bp_id_eq m w id p (si_world _ _ I) Hid)).
  destruct (lru_peek (mkFrameId id pn) (frames_ m)) as [fp|] eqn:Hpk.
  - apply lru_peek_elem in Hpk as Hin; [|apply Wm]. destruct (fw_cached _ Wm _ _ Hin) as (g & Hg & Hck).
    destruct (fm_get_hit m w (mkFrameId id pn) fp g Wm I Hpk Hg (Hpb fp g Hg)) as (m1 & E1 & T1). cbn [fid_buffer_pool_id fid_page_num] in E1.
    rewrite (exec (fm_do_eq _ _ w _ _ E1)).
    set (g1 := set_pin_count (pin_count_ g + 1) g) in *. pose proof (to_here _ _ _ _ _ T1) as Hg1.
    assert ((mkFrameId id pn, fp) ∈ frames_ m1) as Hin1 by (by rewrite (to_frames _ _ _ _ _ T1)).
    pose proof (ck_pin _ _ Hck) as Hpos. pose proof (not_header m w id pn fp Wm I Hin Hpn) as Hfree.
    assert (∀ j, allocated m1 w id j = allocated m w id j) as A1 by (by eapply touched_alloc).
    assert (pins m (mkFrameId id pn) = pin_count_ g) as Hpins by (unfold pins; rewrite Hpk; cbn; by rewrite Hg).
    erewrite (bind_run (_ ≫= _)) by (by rewrite (exec (frame_of_eq m1 w fp g1 Hg1))).
    destruct (Z.eqb_spec (pin_count_ g1) 1) as [Hone|Hone]; cbn [negb].
    + cbn in Hone. unfold log_deallocate_page.
      destruct (calm_append m1 w p b DEALLOCATE pn (op_pool _ _ _ _ _ _ _ _ _ O)) as (rc & l & w2 & E2 & C2 & Hl); [apply I|].
      rewrite (exec E2). destruct (calm_inv m1 w w2 (to_inv _ _ _ _ _ T1) C2) as [I2 K2].
      pose proof (hdr_free_ext _ _ fp (cm_ext _ _ C2) Hfree) as Hfree2.
      assert (unlatched g1) as Hul by (apply Hck; lia). destruct (calm_pool _ _ _ _ C2 (op_pool _ _ _ _ _ _ _ _ _ O)) as [sb2 Hb2].
      unfold RC.OB_FAIL. case_bool_decide as Hrc.
      * destruct (unpin_page_ok m1 w2 _ fp g1 p (set_bp_stats sb2 b) (to_wf _ _ _ _ _ T1) I2 Hin1 Hg1) as (m3 & w3 & E3 & C3 & T3); [cbn; lia|done|exact Hb2|].
        erewrite (bind_run (_ ≫= _)) by (by rewrite (exec E3)).
        exists rc, m3, w3. split; [done|]. assert (calm w w3) as C by (by etrans).
        apply dispose_unlogged; [done|done|done|apply T3|apply T3|apply C| | |].
        -- eapply kept_trans; [apply T1|]. eapply kept_trans; [apply (calm_inv m1 w w3 (to_inv _ _ _ _ _ T1) C)|apply T3].
        -- intros j. rewrite (touched_alloc m1 w3 fp g1 _ m3 w id p (to_inv _ _ _ _ _ T1) Hid Hg1 T3 C eq_refl). apply A1.
        -- apply (repin_same m w m1 w3 _ fp g m3 Wm Hpk Hg T1 T3).
      * destruct (free_internal_ok m1 (mkFrameId id pn) fp g1 (to_wf _ _ _ _ _ T1) Hin1 Hg1 Hone Hul) as (s3 & E3 & W3).
        unfold fm_free. erewrite (bind_run (_ ≫= _)) by (by rewrite (exec (fm_do_eq _ _ w2 _ _ E3))).
        set (m3 := free_state m1 (mkFrameId id pn) fp (freed_frame g1) s3) in *.
        destruct (drop_inv m1 w2 _ fp g1 s3 (to_wf _ _ _ _ _ T1) I2 Hin1 Hg1 Hfree2) as (I3 & Hh3 & Hoth3 & Hmiss3).
        assert (id_to_buffer_pools_ w2 !! id = Some p) as Hid2 by (by rewrite (calm_reg _ _ _ C2)).
        destruct (opened_intro m3 w2 id p I3 Hid2) as (b4 & h4 & f4 & n4 & a4 & O4).
        assert (∀ j, allocated m3 w2 id j = allocated m w id j) as A3.
        { intros j. rewrite (proj2 (allocated_heap m1 m3 w2 id p b4 h4 Hid2 (op_pool _ _ _ _ _ _ _ _ _ O4) (op_file _ _ _ _ _ _ _ _ _ O4)
            (Hh3 h4 ltac:(intros ->; exact (Hfree2 id p b4 Hid2 (op_pool _ _ _ _ _ _ _ _ _ O4) (op_hdr _ _ _ _ _ _ _ _ _ O4)))))).
          rewrite <-A1. apply (allocated_kept m1 w m1 w2 id p (to_inv _ _ _ _ _ T1) Hid (cm_ext _ _ C2) (pins_kept_refl m1)). }
        destruct (release_page_ok m3 w2 id p b4 h4 f4 n4 a4 pn l W3 I3 O4 Hpn) as (m5 & w5 & E5 & W5 & I5 & X5 & F5 & A5 & K5 & S5);
          [by rewrite A3|done|]. exists RC.SUCCESS, m5, w5. split; [exact E5|].
        apply dispose_done; [done|done|rewrite Hpins; lia|done|done|etrans; [apply C2|exact X5]|by rewrite F5| | |].
        -- intros j. rewrite A5. unfold minus_page. case_decide; [done|]. apply A3.
        -- intros id' pn' d Hn1 Hn2 Hd. apply K5; [done|]. unfold m3. rewrite Hoth3; [|congruence]. by apply K2, T1.
        -- etrans; [|exact S5]. apply (drop_same m w m1 (mkFrameId id pn) fp g s3 Wm Hpk Hg ltac:(lia) T1 Hmiss3 Hh3).
    + exec_deref.
      destruct (unpin_page_ok m1 w _ fp g1 p b (to_wf _ _ _ _ _ T1) (to_inv _ _ _ _ _ T1) Hin1 Hg1) as (m3 & w3 & E3 & C3 & T3);
        [cbn; lia|done|apply O|]. rewrite (exec E3). exists RC.LOCKED_UNLOCK, m3, w3. split; [done|].
      apply dispose_held; [done|done|rewrite Hpins; cbn in Hone; lia|apply T3|apply T3|apply C3| | |].
      * eapply kept_trans; [apply T1|]. eapply kept_trans; [apply (calm_inv m1 w w3 (to_inv _ _ _ _ _ T1) C3)|apply T3].
      * intros j. rewrite (touched_alloc m1 w3 fp g1 _ m3 w id p (to_inv _ _ _ _ _ T1) Hid Hg1 T3 C3 eq_refl). apply A1.
      * apply (repin_same m w m1 w3 _ fp g m3 Wm Hpk Hg T1 T3).
  - rewrite (exec (fm_do_eq _ _ w _ _ (fm_get_miss m (mkFrameId id pn) Wm Hpk))).
    erewrite (bind_run (mret false)) by done. unfold log_deallocate_page.
    destruct (calm_append m w p b DEALLOCATE pn (op_pool _ _ _ _ _ _ _ _ _ O) (si_log _ _ I)) as (rc & l & w2 & E2 & C2 & Hl).
    rewrite (exec E2). destruct (calm_inv m w w2 I C2) as [I2 K2].
    pose proof (proj2 (allocated_kept m w m w2 id p I Hid (cm_ext _ _ C2) (pins_kept_refl m))) as A2.
    unfold RC.OB_FAIL. case_bool_decide as Hrc; erewrite (bind_run (mret tt)) by done.
    + exists rc, m, w2. split; [done|]. apply dispose_unlogged; try done. apply C2.
    + destruct (opened_calm _ _ _ _ _ _ _ _ _ _ O C2) as [sb O2].
      destruct (release_page_ok m w2 id p (set_bp_stats sb b) h f n a pn l Wm I2 O2 Hpn) as (m5 & w5 & E5 & W5 & I5 & X5 & F5 & A5 & K5 & S5); [by rewrite A2|done|].
      exists RC.SUCCESS, m5, w5. split; [exact E5|].
      apply dispose_done; [done|done|unfold pins; by rewrite Hpk|done|done|etrans; [apply C2|exact X5]|by rewrite F5| | |].
      * intros j. rewrite A5. unfold minus_page. case_decide; [done|]. apply A2.
      * intros id' pn' d Hn1 Hn2 Hd. apply K5; [done|]. by apply K2.
      * exact S5.
Qed.
End page_dispose.
