(* ===== verification/PoolTheorems.v ===== *)
(** * What the buffer pool promises

    The theorems about [DiskBufferPool], stated against its invariant, each
    applied to the file of [PoolDemo]. *)

From S2P Require Import Prelude Types Bytes Crc Os PageIO Bitmap LruCache MemPool Stats Latch Frame Replacement FrameManager FrameSafety BufferPool DoubleWrite DiskBufferPool StorageSafety PoolSafety PageAccess PoolDemo FileHeader PageAlloc PageDispose.
Local Open Scope Z_scope.

Section theorems.
Context {P L : Type} `{!ReplacementPolicy P} `{!PolicyLaws P} `{!LogHandler L} `{!LogLaws L} `{HOrd : HashOrder}.
Notation World := (World L).
Notation FM := (BPFrameManager (P:=P)).
Implicit Types (w : World) (pn : PageNum) (m : FM) (fp : Ptr).

(** C1: as long as no system call fails or is interrupted (they may be short),
    [get_this_page] returns and keeps the invariant, the
    content of every page and every pinned frame.  It refuses exactly the pages
    that are not in use; it reports no buffer only if the page is not cached and
    all frames hold pinned pages; otherwise the caller gets a frame, pinned once
    more, whose data is the content of the page, whichever page was evicted and
    written back on the way.  No other page's pin count changes.  What happens when a
    page cannot be read, or an evicted one cannot be written, is not claimed. *)
Theorem get_this_page_correct m w id p pn :
  fm_wf m → sys_inv m w → pins_bounded m → id_to_buffer_pools_ w !! id = Some p →
  ∃ rc r m' w', get_this_page p pn (m, w) = Some ((rc, r), (m', w')) ∧
    fm_wf m' ∧ sys_inv m' w' ∧ kept m w m' w' ∧ pins_kept m m' ∧
    match rc with
    | RC.SUCCESS => allocated m w id pn = true ∧ ∃ fp f, r = Some fp ∧ (mkFrameId id pn, fp) ∈ frames_ m' ∧
        heap m' !! fp = Some f ∧ pin_count_ f = pins m (mkFrameId id pn) + 1 ∧
        content m w id pn = Some (data (page_ f)) ∧ pins_but (mkFrameId id pn) m m'
    | RC.BUFFERPOOL_INVALID_PAGE_NUM => allocated m w id pn = false ∧ r = None ∧ (m', w') = (m, w)
    | RC.BUFFERPOOL_NOBUF => r = None ∧ same_pins m m' ∧ lru_peek (mkFrameId id pn) (frames_ m) = None ∧
        Z.of_nat (length (frames_ m)) = capacity_ m ∧ unpinned_count m = 0
    | _ => False
    end.
Proof.
  intros Wm I Hb Hid. destruct (get_this_page_cases m w id p pn Wm I Hid Hb) as
    [[Ha E]|[(Ha & Hpk & m' & w' & E & [])|(Ha & fp & m' & w' & E & [F1 F2 F3 F4 F5 F6 (f & Hf1 & Hf2 & Hf3 & Hf4)])]].
  - exists RC.BUFFERPOOL_INVALID_PAGE_NUM, None, m, w. split_and!; auto using kept_refl, pins_kept_refl.
  - exists RC.BUFFERPOOL_NOBUF, None, m', w'. by split_and!.
  - exists RC.SUCCESS, (Some fp), m', w'. split_and!; try done. by exists fp, f.
Qed.

(** C4: flushing a cached page stores exactly the frame's page, with the CRC-32 of
    its data as checksum, marks the frame clean, and changes the content of no
    page: the double write buffer may fill and be emptied on the way.  No system call
    fails, so that the flush succeeds. *)
Theorem flush_page_correct m w id fp f p reason :
  fm_wf m → sys_inv m w → (id, fp) ∈ frames_ m → heap m !! fp = Some f →
  id_to_buffer_pools_ w !! fid_buffer_pool_id id = Some p → 0 < pin_count_ f →
  ∃ m' w', flush_page p fp reason (m, w) = Some (RC.SUCCESS, (m', w')) ∧
    fm_wf m' ∧ sys_inv m' w' ∧ kept m w m' w' ∧
    ∃ f', heap m' !! fp = Some f' ∧ dirty_ f' = false ∧ pin_count_ f' = pin_count_ f ∧ data (page_ f') = data (page_ f) ∧
      check_sum (page_ f') = crc32_reference (data (page_ f)) ∧
      stored w' (fid_buffer_pool_id id) (fid_page_num id) = Some (page_ f').
Proof.
  intros Wm I Hin Hf Hid Hp.
  destruct (flush_page_internal_ok m w id fp f p reason Wm I Hin Hf Hid (or_intror Hp)) as (s & w' & E & W' & X & I' & K' & Hst).
  exists (upd m fp (flushed f) s), w'. split_and!; [exact E|done|done|done|].
  exists (flushed f). rewrite heap_upd. by split_and!.
Qed.

(** C2: as long as no system call fails or is interrupted (they may be short),
    [allocate_page] returns.  It takes the lowest hole of the
    file, or the page after the last one when there is none; on success exactly
    that page is added to the pages in use, its frame is pinned and zeroed, and
    every page but it and the header keeps its content.  It fails without an
    effect on the pages in use when the file is full, the log refuses the record
    or, for an extension, there is no frame; a hole stays taken when there is no
    frame for it.  A page that cannot be read, or an evicted one that cannot be
    written, is not covered. *)
Theorem allocate_page_correct m w id p :
  fm_wf m → sys_inv m w → pins_bounded m → id_to_buffer_pools_ w !! id = Some p →
  let n := file_pages m w id in
  ∃ rc r m' w' i, allocate_page p (m, w) = Some ((rc, r), (m', w')) ∧
    0 < i ≤ n ∧ allocated m w id i = false ∧ (∀ j, 0 ≤ j < i → allocated m w id j = true) ∧
    fm_wf m' ∧ sys_inv m' w' ∧ kept_without id i m w m' w' ∧
    (rc = RC.SUCCESS ↔ is_Some r) ∧
    match r with
    | Some fp => only_added id i m w m' w' ∧ pins_but (mkFrameId id i) m m' ∧ ∃ f', (mkFrameId id i, fp) ∈ frames_ m' ∧ heap m' !! fp = Some f' ∧
        0 < pin_count_ f' ∧ data (page_ f') = data zero_page
    | None => same_pins m m' ∧ ((∀ j, allocated m' w' id j = allocated m w id j) ∨
        (rc = RC.BUFFERPOOL_NOBUF ∧ i < n ∧ only_added id i m w m' w'))
    end.
Proof.
  intros Wm I Hb Hid n. destruct (opened_intro m w id p I Hid) as (b & h & f & n0 & a & O).
  assert (n = n0) as -> by exact (file_pages_eq _ _ _ _ _ _ _ _ _ O).
  pose proof (ho_range _ _ _ _ (op_ok _ _ _ _ _ _ _ _ _ O)) as Hr.
  assert (∀ w', calm w w' → ∀ j, allocated m w' id j = allocated m w id j) as Hcalm.
  { intros w' C. exact (proj2 (allocated_kept m w m w' id p I Hid (cm_ext _ _ C) (pins_kept_refl m))). }
  destruct (allocate_page_ok m w id p b h f n0 a Wm I Hb O) as (rc & r & m' & w' & E & [(i & Hi & Hf & Hall & R)|(Hall & R)]).
  - exists rc, r, m', w', i. split_and!; [done|lia|lia|done|done|..];
      destruct R as [fp m' w' [N1 N2 N3 N4 N5 N6 N7 N8 N9]|m' w' W' I' X' A' K' S'|rc w' Hrc C']; try done.
    all: try by apply (calm_inv m w w' I C').
    + intros id' pn d Hn1 Hn2. by apply K'.
    + intros id' pn d _ _. by apply (calm_inv m w w' I C').
    + split; [done|right]. split_and!; [done|lia|done].
    + split; [done|left]. by apply Hcalm.
  - assert (allocated m w id n0 = false) as Hf.
    { rewrite (allocated_eq _ _ _ _ _ _ _ _ _ O), Z.ltb_irrefl. by rewrite andb_false_r. }
    exists rc, r, m', w', n0. split_and!; [done|lia|lia|done|done|..];
      destruct R as [fp m' w' [N1 N2 N3 N4 N5 N6 N7 N8 N9] Hn|Hmax|m' w' W' I' X' K' A' S'|rc w' Hrc C']; try done.
    all: try by apply (calm_inv m w w' I C').
    + by intros id' pn d _ _.
    + intros id' pn d _ _. by apply K'.
    + intros id' pn d _ _. by apply (calm_inv m w w' I C').
    + split; [done|by left].
    + split; [done|by left].
    + split; [done|left]. by apply Hcalm.
Qed.

(** C3: [dispose_page] refuses the header page, pages not in use and pages that
    somebody holds, without an effect on pages, pins or contents; otherwise, once
    the log has the record, the page leaves the cache and the pages in use, and
    every page but it and the header keeps its content.  No system call fails. *)
Theorem dispose_page_correct m w id p pn :
  fm_wf m → sys_inv m w → pins_bounded m → id_to_buffer_pools_ w !! id = Some p →
  ∃ rc m' w', dispose_page p pn (m, w) = Some (rc, (m', w')) ∧ fm_wf m' ∧ sys_inv m' w' ∧ same_pins m m' ∧
    (pn = 0 → rc = RC.INTERNAL) ∧
    (pn ≠ 0 → allocated m w id pn = false → rc = RC.BUFFERPOOL_INVALID_PAGE_NUM) ∧
    (allocated m w id pn = true → 0 < pins m (mkFrameId id pn) → rc ≠ RC.SUCCESS) ∧
    if decide (rc = RC.SUCCESS)
    then lru_peek (mkFrameId id pn) (frames_ m') = None ∧
         (∀ j, allocated m' w' id j = minus_page (allocated m w id) pn j) ∧ kept_without id pn m w m' w'
    else (∀ j, allocated m' w' id j = allocated m w id j) ∧ kept m w m' w'.
Proof.
  intros Wm I Hb Hid. destruct (opened_intro m w id p I Hid) as (b & h & f & n & a & O).
  destruct (dispose_page_ok m w id p b h f n a pn Wm I Hb O) as (rc & m' & w' & E & R). exists rc, m', w'. split; [done|].
  pose proof (allocated_eq _ _ _ _ _ _ _ _ _ O 0) as H0. pose proof (ho_range _ _ _ _ (op_ok _ _ _ _ _ _ _ _ _ O)) as Hr.
  destruct R as [->|Hpn Ha|m' w' Hpn Ha Hp W' I' X K A Hpins|rc m' w' Hpn Ha Hrc W' I' X K A Hpins|m' w' Hpn Ha Hp W' I' X Hmiss A K].
  - rewrite decide_False by done. split_and!; try done; auto using kept_refl.
  - rewrite decide_False by done. split_and!; try done; auto using kept_refl.
  - rewrite decide_False by done. split_and!; try done; congruence.
  - rewrite decide_False by done. split_and!; try done; congruence.
  - rewrite decide_True by done. split_and!; try done; [congruence|lia].
Qed.

(** Redoing an allocation from the log.  A record the header already covers
    is skipped; a record of a page beyond the end of the file or of the bitmap is
    refused, with nothing changed; any other makes the page used, the very change
    [allocate_page] made to the pages in use, in a consistent header.  Redoing the
    record once more changes nothing. *)
Theorem redo_allocate_correct m w id p l pn :
  fm_wf m → sys_inv m w → id_to_buffer_pools_ w !! id = Some p → 0 ≤ pn →
  ∃ rc m' l0, redo_allocate_page p l pn (m, w) = Some (rc, (m', w)) ∧
    header_is m w id l0 (file_pages m w id) (allocated m w id) ∧
    (l ≤ l0 → rc = RC.SUCCESS ∧ m' = m) ∧
    (l0 < l → pn ≤ file_pages m w id → pn < MAX_PAGE_NUM → rc = RC.SUCCESS ∧
       ∃ l1, header_is m' w id l1 (Z.max (file_pages m w id) (pn + 1)) (plus_page (allocated m w id) pn)) ∧
    (l0 < l → file_pages m w id < pn ∨ MAX_PAGE_NUM ≤ pn → rc = RC.INTERNAL ∧ m' = m) ∧
    (rc = RC.SUCCESS → redo_allocate_page p l pn (m', w) = Some (RC.SUCCESS, (m', w))).
Proof.
  intros Wm I Hid H0. destruct (opened_intro m w id p I Hid) as (b & h & f & n & a & O).
  rewrite (file_pages_eq _ _ _ _ _ _ _ _ _ O). pose proof (header_is_opened _ _ _ _ _ _ _ _ _ O) as Hh.
  pose proof (ho_range _ _ _ _ (op_ok _ _ _ _ _ _ _ _ _ O)) as Hr.
  destruct (decide (l ≤ lsn (page_ f))) as [Hl|Hl].
  { pose proof (redo_allocate_skip m w id p b h f n a O l pn (or_introl Hl)) as E.
    exists RC.SUCCESS, m, (lsn (page_ f)). split_and!; try done; lia. }
  destruct (decide (n < pn ∨ MAX_PAGE_NUM ≤ pn)) as [Hbig|Hfit].
  { pose proof (redo_allocate_refuse m w id p b h f n a O l pn ltac:(lia) ltac:(lia)) as E.
    exists RC.INTERNAL, m, (lsn (page_ f)). split_and!; try done; lia. }
  destruct (allocated m w id pn) eqn:Ha.
  - pose proof (redo_allocate_skip m w id p b h f n a O l pn (or_intror Ha)) as E. exists RC.SUCCESS, m, (lsn (page_ f)).
    split_and!; try done; try lia. intros _ _ _. split; [done|]. exists (lsn (page_ f)).
    pose proof (allocated_range m w id pn I Ha) as Hrg. rewrite (file_pages_eq _ _ _ _ _ _ _ _ _ O) in Hrg. rewrite Z.max_l by lia.
    destruct Hh as (p' & b' & h' & f' & a' & H1 & H2 & H3 & H4 & H5 & H6 & H7 & H8). exists p', b', h', f', a'.
    split_and!; try done. intros j. unfold plus_page. by case_decide; subst.
  - destruct (redo_allocate_done m w id p b h f n a Wm O l pn ltac:(lia) H0 ltac:(lia) ltac:(lia) Ha) as (pg & s & E & Hh' & Hop).
    exists RC.SUCCESS, (upd m h (rewritten f pg) s), (lsn (page_ f)). split_and!; try done; try lia.
    + intros _ _ _. split; [done|]. by eexists.
    + intros _. destruct (Z.ltb_spec pn n) as [Hlt|Hge]; [|by eapply (proj1 (header_is_skip _ _ _ _ _ _ _ l pn Hid Hh' ltac:(lia)))].
      apply (redo_allocate_skip _ w id p b h _ n (a + 1) (Hop I Hlt)). right.
      destruct Hh' as (_ & _ & _ & _ & _ & _ & _ & _ & _ & _ & _ & _ & Hu). rewrite Hu. unfold plus_page. by rewrite decide_True.
Qed.

(** Redoing the disposal of a page other than the header: skipped when the
    header covers it, refused when the page is not in use, and otherwise the page
    is free in a consistent header that carries the record's LSN, so that redoing
    it again, or any earlier record, changes nothing. *)
Theorem redo_deallocate_correct m w id p l pn :
  fm_wf m → sys_inv m w → id_to_buffer_pools_ w !! id = Some p → 0 < pn →
  ∃ rc m' l0, redo_deallocate_page p l pn (m, w) = Some (rc, (m', w)) ∧
    header_is m w id l0 (file_pages m w id) (allocated m w id) ∧
    (l ≤ l0 → rc = RC.SUCCESS ∧ m' = m) ∧
    (l0 < l → allocated m w id pn = false → rc = RC.INTERNAL ∧ m' = m) ∧
    (l0 < l → allocated m w id pn = true → rc = RC.SUCCESS ∧
       header_is m' w id l (file_pages m w id) (minus_page (allocated m w id) pn) ∧
       ∀ l' pn', l' ≤ l → redo_allocate_page p l' pn' (m', w) = Some (RC.SUCCESS, (m', w)) ∧
         redo_deallocate_page p l' pn' (m', w) = Some (RC.SUCCESS, (m', w))).
Proof.
  intros Wm I Hid H0. destruct (opened_intro m w id p I Hid) as (b & h & f & n & a & O).
  rewrite (file_pages_eq _ _ _ _ _ _ _ _ _ O). pose proof (header_is_opened _ _ _ _ _ _ _ _ _ O) as Hh.
  destruct (redo_deallocate_cases m w id p b h f n a Wm O l pn H0) as [[Hl E]|[(Hl & Ha & E)|(Hl & Ha & pg & s & E & Hh')]].
  - exists RC.SUCCESS, m, (lsn (page_ f)). split_and!; try done; lia.
  - exists RC.INTERNAL, m, (lsn (page_ f)). split_and!; try done; [lia|congruence].
  - exists RC.SUCCESS, (upd m h (rewritten f pg) s), (lsn (page_ f)). split_and!; try done; [lia|congruence|].
    intros _ _. split_and!; [done|done|]. intros l' pn' Hle. by eapply header_is_skip.
Qed.

(** C5: what the double write buffer promises to the pool: adding a page of an
    open file makes it the stored page, and no other stored page changes, whether
    the page is new to the buffer, replaces an entry, or makes the buffer full, so
    that all its pages are written to their files.  No system call fails. *)
Theorem double_write_add_page m w id p pn page :
  world_ok w → id_to_buffer_pools_ w !! id = Some p → 0 ≤ pn → page_wf page →
  ∃ m' w', add_page p pn page (m, w) = Some (RC.SUCCESS, (m', w')) ∧ world_ok w' ∧ frames_ m' = frames_ m ∧
    stored w' id pn = Some page ∧
    ∀ id' pn' q, (id', pn') ≠ (id, pn) → stored w id' pn' = Some q → stored w' id' pn' = Some q.
Proof.
  intros Hw Hid Hpn Hpg. destruct (add_page_ok m w id p pn page Hw Hid Hpn Hpg) as (s & w' & E & _ & A).
  exists (set_fm_stats s m), w'. split_and!; [exact E|apply A|done|apply A|apply A].
Qed.
End theorems.

(** ** At the file of [PoolDemo] *)
Lemma demo_reg : id_to_buffer_pools_ Demo.world !! 1 = Some 0.
Proof. reflexivity. Qed.

Lemma get_this_page_correct_witness :
  ∃ rc r m' w', get_this_page 0 1 (Demo.mgr, Demo.world) = Some ((rc, r), (m', w')) ∧ fm_wf m' ∧ sys_inv m' w' ∧
    kept Demo.mgr Demo.world m' w'.
Proof.
  destruct (get_this_page_correct Demo.mgr Demo.world 1 0 1 Demo.mgr_wf Demo.inv Demo.mgr_bounded demo_reg)
    as (rc & r & m' & w' & H1 & H2 & H3 & H4 & _).
  exists rc, r, m', w'. split; [exact H1|]. split; [exact H2|]. split; [exact H3|exact H4].
Defined.

Lemma flush_page_correct_witness :
  ∃ m' w', flush_page 0 0 EXPLICIT (Demo.mgr, Demo.world) = Some (RC.SUCCESS, (m', w')) ∧
    sys_inv m' w' ∧ kept Demo.mgr Demo.world m' w'.
Proof.
  destruct Demo.mgr_header as (f & Hf & _ & Hp & _).
  assert ((mkFrameId 1 0, 0) ∈ frames_ Demo.mgr) as Hin by (rewrite Demo.mgr_frames; left).
  destruct (flush_page_correct Demo.mgr Demo.world (mkFrameId 1 0) 0 f 0 EXPLICIT Demo.mgr_wf Demo.inv Hin Hf demo_reg)
    as (m' & w' & H1 & _ & H2 & H3 & _); [rewrite Hp; reflexivity|].
  exists m', w'. split; [exact H1|]. split; [exact H2|exact H3].
Defined.

Lemma allocate_page_correct_witness :
  ∃ rc r m' w' i, allocate_page 0 (Demo.mgr, Demo.world) = Some ((rc, r), (m', w')) ∧
    0 < i ≤ file_pages Demo.mgr Demo.world 1 ∧ sys_inv m' w'.
Proof.
  destruct (allocate_page_correct Demo.mgr Demo.world 1 0 Demo.mgr_wf Demo.inv Demo.mgr_bounded demo_reg)
    as (rc & r & m' & w' & i & H1 & H2 & _ & _ & _ & H3 & _).
  exists rc, r, m', w', i. split; [exact H1|]. split; [exact H2|exact H3].
Defined.

Lemma dispose_page_correct_witness :
  ∃ rc m' w', dispose_page 0 1 (Demo.mgr, Demo.world) = Some (rc, (m', w')) ∧ fm_wf m' ∧ sys_inv m' w'.
Proof.
  destruct (dispose_page_correct Demo.mgr Demo.world 1 0 1 Demo.mgr_wf Demo.inv Demo.mgr_bounded demo_reg)
    as (rc & m' & w' & H1 & H2 & H3 & _).
  exists rc, m', w'. split; [exact H1|]. split; [exact H2|exact H3].
Defined.

Lemma redo_allocate_correct_witness :
  ∃ rc m', redo_allocate_page 0 5 2 (Demo.mgr, Demo.world) = Some (rc, (m', Demo.world)) ∧
    (rc = RC.SUCCESS → redo_allocate_page 0 5 2 (m', Demo.world) = Some (RC.SUCCESS, (m', Demo.world))).
Proof.
  destruct (redo_allocate_correct Demo.mgr Demo.world 1 0 5 2 Demo.mgr_wf Demo.inv demo_reg)
    as (rc & m' & l0 & H1 & _ & _ & _ & _ & H2); [discriminate|].
  exists rc, m'. split; [exact H1|exact H2].
Defined.

Lemma redo_deallocate_correct_witness :
  ∃ rc m' l0, redo_deallocate_page 0 5 1 (Demo.mgr, Demo.world) = Some (rc, (m', Demo.world)) ∧
    (5 ≤ l0 → rc = RC.SUCCESS ∧ m' = Demo.mgr).
Proof.
  destruct (redo_deallocate_correct Demo.mgr Demo.world 1 0 5 1 Demo.mgr_wf Demo.inv demo_reg)
    as (rc & m' & l0 & H1 & _ & H2 & _); [reflexivity|].
  exists rc, m', l0. split; [exact H1|exact H2].
Defined.

Lemma double_write_add_page_witness :
  ∃ m' w', add_page 0 1 Demo.header_page (Demo.mgr, Demo.world) = Some (RC.SUCCESS, (m', w')) ∧
    stored w' 1 1 = Some Demo.header_page.
Proof.
  destruct (double_write_add_page Demo.mgr Demo.world 1 0 1 Demo.header_page Demo.world_fine demo_reg)
    as (m' & w' & H1 & _ & _ & H2 & _); [discriminate|exact Demo.header_page_wf|].
  exists m', w'. split; [exact H1|exact H2].
Defined.
