(* ===== verification/LatchKept.v ===== *)
(** * The buffer pool leaves the latches alone

    Latches belong to the users of a frame: the methods of the frame manager, of
    the double write buffer and of [DiskBufferPool] that the record manager calls
    change no frame's latch, so that a property of latches that holds of every
    frame object still holds after they return.  The proofs follow the structure
    of the methods, with the lemmas of the hint database [keeps]. *)

From S2P Require Import Prelude Types Bytes Crc Os PageIO Bitmap LruCache MemPool Stats Latch Frame Replacement FrameManager BufferPool DoubleWrite DiskBufferPool.
Local Open Scope Z_scope.

(** A computation keeps a property of the state, however it ends. *)
Definition keeps {S A} (I : S → Prop) (op : M S A) : Prop := ∀ s a s', op s = Some (a, s') → I s → I s'.

Create HintDb keeps.

Section rules.
Context {S : Type} (I : S → Prop).

Lemma keeps_ret {A} (a : A) : keeps I (mret a : M S A).
Proof. intros s b s' [= <- <-]. done. Qed.
Lemma keeps_abort {A} : keeps I (abort : M S A).
Proof. done. Qed.
Lemma keeps_bind {A B} (op : M S A) (k : A → M S B) : keeps I op → (∀ a, keeps I (k a)) → keeps I (op ≫= k).
Proof. intros H1 H2 s b s' (a & s1 & E1 & E2)%bind_Some HI. eapply H2; [exact E2|]. by eapply H1. Qed.
Lemma keeps_deref {A} (o : option A) : keeps I (deref o : M S A).
Proof. destruct o; [apply keeps_ret|done]. Qed.
Lemma keeps_assertb b : keeps I (assertb b : M S unit).
Proof. destruct b; [apply keeps_ret|done]. Qed.
Lemma keeps_gets {A} (f : S → A) : keeps I (gets f).
Proof. intros s b s' [= <- <-]. done. Qed.
Lemma keeps_fetch : keeps I (fetch : M S S).
Proof. intros s b s' [= <- <-]. done. Qed.
End rules.

#[export] Hint Resolve keeps_ret keeps_abort keeps_bind keeps_deref keeps_assertb keeps_gets keeps_fetch : keeps.

(** Splitting a body at its sequence points, tests and matches. *)
Ltac keeps_step :=
  match goal with
  | |- keeps _ (_ ≫= _) => apply keeps_bind
  | |- ∀ _, _ => intros ?
  | |- keeps _ (match ?x with _ => _ end) => destruct x
  | |- keeps _ (let '(_, _) := ?x in _) => destruct x
  | |- keeps _ (if ?b then _ else _) => destruct b
  | |- _ => solve [auto with keeps nocore]
  end.
Ltac keeps_tac := repeat (cbv beta zeta; keeps_step).

(** What a latch and its debug records hold. *)
Definition latch_of (f : Frame) : RecursiveSharedMutex * Z * Z * gmap Z Z :=
  (lock_ f, write_locker_ f, write_recursive_count_ f, read_lockers_ f).

Section latch_kept.
Context {P L : Type} `{RP : !ReplacementPolicy P} `{LH : !LogHandler L} `{HOrd : !HashOrder}.
Notation Sys := (Sys L P).
Notation FM := (BPFrameManager (P:=P)).
Context (Q : Frame → Prop) (Q_new : Q new_frame) (Q_latch : ∀ f f', latch_of f' = latch_of f → Q f → Q f').

Definition all_heap (h : gmap Ptr Frame) : Prop := map_Forall (λ _ f, Q f) h.
Definition fm_all (m : FM) : Prop := all_heap (heap m).
Definition sys_all (s : Sys) : Prop := fm_all s.1.
Definition pool_all (a : MemPoolSimple Frame) : Prop := all_heap (mp_heap a).

(** ** The frame manager *)
Lemma fm_all_modify (g : FM → FM) : (∀ m, heap (g m) = heap m) → keeps fm_all (modify g).
Proof. intros H m a m' [= <- <-]. unfold fm_all. by rewrite H. Qed.

Lemma keeps_put_frame p f : Q f → keeps fm_all (put_frame p f).
Proof. intros Hq m a m' [= <- <-] Hm. unfold fm_all, heap. cbn. by apply map_Forall_insert_2. Qed.

Lemma keeps_frame_at p : keeps fm_all (frame_at p : M FM Frame).
Proof. unfold frame_at. keeps_tac. Qed.

Lemma frame_at_all p s f s' : (frame_at p : M FM Frame) s = Some (f, s') → fm_all s → Q f ∧ s' = s.
Proof.
  unfold frame_at. intros (m & s1 & [= <- <-] & E)%bind_Some Hm. destruct (heap s !! p) as [g|] eqn:Eg; [|done].
  injection E as <- <-. split; [by apply (Hm p)|done].
Qed.

Lemma keeps_on_frame p (op : Frame → BufferPoolStats → Frame * BufferPoolStats) :
  (∀ f s, latch_of (op f s).1 = latch_of f) → keeps fm_all (on_frame p op : M FM unit).
Proof.
  intros Hop s a s' (f & s1 & E1 & E)%bind_Some Hs. destruct (frame_at_all p s f s1 E1 Hs) as [Hf ->].
  apply bind_Some in E as (st & s2 & [= <- <-] & E). pose proof (Hop f (fm_stats s)) as Hl. destruct (op f (fm_stats s)) as [f' st'].
  revert E Hs. apply (keeps_bind fm_all (put_frame p f')); [apply keeps_put_frame; by apply (Q_latch f)|]. intros _. by apply fm_all_modify.
Qed.

Lemma keeps_frame_set p (op : Frame → Frame) : (∀ f, latch_of (op f) = latch_of f) → keeps fm_all (on_frame_set p op : M FM unit).
Proof. intros Hop. apply keeps_on_frame. intros f s. apply Hop. Qed.

Lemma latch_pin f s : latch_of (pin f s).1 = latch_of f.
Proof. done. Qed.
Lemma latch_mark_dirty f s : latch_of (mark_dirty f s).1 = latch_of f.
Proof. unfold mark_dirty. by destruct (dirty_ f). Qed.
Lemma latch_clear_dirty f s : latch_of (clear_dirty f s).1 = latch_of f.
Proof. unfold clear_dirty. by destruct (dirty_ f). Qed.

Lemma keeps_frame_unpin p : keeps fm_all (frame_unpin p : M FM Z).
Proof.
  intros s a s' (f & s1 & E1 & E)%bind_Some Hs. destruct (frame_at_all p s f s1 E1 Hs) as [Hf ->].
  apply bind_Some in E as (st & s2 & [= <- <-] & E). apply bind_Some in E as ([n [f' st']] & s3 & E3 & E).
  assert (s3 = s ∧ Q f') as [-> Hf'].
  { unfold unpin in E3. destruct (0 <? pin_count_ f); [|done]. cbv zeta in E3. destruct (_ && _); cbn in E3; [done|].
    injection E3 as <- <- <- <-. split; [done|]. by apply (Q_latch f). }
  revert E Hs. apply keeps_bind; [by apply keeps_put_frame|]. intros _. apply keeps_bind; [by apply fm_all_modify|]. auto with keeps.
Qed.

Lemma keeps_on_allocator {A} (op : M (MemPoolSimple Frame) A) : keeps pool_all op → keeps fm_all (on_allocator op : M FM A).
Proof.
  intros H m a m' E. unfold on_allocator in E. destruct (op (allocator_ m)) as [[b al]|] eqn:Eo; [|done]. injection E as <- <-.
  intros Hm. by apply (H _ _ _ Eo).
Qed.

Lemma keeps_on_policy {A} (op : M P A) : keeps fm_all (on_policy op : M FM A).
Proof. intros m a m' E. unfold on_policy in E. destruct (op _) as [[b q]|]; [|done]. by injection E as <- <-. Qed.

Lemma keeps_policy_do (op : P → P) : keeps fm_all (policy_do op : M FM unit).
Proof. by apply fm_all_modify. Qed.

(** *** The pool of frame objects *)
Lemma all_heap_lookup h p f : all_heap h → h !! p = Some f → Q f.
Proof. intros Hh. apply Hh. Qed.

Lemma keeps_extend : keeps pool_all (extend : M (MemPoolSimple Frame) Z).
Proof.
  intros m a m' E Hm. unfold extend in E. apply bind_Some in E as (m1 & s1 & [= <- <-] & E).
  destruct (dynamic m); cbn [negb] in E; [|by injection E as <- <-]. cbv zeta in E.
  apply bind_Some in E as ([] & s2 & E2 & E). unfold assertb in E2. destruct (bool_decide _); [|done]. injection E2 as <-.
  apply bind_Some in E as ([] & s3 & [= <-] & E). injection E as <- <-. unfold pool_all, all_heap. cbn.
  induction (block _ _) as [|x l IH]; [done|]. cbn. by apply map_Forall_insert_2.
Qed.

Lemma keeps_pool_take : keeps pool_all (pool_take : M (MemPoolSimple Frame) (option Ptr)).
Proof.
  intros m a m' E Hm. unfold pool_take in E. apply bind_Some in E as (m1 & s1 & [= <- <-] & E).
  destruct (frees m) as [|b rest]; [done|]. apply bind_Some in E as ([] & s2 & [= <-] & E).
  apply bind_Some in E as (x & s3 & E3 & E). destruct (mp_heap m !! b) as [y|] eqn:Ey; [|done]. injection E3 as <- <-.
  apply bind_Some in E as ([] & s4 & [= <-] & E). injection E as <- <-. unfold pool_all. cbn. apply map_Forall_insert_2; [|exact Hm].
  by eapply all_heap_lookup.
Qed.

Lemma keeps_pool_alloc : keeps pool_all (pool_alloc : M (MemPoolSimple Frame) (option Ptr)).
Proof.
  unfold pool_alloc. apply keeps_bind; [apply keeps_fetch|]. intros m. destruct (frees m); [|apply keeps_pool_take].
  destruct (negb (dynamic m)); [apply keeps_ret|]. apply keeps_bind; [apply keeps_extend|]. intros r.
  destruct (r <? 0); [apply keeps_ret|apply keeps_pool_take].
Qed.

Lemma keeps_pool_free p : keeps pool_all (pool_free p : M (MemPoolSimple Frame) unit).
Proof.
  intros m a m' E Hm. unfold pool_free in E. apply bind_Some in E as (m1 & s1 & [= <- <-] & E).
  apply bind_Some in E as (x & s2 & E2 & E). destruct (mp_heap m !! p) as [y|] eqn:Ey; [|done]. injection E2 as <- <-.
  apply bind_Some in E as ([] & s3 & [= <-] & E). apply bind_Some in E as (m2 & s4 & [= <- <-] & E).
  assert (all_heap (<[p := y]> (mp_heap m))) as Hh by (apply map_Forall_insert_2; [by eapply all_heap_lookup|exact Hm]).
  destruct (negb _); by injection E as <- <-.
Qed.

#[local] Hint Resolve keeps_frame_at keeps_frame_unpin keeps_on_policy keeps_policy_do keeps_on_allocator keeps_pool_alloc
  keeps_pool_free keeps_put_frame latch_pin latch_mark_dirty latch_clear_dirty : keeps.
#[local] Hint Extern 3 (keeps _ (modify _)) => apply fm_all_modify; reflexivity : keeps.
#[local] Hint Extern 3 (keeps _ (on_frame_set _ _)) => apply keeps_frame_set; reflexivity : keeps.
#[local] Hint Extern 3 (keeps _ (on_frame _ _)) => apply keeps_on_frame; auto with keeps : keeps.

Lemma keeps_get_internal id : keeps fm_all (get_internal id : M FM (option Ptr)).
Proof. unfold get_internal. keeps_tac. Qed.
#[local] Hint Resolve keeps_get_internal : keeps.
Lemma keeps_fm_get id pn : keeps fm_all (fm_get id pn : M FM (option Ptr)).
Proof. apply keeps_get_internal. Qed.
Lemma keeps_fm_alloc id pn : keeps fm_all (fm_alloc id pn : M FM (option Ptr)).
Proof. unfold fm_alloc. keeps_tac. Qed.
Lemma keeps_free_internal id p : keeps fm_all (free_internal id p : M FM RC).
Proof. unfold free_internal. keeps_tac. Qed.
Lemma keeps_fm_free id pn p : keeps fm_all (fm_free id pn p : M FM RC).
Proof. apply keeps_free_internal. Qed.
Lemma keeps_choose_loop n count acc : keeps fm_all (choose_loop n count acc : M FM (list Ptr)).
Proof. revert acc. induction n as [|n IH]; intros acc; cbn [choose_loop]; keeps_tac. Qed.
#[local] Hint Resolve keeps_fm_get keeps_fm_alloc keeps_free_internal keeps_fm_free keeps_choose_loop : keeps.

(** ** The rest of the system *)
Lemma keeps_fm_do {A} (op : M FM A) : keeps fm_all op → keeps sys_all (fm_do op : M Sys A).
Proof.
  intros Hop [m w] a [m' w'] E. unfold fm_do, with_fm in E. destruct (op m) as [[b m1]|] eqn:Eo; [|done]. injection E as <- <- <-.
  exact (Hop _ _ _ Eo).
Qed.
Lemma keeps_with_fm {A} (op : M FM A) : keeps fm_all op → keeps sys_all (with_fm op : M Sys A).
Proof. apply keeps_fm_do. Qed.
Lemma keeps_on_os {A} (op : M OS A) : keeps sys_all (on_os op : M Sys A).
Proof. intros [m w] a [m' w'] E. unfold on_os in E. destruct (op _) as [[b s]|]; [|done]. by injection E as <- <- <-. Qed.
Lemma keeps_on_log {A} (op : M L A) : keeps sys_all (on_log op : M Sys A).
Proof. intros [m w] a [m' w'] E. unfold on_log in E. destruct (op _) as [[b s]|]; [|done]. by injection E as <- <- <-. Qed.
Lemma keeps_world : keeps sys_all (world : M Sys _).
Proof. apply keeps_gets. Qed.
Lemma keeps_on_world g : keeps sys_all (on_world g : M Sys unit).
Proof. intros [m w] a [m' w'] [= <- <- <-]. done. Qed.
#[local] Hint Resolve keeps_fm_do keeps_with_fm keeps_on_os keeps_on_log keeps_world keeps_on_world : keeps.

Lemma keeps_pool_at p : keeps sys_all (pool_at p : M Sys _).
Proof. unfold pool_at. keeps_tac. Qed.
#[local] Hint Resolve keeps_pool_at : keeps.
Lemma keeps_on_pool p g : keeps sys_all (on_pool p g : M Sys unit).
Proof. unfold on_pool. keeps_tac. Qed.
#[local] Hint Resolve keeps_on_pool : keeps.
Lemma keeps_pool_stat p g : keeps sys_all (pool_stat p g : M Sys unit).
Proof. apply keeps_on_pool. Qed.
Lemma keeps_global_stat g : keeps sys_all (global_stat g : M Sys unit).
Proof. unfold global_stat. keeps_tac. Qed.
Lemma keeps_bp_id p : keeps sys_all (bp_id p : M Sys Z).
Proof. unfold bp_id. keeps_tac. Qed.
Lemma keeps_frame_of p : keeps sys_all (frame_of p : M Sys Frame).
Proof. unfold frame_of. keeps_tac. Qed.
Lemma keeps_set_frame p g : (∀ f, latch_of (g f) = latch_of f) → keeps sys_all (set_frame p g : M Sys unit).
Proof. intros Hg. apply keeps_fm_do, keeps_frame_set, Hg. Qed.
Lemma keeps_header p : keeps sys_all (header p : M Sys _).
Proof. unfold header. keeps_tac. Qed.
Lemma keeps_hdr_frame p : keeps sys_all (hdr_frame p : M Sys _).
Proof. unfold hdr_frame. keeps_tac. Qed.
Lemma keeps_put_header p d : keeps sys_all (put_header p d : M Sys unit).
Proof. unfold put_header. keeps_tac. Qed.
#[local] Hint Resolve keeps_pool_stat keeps_global_stat keeps_bp_id keeps_frame_of keeps_header keeps_hdr_frame keeps_put_header : keeps.
#[local] Hint Extern 3 (keeps _ (set_frame _ _)) => apply keeps_set_frame; reflexivity : keeps.

Lemma keeps_page_count p : keeps sys_all (page_count p : M Sys Z).
Proof. unfold page_count. keeps_tac. Qed.
Lemma keeps_allocated_pages p : keeps sys_all (allocated_pages p : M Sys Z).
Proof. unfold allocated_pages. keeps_tac. Qed.
Lemma keeps_add_field p o k : keeps sys_all (add_field p o k : M Sys unit).
Proof. unfold add_field. keeps_tac. Qed.
Lemma keeps_header_bit p i : keeps sys_all (header_bit p i : M Sys bool).
Proof. unfold header_bit. keeps_tac. Qed.
Lemma keeps_header_set_bit p i : keeps sys_all (header_set_bit p i : M Sys unit).
Proof. unfold header_set_bit. keeps_tac. Qed.
Lemma keeps_header_clear_bit p i : keeps sys_all (header_clear_bit p i : M Sys unit).
Proof. unfold header_clear_bit. keeps_tac. Qed.
Lemma keeps_append_log p o i : keeps sys_all (append_log p o i : M Sys _).
Proof. unfold append_log. keeps_tac. Qed.
Lemma keeps_get_buffer_pool id : keeps sys_all (get_buffer_pool id : M Sys _).
Proof. unfold get_buffer_pool. keeps_tac. Qed.
Lemma keeps_write_page p pn pg : keeps sys_all (write_page p pn pg : M Sys RC).
Proof. unfold write_page. keeps_tac. Qed.
#[local] Hint Resolve keeps_page_count keeps_allocated_pages keeps_add_field keeps_header_bit keeps_header_set_bit
  keeps_header_clear_bit keeps_append_log keeps_get_buffer_pool keeps_write_page : keeps.

(** ** The double write buffer *)
Lemma keeps_dblwr : keeps sys_all (dblwr : M Sys _).
Proof. unfold dblwr. keeps_tac. Qed.
#[local] Hint Resolve keeps_dblwr : keeps.
Lemma keeps_set_dw_pages x : keeps sys_all (set_dw_pages x : M Sys unit).
Proof. unfold set_dw_pages, put_dblwr. keeps_tac. Qed.
Lemma keeps_set_header_cnt x : keeps sys_all (set_header_cnt x : M Sys unit).
Proof. unfold set_header_cnt, put_dblwr. keeps_tac. Qed.
Lemma keeps_dw_object k : keeps sys_all (dw_object k : M Sys _).
Proof. unfold dw_object. keeps_tac. Qed.
#[local] Hint Resolve keeps_set_dw_pages keeps_set_header_cnt keeps_dw_object : keeps.
Lemma keeps_set_dw_object k o : keeps sys_all (set_dw_object k o : M Sys unit).
Proof. unfold set_dw_object. keeps_tac. Qed.
Lemma keeps_write_page_internal o : keeps sys_all (write_page_internal o : M Sys RC).
Proof. unfold write_page_internal. keeps_tac. Qed.
Lemma keeps_dw_write_page o : keeps sys_all (dw_write_page o : M Sys RC).
Proof. unfold dw_write_page. keeps_tac. Qed.
#[local] Hint Resolve keeps_set_dw_object keeps_write_page_internal keeps_dw_write_page : keeps.
Lemma keeps_flush_loop ks : keeps sys_all (flush_loop ks : M Sys RC).
Proof. induction ks as [|k ks IH]; cbn [flush_loop]; keeps_tac. Qed.
#[local] Hint Resolve keeps_flush_loop : keeps.
Lemma keeps_dw_flush_page : keeps sys_all (dw_flush_page : M Sys RC).
Proof. unfold dw_flush_page. keeps_tac. Qed.
#[local] Hint Resolve keeps_dw_flush_page : keeps.
Lemma keeps_add_page p pn pg : keeps sys_all (add_page p pn pg : M Sys RC).
Proof. unfold add_page, disk_add_page, vacuous_add_page. keeps_tac. Qed.
Lemma keeps_dw_read_page p pn pg : keeps sys_all (dw_read_page p pn pg : M Sys _).
Proof. unfold dw_read_page, disk_read_page, vacuous_read_page. keeps_tac. Qed.
#[local] Hint Resolve keeps_add_page keeps_dw_read_page : keeps.

(** ** Paged files *)
Lemma keeps_access p : keeps sys_all (access p : M Sys unit).
Proof. unfold access. keeps_tac. Qed.
Lemma keeps_check_page_num p pn : keeps sys_all (check_page_num p pn : M Sys RC).
Proof. unfold check_page_num. keeps_tac. Qed.
Lemma keeps_unpin_page p fp : keeps sys_all (unpin_page p fp : M Sys RC).
Proof. unfold unpin_page. keeps_tac. Qed.
Lemma keeps_flush_page_internal p fp r : keeps sys_all (flush_page_internal p fp r : M Sys RC).
Proof. unfold flush_page_internal, log_flush_page. keeps_tac. Qed.
#[local] Hint Resolve keeps_access keeps_check_page_num keeps_unpin_page keeps_flush_page_internal : keeps.
Lemma keeps_mgr_flush_page fp r : keeps sys_all (mgr_flush_page fp r : M Sys RC).
Proof. unfold mgr_flush_page, flush_page. keeps_tac. Qed.
Lemma keeps_victim_pool p fp : keeps sys_all (victim_pool p fp : M Sys _).
Proof. unfold victim_pool. keeps_tac. Qed.
#[local] Hint Resolve keeps_mgr_flush_page keeps_victim_pool : keeps.
Lemma keeps_purger p fp : keeps sys_all (purger p fp : M Sys RC).
Proof. unfold purger. keeps_tac. Qed.
#[local] Hint Resolve keeps_purger : keeps.
Lemma keeps_purge_loop (pg : Ptr → M Sys RC) l k : (∀ fp, keeps sys_all (pg fp)) → keeps sys_all (purge_loop pg l k).
Proof. intros Hp. revert k. induction l as [|fp l IH]; intros k; cbn [purge_loop]; keeps_tac. Qed.
Lemma keeps_purge_frames c (pg : Ptr → M Sys RC) : (∀ fp, keeps sys_all (pg fp)) → keeps sys_all (purge_frames c pg).
Proof.
  intros Hp. unfold purge_frames. apply keeps_bind; [apply keeps_fetch|]. intros [m e].
  apply keeps_bind; [auto with keeps|]. intros l. by apply keeps_purge_loop.
Qed.
#[local] Hint Resolve keeps_purge_frames : keeps.
Lemma keeps_allocate_frame p pn : keeps sys_all (allocate_frame p pn : M Sys _).
Proof.
  assert (∀ n, keeps sys_all (allocate_frame_loop n p pn : M Sys _)) as Hloop
    by (intros n; induction n as [|n IH]; cbn [allocate_frame_loop]; keeps_tac).
  intros [m w] a s' E. exact (Hloop _ (m, w) a s' E).
Qed.
Lemma keeps_load_page p pn fp : keeps sys_all (load_page p pn fp : M Sys RC).
Proof. unfold load_page. keeps_tac. Qed.
Lemma keeps_purge_frame p pn fp r : keeps sys_all (purge_frame p pn fp r : M Sys RC).
Proof. unfold purge_frame. keeps_tac. Qed.
#[local] Hint Resolve keeps_allocate_frame keeps_load_page keeps_purge_frame : keeps.
Lemma keeps_get_this_page p pn : keeps sys_all (get_this_page p pn : M Sys _).
Proof. unfold get_this_page. keeps_tac. Qed.
Lemma keeps_free_scan n i p : keeps sys_all (free_scan n i p : M Sys _).
Proof. revert i. induction n as [|n IH]; intros i; cbn [free_scan]; keeps_tac. Qed.
#[local] Hint Resolve keeps_get_this_page keeps_free_scan : keeps.
Lemma keeps_allocate_page p : keeps sys_all (allocate_page p : M Sys _).
Proof.
  unfold allocate_page, allocate_hole, allocate_extend, log_allocate_page, add_allocated_pages, add_page_count. keeps_tac.
Qed.
Lemma keeps_dispose_page p pn : keeps sys_all (dispose_page p pn : M Sys RC).
Proof. unfold dispose_page, log_deallocate_page, add_allocated_pages. keeps_tac. Qed.
End latch_kept.

#[export] Hint Resolve keeps_get_this_page keeps_allocate_page keeps_dispose_page keeps_unpin_page : keeps.
