(* ===== verification/RecordManager.v ===== *)
(** * Records in paged files

    Models [RecordLogHandler] of [storage/record/record_log.cpp] and
    [RecordPageHandler], its row and PAX versions, and [RecordFileHandler] of
    [storage/record/record_manager.cpp], on top of the paged files of
    [DiskBufferPool].  A method of a page handler takes the handler and returns it
    with the fields it changed; the destructor's [cleanup] is written out where the
    source's [unique_ptr] goes out of scope. *)

From S2P Require Import Prelude Types Bytes Crc Os PageIO Bitmap LruCache MemPool Stats Latch Frame Replacement FrameManager BufferPool DoubleWrite DiskBufferPool RecordPage.
Local Open Scope Z_scope.

(** [enum class StorageFormat]. *)
Inductive StorageFormat : Type := UNKNOWN_FORMAT | ROW_FORMAT | PAX_FORMAT.
#[global] Instance StorageFormat_eq_dec : EqDecision StorageFormat.
Proof. solve_decision. Defined.

Definition format_id (s : StorageFormat) : Z :=
  match s with UNKNOWN_FORMAT => 0 | ROW_FORMAT => 1 | PAX_FORMAT => 2 end.

(** What is used of [TableMeta]: the id and the length of every field. *)
Record FieldMeta : Type := mkFieldMeta { field_id : Z; field_len : Z }.
Definition TableMeta : Type := list FieldMeta.

(** [class Record]: [data] are the bytes it points to or owns. *)
Record Rec : Type := mkRec { rec_rid : RID; rec_data : list Z }.

(** ** The log of the record manager *)
Definition RECORD_MANAGER : Z := 2.

Inductive RecordOperation : Type := INIT_PAGE | INSERT | DELETE | UPDATE.
Definition rec_type_id (t : RecordOperation) : Z :=
  match t with INIT_PAGE => 0 | INSERT => 1 | DELETE => 2 | UPDATE => 3 end.
Definition rec_operation_of (z : Z) : option RecordOperation :=
  if z =? 0 then Some INIT_PAGE else if z =? 1 then Some INSERT
  else if z =? 2 then Some DELETE else if z =? 3 then Some UPDATE else None.

(** [struct RecordLogHeader]; the last field is the union of [slot_num] and
    [record_size]. *)
Record RecordLogHeader : Type := mkRecordLogHeader {
  rl_buffer_pool_id : Z;
  rl_operation_type : Z;
  rl_page_num : PageNum;
  rl_storage_format : Z;
  rl_column_num : Z;
  rl_slot_or_size : Z
}.
Definition RecordLogHeader_SIZE : Z := 6 * 4.

Definition record_log_bytes (h : RecordLogHeader) : list Z :=
  le_bytes 4 (rl_buffer_pool_id h) ++ le_bytes 4 (rl_operation_type h) ++ le_bytes 4 (rl_page_num h) ++
  le_bytes 4 (rl_storage_format h) ++ le_bytes 4 (rl_column_num h) ++ le_bytes 4 (rl_slot_or_size h).

Definition bytes_record_log (l : list Z) : option RecordLogHeader :=
  b ← get_i32 l 0; o ← get_i32 l 4; n ← get_i32 l 8; s ← get_i32 l 12; c ← get_i32 l 16; x ← get_i32 l 20;
  Some (mkRecordLogHeader b o n s c x).

(** The log handler a method was given: the database's or a [VacuousLogHandler]. *)
Inductive LogRef : Type := TheLog | NoLog.

Record RecordLogHandler : Type := mkRecordLogHandler {
  rlh_log : option LogRef;
  rlh_buffer_pool_id : Z;
  rlh_record_size : Z;
  rlh_format : StorageFormat
}.
Definition new_record_log : RecordLogHandler := mkRecordLogHandler None (-1) (-1) ROW_FORMAT.

(** ** Page handlers *)
Record RecordPageHandler : Type := mkPageHandler {
  ph_pool : option Ptr;
  ph_log : RecordLogHandler;
  ph_frame : option Ptr;
  ph_mode : ReadWriteMode;
  page_header_ : option Ptr;
  ph_format : StorageFormat
}.

(** [RecordPageHandler::create]. *)
Definition create_page_handler (format : StorageFormat) : RecordPageHandler :=
  mkPageHandler None new_record_log None READ_WRITE None
    (if bool_decide (format = ROW_FORMAT) then ROW_FORMAT else PAX_FORMAT).

Definition ph_set_pool (p : option Ptr) (h : RecordPageHandler) : RecordPageHandler :=
  mkPageHandler p (ph_log h) (ph_frame h) (ph_mode h) (page_header_ h) (ph_format h).
Definition ph_set_log (l : RecordLogHandler) (h : RecordPageHandler) : RecordPageHandler :=
  mkPageHandler (ph_pool h) l (ph_frame h) (ph_mode h) (page_header_ h) (ph_format h).
Definition ph_set_frame (f : option Ptr) (h : RecordPageHandler) : RecordPageHandler :=
  mkPageHandler (ph_pool h) (ph_log h) f (ph_mode h) (page_header_ h) (ph_format h).
Definition ph_opened (p : Ptr) (mode : ReadWriteMode) (frame : Ptr) (h : RecordPageHandler) : RecordPageHandler :=
  mkPageHandler (Some p) (ph_log h) (Some frame) mode (Some frame) (ph_format h).

Section record_manager.
Context {P L : Type} `{!ReplacementPolicy P} `{!LogHandler L} `{!HashOrder}.
Notation Sys := (Sys L P).

(** The calling thread, what [get_default_debug_xid] returns in it, and the value
    an uninitialised [int32_t] has. *)
Context (xid_of : thread_id → Z) (t : thread_id) (uninit : Z).

(** *** Latches of a frame.  [Blocked]: the caller waits until another thread
    releases the latch, so that the call does not return in a run of its own. *)
Definition latch (mode : ReadWriteMode) (frame : Ptr) : M Sys unit :=
  f ← frame_of frame;
  r ← deref (match mode with READ_ONLY => read_latch xid_of t f | READ_WRITE => write_latch xid_of t f end);
  match r with
  | Granted f' => set_frame frame (λ _, f')
  | Blocked => abort
  end.

Definition unlatch (mode : ReadWriteMode) (frame : Ptr) : M Sys unit :=
  f ← frame_of frame;
  f' ← deref (match mode with READ_ONLY => read_unlatch xid_of t f | READ_WRITE => write_unlatch xid_of t f end);
  set_frame frame (λ _, f').

(** *** [RecordLogHandler] *)
Definition rec_append (l : RecordLogHandler) (payload : list Z) : M Sys (RC * LSN) :=
  log ← deref (rlh_log l);
  match log with
  | TheLog => on_log (log_append RECORD_MANAGER payload)
  | NoLog => mret (RC.SUCCESS, 0)
  end.

(** The common end: [append], and the LSN into the page. *)
Definition append_record_log (l : RecordLogHandler) (frame : Ptr) (payload : list Z) : M Sys RC :=
  '(rc, lsn) ← rec_append l payload;
  (if RC.OB_SUCC rc && (0 <? lsn) then set_frame frame (frame_set_lsn lsn) else mret tt);;
  mret rc.

Definition log_init_new_page (l : RecordLogHandler) (frame : Ptr) (page_num : PageNum) (d : list Z) : M Sys RC :=
  append_record_log l frame
    (record_log_bytes (mkRecordLogHeader (rlh_buffer_pool_id l) (rec_type_id INIT_PAGE) page_num
       (format_id (rlh_format l)) (Z.of_nat (length d) / 4) (rlh_record_size l)) ++ d).

Definition log_record_bytes (l : RecordLogHandler) (record : list Z) : option (list Z) :=
  if rlh_record_size l <? 0 then None else get_bytes record 0 (Z.to_nat (rlh_record_size l)).

Definition log_insert_record (l : RecordLogHandler) (frame : Ptr) (rid : RID) (record : list Z) : M Sys RC :=
  d ← deref (log_record_bytes l record);
  append_record_log l frame
    (record_log_bytes (mkRecordLogHeader (rlh_buffer_pool_id l) (rec_type_id INSERT) (rid_page_num rid)
       (format_id (rlh_format l)) 0 (rid_slot_num rid)) ++ d).

Definition log_update_record (l : RecordLogHandler) (frame : Ptr) (rid : RID) (record : list Z) : M Sys RC :=
  d ← deref (log_record_bytes l record);
  append_record_log l frame
    (record_log_bytes (mkRecordLogHeader (rlh_buffer_pool_id l) (rec_type_id UPDATE) (rid_page_num rid)
       (format_id (rlh_format l)) 0 (rid_slot_num rid)) ++ d).

(** The header is a local variable whose [column_num] is not set. *)
Definition log_delete_record (l : RecordLogHandler) (frame : Ptr) (rid : RID) : M Sys RC :=
  append_record_log l frame
    (record_log_bytes (mkRecordLogHeader (rlh_buffer_pool_id l) (rec_type_id DELETE) (rid_page_num rid)
       (format_id (rlh_format l)) uninit (rid_slot_num rid))).

(** *** The page under a handler *)
Definition handler_frame (h : RecordPageHandler) : M Sys Ptr := deref (ph_frame h).
Definition page_data (h : RecordPageHandler) : M Sys (list Z) :=
  fp ← deref (page_header_ h); f ← frame_of fp; mret (data (page_ f)).
Definition put_page_data (h : RecordPageHandler) (d : list Z) : M Sys unit :=
  fp ← deref (page_header_ h); set_frame fp (λ f, set_page (set_data d (page_ f)) f).

Definition get_page_num (h : RecordPageHandler) : M Sys PageNum :=
  match page_header_ h with
  | None => mret (-1)
  | Some _ => fp ← handler_frame h; f ← frame_of fp; mret (fid_page_num (frame_id_ f))
  end.
Definition is_full (h : RecordPageHandler) : M Sys bool := d ← page_data h; deref (page_full d).
Definition is_empty (h : RecordPageHandler) : M Sys bool := d ← page_data h; deref (page_empty d).

(** *** Opening and closing *)
Definition cleanup (h : RecordPageHandler) : M Sys RecordPageHandler :=
  match ph_pool h with
  | None => mret h
  | Some p =>
      fp ← handler_frame h;
      unlatch (ph_mode h) fp;;
      unpin_page p fp;;
      mret (ph_set_pool None h)
  end.

Definition open_page (h : RecordPageHandler) (p : Ptr) (log : LogRef) (page_num : PageNum) (mode : ReadWriteMode) :
    M Sys (RC * RecordPageHandler) :=
  '(ret, frame) ← get_this_page p page_num;
  if bool_decide (ret ≠ RC.SUCCESS) then mret (ret, ph_set_frame frame h)
  else
    fp ← deref frame;
    latch mode fp;;
    let h := ph_opened p mode fp h in
    d ← page_data h;
    real ← deref (record_real_size d);
    id ← bp_id p;
    mret (ret, ph_set_log (mkRecordLogHandler (Some log) id real (ph_format h)) h).

Definition handler_init (h : RecordPageHandler) (p : Ptr) (log : LogRef) (page_num : PageNum) (mode : ReadWriteMode) :
    M Sys (RC * RecordPageHandler) :=
  match ph_pool h with
  | Some _ =>
      fp ← handler_frame h; f ← frame_of fp;
      if fid_page_num (frame_id_ f) =? page_num then mret (RC.RECORD_OPENNED, h)
      else h ← cleanup h; open_page h p log page_num mode
  | None => open_page h p log page_num mode
  end.

(** [recover_page] leaves the handler's log as it was. *)
Definition recover_init (h : RecordPageHandler) (p : Ptr) (page_num : PageNum) : M Sys (RC * RecordPageHandler) :=
  match ph_pool h with
  | Some _ => mret (RC.RECORD_OPENNED, h)
  | None =>
      '(ret, frame) ← get_this_page p page_num;
      if bool_decide (ret ≠ RC.SUCCESS) then mret (ret, ph_set_frame frame h)
      else
        fp ← deref frame;
        latch READ_WRITE fp;;
        recover_page p page_num;;
        mret (ret, ph_opened p READ_WRITE fp h)
  end.

(** The field lengths that the column index is made from, after the [ASSERT] on
    the field ids. *)
Fixpoint field_lens (i : Z) (fields : TableMeta) : option (list Z) :=
  match fields with
  | [] => Some []
  | f :: fields => if i =? field_id f then (field_len f ::.) <$> field_lens (i + 1) fields else None
  end.

Definition page_columns (h : RecordPageHandler) (table_meta : option TableMeta) : TableMeta :=
  match table_meta with
  | Some fields => if bool_decide (ph_format h = PAX_FORMAT) then fields else []
  | None => []
  end.

(** The column index as the bytes of an [int] array, stored if there is one. *)
Definition store_column_index (d bytes : list Z) : option (list Z) :=
  match bytes with [] => Some d | _ => set_column_index d bytes end.

Definition with_log_size (record_size : Z) (h : RecordPageHandler) : RecordPageHandler :=
  ph_set_log (mkRecordLogHandler (rlh_log (ph_log h)) (rlh_buffer_pool_id (ph_log h)) record_size (ph_format h)) h.

(** [init_empty_page] for a new page of a table: what follows [init]. *)
Definition fill_empty_page (h : RecordPageHandler) (page_num : PageNum) (record_size : Z) (table_meta : option TableMeta) :
    M Sys (RC * RecordPageHandler) :=
  let h := with_log_size record_size h in
  let fields := page_columns h table_meta in
  d ← page_data h;
  d ← deref (init_layout d record_size (Z.of_nat (length fields)));
  capacity ← deref (record_capacity d);
  lens ← deref (field_lens 0 fields);
  let column_index := concat (le_bytes 4 <$> column_ends lens capacity 0) in
  d ← deref (store_column_index d column_index);
  put_page_data h d;;
  fp ← handler_frame h;
  rc ← log_init_new_page (ph_log h) fp page_num column_index;
  if RC.OB_FAIL rc then mret (rc, h) else mret (RC.SUCCESS, h).

Definition init_empty_page (h : RecordPageHandler) (p : Ptr) (log : LogRef) (page_num : PageNum) (record_size : Z)
    (table_meta : option TableMeta) : M Sys (RC * RecordPageHandler) :=
  '(rc, h) ← handler_init h p log page_num READ_WRITE;
  if RC.OB_FAIL rc then mret (rc, h) else fill_empty_page h page_num record_size table_meta.

(** [init_empty_page] from a log record: the column index is given as bytes. *)
Definition init_empty_page_from (h : RecordPageHandler) (p : Ptr) (log : LogRef) (page_num : PageNum) (record_size : Z)
    (column_num : Z) (col_idx_data : list Z) : M Sys (RC * RecordPageHandler) :=
  '(rc, h) ← handler_init h p log page_num READ_WRITE;
  if RC.OB_FAIL rc then mret (rc, h)
  else
    let h := with_log_size record_size h in
    d ← page_data h;
    d ← deref (init_layout d record_size column_num);
    assertb (0 <=? column_num);;
    column_index ← deref (get_bytes col_idx_data 0 (Z.to_nat (column_num * 4)));
    d ← deref (store_column_index d column_index);
    put_page_data h d;;
    mret (RC.SUCCESS, h).

(** *** [RowRecordPageHandler] *)
Definition not_readonly (h : RecordPageHandler) : bool := negb (bool_decide (ph_mode h = READ_ONLY)).

Definition row_insert_record (h : RecordPageHandler) (record : list Z) : M Sys (RC * option RID) :=
  assertb (not_readonly h);;
  d ← page_data h;
  n ← deref (record_num d); c ← deref (record_capacity d);
  if n =? c then mret (RC.RECORD_NOMEM, None)
  else
    index ← deref (free_slot d);
    d ← deref (use_slot d index);
    d ← deref (add_record_num d 1);
    put_page_data h d;;
    fp ← handler_frame h;
    page_num ← get_page_num h;
    log_insert_record (ph_log h) fp (mkRID page_num index) record;;
    d ← page_data h;
    d ← deref (write_record d index record);
    put_page_data h d;;
    fm_do (on_frame fp mark_dirty);;
    mret (RC.SUCCESS, Some (mkRID page_num index)).

Definition row_recover_insert_record (h : RecordPageHandler) (record : list Z) (rid : RID) : M Sys RC :=
  d ← page_data h;
  c ← deref (record_capacity d);
  if c <=? rid_slot_num rid then mret RC.RECORD_INVALID_RID
  else
    used ← deref (slot_used d (rid_slot_num rid));
    d ← (if used : bool then mret d
         else d ← deref (use_slot d (rid_slot_num rid)); deref (add_record_num d 1));
    d ← deref (write_record d (rid_slot_num rid) record);
    put_page_data h d;;
    fp ← handler_frame h;
    fm_do (on_frame fp mark_dirty);;
    mret RC.SUCCESS.

(** Also [PaxRecordPageHandler::delete_record]. *)
Definition row_delete_record (h : RecordPageHandler) (rid : RID) : M Sys RC :=
  assertb (not_readonly h);;
  d ← page_data h;
  used ← deref (slot_used d (rid_slot_num rid));
  if used : bool then
    d ← deref (release_slot d (rid_slot_num rid));
    d ← deref (add_record_num d (-1));
    put_page_data h d;;
    fp ← handler_frame h;
    fm_do (on_frame fp mark_dirty);;
    log_delete_record (ph_log h) fp rid;;
    mret RC.SUCCESS
  else mret RC.RECORD_NOT_EXIST.

(** Storing a record over itself is no change, so that the source's test for the
    same address is not needed. *)
Definition row_update_record (h : RecordPageHandler) (rid : RID) (record : list Z) : M Sys RC :=
  assertb (not_readonly h);;
  d ← page_data h;
  c ← deref (record_capacity d);
  if c <=? rid_slot_num rid then mret RC.INVALID_ARGUMENT
  else
    used ← deref (slot_used d (rid_slot_num rid));
    if used : bool then
      fp ← handler_frame h;
      fm_do (on_frame fp mark_dirty);;
      d ← deref (write_record d (rid_slot_num rid) record);
      put_page_data h d;;
      log_update_record (ph_log h) fp rid record;;
      mret RC.SUCCESS
    else mret RC.RECORD_NOT_EXIST.

Definition row_get_record (h : RecordPageHandler) (rid : RID) : M Sys (RC * option Rec) :=
  d ← page_data h;
  c ← deref (record_capacity d);
  if c <=? rid_slot_num rid then mret (RC.RECORD_INVALID_RID, None)
  else
    used ← deref (slot_used d (rid_slot_num rid));
    if negb used then mret (RC.RECORD_NOT_EXIST, None)
    else
      bytes ← deref (read_record d (rid_slot_num rid));
      mret (RC.SUCCESS, Some (mkRec rid bytes)).

(** *** The virtual methods *)
Definition insert_record (h : RecordPageHandler) (record : list Z) : M Sys (RC * option RID) :=
  match ph_format h with ROW_FORMAT => row_insert_record h record | _ => mret (RC.UNIMPLEMENTED, None) end.
Definition recover_insert_record (h : RecordPageHandler) (record : list Z) (rid : RID) : M Sys RC :=
  match ph_format h with ROW_FORMAT => row_recover_insert_record h record rid | _ => mret RC.UNIMPLEMENTED end.
Definition delete_record (h : RecordPageHandler) (rid : RID) : M Sys RC := row_delete_record h rid.
Definition update_record (h : RecordPageHandler) (rid : RID) (record : list Z) : M Sys RC :=
  match ph_format h with ROW_FORMAT => row_update_record h rid record | _ => mret RC.UNIMPLEMENTED end.
Definition get_record (h : RecordPageHandler) (rid : RID) : M Sys (RC * option Rec) :=
  match ph_format h with ROW_FORMAT => row_get_record h rid | _ => mret (RC.UNIMPLEMENTED, None) end.
(** No handler implements [get_chunk] and [insert_chunk]. *)
Definition get_chunk (h : RecordPageHandler) : M Sys RC := mret RC.UNIMPLEMENTED.
End record_manager.

(** ** [RecordFileHandler] *)

(** [*free_pages_.begin()]: some element of the set. *)
Class BeginOf := {
  begin_of : gset PageNum → PageNum;
  begin_of_elem X : X ≠ ∅ → begin_of X ∈ X
}.

#[global] Instance elements_begin : BeginOf.
Proof.
  refine {| begin_of X := default 0 (head (elements X)) |}. intros X HX.
  apply elem_of_elements. destruct (elements X) as [|x l] eqn:E; [by apply elements_empty_inv, leibniz_equiv in E|].
  cbn. by left.
Defined.

Record RecordFileHandler : Type := mkFileHandler {
  fh_pool : option Ptr;
  fh_log : option LogRef;
  free_pages_ : gset PageNum;
  fh_format : StorageFormat;
  table_meta_ : option TableMeta
}.

Definition new_file_handler (format : StorageFormat) : RecordFileHandler := mkFileHandler None None ∅ format None.
Definition set_free_pages (X : gset PageNum) (h : RecordFileHandler) : RecordFileHandler :=
  mkFileHandler (fh_pool h) (fh_log h) X (fh_format h) (table_meta_ h).

Section record_file.
Context {P L : Type} `{!ReplacementPolicy P} `{!LogHandler L} `{!HashOrder} `{!BeginOf}.
Context (xid_of : thread_id → Z) (t : thread_id) (uninit : Z).
Notation Sys := (Sys L P).
Notation cleanup := (cleanup xid_of t).
Notation handler_init := (handler_init xid_of t).

(** The pages a [BufferPoolIterator] meets, read from the header as it is when
    [next] is called. *)
Definition pool_iterator (p : Ptr) (start_page : PageNum) : M Sys BufferPoolIterator :=
  n ← page_count p; mret (iterator_init n start_page).
Definition pool_has_next (p : Ptr) (it : BufferPoolIterator) : M Sys bool :=
  d ← header p; deref (iterator_has_next (hdr_bitmap d) it).
Definition pool_next (p : Ptr) (it : BufferPoolIterator) : M Sys (PageNum * BufferPoolIterator) :=
  d ← header p; deref (iterator_next (hdr_bitmap d) it).

(** [init_free_pages]: the loop meets every page of the file once, so that
    [page_count] rounds are enough. *)
Fixpoint free_pages_loop (n : nat) (p : Ptr) (log : LogRef) (it : BufferPoolIterator) (ph : RecordPageHandler)
    (X : gset PageNum) : M Sys (RC * gset PageNum) :=
  match n with
  | O => abort
  | S n =>
      more ← pool_has_next p it;
      if negb more then ph ← cleanup ph; mret (RC.SUCCESS, X)
      else
        '(current_page_num, it) ← pool_next p it;
        '(rc, ph) ← handler_init ph p log current_page_num READ_ONLY;
        if bool_decide (rc ≠ RC.SUCCESS) then cleanup ph;; mret (rc, X)
        else
          full ← is_full ph;
          let X := if (full : bool) then X else {[current_page_num]} ∪ X in
          ph ← cleanup ph;
          free_pages_loop n p log it ph X
  end.

Definition init_free_pages (p : Ptr) (log : LogRef) (h : RecordFileHandler) : M Sys (RC * RecordFileHandler) :=
  it ← pool_iterator p 1;
  n ← page_count p;
  '(rc, X) ← free_pages_loop (S (Z.to_nat n)) p log it (create_page_handler (fh_format h)) (free_pages_ h);
  mret (rc, set_free_pages X h).

(** [init] reports success whatever [init_free_pages] returned. *)
Definition file_init (p : Ptr) (log : LogRef) (table_meta : option TableMeta) (h : RecordFileHandler) :
    M Sys (RC * RecordFileHandler) :=
  match fh_pool h with
  | Some _ => mret (RC.RECORD_OPENNED, h)
  | None =>
      '(_, h) ← init_free_pages p log (mkFileHandler (Some p) (Some log) (free_pages_ h) (fh_format h) table_meta);
      mret (RC.SUCCESS, h)
  end.

Definition file_close (h : RecordFileHandler) : RecordFileHandler :=
  match fh_pool h with
  | Some _ => mkFileHandler None None ∅ (fh_format h) None
  | None => h
  end.

(** [insert_record]: a page of [free_pages_] with a free slot.  A round that goes
    on takes a page out of the set. *)
Fixpoint find_page_loop (n : nat) (p : Ptr) (log : LogRef) (ph : RecordPageHandler) (X : gset PageNum) :
    M Sys (RC * bool * RecordPageHandler * gset PageNum) :=
  match n with
  | O => abort
  | S n =>
      if bool_decide (X = ∅) then mret (RC.SUCCESS, false, ph, X)
      else
        let current_page_num := begin_of X in
        '(ret, ph) ← handler_init ph p log current_page_num READ_WRITE;
        if RC.OB_FAIL ret then mret (ret, false, ph, X)
        else
          full ← is_full ph;
          if negb full then mret (RC.SUCCESS, true, ph, X)
          else
            ph ← cleanup ph;
            find_page_loop n p log ph (X ∖ {[current_page_num]})
  end.

(** A new page for the record. *)
Definition new_record_page (p : Ptr) (log : LogRef) (table_meta : option TableMeta) (record_size : Z) (ph : RecordPageHandler)
    (X : gset PageNum) : M Sys (RC * RecordPageHandler * gset PageNum) :=
  '(ret, frame) ← allocate_page p;
  if bool_decide (ret ≠ RC.SUCCESS) then mret (ret, ph, X)
  else
    fp ← deref frame;
    f ← frame_of fp;
    let current_page_num := fid_page_num (frame_id_ f) in
    '(ret, ph) ← init_empty_page xid_of t ph p log current_page_num record_size table_meta;
    fm_do (frame_unpin fp);;
    if RC.OB_FAIL ret then mret (ret, ph, X)
    else mret (RC.SUCCESS, ph, {[current_page_num]} ∪ X).

Definition file_insert_record (record : list Z) (record_size : Z) (h : RecordFileHandler) :
    M Sys (RC * option RID * RecordFileHandler) :=
  p ← deref (fh_pool h);
  log ← deref (fh_log h);
  '(ret, page_found, ph, X) ←
    find_page_loop (S (size (free_pages_ h))) p log (create_page_handler (fh_format h)) (free_pages_ h);
  if RC.OB_FAIL ret then cleanup ph;; mret (ret, None, set_free_pages X h)
  else
    '(ret, ph, X) ← (if page_found : bool then mret (RC.SUCCESS, ph, X)
                     else new_record_page p log (table_meta_ h) record_size ph X);
    if RC.OB_FAIL ret then cleanup ph;; mret (ret, None, set_free_pages X h)
    else
      '(ret, rid) ← insert_record ph record;
      cleanup ph;;
      mret (ret, rid, set_free_pages X h).

Definition file_recover_insert_record (record : list Z) (rid : RID) (h : RecordFileHandler) : M Sys RC :=
  p ← deref (fh_pool h);
  '(ret, ph) ← recover_init xid_of t (create_page_handler (fh_format h)) p (rid_page_num rid);
  if RC.OB_FAIL ret then cleanup ph;; mret ret
  else
    ret ← recover_insert_record ph record rid;
    cleanup ph;; mret ret.

Definition file_delete_record (rid : RID) (h : RecordFileHandler) : M Sys (RC * RecordFileHandler) :=
  p ← deref (fh_pool h);
  log ← deref (fh_log h);
  '(rc, ph) ← handler_init (create_page_handler (fh_format h)) p log (rid_page_num rid) READ_WRITE;
  if RC.OB_FAIL rc then cleanup ph;; mret (rc, h)
  else
    rc ← delete_record uninit ph rid;
    page_is_empty ← (if RC.OB_SUCC rc then is_empty ph else mret false);
    cleanup ph;;
    if RC.OB_SUCC rc then
      if page_is_empty : bool then
        dispose_rc ← dispose_page p (rid_page_num rid);
        let X := free_pages_ h ∖ {[rid_page_num rid]} in
        mret (rc, set_free_pages (if RC.OB_FAIL dispose_rc then {[rid_page_num rid]} ∪ X else X) h)
      else mret (rc, set_free_pages ({[rid_page_num rid]} ∪ free_pages_ h) h)
    else mret (rc, h).

(** [copy_data] asserts that there is something to copy. *)
Definition file_get_record (rid : RID) (h : RecordFileHandler) : M Sys (RC * option Rec) :=
  p ← deref (fh_pool h);
  log ← deref (fh_log h);
  '(rc, ph) ← handler_init (create_page_handler (fh_format h)) p log (rid_page_num rid) READ_WRITE;
  if RC.OB_FAIL rc then cleanup ph;; mret (rc, None)
  else
    '(rc, inplace_record) ← get_record ph rid;
    if RC.OB_FAIL rc then cleanup ph;; mret (rc, None)
    else
      r ← deref inplace_record;
      assertb (negb (bool_decide (rec_data r = [])));;
      cleanup ph;; mret (rc, Some (mkRec rid (rec_data r))).

(** [updater] returns whether to store the record, and the record as it left it. *)
Definition file_visit_record (rid : RID) (updater : Rec → bool * list Z) (h : RecordFileHandler) : M Sys RC :=
  p ← deref (fh_pool h);
  log ← deref (fh_log h);
  '(rc, ph) ← handler_init (create_page_handler (fh_format h)) p log (rid_page_num rid) READ_WRITE;
  if RC.OB_FAIL rc then cleanup ph;; mret rc
  else
    '(rc, inplace_record) ← get_record ph rid;
    if RC.OB_FAIL rc then cleanup ph;; mret rc
    else
      r ← deref inplace_record;
      assertb (negb (bool_decide (rec_data r = [])));;
      let '(updated, record) := updater (mkRec rid (rec_data r)) in
      rc ← (if updated : bool then update_record ph rid record else mret rc);
      cleanup ph;; mret rc.
End record_file.
