(* ===== verification/RecordSafety.v ===== *)
(** * Record pages in the buffer pool

    A page handler fetches a page, latches it, works on its bytes and releases it.
    Here: what holds while a handler holds a page, and what each method of the row
    handler does to the records of the page, in terms of [page_ok]. *)

From S2P Require Import Prelude Types Bytes Crc Os PageIO Bitmap LruCache MemPool Stats Latch Frame Replacement FrameManager FrameSafety BufferPool DoubleWrite DiskBufferPool StorageSafety PoolSafety PageAccess FileHeader PageAlloc PageDispose LatchKept RecordPage RecordManager.
Local Open Scope Z_scope.

Definition unlocked (f : Frame) : Prop := latch_of f = (new_mutex, 0, 0, ∅).

Lemma unlocked_new : unlocked new_frame.
Proof. done. Qed.
Lemma unlocked_latch f f' : latch_of f' = latch_of f → unlocked f → unlocked f'.
Proof. unfold unlocked. congruence. Qed.

Section record_safety.
Context {P L : Type} `{!ReplacementPolicy P} `{!PolicyLaws P} `{!LogHandler L} `{!LogLaws L} `{HOrd : HashOrder}.
Context (xid_of : thread_id → Z) (t : thread_id) (uninit : Z) (Hxid : xid_of t ≠ 0).
Notation World := (World L).
Notation Sys := (Sys L P).
Notation FM := (BPFrameManager (P:=P)).
Implicit Types (w : World) (pn : PageNum) (m : FM) (fp : Ptr) (f : Frame).

(** ** Between the calls: no frame is latched, and pin counts are far from the
    limit of an [int]. *)
Record ready m w : Prop := {
  rd_wf : fm_wf m;
  rd_inv : sys_inv m w;
  rd_pins : ∀ id, pins m id < 2 ^ 30;
  rd_latch : fm_all unlocked m
}.

Lemma pins_bounded_of m B : fm_wf m → (∀ id, pins m id < B) → 0 < B ≤ 2 ^ 31 - 1 → pins_bounded m.
Proof.
  intros W Hp HB fp f Hf. assert (is_Some (heap m !! fp)) as Hd by eauto. apply (pool_dom _ (fw_pool _ W)) in Hd as [Hu|Hi].
  - rewrite (fw_used _ W) in Hu. apply elem_of_list_to_set, list_elem_of_fmap in Hu as ([id q] & -> & Hin). cbn in Hf.
    apply (lru_peek_elem id q _ (fw_keys _ W)) in Hin. specialize (Hp id). rewrite (pins_peek m id q f Hin Hf) in Hp. lia.
  - rewrite (ik_pin _ (fw_idle _ W fp f Hi Hf)). lia.
Qed.

(** ** Latching *)
Definition latched (mode : ReadWriteMode) f : Prop :=
  latch_of f = match mode with
               | READ_ONLY => (mkRSM 1 0 None 0, 0, 0, {[xid_of t := 1]})
               | READ_WRITE => (mkRSM 0 1 (Some t) 1, xid_of t, 1, ∅)
               end.

(** [f'] is [f] with another latch. *)
Definition relatched f f' : Prop := ∃ l wl wc rl, f' = set_latch l wl wc rl f.

Lemma latch_of_eq f l wl wc rl : latch_of f = (l, wl, wc, rl) → lock_ f = l ∧ write_locker_ f = wl ∧ write_recursive_count_ f = wc ∧ read_lockers_ f = rl.
Proof. unfold latch_of. by intros [= <- <- <- <-]. Qed.

Lemma latch_granted f mode :
  unlocked f → 0 < pin_count_ f →
  ∃ f', match mode with READ_ONLY => read_latch xid_of t f | READ_WRITE => write_latch xid_of t f end = Some (Granted f') ∧
    latched mode f' ∧ relatched f f'.
Proof.
  intros (Hl & Hwl & Hwc & Hrl)%latch_of_eq Hp. destruct mode.
  - unfold read_latch. rewrite (proj2 (Z.ltb_lt _ _)) by done. cbn [negb]. rewrite Hwl, (proj2 (Z.eqb_neq _ _)) by done.
    rewrite Hl. cbn. rewrite Hrl. eexists. split; [done|]. split; [|by do 4 eexists].
    unfold latched, latch_of. cbn. by rewrite Hwc.
  - unfold write_latch. rewrite (proj2 (Z.ltb_lt _ _)) by done. cbn [negb]. rewrite Hrl, lookup_empty.
    rewrite bool_decide_eq_false_2 by (by intros [? ?]). rewrite Hl. cbn. eexists. split; [done|]. split; [|by do 4 eexists].
    unfold latched, latch_of. cbn. by rewrite Hwc.
Qed.

Lemma unlatch_granted f mode :
  latched mode f → 0 < pin_count_ f →
  ∃ f', match mode with READ_ONLY => read_unlatch xid_of t f | READ_WRITE => write_unlatch xid_of t f end = Some f' ∧
    unlocked f' ∧ relatched f f'.
Proof.
  intros Hla Hp. destruct mode; apply latch_of_eq in Hla as (Hl & Hwl & Hwc & Hrl).
  - unfold read_unlatch. rewrite (proj2 (Z.ltb_lt _ _)) by done. cbn [negb]. rewrite Hrl, lookup_singleton_eq.
    change (default 0 (Some 1)) with 1. rewrite (proj2 (Z.ltb_lt 0 1)) by done. cbn [negb]. rewrite Z.eqb_refl, Hl. cbn.
    eexists. split; [done|]. split; [|by do 4 eexists]. unfold unlocked, latch_of. cbn. by rewrite Hwl, Hwc, delete_singleton_eq.
  - unfold write_unlatch. rewrite (proj2 (Z.ltb_lt _ _)) by done. cbn [negb]. rewrite Hwl, Z.eqb_refl. cbn [negb].
    rewrite Hwc, Hl. unfold rsm_unlock. cbn. rewrite bool_decide_eq_true_2 by done. cbn.
    eexists. split; [done|]. split; [|by do 4 eexists]. unfold unlocked, latch_of. cbn. by rewrite Hrl.
Qed.

Lemma latch_run m w fp f mode :
  heap m !! fp = Some f → unlocked f → 0 < pin_count_ f →
  ∃ f', latch xid_of t mode fp (m, w) = Some (tt, (upd m fp f' (fm_stats m), w)) ∧ latched mode f' ∧ relatched f f'.
Proof.
  intros Hf Hu Hp. destruct (latch_granted f mode Hu Hp) as (f' & E & Hl & Hr). exists f'. split; [|done].
  unfold latch. rewrite (exec (frame_of_eq m w fp f Hf)), E. exec_deref. cbv beta iota.
  by rewrite (set_frame_eq m w fp f _ Hf).
Qed.

Lemma unlatch_run m w fp f mode :
  heap m !! fp = Some f → latched mode f → 0 < pin_count_ f →
  ∃ f', unlatch xid_of t mode fp (m, w) = Some (tt, (upd m fp f' (fm_stats m), w)) ∧ unlocked f' ∧ relatched f f'.
Proof.
  intros Hf Hla Hp. destruct (unlatch_granted f mode Hla Hp) as (f' & E & Hl & Hr). exists f'. split; [|done].
  unfold unlatch. rewrite (exec (frame_of_eq m w fp f Hf)), E. exec_deref. cbv beta iota.
  by rewrite (set_frame_eq m w fp f _ Hf).
Qed.

(** ** Holding a page *)
Definition kept_except (id : Z) pn m w m' w' : Prop :=
  ∀ id' pn' d, (id', pn') ≠ (id, pn) → content m w id' pn' = Some d → content m' w' id' pn' = Some d.

(** From [m0], [w0] a handler has come to hold page [pn] of file [id] in the frame
    [fp]; [k] are the pins of its other users. *)
Record held m0 w0 (id : Z) (p : Ptr) pn (mode : ReadWriteMode) (k : Z) fp f m w : Prop := {
  hd_wf : fm_wf m;
  hd_inv : sys_inv m w;
  hd_reg : id_to_buffer_pools_ w !! id = Some p;
  hd_in : (mkFrameId id pn, fp) ∈ frames_ m;
  hd_frame : heap m !! fp = Some f;
  hd_pin : pin_count_ f = k + 1;
  hd_k : 0 ≤ k;
  hd_others : pins_but (mkFrameId id pn) m0 m;
  hd_latch : latched mode f;
  hd_free : ∀ q g, q ≠ fp → heap m !! q = Some g → unlocked g;
  hd_ext : extends w0 w;
  hd_alloc : ∀ j, allocated m w id j = allocated m0 w0 id j;
  hd_kept : kept_except id pn m0 w0 m w
}.

(** The page has been released with the data [d]. *)
Record released m0 w0 (id : Z) pn (k : Z) (d : list Z) m w : Prop := {
  rl_wf : fm_wf m;
  rl_inv : sys_inv m w;
  rl_latch : fm_all unlocked m;
  rl_pin : pins m (mkFrameId id pn) = k;
  rl_others : pins_but (mkFrameId id pn) m0 m;
  rl_ext : extends w0 w;
  rl_alloc : ∀ j, allocated m w id j = allocated m0 w0 id j;
  rl_kept : kept_except id pn m0 w0 m w;
  rl_content : content m w id pn = Some d
}.

Lemma released_ready m0 w0 id pn k d m w :
  (∀ x, pins m0 x < 2 ^ 30) → k < 2 ^ 30 → released m0 w0 id pn k d m w → ready m w.
Proof.
  intros Hp Hk [R1 R2 R3 R4 R5 R6 R7 R8 R9]. split; try done. intros x. destruct (decide (x = mkFrameId id pn)) as [->|Hne].
  - by rewrite R4.
  - by rewrite R5.
Qed.

Lemma relatched_fields f f' :
  relatched f f' → page_ f' = page_ f ∧ dirty_ f' = dirty_ f ∧ pin_count_ f' = pin_count_ f ∧ frame_id_ f' = frame_id_ f ∧ stats_ f' = stats_ f.
Proof. by intros (l & wl & wc & rl & ->). Qed.

(** Changing the latch of a pinned frame. *)
Lemma relatch_touched m w id fp f f' :
  fm_wf m → sys_inv m w → (id, fp) ∈ frames_ m → heap m !! fp = Some f → 0 < pin_count_ f → relatched f f' →
  touched m w fp f' (upd m fp f' (fm_stats m)).
Proof.
  intros Wm I Hin Hf Hp (Hpg & Hd & Hpc & Hid & Hst)%relatched_fields.
  pose proof (cached_frame _ _ _ _ Wm Hin Hf) as [C1 C2 C3 C4].
  apply (touch_upd m w id fp f); try done; [split; [by rewrite Hid|by rewrite Hst|by rewrite Hpc|lia]|lia|].
  unfold pinned. rewrite (proj2 (Z.ltb_lt _ _)) by done. cbn. lia.
Qed.

Lemma touched_content m w fp f f' m' id pn :
  fm_wf m → (mkFrameId id pn, fp) ∈ frames_ m → touched m w fp f' m' → content m' w id pn = Some (data (page_ f')).
Proof.
  intros Wm Hin T. unfold content. rewrite (to_frames _ _ _ _ _ T), (proj2 (lru_peek_elem _ _ _ (fw_keys _ Wm)) Hin).
  by rewrite (to_here _ _ _ _ _ T).
Qed.

Lemma touched_unlocked m w fp f' m' :
  touched m w fp f' m' → (∀ q g, q ≠ fp → heap m !! q = Some g → unlocked g) → ∀ q g, q ≠ fp → heap m' !! q = Some g → unlocked g.
Proof. intros T H q g Hq Hg. rewrite (to_other _ _ _ _ _ T) in Hg by done. by eapply H. Qed.

(** [cleanup]. *)
Lemma release_frame_ok m0 w0 id p pn mode k fp f m w h :
  held m0 w0 id p pn mode k fp f m w → pn ≠ 0 → ph_pool h = Some p → ph_frame h = Some fp → ph_mode h = mode →
  ∃ m' w', cleanup xid_of t h (m, w) = Some (ph_set_pool None h, (m', w')) ∧ released m0 w0 id pn k (data (page_ f)) m' w' ∧
    ∃ f', (mkFrameId id pn, fp) ∈ frames_ m' ∧ heap m' !! fp = Some f' ∧ page_ f' = page_ f ∧ dirty_ f' = dirty_ f ∧ pin_count_ f' = k.
Proof.
  intros [H1 H2 H3 H4 H5 H6 H7 H8 H9 H10 H11 H12 H13] Hpn Hh1 Hh2 Hh3. unfold cleanup, handler_frame. rewrite Hh1, Hh2, Hh3.
  exec_deref. destruct (unlatch_run m w fp f mode H5 H9 ltac:(lia)) as (f1 & E1 & Hu1 & R1).
  rewrite (exec E1). pose proof (relatch_touched m w _ fp f f1 H1 H2 H4 H5 ltac:(lia) R1) as T1.
  apply relatched_fields in R1 as (Hpg & Hd & Hpc & Hid & Hst). set (m1 := upd m fp f1 (fm_stats m)) in *.
  destruct (opened_intro m w id p H2 H3) as (b & hd & hf & n & a & O).
  assert ((mkFrameId id pn, fp) ∈ frames_ m1) as Hin1 by done.
  assert (unlatched f1) as Hun by (apply latch_of_eq in Hu1 as (_ & ? & _ & ?); by split).
  destruct (unpin_page_ok m1 w (mkFrameId id pn) fp f1 p b (to_wf _ _ _ _ _ T1) (to_inv _ _ _ _ _ T1) Hin1 (to_here _ _ _ _ _ T1))
    as (m2 & w2 & E2 & C2 & T2); [lia| |apply O|].
  { intros _. split; [done|]. exact (not_header m w id pn fp H1 H2 H4 Hpn). }
  rewrite (exec E2). exists m2, w2. split; [done|].
  assert ((mkFrameId id pn, fp) ∈ frames_ m2) as Hin2 by (by rewrite (to_frames _ _ _ _ _ T2)).
  split; [|exists (set_pin_count (pin_count_ f1 - 1) f1); split_and!; [done|apply T2|done|done|cbn; lia]].
  split; [apply T2|apply T2| | | | | | |].
  - intros q g Hg. destruct (decide (q = fp)) as [->|Hne].
    + rewrite (to_here _ _ _ _ _ T2) in Hg. by injection Hg as <-.
    + apply (touched_unlocked _ _ _ _ _ T2 (touched_unlocked _ _ _ _ _ T1 H10) q g Hne Hg).
  - rewrite (pins_touched m1 w2 _ fp _ m2 (proj2 (lru_peek_elem _ _ _ (fw_keys _ H1)) H4) T2). cbn. lia.
  - intros x Hx. rewrite (touched_pins m1 w2 _ fp _ m2 (to_wf _ _ _ _ _ T1) Hin1 T2 x Hx).
    rewrite (touched_pins m w _ fp _ m1 H1 H4 T1 x Hx). by apply H8.
  - etrans; [exact H11|apply C2].
  - intros j. rewrite (touched_alloc m1 w2 fp f1 _ m2 w id p (to_inv _ _ _ _ _ T1) H3 (to_here _ _ _ _ _ T1) T2 C2 eq_refl).
    rewrite (touched_alloc m w fp f f1 m1 w id p H2 H3 H5 T1 (reflexivity w) Hpg). apply H12.
  - intros id' pn' d Hne Hd'. apply T2. apply (calm_inv m1 w w2 (to_inv _ _ _ _ _ T1) C2). apply T1. by apply H13.
  - rewrite (touched_content m1 w2 fp f1 _ m2 id pn (to_wf _ _ _ _ _ T1) Hin1 T2). cbn. by rewrite Hpg.
Qed.

Lemma release_ok m0 w0 id p pn mode k fp f m w h :
  held m0 w0 id p pn mode k fp f m w → pn ≠ 0 → ph_pool h = Some p → ph_frame h = Some fp → ph_mode h = mode →
  ∃ m' w', cleanup xid_of t h (m, w) = Some (ph_set_pool None h, (m', w')) ∧ released m0 w0 id pn k (data (page_ f)) m' w'.
Proof. intros Hh Hpn H1 H2 H3. destruct (release_frame_ok m0 w0 id p pn mode k fp f m w h Hh Hpn H1 H2 H3) as (m' & w' & E & R & _). by exists m', w'. Qed.

(** ** Opening a page *)
Definition open_handler (p : Ptr) (mode : ReadWriteMode) fp (log : LogRef) (id real : Z) (fmt : StorageFormat) : RecordPageHandler :=
  mkPageHandler (Some p) (mkRecordLogHandler (Some log) id real fmt) (Some fp) mode (Some fp) fmt.

Lemma get_latches m w p pn r m' w' :
  fm_all unlocked m → get_this_page p pn (m, w) = Some (r, (m', w')) → fm_all unlocked m'.
Proof. intros Ha E. exact (keeps_get_this_page unlocked unlocked_new unlocked_latch p pn (m, w) r (m', w') E Ha). Qed.

Lemma page_real_size (d : list Z) : Z.of_nat (length d) = BP_PAGE_DATA_SIZE → ∃ real, record_real_size d = Some real.
Proof. intros Hd. unfold record_real_size. destruct (get_i32_Some d 8) as [z Hz]; [rewrite data_size_eq in Hd; lia|]. by exists z. Qed.

(** A page that is pinned stays in its frame. *)
Definition frame_stays m (id : Z) pn fp f : Prop :=
  0 < pins m (mkFrameId id pn) → lru_peek (mkFrameId id pn) (frames_ m) = Some fp ∧ ∃ f0, heap m !! fp = Some f0 ∧ page_ f = page_ f0.

(** How [open_page] ends. *)
Inductive open_result m w (id : Z) (p : Ptr) pn (mode : ReadWriteMode) (log : LogRef) (h : RecordPageHandler) :
    RC → RecordPageHandler → FM → World → Prop :=
  | open_unused : allocated m w id pn = false →
      open_result m w id p pn mode log h RC.BUFFERPOOL_INVALID_PAGE_NUM (ph_set_frame None h) m w
  | open_no_buffer m' w' : allocated m w id pn = true → lru_peek (mkFrameId id pn) (frames_ m) = None →
      fm_all unlocked m' → no_buffer m w m' w' → open_result m w id p pn mode log h RC.BUFFERPOOL_NOBUF (ph_set_frame None h) m' w'
  | open_done fp f real m' w' : allocated m w id pn = true → record_real_size (data (page_ f)) = Some real →
      content m w id pn = Some (data (page_ f)) → held m w id p pn mode (pins m (mkFrameId id pn)) fp f m' w' →
      frame_stays m id pn fp f →
      open_result m w id p pn mode log h RC.SUCCESS (open_handler p mode fp log id real (ph_format h)) m' w'.

Lemma open_page_ok m w id p pn mode log h :
  fm_wf m → sys_inv m w → fm_all unlocked m → (∀ x, pins m x < 2 ^ 31 - 1) → id_to_buffer_pools_ w !! id = Some p →
  ∃ rc h' m' w', open_page xid_of t h p log pn mode (m, w) = Some ((rc, h'), (m', w')) ∧
    open_result m w id p pn mode log h rc h' m' w'.
Proof.
  intros Wm I Hla Hpb Hid. unfold open_page.
  destruct (get_this_page_cases m w id p pn Wm I Hid (pins_bounded_of m _ Wm Hpb ltac:(lia))) as
    [[Ha E]|[(Ha & Hpk & m' & w' & E & N)|(Ha & fp & m1 & w1 & E & F)]]; rewrite (exec E).
  - rewrite bool_decide_eq_true_2 by done. eexists _, _, _, _. split; [reflexivity|by apply open_unused].
  - rewrite bool_decide_eq_true_2 by done. eexists _, _, _, _. split; [reflexivity|]. apply open_no_buffer; try done. by eapply get_latches.
  - rewrite bool_decide_eq_false_2 by (by intros []). exec_deref.
    pose proof (get_latches _ _ _ _ _ _ _ Hla E) as Hla1.
    destruct F as [F1 F2 F3 F4 F5 F6 (f & Hin & Hf & Hp & Hc)]. pose proof (pins_nonneg m (mkFrameId id pn) Wm) as Hnn.
    destruct (latch_run m1 w1 fp f mode Hf (Hla1 _ _ Hf) ltac:(lia)) as (f' & E' & Hl & R).
    rewrite (exec E'). pose proof (relatch_touched m1 w1 _ fp f f' F1 F2 Hin Hf ltac:(lia) R) as T.
    pose proof (relatched_fields _ _ R) as (Hpg & Hd & Hpc & _ & _). set (m2 := upd m1 fp f' (fm_stats m1)) in *.
    destruct (page_real_size (data (page_ f'))) as [real Hreal].
    { rewrite Hpg. apply (si_heap _ _ F2 _ _ Hf). }
    unfold page_data. cbn [page_header_ ph_opened]. erewrite (bind_run (_ ≫= _)) by
      (exec_deref; by rewrite (exec (frame_of_eq m2 w1 fp f' (to_here _ _ _ _ _ T)))).
    rewrite Hreal. exec_deref.
    assert (id_to_buffer_pools_ w1 !! id = Some p) as Hid1 by (by rewrite (ex_ids _ _ F4)).
    rewrite (exec (bp_id_eq m2 w1 id p (si_world _ _ F2) Hid1)).
    eexists _, _, _, _. split; [reflexivity|]. apply (open_done m w id p pn mode log h fp f' real m2 w1); [done|done|by rewrite Hpg| |].
    2:{ intros Hpos. destruct (lru_peek (mkFrameId id pn) (frames_ m)) as [q|] eqn:Hq; [|unfold pins in Hpos; rewrite Hq in Hpos; cbn in Hpos; lia].
        apply lru_peek_elem in Hq as Hin0; [|apply Wm]. destruct (fw_cached _ Wm _ _ Hin0) as (g & Hg & _).
        rewrite (pins_peek m _ q g Hq Hg) in Hpos. destruct (F5 _ q g Hin0 Hg) as (Hin1 & g1 & Hg1 & Hpg1 & _); [lia|].
        apply (lru_peek_elem _ _ _ (fw_keys _ F1)) in Hin1, Hin. rewrite Hin in Hin1. injection Hin1 as <-.
        split; [done|]. exists g. split; [done|]. rewrite Hpg, <-Hpg1. congruence. }
    split; try done; [apply T|apply T|apply T|by rewrite Hpc, Hp| | | |].
    + intros x Hx. rewrite (touched_pins m1 w1 _ fp _ m2 F1 Hin T x Hx). by apply F6.
    + apply (touched_unlocked _ _ _ _ _ T). intros q g _ Hg. by apply (Hla1 q).
    + intros j. rewrite (touched_alloc m1 w1 fp f f' m2 w1 id p F2 Hid1 Hf T (reflexivity w1) Hpg).
      apply (allocated_kept m w m1 w1 id p I Hid F4 F5).
    + intros id' pn' d _ Hd'. by apply T, F3.
Qed.

(** ** Working on a page that is held

    [fp] is the frame of the handler, in the state [f] with the counters [s]. *)
(** A log that takes every record. *)
Definition log_accepts : Prop :=
  ∀ (l : L) md pl rc n l', log_ok l → log_append md pl l = Some ((rc, n), l') → rc = RC.SUCCESS.

(** A log record was appended: at most the LSN of the page changed. *)
Record logged w (pg : Page) (pg' : Page) w' : Prop := {
  lg_calm : calm w w';
  lg_data : data pg' = data pg;
  lg_sum : check_sum pg' = check_sum pg;
  lg_lsn : in_srange 64 (lsn pg) → in_srange 64 (lsn pg')
}.

Lemma log_bytes_ok real log id fmt rec :
  0 ≤ real ≤ Z.of_nat (length rec) → ∃ d, log_record_bytes (mkRecordLogHandler (Some log) id real fmt) rec = Some d.
Proof.
  intros Hr. unfold log_record_bytes. cbn. rewrite (proj2 (Z.ltb_ge _ _)) by lia. unfold get_bytes.
  rewrite decide_True by lia. by eexists.
Qed.

Section raw.
Context m fp (h : RecordPageHandler) (Hfp : ph_frame h = Some fp) (Hhd : page_header_ h = Some fp).

Lemma page_data_raw w f s : page_data h (upd m fp f s, w) = Some (data (page_ f), (upd m fp f s, w)).
Proof.
  unfold page_data. rewrite Hhd. exec_deref.
  by rewrite (exec (frame_of_eq _ w fp f (heap_upd m fp f s))).
Qed.

Lemma put_page_data_raw w f s d : put_page_data h d (upd m fp f s, w) = Some (tt, (upd m fp (with_data d f) s, w)).
Proof. unfold put_page_data. rewrite Hhd. exec_deref. by rewrite set_frame_raw. Qed.

Lemma handler_frame_raw w f s : handler_frame h (upd m fp f s, w) = Some (fp, (upd m fp f s, w)).
Proof. unfold handler_frame. by rewrite Hfp. Qed.

Lemma get_page_num_raw w f s : get_page_num h (upd m fp f s, w) = Some (fid_page_num (frame_id_ f), (upd m fp f s, w)).
Proof.
  unfold get_page_num. rewrite Hhd, (exec (handler_frame_raw w f s)).
  by rewrite (exec (frame_of_eq _ w fp f (heap_upd m fp f s))).
Qed.

(** A log record leaves the data of the page alone. *)
Lemma append_record_log_raw w f s l log payload :
  rlh_log l = Some log → log_ok (w_log w) →
  ∃ rc pg w', append_record_log l fp payload (upd m fp f s, w) = Some (rc, (upd m fp (set_page pg f) s, w')) ∧
    logged w (page_ f) pg w' ∧ (log_accepts → rc = RC.SUCCESS).
Proof.
  intros Hl Hok. unfold append_record_log.
  assert (∃ rc n w', rec_append l payload (upd m fp f s, w) = Some ((rc, n), (upd m fp f s, w')) ∧ calm w w' ∧
    in_srange 64 n ∧ (log_accepts → rc = RC.SUCCESS)) as (rc & n & w' & E & C & Hn & Hacc).
  { unfold rec_append. rewrite Hl. exec_deref. destruct log.
    - destruct (append_total (w_log w) RECORD_MANAGER payload Hok) as (rc & n & l' & E & Hl' & Hn).
      exists rc, n, (set_log l' w). split_and!; [unfold on_log; by rewrite E| |done|intros Hacc; exact (Hacc _ _ _ _ _ _ Hok E)].
      apply calm_intro; [|done|done|done]. split; cbn; auto using pools_same_refl.
    - by exists RC.SUCCESS, 0, w. }
  rewrite (exec E). destruct (RC.OB_SUCC rc && (0 <? n)).
  - rewrite (exec (set_frame_raw w' fp m f s _)). exists rc, (set_lsn n (page_ f)), w'. split; [done|]. split; [by split|done].
  - erewrite (bind_run (mret tt)) by done. exists rc, (page_ f), w'. rewrite set_page_id. split; [done|]. split; [by split|done].
Qed.

Definition record_logged (op : M Sys RC) : Prop := ∀ w f s, log_ok (w_log w) →
  ∃ rc pg w', op (upd m fp f s, w) = Some (rc, (upd m fp (set_page pg f) s, w')) ∧ logged w (page_ f) pg w' ∧
    (log_accepts → rc = RC.SUCCESS).

Lemma log_insert_raw log id real fmt rid rec :
  0 ≤ real ≤ Z.of_nat (length rec) → record_logged (log_insert_record (mkRecordLogHandler (Some log) id real fmt) fp rid rec).
Proof.
  intros Hr w f s Hok. unfold log_insert_record. destruct (log_bytes_ok real log id fmt rec Hr) as [d ->].
  exec_deref. by apply append_record_log_raw with (log := log).
Qed.

Lemma log_update_raw log id real fmt rid rec :
  0 ≤ real ≤ Z.of_nat (length rec) → record_logged (log_update_record (mkRecordLogHandler (Some log) id real fmt) fp rid rec).
Proof.
  intros Hr w f s Hok. unfold log_update_record. destruct (log_bytes_ok real log id fmt rec Hr) as [d ->].
  exec_deref. by apply append_record_log_raw with (log := log).
Qed.

Lemma log_delete_raw log id real fmt rid :
  record_logged (log_delete_record uninit (mkRecordLogHandler (Some log) id real fmt) fp rid).
Proof. intros w f s Hok. by apply append_record_log_raw with (log := log). Qed.

Lemma log_init_raw log id real fmt pn d :
  record_logged (log_init_new_page (mkRecordLogHandler (Some log) id real fmt) fp pn d).
Proof. intros w f s Hok. by apply append_record_log_raw with (log := log). Qed.
End raw.

Lemma page_wf_data pg d : page_wf pg → Z.of_nat (length d) = BP_PAGE_DATA_SIZE → chars d → page_wf (set_data d pg).
Proof. intros [] H1 H2. by split. Qed.

(** What a method that stored the page [pg] leaves behind. *)
Record stored_page w f (s : BufferPoolStats) (pg : Page) (s' : BufferPoolStats) w' : Prop := {
  st_calm : calm w w';
  st_wf : page_wf pg;
  st_pinned : s' current_pinned_frames = s current_pinned_frames;
  st_dirty : s' dirty_pages_current = s dirty_pages_current + 1 - Z.b2z (dirty_ f)
}.

(** *** [insert_record] *)
Lemma row_insert_raw m w id p pn fp f s log g σ rec :
  let h := open_handler p READ_WRITE fp log id (g_real g) ROW_FORMAT in
  page_ok (data (page_ f)) g σ → frame_id_ f = mkFrameId id pn → stats_ f = true → page_wf (page_ f) →
  0 ≤ s dirty_pages_current < 2 ^ 64 - 1 → log_ok (w_log w) →
  chars rec → g_real g ≤ Z.of_nat (length rec) → (∃ i, 0 ≤ i < g_capacity g ∧ σ i = None) →
  ∃ i pg s' w', row_insert_record h rec (upd m fp f s, w) = Some ((RC.SUCCESS, Some (mkRID pn i)), (upd m fp (rewritten f pg) s', w')) ∧
    stored_page w f s pg s' w' ∧ 0 ≤ i < g_capacity g ∧ σ i = None ∧ (∀ j, 0 ≤ j < i → is_Some (σ j)) ∧
    page_ok (data pg) g (upd_slot i (Some (take (Z.to_nat (g_real g)) rec)) σ).
Proof.
  intros h Hok Hfid Hst Hpw Hs Hlog Hch Hlen Hfree.
  destruct (page_insert_ok _ _ _ Hok rec Hch Hlen Hfree) as (i & d' & E & Hi & Hn & Hbelow & Hok').
  unfold row_insert_record. change (not_readonly h) with true. erewrite (bind_run (assertb true)) by done.
  rewrite (exec (page_data_raw m fp h eq_refl w f s)).
  rewrite (page_num_eq _ _ _ Hok), (page_capacity_eq _ _ _ Hok). do 2 exec_deref.
  destruct (page_full_eq _ _ _ Hok) as (full & Ef & Hfull). unfold page_full in Ef.
  rewrite (page_num_eq _ _ _ Hok), (page_capacity_eq _ _ _ Hok) in Ef. cbn in Ef.
  destruct full.
  { destruct Hfree as (j & Hj & Hj'). destruct (proj1 Hfull eq_refl j Hj) as [x Hx]. congruence. }
  injection Ef as Ef. apply Z.leb_gt in Ef. rewrite (proj2 (Z.eqb_neq _ _)) by lia.
  unfold page_insert in E. destruct (free_slot (data (page_ f))) as [i0|]; [|done]. cbn [mbind option_bind] in E.
  exec_deref. destruct (use_slot (data (page_ f)) i0) as [d1|]; [|done]. cbn [mbind option_bind] in E.
  exec_deref. destruct (add_record_num d1 1) as [d2|] eqn:E2; [|done]. cbn [mbind option_bind] in E.
  exec_deref. rewrite (exec (put_page_data_raw m fp h eq_refl w f s d2)).
  destruct (write_record d2 i0 rec) as [d3|] eqn:E3; [|done]. cbn [mbind option_bind] in E. injection E as -> ->.
  rewrite (exec (handler_frame_raw m fp h eq_refl w _ s)).
  rewrite (exec (get_page_num_raw m fp h eq_refl eq_refl w _ s)). cbn [frame_id_ with_data set_page]. rewrite Hfid.
  destruct (page_ok_real _ _ _ Hok) as [_ Hreal]. cbn [fid_page_num ph_log h open_handler].
  destruct (log_insert_raw m fp log id (g_real g) ROW_FORMAT (mkRID pn i) rec ltac:(lia) w (with_data d2 f) s Hlog) as (rc & pg & w1 & E4 & Lg & _).
  rewrite (exec E4), (exec (page_data_raw m fp h eq_refl w1 _ s)). cbn [page_ set_page].
  rewrite (lg_data _ _ _ _ Lg). cbn [page_ with_data set_page data set_data].
  rewrite E3. exec_deref. rewrite (exec (put_page_data_raw m fp h eq_refl w1 _ s d')).
  destruct (mark_dirty_raw w1 fp m (with_data d' (set_page pg (with_data d2 f))) s) as (s' & E5 & S1 & S2); [done|done|].
  rewrite (exec E5). exists i, (set_data d' pg), s', w1. split; [done|].
  split; [|by auto]. destruct (page_ok_data _ _ _ Hok') as [L' C']. destruct Hpw as [P1 P2 P3 P4]. destruct Lg as [G1 G2 G3 G4].
  split; [done| |done|done]. split; cbn; [by apply G4|by rewrite G3|done|done].
Qed.

Lemma row_insert_full m w id p fp f s log g σ rec :
  let h := open_handler p READ_WRITE fp log id (g_real g) ROW_FORMAT in
  page_ok (data (page_ f)) g σ → (∀ i, 0 ≤ i < g_capacity g → is_Some (σ i)) →
  row_insert_record h rec (upd m fp f s, w) = Some ((RC.RECORD_NOMEM, None), (upd m fp f s, w)).
Proof.
  intros h Hok Hall. destruct (page_full_eq _ _ _ Hok) as (full & Ef & Hfull). apply Hfull in Hall as ->.
  unfold page_full in Ef. rewrite (page_num_eq _ _ _ Hok), (page_capacity_eq _ _ _ Hok) in Ef. cbn in Ef.
  injection Ef as Ef. apply Z.leb_le in Ef. pose proof (page_ok_capacity _ _ _ Hok) as Hc.
  pose proof (Bitmap.popcount_bound (page_bitmap (data (page_ f))) _ Hc).
  unfold row_insert_record. change (not_readonly h) with true. erewrite (bind_run (assertb true)) by done.
  rewrite (exec (page_data_raw m fp h eq_refl w f s)).
  rewrite (page_num_eq _ _ _ Hok), (page_capacity_eq _ _ _ Hok). do 2 exec_deref. by rewrite (proj2 (Z.eqb_eq _ _)) by lia.
Qed.

Lemma is_full_raw m w fp h f s g σ :
  page_header_ h = Some fp → page_ok (data (page_ f)) g σ →
  ∃ full, is_full h (upd m fp f s, w) = Some (full, (upd m fp f s, w)) ∧ (full = true ↔ ∀ i, 0 ≤ i < g_capacity g → is_Some (σ i)).
Proof.
  intros Hh Hok. destruct (page_full_eq _ _ _ Hok) as (full & E & H). exists full. split; [|done].
  unfold is_full. by rewrite (exec (page_data_raw m fp h Hh w f s)), E.
Qed.

Lemma is_empty_raw m w fp h f s g σ :
  page_header_ h = Some fp → page_ok (data (page_ f)) g σ →
  ∃ e, is_empty h (upd m fp f s, w) = Some (e, (upd m fp f s, w)) ∧ (e = true ↔ ∀ i, σ i = None).
Proof.
  intros Hh Hok. destruct (page_empty_eq _ _ _ Hok) as (e & E & H). exists e. split; [|done].
  unfold is_empty. by rewrite (exec (page_data_raw m fp h Hh w f s)), E.
Qed.

(** *** [delete_record] *)
Section row_ops.
Context m w (id : Z) (p : Ptr) fp f (s : BufferPoolStats) (log : LogRef) (fmt : StorageFormat) (g : Geometry) (σ : SlotNum → option (list Z)) (rid : RID).
Context (Hok : page_ok (data (page_ f)) g σ) (Hst : stats_ f = true) (Hpw : page_wf (page_ f)).
Context (Hs : 0 ≤ s dirty_pages_current < 2 ^ 64 - 1) (Hlog : log_ok (w_log w)) (Hslot : 0 ≤ rid_slot_num rid).
Let h := open_handler p READ_WRITE fp log id (g_real g) fmt.

Lemma stored_page_intro pg pg' d w' s' :
  logged w pg pg' w' → in_srange 64 (lsn pg) → check_sum pg = check_sum (page_ f) → data pg' = d →
  Z.of_nat (length d) = BP_PAGE_DATA_SIZE → chars d →
  s' current_pinned_frames = s current_pinned_frames →
  s' dirty_pages_current = s dirty_pages_current + 1 - Z.b2z (dirty_ f) → stored_page w f s pg' s' w'.
Proof.
  intros [G1 G2 G3 G4] Hl Hc Hd HL HC S1 S2. destruct Hpw. split; try done. split; [by apply G4|by rewrite G3, Hc|by rewrite Hd|by rewrite Hd].
Qed.

Lemma row_delete_none :
  rid_slot_num rid < g_capacity g → σ (rid_slot_num rid) = None →
  row_delete_record uninit h rid (upd m fp f s, w) = Some (RC.RECORD_NOT_EXIST, (upd m fp f s, w)).
Proof.
  intros Hc Hn. unfold row_delete_record. change (not_readonly h) with true. erewrite (bind_run (assertb true)) by done.
  rewrite (exec (page_data_raw m fp h eq_refl w f s)), (slot_used_eq _ _ _ Hok) by lia.
  exec_deref. by rewrite bool_decide_eq_false_2 by (rewrite Hn; by intros [? ?]).
Qed.

Lemma row_delete_some bs :
  σ (rid_slot_num rid) = Some bs →
  ∃ pg s' w', row_delete_record uninit h rid (upd m fp f s, w) = Some (RC.SUCCESS, (upd m fp (rewritten f pg) s', w')) ∧
    stored_page w f s pg s' w' ∧ page_ok (data pg) g (upd_slot (rid_slot_num rid) None σ).
Proof.
  intros Hb. destruct (read_record_eq _ _ _ Hok _ _ Hb) as (_ & Hr & _).
  destruct (page_delete_ok _ _ _ Hok _ _ Hb) as (d' & E & Hok'). unfold row_delete_record.
  change (not_readonly h) with true. erewrite (bind_run (assertb true)) by done.
  rewrite (exec (page_data_raw m fp h eq_refl w f s)), (slot_used_eq _ _ _ Hok) by lia.
  exec_deref. rewrite bool_decide_eq_true_2 by (by rewrite Hb). unfold page_delete in E.
  destruct (release_slot (data (page_ f)) (rid_slot_num rid)) as [d1|]; [|done]. cbn [mbind option_bind] in E.
  exec_deref. rewrite E. exec_deref.
  rewrite (exec (put_page_data_raw m fp h eq_refl w f s d')), (exec (handler_frame_raw m fp h eq_refl w _ s)).
  destruct (mark_dirty_raw w fp m (with_data d' f) s) as (s' & E2 & S1 & S2); [done|done|]. rewrite (exec E2).
  destruct (log_delete_raw m fp log id (g_real g) fmt rid w (set_dirty true (with_data d' f)) s' Hlog) as (rc & pg & w1 & E3 & Lg & _).
  rewrite (exec E3). exists pg, s', w1. split; [done|]. destruct (page_ok_data _ _ _ Hok') as [L' C'].
  assert (data pg = d') as Hd by apply (lg_data _ _ _ _ Lg). split; [|by rewrite Hd].
  by apply (stored_page_intro _ _ d' _ _ Lg); [apply Hpw|..].
Qed.

(** *** [update_record] *)
Lemma row_update_outside rec :
  g_capacity g ≤ rid_slot_num rid → row_update_record h rid rec (upd m fp f s, w) = Some (RC.INVALID_ARGUMENT, (upd m fp f s, w)).
Proof.
  intros Hc. unfold row_update_record. change (not_readonly h) with true. erewrite (bind_run (assertb true)) by done.
  rewrite (exec (page_data_raw m fp h eq_refl w f s)), (page_capacity_eq _ _ _ Hok).
  exec_deref. by rewrite (proj2 (Z.leb_le _ _)).
Qed.

Lemma row_update_none rec :
  rid_slot_num rid < g_capacity g → σ (rid_slot_num rid) = None →
  row_update_record h rid rec (upd m fp f s, w) = Some (RC.RECORD_NOT_EXIST, (upd m fp f s, w)).
Proof.
  intros Hc Hn. unfold row_update_record. change (not_readonly h) with true. erewrite (bind_run (assertb true)) by done.
  rewrite (exec (page_data_raw m fp h eq_refl w f s)), (page_capacity_eq _ _ _ Hok).
  exec_deref. rewrite (proj2 (Z.leb_gt _ _)) by done. rewrite (slot_used_eq _ _ _ Hok) by lia.
  exec_deref. by rewrite bool_decide_eq_false_2 by (rewrite Hn; by intros [? ?]).
Qed.

Lemma row_update_some old rec :
  σ (rid_slot_num rid) = Some old → chars rec → g_real g ≤ Z.of_nat (length rec) →
  ∃ pg s' w', row_update_record h rid rec (upd m fp f s, w) = Some (RC.SUCCESS, (upd m fp (rewritten f pg) s', w')) ∧
    stored_page w f s pg s' w' ∧ page_ok (data pg) g (upd_slot (rid_slot_num rid) (Some (take (Z.to_nat (g_real g)) rec)) σ).
Proof.
  intros Hb Hch Hlen. destruct (read_record_eq _ _ _ Hok _ _ Hb) as (_ & Hr & _).
  destruct (page_update_ok _ _ _ Hok _ _ rec Hb Hch Hlen) as (d' & E & Hok'). unfold row_update_record.
  change (not_readonly h) with true. erewrite (bind_run (assertb true)) by done.
  rewrite (exec (page_data_raw m fp h eq_refl w f s)), (page_capacity_eq _ _ _ Hok).
  exec_deref. rewrite (proj2 (Z.leb_gt _ _)) by lia. rewrite (slot_used_eq _ _ _ Hok) by lia.
  exec_deref. rewrite bool_decide_eq_true_2 by (by rewrite Hb).
  rewrite (exec (handler_frame_raw m fp h eq_refl w _ s)).
  destruct (mark_dirty_raw w fp m f s) as (s' & E2 & S1 & S2); [done|done|]. rewrite (exec E2), E.
  exec_deref. rewrite (exec (put_page_data_raw m fp h eq_refl w _ s' d')).
  destruct (page_ok_real _ _ _ Hok) as [_ Hreal].
  destruct (log_update_raw m fp log id (g_real g) fmt rid rec ltac:(lia) w (with_data d' (set_dirty true f)) s' Hlog) as (rc & pg & w1 & E3 & Lg & _).
  cbn [ph_log h open_handler]. rewrite (exec E3). exists pg, s', w1. split; [done|].
  destruct (page_ok_data _ _ _ Hok') as [L' C']. assert (data pg = d') as Hd by apply (lg_data _ _ _ _ Lg). split; [|by rewrite Hd].
  by apply (stored_page_intro _ _ d' _ _ Lg); [apply Hpw|..].
Qed.

(** *** [get_record] *)
Lemma row_get_raw h' :
  page_header_ h' = Some fp →
  row_get_record h' rid (upd m fp f s, w) =
    Some (if decide (g_capacity g ≤ rid_slot_num rid) then (RC.RECORD_INVALID_RID, None)
          else match σ (rid_slot_num rid) with
               | Some bs => (RC.SUCCESS, Some (mkRec rid bs))
               | None => (RC.RECORD_NOT_EXIST, None)
               end, (upd m fp f s, w)).
Proof.
  intros Hh. unfold row_get_record. rewrite (exec (page_data_raw m fp h' Hh w f s)), (page_capacity_eq _ _ _ Hok).
  exec_deref. case_decide as Hc; [by rewrite (proj2 (Z.leb_le _ _))|]. rewrite (proj2 (Z.leb_gt _ _)) by lia.
  rewrite (slot_used_eq _ _ _ Hok) by lia. exec_deref.
  destruct (σ (rid_slot_num rid)) as [bs|] eqn:Hb.
  - rewrite bool_decide_eq_true_2 by done. cbn [negb]. destruct (read_record_eq _ _ _ Hok _ _ Hb) as (-> & _). done.
  - by rewrite bool_decide_eq_false_2 by (by intros [? ?]).
Qed.
End row_ops.

(** ** Storing the page while it is held *)
Lemma held_write m0 w0 id p pn k fp f m w pg s w' :
  held m0 w0 id p pn READ_WRITE k fp f m w → pn ≠ 0 → stored_page w f (fm_stats m) pg s w' →
  held m0 w0 id p pn READ_WRITE k fp (rewritten f pg) (upd m fp (rewritten f pg) s) w'.
Proof.
  intros [H1 H2 H3 H4 H5 H6 H7 H8 H9 H10 H11 H12 H13] Hpn [S1 S2 S3 S4]. destruct (calm_inv m w w' H2 S1) as [I' K'].
  destruct (rewrite_inv m w' id pn fp f pg s H1 I' H4 Hpn H5 S2 S3 S4) as (W & I & K).
  assert (id_to_buffer_pools_ w' !! id = Some p) as Hid by (by rewrite (calm_reg _ _ _ S1)).
  split; try done; [apply heap_upd| | | | |].
  - intros x Hx. rewrite (pins_upd m fp f (rewritten f pg) s H5 eq_refl). by apply H8.
  - intros q y Hq Hy. rewrite heap_upd_ne in Hy by done. by eapply H10.
  - etrans; [exact H11|apply S1].
  - intros j. rewrite (allocated_upd m w' id p fp _ s I' Hid); [|by eapply not_header].
    rewrite (proj2 (allocated_kept m w m w' id p H2 H3 (cm_ext _ _ S1) (pins_kept_refl m))). apply H12.
  - intros id' pn' d Hne Hd. apply K; [done|]. by apply K', H13.
Qed.

Lemma held_frame m0 w0 id p pn mode k fp f m w :
  held m0 w0 id p pn mode k fp f m w →
  m = upd m fp f (fm_stats m) ∧ frame_id_ f = mkFrameId id pn ∧ stats_ f = true ∧ page_wf (page_ f) ∧
  0 ≤ fm_stats m dirty_pages_current < 2 ^ 64 - 1 ∧ log_ok (w_log w).
Proof.
  intros [H1 H2 H3 H4 H5 H6 H7 H8 H9 H10 H11 H12 H13]. pose proof (cached_frame _ _ _ _ H1 H4 H5) as [C1 C2 C3 C4].
  destruct (fm_counters m H1) as [_ Hc]. split_and!; try done; [by rewrite upd_id|exact (si_heap _ _ H2 _ _ H5)|lia|lia|apply H2].
Qed.
End record_safety.
