(* ===== verification/RecordFile.v ===== *)
(** * A heap file is a map from record ids to records

    [RecordFileHandler] over the buffer pool, against the abstract file: a finite
    map from [RID] to bytes.  The pages in use behind the header are the record
    pages, and [free_pages_] contains every page that has a free slot. *)

From S2P Require Import Prelude Types Bytes Crc Os PageIO Bitmap LruCache MemPool Stats Latch Frame Replacement FrameManager FrameSafety BufferPool DoubleWrite DiskBufferPool StorageSafety PoolSafety PageAccess FileHeader PageAlloc PageDispose LatchKept RecordPage RecordManager RecordSafety.
Local Open Scope Z_scope.

(** Sets of pages with one page more or less. *)
Lemma page_added (x : PageNum) (X : gset PageNum) : x ∈ {[x]} ∪ X.
Proof. set_solver. Qed.
Lemma page_added_ne (x y : PageNum) (X : gset PageNum) : y ≠ x → y ∈ {[x]} ∪ X ↔ y ∈ X.
Proof. set_solver. Qed.
Lemma page_readded (x : PageNum) (X : gset PageNum) : ({[x]} ∪ X) ∖ {[x]} = X ∖ {[x]}.
Proof. set_solver. Qed.

Lemma page_removed_size (x : PageNum) (X : gset PageNum) : x ∈ X → (size (X ∖ {[x]}) < size X)%nat.
Proof. intros Hx. apply subset_size. set_solver. Qed.

Section record_file.
Context {P L : Type} `{!ReplacementPolicy P} `{!PolicyLaws P} `{!LogHandler L} `{!LogLaws L} `{HOrd : HashOrder} `{!BeginOf}.
Context (xid_of : thread_id → Z) (t : thread_id) (uninit : Z) (Hxid : xid_of t ≠ 0).
Notation World := (World L).
Notation Sys := (Sys L P).
Notation FM := (BPFrameManager (P:=P)).
Implicit Types (w : World) (pn : PageNum) (m : FM) (fp : Ptr) (f : Frame) (σ : gmap RID (list Z)) (X : gset PageNum).

Record heap_file m w (id : Z) (g : Geometry) σ X : Prop := {
  hp_page : ∀ pn, 0 < pn → allocated m w id pn = true →
    ∃ d, content m w id pn = Some d ∧ page_ok d g (λ i, σ !! mkRID pn i);
  hp_dom : ∀ pn i, is_Some (σ !! mkRID pn i) → 0 < pn ∧ allocated m w id pn = true;
  hp_sub : ∀ pn, pn ∈ X → 0 < pn ∧ allocated m w id pn = true;
  hp_free : ∀ pn i, 0 < pn → allocated m w id pn = true → 0 ≤ i < g_capacity g → σ !! mkRID pn i = None → pn ∈ X
}.

(** The handler of a file in row format. *)
Definition row_file (p : Ptr) (log : LogRef) X (tm : option TableMeta) : RecordFileHandler :=
  mkFileHandler (Some p) (Some log) X ROW_FORMAT tm.

(** Every frame holds a pinned page, and the page asked for is not cached. *)
Definition no_frame m (id : Z) pn : Prop :=
  lru_peek (mkFrameId id pn) (frames_ m) = None ∧ Z.of_nat (length (frames_ m)) = capacity_ m ∧ unpinned_count m = 0.

Lemma heap_file_kept_but m w m' w' id g σ X :
  heap_file m w id g σ X → (∀ j, allocated m' w' id j = allocated m w id j) → kept_but id m w m' w' → heap_file m' w' id g σ X.
Proof.
  intros [H1 H2 H3 H4] Ha K. split.
  - intros pn Hpn. rewrite Ha. intros Hal. destruct (H1 pn Hpn Hal) as (d & Hd & Hok). exists d. split; [apply K; [intros [=]; lia|done]|done].
  - intros pn i Hi. rewrite Ha. by eapply H2.
  - intros pn Hpn. rewrite Ha. by apply H3.
  - intros pn i Hpn. rewrite Ha. by apply H4.
Qed.

Lemma heap_file_kept m w m' w' id g σ X :
  heap_file m w id g σ X → (∀ j, allocated m' w' id j = allocated m w id j) → kept m w m' w' → heap_file m' w' id g σ X.
Proof. intros Hf Ha K. apply (heap_file_kept_but m w); [done|done|]. intros id' pn d _. apply K. Qed.

(** The pages in use are told by the content of page 0. *)
Lemma content_header m w id p : fm_wf m → sys_inv m w → id_to_buffer_pools_ w !! id = Some p → content m w id 0 = header_data m w id.
Proof.
  intros W I Hid. destruct (opened_intro m w id p I Hid) as (b & h & f & n & a & O). rewrite (header_data_eq _ _ _ _ _ _ _ _ _ O).
  unfold content. rewrite (proj2 (lru_peek_elem _ _ _ (fw_keys _ W)) (op_cached _ _ _ _ _ _ _ _ _ O)).
  by rewrite (op_frame _ _ _ _ _ _ _ _ _ O).
Qed.

Lemma header_content m w m' w' id p :
  fm_wf m → sys_inv m w → id_to_buffer_pools_ w !! id = Some p → fm_wf m' → sys_inv m' w' → extends w w' →
  (∀ d, content m w id 0 = Some d → content m' w' id 0 = Some d) → header_data m' w' id = header_data m w id.
Proof.
  intros W I Hid W' I' X K. destruct (opened_intro m w id p I Hid) as (b & h & f & n & a & O).
  pose proof (header_data_eq _ _ _ _ _ _ _ _ _ O) as Hd. rewrite Hd. rewrite <-(content_header m w id p W I Hid) in Hd. apply K in Hd.
  rewrite (content_header m' w' id p W' I') in Hd by (by rewrite (ex_ids _ _ X)). by rewrite Hd.
Qed.

Lemma allocated_content m w m' w' id p :
  fm_wf m → sys_inv m w → id_to_buffer_pools_ w !! id = Some p → fm_wf m' → sys_inv m' w' → extends w w' →
  (∀ d, content m w id 0 = Some d → content m' w' id 0 = Some d) →
  file_pages m' w' id = file_pages m w id ∧ ∀ j, allocated m' w' id j = allocated m w id j.
Proof. intros W I Hid W' I' X K. unfold allocated, file_pages. by rewrite (header_content m w m' w' id p W I Hid W' I' X K). Qed.

(** One page has been worked on. *)
Lemma heap_file_store m w m' w' id g σ X pn k d σ' X' :
  heap_file m w id g σ X → released m w id pn k d m' w' → 0 < pn → allocated m w id pn = true →
  page_ok d g (λ i, σ' !! mkRID pn i) → (∀ r, rid_page_num r ≠ pn → σ' !! r = σ !! r) →
  (∀ x, x ≠ pn → x ∈ X' ↔ x ∈ X) → (∀ i, 0 ≤ i < g_capacity g → σ' !! mkRID pn i = None → pn ∈ X') →
  heap_file m' w' id g σ' X'.
Proof.
  intros [H1 H2 H3 H4] R Hpn Hal Hok Ho HX Hfree. pose proof (rl_alloc _ _ _ _ _ _ _ _ R) as Ha. split.
  - intros x Hx. rewrite Ha. intros Hax. destruct (decide (x = pn)) as [->|Hne].
    + exists d. split; [exact (rl_content _ _ _ _ _ _ _ _ R)|exact Hok].
    + destruct (H1 x Hx Hax) as (dx & Hdx & Hokx). exists dx. split; [apply (rl_kept _ _ _ _ _ _ _ _ R); [congruence|done]|].
      eapply page_ok_ext; [|exact Hokx]. intros i. by rewrite Ho.
  - intros x i Hi. rewrite Ha. destruct (decide (x = pn)) as [->|Hne]; [done|]. rewrite Ho in Hi by done. by eapply H2.
  - intros x Hx. rewrite Ha. destruct (decide (x = pn)) as [->|Hne]; [done|]. apply H3. by apply HX.
  - intros x i Hx. rewrite Ha. intros Hax Hi Hn. destruct (decide (x = pn)) as [->|Hne]; [by eapply Hfree|].
    apply HX; [done|]. rewrite Ho in Hn by done. by eapply H4.
Qed.

Lemma released_same m w id pn d m' w' :
  released m w id pn (pins m (mkFrameId id pn)) d m' w' → same_pins m m'.
Proof. intros R x. destruct (decide (x = mkFrameId id pn)) as [->|Hne]; [apply R|by apply (rl_others _ _ _ _ _ _ _ _ R)]. Qed.

Lemma released_ready_same m w id pn d m' w' :
  ready m w → released m w id pn (pins m (mkFrameId id pn)) d m' w' → ready m' w'.
Proof. intros Hr R. eapply released_ready; [|apply Hr|exact R]. apply Hr. Qed.

(** A page that was only read. *)
Lemma released_kept m w id pn k d m' w' : content m w id pn = Some d → released m w id pn k d m' w' → kept m w m' w'.
Proof.
  intros Hd R id' pn' d' Hd'. destruct (decide ((id', pn') = (id, pn))) as [E|Hne].
  - injection E as -> ->. rewrite Hd in Hd'. injection Hd' as <-. exact (rl_content _ _ _ _ _ _ _ _ R).
  - by apply (rl_kept _ _ _ _ _ _ _ _ R).
Qed.

(** What every operation leaves behind. *)
Record file_kept m w m' w' : Prop := {
  fk_ready : ready m' w';
  fk_pins : same_pins m m';
  fk_ext : extends w w'
}.

Lemma file_kept_refl m w : ready m w → file_kept m w m w.
Proof. intros Hr. by split. Qed.

Lemma no_buffer_kept m w id p m' w' :
  ready m w → id_to_buffer_pools_ w !! id = Some p → fm_all unlocked m' → no_buffer m w m' w' →
  file_kept m w m' w' ∧ kept m w m' w' ∧ ∀ j, allocated m' w' id j = allocated m w id j.
Proof.
  intros R Hid Hl [N1 N2 N3 N4 N5 N6 N7 N8]. split_and!; [|done|by apply (allocated_kept m w m' w' id p (rd_inv _ _ R) Hid N6 N7)].
  split; [|done|done]. split; [done|done| |done]. intros x. rewrite N8. apply R.
Qed.

(** [init] of a fresh handler. *)
Lemma fresh_init_ok m w id p pn mode log :
  ready m w → id_to_buffer_pools_ w !! id = Some p →
  ∃ rc h' m' w', handler_init xid_of t (create_page_handler ROW_FORMAT) p log pn mode (m, w) = Some ((rc, h'), (m', w')) ∧
    open_result xid_of t m w id p pn mode log (create_page_handler ROW_FORMAT) rc h' m' w'.
Proof.
  intros [R1 R2 R3 R4] Hid. unfold handler_init. cbn [ph_pool create_page_handler].
  apply (open_page_ok xid_of t Hxid m w id p pn mode log _ R1 R2 R4); [|exact Hid]. intros x. specialize (R3 x). lia.
Qed.

Lemma unused_none m w id g σ X pn i : heap_file m w id g σ X → allocated m w id pn = false → σ !! mkRID pn i = None.
Proof. intros Hf Ha. apply eq_None_not_Some. intros Hs. destruct (hp_dom _ _ _ _ _ _ Hf pn i Hs) as [_ Ha']. congruence. Qed.

(** ** Opening the page of a record *)
Definition with_page {A} (p : Ptr) (log : LogRef) pn (bad : RC → A) (body : RecordPageHandler → M Sys A) : M Sys A :=
  '(rc, ph) ← handler_init xid_of t (create_page_handler ROW_FORMAT) p log pn READ_WRITE;
  if RC.OB_FAIL rc then cleanup xid_of t ph;; mret (bad rc) else body ph.

Lemma with_page_cases {A} m w id p log g σ X pn (bad : RC → A) (body : RecordPageHandler → M Sys A) :
  ready m w → id_to_buffer_pools_ w !! id = Some p → heap_file m w id g σ X → 0 < pn →
  (∃ rc m' w', with_page p log pn bad body (m, w) = Some (bad rc, (m', w')) ∧ file_kept m w m' w' ∧ heap_file m' w' id g σ X ∧ kept m w m' w' ∧
     (rc = RC.BUFFERPOOL_NOBUF ∧ no_frame m id pn ∨ rc = RC.BUFFERPOOL_INVALID_PAGE_NUM ∧ allocated m w id pn = false)) ∨
  (∃ fp f m1 w1, with_page p log pn bad body (m, w) = body (open_handler p READ_WRITE fp log id (g_real g) ROW_FORMAT) (m1, w1) ∧
     held xid_of t m w id p pn READ_WRITE (pins m (mkFrameId id pn)) fp f m1 w1 ∧ content m w id pn = Some (data (page_ f)) ∧
     page_ok (data (page_ f)) g (λ i, σ !! mkRID pn i) ∧ allocated m w id pn = true ∧
     frame_stays m id pn fp f).
Proof.
  intros R Hid Hf Hpn. unfold with_page.
  destruct (fresh_init_ok m w id p pn READ_WRITE log R Hid) as (rc & h' & m1 & w1 & E & Ho). rewrite (exec E).
  destruct Ho as [Ha|m1 w1 Ha Hpk Hl N|fp f real m1 w1 Ha Hreal Hc Hheld Hfp].
  - left. exists RC.BUFFERPOOL_INVALID_PAGE_NUM, m, w. change (RC.OB_FAIL RC.BUFFERPOOL_INVALID_PAGE_NUM) with true. cbv iota.
    erewrite (bind_run (cleanup _ _ _)) by done. split_and!; [done|by apply file_kept_refl|done|apply kept_refl|]. by right.
  - left. destruct (no_buffer_kept m w id p m1 w1 R Hid Hl N) as (K1 & K2 & K3). exists RC.BUFFERPOOL_NOBUF, m1, w1.
    change (RC.OB_FAIL RC.BUFFERPOOL_NOBUF) with true. cbv iota. erewrite (bind_run (cleanup _ _ _)) by done.
    split_and!; [done|done|by eapply heap_file_kept|done|]. left. split; [done|]. split_and!; [done|apply N|apply N].
  - right. destruct (hp_page _ _ _ _ _ _ Hf pn Hpn Ha) as (d & Hd & Hok). rewrite Hc in Hd. injection Hd as <-.
    destruct (page_ok_real _ _ _ Hok) as [Hreal' _]. rewrite Hreal in Hreal'. injection Hreal' as ->. by exists fp, f, m1, w1.
Qed.

(** The page is released as it was. *)
Lemma release_unchanged m w id p pn mode fp f m1 w1 g σ X h :
  ready m w → heap_file m w id g σ X → held xid_of t m w id p pn mode (pins m (mkFrameId id pn)) fp f m1 w1 → 0 < pn →
  content m w id pn = Some (data (page_ f)) → ph_pool h = Some p → ph_frame h = Some fp → ph_mode h = mode →
  ∃ m2 w2, cleanup xid_of t h (m1, w1) = Some (ph_set_pool None h, (m2, w2)) ∧
    file_kept m w m2 w2 ∧ heap_file m2 w2 id g σ X ∧ kept m w m2 w2.
Proof.
  intros R Hf Hh Hpn Hc H1 H2 H3. destruct (release_ok xid_of t m w id p pn mode _ fp f m1 w1 h Hh) as (m2 & w2 & E2 & R2); [lia|done|done|done|].
  exists m2, w2. pose proof (released_kept _ _ _ _ _ _ _ _ Hc R2) as K. split_and!; [done| |by eapply heap_file_kept; [|apply R2|]|done].
  split; [by eapply released_ready_same|by eapply released_same|apply R2].
Qed.

(** The page is released with other records. *)
Lemma release_changed m w id p pn fp f m1 w1 g σ X h pg s w2 σ' X' :
  ready m w → heap_file m w id g σ X → held xid_of t m w id p pn READ_WRITE (pins m (mkFrameId id pn)) fp f m1 w1 → 0 < pn →
  allocated m w id pn = true → stored_page w1 f (fm_stats m1) pg s w2 →
  ph_pool h = Some p → ph_frame h = Some fp → ph_mode h = READ_WRITE →
  page_ok (data pg) g (λ i, σ' !! mkRID pn i) → (∀ r, rid_page_num r ≠ pn → σ' !! r = σ !! r) →
  (∀ x, x ≠ pn → x ∈ X' ↔ x ∈ X) → (∀ i, 0 ≤ i < g_capacity g → σ' !! mkRID pn i = None → pn ∈ X') →
  ∃ m3 w3, cleanup xid_of t h (upd m1 fp (rewritten f pg) s, w2) = Some (ph_set_pool None h, (m3, w3)) ∧
    file_kept m w m3 w3 ∧ heap_file m3 w3 id g σ' X' ∧ kept_except id pn m w m3 w3.
Proof.
  intros R Hf Hh Hpn Ha Hst H1 H2 H3 Hok Ho HX Hfree.
  pose proof (held_write xid_of t _ _ _ _ _ _ _ _ _ _ _ _ _ Hh ltac:(lia) Hst) as Hh2.
  destruct (release_ok xid_of t m w id p pn READ_WRITE _ fp _ _ w2 h Hh2) as (m3 & w3 & E3 & R3); [lia|done|done|done|].
  exists m3, w3. split_and!; [done| |by eapply heap_file_store|apply R3].
  split; [by eapply released_ready_same|by eapply released_same|apply R3].
Qed.

Lemma upd_slot_insert pn i o σ :
  ∀ j, upd_slot i o (λ j, σ !! mkRID pn j) j = partial_alter (λ _, o) (mkRID pn i) σ !! mkRID pn j.
Proof.
  intros j. unfold upd_slot. case_decide as E; [subst; by rewrite lookup_partial_alter_eq|]. rewrite lookup_partial_alter_ne by congruence. done.
Qed.

Ltac code x b := change (RC.OB_FAIL x) with b; change (RC.OB_SUCC x) with (negb b); cbn [negb]; cbv iota.

(** ** [get_record] *)
Lemma file_get_ok m w id p log g σ X tm rid :
  ready m w → id_to_buffer_pools_ w !! id = Some p → heap_file m w id g σ X → 0 < rid_page_num rid → 0 ≤ rid_slot_num rid →
  ∃ rc r m' w', file_get_record xid_of t rid (row_file p log X tm) (m, w) = Some ((rc, r), (m', w')) ∧
    file_kept m w m' w' ∧ heap_file m' w' id g σ X ∧ kept m w m' w' ∧
    (rc = RC.BUFFERPOOL_NOBUF ∧ r = None ∧ no_frame m id (rid_page_num rid) ∨
     match σ !! rid with
     | Some bs => rc = RC.SUCCESS ∧ r = Some (mkRec rid bs)
     | None => rc ≠ RC.SUCCESS ∧ r = None
     end).
Proof.
  intros R Hid Hf Hpn Hsl. destruct rid as [pn i]. cbn [rid_page_num rid_slot_num] in *. unfold file_get_record. cbn [fh_pool fh_log fh_format row_file].
  do 2 exec_deref. cbn [rid_page_num].
  match goal with |- context [(handler_init _ _ _ _ _ _ _ ≫= ?k) _] =>
    change (handler_init xid_of t (create_page_handler ROW_FORMAT) p log pn READ_WRITE ≫= k) with
      (with_page p log pn (λ rc, (rc, None : option Rec)) (λ ph, k (RC.SUCCESS, ph))) end.
  match goal with |- context [with_page p log pn ?bad ?body] =>
    destruct (with_page_cases m w id p log g σ X pn bad body R Hid Hf Hpn) as
      [(rc & m1 & w1 & E & K1 & K2 & K3 & Hrc)|(fp & f & m1 & w1 & E & Hh & Hc & Hok & Ha & _)]; rewrite E end.
  { exists rc, None, m1, w1. split_and!; try done. destruct Hrc as [[-> Hn]|[-> Hn]]; [by left|]. right. by rewrite (unused_none _ _ _ _ _ _ _ _ Hf Hn). }
  cbv beta iota. code RC.SUCCESS false. unfold get_record. cbn [ph_format open_handler].
  set (h := open_handler p READ_WRITE fp log id (g_real g) ROW_FORMAT).
  destruct (held_frame xid_of t _ _ _ _ _ _ _ _ _ _ _ Hh) as (Hm & _).
  pose proof (row_get_raw m1 w1 fp f (fm_stats m1) g _ (mkRID pn i) Hok Hsl h eq_refl) as Eg. rewrite <-Hm in Eg.
  rewrite (exec Eg). clear Eg. cbn [rid_slot_num].
  destruct (release_unchanged m w id p pn READ_WRITE fp f m1 w1 g σ X h R Hf Hh Hpn Hc eq_refl eq_refl eq_refl) as (m2 & w2 & E2 & K1 & K2 & K3).
  destruct (decide (g_capacity g ≤ i)) as [Hcap|Hcap]; [|destruct (σ !! mkRID pn i) as [bs|] eqn:Hb]; cbv beta iota.
  - code RC.RECORD_INVALID_RID true. rewrite (exec E2). eexists _, _, m2, w2. split; [reflexivity|]. split_and!; try done. right.
    by rewrite (slot_outside _ _ _ Hok i) by lia.
  - code RC.SUCCESS false. exec_deref. cbn [rec_data].
    assert (bs ≠ []) as Hne.
    { destruct (read_record_eq _ _ _ Hok i bs Hb) as (_ & _ & Hlen). destruct (page_ok_real _ _ _ Hok). intros ->. cbn in Hlen. lia. }
    rewrite bool_decide_eq_false_2 by done. erewrite (bind_run (assertb _)) by done. rewrite (exec E2).
    eexists _, _, m2, w2. split; [reflexivity|]. split_and!; try done. by right.
  - code RC.RECORD_NOT_EXIST true. rewrite (exec E2). eexists _, _, m2, w2. split; [reflexivity|]. split_and!; try done. by right.
Qed.

(** ** [visit_record] *)
Lemma file_visit_ok m w id p log g σ X tm rid (updater : Rec → bool * list Z) :
  ready m w → id_to_buffer_pools_ w !! id = Some p → heap_file m w id g σ X → 0 < rid_page_num rid → 0 ≤ rid_slot_num rid →
  (∀ bs, σ !! rid = Some bs → (updater (mkRec rid bs)).1 = true →
     chars (updater (mkRec rid bs)).2 ∧ g_real g ≤ Z.of_nat (length (updater (mkRec rid bs)).2)) →
  ∃ rc m' w' σ', file_visit_record xid_of t rid updater (row_file p log X tm) (m, w) = Some (rc, (m', w')) ∧
    file_kept m w m' w' ∧ heap_file m' w' id g σ' X ∧ kept_except id (rid_page_num rid) m w m' w' ∧
    (rc = RC.BUFFERPOOL_NOBUF ∧ no_frame m id (rid_page_num rid) ∧ σ' = σ ∨
     match σ !! rid with
     | Some bs => rc = RC.SUCCESS ∧
         σ' = if (updater (mkRec rid bs)).1 then <[rid := take (Z.to_nat (g_real g)) (updater (mkRec rid bs)).2]> σ else σ
     | None => rc ≠ RC.SUCCESS ∧ σ' = σ
     end).
Proof.
  intros R Hid Hf Hpn Hsl Hup. destruct rid as [pn i]. cbn [rid_page_num rid_slot_num] in *. unfold file_visit_record.
  cbn [fh_pool fh_log fh_format row_file]. do 2 exec_deref. cbn [rid_page_num].
  match goal with |- context [(handler_init _ _ _ _ _ _ _ ≫= ?k) _] =>
    change (handler_init xid_of t (create_page_handler ROW_FORMAT) p log pn READ_WRITE ≫= k) with
      (with_page p log pn (λ rc, rc) (λ ph, k (RC.SUCCESS, ph))) end.
  assert (∀ m' w', kept m w m' w' → kept_except id pn m w m' w') as Hex by (intros m' w' K id' pn' d _; apply K).
  match goal with |- context [with_page p log pn ?bad ?body] =>
    destruct (with_page_cases m w id p log g σ X pn bad body R Hid Hf Hpn) as
      [(rc & m1 & w1 & E & K1 & K2 & K3 & Hrc)|(fp & f & m1 & w1 & E & Hh & Hc & Hok & Ha & _)]; rewrite E end.
  { exists rc, m1, w1, σ. split_and!; [done|done|done|by apply Hex|]. destruct Hrc as [[-> Hn]|[-> Hn]]; [by left|]. right. by rewrite (unused_none _ _ _ _ _ _ _ _ Hf Hn). }
  cbv beta iota. code RC.SUCCESS false. unfold get_record. cbn [ph_format open_handler].
  set (h := open_handler p READ_WRITE fp log id (g_real g) ROW_FORMAT).
  destruct (held_frame xid_of t _ _ _ _ _ _ _ _ _ _ _ Hh) as (Hm & Hfid & Hst & Hpw & Hs & Hlog).
  pose proof (row_get_raw m1 w1 fp f (fm_stats m1) g _ (mkRID pn i) Hok Hsl h eq_refl) as Eg. rewrite <-Hm in Eg.
  rewrite (exec Eg). clear Eg. cbn [rid_slot_num].
  destruct (release_unchanged m w id p pn READ_WRITE fp f m1 w1 g σ X h R Hf Hh Hpn Hc eq_refl eq_refl eq_refl) as (m2 & w2 & E2 & K1 & K2 & K3).
  destruct (decide (g_capacity g ≤ i)) as [Hcap|Hcap]; [|destruct (σ !! mkRID pn i) as [bs|] eqn:Hb]; cbv beta iota.
  - code RC.RECORD_INVALID_RID true. rewrite (exec E2). eexists _, m2, w2, σ. split; [reflexivity|].
    split_and!; [done|done|by apply Hex|]. right. by rewrite (slot_outside _ _ _ Hok i) by lia.
  - code RC.SUCCESS false. exec_deref. cbn [rec_data].
    assert (bs ≠ []) as Hne.
    { destruct (read_record_eq _ _ _ Hok i bs Hb) as (_ & _ & Hlen). destruct (page_ok_real _ _ _ Hok). intros ->. cbn in Hlen. lia. }
    rewrite bool_decide_eq_false_2 by done. erewrite (bind_run (assertb _)) by done. specialize (Hup bs eq_refl).
    destruct (updater (mkRec (mkRID pn i) bs)) as [u rec]. cbn [fst snd] in *. destruct u.
    + destruct (Hup eq_refl) as [Hch Hlen].
      destruct (row_update_some m1 w1 id p fp f (fm_stats m1) log ROW_FORMAT g _ (mkRID pn i) Hok Hst Hpw Hs Hlog Hsl bs rec Hb Hch Hlen)
        as (pg & s & w3 & E3 & Hsp & Hok3). rewrite <-Hm in E3. unfold update_record. cbn [ph_format h open_handler].
      rewrite (exec E3). set (σ' := <[mkRID pn i := take (Z.to_nat (g_real g)) rec]> σ).
      destruct (release_changed m w id p pn fp f m1 w1 g σ X h pg s w3 σ' X R Hf Hh Hpn Ha Hsp eq_refl eq_refl eq_refl) as (m4 & w4 & E4 & L1 & L2 & L3).
      * eapply page_ok_ext; [|exact Hok3]. intros j. apply upd_slot_insert.
      * intros r Hr. unfold σ'. rewrite lookup_insert_ne; [done|]. intros <-. done.
      * done.
      * intros j Hj Hn. apply (hp_free _ _ _ _ _ _ Hf pn j Hpn Ha Hj). unfold σ' in Hn. by apply lookup_insert_None in Hn as [? _].
      * rewrite (exec E4). eexists _, m4, w4, σ'. split; [reflexivity|]. split_and!; try done. by right.
    + erewrite (bind_run (mret _)) by done. rewrite (exec E2). eexists _, m2, w2, σ. split; [reflexivity|].
      split_and!; [done|done|by apply Hex|]. by right.
  - code RC.RECORD_NOT_EXIST true. rewrite (exec E2). eexists _, m2, w2, σ. split; [reflexivity|].
    split_and!; [done|done|by apply Hex|]. by right.
Qed.

(** ** [delete_record] *)
Lemma dispose_latches m w p pn r m' w' :
  fm_all unlocked m → dispose_page p pn (m, w) = Some (r, (m', w')) → fm_all unlocked m'.
Proof. intros Ha E. exact (keeps_dispose_page unlocked unlocked_latch p pn (m, w) r (m', w') E Ha). Qed.

(** An empty record page is given back. *)
Lemma dispose_empty_ok m w id p g σ X pn :
  ready m w → id_to_buffer_pools_ w !! id = Some p → heap_file m w id g σ X → 0 < pn → allocated m w id pn = true →
  (∀ i, σ !! mkRID pn i = None) →
  ∃ rc m' w', dispose_page p pn (m, w) = Some (rc, (m', w')) ∧ file_kept m w m' w' ∧
    heap_file m' w' id g σ (if RC.OB_FAIL rc then {[pn]} ∪ X ∖ {[pn]} else X ∖ {[pn]}) ∧
    (rc = RC.SUCCESS → allocated m' w' id pn = false) ∧ kept_without id pn m w m' w'.
Proof.
  intros R Hid Hf Hpn Ha Hempty. destruct (opened_intro m w id p (rd_inv _ _ R) Hid) as (b & h & f & n & a & O).
  destruct (dispose_page_ok m w id p b h f n a pn (rd_wf _ _ R) (rd_inv _ _ R)) as (rc & m' & w' & E & D).
  { apply (pins_bounded_of m (2 ^ 30)); [apply R|apply R|lia]. } { done. }
  exists rc, m', w'. split; [done|]. pose proof (dispose_latches _ _ _ _ _ _ _ (rd_latch _ _ R) E) as Hl.
  assert (kept m w m' w' → (∀ j, allocated m' w' id j = allocated m w id j) →
    heap_file m' w' id g σ ({[pn]} ∪ X ∖ {[pn]})) as Hsame.
  { intros K A. destruct (heap_file_kept _ _ m' w' _ _ _ _ Hf A K) as [H1 H2 H3 H4]. split; try done.
    - intros x Hx. destruct (decide (x = pn)) as [->|Hne]; [by rewrite A|apply H3; set_solver].
    - intros x i Hx1 Hx2 Hi Hn. destruct (decide (x = pn)) as [->|Hne]; [set_solver|]. pose proof (H4 x i Hx1 Hx2 Hi Hn). set_solver. }
  assert (kept m w m' w' → kept_without id pn m w m' w') as Hkw by (intros K id' pn' d _ _; apply K).
  destruct D as [Hz|Hz Ha'|m' w' _ _ Hp W' I' X' K' A' S'|rc m' w' _ _ Hrc W' I' X' K' A' S'|m' w' _ _ Hp W' I' X' Hmiss A' K' S'];
    [lia|congruence|..].
  1,2: unfold RC.OB_FAIL; rewrite bool_decide_eq_true_2 by done; split_and!; [|by apply Hsame|done|by apply Hkw].
  1,2: split; [|done|done]; split; [done|done| |done]; intros x; rewrite S'; apply R.
  code RC.SUCCESS false. split_and!; [|..|done].
  - split; [|done|done]. split; [done|done| |done]. intros x. rewrite S'. apply R.
  - destruct Hf as [H1 H2 H3 H4]. unfold minus_page in A'. split.
    + intros x Hx. rewrite A'. case_decide as Hne; [done|]. intros Hax. destruct (H1 x Hx Hax) as (d & Hd & Hok). exists d.
      split; [|done]. apply K'; [intros [=]; lia|congruence|done].
    + intros x i Hs. rewrite A'. case_decide as Hne; [subst; rewrite Hempty in Hs; by destruct Hs|]. by eapply H2.
    + intros x Hx. rewrite A'. rewrite decide_False by set_solver. apply H3. set_solver.
    + intros x i Hx. rewrite A'. case_decide as Hne; [done|]. intros Hax Hi Hn. pose proof (H4 x i Hx Hax Hi Hn). set_solver.
  - intros _. rewrite A'. unfold minus_page. by rewrite decide_True.
Qed.

Lemma file_kept_trans m1 w1 m2 w2 m3 w3 : file_kept m1 w1 m2 w2 → file_kept m2 w2 m3 w3 → file_kept m1 w1 m3 w3.
Proof. intros [A1 A2 A3] [B1 B2 B3]. split; [done|by etrans|by etrans]. Qed.

(** A page whose last record was deleted is given back if nobody else has it
    pinned and the log takes the record; otherwise it stays, with free slots. *)
Lemma file_delete_ok m w id p log g σ X tm rid :
  ready m w → id_to_buffer_pools_ w !! id = Some p → heap_file m w id g σ X → 0 < rid_page_num rid → 0 ≤ rid_slot_num rid < g_capacity g →
  ∃ rc h' m' w' σ', file_delete_record xid_of t uninit rid (row_file p log X tm) (m, w) = Some ((rc, h'), (m', w')) ∧
    file_kept m w m' w' ∧ h' = row_file p log (free_pages_ h') tm ∧ heap_file m' w' id g σ' (free_pages_ h') ∧
    kept_without id (rid_page_num rid) m w m' w' ∧
    (rc = RC.BUFFERPOOL_NOBUF ∧ no_frame m id (rid_page_num rid) ∧ σ' = σ ∨
     match σ !! rid with
     | Some _ => rc = RC.SUCCESS ∧ σ' = delete rid σ
     | None => rc ≠ RC.SUCCESS ∧ σ' = σ
     end).
Proof.
  intros R Hid Hf Hpn Hsl. destruct rid as [pn i]. cbn [rid_page_num rid_slot_num] in *. unfold file_delete_record.
  cbn [fh_pool fh_log fh_format row_file]. do 2 exec_deref. cbn [rid_page_num].
  match goal with |- context [(handler_init _ _ _ _ _ _ _ ≫= ?k) _] =>
    change (handler_init xid_of t (create_page_handler ROW_FORMAT) p log pn READ_WRITE ≫= k) with
      (with_page p log pn (λ rc, (rc, row_file p log X tm)) (λ ph, k (RC.SUCCESS, ph))) end.
  assert (∀ m' w', kept m w m' w' → kept_without id pn m w m' w') as Hex by (intros m' w' K id' pn' d _ _; apply K).
  match goal with |- context [with_page p log pn ?bad ?body] =>
    destruct (with_page_cases m w id p log g σ X pn bad body R Hid Hf Hpn) as
      [(rc & m1 & w1 & E & K1 & K2 & K3 & Hrc)|(fp & f & m1 & w1 & E & Hh & Hc & Hok & Ha & _)]; rewrite E end.
  { exists rc, (row_file p log X tm), m1, w1, σ. split_and!; [done|done|done|done|by apply Hex|].
    destruct Hrc as [[-> Hn]|[-> Hn]]; [by left|]. right. by rewrite (unused_none _ _ _ _ _ _ _ _ Hf Hn). }
  cbv beta iota. code RC.SUCCESS false. set (h := open_handler p READ_WRITE fp log id (g_real g) ROW_FORMAT).
  destruct (held_frame xid_of t _ _ _ _ _ _ _ _ _ _ _ Hh) as (Hm & Hfid & Hst & Hpw & Hs & Hlog). unfold delete_record.
  destruct (σ !! mkRID pn i) as [bs|] eqn:Hb.
  - destruct (row_delete_some uninit m1 w1 id p fp f (fm_stats m1) log ROW_FORMAT g _ (mkRID pn i) Hok Hst Hpw Hs Hlog ltac:(cbn; lia) bs Hb)
      as (pg & s & w3 & E3 & Hsp & Hok3). rewrite <-Hm in E3. rewrite (exec E3). code RC.SUCCESS false.
    set (σ' := delete (mkRID pn i) σ).
    assert (page_ok (data pg) g (λ j, σ' !! mkRID pn j)) as Hok' by (eapply page_ok_ext; [|exact Hok3]; intros j; apply upd_slot_insert).
    destruct (is_empty_raw m1 w3 fp h (rewritten f pg) s g _ eq_refl Hok') as (e & Ee & He). rewrite (exec Ee).
    destruct (release_changed m w id p pn fp f m1 w1 g σ X h pg s w3 σ' ({[pn]} ∪ X) R Hf Hh Hpn Ha Hsp eq_refl eq_refl eq_refl) as (m4 & w4 & E4 & L1 & L2 & L3);
      [done|intros r Hr; unfold σ'; rewrite lookup_delete_ne; [done|]; by intros <-|intros x Hx; by apply page_added_ne|intros; apply page_added|].
    assert (kept_without id pn m w m4 w4) as K4 by (intros id' pn' d _; apply L3).
    rewrite (exec E4). code RC.SUCCESS false. destruct e.
    + assert (allocated m4 w4 id pn = true) as Ha4 by (apply (hp_sub _ _ _ _ _ _ L2), page_added).
      destruct (dispose_empty_ok m4 w4 id p g σ' ({[pn]} ∪ X) pn) as (rc & m5 & w5 & E5 & F5 & H5 & _ & K5);
        [apply L1|by rewrite (ex_ids _ _ (fk_ext _ _ _ _ L1))|done|done|done|by apply He|].
      rewrite (exec E5). eexists _, _, m5, w5, σ'. split; [reflexivity|]. cbn [free_pages_ set_free_pages row_file].
      split_and!; [by eapply file_kept_trans|done| | |by right].
      * by rewrite page_readded in H5.
      * intros id' pn' d Hn1 Hn2 Hd. apply K5; [done|done|]. by apply K4.
    + eexists _, _, m4, w4, σ'. split; [reflexivity|]. cbn [free_pages_ set_free_pages row_file]. split_and!; try done. by right.
  - pose proof (row_delete_none uninit m1 w1 id p fp f (fm_stats m1) log ROW_FORMAT g _ (mkRID pn i) Hok ltac:(cbn; lia) ltac:(cbn; lia) Hb) as E3.
    rewrite <-Hm in E3. rewrite (exec E3). code RC.RECORD_NOT_EXIST true. erewrite (bind_run (mret false)) by done.
    destruct (release_unchanged m w id p pn READ_WRITE fp f m1 w1 g σ X h R Hf Hh Hpn Hc eq_refl eq_refl eq_refl) as (m2 & w2 & E2 & K1 & K2 & K3).
    rewrite (exec E2). code RC.RECORD_NOT_EXIST true. eexists _, _, m2, w2, σ. split; [reflexivity|].
    split_and!; [done|done|done|by apply Hex|]. by right.
Qed.

(** ** [insert_record] *)
(** The search through [free_pages_]. *)
Inductive find_result m w (id : Z) (p : Ptr) (log : LogRef) (g : Geometry) σ : RC * bool * RecordPageHandler * gset PageNum → FM → World → Prop :=
  | find_short h X' m' w' : ph_pool h = None → file_kept m w m' w' → heap_file m' w' id g σ X' → kept m w m' w' →
      find_result m w id p log g σ (RC.BUFFERPOOL_NOBUF, false, h, X') m' w'
  | find_none h m' w' : ph_pool h = None → ph_format h = ROW_FORMAT → file_kept m w m' w' → heap_file m' w' id g σ ∅ → kept m w m' w' →
      find_result m w id p log g σ (RC.SUCCESS, false, h, ∅) m' w'
  | find_page X' pn fp f mb wb m' w' : file_kept m w mb wb → heap_file mb wb id g σ X' → kept m w mb wb → pn ∈ X' → 0 < pn →
      allocated mb wb id pn = true → held xid_of t mb wb id p pn READ_WRITE (pins mb (mkFrameId id pn)) fp f m' w' →
      page_ok (data (page_ f)) g (λ i, σ !! mkRID pn i) → (∃ i, 0 ≤ i < g_capacity g ∧ σ !! mkRID pn i = None) →
      find_result m w id p log g σ (RC.SUCCESS, true, open_handler p READ_WRITE fp log id (g_real g) ROW_FORMAT, X') m' w'.

Lemma find_result_trans m w m1 w1 id p log g σ r m' w' :
  file_kept m w m1 w1 → kept m w m1 w1 → find_result m1 w1 id p log g σ r m' w' → find_result m w id p log g σ r m' w'.
Proof.
  intros F K [h X' m2 w2 H1 H2 H3 H4|h m2 w2 H1 H2 H3 H4 H5|X' pn fp f mb wb m2 w2 H1 H2 H3].
  - apply find_short; [done|by eapply file_kept_trans|done|by eapply kept_trans].
  - apply find_none; [done|done|by eapply file_kept_trans|done|by eapply kept_trans].
  - apply (find_page m w id p log g σ X' pn fp f mb wb m2 w2); try done; [by eapply file_kept_trans|by eapply kept_trans].
Qed.

(** A full page leaves the set. *)
Lemma heap_file_full m w id g σ X pn :
  heap_file m w id g σ X → (∀ i, 0 ≤ i < g_capacity g → is_Some (σ !! mkRID pn i)) → heap_file m w id g σ (X ∖ {[pn]}).
Proof.
  intros [H1 H2 H3 H4] Hfull. split; try done; [intros x [Hx _]%elem_of_difference; by apply H3|].
  intros x i Hx Ha Hi Hn. apply elem_of_difference. split; [by eapply H4|]. intros ->%elem_of_singleton.
  destruct (Hfull i Hi). congruence.
Qed.

Lemma find_page_ok n m w id p log g σ X h :
  ph_pool h = None → ph_format h = ROW_FORMAT → ready m w → id_to_buffer_pools_ w !! id = Some p → heap_file m w id g σ X →
  (size X < n)%nat →
  ∃ r m' w', find_page_loop xid_of t n p log h X (m, w) = Some (r, (m', w')) ∧ find_result m w id p log g σ r m' w'.
Proof.
  revert m w X h. induction n as [|n IH]; intros m w X h Hp Hfmt R Hid Hf Hn; [lia|]. cbn [find_page_loop].
  case_bool_decide as HX.
  { subst. eexists _, m, w. split; [reflexivity|]. apply find_none; [done|done|by apply file_kept_refl|done|apply kept_refl]. }
  pose proof (begin_of_elem X HX) as Hin. set (pn := begin_of X) in *. destruct (hp_sub _ _ _ _ _ _ Hf pn Hin) as [Hpn Ha].
  unfold handler_init. rewrite Hp. pose proof R as [R1 R2 R3 R4].
  destruct (open_page_ok xid_of t Hxid m w id p pn READ_WRITE log h R1 R2 R4) as (rc & h1 & m1 & w1 & E & Ho);
    [intros x; specialize (R3 x); lia|done|]. rewrite (exec E).
  destruct Ho as [Ha'|m1 w1 _ _ Hl N|fp f real m1 w1 _ Hreal Hc Hh _]; [congruence|..].
  - code RC.BUFFERPOOL_NOBUF true. destruct (no_buffer_kept m w id p m1 w1 R Hid Hl N) as (K1 & K2 & K3).
    eexists _, m1, w1. split; [reflexivity|]. apply find_short; [done|done|by eapply heap_file_kept|done].
  - code RC.SUCCESS false. rewrite Hfmt. destruct (hp_page _ _ _ _ _ _ Hf pn Hpn Ha) as (d & Hd & Hok). rewrite Hc in Hd. injection Hd as <-.
    destruct (page_ok_real _ _ _ Hok) as [Hreal' _]. rewrite Hreal in Hreal'. injection Hreal' as ->.
    set (h1 := open_handler p READ_WRITE fp log id (g_real g) ROW_FORMAT).
    destruct (held_frame xid_of t _ _ _ _ _ _ _ _ _ _ _ Hh) as (Hm & _).
    destruct (is_full_raw m1 w1 fp h1 f (fm_stats m1) g _ eq_refl Hok) as (full & Ef & Hfull). rewrite <-Hm in Ef.
    rewrite (exec Ef). destruct full; cbn [negb].
    + destruct (release_unchanged m w id p pn READ_WRITE fp f m1 w1 g σ X h1 R Hf Hh Hpn Hc eq_refl eq_refl eq_refl) as (m2 & w2 & E2 & K1 & K2 & K3).
      rewrite (exec E2). destruct (IH m2 w2 (X ∖ {[pn]}) (ph_set_pool None h1)) as (r & m3 & w3 & E3 & Hr);
        [done|done|apply K1|by rewrite (ex_ids _ _ (fk_ext _ _ _ _ K1))|by apply heap_file_full; [|apply Hfull]|pose proof (page_removed_size pn X Hin); lia|].
      exists r, m3, w3. split; [exact E3|]. by eapply find_result_trans.
    + eexists _, m1, w1. split; [reflexivity|]. pose proof (file_kept_refl m w R). pose proof (kept_refl m w).
      apply (find_page m w id p log g σ X pn fp f m w); try done.
      destruct (decide (Forall (λ i, is_Some (σ !! mkRID pn i)) (seqZ 0 (g_capacity g)))) as [Hall|Hex].
      * exfalso. assert (false = true); [|done]. apply Hfull. intros i Hi. rewrite list.Forall_forall in Hall. apply Hall, elem_of_seqZ. lia.
      * apply not_Forall_Exists, list.Exists_exists in Hex as (i & Hi%elem_of_seqZ & Hno); [|apply _]. exists i. split; [lia|].
        by apply eq_None_not_Some.
Qed.
End record_file.
