(* ===== verification/RecordInsert.v ===== *)
(** * Inserting into a heap file

    [RecordFileHandler::insert_record] as a whole: the record goes to a page of
    [free_pages_] with a free slot, or to a new page that is allocated, laid out
    and logged first. *)

From S2P Require Import Prelude Types Bytes Crc Os PageIO Bitmap LruCache MemPool Stats Latch Frame Replacement FrameManager FrameSafety BufferPool DoubleWrite DiskBufferPool StorageSafety PoolSafety PageAccess FileHeader PageAlloc PageDispose LatchKept RecordPage RecordManager RecordSafety RecordFile.
Local Open Scope Z_scope.

Section record_insert.
Context {P L : Type} `{!ReplacementPolicy P} `{!PolicyLaws P} `{!LogHandler L} `{!LogLaws L} `{HOrd : HashOrder} `{BOf : !BeginOf}.
Context (xid_of : thread_id → Z) (t : thread_id) (Hxid : xid_of t ≠ 0).
Notation World := (World L).
Notation Sys := (Sys L P).
Notation FM := (BPFrameManager (P:=P)).
Implicit Types (w : World) (pn : PageNum) (m : FM) (fp : Ptr) (f : Frame) (σ : gmap RID (list Z)) (X : gset PageNum).

(** ** The layout of a new page *)
Lemma fill_empty_page_raw m w id p pn fp f s log real0 real g tm :
  page_geometry real 0 = Some g → 0 < real < 2 ^ 30 → page_wf (page_ f) → log_ok (w_log w) → log_accepts (L:=L) →
  ∃ pg w', fill_empty_page (open_handler p READ_WRITE fp log id real0 ROW_FORMAT) pn real tm (upd m fp f s, w) =
      Some ((RC.SUCCESS, open_handler p READ_WRITE fp log id (g_real g) ROW_FORMAT), (upd m fp (set_page pg f) s, w')) ∧
    calm w w' ∧ page_wf pg ∧ page_ok (data pg) g (λ _, None).
Proof.
  intros Hg Hr Hpw Hlog Hacc. destruct Hpw as [P1 P2 P3 P4].
  destruct (init_layout_ok (data (page_ f)) real 0 P3 P4 Hr ltac:(lia)) as (d & g' & E & Hg' & Hok & Hreal & _).
  rewrite Hg in Hg'. injection Hg' as <-. rewrite Hreal. unfold fill_empty_page.
  set (h := open_handler p READ_WRITE fp log id real ROW_FORMAT).
  change (with_log_size real (open_handler p READ_WRITE fp log id real0 ROW_FORMAT)) with h. cbv zeta.
  assert (page_columns h tm = []) as -> by (by destruct tm).
  rewrite (exec (page_data_raw m fp h eq_refl w f s)). cbn [length]. change (Z.of_nat 0) with 0. rewrite E.
  exec_deref. rewrite (page_capacity_eq _ _ _ Hok). exec_deref.
  cbn [field_lens]. exec_deref. cbn [column_ends fmap list_fmap concat store_column_index].
  exec_deref. rewrite (exec (put_page_data_raw m fp h eq_refl w f s d)).
  rewrite (exec (handler_frame_raw m fp h eq_refl w _ s)).
  destruct (log_init_raw m fp log id real ROW_FORMAT pn [] w (with_data d f) s Hlog) as (rc & pg & w' & E2 & [G1 G2 G3 G4] & Ha).
  cbn [ph_log h open_handler]. rewrite (exec E2), (Ha Hacc). change (RC.OB_FAIL RC.SUCCESS) with false. cbv iota.
  exists pg, w'. destruct (page_ok_data _ _ _ Hok) as [Hl Hc]. cbn in G2, G3, G4. split_and!; [done|done| |by rewrite G2].
  split; [by apply G4|by rewrite G3|by rewrite G2|by rewrite G2].
Qed.

Lemma unpin_raw m w fp f s :
  stats_ f = true → 1 < pin_count_ f < 2 ^ 31 → 0 < s current_pinned_frames →
  ∃ s', fm_do (frame_unpin fp) (upd m fp f s, w) = Some (pin_count_ f - 1, (upd m fp (set_pin_count (pin_count_ f - 1) f) s', w)) ∧
    s' current_pinned_frames = s current_pinned_frames ∧ s' dirty_pages_current = s dirty_pages_current.
Proof.
  intros Hst Hp Hc. destruct (unpin_effect f s Hst) as (s' & E & H1 & H2); [lia|lia|done|]. exists s'. split_and!; [|rewrite H1, (proj2 (Z.ltb_lt _ _)) by lia; cbn; lia|done].
  rewrite (fm_do_eq _ _ w _ _ (frame_unpin_eq fp f _ _ _ (upd m fp f s) (heap_upd m fp f s) E)). by rewrite upd_upd.
Qed.

(** One pin less on a page that is held. *)
Lemma held_unpin m0 w0 id p pn mode k fp f m w :
  held xid_of t m0 w0 id p pn mode (k + 1) fp f m w → 0 ≤ k →
  let f' := set_pin_count (k + 1) f in
  held xid_of t m0 w0 id p pn mode k fp f' (upd m fp f' (fm_stats m)) w.
Proof.
  intros [H1 H2 H3 H4 H5 H6 H7 H8 H9 H10 H11 H12 H13] Hk f'. pose proof (cached_frame _ _ _ _ H1 H4 H5) as [C1 C2 C3 C4].
  assert (touched m w fp f' (upd m fp f' (fm_stats m))) as T.
  { apply (touch_upd m w (mkFrameId id pn) fp f); try done; [by split; cbn; try done; lia|cbn; lia|].
    unfold pinned. rewrite (proj2 (Z.ltb_lt _ _)) by lia. cbn. lia. }
  split; try done; [apply T|apply T|apply T| | | |].
  - intros x Hx. rewrite (touched_pins m w _ fp _ _ H1 H4 T x Hx). by apply H8.
  - by apply (touched_unlocked _ _ _ _ _ T).
  - intros j. rewrite (touched_alloc m w fp f f' _ w id p H2 H3 H5 T (reflexivity w) eq_refl). apply H12.
  - intros id' pn' d Hne Hd. by apply T, H13.
Qed.

(** ** A new page *)
(** A page that was not in use has been taken and is of no use to anybody. *)
Definition leaked m w (id : Z) m' w' : Prop :=
  ∃ i, 0 < i ∧ allocated m w id i = false ∧ only_added id i m w m' w'.

(** The ends of [allocate_page], as the insertion sees them. *)
Lemma allocate_cases m w id p :
  ready m w → id_to_buffer_pools_ w !! id = Some p →
  (∃ i fp m' w', allocate_page p (m, w) = Some ((RC.SUCCESS, Some fp), (m', w')) ∧ 0 < i ∧ new_page m w id i fp m' w' ∧ fm_all unlocked m') ∨
  (∃ rc m' w', allocate_page p (m, w) = Some ((rc, None), (m', w')) ∧ rc ≠ RC.SUCCESS ∧ file_kept m w m' w' ∧ kept_but id m w m' w' ∧
     ((∀ j, allocated m' w' id j = allocated m w id j) ∨ leaked m w id m' w')).
Proof.
  intros R Hid. destruct (opened_intro m w id p (rd_inv _ _ R) Hid) as (b & h & f & n & a & O).
  destruct (allocate_page_ok m w id p b h f n a (rd_wf _ _ R) (rd_inv _ _ R)) as (rc & r & m' & w' & E & Hres);
    [apply (pins_bounded_of m (2 ^ 30)); [apply R|apply R|lia]|done|].
  pose proof (keeps_allocate_page unlocked unlocked_new unlocked_latch p (m, w) _ _ E (rd_latch _ _ R)) as Hl. cbn [fst] in Hl.
  assert (∀ m' w', fm_all unlocked m' → fm_wf m' → sys_inv m' w' → extends w w' → same_pins m m' → file_kept m w m' w') as Hk.
  { intros m1 w1 H1 H2 H3 H4 H5. split; [|done|done]. split; [done|done| |done]. intros x. rewrite H5. apply R. }
  assert (∀ m' w', kept m w m' w' → kept_but id m w m' w') as Hkb by (intros m1 w1 K id' pn d _; apply K).
  assert (∀ w', calm w w' → file_kept m w m w' ∧ kept_but id m w m w' ∧ ∀ j, allocated m w' id j = allocated m w id j) as Hcalm.
  { intros w1 C. destruct (calm_inv m w w1 (rd_inv _ _ R) C) as [I' K']. split_and!; [|by apply Hkb|].
    - apply Hk; [apply R|apply R|done|apply C|done].
    - exact (proj2 (allocated_kept m w m w1 id p (rd_inv _ _ R) Hid (cm_ext _ _ C) (pins_kept_refl m))). }
  pose proof (alloc_bounds _ _ _ _ (op_ok _ _ _ _ _ _ _ _ _ O)) as [Ha0 Hn0]. pose proof (ho_range _ _ _ _ (op_ok _ _ _ _ _ _ _ _ _ O)) as Hr.
  destruct Hres as [(i & Hi & Hfree & _ & Hres)|[_ Hres]].
  - destruct Hres as [fp m' w' N|m' w' H1 H2 H3 H4 H5 H6|rc w' Hrc C].
    + left. exists i, fp, m', w'. split_and!; [done|lia|done|done].
    + right. exists RC.BUFFERPOOL_NOBUF, m', w'. split_and!; [done|done|by apply Hk|done|]. right. exists i. split; [lia|by split].
    + right. destruct (Hcalm w' C) as (K1 & K2 & K3). exists rc, m, w'. split_and!; try done. by left.
  - destruct Hres as [fp m' w' N _|_|m' w' H1 H2 H3 H4 H5 H6|rc w' Hrc C].
    + left. exists n, fp, m', w'. split_and!; [done|lia|done|done].
    + right. exists RC.BUFFERPOOL_NOBUF, m, w. split_and!; [done|done|by apply file_kept_refl|apply Hkb, kept_refl|by left].
    + right. exists RC.BUFFERPOOL_NOBUF, m', w'. split_and!; [done|done|by apply Hk|by apply Hkb|by left].
    + right. destruct (Hcalm w' C) as (K1 & K2 & K3). exists rc, m, w'. split_and!; try done. by left.
Qed.

(** [new_record_page]: the page is laid out in a frame that nobody has marked dirty
    yet; [m2] is the manager without the new layout, the frame held once. *)
Lemma new_record_page_ok m w id p log g tm h X :
  ready m w → id_to_buffer_pools_ w !! id = Some p → ph_pool h = None → ph_format h = ROW_FORMAT →
  log_accepts (L:=L) → 0 < g_real g < 2 ^ 30 → page_geometry (g_real g) 0 = Some g →
  (∃ i fp m1 w1 f m2 w2 pg s w3,
     new_record_page xid_of t p log tm (g_real g) h X (m, w) =
       Some ((RC.SUCCESS, open_handler p READ_WRITE fp log id (g_real g) ROW_FORMAT, {[i]} ∪ X), (upd m2 fp (set_page pg f) s, w3)) ∧
     0 < i ∧ new_page m w id i fp m1 w1 ∧ held xid_of t m1 w1 id p i READ_WRITE (pins m (mkFrameId id i)) fp f m2 w2 ∧
     calm w2 w3 ∧ page_wf pg ∧ page_ok (data pg) g (λ _, None) ∧
     s current_pinned_frames = fm_stats m2 current_pinned_frames ∧ s dirty_pages_current = fm_stats m2 dirty_pages_current) ∨
  (∃ rc m' w', new_record_page xid_of t p log tm (g_real g) h X (m, w) = Some ((rc, h, X), (m', w')) ∧ rc ≠ RC.SUCCESS ∧
     file_kept m w m' w' ∧ kept_but id m w m' w' ∧ ((∀ j, allocated m' w' id j = allocated m w id j) ∨ leaked m w id m' w')).
Proof.
  intros R Hid Hp Hfmt Hacc Hreal Hg. unfold new_record_page.
  destruct (allocate_cases m w id p R Hid) as [(i & fp & m1 & w1 & E & Hi & N & Hl)|(rc & m' & w' & E & Hrc & K)];
    rewrite (exec E); [left|right; exists rc, m', w'; rewrite bool_decide_eq_true_2 by done; split; [done|split; [done|exact K]]].
  pose proof N as N0. destruct N as [N1 N2 N3 N4 N5 (f1 & Hin & Hf1 & Hp1 & Hd1) N7 N8 N9]. rewrite bool_decide_eq_false_2 by (by intros []).
  exec_deref. rewrite (exec (frame_of_eq m1 w1 fp f1 Hf1)). cbv zeta.
  rewrite (ck_id _ _ (cached_frame _ _ _ _ N1 Hin Hf1)). cbn [fid_page_num]. unfold init_empty_page, handler_init. rewrite Hp.
  pose proof (pins_nonneg m (mkFrameId id i) (rd_wf _ _ R)) as Hk. pose proof (proj2 (lru_peek_elem _ _ _ (fw_keys _ N1)) Hin) as Hpk.
  destruct (open_page_ok xid_of t Hxid m1 w1 id p i READ_WRITE log h N1 N2 Hl) as (rc & h1 & m2 & w2 & E2 & Ho).
  { intros x. pose proof (rd_pins _ _ R x). destruct (decide (x = mkFrameId id i)) as [->|Hne]; [rewrite N8|rewrite N9 by done]; lia. }
  { by rewrite (ex_ids _ _ N3). }
  destruct Ho as [Ha|m2 w2 _ Hno|fp' f real m2 w2 _ _ _ Hh Hfp]; [rewrite N5, decide_True in Ha by done; done|congruence|].
  unfold frame_stays in Hfp. rewrite N8 in Hfp, Hh. rewrite Hpk in Hfp. destruct (Hfp ltac:(lia)) as [[= <-] _]. rewrite Hfmt in E2.
  destruct (held_frame xid_of t _ _ _ _ _ _ _ _ _ _ _ Hh) as (Hm & Hfid & Hst & Hpw & Hs & Hlog).
  destruct (fill_empty_page_raw m2 w2 id p i fp f (fm_stats m2) log real (g_real g) g tm Hg Hreal Hpw Hlog Hacc) as (pg & w3 & E3 & C3 & Hpg & Hok).
  rewrite <-Hm in E3.
  erewrite (bind_run (_ ≫= _)) by (rewrite (exec E2); change (RC.OB_FAIL RC.SUCCESS) with false; exact E3).
  pose proof (hd_pin _ _ _ _ _ _ _ _ _ _ _ _ _ Hh) as Hpin. pose proof (hd_wf _ _ _ _ _ _ _ _ _ _ _ _ _ Hh) as W2.
  pose proof (rd_pins _ _ R (mkFrameId id i)) as Hb.
  assert (0 < fm_stats m2 current_pinned_frames) as Hpos.
  { rewrite (fw_pinned _ W2). assert (pinned f = true) as Hpf by (apply Z.ltb_lt; lia).
    pose proof (fcount_elem pinned (heap m2) _ _ _ _ (hd_in _ _ _ _ _ _ _ _ _ _ _ _ _ Hh) (hd_frame _ _ _ _ _ _ _ _ _ _ _ _ _ Hh) Hpf). lia. }
  destruct (unpin_raw m2 w3 fp (set_page pg f) (fm_stats m2)) as (s' & E4 & S1 & S2); [done|cbn; lia|done|].
  rewrite (exec E4). change (RC.OB_FAIL RC.SUCCESS) with false. cbv iota.
  pose proof (held_unpin _ _ _ _ _ _ _ _ _ _ _ Hh Hk) as Hh2. cbv zeta in Hh2.
  exists i, fp, m1, w1, (set_pin_count (pins m (mkFrameId id i) + 1) f), (upd m2 fp (set_pin_count (pins m (mkFrameId id i) + 1) f) (fm_stats m2)), w2, pg, s', w3.
  rewrite upd_upd. cbn [pin_count_ set_page]. rewrite Hpin. replace (pins m (mkFrameId id i) + 1 + 1 - 1) with (pins m (mkFrameId id i) + 1) by lia.
  split; [reflexivity|]. split_and!; [done|exact N0|exact Hh2|done|exact Hpg|exact Hok|done|done].
Qed.

(** The record goes to a page that is held. *)
Definition inserted m w (id : Z) (g : Geometry) σ rec (rid : RID) m' w' X' : Prop :=
  0 < rid_page_num rid ∧ 0 ≤ rid_slot_num rid < g_capacity g ∧ σ !! rid = None ∧ file_kept m w m' w' ∧
  heap_file m' w' id g (<[rid := take (Z.to_nat (g_real g)) rec]> σ) X' ∧
  ∀ id' pn d, (id', pn) ≠ (id, 0) → (id', pn) ≠ (id, rid_page_num rid) → content m w id' pn = Some d → content m' w' id' pn = Some d.

Lemma insert_found_ok m w id p log g σ X pn fp f m1 w1 rec :
  ready m w → heap_file m w id g σ X → pn ∈ X → 0 < pn → allocated m w id pn = true →
  held xid_of t m w id p pn READ_WRITE (pins m (mkFrameId id pn)) fp f m1 w1 →
  page_ok (data (page_ f)) g (λ i, σ !! mkRID pn i) → (∃ i, 0 ≤ i < g_capacity g ∧ σ !! mkRID pn i = None) →
  chars rec → g_real g ≤ Z.of_nat (length rec) →
  let h := open_handler p READ_WRITE fp log id (g_real g) ROW_FORMAT in
  ∃ rid m2 w2 m3 w3, insert_record h rec (m1, w1) = Some ((RC.SUCCESS, Some rid), (m2, w2)) ∧
    cleanup xid_of t h (m2, w2) = Some (ph_set_pool None h, (m3, w3)) ∧ inserted m w id g σ rec rid m3 w3 X.
Proof.
  intros R Hf HX Hpn Ha Hh Hok Hfree Hch Hlen h.
  destruct (held_frame xid_of t _ _ _ _ _ _ _ _ _ _ _ Hh) as (Hm & Hfid & Hst & Hpw & Hs & Hlog).
  destruct (row_insert_raw m1 w1 id p pn fp f (fm_stats m1) log g _ rec Hok Hfid Hst Hpw Hs Hlog Hch Hlen Hfree)
    as (i & pg & s & w2 & E & Hsp & Hi & Hn & _ & Hok'). rewrite <-Hm in E.
  set (σ' := <[mkRID pn i := take (Z.to_nat (g_real g)) rec]> σ).
  destruct (release_changed xid_of t m w id p pn fp f m1 w1 g σ X h pg s w2 σ' X R Hf Hh Hpn Ha Hsp eq_refl eq_refl eq_refl) as (m3 & w3 & E3 & L1 & L2 & L3).
  - eapply page_ok_ext; [|exact Hok']. intros j. apply upd_slot_insert.
  - intros r Hr. unfold σ'. rewrite lookup_insert_ne; [done|]. by intros <-.
  - done.
  - done.
  - exists (mkRID pn i), (upd m1 fp (rewritten f pg) s), w2, m3, w3. split; [exact E|]. split; [exact E3|].
    split_and!; [done|apply Hi|apply Hi|done|done|done|]. intros id' pn' d _ Hne Hd. by apply L3.
Qed.

(** The file with a new page, as [new_page] leaves it and once the page is stored. *)
Lemma heap_file_new m w id g σ X i fp m1 w1 k d m' w' bs j :
  heap_file m w id g σ X → new_page m w id i fp m1 w1 → released m1 w1 id i k d m' w' → 0 < i → 0 ≤ j < g_capacity g →
  page_ok d g (upd_slot j (Some bs) (λ _, None)) →
  σ !! mkRID i j = None ∧ heap_file m' w' id g (<[mkRID i j := bs]> σ) ({[i]} ∪ X) ∧
  ∀ id' pn d', (id', pn) ≠ (id, 0) → (id', pn) ≠ (id, i) → content m w id' pn = Some d' → content m' w' id' pn = Some d'.
Proof.
  intros [H1 H2 H3 H4] N R Hi Hj Hok.
  assert (∀ r, rid_page_num r = i → σ !! r = None) as Hnone.
  { intros [pn' i'] E. cbn in E. subst. apply eq_None_not_Some. intros Hs. destruct (H2 _ _ Hs) as [_ Ha]. rewrite (np_free _ _ _ _ _ _ _ N) in Ha. done. }
  assert (∀ pn, pn ≠ i → allocated m' w' id pn = allocated m w id pn) as Ha.
  { intros pn Hne. rewrite (rl_alloc _ _ _ _ _ _ _ _ R), (np_alloc _ _ _ _ _ _ _ N). by rewrite decide_False. }
  assert (allocated m' w' id i = true) as Hai by (rewrite (rl_alloc _ _ _ _ _ _ _ _ R), (np_alloc _ _ _ _ _ _ _ N); by rewrite decide_True).
  assert (∀ id' pn d', (id', pn) ≠ (id, 0) → (id', pn) ≠ (id, i) → content m w id' pn = Some d' → content m' w' id' pn = Some d') as K.
  { intros id' pn d' Hn1 Hn2 Hd. apply (rl_kept _ _ _ _ _ _ _ _ R); [done|]. by apply (np_kept _ _ _ _ _ _ _ N). }
  split; [by apply Hnone|]. split; [|exact K]. split.
  - intros x Hx Hax. destruct (decide (x = i)) as [->|Hne].
    + exists d. split; [exact (rl_content _ _ _ _ _ _ _ _ R)|]. eapply page_ok_ext; [|exact Hok]. intros y. unfold upd_slot.
      case_decide as Hy; [subst; by rewrite lookup_insert_eq|]. rewrite lookup_insert_ne by congruence. by rewrite Hnone.
    + rewrite Ha in Hax by done. destruct (H1 x Hx Hax) as (dx & Hdx & Hokx). exists dx. split; [apply K; [intros [=]; lia|congruence|done]|].
      eapply page_ok_ext; [|exact Hokx]. intros y. by rewrite lookup_insert_ne by congruence.
  - intros x y Hs. destruct (decide (x = i)) as [->|Hne]; [done|]. rewrite lookup_insert_ne in Hs by congruence. rewrite Ha by done. by eapply H2.
  - intros x Hx. destruct (decide (x = i)) as [->|Hne]; [done|]. rewrite Ha by done. apply H3. by apply (page_added_ne i x X).
  - intros x y Hx Hax Hy Hn. destruct (decide (x = i)) as [->|Hne]; [apply page_added|]. apply page_added_ne; [done|].
    rewrite Ha in Hax by done. rewrite lookup_insert_ne in Hn by congruence. by eapply H4.
Qed.

Lemma insert_new_ok m w id p log g σ X i fp m1 w1 f m2 w2 pg s w3 rec :
  ready m w → heap_file m w id g σ X → 0 < i → new_page m w id i fp m1 w1 →
  held xid_of t m1 w1 id p i READ_WRITE (pins m (mkFrameId id i)) fp f m2 w2 →
  calm w2 w3 → page_wf pg → page_ok (data pg) g (λ _, None) →
  s current_pinned_frames = fm_stats m2 current_pinned_frames → s dirty_pages_current = fm_stats m2 dirty_pages_current →
  0 < g_capacity g → chars rec → g_real g ≤ Z.of_nat (length rec) →
  let h := open_handler p READ_WRITE fp log id (g_real g) ROW_FORMAT in
  ∃ rid m4 w4 m5 w5, insert_record h rec (upd m2 fp (set_page pg f) s, w3) = Some ((RC.SUCCESS, Some rid), (m4, w4)) ∧
    cleanup xid_of t h (m4, w4) = Some (ph_set_pool None h, (m5, w5)) ∧ inserted m w id g σ rec rid m5 w5 ({[i]} ∪ X).
Proof.
  intros R Hf Hi N Hh C Hpw Hok S1 S2 Hcap Hch Hlen h.
  destruct (held_frame xid_of t _ _ _ _ _ _ _ _ _ _ _ Hh) as (Hm & Hfid & Hst & _ & Hs & Hlog).
  destruct (calm_inv m2 w2 w3 (hd_inv _ _ _ _ _ _ _ _ _ _ _ _ _ Hh) C) as [I3 _].
  destruct (row_insert_raw m2 w3 id p i fp (set_page pg f) s log g _ rec Hok Hfid Hst Hpw ltac:(lia) (si_log _ _ I3) Hch Hlen)
    as (j & pg' & s' & w4 & E & [T1 T2 T3 T4] & Hj & _ & _ & Hok'); [exists 0; split; [lia|done]|].
  assert (stored_page w2 f (fm_stats m2) pg' s' w4) as Hsp by (split; [by etrans|done|by rewrite T3|by rewrite T4, S2]).
  pose proof (held_write xid_of t _ _ _ _ _ _ _ _ _ _ _ _ _ Hh ltac:(lia) Hsp) as Hh2.
  destruct (release_ok xid_of t m1 w1 id p i READ_WRITE _ fp _ _ w4 h Hh2) as (m5 & w5 & E5 & R5); [lia|done|done|done|].
  destruct (heap_file_new m w id g σ X i fp m1 w1 _ _ m5 w5 _ j Hf N R5 Hi Hj Hok') as (Hn & Hf' & K).
  exists (mkRID i j), (upd m2 fp (rewritten f pg') s'), w4, m5, w5. split; [exact E|]. split; [exact E5|].
  assert (same_pins m m5) as Hsame.
  { intros x. destruct (decide (x = mkFrameId id i)) as [->|Hne]; [exact (rl_pin _ _ _ _ _ _ _ _ R5)|].
    rewrite (rl_others _ _ _ _ _ _ _ _ R5) by done. by apply (np_others _ _ _ _ _ _ _ N). }
  split_and!; [done|apply Hj|apply Hj|done| |exact Hf'|exact K]. split; [|done|etrans; [apply N|apply R5]].
  split; [apply R5|apply R5| |apply R5]. intros x. rewrite Hsame. apply R.
Qed.

(** ** [insert_record] *)
Lemma file_insert_ok m w id p log g σ X tm rec :
  ready m w → id_to_buffer_pools_ w !! id = Some p → heap_file m w id g σ X →
  log_accepts (L:=L) → 0 < g_real g < 2 ^ 30 → page_geometry (g_real g) 0 = Some g → 0 < g_capacity g →
  chars rec → g_real g ≤ Z.of_nat (length rec) →
  ∃ rc r h' m' w', file_insert_record xid_of t rec (g_real g) (row_file p log X tm) (m, w) = Some ((rc, r, h'), (m', w')) ∧
    h' = row_file p log (free_pages_ h') tm ∧
    ((∃ rid, rc = RC.SUCCESS ∧ r = Some rid ∧ inserted m w id g σ rec rid m' w' (free_pages_ h')) ∨
     (rc ≠ RC.SUCCESS ∧ r = None ∧ file_kept m w m' w' ∧ kept_but id m w m' w' ∧
      (heap_file m' w' id g σ (free_pages_ h') ∨ leaked m w id m' w'))).
Proof.
  intros R Hid Hf Hacc Hreal Hg Hcap Hch Hlen. unfold file_insert_record. cbn [fh_pool fh_log fh_format row_file].
  do 2 exec_deref. cbn [free_pages_ row_file].
  destruct (find_page_ok xid_of t Hxid (S (size X)) m w id p log g σ X (create_page_handler ROW_FORMAT)) as (res & m1 & w1 & E & Hres);
    [done|done|done|done|done|lia|]. rewrite (exec E).
  assert (∀ m' w', kept m w m' w' → kept_but id m w m' w') as Hkb by (intros m' w' K id' pn d _; apply K).
  assert (∀ h : RecordPageHandler, ph_pool h = None → ∀ st : Sys, cleanup xid_of t h st = Some (h, st)) as Hclean.
  { intros h Hp st. unfold cleanup. by rewrite Hp. }
  destruct Hres as [h X' m1 w1 H1 H2 H3 H4|h m1 w1 H1 H2 H3 H4 H5|X' pn fp f mb wb m1 w1 H1 H2 H3 H4 H5 H6 H7 H8 H9]; cbv beta iota.
  - change (RC.OB_FAIL RC.BUFFERPOOL_NOBUF) with true. cbv iota. rewrite (exec (Hclean h H1 _)).
    eexists _, _, _, m1, w1. split; [reflexivity|]. split; [done|]. right. split_and!; [done|done|done|by apply Hkb|by left].
  - change (RC.OB_FAIL RC.SUCCESS) with false. cbv iota. cbn [table_meta_ row_file].
    destruct (new_record_page_ok m1 w1 id p log g tm h ∅ (fk_ready _ _ _ _ H3)) as
      [(i & fp & m2 & w2 & f & m3 & w3 & pg & s & w4 & E2 & Hi & N & Hh & C & Hpg & Hok & S1 & S2)|(rc & m2 & w2 & E2 & Hrc & F & K & Hal)];
      [by rewrite (ex_ids _ _ (fk_ext _ _ _ _ H3))|done|done|done|done|done|..]; rewrite (exec E2); cbv beta iota.
    + change (RC.OB_FAIL RC.SUCCESS) with false. cbv iota.
      destruct (insert_new_ok m1 w1 id p log g σ ∅ i fp m2 w2 f m3 w3 pg s w4 rec (fk_ready _ _ _ _ H3) H4 Hi N Hh C Hpg Hok S1 S2 Hcap Hch Hlen)
        as (rid & m5 & w5 & m6 & w6 & E5 & E6 & J1 & J2 & J3 & J4 & J5 & J6).
      rewrite (exec E5), (exec E6). eexists _, _, _, m6, w6. split; [reflexivity|]. split; [done|]. left.
      exists rid. split_and!; try done. split_and!; [done|apply J2|apply J2|done|by eapply file_kept_trans|done|].
      intros id' pn d Hn1 Hn2 Hd. apply J6; [done|done|]. by apply H5.
    + unfold RC.OB_FAIL. rewrite bool_decide_eq_true_2 by done. rewrite (exec (Hclean h H1 _)).
      eexists _, _, _, m2, w2. split; [reflexivity|]. split; [done|]. right.
      pose proof (fk_ready _ _ _ _ H3) as R1.
      destruct (allocated_content m w m1 w1 id p (rd_wf _ _ R) (rd_inv _ _ R) Hid (rd_wf _ _ R1) (rd_inv _ _ R1) (fk_ext _ _ _ _ H3) (H5 id 0)) as [_ Ha1].
      split_and!; [done|done|by eapply file_kept_trans| |].
      * intros id' pn d Hn Hd. apply K; [done|]. by apply H5.
      * destruct Hal as [Hal|(i & Hi & Hfree & Hadd)]; [left; by apply (heap_file_kept_but m1 w1)|right]. exists i.
        split_and!; [done|by rewrite <-Ha1|]. intros pn. by rewrite Hadd, Ha1.
  - change (RC.OB_FAIL RC.SUCCESS) with false. cbv iota. erewrite (bind_run (mret _)) by done. cbv beta iota.
    change (RC.OB_FAIL RC.SUCCESS) with false. cbv iota.
    destruct (insert_found_ok mb wb id p log g σ X' pn fp f m1 w1 rec (fk_ready _ _ _ _ H1) H2 H4 H5 H6 H7 H8 H9 Hch Hlen)
      as (rid & m5 & w5 & m6 & w6 & E5 & E6 & J1 & J2 & J3 & J4 & J5 & J6).
    rewrite (exec E5), (exec E6). eexists _, _, _, m6, w6. split; [reflexivity|]. split; [done|]. left.
    exists rid. split_and!; try done. split_and!; [done|apply J2|apply J2|done|by eapply file_kept_trans|done|].
    intros id' pn' d Hn1 Hn2 Hd. apply J6; [done|done|]. by apply H3.
Qed.
End record_insert.
