(* ===== verification/RecordScan.v ===== *)
(** * Scanning a heap file

    [RecordPageIterator] and the scanners: [HeapRecordScanner] of
    [storage/record/heap_record_scanner.cpp] and [ChunkFileScanner] of
    [record_manager.cpp].  Between two calls of [next] the scanner keeps the page of
    the current record pinned and latched.  A scan returns the records of the file
    that pass the filter and are visible, by page and slot. *)

From stdpp Require Import sorting.
From S2P Require Import Prelude Types Bytes Crc Os PageIO Bitmap LruCache MemPool Stats Latch Frame Replacement FrameManager FrameSafety BufferPool DoubleWrite DiskBufferPool StorageSafety PoolSafety PageAccess FileHeader PageAlloc PageDispose LatchKept RecordPage RecordManager RecordSafety RecordFile.
Local Open Scope Z_scope.

(** ** [class RecordPageIterator] *)
(** [pi_valid]: [record_page_handler_] is set; it is then the handler of the scanner. *)
Record RecordPageIterator : Type := mkPageIterator {
  pi_valid : bool;
  pi_page_num : PageNum;
  pi_size : Z;
  next_slot_num_ : SlotNum
}.
Definition new_page_iterator : RecordPageIterator := mkPageIterator false (-1) 0 0.
Definition pi_has_next (it : RecordPageIterator) : bool := negb (next_slot_num_ it =? -1).

(** ** [class HeapRecordScanner] *)
(** [sc_filter] is [condition_filter_->filter]; [sc_visit] is [trx_->visit_record],
    which reads the record in every implementation of [Trx] and changes nothing. *)
Record HeapRecordScanner : Type := mkScanner {
  sc_format : StorageFormat;
  sc_pool : option Ptr;
  sc_log : LogRef;
  rw_mode_ : ReadWriteMode;
  sc_filter : option (Rec → bool);
  sc_visit : option (Rec → ReadWriteMode → RC.RC);
  bp_iterator_ : BufferPoolIterator;
  sc_handler : option RecordPageHandler;
  record_page_iterator_ : RecordPageIterator;
  next_record_ : Rec
}.

Definition sc_set_iterator (it : RecordPageIterator) (rec : Rec) (s : HeapRecordScanner) : HeapRecordScanner :=
  mkScanner (sc_format s) (sc_pool s) (sc_log s) (rw_mode_ s) (sc_filter s) (sc_visit s) (bp_iterator_ s) (sc_handler s) it rec.
Definition sc_set_page (bit : BufferPoolIterator) (h : option RecordPageHandler) (s : HeapRecordScanner) : HeapRecordScanner :=
  mkScanner (sc_format s) (sc_pool s) (sc_log s) (rw_mode_ s) (sc_filter s) (sc_visit s) bit h (record_page_iterator_ s) (next_record_ s).
(** [next_record_.rid().slot_num = -1]. *)
Definition no_slot (rec : Rec) : Rec := mkRec (mkRID (rid_page_num (rec_rid rec)) (-1)) (rec_data rec).

Record ChunkFileScanner : Type := mkChunkScanner {
  cs_pool : option Ptr;
  cs_log : option LogRef;
  cs_mode : ReadWriteMode;
  cs_iterator : BufferPoolIterator;
  cs_handler : option RecordPageHandler
}.

Section record_scan.
Context {P L : Type} `{!ReplacementPolicy P} `{!LogHandler L} `{HOrd : HashOrder}.
Context (xid_of : thread_id → Z) (t : thread_id).
Notation Sys := (Sys L P).

Definition pi_init (h : RecordPageHandler) (start : SlotNum) : M Sys RecordPageIterator :=
  pn ← get_page_num h;
  d ← page_data h;
  c ← deref (record_capacity d);
  next ← deref (Bitmap.next_setted_bit (page_bitmap d) c start);
  mret (mkPageIterator true pn c next).

(** The result of [get_record] is ignored: the record keeps what it held. *)
Definition pi_next (h : RecordPageHandler) (it : RecordPageIterator) (rec : Rec) : M Sys (RC * RecordPageIterator * Rec) :=
  '(_, r) ← get_record h (mkRID (pi_page_num it) (next_slot_num_ it));
  let rec := default rec r in
  next ← (if 0 <=? next_slot_num_ it then
            d ← page_data h; deref (Bitmap.next_setted_bit (page_bitmap d) (pi_size it) (next_slot_num_ it + 1))
          else mret (next_slot_num_ it));
  mret (if negb (rid_slot_num (rec_rid rec) =? -1) then RC.SUCCESS else RC.RECORD_EOF,
        mkPageIterator (pi_valid it) (pi_page_num it) (pi_size it) next, rec).

Definition open_scan (s : HeapRecordScanner) : M Sys (RC * HeapRecordScanner) :=
  p ← deref (sc_pool s);
  it ← pool_iterator p 1;
  mret (RC.SUCCESS, sc_set_page it (Some (create_page_handler (sc_format s))) s).

(** The slot grows with every round: [pi_size] rounds and one to find the end. *)
Fixpoint fetch_in_page_loop (n : nat) (s : HeapRecordScanner) : M Sys (RC * HeapRecordScanner) :=
  match n with
  | O => abort
  | S n =>
      if negb (pi_has_next (record_page_iterator_ s)) then
        mret (RC.RECORD_EOF, sc_set_iterator (record_page_iterator_ s) (no_slot (next_record_ s)) s)
      else
        h ← deref (sc_handler s);
        '(rc, it, rec) ← pi_next h (record_page_iterator_ s) (next_record_ s);
        let s := sc_set_iterator it rec s in
        if bool_decide (rc ≠ RC.SUCCESS) then mret (rc, s)
        else if match sc_filter s with Some filter => negb (filter rec) | None => false end then fetch_in_page_loop n s
        else match sc_visit s with
             | None => mret (rc, s)
             | Some visit_record =>
                 let rc := visit_record rec (rw_mode_ s) in
                 if bool_decide (rc = RC.RECORD_INVISIBLE) then fetch_in_page_loop n s else mret (rc, s)
             end
  end.

Definition fetch_next_record_in_page (s : HeapRecordScanner) : M Sys (RC * HeapRecordScanner) :=
  fetch_in_page_loop (S (S (Z.to_nat (pi_size (record_page_iterator_ s))))) s.

(** Every round takes a page of the file: [it_size] rounds and one to find the end. *)
Fixpoint fetch_pages_loop (n : nat) (s : HeapRecordScanner) : M Sys (RC * HeapRecordScanner) :=
  match n with
  | O => abort
  | S n =>
      p ← deref (sc_pool s);
      h ← deref (sc_handler s);
      more ← pool_has_next p (bp_iterator_ s);
      if negb more then
        let s := sc_set_iterator (record_page_iterator_ s) (no_slot (next_record_ s)) s in
        h ← cleanup xid_of t h;
        mret (RC.RECORD_EOF, sc_set_page (bp_iterator_ s) (Some h) s)
      else
        '(page_num, it) ← pool_next p (bp_iterator_ s);
        h ← cleanup xid_of t h;
        '(rc, h) ← handler_init xid_of t h p (sc_log s) page_num (rw_mode_ s);
        let s := sc_set_page it (Some h) s in
        if RC.OB_FAIL rc then mret (rc, s)
        else
          pit ← pi_init h 0;
          '(rc, s) ← fetch_next_record_in_page (sc_set_iterator pit (next_record_ s) s);
          if bool_decide (rc ≠ RC.RECORD_EOF) then mret (rc, s) else fetch_pages_loop n s
  end.

Definition fetch_next_record (s : HeapRecordScanner) : M Sys (RC * HeapRecordScanner) :=
  '(rc, s) ← (if pi_valid (record_page_iterator_ s) then fetch_next_record_in_page s else mret (RC.RECORD_EOF, s));
  if bool_decide (rc ≠ RC.RECORD_EOF) then mret (rc, s)
  else fetch_pages_loop (S (Z.to_nat (it_size (bp_iterator_ s)))) s.

Definition scan_next (s : HeapRecordScanner) : M Sys (RC * option Rec * HeapRecordScanner) :=
  '(rc, s) ← fetch_next_record s;
  if RC.OB_FAIL rc then mret (rc, None, s) else mret (RC.SUCCESS, Some (next_record_ s), s).

Definition close_scan (s : HeapRecordScanner) : M Sys (RC * HeapRecordScanner) :=
  _ ← match sc_handler s with Some h => _ ← cleanup xid_of t h; mret tt | None => mret tt end;
  mret (RC.SUCCESS,
        mkScanner (sc_format s) None (sc_log s) (rw_mode_ s) None (sc_visit s) (bp_iterator_ s) None (record_page_iterator_ s) (next_record_ s)).

(** ** [class ChunkFileScanner] *)
Definition close_scan_chunk (s : ChunkFileScanner) : M Sys ChunkFileScanner :=
  _ ← match cs_handler s with Some h => _ ← cleanup xid_of t h; mret tt | None => mret tt end;
  mret (mkChunkScanner None (cs_log s) (cs_mode s) (cs_iterator s) None).

Definition open_scan_chunk (fmt : StorageFormat) (p : Ptr) (log : LogRef) (mode : ReadWriteMode) (s : ChunkFileScanner) :
    M Sys (RC * ChunkFileScanner) :=
  close_scan_chunk s;;
  it ← pool_iterator p 1;
  mret (RC.SUCCESS, mkChunkScanner (Some p) (Some log) mode it (Some (create_page_handler fmt))).

(** The loop returns or breaks in its first round. *)
Definition next_chunk (s : ChunkFileScanner) : M Sys (RC * ChunkFileScanner) :=
  p ← deref (cs_pool s);
  log ← deref (cs_log s);
  h ← deref (cs_handler s);
  let set it h := mkChunkScanner (cs_pool s) (cs_log s) (cs_mode s) it (Some h) in
  more ← pool_has_next p (cs_iterator s);
  if negb more then h ← cleanup xid_of t h; mret (RC.RECORD_EOF, set (cs_iterator s) h)
  else
    '(page_num, it) ← pool_next p (cs_iterator s);
    h ← cleanup xid_of t h;
    '(rc, h) ← handler_init xid_of t h p log page_num (cs_mode s);
    if RC.OB_FAIL rc then mret (rc, set it h)
    else
      rc ← get_chunk h;
      if bool_decide (rc = RC.RECORD_EOF) then h ← cleanup xid_of t h; mret (RC.RECORD_EOF, set it h)
      else mret (rc, set it h).
End record_scan.

(** ** The order of a scan *)
Definition page_records (g : Geometry) (σ : gmap RID (list Z)) (pn : PageNum) (from : SlotNum) : list Rec :=
  omap (λ i, mkRec (mkRID pn i) <$> σ !! mkRID pn i) (seqZ from (g_capacity g - from)).

Definition file_records (g : Geometry) (σ : gmap RID (list Z)) (from n : PageNum) : list Rec :=
  concat ((λ pn, page_records g σ pn 0) <$> seqZ from (n - from)).

Lemma omap_skip {A} (F : Z → option A) (a b c : Z) :
  a ≤ b ≤ c → (∀ i, a ≤ i < b → F i = None) → omap F (seqZ a (c - a)) = omap F (seqZ b (c - b)).
Proof.
  intros Hab. remember (Z.to_nat (b - a)) as n eqn:Hn. revert a Hab Hn. induction n as [|n IH]; intros a Hab Hn HF.
  - by replace b with a by lia.
  - rewrite seqZ_cons by lia. cbn [omap list_omap]. rewrite HF by lia. rewrite <-(IH (a + 1)); [|lia|lia|intros; apply HF; lia].
    f_equal. f_equal; lia.
Qed.

Lemma page_records_none g σ pn from :
  0 ≤ from → (∀ j, from ≤ j → σ !! mkRID pn j = None) → page_records g σ pn from = [].
Proof.
  intros Hf Hn. unfold page_records. destruct (decide (from ≤ g_capacity g)) as [Hc|Hc].
  - rewrite (omap_skip _ from (g_capacity g) (g_capacity g)); [|lia|intros i Hi; by rewrite Hn by lia]. by rewrite Z.sub_diag.
  - by rewrite seqZ_nil by lia.
Qed.

Lemma page_records_cons g σ pn from i bs :
  0 ≤ from ≤ i → i < g_capacity g → (∀ j, from ≤ j < i → σ !! mkRID pn j = None) → σ !! mkRID pn i = Some bs →
  page_records g σ pn from = mkRec (mkRID pn i) bs :: page_records g σ pn (i + 1).
Proof.
  intros Hf Hi Hn Hs. unfold page_records. rewrite (omap_skip _ from i); [|lia|intros j Hj; by rewrite Hn].
  rewrite seqZ_cons by lia. cbn [omap list_omap]. rewrite Hs. cbn. f_equal. f_equal. f_equal; lia.
Qed.

Lemma file_records_cons g σ from n :
  from < n → file_records g σ from n = page_records g σ from 0 ++ file_records g σ (from + 1) n.
Proof.
  intros Hf. unfold file_records. rewrite seqZ_cons by lia. cbn. f_equal. f_equal. f_equal. f_equal; lia.
Qed.

Lemma file_records_skip g σ from i n :
  from ≤ i ≤ n → (∀ pn j, from ≤ pn < i → σ !! mkRID pn j = None) → file_records g σ from n = file_records g σ i n.
Proof.
  remember (Z.to_nat (i - from)) as k eqn:Hk. revert from Hk. induction k as [|k IH]; intros from Hk Hi Hn; [by replace i with from by lia|].
  rewrite file_records_cons by lia. rewrite page_records_none; [|done|intros; apply Hn; lia]. apply IH; [lia|lia|intros; apply Hn; lia].
Qed.

Lemma file_records_end g σ n : file_records g σ n n = [].
Proof. unfold file_records. by rewrite Z.sub_diag. Qed.

(** The whole file, each record once. *)
Lemma elem_of_page_records g σ pn from r :
  r ∈ page_records g σ pn from ↔ ∃ i, from ≤ i < g_capacity g ∧ rec_rid r = mkRID pn i ∧ σ !! mkRID pn i = Some (rec_data r).
Proof.
  unfold page_records. rewrite list_elem_of_omap. split.
  - intros (i & Hi%elem_of_seqZ & E). apply fmap_Some in E as (bs & Hbs & ->). exists i. split; [lia|done].
  - intros (i & Hi & H1 & H2). exists i. split; [apply elem_of_seqZ; lia|]. rewrite H2. destruct r as [rid bs]. cbn in *. by subst.
Qed.

Lemma elem_of_file_records g σ from n r :
  r ∈ file_records g σ from n ↔
  ∃ pn i, from ≤ pn < n ∧ 0 ≤ i < g_capacity g ∧ rec_rid r = mkRID pn i ∧ σ !! mkRID pn i = Some (rec_data r).
Proof.
  unfold file_records. rewrite list_elem_of_In, in_concat. split.
  - intros (l & Hl & Hr). apply list_elem_of_In in Hl, Hr. apply list_elem_of_fmap in Hl as (pn & -> & Hpn%elem_of_seqZ).
    apply elem_of_page_records in Hr as (i & Hi & H1 & H2). exists pn, i. split; [lia|done].
  - intros (pn & i & Hpn & Hi & H1 & H2). exists (page_records g σ pn 0). rewrite <-!list_elem_of_In. split.
    + apply list_elem_of_fmap. exists pn. split; [done|]. apply elem_of_seqZ. lia.
    + apply elem_of_page_records. by exists i.
Qed.

(** By page, then by slot. *)
Definition rec_lt (r1 r2 : Rec) : Prop :=
  rid_page_num (rec_rid r1) < rid_page_num (rec_rid r2) ∨
  rid_page_num (rec_rid r1) = rid_page_num (rec_rid r2) ∧ rid_slot_num (rec_rid r1) < rid_slot_num (rec_rid r2).

Lemma page_records_sorted g σ pn from : StronglySorted rec_lt (page_records g σ pn from).
Proof.
  unfold page_records. remember (Z.to_nat (g_capacity g - from)) as k eqn:Hk. revert from Hk.
  induction k as [|k IH]; intros from Hk; [rewrite seqZ_nil by lia; constructor|].
  assert (page_records g σ pn (from + 1) = omap (λ i, mkRec (mkRID pn i) <$> σ !! mkRID pn i) (seqZ (Z.succ from) (Z.pred (g_capacity g - from)))) as E.
  { unfold page_records. f_equal. f_equal; lia. }
  rewrite seqZ_cons by lia. cbn [omap list_omap]. rewrite <-E.
  assert (StronglySorted rec_lt (page_records g σ pn (from + 1))) as Hs by (apply IH; lia).
  destruct (σ !! mkRID pn from) as [bs|]; [|done]. cbn. constructor; [done|].
  apply list.Forall_forall. intros r (i & Hi & Hr & _)%elem_of_page_records. unfold rec_lt. rewrite Hr. cbn. lia.
Qed.

Lemma file_records_sorted g σ from n : StronglySorted rec_lt (file_records g σ from n).
Proof.
  remember (Z.to_nat (n - from)) as k eqn:Hk. revert from Hk. induction k as [|k IH]; intros from Hk.
  - unfold file_records. rewrite seqZ_nil by lia. constructor.
  - rewrite file_records_cons by lia. apply StronglySorted_app_2; [|apply page_records_sorted|apply IH; lia].
    intros r1 r2 (i & Hi & H1 & _)%elem_of_page_records (pn & j & Hpn & Hj & H2 & _)%elem_of_file_records.
    unfold rec_lt. rewrite H1, H2. cbn. lia.
Qed.

Lemma sorted_filter {A} (R : A → A → Prop) (b : A → bool) l : StronglySorted R l → StronglySorted R (filter (λ x, b x) l).
Proof.
  induction 1 as [|x l Hs IH Hx]; [constructor|]. rewrite filter_cons. case_decide; [|done]. constructor; [done|].
  rewrite list.Forall_forall in Hx |- *. intros y [_ Hy]%list_elem_of_filter. by apply Hx.
Qed.
