(* ===== verification/RecordScanSafety.v ===== *)
(** * What a scan returns, and opening a heap file

    The calls of [next] yield, one by one, the records of the file that pass the
    filter and are visible, in the order of [file_records], and then the end.
    [RecordFileHandler::init]: one pass over the pages of the file collects the pages
    with a free slot in [free_pages_]. *)

From stdpp Require Import sorting.
From S2P Require Import Prelude Types Crc Os Bytes Bitmap Replacement PageIO LruCache MemPool Stats Latch Frame FrameManager FrameSafety BufferPool DoubleWrite DiskBufferPool StorageSafety PoolSafety PageAccess RecordPage FileHeader PageAlloc PageDispose LatchKept RecordManager RecordSafety RecordFile RecordScan.
Local Open Scope Z_scope.

(** A record the scan returns: it passes the filter, and the transaction sees it. *)
Definition passes (s : HeapRecordScanner) (r : Rec) : bool :=
  match sc_filter s with Some filter => filter r | None => true end &&
  match sc_visit s with Some visit => bool_decide (visit r (rw_mode_ s) = RC.SUCCESS) | None => true end.

(** The transaction sees a record or does not see it. *)
Definition plain_visit (s : HeapRecordScanner) : Prop :=
  ∀ visit r, sc_visit s = Some visit → visit r (rw_mode_ s) = RC.SUCCESS ∨ visit r (rw_mode_ s) = RC.RECORD_INVISIBLE.

Section record_scan.
Context {P L : Type} `{!ReplacementPolicy P} `{!PolicyLaws P} `{!LogHandler L} `{!LogLaws L} `{HOrd : HashOrder}.
Context (xid_of : thread_id → Z) (t : thread_id) (Hxid : xid_of t ≠ 0).
Notation World := (World L).
Notation Sys := (Sys L P).
Notation FM := (BPFrameManager (P:=P)).
Implicit Types (w : World) (pn : PageNum) (m : FM) (fp : Ptr) (f : Frame) (σ : gmap RID (list Z)) (X : gset PageNum).

(** ** Inside a page *)
Section in_page.
Context m w fp f (bps : BufferPoolStats) (g : Geometry) σ pn (h : RecordPageHandler).
Context (Hok : page_ok (data (page_ f)) g (λ i, σ !! mkRID pn i)) (Hfid : fid_page_num (frame_id_ f) = pn).
Context (Hh : page_header_ h = Some fp) (Hfr : ph_frame h = Some fp) (Hfmt : ph_format h = ROW_FORMAT).
Notation st := (upd m fp f bps, w).

Definition slot_tail (i : SlotNum) : list Rec := if i =? -1 then [] else page_records g σ pn i.
Definition at_slot (i : SlotNum) : Prop := i = -1 ∨ 0 ≤ i < g_capacity g ∧ is_Some (σ !! mkRID pn i).

Lemma next_slot_ok start :
  0 ≤ start → ∃ i, Bitmap.next_setted_bit (page_bitmap (data (page_ f))) (g_capacity g) start = Some i ∧
    at_slot i ∧ (i = -1 ∨ start ≤ i) ∧ page_records g σ pn start = slot_tail i.
Proof.
  intros Hst. destruct (next_used_slot_ok _ _ _ Hok start Hst) as (i & E & Hi). unfold next_used_slot in E.
  rewrite (page_capacity_eq _ _ _ Hok) in E. exists i. split; [exact E|]. unfold at_slot, slot_tail.
  destruct Hi as [[-> Hn]|(Hi & [bs Hbs] & Hn)].
  - split; [by left|]. split; [by left|]. cbn. by apply page_records_none.
  - destruct (read_record_eq _ _ _ Hok i bs Hbs) as (_ & Hr & _). split; [right; split; [done|by rewrite Hbs]|]. split; [by right|].
    rewrite (proj2 (Z.eqb_neq i (-1))) by lia. rewrite (page_records_cons _ _ _ start i bs) by (done || lia).
    rewrite (page_records_cons _ _ _ i i bs); [done|lia|lia|intros; lia|done].
Qed.

Lemma pi_init_ok :
  ∃ i, pi_init h 0 st = Some (mkPageIterator true pn (g_capacity g) i, st) ∧ at_slot i ∧ page_records g σ pn 0 = slot_tail i.
Proof.
  destruct (next_slot_ok 0 ltac:(lia)) as (i & E & Hi & _ & Hr). exists i. split; [|done]. unfold pi_init.
  rewrite (exec (get_page_num_raw m fp h Hfr Hh w f bps)), (exec (page_data_raw m fp h Hh w f bps)).
  rewrite (page_capacity_eq _ _ _ Hok). exec_deref. rewrite E. exec_deref. by rewrite Hfid.
Qed.

Lemma pi_next_ok v i bs rec :
  0 ≤ i < g_capacity g → σ !! mkRID pn i = Some bs →
  ∃ i', pi_next h (mkPageIterator v pn (g_capacity g) i) rec st =
      Some ((RC.SUCCESS, mkPageIterator v pn (g_capacity g) i', mkRec (mkRID pn i) bs), st) ∧
    at_slot i' ∧ (i' = -1 ∨ i < i') ∧ slot_tail i = mkRec (mkRID pn i) bs :: slot_tail i'.
Proof.
  intros Hi Hbs. destruct (next_slot_ok (i + 1) ltac:(lia)) as (i' & E & Hi' & Hlt & Hr). exists i'. split.
  - unfold pi_next. cbn [pi_page_num next_slot_num_ pi_size pi_valid]. unfold get_record. rewrite Hfmt.
    rewrite (exec (row_get_raw m w fp f bps g _ (mkRID pn i) Hok ltac:(cbn; lia) h Hh)). cbn [rid_slot_num].
    rewrite decide_False by lia. rewrite Hbs. cbv beta iota zeta. rewrite (proj2 (Z.leb_le 0 i)) by lia.
    erewrite (bind_run (_ ≫= _)) by (rewrite (exec (page_data_raw m fp h Hh w f bps)), E; done).
    cbn [default from_option id rec_rid rid_slot_num]. rewrite (proj2 (Z.eqb_neq i (-1))) by lia. done.
  - split; [done|]. split; [lia|]. unfold slot_tail at 1. rewrite (proj2 (Z.eqb_neq i (-1))) by lia.
    rewrite (page_records_cons _ _ _ i i bs) by (done || lia). by rewrite Hr.
Qed.

(** What the code does with a record it has read. *)
Lemma visited_eq s rec (stop skip : M Sys (RC * HeapRecordScanner)) (res : RC → M Sys (RC * HeapRecordScanner)) :
  plain_visit s → res RC.SUCCESS = stop →
  (if match sc_filter s with Some filter => negb (filter rec) | None => false end then skip
   else match sc_visit s with
        | None => stop
        | Some visit => if bool_decide (visit rec (rw_mode_ s) = RC.RECORD_INVISIBLE) then skip else res (visit rec (rw_mode_ s))
        end) = if passes s rec then stop else skip.
Proof.
  intros Hv Hres. unfold passes. destruct (sc_filter s) as [F|]; [destruct (F rec)|]; cbn [negb andb]; [|done|];
    (destruct (sc_visit s) as [v|] eqn:Ev; [|done]); destruct (Hv v rec Ev) as [E|E]; rewrite E; done.
Qed.

(** The next record of the page that passes. *)
Lemma in_page_ok n s i v :
  sc_handler s = Some h → record_page_iterator_ s = mkPageIterator v pn (g_capacity g) i → plain_visit s → at_slot i →
  (0 < n)%nat → (i = -1 ∨ g_capacity g - i < Z.of_nat n) →
  ∃ i' rec, fetch_in_page_loop n s st =
      Some (match filter (λ r, passes s r) (slot_tail i) with [] => RC.RECORD_EOF | _ => RC.SUCCESS end,
            sc_set_iterator (mkPageIterator v pn (g_capacity g) i') rec s, st) ∧
    match filter (λ r, passes s r) (slot_tail i) with
    | [] => i' = -1
    | r :: rest => rec = r ∧ filter (λ r, passes s r) (slot_tail i') = rest ∧ at_slot i'
    end.
Proof.
  revert s i. induction n as [|n IH]; intros s i Hsh Hit Hv Hi Hn Hfuel; [lia|]. cbn [fetch_in_page_loop]. rewrite Hit. unfold pi_has_next.
  cbn [next_slot_num_]. destruct Hi as [->|[Hi [bs Hbs]]].
  { cbn. eexists _, _. split; [reflexivity|done]. }
  rewrite (proj2 (Z.eqb_neq i (-1))) by lia. cbn [negb]. rewrite Hsh. exec_deref.
  destruct (pi_next_ok v i bs (next_record_ s) Hi Hbs) as (i' & E & Hi' & Hlt & Htail). rewrite (exec E). cbv beta iota zeta.
  rewrite bool_decide_eq_false_2 by (by intros []). rewrite Htail. set (rec := mkRec (mkRID pn i) bs). set (it := mkPageIterator v pn (g_capacity g) i').
  cbn [sc_filter sc_visit sc_set_iterator rw_mode_]. 
  pose proof (visited_eq s rec (mret (RC.SUCCESS, sc_set_iterator it rec s)) (fetch_in_page_loop n (sc_set_iterator it rec s))
    (λ rc, mret (rc, sc_set_iterator it rec s)) Hv eq_refl) as Ev. cbv beta in Ev. rewrite Ev. clear Ev. rewrite filter_cons. destruct (passes s rec) eqn:Hp.
  - rewrite decide_True by done. exists i', rec. by split.
  - rewrite decide_False by (intros []). exact (IH (sc_set_iterator it rec s) i' Hsh eq_refl Hv Hi' ltac:(lia) ltac:(lia)).
Qed.
End in_page.

(** ** Over the pages *)
Lemma pool_next_ok m w id p it :
  sys_inv m w → id_to_buffer_pools_ w !! id = Some p → it_size it = file_pages m w id → 0 ≤ current_page_num_ it →
  (pool_has_next p it (m, w) = Some (false, (m, w)) ∧ ∀ j, current_page_num_ it < j → allocated m w id j = false) ∨
  (∃ pn, pool_has_next p it (m, w) = Some (true, (m, w)) ∧ pool_next p it (m, w) = Some ((pn, mkIterator (it_size it) pn), (m, w)) ∧
     current_page_num_ it < pn < it_size it ∧ allocated m w id pn = true ∧ ∀ j, current_page_num_ it < j < pn → allocated m w id j = false).
Proof.
  intros I Hid Hsz Hcur. destruct (opened_intro m w id p I Hid) as (b & h & f & n & a & O).
  rewrite (file_pages_eq _ _ _ _ _ _ _ _ _ O) in Hsz. pose proof (ho_range _ _ _ _ (op_ok _ _ _ _ _ _ _ _ _ O)) as Hr.
  assert (Bitmap.wf (hdr_bitmap (data (page_ f))) (it_size it)) as Hwf by (destruct (hdr_bitmap_wf _ _ _ _ _ _ _ _ _ O); split; [done|lia]).
  destruct (Bitmap.next_setted_bit_first _ _ (current_page_num_ it + 1) Hwf ltac:(lia)) as (r & E & Hfirst).
  assert (pool_has_next p it (m, w) = Some (negb (r =? -1), (m, w))) as Eh.
  { unfold pool_has_next. rewrite (exec (header_eq _ _ _ _ _ _ _ _ _ O)). unfold iterator_has_next. by rewrite E. }
  destruct Hfirst as [[-> Hn]|(Hr' & Hbit & Hn)]; [left|right].
  - split; [done|]. intros j Hj. rewrite (allocated_eq _ _ _ _ _ _ _ _ _ O). destruct (Z.ltb_spec j n); [|by rewrite andb_false_r].
    by rewrite Hn, andb_false_r by lia.
  - exists r. rewrite Eh. split; [by rewrite (proj2 (Z.eqb_neq _ _)) by lia|]. split.
    + unfold pool_next. rewrite (exec (header_eq _ _ _ _ _ _ _ _ _ O)). unfold iterator_next. rewrite E. cbn [mbind option_bind].
      by rewrite (proj2 (Z.eqb_neq _ _)) by lia.
    + split; [lia|]. rewrite (allocated_eq _ _ _ _ _ _ _ _ _ O), Hbit, (proj2 (Z.leb_le _ _)), (proj2 (Z.ltb_lt _ _)) by lia. split; [done|].
      intros j Hj. by rewrite (allocated_eq _ _ _ _ _ _ _ _ _ O), Hn, andb_false_r by lia.
Qed.

Section scan.
Context (m0 : FM) (w0 : World) (id : Z) (p : Ptr) (g : Geometry) σ X.
Context (R0 : ready m0 w0) (Hreg : id_to_buffer_pools_ w0 !! id = Some p) (Hf0 : heap_file m0 w0 id g σ X).
Notation N := (file_pages m0 w0 id).

(** The page handler can be cleaned up, and then all is as it was. *)
Record at_rest (h : RecordPageHandler) m w : Prop := {
  ar_inv : sys_inv m w;
  ar_reg : id_to_buffer_pools_ w !! id = Some p;
  ar_pages : file_pages m w id = N;
  ar_alloc : ∀ j, allocated m w id j = allocated m0 w0 id j;
  ar_clean : ∃ h' m' w', cleanup xid_of t h (m, w) = Some (h', (m', w')) ∧ ph_pool h' = None ∧ ph_format h' = ROW_FORMAT ∧
    file_kept m0 w0 m' w' ∧ kept m0 w0 m' w'
}.

Lemma rest_idle h m w : ph_pool h = None → ph_format h = ROW_FORMAT → file_kept m0 w0 m w → kept m0 w0 m w → at_rest h m w.
Proof.
  intros Hp Hfmt F K. pose proof (fk_ready _ _ _ _ F) as R.
  destruct (allocated_content m0 w0 m w id p (rd_wf _ _ R0) (rd_inv _ _ R0) Hreg (rd_wf _ _ R) (rd_inv _ _ R) (fk_ext _ _ _ _ F) (K id 0)) as [H1 H2].
  split; [apply R|by rewrite (ex_ids _ _ (fk_ext _ _ _ _ F))|done|done|]. exists h, m, w. unfold cleanup. by rewrite Hp.
Qed.

(** The scanner in a page: [mb], [wb] is the state in which it opened the page. *)
Record in_page (h : RecordPageHandler) pn mode fp f m w : Prop := {
  ip_base : ∃ mb wb, file_kept m0 w0 mb wb ∧ kept m0 w0 mb wb ∧ content mb wb id pn = Some (data (page_ f)) ∧
    held xid_of t mb wb id p pn mode (pins mb (mkFrameId id pn)) fp f m w;
  ip_handler : ∃ log, h = open_handler p mode fp log id (g_real g) ROW_FORMAT;
  ip_ok : page_ok (data (page_ f)) g (λ i, σ !! mkRID pn i);
  ip_pos : 0 < pn
}.

Lemma rest_page h pn mode fp f m w : in_page h pn mode fp f m w → at_rest h m w.
Proof.
  intros [(mb & wb & F & K & Hc & Hh) [log ->] Hok Hpn]. pose proof (fk_ready _ _ _ _ F) as R. pose proof Hh as [H1 H2 H3 H4 H5 H6 H7 H8 H9 H10 H11 H12 H13].
  assert (kept_except id pn m0 w0 m w) as Ke by (intros id' pn' d Hne Hd; by apply H13, K).
  assert (extends w0 w) as Xw by (etrans; [apply F|done]).
  destruct (allocated_content m0 w0 m w id p (rd_wf _ _ R0) (rd_inv _ _ R0) Hreg H1 H2 Xw) as [A1 A2].
  { intros d. apply Ke. intros [=]. lia. }
  destruct (allocated_content m0 w0 mb wb id p (rd_wf _ _ R0) (rd_inv _ _ R0) Hreg (rd_wf _ _ R) (rd_inv _ _ R) (fk_ext _ _ _ _ F) (K id 0)) as [_ A3].
  split; [done|done|done|done|].
  destruct (release_unchanged xid_of t mb wb id p pn mode fp f m w g σ X (open_handler p mode fp log id (g_real g) ROW_FORMAT) R) as (m2 & w2 & E2 & K1 & K2 & K3);
    [by apply (heap_file_kept m0 w0)|done|done|done|done|done|done|].
  exists (ph_set_pool None (open_handler p mode fp log id (g_real g) ROW_FORMAT)), m2, w2. split; [exact E2|]. split_and!; [done|done|by eapply file_kept_trans|by eapply kept_trans].
Qed.

(** Between two calls: [rest] is what the scan has still to return. *)
Inductive scan_place (s : HeapRecordScanner) : list Rec → FM → World → Prop :=
  | place_idle h m w : sc_handler s = Some h → ph_pool h = None → ph_format h = ROW_FORMAT → file_kept m0 w0 m w → kept m0 w0 m w →
      (pi_valid (record_page_iterator_ s) = false ∨ next_slot_num_ (record_page_iterator_ s) = -1) →
      scan_place s (filter (λ r, passes s r) (file_records g σ (current_page_num_ (bp_iterator_ s) + 1) N)) m w
  | place_page h fp f i m w : let pn := current_page_num_ (bp_iterator_ s) in
      sc_handler s = Some h → in_page h pn (rw_mode_ s) fp f m w →
      record_page_iterator_ s = mkPageIterator true pn (g_capacity g) i → at_slot g σ pn i →
      scan_place s (filter (λ r, passes s r) (slot_tail g σ pn i ++ file_records g σ (pn + 1) N)) m w.

Record scanning (s : HeapRecordScanner) (rest : list Rec) m w : Prop := {
  sg_pool : sc_pool s = Some p;
  sg_visit : plain_visit s;
  sg_size : it_size (bp_iterator_ s) = N;
  sg_cur : 0 ≤ current_page_num_ (bp_iterator_ s);
  sg_place : scan_place s rest m w
}.

(** How a call ends: with the next record, at the end of the file, or without a
    frame for the next page. *)
Inductive fetch_result (rest : list Rec) : RC → HeapRecordScanner → FM → World → Prop :=
  | fetch_record r rest' s m w : rest = r :: rest' → next_record_ s = r → scanning s rest' m w → fetch_result rest RC.SUCCESS s m w
  | fetch_end s m w : rest = [] → scanning s [] m w → fetch_result rest RC.RECORD_EOF s m w
  | fetch_no_frame mb wb pn rest' s m w : file_kept m0 w0 mb wb → no_frame mb id pn → scanning s rest' m w →
      fetch_result rest RC.BUFFERPOOL_NOBUF s m w.

Lemma no_records_after n : (∀ j, n < j → allocated m0 w0 id j = false) → 0 ≤ n → file_records g σ (n + 1) N = [].
Proof.
  intros Hn H0. apply elem_of_nil_inv. intros r (pn & i & Hpn & Hi & _ & Hs)%elem_of_file_records.
  destruct (hp_dom _ _ _ _ _ _ Hf0 pn i) as [_ Ha]; [by eexists|]. rewrite Hn in Ha by lia. done.
Qed.

Lemma records_skipped n pn :
  (∀ j, n < j < pn → allocated m0 w0 id j = false) → n < pn < N →
  file_records g σ (n + 1) N = page_records g σ pn 0 ++ file_records g σ (pn + 1) N.
Proof.
  intros Hn Hr. rewrite (file_records_skip g σ (n + 1) pn N), file_records_cons; [done|lia|lia|].
  intros x j Hx. apply eq_None_not_Some. intros Hs. destruct (hp_dom _ _ _ _ _ _ Hf0 x j Hs) as [_ Ha]. rewrite Hn in Ha by lia. done.
Qed.

(** A page is opened for the scan. *)
Lemma open_for_scan h m w pn mode log :
  ph_pool h = None → ph_format h = ROW_FORMAT → file_kept m0 w0 m w → kept m0 w0 m w → 0 < pn → allocated m0 w0 id pn = true →
  (∃ fp f m' w', let h' := open_handler p mode fp log id (g_real g) ROW_FORMAT in
     handler_init xid_of t h p log pn mode (m, w) = Some ((RC.SUCCESS, h'), (m', w')) ∧ in_page h' pn mode fp f m' w') ∨
  (∃ h' m' w', handler_init xid_of t h p log pn mode (m, w) = Some ((RC.BUFFERPOOL_NOBUF, h'), (m', w')) ∧ no_frame m id pn ∧
     ph_pool h' = None ∧ ph_format h' = ROW_FORMAT ∧ file_kept m0 w0 m' w' ∧ kept m0 w0 m' w').
Proof.
  intros Hp Hfmt F K Hpn Ha. pose proof (fk_ready _ _ _ _ F) as R. unfold handler_init. rewrite Hp.
  assert (id_to_buffer_pools_ w !! id = Some p) as Hid by (by rewrite (ex_ids _ _ (fk_ext _ _ _ _ F))).
  destruct (allocated_content m0 w0 m w id p (rd_wf _ _ R0) (rd_inv _ _ R0) Hreg (rd_wf _ _ R) (rd_inv _ _ R) (fk_ext _ _ _ _ F) (K id 0)) as [_ A].
  destruct (open_page_ok xid_of t Hxid m w id p pn mode log h (rd_wf _ _ R) (rd_inv _ _ R) (rd_latch _ _ R)) as (rc & h1 & m1 & w1 & E & Ho);
    [intros x; pose proof (rd_pins _ _ R x); lia|done|].
  destruct Ho as [Ha'|m1 w1 _ Hpk Hl Nb|fp f real m1 w1 _ Hreal Hc Hh _]; [rewrite A in Ha'; congruence|right|left].
  - exists (ph_set_frame None h), m1, w1. split; [exact E|]. destruct (no_buffer_kept m w id p m1 w1 R Hid Hl Nb) as (K1 & K2 & _).
    split; [split_and!; [done|apply Nb|apply Nb]|]. split_and!; [done|done|by eapply file_kept_trans|by eapply kept_trans].
  - destruct (hp_page _ _ _ _ _ _ Hf0 pn Hpn Ha) as (d & Hd & Hok). apply K in Hd. rewrite Hc in Hd. injection Hd as <-.
    destruct (page_ok_real _ _ _ Hok) as [Hreal' _]. rewrite Hreal in Hreal'. injection Hreal' as ->. rewrite Hfmt in E.
    exists fp, f, m1, w1. split; [exact E|]. split; [by exists m, w|by exists log|done|done].
Qed.

Lemma page_step s h pn fp f i v m w :
  sc_handler s = Some h → in_page h pn (rw_mode_ s) fp f m w → record_page_iterator_ s = mkPageIterator v pn (g_capacity g) i →
  plain_visit s → at_slot g σ pn i →
  ∃ i' rec, fetch_next_record_in_page s (m, w) =
      Some (match filter (λ r, passes s r) (slot_tail g σ pn i) with [] => RC.RECORD_EOF | _ => RC.SUCCESS end,
            sc_set_iterator (mkPageIterator v pn (g_capacity g) i') rec s, (m, w)) ∧
    match filter (λ r, passes s r) (slot_tail g σ pn i) with
    | [] => i' = -1
    | r :: rest => rec = r ∧ filter (λ r, passes s r) (slot_tail g σ pn i') = rest ∧ at_slot g σ pn i'
    end.
Proof.
  intros Hsh [(mb & wb & F & K & Hc & Hh) [log Hlog] Hok Hpn] Hit Hv Hi. unfold fetch_next_record_in_page. rewrite Hit. cbn [pi_size].
  destruct (held_frame xid_of t _ _ _ _ _ _ _ _ _ _ _ Hh) as (Hm & Hfid & _).
  destruct (in_page_ok m w fp f (fm_stats m) g σ pn h Hok) with (n := S (S (Z.to_nat (g_capacity g)))) (s := s) (i := i) (v := v)
    as (i' & rec & E & Hres); [by subst h|by subst h|done|done|done|done|lia|destruct Hi; lia|].
  rewrite <-Hm in E. by exists i', rec.
Qed.

Lemma page_first h pn mode fp f m w :
  in_page h pn mode fp f m w →
  ∃ i, pi_init h 0 (m, w) = Some (mkPageIterator true pn (g_capacity g) i, (m, w)) ∧ at_slot g σ pn i ∧ page_records g σ pn 0 = slot_tail g σ pn i.
Proof.
  intros [(mb & wb & F & K & Hc & Hh) [log ->] Hok Hpn]. destruct (held_frame xid_of t _ _ _ _ _ _ _ _ _ _ _ Hh) as (Hm & Hfid & _).
  rewrite Hm. apply pi_init_ok; try done. by rewrite Hfid.
Qed.

Lemma fetch_pages_ok n s m w h :
  sc_pool s = Some p → plain_visit s → it_size (bp_iterator_ s) = N → 0 ≤ current_page_num_ (bp_iterator_ s) →
  sc_handler s = Some h → at_rest h m w →
  (pi_valid (record_page_iterator_ s) = false ∨ next_slot_num_ (record_page_iterator_ s) = -1) →
  (0 < n)%nat → N - current_page_num_ (bp_iterator_ s) ≤ Z.of_nat n →
  ∃ rc s' m' w', fetch_pages_loop xid_of t n s (m, w) = Some ((rc, s'), (m', w')) ∧
    fetch_result (filter (λ r, passes s r) (file_records g σ (current_page_num_ (bp_iterator_ s) + 1) N)) rc s' m' w' ∧
    (∀ r, passes s' r = passes s r).
Proof.
  revert s m w h. induction n as [|n IH]; intros s m w h Hp Hv Hsz Hcur Hsh [A1 A2 A3 A4 (h' & m1 & w1 & Ec & C1 & C2 & C3 & C4)] Hit Hn Hfuel; [lia|].
  cbn [fetch_pages_loop]. rewrite Hp, Hsh. do 2 exec_deref.
  destruct (pool_next_ok m w id p (bp_iterator_ s) A1 A2) as [[Eh Hnone]|(pn & Eh & En & Hpn & Ha & Hskip)]; [by rewrite A3|done|..];
    rewrite (exec Eh); cbn [negb].
  - rewrite (exec Ec). cbv zeta. eexists _, _, m1, w1. split; [reflexivity|]. split; [|done].
    rewrite no_records_after; [|intros j Hj; by rewrite <-A4, Hnone|done]. apply fetch_end; [done|]. split; [done|done|done|done|].
    match goal with |- scan_place ?s' _ _ _ => pose proof (place_idle s' h' m1 w1 eq_refl C1 C2 C3 C4 Hit) as Hpl end.
    cbn [bp_iterator_ sc_set_page sc_set_iterator] in Hpl. rewrite no_records_after in Hpl; [done|intros j Hj; by rewrite <-A4, Hnone|done].
  - rewrite (exec En), (exec Ec). rewrite A4 in Ha.
    assert (∀ j, current_page_num_ (bp_iterator_ s) < j < pn → allocated m0 w0 id j = false) as Hskip' by (intros j Hj; by rewrite <-A4, Hskip).
    rewrite (records_skipped _ pn Hskip') by lia.
    destruct (open_for_scan h' m1 w1 pn (rw_mode_ s) (sc_log s) C1 C2 C3 C4 ltac:(lia) Ha) as
      [(fp & f & m2 & w2 & E & Hip)|(h2 & m2 & w2 & E & Hno & D1 & D2 & D3 & D4)]; rewrite (exec E).
    + change (RC.OB_FAIL RC.SUCCESS) with false. cbv beta iota zeta. cbv zeta in Hip. set (h2 := open_handler p (rw_mode_ s) fp (sc_log s) id (g_real g) ROW_FORMAT) in *.
      destruct (page_first h2 pn _ fp f m2 w2 Hip) as (i & Ei & Hi & Hr). rewrite (exec Ei). rewrite Hr.
      set (s1 := sc_set_iterator _ _ _). destruct (page_step s1 h2 pn fp f i true m2 w2 eq_refl Hip eq_refl Hv Hi) as (i' & rec & E2 & Hres).
      rewrite (exec E2). change (λ r : Rec, passes s1 r : Prop) with (λ r : Rec, passes s r : Prop) in *. rewrite list.filter_app.
      destruct (filter (λ r, passes s r) (slot_tail g σ pn i)) as [|r rest].
      * rewrite bool_decide_eq_false_2 by (intros Hne; by apply Hne). subst i'.
        destruct (IH (sc_set_iterator (mkPageIterator true pn (g_capacity g) (-1)) rec s1) m2 w2 h2) as (rc & s' & m' & w' & E3 & Hf3 & Hp3);
          [done|done|done|cbn; lia|done|by eapply rest_page|by right|lia|cbn; lia|].
        exists rc, s', m', w'. split; [exact E3|]. by split.
      * rewrite bool_decide_eq_true_2 by done. destruct Hres as (-> & Hrest & Hi').
        eexists _, _, m2, w2. split; [reflexivity|]. split; [|done]. cbn [app]. eapply fetch_record; [reflexivity|done|].
        split; [done|done|done|cbn; lia|]. rewrite <-Hrest, <-list.filter_app.
        exact (place_page (sc_set_iterator (mkPageIterator true pn (g_capacity g) i') r s1) h2 fp f i' m2 w2 eq_refl Hip eq_refl Hi').
    + change (RC.OB_FAIL RC.BUFFERPOOL_NOBUF) with true. cbv beta iota zeta. eexists _, _, m2, w2. split; [reflexivity|]. split; [|done].
      match goal with |- fetch_result _ _ ?s' _ _ => pose proof (place_idle s' h2 m2 w2 eq_refl D1 D2 D3 D4 Hit) as Hpl end.
      eapply (fetch_no_frame _ m1 w1 pn); [done|done|]. split; [done|done|done|cbn; lia|exact Hpl].
Qed.

Lemma fetch_next_ok s rest m w :
  scanning s rest m w →
  ∃ rc s' m' w', fetch_next_record xid_of t s (m, w) = Some ((rc, s'), (m', w')) ∧ fetch_result rest rc s' m' w' ∧ (∀ r, passes s' r = passes s r).
Proof.
  intros [S1 S2 S3 S4 S5]. unfold fetch_next_record. destruct S5 as [h m w H1 H2 H3 H4 H5 Hit|h fp f i m w pn H1 H2 Hit Hi].
  - pose proof (rest_idle h m w H2 H3 H4 H5) as Hrest. destruct (pi_valid (record_page_iterator_ s)) eqn:Hpv.
    + destruct Hit as [?|Hit]; [done|]. assert (fetch_next_record_in_page s (m, w) =
        Some ((RC.RECORD_EOF, sc_set_iterator (record_page_iterator_ s) (no_slot (next_record_ s)) s), (m, w))) as Ee.
      { unfold fetch_next_record_in_page. cbn [fetch_in_page_loop]. unfold pi_has_next. by rewrite Hit. }
      rewrite (exec Ee). cbv beta iota.
      rewrite bool_decide_eq_false_2 by (intros Hne; by apply Hne).
      match goal with |- context [fetch_pages_loop _ _ ?n ?s' _] => destruct (fetch_pages_ok n s' m w h S1 S2 S3 S4 H1 Hrest) as (rc & s2 & m2 & w2 & E & Hr & Hp) end;
        [by right|lia|cbn [bp_iterator_ sc_set_iterator]; rewrite S3; lia|]. exists rc, s2, m2, w2. split; [exact E|]. by split.
    + erewrite (bind_run (mret _)) by done. cbv beta iota. rewrite bool_decide_eq_false_2 by (intros Hne; by apply Hne).
      destruct (fetch_pages_ok (S (Z.to_nat (it_size (bp_iterator_ s)))) s m w h S1 S2 S3 S4 H1 Hrest) as (rc & s2 & m2 & w2 & E & Hr & Hp);
        [by left|lia|rewrite S3; lia|]. by exists rc, s2, m2, w2.
  - rewrite Hit. cbn [pi_valid]. destruct (page_step s h pn fp f i true m w H1 H2 Hit S2 Hi) as (i' & rec & E & Hres).
    rewrite (exec E). rewrite list.filter_app. destruct (filter (λ r, passes s r) (slot_tail g σ pn i)) as [|r rest].
    + rewrite bool_decide_eq_false_2 by (intros Hne; by apply Hne). subst i'. set (s1 := sc_set_iterator _ _ _).
      destruct (fetch_pages_ok (S (Z.to_nat (it_size (bp_iterator_ s1)))) s1 m w h S1 S2 S3 S4 H1 (rest_page _ _ _ _ _ _ _ H2)) as (rc & s2 & m2 & w2 & E2 & Hr & Hp);
        [by right|lia|cbn [bp_iterator_ sc_set_iterator s1]; rewrite S3; lia|]. exists rc, s2, m2, w2. split; [exact E2|]. by split.
    + rewrite bool_decide_eq_true_2 by done. destruct Hres as (-> & Hrest & Hi'). eexists _, _, m, w. split; [reflexivity|]. split; [|done].
      cbn [app]. eapply fetch_record; [reflexivity|done|]. split; [done|done|done|done|]. rewrite <-Hrest, <-list.filter_app.
      exact (place_page (sc_set_iterator (mkPageIterator true pn (g_capacity g) i') r s) h fp f i' m w H1 H2 eq_refl Hi').
Qed.

Lemma open_scan_ok s :
  sc_pool s = Some p → plain_visit s → sc_format s = ROW_FORMAT → pi_valid (record_page_iterator_ s) = false →
  ∃ s', open_scan s (m0, w0) = Some ((RC.SUCCESS, s'), (m0, w0)) ∧ (∀ r, passes s' r = passes s r) ∧
    scanning s' (filter (λ r, passes s r) (file_records g σ 1 N)) m0 w0.
Proof.
  intros Hp Hv Hfmt Hit. unfold open_scan. rewrite Hp. exec_deref.
  destruct (opened_intro m0 w0 id p (rd_inv _ _ R0) Hreg) as (b & h & f & n & a & O).
  erewrite (bind_run (pool_iterator _ _)) by (unfold pool_iterator; rewrite (exec (page_count_eq _ _ _ _ _ _ _ _ _ O)); done).
  eexists. split; [reflexivity|]. split; [done|]. rewrite Hfmt. split; [done|done|by rewrite (file_pages_eq _ _ _ _ _ _ _ _ _ O)|done|].
  match goal with |- scan_place ?s' _ _ _ =>
    exact (place_idle s' (create_page_handler ROW_FORMAT) m0 w0 eq_refl eq_refl eq_refl (file_kept_refl m0 w0 R0) (kept_refl m0 w0) (or_introl Hit)) end.
Qed.

(** The page handler of a scanner that is closed lets go of its page. *)
Lemma close_scan_ok s rest m w :
  scanning s rest m w →
  ∃ s' m' w', close_scan xid_of t s (m, w) = Some ((RC.SUCCESS, s'), (m', w')) ∧ sc_handler s' = None ∧ file_kept m0 w0 m' w' ∧ kept m0 w0 m' w'.
Proof.
  intros [_ _ _ _ S5].
  assert (∃ h, sc_handler s = Some h ∧ at_rest h m w) as (h & Hh & [_ _ _ _ (h' & m' & w' & E & _ & _ & F & K)]).
  { destruct S5 as [h m w H1 H2 H3 H4 H5 _|h fp f i m w pn H1 H2 _ _]; exists h; (split; [done|]); [by apply rest_idle|by eapply rest_page]. }
  unfold close_scan. rewrite Hh. erewrite (bind_run (_ ≫= _)) by (rewrite (exec E); done).
  eexists _, m', w'. split; [reflexivity|]. by split_and!.
Qed.

(** A client that calls [next] until it is refused. *)
Fixpoint scan_all (n : nat) (s : HeapRecordScanner) : M Sys (RC * list Rec * HeapRecordScanner) :=
  match n with
  | O => abort
  | S n =>
      '(rc, r, s) ← scan_next xid_of t s;
      match r with
      | None => mret (rc, [], s)
      | Some r => '(rc, rs, s) ← scan_all n s; mret (rc, r :: rs, s)
      end
  end.

Lemma scan_all_ok n s rest m w :
  scanning s rest m w → (length rest < n)%nat →
  ∃ rc rs s' rest' m' w', scan_all n s (m, w) = Some ((rc, rs, s'), (m', w')) ∧ scanning s' rest' m' w' ∧
    (rc = RC.RECORD_EOF ∧ rs = rest ∨
     rc = RC.BUFFERPOOL_NOBUF ∧ rs `prefix_of` rest ∧ ∃ mb wb pn, file_kept m0 w0 mb wb ∧ no_frame mb id pn).
Proof.
  revert s rest m w. induction n as [|n IH]; intros s rest m w Hs Hn; [lia|]. cbn [scan_all]. unfold scan_next.
  destruct (fetch_next_ok s rest m w Hs) as (rc & s1 & m1 & w1 & E & Hr & _).
  destruct Hr as [r rest' s1 m1 w1 -> Hrec Hs1|s1 m1 w1 -> Hs1|mb wb pn rest' s1 m1 w1 F Hno Hs1].
  - erewrite (bind_run (_ ≫= _)) by (rewrite (exec E); done). cbv beta iota.
    destruct (IH s1 rest' m1 w1 Hs1) as (rc & rs & s' & rest2 & m' & w' & E2 & Hs' & Hres); [cbn in Hn; lia|].
    rewrite (exec E2). cbv beta iota. eexists _, _, s', rest2, m', w'. split; [reflexivity|]. split; [done|].
    rewrite Hrec. destruct Hres as [[-> ->]|(-> & Hpre & Hno)]; [by left|right]. split_and!; [done|by apply prefix_cons|done].
  - erewrite (bind_run (_ ≫= _)) by (rewrite (exec E); done). cbv beta iota.
    eexists _, _, s1, [], m1, w1. split; [reflexivity|]. split; [done|]. by left.
  - erewrite (bind_run (_ ≫= _)) by (rewrite (exec E); done). cbv beta iota.
    eexists _, _, s1, rest', m1, w1. split; [reflexivity|]. split; [done|]. right. split_and!; [done|apply prefix_nil|by exists mb, wb, pn].
Qed.
End scan.
End record_scan.

Section record_open.
Context {P L : Type} `{!ReplacementPolicy P} `{!PolicyLaws P} `{!LogHandler L} `{!LogLaws L} `{HOrd : HashOrder}.
Context (xid_of : thread_id → Z) (t : thread_id) (Hxid : xid_of t ≠ 0).
Notation World := (World L).
Notation Sys := (Sys L P).
Notation FM := (BPFrameManager (P:=P)).
Implicit Types (w : World) (pn : PageNum) (m : FM) (fp : Ptr) (f : Frame) (σ : gmap RID (list Z)) (X : gset PageNum).

Section open.
Context (m0 : FM) (w0 : World) (id : Z) (p : Ptr) (g : Geometry) σ X0 (log : LogRef).
Context (R0 : ready m0 w0) (Hreg : id_to_buffer_pools_ w0 !! id = Some p) (Hf0 : heap_file m0 w0 id g σ X0).
Notation N := (file_pages m0 w0 id).

(** Page [pn] is a record page with a free slot. *)
Definition has_room pn : Prop := 0 < pn ∧ allocated m0 w0 id pn = true ∧ ∃ i, 0 ≤ i < g_capacity g ∧ σ !! mkRID pn i = None.

Lemma room_or_full pn : (∀ i, 0 ≤ i < g_capacity g → is_Some (σ !! mkRID pn i)) ∨ ∃ i, 0 ≤ i < g_capacity g ∧ σ !! mkRID pn i = None.
Proof.
  destruct (decide (Forall (λ i, is_Some (σ !! mkRID pn i)) (seqZ 0 (g_capacity g)))) as [Hall|Hex].
  - left. intros i Hi. rewrite list.Forall_forall in Hall. apply Hall, elem_of_seqZ. lia.
  - right. apply not_Forall_Exists, list.Exists_exists in Hex as (i & Hi%elem_of_seqZ & Hno); [|apply _]. exists i. split; [lia|]. by apply eq_None_not_Some.
Qed.

Lemma free_pages_ok n it h X m w :
  ph_pool h = None → ph_format h = ROW_FORMAT → file_kept m0 w0 m w → kept m0 w0 m w → it_size it = N → 0 ≤ current_page_num_ it →
  (∀ pn, pn ∈ X ↔ has_room pn ∧ pn ≤ current_page_num_ it) → (0 < n)%nat → N - current_page_num_ it ≤ Z.of_nat n →
  ∃ rc X' m' w', free_pages_loop xid_of t n p log it h X (m, w) = Some ((rc, X'), (m', w')) ∧ file_kept m0 w0 m' w' ∧ kept m0 w0 m' w' ∧
    (rc = RC.SUCCESS ∧ (∀ pn, pn ∈ X' ↔ has_room pn) ∨
     rc = RC.BUFFERPOOL_NOBUF ∧ (∀ pn, pn ∈ X' → has_room pn) ∧ ∃ mb wb pn, file_kept m0 w0 mb wb ∧ no_frame mb id pn).
Proof.
  revert it h X m w. induction n as [|n IH]; intros it h X m w Hp Hfmt F K Hsz Hcur HX Hn Hfuel; [lia|]. cbn [free_pages_loop].
  destruct (rest_idle xid_of t m0 w0 id p R0 Hreg h m w Hp Hfmt F K) as [A1 A2 A3 A4 _].
  assert (cleanup xid_of t h (m, w) = Some (h, (m, w))) as Ec by (unfold cleanup; by rewrite Hp).
  destruct (pool_next_ok m w id p it A1 A2) as [[Eh Hnone]|(pn & Eh & En & Hpn & Ha & Hskip)]; [by rewrite A3|done|..];
    rewrite (exec Eh); cbn [negb].
  - rewrite (exec Ec). eexists _, _, m, w. split; [reflexivity|]. split_and!; [done|done|]. left. split; [done|].
    intros pn. rewrite HX. split; [by intros [? _]|]. intros Hr. split; [done|]. destruct Hr as (_ & Ha & _).
    destruct (decide (pn ≤ current_page_num_ it)); [done|]. rewrite <-A4, Hnone in Ha by lia. done.
  - rewrite (exec En). rewrite A4 in Ha.
    destruct (open_for_scan xid_of t Hxid m0 w0 id p g σ X0 R0 Hreg Hf0 h m w pn READ_ONLY log Hp Hfmt F K ltac:(lia) Ha) as
      [(fp & f & m2 & w2 & E & Hip)|(h2 & m2 & w2 & E & Hno & D1 & D2 & D3 & D4)]; rewrite (exec E).
    + cbv beta iota zeta. cbv zeta in Hip. rewrite bool_decide_eq_false_2 by (by intros []). set (h2 := open_handler p READ_ONLY fp log id (g_real g) ROW_FORMAT) in *.
      pose proof Hip as [(mb & wb & _ & _ & _ & Hh) _ Hok _]. destruct (held_frame xid_of t _ _ _ _ _ _ _ _ _ _ _ Hh) as (Hm & _).
      destruct (is_full_raw m2 w2 fp h2 f (fm_stats m2) g _ eq_refl Hok) as (full & Ef & Hfull). rewrite <-Hm in Ef. rewrite (exec Ef).
      destruct (rest_page xid_of t m0 w0 id p g σ X0 R0 Hreg Hf0 h2 pn READ_ONLY fp f m2 w2 Hip) as [_ _ _ _ (h3 & m3 & w3 & E3 & C1 & C2 & C3 & C4)].
      cbv beta iota zeta. rewrite (exec E3).
      destruct (IH (mkIterator (it_size it) pn) h3 (if full then X else {[pn]} ∪ X) m3 w3) as (rc & X' & m' & w' & E4 & Hres);
        [done|done|done|done|done|cbn; lia| |lia|cbn; lia|by exists rc, X', m', w'].
      cbn [current_page_num_]. intros x.
      assert (x ∈ X ↔ has_room x ∧ x < pn) as HX'.
      { rewrite HX. split; intros [Hr Hx]; (split; [done|]); [lia|]. destruct Hr as (_ & Hax & _).
        destruct (decide (x ≤ current_page_num_ it)); [done|]. rewrite <-A4, Hskip in Hax by lia. done. }
      destruct full.
      * rewrite HX'. split; [intros [? ?]; split; [done|lia]|]. intros [Hr Hx]. split; [done|]. destruct (decide (x = pn)) as [->|]; [|lia].
        destruct Hr as (_ & _ & i & Hi & Hnil). destruct (proj1 Hfull eq_refl i Hi). congruence.
      * destruct (decide (x = pn)) as [->|Hne]; [|rewrite page_added_ne, HX' by done; split; intros [? ?]; (split; [done|lia])].
        split; [intros _|intros _; apply page_added]. split; [|lia]. split_and!; [lia|done|]. destruct (room_or_full pn) as [Hall|Hex]; [|done].
        apply Hfull in Hall. done.
    + cbv beta iota zeta. rewrite bool_decide_eq_true_2 by done.
      assert (cleanup xid_of t h2 (m2, w2) = Some (h2, (m2, w2))) as Ec2 by (unfold cleanup; by rewrite D1). rewrite (exec Ec2).
      eexists _, _, m2, w2. split; [reflexivity|]. split_and!; [done|done|]. right. split_and!; [done|intros x Hx; by apply HX|by exists m, w, pn].
Qed.

Lemma file_init_ok tm h :
  fh_pool h = None → fh_format h = ROW_FORMAT → free_pages_ h = ∅ →
  ∃ X' m' w', file_init xid_of t p log tm h (m0, w0) = Some ((RC.SUCCESS, row_file p log X' tm), (m', w')) ∧
    file_kept m0 w0 m' w' ∧ kept m0 w0 m' w' ∧
    ((∀ pn, pn ∈ X' ↔ has_room pn) ∧ heap_file m' w' id g σ X' ∨
     (∀ pn, pn ∈ X' → has_room pn) ∧ ∃ mb wb pn, file_kept m0 w0 mb wb ∧ no_frame mb id pn).
Proof.
  intros Hp Hfmt HX. unfold file_init, init_free_pages. rewrite Hp, HX. cbn [free_pages_ fh_format]. rewrite Hfmt.
  destruct (opened_intro m0 w0 id p (rd_inv _ _ R0) Hreg) as (b & hh & f & n & a & O). pose proof (page_count_eq _ _ _ _ _ _ _ _ _ O) as Ep.
  pose proof (file_pages_eq _ _ _ _ _ _ _ _ _ O) as HN. pose proof (ho_range _ _ _ _ (op_ok _ _ _ _ _ _ _ _ _ O)) as Hr.
  destruct (free_pages_ok (S (Z.to_nat n)) (iterator_init n 1) (create_page_handler ROW_FORMAT) ∅ m0 w0) as (rc & X' & m' & w' & E & F & K & Hres);
    [done|done|by apply file_kept_refl|apply kept_refl|by rewrite HN|done| |lia|rewrite HN; cbn; lia|].
  { intros pn. split; [set_solver|]. intros [[Hpos _] Hle]. cbn in Hle. lia. }
  exists X', m', w'. split; [|split; [done|split; [done|]]].
  - erewrite (bind_run (_ ≫= _)); [|].
    2:{ erewrite (bind_run (pool_iterator _ _)) by (unfold pool_iterator; rewrite (exec Ep); done).
        rewrite (exec Ep), (exec E). done. }
    cbv beta iota. done.
  - destruct Hres as [[_ Hroom]|(_ & Hroom & Hno)]; [left|right; by split]. split; [done|].
    pose proof (fk_ready _ _ _ _ F) as R'.
    destruct (allocated_content m0 w0 m' w' id p (rd_wf _ _ R0) (rd_inv _ _ R0) Hreg (rd_wf _ _ R') (rd_inv _ _ R') (fk_ext _ _ _ _ F) (K id 0)) as [_ A].
    apply (heap_file_kept m0 w0); [|done|done]. destruct Hf0 as [H1 H2 H3 H4]. split; [done|done| |].
    + intros pn Hpn. apply Hroom in Hpn as (H5 & H6 & _). done.
    + intros pn i Hpn Ha Hi Hnil. apply Hroom. split_and!; [done|done|by exists i].
Qed.
End open.
End record_open.
