(* ===== verification/RecordReplay.v ===== *)
(** * Replaying the record log

    [RecordLogReplayer] of [storage/record/record_log.cpp].  An entry is applied to
    its page unless the page already carries its LSN or a later one; the handlers it
    works with write no log of their own.  Then what that does to a heap file: an entry
    that the page has not seen is applied to the records of its page and leaves its LSN
    there; an entry it has seen is skipped. *)


From S2P Require Import Prelude Types Crc Os Bytes Bitmap Replacement PageIO LruCache MemPool Stats Latch Frame FrameManager FrameSafety BufferPool DoubleWrite DiskBufferPool StorageSafety PoolSafety PageAccess RecordPage FileHeader PageAlloc PageDispose LatchKept RecordManager RecordSafety RecordFile.
Local Open Scope Z_scope.

(** [StorageFormat(int)]. *)
Definition storage_format_of (z : Z) : StorageFormat :=
  if z =? 1 then ROW_FORMAT else if z =? 2 then PAX_FORMAT else UNKNOWN_FORMAT.

(** [log_header.data]: the bytes behind the header. *)
Definition record_log_data (payload : list Z) : list Z := drop 24 payload.

Section record_replay.
Context {P L : Type} `{!ReplacementPolicy P} `{!LogHandler L} `{HOrd : HashOrder}.
Context (xid_of : thread_id → Z) (t : thread_id) (uninit : Z).
Notation Sys := (Sys L P).

(** The end of [replay_insert], [replay_delete] and [replay_update]: the page is
    opened, [body] works on it, and the handler goes out of scope. *)
Definition on_replayed_page (p : Ptr) (h : RecordLogHeader) (body : RecordPageHandler → M Sys RC) : M Sys RC :=
  '(rc, ph) ← handler_init xid_of t (create_page_handler (storage_format_of (rl_storage_format h))) p NoLog (rl_page_num h) READ_WRITE;
  if RC.OB_FAIL rc then cleanup xid_of t ph;; mret rc
  else rc ← body ph; cleanup xid_of t ph;; mret rc.

Definition replay_init_page (p : Ptr) (h : RecordLogHeader) (d : list Z) : M Sys RC :=
  '(rc, ph) ← init_empty_page_from xid_of t (create_page_handler (storage_format_of (rl_storage_format h))) p NoLog (rl_page_num h)
                (rl_slot_or_size h) (rl_column_num h) d;
  cleanup xid_of t ph;; mret rc.

Definition replay_insert (p : Ptr) (h : RecordLogHeader) (d : list Z) : M Sys RC :=
  on_replayed_page p h (λ ph, '(rc, _) ← insert_record ph d; mret rc).

Definition replay_delete (p : Ptr) (h : RecordLogHeader) : M Sys RC :=
  on_replayed_page p h (λ ph, delete_record uninit ph (mkRID (rl_page_num h) (rl_slot_or_size h))).

Definition replay_update (p : Ptr) (h : RecordLogHeader) (d : list Z) : M Sys RC :=
  on_replayed_page p h (λ ph, update_record ph (mkRID (rl_page_num h) (rl_slot_or_size h)) d).

Definition record_redo (p : Ptr) (h : RecordLogHeader) (d : list Z) : M Sys RC :=
  match rec_operation_of (rl_operation_type h) with
  | Some INIT_PAGE => replay_init_page p h d
  | Some INSERT => replay_insert p h d
  | Some DELETE => replay_delete p h
  | Some UPDATE => replay_update p h d
  | None => mret RC.INVALID_ARGUMENT
  end.

Definition record_replay (entry_lsn : LSN) (module_id : Z) (payload : list Z) : M Sys RC :=
  if negb (module_id =? RECORD_MANAGER) then mret RC.INVALID_ARGUMENT
  else if Z.of_nat (length payload) <? RecordLogHeader_SIZE then mret RC.INVALID_ARGUMENT
  else
    h ← deref (bytes_record_log payload);
    '(rc, buffer_pool) ← get_buffer_pool (rl_buffer_pool_id h);
    match buffer_pool with
    | None => mret rc
    | Some p =>
        '(rc, frame) ← get_this_page p (rl_page_num h);
        if RC.OB_FAIL rc then mret rc
        else
          fp ← deref frame;
          f ← frame_of fp;
          rc ← (if entry_lsn <=? lsn (page_ f) then mret RC.SUCCESS
                else
                  rc ← record_redo p h (record_log_data payload);
                  if RC.OB_FAIL rc then mret rc
                  else set_frame fp (frame_set_lsn entry_lsn);; mret RC.SUCCESS);
          unpin_page p fp;;
          mret rc
    end.
End record_replay.

(** ** The codec of the log records *)
Lemma get_i32_at (a b : list Z) (z : Z) : in_srange 32 z → get_i32 (a ++ le_bytes 4 z ++ b) (length a) = Some z.
Proof.
  intros Hz. unfold get_i32, get_bytes. rewrite decide_True by (rewrite !length_app, le_bytes_length; lia). cbn [mbind option_bind].
  rewrite drop_app_length. rewrite take_app_le, take_ge by (rewrite le_bytes_length; lia). f_equal. apply (le_signed 4); [lia|exact Hz].
Qed.

Record header_range (h : RecordLogHeader) : Prop := {
  hr_pool : in_srange 32 (rl_buffer_pool_id h);
  hr_type : in_srange 32 (rl_operation_type h);
  hr_page : in_srange 32 (rl_page_num h);
  hr_format : in_srange 32 (rl_storage_format h);
  hr_column : in_srange 32 (rl_column_num h);
  hr_slot : in_srange 32 (rl_slot_or_size h)
}.

Lemma record_log_decode h d :
  header_range h → bytes_record_log (record_log_bytes h ++ d) = Some h ∧ record_log_data (record_log_bytes h ++ d) = d ∧
    RecordLogHeader_SIZE ≤ Z.of_nat (length (record_log_bytes h ++ d)).
Proof.
  intros [H1 H2 H3 H4 H5 H6]. destruct h as [b o n s c x]. cbn [rl_buffer_pool_id rl_operation_type rl_page_num rl_storage_format rl_column_num rl_slot_or_size] in *. unfold bytes_record_log, record_log_bytes, record_log_data. cbn [rl_buffer_pool_id rl_operation_type rl_page_num rl_storage_format rl_column_num rl_slot_or_size].
  pose proof (le_bytes_length 4) as Hl. rewrite <-!(assoc_L (++)).
  pose proof (get_i32_at [] (le_bytes 4 o ++ le_bytes 4 n ++ le_bytes 4 s ++ le_bytes 4 c ++ le_bytes 4 x ++ d) b H1) as E1.
  change ([] ++ ?l) with l in E1. cbn [length] in E1. rewrite E1. cbn [mbind option_bind].
  pose proof (get_i32_at (le_bytes 4 b) (le_bytes 4 n ++ le_bytes 4 s ++ le_bytes 4 c ++ le_bytes 4 x ++ d) o H2) as E2. rewrite Hl in E2. rewrite E2. cbn [mbind option_bind].
  pose proof (get_i32_at (le_bytes 4 b ++ le_bytes 4 o) (le_bytes 4 s ++ le_bytes 4 c ++ le_bytes 4 x ++ d) n H3) as E3.
  rewrite length_app, !Hl, <-!(assoc_L (++)) in E3. change (4 + 4)%nat with 8%nat in E3. rewrite E3. cbn [mbind option_bind].
  pose proof (get_i32_at (le_bytes 4 b ++ le_bytes 4 o ++ le_bytes 4 n) (le_bytes 4 c ++ le_bytes 4 x ++ d) s H4) as E4.
  rewrite !length_app, !Hl, <-!(assoc_L (++)) in E4. change (4 + (4 + 4))%nat with 12%nat in E4. rewrite E4. cbn [mbind option_bind].
  pose proof (get_i32_at (le_bytes 4 b ++ le_bytes 4 o ++ le_bytes 4 n ++ le_bytes 4 s) (le_bytes 4 x ++ d) c H5) as E5.
  rewrite !length_app, !Hl, <-!(assoc_L (++)) in E5. change (4 + (4 + (4 + 4)))%nat with 16%nat in E5. rewrite E5. cbn [mbind option_bind].
  pose proof (get_i32_at (le_bytes 4 b ++ le_bytes 4 o ++ le_bytes 4 n ++ le_bytes 4 s ++ le_bytes 4 c) d x H6) as E6.
  rewrite !length_app, !Hl, <-!(assoc_L (++)) in E6. change (4 + (4 + (4 + (4 + 4))))%nat with 20%nat in E6. rewrite E6. cbn [mbind option_bind]. split; [done|]. split.
  - rewrite !(assoc_L (++)). rewrite drop_app_length'; [done|]. rewrite !length_app, !Hl. done.
  - rewrite !length_app, !Hl. unfold RecordLogHeader_SIZE. lia.
Qed.

(** ** What an entry does *)
(** What an entry does to the records of its page: the code it ends with, and the
    slot it changes.  An insertion chooses the slot anew, without a look at the logged
    one: it is the first free slot, and there is none in a full page.  A deletion or an
    update of a free slot is refused. *)
Definition first_free (cap : Z) (σ : SlotNum → option (list Z)) : option SlotNum :=
  head (filter (λ j, σ j = None) (seqZ 0 cap)).

Definition redo_result (op : RecordOperation) (i : SlotNum) (d : list Z) (g : Geometry) (σ : SlotNum → option (list Z)) :
    RC * option (SlotNum * option (list Z)) :=
  match op with
  | INIT_PAGE => (RC.SUCCESS, None)
  | INSERT => match first_free (g_capacity g) σ with
              | Some j => (RC.SUCCESS, Some (j, Some (take (Z.to_nat (g_real g)) d)))
              | None => (RC.RECORD_NOMEM, None)
              end
  | UPDATE => match σ i with Some _ => (RC.SUCCESS, Some (i, Some (take (Z.to_nat (g_real g)) d))) | None => (RC.RECORD_NOT_EXIST, None) end
  | DELETE => match σ i with Some _ => (RC.SUCCESS, Some (i, None)) | None => (RC.RECORD_NOT_EXIST, None) end
  end.

(** The entry is one for pages of this layout: the slot is one of the page, and the
    bytes are those of a record. *)
Definition entry_fits (op : RecordOperation) (i : SlotNum) (d : list Z) (g : Geometry) : Prop :=
  match op with
  | INIT_PAGE => False
  | INSERT => chars d ∧ g_real g ≤ Z.of_nat (length d)
  | UPDATE => (chars d ∧ g_real g ≤ Z.of_nat (length d)) ∧ 0 ≤ i < g_capacity g
  | DELETE => 0 ≤ i < g_capacity g
  end.

Definition redo_slots (e : option (SlotNum * option (list Z))) (σ : SlotNum → option (list Z)) : SlotNum → option (list Z) :=
  match e with Some (j, o) => upd_slot j o σ | None => σ end.

Lemma first_free_at cap (σ : SlotNum → option (list Z)) i :
  0 ≤ i < cap → σ i = None → (∀ j, 0 ≤ j < i → is_Some (σ j)) → first_free cap σ = Some i.
Proof.
  intros Hi Hn Hb. unfold first_free. replace cap with (i + (1 + (cap - i - 1))) by lia.
  rewrite seqZ_app by lia. rewrite list.filter_app.
  match goal with |- context [?F (seqZ 0 i) ++ _] => assert (F (seqZ 0 i) = []) as -> end.
  { apply elem_of_nil_inv. intros j [Hn' Hj%elem_of_seqZ]%list_elem_of_filter. destruct (Hb j ltac:(lia)) as [x Hx]. congruence. }
  cbn [app]. rewrite (seqZ_cons (0 + i)) by lia. by rewrite Z.add_0_l, filter_cons_True.
Qed.

Lemma first_free_none cap (σ : SlotNum → option (list Z)) : first_free cap σ = None → ∀ j, 0 ≤ j < cap → is_Some (σ j).
Proof.
  unfold first_free. intros H%head_None j Hj. apply not_eq_None_Some. intros Hn.
  assert (j ∈ filter (λ j, σ j = None) (seqZ 0 cap)) as Hin by (apply list_elem_of_filter; split; [done|apply elem_of_seqZ; lia]).
  rewrite H in Hin. by apply not_elem_of_nil in Hin.
Qed.

Lemma first_free_some cap (σ : SlotNum → option (list Z)) i : first_free cap σ = Some i → 0 ≤ i < cap ∧ σ i = None.
Proof.
  unfold first_free. intros H%head_Some_elem_of. apply list_elem_of_filter in H as [Hn Hi%elem_of_seqZ]. split; [lia|done].
Qed.

(** ** The replay *)
Section record_redo.
Context {P L : Type} `{!ReplacementPolicy P} `{!PolicyLaws P} `{!LogHandler L} `{!LogLaws L} `{HOrd : HashOrder}.
Context (xid_of : thread_id → Z) (t : thread_id) (uninit : Z) (Hxid : xid_of t ≠ 0).
Notation World := (World L).
Notation Sys := (Sys L P).
Notation FM := (BPFrameManager (P:=P)).
Implicit Types (w : World) (pn : PageNum) (m : FM) (fp : Ptr) (f : Frame) (σ : gmap RID (list Z)) (X : gset PageNum).

(** The work on the page that is held. *)
Definition redo_body (op : RecordOperation) (rid : RID) (d : list Z) (ph : RecordPageHandler) : M Sys RC :=
  match op with
  | INIT_PAGE => mret RC.SUCCESS
  | INSERT => '(rc, _) ← insert_record ph d; mret rc
  | DELETE => delete_record uninit ph rid
  | UPDATE => update_record ph rid d
  end.

(** The page in its frame [fp], rewritten or as it was. *)
Definition redone m w fp f (s : BufferPoolStats) (g : Geometry) (σ : SlotNum → option (list Z)) (r : RC * option (SlotNum * option (list Z))) m' (w' : World) : Prop :=
  r.2 = None ∧ r.1 ≠ RC.SUCCESS ∧ m' = upd m fp f s ∧ w' = w ∨
  r.1 = RC.SUCCESS ∧ ∃ pg s', m' = upd m fp (rewritten f pg) s' ∧ stored_page w f s pg s' w' ∧ page_ok (data pg) g (redo_slots r.2 σ).

Lemma redo_body_ok op m w id p pn i fp f s g (σ : SlotNum → option (list Z)) d :
  let h := open_handler p READ_WRITE fp NoLog id (g_real g) ROW_FORMAT in
  page_ok (data (page_ f)) g σ → frame_id_ f = mkFrameId id pn → stats_ f = true → page_wf (page_ f) →
  0 ≤ s dirty_pages_current < 2 ^ 64 - 1 → log_ok (w_log w) → entry_fits op i d g →
  ∃ m' w', redo_body op (mkRID pn i) d h (upd m fp f s, w) = Some ((redo_result op i d g σ).1, (m', w')) ∧
    redone m w fp f s g σ (redo_result op i d g σ) m' w'.
Proof.
  intros h Hok Hfid Hst Hpw Hs Hlog Happ. destruct op; cbn [redo_body redo_result entry_fits] in *.
  - done.
  - destruct Happ as (Hch & Hlen). unfold insert_record. cbn [ph_format open_handler]. destruct (first_free (g_capacity g) σ) as [j|] eqn:Ej.
    + apply first_free_some in Ej as Hj. destruct Hj as [Hj Hnj].
      destruct (row_insert_raw m w id p pn fp f s NoLog g σ d Hok Hfid Hst Hpw Hs Hlog Hch Hlen ltac:(eauto)) as (k & pg & s' & w' & E & Hsp & Hk & Hnk & Hbk & Hok').
      rewrite (first_free_at _ _ _ Hk Hnk Hbk) in Ej. injection Ej as ->. rewrite (exec E). eexists _, w'. split; [reflexivity|]. right. split; [done|].
      exists pg, s'. by split_and!.
    + rewrite (exec (row_insert_full m w id p fp f s NoLog g σ d Hok (first_free_none _ _ Ej))). eexists _, w. split; [reflexivity|]. by left.
  - destruct (σ i) as [bs|] eqn:Hbs.
    + destruct (row_delete_some uninit m w id p fp f s NoLog ROW_FORMAT g σ (mkRID pn i) Hok Hst Hpw Hs Hlog ltac:(apply Happ) bs Hbs) as (pg & s' & w' & E & Hsp & Hok').
      eexists _, w'. split; [exact E|]. right. split; [done|]. exists pg, s'. by split_and!.
    + eexists _, w. split; [exact (row_delete_none uninit m w id p fp f s NoLog ROW_FORMAT g σ (mkRID pn i) Hok ltac:(apply Happ) ltac:(apply Happ) Hbs)|]. by left.
  - destruct Happ as [(Hch & Hlen) Hi]. destruct (σ i) as [bs|] eqn:Hbs.
    + destruct (row_update_some m w id p fp f s NoLog ROW_FORMAT g σ (mkRID pn i) Hok Hst Hpw Hs Hlog ltac:(apply Hi) bs d Hbs Hch Hlen) as (pg & s' & w' & E & Hsp & Hok').
      eexists _, w'. split; [exact E|]. right. split; [done|]. exists pg, s'. by split_and!.
    + eexists _, w. split; [exact (row_update_none m w id p fp f s NoLog ROW_FORMAT g σ (mkRID pn i) Hok ltac:(apply Hi) d ltac:(apply Hi) Hbs)|]. by left.
Qed.

(** The page is opened by its own handler, worked on and released; the frame of
    the replayer's pin is the same.  A frame that was not rewritten keeps its page. *)
Lemma on_replayed_page_ok m w id p g σ X op h i d fp f0 :
  ready m w → id_to_buffer_pools_ w !! id = Some p → heap_file m w id g σ X → 0 < rl_page_num h → allocated m w id (rl_page_num h) = true →
  lru_peek (mkFrameId id (rl_page_num h)) (frames_ m) = Some fp → 0 < pins m (mkFrameId id (rl_page_num h)) → heap m !! fp = Some f0 →
  rl_storage_format h = format_id ROW_FORMAT → entry_fits op i d g →
  let r := redo_result op i d g (λ j, σ !! mkRID (rl_page_num h) j) in
  let σ' := redo_slots r.2 (λ j, σ !! mkRID (rl_page_num h) j) in
  ∃ m' w' f', on_replayed_page xid_of t p h (redo_body op (mkRID (rl_page_num h) i) d) (m, w) = Some (r.1, (m', w')) ∧
    released m w id (rl_page_num h) (pins m (mkFrameId id (rl_page_num h))) (data (page_ f')) m' w' ∧ page_ok (data (page_ f')) g σ' ∧
    (mkFrameId id (rl_page_num h), fp) ∈ frames_ m' ∧ heap m' !! fp = Some f' ∧
    (r.1 = RC.SUCCESS ∧ dirty_ f' = true ∨ r.1 ≠ RC.SUCCESS ∧ r.2 = None ∧ page_ f' = page_ f0).
Proof.
  intros R Hid Hf Hpn Ha Hpk Hpins Hf0 Hfmt Happ r σ'. set (pn := rl_page_num h) in *. unfold on_replayed_page. fold pn. rewrite Hfmt.
  change (storage_format_of (format_id ROW_FORMAT)) with ROW_FORMAT.
  match goal with |- context [(handler_init _ _ _ _ _ _ _ ≫= ?k) _] =>
    change (handler_init xid_of t (create_page_handler ROW_FORMAT) p NoLog pn READ_WRITE ≫= k) with
      (with_page xid_of t p NoLog pn (λ rc, rc) (λ ph, k (RC.SUCCESS, ph))) end.
  match goal with |- context [with_page _ _ p NoLog pn ?bad ?body] =>
    destruct (with_page_cases xid_of t Hxid m w id p NoLog g σ X pn bad body R Hid Hf Hpn) as
      [(rc & m1 & w1 & E & _ & _ & _ & Hrc)|(fp' & f & m1 & w1 & E & Hh & Hc & Hok & _ & Hfp)]; rewrite E end.
  { exfalso. destruct Hrc as [[_ (Hno & _)]|[_ Hn]]; congruence. }
  destruct (Hfp Hpins) as (Hpk' & f00 & Hf00 & Hpg0). rewrite Hpk' in Hpk. injection Hpk as ->. rewrite Hf00 in Hf0. injection Hf0 as ->. cbv beta iota. change (RC.OB_FAIL RC.SUCCESS) with false. cbv iota.
  destruct (held_frame xid_of t _ _ _ _ _ _ _ _ _ _ _ Hh) as (Hm & Hfid & Hst & Hpw & Hs & Hlog).
  destruct (redo_body_ok op m1 w1 id p pn i fp f (fm_stats m1) g _ d Hok Hfid Hst Hpw Hs Hlog Happ) as (m2 & w2 & E2 & Hred).
  rewrite <-Hm in E2. rewrite (exec E2). fold r in Hred. destruct Hred as [(Hn & Hrc & -> & ->)|(Hrc & pg & s & -> & Hsp & Hok2)].
  - rewrite <-Hm. destruct (release_frame_ok xid_of t m w id p pn READ_WRITE _ fp f m1 w1 (open_handler p READ_WRITE fp NoLog id (g_real g) ROW_FORMAT) Hh)
      as (m3 & w3 & E3 & R3 & f3 & F1 & F2 & F3 & F4 & F5); [lia|done|done|done|].
    rewrite (exec E3). exists m3, w3, f3. rewrite F3. split_and!; try done; [unfold σ'; by rewrite Hn|]. by right.
  - pose proof (held_write xid_of t _ _ _ _ _ _ _ _ _ _ _ _ _ Hh ltac:(lia) Hsp) as Hh2.
    destruct (release_frame_ok xid_of t m w id p pn READ_WRITE _ fp _ _ w2 (open_handler p READ_WRITE fp NoLog id (g_real g) ROW_FORMAT) Hh2)
      as (m3 & w3 & E3 & R3 & f3 & F1 & F2 & F3 & F4 & F5); [lia|done|done|done|].
    rewrite (exec E3). exists m3, w3, f3. rewrite F3. split_and!; try done. by left.
Qed.

(** The replayer's own pin. *)
Lemma unpin_released m0 w0 id p pn k d m w fp f :
  released m0 w0 id pn (k + 1) d m w → id_to_buffer_pools_ w !! id = Some p → pn ≠ 0 → 0 ≤ k →
  (mkFrameId id pn, fp) ∈ frames_ m → heap m !! fp = Some f →
  ∃ m' w', unpin_page p fp (m, w) = Some (RC.SUCCESS, (m', w')) ∧ released m0 w0 id pn k d m' w' ∧ (mkFrameId id pn, fp) ∈ frames_ m' ∧
    ∃ f', heap m' !! fp = Some f' ∧ page_ f' = page_ f.
Proof.
  intros [R1 R2 R3 R4 R5 R6 R7 R8 R9] Hid Hpn Hk Hin Hf. destruct (opened_intro m w id p R2 Hid) as (b & hd & hf & n & a & O).
  pose proof (proj2 (lru_peek_elem _ _ _ (fw_keys _ R1)) Hin) as Hpk. pose proof (pins_peek m _ fp f Hpk Hf) as Hpc. rewrite R4 in Hpc.
  assert (unlatched f) as Hun by (pose proof (R3 fp f Hf) as (_ & ? & _ & ?)%latch_of_eq; by split).
  destruct (unpin_page_ok m w (mkFrameId id pn) fp f p b R1 R2 Hin Hf) as (m2 & w2 & E2 & C2 & T2); [lia| |apply O|].
  { intros _. split; [done|]. exact (not_header m w id pn fp R1 R2 Hin Hpn). }
  exists m2, w2. split; [exact E2|].
  split; [|split; [by rewrite (to_frames _ _ _ _ _ T2)|exists (set_pin_count (pin_count_ f - 1) f); split; [apply T2|done]]].
  split; [apply T2|apply T2| | | | | | |].
  - intros q y Hy. destruct (decide (q = fp)) as [->|Hne].
    + rewrite (to_here _ _ _ _ _ T2) in Hy. injection Hy as <-. exact (R3 fp f Hf).
    + rewrite (to_other _ _ _ _ _ T2) in Hy by done. exact (R3 q y Hy).
  - rewrite (pins_touched m w2 _ fp _ m2 Hpk T2). cbn. lia.
  - intros x Hx. rewrite (touched_pins m w2 _ fp _ m2 R1 Hin T2 x Hx). by apply R5.
  - etrans; [exact R6|apply C2].
  - intros j. rewrite (touched_alloc m w2 fp f _ m2 w id p R2 Hid Hf T2 C2 eq_refl). apply R7.
  - intros id' pn' d' Hne Hd'. apply T2, (calm_inv m w w2 R2 C2). by apply R8.
  - apply T2, (calm_inv m w w2 R2 C2). exact R9.
Qed.

(** [frame->set_lsn] on a dirty frame. *)
Lemma lsn_released m0 w0 id p pn k d m w fp f l :
  released m0 w0 id pn k d m w → id_to_buffer_pools_ w !! id = Some p → pn ≠ 0 → in_srange 64 l →
  (mkFrameId id pn, fp) ∈ frames_ m → heap m !! fp = Some f → dirty_ f = true →
  ∃ m', set_frame fp (frame_set_lsn l) (m, w) = Some (tt, (m', w)) ∧ released m0 w0 id pn k d m' w ∧
    (mkFrameId id pn, fp) ∈ frames_ m' ∧ ∃ f', heap m' !! fp = Some f' ∧ lsn (page_ f') = l.
Proof.
  intros [R1 R2 R3 R4 R5 R6 R7 R8 R9] Hid Hpn Hl Hin Hf Hd. pose proof (proj2 (lru_peek_elem _ _ _ (fw_keys _ R1)) Hin) as Hpk.
  exists (upd m fp (frame_set_lsn l f) (fm_stats m)). split; [by rewrite (set_frame_eq m w fp f _ Hf)|].
  assert (frame_set_lsn l f = rewritten f (set_lsn l (page_ f))) as E.
  { unfold rewritten, frame_set_lsn. destruct f. cbn in *. by subst. }
  rewrite E. pose proof (si_heap _ _ R2 _ _ Hf) as [P1 P2 P3 P4].
  assert (page_wf (set_lsn l (page_ f))) as Hpw by (by split).
  destruct (rewrite_inv m w id pn fp f (set_lsn l (page_ f)) (fm_stats m) R1 R2 Hin Hpn Hf Hpw eq_refl) as (W & I & K); [rewrite Hd; cbn; lia|].
  split; [|split; [done|exists (rewritten f (set_lsn l (page_ f))); split; [apply heap_upd|done]]].
  assert (same_pins m (upd m fp (rewritten f (set_lsn l (page_ f))) (fm_stats m))) as S by (by apply (pins_upd m fp f)).
  split; [done|done| | | |done| | |].
  - intros q y Hy. destruct (decide (q = fp)) as [->|Hne].
    + rewrite heap_upd in Hy. injection Hy as <-. exact (R3 fp f Hf).
    + rewrite heap_upd_ne in Hy by done. exact (R3 q y Hy).
  - by rewrite S.
  - intros x Hx. rewrite S. by apply R5.
  - intros j. rewrite (allocated_upd m w id p fp _ (fm_stats m) R2 Hid); [apply R7|by eapply not_header].
  - intros id' pn' d' Hne Hd'. apply K; [done|]. by apply R8.
  - unfold content in R9 |- *. change (frames_ (upd m fp (rewritten f (set_lsn l (page_ f))) (fm_stats m))) with (frames_ m).
    rewrite Hpk in R9 |- *. rewrite heap_upd. rewrite Hf in R9. exact R9.
Qed.

Lemma record_redo_eq p h d op :
  rec_operation_of (rl_operation_type h) = Some op → op ≠ INIT_PAGE →
  record_redo xid_of t uninit p h d = on_replayed_page xid_of t p h (redo_body op (mkRID (rl_page_num h) (rl_slot_or_size h)) d).
Proof. intros E Hop. unfold record_redo. rewrite E. by destruct op. Qed.

(** The file with the page's records as the entry leaves them. *)
Definition redo_file pn (e : option (SlotNum * option (list Z))) σ : gmap RID (list Z) :=
  match e with Some (j, o) => partial_alter (λ _, o) (mkRID pn j) σ | None => σ end.

Lemma redo_file_slots pn e σ j : redo_slots e (λ j, σ !! mkRID pn j) j = redo_file pn e σ !! mkRID pn j.
Proof. destruct e as [[i o]|]; [apply upd_slot_insert|done]. Qed.

Lemma redo_file_other pn e σ r : rid_page_num r ≠ pn → redo_file pn e σ !! r = σ !! r.
Proof. intros Hr. destruct e as [[i o]|]; [|done]. cbn. rewrite lookup_partial_alter_ne; [done|]. intros <-. by apply Hr. Qed.

(** An entry that the page carries, or a later one, is skipped. *)
Definition replay_result (l : LSN) (pg : Page) (op : RecordOperation) (i : SlotNum) (d : list Z) (g : Geometry) (σ : SlotNum → option (list Z)) :
    RC * option (SlotNum * option (list Z)) :=
  if l <=? lsn pg then (RC.SUCCESS, None) else redo_result op i d g σ.

Definition replay_lsn (l : LSN) (rc : RC) (pg : Page) : LSN := if RC.OB_FAIL rc then lsn pg else Z.max l (lsn pg).

Lemma replay_lsn_ok l pg : replay_lsn l RC.SUCCESS pg = Z.max l (lsn pg).
Proof. done. Qed.

Lemma fetched_ready m w id pn fp m1 w1 p :
  ready m w → pins m (mkFrameId id pn) < 2 ^ 30 - 1 → get_this_page p pn (m, w) = Some ((RC.SUCCESS, Some fp), (m1, w1)) →
  fetched m w (mkFrameId id pn) fp m1 w1 → ready m1 w1 ∧ pins m1 (mkFrameId id pn) = pins m (mkFrameId id pn) + 1.
Proof.
  intros R Hb E [F1 F2 F3 F4 F5 F6 (f & Hin & Hf & Hp & _)].
  pose proof (pins_peek m1 _ fp f (proj2 (lru_peek_elem _ _ _ (fw_keys _ F1)) Hin) Hf) as Hpc. rewrite Hp in Hpc. split; [|done].
  split; [done|done| |exact (get_latches _ _ _ _ _ _ _ (rd_latch _ _ R) E)]. intros x.
  destruct (decide (x = mkFrameId id pn)) as [->|Hne]; [rewrite Hpc; lia|rewrite F6 by done; apply R].
Qed.

(** How a replay ends: the frame [fp] of the page holds [f] when it is looked at and
    [f'] when it has been released. *)
Definition replayed m w (id : Z) (g : Geometry) σ X (l : LSN) (op : RecordOperation) (i : SlotNum) (d : list Z) pn (rc : RC) fp f m' w' : Prop :=
  let r := replay_result l (page_ f) op i d g (λ j, σ !! mkRID pn j) in
  rc = r.1 ∧ heap_file m' w' id g (redo_file pn r.2 σ) ({[pn]} ∪ X) ∧
  (mkFrameId id pn, fp) ∈ frames_ m' ∧ ∃ f', heap m' !! fp = Some f' ∧ lsn (page_ f') = replay_lsn l rc (page_ f).

Section one_entry.
Context (id : Z) (p : Ptr) (g : Geometry) (l : LSN) (h : RecordLogHeader) (d : list Z) (op : RecordOperation).
Context (Hrange : header_range h) (Hpool : rl_buffer_pool_id h = id) (Hop : rec_operation_of (rl_operation_type h) = Some op).
Context (Hfmt : rl_storage_format h = format_id ROW_FORMAT) (Hpn : 0 < rl_page_num h) (Hl : in_srange 64 l).
Context (Hfit : entry_fits op (rl_slot_or_size h) d g).
Let pn := rl_page_num h.
Let i := rl_slot_or_size h.

Lemma entry_not_init : op ≠ INIT_PAGE.
Proof. intros E. rewrite E in Hfit. exact Hfit. Qed.

(** The end of the replay, the replayer's own pin given back. *)
Lemma replay_end m w σ X m1 w1 fp f mm ww f0 f2 rc :
  ready m w → id_to_buffer_pools_ w !! id = Some p → heap_file m1 w1 id g σ X → allocated m1 w1 id pn = true →
  pins_but (mkFrameId id pn) m m1 → extends w w1 → id_to_buffer_pools_ w1 !! id = Some p →
  released m1 w1 id pn (pins m (mkFrameId id pn) + 1) (data (page_ f0)) mm ww → (mkFrameId id pn, fp) ∈ frames_ mm →
  heap mm !! fp = Some f2 →
  let r := replay_result l (page_ f) op i d g (λ j, σ !! mkRID pn j) in
  lsn (page_ f2) = replay_lsn l rc (page_ f) → rc = r.1 →
  page_ok (data (page_ f0)) g (redo_slots r.2 (λ j, σ !! mkRID pn j)) →
  ∃ m' w', unpin_page p fp (mm, ww) = Some (RC.SUCCESS, (m', w')) ∧ file_kept m w m' w' ∧ replayed m w id g σ X l op i d pn rc fp f m' w'.
Proof.
  intros R Hid Hf1 Ha Hoth He1 Hid1 Hrel Hin Hf2 r Hlsn Hrc Hok. pose proof (pins_nonneg m (mkFrameId id pn) (rd_wf _ _ R)) as Hnn.
  destruct (unpin_released m1 w1 id p pn (pins m (mkFrameId id pn)) _ mm ww fp f2 Hrel) as (m' & w' & E' & R' & Hin' & f' & Hf' & Hpg);
    [by rewrite (ex_ids _ _ (rl_ext _ _ _ _ _ _ _ _ Hrel))|unfold pn; lia|done|done|done|].
  exists m', w'. split; [exact E'|]. split.
  - assert (same_pins m m') as S.
    { intros x. destruct (decide (x = mkFrameId id pn)) as [->|Hne]; [exact (rl_pin _ _ _ _ _ _ _ _ R')|].
      rewrite (rl_others _ _ _ _ _ _ _ _ R') by done. by apply Hoth. }
    split; [|done|etrans; [exact He1|exact (rl_ext _ _ _ _ _ _ _ _ R')]]. split; [apply R'|apply R'| |apply R']. intros x. rewrite S. apply R.
  - split; [exact Hrc|]. split; [|split; [exact Hin'|exists f'; by rewrite Hpg]].
    eapply (heap_file_store m1 w1); [done|exact R'|exact Hpn|done| |intros; by apply redo_file_other|intros x Hx; by apply page_added_ne|intros; apply page_added].
    eapply page_ok_ext; [|exact Hok]. intros j. apply redo_file_slots.
Qed.

Lemma record_replay_ok m w σ X :
  ready m w → id_to_buffer_pools_ w !! id = Some p → heap_file m w id g σ X →
  allocated m w id pn = true → pins m (mkFrameId id pn) < 2 ^ 30 - 1 →
  ∃ rc m' w', record_replay xid_of t uninit l RECORD_MANAGER (record_log_bytes h ++ d) (m, w) = Some (rc, (m', w')) ∧ file_kept m w m' w' ∧
    (rc = RC.BUFFERPOOL_NOBUF ∧ no_frame m id pn ∧ heap_file m' w' id g σ X ∨
     ∃ fp m1 w1 f, get_this_page p pn (m, w) = Some ((RC.SUCCESS, Some fp), (m1, w1)) ∧ heap m1 !! fp = Some f ∧
       replayed m w id g σ X l op i d pn rc fp f m' w').
Proof.
  intros R Hid Hf Ha Hb. destruct (record_log_decode h d Hrange) as (E1 & E2 & E3).
  unfold record_replay. change (negb (RECORD_MANAGER =? RECORD_MANAGER)) with false. cbv iota. rewrite (proj2 (Z.ltb_ge _ _)) by done.
  rewrite E1. exec_deref. rewrite Hpool.
  assert (get_buffer_pool id (m, w) = Some ((RC.SUCCESS, Some p), (m, w))) as Eb.
  { unfold get_buffer_pool. erewrite (bind_run world _ _ _ (m, w)) by done. cbn [snd]. by rewrite Hid. }
  rewrite (exec Eb). cbv beta iota. change (rl_page_num h) with pn.
  destruct (get_this_page_cases m w id p pn (rd_wf _ _ R) (rd_inv _ _ R) Hid) as
    [[Ha' _]|[(_ & Hpk & m1 & w1 & Eg & N)|(_ & fp & m1 & w1 & Eg & F)]].
  { apply (pins_bounded_of m (2 ^ 30)); [apply R|apply R|lia]. } { congruence. }
  - rewrite (exec Eg). change (RC.OB_FAIL RC.BUFFERPOOL_NOBUF) with true. cbv iota.
    pose proof (get_latches _ _ _ _ _ _ _ (rd_latch _ _ R) Eg) as Hla. destruct (no_buffer_kept m w id p m1 w1 R Hid Hla N) as (K1 & K2 & K3).
    eexists _, m1, w1. split; [reflexivity|]. split; [done|]. left. split; [done|]. split; [split_and!; [done|apply N|apply N]|by eapply heap_file_kept].
  - destruct (fetched_ready m w id pn fp m1 w1 p R Hb Eg F) as [R1 Hpc]. pose proof (fetched_alloc m w id p _ fp m1 w1 (rd_inv _ _ R) Hid F) as A1.
    pose proof F as [F1 F2 F3 F4 F5 F6 (f & Hin & Hff & Hp & Hc)]. rewrite (exec Eg). change (RC.OB_FAIL RC.SUCCESS) with false. cbv iota.
    exec_deref. rewrite (exec (frame_of_eq m1 w1 fp f Hff)).
    assert (heap_file m1 w1 id g σ X) as Hf1 by (by eapply heap_file_kept).
    assert (id_to_buffer_pools_ w1 !! id = Some p) as Hid1 by (by rewrite (ex_ids _ _ F4)).
    pose proof (pins_nonneg m (mkFrameId id pn) (rd_wf _ _ R)) as Hnn. rewrite <-A1 in Ha. rewrite E2.
    pose proof (proj2 (lru_peek_elem _ _ _ (fw_keys _ F1)) Hin) as Hpk.
    destruct (hp_page _ _ _ _ _ _ Hf pn Hpn ltac:(by rewrite <-A1)) as (dd & Hdd & Hok). cbn in Hc. rewrite Hc in Hdd. injection Hdd as <-.
    assert (∀ rc mm ww f0 f2, 
      let r := replay_result l (page_ f) op i d g (λ j, σ !! mkRID pn j) in
      released m1 w1 id pn (pins m (mkFrameId id pn) + 1) (data (page_ f0)) mm ww → (mkFrameId id pn, fp) ∈ frames_ mm →
      heap mm !! fp = Some f2 → lsn (page_ f2) = replay_lsn l rc (page_ f) → rc = r.1 →
      page_ok (data (page_ f0)) g (redo_slots r.2 (λ j, σ !! mkRID pn j)) →
      ∃ m' w', (unpin_page p fp;; mret rc) (mm, ww) = Some (rc, (m', w')) ∧ file_kept m w m' w' ∧
        (rc = RC.BUFFERPOOL_NOBUF ∧ no_frame m id pn ∧ heap_file m' w' id g σ X ∨
         ∃ fp m1 w1 f, get_this_page p pn (m, w) = Some ((RC.SUCCESS, Some fp), (m1, w1)) ∧ heap m1 !! fp = Some f ∧
           replayed m w id g σ X l op i d pn rc fp f m' w')) as Hend.
    { intros rc mm ww f0 f2 r Hrel Hin2 Hf2 Hlsn Hrc Hok2.
      destruct (replay_end m w σ X m1 w1 fp f mm ww f0 f2 rc R Hid Hf1 Ha F6 F4 Hid1 Hrel Hin2 Hf2 Hlsn Hrc Hok2) as (m' & w' & E' & K' & Hrep).
      rewrite (exec E'). exists m', w'. split; [done|]. split; [done|]. right. by exists fp, m1, w1, f. }
    unfold replay_result in Hend. destruct (Z.leb_spec l (lsn (page_ f))) as [Hle|Hgt].
    + erewrite (bind_run (mret _)) by done. eexists RC.SUCCESS.
      apply (Hend RC.SUCCESS m1 w1 f f); [|done|done|rewrite replay_lsn_ok; lia|done|done].
      split; [done|done|apply R1|done|done|done|done|by intros ? ? ?|]. exact (fe_kept _ _ _ _ _ _ F _ _ _ Hc).
    + rewrite (record_redo_eq p h d op Hop entry_not_init). change (rl_page_num h) with pn. change (rl_slot_or_size h) with i.
      destruct (on_replayed_page_ok m1 w1 id p g σ X op h i d fp f R1 Hid1 Hf1 Hpn Ha Hpk) as (m3 & w3 & f3 & Er & Rel & Hok3 & Hin3 & Hf3 & Hcase);
        [change (rl_page_num h) with pn; lia|done|done|done|]. change (rl_page_num h) with pn in Er, Rel, Hok3, Hin3, Hcase.
      rewrite Hpc in Rel. set (r := redo_result op i d g (λ j, σ !! mkRID pn j)) in *.
      destruct Hcase as [[Hrc Hd3]|(Hrc & Hn & Hpg)].
      * destruct (lsn_released m1 w1 id p pn _ _ m3 w3 fp f3 l Rel) as (m4 & El & Rel4 & Hin4 & f4 & Hf4 & Hlsn4);
          [by rewrite (ex_ids _ _ (rl_ext _ _ _ _ _ _ _ _ Rel))|lia|done|done|done|done|].
        erewrite (bind_run (_ ≫= _)) by (rewrite (exec Er), Hrc; change (RC.OB_FAIL RC.SUCCESS) with false; cbv iota; rewrite (exec El); done).
        exists RC.SUCCESS. apply (Hend RC.SUCCESS m4 w3 f3 f4); [done|done|done|rewrite replay_lsn_ok; lia|done|done].
      * assert (RC.OB_FAIL r.1 = true) as Hfail by (by apply bool_decide_eq_true).
        erewrite (bind_run (_ ≫= _)) by (rewrite (exec Er), Hfail; done).
        exists r.1. apply (Hend r.1 m3 w3 f3 f3); [done|done|done|unfold replay_lsn; by rewrite Hfail, Hpg|done|done].
Qed.

(** The replay of an entry that has been replayed. *)
Lemma record_replay_again m w σ X m0 w0 f fp σ0 X0 :
  ready m w → id_to_buffer_pools_ w !! id = Some p → pins m (mkFrameId id pn) < 2 ^ 30 - 1 →
  replayed m0 w0 id g σ0 X0 l op i d pn RC.SUCCESS fp f m w → heap_file m w id g σ X → pn ∈ X →
  ∃ m' w', record_replay xid_of t uninit l RECORD_MANAGER (record_log_bytes h ++ d) (m, w) = Some (RC.SUCCESS, (m', w')) ∧
    file_kept m w m' w' ∧ heap_file m' w' id g σ X.
Proof.
  intros R Hid Hb (_ & _ & Hin & f1 & Hf1 & Hlsn) Hf HX. destruct (hp_sub _ _ _ _ _ _ Hf pn HX) as [_ Ha].
  destruct (record_replay_ok m w σ X R Hid Hf Ha Hb) as (rc & m' & w' & E & K & Hres).
  pose proof (proj2 (lru_peek_elem _ _ _ (fw_keys _ (rd_wf _ _ R))) Hin) as Hpk.
  destruct Hres as [(_ & (Hn & _) & _)|(fp2 & m2 & w2 & f2 & Eg & Hf2 & Hrc & Hf' & _)]; [congruence|].
  destruct (get_hit_ok m w id p pn fp f1 (rd_wf _ _ R) (rd_inv _ _ R) Hid Ha Hpk Hf1) as (m3 & w3 & Eg' & _ & f3 & Hf3 & Hpg).
  { rewrite <-(pins_peek m _ fp f1 Hpk Hf1). lia. }
  rewrite Eg in Eg'. injection Eg' as <- <- <-. rewrite Hf2 in Hf3. injection Hf3 as <-.
  assert (l ≤ lsn (page_ f2)) as Hle by (rewrite Hpg, Hlsn, replay_lsn_ok; lia).
  unfold replay_result in Hrc, Hf'. rewrite (proj2 (Z.leb_le _ _)) in Hrc, Hf' by done. cbn in Hrc, Hf'. subst rc.
  exists m', w'. split; [done|]. split; [done|]. replace ({[pn]} ∪ X) with X in Hf' by set_solver. exact Hf'.
Qed.
End one_entry.
End record_redo.
