(* ===== verification/RecordTheorems.v ===== *)
(** * The record manager: theorems

    A heap file refines a finite map from record ids to records: every operation of
    [RecordFileHandler] acts on the map as its name says, keeps the invariant of the
    buffer pool, gives back every pin and latch it took, and touches no page of
    another file.  [file_kept] is that frame condition, [heap_file] the relation
    between the pages of the file, the map and [free_pages_]. *)

From stdpp Require Import sorting.
From S2P Require Import Prelude Types Bytes Crc Os PageIO Bitmap LruCache MemPool Stats Latch Frame Replacement FrameManager FrameSafety BufferPool DoubleWrite DiskBufferPool StorageSafety PoolSafety PageAccess FileHeader PageAlloc PageDispose LatchKept RecordPage RecordManager RecordSafety RecordFile RecordInsert RecordScan RecordScanSafety RecordReplay PoolDemo.
Local Open Scope Z_scope.

(** The layout of a new record page, for every record size and up to 1990
    columns: [init_empty_page]'s arithmetic yields a geometry in which bitmap, column
    index and records lie in the page one behind the other; the page is then the
    empty map of slots, and the capacity is the largest one for which the records
    still fit, or the bound [page_record_capacity] gives. *)
Theorem record_page_layout d real columns :
  Z.of_nat (length d) = BP_PAGE_DATA_SIZE → chars d → 0 < real < 2 ^ 30 → 0 ≤ columns ≤ 1990 →
  ∃ d' g, init_layout d real columns = Some d' ∧ page_geometry real columns = Some g ∧ geometry_ok g ∧
    g_real g = real ∧ g_columns g = columns ∧ page_ok d' g (λ _, None) ∧
    (g_capacity g < page_record_capacity BP_PAGE_DATA_SIZE (align8 real) (columns * 4) →
     BP_PAGE_DATA_SIZE < g_data g + (g_capacity g + 1) * g_size g).
Proof.
  intros Hd Hc Hr Hn. destruct (init_layout_ok d real columns Hd Hc Hr Hn) as (d' & g & E & Hg & Hok & H1 & H2 & H3).
  exists d', g. pose proof Hok as (u & b & V & _). pose proof (pv_geometry _ _ _ _ _ V). by split_and!.
Qed.

Lemma record_page_layout_witness :
  ∃ d' g, init_layout (replicate 8180 0) 20 0 = Some d' ∧ page_geometry 20 0 = Some g ∧ page_ok d' g (λ _, None).
Proof.
  destruct (record_page_layout (replicate 8180 0) 20 0) as (d' & g & H1 & H2 & _ & _ & _ & H3 & _);
    [reflexivity|apply Forall_replicate; by split|lia|lia|]. exists d', g. split; [exact H1|]. split; [exact H2|exact H3].
Defined.

Section record_theorems.
Context {P L : Type} `{!ReplacementPolicy P} `{!PolicyLaws P} `{!LogHandler L} `{!LogLaws L} `{HOrd : HashOrder} `{BOf : !BeginOf}.
Context (xid_of : thread_id → Z) (t : thread_id) (uninit : Z).
Notation World := (World L).
Notation FM := (BPFrameManager (P:=P)).
Implicit Types (w : World) (pn : PageNum) (m : FM) (σ : gmap RID (list Z)) (X : gset PageNum).

(** C23: [insert_record] returns, as long as no system call fails and the log takes
    its records.  On success it has stored the first
    [real] bytes of the record under a record id that was not in use, in a page of
    [free_pages_] or in a new page that is laid out first, and every other record
    is as it was.  It fails without an effect on the records; a failed insertion
    leaves the file as it was, or with one more page in use when there was no frame
    for the page it had just taken. *)
Theorem heap_insert_correct m w id p log g σ X tm rec :
  xid_of t ≠ 0 → ready m w → id_to_buffer_pools_ w !! id = Some p → heap_file m w id g σ X →
  log_accepts (L:=L) → 0 < g_real g < 2 ^ 30 → page_geometry (g_real g) 0 = Some g → 0 < g_capacity g →
  chars rec → g_real g ≤ Z.of_nat (length rec) →
  ∃ rc r h' m' w', file_insert_record xid_of t rec (g_real g) (row_file p log X tm) (m, w) = Some ((rc, r, h'), (m', w')) ∧
    h' = row_file p log (free_pages_ h') tm ∧ file_kept m w m' w' ∧
    match r with
    | Some rid => rc = RC.SUCCESS ∧ 0 < rid_page_num rid ∧ 0 ≤ rid_slot_num rid < g_capacity g ∧ σ !! rid = None ∧
        heap_file m' w' id g (<[rid := take (Z.to_nat (g_real g)) rec]> σ) (free_pages_ h') ∧
        ∀ id' pn d, (id', pn) ≠ (id, 0) → (id', pn) ≠ (id, rid_page_num rid) → content m w id' pn = Some d → content m' w' id' pn = Some d
    | None => rc ≠ RC.SUCCESS ∧ kept_but id m w m' w' ∧ (heap_file m' w' id g σ (free_pages_ h') ∨ leaked m w id m' w')
    end.
Proof.
  intros Hx R Hid Hf Hacc Hreal Hg Hcap Hch Hlen.
  destruct (file_insert_ok xid_of t Hx m w id p log g σ X tm rec R Hid Hf Hacc Hreal Hg Hcap Hch Hlen) as
    (rc & r & h' & m' & w' & E & Hh & Hres). exists rc, r, h', m', w'. split; [exact E|]. split; [done|].
  destruct Hres as [(rid & -> & -> & J1 & [J2 J2'] & J3 & J4 & J5 & J6)|(Hrc & -> & F & K & Hor)]; (split; [done|]); by split_and!.
Qed.

(** C24: [delete_record] of a slot of a record page returns, as long as no system
    call fails: the record is gone when there was one, a record that is not there is an error, and
    all other records stay.  The page of the last record is given back to the
    buffer pool, and otherwise it is in [free_pages_] from then on.  The only other
    outcome is that no frame can be had for the page. *)
Theorem heap_delete_correct m w id p log g σ X tm rid :
  xid_of t ≠ 0 → ready m w → id_to_buffer_pools_ w !! id = Some p → heap_file m w id g σ X →
  0 < rid_page_num rid → 0 ≤ rid_slot_num rid < g_capacity g →
  ∃ rc h' m' w' σ', file_delete_record xid_of t uninit rid (row_file p log X tm) (m, w) = Some ((rc, h'), (m', w')) ∧
    h' = row_file p log (free_pages_ h') tm ∧ file_kept m w m' w' ∧ heap_file m' w' id g σ' (free_pages_ h') ∧
    kept_without id (rid_page_num rid) m w m' w' ∧
    (rc = RC.BUFFERPOOL_NOBUF ∧ no_frame m id (rid_page_num rid) ∧ σ' = σ ∨
     match σ !! rid with
     | Some _ => rc = RC.SUCCESS ∧ σ' = delete rid σ
     | None => rc ≠ RC.SUCCESS ∧ σ' = σ
     end).
Proof.
  intros Hx R Hid Hf Hpn Hsl. destruct (file_delete_ok xid_of t uninit Hx m w id p log g σ X tm rid R Hid Hf Hpn Hsl)
    as (rc & h' & m' & w' & σ' & E & F & Hh & Hf' & K & Hres). exists rc, h', m', w', σ'. by split_and!.
Qed.

(** [get_record] returns the record of the id, a copy of its bytes, and an error
    when there is none; it changes no page. *)
Theorem heap_get_correct m w id p log g σ X tm rid :
  xid_of t ≠ 0 → ready m w → id_to_buffer_pools_ w !! id = Some p → heap_file m w id g σ X →
  0 < rid_page_num rid → 0 ≤ rid_slot_num rid →
  ∃ rc r m' w', file_get_record xid_of t rid (row_file p log X tm) (m, w) = Some ((rc, r), (m', w')) ∧
    file_kept m w m' w' ∧ heap_file m' w' id g σ X ∧ kept m w m' w' ∧
    (rc = RC.BUFFERPOOL_NOBUF ∧ r = None ∧ no_frame m id (rid_page_num rid) ∨
     match σ !! rid with
     | Some bs => rc = RC.SUCCESS ∧ r = Some (mkRec rid bs)
     | None => rc ≠ RC.SUCCESS ∧ r = None
     end).
Proof. intros Hx R Hid Hf Hpn Hsl. by apply file_get_ok. Qed.

(** C25: [visit_record] calls the updater on the record and stores what it made of
    it exactly when the updater says so, whatever the log says to it.  No system call
    fails. *)
Theorem heap_visit_correct m w id p log g σ X tm rid (updater : Rec → bool * list Z) :
  xid_of t ≠ 0 → ready m w → id_to_buffer_pools_ w !! id = Some p → heap_file m w id g σ X →
  0 < rid_page_num rid → 0 ≤ rid_slot_num rid →
  (∀ bs, σ !! rid = Some bs → (updater (mkRec rid bs)).1 = true →
     chars (updater (mkRec rid bs)).2 ∧ g_real g ≤ Z.of_nat (length (updater (mkRec rid bs)).2)) →
  ∃ rc m' w' σ', file_visit_record xid_of t rid updater (row_file p log X tm) (m, w) = Some (rc, (m', w')) ∧
    file_kept m w m' w' ∧ heap_file m' w' id g σ' X ∧ kept_except id (rid_page_num rid) m w m' w' ∧
    (rc = RC.BUFFERPOOL_NOBUF ∧ no_frame m id (rid_page_num rid) ∧ σ' = σ ∨
     match σ !! rid with
     | Some bs => rc = RC.SUCCESS ∧
         σ' = if (updater (mkRec rid bs)).1 then <[rid := take (Z.to_nat (g_real g)) (updater (mkRec rid bs)).2]> σ else σ
     | None => rc ≠ RC.SUCCESS ∧ σ' = σ
     end).
Proof. intros Hx R Hid Hf Hpn Hsl Hup. by apply file_visit_ok. Qed.

(** C26: a scan of a file, from [open_scan] to [close_scan], returns every record of
    the file that passes the filter and that the transaction sees, once, ordered by
    page and slot, and ends with [RECORD_EOF]; it stops early only for want of a
    frame, and then has returned the first of them.  It changes no page and gives
    every pin and latch back.  The transaction hides records, but does not make the
    scan wait for one ([LOCKED_CONCURRENCY_CONFLICT]), and no system call fails. *)
Theorem heap_scan_correct m w id p g σ X s :
  xid_of t ≠ 0 → ready m w → id_to_buffer_pools_ w !! id = Some p → heap_file m w id g σ X →
  sc_pool s = Some p → plain_visit s → sc_format s = ROW_FORMAT → pi_valid (record_page_iterator_ s) = false →
  ∃ recs, (∀ r, r ∈ recs ↔ σ !! rec_rid r = Some (rec_data r) ∧ passes s r = true) ∧ StronglySorted rec_lt recs ∧
  ∃ s1 rc rs s2 m2 w2 s3 m3 w3,
    open_scan s (m, w) = Some ((RC.SUCCESS, s1), (m, w)) ∧
    scan_all xid_of t (S (length recs)) s1 (m, w) = Some ((rc, rs, s2), (m2, w2)) ∧
    close_scan xid_of t s2 (m2, w2) = Some ((RC.SUCCESS, s3), (m3, w3)) ∧
    file_kept m w m3 w3 ∧ kept m w m3 w3 ∧
    (rc = RC.RECORD_EOF ∧ rs = recs ∨
     rc = RC.BUFFERPOOL_NOBUF ∧ rs `prefix_of` recs ∧ ∃ mb wb pn, file_kept m w mb wb ∧ no_frame mb id pn).
Proof.
  intros Hx R Hid Hf Hp Hv Hfmt Hit. exists (filter (λ r, passes s r) (file_records g σ 1 (file_pages m w id))). split_and!.
  - intros r. rewrite list_elem_of_filter, elem_of_file_records, Is_true_true. split.
    + intros [Hps (pn & i & _ & _ & -> & Hs)]. by split.
    + intros [Hs Hps]. split; [done|]. destruct r as [[pn i] bs]. cbn in *. destruct (hp_dom _ _ _ _ _ _ Hf pn i ltac:(eauto)) as [Hpn Ha].
      pose proof (allocated_range _ _ _ _ (rd_inv _ _ R) Ha). destruct (hp_page _ _ _ _ _ _ Hf pn Hpn Ha) as (d & _ & Hok).
      destruct (read_record_eq _ _ _ Hok i bs Hs) as (_ & Hi & _). exists pn, i. split_and!; (done || lia).
  - apply sorted_filter, file_records_sorted.
  - destruct (open_scan_ok xid_of t m w id p g σ R Hid s Hp Hv Hfmt Hit) as (s1 & E1 & _ & Hs1).
    destruct (scan_all_ok xid_of t Hx m w id p g σ X R Hid Hf (S (length (filter (λ r, passes s r) (file_records g σ 1 (file_pages m w id))))) s1 _ m w Hs1)
      as (rc & rs & s2 & rest & m2 & w2 & E2 & Hs2 & Hres); [lia|].
    destruct (close_scan_ok xid_of t m w id p g σ X R Hid Hf s2 rest m2 w2 Hs2) as (s3 & m3 & w3 & E3 & _ & F & K).
    exists s1, rc, rs, s2, m2, w2, s3, m3, w3. by split_and!.
Qed.

(** [init] of a file handler on a file of record pages collects in
    [free_pages_] exactly the pages with a free slot, when it finds a frame for
    every page; otherwise it collects some of them, and reports success all the
    same. *)
Theorem heap_open_correct m w id p log g σ X0 tm h :
  xid_of t ≠ 0 → ready m w → id_to_buffer_pools_ w !! id = Some p → heap_file m w id g σ X0 →
  fh_pool h = None → fh_format h = ROW_FORMAT → free_pages_ h = ∅ →
  ∃ X' m' w', file_init xid_of t p log tm h (m, w) = Some ((RC.SUCCESS, row_file p log X' tm), (m', w')) ∧
    file_kept m w m' w' ∧ kept m w m' w' ∧
    ((∀ pn, pn ∈ X' ↔ has_room m w id g σ pn) ∧ heap_file m' w' id g σ X' ∨
     (∀ pn, pn ∈ X' → has_room m w id g σ pn) ∧ ∃ mb wb pn, file_kept m w mb wb ∧ no_frame mb id pn).
Proof. intros Hx R Hid Hf Hp Hfmt Hem. by apply (file_init_ok xid_of t Hx m w id p g σ X0 log R Hid Hf tm h). Qed.

(** C29: replaying a record of the record log that the log handler wrote, [h] its
    header and [d] its bytes, on a page in any state.  An entry whose LSN the page
    carries already, or a later one, is skipped.  Otherwise an insertion stores the
    record in the first free slot of the page, whatever slot was logged, and ends with
    [RECORD_NOMEM] when there is none; a deletion or an update changes the logged slot,
    and ends with [RECORD_NOT_EXIST] when it is free.  On success the page carries the
    larger of the two LSNs from then on, on an error its LSN and its records stay; and a
    second replay of an entry that was replayed with success changes nothing.  The only
    other outcome is that no frame can be had for the page.  No system call fails here. *)
Theorem record_redo_correct m w id p g σ X l h d op :
  let pn := rl_page_num h in
  let replay := record_replay xid_of t uninit l RECORD_MANAGER (record_log_bytes h ++ d) in
  xid_of t ≠ 0 → ready m w → id_to_buffer_pools_ w !! id = Some p → heap_file m w id g σ X →
  header_range h → rl_buffer_pool_id h = id → rec_operation_of (rl_operation_type h) = Some op →
  rl_storage_format h = format_id ROW_FORMAT → entry_fits op (rl_slot_or_size h) d g →
  0 < pn → allocated m w id pn = true → pins m (mkFrameId id pn) < 2 ^ 30 - 1 → in_srange 64 l →
  ∃ rc m' w', replay (m, w) = Some (rc, (m', w')) ∧ file_kept m w m' w' ∧
    (rc = RC.BUFFERPOOL_NOBUF ∧ no_frame m id pn ∧ heap_file m' w' id g σ X ∨
     ∃ fp m1 w1 f, get_this_page p pn (m, w) = Some ((RC.SUCCESS, Some fp), (m1, w1)) ∧ heap m1 !! fp = Some f ∧
       let r := if l <=? lsn (page_ f) then (RC.SUCCESS, None) else redo_result op (rl_slot_or_size h) d g (λ j, σ !! mkRID pn j) in
       let σ' := redo_file pn r.2 σ in
       rc = r.1 ∧ heap_file m' w' id g σ' ({[pn]} ∪ X) ∧
       (∃ f', heap m' !! fp = Some f' ∧ lsn (page_ f') = if RC.OB_FAIL rc then lsn (page_ f) else Z.max l (lsn (page_ f))) ∧
       (rc = RC.SUCCESS → ∃ m2 w2, replay (m', w') = Some (RC.SUCCESS, (m2, w2)) ∧ file_kept m' w' m2 w2 ∧
          heap_file m2 w2 id g σ' ({[pn]} ∪ X))).
Proof.
  intros pn replay Hx R Hid Hf Hrange Hpool Hop Hfmt Hfit Hpn Ha Hb Hl.
  destruct (record_replay_ok xid_of t uninit Hx id p g l h d op Hrange Hpool Hop Hfmt Hpn Hl Hfit m w σ X R Hid Hf Ha Hb)
    as (rc & m' & w' & E & K & Hres). exists rc, m', w'. split; [exact E|]. split; [exact K|].
  destruct Hres as [?|(fp & m1 & w1 & f & Eg & Hff & Hrep)]; [by left|]. right. exists fp, m1, w1, f.
  split; [exact Eg|]. split; [exact Hff|]. intros r σ'. pose proof Hrep as (Hrc & Hf' & _ & Hlsn). split; [exact Hrc|]. split; [exact Hf'|].
  split; [exact Hlsn|]. intros Hs. change (heap_file m' w' id g σ' ({[pn]} ∪ X)) in Hf'. clearbody σ'. rewrite Hs in Hrep.
  assert (id_to_buffer_pools_ w' !! id = Some p) as Hid' by (by rewrite (ex_ids _ _ (fk_ext _ _ _ _ K))).
  assert (pins m' (mkFrameId id pn) < 2 ^ 30 - 1) as Hb' by (by rewrite (fk_pins _ _ _ _ K)).
  assert (pn ∈ {[pn]} ∪ X) as HX by (by apply elem_of_union_l, elem_of_singleton).
  exact (record_replay_again xid_of t uninit Hx id p g l h d op Hrange Hpool Hop Hfmt Hpn Hl Hfit m' w' σ' _ m w f fp σ X
    (fk_ready _ _ _ _ K) Hid' Hb' Hrep Hf' HX).
Qed.
End record_theorems.

(** ** At the file of [PoolDemo]: one record page with one record *)
Module RecordDemo.
Definition xid (t : thread_id) : Z := 1.
Definition records : gmap RID (list Z) := {[mkRID 1 0 := Demo.record]}.
Definition free : gset PageNum := {[1]}.
Definition rid : RID := mkRID 1 0.
Definition updater (r : Rec) : bool * list Z := (true, [1; 2; 3; 4]).
Definition scanner : HeapRecordScanner :=
  mkScanner ROW_FORMAT (Some 0) NoLog READ_ONLY (Some (λ r, bool_decide (rec_data r = Demo.record))) None (mkIterator 0 0) None
    new_page_iterator (mkRec (mkRID 0 0) []).

Lemma pages : allocated Demo.mgr Demo.world 1 0 = true ∧ allocated Demo.mgr Demo.world 1 1 = true ∧
  (∀ pn, allocated Demo.mgr Demo.world 1 pn = true → pn = 0 ∨ pn = 1).
Proof.
  split; [vm_compute; reflexivity|]. split; [vm_compute; reflexivity|].
  intros pn Ha. pose proof (allocated_range _ _ _ _ Demo.inv Ha) as Hr.
  assert (file_pages Demo.mgr Demo.world 1 = 3) as E by (vm_compute; reflexivity). rewrite E in Hr.
  assert (pn = 0 ∨ pn = 1 ∨ pn = 2) as [->|[->| ->]] by lia; [by left|by right|].
  assert (allocated Demo.mgr Demo.world 1 2 = false) as E2 by (vm_compute; reflexivity). rewrite E2 in Ha. discriminate.
Qed.

Lemma page1_content : content Demo.mgr Demo.world 1 1 = Some Demo.record_page_bytes.
Proof.
  unfold content. rewrite Demo.mgr_frames. cbn [lru_peek]. destruct Demo.pages_stored as (_ & H1 & _).
  change (lru_peek (mkFrameId 1 1) [(mkFrameId 1 0, 0)]) with (None : option Ptr). rewrite H1. reflexivity.
Qed.

Lemma file : heap_file Demo.mgr Demo.world 1 Demo.geometry records free.
Proof.
  destruct pages as (_ & H1 & Hp). split.
  - intros pn Hpn Ha. destruct (Hp pn Ha) as [->| ->]; [lia|]. exists Demo.record_page_bytes. split; [exact page1_content|].
    eapply page_ok_ext; [|exact Demo.record_page_ok]. intros i. unfold records. destruct (decide (i = 0)) as [->|Hne].
    + by rewrite lookup_singleton_eq.
    + rewrite lookup_singleton_ne by congruence. done.
  - intros pn i [bs Hbs]. unfold records in Hbs. apply lookup_singleton_Some in Hbs as [[= <- <-] _]. split; [lia|exact H1].
  - intros pn ->%elem_of_singleton. split; [lia|exact H1].
  - intros pn i Hpn Ha _ _. destruct (Hp pn Ha) as [->| ->]; [lia|]. by apply elem_of_singleton.
Qed.

Lemma latches : fm_all unlocked Demo.mgr.
Proof.
  assert (map_Forall (λ _ f, unlocked f) (heap Demo.mgr)) as H by (apply map_Forall_to_list; vm_compute; repeat constructor).
  intros fp f Hf. exact (H fp f Hf).
Qed.

Lemma start : ready Demo.mgr Demo.world.
Proof.
  split; [exact Demo.mgr_wf|exact Demo.inv| |exact latches]. intros x. unfold pins.
  destruct (lru_peek x (frames_ Demo.mgr)) as [q|]; [|done]. cbn [mbind option_bind].
  destruct (heap Demo.mgr !! q) as [f|] eqn:Hf; [|done]. cbn. pose proof (Demo.mgr_pins q f Hf). lia.
Qed.

Lemma accepts : log_accepts (L:=unit).
Proof. intros l md pl rc n l' _. cbn. by intros [= <- _ _]. Qed.

Lemma reg_file : id_to_buffer_pools_ Demo.world !! 1 = Some 0.
Proof. reflexivity. Qed.

(** The update of the record, as [RecordLogHandler::update_record] logs it. *)
Definition entry : RecordLogHeader := mkRecordLogHeader 1 (rec_type_id UPDATE) 1 (format_id ROW_FORMAT) 0 0.

Lemma entry_ok : entry_fits UPDATE 0 [1; 2; 3; 4] Demo.geometry.
Proof. split; [|by split]. split; [do 4 (constructor; [by split|]); constructor|by cbn]. Qed.

Lemma page1_pins : pins Demo.mgr (mkFrameId 1 1) = 0.
Proof. unfold pins. rewrite Demo.mgr_frames. reflexivity. Qed.

Lemma visits : plain_visit scanner.
Proof. intros visit r [=]. Qed.
End RecordDemo.

Lemma heap_insert_correct_witness :
  ∃ rc r h' m' w', file_insert_record RecordDemo.xid 0%nat [5; 6; 7; 8] 4 (row_file 0 NoLog RecordDemo.free None) (Demo.mgr, Demo.world) =
      Some ((rc, r, h'), (m', w')) ∧ file_kept Demo.mgr Demo.world m' w'.
Proof.
  destruct (heap_insert_correct RecordDemo.xid 0%nat Demo.mgr Demo.world 1 0 NoLog Demo.geometry RecordDemo.records RecordDemo.free None [5; 6; 7; 8])
    as (rc & r & h' & m' & w' & H1 & _ & H2 & _);
    [discriminate|exact RecordDemo.start|exact RecordDemo.reg_file|exact RecordDemo.file|exact RecordDemo.accepts|by split|exact Demo.geometry_eq|reflexivity
    |do 4 (constructor; [by split|]); constructor|by vm_compute|].
  exists rc, r, h', m', w'. split; [exact H1|exact H2].
Defined.

Lemma heap_delete_correct_witness :
  ∃ rc h' m' w' σ', file_delete_record RecordDemo.xid 0%nat 0 RecordDemo.rid (row_file 0 NoLog RecordDemo.free None) (Demo.mgr, Demo.world) =
      Some ((rc, h'), (m', w')) ∧ heap_file m' w' 1 Demo.geometry σ' (free_pages_ h').
Proof.
  destruct (heap_delete_correct RecordDemo.xid 0%nat 0 Demo.mgr Demo.world 1 0 NoLog Demo.geometry RecordDemo.records RecordDemo.free None RecordDemo.rid)
    as (rc & h' & m' & w' & σ' & H1 & _ & _ & H2 & _);
    [discriminate|exact RecordDemo.start|exact RecordDemo.reg_file|exact RecordDemo.file|reflexivity|by split|].
  exists rc, h', m', w', σ'. split; [exact H1|exact H2].
Defined.

Lemma heap_get_correct_witness :
  ∃ rc r m' w', file_get_record RecordDemo.xid 0%nat RecordDemo.rid (row_file 0 NoLog RecordDemo.free None) (Demo.mgr, Demo.world) =
      Some ((rc, r), (m', w')) ∧ heap_file m' w' 1 Demo.geometry RecordDemo.records RecordDemo.free.
Proof.
  destruct (heap_get_correct RecordDemo.xid 0%nat Demo.mgr Demo.world 1 0 NoLog Demo.geometry RecordDemo.records RecordDemo.free None RecordDemo.rid)
    as (rc & r & m' & w' & H1 & _ & H2 & _);
    [discriminate|exact RecordDemo.start|exact RecordDemo.reg_file|exact RecordDemo.file|reflexivity|by cbn|].
  exists rc, r, m', w'. split; [exact H1|exact H2].
Defined.

Lemma heap_visit_correct_witness :
  ∃ rc m' w' σ', file_visit_record RecordDemo.xid 0%nat RecordDemo.rid RecordDemo.updater (row_file 0 NoLog RecordDemo.free None) (Demo.mgr, Demo.world) =
      Some (rc, (m', w')) ∧ heap_file m' w' 1 Demo.geometry σ' RecordDemo.free.
Proof.
  destruct (heap_visit_correct RecordDemo.xid 0%nat Demo.mgr Demo.world 1 0 NoLog Demo.geometry RecordDemo.records RecordDemo.free None RecordDemo.rid RecordDemo.updater)
    as (rc & m' & w' & σ' & H1 & _ & H2 & _);
    [discriminate|exact RecordDemo.start|exact RecordDemo.reg_file|exact RecordDemo.file|reflexivity|by cbn|intros; split; [do 4 (constructor; [by split|]); constructor|by cbn]|].
  exists rc, m', w', σ'. split; [exact H1|exact H2].
Defined.

Lemma heap_scan_correct_witness :
  ∃ (recs : list Rec) s1, (∀ r, r ∈ recs ↔ RecordDemo.records !! rec_rid r = Some (rec_data r) ∧ passes RecordDemo.scanner r = true) ∧
    open_scan RecordDemo.scanner (Demo.mgr, Demo.world) = Some ((RC.SUCCESS, s1), (Demo.mgr, Demo.world)).
Proof.
  destruct (heap_scan_correct RecordDemo.xid 0%nat Demo.mgr Demo.world 1 0 Demo.geometry RecordDemo.records RecordDemo.free RecordDemo.scanner)
    as (recs & H1 & _ & s1 & _ & _ & _ & _ & _ & _ & _ & _ & H2 & _);
    [discriminate|exact RecordDemo.start|exact RecordDemo.reg_file|exact RecordDemo.file|reflexivity|exact RecordDemo.visits|reflexivity|reflexivity|].
  exists recs, s1. split; [exact H1|exact H2].
Defined.

Lemma heap_open_correct_witness :
  ∃ X' m' w', file_init RecordDemo.xid 0%nat 0 NoLog None (mkFileHandler None None ∅ ROW_FORMAT None) (Demo.mgr, Demo.world) =
      Some ((RC.SUCCESS, row_file 0 NoLog X' None), (m', w')) ∧ kept Demo.mgr Demo.world m' w'.
Proof.
  destruct (heap_open_correct RecordDemo.xid 0%nat Demo.mgr Demo.world 1 0 NoLog Demo.geometry RecordDemo.records RecordDemo.free None (mkFileHandler None None ∅ ROW_FORMAT None))
    as (X' & m' & w' & H1 & _ & H2 & _);
    [discriminate|exact RecordDemo.start|exact RecordDemo.reg_file|exact RecordDemo.file|reflexivity|reflexivity|reflexivity|].
  exists X', m', w'. split; [exact H1|exact H2].
Defined.

Lemma record_redo_correct_witness :
  ∃ rc m' w', record_replay RecordDemo.xid 0%nat 0 5 RECORD_MANAGER (record_log_bytes RecordDemo.entry ++ [1; 2; 3; 4]) (Demo.mgr, Demo.world) =
      Some (rc, (m', w')) ∧ file_kept Demo.mgr Demo.world m' w'.
Proof.
  destruct (record_redo_correct RecordDemo.xid 0%nat 0 Demo.mgr Demo.world 1 0 Demo.geometry RecordDemo.records RecordDemo.free 5 RecordDemo.entry
    [1; 2; 3; 4] UPDATE) as (rc & m' & w' & H1 & H2 & _);
    [discriminate|exact RecordDemo.start|exact RecordDemo.reg_file|exact RecordDemo.file|by split; split|reflexivity|reflexivity|reflexivity|exact RecordDemo.entry_ok
    |reflexivity|exact (proj1 (proj2 RecordDemo.pages))|change (pins Demo.mgr (mkFrameId 1 1) < 2 ^ 30 - 1); rewrite RecordDemo.page1_pins; reflexivity|by split|].
  exists rc, m', w'. split; [exact H1|exact H2].
Defined.
