(* ===== verification/IndexKey.v ===== *)
(** * Keys of an index and the search in sorted items

    Models [lower_bound] of [common/lang/lower_bound.h], the comparison functions
    of [common/lang/comparator.cpp], what [Value] and the [DataType] classes do in
    a comparison of two attribute values given as chars, and [AttrComparator] and
    [KeyComparator] of [storage/index/bplus_tree.h].  The laws that the search and
    the tree rely on are the class [KeyOrder]; integers, dates and strings satisfy
    it, floats do not. *)

From Stdlib Require Import SpecFloat.
From S2P Require Import Prelude Types Bytes RecordPage.
Local Open Scope Z_scope.

(** ** [lower_bound]

    Iterators are positions counted from the first element; [comp i] is the
    comparison of the element at [i] with the value, [None] if it cannot be read. *)
Fixpoint lower_bound_loop (fuel : nat) (comp : Z → option Z) (first last_count : Z) : option (Z * bool) :=
  if 0 <? last_count then
    match fuel with
    | O => None
    | S fuel =>
        let step := Z.quot last_count 2 in
        let iter := first + step in
        result ← comp iter;
        if result =? 0 then Some (iter, true)
        else if result <? 0 then lower_bound_loop fuel comp (iter + 1) (last_count - (step + 1))
        else lower_bound_loop fuel comp first step
    end
  else Some (first, false).

(** [last_count] at least halves in a round. *)
Definition lower_bound (comp : Z → option Z) (count : Z) : option (Z * bool) :=
  lower_bound_loop (Z.to_nat count) comp 0 count.

(** ** Comparison functions *)
Definition INT32_MAX : Z := 2 ^ 31 - 1.

Definition compare_int (v1 v2 : Z) : Z := if v2 <? v1 then 1 else if v1 <? v2 then -1 else 0.

(** [strncmp] compares [unsigned char]s; behind its last char a string has a
    terminator. *)
Fixpoint strncmp (s1 s2 : list Z) (n : nat) : Z :=
  match n with
  | O => 0
  | S n =>
      let c1 := uwrap 8 (default 0 (head s1)) in
      let c2 := uwrap 8 (default 0 (head s2)) in
      if c1 =? c2 then (if c1 =? 0 then 0 else strncmp (tail s1) (tail s2) n) else c1 - c2
  end.

Definition compare_string (s1 : list Z) (arg1_max_length : Z) (s2 : list Z) (arg2_max_length : Z) : Z :=
  let maxlen := Z.min arg1_max_length arg2_max_length in
  let result := strncmp s1 s2 (Z.to_nat maxlen) in
  if negb (result =? 0) then (if result <? 0 then -1 else 1)
  else if maxlen <? arg1_max_length then 1
  else if maxlen <? arg2_max_length then -1
  else 0.

(** A [float] is an IEEE binary32 number: sign, eight exponent bits, 23 bits of
    fraction. *)
Definition float_of_bits (z : Z) : spec_float :=
  let b := uwrap 32 z in
  let s := Z.testbit b 31 in
  let e := Z.land (Z.shiftr b 23) 255 in
  let m := Z.land b (2 ^ 23 - 1) in
  if e =? 255 then (if m =? 0 then S754_infinity s else S754_nan)
  else if e =? 0 then (match m with Zpos p => S754_finite s p (-149) | _ => S754_zero s end)
  else match m + 2 ^ 23 with Zpos p => S754_finite s p (e - 150) | _ => S754_nan end.

(** [EPSILON] is the [double] [1E-6]; a [float] is promoted to compare with it. *)
Definition EPSILON : spec_float := S754_finite false 4722366482869645 (-72).
Definition promote (f : spec_float) : spec_float :=
  match f with S754_finite s m e => binary_normalize 53 1024 (cond_Zopp s (Zpos m)) e s | _ => f end.

Definition compare_float (v1 v2 : spec_float) : Z :=
  let cmp := promote (SFsub 24 128 v1 v2) in
  if SFltb EPSILON cmp then 1 else if SFltb cmp (SFopp EPSILON) then -1 else 0.

(** ** Attribute values *)
Inductive AttrType : Type := UNDEFINED | CHARS | INTS | FLOATS | VECTORS | BOOLEANS | DATES.
#[global] Instance AttrType_eq_dec : EqDecision AttrType.
Proof. solve_decision. Defined.

Definition attr_type_id (t : AttrType) : Z :=
  match t with UNDEFINED => 0 | CHARS => 1 | INTS => 2 | FLOATS => 3 | VECTORS => 4 | BOOLEANS => 5 | DATES => 6 end.
Definition attr_type_of (z : Z) : option AttrType :=
  if z =? 0 then Some UNDEFINED else if z =? 1 then Some CHARS else if z =? 2 then Some INTS
  else if z =? 3 then Some FLOATS else if z =? 4 then Some VECTORS else if z =? 5 then Some BOOLEANS
  else if z =? 6 then Some DATES else None.

(** The chars before the first NUL. *)
Fixpoint c_str (s : list Z) : list Z :=
  match s with [] => [] | c :: s => if c =? 0 then [] else c :: c_str s end.

(** The chars that [strnlen] counts: up to a NUL, at most [n]. *)
Fixpoint c_strn (s : list Z) (n : nat) : option (list Z) :=
  match n, s with
  | O, _ => Some []
  | S _, [] => None
  | S n, c :: s => if c =? 0 then Some [] else (c ::.) <$> c_strn s n
  end.

(** [Value::set_string].  Without a length ([len <= 0]) it runs to a NUL, which
    must be there. *)
Definition set_string (s : list Z) (len : Z) : option (list Z) :=
  if 0 <? len then c_strn s (Z.to_nat len)
  else if bool_decide (0 ∈ s) then Some (c_str s) else None.

(** [AttrComparator::operator()]: two values are made with [set_data] and given
    to [compare] of the [DataType]. *)
Definition attr_compare (t : AttrType) (attr_length : Z) (v1 v2 : list Z) : option Z :=
  match t with
  | INTS | DATES => a ← get_i32 v1 0; b ← get_i32 v2 0; Some (compare_int a b)
  | FLOATS => a ← get_i32 v1 0; b ← get_i32 v2 0; Some (compare_float (float_of_bits a) (float_of_bits b))
  | CHARS =>
      a ← set_string v1 attr_length; b ← set_string v2 attr_length;
      Some (compare_string a (Z.of_nat (length a)) b (Z.of_nat (length b)))
  | UNDEFINED | VECTORS | BOOLEANS => Some INT32_MAX
  end.

(** ** Keys: an attribute value followed by a [RID] *)
Definition RID_SIZE : Z := 8.
Definition rid_bytes (r : RID) : list Z := le_bytes 4 (rid_page_num r) ++ le_bytes 4 (rid_slot_num r).
Definition rid_at (l : list Z) (off : Z) : option RID :=
  p ← get_i32 l (Z.to_nat off); s ← get_i32 l (Z.to_nat (off + 4)); Some (mkRID p s).

Definition key_compare (t : AttrType) (attr_length : Z) (v1 v2 : list Z) : option Z :=
  result ← attr_compare t attr_length v1 v2;
  if negb (result =? 0) then Some result
  else rid1 ← rid_at v1 attr_length; rid2 ← rid_at v2 attr_length; Some (rid_compare rid1 rid2).

(** ** What the search finds *)
Section lower_bound.
Context (comp : Z → option Z) (c : Z → Z) (count : Z).
Hypothesis comp_c : ∀ i, 0 ≤ i < count → comp i = Some (c i).
Hypothesis c_sorted : ∀ i j, 0 ≤ i → i < j → j < count → 0 ≤ c i → 0 < c j.

(** The position of the first element that is not smaller, and whether it is
    equal. *)
Definition bound_at (k : Z) (found : bool) : Prop :=
  0 ≤ k ≤ count ∧ (∀ i, 0 ≤ i < k → c i < 0) ∧ (∀ i, k ≤ i < count → 0 ≤ c i) ∧
  found = bool_decide (k < count ∧ c k = 0).

Lemma lower_bound_loop_ok n first last_count :
  last_count ≤ Z.of_nat n → 0 ≤ first → 0 ≤ last_count → first + last_count ≤ count →
  (∀ i, 0 ≤ i < first → c i < 0) → (∀ i, first + last_count ≤ i < count → 0 < c i) →
  ∃ k found, lower_bound_loop n comp first last_count = Some (k, found) ∧ bound_at k found.
Proof.
  revert first last_count. induction n as [|n IH]; intros first last_count Hn H0 H1 H2 Hlt Hge; cbn [lower_bound_loop].
  - rewrite (proj2 (Z.ltb_ge _ _)) by lia. exists first, false. split; [done|]. split_and!; try lia; [done| |].
    + intros i Hi. enough (0 < c i) by lia. apply Hge. lia.
    + rewrite bool_decide_eq_false_2; [done|]. intros [Hk E]. specialize (Hge first). lia.
  - destruct (Z.ltb_spec 0 last_count) as [Hpos|Hz].
    + rewrite Z.quot_div_nonneg by lia. set (step := last_count / 2).
      assert (0 ≤ step < last_count) as Hs by (unfold step; split; [apply Z.div_pos; lia|apply Z.div_lt; lia]).
      rewrite comp_c by lia. cbn [mbind option_bind]. destruct (Z.eqb_spec (c (first + step)) 0) as [E|E].
      * exists (first + step), true. split; [done|]. split_and!; try lia.
        -- intros i Hi. destruct (decide (c i < 0)); [done|]. pose proof (c_sorted i (first + step)). lia.
        -- intros i Hi. destruct (decide (i = first + step)) as [->|]; [lia|].
           enough (0 < c i) by lia. apply (c_sorted (first + step)); lia.
        -- rewrite bool_decide_eq_true_2; [done|]. split; [lia|done].
      * destruct (Z.ltb_spec (c (first + step)) 0) as [L|L].
        -- apply IH; try lia; [|intros i Hi; apply Hge; lia].
           intros i Hi. destruct (decide (c i < 0)); [done|]. destruct (decide (i = first + step)) as [->|]; [lia|].
           pose proof (c_sorted i (first + step)). lia.
        -- apply IH; try lia; [done|]. intros i Hi. destruct (decide (i = first + step)) as [->|]; [lia|].
           apply (c_sorted (first + step)); lia.
    + exists first, false. split; [done|]. split_and!; try lia; [done| |].
      * intros i Hi. enough (0 < c i) by lia. apply Hge. lia.
      * rewrite bool_decide_eq_false_2; [done|]. intros [Hk E]. specialize (Hge first). lia.
Qed.

Lemma lower_bound_ok : 0 ≤ count → ∃ k found, lower_bound comp count = Some (k, found) ∧ bound_at k found.
Proof. intros. apply lower_bound_loop_ok; lia. Qed.
End lower_bound.

(** ** Comparison functions as orders *)
Class KeyOrder {A : Type} (cmp : A → A → option Z) (ok : A → Prop) : Prop := {
  ko_total x y : ok x → ok y → is_Some (cmp x y);
  ko_flip x y a b : ok x → ok y → cmp x y = Some a → cmp y x = Some b → Z.sgn b = - Z.sgn a;
  ko_trans x y z a b c : ok x → ok y → ok z → cmp x y = Some a → cmp y z = Some b → cmp x z = Some c →
    a ≤ 0 → b ≤ 0 → c ≤ 0
}.

Section key_order.
Context {A : Type} (cmp : A → A → option Z) (ok : A → Prop) `{!KeyOrder cmp ok}.

(** The comparison as a total function; outside of [ok] it is not used. *)
Definition kc (x y : A) : Z := default 0 (cmp x y).

Lemma kc_eq x y : ok x → ok y → cmp x y = Some (kc x y).
Proof. intros Hx Hy. unfold kc. by destruct (ko_total x y Hx Hy) as [r ->]. Qed.

Lemma kc_flip x y : ok x → ok y → Z.sgn (kc y x) = - Z.sgn (kc x y).
Proof. intros Hx Hy. eapply ko_flip; [| |by apply kc_eq|by apply kc_eq]; done. Qed.

Lemma kc_pos x y : ok x → ok y → 0 < kc x y ↔ kc y x < 0.
Proof. intros Hx Hy. pose proof (kc_flip x y Hx Hy). split; intros; lia. Qed.

Lemma kc_neg x y : ok x → ok y → kc x y < 0 ↔ 0 < kc y x.
Proof. intros Hx Hy. pose proof (kc_flip x y Hx Hy). split; intros; lia. Qed.

Lemma kc_zero x y : ok x → ok y → kc x y = 0 ↔ kc y x = 0.
Proof. intros Hx Hy. pose proof (kc_flip x y Hx Hy). split; intros; lia. Qed.

Lemma kc_refl x : ok x → kc x x = 0.
Proof. intros Hx. pose proof (kc_flip x x Hx Hx). lia. Qed.

Lemma kc_le_trans x y z : ok x → ok y → ok z → kc x y ≤ 0 → kc y z ≤ 0 → kc x z ≤ 0.
Proof. intros Hx Hy Hz. apply (ko_trans x y z); try done; by apply kc_eq. Qed.

Lemma kc_lt_le x y z : ok x → ok y → ok z → kc x y < 0 → kc y z ≤ 0 → kc x z < 0.
Proof.
  intros Hx Hy Hz H1 H2. destruct (decide (kc x z < 0)); [done|].
  pose proof (kc_flip x z Hx Hz). pose proof (kc_le_trans y z x Hy Hz Hx H2 ltac:(lia)).
  pose proof (kc_flip x y Hx Hy). lia.
Qed.

Lemma kc_le_lt x y z : ok x → ok y → ok z → kc x y ≤ 0 → kc y z < 0 → kc x z < 0.
Proof.
  intros Hx Hy Hz H1 H2. destruct (decide (kc x z < 0)); [done|].
  pose proof (kc_flip x z Hx Hz). pose proof (kc_le_trans z x y Hz Hx Hy ltac:(lia) H1).
  pose proof (kc_flip y z Hy Hz). lia.
Qed.

Lemma kc_lt_trans x y z : ok x → ok y → ok z → kc x y < 0 → kc y z < 0 → kc x z < 0.
Proof. intros. apply (kc_lt_le x y z); try done. lia. Qed.
End key_order.

(** *** Integers and dates *)
Lemma compare_int_sgn a b : compare_int a b = Z.sgn (a - b).
Proof. unfold compare_int. repeat case_match; lia. Qed.

#[global] Instance compare_int_order {A} (f : A → option Z) (ok : A → Prop) :
  (∀ x, ok x → is_Some (f x)) → KeyOrder (λ x y, a ← f x; b ← f y; Some (compare_int a b)) ok.
Proof.
  intros Hf. split.
  - intros x y Hx Hy. destruct (Hf x Hx) as [a ->], (Hf y Hy) as [b ->]. by eexists.
  - intros x y r1 r2 Hx Hy. destruct (Hf x Hx) as [a ->], (Hf y Hy) as [b ->]. cbn. intros [= <-] [= <-].
    rewrite !compare_int_sgn. lia.
  - intros x y z r1 r2 r3 Hx Hy Hz. destruct (Hf x Hx) as [a ->], (Hf y Hy) as [b ->], (Hf z Hz) as [d ->]. cbn.
    intros [= <-] [= <-] [= <-]. rewrite !compare_int_sgn. lia.
Qed.

(** *** Strings: the lexicographic order of their [unsigned char]s *)
Fixpoint lex_compare (s1 s2 : list Z) : Z :=
  match s1, s2 with
  | [], [] => 0
  | [], _ :: _ => -1
  | _ :: _, [] => 1
  | a :: s1, b :: s2 => if uwrap 8 a =? uwrap 8 b then lex_compare s1 s2 else Z.sgn (uwrap 8 a - uwrap 8 b)
  end.

Definition no_nul (s : list Z) : Prop := Forall (λ c, uwrap 8 c ≠ 0) s.

Lemma compare_string_lex s1 s2 :
  no_nul s1 → no_nul s2 → compare_string s1 (Z.of_nat (length s1)) s2 (Z.of_nat (length s2)) = lex_compare s1 s2.
Proof.
  revert s2. induction s1 as [|a s1 IH]; intros [|b s2] N1 N2.
  - done.
  - done.
  - done.
  - apply list.Forall_cons in N1 as [Ha N1]. apply list.Forall_cons in N2 as [Hb N2]. specialize (IH s2 N1 N2). cbn [lex_compare].
    rewrite <-IH. unfold compare_string.
    replace (Z.to_nat (Z.min (Z.of_nat (length (a :: s1))) (Z.of_nat (length (b :: s2)))))
      with (S (Z.to_nat (Z.min (Z.of_nat (length s1)) (Z.of_nat (length s2))))) by (cbn [length]; lia).
    cbn [strncmp head default from_option id tail].
    destruct (Z.eqb_spec (uwrap 8 a) (uwrap 8 b)) as [E|E].
    + rewrite (proj2 (Z.eqb_neq _ _) Ha).
      destruct (strncmp s1 s2 _ =? 0); cbn [negb]; [|done]. cbn [length].
      destruct (Z.ltb_spec (Z.min (Z.of_nat (S (length s1))) (Z.of_nat (S (length s2)))) (Z.of_nat (S (length s1)))),
        (Z.ltb_spec (Z.min (Z.of_nat (length s1)) (Z.of_nat (length s2))) (Z.of_nat (length s1))); try lia.
      destruct (Z.ltb_spec (Z.min (Z.of_nat (S (length s1))) (Z.of_nat (S (length s2)))) (Z.of_nat (S (length s2)))),
        (Z.ltb_spec (Z.min (Z.of_nat (length s1)) (Z.of_nat (length s2))) (Z.of_nat (length s2))); try lia.
    + rewrite (proj2 (Z.eqb_neq _ _)) by lia. cbn [negb].
      destruct (Z.ltb_spec (uwrap 8 a - uwrap 8 b) 0); lia.
Qed.

Lemma lex_flip s1 s2 : lex_compare s2 s1 = - lex_compare s1 s2.
Proof.
  revert s2. induction s1 as [|a s1 IH]; intros [|b s2]; try done. cbn.
  rewrite (Z.eqb_sym (uwrap 8 b)). case_match; [by apply IH|lia].
Qed.

Lemma lex_trans s1 s2 s3 : lex_compare s1 s2 ≤ 0 → lex_compare s2 s3 ≤ 0 → lex_compare s1 s3 ≤ 0.
Proof.
  revert s2 s3. induction s1 as [|a s1 IH]; intros [|b s2] [|d s3]; cbn; try lia.
  destruct (Z.eqb_spec (uwrap 8 a) (uwrap 8 b)), (Z.eqb_spec (uwrap 8 b) (uwrap 8 d)), (Z.eqb_spec (uwrap 8 a) (uwrap 8 d));
    try lia. apply IH.
Qed.

Lemma c_str_no_nul s : chars s → no_nul (c_str s).
Proof.
  induction 1 as [|c s Hc Hs IH]; [constructor|]. cbn. destruct (Z.eqb_spec c 0); constructor; [|done].
  unfold uwrap. intros E. apply Z.mod_divide in E as [k ->]; [|done]. unfold in_srange in Hc. cbn in Hc. lia.
Qed.

(** *** Attribute values of an index *)
Record attr_ok (t : AttrType) (attr_length : Z) (v : list Z) : Prop := {
  ao_length : attr_length ≤ Z.of_nat (length v);
  ao_size : match t with INTS | DATES => 4 ≤ attr_length | CHARS => 0 < attr_length | _ => False end;
  ao_chars : chars v
}.

Lemma c_strn_eq s n : (n ≤ length s)%nat → c_strn s n = Some (c_str (take n s)).
Proof.
  revert n. induction s as [|c s IH]; intros [|n] Hn; cbn in *; try lia; [done|done|].
  destruct (c =? 0); [done|]. by rewrite IH by lia.
Qed.

#[global] Instance attr_compare_order t attr_length : KeyOrder (attr_compare t attr_length) (attr_ok t attr_length).
Proof.
  destruct t.
  1, 4, 5, 6: split; intros x; intros; by match goal with H : attr_ok _ _ x |- _ => destruct (ao_size _ _ _ H) end.
  1: set (f v := set_string v attr_length);
     assert (∀ v, attr_ok CHARS attr_length v → ∃ s, f v = Some s ∧ no_nul s) as Hf
       by (intros v [Hl Hs Hc]; unfold f, set_string; rewrite (proj2 (Z.ltb_lt _ _)) by done;
           rewrite c_strn_eq by lia; eexists; split; [done|]; apply c_str_no_nul, Forall_take, Hc);
     unfold attr_compare; fold f; split.
  - intros x y Hx Hy. fold (f x) (f y). destruct (Hf x Hx) as (a & -> & _), (Hf y Hy) as (b & -> & _). by eexists.
  - intros x y r1 r2 Hx Hy. fold (f x) (f y). destruct (Hf x Hx) as (a & -> & Na), (Hf y Hy) as (b & -> & Nb). cbn. intros [= <-] [= <-].
    rewrite !compare_string_lex by done. rewrite (lex_flip a b). lia.
  - intros x y z r1 r2 r3 Hx Hy Hz. fold (f x) (f y) (f z).
    destruct (Hf x Hx) as (a & -> & Na), (Hf y Hy) as (b & -> & Nb), (Hf z Hz) as (d & -> & Nd). cbn.
    intros [= <-] [= <-] [= <-]. rewrite !compare_string_lex by done. apply lex_trans.
  - apply (compare_int_order (λ v, get_i32 v 0)). intros x [Hl Hs _]. apply get_i32_Some. lia.
  - apply (compare_int_order (λ v, get_i32 v 0)). intros x [Hl Hs _]. apply get_i32_Some. lia.
Qed.

(** *** Keys.  The ids of records are not negative, so that the differences of
    [RID::compare] do not overflow. *)
Definition rid_ok (r : RID) : Prop := 0 ≤ rid_page_num r ≤ INT32_MAX ∧ 0 ≤ rid_slot_num r ≤ INT32_MAX.

Record key_ok (t : AttrType) (attr_length : Z) (k : list Z) : Prop := {
  ko_length : Z.of_nat (length k) = attr_length + RID_SIZE;
  ko_attr : attr_ok t attr_length k;
  ko_rid : ∃ r, rid_at k attr_length = Some r ∧ rid_ok r
}.

Lemma rid_compare_eq r1 r2 : rid_ok r1 → rid_ok r2 →
  rid_compare r1 r2 = if rid_page_num r1 =? rid_page_num r2 then rid_slot_num r1 - rid_slot_num r2
                      else rid_page_num r1 - rid_page_num r2.
Proof.
  unfold rid_ok, INT32_MAX. change (2 ^ 31 - 1) with 2147483647. intros [H1 H2] [H3 H4]. unfold rid_compare.
  rewrite !swrap_id by (unfold in_srange; cbn; lia).
  destruct (Z.eqb_spec (rid_page_num r1) (rid_page_num r2)) as [->|E]; [by rewrite Z.sub_diag|].
  by rewrite (proj2 (Z.eqb_neq _ _)) by lia.
Qed.

#[global] Instance rid_compare_order : KeyOrder (λ r1 r2, Some (rid_compare r1 r2)) rid_ok.
Proof.
  split.
  - by eexists.
  - intros x y r1 r2 Hx Hy [= <-] [= <-]. rewrite !rid_compare_eq by done. rewrite (Z.eqb_sym (rid_page_num y)).
    case_match; lia.
  - intros x y z r1 r2 r3 Hx Hy Hz [= <-] [= <-] [= <-]. rewrite !rid_compare_eq by done.
    destruct (Z.eqb_spec (rid_page_num x) (rid_page_num y)), (Z.eqb_spec (rid_page_num y) (rid_page_num z)),
      (Z.eqb_spec (rid_page_num x) (rid_page_num z)); lia.
Qed.

#[global] Instance key_compare_order t attr_length : KeyOrder (key_compare t attr_length) (key_ok t attr_length).
Proof.
  assert (∀ x y, key_ok t attr_length x → key_ok t attr_length y → ∃ rx ry a,
    rid_ok rx ∧ rid_ok ry ∧ rid_at x attr_length = Some rx ∧ rid_at y attr_length = Some ry ∧
    attr_compare t attr_length x y = Some a ∧
    key_compare t attr_length x y = Some (if a =? 0 then rid_compare rx ry else a)) as Hk.
  { intros x y [_ Ax (rx & Ex & Rx)] [_ Ay (ry & Ey & Ry)]. destruct (ko_total x y Ax Ay) as [a Ha].
    exists rx, ry, a. split_and!; try done. unfold key_compare. rewrite Ha, Ex, Ey. cbn. by destruct (a =? 0). }
  split.
  - intros x y Hx Hy. destruct (Hk x y Hx Hy) as (rx & ry & a & _ & _ & _ & _ & _ & ->). by eexists.
  - intros x y r1 r2 Hx Hy. destruct (Hk x y Hx Hy) as (rx & ry & a & Rx & Ry & Ex & Ey & Ha & ->).
    destruct (Hk y x Hy Hx) as (ry' & rx' & b & _ & _ & Ey' & Ex' & Hb & ->). intros [= <-] [= <-]. simplify_eq.
    pose proof (ko_flip x y a b (ko_attr _ _ _ Hx) (ko_attr _ _ _ Hy) Ha Hb).
    destruct (Z.eqb_spec a 0), (Z.eqb_spec b 0); try lia.
    exact (ko_flip rx ry _ _ Rx Ry eq_refl eq_refl).
  - intros x y z r1 r2 r3 Hx Hy Hz. destruct (Hk x y Hx Hy) as (rx & ry & a & Rx & Ry & Ex & Ey & Ha & ->).
    destruct (Hk y z Hy Hz) as (ry' & rz & b & _ & Rz & Ey' & Ez & Hb & ->).
    destruct (Hk x z Hx Hz) as (rx' & rz' & c & _ & _ & Ex' & Ez' & Hc & ->). intros [= <-] [= <-] [= <-]. simplify_eq.
    pose proof (ko_attr _ _ _ Hx) as Ax. pose proof (ko_attr _ _ _ Hy) as Ay. pose proof (ko_attr _ _ _ Hz) as Az.
    unshelve epose proof (kc_lt_le (attr_compare t attr_length) (attr_ok t attr_length) x y z Ax Ay Az) as L1.
    unshelve epose proof (kc_le_lt (attr_compare t attr_length) (attr_ok t attr_length) x y z Ax Ay Az) as L2.
    pose proof (ko_trans x y z a b c Ax Ay Az Ha Hb Hc) as L3. unfold kc in L1, L2. rewrite Ha, Hb, Hc in L1, L2. cbn in L1, L2.
    destruct (Z.eqb_spec a 0), (Z.eqb_spec b 0), (Z.eqb_spec c 0); try lia.
    intros H1 H2. exact (ko_trans rx ry rz _ _ _ Rx Ry Rz eq_refl eq_refl eq_refl H1 H2).
Qed.

(** Floats that are closer than [EPSILON] count as equal, which is not transitive:
    here [1.0] and two floats a few steps above it. *)
Lemma float_not_transitive :
  let x := le_bytes 4 1065353216 in let y := le_bytes 4 1065353221 in let z := le_bytes 4 1065353226 in
  attr_compare FLOATS 4 x y = Some 0 ∧ attr_compare FLOATS 4 y z = Some 0 ∧ attr_compare FLOATS 4 x z = Some (-1).
Proof. by vm_compute. Qed.
