(* ===== verification/IndexNodeSpec.v ===== *)
(** * Nodes as lists of items

    A well-formed page of the tree stands for a [node]: a kind, a parent, for a leaf
    its right neighbour, and a list of items.  The lemmas say which node the methods
    of [IndexNode] leave in the page. *)

From stdpp Require Import sorting.
From S2P Require Import Prelude Types Bytes RecordPage IndexKey IndexNode.
Local Open Scope Z_scope.

(** ** Bytes at the seam of two lists *)
Lemma get_bytes_app (P Q R : list Z) off n : off = length P → n = length Q → get_bytes (P ++ Q ++ R) off n = Some Q.
Proof.
  intros -> ->. unfold get_bytes. rewrite !length_app, decide_True by lia. by rewrite drop_app_length, take_app_length.
Qed.

Lemma set_bytes_app (P Q R bs : list Z) off :
  off = length P → length bs = length Q → set_bytes (P ++ Q ++ R) off bs = Some (P ++ bs ++ R).
Proof.
  intros -> E. unfold set_bytes. rewrite !length_app, decide_True by lia.
  rewrite take_app_length, drop_app_add by lia. f_equal. f_equal. f_equal. by rewrite E, drop_app_length.
Qed.

Lemma set_bytes_app0 (Q R bs : list Z) : length bs = length Q → set_bytes (Q ++ R) 0 bs = Some (bs ++ R).
Proof. intros. by apply (set_bytes_app [] Q R bs). Qed.

Lemma get_i32_mid (P R : list Z) off z : off = length P → in_srange 32 z → get_i32 (P ++ le_bytes 4 z ++ R) off = Some z.
Proof.
  intros -> Hz. unfold get_i32. rewrite get_bytes_app by (try done; by rewrite le_bytes_length). cbn [mbind option_bind].
  by rewrite (le_signed 4) by (try lia; done).
Qed.

Lemma set_i32_app (P R : list Z) off z z' : off = length P → set_i32 (P ++ le_bytes 4 z ++ R) off z' = Some (P ++ le_bytes 4 z' ++ R).
Proof. intros ->. apply set_bytes_app; [done|]. by rewrite !le_bytes_length. Qed.

Lemma read_at_app (P Q R : list Z) off n : off = Z.of_nat (length P) → n = Z.of_nat (length Q) → read_at (P ++ Q ++ R) off n = Some Q.
Proof.
  intros -> ->. unfold read_at. rewrite !(proj2 (Z.leb_le _ _)) by lia. cbn [andb]. by rewrite !Nat2Z.id, get_bytes_app.
Qed.

Lemma write_at_app (P Q R bs : list Z) off :
  off = Z.of_nat (length P) → length bs = length Q → write_at (P ++ Q ++ R) off bs = Some (P ++ bs ++ R).
Proof. intros -> E. unfold write_at. rewrite (proj2 (Z.leb_le _ _)) by lia. by rewrite Nat2Z.id, set_bytes_app. Qed.

Lemma read_all (l : list Z) n : n = Z.of_nat (length l) → read_at l 0 n = Some l.
Proof. intros ->. rewrite <-(app_nil_r l) at 1. by apply (read_at_app [] l []). Qed.

Lemma length_concat (n : Z) (l : list (list Z)) :
  Forall (λ x, Z.of_nat (length x) = n) l → Z.of_nat (length (concat l)) = Z.of_nat (length l) * n.
Proof. induction 1 as [|x l Hx Hl IH]; [done|]. cbn [concat length]. rewrite length_app. lia. Qed.

(** Splitting a list at a position. *)
Lemma split_at {A} (l : list A) i : (i ≤ length l)%nat → ∃ l1 l2, l = l1 ++ l2 ∧ length l1 = i.
Proof. intros Hi. exists (take i l), (drop i l). split; [by rewrite take_drop|]. rewrite length_take. lia. Qed.

Lemma prefix_room (bs : list Z) m : (m ≤ length bs)%nat → ∃ a b, bs = a ++ b ∧ length a = m.
Proof. apply split_at. Qed.

(** Moving chars to the right by the width of a gap behind them, and to the left
    over other chars. *)
Lemma memmove_right (P B G T : list Z) dst src n :
  src = Z.of_nat (length P) → n = Z.of_nat (length B) → dst = src + Z.of_nat (length G) →
  ∃ X, length X = length G ∧ memmove (P ++ B ++ G ++ T) dst src n = Some (P ++ X ++ B ++ T).
Proof.
  intros -> -> ->. unfold memmove. rewrite read_at_app by done. cbn [mbind option_bind].
  destruct (split_at (B ++ G) (length G)) as (X & Y & EX & HX); [rewrite length_app; lia|].
  exists X. split; [done|]. rewrite (app_assoc B), EX, <-app_assoc, (app_assoc P).
  rewrite write_at_app; [by rewrite <-!app_assoc|rewrite length_app; lia|].
  apply (f_equal length) in EX. rewrite !length_app in EX. lia.
Qed.

Lemma memmove_left (P A B T : list Z) dst src n :
  dst = Z.of_nat (length P) → n = Z.of_nat (length B) → src = dst + Z.of_nat (length A) → chars (A ++ B) →
  ∃ Y, length Y = length A ∧ chars Y ∧ memmove (P ++ A ++ B ++ T) dst src n = Some (P ++ B ++ Y ++ T).
Proof.
  intros -> -> -> Hc. unfold memmove. rewrite (app_assoc P), read_at_app by (rewrite ?length_app; lia). cbn [mbind option_bind].
  destruct (split_at (A ++ B) (length B)) as (X & Y & EX & HX); [rewrite length_app; lia|].
  exists Y. split_and!.
  - apply (f_equal length) in EX. rewrite !length_app in EX. lia.
  - rewrite EX in Hc. by apply Forall_app in Hc as [_ ?].
  - rewrite <-(app_assoc P), (app_assoc A), EX, <-(app_assoc X). by rewrite write_at_app.
Qed.

(** ** The node in a page *)
Record node : Type := mkNode {
  nd_leaf : bool;
  nd_parent : PageNum;
  nd_next : PageNum;
  nd_items : list (list Z)
}.

Definition kind (leaf : bool) : HandlerType := if leaf then LeafHandler else InternalHandler.
Definition node_hdr (pad : list Z) (leaf : bool) (n parent next : Z) : list Z :=
  ((if leaf then 1 else 0) :: pad) ++ le_bytes 4 n ++ le_bytes 4 parent ++ (if leaf then le_bytes 4 next else []).
Definition hdr_size (leaf : bool) : Z := if leaf then LeafIndexNode_HEADER_SIZE else InternalIndexNode_HEADER_SIZE.

Lemma node_hdr_length pad leaf n parent next : length pad = 3%nat → Z.of_nat (length (node_hdr pad leaf n parent next)) = hdr_size leaf.
Proof. intros Hp. unfold node_hdr. rewrite !length_app. cbn [length]. rewrite Hp, !le_bytes_length. by destruct leaf. Qed.

Definition with_parent (p : PageNum) (n : node) : node := mkNode (nd_leaf n) p (nd_next n) (nd_items n).
Definition with_next (p : PageNum) (n : node) : node := mkNode (nd_leaf n) (nd_parent n) p (nd_items n).
Definition with_items (l : list (list Z)) (n : node) : node := mkNode (nd_leaf n) (nd_parent n) (nd_next n) l.

Lemma node_hdr_chars pad leaf n parent next : chars (node_hdr pad leaf n parent next) ↔ chars pad.
Proof.
  unfold node_hdr, chars. rewrite !Forall_app, list.Forall_cons. split; [tauto|]. intros Hp. split_and!; try done.
  - by destruct leaf.
  - apply le_bytes_chars.
  - apply le_bytes_chars.
  - destruct leaf; [apply le_bytes_chars|constructor].
Qed.

Section rep.
Context (h : IndexFileHeader).

(** What an index relies on: keys with a record id, and room for the items. *)
Record index_ok : Prop := {
  io_key : key_length h = attr_length h + RID_SIZE;
  io_attr : 0 < attr_length h;
  io_leaf : LeafIndexNode_HEADER_SIZE + leaf_max_size h * item_size h LeafHandler ≤ BP_PAGE_DATA_SIZE;
  io_internal : InternalIndexNode_HEADER_SIZE + internal_max_size h * item_size h InternalHandler ≤ BP_PAGE_DATA_SIZE;
  io_leaf_min : 2 ≤ leaf_max_size h;
  io_internal_min : 3 ≤ internal_max_size h
}.
Context (HI : index_ok).

Definition item_ok (leaf : bool) (it : list Z) : Prop := Z.of_nat (length it) = item_size h (kind leaf) ∧ chars it.
Definition item_key (it : list Z) : list Z := take (Z.to_nat (key_length h)) it.
Definition item_value (it : list Z) : list Z := drop (Z.to_nat (key_length h)) it.

Definition rep (n : node) (d : list Z) : Prop :=
  ∃ pad tl, length pad = 3%nat ∧
    d = node_hdr pad (nd_leaf n) (Z.of_nat (length (nd_items n))) (nd_parent n) (nd_next n) ++ concat (nd_items n) ++ tl ∧
    Z.of_nat (length d) = BP_PAGE_DATA_SIZE ∧ chars d ∧ Forall (item_ok (nd_leaf n)) (nd_items n) ∧
    in_srange 32 (nd_parent n) ∧ in_srange 32 (nd_next n).

Lemma key_length_pos : 0 < key_length h.
Proof. destruct HI. unfold RID_SIZE in *. lia. Qed.

Lemma item_size_pos k : key_length h < item_size h k.
Proof. unfold item_size, value_size, RID_SIZE. destruct k; lia. Qed.

Lemma items_length leaf l : Forall (item_ok leaf) l → Z.of_nat (length (concat l)) = Z.of_nat (length l) * item_size h (kind leaf).
Proof. intros H. apply length_concat. eapply list.Forall_impl; [exact H|]. by intros it []. Qed.

Lemma items_chars leaf l : Forall (item_ok leaf) l → chars (concat l).
Proof. induction 1 as [|x l [_ Hx] _ IH]; [constructor|]. by apply Forall_app. Qed.

Lemma rep_range n d : rep n d → in_srange 32 (Z.of_nat (length (nd_items n))).
Proof.
  intros (pad & tl & Hp & -> & Hl & _ & Hi & _). rewrite !length_app, !Nat2Z.inj_add, (items_length _ _ Hi) in Hl.
  pose proof key_length_pos. pose proof (item_size_pos (kind (nd_leaf n))).
  assert (Z.of_nat (length (nd_items n)) ≤ BP_PAGE_DATA_SIZE) by nia. change BP_PAGE_DATA_SIZE with 8180 in *.
  unfold in_srange. cbn. lia.
Qed.

Lemma rep_length n d : rep n d → Z.of_nat (length d) = BP_PAGE_DATA_SIZE.
Proof. by intros (pad & tl & _ & _ & ? & _). Qed.

Lemma rep_chars n d : rep n d → chars d.
Proof. by intros (pad & tl & _ & _ & _ & ? & _). Qed.

Lemma rep_items n d : rep n d → Forall (item_ok (nd_leaf n)) (nd_items n).
Proof. by intros (pad & tl & _ & _ & _ & _ & ? & _). Qed.

(** *** Fields *)
Lemma rep_is_leaf n d : rep n d → is_leaf d = Some (nd_leaf n).
Proof. intros (pad & tl & _ & -> & _). unfold is_leaf. cbn. by destruct (nd_leaf n). Qed.

Lemma rep_size n d : rep n d → node_size d = Some (Z.of_nat (length (nd_items n))).
Proof.
  intros R. pose proof (rep_range _ _ R). destruct R as (pad & tl & Hp & -> & _). unfold node_size, node_hdr.
  rewrite <-!app_assoc. apply get_i32_mid; [cbn [length]; lia|done].
Qed.

Lemma rep_parent n d : rep n d → parent_page_num d = Some (nd_parent n).
Proof.
  intros (pad & tl & Hp & -> & _ & _ & _ & Hr & _). unfold parent_page_num, node_hdr.
  rewrite <-!app_assoc, (app_assoc (_ :: pad)). apply get_i32_mid; [|done].
  rewrite length_app, le_bytes_length. cbn [length]. lia.
Qed.

Lemma rep_next n d : rep n d → nd_leaf n = true → next_page d = Some (nd_next n).
Proof.
  intros (pad & tl & Hp & -> & _ & _ & _ & _ & Hr) El. unfold next_page, node_hdr. rewrite El.
  rewrite <-!app_assoc, (app_assoc (_ :: pad)), (app_assoc (_ ++ _)). apply get_i32_mid; [|done].
  rewrite !length_app, !le_bytes_length. cbn [length]. lia.
Qed.

Lemma chars_replace (P Q R bs : list Z) : chars (P ++ Q ++ R) → chars bs → chars (P ++ bs ++ R).
Proof. unfold chars. rewrite !Forall_app. naive_solver. Qed.

(** The page after chars in it were replaced: length and chars are as before. *)
Lemma rep_intro n (d0 d pad tl : list Z) :
  Z.of_nat (length d0) = BP_PAGE_DATA_SIZE → length d = length d0 → length pad = 3%nat → chars d →
  d = node_hdr pad (nd_leaf n) (Z.of_nat (length (nd_items n))) (nd_parent n) (nd_next n) ++ concat (nd_items n) ++ tl →
  Forall (item_ok (nd_leaf n)) (nd_items n) → in_srange 32 (nd_parent n) → in_srange 32 (nd_next n) → rep n d.
Proof. intros Hl E Hp Hc -> Hi H1 H2. exists pad, tl. split_and!; try done. lia. Qed.

Lemma rep_put_parent n d p : rep n d → in_srange 32 p → ∃ d', put_parent d p = Some d' ∧ rep (with_parent p n) d'.
Proof.
  intros (pad & tl & Hp & Hd & Hl & Hc & Hi & Hr1 & Hr2) Hr.
  assert (∃ Q R, d = Q ++ le_bytes 4 (nd_parent n) ++ R ∧ length Q = 8%nat ∧
    ∀ z, Q ++ le_bytes 4 z ++ R = node_hdr pad (nd_leaf n) (Z.of_nat (length (nd_items n))) z (nd_next n) ++ concat (nd_items n) ++ tl)
    as (Q & R & HQ & HlQ & HE).
  { exists (((if nd_leaf n then 1 else 0) :: pad) ++ le_bytes 4 (Z.of_nat (length (nd_items n)))),
      ((if nd_leaf n then le_bytes 4 (nd_next n) else []) ++ concat (nd_items n) ++ tl).
    split_and!; [rewrite Hd; unfold node_hdr; by rewrite <-!app_assoc| |intros z; unfold node_hdr; by rewrite <-!app_assoc].
    rewrite length_app, le_bytes_length. cbn [length]. lia. }
  rewrite HQ in *. eexists. split; [by apply set_i32_app|].
  apply (rep_intro (with_parent p n) (Q ++ le_bytes 4 (nd_parent n) ++ R) _ pad tl); try done.
  - by rewrite !length_app, !le_bytes_length.
  - eapply chars_replace; [exact Hc|apply le_bytes_chars].
Qed.

Lemma rep_put_next n d p : rep n d → nd_leaf n = true → in_srange 32 p → ∃ d', put_next d p = Some d' ∧ rep (with_next p n) d'.
Proof.
  intros (pad & tl & Hp & Hd & Hl & Hc & Hi & Hr1 & Hr2) El Hr.
  assert (∃ Q R, d = Q ++ le_bytes 4 (nd_next n) ++ R ∧ length Q = 12%nat ∧
    ∀ z, Q ++ le_bytes 4 z ++ R = node_hdr pad (nd_leaf n) (Z.of_nat (length (nd_items n))) (nd_parent n) z ++ concat (nd_items n) ++ tl)
    as (Q & R & HQ & HlQ & HE).
  { exists ((((if nd_leaf n then 1 else 0) :: pad) ++ le_bytes 4 (Z.of_nat (length (nd_items n)))) ++ le_bytes 4 (nd_parent n)),
      (concat (nd_items n) ++ tl).
    split_and!; [rewrite Hd; unfold node_hdr; rewrite El; by rewrite <-!app_assoc| |intros z; unfold node_hdr; rewrite El; by rewrite <-!app_assoc].
    rewrite !length_app, !le_bytes_length. cbn [length]. lia. }
  rewrite HQ in *. eexists. split; [by apply set_i32_app|].
  apply (rep_intro (with_next p n) (Q ++ le_bytes 4 (nd_next n) ++ R) _ pad tl); try done.
  - by rewrite !length_app, !le_bytes_length.
  - eapply chars_replace; [exact Hc|apply le_bytes_chars].
Qed.

(** Behind the header: the chars [B] with a new item count. *)
Lemma increase_size_eq (pad : list Z) leaf m p nx B k :
  length pad = 3%nat → in_srange 32 m → in_srange 32 (m + k) →
  increase_size (node_hdr pad leaf m p nx ++ B) k = Some (node_hdr pad leaf (m + k) p nx ++ B).
Proof.
  intros Hp Hm Hk. unfold increase_size, node_size, node_hdr. rewrite <-!app_assoc.
  rewrite get_i32_mid by (cbn [length]; lia || done). cbn [mbind option_bind]. rewrite swrap_id by (lia || done).
  rewrite set_i32_app by (cbn [length]; lia). f_equal.
Qed.

Lemma item_at_eq leaf i : item_at h (kind leaf) i = Some (hdr_size leaf + i * item_size h (kind leaf)).
Proof. by destruct leaf. Qed.

(** The page with other chars behind the header, of the same number. *)
Lemma rep_rewrite n d pad B B' l tl :
  Z.of_nat (length d) = BP_PAGE_DATA_SIZE → length pad = 3%nat → chars d →
  d = node_hdr pad (nd_leaf n) (Z.of_nat (length (nd_items n))) (nd_parent n) (nd_next n) ++ B →
  length B' = length B → chars B' → B' = concat l ++ tl → Forall (item_ok (nd_leaf n)) l →
  in_srange 32 (nd_parent n) → in_srange 32 (nd_next n) →
  rep (with_items l n) (node_hdr pad (nd_leaf n) (Z.of_nat (length l)) (nd_parent n) (nd_next n) ++ B').
Proof.
  intros Hl Hp Hc Hd HB Hc' E Hi H1 H2. rewrite Hd in Hc. apply Forall_app in Hc as [Hc _].
  apply (rep_intro (with_items l n) d _ pad tl); try done.
  - rewrite Hd, !length_app, HB. f_equal. apply Nat2Z.inj. by rewrite !node_hdr_length.
  - apply Forall_app_2; [|done]. apply node_hdr_chars. by apply node_hdr_chars in Hc.
  - cbn. by rewrite E.
Qed.

(** The chars of a page with its items split in two. *)
Record split_page (n : node) (d pad : list Z) (l1 l2 : list (list Z)) (tl : list Z) : Prop := {
  sp_pad : length pad = 3%nat;
  sp_page : d = node_hdr pad (nd_leaf n) (Z.of_nat (length (nd_items n))) (nd_parent n) (nd_next n) ++ concat l1 ++ concat l2 ++ tl;
  sp_items : nd_items n = l1 ++ l2;
  sp_ok1 : Forall (item_ok (nd_leaf n)) l1;
  sp_ok2 : Forall (item_ok (nd_leaf n)) l2;
  sp_chars : chars (concat l1) ∧ chars (concat l2) ∧ chars tl
}.

Lemma rep_split n d i : rep n d → (i ≤ length (nd_items n))%nat →
  ∃ pad l1 l2 tl, split_page n d pad l1 l2 tl ∧ length l1 = i ∧ take i (nd_items n) = l1 ∧ drop i (nd_items n) = l2.
Proof.
  intros (pad & tl & Hp & Hd & Hlen & Hc & Hit & Hr1 & Hr2) Hi.
  destruct (split_at (nd_items n) i Hi) as (l1 & l2 & El & Hl1). exists pad, l1, l2, tl. split_and!.
  - rewrite El in Hit. apply Forall_app in Hit as [Hi1 Hi2]. split; try done.
    + rewrite Hd. f_equal. by rewrite El, concat_app, <-app_assoc.
    + split_and!; [by eapply items_chars|by eapply items_chars|]. rewrite Hd in Hc. unfold chars in *. rewrite !Forall_app in Hc. tauto.
  - done.
  - by rewrite El, <-Hl1, take_app_length.
  - by rewrite El, <-Hl1, drop_app_length.
Qed.

(** *** Inserting and removing items *)
Lemma rep_insert n d i l :
  rep n d → (i ≤ length (nd_items n))%nat → Forall (item_ok (nd_leaf n)) l →
  hdr_size (nd_leaf n) + Z.of_nat (length (nd_items n) + length l) * item_size h (kind (nd_leaf n)) ≤ BP_PAGE_DATA_SIZE →
  ∃ d', recover_insert_items h (kind (nd_leaf n)) d (Z.of_nat i) (concat l) (Z.of_nat (length l)) = Some d' ∧
    rep (with_items (take i (nd_items n) ++ l ++ drop i (nd_items n)) n) d'.
Proof.
  intros R Hi Hl Hroom. pose proof (rep_size _ _ R) as Hsz. pose proof (rep_range _ _ R) as Hrg.
  destruct (rep_split n d i R Hi) as (pad & l1 & l2 & tl & [Hp Hd El Hi1 Hi2 (Hc1 & Hc2 & Hct)] & Hl1 & -> & ->).
  destruct R as (_ & _ & _ & _ & Hlen & Hc & _ & Hr1 & Hr2). set (isz := item_size h (kind (nd_leaf n))) in *.
  pose proof key_length_pos. pose proof (item_size_pos (kind (nd_leaf n))) as Hisz. fold isz in Hisz.
  pose proof (items_length _ _ Hi1) as L1. pose proof (items_length _ _ Hi2) as L2. pose proof (items_length _ _ Hl) as L.
  fold isz in L1, L2, L. set (HB := node_hdr pad (nd_leaf n) (Z.of_nat (length (nd_items n))) (nd_parent n) (nd_next n)) in *.
  assert (Z.of_nat (length HB) = hdr_size (nd_leaf n)) as LH by (by apply node_hdr_length).
  assert (Z.of_nat (length (nd_items n)) = Z.of_nat i + Z.of_nat (length l2)) as Hn by (rewrite El, length_app; lia).
  destruct (split_at tl (length (concat l))) as (g & tl' & -> & Hg); [rewrite Hd, !length_app in Hlen; nia|].
  assert (∃ X, length X = length (concat l) ∧
    (if Z.of_nat i <? Z.of_nat (length (nd_items n)) then
       memmove d (hdr_size (nd_leaf n) + (Z.of_nat i + Z.of_nat (length l)) * isz) (hdr_size (nd_leaf n) + Z.of_nat i * isz)
         ((Z.of_nat (length (nd_items n)) - Z.of_nat i) * isz) else Some d) = Some ((HB ++ concat l1) ++ X ++ concat l2 ++ tl'))
    as (X & HX & Em).
  { rewrite Hd, (app_assoc HB). destruct (Z.ltb_spec (Z.of_nat i) (Z.of_nat (length (nd_items n)))) as [Hlt|Hge].
    - rewrite <-Hg. apply memmove_right; rewrite ?length_app; nia.
    - exists g. split; [done|]. by assert (l2 = []) as -> by (destruct l2; [done|cbn in Hn; lia]). }
  unfold recover_insert_items. rewrite Hsz. cbn [mbind option_bind]. rewrite !item_at_eq. fold isz. cbn [mbind option_bind].
  rewrite Em. cbn [mbind option_bind]. rewrite read_all by lia. cbn [mbind option_bind].
  rewrite write_at_app; [|rewrite length_app; lia|done]. cbn [mbind option_bind]. rewrite <-app_assoc. unfold HB at 1.
  assert (in_srange 32 (Z.of_nat (length (nd_items n)) + Z.of_nat (length l))) as Hrg2.
  { change BP_PAGE_DATA_SIZE with 8180 in *. unfold in_srange, hdr_size in *. cbn. destruct (nd_leaf n); cbn in Hroom; nia. }
  rewrite increase_size_eq by done. eexists. split; [done|].
  replace (Z.of_nat (length (nd_items n)) + Z.of_nat (length l)) with (Z.of_nat (length (l1 ++ l ++ l2))) by (rewrite !length_app; lia).
  eapply (rep_rewrite n d pad _ _ _ tl'); [done|done|done|exact Hd|rewrite !length_app; lia| |by rewrite !concat_app, <-!app_assoc| |done|done].
  - apply Forall_app in Hct as [_ Hct]. repeat (apply Forall_app_2; [done || by eapply items_chars|]). done.
  - by repeat apply Forall_app_2.
Qed.

Lemma rep_remove n d i m :
  rep n d → (i + m ≤ length (nd_items n))%nat →
  ∃ d', recover_remove_items h (kind (nd_leaf n)) d (Z.of_nat i) (Z.of_nat m) = Some d' ∧
    rep (with_items (take i (nd_items n) ++ drop (i + m) (nd_items n)) n) d'.
Proof.
  intros R Him. pose proof (rep_size _ _ R) as Hsz. pose proof (rep_range _ _ R) as Hrg.
  destruct (rep_split n d i R ltac:(lia)) as (pad & l1 & l' & tl & [Hp Hd El Hi1 Hi' (Hc1 & Hc2 & Hct)] & Hl1 & -> & Hdr).
  rewrite <-drop_drop, Hdr. destruct R as (_ & _ & _ & _ & Hlen & Hc & _ & Hr1 & Hr2). set (isz := item_size h (kind (nd_leaf n))) in *.
  destruct (split_at l' m) as (l2 & l3 & -> & Hl2); [apply (f_equal length) in El; rewrite length_app in El; lia|].
  rewrite <-Hl2, drop_app_length. apply Forall_app in Hi' as [Hi2 Hi3]. rewrite concat_app in Hc2, Hd. rewrite <-app_assoc in Hd.
  pose proof (items_length _ _ Hi1) as L1. pose proof (items_length _ _ Hi2) as L2. pose proof (items_length _ _ Hi3) as L3.
  fold isz in L1, L2, L3. set (HB := node_hdr pad (nd_leaf n) (Z.of_nat (length (nd_items n))) (nd_parent n) (nd_next n)) in *.
  assert (Z.of_nat (length HB) = hdr_size (nd_leaf n)) as LH by (by apply node_hdr_length).
  assert (length (nd_items n) = i + m + length l3)%nat as Hn by (rewrite El, !length_app; lia).
  assert (∃ Y, length Y = length (concat l2) ∧ chars Y ∧
    (if Z.of_nat i <? Z.of_nat (length (nd_items n)) - Z.of_nat (length l2) then
       to ← item_at h (kind (nd_leaf n)) (Z.of_nat i); from ← item_at h (kind (nd_leaf n)) (Z.of_nat i + Z.of_nat (length l2));
       memmove d to from ((Z.of_nat (length (nd_items n)) - Z.of_nat i - Z.of_nat (length l2)) * isz)
     else Some d) = Some ((HB ++ concat l1) ++ concat l3 ++ Y ++ tl)) as (Y & HY & HcY & Em).
  { rewrite Hd, (app_assoc HB).
    destruct (Z.ltb_spec (Z.of_nat i) (Z.of_nat (length (nd_items n)) - Z.of_nat (length l2))) as [Hlt|Hge].
    - rewrite !item_at_eq. fold isz. cbn [mbind option_bind]. apply memmove_left; rewrite ?length_app; try lia; done.
    - exists (concat l2). assert (l3 = []) as -> by (destruct l3; [done|cbn in Hn; lia]). split_and!; try done.
      by apply Forall_app in Hc2 as [? _]. }
  unfold recover_remove_items. fold isz. rewrite Hsz. cbn [mbind option_bind]. cbn [mbind option_bind] in Em. rewrite Em. cbn [mbind option_bind].
  rewrite <-app_assoc. unfold HB at 1. rewrite increase_size_eq; [|done|done|unfold in_srange in *; cbn in *; lia]. eexists. split; [done|].
  replace (Z.of_nat (length (nd_items n)) + - Z.of_nat (length l2)) with (Z.of_nat (length (l1 ++ l3))) by (rewrite length_app; lia).
  eapply (rep_rewrite n d pad _ _ _ (Y ++ tl)); [done|done|done|exact Hd|rewrite !length_app; lia| |by rewrite !concat_app, <-!app_assoc| |done|done].
  - apply Forall_app in Hc2 as [_ ?]. by repeat (apply Forall_app_2; [done|]).
  - by apply Forall_app_2.
Qed.

(** *** Reading items *)
Lemma item_parts leaf it : item_ok leaf it →
  it = item_key it ++ item_value it ∧ Z.of_nat (length (item_key it)) = key_length h ∧
  Z.of_nat (length (item_value it)) = value_size (kind leaf).
Proof.
  intros [Hl _]. unfold item_size in Hl. pose proof key_length_pos.
  assert (0 ≤ value_size (kind leaf)) by (by destruct leaf).
  unfold item_key, item_value. rewrite take_drop, length_take, length_drop. split_and!; [done|lia|lia].
Qed.

Lemma rep_item n d i it : rep n d → nd_items n !! i = Some it →
  ∃ P R, d = P ++ it ++ R ∧ Z.of_nat (length P) = hdr_size (nd_leaf n) + Z.of_nat i * item_size h (kind (nd_leaf n)).
Proof.
  intros R Hi. pose proof (lookup_lt_Some _ _ _ Hi).
  destruct (rep_split n d i R ltac:(lia)) as (pad & l1 & l2 & tl & [Hp Hd El Hi1 Hi2 _] & Hl1 & _ & Hdr).
  rewrite (drop_S _ _ _ Hi) in Hdr. subst l2. rewrite Hd. cbn [concat].
  exists (node_hdr pad (nd_leaf n) (Z.of_nat (length (nd_items n))) (nd_parent n) (nd_next n) ++ concat l1),
    (concat (drop (S i) (nd_items n)) ++ tl). split; [by rewrite <-!app_assoc|].
  rewrite length_app, Nat2Z.inj_add, node_hdr_length, (items_length _ _ Hi1), Hl1 by done. done.
Qed.

Lemma rep_raw_key n d i it : rep n d → nd_items n !! i = Some it →
  raw_key_at h (kind (nd_leaf n)) d (Z.of_nat i) = Some (item_key it).
Proof.
  intros R Hi. destruct (rep_item n d i it R Hi) as (P & Q & -> & HP).
  pose proof (Forall_lookup_1 _ _ _ _ (rep_items _ _ R) Hi) as Hok. destruct (item_parts _ _ Hok) as (E & Hk & Hv).
  unfold raw_key_at. rewrite item_at_eq. cbn [mbind option_bind]. rewrite E at 1. rewrite <-app_assoc. by apply read_at_app.
Qed.

Lemma rep_raw_value n d i it : rep n d → nd_items n !! i = Some it →
  raw_value_at h (kind (nd_leaf n)) d (Z.of_nat i) = Some (item_value it).
Proof.
  intros R Hi. destruct (rep_item n d i it R Hi) as (P & Q & -> & HP).
  pose proof (Forall_lookup_1 _ _ _ _ (rep_items _ _ R) Hi) as Hok. destruct (item_parts _ _ Hok) as (E & Hk & Hv).
  unfold raw_value_at. rewrite item_at_eq. cbn [mbind option_bind]. rewrite E at 1.
  rewrite <-app_assoc, (app_assoc P). apply read_at_app; [rewrite length_app; lia|done].
Qed.

Lemma rep_in_bounds n d i it : rep n d → nd_items n !! i = Some it → in_bounds d (Z.of_nat i) = Some tt.
Proof.
  intros R Hi. unfold in_bounds. rewrite (rep_size _ _ R). cbn [mbind option_bind].
  apply lookup_lt_Some in Hi. by rewrite (proj2 (Z.leb_le _ _)), (proj2 (Z.ltb_lt _ _)) by lia.
Qed.

Lemma rep_key_at n d i it : rep n d → nd_items n !! i = Some it →
  key_at h (kind (nd_leaf n)) d (Z.of_nat i) = Some (item_key it).
Proof. intros R Hi. unfold key_at. rewrite (rep_in_bounds n d i it R Hi). by apply rep_raw_key. Qed.

Lemma rep_value_at n d i it : rep n d → nd_items n !! i = Some it →
  value_at h (kind (nd_leaf n)) d (Z.of_nat i) = Some (item_value it).
Proof. intros R Hi. unfold value_at. rewrite (rep_in_bounds n d i it R Hi). by apply rep_raw_value. Qed.

Lemma rep_items_at n d i m : rep n d → (i + m ≤ length (nd_items n))%nat →
  items_at h (kind (nd_leaf n)) d (Z.of_nat i) (Z.of_nat m) = Some (concat (take m (drop i (nd_items n)))).
Proof.
  intros R Him. destruct (rep_split n d i R ltac:(lia)) as (pad & l1 & l' & tl & [Hp Hd El Hi1 Hi' _] & Hl1 & _ & ->).
  destruct (split_at l' m) as (l2 & l3 & -> & Hl2); [apply (f_equal length) in El; rewrite length_app in El; lia|].
  rewrite take_app_length' by done. apply Forall_app in Hi' as [Hi2 Hi3]. rewrite Hd, concat_app, <-!app_assoc.
  unfold items_at. rewrite item_at_eq. cbn [mbind option_bind]. rewrite (app_assoc (node_hdr _ _ _ _ _)). apply read_at_app.
  - rewrite length_app, Nat2Z.inj_add, node_hdr_length, (items_length _ _ Hi1), Hl1 by done. done.
  - by rewrite (items_length _ _ Hi2), Hl2.
Qed.

(** *** New pages *)
Lemma rep_init_empty d leaf nx : Z.of_nat (length d) = BP_PAGE_DATA_SIZE → chars d → (leaf = true → get_i32 d 12 = Some nx) →
  in_srange 32 nx → ∃ d', node_init_empty d leaf = Some d' ∧ rep (mkNode leaf BP_INVALID_PAGE_NUM nx []) d'.
Proof.
  intros Hl Hc Hnx Hr. change BP_PAGE_DATA_SIZE with 8180 in Hl.
  destruct (split_at d 1) as (a & d1 & -> & Ha); [lia|]. rewrite length_app in Hl.
  destruct (split_at d1 3) as (pad & d2 & -> & Hpad); [lia|]. rewrite length_app in Hl.
  destruct (split_at d2 4) as (c & d3 & -> & Hcl); [lia|]. rewrite length_app in Hl.
  destruct (split_at d3 4) as (e & d4 & -> & He); [lia|]. rewrite length_app in Hl.
  unfold node_init_empty. rewrite set_bytes_app0 by done. cbn [mbind option_bind app].
  replace ((if leaf then 1 else 0) :: pad ++ c ++ e ++ d4) with (((if leaf then 1 else 0) :: pad) ++ c ++ e ++ d4) by done.
  unfold set_i32. rewrite set_bytes_app by (cbn [length]; rewrite ?le_bytes_length; lia). cbn [mbind option_bind].
  rewrite (app_assoc (_ :: pad)), set_bytes_app by (rewrite ?length_app, ?le_bytes_length; cbn [length]; lia).
  eexists. split; [done|]. unfold chars in Hc. rewrite !Forall_app in Hc. destruct Hc as (Ca & Cp & Cc & Ce & C4).
  assert (∃ tl, d4 = (if leaf then le_bytes 4 nx else []) ++ tl ∧ chars tl) as (tl & -> & Ctl).
  { destruct leaf; [|by exists d4]. destruct (split_at d4 4) as (g & tl & -> & Hg); [lia|]. exists tl.
    apply Forall_app in C4 as [Cg Ctl]. split; [|done]. f_equal. specialize (Hnx eq_refl). unfold get_i32 in Hnx.
    replace (a ++ pad ++ c ++ e ++ g ++ tl) with ((a ++ pad ++ c ++ e) ++ g ++ tl) in Hnx by (by rewrite <-!app_assoc).
    rewrite get_bytes_app in Hnx by (rewrite ?length_app; lia). cbn in Hnx. injection Hnx as <-.
    rewrite (le_bytes_swrap 4) by lia. rewrite <-Hg. by rewrite le_bytes_val. }
  exists pad, tl. cbn [nd_leaf nd_parent nd_next nd_items concat length].
  assert (Z.of_nat (length (node_hdr pad leaf 0 BP_INVALID_PAGE_NUM nx)) = hdr_size leaf) as LH by (by apply node_hdr_length).
  split_and!; try done.
  - unfold node_hdr. by rewrite <-!app_assoc.
  - change BP_PAGE_DATA_SIZE with 8180. rewrite !length_app, !le_bytes_length. rewrite length_app in Hl. cbn [length]. lia.
  - assert (chars (node_hdr pad leaf 0 BP_INVALID_PAGE_NUM nx ++ tl)) as C by (apply Forall_app_2; [by apply node_hdr_chars|done]).
    unfold node_hdr in C. by rewrite <-!app_assoc in C |- *.
Qed.

Lemma rep_leaf_init d : Z.of_nat (length d) = BP_PAGE_DATA_SIZE → chars d →
  ∃ d', leaf_init_page d = Some d' ∧ rep (mkNode true BP_INVALID_PAGE_NUM BP_INVALID_PAGE_NUM []) d'.
Proof.
  intros Hl Hc. destruct (get_i32_Some d 12) as [nx Hnx]; [change BP_PAGE_DATA_SIZE with 8180 in Hl; lia|].
  destruct (rep_init_empty d true nx Hl Hc) as (d1 & E1 & R1); [done|by eapply get_i32_range|].
  destruct (rep_put_next _ _ BP_INVALID_PAGE_NUM R1 eq_refl) as (d2 & E2 & R2); [done|].
  exists d2. split; [|done]. unfold leaf_init_page. rewrite E1. exact E2.
Qed.

Lemma rep_internal_init d : Z.of_nat (length d) = BP_PAGE_DATA_SIZE → chars d →
  ∃ d', node_init_empty d false = Some d' ∧ rep (mkNode false BP_INVALID_PAGE_NUM BP_INVALID_PAGE_NUM []) d'.
Proof. intros Hl Hc. by apply rep_init_empty. Qed.

(** The item of an internal node. *)
Definition child_item (key : list Z) (page_num : PageNum) : list Z := key ++ le_bytes 4 page_num.
Definition zero_key : list Z := replicate (Z.to_nat (key_length h)) 0.

Lemma zero_key_ok : Z.of_nat (length zero_key) = key_length h ∧ chars zero_key.
Proof.
  pose proof key_length_pos. unfold zero_key. rewrite length_replicate. split; [lia|].
  by apply Forall_replicate.
Qed.

Lemma child_item_ok key p : Z.of_nat (length key) = key_length h → chars key → item_ok false (child_item key p).
Proof.
  intros Hk Hc. split; [|by apply Forall_app_2; [done|apply le_bytes_chars]].
  unfold child_item. rewrite length_app, le_bytes_length. cbn [kind]. unfold item_size. cbn. lia.
Qed.

Lemma rep_new_root n d a key b :
  rep n d → nd_leaf n = false → nd_items n = [] → Z.of_nat (length key) = key_length h → chars key →
  ∃ d', new_root_page h d a key b = Some d' ∧ rep (with_items [child_item zero_key a; child_item key b] n) d'.
Proof.
  intros R El Ei Hk Hc. pose proof (rep_length _ _ R) as Hlen. pose proof (rep_chars _ _ R) as Hcd.
  destruct R as (pad & tl & Hp & Hd & _ & _ & _ & Hr1 & Hr2). rewrite Ei, El in Hd. cbn [concat app length] in Hd. change (Z.of_nat 0) with 0 in Hd.
  destruct zero_key_ok as [Hz Hzc]. pose proof key_length_pos as Hkp. pose proof (io_internal HI) as Hroom. pose proof (io_internal_min HI).
  assert (Z.of_nat (length (node_hdr pad false 0 (nd_parent n) (nd_next n))) = InternalIndexNode_HEADER_SIZE) as LH by (by apply node_hdr_length).
  set (HB := node_hdr pad false 0 (nd_parent n) (nd_next n)) in *.
  assert (2 * key_length h + 8 ≤ Z.of_nat (length tl)) as Htl.
  { rewrite Hd, length_app in Hlen. unfold item_size, value_size in Hroom. nia. }
  destruct (split_at tl (length zero_key)) as (g1 & t1 & -> & H1); [lia|]. rewrite length_app in Htl.
  destruct (split_at t1 4) as (g2 & t2 & -> & H2); [lia|]. rewrite length_app in Htl.
  destruct (split_at t2 (length key)) as (g3 & t3 & -> & H3); [lia|]. rewrite length_app in Htl.
  destruct (split_at t3 4) as (g4 & t4 & -> & H4); [lia|].
  assert (chars t4) as Ct by (unfold chars in *; rewrite Hd, !Forall_app in Hcd; tauto).
  unfold new_root_page. rewrite read_all by done. cbn [mbind option_bind]. fold zero_key. rewrite Hd.
  rewrite write_at_app by done. cbn [mbind option_bind].
  rewrite (app_assoc HB), write_at_app by (rewrite ?length_app, ?le_bytes_length; lia). cbn [mbind option_bind].
  rewrite (app_assoc (HB ++ zero_key)), write_at_app
    by (rewrite ?length_app, ?le_bytes_length; unfold item_size, value_size; lia). cbn [mbind option_bind].
  rewrite (app_assoc ((HB ++ zero_key) ++ le_bytes 4 a)), write_at_app
    by (rewrite ?length_app, ?le_bytes_length; unfold item_size, value_size; lia). cbn [mbind option_bind].
  rewrite <-!app_assoc. unfold HB at 1. rewrite increase_size_eq by done. eexists. split; [done|].
  rewrite <-El. change (0 + 2) with (Z.of_nat (length [child_item zero_key a; child_item key b])).
  eapply (rep_rewrite n d pad _ _ _ t4); [done|done|done| | | | | |done|done].
  - rewrite Hd, Ei, El. done.
  - rewrite !length_app, !le_bytes_length. lia.
  - repeat (apply Forall_app_2; [done || apply le_bytes_chars|]). done.
  - cbn [concat]. unfold child_item. by rewrite app_nil_r, <-!app_assoc.
  - rewrite El. repeat constructor; try apply child_item_ok; done.
Qed.

Lemma rep_put_key n d i it key :
  rep n d → nd_leaf n = false → nd_items n !! i = Some it → Z.of_nat (length key) = key_length h → chars key →
  ∃ d', put_key_at h d (Z.of_nat i) key = Some d' ∧ rep (with_items (<[i := key ++ item_value it]> (nd_items n)) n) d'.
Proof.
  intros R El Hi Hk Hc. pose proof (rep_in_bounds n d i it R Hi) as Hb. pose proof (rep_length _ _ R) as Hlen.
  pose proof (Forall_lookup_1 _ _ _ _ (rep_items _ _ R) Hi) as Hok. destruct (item_parts _ _ Hok) as (E & Hlk & Hv).
  pose proof (lookup_lt_Some _ _ _ Hi) as Hlt. pose proof (rep_chars _ _ R) as Hcd.
  destruct (rep_split n d i R ltac:(lia)) as (pad & l1 & l2 & tl & [Hp Hd Eit Hi1 Hi2 (Hc1 & Hc2 & Hct)] & Hl1 & _ & Hdr).
  rewrite (drop_S _ _ _ Hi) in Hdr. subst l2. cbn [concat] in Hd, Hc2. apply list.Forall_cons in Hi2 as [Hit Hi2].
  destruct R as (_ & _ & _ & _ & _ & _ & _ & Hr1 & Hr2).
  unfold put_key_at. rewrite Hb. change (item_at h InternalHandler) with (item_at h (kind false)). rewrite item_at_eq.
  cbn [mbind option_bind]. rewrite read_all by done. cbn [mbind option_bind].
  rewrite E in Hd at 1. rewrite <-!app_assoc in Hd. rewrite (app_assoc (node_hdr _ _ _ _ _)) in Hd. rewrite Hd.
  rewrite write_at_app; [|rewrite length_app, Nat2Z.inj_add, node_hdr_length, (items_length _ _ Hi1), Hl1, El by done; done|lia].
  rewrite <-app_assoc. eexists. split; [done|]. apply Forall_app in Hc2 as [Hc2 Hc3].
  set (l := <[i := key ++ item_value it]> (nd_items n)).
  assert (l = l1 ++ (key ++ item_value it) :: drop (S i) (nd_items n)) as El2.
  { unfold l. rewrite Eit at 1. rewrite <-Hl1 at 1. by rewrite insert_app_r_alt, Nat.sub_diag by lia. }
  replace (length (nd_items n)) with (length l) by (unfold l; by rewrite length_insert).
  eapply (rep_rewrite n d pad _ _ _ tl); [done|done|done| | | | | |done|done].
  - rewrite Hd, <-app_assoc. done.
  - rewrite !length_app. lia.
  - rewrite E in Hc2. apply Forall_app in Hc2 as [_ Hcv].
    repeat (apply Forall_app_2; [done|]). done.
  - rewrite El2, concat_app. cbn [concat]. by rewrite <-!app_assoc.
  - rewrite El2. apply Forall_app_2; [done|]. constructor; [|done]. destruct Hit as [Hit _]. split.
    + rewrite E in Hit. rewrite length_app in *. lia.
    + apply Forall_app_2; [done|]. rewrite E in Hc2. by apply Forall_app in Hc2 as [_ ?].
Qed.
End rep.

(** ** Searching a node *)
Section search_spec.
Context (h : IndexFileHeader) (HI : index_ok h).
Context (cmp : list Z → list Z → option Z) (ok : list Z → Prop) `{!KeyOrder cmp ok}.
Notation kc := (kc cmp).
Notation ikey := (item_key h).

(** Items in the order of their keys. *)
Definition item_lt (a b : list Z) : Prop := kc (ikey a) (ikey b) < 0.
Definition items_sorted (l : list (list Z)) : Prop := StronglySorted item_lt l.
Definition keys_ok (l : list (list Z)) : Prop := Forall (λ it, ok (ikey it)) l.

Lemma sorted_lookup l i j a b : items_sorted l → (i < j)%nat → l !! i = Some a → l !! j = Some b → item_lt a b.
Proof.
  intros S. revert i j. induction S as [|x l Hl IH Hx]; [done|]. intros [|i] [|j] Hij Ha Hb; cbn in *; try lia.
  - injection Ha as ->. exact (Forall_lookup_1 _ _ _ _ Hx Hb).
  - apply (IH i j); [lia|done|done].
Qed.

(** [lower_bound] over the keys of a list of items. *)
Lemma search_items l key (comp : Z → option Z) :
  items_sorted l → keys_ok l → ok key →
  (∀ i it, l !! i = Some it → comp (Z.of_nat i) = cmp (ikey it) key) →
  ∃ l1 l2 found, l = l1 ++ l2 ∧ lower_bound comp (Z.of_nat (length l)) = Some (Z.of_nat (length l1), found) ∧
    Forall (λ it, kc (ikey it) key < 0) l1 ∧ Forall (λ it, 0 ≤ kc (ikey it) key) l2 ∧
    (found = true ↔ ∃ it, head l2 = Some it ∧ kc (ikey it) key = 0).
Proof.
  intros S K Hk Hcomp. set (c i := kc (ikey (nth (Z.to_nat i) l [])) key).
  assert (∀ i it, l !! i = Some it → c (Z.of_nat i) = kc (ikey it) key) as Hc.
  { intros i it Hi. unfold c. rewrite Nat2Z.id. by erewrite nth_lookup_Some. }
  assert (∀ i, 0 ≤ i < Z.of_nat (length l) → ∃ it, l !! Z.to_nat i = Some it ∧ ok (ikey it)) as Hit.
  { intros i Hi. destruct (lookup_lt_is_Some_2 l (Z.to_nat i)) as [it Hl]; [lia|]. exists it. split; [done|].
    exact (Forall_lookup_1 _ _ _ _ K Hl). }
  destruct (lower_bound_ok comp c (Z.of_nat (length l))) as (k & found & E & (Hk1 & Hk2) & Hlt & Hge & Hf); [| |lia|].
  - intros i Hi. destruct (Hit i Hi) as (it & Hl & Hok). rewrite <-(Z2Nat.id i) by lia. rewrite (Hcomp _ _ Hl), (Hc _ _ Hl).
    by apply (kc_eq _ ok).
  - intros i j Hi Hij Hj. destruct (Hit i ltac:(lia)) as (a & Ha & Oa), (Hit j ltac:(lia)) as (b & Hb & Ob).
    rewrite <-(Z2Nat.id i), <-(Z2Nat.id j) by lia. rewrite (Hc _ _ Ha), (Hc _ _ Hb). intros H0.
    pose proof (sorted_lookup l (Z.to_nat i) (Z.to_nat j) a b S ltac:(lia) Ha Hb) as Hab. unfold item_lt in Hab.
    destruct (decide (0 < kc (ikey b) key)); [done|]. pose proof (kc_lt_le cmp ok (ikey a) (ikey b) key Oa Ob Hk Hab ltac:(lia)). lia.
  - destruct (split_at l (Z.to_nat k)) as (l1 & l2 & -> & Hl1); [lia|]. rewrite length_app in *.
    exists l1, l2, found. split_and!; [done|by rewrite E, Hl1, Z2Nat.id by lia| | |].
    + apply Forall_lookup_2. intros i it Hi. pose proof (lookup_lt_Some _ _ _ Hi).
      rewrite <-(Hc i it); [apply Hlt; lia|by apply lookup_app_l_Some].
    + apply Forall_lookup_2. intros i it Hi. pose proof (lookup_lt_Some _ _ _ Hi).
      rewrite <-(Hc (length l1 + i)%nat it); [apply Hge; lia|]. rewrite lookup_app_r by lia. by replace (length l1 + i - length l1)%nat with i by lia.
    + rewrite Hf, bool_decide_eq_true. destruct l2 as [|it l2]; cbn; [split; [cbn in *; lia|by intros (? & ? & _)]|].
      assert (c k = kc (ikey it) key) as Ek.
      { rewrite <-(Hc (length l1) it) by (by apply list_lookup_middle). by rewrite Hl1, Z2Nat.id by lia. }
      rewrite Ek. split; [intros [_ E0]; by exists it|]. intros (? & [= <-] & E0). cbn in *. split; [lia|done].
Qed.

Lemma leaf_lookup_ok n d key :
  rep h n d → nd_leaf n = true → items_sorted (nd_items n) → keys_ok (nd_items n) → ok key →
  ∃ l1 l2 found, nd_items n = l1 ++ l2 ∧ leaf_lookup h cmp d key = Some (Z.of_nat (length l1), found) ∧
    Forall (λ it, kc (ikey it) key < 0) l1 ∧ Forall (λ it, 0 ≤ kc (ikey it) key) l2 ∧
    (found = true ↔ ∃ it, head l2 = Some it ∧ kc (ikey it) key = 0).
Proof.
  intros R El S K Hk. unfold leaf_lookup. rewrite (rep_size h HI _ _ R). cbn [mbind option_bind]. apply search_items; try done.
  intros i it Hi. pose proof (rep_raw_key h HI n d i it R Hi) as E. rewrite El in E. cbn [kind] in E. by rewrite E.
Qed.

(** The child to follow: keys up to it are not greater than the key that is
    searched, the others are. *)
Lemma internal_lookup_ok n d key it0 rest :
  rep h n d → nd_leaf n = false → nd_items n = it0 :: rest → items_sorted rest → keys_ok rest → ok key →
  ∃ l1 l2 pos, rest = l1 ++ l2 ∧ internal_lookup h cmp d key = Some (Z.of_nat (length l1), pos) ∧
    Forall (λ it, kc (ikey it) key ≤ 0) l1 ∧ Forall (λ it, 0 < kc (ikey it) key) l2 ∧
    (Forall (λ it, kc (ikey it) key ≠ 0) l1 → pos = Z.of_nat (length l1) + 1).
Proof.
  intros R El Ei So K Hk. unfold internal_lookup. rewrite (rep_size h HI _ _ R), Ei. cbn [mbind option_bind length].
  rewrite (proj2 (Z.eqb_neq _ _)) by lia. replace (Z.of_nat (S (length rest)) - 1) with (Z.of_nat (length rest)) by lia.
  assert (∀ i it, rest !! i = Some it → raw_key_at h InternalHandler d (Z.of_nat i + 1) = Some (ikey it)) as Hraw.
  { intros i it Hi. pose proof (rep_raw_key h HI n d (S i) it R) as E. rewrite El, Ei in E. cbn [kind] in E.
    replace (Z.of_nat i + 1) with (Z.of_nat (S i)) by lia. by apply E. }
  destruct (search_items rest key (λ i, k ← raw_key_at h InternalHandler d (i + 1); cmp k key) So K Hk) as (l1 & l2 & found & E & Hs & H1 & H2 & _).
  { intros i it Hi. by rewrite (Hraw i it Hi). }
  rewrite Hs. cbn [mbind option_bind]. destruct l2 as [|it l2].
  - rewrite (proj2 (Z.leb_le _ _)) by (rewrite E, length_app; cbn; lia). exists l1, [], (Z.of_nat (length l1) + 1).
    split_and!; [done|by rewrite Z.add_simpl_r|eapply list.Forall_impl; [exact H1|cbn; lia]|constructor|done].
  - assert (rest !! length l1 = Some it) as Hi by (rewrite E; by apply list_lookup_middle).
    rewrite (proj2 (Z.leb_gt _ _)) by (rewrite E, length_app; cbn; lia). rewrite (Hraw _ _ Hi). cbn [mbind option_bind].
    pose proof (Forall_lookup_1 _ _ _ _ K Hi) as Oit. cbn in Oit. rewrite (kc_eq cmp ok key (ikey it)) by done. cbn [mbind option_bind].
    apply list.Forall_cons in H2 as [Hge H2]. rewrite E in So. apply StronglySorted_app_1_r in So as S2.
    apply StronglySorted_inv in S2 as [_ Hit]. rewrite E in K. apply Forall_app in K as [_ K2]. apply list.Forall_cons in K2 as [_ K2].
    assert (Forall (λ it', 0 < kc (ikey it') key) l2) as Hgt.
    { apply Forall_lookup_2. intros i b Hb. pose proof (Forall_lookup_1 _ _ _ _ Hit Hb) as Hlt. unfold item_lt in Hlt.
      pose proof (Forall_lookup_1 _ _ _ _ K2 Hb) as Ob. cbn in Ob. apply (kc_pos cmp ok); [done..|].
      apply (kc_le_lt cmp ok key (ikey it)); try done. pose proof (kc_flip cmp ok (ikey it) key Oit Hk). lia. }
    destruct (Z.ltb_spec (kc key (ikey it)) 0) as [Hlt|Hle].
    + exists l1, (it :: l2), (Z.of_nat (length l1) + 1).
      split_and!; [done|by rewrite Z.add_simpl_r|eapply list.Forall_impl; [exact H1|cbn; lia]| |done].
      constructor; [|done]. by apply (kc_pos cmp ok).
    + exists (l1 ++ [it]), l2, (Z.of_nat (length l1) + 1). rewrite length_app. cbn [length].
      assert (kc (ikey it) key = 0) as E0 by (pose proof (kc_flip cmp ok (ikey it) key Oit Hk); lia).
      split_and!; [by rewrite <-app_assoc|do 3 f_equal; lia| |done|].
      * apply Forall_app_2; [eapply list.Forall_impl; [exact H1|cbn; lia]|]. constructor; [lia|constructor].
      * intros HF. apply Forall_app in HF as [_ HF]. apply list.Forall_cons in HF as [HF _]. done.
Qed.
End search_spec.
