(* ===== verification/IndexPool.v ===== *)
(** * What the B+ tree uses of its file, and the latch memo

    The tree works on the pages of one file through the buffer pool, on latches of
    frames and on the log.  What it calls of them is the class [IndexPool].  A frame
    that the tree has pinned is named by the number of the page in it, of which it is
    the only frame.  [LatchMemo] of [storage/index/latch_memo.cpp] remembers the pins
    and latches of a mini transaction in the order they were taken. *)

From S2P Require Import Prelude Types Bytes RecordPage IndexKey IndexNode.
Local Open Scope Z_scope.

Class IndexPool (S : Type) := {
  (** [DiskBufferPool::get_this_page] and [allocate_page] pin the page; a new page is
      given by its number. *)
  ip_get_this_page : PageNum → M S RC;
  ip_allocate_page : M S (RC * PageNum);
  ip_unpin_page : PageNum → M S unit;
  ip_dispose_page : PageNum → M S RC;
  ip_flush_all_pages : M S RC;
  ip_close_file : M S unit;
  ip_id : M S Z;
  (** [Frame::data], [mark_dirty], [pin_count], [lsn], [set_lsn] and the latches. *)
  ip_data : PageNum → M S (list Z);
  ip_put_data : PageNum → list Z → M S unit;
  ip_mark_dirty : PageNum → M S unit;
  ip_pin_count : PageNum → M S Z;
  ip_lsn : PageNum → M S LSN;
  ip_set_lsn : PageNum → LSN → M S unit;
  ip_latch : ReadWriteMode → PageNum → M S unit;
  ip_try_read_latch : PageNum → M S bool;
  ip_unlatch : ReadWriteMode → PageNum → M S unit;
  (** [LogHandler::append] for the module [BPLUS_TREE]. *)
  ip_append_log : list Z → M S (RC * LSN)
}.

(** ** Log entries of a mini transaction

    [LogEntryHandler] of [bplus_tree_log_entry.h] and its subclasses, with the page
    of the frame they are about; the values kept for a rollback come last. *)
Inductive NodeOperation : Type := NODE_INSERT | NODE_REMOVE.

Inductive LogEntryHandler : Type :=
  | InitHeaderPage (page : PageNum) (file_header : IndexFileHeader)
  | UpdateRootPage (page : PageNum) (root_page_num old_page_num : PageNum)
  | SetParentPage (page : PageNum) (parent_page_num old_parent_page_num : PageNum)
  | LeafInitEmpty (page : PageNum)
  | LeafSetNextPage (page : PageNum) (new_page_num old_page_num : PageNum)
  | InternalInitEmpty (page : PageNum)
  | InternalCreateNewRoot (page : PageNum) (first_page_num : PageNum) (key : list Z) (page_num : PageNum)
  | InternalUpdateKey (page : PageNum) (index : Z) (key old_key : list Z)
  | NormalOperation (page : PageNum) (op : NodeOperation) (index : Z) (items : list Z) (item_num : Z).

(** ** State

    A [BplusTreeHandler] with the mini transaction that is under way.  [opened_]:
    its [disk_buffer_pool_] is not null. *)
Inductive LatchMemoItem : Type :=
  | MemoPin (page : PageNum)
  | MemoLatch (mode : ReadWriteMode) (page : PageNum)
  | MemoLock (mode : ReadWriteMode).

(** [root_lock_], a [SharedMutex]: its owner or the number of its readers. *)
Inductive RootLock : Type := Unlocked | LockedShared (readers : positive) | LockedExclusive.

Record Tree (S : Type) : Type := mkTree {
  t_pool : S;
  file_header_ : IndexFileHeader;
  header_dirty_ : bool;
  root_lock_ : RootLock;
  items_ : list LatchMemoItem;
  disposed_pages_ : list PageNum;
  entries_ : list LogEntryHandler;
  need_log_ : bool;
  opened_ : bool
}.
Arguments mkTree {S}.
Arguments t_pool {S}.
Arguments file_header_ {S}.
Arguments header_dirty_ {S}.
Arguments root_lock_ {S}.
Arguments items_ {S}.
Arguments disposed_pages_ {S}.
Arguments entries_ {S}.
Arguments need_log_ {S}.
Arguments opened_ {S}.

Section memo.
Context {S : Type} `{!IndexPool S}.
Notation Tree := (Tree S).
Implicit Types T : Tree.

Definition set_pool (p : S) T : Tree :=
  mkTree p (file_header_ T) (header_dirty_ T) (root_lock_ T) (items_ T) (disposed_pages_ T) (entries_ T) (need_log_ T) (opened_ T).
Definition set_file_header (h : IndexFileHeader) (dirty : bool) T : Tree :=
  mkTree (t_pool T) h dirty (root_lock_ T) (items_ T) (disposed_pages_ T) (entries_ T) (need_log_ T) (opened_ T).
Definition set_root_lock (l : RootLock) T : Tree :=
  mkTree (t_pool T) (file_header_ T) (header_dirty_ T) l (items_ T) (disposed_pages_ T) (entries_ T) (need_log_ T) (opened_ T).
Definition set_items (l : list LatchMemoItem) T : Tree :=
  mkTree (t_pool T) (file_header_ T) (header_dirty_ T) (root_lock_ T) l (disposed_pages_ T) (entries_ T) (need_log_ T) (opened_ T).
Definition set_disposed (l : list PageNum) T : Tree :=
  mkTree (t_pool T) (file_header_ T) (header_dirty_ T) (root_lock_ T) (items_ T) l (entries_ T) (need_log_ T) (opened_ T).
Definition set_log (l : list LogEntryHandler) (need : bool) T : Tree :=
  mkTree (t_pool T) (file_header_ T) (header_dirty_ T) (root_lock_ T) (items_ T) (disposed_pages_ T) l need (opened_ T).

Definition set_opened (b : bool) T : Tree :=
  mkTree (t_pool T) (file_header_ T) (header_dirty_ T) (root_lock_ T) (items_ T) (disposed_pages_ T) (entries_ T) (need_log_ T) b.

(** A call of the pool. *)
Definition pool {A} (m : M S A) : M Tree A := λ T,
  match m (t_pool T) with Some (a, p) => Some (a, set_pool p T) | None => None end.
Definition file_header : M Tree IndexFileHeader := gets file_header_.

(** ** [LatchMemo] *)
Definition add_item (i : LatchMemoItem) : M Tree unit := modify (λ T, set_items (items_ T ++ [i]) T).

Definition memo_get_page (page_num : PageNum) : M Tree RC :=
  rc ← pool (ip_get_this_page page_num);
  if bool_decide (rc ≠ RC.SUCCESS) then mret rc
  else add_item (MemoPin page_num);; mret RC.SUCCESS.

Definition memo_allocate_page : M Tree (RC * PageNum) :=
  '(rc, page_num) ← pool ip_allocate_page;
  (if bool_decide (rc = RC.SUCCESS) then
     add_item (MemoPin page_num);; n ← pool (ip_pin_count page_num); assertb (n =? 1)
   else mret tt);;
  mret (rc, page_num).

Definition memo_dispose_page (page_num : PageNum) : M Tree unit :=
  modify (λ T, set_disposed (disposed_pages_ T ++ [page_num]) T).

Definition memo_latch (mode : ReadWriteMode) (page : PageNum) : M Tree unit :=
  pool (ip_latch mode page);; add_item (MemoLatch mode page).
Definition xlatch (page : PageNum) : M Tree unit := memo_latch READ_WRITE page.
Definition slatch (page : PageNum) : M Tree unit := memo_latch READ_ONLY page.

Definition try_slatch (page : PageNum) : M Tree bool :=
  ret ← pool (ip_try_read_latch page);
  (if ret : bool then add_item (MemoLatch READ_ONLY page) else mret tt);;
  mret ret.

(** [lock] and [lock_shared] of the root lock; [None] waits for another thread. *)
Definition lock_root (mode : ReadWriteMode) (l : RootLock) : option RootLock :=
  match mode, l with
  | READ_WRITE, Unlocked => Some LockedExclusive
  | READ_ONLY, Unlocked => Some (LockedShared 1)
  | READ_ONLY, LockedShared n => Some (LockedShared (Pos.succ n))
  | _, _ => None
  end.
Definition unlock_root (mode : ReadWriteMode) (l : RootLock) : option RootLock :=
  match mode, l with
  | READ_WRITE, LockedExclusive => Some Unlocked
  | READ_ONLY, LockedShared 1 => Some Unlocked
  | READ_ONLY, LockedShared n => Some (LockedShared (Pos.pred n))
  | _, _ => None
  end.

Definition root_lock (mode : ReadWriteMode) : M Tree unit :=
  T ← fetch; l ← deref (lock_root mode (root_lock_ T)); modify (set_root_lock l).
Definition root_unlock (mode : ReadWriteMode) : M Tree unit :=
  T ← fetch; l ← deref (unlock_root mode (root_lock_ T)); modify (set_root_lock l).

(** [xlatch] and [slatch] of the root lock. *)
Definition latch_root (mode : ReadWriteMode) : M Tree unit := root_lock mode;; add_item (MemoLock mode).

Definition release_item (i : LatchMemoItem) : M Tree unit :=
  match i with
  | MemoLatch mode page => pool (ip_unlatch mode page)
  | MemoLock mode => root_unlock mode
  | MemoPin page => pool (ip_unpin_page page)
  end.

Fixpoint release_items (l : list LatchMemoItem) : M Tree unit :=
  match l with [] => mret tt | i :: l => release_item i;; release_items l end.

(** [release_to]: the items before [point] are released from the last to the first
    and erased. *)
Definition memo_point : M Tree nat := gets (λ T, length (items_ T)).
Definition release_to (point : nat) : M Tree unit :=
  T ← fetch;
  assertb (bool_decide (point ≤ length (items_ T))%nat);;
  release_items (rev (take point (items_ T)));;
  modify (λ T, set_items (drop point (items_ T)) T).

Fixpoint dispose_pages (l : list PageNum) : M Tree unit :=
  match l with [] => mret tt | p :: l => pool (ip_dispose_page p);; dispose_pages l end.

Definition release : M Tree unit :=
  point ← memo_point; release_to point;;
  T ← fetch; dispose_pages (disposed_pages_ T);;
  modify (set_disposed []).

(** ** [BplusTreeLogger] *)
Definition append_log_entry (e : LogEntryHandler) : M Tree RC :=
  T ← fetch;
  (if need_log_ T then modify (set_log (entries_ T ++ [e]) (need_log_ T)) else mret tt);;
  mret RC.SUCCESS.
End memo.
