(* ===== verification/IndexLog.v ===== *)
(** * Log entries of the B+ tree as bytes

    Models [Serializer] and [Deserializer] of [common/lang/serializer.cpp] and the
    serialisation of the log entries in [storage/index/bplus_tree_log_entry.cpp]:
    writing appends to a list of chars, reading takes chars off its front. *)

From S2P Require Import Prelude Types Bytes RecordPage IndexKey IndexNode IndexNodeSpec IndexPool.
Local Open Scope Z_scope.

(** ** Reading.  [None] is the result [-1]: too few chars are left. *)
Definition read_bytes (n : nat) (buf : list Z) : option (list Z * list Z) :=
  bs ← get_bytes buf 0 n; Some (bs, drop n buf).
Definition read_int32 (buf : list Z) : option (Z * list Z) :=
  '(bs, buf) ← read_bytes 4 buf; Some (swrap 32 (le_val bs), buf).

(** ** Writing *)
Definition op_index (e : LogEntryHandler) : Z :=
  match e with
  | InitHeaderPage _ _ => 0
  | UpdateRootPage _ _ _ => 1
  | SetParentPage _ _ _ => 2
  | LeafInitEmpty _ => 3
  | LeafSetNextPage _ _ _ => 4
  | InternalInitEmpty _ => 5
  | InternalCreateNewRoot _ _ _ _ => 6
  | InternalUpdateKey _ _ _ _ => 7
  | NormalOperation _ NODE_INSERT _ _ _ => 8
  | NormalOperation _ NODE_REMOVE _ _ _ => 9
  end.
Definition MAX_TYPE : Z := 10.

Definition entry_page (e : LogEntryHandler) : PageNum :=
  match e with
  | InitHeaderPage p _ | UpdateRootPage p _ _ | SetParentPage p _ _ | LeafInitEmpty p | LeafSetNextPage p _ _
  | InternalInitEmpty p | InternalCreateNewRoot p _ _ _ | InternalUpdateKey p _ _ _ | NormalOperation p _ _ _ _ => p
  end.

Definition sized_bytes (l : list Z) : list Z := le_bytes 4 (Z.of_nat (length l)) ++ l.

Definition serialize_header (e : LogEntryHandler) : list Z := le_bytes 4 (op_index e) ++ le_bytes 4 (entry_page e).
(** One [serialize_body] per class; the old values stay in memory. *)
Definition init_header_body (h : IndexFileHeader) : list Z := index_header_bytes h.
Definition update_root_body (root_page_num : PageNum) : list Z := le_bytes 4 root_page_num.
Definition set_parent_body (parent_page_num : PageNum) : list Z := le_bytes 4 parent_page_num.
Definition set_next_body (new_page_num : PageNum) : list Z := le_bytes 4 new_page_num.
Definition create_new_root_body (first_page_num : PageNum) (key : list Z) (page_num : PageNum) : list Z :=
  le_bytes 4 first_page_num ++ le_bytes 4 page_num ++ sized_bytes key.
Definition update_key_body (index : Z) (key : list Z) : list Z := le_bytes 4 index ++ sized_bytes key.
Definition normal_body (index : Z) (items : list Z) (item_num : Z) : list Z :=
  le_bytes 4 index ++ le_bytes 4 item_num ++ sized_bytes items.

Definition serialize_body (e : LogEntryHandler) : list Z :=
  match e with
  | InitHeaderPage _ h => init_header_body h
  | UpdateRootPage _ r _ => update_root_body r
  | SetParentPage _ p _ => set_parent_body p
  | LeafInitEmpty _ | InternalInitEmpty _ => []
  | LeafSetNextPage _ n _ => set_next_body n
  | InternalCreateNewRoot _ first key p => create_new_root_body first key p
  | InternalUpdateKey _ i key _ => update_key_body i key
  | NormalOperation _ _ i items n => normal_body i items n
  end.
Definition serialize (e : LogEntryHandler) : list Z := serialize_header e ++ serialize_body e.

(** ** Reading an entry *)
(** [Throw]: a [vector] of negative length, or a type that is no [AttrType]. *)
Inductive parsed (A : Type) : Type := Parsed (a : A) (rest : list Z) | Failed (rc : RC) | Throw.
Arguments Parsed {A}.
Arguments Failed {A}.
Arguments Throw {A}.

Definition or_fail {A} (rc : RC) (o : option (parsed A)) : parsed A := default (Failed rc) o.

(** A length and a vector of that many chars. *)
Definition read_sized {A} (buf : list Z) (k : list Z → A) : option (parsed A) :=
  '(n, buf) ← read_int32 buf;
  if n <? 0 then Some Throw else '(l, buf) ← read_bytes (Z.to_nat n) buf; Some (Parsed (k l) buf).

(** One [deserialize] per class. *)
Definition init_header_deserialize (page : PageNum) (buf : list Z) : parsed LogEntryHandler :=
  or_fail RC.INTERNAL ('(bs, buf) ← read_bytes (Z.to_nat IndexFileHeader_SIZE) buf;
    Some (match index_header_of bs with Some h => Parsed (InitHeaderPage page h) buf | None => Throw end)).

Definition update_root_deserialize (page : PageNum) (buf : list Z) : parsed LogEntryHandler :=
  or_fail RC.INTERNAL ('(r, buf) ← read_int32 buf; Some (Parsed (UpdateRootPage page r (-1)) buf)).

Definition set_parent_deserialize (page : PageNum) (buf : list Z) : parsed LogEntryHandler :=
  or_fail RC.INTERNAL ('(p, buf) ← read_int32 buf; Some (Parsed (SetParentPage page p (-1)) buf)).

Definition leaf_init_deserialize (page : PageNum) (buf : list Z) : parsed LogEntryHandler := Parsed (LeafInitEmpty page) buf.

Definition set_next_deserialize (page : PageNum) (buf : list Z) : parsed LogEntryHandler :=
  or_fail RC.INTERNAL ('(n, buf) ← read_int32 buf; Some (Parsed (LeafSetNextPage page n (-1)) buf)).

Definition internal_init_deserialize (page : PageNum) (buf : list Z) : parsed LogEntryHandler :=
  Parsed (InternalInitEmpty page) buf.

Definition create_new_root_deserialize (page : PageNum) (buf : list Z) : parsed LogEntryHandler :=
  or_fail RC.INTERNAL ('(first, buf) ← read_int32 buf; '(p, buf) ← read_int32 buf;
    read_sized buf (λ key, InternalCreateNewRoot page first key p)).

Definition update_key_deserialize (page : PageNum) (buf : list Z) : parsed LogEntryHandler :=
  or_fail RC.INTERNAL ('(i, buf) ← read_int32 buf; read_sized buf (λ key, InternalUpdateKey page i key [])).

Definition normal_deserialize (page : PageNum) (op : NodeOperation) (buf : list Z) : parsed LogEntryHandler :=
  or_fail RC.INTERNAL ('(i, buf) ← read_int32 buf; '(n, buf) ← read_int32 buf;
    read_sized buf (λ items, NormalOperation page op i items n)).

(** The [switch] of [from_buffer]. *)
Definition deserialize_body (type : Z) (page : PageNum) (buf : list Z) : parsed LogEntryHandler :=
  if type =? 0 then init_header_deserialize page buf
  else if type =? 1 then update_root_deserialize page buf
  else if type =? 2 then set_parent_deserialize page buf
  else if type =? 3 then leaf_init_deserialize page buf
  else if type =? 4 then set_next_deserialize page buf
  else if type =? 5 then internal_init_deserialize page buf
  else if type =? 6 then create_new_root_deserialize page buf
  else if type =? 7 then update_key_deserialize page buf
  else if type =? 8 then normal_deserialize page NODE_INSERT buf
  else if type =? 9 then normal_deserialize page NODE_REMOVE buf
  else Failed RC.INTERNAL.

(** [LogEntryHandler::from_buffer] up to the call of [frame_getter]: type and page. *)
Definition read_entry_header (buf : list Z) : parsed (Z * PageNum) :=
  or_fail RC.INVALID_ARGUMENT ('(type, buf) ← read_int32 buf;
    if (type <? 0) || (MAX_TYPE <=? type) then None
    else '(page, buf) ← read_int32 buf; Some (Parsed (type, page) buf)).

(** With [fake_frame_getter], as [log_entry_to_string] uses it. *)
Definition from_buffer (buf : list Z) : parsed LogEntryHandler :=
  match read_entry_header buf with
  | Parsed (type, page) buf => deserialize_body type page buf
  | Failed rc => Failed rc
  | Throw => Throw
  end.

(** The loops over a payload: at most one entry per char. *)
Fixpoint read_entries_loop (fuel : nat) (buf : list Z) : option (list LogEntryHandler) :=
  match buf with
  | [] => Some []
  | _ =>
      match fuel, from_buffer buf with
      | S fuel, Parsed e buf => (e ::.) <$> read_entries_loop fuel buf
      | _, _ => None
      end
  end.
Definition read_entries (buf : list Z) : option (list LogEntryHandler) := read_entries_loop (length buf) buf.

(** ** Round trip

    Reading gives back the entry, without the values kept for a rollback. *)
Definition forget_old (e : LogEntryHandler) : LogEntryHandler :=
  match e with
  | UpdateRootPage p r _ => UpdateRootPage p r (-1)
  | SetParentPage p q _ => SetParentPage p q (-1)
  | LeafSetNextPage p n _ => LeafSetNextPage p n (-1)
  | InternalUpdateKey p i key _ => InternalUpdateKey p i key []
  | e => e
  end.

Definition i32 (z : Z) : Prop := in_srange 32 z.
Definition header_range (h : IndexFileHeader) : Prop :=
  i32 (root_page h) ∧ i32 (internal_max_size h) ∧ i32 (leaf_max_size h) ∧ i32 (attr_length h) ∧ i32 (key_length h).
Definition len_range (l : list Z) : Prop := i32 (Z.of_nat (length l)).

(** The fields have their C++ types. *)
Definition entry_range (e : LogEntryHandler) : Prop :=
  i32 (entry_page e) ∧
  match e with
  | InitHeaderPage _ h => header_range h
  | UpdateRootPage _ r _ => i32 r
  | SetParentPage _ p _ => i32 p
  | LeafSetNextPage _ n _ => i32 n
  | LeafInitEmpty _ | InternalInitEmpty _ => True
  | InternalCreateNewRoot _ first key p => i32 first ∧ i32 p ∧ len_range key
  | InternalUpdateKey _ i key _ => i32 i ∧ len_range key
  | NormalOperation _ _ i items n => i32 i ∧ i32 n ∧ len_range items
  end.

Lemma read_bytes_app (l r : list Z) n : n = length l → read_bytes n (l ++ r) = Some (l, r).
Proof.
  intros ->. unfold read_bytes, get_bytes. rewrite decide_True by (rewrite length_app; lia). cbn [mbind option_bind].
  by rewrite drop_0, take_app_length, drop_app_length.
Qed.

Lemma read_int32_app z r : i32 z → read_int32 (le_bytes 4 z ++ r) = Some (z, r).
Proof.
  intros Hz. unfold read_int32. rewrite read_bytes_app by (by rewrite le_bytes_length). cbn [mbind option_bind].
  by rewrite (le_signed 4) by (lia || done).
Qed.

Lemma read_sized_app {A} (l r : list Z) (k : list Z → A) : len_range l → read_sized (sized_bytes l ++ r) k = Some (Parsed (k l) r).
Proof.
  intros Hl. unfold read_sized, sized_bytes. rewrite <-app_assoc, read_int32_app by done. cbn [mbind option_bind].
  rewrite (proj2 (Z.ltb_ge _ _)) by lia. by rewrite Nat2Z.id, read_bytes_app.
Qed.

Lemma index_header_bytes_length h : length (index_header_bytes h) = Z.to_nat IndexFileHeader_SIZE.
Proof. unfold index_header_bytes. by rewrite !length_app, !le_bytes_length. Qed.

Lemma attr_type_of_id t : attr_type_of (attr_type_id t) = Some t.
Proof. by destruct t. Qed.

Lemma index_header_of_bytes h r : header_range h → index_header_of (index_header_bytes h ++ r) = Some h.
Proof.
  intros (H1 & H2 & H3 & H4 & H5). unfold index_header_bytes, index_header_of. rewrite <-!app_assoc.
  set (b1 := le_bytes 4 (root_page h)). set (b2 := le_bytes 4 (internal_max_size h)).
  set (b3 := le_bytes 4 (leaf_max_size h)). set (b4 := le_bytes 4 (attr_length h)).
  set (b5 := le_bytes 4 (key_length h)). set (b6 := le_bytes 4 (attr_type_id (attr_type h))).
  assert (get_i32 (b1 ++ b2 ++ b3 ++ b4 ++ b5 ++ b6 ++ r) 0 = Some (root_page h)) as -> by (by apply (get_i32_mid [])).
  assert (get_i32 (b1 ++ b2 ++ b3 ++ b4 ++ b5 ++ b6 ++ r) 4 = Some (internal_max_size h)) as -> by (by apply get_i32_mid).
  assert (get_i32 (b1 ++ b2 ++ b3 ++ b4 ++ b5 ++ b6 ++ r) 8 = Some (leaf_max_size h)) as ->
    by (rewrite (app_assoc b1); by apply get_i32_mid).
  assert (get_i32 (b1 ++ b2 ++ b3 ++ b4 ++ b5 ++ b6 ++ r) 12 = Some (attr_length h)) as ->
    by (rewrite (app_assoc b2), (app_assoc b1); by apply get_i32_mid).
  assert (get_i32 (b1 ++ b2 ++ b3 ++ b4 ++ b5 ++ b6 ++ r) 16 = Some (key_length h)) as ->
    by (rewrite (app_assoc b3), (app_assoc b2), (app_assoc b1); by apply get_i32_mid).
  assert (get_i32 (b1 ++ b2 ++ b3 ++ b4 ++ b5 ++ b6 ++ r) 20 = Some (attr_type_id (attr_type h))) as ->
    by (rewrite (app_assoc b4), (app_assoc b3), (app_assoc b2), (app_assoc b1); apply get_i32_mid; [done|by destruct (attr_type h)]).
  cbn [mbind option_bind]. rewrite attr_type_of_id. by destruct h.
Qed.

Lemma op_index_range e : 0 ≤ op_index e < MAX_TYPE.
Proof. unfold MAX_TYPE. destruct e as [| | | | | | | |? []]; cbn; lia. Qed.

Lemma read_entry_header_app e r : i32 (entry_page e) →
  read_entry_header (serialize_header e ++ r) = Parsed (op_index e, entry_page e) r.
Proof.
  intros Hp. pose proof (op_index_range e) as Hi. unfold read_entry_header, serialize_header. rewrite <-app_assoc.
  rewrite read_int32_app by (unfold i32, in_srange, MAX_TYPE in *; cbn; lia). cbn [mbind option_bind].
  rewrite (proj2 (Z.ltb_ge _ _)), (proj2 (Z.leb_gt _ _)) by lia. cbn [orb]. by rewrite read_int32_app.
Qed.

Lemma normal_deserialize_app p op i items n r : i32 i → i32 n → len_range items →
  normal_deserialize p op (normal_body i items n ++ r) = Parsed (NormalOperation p op i items n) r.
Proof.
  intros. unfold normal_deserialize, normal_body. rewrite <-!app_assoc, read_int32_app by done. cbn [mbind option_bind].
  rewrite read_int32_app by done. cbn [mbind option_bind]. by rewrite read_sized_app.
Qed.

Lemma create_new_root_deserialize_app p first key q r : i32 first → i32 q → len_range key →
  create_new_root_deserialize p (create_new_root_body first key q ++ r) = Parsed (InternalCreateNewRoot p first key q) r.
Proof.
  intros. unfold create_new_root_deserialize, create_new_root_body. rewrite <-!app_assoc, read_int32_app by done.
  cbn [mbind option_bind]. rewrite read_int32_app by done. cbn [mbind option_bind]. by rewrite read_sized_app.
Qed.

Lemma update_key_deserialize_app p i key r : i32 i → len_range key →
  update_key_deserialize p (update_key_body i key ++ r) = Parsed (InternalUpdateKey p i key []) r.
Proof.
  intros. unfold update_key_deserialize, update_key_body. rewrite <-!app_assoc, read_int32_app by done.
  cbn [mbind option_bind]. by rewrite read_sized_app.
Qed.

Lemma init_header_deserialize_app p h r : header_range h →
  init_header_deserialize p (init_header_body h ++ r) = Parsed (InitHeaderPage p h) r.
Proof.
  intros. unfold init_header_deserialize, init_header_body.
  rewrite read_bytes_app by (by rewrite index_header_bytes_length). cbn [mbind option_bind].
  rewrite <-(app_nil_r (index_header_bytes h)), index_header_of_bytes by done. done.
Qed.

Lemma deserialize_body_app e r : entry_range e →
  deserialize_body (op_index e) (entry_page e) (serialize_body e ++ r) = Parsed (forget_old e) r.
Proof.
  intros [_ He]. destruct e as [p h|p a b|p a b|p|p a b|p|p a k b|p i k o|p [] i l n]; cbn [op_index entry_page serialize_body forget_old];
    unfold deserialize_body; cbn [Z.eqb Pos.eqb app];
    unfold update_root_deserialize, set_parent_deserialize, set_next_deserialize, update_root_body, set_parent_body, set_next_body;
    rewrite ?read_int32_app by done; try done.
  - by apply init_header_deserialize_app.
  - by apply create_new_root_deserialize_app; apply He.
  - by apply update_key_deserialize_app; apply He.
  - by apply normal_deserialize_app; apply He.
  - by apply normal_deserialize_app; apply He.
Qed.

Lemma from_buffer_app e r : entry_range e → from_buffer (serialize e ++ r) = Parsed (forget_old e) r.
Proof.
  intros He. unfold from_buffer, serialize. rewrite <-app_assoc, read_entry_header_app by apply He. by apply deserialize_body_app.
Qed.

Lemma read_entries_app es n : Forall entry_range es → (length es ≤ n)%nat →
  read_entries_loop n (concat (serialize <$> es)) = Some (forget_old <$> es).
Proof.
  revert n. induction es as [|e es IH]; intros n He Hn; [by destruct n|].
  apply list.Forall_cons in He as [He Hes]. destruct n as [|n]; cbn in Hn; [lia|]. cbn [fmap list_fmap concat read_entries_loop].
  rewrite from_buffer_app by done. rewrite IH by (done || lia).
  by destruct (serialize e ++ concat (serialize <$> es)) eqn:E.
Qed.

Lemma serialize_nonempty e : (8 ≤ length (serialize e))%nat.
Proof. unfold serialize, serialize_header. rewrite !length_app, !le_bytes_length. lia. Qed.

Lemma read_entries_serialize es : Forall entry_range es → read_entries (concat (serialize <$> es)) = Some (forget_old <$> es).
Proof.
  intros He. apply read_entries_app; [done|]. clear He. induction es as [|e es IH]; [done|].
  rewrite fmap_cons. cbn [concat length]. rewrite length_app. pose proof (serialize_nonempty e). lia.
Qed.
