(* ===== verification/BplusTree.v ===== *)
(** * The B+ tree

    Models the node handlers and [BplusTreeHandler] of [storage/index/bplus_tree.cpp]
    and the mini transaction and logger of [bplus_tree_log.cpp], over the pages of an
    [IndexPool].  A handler object is the page number of its frame and the class it was
    made of.  Recursion up and down the tree takes [fuel], one unit per level.  Memory
    for a key can always be had. *)

From S2P Require Import Prelude Types Bytes RecordPage IndexKey IndexNode IndexPool IndexLog.
Local Open Scope Z_scope.

Definition FIRST_INDEX_PAGE : PageNum := 1.

Section bplus_tree.
Context {S : Type} `{!IndexPool S}.
Notation Tree := (Tree S).
Implicit Types (T : Tree) (page other : PageNum) (key : list Z).

(** ** Access to the page of a handler *)
Definition node_data page : M Tree (list Z) := pool (ip_data page).
Definition read {A} page (f : list Z → option A) : M Tree A := d ← node_data page; deref (f d).
Definition update page (f : list Z → option (list Z)) : M Tree unit :=
  d ← node_data page; d ← deref (f d); pool (ip_put_data page d).
Definition mark_dirty page : M Tree unit := pool (ip_mark_dirty page).
Definition ignore {A} (m : M Tree A) : M Tree unit := m;; mret tt.

Definition comparator (hd : IndexFileHeader) : list Z → list Z → option Z := key_compare (attr_type hd) (attr_length hd).

(** [max_size] and [min_size] of a handler look at [is_leaf] in the page. *)
Definition node_max_size page : M Tree Z := hd ← file_header; leaf ← read page is_leaf; mret (max_size hd leaf).
Definition node_min_size page : M Tree Z := hd ← file_header; leaf ← read page is_leaf; mret (min_size hd leaf).

(** ** [IndexNodeHandler] *)
Definition set_parent_page_num page (page_num : PageNum) : M Tree RC :=
  old ← read page parent_page_num;
  rc ← append_log_entry (SetParentPage page page_num old);
  if RC.OB_FAIL rc then mret rc
  else update page (λ d, put_parent d page_num);; mret rc.

Definition insert_items_log page (index : Z) (items : list Z) (num : Z) : M Tree RC :=
  append_log_entry (NormalOperation page NODE_INSERT index items num).
Definition remove_items_log page (index : Z) (items : list Z) (num : Z) : M Tree RC :=
  append_log_entry (NormalOperation page NODE_REMOVE index items num).

(** ** [LeafIndexNodeHandler] *)
Definition leaf_init_empty page : M Tree RC :=
  rc ← append_log_entry (LeafInitEmpty page);
  if RC.OB_FAIL rc then mret rc else update page leaf_init_page;; mret RC.SUCCESS.

Definition set_next_page page (page_num : PageNum) : M Tree RC :=
  old ← read page next_page;
  rc ← append_log_entry (LeafSetNextPage page page_num old);
  if RC.OB_FAIL rc then mret rc else update page (λ d, put_next d page_num);; mret RC.SUCCESS.

Definition leaf_insert page (index : Z) (key value : list Z) : M Tree RC :=
  hd ← file_header;
  k ← deref (read_at key 0 (key_length hd));
  v ← deref (read_at value 0 (value_size LeafHandler));
  rc ← insert_items_log page index (k ++ v) 1;
  if RC.OB_FAIL rc then mret rc
  else update page (λ d, recover_insert_items hd LeafHandler d index (k ++ v) 1);; mret RC.SUCCESS.

Definition leaf_remove page (index : Z) : M Tree RC :=
  hd ← file_header;
  ignore (read page (λ d, in_bounds d index));;
  it ← read page (λ d, items_at hd LeafHandler d index 1);
  rc ← remove_items_log page index it 1;
  if RC.OB_FAIL rc then mret rc
  else update page (λ d, recover_remove_items hd LeafHandler d index 1);; mret RC.SUCCESS.

Definition leaf_remove_key page key : M Tree Z :=
  hd ← file_header;
  '(index, found) ← read page (λ d, leaf_lookup hd (comparator hd) d key);
  if found : bool then leaf_remove page index;; mret 1 else mret 0.

Definition leaf_append page (items : list Z) (num : Z) : M Tree RC :=
  hd ← file_header;
  n ← read page node_size;
  bs ← deref (read_at items 0 (num * item_size hd LeafHandler));
  rc ← insert_items_log page n bs num;
  if RC.OB_FAIL rc then mret rc
  else update page (λ d, recover_insert_items hd LeafHandler d n items num);; mret RC.SUCCESS.

Definition leaf_preappend page (item : list Z) : M Tree RC :=
  hd ← file_header; leaf_insert page 0 item (drop (Z.to_nat (key_length hd)) item).

Definition leaf_move_half_to page other : M Tree RC :=
  hd ← file_header;
  n ← read page node_size;
  let move_index := Z.quot n 2 in
  let move_item_num := n - move_index in
  its ← read page (λ d, items_at hd LeafHandler d move_index move_item_num);
  leaf_append other its move_item_num;;
  rc ← remove_items_log page move_index its move_item_num;
  if RC.OB_FAIL rc then mret rc
  else update page (λ d, recover_remove_items hd LeafHandler d move_index move_item_num);; mret RC.SUCCESS.

Definition leaf_move_first_to_end page other : M Tree RC :=
  hd ← file_header;
  it ← read page (λ d, items_at hd LeafHandler d 0 1);
  leaf_append other it 1;;
  leaf_remove page 0.

Definition leaf_move_last_to_front page other : M Tree RC :=
  hd ← file_header;
  n ← read page node_size;
  it ← read page (λ d, items_at hd LeafHandler d (n - 1) 1);
  leaf_preappend other it;;
  leaf_remove page (n - 1);;
  mret RC.SUCCESS.

Definition leaf_move_to page other : M Tree RC :=
  hd ← file_header;
  n ← read page node_size;
  its ← read page (λ d, items_at hd LeafHandler d 0 n);
  leaf_append other its n;;
  next ← read page next_page;
  set_next_page other next;;
  remove_items_log page 0 its n;;
  update page (λ d, increase_size d (- n));;
  mret RC.SUCCESS.

(** ** [InternalIndexNodeHandler] *)
Definition internal_init_empty page : M Tree RC :=
  append_log_entry (InternalInitEmpty page);;
  update page (λ d, node_init_empty d false);; mret RC.SUCCESS.

Definition create_new_root page (first_page_num : PageNum) key (page_num : PageNum) : M Tree RC :=
  hd ← file_header;
  k ← deref (read_at key 0 (key_length hd));
  append_log_entry (InternalCreateNewRoot page first_page_num k page_num);;
  update page (λ d, new_root_page hd d first_page_num key page_num);;
  mret RC.SUCCESS.

Definition internal_insert page key (page_num : PageNum) : M Tree RC :=
  hd ← file_header;
  '(_, insert_position) ← read page (λ d, internal_lookup hd (comparator hd) d key);
  k ← deref (read_at key 0 (key_length hd));
  let item := k ++ le_bytes 4 page_num in
  rc ← insert_items_log page insert_position item 1;
  if RC.OB_FAIL rc then mret rc
  else update page (λ d, recover_insert_items hd InternalHandler d insert_position item 1);; mret RC.SUCCESS.

Definition set_key_at page (index : Z) key : M Tree unit :=
  hd ← file_header;
  ignore (read page (λ d, in_bounds d index));;
  k ← deref (read_at key 0 (key_length hd));
  old ← read page (λ d, raw_key_at hd InternalHandler d index);
  append_log_entry (InternalUpdateKey page index k old);;
  update page (λ d, put_key_at hd d index key).

Definition internal_remove page (index : Z) : M Tree unit :=
  hd ← file_header;
  ignore (read page (λ d, in_bounds d index));;
  it ← read page (λ d, items_at hd InternalHandler d index 1);
  remove_items_log page index it 1;;
  update page (λ d, recover_remove_items hd InternalHandler d index 1).

(** The loop of [insert_items] over the children in [items]. *)
Fixpoint set_parents page (items : list Z) (num : nat) : M Tree RC :=
  match num with
  | O => mret RC.SUCCESS
  | Datatypes.S num =>
      hd ← file_header;
      v ← deref (read_at items (key_length hd) 4);
      child ← deref (get_i32 v 0);
      rc ← memo_get_page child;
      if RC.OB_FAIL rc then mret rc
      else
        set_parent_page_num child page;;
        mark_dirty child;;
        set_parents page (drop (Z.to_nat (item_size hd InternalHandler)) items) num
  end.

Definition insert_items page (index : Z) (items : list Z) (num : Z) : M Tree RC :=
  hd ← file_header;
  bs ← deref (read_at items 0 (num * item_size hd InternalHandler));
  rc ← insert_items_log page index bs num;
  if RC.OB_FAIL rc then mret rc
  else
    update page (λ d, recover_insert_items hd InternalHandler d index items num);;
    set_parents page items (Z.to_nat num).

Definition internal_append page (items : list Z) (num : Z) : M Tree RC :=
  n ← read page node_size; insert_items page n items num.
Definition internal_preappend page (item : list Z) : M Tree RC := insert_items page 0 item 1.

Definition internal_move_half_to page other : M Tree RC :=
  hd ← file_header;
  n ← read page node_size;
  let move_index := Z.quot n 2 in
  let move_num := n - move_index in
  its ← read page (λ d, items_at hd InternalHandler d move_index move_num);
  rc ← internal_append other its move_num;
  if RC.OB_FAIL rc then mret rc
  else
    remove_items_log page move_index its move_num;;
    update page (λ d, increase_size d (- move_num));;
    mret rc.

Definition internal_move_to page other : M Tree RC :=
  hd ← file_header;
  n ← read page node_size;
  its ← read page (λ d, items_at hd InternalHandler d 0 n);
  rc ← internal_append other its n;
  if RC.OB_FAIL rc then mret rc
  else
    rc ← remove_items_log page 0 its n;
    if RC.OB_FAIL rc then mret rc
    else update page (λ d, recover_remove_items hd InternalHandler d 0 n);; mret RC.SUCCESS.

Definition internal_move_first_to_end page other : M Tree RC :=
  hd ← file_header;
  it ← read page (λ d, items_at hd InternalHandler d 0 1);
  rc ← internal_append other it 1;
  if RC.OB_FAIL rc then mret rc else internal_remove page 0;; mret rc.

Definition internal_move_last_to_front page other : M Tree RC :=
  hd ← file_header;
  n ← read page node_size;
  it ← read page (λ d, items_at hd InternalHandler d (n - 1) 1);
  rc ← internal_preappend other it;
  if RC.OB_FAIL rc then mret rc
  else
    rc ← remove_items_log page (n - 1) it 1;
    if RC.OB_FAIL rc then mret rc else update page (λ d, increase_size d (- 1));; mret rc.

(** ** The class a template is instantiated with *)
Definition init_empty (k : HandlerType) page : M Tree RC :=
  match k with LeafHandler => leaf_init_empty page | InternalHandler => internal_init_empty page | BaseHandler => abort end.
Definition move_half_to (k : HandlerType) page other : M Tree RC :=
  match k with
  | LeafHandler => leaf_move_half_to page other | InternalHandler => internal_move_half_to page other | BaseHandler => abort
  end.
Definition move_to (k : HandlerType) page other : M Tree RC :=
  match k with LeafHandler => leaf_move_to page other | InternalHandler => internal_move_to page other | BaseHandler => abort end.
Definition move_first_to_end (k : HandlerType) page other : M Tree RC :=
  match k with
  | LeafHandler => leaf_move_first_to_end page other | InternalHandler => internal_move_first_to_end page other | BaseHandler => abort
  end.
Definition move_last_to_front (k : HandlerType) page other : M Tree RC :=
  match k with
  | LeafHandler => leaf_move_last_to_front page other | InternalHandler => internal_move_last_to_front page other
  | BaseHandler => abort
  end.

(** ** Finding a leaf *)
Definition is_empty : M Tree bool := hd ← file_header; mret (root_page hd =? BP_INVALID_PAGE_NUM).

Definition crabing_protocal_fetch_page (op : BplusTreeOperationType) (page_num : PageNum) (is_root_node : bool) : M Tree RC :=
  memo_point ← memo_point;
  rc ← memo_get_page page_num;
  if RC.OB_FAIL rc then mret rc
  else
    memo_latch (match op with OpRead => READ_ONLY | _ => READ_WRITE end) page_num;;
    hd ← file_header;
    safe ← read page_num (λ d, is_safe hd d op is_root_node);
    (if safe : bool then release_to memo_point else mret tt);;
    mret rc.

(** The loop goes down one level per unit of fuel. *)
Fixpoint find_leaf_loop (fuel : nat) (op : BplusTreeOperationType) (child_page_getter : IndexFileHeader → list Z → option PageNum)
    (frame : PageNum) : M Tree (RC * PageNum) :=
  leaf ← read frame is_leaf;
  if leaf : bool then mret (RC.SUCCESS, frame)
  else
    match fuel with
    | O => abort
    | Datatypes.S fuel =>
        hd ← file_header;
        next_page_id ← read frame (child_page_getter hd);
        rc ← crabing_protocal_fetch_page op next_page_id false;
        if RC.OB_FAIL rc then mret (rc, next_page_id)
        else find_leaf_loop fuel op child_page_getter next_page_id
    end.

Definition find_leaf_internal (fuel : nat) (op : BplusTreeOperationType)
    (child_page_getter : IndexFileHeader → list Z → option PageNum) : M Tree (RC * PageNum) :=
  latch_root (match op with OpRead => READ_ONLY | _ => READ_WRITE end);;
  empty ← is_empty;
  if empty : bool then mret (RC.EMPTY, BP_INVALID_PAGE_NUM)
  else
    hd ← file_header;
    rc ← crabing_protocal_fetch_page op (root_page hd) true;
    if RC.OB_FAIL rc then mret (rc, BP_INVALID_PAGE_NUM)
    else find_leaf_loop fuel op child_page_getter (root_page hd).

Definition child_for_key key (hd : IndexFileHeader) (d : list Z) : option PageNum :=
  '(i, _) ← internal_lookup hd (comparator hd) d key; child_at hd d i.

Definition find_leaf (fuel : nat) (op : BplusTreeOperationType) key : M Tree (RC * PageNum) :=
  find_leaf_internal fuel op (child_for_key key).
Definition left_most_page (fuel : nat) : M Tree (RC * PageNum) :=
  find_leaf_internal fuel OpRead (λ hd d, child_at hd d 0).

(** ** Inserting *)
Definition split (k : HandlerType) (frame : PageNum) : M Tree (RC * PageNum) :=
  '(rc, new_frame) ← memo_allocate_page;
  if RC.OB_FAIL rc then mret (rc, new_frame)
  else
    xlatch new_frame;;
    init_empty k new_frame;;
    p ← read frame parent_page_num;
    set_parent_page_num new_frame p;;
    move_half_to k frame new_frame;;
    mark_dirty frame;;
    mark_dirty new_frame;;
    mret (RC.SUCCESS, new_frame).

(** A failed [get_page] leaves a null frame that [xlatch] then follows. *)
Definition update_root_page_num_locked (root_page_num : PageNum) : M Tree unit :=
  rc ← memo_get_page FIRST_INDEX_PAGE;
  assertb (RC.OB_SUCC rc);;
  xlatch FIRST_INDEX_PAGE;;
  old ← read FIRST_INDEX_PAGE (λ d, get_i32 d 0);
  append_log_entry (UpdateRootPage FIRST_INDEX_PAGE root_page_num old);;
  update FIRST_INDEX_PAGE (λ d, set_i32 d 0 root_page_num);;
  modify (λ T, set_file_header (set_root_page root_page_num (file_header_ T)) true T);;
  mark_dirty FIRST_INDEX_PAGE.

(** The first branch of [insert_entry_into_parent]: a root above the two nodes. *)
Definition grow_root (frame new_frame : PageNum) key : M Tree RC :=
  '(rc, root_frame) ← pool ip_allocate_page;
  if RC.OB_FAIL rc then mret rc
  else
    internal_init_empty root_frame;;
    create_new_root root_frame frame key new_frame;;
    set_parent_page_num frame root_frame;;
    set_parent_page_num new_frame root_frame;;
    mark_dirty frame;;
    mark_dirty new_frame;;
    pool (ip_latch READ_WRITE root_frame);;
    update_root_page_num_locked root_frame;;
    mark_dirty root_frame;;
    pool (ip_unlatch READ_WRITE root_frame);;
    pool (ip_unpin_page root_frame);;
    mret RC.SUCCESS.

Fixpoint insert_entry_into_parent (fuel : nat) (frame new_frame : PageNum) key : M Tree RC :=
  hd ← file_header;
  parent_page ← read frame parent_page_num;
  if parent_page =? BP_INVALID_PAGE_NUM then grow_root frame new_frame key
  else
    rc ← memo_get_page parent_page;
    if RC.OB_FAIL rc then mret rc
    else
      n ← read parent_page node_size;
      mx ← node_max_size parent_page;
      if n <? mx then
        internal_insert parent_page key new_frame;;
        set_parent_page_num new_frame parent_page;;
        mark_dirty frame;;
        mark_dirty new_frame;;
        mark_dirty parent_page;;
        mret rc
      else
        '(rc, new_parent_frame) ← split InternalHandler parent_page;
        if RC.OB_FAIL rc then mret rc
        else
          k0 ← read new_parent_frame (λ d, key_at hd InternalHandler d 0);
          r ← deref (comparator hd key k0);
          (if 0 <? r then
             internal_insert new_parent_frame key new_frame;;
             ignore (set_parent_page_num new_frame new_parent_frame)
           else
             internal_insert parent_page key new_frame;;
             ignore (set_parent_page_num new_frame parent_page));;
          k0 ← read new_parent_frame (λ d, key_at hd InternalHandler d 0);
          match fuel with
          | O => abort
          | Datatypes.S fuel => insert_entry_into_parent fuel parent_page new_parent_frame k0
          end.

Definition insert_entry_into_leaf_node (fuel : nat) (frame : PageNum) key (rid : RID) : M Tree RC :=
  hd ← file_header;
  '(insert_position, exists_) ← read frame (λ d, leaf_lookup hd (comparator hd) d key);
  if exists_ : bool then mret RC.RECORD_DUPLICATE_KEY
  else
    n ← read frame node_size;
    mx ← node_max_size frame;
    if n <? mx then
      leaf_insert frame insert_position key (rid_bytes rid);;
      mark_dirty frame;;
      mret RC.SUCCESS
    else
      '(rc, new_frame) ← split LeafHandler frame;
      if RC.OB_FAIL rc then mret rc
      else
        next ← read frame next_page;
        set_next_page new_frame next;;
        p ← read frame parent_page_num;
        set_parent_page_num new_frame p;;
        set_next_page frame new_frame;;
        n ← read frame node_size;
        (if insert_position <? n then leaf_insert frame insert_position key (rid_bytes rid)
         else leaf_insert new_frame (insert_position - n) key (rid_bytes rid));;
        k0 ← read new_frame (λ d, key_at hd LeafHandler d 0);
        insert_entry_into_parent fuel frame new_frame k0.

Definition create_new_tree key (rid : RID) : M Tree RC :=
  hd ← file_header;
  if negb (root_page hd =? BP_INVALID_PAGE_NUM) then mret RC.INTERNAL
  else
    '(rc, frame) ← memo_allocate_page;
    if RC.OB_FAIL rc then mret rc
    else
      leaf_init_empty frame;;
      leaf_insert frame 0 key (rid_bytes rid);;
      update_root_page_num_locked frame;;
      mark_dirty frame;;
      mret rc.

(** ** Deleting *)
Definition adjust_root (root_frame : PageNum) : M Tree RC :=
  leaf ← read root_frame is_leaf;
  n ← read root_frame node_size;
  if (leaf : bool) && (0 <? n) then mark_dirty root_frame;; mret RC.SUCCESS
  else
    '(rc, new_root_page_num) ←
      (if leaf : bool then assertb (n =? 0);; mret (RC.SUCCESS, BP_INVALID_PAGE_NUM)
       else
         hd ← file_header;
         child_page_num ← read root_frame (λ d, child_at hd d 0);
         rc ← memo_get_page child_page_num;
         if RC.OB_FAIL rc then mret (rc, BP_INVALID_PAGE_NUM)
         else
           set_parent_page_num child_page_num BP_INVALID_PAGE_NUM;;
           mret (RC.SUCCESS, child_page_num));
    if RC.OB_FAIL rc then mret rc
    else
      update_root_page_num_locked new_root_page_num;;
      memo_dispose_page root_frame;;
      mret RC.SUCCESS.

Definition redistribute (k : HandlerType) (neighbor_frame frame parent_frame : PageNum) (index : Z) : M Tree RC :=
  hd ← file_header;
  (if index =? 0 then
     move_first_to_end k neighbor_frame frame;;
     key ← read neighbor_frame (λ d, key_at hd k d 0);
     set_key_at parent_frame (index + 1) key
   else
     move_last_to_front k neighbor_frame frame;;
     key ← read frame (λ d, key_at hd k d 0);
     set_key_at parent_frame index key);;
  mark_dirty neighbor_frame;;
  mark_dirty frame;;
  mark_dirty parent_frame;;
  mret RC.SUCCESS.

(** [coalesce] up to its recursive call. *)
Definition coalesce_nodes (k : HandlerType) (neighbor_frame frame parent_frame : PageNum) (index : Z) : M Tree RC :=
  let '(left_frame, right_frame, index) :=
    if index =? 0 then (frame, neighbor_frame, index + 1) else (neighbor_frame, frame, index) in
  internal_remove parent_frame index;;
  rc ← move_to k right_frame left_frame;
  if RC.OB_FAIL rc then mret rc
  else
    leaf ← read left_frame is_leaf;
    (if leaf : bool then next ← read right_frame next_page; ignore (set_next_page left_frame next) else mret tt);;
    memo_dispose_page right_frame;;
    mret RC.SUCCESS.

Fixpoint coalesce_or_redistribute (fuel : nat) (k : HandlerType) (frame : PageNum) : M Tree RC :=
  hd ← file_header;
  n ← read frame node_size;
  mn ← node_min_size frame;
  if mn <=? n then mret RC.SUCCESS
  else
    parent_page ← read frame parent_page_num;
    if parent_page =? BP_INVALID_PAGE_NUM then
      (if 1 <? n then mret tt else ignore (adjust_root frame));; mret RC.SUCCESS
    else
      rc ← memo_get_page parent_page;
      if RC.OB_FAIL rc then mret rc
      else
        key ← read frame (λ d, key_at hd k d (n - 1));
        '(index, _) ← read parent_page (λ d, internal_lookup hd (comparator hd) d key);
        child ← read parent_page (λ d, child_at hd d index);
        assertb (child =? frame);;
        neighbor_page_num ← read parent_page (λ d, child_at hd d (if index =? 0 then 1 else index - 1));
        rc ← memo_get_page neighbor_page_num;
        if RC.OB_FAIL rc then mret rc
        else
          xlatch neighbor_page_num;;
          m ← read neighbor_page_num node_size;
          mx ← node_max_size frame;
          if mx <? n + m then redistribute k neighbor_page_num frame parent_page index
          else
            rc ← coalesce_nodes k neighbor_page_num frame parent_page index;
            if RC.OB_FAIL rc then mret rc
            else
              match fuel with
              | O => abort
              | Datatypes.S fuel => coalesce_or_redistribute fuel InternalHandler parent_page
              end.

Definition delete_entry_internal (fuel : nat) (leaf_frame : PageNum) key : M Tree RC :=
  remove_count ← leaf_remove_key leaf_frame key;
  if remove_count =? 0 then mret RC.RECORD_NOT_EXIST
  else
    mark_dirty leaf_frame;;
    n ← read leaf_frame node_size;
    mn ← node_min_size leaf_frame;
    if mn <=? n then mret RC.SUCCESS else coalesce_or_redistribute fuel LeafHandler leaf_frame.
End bplus_tree.
