(* ===== verification/BplusTreeOps.v ===== *)
(** * Operations of the B+ tree

    Models the mini transaction, its commit, rollback and redo of
    [storage/index/bplus_tree_log.cpp] and [bplus_tree_log_entry.cpp], the public
    methods of [BplusTreeHandler] and the class [BplusTreeScanner] of
    [bplus_tree.cpp].  The destructor of a mini transaction is written out where the
    object goes out of scope. *)

From S2P Require Import Prelude Types Bytes RecordPage IndexKey IndexNode IndexPool IndexLog BplusTree.
Local Open Scope Z_scope.

Section operations.
Context {S : Type} `{!IndexPool S}.
Notation Tree := (Tree S).
Implicit Types (T : Tree) (page : PageNum) (key : list Z).

(** ** Log entries at work *)
Definition recover_update_root_page (root_page_num : PageNum) : M Tree RC :=
  update_root_page_num_locked root_page_num;; mret RC.SUCCESS.

(** The page is overwritten up to the end of the header. *)
Definition recover_init_header_page page (hd : IndexFileHeader) : M Tree RC :=
  update page (λ d, write_at d 0 (index_header_bytes hd));;
  modify (set_file_header hd false);;
  mark_dirty page;;
  mret RC.SUCCESS.

Definition handler_type (leaf : bool) : HandlerType := if leaf then LeafHandler else InternalHandler.

(** One [rollback] and one [redo] per class.  The rollback of an insertion or a
    removal of items works through the base class [IndexNodeHandler]. *)
Definition update_root_rollback (old_page_num : PageNum) : M Tree RC := recover_update_root_page old_page_num.
Definition update_root_redo (root_page_num : PageNum) : M Tree RC := recover_update_root_page root_page_num.

Definition set_parent_rollback page (old_parent_page_num : PageNum) : M Tree RC := set_parent_page_num page old_parent_page_num.
Definition set_parent_redo page (parent_page_num : PageNum) : M Tree RC := set_parent_page_num page parent_page_num.

Definition set_next_rollback page (old_page_num : PageNum) : M Tree RC := set_next_page page old_page_num;; mret RC.SUCCESS.
Definition set_next_redo page (new_page_num : PageNum) : M Tree RC := set_next_page page new_page_num;; mret RC.SUCCESS.

Definition update_key_rollback page (index : Z) (old_key : list Z) : M Tree RC := set_key_at page index old_key;; mret RC.SUCCESS.
Definition update_key_redo page (index : Z) key : M Tree RC := set_key_at page index key;; mret RC.SUCCESS.

Definition normal_rollback page (op : NodeOperation) (index : Z) (items : list Z) (item_num : Z) : M Tree RC :=
  hd ← file_header;
  match op with
  | NODE_INSERT => update page (λ d, recover_remove_items hd BaseHandler d index item_num);; mret RC.SUCCESS
  | NODE_REMOVE => update page (λ d, recover_insert_items hd BaseHandler d index items item_num);; mret RC.SUCCESS
  end.

Definition normal_redo page (op : NodeOperation) (index : Z) (items : list Z) (item_num : Z) : M Tree RC :=
  hd ← file_header;
  leaf ← read page is_leaf;
  match op with
  | NODE_INSERT => update page (λ d, recover_insert_items hd (handler_type leaf) d index items item_num);; mret RC.SUCCESS
  | NODE_REMOVE => update page (λ d, recover_remove_items hd (handler_type leaf) d index item_num);; mret RC.SUCCESS
  end.

Definition entry_rollback (e : LogEntryHandler) : M Tree RC :=
  match e with
  | InitHeaderPage _ _ | LeafInitEmpty _ | InternalInitEmpty _ | InternalCreateNewRoot _ _ _ _ => mret RC.SUCCESS
  | UpdateRootPage _ _ old => update_root_rollback old
  | SetParentPage page _ old => set_parent_rollback page old
  | LeafSetNextPage page _ old => set_next_rollback page old
  | InternalUpdateKey page i _ old => update_key_rollback page i old
  | NormalOperation page op i its n => normal_rollback page op i its n
  end.

Definition entry_redo (e : LogEntryHandler) : M Tree RC :=
  match e with
  | InitHeaderPage page h => recover_init_header_page page h
  | UpdateRootPage _ r _ => update_root_redo r
  | SetParentPage page p _ => set_parent_redo page p
  | LeafInitEmpty page => leaf_init_empty page
  | LeafSetNextPage page n _ => set_next_redo page n
  | InternalInitEmpty page => internal_init_empty page
  | InternalCreateNewRoot page first key p => create_new_root page first key p
  | InternalUpdateKey page i key _ => update_key_redo page i key
  | NormalOperation page op i its n => normal_redo page op i its n
  end.

(** ** [BplusTreeLogger] *)
Fixpoint set_entries_lsn (es : list LogEntryHandler) (lsn : LSN) : M Tree unit :=
  match es with [] => mret tt | e :: es => pool (ip_set_lsn (entry_page e) lsn);; set_entries_lsn es lsn end.

Definition logger_commit : M Tree RC :=
  T ← fetch;
  match entries_ T with
  | [] => mret RC.SUCCESS
  | es =>
      id ← pool ip_id;
      '(rc, lsn) ← pool (ip_append_log (le_bytes 4 id ++ concat (serialize <$> es)));
      if bool_decide (rc ≠ RC.SUCCESS) then mret rc
      else
        set_entries_lsn es lsn;;
        modify (λ T, set_log [] (need_log_ T) T);;
        mret RC.SUCCESS
  end.

Fixpoint rollback_entries (es : list LogEntryHandler) : M Tree unit :=
  match es with [] => mret tt | e :: es => entry_rollback e;; rollback_entries es end.

Definition logger_rollback : M Tree RC :=
  T ← fetch;
  let es := entries_ T in
  modify (set_log es false);;
  rollback_entries (rev es);;
  modify (set_log [] true);;
  mret RC.SUCCESS.

(** The loop of [__redo]: the pages that were changed. *)
Fixpoint redo_loop (fuel : nat) (lsn : LSN) (buf : list Z) (frames : list PageNum) : M Tree (RC * list PageNum) :=
  match buf with
  | [] => mret (RC.SUCCESS, frames)
  | _ =>
      match fuel with
      | O => abort
      | Datatypes.S fuel =>
          match read_entry_header buf with
          | Failed rc => mret (rc, frames)
          | Throw => abort
          | Parsed (type, page) buf =>
              rc ← pool (ip_get_this_page page);
              if RC.OB_FAIL rc then mret (rc, frames)
              else
                match deserialize_body type page buf with
                | Failed rc => mret (rc, frames)
                | Throw => abort
                | Parsed e buf =>
                    frame_lsn ← pool (ip_lsn page);
                    if lsn <=? frame_lsn then
                      pool (ip_unpin_page page);; redo_loop fuel lsn buf frames
                    else
                      rc ← entry_redo e;
                      if RC.OB_FAIL rc then mret (rc, frames ++ [page]) else redo_loop fuel lsn buf (frames ++ [page])
                end
          end
      end
  end.

Fixpoint finish_redo (lsn : LSN) (frames : list PageNum) : M Tree unit :=
  match frames with
  | [] => mret tt
  | page :: frames => pool (ip_set_lsn page lsn);; pool (ip_unpin_page page);; finish_redo lsn frames
  end.

Definition logger_redo (lsn : LSN) (buf : list Z) : M Tree RC :=
  T ← fetch;
  modify (set_log (entries_ T) false);;
  '(rc, frames) ← redo_loop (length buf) lsn buf [];
  (if RC.OB_SUCC rc then finish_redo lsn frames else mret tt);;
  modify (λ T, set_log (entries_ T) true T);;
  mret RC.SUCCESS.

(** ** Mini transactions *)
Definition begin_mtr : M Tree unit := modify (λ T, set_items [] (set_disposed [] (set_log [] true T))).

(** The destructor: with an operation result the logger commits or rolls back, and
    the latch memo releases what it holds. *)
Definition end_mtr (operation_result : option RC) : M Tree unit :=
  match operation_result with
  | None => mret tt
  | Some rc => if RC.OB_SUCC rc then ignore logger_commit else ignore logger_rollback
  end;;
  release.

Definition with_mtr (m : M Tree RC) : M Tree RC := begin_mtr;; rc ← m; end_mtr (Some rc);; mret rc.

(** ** [insert_entry], [delete_entry] *)
Definition make_key (hd : IndexFileHeader) (user_key : list Z) (rid : RID) : option (list Z) :=
  k ← read_at user_key 0 (attr_length hd); Some (k ++ rid_bytes rid).

(** The tree is found empty a second time under [root_lock_]; another thread may
    have created it in between. *)
Definition insert_key (fuel : nat) key (rid : RID) : M Tree RC :=
  '(rc, frame) ← find_leaf fuel OpInsert key;
  if RC.OB_FAIL rc then mret rc else insert_entry_into_leaf_node fuel frame key rid.

Definition insert_entry (fuel : nat) (user_key : option (list Z)) (rid : option RID) : M Tree RC :=
  match user_key, rid with
  | Some user_key, Some rid =>
      hd ← file_header;
      key ← deref (make_key hd user_key rid);
      with_mtr (
        empty ← is_empty;
        if empty : bool then
          root_lock READ_WRITE;;
          empty ← is_empty;
          if empty : bool then rc ← create_new_tree key rid; root_unlock READ_WRITE;; mret rc
          else root_unlock READ_WRITE;; insert_key fuel key rid
        else insert_key fuel key rid)
  | _, _ => mret RC.INVALID_ARGUMENT
  end.

Definition delete_entry (fuel : nat) (user_key : list Z) (rid : RID) : M Tree RC :=
  hd ← file_header;
  key ← deref (make_key hd user_key rid);
  with_mtr (
    '(rc, leaf_frame) ← find_leaf fuel OpDelete key;
    if bool_decide (rc = RC.EMPTY) then mret RC.RECORD_NOT_EXIST
    else if RC.OB_FAIL rc then mret rc
    else delete_entry_internal fuel leaf_frame key).

(** ** Creating, opening, closing *)
Definition close_tree : M Tree RC :=
  T ← fetch;
  (if opened_ T then pool ip_close_file else mret tt);;
  modify (set_opened false);;
  mret RC.SUCCESS.

Definition sync_tree : M Tree RC :=
  T ← fetch;
  (if header_dirty_ T then
     rc ← pool (ip_get_this_page FIRST_INDEX_PAGE);
     if RC.OB_SUCC rc then
       update FIRST_INDEX_PAGE (λ d, write_at d 0 (index_header_bytes (file_header_ T)));;
       mark_dirty FIRST_INDEX_PAGE;;
       pool (ip_unpin_page FIRST_INDEX_PAGE);;
       modify (set_file_header (file_header_ T) false)
     else mret tt
   else mret tt);;
  pool ip_flush_all_pages.

Definition create_tree (attr_type : AttrType) (attr_length internal_max_size leaf_max_size : Z) : M Tree RC :=
  let internal_max_size := if internal_max_size <? 0 then calc_internal_page_capacity attr_length else internal_max_size in
  let leaf_max_size := if leaf_max_size <? 0 then calc_leaf_page_capacity attr_length else leaf_max_size in
  modify (set_opened true);;
  with_mtr (
    '(rc, header_page) ← memo_allocate_page;
    if RC.OB_FAIL rc then mret rc
    else if negb (header_page =? FIRST_INDEX_PAGE) then mret RC.INTERNAL
    else
      let hd := mkIndexFileHeader BP_INVALID_PAGE_NUM internal_max_size leaf_max_size attr_length (attr_length + RID_SIZE) attr_type in
      update header_page (λ d, write_at d 0 (index_header_bytes hd));;
      mark_dirty header_page;;
      modify (set_file_header hd false);;
      if key_length hd <=? 0 then close_tree;; mret RC.NOMEM
      else
        rc ← sync_tree;
        if RC.OB_FAIL rc then mret rc else mret RC.SUCCESS).

Definition open_tree : M Tree RC :=
  T ← fetch;
  if opened_ T then mret RC.RECORD_OPENNED
  else
    rc ← pool (ip_get_this_page FIRST_INDEX_PAGE);
    if RC.OB_FAIL rc then mret rc
    else
      hd ← read FIRST_INDEX_PAGE index_header_of;
      modify (set_file_header hd false);;
      modify (set_opened true);;
      if key_length hd <=? 0 then close_tree;; mret RC.NOMEM
      else pool (ip_unpin_page FIRST_INDEX_PAGE);; mret RC.SUCCESS.

(** [BplusTreeLogReplayer::replay] on the file the entry names: a handler is opened on
    it for the redo of the payload. *)
Definition replay_entry (lsn : LSN) (payload : list Z) : M Tree RC :=
  match read_int32 payload with
  | None => mret RC.IOERR_READ
  | Some (_, buf) =>
      modify (set_opened false);;
      rc ← open_tree;
      if RC.OB_FAIL rc then mret rc
      else
        begin_mtr;;
        rc ← logger_redo lsn buf;
        (if RC.OB_FAIL rc then mret tt else T ← fetch; assertb (bool_decide (length (entries_ T) = 0)%nat));;
        end_mtr None;;
        mret rc
  end.
End operations.
