(* ===== verification/BplusTreeScan.v ===== *)
(** * Scanning and checking the B+ tree

    Models [BplusTreeScanner], [BplusTreeHandler::get_entry] and the checks
    [validate_tree] and its parts of [storage/index/bplus_tree.cpp].  The latch memo of
    a scanner is that of the state from [open] to the destructor. *)

From S2P Require Import Prelude Types Bytes RecordPage IndexKey IndexNode IndexPool IndexLog BplusTree BplusTreeOps.
Local Open Scope Z_scope.

Record BplusTreeScanner : Type := mkScanner {
  inited_ : bool;
  current_frame_ : option PageNum;
  right_key_ : option (list Z);
  iter_index_ : Z;
  first_emitted_ : bool
}.
Definition new_scanner : BplusTreeScanner := mkScanner false None None (-1) false.

Definition sc_set_frame (f : option PageNum) (s : BplusTreeScanner) : BplusTreeScanner :=
  mkScanner (inited_ s) f (right_key_ s) (iter_index_ s) (first_emitted_ s).
Definition sc_set_index (i : Z) (s : BplusTreeScanner) : BplusTreeScanner :=
  mkScanner (inited_ s) (current_frame_ s) (right_key_ s) i (first_emitted_ s).
Definition sc_set_right (k : option (list Z)) (s : BplusTreeScanner) : BplusTreeScanner :=
  mkScanner (inited_ s) (current_frame_ s) k (iter_index_ s) (first_emitted_ s).
Definition sc_emitted (s : BplusTreeScanner) : BplusTreeScanner :=
  mkScanner (inited_ s) (current_frame_ s) (right_key_ s) (iter_index_ s) true.
Definition sc_opened (s : BplusTreeScanner) : BplusTreeScanner :=
  mkScanner true (current_frame_ s) (right_key_ s) (iter_index_ s) false.

(** [fix_user_key]: a key of exactly [attr_length] chars, and whether the bound
    becomes inclusive.  [None]: the [assert] on [strlen] fails. *)
Definition fix_user_key (attr_length : Z) (user_key : list Z) (key_len : Z) (want_greater : bool) : option (list Z * bool) :=
  if negb (bool_decide (0 ∈ user_key)) || negb (key_len <=? Z.of_nat (length (c_str user_key))) then None
  else if key_len <=? attr_length then
    k ← read_at user_key 0 key_len; Some (k ++ replicate (Z.to_nat (attr_length - key_len)) 0, false)
  else
    k ← read_at user_key 0 attr_length;
    c ← user_key !! Z.to_nat attr_length;
    if c =? 0 then Some (k, false)
    else
      Some (if want_greater then alter (λ c, swrap 8 (c + 1)) (Z.to_nat (attr_length - 1)) k else k, true).

(** The bound of a scan as a key: its attribute value, made to the length of the
    attribute for strings, with the smallest or the largest record id. *)
Definition left_bound (hd : IndexFileHeader) (user_key : list Z) (len : Z) (inclusive : bool) : option (list Z) :=
  '(k, incl) ← (if bool_decide (attr_type hd = CHARS) then fix_user_key (attr_length hd) user_key len true else Some (user_key, false));
  make_key hd k (if incl || inclusive then rid_min else rid_max).
Definition right_bound (hd : IndexFileHeader) (user_key : list Z) (len : Z) (inclusive : bool) : option (list Z) :=
  '(k, incl) ← (if bool_decide (attr_type hd = CHARS) then fix_user_key (attr_length hd) user_key len false else Some (user_key, false));
  make_key hd k (if incl || inclusive then rid_max else rid_min).

Section scanner.
Context {S : Type} `{!IndexPool S}.
Notation Tree := (Tree S).
Implicit Types (T : Tree) (page : PageNum) (key : list Z) (s : BplusTreeScanner).

Definition fetch_item s : M Tree RID :=
  hd ← file_header; page ← deref (current_frame_ s); read page (λ d, rid_value_at hd d (iter_index_ s)).

Definition touch_end s : M Tree bool :=
  match right_key_ s with
  | None => mret false
  | Some right_key =>
      hd ← file_header;
      page ← deref (current_frame_ s);
      this_key ← read page (λ d, key_at hd LeafHandler d (iter_index_ s));
      compare_result ← deref (comparator hd this_key right_key);
      mret (0 <? compare_result)
  end.

(** The end of [open]: the right bound, and whether the first item is behind it. *)
Definition open_right (right : option (list Z * Z * bool)) s : M Tree (RC * BplusTreeScanner) :=
  hd ← file_header;
  s ← (match right with
       | None => mret (sc_set_right None s)
       | Some (k, len, inclusive) => k ← deref (right_bound hd k len inclusive); mret (sc_set_right (Some k) s)
       end);
  e ← touch_end s;
  mret (RC.SUCCESS, if e : bool then sc_set_frame None s else s).

(** A bound is a user key with its length and whether it is inclusive. *)
Definition valid_range (hd : IndexFileHeader) (left right : option (list Z * Z * bool)) : option bool :=
  match left, right with
  | Some (l, _, li), Some (r, _, ri) =>
      result ← attr_compare (attr_type hd) (attr_length hd) l r;
      Some (negb ((0 <? result) || ((result =? 0) && (negb li || negb ri))))
  | _, _ => Some true
  end.

Definition scanner_open (fuel : nat) (left right : option (list Z * Z * bool)) s : M Tree (RC * BplusTreeScanner) :=
  if inited_ s then mret (RC.INTERNAL, s)
  else
    let s := sc_opened s in
    hd ← file_header;
    valid ← deref (valid_range hd left right);
    if negb valid then mret (RC.INVALID_ARGUMENT, s)
    else
      match left with
      | None =>
          '(rc, page) ← left_most_page fuel;
          if RC.OB_FAIL rc then
            if bool_decide (rc = RC.EMPTY) then mret (RC.SUCCESS, sc_set_frame None s) else mret (rc, s)
          else open_right right (sc_set_index 0 (sc_set_frame (Some page) s))
      | Some (k, len, inclusive) =>
          left_key ← deref (left_bound hd k len inclusive);
          '(rc, page) ← find_leaf fuel OpRead left_key;
          if bool_decide (rc = RC.EMPTY) then mret (RC.SUCCESS, sc_set_frame None s)
          else if RC.OB_FAIL rc then mret (rc, s)
          else
            '(left_index, _) ← read page (λ d, leaf_lookup hd (comparator hd) d left_key);
            n ← read page node_size;
            if n <=? left_index then
              next_page_num ← read page next_page;
              if next_page_num =? BP_INVALID_PAGE_NUM then
                release;; mret (RC.SUCCESS, sc_set_frame None s)
              else
                rc ← memo_get_page next_page_num;
                if RC.OB_FAIL rc then mret (rc, sc_set_frame None s)
                else slatch next_page_num;; open_right right (sc_set_index 0 (sc_set_frame (Some next_page_num) s))
            else open_right right (sc_set_index left_index (sc_set_frame (Some page) s))
      end.

(** [next_entry]: the recursive call after a move to the next page. *)
Fixpoint next_entry (fuel : nat) s : M Tree (RC * RID * BplusTreeScanner) :=
  match current_frame_ s with
  | None => mret (RC.RECORD_EOF, rid_min, s)
  | Some page =>
      if negb (first_emitted_ s) then
        rid ← fetch_item s; mret (RC.SUCCESS, rid, sc_emitted s)
      else
        let s := sc_set_index (iter_index_ s + 1) s in
        n ← read page node_size;
        if iter_index_ s <? n then
          e ← touch_end s;
          if e : bool then mret (RC.RECORD_EOF, rid_min, s)
          else rid ← fetch_item s; mret (RC.SUCCESS, rid, s)
        else
          next_page_num ← read page next_page;
          if next_page_num =? BP_INVALID_PAGE_NUM then mret (RC.RECORD_EOF, rid_min, s)
          else
            point ← memo_point;
            rc ← memo_get_page next_page_num;
            if RC.OB_FAIL rc then mret (rc, rid_min, sc_set_frame None s)
            else
              let s := sc_set_frame (Some next_page_num) s in
              locked ← try_slatch next_page_num;
              if negb locked then mret (RC.LOCKED_NEED_WAIT, rid_min, s)
              else
                release_to point;;
                match fuel with
                | O => abort
                | Datatypes.S fuel => next_entry fuel (sc_set_index (-1) s)
                end
  end.

(** The loop of [get_entry]. *)
Fixpoint collect_entries (fuel : nat) s (rids : list RID) : M Tree (RC * list RID) :=
  '(rc, rid, s) ← next_entry fuel s;
  if bool_decide (rc = RC.SUCCESS) then
    match fuel with O => abort | Datatypes.S fuel => collect_entries fuel s (rids ++ [rid]) end
  else mret (rc, rids).

Definition get_entry (fuel : nat) (user_key : list Z) (key_len : Z) : M Tree (RC * list RID) :=
  begin_mtr;;
  '(rc, s) ← scanner_open fuel (Some (user_key, key_len, true)) (Some (user_key, key_len, true)) new_scanner;
  if RC.OB_FAIL rc then end_mtr None;; mret (rc, [])
  else
    '(rc, rids) ← collect_entries fuel s [];
    end_mtr None;;
    mret (if bool_decide (rc ≠ RC.RECORD_EOF) then rc else RC.SUCCESS, rids).

(** ** Checks *)
(** The loop over neighbouring keys from index [i] on. *)
Fixpoint keys_ascend (fuel : nat) (hd : IndexFileHeader) (k : HandlerType) (d : list Z) (n i : Z) : option bool :=
  match fuel with
  | O => Some true
  | Datatypes.S fuel =>
      if i <? n then
        a ← raw_key_at hd k d (i - 1); b ← raw_key_at hd k d i; r ← comparator hd a b;
        if 0 <=? r then Some false else keys_ascend fuel hd k d n (i + 1)
      else Some true
  end.

(** The end of [validate] of a node that is not the root: its keys lie between the
    parent's keys at its place and at the next one. *)
Definition between_parent_keys (hd : IndexFileHeader) (k : HandlerType) page (first_index : Z) (d pd : list Z) : option bool :=
  index_in_parent ← value_index hd pd page;
  if index_in_parent <? 0 then Some false
  else
    ok ← (if negb (index_in_parent =? 0) then
            a ← raw_key_at hd k d first_index; b ← key_at hd InternalHandler pd index_in_parent; r ← comparator hd a b;
            Some (negb (r <? 0))
          else Some true);
    if negb ok then Some false
    else
      pn ← node_size pd;
      if index_in_parent <? pn - 1 then
        n ← node_size d;
        a ← raw_key_at hd k d (n - 1); b ← key_at hd InternalHandler pd (index_in_parent + 1); r ← comparator hd a b;
        Some (r <? 0)
      else Some true.

Definition check_parent (k : HandlerType) page (first_index : Z) : M Tree bool :=
  hd ← file_header;
  p ← read page parent_page_num;
  if p =? BP_INVALID_PAGE_NUM then mret true
  else
    rc ← pool (ip_get_this_page p);
    if RC.OB_FAIL rc then mret false
    else
      d ← node_data page;
      r ← read p (λ pd, between_parent_keys hd k page first_index d pd);
      pool (ip_unpin_page p);;
      mret r.

Definition leaf_validate page : M Tree bool :=
  hd ← file_header;
  result ← read page node_validate;
  if negb result then mret false
  else
    ok ← read page (λ d, n ← node_size d; keys_ascend (Z.to_nat n) hd LeafHandler d n 1);
    if negb ok then mret false else check_parent LeafHandler page 0.

(** The loop over the children: their parent is this page. *)
Fixpoint check_children (fuel : nat) page (i : Z) : M Tree bool :=
  hd ← file_header;
  n ← read page node_size;
  if i <? n then
    match fuel with
    | O => abort
    | Datatypes.S fuel =>
        child ← read page (λ d, v ← raw_value_at hd InternalHandler d i; get_i32 v 0);
        if child <? 0 then check_children fuel page (i + 1)
        else
          rc ← pool (ip_get_this_page child);
          if RC.OB_FAIL rc then check_children fuel page (i + 1)
          else
            p ← read child parent_page_num;
            pool (ip_unpin_page child);;
            if p =? page then check_children fuel page (i + 1) else mret false
    end
  else mret true.

Definition internal_validate page : M Tree bool :=
  hd ← file_header;
  result ← read page node_validate;
  if negb result then mret false
  else
    n ← read page node_size;
    ok ← read page (λ d, keys_ascend (Z.to_nat n) hd InternalHandler d n 2);
    if negb ok then mret false
    else
      ok ← check_children (Z.to_nat n) page 0;
      if negb ok then mret false else check_parent InternalHandler page 1.

Fixpoint validate_node_recursive (fuel : nat) page : M Tree bool :=
  match fuel with
  | O => abort
  | Datatypes.S fuel =>
      leaf ← read page is_leaf;
      if leaf : bool then leaf_validate page
      else
        result ← internal_validate page;
        hd ← file_header;
        n ← read page node_size;
        (fix children (todo : nat) (i : Z) (result : bool) : M Tree bool :=
           match todo with
           | O => mret result
           | Datatypes.S todo =>
               if result then
                 child ← read page (λ d, child_at hd d i);
                 rc ← memo_get_page child;
                 if RC.OB_FAIL rc then mret false
                 else result ← validate_node_recursive fuel child; children todo (i + 1) result
               else mret false
           end) (Z.to_nat n) 0 result
  end.

(** The loop of [validate_leaf_link] over the leaves, with the last key so far. *)
Fixpoint leaf_link_loop (fuel : nat) (next_page_num : PageNum) (prev_key : list Z) : M Tree bool :=
  if next_page_num =? BP_INVALID_PAGE_NUM then mret true
  else
    match fuel with
    | O => abort
    | Datatypes.S fuel =>
        hd ← file_header;
        rc ← memo_get_page next_page_num;
        if RC.OB_FAIL rc then mret false
        else
          k0 ← read next_page_num (λ d, key_at hd LeafHandler d 0);
          r ← deref (comparator hd prev_key k0);
          next ← read next_page_num next_page;
          last ← read next_page_num (λ d, n ← node_size d; key_at hd LeafHandler d (n - 1));
          if 0 <=? r then mret false else leaf_link_loop fuel next last
    end.

Definition validate_leaf_link (fuel : nat) : M Tree bool :=
  empty ← is_empty;
  if empty : bool then mret true
  else
    '(rc, page) ← left_most_page fuel;
    if RC.OB_FAIL rc then mret false
    else
      hd ← file_header;
      next ← read page next_page;
      last ← read page (λ d, n ← node_size d; key_at hd LeafHandler d (n - 1));
      leaf_link_loop fuel next last.

(** Without the print of an invalid tree. *)
Definition validate_tree (fuel : nat) : M Tree bool :=
  empty ← is_empty;
  if empty : bool then mret true
  else
    begin_mtr;;
    hd ← file_header;
    rc ← memo_get_page (root_page hd);
    r ← (if RC.OB_FAIL rc then mret false
         else
           r ← validate_node_recursive fuel (root_page hd);
           if r : bool then validate_leaf_link fuel else mret false);
    end_mtr None;;
    mret r.
End scanner.
