(* ===== verification/IndexLaws.v ===== *)
(** * What the B+ tree relies on

    A pool that keeps its pages in memory is the simplest [IndexPool]: pages in a map,
    none of which is ever evicted, with the pins and latches of one thread.  A page that
    is fetched exists, a frame that is used is pinned, and the last pin is not given
    back while a latch is held.

    The laws of an [IndexPool]: what its calls do to the pages of the file and to the
    pins and latches of the calling thread.  Memory and disk may part: a page whose
    frame was changed and not marked dirty is [loose], and when its last pin is given
    back the frame may be dropped and the change with it.  The laws for a pool that
    never drops a frame are those of the class [KeepsFrames]; the pool in memory
    satisfies both, and [Evicting], which drops every frame with its last pin, the laws
    without [KeepsFrames]. *)


From S2P Require Import Prelude Types Bytes RecordPage IndexKey IndexNode IndexPool.
Local Open Scope Z_scope.

#[global] Instance LatchMemoItem_eq_dec : EqDecision LatchMemoItem.
Proof. solve_decision. Defined.

Record Store : Type := mkStore {
  st_pages : gmap PageNum (list Z);
  st_lsns : gmap PageNum LSN;
  st_dirty : gset PageNum;
  st_holds : list LatchMemoItem;
  st_limit : nat;
  st_log : list (list Z)
}.

Definition st_set_pages (p : gmap PageNum (list Z)) (s : Store) : Store :=
  mkStore p (st_lsns s) (st_dirty s) (st_holds s) (st_limit s) (st_log s).
Definition st_set_dirty (d : gset PageNum) (s : Store) : Store :=
  mkStore (st_pages s) (st_lsns s) d (st_holds s) (st_limit s) (st_log s).
Definition st_set_holds (l : list LatchMemoItem) (s : Store) : Store :=
  mkStore (st_pages s) (st_lsns s) (st_dirty s) l (st_limit s) (st_log s).

Definition st_pinned (page : PageNum) (s : Store) : bool := bool_decide (MemoPin page ∈ st_holds s).

(** The lowest number from [p] on that is not in use. *)
Fixpoint lowest_free (n : nat) (p : PageNum) (pages : gmap PageNum (list Z)) : option PageNum :=
  match n with
  | O => None
  | S n => match pages !! p with None => Some p | Some _ => lowest_free n (p + 1) pages end
  end.

Definition blank : list Z := replicate (Z.to_nat BP_PAGE_DATA_SIZE) 0.

Definition st_get (page : PageNum) : M Store RC :=
  s ← fetch;
  match st_pages s !! page with
  | None => mret RC.BUFFERPOOL_INVALID_PAGE_NUM
  | Some _ => modify (st_set_holds (MemoPin page :: st_holds s));; mret RC.SUCCESS
  end.

Definition st_allocate : M Store (RC * PageNum) :=
  s ← fetch;
  match lowest_free (st_limit s) 1 (st_pages s) with
  | None => mret (RC.BUFFERPOOL_NOBUF, BP_INVALID_PAGE_NUM)
  | Some p => modify (λ s, st_set_holds (MemoPin p :: st_holds s) (st_set_pages (<[p := blank]> (st_pages s)) s));; mret (RC.SUCCESS, p)
  end.

(** Whether the item can be given back when [rest] is still held. *)
Definition may_drop (i : LatchMemoItem) (rest : list LatchMemoItem) : bool :=
  match i with
  | MemoPin p => bool_decide (MemoPin p ∈ rest) || (negb (bool_decide (MemoLatch READ_ONLY p ∈ rest)) && negb (bool_decide (MemoLatch READ_WRITE p ∈ rest)))
  | _ => true
  end.
Definition st_drop (i : LatchMemoItem) : M Store unit :=
  s ← fetch;
  assertb (bool_decide (i ∈ st_holds s));;
  assertb (may_drop i (list_remove1 i (st_holds s)));;
  modify (st_set_holds (list_remove1 i (st_holds s))).

Definition other_mode (m : ReadWriteMode) : ReadWriteMode := match m with READ_ONLY => READ_WRITE | READ_WRITE => READ_ONLY end.
Definition st_latch (m : ReadWriteMode) (page : PageNum) : M Store unit :=
  s ← fetch;
  assertb (st_pinned page s);;
  assertb (negb (bool_decide (MemoLatch (other_mode m) page ∈ st_holds s)));;
  modify (st_set_holds (MemoLatch m page :: st_holds s)).

Definition st_data (page : PageNum) : M Store (list Z) :=
  s ← fetch; assertb (st_pinned page s);; deref (st_pages s !! page).
Definition st_put (page : PageNum) (d : list Z) : M Store unit :=
  s ← fetch; assertb (st_pinned page s);; modify (st_set_pages (<[page := d]> (st_pages s))).

Definition st_dispose (page : PageNum) : M Store RC :=
  s ← fetch;
  match st_pages s !! page with
  | None => mret RC.NOTFOUND
  | Some _ =>
      if st_pinned page s then mret RC.LOCKED_UNLOCK
      else modify (st_set_pages (delete page (st_pages s)));; mret RC.SUCCESS
  end.

#[global] Instance Store_pool : IndexPool Store := {|
  ip_get_this_page := st_get;
  ip_allocate_page := st_allocate;
  ip_unpin_page page := st_drop (MemoPin page);
  ip_dispose_page := st_dispose;
  ip_flush_all_pages := modify (st_set_dirty ∅);; mret RC.SUCCESS;
  ip_close_file := mret tt;
  ip_id := mret 1;
  ip_data := st_data;
  ip_put_data := st_put;
  ip_mark_dirty page := modify (λ s, st_set_dirty ({[page]} ∪ st_dirty s) s);
  ip_pin_count page := gets (λ s, Z.of_nat (length (filter (MemoPin page =.) (st_holds s))));
  ip_lsn page := gets (λ s, default 0 (st_lsns s !! page));
  ip_set_lsn page l := modify (λ s, mkStore (st_pages s) (<[page := l]> (st_lsns s)) (st_dirty s) (st_holds s) (st_limit s) (st_log s));
  ip_latch := st_latch;
  ip_try_read_latch page := st_latch READ_ONLY page;; mret true;
  ip_unlatch m page := st_drop (MemoLatch m page);
  ip_append_log payload :=
    modify (λ s, mkStore (st_pages s) (st_lsns s) (st_dirty s) (st_holds s) (st_limit s) (st_log s ++ [payload]));;
    s ← fetch; mret (RC.SUCCESS, Z.of_nat (length (st_log s)))
|}.

Definition page_ok (d : list Z) : Prop := Z.of_nat (length d) = BP_PAGE_DATA_SIZE ∧ chars d.

(** No latch of the other kind is held on the page. *)
Definition may_latch (m : ReadWriteMode) (p : PageNum) (holds : list LatchMemoItem) : Prop :=
  MemoPin p ∈ holds ∧ MemoLatch (other_mode m) p ∉ holds.
(** The last pin goes after the last latch. *)
Definition may_unpin (p : PageNum) (rest : list LatchMemoItem) : Prop :=
  MemoPin p ∈ rest ∨ ∀ m, MemoLatch m p ∉ rest.

Section laws.
Context (S : Type) `{!IndexPool S}.

(** How a state is seen: its pages, what the thread holds, how many pages can still be
    allocated, the pages marked dirty and the loose ones. *)
Record view : Type := mkView {
  v_inv : S → Prop;
  v_pages : S → gmap PageNum (list Z);
  v_holds : S → list LatchMemoItem;
  v_free : S → nat;
  v_dirty : S → gset PageNum;
  v_loose : S → gset PageNum
}.

(** A call that keeps the other pages: the state after it. *)
Record moved (v : view) (s s' : S) (pages : gmap PageNum (list Z)) (holds : list LatchMemoItem) : Prop := {
  mv_inv : v_inv v s';
  mv_pages : v_pages v s' = pages;
  mv_holds : v_holds v s' ≡ₚ holds;
  mv_free : (v_free v s ≤ v_free v s')%nat
}.
Record marks (v : view) (s s' : S) (dirty loose : gset PageNum) : Prop := {
  mk_dirty : dirty ⊆ v_dirty v s';
  mk_loose : v_loose v s' ⊆ loose
}.

Class IndexPoolLaws : Type := {
  pv : view;
  pl_pages s : v_inv pv s → map_Forall (λ p d, 0 ≤ p ≤ INT32_MAX ∧ page_ok d) (v_pages pv s);
  pl_get s p : v_inv pv s → is_Some (v_pages pv s !! p) →
    ∃ s', ip_get_this_page p s = Some (RC.SUCCESS, s') ∧ moved pv s s' (v_pages pv s) (MemoPin p :: v_holds pv s) ∧
      marks pv s s' (v_dirty pv s) (v_loose pv s);
  pl_allocate s n : v_inv pv s → v_free pv s = Datatypes.S n →
    ∃ p d s', ip_allocate_page s = Some ((RC.SUCCESS, p), s') ∧ v_pages pv s !! p = None ∧ page_ok d ∧
      v_inv pv s' ∧ v_pages pv s' = <[p := d]> (v_pages pv s) ∧ v_holds pv s' ≡ₚ MemoPin p :: v_holds pv s ∧
      (n ≤ v_free pv s')%nat ∧ marks pv s s' (v_dirty pv s) (v_loose pv s) ∧ ip_pin_count p s' = Some (1, s') ∧
      MemoPin p ∉ v_holds pv s ∧ ∀ m, MemoLatch m p ∉ v_holds pv s;
  pl_unpin s p rest : v_inv pv s → v_holds pv s ≡ₚ MemoPin p :: rest → may_unpin p rest → p ∉ v_loose pv s →
    ∃ s', ip_unpin_page p s = Some (tt, s') ∧ moved pv s s' (v_pages pv s) rest ∧
      marks pv s s' (v_dirty pv s ∖ {[p]}) (v_loose pv s);
  pl_data s p d : v_inv pv s → MemoPin p ∈ v_holds pv s → v_pages pv s !! p = Some d → ip_data p s = Some (d, s);
  pl_put s p d : v_inv pv s → MemoPin p ∈ v_holds pv s → is_Some (v_pages pv s !! p) → page_ok d →
    ∃ s', ip_put_data p d s = Some (tt, s') ∧ moved pv s s' (<[p := d]> (v_pages pv s)) (v_holds pv s) ∧
      marks pv s s' (v_dirty pv s) (if decide (p ∈ v_dirty pv s) then v_loose pv s else {[p]} ∪ v_loose pv s);
  pl_mark_dirty s p : v_inv pv s → MemoPin p ∈ v_holds pv s →
    ∃ s', ip_mark_dirty p s = Some (tt, s') ∧ moved pv s s' (v_pages pv s) (v_holds pv s) ∧
      marks pv s s' ({[p]} ∪ v_dirty pv s) (v_loose pv s ∖ {[p]});
  pl_latch s m p : v_inv pv s → may_latch m p (v_holds pv s) →
    ∃ s', ip_latch m p s = Some (tt, s') ∧ moved pv s s' (v_pages pv s) (MemoLatch m p :: v_holds pv s) ∧
      marks pv s s' (v_dirty pv s) (v_loose pv s);
  pl_try_latch s p : v_inv pv s → may_latch READ_ONLY p (v_holds pv s) →
    ∃ s', ip_try_read_latch p s = Some (true, s') ∧ moved pv s s' (v_pages pv s) (MemoLatch READ_ONLY p :: v_holds pv s) ∧
      marks pv s s' (v_dirty pv s) (v_loose pv s);
  pl_unlatch s m p rest : v_inv pv s → v_holds pv s ≡ₚ MemoLatch m p :: rest → MemoPin p ∈ rest →
    ∃ s', ip_unlatch m p s = Some (tt, s') ∧ moved pv s s' (v_pages pv s) rest ∧
      marks pv s s' (v_dirty pv s) (v_loose pv s);
  pl_dispose s p : v_inv pv s → is_Some (v_pages pv s !! p) → MemoPin p ∉ v_holds pv s →
    ∃ rc s', ip_dispose_page p s = Some (rc, s') ∧ moved pv s s' (delete p (v_pages pv s)) (v_holds pv s) ∧
      marks pv s s' (v_dirty pv s ∖ {[p]}) (v_loose pv s);
  pl_id s : v_inv pv s → ∃ i, ip_id s = Some (i, s);
  pl_set_lsn s p l : v_inv pv s →
    ∃ s', ip_set_lsn p l s = Some (tt, s') ∧ moved pv s s' (v_pages pv s) (v_holds pv s) ∧
      marks pv s s' (v_dirty pv s) (v_loose pv s);
  pl_append_log s payload : v_inv pv s →
    ∃ rc lsn s', ip_append_log payload s = Some ((rc, lsn), s') ∧ moved pv s s' (v_pages pv s) (v_holds pv s) ∧
      marks pv s s' (v_dirty pv s) (v_loose pv s)
}.

(** No frame is dropped: nothing is ever loose. *)
Class KeepsFrames `{!IndexPoolLaws} : Prop := {
  kf_loose s : v_inv pv s → v_loose pv s = ∅
}.
End laws.
Arguments pv {S _ _}.

(** ** The pool in memory *)
Definition free_pages (s : Store) : list PageNum := filter (λ p : PageNum, st_pages s !! p = None) (seqZ 1 (Z.of_nat (st_limit s))).

Definition store_view : view Store := {|
  v_inv s := map_Forall (λ p d, 0 ≤ p ≤ INT32_MAX ∧ page_ok d) (st_pages s) ∧ Z.of_nat (st_limit s) ≤ INT32_MAX ∧
    (∀ p, MemoPin p ∈ st_holds s → is_Some (st_pages s !! p)) ∧ (∀ m p, MemoLatch m p ∈ st_holds s → MemoPin p ∈ st_holds s);
  v_pages := st_pages;
  v_holds := st_holds;
  v_free s := length (free_pages s);
  v_dirty := st_dirty;
  v_loose _ := ∅
|}.

Lemma lowest_free_head n p pages : lowest_free n p pages = head (filter (λ q : PageNum, pages !! q = None) (seqZ p (Z.of_nat n))).
Proof.
  revert p. induction n as [|n IH]; intros p; [done|]. rewrite seqZ_cons by lia. cbn [lowest_free].
  rewrite filter_cons. destruct (pages !! p) eqn:E.
  - rewrite decide_False by done. rewrite IH. do 3 f_equal; lia.
  - by rewrite decide_True.
Qed.

Lemma may_drop_true i rest :
  (∀ p, i = MemoPin p → may_unpin p rest) → may_drop i rest = true.
Proof.
  destruct i as [p| |]; [|done|done]. intros H. cbn. destruct (H p eq_refl) as [Hp|Hm].
  - by rewrite bool_decide_eq_true_2.
  - rewrite !(bool_decide_eq_false_2 (MemoLatch _ _ ∈ _)) by apply Hm. by rewrite orb_true_r.
Qed.

Lemma st_drop_ok s i rest :
  v_inv _ store_view s → st_holds s ≡ₚ i :: rest → (∀ p, i = MemoPin p → may_unpin p rest) →
  ∃ s', st_drop i s = Some (tt, s') ∧ moved _ store_view s s' (st_pages s) rest ∧ st_dirty s' = st_dirty s.
Proof.
  intros (H1 & H2 & H3 & H4) Hp Hm. assert (i ∈ st_holds s) as Hin by (rewrite Hp; left).
  assert (list_remove1 i (st_holds s) ≡ₚ rest) as Hr.
  { apply (Permutation_cons_inv (a := i)). rewrite <-Hp. clear -Hin. induction (st_holds s) as [|x l IH]; [by apply not_elem_of_nil in Hin|].
    cbn. case_decide as E; [by subst|]. apply elem_of_cons in Hin as [|Hin]; [done|]. rewrite Permutation_swap. by rewrite IH. }
  exists (st_set_holds (list_remove1 i (st_holds s)) s). unfold st_drop. mstep. rewrite bool_decide_eq_true_2 by done.
  rewrite may_drop_true; [|intros p ->; destruct (Hm p eq_refl) as [?|?]; [left|right]; by setoid_rewrite Hr]. split_and!; [done| |done].
  split; cbn; try done. split_and!; try done.
  - intros p Hpin. apply H3. rewrite Hp. right. by rewrite <-Hr.
  - intros m p Hl. rewrite Hr in Hl |- *. assert (MemoPin p ∈ i :: rest) as Hc by (rewrite <-Hp; apply (H4 m); rewrite Hp; by right).
    apply elem_of_cons in Hc as [<-|?]; [|done]. destruct (Hm p eq_refl) as [?|Hn]; [done|]. by destruct (Hn m).
Qed.

Lemma blank_ok : page_ok blank.
Proof. split; [by vm_compute|]. apply Forall_replicate. unfold in_srange. cbn. lia. Qed.

Lemma filter_length_le {A} (P Q : A → Prop) `{!∀ x, Decision (P x), !∀ x, Decision (Q x)} (l : list A) :
  (∀ x, P x → Q x) → (length (filter P l) ≤ length (filter Q l))%nat.
Proof.
  intros HPQ. induction l as [|x l IH]; [done|]. rewrite !filter_cons. repeat case_decide; cbn; try lia. naive_solver.
Qed.

(** A state with the same pages and other holds. *)
Lemma store_moved s h :
  v_inv _ store_view s → (∀ p, MemoPin p ∈ h → is_Some (st_pages s !! p)) → (∀ m p, MemoLatch m p ∈ h → MemoPin p ∈ h) →
  moved _ store_view s (st_set_holds h s) (st_pages s) h.
Proof. intros (H1 & H2 & H3 & H4) Hp Hl. by split. Qed.

Lemma store_same s s' :
  v_inv _ store_view s → st_pages s' = st_pages s → st_holds s' = st_holds s → st_limit s' = st_limit s →
  moved _ store_view s s' (st_pages s) (st_holds s).
Proof.
  intros I E1 E2 E3. split; cbn; [|done|by rewrite E2|unfold free_pages; by rewrite E1, E3].
  by rewrite E1, E2, E3.
Qed.

Lemma store_marks s s' dirty loose : dirty ⊆ st_dirty s' → marks _ store_view s s' dirty loose.
Proof. intros H. split; [done|]. cbn. set_solver. Qed.

Lemma store_latch s m p : v_inv _ store_view s → may_latch m p (st_holds s) →
  ∃ s', st_latch m p s = Some (tt, s') ∧ moved _ store_view s s' (st_pages s) (MemoLatch m p :: st_holds s) ∧ st_dirty s' = st_dirty s.
Proof.
  intros I [Hp Hn]. unfold st_latch, st_pinned. mstep. rewrite bool_decide_eq_true_2, bool_decide_eq_false_2 by done. cbn.
  eexists. split_and!; [done| |done]. pose proof I as (_ & _ & H3 & H4). apply store_moved; [done| |].
  - intros q Hq. apply elem_of_cons in Hq as [Hq|Hq]; [done|]. by apply H3.
  - intros m' q Hq. right. apply elem_of_cons in Hq as [[= -> ->]|Hq]; [done|]. by eapply H4.
Qed.

Lemma store_get s p : v_inv _ store_view s → is_Some (st_pages s !! p) →
  ∃ s', st_get p s = Some (RC.SUCCESS, s') ∧ moved _ store_view s s' (st_pages s) (MemoPin p :: st_holds s) ∧ st_dirty s' = st_dirty s.
Proof.
  intros I [d Hd]. unfold st_get. mstep. rewrite Hd. eexists. split_and!; [done| |done].
  pose proof I as (_ & _ & H3 & H4). apply store_moved; [done| |].
  - intros q Hq. apply elem_of_cons in Hq as [[= ->]|Hq]; [by eexists|]. by apply H3.
  - intros m' q Hq. right. apply elem_of_cons in Hq as [Hq|Hq]; [done|]. by eapply H4.
Qed.

Lemma store_allocate s n : v_inv _ store_view s → length (free_pages s) = S n →
  ∃ p s', st_allocate s = Some ((RC.SUCCESS, p), s') ∧ st_pages s !! p = None ∧ v_inv _ store_view s' ∧
    st_pages s' = <[p := blank]> (st_pages s) ∧ st_holds s' = MemoPin p :: st_holds s ∧ length (free_pages s') = n ∧ st_dirty s' = st_dirty s.
Proof.
  intros (H1 & H2 & H3 & H4) Hf. unfold st_allocate. mstep. rewrite lowest_free_head. fold (free_pages s).
  destruct (free_pages s) as [|p r] eqn:E; [done|]. cbn. injection Hf as Hn. eexists p, _. split; [done|].
  assert (p ∈ free_pages s) as Hp by (rewrite E; left). apply list_elem_of_filter in Hp as [Hp Hr]. apply elem_of_seqZ in Hr.
  split_and!; cbn; try done.
  - apply map_Forall_insert_2; [|done]. split; [lia|apply blank_ok].
  - intros q Hq. apply elem_of_cons in Hq as [[= ->]|Hq]; [rewrite lookup_insert_eq; by eexists|].
    destruct (decide (p = q)) as [->|Hne]; [rewrite lookup_insert_eq; by eexists|]. rewrite lookup_insert_ne by done. by apply H3.
  - intros m q Hq. right. apply elem_of_cons in Hq as [Hq|Hq]; [done|]. by eapply H4.
  - unfold free_pages. cbn. rewrite <-Hn. f_equal. transitivity (filter (λ q, q ≠ p) (free_pages s)).
    + unfold free_pages. rewrite list_filter_filter. apply list_filter_iff. intros q.
      destruct (decide (p = q)) as [->|Hne]; [rewrite lookup_insert_eq; naive_solver|]. rewrite lookup_insert_ne by done. naive_solver.
    + assert (NoDup (free_pages s)) as Hnd by (apply list.NoDup_filter, NoDup_seqZ). rewrite E in Hnd |- *.
      apply list.NoDup_cons in Hnd as [Hx _]. rewrite filter_cons, decide_False by (intros []; done).
      clear -Hx. induction r as [|y r IH]; [done|]. rewrite filter_cons, decide_True by set_solver. f_equal. apply IH. set_solver.
Qed.

#[global] Instance Store_laws : IndexPoolLaws Store.
Proof.
  refine {| pv := store_view |}; cbn [v_inv v_pages v_holds v_free v_dirty v_loose store_view].
  - by intros s (H & _).
  - intros s p I Hp. destruct (store_get s p I Hp) as (s' & E & M & D). exists s'. split_and!; [done..|]. by apply store_marks; rewrite D.
  - intros s n I Hn. destruct (store_allocate s n I Hn) as (p & s' & E & Hp & I' & E1 & E2 & E3 & E4). exists p, blank, s'.
    destruct I as (_ & _ & H3 & H4).
    assert (MemoPin p ∉ st_holds s) as Hpin by (intros Hin; destruct (H3 p Hin) as [? Hs]; congruence).
    split; [done|]. split; [done|]. split; [apply blank_ok|]. split; [done|]. split; [done|]. split; [by rewrite E2|].
    split; [lia|]. split; [by apply store_marks; rewrite E4|]. split; [|split; [done|]].
    + cbn. unfold gets. rewrite E2, filter_cons, decide_True by done. cbn. do 3 f_equal.
      assert (filter (MemoPin p =.) (st_holds s) = []) as ->; [|done]. clear -Hpin.
      induction (st_holds s) as [|x l IH]; [done|]. apply not_elem_of_cons in Hpin as [Hx Hl]. rewrite filter_cons, decide_False by done. by apply IH.
    + intros m Hm. by apply Hpin, (H4 m).
  - intros s p rest I Hp Hm _. destruct (st_drop_ok s (MemoPin p) rest I Hp) as (s' & E & M & D); [by intros q [= ->]|].
    exists s'. split_and!; try done. apply store_marks. rewrite D. set_solver.
  - intros s p d I Hp Hd. cbn. unfold st_data, st_pinned. mstep. rewrite bool_decide_eq_true_2 by done. by rewrite Hd.
  - intros s p d I Hp [d0 Hd0] Hd. cbn. unfold st_put, st_pinned. mstep. rewrite bool_decide_eq_true_2 by done.
    eexists. split_and!; [done| |by apply store_marks]. pose proof I as (H1 & H2 & H3 & H4). split; cbn; try done.
    + split_and!; try done; [apply map_Forall_insert_2; [|done]; by destruct (H1 p d0 Hd0)|].
      intros q Hq. destruct (decide (p = q)) as [->|Hne]; [rewrite lookup_insert_eq; by eexists|]. rewrite lookup_insert_ne by done. by apply H3.
    + unfold free_pages. cbn. apply filter_length_le. intros q.
      destruct (decide (p = q)) as [->|Hne]; [congruence|]. by rewrite lookup_insert_ne.
  - intros s p I Hp. eexists. split_and!; [done|by apply store_same|by apply store_marks].
  - intros s m p I Hm. destruct (store_latch s m p I Hm) as (s' & E & M & D). exists s'. split_and!; [done..|]. by apply store_marks; rewrite D.
  - intros s p I Hm. destruct (store_latch s READ_ONLY p I Hm) as (s' & E & M & D). exists s'. cbn. split_and!; [|done|by apply store_marks; rewrite D].
    by rewrite (exec E).
  - intros s m p rest I Hp Hpin. destruct (st_drop_ok s (MemoLatch m p) rest I Hp) as (s' & E & M & D); [done|].
    exists s'. split_and!; [done..|]. by apply store_marks; rewrite D.
  - intros s p I [d Hd] Hp. cbn. unfold st_dispose, st_pinned. mstep. rewrite Hd, bool_decide_eq_false_2 by done.
    eexists RC.SUCCESS, _. split_and!; [done| |apply store_marks; cbn; set_solver]. pose proof I as (H1 & H2 & H3 & H4). split; cbn; try done.
    + split_and!; try done; [by apply map_Forall_delete|]. intros q Hq.
      rewrite lookup_delete_ne by (intros ->; done). by apply H3.
    + unfold free_pages. cbn. apply filter_length_le. intros q Hq.
      destruct (decide (p = q)) as [->|Hne]; [by rewrite lookup_delete_eq|]. by rewrite lookup_delete_ne.
  - intros s I. by exists 1.
  - intros s p l I. eexists. split_and!; [done|by apply store_same|by apply store_marks].
  - intros s payload I. eexists _, _, _. split_and!; [done|by apply store_same|by apply store_marks].
Defined.

#[global] Instance Store_keeps : KeepsFrames Store.
Proof. by split. Qed.

(** ** A pool in memory that evicts

    Every frame is evicted when its last pin is given back: a dirty page is written, and
    what was changed on a page that nobody has marked is lost. *)
Record Evicting : Type := mkEvicting { ev_store : Store; ev_disk : gmap PageNum (list Z); ev_loose : gset PageNum }.

Definition ev_lift {A} (m : M Store A) : M Evicting A := λ s,
  '(a, s') ← m (ev_store s); Some (a, mkEvicting s' (ev_disk s) (ev_loose s)).

Definition evict (page : PageNum) (s : Evicting) : Evicting :=
  let u := ev_store s in
  if decide (page ∈ st_dirty u) then mkEvicting (st_set_dirty (st_dirty u ∖ {[page]}) u) (partial_alter (λ _, st_pages u !! page) page (ev_disk s)) (ev_loose s)
  else mkEvicting (st_set_pages (partial_alter (λ _, ev_disk s !! page) page (st_pages u)) u) (ev_disk s) (ev_loose s ∖ {[page]}).

Definition ev_unpin (page : PageNum) : M Evicting unit :=
  ev_lift (st_drop (MemoPin page));; modify (λ s, if st_pinned page (ev_store s) then s else evict page s).
Definition ev_allocate : M Evicting (RC * PageNum) :=
  '(rc, p) ← ev_lift st_allocate;
  (if bool_decide (rc = RC.SUCCESS) then modify (λ s, mkEvicting (ev_store s) (<[p := blank]> (ev_disk s)) (ev_loose s)) else mret tt);;
  mret (rc, p).
Definition ev_dispose (page : PageNum) : M Evicting RC :=
  rc ← ev_lift (st_dispose page);
  (if bool_decide (rc = RC.SUCCESS) then modify (λ s, mkEvicting (ev_store s) (delete page (ev_disk s)) (ev_loose s)) else mret tt);;
  mret rc.
Definition ev_put (page : PageNum) (d : list Z) : M Evicting unit :=
  ev_lift (st_put page d);;
  modify (λ s, mkEvicting (ev_store s) (ev_disk s) (if decide (page ∈ st_dirty (ev_store s)) then ev_loose s else {[page]} ∪ ev_loose s)).
Definition ev_mark_dirty (page : PageNum) : M Evicting unit :=
  ev_lift (ip_mark_dirty page);; modify (λ s, mkEvicting (ev_store s) (ev_disk s) (ev_loose s ∖ {[page]})).
Definition ev_flush : M Evicting RC :=
  modify (λ s, let u := ev_store s in
    mkEvicting (st_set_dirty ∅ u) (map_imap (λ p d, if decide (p ∈ st_dirty u) then st_pages u !! p else Some d) (ev_disk s)) (ev_loose s));;
  mret RC.SUCCESS.

#[global] Instance Evicting_pool : IndexPool Evicting := {|
  ip_get_this_page page := ev_lift (st_get page);
  ip_allocate_page := ev_allocate;
  ip_unpin_page := ev_unpin;
  ip_dispose_page := ev_dispose;
  ip_flush_all_pages := ev_flush;
  ip_close_file := mret tt;
  ip_id := mret 1;
  ip_data page := ev_lift (st_data page);
  ip_put_data := ev_put;
  ip_mark_dirty := ev_mark_dirty;
  ip_pin_count page := ev_lift (ip_pin_count page);
  ip_lsn page := ev_lift (ip_lsn page);
  ip_set_lsn page l := ev_lift (ip_set_lsn page l);
  ip_latch m page := ev_lift (st_latch m page);
  ip_try_read_latch page := ev_lift (ip_try_read_latch page);
  ip_unlatch m page := ev_lift (st_drop (MemoLatch m page));
  ip_append_log payload := ev_lift (ip_append_log payload)
|}.

(** A page that is neither dirty nor loose is on the disk as it is in its frame. *)
Definition synced (s : Evicting) : Prop :=
  ∀ p, p ∈ st_dirty (ev_store s) ∨ p ∈ ev_loose s ∨ ev_disk s !! p = st_pages (ev_store s) !! p.

Definition evicting_view : view Evicting := {|
  v_inv s := v_inv _ store_view (ev_store s) ∧ synced s;
  v_pages s := st_pages (ev_store s);
  v_holds s := st_holds (ev_store s);
  v_free s := length (free_pages (ev_store s));
  v_dirty s := st_dirty (ev_store s);
  v_loose := ev_loose
|}.

Lemma lift_run {A} (m : M Store A) s a u : m (ev_store s) = Some (a, u) → ev_lift m s = Some (a, mkEvicting u (ev_disk s) (ev_loose s)).
Proof. intros E. unfold ev_lift. by rewrite E. Qed.

(** A call that is passed on to the pool below and changes no page. *)
Lemma lift_ok {A} (m : M Store A) s a u holds : v_inv _ evicting_view s → m (ev_store s) = Some (a, u) →
  moved _ store_view (ev_store s) u (st_pages (ev_store s)) holds → st_dirty (ev_store s) ⊆ st_dirty u →
  ∃ s', ev_lift m s = Some (a, s') ∧ moved _ evicting_view s s' (v_pages _ evicting_view s) holds ∧
    marks _ evicting_view s s' (v_dirty _ evicting_view s) (v_loose _ evicting_view s).
Proof.
  intros [I Y] E [M1 M2 M3 M4] D. eexists. split; [by apply lift_run|]. cbn in M1, M2, M3, M4. split; [|by split].
  split; cbn; [|done..]. split; [done|]. intros p. cbn. rewrite M2. destruct (Y p) as [Hp|Hp]; [left; by apply D|by right].
Qed.


Lemma ev_unpin_ok s p rest :
  v_inv _ evicting_view s → st_holds (ev_store s) ≡ₚ MemoPin p :: rest → may_unpin p rest → p ∉ ev_loose s →
  ∃ s', ev_unpin p s = Some (tt, s') ∧ moved _ evicting_view s s' (st_pages (ev_store s)) rest ∧
    marks _ evicting_view s s' (st_dirty (ev_store s) ∖ {[p]}) (ev_loose s).
Proof.
  intros [I Y] Hp Hm Hl. destruct (st_drop_ok (ev_store s) (MemoPin p) rest I Hp) as (u & E & [M1 M2 M3 M4] & D); [by intros q [= ->]|].
  cbn in M2. unfold ev_unpin. rewrite (exec (lift_run _ _ _ _ E)). unfold modify. eexists. split; [done|]. cbn [ev_store].
  destruct (st_pinned p u); [|unfold evict; cbn [ev_store ev_disk ev_loose]; case_decide as Hd].
  - split; [|split; cbn; [rewrite D; set_solver|done]]. split; cbn; [|done..]. split; [done|]. intros q. cbn. rewrite D, M2. apply Y.
  - split; [|split; cbn; [rewrite D; set_solver|done]]. split; cbn; [|done..]. split; [done|]. intros q. cbn. rewrite D, M2.
    destruct (decide (q = p)) as [->|Hne]; [rewrite lookup_partial_alter_eq; by (right; right)|]. rewrite lookup_partial_alter_ne by done.
    destruct (Y q) as [?|?]; [left; set_solver|by right].
  - assert (partial_alter (λ _, ev_disk s !! p) p (st_pages u) = st_pages u) as Ep.
    { apply map_eq. intros q. destruct (decide (q = p)) as [->|Hne]; [rewrite lookup_partial_alter_eq|by rewrite lookup_partial_alter_ne].
      rewrite D in Hd. rewrite M2. destruct (Y p) as [?|[?|?]]; done. }
    rewrite Ep. assert (st_set_pages (st_pages u) u = u) as -> by (by destruct u).
    split; [|split; cbn; [rewrite D; set_solver|set_solver]]. split; cbn; [|done..]. split; [done|]. intros q. cbn. rewrite D, M2.
    destruct (decide (q = p)) as [->|Hne]; [|destruct (Y q) as [?|[?|?]]; [by left|right; left; set_solver|by (right; right)]].
    rewrite D in Hd. destruct (Y p) as [?|[?|?]]; [done|done|by (right; right)].
Qed.

Lemma ev_put_ok s p d :
  v_inv _ evicting_view s → MemoPin p ∈ st_holds (ev_store s) → is_Some (st_pages (ev_store s) !! p) → page_ok d →
  ∃ s', ev_put p d s = Some (tt, s') ∧ moved _ evicting_view s s' (<[p := d]> (st_pages (ev_store s))) (st_holds (ev_store s)) ∧
    marks _ evicting_view s s' (st_dirty (ev_store s)) (if decide (p ∈ st_dirty (ev_store s)) then ev_loose s else {[p]} ∪ ev_loose s).
Proof.
  intros [I Y] Hp Hs Hd. destruct (@pl_put Store _ Store_laws (ev_store s) p d I Hp Hs Hd) as (u & E & [M1 M2 M3 M4] & [D _]).
  assert (st_dirty u = st_dirty (ev_store s)) as D'.
  { revert E. cbn. unfold st_put, st_pinned. mstep. rewrite bool_decide_eq_true_2 by done. by intros [= <-]. }
  cbn in M1, M2, M3, M4. unfold ev_put. rewrite (exec (lift_run _ _ _ _ E)). unfold modify. eexists. split; [done|]. cbn [ev_store ev_disk ev_loose].
  split; [|split; cbn; rewrite D'; done]. split; cbn; [|done..]. split; [done|]. intros q. cbn. rewrite M2, D'.
  destruct (decide (p = q)) as [->|Hne]; [|rewrite lookup_insert_ne by done; case_decide; destruct (Y q) as [?|[?|?]]; set_solver].
  case_decide; [by left|]. right; left. set_solver.
Qed.

Lemma ev_allocate_ok s n : v_inv _ evicting_view s → length (free_pages (ev_store s)) = S n →
  ∃ p s', ev_allocate s = Some ((RC.SUCCESS, p), s') ∧ v_inv _ evicting_view s' ∧ ev_loose s' = ev_loose s ∧
    st_allocate (ev_store s) = Some ((RC.SUCCESS, p), ev_store s').
Proof.
  intros [I Y] Hn. destruct (store_allocate _ n I Hn) as (p & u & E & Hp & I' & E1 & E2 & E3 & E4).
  exists p. eexists. split; [unfold ev_allocate; rewrite (exec (lift_run _ _ _ _ E)); reflexivity|]. split; [|done]. split; [done|].
  intros q. cbn. rewrite E1, E4. destruct (decide (p = q)) as [->|Hne]; [right; right; by rewrite !lookup_insert_eq|].
  rewrite !lookup_insert_ne by done. apply Y.
Qed.

Lemma ev_dispose_ok s p : v_inv _ evicting_view s → is_Some (st_pages (ev_store s) !! p) → MemoPin p ∉ st_holds (ev_store s) →
  ∃ rc s', ev_dispose p s = Some (rc, s') ∧ moved _ evicting_view s s' (delete p (st_pages (ev_store s))) (st_holds (ev_store s)) ∧
    marks _ evicting_view s s' (st_dirty (ev_store s) ∖ {[p]}) (ev_loose s).
Proof.
  intros [I Y] Hs Hp. destruct (@pl_dispose Store _ Store_laws (ev_store s) p I Hs Hp) as (rc & u & E & [M1 M2 M3 M4] & _).
  assert (rc = RC.SUCCESS ∧ st_dirty u = st_dirty (ev_store s)) as [-> D].
  { revert E. destruct Hs as [d Hd]. cbn. unfold st_dispose, st_pinned. mstep. rewrite Hd, bool_decide_eq_false_2 by done. by intros [= <- <-]. }
  cbn in M1, M2, M3, M4. exists RC.SUCCESS. unfold ev_dispose. rewrite (exec (lift_run _ _ _ _ E)). eexists. split; [reflexivity|].
  split; [|split; cbn; [rewrite D; set_solver|done]]. split; cbn; [|done..]. split; [done|]. intros q. cbn. rewrite M2, D.
  destruct (decide (p = q)) as [->|Hne]; [right; right; by rewrite !lookup_delete_eq|]. rewrite !lookup_delete_ne by done. apply Y.
Qed.

#[global] Instance Evicting_laws : IndexPoolLaws Evicting.
Proof.
  refine {| pv := evicting_view |}; cbn [v_inv v_pages v_holds v_free v_dirty v_loose evicting_view].
  - by intros s ((H & _) & _).
  - intros s p I Hp. destruct (store_get _ p (proj1 I) Hp) as (u & E & M & D). apply (lift_ok _ s _ u _ I E M). by rewrite D.
  - intros s n I Hn. destruct (ev_allocate_ok s n I Hn) as (p & s' & E & I' & L & Ea).
    destruct (@pl_allocate Store _ Store_laws (ev_store s) n (proj1 I) Hn) as (p' & d & u & E' & H1 & H2 & _ & H4 & H5 & H6 & [H7 _] & H8 & H9 & H10).
    cbn in E'. rewrite Ea in E'. injection E' as <- <-. exists p, d, s'. split_and!; try done; [apply I'|apply I'| |etrans; [exact (lift_run _ _ _ _ H8)|by destruct s']].
    split; [exact H7|]. cbn. by rewrite L.
  - apply ev_unpin_ok.
  - intros s p d I Hp Hd. pose proof (@pl_data Store _ Store_laws (ev_store s) p d (proj1 I) Hp Hd) as E. cbn in *. rewrite (lift_run _ _ _ _ E). by destruct s.
  - apply ev_put_ok.
  - intros s p [I Y] Hp. destruct (@pl_mark_dirty Store _ Store_laws (ev_store s) p I Hp) as (u & E & [M1 M2 M3 M4] & [D _]). cbn in M1, M2, M3, M4, D.
    cbn [ip_mark_dirty Evicting_pool]. unfold ev_mark_dirty. rewrite (exec (lift_run _ _ _ _ E)). eexists. split; [done|]. split; [|by split].
    split; cbn; [|done..]. split; [done|]. intros q. cbn. rewrite M2. destruct (decide (q = p)) as [->|Hne]; [left; set_solver|].
    destruct (Y q) as [?|[?|?]]; [left|right; left|by (right; right)]; set_solver.
  - intros s m p I Hm. destruct (@pl_latch Store _ Store_laws (ev_store s) m p (proj1 I) Hm) as (u & E & M & [D _]). by apply (lift_ok _ s _ u).
  - intros s p I Hm. destruct (@pl_try_latch Store _ Store_laws (ev_store s) p (proj1 I) Hm) as (u & E & M & [D _]). by apply (lift_ok _ s _ u).
  - intros s m p rest I Hp Hpin. destruct (@pl_unlatch Store _ Store_laws (ev_store s) m p rest (proj1 I) Hp Hpin) as (u & E & M & [D _]). by apply (lift_ok _ s _ u).
  - apply ev_dispose_ok.
  - intros s _. by exists 1.
  - intros s p l I. destruct (@pl_set_lsn Store _ Store_laws (ev_store s) p l (proj1 I)) as (u & E & M & [D _]). by apply (lift_ok _ s _ u).
  - intros s payload I. destruct (@pl_append_log Store _ Store_laws (ev_store s) payload (proj1 I)) as (rc & lsn & u & E & M & [D _]). exists rc, lsn. by apply (lift_ok _ s _ u).
Defined.
