(* ===== verification/IndexSteps.v ===== *)
(** * Steps of a mini transaction

    The state of a tree during a mini transaction is described by the nodes in its
    pages and a ghost record of what is held, marked and left.  One lemma for each call
    of the pool, of the latch memo and of the node handlers says which nodes and which
    ghost record it leads to. *)

From S2P Require Import Prelude Types Bytes RecordPage IndexKey IndexNode IndexNodeSpec IndexPool IndexLog BplusTree IndexLaws.
Local Open Scope Z_scope.

(** ** The ghost record *)
Record ghost : Type := mkGhost {
  g_header : IndexFileHeader;
  (** The items of the latch memo, and what the thread holds beside them. *)
  g_items : list LatchMemoItem;
  g_extra : list LatchMemoItem;
  (** All latches are of one kind; the root lock without the memo's item. *)
  g_mode : ReadWriteMode;
  g_lock : RootLock;
  g_disposed : list PageNum;
  (** Allocated pages that are no nodes yet. *)
  g_raw : gset PageNum;
  g_dirty : gset PageNum;
  g_loose : gset PageNum;
  g_free : nat
}.

Definition touch (p : PageNum) (g : ghost) : ghost :=
  mkGhost (g_header g) (g_items g) (g_extra g) (g_mode g) (g_lock g) (g_disposed g) (g_raw g) (g_dirty g)
    (if decide (p ∈ g_dirty g) then g_loose g else {[p]} ∪ g_loose g) (g_free g).
Definition soil (p : PageNum) (g : ghost) : ghost :=
  mkGhost (g_header g) (g_items g) (g_extra g) (g_mode g) (g_lock g) (g_disposed g) (g_raw g) ({[p]} ∪ g_dirty g)
    (g_loose g ∖ {[p]}) (g_free g).
Definition push (i : LatchMemoItem) (g : ghost) : ghost :=
  mkGhost (g_header g) (g_items g ++ [i]) (g_extra g) (g_mode g) (g_lock g) (g_disposed g) (g_raw g) (g_dirty g) (g_loose g) (g_free g).
Definition with_extra (l : list LatchMemoItem) (g : ghost) : ghost :=
  mkGhost (g_header g) (g_items g) l (g_mode g) (g_lock g) (g_disposed g) (g_raw g) (g_dirty g) (g_loose g) (g_free g).
Definition with_raw (r : gset PageNum) (free : nat) (g : ghost) : ghost :=
  mkGhost (g_header g) (g_items g) (g_extra g) (g_mode g) (g_lock g) (g_disposed g) r (g_dirty g) (g_loose g) free.
Definition with_header (h : IndexFileHeader) (g : ghost) : ghost :=
  mkGhost h (g_items g) (g_extra g) (g_mode g) (g_lock g) (g_disposed g) (g_raw g) (g_dirty g) (g_loose g) (g_free g).
Definition with_disposed (l : list PageNum) (g : ghost) : ghost :=
  mkGhost (g_header g) (g_items g) (g_extra g) (g_mode g) (g_lock g) l (g_raw g) (g_dirty g) (g_loose g) (g_free g).
Definition with_memo (l : list LatchMemoItem) (d : gset PageNum) (g : ghost) : ghost :=
  mkGhost (g_header g) l (g_extra g) (g_mode g) (g_lock g) (g_disposed g) (g_raw g) d (g_loose g) (g_free g).

Lemma touch_dirty p g : p ∈ g_dirty g → touch p g = g.
Proof. intros H. unfold touch. rewrite decide_True by done. by destruct g. Qed.

Definition is_lock (i : LatchMemoItem) : bool := match i with MemoLock _ => true | _ => false end.
Definition frame_items (l : list LatchMemoItem) : list LatchMemoItem := filter (λ i, is_lock i = false) l.
Definition lock_items (l : list LatchMemoItem) : list ReadWriteMode :=
  omap (λ i, match i with MemoLock m => Some m | _ => None end) l.

(** A latch is taken on a page that was pinned before. *)
Definition pins_first (l : list LatchMemoItem) : Prop :=
  ∀ i m p, l !! i = Some (MemoLatch m p) → MemoPin p ∈ take i l.
Definition latches_pinned (l : list LatchMemoItem) : Prop := ∀ m p, MemoLatch m p ∈ l → MemoPin p ∈ l.

Definition header_page (d : list Z) (hd : IndexFileHeader) : Prop := page_ok d ∧ index_header_of d = Some hd.

Section steps.
Context {S : Type} `{!IndexPool S, !IndexPoolLaws S}.
Notation Tree := (Tree S).
Implicit Types (T : Tree) (N : gmap PageNum node) (g : ghost) (p q : PageNum) (n : node).
Local Notation pages T := (v_pages S pv (t_pool T)).

(** The state is described by nodes and a ghost record. *)
Record st T N g : Prop := {
  s_inv : v_inv S pv (t_pool T);
  s_index : index_ok (g_header g);
  s_nodes : map_Forall (λ p n, ∃ d, pages T !! p = Some d ∧ rep (g_header g) n d) N;
  s_raw : ∀ p, p ∈ g_raw g → is_Some (pages T !! p) ∧ N !! p = None ∧ p ≠ FIRST_INDEX_PAGE;
  s_header : file_header_ T = g_header g;
  s_first : N !! FIRST_INDEX_PAGE = None ∧ ∃ d, pages T !! FIRST_INDEX_PAGE = Some d ∧ header_page d (g_header g);
  s_items : items_ T = g_items g;
  s_holds : v_holds S pv (t_pool T) ≡ₚ frame_items (g_items g) ++ g_extra g;
  s_memo : pins_first (g_items g) ∧ latches_pinned (g_extra g);
  s_mode : ∀ m p, MemoLatch m p ∈ g_items g ++ g_extra g → m = g_mode g;
  s_lock : (lock_items (g_items g) = [] ∧ root_lock_ T = g_lock g) ∨
           (∃ m, lock_items (g_items g) = [m] ∧ lock_root m (g_lock g) = Some (root_lock_ T));
  s_disposed : disposed_pages_ T = g_disposed g;
  s_dirty : g_dirty g ⊆ v_dirty S pv (t_pool T);
  s_loose : v_loose S pv (t_pool T) ⊆ g_loose g;
  s_free : (g_free g ≤ v_free S pv (t_pool T))%nat
}.

Definition pinned g p : Prop := MemoPin p ∈ g_items g ∨ MemoPin p ∈ g_extra g.

Lemma frame_items_elem i l : is_lock i = false → i ∈ frame_items l ↔ i ∈ l.
Proof. intros H. unfold frame_items. rewrite list_elem_of_filter. naive_solver. Qed.

Lemma st_pinned T N g p : st T N g → pinned g p → MemoPin p ∈ v_holds S pv (t_pool T).
Proof. intros I Hp. rewrite (s_holds _ _ _ I), elem_of_app, frame_items_elem by done. exact Hp. Qed.

(** ** Reading and changing a page *)
Lemma read_page T N g p n : st T N g → pinned g p → N !! p = Some n →
  ∃ d, rep (g_header g) n d ∧ ∀ A (f : list Z → option A) a, f d = Some a → read p f T = Some (a, T).
Proof.
  intros I Hp Hn. destruct (s_nodes _ _ _ I p n Hn) as (d & Hd & R). exists d. split; [done|]. intros A f a Hf.
  unfold read, node_data, pool. mstep. rewrite (pl_data S _ p d (s_inv _ _ _ I) (st_pinned _ _ _ _ I Hp) Hd).
  rewrite Hf. by destruct T.
Qed.

Lemma read_ok {A} T N g p n (f : list Z → option A) a :
  st T N g → pinned g p → N !! p = Some n → (∀ d, rep (g_header g) n d → f d = Some a) → read p f T = Some (a, T).
Proof.
  intros I Hp Hn Hf. destruct (read_page T N g p n I Hp Hn) as (d & R & Hr). by apply Hr, Hf.
Qed.

(** The state after a call of the pool that keeps what is held. *)
Lemma st_same T N g s :
  st T N g → moved S pv (t_pool T) s (pages T) (v_holds S pv (t_pool T)) →
  marks S pv (t_pool T) s (v_dirty S pv (t_pool T)) (v_loose S pv (t_pool T)) → st (set_pool s T) N g.
Proof.
  intros I [M1 M2 M3 M4] [K1 K2]. destruct I. split; cbn; try done.
  - by rewrite M2.
  - by rewrite M2.
  - by rewrite M2.
  - by rewrite M3.
  - etrans; [|exact K1]. done.
  - etrans; [exact K2|]. done.
  - lia.
Qed.

Lemma touch_loose p g (dy lo : gset PageNum) :
  g_dirty g ⊆ dy → lo ⊆ g_loose g → (if decide (p ∈ dy) then lo else {[p]} ∪ lo) ⊆ g_loose (touch p g).
Proof.
  intros H1 H2. unfold touch. cbn. destruct (decide (p ∈ g_dirty g)) as [Hg|Hg].
  - rewrite decide_True by (by apply H1). done.
  - case_decide; set_solver.
Qed.

(** Storing chars in a page that is no header. *)
Lemma put_ok T N g p n d :
  st T N g → pinned g p → p ≠ FIRST_INDEX_PAGE → is_Some (pages T !! p) → rep (g_header g) n d →
  ∃ T', pool (ip_put_data p d) T = Some (tt, T') ∧ st T' (<[p := n]> N) (with_raw (g_raw g ∖ {[p]}) (g_free g) (touch p g)).
Proof.
  intros I Hp Hf Hd0 R.
  assert (page_ok d) as Hok by (split; [by eapply rep_length|by eapply rep_chars]).
  destruct (pl_put S _ p d (s_inv _ _ _ I) (st_pinned _ _ _ _ I Hp) Hd0 Hok) as (s' & E & [M1 M2 M3 M4] & [K1 K2]).
  exists (set_pool s' T). split; [unfold pool; by rewrite E|]. destruct I. split; cbn; try done.
  - rewrite M2. intros q m Hm. apply lookup_insert_Some in Hm as [[<- <-]|[Hne Hm]]; [exists d; by rewrite lookup_insert_eq|].
    rewrite lookup_insert_ne by done. by apply s_nodes0.
  - intros q Hq. apply elem_of_difference in Hq as [Hq Hne]. rewrite not_elem_of_singleton in Hne. rewrite M2.
    rewrite !lookup_insert_ne by done. by apply s_raw0.
  - rewrite M2, !lookup_insert_ne by done. done.
  - by rewrite M3.
  - by etrans.
  - etrans; [exact K2|]. by apply touch_loose.
  - lia.
Qed.

Lemma insert_raw T N g p n : st T N g → N !! p = Some n → g_raw g ∖ {[p]} = g_raw g.
Proof.
  intros I Hn. apply set_eq. intros q. rewrite elem_of_difference, not_elem_of_singleton. split; [tauto|]. intros Hq.
  split; [done|]. intros ->. destruct (s_raw _ _ _ I p Hq) as (_ & Hn' & _). congruence.
Qed.

Lemma st_not_first T N g p n : st T N g → N !! p = Some n → p ≠ FIRST_INDEX_PAGE.
Proof. intros I Hn ->. destruct (s_first _ _ _ I) as [H _]. congruence. Qed.

(** A node is changed. *)
Lemma update_ok T N g p n n' f :
  st T N g → pinned g p → N !! p = Some n →
  (∀ d, rep (g_header g) n d → ∃ d', f d = Some d' ∧ rep (g_header g) n' d') →
  ∃ T', update p f T = Some (tt, T') ∧ st T' (<[p := n']> N) (touch p g).
Proof.
  intros I Hp Hn Hf. destruct (s_nodes _ _ _ I p n Hn) as (d & Hd & R). destruct (Hf d R) as (d' & Ef & R').
  destruct (put_ok T N g p n' d' I Hp (st_not_first _ _ _ _ _ I Hn) ltac:(by eexists) R') as (T' & E & I').
  exists T'. split.
  - unfold update, node_data. erewrite (bind_run (pool (ip_data p)) _ T d T); [|unfold pool; rewrite (pl_data S _ p d (s_inv _ _ _ I) (st_pinned _ _ _ _ I Hp) Hd); by destruct T].
    rewrite Ef. exec_deref. exact E.
  - rewrite (insert_raw _ _ _ _ _ I Hn) in I'. by destruct g.
Qed.

(** An allocated page becomes a node. *)
Lemma update_raw_ok T N g p n' f :
  st T N g → pinned g p → p ∈ g_raw g →
  (∀ d, page_ok d → ∃ d', f d = Some d' ∧ rep (g_header g) n' d') →
  ∃ T', update p f T = Some (tt, T') ∧ st T' (<[p := n']> N) (with_raw (g_raw g ∖ {[p]}) (g_free g) (touch p g)).
Proof.
  intros I Hp Hr Hf. destruct (s_raw _ _ _ I p Hr) as ([d Hd] & Hn & Hfi).
  destruct (pl_pages S _ (s_inv _ _ _ I) p d Hd) as [_ Hok]. destruct (Hf d Hok) as (d' & Ef & R').
  destruct (put_ok T N g p n' d' I Hp Hfi ltac:(by eexists) R') as (T' & E & I'). exists T'. split; [|done].
  unfold update, node_data. erewrite (bind_run (pool (ip_data p)) _ T d T); [|unfold pool; rewrite (pl_data S _ p d (s_inv _ _ _ I) (st_pinned _ _ _ _ I Hp) Hd); by destruct T].
  rewrite Ef. exec_deref. exact E.
Qed.

(** ** Calls that leave the pages alone *)
Lemma header_ok T N g : st T N g → file_header T = Some (g_header g, T).
Proof. intros I. unfold file_header, gets. by rewrite (s_header _ _ _ I). Qed.

Lemma log_ok T N g e : st T N g → ∃ T', append_log_entry e T = Some (RC.SUCCESS, T') ∧ st T' N g.
Proof.
  intros I. unfold append_log_entry. mstep. destruct (need_log_ T); mstep; eexists; (split; [done|]); [|done].
  by destruct I.
Qed.

Lemma mark_dirty_ok T N g p : st T N g → pinned g p → ∃ T', mark_dirty p T = Some (tt, T') ∧ st T' N (soil p g).
Proof.
  intros I Hp. destruct (pl_mark_dirty S _ p (s_inv _ _ _ I) (st_pinned _ _ _ _ I Hp)) as (s' & E & [M1 M2 M3 M4] & [K1 K2]).
  exists (set_pool s' T). split; [unfold mark_dirty, pool; by rewrite E|]. destruct I. split; cbn; try done.
  - by rewrite M2.
  - by rewrite M2.
  - by rewrite M2.
  - by rewrite M3.
  - set_solver.
  - set_solver.
  - lia.
Qed.

Lemma pins_first_snoc l i : pins_first l → (∀ m p, i = MemoLatch m p → MemoPin p ∈ l) → pins_first (l ++ [i]).
Proof.
  intros Hl Hi k m p Hk. destruct (decide (k < length l)%nat) as [Hlt|Hge].
  - rewrite lookup_app_l in Hk by done. rewrite take_app_le by lia. by apply (Hl k m).
  - rewrite lookup_app_r in Hk by lia. apply list_lookup_singleton_Some in Hk as [Hk ->].
    rewrite take_app_ge by lia. apply elem_of_app. left. by apply (Hi m).
Qed.

Lemma frame_items_app l l' : frame_items (l ++ l') = frame_items l ++ frame_items l'.
Proof. apply list.filter_app. Qed.
Lemma lock_items_app l l' : lock_items (l ++ l') = lock_items l ++ lock_items l'.
Proof. apply omap_app. Qed.

(** An item goes to the end of the memo. *)
Lemma push_ok T N g i s :
  st T N g → is_lock i = false → (∀ m p, i = MemoLatch m p → MemoPin p ∈ g_items g ∧ m = g_mode g) →
  moved S pv (t_pool T) s (pages T) (i :: v_holds S pv (t_pool T)) →
  marks S pv (t_pool T) s (v_dirty S pv (t_pool T)) (v_loose S pv (t_pool T)) →
  ∃ T', add_item i (set_pool s T) = Some (tt, T') ∧ st T' N (push i g).
Proof.
  intros I Hi Hm [M1 M2 M3 M4] [K1 K2]. eexists. split; [done|]. destruct I. split; cbn; try done.
  - by rewrite M2.
  - by rewrite M2.
  - by rewrite M2.
  - by rewrite s_items0.
  - rewrite M3, s_holds0, frame_items_app. unfold frame_items at 3. rewrite filter_cons, decide_True by done. cbn.
    rewrite <-app_assoc. by apply Permutation_middle.
  - split; [|apply s_memo0]. apply pins_first_snoc; [apply s_memo0|]. intros m p E. by apply (Hm m).
  - intros m p Hin. rewrite <-app_assoc, !elem_of_app, list_elem_of_singleton in Hin.
    destruct Hin as [Hin|[<-|Hin]]; [|by apply (Hm m p)|]; apply (s_mode0 m p), elem_of_app; auto.
  - rewrite lock_items_app. replace (lock_items [i]) with (@nil ReadWriteMode) by (by destruct i). by rewrite app_nil_r.
  - by etrans.
  - by etrans.
  - lia.
Qed.

Lemma memo_get_raw T N g p : st T N g → is_Some (pages T !! p) →
  ∃ T', memo_get_page p T = Some (RC.SUCCESS, T') ∧ st T' N (push (MemoPin p) g).
Proof.
  intros I Hp. destruct (pl_get S _ p (s_inv _ _ _ I) Hp) as (s & E & M & K).
  destruct (push_ok T N g (MemoPin p) s I eq_refl ltac:(done) M K) as (T' & E' & I'). exists T'. split; [|done].
  unfold memo_get_page. erewrite (bind_run (pool _)); [|unfold pool; by rewrite E]. rewrite bool_decide_eq_false_2 by (by intros []).
  by rewrite (exec E').
Qed.

Lemma memo_get_ok T N g p n : st T N g → N !! p = Some n →
  ∃ T', memo_get_page p T = Some (RC.SUCCESS, T') ∧ st T' N (push (MemoPin p) g).
Proof. intros I Hn. apply memo_get_raw; [done|]. destruct (s_nodes _ _ _ I p n Hn) as (d & Hd & _). by exists d. Qed.

Lemma memo_latch_ok T N g p : st T N g → MemoPin p ∈ g_items g →
  ∃ T', memo_latch (g_mode g) p T = Some (tt, T') ∧ st T' N (push (MemoLatch (g_mode g) p) g).
Proof.
  intros I Hp. destruct (pl_latch S _ (g_mode g) p (s_inv _ _ _ I)) as (s & E & M & K).
  { split; [apply (st_pinned _ _ _ _ I); by left|]. rewrite (s_holds _ _ _ I), elem_of_app, frame_items_elem by done.
    rewrite <-elem_of_app. intros Hm. pose proof (s_mode _ _ _ I _ _ Hm) as E. by destruct (g_mode g). }
  destruct (push_ok T N g (MemoLatch (g_mode g) p) s I eq_refl) as (T' & E' & I'); [by intros m q [= -> ->]|done|done|].
  exists T'. split; [|done]. unfold memo_latch. erewrite (bind_run (pool _)); [|unfold pool; by rewrite E]. exact E'.
Qed.

Lemma memo_allocate_ok T N g k : st T N g → g_free g = Datatypes.S k →
  ∃ p T', memo_allocate_page T = Some ((RC.SUCCESS, p), T') ∧ st T' N (push (MemoPin p) (with_raw ({[p]} ∪ g_raw g) k g)) ∧
    N !! p = None ∧ p ∉ g_raw g ∧ 0 ≤ p ≤ INT32_MAX ∧ ¬ pinned g p ∧ p ≠ FIRST_INDEX_PAGE.
Proof.
  intros I Hk. pose proof (s_free _ _ _ I) as Hfree. destruct (v_free S pv (t_pool T)) as [|f] eqn:Ef; [lia|].
  destruct (pl_allocate S _ f (s_inv _ _ _ I) Ef) as (p & d & s & E & Hp & Hd & I1 & P1 & H1 & F1 & [K1 K2] & E1 & Hnp & Hnl).
  assert (N !! p = None) as HNp.
  { destruct (N !! p) as [n|] eqn:En; [|done]. destruct (s_nodes _ _ _ I p n En) as (d' & Hd' & _). congruence. }
  assert (p ≠ FIRST_INDEX_PAGE) as Hfi.
  { intros ->. destruct (s_first _ _ _ I) as (_ & d' & Hd' & _). congruence. }
  assert (p ∉ g_raw g) as Hraw by (intros Hr; destruct (s_raw _ _ _ I p Hr) as ([? ?] & _); congruence).
  exists p. eexists. split_and!; try done.
  - unfold memo_allocate_page. erewrite (bind_run (pool _)); [|unfold pool; by rewrite E].
    cbn beta iota. rewrite bool_decide_eq_true_2 by done. unfold add_item. erewrite (bind_run (_ ≫= _)); [done|].
    erewrite (bind_run (modify _)) by done. erewrite (bind_run (pool _)); [|unfold pool; cbn; by rewrite E1]. done.
  - cbn. destruct I. split; cbn; try done.
    + rewrite P1. intros q n Hn. destruct (decide (p = q)) as [<-|Hne]; [congruence|]. rewrite lookup_insert_ne by done. by apply s_nodes0.
    + rewrite P1. intros q [->%elem_of_singleton|Hq]%elem_of_union; [by rewrite lookup_insert_eq|].
      rewrite lookup_insert_ne by (intros <-; done). by apply s_raw0.
    + split; [apply s_first0|]. rewrite P1, lookup_insert_ne by done. apply s_first0.
    + by rewrite s_items0.
    + rewrite H1, s_holds0, frame_items_app. unfold frame_items at 3. rewrite filter_cons, decide_True by done. cbn.
      rewrite <-app_assoc. by apply Permutation_middle.
    + split; [|apply s_memo0]. by apply pins_first_snoc; [apply s_memo0|].
    + intros m q Hin. rewrite <-app_assoc, !elem_of_app, list_elem_of_singleton in Hin.
      destruct Hin as [Hin|[Hin|Hin]]; [|done|]; apply (s_mode0 m q), elem_of_app; auto.
    + rewrite lock_items_app. cbn. by rewrite app_nil_r.
    + by etrans.
    + by etrans.
    + lia.
  - destruct (pl_pages S s I1 p d) as [? _]; [by rewrite P1, lookup_insert_eq|]. lia.
  - destruct (pl_pages S s I1 p d) as [? _]; [by rewrite P1, lookup_insert_eq|]. lia.
  - intros Hpin. by apply Hnp, (st_pinned _ _ _ _ I).
Qed.

(** ** The root lock *)
Lemma lock_unlock m l l' : lock_root m l = Some l' → unlock_root m l' = Some l.
Proof.
  destruct m, l as [|n|]; cbn; try done; intros [= <-]; [done| |done].
  destruct n as [n|n|]; [|done|done]. exact (f_equal (λ x, Some (LockedShared x)) (Pos.pred_succ (xI n))).
Qed.

Lemma latch_root_ok T N g m : st T N g → g_lock g = Unlocked → lock_items (g_items g) = [] →
  ∃ T', latch_root m T = Some (tt, T') ∧ st T' N (push (MemoLock m) g).
Proof.
  intros I Hl Hi. pose proof (s_lock _ _ _ I) as [[_ El]|(m' & E' & _)]; [|congruence].
  assert (∃ l, lock_root m Unlocked = Some l) as [l Hlk] by (destruct m; by eexists).
  unfold latch_root, root_lock. mstep. rewrite El, Hl, Hlk. eexists. split; [done|]. destruct I. split; cbn; try done.
  - by rewrite s_items0.
  - rewrite frame_items_app. cbn. by rewrite app_nil_r.
  - split; [|apply s_memo0]. by apply pins_first_snoc; [apply s_memo0|].
  - intros m' p Hin. rewrite <-app_assoc, !elem_of_app, list_elem_of_singleton in Hin.
    destruct Hin as [Hin|[Hin|Hin]]; [|done|]; apply (s_mode0 m' p), elem_of_app; auto.
  - right. exists m. rewrite lock_items_app, Hi. cbn. by rewrite Hl.
Qed.

(** ** Releasing *)
Lemma pins_first_nil : pins_first [].
Proof. by intros ? ? ? H%lookup_lt_Some%Nat.nlt_0_r. Qed.

Lemma pins_first_app l l' : pins_first l → pins_first l' → pins_first (l ++ l').
Proof.
  intros Hl Hl' k m p Hk. destruct (decide (k < length l)%nat) as [Hlt|Hge].
  - rewrite lookup_app_l in Hk by done. rewrite take_app_le by lia. by apply (Hl k m).
  - rewrite lookup_app_r in Hk by lia. rewrite take_app_ge by lia. apply elem_of_app. right. by apply (Hl' _ m).
Qed.

Lemma pins_first_prefix l l' : pins_first (l ++ l') → pins_first l.
Proof.
  intros Hl k m p Hk. pose proof (lookup_lt_Some _ _ _ Hk). rewrite <-(take_app_le l l') by lia. apply (Hl k m).
  by apply lookup_app_l_Some.
Qed.

Lemma pins_first_latched l m p : pins_first l → MemoLatch m p ∈ l → MemoPin p ∈ l.
Proof. intros Hl [k Hk]%list_elem_of_lookup. eapply elem_of_take_l, (Hl k m p Hk). Qed.

(** What is held without an item of the memo. *)
Lemma holds_without T N g l i rest :
  st T N g → g_items g = l ++ i :: rest → is_lock i = false →
  v_holds S pv (t_pool T) ≡ₚ i :: (frame_items (l ++ rest) ++ g_extra g).
Proof.
  intros I Ei Hi. rewrite (s_holds _ _ _ I), Ei, !frame_items_app. unfold frame_items at 2. rewrite filter_cons, decide_True by done.
  fold (frame_items rest). rewrite <-!app_assoc. cbn. symmetry. apply Permutation_middle.
Qed.

(** The state of the memo with one item less. *)
Definition without (l rest : list LatchMemoItem) (i : LatchMemoItem) g : ghost :=
  with_memo (l ++ rest) (match i with MemoPin p => g_dirty g ∖ {[p]} | _ => g_dirty g end) g.

Lemma release_item_ok T N g l i rest :
  st (set_items (l ++ i :: rest) T) N g → g_items g = l ++ i :: rest → pins_first rest → (∀ p, i = MemoPin p → p ∉ g_loose g) →
  ∃ T', release_item i T = Some (tt, T') ∧ st (set_items (l ++ rest) T') N (without l rest i g) ∧ items_ T' = items_ T.
Proof.
  intros I Ei Hrest Hlo. pose proof (s_memo _ _ _ I) as [Hpf Hex]. rewrite Ei in Hpf. pose proof (pins_first_prefix _ _ Hpf) as Hl.
  pose proof (pins_first_app _ _ Hl Hrest) as Hlr. pose proof (s_mode _ _ _ I) as Hmode. rewrite Ei in Hmode.
  assert (∀ m p, MemoLatch m p ∈ (l ++ rest) ++ g_extra g → m = g_mode g) as Hmode'.
  { intros m p. rewrite <-app_assoc, !elem_of_app. intros Hin. apply (Hmode m p). rewrite <-app_assoc, !elem_of_app, elem_of_cons. tauto. }
  set (R := frame_items (l ++ rest) ++ g_extra g) in *.
  assert (∀ m p, MemoLatch m p ∈ R → MemoPin p ∈ R) as HR.
  { intros m p. unfold R. rewrite !elem_of_app, !frame_items_elem by done. intros [Hin|Hin]; [left|right; by apply (Hex m)].
    by apply (pins_first_latched _ m). }
  pose proof (s_lock _ _ _ I) as HK. rewrite Ei, lock_items_app in HK.
  assert (is_lock i = false → lock_items (i :: rest) = lock_items rest) as Hlk by (by destruct i).
  assert (∀ s, is_lock i = false → moved S pv (t_pool T) s (pages T) R →
    v_loose S pv s ⊆ v_loose S pv (t_pool T) → (match i with MemoPin p => v_dirty S pv (t_pool T) ∖ {[p]} | _ => v_dirty S pv (t_pool T) end) ⊆ v_dirty S pv s →
    st (set_items (l ++ rest) (set_pool s T)) N (without l rest i g)) as Hst.
  { intros s Hi [M1 M2 M3 M4] K2 K1. rewrite Hlk in HK by done. destruct I. split; cbn; try done; try (by rewrite M2); [by rewrite lock_items_app|..].
    - destruct i; set_solver.
    - by etrans.
    - etrans; [exact s_free0|done]. }
  destruct i as [p|m p|m].
  - destruct (pl_unpin S (t_pool T) p R (s_inv _ _ _ I)) as (s & E & M & [K1 K2]).
    { by apply (holds_without _ _ _ _ _ _ I Ei). }
    { destruct (decide (MemoPin p ∈ R)) as [|Hn]; [by left|]. right. intros m Hm. by apply Hn, (HR m). }
    { intros Hin. apply (Hlo p eq_refl). by apply (s_loose _ _ _ I). }
    exists (set_pool s T). split_and!; [cbn; unfold pool; by rewrite E| |done]. by apply Hst.
  - destruct (pl_unlatch S (t_pool T) m p R (s_inv _ _ _ I)) as (s & E & M & [K1 K2]).
    { by apply (holds_without _ _ _ _ _ _ I Ei). }
    { unfold R. rewrite elem_of_app, frame_items_elem, elem_of_app by done. left. left.
      pose proof (Hpf (length l) m p) as Hk. rewrite take_app_length in Hk. apply Hk. by apply list_lookup_middle. }
    exists (set_pool s T). split_and!; [cbn; unfold pool; by rewrite E| |done]. by apply Hst.
  - cbn in HK. change (omap _ rest) with (lock_items rest) in HK. destruct HK as [[E _]|(m' & E & Hlm)]; [by destruct (lock_items l)|].
    destruct (lock_items l) as [|? [|??]] eqn:El; [|by destruct (lock_items rest)..]. cbn in E. injection E as <- Er.
    cbn [root_lock_ set_items] in Hlm. exists (set_root_lock (g_lock g) T). split_and!; [|split; cbn; try done; destruct I; cbn in *; try done|done].
    + cbn. unfold root_unlock. mstep. by rewrite (lock_unlock _ _ _ Hlm).
    + rewrite s_holds0, Ei, !frame_items_app. done.
    + left. by rewrite lock_items_app, El, Er.
Qed.

Lemma release_items_ok T N g l rest :
  st (set_items (l ++ rest) T) N g → g_items g = l ++ rest → pins_first rest → (∀ p, MemoPin p ∈ l → p ∉ g_loose g) →
  ∃ T' dy, release_items (rev l) T = Some (tt, T') ∧ st (set_items rest T') N (with_memo rest dy g) ∧ items_ T' = items_ T ∧
    (∀ p, p ∈ g_dirty g → MemoPin p ∉ l → p ∈ dy).
Proof.
  revert T g rest. induction l as [|i l IH] using rev_ind; intros T g rest I Ei Hr Hlo.
  - exists T, (g_dirty g). split_and!; try done. cbn in I, Ei. subst rest. by destruct g.
  - rewrite <-app_assoc in I, Ei. cbn in I, Ei.
    destruct (release_item_ok T N g l i rest I Ei Hr) as (T1 & E1 & I1 & Ei1).
    { intros p ->. apply Hlo, elem_of_app. right. left. }
    destruct (IH T1 (without l rest i g) rest I1 eq_refl Hr) as (T2 & dy & E2 & I2 & Ei2 & Hdy).
    { intros p Hp. apply Hlo, elem_of_app. by left. }
    exists T2, dy. rewrite rev_app_distr. cbn. rewrite (exec E1). split_and!; [done|done|congruence|].
    intros p Hp Hn. apply not_elem_of_app in Hn as [Hn Hi]. apply Hdy; [|done]. cbn. destruct i as [q| |]; [|done|done].
    apply elem_of_difference. split; [done|]. rewrite elem_of_singleton. intros ->. apply Hi. left.
Qed.

Lemma release_to_ok T N g l rest :
  st T N g → g_items g = l ++ rest → pins_first rest → (∀ p, MemoPin p ∈ l → p ∉ g_loose g) →
  ∃ T' dy, release_to (length l) T = Some (tt, T') ∧ st T' N (with_memo rest dy g) ∧ (∀ p, p ∈ g_dirty g → MemoPin p ∉ l → p ∈ dy).
Proof.
  intros I Ei Hr Hlo. pose proof (s_items _ _ _ I) as Eit.
  destruct (release_items_ok T N g l rest) as (T' & dy & E & I' & Ei' & Hdy); [|done|done|done|].
  { assert (set_items (l ++ rest) T = T) as ->; [|done]. rewrite <-Ei, <-Eit. by destruct T. }
  exists (set_items rest T'), dy. split_and!; [|done|done]. unfold release_to.
  erewrite (bind_run fetch) by done. rewrite Eit, Ei, take_app_length. rewrite bool_decide_eq_true_2 by (rewrite length_app; lia).
  erewrite (bind_run (assertb true)) by done. rewrite (exec E). unfold modify. by rewrite Ei', Eit, Ei, drop_app_length.
Qed.

(** ** Disposing of pages *)
Lemma memo_dispose_ok T N g p n : st T N g → N !! p = Some n →
  ∃ T', memo_dispose_page p T = Some (tt, T') ∧ st T' (delete p N) (with_disposed (g_disposed g ++ [p]) (with_raw ({[p]} ∪ g_raw g) (g_free g) g)).
Proof.
  intros I Hn. eexists. split; [done|]. pose proof (st_not_first _ _ _ _ _ I Hn) as Hf. destruct I. split; cbn; try done.
  - intros q m [_ Hm]%lookup_delete_Some. by apply s_nodes0.
  - intros q [->%elem_of_singleton|Hq]%elem_of_union.
    + rewrite lookup_delete_eq. split_and!; try done. destruct (s_nodes0 p n Hn) as (d & Hd & _). by eexists.
    + destruct (s_raw0 q Hq) as (H1 & H2 & H3). split_and!; try done. apply lookup_delete_None. by right.
  - destruct s_first0 as [H1 H2]. split; [|done]. apply lookup_delete_None. by right.
  - by rewrite s_disposed0.
Qed.

Lemma dispose_pages_ok T N g l :
  st T N g → g_items g = [] → g_extra g = [] → NoDup l → (∀ p, p ∈ l → p ∈ g_raw g) →
  ∃ T' dy, dispose_pages l T = Some (tt, T') ∧
    st T' N (with_memo [] dy (with_raw (g_raw g ∖ list_to_set l) (g_free g) g)).
Proof.
  revert T g. induction l as [|p l IH]; intros T g I Hi Hx Hnd Hraw.
  - exists T, (g_dirty g). split; [done|]. cbn. rewrite difference_empty_L. by destruct g; cbn in *; subst.
  - apply list.NoDup_cons in Hnd as [Hp Hnd]. destruct (s_raw _ _ _ I p) as (Hpg & HN & Hf); [apply Hraw; left|].
    assert (MemoPin p ∉ v_holds S pv (t_pool T)) as Hnp by (rewrite (s_holds _ _ _ I), Hi, Hx; apply not_elem_of_nil).
    destruct (pl_dispose S _ p (s_inv _ _ _ I) Hpg Hnp) as (rc & s & E & [M1 M2 M3 M4] & [K1 K2]).
    destruct (IH (set_pool s T) (with_memo [] (g_dirty g ∖ {[p]}) (with_raw (g_raw g ∖ {[p]}) (g_free g) g))) as (T' & dy & E' & I'); try done.
    + destruct I. split; cbn; try done.
      * rewrite M2. intros q m Hm. rewrite lookup_delete_ne by (intros <-; congruence). by apply s_nodes0.
      * rewrite M2. intros q [Hq Hne]%elem_of_difference. rewrite not_elem_of_singleton in Hne. rewrite lookup_delete_ne by done. by apply s_raw0.
      * split; [apply s_first0|]. rewrite M2, lookup_delete_ne by done. apply s_first0.
      * by rewrite s_items0, Hi.
      * by rewrite M3, s_holds0, Hi.
      * split; [|apply s_memo0]. apply pins_first_nil.
      * intros m q. rewrite Hx. by intros ?%not_elem_of_nil.
      * rewrite Hi in s_lock0. done.
      * set_solver.
      * by etrans.
      * lia.
    + intros q Hq. cbn. apply elem_of_difference. split; [apply Hraw; by right|]. rewrite elem_of_singleton. by intros ->.
    + exists T', dy. split; [cbn; erewrite (bind_run (pool _)); [exact E'|unfold pool; by rewrite E]|].
      cbn in *. unfold with_memo, with_raw in *. cbn in *. by rewrite difference_difference_l_L in I'.
Qed.

(** The end of a mini transaction. *)
Lemma memo_release_ok T N g :
  st T N g → g_extra g = [] → NoDup (g_disposed g) → (∀ p, p ∈ g_disposed g → p ∈ g_raw g) → g_loose g = ∅ →
  ∃ T' dy, release T = Some (tt, T') ∧
    st T' N (mkGhost (g_header g) [] [] (g_mode g) (g_lock g) [] (g_raw g ∖ list_to_set (g_disposed g)) dy ∅ (g_free g)).
Proof.
  intros I Hx Hnd Hraw Hlo.
  destruct (release_to_ok T N g (g_items g) []) as (T1 & dy1 & E1 & I1 & _); [done|by rewrite app_nil_r|apply pins_first_nil|rewrite Hlo; intros; apply not_elem_of_empty|].
  destruct (dispose_pages_ok T1 N _ (g_disposed g) I1 eq_refl Hx Hnd Hraw) as (T2 & dy2 & E2 & I2).
  exists (set_disposed [] T2), dy2. split.
  - unfold release. erewrite (bind_run memo_point) by done. rewrite (s_items _ _ _ I). rewrite (exec E1).
    erewrite (bind_run fetch) by done. rewrite (s_disposed _ _ _ I1). cbn [g_disposed with_memo]. by rewrite (exec E2).
  - unfold with_memo, with_raw in I2. cbn in I2. rewrite Hx, Hlo in I2. destruct I2. by split.
Qed.
End steps.
