(* ===== verification/IndexRoot.v ===== *)
(** * Steps at the root

    The page a new root is made in is pinned without the latch memo; the number of the
    root page is kept in the header page and in memory. *)

From S2P Require Import Prelude Types Bytes RecordPage IndexKey IndexNode IndexNodeSpec IndexPool IndexLog BplusTree IndexLaws IndexSteps.
Local Open Scope Z_scope.

Lemma header_page_root d hd r : header_page d hd → in_srange 32 r →
  ∃ d', set_i32 d 0 r = Some d' ∧ header_page d' (set_root_page r hd) ∧ get_i32 d 0 = Some (root_page hd).
Proof.
  intros [[Hl Hc] Hh] Hr. change BP_PAGE_DATA_SIZE with 8180 in Hl. destruct (set_i32_Some d 0 r) as [d' Hd']; [lia|].
  exists d'. unfold index_header_of in Hh. destruct (get_i32 d 0) as [r0|] eqn:E0; [|done]. cbn in Hh.
  split_and!; [done| |].
  - split; [split; [change BP_PAGE_DATA_SIZE with 8180; rewrite (set_i32_length _ _ _ _ Hd'); lia|by eapply set_i32_chars]|].
    unfold index_header_of. rewrite (get_set_i32 _ _ _ _ Hd' Hr). cbn [mbind option_bind].
    rewrite !(get_set_i32_other _ _ _ _ _ Hd') by lia.
    destruct (get_i32 d 4), (get_i32 d 8), (get_i32 d 12), (get_i32 d 16), (get_i32 d 20) as [t|]; try done. cbn in *.
    destruct (attr_type_of t); [|done]. cbn in *. by injection Hh as <-.
  - destruct (get_i32 d 4), (get_i32 d 8), (get_i32 d 12), (get_i32 d 16), (get_i32 d 20) as [t|]; try done. cbn in Hh.
    destruct (attr_type_of t); [|done]. cbn in Hh. by injection Hh as <-.
Qed.

Section root_steps.
Context {S : Type} `{!IndexPool S, !IndexPoolLaws S}.
Notation Tree := (Tree S).
Implicit Types (T : Tree) (N : gmap PageNum node) (g : ghost) (p q : PageNum) (n : node).
Local Notation pages T := (v_pages S pv (t_pool T)).

Lemma extra_allocate_ok T N g k : st T N g → g_free g = Datatypes.S k → g_extra g = [] →
  ∃ p T', pool ip_allocate_page T = Some ((RC.SUCCESS, p), T') ∧ st T' N (with_extra [MemoPin p] (with_raw ({[p]} ∪ g_raw g) k g)) ∧
    N !! p = None ∧ p ∉ g_raw g ∧ 0 ≤ p ≤ INT32_MAX ∧ ¬ pinned g p ∧ p ≠ FIRST_INDEX_PAGE.
Proof.
  intros I Hk Hx. pose proof (s_free _ _ _ I) as Hfree. destruct (v_free S pv (t_pool T)) as [|f] eqn:Ef; [lia|].
  destruct (pl_allocate S _ f (s_inv _ _ _ I) Ef) as (p & d & s & E & Hp & Hd & I1 & P1 & H1 & F1 & [K1 K2] & _ & Hnp & Hnl).
  assert (N !! p = None) as HNp.
  { destruct (N !! p) as [n|] eqn:En; [|done]. destruct (s_nodes _ _ _ I p n En) as (d' & Hd' & _). congruence. }
  assert (p ≠ FIRST_INDEX_PAGE) as Hfi.
  { intros ->. destruct (s_first _ _ _ I) as (_ & d' & Hd' & _). congruence. }
  assert (p ∉ g_raw g) as Hraw by (intros Hr; destruct (s_raw _ _ _ I p Hr) as ([? ?] & _); congruence).
  assert (0 ≤ p ≤ INT32_MAX) as Hrange by (destruct (pl_pages S s I1 p d) as [? _]; [by rewrite P1, lookup_insert_eq|done]).
  exists p, (set_pool s T). split; [unfold pool; by rewrite E|]. split; [|split_and!; try done; try lia; by intros Hpin; apply Hnp, (st_pinned _ _ _ _ I)].
  destruct I. split; cbn; try done.
  - rewrite P1. intros q n Hn. destruct (decide (p = q)) as [<-|Hne]; [congruence|]. rewrite lookup_insert_ne by done. by apply s_nodes.
  - rewrite P1. intros q [->%elem_of_singleton|Hq]%elem_of_union; [by rewrite lookup_insert_eq|].
    rewrite lookup_insert_ne by (intros <-; done). by apply s_raw.
  - split; [apply s_first|]. rewrite P1, lookup_insert_ne by done. apply s_first.
  - rewrite H1, s_holds, Hx, app_nil_r. by rewrite Permutation_cons_append.
  - split; [apply s_memo|]. intros m q Hq%list_elem_of_singleton. done.
  - intros m q. rewrite elem_of_app, list_elem_of_singleton. intros [Hin|?]; [|done]. apply (s_mode m q), elem_of_app. by left.
  - by etrans.
  - by etrans.
  - lia.
Qed.

Lemma extra_latch_ok T N g p : st T N g → g_extra g = [MemoPin p] →
  ∃ T', pool (ip_latch (g_mode g) p) T = Some (tt, T') ∧ st T' N (with_extra [MemoLatch (g_mode g) p; MemoPin p] g).
Proof.
  intros I Hx. destruct (pl_latch S _ (g_mode g) p (s_inv _ _ _ I)) as (s & E & [M1 M2 M3 M4] & [K1 K2]).
  { split; [apply (st_pinned _ _ _ _ I); right; rewrite Hx; left|]. rewrite (s_holds _ _ _ I), elem_of_app, frame_items_elem by done.
    rewrite <-elem_of_app. intros Hm. pose proof (s_mode _ _ _ I _ _ Hm) as E. by destruct (g_mode g). }
  exists (set_pool s T). split; [unfold pool; by rewrite E|]. destruct I. split; cbn; try done; try (by rewrite M2).
  - rewrite M3, s_holds, Hx. apply Permutation_middle.
  - split; [apply s_memo|]. intros m q [[= _ <-]|Hq]%elem_of_cons; [right; left|by apply list_elem_of_singleton in Hq].
  - intros m q. rewrite elem_of_app, !elem_of_cons. intros [Hin|[[= -> _]|[?|?%not_elem_of_nil]]]; try done.
    apply (s_mode m q), elem_of_app. by left.
  - by etrans.
  - by etrans.
  - lia.
Qed.

Lemma extra_unlatch_ok T N g p : st T N g → g_extra g = [MemoLatch (g_mode g) p; MemoPin p] →
  ∃ T', pool (ip_unlatch (g_mode g) p) T = Some (tt, T') ∧ st T' N (with_extra [MemoPin p] g).
Proof.
  intros I Hx. destruct (pl_unlatch S _ (g_mode g) p (frame_items (g_items g) ++ [MemoPin p]) (s_inv _ _ _ I)) as (s & E & [M1 M2 M3 M4] & [K1 K2]).
  { rewrite (s_holds _ _ _ I), Hx. symmetry. apply Permutation_middle. }
  { apply elem_of_app. right. left. }
  exists (set_pool s T). split; [unfold pool; by rewrite E|]. destruct I. split; cbn; try done; try (by rewrite M2).
  - split; [apply s_memo|]. by intros m q Hq%list_elem_of_singleton.
  - intros m q. rewrite elem_of_app, list_elem_of_singleton. intros [Hin|?]; [|done]. apply (s_mode m q), elem_of_app. by left.
  - by etrans.
  - by etrans.
  - lia.
Qed.

Lemma extra_unpin_ok T N g p : st T N g → g_extra g = [MemoPin p] → p ∉ g_loose g →
  ∃ T', pool (ip_unpin_page p) T = Some (tt, T') ∧ st T' N (with_memo (g_items g) (g_dirty g ∖ {[p]}) (with_extra [] g)).
Proof.
  intros I Hx Hlo. destruct (pl_unpin S _ p (frame_items (g_items g)) (s_inv _ _ _ I)) as (s & E & [M1 M2 M3 M4] & [K1 K2]).
  { rewrite (s_holds _ _ _ I), Hx. symmetry. apply Permutation_cons_append. }
  { destruct (decide (MemoPin p ∈ g_items g)) as [Hin|Hn]; [left; by apply frame_items_elem|]. right. intros m. rewrite frame_items_elem by done.
    intros Hm. apply Hn. by eapply pins_first_latched; [apply (s_memo _ _ _ I)|]. }
  { intros Hin. by apply Hlo, (s_loose _ _ _ I). }
  exists (set_pool s T). split; [unfold pool; by rewrite E|]. destruct I. split; cbn; try done; try (by rewrite M2).
  - by rewrite M3, app_nil_r.
  - split; [apply s_memo|]. by intros m q Hq%not_elem_of_nil.
  - intros m q. rewrite app_nil_r. intros Hin. apply (s_mode m q), elem_of_app. by left.
  - set_solver.
  - by etrans.
  - lia.
Qed.

(** The number of the root page. *)
Definition rooted (r : PageNum) g : ghost :=
  soil FIRST_INDEX_PAGE (with_header (set_root_page r (g_header g))
    (touch FIRST_INDEX_PAGE (push (MemoLatch (g_mode g) FIRST_INDEX_PAGE) (push (MemoPin FIRST_INDEX_PAGE) g)))).

Lemma update_root_ok T N g r : st T N g → g_mode g = READ_WRITE → in_srange 32 r →
  ∃ T', update_root_page_num_locked r T = Some (tt, T') ∧ st T' N (rooted r g).
Proof.
  intros I Hmode Hr. destruct (s_first _ _ _ I) as (Hn & d & Hd & Hh).
  destruct (memo_get_raw T N g FIRST_INDEX_PAGE I) as (T1 & E1 & I1); [by eexists|].
  destruct (memo_latch_ok T1 N _ FIRST_INDEX_PAGE I1) as (T2 & E2 & I2); [cbn; apply elem_of_app; right; left|]. cbn [g_mode push] in E2, I2.
  set (g2 := push (MemoLatch (g_mode g) FIRST_INDEX_PAGE) (push (MemoPin FIRST_INDEX_PAGE) g)) in *.
  destruct (s_first _ _ _ I2) as (_ & d2 & Hd2 & Hh2). destruct (header_page_root d2 (g_header g2) r Hh2 Hr) as (d' & Ed & Hh' & Eold).
  assert (pinned g2 FIRST_INDEX_PAGE) as Hp by (left; cbn; rewrite !elem_of_app; left; right; left).
  assert (node_data FIRST_INDEX_PAGE T2 = Some (d2, T2)) as Edata.
  { unfold node_data, pool. rewrite (pl_data S _ _ d2 (s_inv _ _ _ I2) (st_pinned _ _ _ _ I2 Hp) Hd2). by destruct T2. }
  destruct (log_ok T2 N g2 (UpdateRootPage FIRST_INDEX_PAGE r (root_page (g_header g2))) I2) as (T3 & E3 & I3).
  destruct (s_first _ _ _ I3) as (_ & d3 & Hd3 & Hh3). destruct (header_page_root d3 (g_header g2) r Hh3 Hr) as (d3' & Ed3 & Hh3' & _).
  destruct (pl_put S _ FIRST_INDEX_PAGE d3' (s_inv _ _ _ I3) (st_pinned _ _ _ _ I3 Hp) ltac:(by eexists) (proj1 Hh3')) as (s4 & E4 & [M1 M2 M3 M4] & [K1 K2]).
  set (T4 := set_file_header (set_root_page r (g_header g2)) true (set_pool s4 T3)).
  assert (st T4 N (with_header (set_root_page r (g_header g)) (touch FIRST_INDEX_PAGE g2))) as I4.
  { destruct I3. split; cbn; try done.
    - by destruct s_index.
    - rewrite M2. intros q m Hm. rewrite lookup_insert_ne by (intros <-; congruence). by apply s_nodes.
    - rewrite M2. intros q Hq. destruct (s_raw q Hq) as (? & ? & Hne). by rewrite lookup_insert_ne.
    - split; [done|]. rewrite M2, lookup_insert_eq. by exists d3'.
    - by rewrite M3.
    - by etrans.
    - etrans; [exact K2|]. by apply touch_loose.
    - etrans; [exact s_free|exact M4]. }
  destruct (mark_dirty_ok T4 N _ FIRST_INDEX_PAGE I4 Hp) as (T5 & E5 & I5). exists T5. split; [|done].
  unfold update_root_page_num_locked. rewrite (exec E1). change (RC.OB_SUCC RC.SUCCESS) with true. erewrite (bind_run (assertb true)) by done.
  unfold xlatch. rewrite <-Hmode, (exec E2).
  erewrite (bind_run (read _ _)); [|unfold read; rewrite (exec Edata); by rewrite Eold]. rewrite (exec E3).
  erewrite (bind_run (update _ _)).
  2:{ unfold update, node_data. erewrite (bind_run (pool _) _ T3 d3 T3); [|unfold pool; rewrite (pl_data S _ _ d3 (s_inv _ _ _ I3) (st_pinned _ _ _ _ I3 Hp) Hd3); by destruct T3].
      rewrite Ed3. exec_deref. unfold pool. by rewrite E4. }
  erewrite (bind_run (modify _)) by done. rewrite <-E5. unfold T4. do 2 f_equal. cbn. by rewrite (s_header _ _ _ I3).
Qed.
End root_steps.
