(* ===== verification/IndexNodeOps.v ===== *)
(** * The node handlers on nodes

    What the methods of [LeafIndexNodeHandler] and [InternalIndexNodeHandler] do to
    the nodes of a mini transaction: which items go where, that every change is logged
    before it is made, and which pages are left changed. *)

From S2P Require Import Prelude Types Bytes RecordPage IndexKey IndexNode IndexNodeSpec IndexPool IndexLog BplusTree IndexLaws IndexSteps.
Local Open Scope Z_scope.

Definition leaf_item (key : list Z) (rid : RID) : list Z := key ++ rid_bytes rid.

Lemma item_room h leaf m : index_ok h → Z.of_nat m ≤ max_size h leaf →
  hdr_size leaf + Z.of_nat m * item_size h (kind leaf) ≤ BP_PAGE_DATA_SIZE.
Proof.
  intros HI Hm. pose proof (key_length_pos h HI). pose proof (item_size_pos h (kind leaf)). destruct HI, leaf; cbn in *; nia.
Qed.

(** The next call appends a log entry. *)
Tactic Notation "log_step" hyp(I) "as" ident(T1) ident(I1) :=
  match goal with
  | |- context [(append_log_entry ?e ≫= _) ?T] =>
      let E := fresh in destruct (log_ok T _ _ e I) as (T1 & E & I1); rewrite (exec E); clear E;
      change (RC.OB_FAIL RC.SUCCESS) with false; cbn iota
  end.

Lemma alter_insert_some (f : node → node) (p : PageNum) (N : gmap PageNum node) n : N !! p = Some n → alter f p N = <[p := f n]> N.
Proof.
  intros Hn. apply map_eq. intros q. destruct (decide (p = q)) as [<-|]; [by rewrite lookup_insert_eq, lookup_alter_eq, Hn|].
  by rewrite lookup_insert_ne, lookup_alter_ne.
Qed.

(** Taking the last items away is no more than a smaller count. *)
Lemma rep_shrink h n d i : index_ok h → rep h n d → (i ≤ length (nd_items n))%nat →
  ∃ d', increase_size d (- (Z.of_nat (length (nd_items n)) - Z.of_nat i)) = Some d' ∧ rep h (with_items (take i (nd_items n)) n) d'.
Proof.
  intros HI R Hi. destruct (rep_remove h HI n d i (length (nd_items n) - i) R ltac:(lia)) as (d' & E & R').
  rewrite drop_ge, app_nil_r in R' by lia. exists d'. split; [|done]. unfold recover_remove_items in E.
  rewrite (rep_size h HI n d R) in E. cbn [mbind option_bind] in E. rewrite (proj2 (Z.ltb_ge _ _)) in E by lia. cbn [mbind option_bind] in E.
  by rewrite Nat2Z.inj_sub in E by lia.
Qed.

(** Frames that are pinned and marked: what a step that works on other frames leaves. *)
Record grows (k : nat) (g g' : ghost) : Prop := {
  gr_header : g_header g' = g_header g;
  gr_items : ∃ l, g_items g' = g_items g ++ l;
  gr_extra : g_extra g' = g_extra g;
  gr_mode : g_mode g' = g_mode g;
  gr_lock : g_lock g' = g_lock g;
  gr_disposed : g_disposed g' = g_disposed g;
  gr_raw : g_raw g' = g_raw g;
  gr_dirty : g_dirty g ⊆ g_dirty g';
  gr_loose : g_loose g' ⊆ g_loose g;
  gr_free : g_free g = (k + g_free g')%nat
}.

Lemma grows_refl g : grows 0 g g.
Proof. split; try done. exists []. by rewrite app_nil_r. Qed.

Lemma grows_trans j k g1 g2 g3 : grows j g1 g2 → grows k g2 g3 → grows (j + k) g1 g3.
Proof.
  intros [? [l1 E1] ? ? ? ? ? ? ? ?] [? [l2 E2] ? ? ? ? ? ? ? ?]. split; try congruence; try (by etrans); [|lia].
  exists (l1 ++ l2). by rewrite E2, E1, app_assoc.
Qed.

Lemma grows_pinned k g g' p : grows k g g' → pinned g p → pinned g' p.
Proof.
  intros [_ [l E] X _ _ _ _ _ _ _] [Hp|Hp]; [left|right; by rewrite X]. rewrite E. apply elem_of_app. by left.
Qed.

Lemma grows_push i g : grows 0 g (push i g).
Proof. split; try done. by exists [i]. Qed.

Lemma grows_soil p g : grows 0 g (soil p g).
Proof. split; try done; cbn; [exists []; by rewrite app_nil_r|set_solver..]. Qed.

(** A change that is marked afterwards. *)
Lemma soil_touch p g : soil p (touch p g) = soil p g.
Proof.
  unfold soil, touch. cbn. f_equal. case_decide; [done|]. apply set_eq. intros q.
  rewrite !elem_of_difference, elem_of_union, elem_of_singleton. naive_solver.
Qed.

Lemma touch_twice p g : touch p (touch p g) = touch p g.
Proof.
  unfold touch. cbn. repeat case_decide; try done. f_equal. set_solver.
Qed.

Lemma grows_touch k p g g' : grows k g g' → grows k (touch p g) (touch p g').
Proof.
  intros [? ? ? ? ? ? ? Hd Hlo ?]. split; try done. cbn. repeat case_decide; set_solver.
Qed.

Section node_ops.
Context {S : Type} `{!IndexPool S, !IndexPoolLaws S}.
Notation Tree := (Tree S).
Implicit Types (T : Tree) (N : gmap PageNum node) (g : ghost) (p q : PageNum) (n : node).

Lemma set_parent_ok T N g p n q : st T N g → pinned g p → N !! p = Some n → in_srange 32 q →
  ∃ T', set_parent_page_num p q T = Some (RC.SUCCESS, T') ∧ st T' (<[p := with_parent q n]> N) (touch p g).
Proof.
  intros I Hp Hn Hq. unfold set_parent_page_num.
  rewrite (exec (read_ok T N g p n parent_page_num (nd_parent n) I Hp Hn (rep_parent _ _))).
  destruct (log_ok T N g (SetParentPage p q (nd_parent n)) I) as (T1 & E1 & I1). rewrite (exec E1).
  change (RC.OB_FAIL RC.SUCCESS) with false. cbn iota.
  destruct (update_ok T1 N g p n (with_parent q n) (λ d, put_parent d q) I1 Hp Hn) as (T2 & E2 & I2).
  { intros d R. by apply rep_put_parent. }
  rewrite (exec E2). by exists T2.
Qed.

Lemma set_next_ok T N g p n q : st T N g → pinned g p → N !! p = Some n → nd_leaf n = true → in_srange 32 q →
  ∃ T', set_next_page p q T = Some (RC.SUCCESS, T') ∧ st T' (<[p := with_next q n]> N) (touch p g).
Proof.
  intros I Hp Hn Hl Hq. unfold set_next_page.
  rewrite (exec (read_ok T N g p n next_page (nd_next n) I Hp Hn (λ d R, rep_next _ n d R Hl))).
  destruct (log_ok T N g (LeafSetNextPage p q (nd_next n)) I) as (T1 & E1 & I1). rewrite (exec E1).
  change (RC.OB_FAIL RC.SUCCESS) with false. cbn iota.
  destruct (update_ok T1 N g p n (with_next q n) (λ d, put_next d q) I1 Hp Hn) as (T2 & E2 & I2).
  { intros d R. by apply rep_put_next. }
  rewrite (exec E2). by exists T2.
Qed.

(** ** New nodes *)
Definition empty_node (leaf : bool) : node := mkNode leaf BP_INVALID_PAGE_NUM BP_INVALID_PAGE_NUM [].
Definition raw_used p g : ghost := with_raw (g_raw g ∖ {[p]}) (g_free g) (touch p g).

Lemma init_empty_ok T N g p leaf : st T N g → pinned g p → p ∈ g_raw g →
  ∃ T', init_empty (kind leaf) p T = Some (RC.SUCCESS, T') ∧ st T' (<[p := empty_node leaf]> N) (raw_used p g).
Proof.
  intros I Hp Hr. destruct leaf; cbn [init_empty kind]; unfold leaf_init_empty, internal_init_empty.
  - destruct (log_ok T N g (LeafInitEmpty p) I) as (T1 & E1 & I1). rewrite (exec E1). change (RC.OB_FAIL RC.SUCCESS) with false. cbn iota.
    destruct (update_raw_ok T1 N g p (empty_node true) leaf_init_page I1 Hp Hr) as (T2 & E2 & I2).
    { intros d [H1 H2]. by apply rep_leaf_init. }
    rewrite (exec E2). by exists T2.
  - destruct (log_ok T N g (InternalInitEmpty p) I) as (T1 & E1 & I1). rewrite (exec E1).
    destruct (update_raw_ok T1 N g p (empty_node false) (λ d, node_init_empty d false) I1 Hp Hr) as (T2 & E2 & I2).
    { intros d [H1 H2]. by apply rep_internal_init. }
    rewrite (exec E2). by exists T2.
Qed.

(** ** Items of a leaf *)
Section leaf.
Context T N g p n (I : st T N g) (Hp : pinned g p) (Hn : N !! p = Some n) (Hl : nd_leaf n = true).

Lemma leaf_insert_raw i key value k v :
  (i ≤ length (nd_items n))%nat → Z.of_nat (length (nd_items n)) < leaf_max_size (g_header g) →
  read_at key 0 (key_length (g_header g)) = Some k → read_at value 0 RID_SIZE = Some v → item_ok (g_header g) true (k ++ v) →
  ∃ T', leaf_insert p (Z.of_nat i) key value T = Some (RC.SUCCESS, T') ∧
    st T' (<[p := with_items (take i (nd_items n) ++ (k ++ v) :: drop i (nd_items n)) n]> N) (touch p g).
Proof using I Hp Hn Hl.
  intros Hi Hmax Hk Hv Hok. unfold leaf_insert. rewrite (exec (header_ok _ _ _ I)).
  rewrite Hk. exec_deref. change (value_size LeafHandler) with RID_SIZE. rewrite Hv. exec_deref.
  unfold insert_items_log. log_step I as T1 I1.
  destruct (update_ok T1 N g p n (with_items (take i (nd_items n) ++ [k ++ v] ++ drop i (nd_items n)) n)
    (λ d, recover_insert_items (g_header g) LeafHandler d (Z.of_nat i) (k ++ v) 1) I1 Hp Hn) as (T2 & E2 & I2).
  { intros d R. pose proof (rep_insert (g_header g) (s_index _ _ _ I) n d i [k ++ v] R Hi) as HR.
    rewrite Hl in HR. cbn [concat kind length app] in HR. rewrite app_nil_r in HR. apply HR.
    - by apply Forall_singleton.
    - apply (item_room _ true); [apply I|]. cbn. lia. }
  rewrite (exec E2). by exists T2.
Qed.

Lemma leaf_insert_ok i key rid :
  (i ≤ length (nd_items n))%nat → Z.of_nat (length (nd_items n)) < leaf_max_size (g_header g) →
  Z.of_nat (length key) = key_length (g_header g) → chars key →
  ∃ T', leaf_insert p (Z.of_nat i) key (rid_bytes rid) T = Some (RC.SUCCESS, T') ∧
    st T' (<[p := with_items (take i (nd_items n) ++ leaf_item key rid :: drop i (nd_items n)) n]> N) (touch p g).
Proof using I Hp Hn Hl.
  intros Hi Hmax Hk Hc. apply leaf_insert_raw; [done|done|by apply read_all|by apply read_all|].
  split; [|apply Forall_app_2; [done|]; unfold rid_bytes; apply Forall_app_2; apply le_bytes_chars].
  unfold rid_bytes. rewrite !length_app, !le_bytes_length. unfold item_size, value_size, RID_SIZE. cbn. lia.
Qed.

Lemma leaf_remove_ok i : (i < length (nd_items n))%nat →
  ∃ T', leaf_remove p (Z.of_nat i) T = Some (RC.SUCCESS, T') ∧ st T' (<[p := with_items (delete i (nd_items n)) n]> N) (touch p g).
Proof using I Hp Hn Hl.
  intros Hi. destruct (lookup_lt_is_Some_2 (nd_items n) i Hi) as [it Hit]. unfold leaf_remove. rewrite (exec (header_ok _ _ _ I)).
  erewrite (bind_run (ignore _)).
  2:{ unfold ignore. rewrite (exec (read_ok T N g p n _ tt I Hp Hn (λ d R, rep_in_bounds _ (s_index _ _ _ I) n d i it R Hit))). done. }
  pose proof (λ d R, rep_items_at (g_header g) n d i 1 R ltac:(lia)) as Hat. rewrite Hl in Hat.
  rewrite (exec (read_ok T N g p n _ _ I Hp Hn Hat)).
  unfold remove_items_log. log_step I as T1 I1.
  destruct (update_ok T1 N g p n (with_items (delete i (nd_items n)) n)
    (λ d, recover_remove_items (g_header g) LeafHandler d (Z.of_nat i) 1) I1 Hp Hn) as (T2 & E2 & I2).
  { intros d R. pose proof (rep_remove (g_header g) (s_index _ _ _ I) n d i 1 R ltac:(lia)) as HR. rewrite Hl in HR. cbn [kind] in HR.
    by rewrite delete_take_drop, <-(Nat.add_1_r i). }
  rewrite (exec E2). by exists T2.
Qed.

Lemma leaf_append_ok l : Forall (item_ok (g_header g) true) l → Z.of_nat (length (nd_items n) + length l) ≤ leaf_max_size (g_header g) →
  ∃ T', leaf_append p (concat l) (Z.of_nat (length l)) T = Some (RC.SUCCESS, T') ∧
    st T' (<[p := with_items (nd_items n ++ l) n]> N) (touch p g).
Proof using I Hp Hn Hl.
  intros Hok Hmax. unfold leaf_append. rewrite (exec (header_ok _ _ _ I)).
  rewrite (exec (read_ok T N g p n node_size _ I Hp Hn (λ d R, rep_size _ (s_index _ _ _ I) n d R))).
  rewrite read_all by (symmetry; by apply (items_length _ true)). exec_deref.
  unfold insert_items_log. log_step I as T1 I1.
  destruct (update_ok T1 N g p n (with_items (nd_items n ++ l) n)
    (λ d, recover_insert_items (g_header g) LeafHandler d (Z.of_nat (length (nd_items n))) (concat l) (Z.of_nat (length l))) I1 Hp Hn) as (T2 & E2 & I2).
  { intros d R. pose proof (rep_insert (g_header g) (s_index _ _ _ I) n d (length (nd_items n)) l R ltac:(lia)) as HR.
    rewrite Hl, firstn_all, drop_all, app_nil_r in HR. apply HR; [done|]. by apply (item_room _ true); [apply I|]. }
  rewrite (exec E2). by exists T2.
Qed.
End leaf.

(** ** Moving items between leaves *)
Section two_leaves.
Context T N g p n q (m : node) (I : st T N g) (Hp : pinned g p) (Hn : N !! p = Some n) (Hl : nd_leaf n = true).
Context (Hq : pinned g q) (Hm : N !! q = Some m) (Hlm : nd_leaf m = true) (Hpq : p ≠ q).

Lemma node_items_ok : Forall (item_ok (g_header g) true) (nd_items n).
Proof using I Hn Hl. destruct (s_nodes _ _ _ I p n Hn) as (d & _ & R). rewrite <-Hl. by eapply rep_items. Qed.

Lemma leaf_move_half_ok :
  let i := (length (nd_items n) / 2)%nat in
  Z.of_nat (length (nd_items m) + (length (nd_items n) - i)) ≤ leaf_max_size (g_header g) →
  ∃ T', leaf_move_half_to p q T = Some (RC.SUCCESS, T') ∧
    st T' (<[p := with_items (take i (nd_items n)) n]> (<[q := with_items (nd_items m ++ drop i (nd_items n)) m]> N)) (touch p (touch q g)).
Proof using I Hp Hn Hl Hq Hm Hlm Hpq.
  intros i Hmax. assert (i ≤ length (nd_items n))%nat as Hi by (apply Nat.Div0.div_le_upper_bound; lia).
  unfold leaf_move_half_to. rewrite (exec (header_ok _ _ _ I)).
  rewrite (exec (read_ok T N g p n node_size _ I Hp Hn (λ d R, rep_size _ (s_index _ _ _ I) n d R))).
  replace (Z.quot (Z.of_nat (length (nd_items n))) 2) with (Z.of_nat i) by (rewrite Z.quot_div_nonneg by lia; apply Nat2Z.inj_div).
  replace (Z.of_nat (length (nd_items n)) - Z.of_nat i) with (Z.of_nat (length (drop i (nd_items n)))) by (rewrite length_drop; lia).
  pose proof (λ d R, rep_items_at (g_header g) n d i (length (drop i (nd_items n))) R ltac:(rewrite length_drop; lia)) as Hat.
  rewrite Hl, firstn_all in Hat. rewrite (exec (read_ok T N g p n _ _ I Hp Hn Hat)).
  destruct (leaf_append_ok T N g q m I Hq Hm Hlm (drop i (nd_items n))) as (T1 & E1 & I1).
  { apply Forall_drop, node_items_ok. }
  { rewrite length_drop. lia. }
  rewrite (exec E1). unfold remove_items_log. log_step I1 as T2 I2.
  assert (<[q := with_items (nd_items m ++ drop i (nd_items n)) m]> N !! p = Some n) as Hn1 by (by rewrite lookup_insert_ne).
  destruct (update_ok T2 _ (touch q g) p n (with_items (take i (nd_items n)) n)
    (λ d, recover_remove_items (g_header g) LeafHandler d (Z.of_nat i) (Z.of_nat (length (drop i (nd_items n))))) I2 Hp Hn1) as (T3 & E3 & I3).
  { intros d R. pose proof (rep_remove (g_header g) (s_index _ _ _ I) n d i (length (drop i (nd_items n))) R ltac:(rewrite length_drop; lia)) as HR.
    rewrite Hl in HR. rewrite (drop_ge _ (i + _)) in HR by (rewrite length_drop; lia). rewrite app_nil_r in HR. exact HR. }
  rewrite (exec E3). by exists T3.
Qed.

Lemma leaf_move_first_ok it rest : nd_items n = it :: rest → Z.of_nat (length (nd_items m)) < leaf_max_size (g_header g) →
  ∃ T', leaf_move_first_to_end p q T = Some (RC.SUCCESS, T') ∧
    st T' (<[p := with_items rest n]> (<[q := with_items (nd_items m ++ [it]) m]> N)) (touch p (touch q g)).
Proof using I Hp Hn Hl Hq Hm Hlm Hpq.
  intros Ei Hmax. unfold leaf_move_first_to_end. rewrite (exec (header_ok _ _ _ I)).
  pose proof (λ d R, rep_items_at (g_header g) n d 0 1 R ltac:(rewrite Ei; cbn; lia)) as Hat. rewrite Hl, drop_0, Ei in Hat. cbn in Hat.
  rewrite (exec (read_ok T N g p n _ _ I Hp Hn Hat)).
  pose proof node_items_ok as Hok. rewrite Ei in Hok. apply list.Forall_cons in Hok as [Hit _].
  destruct (leaf_append_ok T N g q m I Hq Hm Hlm [it]) as (T1 & E1 & I1); [by constructor|cbn; lia|].
  cbn [concat length Z.of_nat] in E1. rewrite (exec E1).
  destruct (leaf_remove_ok T1 _ _ p n I1 Hp ltac:(by rewrite lookup_insert_ne) Hl 0) as (T2 & E2 & I2); [rewrite Ei; cbn; lia|].
  rewrite Ei in I2. exists T2. by split.
Qed.

Lemma leaf_move_last_ok it init : nd_items n = init ++ [it] → Z.of_nat (length (nd_items m)) < leaf_max_size (g_header g) →
  ∃ T', leaf_move_last_to_front p q T = Some (RC.SUCCESS, T') ∧
    st T' (<[p := with_items init n]> (<[q := with_items (it :: nd_items m) m]> N)) (touch p (touch q g)).
Proof using I Hp Hn Hl Hq Hm Hlm Hpq.
  intros Ei Hmax. unfold leaf_move_last_to_front. rewrite (exec (header_ok _ _ _ I)).
  rewrite (exec (read_ok T N g p n node_size _ I Hp Hn (λ d R, rep_size _ (s_index _ _ _ I) n d R))).
  replace (Z.of_nat (length (nd_items n)) - 1) with (Z.of_nat (length init)) by (rewrite Ei, length_app; cbn; lia).
  pose proof (λ d R, rep_items_at (g_header g) n d (length init) 1 R ltac:(rewrite Ei, length_app; cbn; lia)) as Hat.
  rewrite Hl, Ei, drop_app_length in Hat. cbn in Hat. rewrite app_nil_r in Hat.
  rewrite (exec (read_ok T N g p n _ _ I Hp Hn Hat)).
  pose proof node_items_ok as Hok. rewrite Ei in Hok. apply Forall_app in Hok as [_ Hit]. apply list.Forall_cons in Hit as [Hit _].
  destruct (item_parts _ (s_index _ _ _ I) _ _ Hit) as (Eit & Hlk & Hlv).
  destruct (leaf_insert_raw T N g q m I Hq Hm Hlm 0 it (item_value (g_header g) it) (item_key (g_header g) it) (item_value (g_header g) it))
    as (T1 & E1 & I1); [lia|done|rewrite Eit at 1; by apply (read_at_app [] _ _)|apply read_all; by rewrite Hlv|by rewrite <-Eit|].
  rewrite <-Eit in I1. cbn [take drop app Z.of_nat] in E1, I1.
  assert (leaf_preappend q it T = Some (RC.SUCCESS, T1)) as E0 by (unfold leaf_preappend; by rewrite (exec (header_ok _ _ _ I))).
  rewrite (exec E0).
  destruct (leaf_remove_ok T1 _ _ p n I1 Hp ltac:(by rewrite lookup_insert_ne) Hl (length init)) as (T2 & E2 & I2);
    [rewrite Ei, length_app; cbn; lia|].
  rewrite (exec E2). exists T2. split; [done|]. rewrite Ei, delete_middle, app_nil_r in I2. exact I2.
Qed.

Lemma leaf_move_to_ok : Z.of_nat (length (nd_items m) + length (nd_items n)) ≤ leaf_max_size (g_header g) →
  ∃ T', leaf_move_to p q T = Some (RC.SUCCESS, T') ∧
    st T' (<[p := with_items [] n]> (<[q := with_next (nd_next n) (with_items (nd_items m ++ nd_items n) m)]> N)) (touch p (touch q g)).
Proof using I Hp Hn Hl Hq Hm Hlm Hpq.
  intros Hmax. unfold leaf_move_to. rewrite (exec (header_ok _ _ _ I)).
  rewrite (exec (read_ok T N g p n node_size _ I Hp Hn (λ d R, rep_size _ (s_index _ _ _ I) n d R))).
  pose proof (λ d R, rep_items_at (g_header g) n d 0 (length (nd_items n)) R ltac:(lia)) as Hat.
  rewrite Hl, drop_0, firstn_all in Hat. rewrite (exec (read_ok T N g p n _ _ I Hp Hn Hat)).
  destruct (leaf_append_ok T N g q m I Hq Hm Hlm (nd_items n) node_items_ok Hmax) as (T1 & E1 & I1). rewrite (exec E1).
  assert (<[q := with_items (nd_items m ++ nd_items n) m]> N !! p = Some n) as Hn1 by (by rewrite lookup_insert_ne).
  rewrite (exec (read_ok T1 _ _ p n next_page (nd_next n) I1 Hp Hn1 (λ d R, rep_next _ n d R Hl))).
  destruct (s_nodes _ _ _ I1 p n Hn1) as (d & _ & R). assert (in_srange 32 (nd_next n)) as Hr by (by destruct R as (? & ? & ? & ? & ? & ? & ? & ? & ?)).
  destruct (set_next_ok T1 _ _ q (with_items (nd_items m ++ nd_items n) m) (nd_next n) I1 Hq ltac:(by rewrite lookup_insert_eq) Hlm Hr) as (T2 & E2 & I2).
  rewrite (exec E2). rewrite insert_insert_eq in I2. rewrite touch_twice in I2. unfold remove_items_log. log_step I2 as T3 I3.
  destruct (update_ok T3 _ _ p n (with_items [] n) (λ d, increase_size d (- Z.of_nat (length (nd_items n)))) I3 Hp ltac:(by rewrite lookup_insert_ne)) as (T4 & E4 & I4).
  { intros d' R'. destruct (rep_shrink _ n d' 0 (s_index _ _ _ I) R' ltac:(lia)) as (d2 & E & R2). rewrite Z.sub_0_r in E. by exists d2. }
  rewrite (exec E4). by exists T4.
Qed.
End two_leaves.

(** ** Items of an internal node *)
Section internal.
Context T N g p n (I : st T N g) (Hp : pinned g p) (Hn : N !! p = Some n) (Hl : nd_leaf n = false).

Lemma internal_insert_ok i c key page_num :
  (∀ d, rep (g_header g) n d → internal_lookup (g_header g) (comparator (g_header g)) d key = Some (c, Z.of_nat i)) →
  (i ≤ length (nd_items n))%nat → Z.of_nat (length (nd_items n)) < internal_max_size (g_header g) →
  Z.of_nat (length key) = key_length (g_header g) → chars key →
  ∃ T', internal_insert p key page_num T = Some (RC.SUCCESS, T') ∧
    st T' (<[p := with_items (take i (nd_items n) ++ child_item key page_num :: drop i (nd_items n)) n]> N) (touch p g).
Proof using I Hp Hn Hl.
  intros Hlk Hi Hmax Hk Hc. unfold internal_insert. rewrite (exec (header_ok _ _ _ I)).
  rewrite (exec (read_ok T N g p n _ _ I Hp Hn Hlk)). rewrite (read_all key) by done. exec_deref.
  unfold insert_items_log. log_step I as T1 I1. fold (child_item key page_num).
  destruct (update_ok T1 N g p n (with_items (take i (nd_items n) ++ [child_item key page_num] ++ drop i (nd_items n)) n)
    (λ d, recover_insert_items (g_header g) InternalHandler d (Z.of_nat i) (child_item key page_num) 1) I1 Hp Hn) as (T2 & E2 & I2).
  { intros d R. pose proof (rep_insert (g_header g) (s_index _ _ _ I) n d i [child_item key page_num] R Hi) as HR.
    rewrite Hl in HR. cbn [concat kind length app] in HR. rewrite app_nil_r in HR. apply HR.
    - apply Forall_singleton. by apply child_item_ok.
    - apply (item_room _ false); [apply I|]. cbn. lia. }
  rewrite (exec E2). by exists T2.
Qed.

Lemma set_key_ok i it key : nd_items n !! i = Some it → Z.of_nat (length key) = key_length (g_header g) → chars key →
  ∃ T', set_key_at p (Z.of_nat i) key T = Some (tt, T') ∧
    st T' (<[p := with_items (<[i := key ++ item_value (g_header g) it]> (nd_items n)) n]> N) (touch p g).
Proof using I Hp Hn Hl.
  intros Hi Hk Hc. unfold set_key_at. rewrite (exec (header_ok _ _ _ I)).
  erewrite (bind_run (ignore _)).
  2:{ unfold ignore. rewrite (exec (read_ok T N g p n _ tt I Hp Hn (λ d R, rep_in_bounds _ (s_index _ _ _ I) n d i it R Hi))). done. }
  rewrite (read_all key) by done. exec_deref.
  pose proof (λ d R, rep_raw_key (g_header g) (s_index _ _ _ I) n d i it R Hi) as Hr. rewrite Hl in Hr.
  rewrite (exec (read_ok T N g p n _ _ I Hp Hn Hr)). log_step I as T1 I1.
  destruct (update_ok T1 N g p n (with_items (<[i := key ++ item_value (g_header g) it]> (nd_items n)) n)
    (λ d, put_key_at (g_header g) d (Z.of_nat i) key) I1 Hp Hn) as (T2 & E2 & I2).
  { intros d R. by apply (rep_put_key _ (s_index _ _ _ I)). }
  rewrite E2. by exists T2.
Qed.

Lemma internal_remove_ok i : (i < length (nd_items n))%nat →
  ∃ T', internal_remove p (Z.of_nat i) T = Some (tt, T') ∧ st T' (<[p := with_items (delete i (nd_items n)) n]> N) (touch p g).
Proof using I Hp Hn Hl.
  intros Hi. destruct (lookup_lt_is_Some_2 (nd_items n) i Hi) as [it Hit]. unfold internal_remove. rewrite (exec (header_ok _ _ _ I)).
  erewrite (bind_run (ignore _)).
  2:{ unfold ignore. rewrite (exec (read_ok T N g p n _ tt I Hp Hn (λ d R, rep_in_bounds _ (s_index _ _ _ I) n d i it R Hit))). done. }
  pose proof (λ d R, rep_items_at (g_header g) n d i 1 R ltac:(lia)) as Hat. rewrite Hl in Hat.
  rewrite (exec (read_ok T N g p n _ _ I Hp Hn Hat)).
  unfold remove_items_log. log_step I as T1 I1.
  destruct (update_ok T1 N g p n (with_items (delete i (nd_items n)) n)
    (λ d, recover_remove_items (g_header g) InternalHandler d (Z.of_nat i) 1) I1 Hp Hn) as (T2 & E2 & I2).
  { intros d R. pose proof (rep_remove (g_header g) (s_index _ _ _ I) n d i 1 R ltac:(lia)) as HR. rewrite Hl in HR. cbn [kind] in HR.
    by rewrite delete_take_drop, <-(Nat.add_1_r i). }
  rewrite E2. by exists T2.
Qed.

Lemma create_new_root_ok a key b : nd_items n = [] → Z.of_nat (length key) = key_length (g_header g) → chars key →
  ∃ T', create_new_root p a key b T = Some (RC.SUCCESS, T') ∧
    st T' (<[p := with_items [child_item (zero_key (g_header g)) a; child_item key b] n]> N) (touch p g).
Proof using I Hp Hn Hl.
  intros Hi Hk Hc. unfold create_new_root. rewrite (exec (header_ok _ _ _ I)). rewrite (read_all key) by done. exec_deref.
  log_step I as T1 I1.
  destruct (update_ok T1 N g p n (with_items [child_item (zero_key (g_header g)) a; child_item key b] n)
    (λ d, new_root_page (g_header g) d a key b) I1 Hp Hn) as (T2 & E2 & I2).
  { intros d R. by apply (rep_new_root _ (s_index _ _ _ I)). }
  rewrite (exec E2). by exists T2.
Qed.
End internal.

(** ** Children that come with their items *)
Definition kid_item (x : list Z * PageNum) : list Z := child_item x.1 x.2.
Definition kid_ok (h : IndexFileHeader) (x : list Z * PageNum) : Prop :=
  Z.of_nat (length x.1) = key_length h ∧ chars x.1 ∧ in_srange 32 x.2.

Definition reparent p (cs : list PageNum) N : gmap PageNum node := foldl (λ N c, alter (with_parent p) c N) N cs.
Definition held (cs : list PageNum) g : ghost := foldl (λ g c, soil c (push (MemoPin c) g)) g cs.

Lemma held_grows cs g : grows 0 g (held cs g).
Proof.
  revert g. induction cs as [|c cs IH]; intros g; [apply grows_refl|]. cbn.
  eapply (grows_trans 0 0); [|apply IH]. eapply (grows_trans 0 0); [apply grows_push|apply grows_soil].
Qed.

Lemma reparent_other p cs N q : q ∉ cs → reparent p cs N !! q = N !! q.
Proof.
  revert N. induction cs as [|c cs IH]; intros N Hq; [done|]. apply not_elem_of_cons in Hq as [Hne Hq]. cbn.
  unfold reparent in IH. rewrite IH by done. by apply lookup_alter_ne.
Qed.

Lemma kid_item_ok h x : index_ok h → kid_ok h x → item_ok h false (kid_item x).
Proof. intros HI (H1 & H2 & H3). by apply child_item_ok. Qed.

Lemma kid_items_ok h l : index_ok h → Forall (kid_ok h) l → Forall (item_ok h false) (kid_item <$> l).
Proof. intros HI Hl. apply Forall_fmap. eapply list.Forall_impl; [exact Hl|]. intros x. by apply kid_item_ok. Qed.

Lemma set_parents_ok T N g p l : st T N g → in_srange 32 p → Forall (kid_ok (g_header g)) l →
  Forall (λ x : list Z * PageNum, is_Some (N !! x.2)) l →
  ∃ T', set_parents p (concat (kid_item <$> l)) (length l) T = Some (RC.SUCCESS, T') ∧ st T' (reparent p l.*2 N) (held l.*2 g).
Proof.
  revert T N g. induction l as [|[k c] l IH]; intros T N g I Hp Hok Hin; [by exists T|].
  apply list.Forall_cons in Hok as [(Hk & Hc & Hr) Hok]. apply list.Forall_cons in Hin as [[n Hn] Hin]. cbn in Hk, Hc, Hr, Hn.
  cbn [length set_parents]. rewrite (exec (header_ok _ _ _ I)).
  cbn [fmap list_fmap concat]. change (kid_item (k, c)) with (k ++ le_bytes 4 c). rewrite <-!app_assoc.
  rewrite read_at_app; [|by rewrite Hk|by rewrite le_bytes_length]. exec_deref.
  assert (get_i32 (le_bytes 4 c) 0 = Some c) as Hget by (rewrite <-(app_nil_r (le_bytes 4 c)); by apply (get_i32_mid [])).
  rewrite Hget. exec_deref.
  destruct (memo_get_ok T N g c n I Hn) as (T1 & E1 & I1). rewrite (exec E1). change (RC.OB_FAIL RC.SUCCESS) with false. cbn iota.
  assert (pinned (push (MemoPin c) g) c) as Hpin by (left; apply elem_of_app; right; left).
  destruct (set_parent_ok T1 N _ c n p I1 Hpin Hn Hp) as (T2 & E2 & I2). rewrite (exec E2).
  destruct (mark_dirty_ok T2 _ _ c I2) as (T3 & E3 & I3); [done|]. rewrite (exec E3). rewrite soil_touch in I3.
  destruct (IH T3 _ _ I3 Hp) as (T4 & E4 & I4); [done| |].
  { eapply list.Forall_impl; [exact Hin|]. cbn. intros [k' c'] [m Hm]. cbn in *. destruct (decide (c = c')) as [->|];
      [rewrite lookup_insert_eq|rewrite lookup_insert_ne by done]; by eexists. }
  exists T4. split.
  - rewrite <-E4. f_equal. rewrite app_assoc, drop_app_length' by
      (rewrite length_app, le_bytes_length; unfold item_size, value_size; lia). done.
  - cbn. unfold reparent in I4 |- *. cbn in I4 |- *. by rewrite (alter_insert_some _ _ _ n Hn).
Qed.

Lemma insert_items_ok T N g p n i l :
  st T N g → pinned g p → N !! p = Some n → nd_leaf n = false → (i ≤ length (nd_items n))%nat → in_srange 32 p →
  Forall (kid_ok (g_header g)) l → Forall (λ x : list Z * PageNum, is_Some (N !! x.2)) l →
  Z.of_nat (length (nd_items n) + length l) ≤ internal_max_size (g_header g) →
  ∃ T', insert_items p (Z.of_nat i) (concat (kid_item <$> l)) (Z.of_nat (length l)) T = Some (RC.SUCCESS, T') ∧
    st T' (reparent p l.*2 (<[p := with_items (take i (nd_items n) ++ (kid_item <$> l) ++ drop i (nd_items n)) n]> N)) (held l.*2 (touch p g)).
Proof.
  intros I Hp Hn Hl Hi Hr Hok Hin Hmax. pose proof (kid_items_ok _ l (s_index _ _ _ I) Hok) as Hits.
  unfold insert_items. rewrite (exec (header_ok _ _ _ I)).
  rewrite read_all by (symmetry; rewrite (items_length _ false _ Hits), length_fmap; done). exec_deref.
  unfold insert_items_log. log_step I as T1 I1.
  destruct (update_ok T1 N g p n (with_items (take i (nd_items n) ++ (kid_item <$> l) ++ drop i (nd_items n)) n)
    (λ d, recover_insert_items (g_header g) InternalHandler d (Z.of_nat i) (concat (kid_item <$> l)) (Z.of_nat (length l))) I1 Hp Hn) as (T2 & E2 & I2).
  { intros d R. pose proof (rep_insert (g_header g) (s_index _ _ _ I) n d i (kid_item <$> l) R Hi) as HR.
    rewrite Hl, length_fmap in HR. apply HR; [done|]. apply (item_room _ false); [apply I|]. cbn. lia. }
  rewrite (exec E2). rewrite Nat2Z.id. apply (set_parents_ok T2 _ _ p l I2 Hr Hok).
  eapply list.Forall_impl; [exact Hin|]. cbn. intros [k c] [m Hm]. cbn in *. destruct (decide (p = c)) as [->|];
    [rewrite lookup_insert_eq|rewrite lookup_insert_ne by done]; by eexists.
Qed.

Lemma internal_append_ok T N g p n l :
  st T N g → pinned g p → N !! p = Some n → nd_leaf n = false → in_srange 32 p →
  Forall (kid_ok (g_header g)) l → Forall (λ x : list Z * PageNum, is_Some (N !! x.2)) l →
  Z.of_nat (length (nd_items n) + length l) ≤ internal_max_size (g_header g) →
  ∃ T', internal_append p (concat (kid_item <$> l)) (Z.of_nat (length l)) T = Some (RC.SUCCESS, T') ∧
    st T' (reparent p l.*2 (<[p := with_items (nd_items n ++ (kid_item <$> l)) n]> N)) (held l.*2 (touch p g)).
Proof.
  intros I Hp Hn Hl Hr Hok Hin Hmax. unfold internal_append.
  rewrite (exec (read_ok T N g p n node_size _ I Hp Hn (λ d R, rep_size _ (s_index _ _ _ I) n d R))).
  destruct (insert_items_ok T N g p n (length (nd_items n)) l I Hp Hn Hl ltac:(lia) Hr Hok Hin Hmax) as (T' & E & I').
  rewrite firstn_all, drop_all, app_nil_r in I'. by exists T'.
Qed.

(** ** Moving items between internal nodes *)
Section two_internals.
Context T N g p n q (m : node) (I : st T N g) (Hp : pinned g p) (Hn : N !! p = Some n) (Hl : nd_leaf n = false).
Context (Hq : pinned g q) (Hm : N !! q = Some m) (Hlm : nd_leaf m = false) (Hpq : p ≠ q) (Hr : in_srange 32 q).
Context (l : list (list Z * PageNum)) (Hok : Forall (kid_ok (g_header g)) l).
Context (Hin : Forall (λ x : list Z * PageNum, is_Some (N !! x.2) ∧ x.2 ≠ p) l).

Lemma kids_in : Forall (λ x : list Z * PageNum, is_Some (N !! x.2)) l.
Proof using Hin. eapply list.Forall_impl; [exact Hin|]. by intros x [? _]. Qed.

Lemma not_moved N' : reparent q l.*2 N' !! p = N' !! p.
Proof using Hin.
  apply reparent_other. intros (x & E & Hx)%list_elem_of_fmap.
  pose proof (proj1 (list.Forall_forall _ _) Hin x Hx) as [_ Hne]. exact (Hne (eq_sym E)).
Qed.

Lemma internal_move_half_ok l0 :
  nd_items n = l0 ++ (kid_item <$> l) → length l0 = (length (nd_items n) / 2)%nat →
  Z.of_nat (length (nd_items m) + length l) ≤ internal_max_size (g_header g) →
  ∃ T', internal_move_half_to p q T = Some (RC.SUCCESS, T') ∧
    st T' (<[p := with_items l0 n]> (reparent q l.*2 (<[q := with_items (nd_items m ++ (kid_item <$> l)) m]> N))) (touch p (held l.*2 (touch q g))).
Proof using I Hp Hn Hl Hq Hm Hlm Hpq Hr Hok Hin.
  intros Ei Hlen Hmax. unfold internal_move_half_to. rewrite (exec (header_ok _ _ _ I)).
  rewrite (exec (read_ok T N g p n node_size _ I Hp Hn (λ d R, rep_size _ (s_index _ _ _ I) n d R))).
  replace (Z.quot (Z.of_nat (length (nd_items n))) 2) with (Z.of_nat (length l0))
    by (rewrite Hlen, Z.quot_div_nonneg by lia; apply Nat2Z.inj_div).
  replace (Z.of_nat (length (nd_items n)) - Z.of_nat (length l0)) with (Z.of_nat (length l)) by (rewrite Ei, length_app, length_fmap; lia).
  pose proof (λ d R, rep_items_at (g_header g) n d (length l0) (length l) R ltac:(rewrite Ei, length_app, length_fmap; lia)) as Hat.
  rewrite Hl, Ei, drop_app_length in Hat. rewrite take_ge in Hat by (by rewrite length_fmap). rewrite (exec (read_ok T N g p n _ _ I Hp Hn Hat)).
  destruct (internal_append_ok T N g q m l I Hq Hm Hlm Hr Hok kids_in Hmax) as (T1 & E1 & I1).
  rewrite (exec E1). change (RC.OB_FAIL RC.SUCCESS) with false. cbn iota. unfold remove_items_log. log_step I1 as T2 I2.
  destruct (update_ok T2 _ _ p n (with_items l0 n) (λ d, increase_size d (- Z.of_nat (length l))) I2) as (T3 & E3 & I3).
  { eapply grows_pinned; [apply held_grows|done]. }
  { by rewrite not_moved, lookup_insert_ne. }
  { rewrite (gr_header _ _ _ (held_grows _ _)). intros d R.
    destruct (rep_shrink _ n d (length l0) (s_index _ _ _ I) R) as (d' & E & R'); [rewrite Ei, length_app; lia|]. rewrite Ei, take_app_length in R'.
    exists d'. split; [|done]. rewrite <-E. f_equal. rewrite Ei, length_app, length_fmap. lia. }
  rewrite (exec E3). by exists T3.
Qed.

Lemma internal_move_to_ok :
  nd_items n = kid_item <$> l → Z.of_nat (length (nd_items m) + length l) ≤ internal_max_size (g_header g) →
  ∃ T', internal_move_to p q T = Some (RC.SUCCESS, T') ∧
    st T' (<[p := with_items [] n]> (reparent q l.*2 (<[q := with_items (nd_items m ++ (kid_item <$> l)) m]> N))) (touch p (held l.*2 (touch q g))).
Proof using I Hp Hn Hl Hq Hm Hlm Hpq Hr Hok Hin.
  intros Ei Hmax. unfold internal_move_to. rewrite (exec (header_ok _ _ _ I)).
  rewrite (exec (read_ok T N g p n node_size _ I Hp Hn (λ d R, rep_size _ (s_index _ _ _ I) n d R))).
  pose proof (λ d R, rep_items_at (g_header g) n d 0 (length (nd_items n)) R ltac:(lia)) as Hat.
  rewrite Hl, drop_0, firstn_all in Hat. rewrite (exec (read_ok T N g p n _ _ I Hp Hn Hat)).
  destruct (internal_append_ok T N g q m l I Hq Hm Hlm Hr Hok kids_in Hmax) as (T1 & E1 & I1).
  rewrite Ei, length_fmap. rewrite (exec E1). change (RC.OB_FAIL RC.SUCCESS) with false. cbn iota. unfold remove_items_log. log_step I1 as T2 I2.
  destruct (update_ok T2 _ _ p n (with_items [] n) (λ d, recover_remove_items (g_header g) InternalHandler d 0 (Z.of_nat (length l))) I2) as (T3 & E3 & I3).
  { eapply grows_pinned; [apply held_grows|done]. }
  { by rewrite not_moved, lookup_insert_ne. }
  { rewrite (gr_header _ _ _ (held_grows _ _)). intros d R.
    destruct (rep_remove _ (s_index _ _ _ I) n d 0 (length l) R) as (d' & E & R'); [rewrite Ei, length_fmap; lia|].
    rewrite Hl in E. rewrite drop_ge in R' by (rewrite Ei, length_fmap; lia). by exists d'. }
  rewrite (exec E3). by exists T3.
Qed.
End two_internals.

(** One child goes to a neighbor. *)
Lemma internal_move_first_ok T N g p n q (m : node) x rest :
  st T N g → pinned g p → N !! p = Some n → nd_leaf n = false → pinned g q → N !! q = Some m → nd_leaf m = false → p ≠ q →
  in_srange 32 q → kid_ok (g_header g) x → is_Some (N !! x.2) → x.2 ≠ p →
  nd_items n = kid_item x :: rest → Z.of_nat (length (nd_items m)) < internal_max_size (g_header g) →
  ∃ T', internal_move_first_to_end p q T = Some (RC.SUCCESS, T') ∧
    st T' (<[p := with_items rest n]> (reparent q [x.2] (<[q := with_items (nd_items m ++ [kid_item x]) m]> N))) (touch p (held [x.2] (touch q g))).
Proof.
  intros I Hp Hn Hl Hq Hm Hlm Hpq Hr Hx Hin Hxp Ei Hmax. unfold internal_move_first_to_end. rewrite (exec (header_ok _ _ _ I)).
  pose proof (λ d R, rep_items_at (g_header g) n d 0 1 R ltac:(rewrite Ei; cbn; lia)) as Hat. rewrite Hl, drop_0, Ei in Hat. cbn in Hat.
  rewrite (exec (read_ok T N g p n _ _ I Hp Hn Hat)).
  destruct (internal_append_ok T N g q m [x] I Hq Hm Hlm Hr) as (T1 & E1 & I1); [by apply Forall_singleton|by apply Forall_singleton|cbn; lia|].
  cbn [concat fmap list_fmap length Z.of_nat] in E1. rewrite (exec E1). change (RC.OB_FAIL RC.SUCCESS) with false. cbn iota.
  destruct (internal_remove_ok T1 _ _ p n I1) with (i := O) as (T2 & E2 & I2); [by eapply grows_pinned; [apply (held_grows [_])|]| |done|rewrite Ei; cbn; lia|].
  { rewrite (reparent_other q [x.2]), lookup_insert_ne by (done || (rewrite list_elem_of_singleton; done)). done. }
  cbn in E2. rewrite (exec E2). rewrite Ei in I2. by exists T2.
Qed.

Lemma internal_move_last_ok T N g p n q (m : node) x init :
  st T N g → pinned g p → N !! p = Some n → nd_leaf n = false → pinned g q → N !! q = Some m → nd_leaf m = false → p ≠ q →
  in_srange 32 q → kid_ok (g_header g) x → is_Some (N !! x.2) → x.2 ≠ p →
  nd_items n = init ++ [kid_item x] → Z.of_nat (length (nd_items m)) < internal_max_size (g_header g) →
  ∃ T', internal_move_last_to_front p q T = Some (RC.SUCCESS, T') ∧
    st T' (<[p := with_items init n]> (reparent q [x.2] (<[q := with_items (kid_item x :: nd_items m) m]> N))) (touch p (held [x.2] (touch q g))).
Proof.
  intros I Hp Hn Hl Hq Hm Hlm Hpq Hr Hx Hin Hxp Ei Hmax. unfold internal_move_last_to_front. rewrite (exec (header_ok _ _ _ I)).
  rewrite (exec (read_ok T N g p n node_size _ I Hp Hn (λ d R, rep_size _ (s_index _ _ _ I) n d R))).
  replace (Z.of_nat (length (nd_items n)) - 1) with (Z.of_nat (length init)) by (rewrite Ei, length_app; cbn; lia).
  pose proof (λ d R, rep_items_at (g_header g) n d (length init) 1 R ltac:(rewrite Ei, length_app; cbn; lia)) as Hat.
  rewrite Hl, Ei, drop_app_length in Hat. rewrite (exec (read_ok T N g p n _ _ I Hp Hn Hat)). cbn [take].
  destruct (insert_items_ok T N g q m 0 [x] I Hq Hm Hlm) as (T1 & E1 & I1); [lia|done|by apply Forall_singleton|by apply Forall_singleton|cbn; lia|].
  cbn [fmap list_fmap length Z.of_nat take drop app] in E1, I1. unfold internal_preappend. rewrite (exec E1).
  change (RC.OB_FAIL RC.SUCCESS) with false. cbn iota. unfold remove_items_log. log_step I1 as T2 I2.
  destruct (update_ok T2 _ _ p n (with_items init n) (λ d, increase_size d (- (1))) I2) as (T3 & E3 & I3).
  { by eapply grows_pinned; [apply (held_grows [_])|]. }
  { rewrite (reparent_other q [x.2]), lookup_insert_ne by (done || (rewrite list_elem_of_singleton; done)). done. }
  { intros d R. destruct (rep_shrink _ n d (length init) (s_index _ _ _ I) R) as (d' & E & R'); [rewrite Ei, length_app; lia|].
    rewrite Ei, take_app_length in R'. exists d'. split; [|done]. rewrite <-E. f_equal. rewrite Ei, length_app. cbn. lia. }
  rewrite (exec E3). by exists T3.
Qed.
End node_ops.
