(* ===== verification/IndexTree.v ===== *)
(** * The shape of a B+ tree

    A tree of a level is a page with items, or a page with children of the level below
    and a key for each; all leaves are on one level.  [holds] says that the nodes of a
    file are those of a tree, [wf] that its keys are in order and its nodes filled, and
    [ctx] is a tree with a hole, the way from a node up to the root. *)

From stdpp Require Import sorting.
From S2P Require Import Prelude Types Bytes RecordPage IndexKey IndexNode IndexNodeSpec IndexPool IndexNodeOps.
Local Open Scope Z_scope.

(** ** Trees *)
Fixpoint tree (lv : nat) : Type :=
  match lv with O => PageNum * list (list Z) | S lv => PageNum * list (list Z * tree lv) end.

Definition page_of {lv} : tree lv → PageNum := match lv with O => fst | S _ => fst end.

(** What the leaves hold, from left to right. *)
Fixpoint gather {A} (f : PageNum → list (list Z) → list A) {lv} : tree lv → list A :=
  match lv with
  | O => λ t, f t.1 t.2
  | S lv => λ t, flat_map (λ x : list Z * tree lv, gather f x.2) t.2
  end.
Definition flat {lv} (t : tree lv) : list (list Z) := gather (λ _ its, its) t.
Definition leaves {lv} (t : tree lv) : list PageNum := gather (λ p _, [p]) t.

Fixpoint tree_pages {lv} : tree lv → list PageNum :=
  match lv with
  | O => λ t, [t.1]
  | S lv => λ t, t.1 :: flat_map (λ x : list Z * tree lv, tree_pages x.2) t.2
  end.

Notation kid lv := (list Z * tree lv)%type.
Definition kid_ref {lv} (x : kid lv) : list Z * PageNum := (x.1, page_of x.2).
Definition kid_items {lv} (l : list (kid lv)) : list (list Z) := kid_item <$> (kid_ref <$> l).
Definition kids_pages {lv} (l : list (kid lv)) : list PageNum := flat_map (λ x, tree_pages x.2) l.

#[global] Arguments kid_items : simpl never.
#[global] Arguments kids_pages : simpl never.

Lemma kid_items_app {lv} (l l' : list (kid lv)) : kid_items (l ++ l') = kid_items l ++ kid_items l'.
Proof. unfold kid_items. by rewrite !fmap_app. Qed.
Lemma kid_items_length {lv} (l : list (kid lv)) : length (kid_items l) = length l.
Proof. unfold kid_items. by rewrite !length_fmap. Qed.
Lemma kids_pages_app {lv} (l l' : list (kid lv)) : kids_pages (l ++ l') = kids_pages l ++ kids_pages l'.
Proof. apply flat_map_app. Qed.

Lemma kid_items_insert {lv} (l : list (kid lv)) x y r :
  take (length l + 1) (kid_items (l ++ x :: r)) ++ child_item y.1 (page_of y.2) :: drop (length l + 1) (kid_items (l ++ x :: r)) =
  kid_items (l ++ x :: y :: r).
Proof.
  assert (∀ r', l ++ x :: r' = (l ++ [x]) ++ r') as E by (intros r'; by rewrite <-app_assoc). rewrite (E r), (E (y :: r)), !kid_items_app.
  rewrite take_app_length', drop_app_length' by (rewrite length_app, !kid_items_length; cbn; lia). done.
Qed.

Lemma page_of_in {lv} (t : tree lv) : ∃ l, tree_pages t = page_of t :: l.
Proof. destruct lv, t; by eexists. Qed.
Lemma page_of_elem {lv} (t : tree lv) : page_of t ∈ tree_pages t.
Proof. destruct (page_of_in t) as [l ->]. left. Qed.

Lemma kids_pages_elem {lv} (l : list (kid lv)) x q : x ∈ l → q ∈ tree_pages x.2 → q ∈ kids_pages l.
Proof. intros Hx Hq. unfold kids_pages. apply list_elem_of_In, in_flat_map. exists x. by rewrite <-!list_elem_of_In. Qed.

Lemma kids_pages_inv {lv} (l : list (kid lv)) q : q ∈ kids_pages l → ∃ x, x ∈ l ∧ q ∈ tree_pages x.2.
Proof.
  intros (x & Hx & Hq)%list_elem_of_In%in_flat_map. exists x. by rewrite !list_elem_of_In.
Qed.

(** ** A tree in the nodes of a file *)
Section in_nodes.
Implicit Types (N : gmap PageNum node).

Fixpoint holds N (parent : PageNum) {lv} : tree lv → Prop :=
  match lv with
  | O => λ t, ∃ nx, N !! t.1 = Some (mkNode true parent nx t.2)
  | S lv => λ t, (∃ nx, N !! t.1 = Some (mkNode false parent nx (kid_items t.2))) ∧
                 ∀ x, x ∈ t.2 → holds N t.1 (lv := lv) x.2
  end.

Lemma holds_frame N N' parent {lv} (t : tree lv) :
  (∀ q, q ∈ tree_pages t → N' !! q = N !! q) → holds N parent t → holds N' parent t.
Proof.
  revert parent t. induction lv as [|lv IH]; intros parent [p l] Hq; cbn in *.
  - intros [nx E]. exists nx. rewrite Hq; [done|left].
  - intros [[nx E] Hk]. split; [exists nx; rewrite Hq; [done|left]|]. intros x Hx. apply IH; [|by apply Hk].
    intros q Hin. apply Hq. right. by apply (kids_pages_elem l x).
Qed.

(** A tree under another parent. *)
Lemma holds_parent N N' parent parent' {lv} (t : tree lv) :
  NoDup (tree_pages t) → (∀ q, q ∈ tree_pages t → q ≠ page_of t → N' !! q = N !! q) →
  N' !! page_of t = with_parent parent' <$> N !! page_of t → holds N parent t → holds N' parent' t.
Proof.
  destruct lv, t as [p l]; cbn; intros Hnd Hq E.
  - intros [nx H]. exists nx. by rewrite E, H.
  - intros [[nx H] Hk]. split; [exists nx; by rewrite E, H|]. intros x Hx. apply (holds_frame N); [|by apply Hk].
    intros q Hin. assert (q ∈ kids_pages l) as Hql by (by apply (kids_pages_elem l x)).
    apply Hq; [by right|]. intros ->. apply list.NoDup_cons in Hnd as [Hn _]. by apply Hn.
Qed.

Lemma holds_in N parent {lv} (t : tree lv) q : holds N parent t → q ∈ tree_pages t → is_Some (N !! q).
Proof.
  revert parent t. induction lv as [|lv IH]; intros parent [p l]; cbn.
  - intros [nx E] ->%list_elem_of_singleton. by eexists.
  - intros [[nx E] Hk] [->|Hq]%elem_of_cons; [by eexists|]. apply kids_pages_inv in Hq as (x & Hx & Hq). by apply (IH _ _ (Hk x Hx)).
Qed.

(** The list of the leaves. *)
Definition next_of N (p : PageNum) : option PageNum := nd_next <$> N !! p.
Fixpoint linked N (l : list PageNum) : Prop :=
  match l with
  | [] => True
  | p :: l => next_of N p = Some (default BP_INVALID_PAGE_NUM (head l)) ∧ linked N l
  end.

(** Nodes of the file keep their place in the list. *)
Definition same_next N N' : Prop := ∀ q x, next_of N q = Some x → next_of N' q = Some x.

Lemma linked_frame N N' l : same_next N N' → linked N l → linked N' l.
Proof. intros Hs. induction l as [|p l IH]; [done|]. cbn. intros [H1 H2]. split; [by apply Hs|by apply IH]. Qed.

Lemma linked_frame_in N N' l : (∀ q, q ∈ l → next_of N' q = next_of N q) → linked N l → linked N' l.
Proof.
  induction l as [|p l IH]; [done|]. cbn. intros Hs [H1 H2]. split; [rewrite Hs; [done|left]|]. apply IH; [|done].
  intros q Hq. apply Hs. by right.
Qed.

(** A new leaf behind another. *)
Lemma linked_insert N N' (X Z : list PageNum) (p q : PageNum) :
  linked N (X ++ p :: Z) → (∀ r, r ∈ X ++ Z → next_of N' r = next_of N r) → next_of N' q = next_of N p → next_of N' p = Some q →
  linked N' (X ++ p :: q :: Z).
Proof.
  intros HL Hs Hq Hp. induction X as [|x X IH]; cbn in *.
  - destruct HL as [H1 H2]. split_and!; [done|by rewrite Hq|]. by apply (linked_frame_in N).
  - destruct HL as [H1 H2]. split; [|apply IH; [done|]; intros r Hr; apply Hs; by right].
    rewrite Hs by left. rewrite H1. by destruct X.
Qed.

(** A leaf whose place its neighbor on the left takes. *)
Lemma linked_remove N N' (X Z : list PageNum) (p q : PageNum) :
  linked N (X ++ p :: q :: Z) → (∀ r, r ∈ X ++ Z → next_of N' r = next_of N r) → next_of N' p = next_of N q → linked N' (X ++ p :: Z).
Proof.
  intros HL Hs Hp. induction X as [|x X IH]; cbn in *.
  - destruct HL as (_ & H1 & H2). split; [by rewrite Hp|]. by apply (linked_frame_in N).
  - destruct HL as [H1 H2]. split; [|apply IH; [done|]; intros r Hr; apply Hs; by right].
    rewrite Hs by left. rewrite H1. by destruct X.
Qed.

Lemma linked_frame_on N N' l : (∀ q x, q ∈ l → next_of N q = Some x → next_of N' q = Some x) → linked N l → linked N' l.
Proof.
  induction l as [|p l IH]; [done|]. cbn. intros Hs [H1 H2]. split; [apply Hs; [left|done]|]. apply IH; [|done].
  intros q x Hq. apply Hs. by right.
Qed.

Lemma same_next_refl N : same_next N N.
Proof. by intros q x. Qed.
Lemma same_next_trans N1 N2 N3 : same_next N1 N2 → same_next N2 N3 → same_next N1 N3.
Proof. intros H1 H2 q x Hx. by apply H2, H1. Qed.

Lemma same_next_insert N p n n' : N !! p = Some n → nd_next n' = nd_next n → same_next N (<[p := n']> N).
Proof.
  intros Hn E q x Hx. unfold next_of in *. destruct (decide (p = q)) as [<-|Hne]; [|by rewrite lookup_insert_ne].
  rewrite lookup_insert_eq. rewrite Hn in Hx. cbn in *. congruence.
Qed.
Lemma same_next_new N p n : N !! p = None → same_next N (<[p := n]> N).
Proof.
  intros Hn q x Hx. unfold next_of in *. rewrite lookup_insert_ne; [done|]. intros <-. by rewrite Hn in Hx.
Qed.
Lemma same_next_reparent N p cs : same_next N (reparent p cs N).
Proof.
  revert N. induction cs as [|c cs IH]; intros N; [apply same_next_refl|]. cbn. eapply same_next_trans; [|apply IH].
  intros q x. unfold next_of. destruct (decide (c = q)) as [<-|]; [|by rewrite lookup_alter_ne].
  rewrite lookup_alter_eq. by destruct (N !! c).
Qed.

Lemma reparent_in N p cs c : NoDup cs → c ∈ cs → reparent p cs N !! c = with_parent p <$> N !! c.
Proof.
  revert N. induction cs as [|d cs IH]; intros N Hnd Hc; [by apply not_elem_of_nil in Hc|]. apply list.NoDup_cons in Hnd as [Hd Hnd].
  cbn. fold (reparent p cs (alter (with_parent p) d N)). apply elem_of_cons in Hc as [->|Hc].
  - by rewrite reparent_other, lookup_alter_eq by done.
  - rewrite IH by done. by rewrite lookup_alter_ne by (intros ->; done).
Qed.
End in_nodes.

(** ** Children that go to another parent *)
Definition roots {lv} (l : list (kid lv)) : list PageNum := (kid_ref <$> l).*2.

Lemma roots_elem {lv} (l : list (kid lv)) c : c ∈ roots l ↔ ∃ x, x ∈ l ∧ c = page_of x.2.
Proof.
  unfold roots. rewrite list_elem_of_fmap. setoid_rewrite list_elem_of_fmap. split.
  - intros (y & -> & x & -> & Hx). by exists x.
  - intros (x & Hx & ->). exists (kid_ref x). split; [done|]. by exists x.
Qed.

Lemma roots_pages {lv} (l : list (kid lv)) c : c ∈ roots l → c ∈ kids_pages l.
Proof. intros (x & Hx & ->)%roots_elem. by apply (kids_pages_elem l x), page_of_elem. Qed.

Lemma roots_nodup {lv} (l : list (kid lv)) : NoDup (kids_pages l) → NoDup (roots l).
Proof.
  induction l as [|x l IH]; [constructor|]. change (kids_pages (x :: l)) with (tree_pages x.2 ++ kids_pages l).
  intros (_ & Hd & Hl)%list.NoDup_app. change (roots (x :: l)) with (page_of x.2 :: roots l). apply list.NoDup_cons. split; [|by apply IH].
  intros Hin. apply (Hd (page_of x.2)); [apply page_of_elem|by apply roots_pages].
Qed.

Lemma kid_nodup {lv} (l : list (kid lv)) x : NoDup (kids_pages l) → x ∈ l → NoDup (tree_pages x.2).
Proof.
  intros Hnd (l1 & l2 & ->)%list_elem_of_split. rewrite kids_pages_app in Hnd. apply list.NoDup_app in Hnd as (_ & _ & Hnd).
  change (kids_pages (x :: l2)) with (tree_pages x.2 ++ kids_pages l2) in Hnd. by apply list.NoDup_app in Hnd as (? & _).
Qed.

Lemma reparent_kids N p q {lv} (l : list (kid lv)) :
  NoDup (kids_pages l) → (∀ x, x ∈ l → holds N p x.2) → ∀ x, x ∈ l → holds (reparent q (roots l) N) q x.2.
Proof.
  intros Hnd Hh x Hx. apply (holds_parent N _ p); [by apply (kid_nodup l)| | |by apply Hh].
  - intros c Hc Hne. apply reparent_other. intros (y & Hy & ->)%roots_elem.
    apply list_elem_of_split in Hx as (l1 & l2 & ->). rewrite kids_pages_app in Hnd.
    change (kids_pages (x :: l2)) with (tree_pages x.2 ++ kids_pages l2) in Hnd. apply list.NoDup_app in Hnd as (_ & H1 & (_ & H2 & _)%list.NoDup_app).
    apply elem_of_app in Hy as [Hy|[->|Hy]%elem_of_cons].
    + apply (H1 (page_of y.2)); [by apply (kids_pages_elem l1 y), page_of_elem|]. apply elem_of_app. by left.
    + done.
    + apply (H2 (page_of y.2)); [done|]. by apply (kids_pages_elem l2 y), page_of_elem.
  - apply reparent_in; [by apply roots_nodup|]. apply roots_elem. by exists x.
Qed.

(** ** Order and occupancy *)
Section order.
Context (h : IndexFileHeader) (HI : index_ok h).
Context (cmp : list Z → list Z → option Z) (ok : list Z → Prop) `{!KeyOrder cmp ok}.
Notation kc := (kc cmp).
Notation ikey := (item_key h).
Notation bound := (option (list Z)).
Implicit Types (lo hi mid : bound).

(** Keys from [lo] on and before [hi]; [None] is no bound. *)
Definition above lo (k : list Z) : Prop := match lo with Some a => kc a k ≤ 0 | None => True end.
Definition below (k : list Z) hi : Prop := match hi with Some b => kc k b < 0 | None => True end.
Definition bound_ok lo : Prop := match lo with Some a => ok a | None => True end.
Definition within lo hi (k : list Z) : Prop := above lo k ∧ below k hi.

Definition leaf_min (root : bool) : Z := if root then 1 else leaf_max_size h / 2.
Definition internal_min (root : bool) : Z := if root then 2 else internal_max_size h / 2.

(** The first key of a node is not compared, but it is the key its parent has for it;
    on the way along the left edge it is nothing. *)
Definition starts lo (k : list Z) : Prop := lo = None ∨ lo = Some k.

Fixpoint segment {A} (P : bound → bound → A → Prop) lo (l : list (list Z * A)) hi : Prop :=
  match l with
  | [] => False
  | (k, t) :: l =>
      starts lo k ∧
      match l with
      | [] => P lo hi t
      | (k', _) :: _ => P lo (Some k') t ∧ segment P (Some k') l hi
      end
  end.

Fixpoint wf (root : bool) lo hi {lv} : tree lv → Prop :=
  match lv with
  | O => λ t, leaf_min root ≤ Z.of_nat (length t.2) ≤ leaf_max_size h ∧ items_sorted h cmp t.2 ∧ keys_ok h ok t.2 ∧
      Forall (λ it, within lo hi (ikey it)) t.2 ∧ bound_ok lo ∧ bound_ok hi
  | S lv => λ t, internal_min root ≤ Z.of_nat (length t.2) ≤ internal_max_size h ∧ segment (λ lo hi, wf false lo hi (lv := lv)) lo t.2 hi
  end.
Definition kids_wf {lv} := segment (λ lo hi (t : tree lv), wf false lo hi t).

Lemma leaf_min_pos root : 1 ≤ leaf_min root.
Proof using HI. destruct HI, root; cbn; [lia|]. apply Z.div_le_lower_bound; lia. Qed.
Lemma internal_min_pos root : 1 ≤ internal_min root.
Proof using HI. destruct HI, root; cbn; [lia|]. apply Z.div_le_lower_bound; lia. Qed.

Lemma wf_root lo hi {lv} (t : tree lv) :
  wf false lo hi t → (match lv return tree lv → Prop with O => λ _, True | S _ => λ t, (2 ≤ length t.2)%nat end) t → wf true lo hi t.
Proof using HI.
  destruct lv, t as [p l]; cbn; intros [[H1 H2] H]; intros Hl; (split; [|done]); split; [|done| |done].
  - pose proof (leaf_min_pos false) as Hm. cbn in Hm. lia.
  - lia.
Qed.

(** What the bounds of a tree are. *)
Lemma seg_bounds {lv} lo (l : list (kid lv)) hi :
  (∀ lo hi (t : tree lv), wf false lo hi t → bound_ok lo ∧ bound_ok hi ∧ ∃ k, ok k ∧ within lo hi k) →
  kids_wf lo l hi → bound_ok lo ∧ bound_ok hi ∧ ∃ k, ok k ∧ within lo hi k.
Proof using KeyOrder0.
  intros IH. revert lo. induction l as [|[k t] l IHl]; [done|]. intros lo [_ Hs]. destruct l as [|[k' t'] l].
  - by apply (IH _ _ _ Hs).
  - destruct Hs as [Ht Hs]. destruct (IHl _ Hs) as (Hk' & Hhi & j & Oj & [J1 J2]).
    destruct (IH _ _ _ Ht) as (Hlo & _ & i & Oi & [I1 I2]). split_and!; try done. exists i. split; [done|]. split; [done|].
    cbn in *. destruct hi as [b|]; [|done]. cbn in *. apply (kc_lt_trans cmp ok i k' b); try done. by apply (kc_le_lt cmp ok k' j b).
Qed.

Lemma wf_bounds root lo hi {lv} (t : tree lv) : wf root lo hi t → bound_ok lo ∧ bound_ok hi ∧
  ∃ k, ok k ∧ within lo hi k.
Proof using HI KeyOrder0.
  revert root lo hi t. induction lv as [|lv IH]; intros root lo hi [p l]; cbn.
  - intros ([Hl _] & _ & K & F & Hlo & Hhi). pose proof (leaf_min_pos root). destruct l as [|it l]; [cbn in *; lia|].
    apply list.Forall_cons in K as [K _]. apply list.Forall_cons in F as [F _]. split_and!; try done. by exists (ikey it).
  - intros [_ Hs]. apply (seg_bounds lo l hi); [|done]. intros lo' hi' t. apply IH.
Qed.

Lemma segment_bounds {lv} lo (l : list (kid lv)) hi : kids_wf lo l hi → bound_ok lo ∧ bound_ok hi ∧ ∃ k, ok k ∧ within lo hi k.
Proof using HI KeyOrder0. intros Hs. exact (seg_bounds lo l hi (λ lo hi t, wf_bounds false lo hi t) Hs). Qed.

Lemma wf_lt root a b {lv} (t : tree lv) : wf root (Some a) (Some b) t → ok a ∧ ok b ∧ kc a b < 0.
Proof using HI KeyOrder0.
  intros (Ha & Hb & k & Ok & [H1 H2])%wf_bounds. split_and!; try done. by apply (kc_le_lt cmp ok a k b).
Qed.

(** Lists of children *)
Lemma segment_app {A} (P : bound → bound → A → Prop) lo l k t l' hi : l ≠ [] →
  segment P lo (l ++ (k, t) :: l') hi ↔ segment P lo l (Some k) ∧ segment P (Some k) ((k, t) :: l') hi.
Proof.
  intros Hl. revert lo. induction l as [|[k1 t1] l IH]; [done|]. intros lo. destruct l as [|[k2 t2] l].
  - cbn. unfold starts. split; [intros (H1 & H2 & H3 & H4); split_and!; try done|intros ((H1 & H2) & H3 & H4); split_and!; done].
  - cbn [app segment] in IH |- *. rewrite IH by done. naive_solver.
Qed.

(** The bounds of one child. *)
Definition left_of {A} (P : bound → bound → A → Prop) lo0 l k lo : Prop :=
  (l = [] ∧ lo = lo0 ∧ starts lo0 k) ∨ (segment P lo0 l (Some k) ∧ lo = Some k).
Definition right_of {A} (P : bound → bound → A → Prop) hi l hi0 : Prop :=
  (l = [] ∧ hi = hi0) ∨ ∃ k t l', l = (k, t) :: l' ∧ hi = Some k ∧ segment P (Some k) l hi0.

Lemma segment_focus {A} (P : bound → bound → A → Prop) lo0 l k t r hi0 :
  segment P lo0 (l ++ (k, t) :: r) hi0 ↔ ∃ lo hi, left_of P lo0 l k lo ∧ P lo hi t ∧ right_of P hi r hi0.
Proof.
  assert (∀ lo, segment P lo ((k, t) :: r) hi0 ↔ starts lo k ∧ ∃ hi, P lo hi t ∧ right_of P hi r hi0) as Hr.
  { intros lo. cbn. unfold right_of. destruct r as [|[k' t'] r].
    - split; [intros [? ?]; split; [done|]; exists hi0; naive_solver|]. intros [? (hi & ? & [[_ ->]|(? & ? & ? & ? & _)])]; done.
    - split; [intros (? & ? & ?); split; [done|]; exists (Some k'); naive_solver|].
      intros [? (hi & ? & [[? _]|(k2 & t2 & r2 & [= <- <- <-] & -> & ?)])]; done. }
  unfold left_of. destruct l as [|x l].
  - cbn [app]. rewrite Hr. naive_solver.
  - rewrite segment_app by done. rewrite Hr. unfold starts. split.
    + intros (H1 & _ & hi & H2 & H3). exists (Some k), hi. naive_solver.
    + intros (lo & hi & [[? _]|[H1 ->]] & H2 & H3); [done|]. split; [done|]. split; [by right|]. by exists hi.
Qed.

(** A child and a new one behind it. *)
Lemma segment_insert {A} (P : bound → bound → A → Prop) lo0 l k t k2 t2 r hi0 lo hi :
  left_of P lo0 l k lo → P lo (Some k2) t → P (Some k2) hi t2 → right_of P hi r hi0 →
  segment P lo0 (l ++ (k, t) :: (k2, t2) :: r) hi0.
Proof.
  intros Hl Ht Ht2 Hr. apply segment_focus. exists lo, (Some k2). split_and!; [done|done|]. right. exists k2, t2, r. split_and!; [done..|].
  apply (segment_focus P (Some k2) [] k2 t2 r hi0). exists (Some k2), hi. split_and!; [|done|done]. left. split_and!; [done..|]. by right.
Qed.

(** Separators in order *)
Lemma segment_sorted {lv} lo (l : list (kid lv)) hi k t :
  kids_wf lo ((k, t) :: l) hi → StronglySorted (λ a b, kc a b < 0) l.*1 ∧ Forall ok l.*1 ∧
  Forall (λ a, match lo with Some b => kc b a < 0 | None => True end ∧ below a hi) l.*1 .
Proof using HI KeyOrder0.
  unfold kids_wf. revert lo k t. induction l as [|[k' t'] l IH]; intros lo k t; [intros _; split_and!; constructor|].
  cbn [segment]. intros (_ & Ht & Hs). destruct (IH _ _ _ Hs) as (S1 & O1 & F1). cbn [fmap list_fmap fst].
  destruct (wf_bounds _ _ _ _ Ht) as (Blo & Ok' & j & Oj & [J1 J2]). cbn in Ok', J2.
  assert (below k' hi) as Hk'.
  { destruct (segment_bounds (Some k') ((k', t') :: l) hi Hs) as (_ & Ob & i & Oi & [I1 I2]). destruct hi as [b|]; [|done].
    by apply (kc_le_lt cmp ok k' i b). }
  assert (match lo with Some b => kc b k' < 0 | None => True end) as Hlo.
  { destruct lo as [a|]; [|done]. by apply wf_lt in Ht as (_ & _ & ?). }
  split_and!.
  - constructor; [done|]. eapply list.Forall_impl; [exact F1|]. by intros a [? _].
  - by constructor.
  - constructor; [done|]. apply list.Forall_forall. intros a Ha.
    rewrite list.Forall_forall in F1. destruct (F1 a Ha) as [Fa Fb]. split; [|done]. destruct lo as [b|]; [|done].
    rewrite list.Forall_forall in O1. apply (kc_lt_trans cmp ok b k' a); try done. by apply O1.
Qed.
(** ** Contents *)
Definition kids_flat {lv} (l : list (kid lv)) : list (list Z) := flat_map (λ x, flat x.2) l.

Record in_order lo hi (l : list (list Z)) : Prop := {
  in_sorted : items_sorted h cmp l;
  in_keys : keys_ok h ok l;
  in_range : Forall (λ it, within lo hi (ikey it)) l
}.

Lemma in_order_app lo k hi l l' : ok k → bound_ok lo → bound_ok hi → above lo k → match hi with Some b => kc k b ≤ 0 | None => True end →
  in_order lo (Some k) l → in_order (Some k) hi l' → in_order lo hi (l ++ l').
Proof using KeyOrder0.
  intros Ok Hlo Hhi Ha Hb [S1 K1 R1] [S2 K2 R2]. split.
  - apply StronglySorted_app_2; [|done|done]. intros a b Ia Ib. rewrite list.Forall_forall in R1, R2.
    unfold keys_ok in K1, K2. rewrite list.Forall_forall in K1, K2. unfold item_lt.
    apply (kc_lt_le cmp ok (ikey a) k (ikey b)); [by apply K1|done|by apply K2|by apply R1|by apply R2].
  - by apply Forall_app_2.
  - unfold keys_ok in K1, K2. apply Forall_app_2; apply list.Forall_forall; intros it Hit.
    + rewrite list.Forall_forall in R1, K1. destruct (R1 it Hit) as [A B]. split; [done|]. destruct hi as [b|]; [|done].
      apply (kc_lt_le cmp ok _ k b); try done. by apply K1.
    + rewrite list.Forall_forall in R2, K2. destruct (R2 it Hit) as [A B]. split; [|done]. destruct lo as [a|]; [|done].
      apply (kc_le_trans cmp ok a k); try done. by apply K2.
Qed.

Lemma in_order_split lo hi l it l' : bound_ok lo → bound_ok hi → in_order lo hi (l ++ it :: l') →
  in_order lo (Some (ikey it)) l ∧ in_order (Some (ikey it)) hi (it :: l').
Proof using KeyOrder0.
  intros Hlo Hhi [S1 K R]. unfold items_sorted in S1. apply StronglySorted_app in S1 as (S12 & S1 & S2). unfold keys_ok in K.
  apply Forall_app in K as [K1 K2], R as [R1 R2]. pose proof (proj1 (proj1 (list.Forall_cons _ _ _) K2)) as Oit. cbn in Oit. split; split; try done.
  - rewrite list.Forall_forall in R1, K1 |- *. intros x Hx. split; [by apply R1|]. apply (S12 x it Hx). left.
  - rewrite list.Forall_forall in R2, K2 |- *. intros x Hx. split; [|by apply R2]. cbn. apply elem_of_cons in Hx as [->|Hx]; [by rewrite (kc_refl cmp ok)|].
    apply StronglySorted_inv in S2 as [_ S2]. rewrite list.Forall_forall in S2. specialize (S2 x Hx). unfold item_lt in S2. lia.
Qed.

Lemma kids_in_order {lv} lo (l : list (kid lv)) hi :
  (∀ lo hi (t : tree lv), wf false lo hi t → in_order lo hi (flat t)) → kids_wf lo l hi → in_order lo hi (kids_flat l).
Proof using HI KeyOrder0.
  intros IH. revert lo. induction l as [|[k t] l IHl]; [done|]. intros lo [_ Hs]. destruct l as [|[k' t'] l].
  - cbn. rewrite app_nil_r. by apply IH.
  - destruct Hs as [Ht Hs]. destruct (wf_bounds _ _ _ _ Ht) as (Blo & Ok' & j & Oj & [J1 J2]).
    assert (bound_ok hi ∧ match hi with Some b => kc k' b ≤ 0 | None => True end) as [Bhi Hb].
    { destruct (segment_bounds (Some k') ((k', t') :: l) hi Hs) as (_ & Bhi & i & Oi & [I1 I2]). split; [done|]. destruct hi as [b|]; [|done].
      pose proof (kc_le_lt cmp ok k' i b Ok' Oi Bhi I1 I2). lia. }
    change (kids_flat ((k, t) :: (k', t') :: l)) with (flat t ++ kids_flat ((k', t') :: l)).
    apply (in_order_app lo k' hi); try done; [|by apply IH|by apply IHl].
    destruct lo as [a|]; [|done]. apply wf_lt in Ht as (_ & _ & ?). cbn. lia.
Qed.

Lemma wf_in_order root lo hi {lv} (t : tree lv) : wf root lo hi t → in_order lo hi (flat t).
Proof using HI KeyOrder0.
  revert root lo hi t. induction lv as [|lv IH]; intros root lo hi [p l].
  - cbn. intros (_ & ? & ? & ? & _). by split.
  - intros [_ Hs]. apply (kids_in_order lo l hi); [|done]. intros lo' hi' t. apply IH.
Qed.
End order.

(** ** Trees with a hole *)
Inductive ctx (lv : nat) : Type :=
| Top
| Up (p : PageNum) (l : list (kid lv)) (k : list Z) (r : list (kid lv)) (c : ctx (S lv)).
Arguments Top {lv}.
Arguments Up {lv} _ _ _ _ _.

Notation whole := {lv & tree lv}.

Fixpoint plug {lv} (c : ctx lv) (t : tree lv) : whole :=
  match c with
  | Top => existT lv t
  | Up p l k r c => plug c ((p, l ++ (k, t) :: r) : tree (S lv))
  end.

Fixpoint ctx_before {A} (f : PageNum → list (list Z) → list A) {lv} (c : ctx lv) : list A :=
  match c with Top => [] | Up p l k r c => ctx_before f c ++ flat_map (λ x, gather f x.2) l end.
Fixpoint ctx_after {A} (f : PageNum → list (list Z) → list A) {lv} (c : ctx lv) : list A :=
  match c with Top => [] | Up p l k r c => flat_map (λ x, gather f x.2) r ++ ctx_after f c end.
Fixpoint ctx_pages {lv} (c : ctx lv) : list PageNum :=
  match c with Top => [] | Up p l k r c => p :: kids_pages l ++ kids_pages r ++ ctx_pages c end.
Definition ctx_parent {lv} (c : ctx lv) : PageNum := match c with Top => BP_INVALID_PAGE_NUM | Up p _ _ _ _ => p end.
Definition is_top {lv} (c : ctx lv) : bool := match c with Top => true | _ => false end.

Fixpoint ctx_depth {lv} (c : ctx lv) : nat := match c with Top => O | Up _ _ _ _ c => S (ctx_depth c) end.

Lemma plug_level {lv} (c : ctx lv) (t : tree lv) : projT1 (plug c t) = (lv + ctx_depth c)%nat.
Proof. induction c as [lv|lv p l k r c IH]; cbn; [lia|]. rewrite IH. lia. Qed.

Lemma gather_plug {A} (f : PageNum → list (list Z) → list A) {lv} (c : ctx lv) (t : tree lv) :
  gather f (projT2 (plug c t)) = ctx_before f c ++ gather f t ++ ctx_after f c.
Proof.
  induction c as [lv|lv p l k r c IH]; cbn; [by rewrite app_nil_r|]. rewrite IH. cbn. rewrite flat_map_app. cbn.
  by rewrite <-!app_assoc.
Qed.

Lemma plug_root {lv} (c : ctx lv) (t t' : tree lv) : page_of t = page_of t' → page_of (projT2 (plug c t)) = page_of (projT2 (plug c t')).
Proof. induction c as [lv|lv p l k r c IH]; [done|]. intros _. by apply IH. Qed.

Lemma pages_plug {lv} (c : ctx lv) (t : tree lv) : tree_pages (projT2 (plug c t)) ≡ₚ tree_pages t ++ ctx_pages c.
Proof.
  induction c as [lv|lv p l k r c IH]; cbn; [by rewrite app_nil_r|]. rewrite IH. cbn. fold (kids_pages (l ++ (k, t) :: r)). rewrite kids_pages_app.
  change (kids_pages ((k, t) :: r)) with (tree_pages t ++ kids_pages r). rewrite <-Permutation_middle. constructor.
  rewrite (app_assoc (kids_pages l)), (Permutation_app_comm (kids_pages l)), <-!app_assoc. done.
Qed.

Lemma leaves_pages {lv} (t : tree lv) q : q ∈ leaves t → q ∈ tree_pages t.
Proof.
  revert t. induction lv as [|lv IH]; intros [p l]; cbn; [done|]. intros (x & Hx & Hq)%list_elem_of_In%in_flat_map. right.
  apply (kids_pages_elem l x); [by apply list_elem_of_In|]. by apply IH, list_elem_of_In.
Qed.

Lemma ctx_leaves_pages {lv} (c : ctx lv) q : q ∈ ctx_before (λ p _, [p]) c ++ ctx_after (λ p _, [p]) c → q ∈ ctx_pages c.
Proof.
  assert (∀ lv (l : list (kid lv)) q, q ∈ flat_map (λ x, gather (λ p _, [p]) x.2) l → q ∈ kids_pages l) as Hl.
  { intros lv' l q' (x & Hx & Hq)%list_elem_of_In%in_flat_map. apply (kids_pages_elem l x); [by apply list_elem_of_In|]. by apply leaves_pages, list_elem_of_In. }
  induction c as [lv|lv p l k r c IH]; cbn; [done|]. rewrite !elem_of_app in *. intros [[H|H]|[H|H]]; right; rewrite !elem_of_app.
  - right. right. apply IH. by left.
  - left. by apply Hl.
  - right. left. by apply Hl.
  - right. right. apply IH. by right.
Qed.

Section ctx_nodes.
Implicit Types N : gmap PageNum node.

(** The nodes above the hole; [page] is in it. *)
Fixpoint ctx_holds N (page : PageNum) {lv} (c : ctx lv) : Prop :=
  match c with
  | Top => True
  | Up p l k r c =>
      (∃ nx, N !! p = Some (mkNode false (ctx_parent c) nx (kid_items l ++ child_item k page :: kid_items r))) ∧
      (∀ x, x ∈ l ++ r → holds N p x.2) ∧ ctx_holds N p c
  end.

Lemma holds_plug N {lv} (c : ctx lv) (t : tree lv) :
  holds N BP_INVALID_PAGE_NUM (projT2 (plug c t)) ↔ holds N (ctx_parent c) t ∧ ctx_holds N (page_of t) c.
Proof.
  induction c as [lv|lv p l k r c IH]; [cbn; tauto|]. cbn [plug]. rewrite IH. cbn. rewrite kid_items_app.
  change (kid_items ((k, t) :: r)) with (child_item k (page_of t) :: kid_items r). split.
  - intros [[H1 H2] H3]. split_and!; [|done| |done].
    + apply (H2 (k, t)). apply elem_of_app. right. left.
    + intros x [Hx|Hx]%elem_of_app; apply H2, elem_of_app; [by left|]. right. by right.
  - intros (H1 & H2 & H3 & H4). split_and!; [done| |done]. intros x [Hx|[->|Hx]%elem_of_cons]%elem_of_app; [|done|]; apply H3, elem_of_app; auto.
Qed.

Lemma ctx_holds_in N page {lv} (c : ctx lv) q : ctx_holds N page c → q ∈ ctx_pages c → is_Some (N !! q).
Proof.
  revert page. induction c as [lv|lv p l k r c IH]; intros page; cbn; [by intros _ ?%not_elem_of_nil|]. intros ([nx E] & Hk & Hc).
  rewrite app_assoc, <-kids_pages_app. intros [->|[(x & Hx & Hq)%kids_pages_inv|Hq]%elem_of_app]%elem_of_cons; [by eexists| |by apply (IH p)].
  by apply (holds_in N p x.2); [apply Hk|].
Qed.

Lemma ctx_holds_frame N N' page {lv} (c : ctx lv) :
  (∀ q, q ∈ ctx_pages c → N' !! q = N !! q) → ctx_holds N page c → ctx_holds N' page c.
Proof.
  revert page. induction c as [lv|lv p l k r c IH]; intros page Hq; [done|]. cbn in *. intros ([nx E] & Hk & Hc). split_and!.
  - exists nx. rewrite Hq; [done|left].
  - intros x Hx. apply (holds_frame N); [|by apply Hk]. intros q Hin. apply Hq. right. rewrite app_assoc. apply elem_of_app. left.
    rewrite <-kids_pages_app. by apply (kids_pages_elem _ x).
  - apply IH; [|done]. intros q Hin. apply Hq. right. rewrite !elem_of_app. auto.
Qed.
End ctx_nodes.

(** ** Order around a hole *)
Section ctx_order.
Context (h : IndexFileHeader) (HI : index_ok h).
Context (cmp : list Z → list Z → option Z) (ok : list Z → Prop) `{!KeyOrder cmp ok}.
Notation bound := (option (list Z)).
Implicit Types (lo hi mid : bound).
Notation kid_wf lv := (λ lo hi (t : tree lv), wf h cmp ok false lo hi t).

Fixpoint ctx_wf lo hi {lv} (c : ctx lv) : Prop :=
  match c with
  | Top => lo = None ∧ hi = None
  | Up p l k r c => ∃ lo0 hi0, left_of (kid_wf lv) lo0 l k lo ∧ right_of (kid_wf lv) hi r hi0 ∧
      internal_min h (is_top c) ≤ Z.of_nat (length l + 1 + length r) ≤ internal_max_size h ∧ ctx_wf lo0 hi0 c
  end.

Lemma wf_plug {lv} (c : ctx lv) (t : tree lv) :
  wf h cmp ok true None None (projT2 (plug c t)) ↔ ∃ lo hi, ctx_wf lo hi c ∧ wf h cmp ok (is_top c) lo hi t.
Proof.
  induction c as [lv|lv p l k r c IH]; cbn; [naive_solver|]. rewrite IH. cbn. split.
  - intros (lo0 & hi0 & Hc & Hl & Hs). apply segment_focus in Hs as (lo & hi & H1 & H2 & H3).
    rewrite length_app in Hl. cbn in Hl. exists lo, hi. split; [|done]. exists lo0, hi0. split_and!; try done; lia.
  - intros (lo & hi & (lo0 & hi0 & H1 & H3 & Hl & Hc) & H2). exists lo0, hi0. rewrite length_app. cbn. split_and!; try done; try lia.
    apply segment_focus. by exists lo, hi.
Qed.

(** ** Searching *)
Notation kc := (kc cmp).
Notation ikey := (item_key h).

Lemma kid_item_key (x : list Z * PageNum) : item_ok h false (kid_item x) → ikey (kid_item x) = x.1 ∧ Z.of_nat (length x.1) = key_length h ∧ chars x.1.
Proof using HI.
  intros [Hl Hc]. pose proof (key_length_pos h HI). destruct x as [k c]. unfold kid_item, child_item in *. cbn [fst snd kind] in *.
  rewrite length_app, le_bytes_length in Hl. unfold item_size, value_size in Hl. unfold item_key.
  apply Forall_app in Hc as [Hc _]. split_and!; [|lia|done]. apply take_app_length'. lia.
Qed.

Lemma kid_items_keys {lv} (l : list (kid lv)) : Forall (item_ok h false) (kid_items l) → ikey <$> kid_items l = l.*1.
Proof using HI.
  unfold kid_items. induction l as [|x l IH]; [done|]. cbn [fmap list_fmap]. intros [Hx Hl]%list.Forall_cons. apply kid_item_key in Hx as [-> _]. by rewrite IH.
Qed.

Lemma kid_items_sorted {lv} (l : list (kid lv)) : Forall (item_ok h false) (kid_items l) →
  StronglySorted (λ a b, kc a b < 0) l.*1 → Forall ok l.*1 → items_sorted h cmp (kid_items l) ∧ keys_ok h ok (kid_items l).
Proof using HI.
  intros Hok Hs Hk. rewrite <-kid_items_keys in Hs, Hk by done. split.
  - clear Hok Hk. unfold items_sorted, item_lt. induction (kid_items l) as [|it its IH]; [constructor|]. cbn in Hs.
    apply StronglySorted_inv in Hs as [Hs Hf]. constructor; [by apply IH|]. by rewrite Forall_fmap in Hf.
  - by rewrite Forall_fmap in Hk.
Qed.

(** Where a key belongs in a node. *)
Lemma kid_search {lv} n d lo (kids : list (kid lv)) hi key :
  rep h n d → nd_leaf n = false → nd_items n = kid_items kids → kids_wf h cmp ok lo kids hi → ok key → within cmp lo hi key →
  ∃ l k t r lo' hi' pos, kids = l ++ (k, t) :: r ∧ internal_lookup h cmp d key = Some (Z.of_nat (length l), pos) ∧
    left_of (kid_wf lv) lo l k lo' ∧ wf h cmp ok false lo' hi' t ∧ right_of (kid_wf lv) hi' r hi ∧ within cmp lo' hi' key ∧
    (Forall (λ a, kc a key ≠ 0) (tail kids).*1 → pos = Z.of_nat (length l + 1)).
Proof using HI KeyOrder0.
  intros R El Ei Hs Ok [Hlo Hhi]. pose proof (rep_items h n d R) as Hok. rewrite El, Ei in Hok.
  destruct kids as [|[k0 t0] rest]; [done|]. change (kid_items ((k0, t0) :: rest)) with (kid_item (k0, page_of t0) :: kid_items rest) in *.
  apply list.Forall_cons in Hok as [_ Hok]. pose proof (segment_sorted h HI cmp ok _ _ _ _ _ Hs) as (S1 & O1 & _).
  destruct (kid_items_sorted rest Hok S1 O1) as [So Ko].
  destruct (internal_lookup_ok h HI cmp ok n d key _ _ R El Ei So Ko Ok) as (l1 & l2 & pos & E & Hlk & F1 & F2 & Hpos).
  destruct (split_at rest (length l1)) as (r1 & r2 & -> & Hr1).
  { rewrite <-(kid_items_length rest), E, length_app. lia. }
  rewrite kid_items_app in E, Hok. apply app_inj_1 in E as [<- <-]; [|by rewrite kid_items_length]. apply Forall_app in Hok as [Hok1 Hok2].
  assert (∀ (P : list Z → Prop) (l : list (kid lv)), Forall (item_ok h false) (kid_items l) → Forall (λ it, P (ikey it)) (kid_items l) ↔ Forall P l.*1) as Hkeys.
  { intros P l Hl. by rewrite <-(kid_items_keys l Hl), Forall_fmap. }
  rewrite (Hkeys (λ a, kc a key ≤ 0) r1 Hok1) in F1. rewrite (Hkeys (λ a, 0 < kc a key) r2 Hok2) in F2. rewrite (Hkeys (λ a, kc a key ≠ 0) r1 Hok1) in Hpos.
  rewrite kid_items_length in *.
  assert (∃ l k t, (k0, t0) :: r1 = l ++ [(k, t)]) as (l & k & t & El1).
  { destruct (exists_last (l := (k0, t0) :: r1)) as (l & [k t] & ->); [done|]. by exists l, k, t. }
  assert (length l = length r1) as Hlen by (apply (f_equal length) in El1; rewrite length_app in El1; cbn in El1; lia).
  assert ((k0, t0) :: r1 ++ r2 = l ++ (k, t) :: r2) as Ek by (rewrite app_comm_cons, El1, <-app_assoc; done).
  rewrite Ek in Hs. apply segment_focus in Hs as (lo' & hi' & Hl' & Ht & Hr'). exists l, k, t, r2, lo', hi', pos.
  split_and!; [done|by rewrite Hlk, Hlen|done|done|done| |].
  - split.
    + destruct Hl' as [(-> & -> & _)|[Hseg ->]]; [done|]. destruct r1 as [|x r1] using rev_ind; [|clear IHr1].
      * destruct l; [done|cbn in Hlen; lia].
      * rewrite app_comm_cons in El1. apply app_inj_tail in El1 as [_ ->]. rewrite fmap_app, Forall_app in F1. destruct F1 as [_ F1].
        apply list.Forall_cons in F1 as [F1 _]. done.
    + destruct Hr' as [[-> ->]|(k1 & t1 & r' & -> & -> & _)]; [done|]. cbn in F2. apply list.Forall_cons in F2 as [F2 _].
      rewrite fmap_app, Forall_app in O1. destruct O1 as [_ O1]. apply list.Forall_cons in O1 as [O1 _]. by apply (kc_pos cmp ok).
  - cbn. rewrite fmap_app, Forall_app. intros [Hne _]. rewrite Hpos by done. lia.
Qed.

Lemma split_unique {A} (P R : A → Prop) (l1 l2 r1 r2 : list A) :
  (∀ a, P a → R a → False) → l1 ++ l2 = r1 ++ r2 → Forall P l1 → Forall R l2 → Forall P r1 → Forall R r2 → l1 = r1.
Proof.
  intros HPR. revert r1. induction l1 as [|a l1 IH]; intros [|b r1]; cbn; [done| | |].
  - intros -> _ F2 F3 _. exfalso. apply list.Forall_cons in F2 as [F2 _], F3 as [F3 _]. by apply (HPR b).
  - intros <- F1 _ _ F4. exfalso. apply list.Forall_cons in F1 as [F1 _], F4 as [F4 _]. by apply (HPR a).
  - intros [= -> E] F1 F2 F3 F4. f_equal. apply list.Forall_cons in F1 as [_ F1], F3 as [_ F3]. by apply IH.
Qed.

(** Where the key of a divided child goes. *)
Lemma insert_position {lv} n d lo0 l k0 (t1 : tree lv) k t2 r hi0 :
  rep h n d → nd_leaf n = false → nd_items n = kid_items (l ++ (k0, t1) :: r) → kids_wf h cmp ok lo0 (l ++ (k0, t1) :: (k, t2) :: r) hi0 →
  internal_lookup h cmp d k = Some (Z.of_nat (length l), Z.of_nat (length l + 1)).
Proof using HI KeyOrder0.
  intros R El Ei Hs. pose proof (rep_items h n d R) as Hok. rewrite El, Ei in Hok.
  assert (∃ x R1, l ++ [(k0, t1)] = x :: R1 ∧ length R1 = length l) as ([kx tx] & R1 & Ex & Hlen).
  { destruct l as [|x l]; [by eexists _, []|]. exists x, (l ++ [(k0, t1)]). split; [done|]. rewrite length_app. cbn. lia. }
  assert (∀ l', l ++ (k0, t1) :: l' = (kx, tx) :: R1 ++ l') as Ex' by (intros l'; by rewrite app_comm_cons, <-Ex, <-app_assoc).
  rewrite Ex' in Hs, Ei, Hok. change (kid_items ((kx, tx) :: R1 ++ r)) with (kid_item (kx, page_of tx) :: kid_items (R1 ++ r)) in *.
  apply list.Forall_cons in Hok as [_ Hok]. pose proof (segment_sorted h HI cmp ok _ _ _ _ _ Hs) as (S1 & O1 & _).
  rewrite fmap_app in S1, O1. cbn [fmap list_fmap fst] in S1, O1. apply Forall_app in O1 as [O1 O2]. apply list.Forall_cons in O2 as [Ok O2].
  pose proof (StronglySorted_app_1_r _ _ _ S1) as S2. apply StronglySorted_inv in S2 as [S2 F2].
  pose proof (StronglySorted_app_1_l _ _ _ S1) as S3.
  assert (Forall (λ a, kc a k < 0) R1.*1) as F1.
  { apply list.Forall_forall. intros a Ha. apply (StronglySorted_app_1_elem_of _ _ _ _ _ S1 Ha). left. }
  assert (StronglySorted (λ a b, kc a b < 0) (R1 ++ r).*1) as S4.
  { rewrite fmap_app. apply StronglySorted_app_2; [|done|done]. intros a b Ha Hb. apply (StronglySorted_app_1_elem_of _ _ _ _ _ S1 Ha). by right. }
  destruct (kid_items_sorted (R1 ++ r) Hok S4) as [So Ko]; [rewrite fmap_app; by apply Forall_app_2|].
  destruct (internal_lookup_ok h HI cmp ok n d k _ _ R El Ei So Ko Ok) as (l1 & l2 & pos & E & Hlk & G1 & G2 & Hpos).
  assert (Forall (λ it, kc (ikey it) k ≤ 0) (kid_items R1) ∧ Forall (λ it, 0 < kc (ikey it) k) (kid_items r)) as [G3 G4].
  { rewrite kid_items_app in Hok. apply Forall_app in Hok as [H1 H2]. split.
    - change (Forall ((λ a, kc a k ≤ 0) ∘ ikey) (kid_items R1)). rewrite <-Forall_fmap, kid_items_keys by done.
      eapply list.Forall_impl; [exact F1|]. cbn. lia.
    - change (Forall ((λ a, 0 < kc a k) ∘ ikey) (kid_items r)). rewrite <-Forall_fmap, kid_items_keys by done.
      apply list.Forall_forall. intros a Ha. rewrite list.Forall_forall in F2, O2. apply (kc_pos cmp ok); [by apply O2|done|by apply F2]. }
  rewrite kid_items_app in E.
  assert (l1 = kid_items R1) as -> by (eapply (split_unique (λ it, kc (ikey it) k ≤ 0)); [|by symmetry| | | |]; try done; cbn; lia).
  rewrite Hlk, kid_items_length, Hlen. rewrite Hpos; [do 2 f_equal; rewrite kid_items_length; lia|].
  rewrite kid_items_app in Hok. apply Forall_app in Hok as [H1 _].
  change (Forall ((λ a, kc a k ≠ 0) ∘ ikey) (kid_items R1)). rewrite <-Forall_fmap, kid_items_keys by done.
  eapply list.Forall_impl; [exact F1|]. cbn. lia.
Qed.

(** ** The items beside a hole *)
Definition before_bound lo (it : list Z) : Prop := ok (ikey it) ∧ ∃ a, lo = Some a ∧ kc (ikey it) a < 0.
Definition after_bound hi (it : list Z) : Prop := ok (ikey it) ∧ ∃ b, hi = Some b ∧ kc b (ikey it) ≤ 0.
Notation items_before c := (ctx_before (λ _ its, its) c).
Notation items_after c := (ctx_after (λ _ its, its) c).

Lemma ctx_outside lo hi {lv} (c : ctx lv) (k : list Z) : ctx_wf lo hi c → ok k → bound_ok ok lo → bound_ok ok hi → within cmp lo hi k →
  Forall (before_bound lo) (items_before c) ∧ Forall (after_bound hi) (items_after c).
Proof using HI KeyOrder0.
  intros Hc Ok. revert lo hi Hc. induction c as [lv|lv p l key r c IH]; intros lo hi; [intros _ _ _ _; split; constructor|]. cbn.
  intros (lo0 & hi0 & Hl & Hr & _ & Hc) Blo Bhi [W1 W2].
  assert (bound_ok ok lo0 ∧ above cmp lo0 k ∧ (l = [] → lo = lo0) ∧
    (∀ a, lo0 = Some a → l ≠ [] → ∃ b, lo = Some b ∧ kc a b < 0) ∧
    Forall (before_bound lo) (kids_flat l)) as (Bl & Al & El & Ll & Fl).
  { destruct Hl as [(-> & -> & _)|[Hs ->]]; [split_and!; try done; constructor|].
    destruct (segment_bounds h HI cmp ok lo0 l (Some key) Hs) as (B1 & _ & j & Oj & [J1 J2]). cbn in J2, W1, Blo.
    assert (∀ a, lo0 = Some a → kc a key < 0) as Hlt.
    { intros a ->. by apply (kc_le_lt cmp ok a j key). }
    split_and!; [done| | |intros a Ha _; exists key; auto|].
    - destruct lo0 as [a|]; [|done]. cbn. apply (kc_le_trans cmp ok a key k); try done. specialize (Hlt a eq_refl). lia.
    - intros ->. done.
    - destruct (kids_in_order h HI cmp ok lo0 l (Some key) (λ lo hi t, wf_in_order h HI cmp ok false lo hi t) Hs) as [_ K F].
      unfold keys_ok in K. rewrite list.Forall_forall in K, F |- *. intros it Hit. split; [by apply K|]. exists key. split; [done|]. by apply F. }
  assert (bound_ok ok hi0 ∧ below cmp k hi0 ∧ (r = [] → hi = hi0) ∧
    (∀ a, hi0 = Some a → r ≠ [] → ∃ b, hi = Some b ∧ kc b a < 0) ∧
    Forall (after_bound hi) (kids_flat r)) as (Br & Ar & Er & Lr & Fr).
  { destruct Hr as [[-> ->]|(k1 & t1 & r' & -> & -> & Hs)]; [split_and!; try done; constructor|].
    destruct (segment_bounds h HI cmp ok (Some k1) _ hi0 Hs) as (_ & B2 & j & Oj & [J1 J2]). cbn in J1, W2, Bhi.
    assert (∀ b, hi0 = Some b → kc k1 b < 0) as Hlt.
    { intros b ->. by apply (kc_le_lt cmp ok k1 j b). }
    split_and!; [done| |done|intros a Ha _; exists k1; auto|].
    - destruct hi0 as [b|]; [|done]. cbn. apply (kc_lt_trans cmp ok k k1 b); try done. by apply Hlt.
    - destruct (kids_in_order h HI cmp ok (Some k1) _ hi0 (λ lo hi t, wf_in_order h HI cmp ok false lo hi t) Hs) as [_ K F].
      unfold keys_ok in K. rewrite list.Forall_forall in K, F |- *. intros it Hit. split; [by apply K|]. exists k1. split; [done|]. by apply F. }
  destruct (IH lo0 hi0 Hc Bl Br (conj Al Ar)) as [F1 F2]. fold (kids_flat l) (kids_flat r). split; apply Forall_app_2; try done.
  - destruct l as [|x l]; [by rewrite El|]. eapply list.Forall_impl; [exact F1|]. intros it [Oit (a & -> & Ha)]. split; [done|].
    destruct (Ll a eq_refl) as (b & -> & Hb); [done|]. exists b. split; [done|]. by apply (kc_lt_trans cmp ok _ a b).
  - destruct r as [|x r]; [by rewrite Er|]. eapply list.Forall_impl; [exact F2|]. intros it [Oit (a & -> & Ha)]. split; [done|].
    destruct (Lr a eq_refl) as (b & -> & Hb); [done|]. exists b. split; [done|]. apply (kc_le_trans cmp ok b a); try done. lia.
Qed.
End ctx_order.
