(* ===== verification/IndexFind.v ===== *)
(** * Finding a leaf

    The way down from the root: which leaf [find_leaf] and [left_most_page] come to,
    that they end, and what the thread still holds then: the leaf, and every node above
    it that a change of the leaf may reach. *)

From stdpp Require Import sorting.
From S2P Require Import Prelude Types Bytes RecordPage IndexKey IndexNode IndexNodeSpec IndexPool IndexLog BplusTree IndexLaws IndexSteps IndexNodeOps IndexTree.
Local Open Scope Z_scope.

(** What stays the same while pages are fetched and released. *)
Record calm (g g' : ghost) : Prop := {
  ca_header : g_header g' = g_header g;
  ca_extra : g_extra g' = g_extra g;
  ca_mode : g_mode g' = g_mode g;
  ca_lock : g_lock g' = g_lock g;
  ca_disposed : g_disposed g' = g_disposed g;
  ca_raw : g_raw g' = g_raw g;
  ca_loose : g_loose g' = g_loose g;
  ca_free : g_free g' = g_free g
}.

Lemma calm_refl g : calm g g.
Proof. by split. Qed.
Lemma calm_trans g1 g2 g3 : calm g1 g2 → calm g2 g3 → calm g1 g3.
Proof. intros [] []. split; congruence. Qed.
Lemma calm_push i g : calm g (push i g).
Proof. by split. Qed.
Lemma calm_memo l dy g : calm g (with_memo l dy g).
Proof. by split. Qed.

Definition op_mode (op : BplusTreeOperationType) : ReadWriteMode := match op with OpRead => READ_ONLY | _ => READ_WRITE end.

(** [is_safe] of a node with [n] items. *)
Definition node_safe (h : IndexFileHeader) (op : BplusTreeOperationType) (root leaf : bool) (n : Z) : bool :=
  match op with
  | OpRead => true
  | OpInsert => n <? max_size h leaf
  | OpDelete => if root then (if leaf then 1 <? n else 2 <? n) else min_size h leaf <? n
  end.

Lemma rep_is_safe h n d op root : index_ok h → rep h n d →
  is_safe h d op root = Some (node_safe h op root (nd_leaf n) (Z.of_nat (length (nd_items n)))).
Proof.
  intros HI R. unfold is_safe. rewrite (rep_is_leaf h n d R). cbn [mbind option_bind]. rewrite (rep_size h HI n d R). cbn [mbind option_bind].
  by destruct op.
Qed.

Lemma rep_child h n d i k (c : PageNum) : index_ok h → rep h n d → nd_leaf n = false → nd_items n !! i = Some (child_item k c) → in_srange 32 c →
  child_at h d (Z.of_nat i) = Some c.
Proof.
  intros HI R El Hi Hc. pose proof (rep_value_at h HI n d i _ R Hi) as E. rewrite El in E. unfold child_at. cbn [kind] in E. rewrite E.
  pose proof (Forall_lookup_1 _ _ _ _ (rep_items h n d R) Hi) as [Hl _]. rewrite El in Hl.
  cbn [mbind option_bind]. unfold item_value, child_item in *. rewrite length_app, le_bytes_length in Hl. unfold item_size in Hl. cbn in Hl.
  rewrite drop_app_length' by lia. rewrite <-(app_nil_r (le_bytes 4 c)). by apply (get_i32_mid []).
Qed.

Section find.
Context {S : Type} `{!IndexPool S, !IndexPoolLaws S}.
Notation Tree := (Tree S).
Implicit Types (T : Tree) (N : gmap PageNum node) (g : ghost) (p q : PageNum) (n : node).
Notation kcmp h := (comparator h).
Notation kok h := (key_ok (attr_type h) (attr_length h)).

Lemma st_page_range T N g p n : st T N g → N !! p = Some n → 0 ≤ p ≤ INT32_MAX ∧ in_srange 32 p.
Proof.
  intros I Hn. destruct (s_nodes _ _ _ I p n Hn) as (d & Hd & _). destruct (pl_pages S _ (s_inv _ _ _ I) p d Hd) as [Hr _].
  split; [done|]. unfold INT32_MAX in Hr. split; cbn; lia.
Qed.

(** ** One step down *)
Definition latched g p : Prop := MemoPin p ∈ g_items g ∧ MemoLatch (g_mode g) p ∈ g_items g.

Lemma crab_ok T N g op p n root :
  st T N g → N !! p = Some n → g_loose g = ∅ → g_mode g = op_mode op →
  let safe := node_safe (g_header g) op root (nd_leaf n) (Z.of_nat (length (nd_items n))) in
  ∃ T' g', crabing_protocal_fetch_page op p root T = Some (RC.SUCCESS, T') ∧ st T' N g' ∧ calm g g' ∧ latched g' p ∧
    (safe = false → ∃ l, g_items g' = g_items g ++ l).
Proof.
  intros I Hn Hlo Hmode safe. unfold crabing_protocal_fetch_page. erewrite (bind_run memo_point) by done. rewrite (s_items _ _ _ I).
  destruct (memo_get_ok T N g p n I Hn) as (T1 & E1 & I1). rewrite (exec E1). change (RC.OB_FAIL RC.SUCCESS) with false. cbn iota.
  assert (MemoPin p ∈ g_items (push (MemoPin p) g)) as Hp1 by (apply elem_of_app; right; left).
  destruct (memo_latch_ok T1 N _ p I1 Hp1) as (T2 & E2 & I2). cbn [g_mode push] in E2, I2. fold (op_mode op). rewrite <-Hmode, (exec E2).
  rewrite (exec (header_ok _ _ _ I2)). set (g2 := push (MemoLatch (g_mode g) p) (push (MemoPin p) g)) in *.
  assert (latched g2 p) as Hl2.
  { split; cbn; rewrite !elem_of_app; [left; by right; left|right; left]. }
  rewrite (exec (read_ok T2 N g2 p n _ safe I2 (or_introl (proj1 Hl2)) Hn (λ d R, rep_is_safe (g_header g) n d op root (s_index _ _ _ I) R))).
  destruct safe eqn:Es.
  - destruct (release_to_ok T2 N g2 (g_items g) [MemoPin p; MemoLatch (g_mode g) p]) as (T3 & dy & E3 & I3 & _).
    + done.
    + cbn. by rewrite <-app_assoc.
    + apply (pins_first_snoc [MemoPin p]); [|intros ? ? [= _ <-]; left]. apply (pins_first_snoc []); [apply pins_first_nil|done].
    + cbn. rewrite Hlo. intros q _. apply not_elem_of_empty.
    + rewrite (exec E3). exists T3, (with_memo [MemoPin p; MemoLatch (g_mode g) p] dy g2). split_and!; [done|done|by split| |done].
      split; cbn; [left|right; left].
  - exists T2, g2. split_and!; [done|done|by split|done|]. intros _. exists [MemoPin p; MemoLatch (g_mode g) p]. cbn. by rewrite <-app_assoc.
Qed.

(** ** What is held above a node *)
Fixpoint guarded op g {lv} (safe : bool) (c : ctx lv) : Prop :=
  safe = false →
  match c with
  | Top => MemoLock (op_mode op) ∈ g_items g
  | Up p l k r c => latched g p ∧ guarded op g (node_safe (g_header g) op (is_top c) false (Z.of_nat (length l + 1 + length r))) c
  end.

Lemma guarded_mono op g g' {lv} safe (c : ctx lv) :
  g_header g' = g_header g → g_mode g' = g_mode g → (∃ l, g_items g' = g_items g ++ l) → guarded op g safe c → guarded op g' safe c.
Proof.
  intros Eh Em [l El]. revert safe. induction c as [lv|lv p l' k r c IH]; intros safe; cbn; intros Hg Hs; specialize (Hg Hs).
  - rewrite El. apply elem_of_app. by left.
  - destruct Hg as [[H1 H2] H3]. split; [|rewrite Eh; by apply IH]. split; rewrite ?Em, El; apply elem_of_app; by left.
Qed.

(** ** The whole way *)
Section descend.
Context (h : IndexFileHeader) (HI : index_ok h).
Context (child_page_getter : IndexFileHeader → list Z → option PageNum) (Q : option (list Z) → option (list Z) → Prop).
Notation kid_wf lv := (λ lo hi (t : tree lv), wf h (kcmp h) (kok h) false lo hi t).

(** The getter stays on the way to what is searched. *)
Hypothesis getter_ok : ∀ lv n d lo (kids : list (kid lv)) hi,
  rep h n d → nd_leaf n = false → nd_items n = kid_items kids → kids_wf h (kcmp h) (kok h) lo kids hi → Q lo hi →
  (∀ x, x ∈ kids → in_srange 32 (page_of x.2)) →
  ∃ l k t r lo' hi', kids = l ++ (k, t) :: r ∧ child_page_getter h d = Some (page_of t) ∧
    left_of (kid_wf lv) lo l k lo' ∧ wf h (kcmp h) (kok h) false lo' hi' t ∧ right_of (kid_wf lv) hi' r hi ∧ Q lo' hi'.

(** The leaf that was found: its place in the tree, and what is held. *)
Record found op g (W : whole) p g' : Prop := {
  fd_calm : calm g g';
  fd_latched : latched g' p;
  fd_place : ∃ (c : ctx 0) its lo hi, plug c (p, its) = W ∧ ctx_wf h (kcmp h) (kok h) lo hi c ∧
    wf h (kcmp h) (kok h) (is_top c) lo hi ((p, its) : tree 0) ∧ Q lo hi ∧
    guarded op g' (node_safe h op (is_top c) true (Z.of_nat (length its))) c
}.

Definition node_len {lv} : tree lv → nat := match lv with O => λ t, length t.2 | Datatypes.S _ => λ t, length t.2 end.
Definition leaf_level (lv : nat) : bool := match lv with O => true | _ => false end.

Lemma holds_page N parent {lv} (t : tree lv) : holds N parent t →
  ∃ n, N !! page_of t = Some n ∧ nd_leaf n = leaf_level lv ∧ length (nd_items n) = node_len t ∧ nd_parent n = parent.
Proof.
  destruct lv, t as [p l]; cbn; [intros [nx E]|intros [[nx E] _]]; eexists; (split; [exact E|]); [done|].
  cbn. by rewrite kid_items_length.
Qed.

Lemma find_leaf_loop_ok op {lv} (t : tree lv) : ∀ fuel (c : ctx lv) T N g lo hi,
  st T N g → g_header g = h → g_loose g = ∅ → g_mode g = op_mode op → holds N BP_INVALID_PAGE_NUM (projT2 (plug c t)) →
  ctx_wf h (kcmp h) (kok h) lo hi c → wf h (kcmp h) (kok h) (is_top c) lo hi t → Q lo hi → latched g (page_of t) →
  guarded op g (node_safe h op (is_top c) (leaf_level lv) (Z.of_nat (node_len t))) c → (lv ≤ fuel)%nat →
  ∃ p T' g', find_leaf_loop fuel op child_page_getter (page_of t) T = Some ((RC.SUCCESS, p), T') ∧ st T' N g' ∧
    found op g (plug c t) p g'.
Proof using HI getter_ok.
  induction lv as [|lv IH]; intros fuel c T N g lo hi I Eh Hlo Hm HN Hc Hw HQ Hla Hg Hf.
  - destruct t as [p its]. cbn [page_of fst] in *. destruct (proj1 (holds_plug N c _) HN) as [[nx Hn] _]. cbn [fst snd] in Hn.
    unfold find_leaf_loop. assert (pinned g p) as Hp by (left; apply Hla).
    destruct fuel as [|fuel]; rewrite (exec (read_ok T N g p _ is_leaf true I Hp Hn (λ d R, rep_is_leaf _ _ d R)));
      (exists p, T, g; split_and!; [done|done|]; split; [apply calm_refl|done|]; exists c, its, lo, hi; done).
  - destruct t as [p kids]. destruct fuel as [|fuel]; [lia|]. destruct (proj1 (holds_plug N c _) HN) as [[[nx Hn] Hk] HC]. cbn [page_of fst snd] in *.
    set (n := mkNode false (ctx_parent c) nx (kid_items kids)) in *. assert (pinned g p) as Hp by (left; apply Hla). destruct Hw as [Hsz Hs]. cbn [snd] in Hs.
    assert (∀ x, x ∈ kids → in_srange 32 (page_of x.2)) as Hr.
    { intros x Hx. destruct (holds_page N p x.2 (Hk x Hx)) as (m & Hm' & _). by apply (st_page_range _ _ _ _ _ I Hm'). }
    destruct (read_page T N g p n I Hp Hn) as (d & R & Hread). rewrite Eh in R.
    destruct (getter_ok lv n d lo kids hi R eq_refl eq_refl Hs HQ Hr) as (l & k & t & r & lo' & hi' & -> & Hget & Hl & Ht & Hri & HQ').
    destruct (holds_page N p t) as (m & Hmn & Hleaf & Hlen & _).
    { apply (Hk (k, t)), elem_of_app. right. left. }
    destruct (crab_ok T N g op (page_of t) m false I Hmn Hlo Hm) as (T1 & g1 & E1 & I1 & C1 & L1 & G1).
    destruct (IH t fuel (Up p l k r c) T1 N g1 lo' hi' I1) as (q & T2 & g2 & E2 & I2 & [C2 L2 P2]); try done.
    + by rewrite (ca_header _ _ C1).
    + by rewrite (ca_loose _ _ C1).
    + by rewrite (ca_mode _ _ C1).
    + exists lo, hi. cbn [snd] in Hsz. rewrite length_app in Hsz. cbn [length] in Hsz. split_and!; try done; lia.
    + rewrite Hleaf, Hlen, Eh in G1. intros Hsafe. specialize (G1 Hsafe). destruct G1 as [its Ei]. split.
      * destruct Hla as [H1 H2]. split; rewrite ?(ca_mode _ _ C1), Ei; apply elem_of_app; by left.
      * rewrite (ca_header _ _ C1), Eh. apply (guarded_mono op g); [apply C1|apply C1|by exists its|].
        cbn [node_len snd leaf_level] in Hg. rewrite length_app in Hg. cbn [length] in Hg. by rewrite <-Nat.add_assoc.
    + lia.
    + exists q, T2, g2. split_and!; [|done|split; [by eapply calm_trans|done|exact P2]].
      cbn [find_leaf_loop]. rewrite (exec (Hread _ is_leaf false (rep_is_leaf h n d R))). rewrite (exec (header_ok _ _ _ I)), Eh.
      rewrite (exec (Hread _ _ _ Hget)), (exec E1). exact E2.
Qed.

(** From the root, with [root_lock_] held until the root is found safe. *)
Lemma find_leaf_internal_ok op fuel T N g (W : whole) :
  st T N g → g_header g = h → g_loose g = ∅ → g_mode g = op_mode op → g_lock g = Unlocked → g_items g = [] →
  holds N BP_INVALID_PAGE_NUM (projT2 W) → wf h (kcmp h) (kok h) true None None (projT2 W) → Q None None →
  root_page h = page_of (projT2 W) → (projT1 W ≤ fuel)%nat →
  ∃ p T' g', find_leaf_internal fuel op child_page_getter T = Some ((RC.SUCCESS, p), T') ∧ st T' N g' ∧ found op g W p g'.
Proof using HI getter_ok.
  intros I Eh Hlo Hm Hlk Hi HN Hw HQ Hroot Hf. destruct W as [lv t]. cbn [projT1 projT2] in *.
  destruct (latch_root_ok T N g (op_mode op) I Hlk) as (T1 & E1 & I1); [by rewrite Hi|].
  destruct (holds_page N _ t HN) as (m & Hmn & Hleaf & Hlen & _). pose proof (st_page_range _ _ _ _ _ I Hmn) as [Hr _].
  destruct (crab_ok T1 N _ op (page_of t) m true I1 Hmn Hlo Hm) as (T2 & g2 & E2 & I2 & C2 & L2 & G2). cbn [g_header push] in G2.
  assert (calm g g2) as C by (eapply calm_trans; [apply calm_push|exact C2]).
  destruct (find_leaf_loop_ok op t fuel Top T2 N g2 None None I2) as (q & T3 & g3 & E3 & I3 & [C3 L3 P3]); try done.
  - by rewrite (ca_header _ _ C).
  - by rewrite (ca_loose _ _ C).
  - by rewrite (ca_mode _ _ C).
  - rewrite Hleaf, Hlen, Eh in G2. intros Hsafe. destruct (G2 Hsafe) as [l Ei]. rewrite Ei. cbn. rewrite Hi. apply elem_of_app. left. left.
  - exists q, T3, g3. split_and!; [|done|split; [by eapply calm_trans|done|done]].
    unfold find_leaf_internal. fold (op_mode op). rewrite (exec E1). unfold is_empty. erewrite (bind_run (_ ≫= _)).
    2:{ rewrite (exec (header_ok _ _ _ I1)). done. }
    cbn [g_header push]. rewrite Eh, Hroot. rewrite (proj2 (Z.eqb_neq _ _)) by (change BP_INVALID_PAGE_NUM with (-1); lia).
    rewrite (exec (header_ok _ _ _ I1)). cbn [g_header push]. rewrite Eh, Hroot, (exec E2). exact E3.
Qed.
End descend.

(** ** [find_leaf] and [left_most_page] *)
(** A tree in the file, at the beginning of a mini transaction. *)
Record planted T N g (W : whole) : Prop := {
  pt_st : st T N g;
  pt_loose : g_loose g = ∅;
  pt_lock : g_lock g = Unlocked;
  pt_items : g_items g = [];
  pt_holds : holds N BP_INVALID_PAGE_NUM (projT2 W);
  pt_wf : wf (g_header g) (kcmp (g_header g)) (kok (g_header g)) true None None (projT2 W);
  pt_root : root_page (g_header g) = page_of (projT2 W)
}.

Lemma find_leaf_ok op fuel T N g (W : whole) key :
  planted T N g W → g_mode g = op_mode op → kok (g_header g) key → (projT1 W ≤ fuel)%nat →
  ∃ p T' g', find_leaf fuel op key T = Some ((RC.SUCCESS, p), T') ∧ st T' N g' ∧
    found (g_header g) (λ lo hi, within (kcmp (g_header g)) lo hi key) op g W p g'.
Proof.
  intros [I Hlo Hlk Hi HN Hw Hroot] Hm Hk Hf. pose proof (s_index _ _ _ I) as HI. unfold find_leaf. apply find_leaf_internal_ok; try done.
  intros lv n d lo kids hi R El Ei Hs HQ Hr.
  destruct (kid_search (g_header g) HI _ _ n d lo kids hi key R El Ei Hs Hk HQ) as (l & k & t & r & lo' & hi' & pos & E & Hlkp & H1 & H2 & H3 & H4 & _).
  exists l, k, t, r, lo', hi'. split_and!; try done. unfold child_for_key. rewrite Hlkp. cbn [mbind option_bind].
  apply (rep_child (g_header g) n d (length l) k); try done.
  - rewrite Ei, E, kid_items_app, <-(kid_items_length l). by apply list_lookup_middle.
  - apply (Hr (k, t)). rewrite E. apply elem_of_app. right. left.
Qed.

Lemma left_most_ok fuel T N g (W : whole) :
  planted T N g W → g_mode g = READ_ONLY → (projT1 W ≤ fuel)%nat →
  ∃ p T' g', left_most_page fuel T = Some ((RC.SUCCESS, p), T') ∧ st T' N g' ∧
    found (g_header g) (λ lo hi, lo = None) OpRead g W p g'.
Proof.
  intros [I Hlo Hlk Hi HN Hw Hroot] Hm Hf. pose proof (s_index _ _ _ I) as HI. unfold left_most_page. apply find_leaf_internal_ok; try done.
  intros lv n d lo kids hi R El Ei Hs -> Hr. destruct kids as [|[k t] r]; [done|].
  pose proof (proj1 (segment_focus _ None [] k t r hi) Hs) as (lo' & hi' & H1 & H2 & H3).
  exists [], k, t, r, lo', hi'. split_and!; try done.
  - apply (rep_child (g_header g) n d 0 k); try done; [by rewrite Ei|]. apply (Hr (k, t)). left.
  - destruct H1 as [(_ & -> & _)|[? _]]; done.
Qed.
End find.
