(* ===== verification/IndexInsert.v ===== *)
(** * Inserting

    [split] and the way up of [insert_entry_into_parent]: a node that is full is
    divided, its upper half goes to a new page with all its children, and the first key
    of the new page goes to the parent, up to a new root.  The tree after it has the
    items of the tree before it and the new one, is in order, and its leaves are linked
    from left to right. *)

From stdpp Require Import sorting.
From S2P Require Import Prelude Types Bytes RecordPage IndexKey IndexNode IndexNodeSpec IndexPool IndexLog BplusTree IndexLaws IndexSteps IndexRoot IndexNodeOps IndexTree IndexFind.
Local Open Scope Z_scope.

(** ** The ghost record of a split *)
Definition new_page (q : PageNum) (k : nat) (g : ghost) : ghost :=
  raw_used q (push (MemoLatch (g_mode g) q) (push (MemoPin q) (with_raw ({[q]} ∪ g_raw g) k g))).

Lemma touch_raw_used q g : touch q (raw_used q g) = raw_used q g.
Proof. unfold raw_used, touch, with_raw. cbn. destruct (decide (q ∈ g_dirty g)); [done|]. f_equal. set_solver. Qed.

Lemma touch_new_page q k g : touch q (new_page q k g) = new_page q k g.
Proof. apply touch_raw_used. Qed.

Lemma split_grows p q k g gh : g_free g = S k → q ∉ g_raw g → grows 0 (new_page q k g) gh → grows 1 g (soil q (soil p (touch p gh))).
Proof.
  intros Hk Hq [Eh [l Ei] Ex Em El Ed Er Hd Hlo Ef]. split; cbn in *; try done.
  - exists ([MemoPin q; MemoLatch (g_mode g) q] ++ l). rewrite Ei. by rewrite <-!app_assoc.
  - rewrite Er. apply set_eq. intros x. rewrite elem_of_difference, elem_of_union, not_elem_of_singleton, elem_of_singleton. naive_solver.
  - etrans; [exact Hd|]. set_solver.
  - intros x Hx. rewrite !elem_of_difference, !not_elem_of_singleton in Hx. destruct Hx as [[Hx Hp] Hxq].
    assert (x ∈ g_loose gh) as Hx' by (case_decide; [done|]; apply elem_of_union in Hx as [->%elem_of_singleton|?]; done).
    apply Hlo in Hx'. case_decide; [done|]. by apply elem_of_union in Hx' as [->%elem_of_singleton|?].
  - lia.
Qed.

Section inserting.
Context {S : Type} `{!IndexPool S, !IndexPoolLaws S}.
Notation Tree := (Tree S).
Implicit Types (T : Tree) (N : gmap PageNum node) (g : ghost) (p q : PageNum) (n : node).
Notation kcmp h := (comparator h).
Notation kok h := (key_ok (attr_type h) (attr_length h)).

(** What [split] leaves beside the nodes. *)
Record split_off N g p q g' : Prop := {
  so_grows : grows 1 g g';
  so_pinned : pinned g' q;
  so_dirty : p ∈ g_dirty g' ∧ q ∈ g_dirty g';
  so_new : N !! q = None;
  so_range : 0 ≤ q ≤ INT32_MAX ∧ in_srange 32 q;
  so_first : q ≠ FIRST_INDEX_PAGE
}.

(** The steps of [split] before the items are moved. *)
Lemma split_start T N g p n leaf k :
  st T N g → pinned g p → N !! p = Some n → nd_leaf n = leaf → g_free g = Datatypes.S k → g_mode g = READ_WRITE →
  ∃ q T1, st T1 (<[q := with_parent (nd_parent n) (empty_node leaf)]> N) (new_page q k g) ∧ N !! q = None ∧ q ∉ g_raw g ∧
    (0 ≤ q ≤ INT32_MAX ∧ in_srange 32 q) ∧ q ≠ FIRST_INDEX_PAGE ∧ p ≠ q ∧
    split (kind leaf) p T =
      (move_half_to (kind leaf) p q;; mark_dirty p;; mark_dirty q;; mret (RC.SUCCESS, q)) T1.
Proof.
  intros I Hp Hn Hl Hk Hm. destruct (memo_allocate_ok T N g k I Hk) as (q & T1 & E1 & I1 & HNq & Hraw & Hq & Hnp & Hfi).
  assert (in_srange 32 q) as Hr by (unfold INT32_MAX in Hq; split; cbn; lia). assert (p ≠ q) as Hpq by (intros <-; congruence).
  destruct (memo_latch_ok T1 N _ q I1) as (T2 & E2 & I2); [cbn; apply elem_of_app; right; left|]. cbn [g_mode push with_raw] in E2, I2.
  set (g2 := push (MemoLatch (g_mode g) q) (push (MemoPin q) (with_raw ({[q]} ∪ g_raw g) k g))) in *.
  assert (∀ r, pinned g r → pinned g2 r) as Hpin.
  { intros r [Hr'|Hr']; [left|by right]. cbn. rewrite !elem_of_app. auto. }
  assert (pinned g2 q) as Hpq2 by (left; cbn; rewrite !elem_of_app; left; right; left).
  destruct (init_empty_ok T2 N g2 q leaf I2 Hpq2) as (T3 & E3 & I3); [cbn; set_solver|].
  assert (<[q := empty_node leaf]> N !! p = Some n) as Hn3 by (by rewrite lookup_insert_ne).
  destruct (s_nodes _ _ _ I p n Hn) as (d & _ & R). assert (in_srange 32 (nd_parent n)) as Hpar by (by destruct R as (? & ? & ? & ? & ? & ? & ? & ? & ?)).
  destruct (set_parent_ok T3 _ _ q (empty_node leaf) (nd_parent n) I3 Hpq2 (lookup_insert_eq _ _ _) Hpar) as (T4 & E4 & I4).
  rewrite insert_insert_eq, touch_raw_used in I4. exists q, T4. split_and!; try done; try lia.
  unfold split. rewrite (exec E1). change (RC.OB_FAIL RC.SUCCESS) with false. cbn iota. unfold xlatch. rewrite <-Hm, (exec E2), (exec E3).
  rewrite (exec (read_ok T3 _ _ p n parent_page_num _ I3 (Hpin p Hp) Hn3 (rep_parent _ _))), (exec E4). done.
Qed.

Lemma split_finish T N0 N g p q k gh :
  st T N (touch p gh) → g_free g = Datatypes.S k → q ∉ g_raw g → N0 !! q = None → (0 ≤ q ≤ INT32_MAX ∧ in_srange 32 q) →
  q ≠ FIRST_INDEX_PAGE → pinned g p → grows 0 (new_page q k g) gh →
  ∃ T' g', (mark_dirty p;; mark_dirty q;; mret (RC.SUCCESS, q)) T = Some ((RC.SUCCESS, q), T') ∧ st T' N g' ∧ split_off N0 g p q g'.
Proof.
  intros I Hk Hraw HNq Hr Hfi Hp Hg. pose proof (split_grows p q k g gh Hk Hraw Hg) as G.
  assert (pinned gh q) as Hq by (apply (grows_pinned _ _ _ _ Hg); left; cbn; rewrite !elem_of_app; left; right; left).
  assert (pinned gh p) as Hpp by (apply (grows_pinned _ _ _ _ Hg); destruct Hp as [?|?]; [left; cbn; rewrite !elem_of_app; auto|by right]).
  destruct (mark_dirty_ok T N _ p I Hpp) as (T1 & E1 & I1). destruct (mark_dirty_ok T1 N _ q I1 Hq) as (T2 & E2 & I2).
  exists T2, (soil q (soil p (touch p gh))). rewrite (exec E1), (exec E2). split_and!; [done|done|]. split; try done.
  split; cbn; rewrite !elem_of_union, !elem_of_singleton; auto.
Qed.

Lemma split_leaf_ok T N g p n k :
  st T N g → pinned g p → N !! p = Some n → nd_leaf n = true → g_free g = Datatypes.S k → g_mode g = READ_WRITE →
  Z.of_nat (length (nd_items n)) ≤ leaf_max_size (g_header g) →
  let i := (length (nd_items n) / 2)%nat in
  ∃ q T' g', split LeafHandler p T = Some ((RC.SUCCESS, q), T') ∧
    st T' (<[p := with_items (take i (nd_items n)) n]> (<[q := mkNode true (nd_parent n) BP_INVALID_PAGE_NUM (drop i (nd_items n))]> N)) g' ∧
    split_off N g p q g'.
Proof.
  intros I Hp Hn Hl Hk Hm Hmax i.
  destruct (split_start T N g p n true k I Hp Hn Hl Hk Hm) as (q & T1 & I1 & HNq & Hraw & Hr & Hfi & Hpq & E1).
  assert (pinned (new_page q k g) q) as Hq1 by (left; cbn; rewrite !elem_of_app; left; right; left).
  assert (pinned (new_page q k g) p) as Hp1 by (destruct Hp as [?|?]; [left; cbn; rewrite !elem_of_app; auto|by right]).
  destruct (leaf_move_half_ok T1 _ _ p n q _ I1 Hp1 ltac:(by rewrite lookup_insert_ne) Hl Hq1 (lookup_insert_eq _ _ _) eq_refl Hpq) as (T2 & E2 & I2).
  { cbn. lia. }
  rewrite touch_new_page, insert_insert_eq in I2.
  destruct (split_finish T2 N _ g p q k _ I2 Hk Hraw HNq Hr Hfi Hp (grows_refl _)) as (T3 & g3 & E3 & I3 & O3).
  exists q, T3, g3. split_and!; [|exact I3|done]. cbn [kind] in E1. rewrite E1. cbn [move_half_to]. by rewrite (exec E2).
Qed.

Lemma split_internal_ok {lv} T N g p n k (L1 L2 : list (kid lv)) :
  st T N g → pinned g p → N !! p = Some n → nd_leaf n = false → g_free g = Datatypes.S k → g_mode g = READ_WRITE →
  nd_items n = kid_items (L1 ++ L2) → length L1 = (length (L1 ++ L2) / 2)%nat →
  Z.of_nat (length (L1 ++ L2)) ≤ internal_max_size (g_header g) →
  (∀ x, x ∈ L2 → ∃ par, holds N par x.2) → p ∉ kids_pages L2 →
  ∃ q T' g', split InternalHandler p T = Some ((RC.SUCCESS, q), T') ∧
    st T' (<[p := with_items (kid_items L1) n]> (reparent q (kid_ref <$> L2).*2
      (<[q := mkNode false (nd_parent n) BP_INVALID_PAGE_NUM (kid_items L2)]> N))) g' ∧
    split_off N g p q g'.
Proof.
  intros I Hp Hn Hl Hk Hm Ei Hlen Hmax Hkids Hnp.
  destruct (split_start T N g p n false k I Hp Hn Hl Hk Hm) as (q & T1 & I1 & HNq & Hraw & Hr & Hfi & Hpq & E1).
  assert (pinned (new_page q k g) q) as Hq1 by (left; cbn; rewrite !elem_of_app; left; right; left).
  assert (pinned (new_page q k g) p) as Hp1 by (destruct Hp as [?|?]; [left; cbn; rewrite !elem_of_app; auto|by right]).
  destruct (s_nodes _ _ _ I p n Hn) as (d & _ & R). pose proof (rep_items _ n d R) as Hits. rewrite Hl, Ei, kid_items_app in Hits.
  apply Forall_app in Hits as [_ Hits]. rewrite kid_items_app in Ei.
  assert (∀ x, x ∈ L2 → ∃ m, N !! page_of x.2 = Some m) as Hin.
  { intros x Hx. destruct (Hkids x Hx) as [par Hh]. destruct (holds_page N par x.2 Hh) as (m & Hm' & _). by exists m. }
  destruct (internal_move_half_ok T1 _ _ p n q _ I1 Hp1 ltac:(by rewrite lookup_insert_ne) Hl Hq1 (lookup_insert_eq _ _ _) eq_refl Hpq (proj2 Hr)
    (kid_ref <$> L2)) with (l0 := kid_items L1) as (T2 & E2 & I2).
  { apply Forall_fmap, list.Forall_forall. intros x Hx. unfold kid_items in Hits. rewrite !Forall_fmap, list.Forall_forall in Hits.
    destruct (kid_item_key (g_header g) (s_index _ _ _ I) (kid_ref x) (Hits x Hx)) as (_ & H1 & H2). split_and!; [done|done|].
    destruct (Hin x Hx) as [m Hm']. by apply (st_page_range _ _ _ _ _ I Hm'). }
  { apply Forall_fmap, list.Forall_forall. intros x Hx. cbn. destruct (Hin x Hx) as [m Hm']. split.
    - rewrite lookup_insert_ne; [by exists m|]. intros E. rewrite E in HNq. congruence.
    - intros E. apply Hnp, (kids_pages_elem L2 x); [done|]. rewrite <-E. apply page_of_elem. }
  { exact Ei. }
  { rewrite Ei, length_app, !kid_items_length. rewrite length_app in Hlen. exact Hlen. }
  { cbn. rewrite length_fmap. rewrite length_app in Hmax. cbn in Hmax. lia. }
  rewrite touch_new_page, insert_insert_eq in I2.
  destruct (split_finish T2 N _ g p q k _ I2 Hk Hraw HNq Hr Hfi Hp (held_grows _ _)) as (T3 & g3 & E3 & I3 & O3).
  exists q, T3, g3. split_and!; [|exact I3|done]. cbn [kind] in E1. rewrite E1. cbn [move_half_to]. by rewrite (exec E2).
Qed.

(** ** The children of a divided node *)
Section divided.
Context {lv : nat} N p q (n n1 m1 x1 m2 : node) (L1 L2 : list (kid lv)) (t2 : tree lv) (c : ctx (Datatypes.S lv)) (x : PageNum).
Context (Hnd : NoDup (p :: tree_pages t2 ++ kids_pages L1 ++ kids_pages L2 ++ ctx_pages c)).
Context (HNq : N !! q = None) (Hk : ∀ y, y ∈ L1 ++ L2 → holds N p y.2) (Ht2 : holds N p t2) (Hc : ctx_holds N p c) (Hx : x = p ∨ x = q).
Context (Hn : N !! p = Some n) (Hm2 : N !! page_of t2 = Some m2).

(** The nodes after [split], after [insert] into the node [x], and after the new child
    was given its parent. *)
Definition divided_nodes : gmap PageNum node := <[p := n1]> (reparent q (roots L2) (<[q := m1]> N)).
Definition inserted_nodes : gmap PageNum node := <[page_of t2 := with_parent x m2]> (<[x := x1]> divided_nodes).

Lemma divided_fresh r : r = p ∨ r ∈ tree_pages t2 ∨ r ∈ kids_pages L1 ∨ r ∈ kids_pages L2 ∨ r ∈ ctx_pages c → r ≠ q.
Proof using HNq Hk Ht2 Hc Hn.
  intros Hr ->. enough (is_Some (N !! q)) as [? ?] by congruence. destruct Hr as [E|[H|[H|[H|H]]]].
  - rewrite E. by exists n.
  - by apply (holds_in N p t2).
  - apply kids_pages_inv in H as (y & Hy & H). apply (holds_in N p y.2); [|done]. apply Hk, elem_of_app. by left.
  - apply kids_pages_inv in H as (y & Hy & H). apply (holds_in N p y.2); [|done]. apply Hk, elem_of_app. by right.
  - by apply (ctx_holds_in N p c).
Qed.

Lemma divided_disjoint : (∀ r, r ∈ tree_pages t2 → r ≠ p ∧ r ∉ kids_pages L1 ∧ r ∉ kids_pages L2 ∧ r ∉ ctx_pages c) ∧
  (∀ r, r ∈ kids_pages L1 → r ≠ p ∧ r ∉ kids_pages L2) ∧ (∀ r, r ∈ kids_pages L2 → r ≠ p) ∧ (∀ r, r ∈ ctx_pages c → r ≠ p ∧ r ∉ kids_pages L2) ∧
  NoDup (tree_pages t2) ∧ NoDup (kids_pages L2).
Proof using Hnd Hx.
  apply list.NoDup_cons in Hnd as [Hp (N1 & D1 & (_ & D2 & (N3 & D3 & _)%list.NoDup_app)%list.NoDup_app)%list.NoDup_app].
  rewrite !not_elem_of_app in Hp. destruct Hp as (P1 & P2 & P3 & P4). setoid_rewrite elem_of_app in D1. setoid_rewrite elem_of_app in D1.
  setoid_rewrite elem_of_app in D2. split_and!; try done.
  - intros r Hr. specialize (D1 r Hr). split_and!; [intros E; by rewrite E in Hr|tauto..].
  - intros r Hr. specialize (D2 r Hr). split; [intros E; by rewrite E in Hr|tauto].
  - intros r Hr E. by rewrite E in Hr.
  - intros r Hr. split; [intros E; by rewrite E in Hr|]. intros H. by apply (D3 r).
Qed.

Lemma inserted_other r : r ≠ p → r ≠ q → r ≠ page_of t2 → r ∉ kids_pages L2 → inserted_nodes !! r = N !! r.
Proof using Hx.
  intros H1 H2 H3 H4. unfold inserted_nodes, divided_nodes. rewrite lookup_insert_ne by done.
  rewrite (lookup_insert_ne _ x) by (destruct Hx as [->| ->]; done). rewrite lookup_insert_ne by done.
  rewrite reparent_other by (intros Hr; by apply H4, roots_pages). by rewrite lookup_insert_ne.
Qed.

Lemma divided_ok : (∀ y, y ∈ L1 → holds inserted_nodes p y.2) ∧ (∀ y, y ∈ L2 → holds inserted_nodes q y.2) ∧
  holds inserted_nodes x t2 ∧ ctx_holds inserted_nodes p c.
Proof using Hnd HNq Hk Ht2 Hc Hx Hn Hm2.
  destruct divided_disjoint as (D1 & D2 & D3 & D4 & U1 & U2). split_and!.
  - intros y Hy. apply (holds_frame N); [|apply Hk, elem_of_app; by left]. intros r Hr.
    assert (r ∈ kids_pages L1) as Hr1 by (by apply (kids_pages_elem L1 y)). destruct (D2 r Hr1) as [E1 E2].
    apply inserted_other; [done|apply divided_fresh; auto|intros ->|done]. by destruct (D1 _ (page_of_elem t2)) as (_ & ? & _).
  - intros y Hy. apply (holds_frame (reparent q (roots L2) N)); [|apply (reparent_kids N p); [done| |done]; intros z Hz; apply Hk, elem_of_app; by right].
    intros r Hr. assert (r ∈ kids_pages L2) as Hr2 by (by apply (kids_pages_elem L2 y)). pose proof (D3 r Hr2) as E1.
    assert (r ≠ q) as E2 by (apply divided_fresh; auto). unfold inserted_nodes, divided_nodes.
    rewrite (lookup_insert_ne _ (page_of t2)) by (intros <-; by destruct (D1 _ (page_of_elem t2)) as (_ & _ & ? & _)).
    rewrite (lookup_insert_ne _ x) by (destruct Hx as [->| ->]; done). rewrite lookup_insert_ne by done.
    destruct (decide (r ∈ roots L2)) as [Hin|Hin].
    + rewrite !reparent_in by (try done; by apply roots_nodup). by rewrite lookup_insert_ne.
    + rewrite !reparent_other by done. by rewrite lookup_insert_ne.
  - apply (holds_parent N _ p); [done| | |done].
    + intros r Hr Hne. destruct (D1 r Hr) as (E1 & E2 & E3 & E4). apply inserted_other; [done|apply divided_fresh; auto|done|done].
    + unfold inserted_nodes. by rewrite lookup_insert_eq, Hm2.
  - apply (ctx_holds_frame N); [|done]. intros r Hr. destruct (D4 r Hr) as [E1 E2].
    apply inserted_other; [done|apply divided_fresh; auto 6|intros ->|done]. by destruct (D1 _ (page_of_elem t2)) as (_ & _ & _ & ?).
Qed.

Lemma inserted_next : nd_next n1 = nd_next n → (x = p → nd_next x1 = nd_next n) → same_next N inserted_nodes.
Proof using Hnd HNq Hk Ht2 Hc Hx Hn Hm2.
  destruct divided_disjoint as (D1 & D2 & D3 & D4 & U1 & U2). intros E1 E2 r z Hz.
  assert (same_next N divided_nodes) as Hs.
  { unfold divided_nodes. eapply same_next_trans; [by apply (same_next_new N q m1)|]. eapply same_next_trans; [apply same_next_reparent|].
    apply (same_next_insert _ p n); [|done]. rewrite reparent_other by (intros Hr; by apply roots_pages, D3 in Hr).
    rewrite lookup_insert_ne; [done|]. intros <-. congruence. }
  unfold inserted_nodes, next_of. destruct (decide (r = page_of t2)) as [->|H1].
  { rewrite lookup_insert_eq. unfold next_of in Hz. rewrite Hm2 in Hz. done. }
  rewrite lookup_insert_ne by done. destruct (decide (r = x)) as [->|H2]; [|rewrite lookup_insert_ne by done; by apply Hs].
  rewrite lookup_insert_eq. unfold next_of in Hz. destruct Hx as [Ex|Ex]; rewrite Ex in Hz; [|by rewrite HNq in Hz].
  rewrite Hn in Hz. cbn in *. rewrite <-Hz. f_equal. by apply E2.
Qed.
End divided.

(** ** A divided node and the nodes above it *)
Lemma header_eta h : h = set_root_page (root_page h) h.
Proof. by destruct h. Qed.

Record stable (k : nat) g g' : Prop := {
  sb_header : ∃ r, g_header g' = set_root_page r (g_header g);
  sb_extra : g_extra g' = g_extra g;
  sb_mode : g_mode g' = g_mode g;
  sb_lock : g_lock g' = g_lock g;
  sb_disposed : g_disposed g' = g_disposed g;
  sb_raw : g_raw g' = g_raw g;
  sb_loose : g_loose g' ⊆ g_loose g;
  sb_free : (g_free g ≤ k + g_free g')%nat
}.

Lemma stable_trans j k g1 g2 g3 : stable j g1 g2 → stable k g2 g3 → stable (j + k) g1 g3.
Proof.
  intros [[r E1] ? ? ? ? ? ? ?] [[r' E2] ? ? ? ? ? ? ?]. split; try congruence; [|by etrans|lia]. exists r'. by rewrite E2, E1.
Qed.
Lemma grows_stable k g g' : grows k g g' → stable k g g'.
Proof. intros [E ? ? ? ? ? ? ? ? Hf]. split; try done; [|lia]. exists (root_page (g_header g)). rewrite E. apply header_eta. Qed.

(** The new node [t2] is in the file, but not yet in the parent of [t1]. *)
Record forked T N g {lv} (c : ctx lv) (t1 : tree lv) (k : list Z) (t2 : tree lv) lo hi : Prop := {
  fk_st : st T N g;
  fk_loose : g_loose g = ∅;
  fk_mode : g_mode g = READ_WRITE;
  fk_extra : g_extra g = [];
  fk_pinned : pinned g (page_of t1) ∧ pinned g (page_of t2);
  fk_dirty : page_of t1 ∈ g_dirty g ∧ page_of t2 ∈ g_dirty g;
  fk_ctx : ctx_holds N (page_of t1) c;
  fk_holds1 : holds N (ctx_parent c) t1;
  fk_holds2 : holds N (ctx_parent c) t2;
  fk_pages : NoDup (tree_pages t1 ++ tree_pages t2 ++ ctx_pages c);
  fk_order : ctx_wf (g_header g) (kcmp (g_header g)) (kok (g_header g)) lo hi c;
  fk_wf1 : wf (g_header g) (kcmp (g_header g)) (kok (g_header g)) false lo (Some k) t1;
  fk_wf2 : wf (g_header g) (kcmp (g_header g)) (kok (g_header g)) false (Some k) hi t2;
  fk_key : Z.of_nat (length k) = key_length (g_header g) ∧ chars k;
  fk_linked : linked N (ctx_before (λ p _, [p]) c ++ leaves t1 ++ leaves t2 ++ ctx_after (λ p _, [p]) c);
  fk_root : root_page (g_header g) = page_of (projT2 (plug c t1))
}.

(** The tree is in order again. *)
Record tree_in N g (W : whole) : Prop := {
  ti_holds : holds N BP_INVALID_PAGE_NUM (projT2 W);
  ti_pages : NoDup (tree_pages (projT2 W));
  ti_wf : wf (g_header g) (kcmp (g_header g)) (kok (g_header g)) true None None (projT2 W);
  ti_linked : linked N (leaves (projT2 W));
  ti_root : root_page (g_header g) = page_of (projT2 W)
}.

Lemma wf_header r h root lo hi {lv} (t : tree lv) :
  wf h (kcmp h) (kok h) root lo hi t → wf (set_root_page r h) (kcmp (set_root_page r h)) (kok (set_root_page r h)) root lo hi t.
Proof. done. Qed.

(** The end of [insert_entry_into_parent] at the root. *)
Lemma publish_root_ok T N g r :
  st T N g → g_extra g = [MemoPin r] → g_mode g = READ_WRITE → in_srange 32 r → r ≠ FIRST_INDEX_PAGE →
  ∃ T' g', (pool (ip_latch READ_WRITE r);; update_root_page_num_locked r;; mark_dirty r;; pool (ip_unlatch READ_WRITE r);;
      pool (ip_unpin_page r);; mret RC.SUCCESS) T = Some (RC.SUCCESS, T') ∧ st T' N g' ∧
    g_header g' = set_root_page r (g_header g) ∧ stable 0 (with_extra [] g) g' ∧ g_loose g' ⊆ g_loose g ∖ {[r]}.
Proof.
  intros I Hx Hm Hr Hf. destruct (extra_latch_ok T N g r I Hx) as (T1 & E1 & I1). rewrite Hm in E1. rewrite (exec E1).
  destruct (update_root_ok T1 N _ r I1 Hm Hr) as (T2 & E2 & I2). rewrite (exec E2).
  destruct (mark_dirty_ok T2 N _ r I2) as (T3 & E3 & I3); [right; cbn; right; left|]. rewrite (exec E3).
  destruct (extra_unlatch_ok T3 N _ r I3 eq_refl) as (T4 & E4 & I4). cbn [g_mode soil rooted with_header touch push with_extra] in E4.
  rewrite Hm in E4. rewrite (exec E4).
  destruct (extra_unpin_ok T4 N _ r I4 eq_refl) as (T5 & E5 & I5).
  { cbn. rewrite elem_of_difference, elem_of_singleton. tauto. }
  rewrite (exec E5). eexists T5, _. split_and!; [done|exact I5|done| |].
  - split; cbn; try done; [by exists r|]. case_decide; set_solver.
  - cbn. case_decide; set_solver.
Qed.

(** Two nodes under a new page. *)
Lemma two_kids_ok N r rn (k1 : list Z) {lv} (t1 : tree lv) (k2 : list Z) (t2 : tree lv) m1 m2 parent :
  N !! r = None → holds N parent t1 → holds N parent t2 → NoDup (tree_pages t1 ++ tree_pages t2) →
  N !! page_of t1 = Some m1 → N !! page_of t2 = Some m2 →
  let N' := <[page_of t2 := with_parent r m2]> (<[page_of t1 := with_parent r m1]> (<[r := rn]> N)) in
  (holds N' r t1 ∧ holds N' r t2) ∧ N' !! r = Some rn ∧ same_next N N'.
Proof.
  intros HNr H1 H2 Hnd M1 M2 N'. set (l := [(k1, t1); (k2, t2)]).
  assert (∀ t : tree lv, holds N parent t → holds (<[r := rn]> N) parent t) as Hfr.
  { intros t Ht. apply (holds_frame N); [|done]. intros z Hz. apply lookup_insert_ne. intros <-. destruct (holds_in N _ t r Ht Hz). congruence. }
  assert (r ≠ page_of t1 ∧ r ≠ page_of t2) as [R1 R2] by (split; intros E; rewrite E in HNr; congruence).
  assert (page_of t1 ≠ page_of t2) as R12.
  { apply list.NoDup_app in Hnd as (_ & Hd & _). intros E. apply (Hd (page_of t1)); [apply page_of_elem|]. rewrite E. apply page_of_elem. }
  assert (N' = reparent r (roots l) (<[r := rn]> N)) as ->.
  { unfold N', l, roots, reparent. cbn. rewrite (alter_insert_some _ (page_of t1) _ m1) by (by rewrite lookup_insert_ne).
    by rewrite (alter_insert_some _ (page_of t2) _ m2) by (by rewrite !lookup_insert_ne). }
  assert (kids_pages l = tree_pages t1 ++ tree_pages t2) as El by (unfold kids_pages; cbn; by rewrite app_nil_r).
  assert (∀ x, x ∈ l → holds (<[r := rn]> N) parent x.2) as Hl.
  { intros x [->|[->|?%not_elem_of_nil]%elem_of_cons]%elem_of_cons; [by apply Hfr|by apply Hfr|done]. }
  rewrite <-El in Hnd. split_and!.
  - apply (reparent_kids _ parent r l Hnd Hl (k1, t1)). left.
  - apply (reparent_kids _ parent r l Hnd Hl (k2, t2)). right. left.
  - rewrite reparent_other, lookup_insert_eq; [done|]. intros [?|[?|?%not_elem_of_nil]%elem_of_cons]%elem_of_cons; done.
  - eapply same_next_trans; [by apply same_next_new|apply same_next_reparent].
Qed.

Lemma grow_root_ok T N g {lv} (t1 : tree lv) k (t2 : tree lv) lo hi f :
  forked T N g Top t1 k t2 lo hi → g_free g = Datatypes.S f →
  ∃ T' N' g' W, grow_root (page_of t1) (page_of t2) k T = Some (RC.SUCCESS, T') ∧ st T' N' g' ∧ stable 1 g g' ∧ tree_in N' g' W ∧
    projT1 W = Datatypes.S lv ∧ flat (projT2 W) = flat t1 ++ flat t2.
Proof.
  intros [I Hlo Hm Hx [P1 P2] [D1 D2] _ H1 H2 Hnd [-> ->] W1 W2 [Hk Hkc] HL Hroot] Hf. cbn [ctx_parent ctx_pages ctx_before ctx_after] in *.
  rewrite app_nil_r in Hnd, HL. cbn [app] in HL.
  destruct (extra_allocate_ok T N g f I Hf Hx) as (r & T1 & E1 & I1 & HNr & Hraw & Hr & Hnp & Hfi).
  assert (in_srange 32 r) as Hrr by (unfold INT32_MAX in Hr; split; cbn; lia).
  set (g1 := with_extra [MemoPin r] (with_raw ({[r]} ∪ g_raw g) f g)) in *.
  assert (pinned g1 r) as Hpr by (right; left).
  assert (∀ p, MemoPin p ∈ g_items g → pinned g1 p) as Hpin by (intros p Hp; by left).
  assert (pinned g1 (page_of t1) ∧ pinned g1 (page_of t2)) as [Q1 Q2].
  { destruct P1 as [P1|P1]; [|rewrite Hx in P1; by apply not_elem_of_nil in P1]. destruct P2 as [P2|P2]; [|rewrite Hx in P2; by apply not_elem_of_nil in P2]. auto. }
  destruct (init_empty_ok T1 N g1 r false I1 Hpr) as (T2 & E2 & I2); [cbn; set_solver|]. cbn [init_empty kind] in E2.
  destruct (create_new_root_ok T2 _ _ r (empty_node false) I2 Hpr (lookup_insert_eq _ _ _) eq_refl (page_of t1) k (page_of t2) eq_refl Hk Hkc) as (T3 & E3 & I3).
  rewrite insert_insert_eq, touch_raw_used in I3.
  set (rn := with_items [child_item (zero_key (g_header g)) (page_of t1); child_item k (page_of t2)] (empty_node false)) in *.
  change (g_header (raw_used r g1)) with (g_header g) in I3. fold rn in I3.
  destruct (holds_page N _ t1 H1) as (m1 & M1 & _). destruct (holds_page N _ t2 H2) as (m2 & M2 & _).
  assert (r ≠ page_of t1 ∧ r ≠ page_of t2) as [R1 R2] by (split; intros E; rewrite E in HNr; congruence).
  assert (page_of t1 ≠ page_of t2) as R12.
  { apply list.NoDup_app in Hnd as (_ & Hd & _). intros E. apply (Hd (page_of t1)); [apply page_of_elem|]. rewrite E. apply page_of_elem. }
  set (g2 := raw_used r g1) in *.
  assert (page_of t1 ∈ g_dirty g2 ∧ page_of t2 ∈ g_dirty g2) as [D1' D2'] by done.
  destruct (set_parent_ok T3 _ g2 (page_of t1) m1 r I3 Q1 ltac:(by rewrite lookup_insert_ne) Hrr) as (T4 & E4 & I4). rewrite (touch_dirty _ g2) in I4 by done.
  destruct (set_parent_ok T4 _ g2 (page_of t2) m2 r I4 Q2 ltac:(by rewrite !lookup_insert_ne) Hrr) as (T5 & E5 & I5). rewrite (touch_dirty _ g2) in I5 by done.
  destruct (mark_dirty_ok T5 _ g2 (page_of t1) I5 Q1) as (T6 & E6 & I6). destruct (mark_dirty_ok T6 _ _ (page_of t2) I6 Q2) as (T7 & E7 & I7).
  destruct (publish_root_ok T7 _ _ r I7 eq_refl Hm Hrr Hfi) as (T8 & g8 & E8 & I8 & Eh & S8 & L8).
  exists T8. eexists. exists g8, (existT (Datatypes.S lv) (r, [(zero_key (g_header g), t1); (k, t2)])). split_and!; [|exact I8| | |done|].
  - unfold grow_root. rewrite (exec E1). change (RC.OB_FAIL RC.SUCCESS) with false. cbn iota. rewrite (exec E2), (exec E3), (exec E4), (exec E5), (exec E6), (exec E7). exact E8.
  - destruct S8 as [_ F1 F2 F3 F4 F5 _ F7]. cbn in F1, F2, F3, F4, F5, F7. split; [by exists r|by rewrite F1|done|done|done| | |lia].
    + rewrite F5. clear -Hraw. set_solver.
    + etrans; [exact L8|]. clear. cbn. repeat case_decide; set_solver.
  - destruct (two_kids_ok N r rn (zero_key (g_header g)) t1 k t2 m1 m2 BP_INVALID_PAGE_NUM HNr H1 H2 Hnd M1 M2) as (K1 & K2 & K3).
    split; cbn [projT2]; rewrite ?Eh.
    + split; [by exists BP_INVALID_PAGE_NUM|]. intros y [->|[->|?%not_elem_of_nil]%elem_of_cons]%elem_of_cons; [| |done]; by apply K1.
    + cbn. rewrite app_nil_r. constructor; [|done]. intros [H|H]%elem_of_app;
        [destruct (holds_in N _ t1 r H1 H)|destruct (holds_in N _ t2 r H2 H)]; congruence.
    + apply wf_header. pose proof (s_index _ _ _ I) as [_ _ _ _ _ Hmin]. split; [cbn; lia|]. cbn. split_and!; [by left|done|by right|done].
    + apply (linked_frame N); [done|]. unfold leaves. cbn. by rewrite app_nil_r.
    + done.
  - unfold flat. cbn. by rewrite app_nil_r.
Qed.

(** ** The way up *)
Section parent.
Context {lv : nat} T N g p (l : list (kid lv)) (k0 : list Z) (r : list (kid lv)) (c : ctx (Datatypes.S lv)).
Context (t1 : tree lv) (k : list Z) (t2 : tree lv) (lo hi : option (list Z)) (F : forked T N g (Up p l k0 r c) t1 k t2 lo hi).
Notation h := (g_header g).
Notation kids := (l ++ (k0, t1) :: r).
Notation kids' := (l ++ (k0, t1) :: (k, t2) :: r).

Lemma forked_node : ∃ nx, N !! p = Some (mkNode false (ctx_parent c) nx (kid_items kids)).
Proof using F. destruct (fk_ctx _ _ _ _ _ _ _ _ _ F) as [[nx E] _]. exists nx. by rewrite kid_items_app. Qed.

Lemma forked_kids y : y ∈ kids' → holds N p y.2.
Proof using F.
  destruct F as [_ _ _ _ _ _ (_ & Hk & _) H1 H2 _ _ _ _ _ _ _]. cbn in H1, H2.
  intros [Hy|[->|[->|Hy]%elem_of_cons]%elem_of_cons]%elem_of_app; [|done|done|]; apply Hk, elem_of_app; auto.
Qed.

Lemma forked_segment : ∃ lo0 hi0, kids_wf h (kcmp h) (kok h) lo0 kids' hi0 ∧ ctx_wf h (kcmp h) (kok h) lo0 hi0 c ∧
  internal_min h (is_top c) ≤ Z.of_nat (length kids) ≤ internal_max_size h.
Proof using F.
  destruct (fk_order _ _ _ _ _ _ _ _ _ F) as (lo0 & hi0 & Hl & Hr & Hlen & Hc). exists lo0, hi0. split_and!; try done.
  - apply (segment_insert _ lo0 l k0 t1 k t2 r hi0 lo hi); [done|apply F|apply F|done].
  - rewrite length_app. cbn. lia.
  - rewrite length_app. cbn. lia.
Qed.

Lemma forked_pages : NoDup (p :: kids_pages kids' ++ ctx_pages c).
Proof using F.
  pose proof (fk_pages _ _ _ _ _ _ _ _ _ F) as Hnd. cbn [ctx_pages] in Hnd. refine (proj1 (NoDup_Permutation_proper _ _ _) Hnd).
  rewrite kids_pages_app. change (kids_pages ((k0, t1) :: (k, t2) :: r)) with (tree_pages t1 ++ tree_pages t2 ++ kids_pages r).
  solve_Permutation.
Qed.

Lemma forked_page_range : 0 ≤ p ≤ INT32_MAX ∧ in_srange 32 p.
Proof using F. destruct forked_node as [nx Hn]. by apply (st_page_range _ _ _ _ _ (fk_st _ _ _ _ _ _ _ _ _ F) Hn). Qed.

Lemma forked_parent f : ∃ T1, st T1 N (push (MemoPin p) g) ∧
  insert_entry_into_parent f (page_of t1) (page_of t2) k T =
    (if Z.of_nat (length kids) <? internal_max_size h then
       internal_insert p k (page_of t2);; set_parent_page_num (page_of t2) p;;
       mark_dirty (page_of t1);; mark_dirty (page_of t2);; mark_dirty p;; mret RC.SUCCESS
     else
       '(rc, new_parent_frame) ← split InternalHandler p;
       if RC.OB_FAIL rc then mret rc
       else
         k1 ← read new_parent_frame (λ d, key_at h InternalHandler d 0);
         c1 ← deref (comparator h k k1);
         (if 0 <? c1 then
            internal_insert new_parent_frame k (page_of t2);; ignore (set_parent_page_num (page_of t2) new_parent_frame)
          else
            internal_insert p k (page_of t2);; ignore (set_parent_page_num (page_of t2) p));;
         k1 ← read new_parent_frame (λ d, key_at h InternalHandler d 0);
         match f with O => abort | Datatypes.S f => insert_entry_into_parent f p new_parent_frame k1 end) T1.
Proof using F.
  destruct forked_node as [nx Hn]. destruct forked_page_range as [Hr _]. pose proof (fk_st _ _ _ _ _ _ _ _ _ F) as I.
  destruct (holds_page N _ t1 (fk_holds1 _ _ _ _ _ _ _ _ _ F)) as (m1 & M1 & _ & _ & Epar). cbn in Epar.
  destruct (memo_get_ok T N g p _ I Hn) as (T1 & E1 & I1). exists T1. split; [done|].
  assert (pinned (push (MemoPin p) g) p) as Hp by (left; cbn; apply elem_of_app; right; left).
  destruct f as [|f]; cbn [insert_entry_into_parent]; rewrite (exec (header_ok _ _ _ I));
    rewrite (exec (read_ok T N g (page_of t1) m1 parent_page_num _ I (proj1 (fk_pinned _ _ _ _ _ _ _ _ _ F)) M1 (rep_parent _ _)));
    rewrite Epar, (proj2 (Z.eqb_neq _ _)) by (change BP_INVALID_PAGE_NUM with (-1); lia);
    rewrite (exec E1); change (RC.OB_FAIL RC.SUCCESS) with false; cbn iota;
    rewrite (exec (read_ok T1 N _ p _ node_size _ I1 Hp Hn (λ d R, rep_size _ (s_index _ _ _ I1) _ d R)));
    (erewrite (bind_run (node_max_size p) _ T1);
      [|unfold node_max_size; rewrite (exec (header_ok _ _ _ I1)); by rewrite (exec (read_ok T1 N _ p _ is_leaf false I1 Hp Hn (λ d R, rep_is_leaf _ _ d R)))]);
    cbn [nd_items]; rewrite kid_items_length; done.
Qed.

(** The node as a tree, with the nodes above it. *)
Lemma wf_node root lo0 hi0 p' (l' : list (kid lv)) :
  kids_wf h (kcmp h) (kok h) lo0 l' hi0 → internal_min h root ≤ Z.of_nat (length l') ≤ internal_max_size h →
  wf h (kcmp h) (kok h) root lo0 hi0 ((p', l') : tree (Datatypes.S lv)).
Proof. by split. Qed.

Notation grown_tree := (plug c ((p, kids') : tree (Datatypes.S lv))).

Lemma forked_fresh : (∀ y, y ∈ kids' → p ∉ tree_pages y.2) ∧ p ∉ ctx_pages c.
Proof using F.
  pose proof forked_pages as [Hp _]%list.NoDup_cons. apply not_elem_of_app in Hp as [Hp1 Hp2]. split; [|done].
  intros y Hy Hin. by apply Hp1, (kids_pages_elem _ y).
Qed.

Lemma grown_flat : flat (projT2 grown_tree) = ctx_before (λ _ its, its) (Up p l k0 r c) ++ flat t1 ++ flat t2 ++ ctx_after (λ _ its, its) (Up p l k0 r c).
Proof. unfold flat. rewrite gather_plug. cbn. rewrite flat_map_app. cbn. by rewrite <-!app_assoc. Qed.

Lemma grown_leaves : leaves (projT2 grown_tree) = ctx_before (λ p _, [p]) (Up p l k0 r c) ++ leaves t1 ++ leaves t2 ++ ctx_after (λ p _, [p]) (Up p l k0 r c).
Proof. unfold leaves. rewrite gather_plug. cbn. rewrite flat_map_app. cbn. by rewrite <-!app_assoc. Qed.

Lemma room_tree nx : N !! p = Some (mkNode false (ctx_parent c) nx (kid_items kids)) → Z.of_nat (length kids) < internal_max_size h →
  tree_in (<[p := mkNode false (ctx_parent c) nx (kid_items kids')]> N) g grown_tree.
Proof using F.
  intros Hn Hroom. destruct forked_segment as (lo0 & hi0 & Hs & Hc & Hlen). destruct forked_fresh as [Hf1 Hf2]. split.
  - apply holds_plug. split; [split; [exists nx; by rewrite lookup_insert_eq|]|].
    + intros y Hy. apply (holds_frame N); [|by apply forked_kids]. intros q Hq. apply lookup_insert_ne. intros <-. by apply (Hf1 y).
    + apply (ctx_holds_frame N); [|by destruct (fk_ctx _ _ _ _ _ _ _ _ _ F) as (_ & _ & ?)]. intros q Hq. apply lookup_insert_ne. by intros <-.
  - rewrite pages_plug. apply forked_pages.
  - apply wf_plug. exists lo0, hi0. split; [done|]. apply wf_node; [done|]. rewrite !length_app in *. cbn in *. lia.
  - apply (linked_frame N); [by eapply same_next_insert|]. rewrite grown_leaves. apply F.
  - rewrite (fk_root _ _ _ _ _ _ _ _ _ F). by apply (plug_root c).
Qed.

(** Room in the parent. *)
Lemma room_ok f : Z.of_nat (length kids) < internal_max_size h →
  ∃ T' N' g', insert_entry_into_parent f (page_of t1) (page_of t2) k T = Some (RC.SUCCESS, T') ∧ st T' N' g' ∧ stable 0 g g' ∧
    tree_in N' g' grown_tree.
Proof using F.
  intros Hroom. destruct (forked_parent f) as (T1 & I1 & ->). rewrite (proj2 (Z.ltb_lt _ _)) by done.
  destruct forked_node as [nx Hn]. pose proof (room_tree nx Hn Hroom) as HT. destruct forked_segment as (lo0 & hi0 & Hs & _ & _).
  destruct forked_page_range as [_ Hr]. pose proof forked_fresh as [Hf _].
  destruct F as [I Hlo Hm Hx [P1 P2] [D1 D2] _ H1 H2 _ _ W1 W2 [Hkl Hkc] _ _].
  set (n := mkNode false (ctx_parent c) nx (kid_items kids)) in *. set (g1 := push (MemoPin p) g) in *.
  assert (pinned g1 p) as Hp by (left; cbn; apply elem_of_app; right; left).
  assert (pinned g1 (page_of t1) ∧ pinned g1 (page_of t2)) as [Q1 Q2].
  { split; apply (grows_pinned 0 g); try done; apply grows_push. }
  destruct (internal_insert_ok T1 N g1 p n I1 Hp Hn eq_refl (length l + 1) (Z.of_nat (length l)) k (page_of t2)) as (T2 & E2 & I2);
    [|unfold n; cbn [nd_items]; rewrite kid_items_length, length_app; cbn; lia|unfold n; cbn [nd_items]; by rewrite kid_items_length|done|done|].
  { intros d R. by apply (insert_position h (s_index _ _ _ I) _ _ n d lo0 l k0 t1 k t2 r hi0). }
  unfold n in I2. cbn [nd_items] in I2. pose proof (kid_items_insert l (k0, t1) (k, t2) r) as Eits. cbn [fst snd] in Eits. rewrite Eits in I2. clear Eits.
  set (N2 := <[p := _]> N) in I2. destruct (holds_page N p t2 H2) as (m2 & M2 & _ & _ & Epar).
  assert (N2 !! page_of t2 = Some m2) as M2'.
  { unfold N2. rewrite lookup_insert_ne; [done|]. intros E. apply (Hf (k, t2)); [apply elem_of_app; right; right; left|]. rewrite E. apply page_of_elem. }
  destruct (set_parent_ok T2 N2 _ (page_of t2) m2 p I2 Q2 M2' Hr) as (T3 & E3 & I3).
  rewrite (touch_dirty (page_of t2)) in I3 by done. rewrite insert_id in I3 by (rewrite M2'; f_equal; unfold with_parent; rewrite <-Epar; by destruct m2).
  destruct (mark_dirty_ok T3 N2 _ (page_of t1) I3 Q1) as (T4 & E4 & I4). destruct (mark_dirty_ok T4 N2 _ (page_of t2) I4 Q2) as (T5 & E5 & I5).
  destruct (mark_dirty_ok T5 N2 _ p I5 Hp) as (T6 & E6 & I6). exists T6, N2. eexists. split_and!; [|exact I6| |].
  - by rewrite (exec E2), (exec E3), (exec E4), (exec E5), (exec E6).
  - split; try done; [exists (root_page h); apply header_eta|]. cbn. case_decide; set_solver.
  - destruct HT. by split.
Qed.

(** *** No room: the parent is divided too *)
Definition goes_left (L1 L2 A B : list (kid lv)) : Prop :=
  L2 = B ∧ ∃ l' r', L1 = l' ++ (k0, t1) :: r' ∧ A = l' ++ (k0, t1) :: (k, t2) :: r'.
Definition goes_right (L1 L2 A B : list (kid lv)) : Prop :=
  L1 = A ∧ ∃ l' r', L2 = l' ++ (k0, t1) :: r' ∧ B = l' ++ (k0, t1) :: (k, t2) :: r'.

Lemma divide_lists : ∃ L1 L2 A B, kids = L1 ++ L2 ∧ length L1 = (length kids / 2)%nat ∧ kids' = A ++ B ∧ (goes_left L1 L2 A B ∨ goes_right L1 L2 A B).
Proof.
  destruct (split_at kids (length kids / 2)) as (L1 & L2 & E & Hlen); [apply Nat.Div0.div_le_upper_bound; lia|].
  destruct (decide (length l < length L1)%nat) as [Hlt|Hge].
  - assert (∃ r1, L1 = l ++ (k0, t1) :: r1 ∧ r = r1 ++ L2) as (r1 & E1 & E2).
    { apply app_eq_app in E as (l' & [[-> E]|[-> E]]); [exfalso; rewrite length_app in Hlt; lia|].
      destruct l' as [|x l']; [rewrite app_nil_r in Hlt; lia|]. injection E as <- E. by exists l'. }
    exists L1, L2, (l ++ (k0, t1) :: (k, t2) :: r1), L2. split_and!; [done|done|by rewrite E2, <-app_assoc|]. left. split; [done|]. by exists l, r1.
  - assert (∃ l2, l = L1 ++ l2 ∧ L2 = l2 ++ (k0, t1) :: r) as (l2 & E1 & E2).
    { apply app_eq_app in E as (l' & [[-> E]|[-> E]]); [by exists l'|]. rewrite length_app in Hge.
      destruct l' as [|x l']; [|cbn in Hge; lia]. exists []. rewrite !app_nil_r. done. }
    exists L1, L2, L1, (l2 ++ (k0, t1) :: (k, t2) :: r). split_and!; [done|done|by rewrite E1, <-app_assoc|]. right. split; [done|]. by exists l2, r.
Qed.

Section divide.
Context (L1 L2 A B : list (kid lv)) (EL : kids = L1 ++ L2) (Hlen : length L1 = (length kids / 2)%nat) (EAB : kids' = A ++ B).
Context (Hplace : goes_left L1 L2 A B ∨ goes_right L1 L2 A B) (Hfull : Z.of_nat (length kids) = internal_max_size h).

Lemma divide_lengths : (1 ≤ length L1)%nat ∧ (1 ≤ length L2)%nat ∧
  internal_min h false ≤ Z.of_nat (length A) ≤ internal_max_size h ∧ internal_min h false ≤ Z.of_nat (length B) ≤ internal_max_size h ∧
  Z.of_nat (length L1) < internal_max_size h ∧ Z.of_nat (length L2) < internal_max_size h.
Proof using F EL Hlen EAB Hplace Hfull.
  pose proof (s_index _ _ _ (fk_st _ _ _ _ _ _ _ _ _ F)) as [_ _ _ _ _ Hmin]. rewrite EL in Hlen, Hfull. rewrite length_app in Hlen, Hfull.
  assert (length A + length B = length L1 + length L2 + 1)%nat as Hsum.
  { rewrite <-!length_app, <-EAB, <-EL, !length_app. cbn. lia. }
  assert (length L2 = length B ∨ length L1 = length A) as Hor by (destruct Hplace as [[-> _]|[-> _]]; auto).
  assert (length L1 ≤ length A ∧ length L2 ≤ length B)%nat as Hle.
  { destruct Hplace as [[-> (a & b & -> & ->)]|[-> (a & b & -> & ->)]]; rewrite !length_app; cbn; lia. }
  unfold internal_min. rewrite <-Hfull. change 2 with (Z.of_nat 2). rewrite <-Nat2Z.inj_div.
  pose proof (Nat.div_mod_eq (length L1 + length L2) 2). pose proof (Nat.mod_upper_bound (length L1 + length L2) 2 ltac:(lia)).
  split_and!; lia.
Qed.

Lemma divide_cut : ∃ kk tk L2' B', L2 = (kk, tk) :: L2' ∧ (∃ tb, B = (kk, tb) :: B' ∧ page_of tb = page_of tk) ∧ A ≠ [].
Proof using F EL Hlen EAB Hplace Hfull.
  destruct divide_lengths as (H1 & H2 & _ & _ & _). destruct Hplace as [[<- (a & b & E1 & ->)]|[<- (a & b & E1 & ->)]].
  - destruct L2 as [|[kk tk] L2']; [cbn in H2; lia|]. exists kk, tk, L2', L2'. split_and!; [done|by exists tk|by destruct a].
  - destruct a as [|[kk tk] a]; rewrite E1; cbn.
    + exists k0, t1, b, ((k, t2) :: b). split_and!; [done|by exists t1|]. intros ->. cbn in H1. lia.
    + exists kk, tk. eexists _, _. split_and!; [done|by exists tk|]. intros ->. cbn in H1. lia.
Qed.

Notation cmp' := (kc (kcmp h)).

Lemma divide_order kk tk L2' : L2 = (kk, tk) :: L2' → ∃ lo0 hi0, kids_wf h (kcmp h) (kok h) lo0 A (Some kk) ∧
  kids_wf h (kcmp h) (kok h) (Some kk) B hi0 ∧ ctx_wf h (kcmp h) (kok h) lo0 hi0 c ∧ kok h k ∧ kok h kk ∧
  (goes_left L1 L2 A B → cmp' k kk < 0) ∧ (goes_right L1 L2 A B → 0 < cmp' k kk).
Proof using F EL Hlen EAB Hplace Hfull.
  intros EL2. destruct forked_segment as (lo0 & hi0 & Hs & Hc & _). pose proof (s_index _ _ _ (fk_st _ _ _ _ _ _ _ _ _ F)) as HI.
  destruct divide_cut as (kk' & tk' & L2'' & B' & E1 & (tb & EB & _) & HA). rewrite EL2 in E1. injection E1 as <- <- <-.
  rewrite EAB, EB in Hs. apply (proj1 (segment_app _ _ _ _ _ _ _ HA)) in Hs as [HsA HsB].
  exists lo0, hi0. rewrite EB. change (kids_wf h (kcmp h) (kok h) lo0 A (Some kk)) in HsA.
  destruct (segment_bounds h HI _ _ _ _ _ HsA) as (_ & Okk & _). cbn in Okk.
  assert (kok h k) as Ok by (by destruct (wf_bounds h HI _ _ _ _ _ _ (fk_wf2 _ _ _ _ _ _ _ _ _ F)) as (? & _)).
  split_and!; try done.
  - intros [_ (a & b & _ & E2)]. destruct A as [|[ka ta] A']; [done|].
    destruct (segment_sorted h HI _ _ _ _ _ _ _ HsA) as (_ & _ & HF). rewrite list.Forall_forall in HF. apply (HF k).
    assert ((k, t2) ∈ A') as Hin; [|apply list_elem_of_fmap; by exists (k, t2)].
    destruct a as [|y a]; cbn in E2; injection E2; [intros -> _ _; left|]. intros -> _. apply elem_of_app. right. right. left.
  - intros [_ (a & b & _ & E2)]. destruct (segment_sorted h HI _ _ _ _ _ _ _ HsB) as (_ & _ & HF). rewrite list.Forall_forall in HF.
    apply (kc_pos (kcmp h) (kok h)); [done|done|]. apply (HF k).
    assert ((k, t2) ∈ B') as Hin; [|apply list_elem_of_fmap; by exists (k, t2)].
    destruct a as [|y a]; cbn in E2; injection E2; [intros -> _ _; left|]. intros -> _. apply elem_of_app. right. right. left.
Qed.

Lemma divide_pages : NoDup (p :: tree_pages t2 ++ kids_pages L1 ++ kids_pages L2 ++ ctx_pages c).
Proof using F EL.
  refine (proj1 (NoDup_Permutation_proper _ _ _) forked_pages). rewrite (app_assoc (kids_pages L1)), <-kids_pages_app, <-EL, !kids_pages_app.
  change (kids_pages ((k0, t1) :: (k, t2) :: r)) with (tree_pages t1 ++ tree_pages t2 ++ kids_pages r).
  change (kids_pages ((k0, t1) :: r)) with (tree_pages t1 ++ kids_pages r). solve_Permutation.
Qed.

(** The nodes of a divided parent. *)
Section divide_nodes.
Context q nx m2 (x : PageNum) (x1 : node) (HNq : N !! q = None) (Hn : N !! p = Some (mkNode false (ctx_parent c) nx (kid_items kids))) (M2 : N !! page_of t2 = Some m2).
Context (Hcase : (goes_left L1 L2 A B ∧ x = p ∧ x1 = mkNode false (ctx_parent c) nx (kid_items A)) ∨
  (goes_right L1 L2 A B ∧ x = q ∧ x1 = mkNode false (ctx_parent c) BP_INVALID_PAGE_NUM (kid_items B))).
Notation n1 := (mkNode false (ctx_parent c) nx (kid_items L1)).
Notation m1 := (mkNode false (ctx_parent c) BP_INVALID_PAGE_NUM (kid_items L2)).
Notation N' := (inserted_nodes N p q n1 m1 x1 m2 L2 t2 x).

Lemma divide_kids : ∀ y, y ∈ L1 ++ L2 → holds N p y.2.
Proof using F EL.
  intros y Hy. apply forked_kids. rewrite <-EL in Hy. apply elem_of_app in Hy as [Hy|[Hy|Hy]%elem_of_cons]; apply elem_of_app;
    [by left|right; rewrite Hy; left|right; right; by right].
Qed.

Lemma divide_side : x = p ∨ x = q.
Proof using Hcase. destruct Hcase as [(_ & E & _)|(_ & E & _)]; auto. Qed.

Lemma divide_up : ctx_holds N p c.
Proof using F. by destruct (fk_ctx _ _ _ _ _ _ _ _ _ F) as (_ & _ & ?). Qed.

Lemma divide_fresh : q ≠ p ∧ q ≠ page_of t2 ∧ p ≠ page_of t2 ∧ q ∉ kids_pages L2 ∧ q ∉ p :: kids_pages kids' ++ ctx_pages c.
Proof using F EL HNq Hn.
  pose proof (divided_fresh N p q _ L1 L2 t2 c HNq divide_kids (fk_holds2 _ _ _ _ _ _ _ _ _ F) divide_up Hn) as Hf.
  destruct forked_fresh as [Hp _]. split_and!.
  - intros E. apply (Hf p); auto.
  - intros E. apply (Hf (page_of t2)); [|done]. right. left. apply page_of_elem.
  - intros E. apply (Hp (k, t2)); [apply elem_of_app; right; right; left|]. rewrite E. apply page_of_elem.
  - intros H. apply (Hf q); auto.
  - intros [E|[H|H]%elem_of_app]%elem_of_cons; [by apply (Hf p); auto| |apply (Hf q); auto 6].
    apply kids_pages_inv in H as (y & Hy & H). destruct (holds_in N p y.2 q (forked_kids y Hy) H) as [? E]. rewrite HNq in E. done.
Qed.

Lemma divide_both : N' !! p = Some (mkNode false (ctx_parent c) nx (kid_items A)) ∧
  N' !! q = Some (mkNode false (ctx_parent c) BP_INVALID_PAGE_NUM (kid_items B)).
Proof using F EL HNq Hn Hcase.
  destruct divide_fresh as (E1 & E2 & E3 & E4 & _). assert (q ∉ roots L2) as E5 by (intros H; by apply E4, roots_pages).
  unfold inserted_nodes, divided_nodes. rewrite !(lookup_insert_ne _ (page_of t2)) by done.
  destruct Hcase as [([EB _] & -> & ->)|([EA _] & -> & ->)].
  - rewrite lookup_insert_eq. split; [done|]. rewrite !lookup_insert_ne by done. rewrite reparent_other, lookup_insert_eq by done. by rewrite EB.
  - rewrite lookup_insert_eq. split; [|done]. rewrite lookup_insert_ne by done. by rewrite lookup_insert_eq, EA.
Qed.

Lemma divide_holds : (∀ y, y ∈ A → holds N' p y.2) ∧ (∀ y, y ∈ B → holds N' q y.2) ∧ ctx_holds N' p c ∧ same_next N N'.
Proof using F EL HNq Hn M2 Hcase.
  pose proof (fk_holds2 _ _ _ _ _ _ _ _ _ F) as H2. cbn in H2.
  destruct (divided_ok N p q _ n1 m1 x1 m2 L1 L2 t2 c x divide_pages HNq divide_kids H2 divide_up divide_side Hn M2) as (H1 & HL2 & Ht & Hc).
  assert (∀ z, x = z → holds N' z t2) as Ht' by (by intros ? <-).
  assert (same_next N N') as Hs.
  { apply (inserted_next N p q _ n1 m1 x1 m2 L1 L2 t2 c x divide_pages HNq divide_kids H2 divide_up divide_side Hn M2); [done|].
    intros E. destruct divide_fresh as (E1 & _). destruct Hcase as [(_ & _ & ->)|(_ & E' & _)]; [done|congruence]. }
  split_and!; try done.
  - intros y Hy. destruct Hcase as [([_ (a & b & E1 & E2)] & Ex & _)|([E _] & _)]; [|apply H1; by rewrite E].
    rewrite E2 in Hy. apply elem_of_app in Hy as [Hy|[Hy|[Hy|Hy]%elem_of_cons]%elem_of_cons].
    + apply H1. rewrite E1. apply elem_of_app. by left.
    + apply H1. rewrite E1, Hy. apply elem_of_app. right. left.
    + rewrite Hy. by apply Ht'.
    + apply H1. rewrite E1. apply elem_of_app. right. by right.
  - intros y Hy. destruct Hcase as [([E _] & _)|([_ (a & b & E1 & E2)] & Ex & _)]; [apply HL2; by rewrite E|].
    rewrite E2 in Hy. apply elem_of_app in Hy as [Hy|[Hy|[Hy|Hy]%elem_of_cons]%elem_of_cons].
    + apply HL2. rewrite E1. apply elem_of_app. by left.
    + apply HL2. rewrite E1, Hy. apply elem_of_app. right. left.
    + rewrite Hy. by apply Ht'.
    + apply HL2. rewrite E1. apply elem_of_app. right. by right.
Qed.

Lemma divide_forked T' g' kk tk L2' lo0 hi0 :
  L2 = (kk, tk) :: L2' → kids_wf h (kcmp h) (kok h) lo0 A (Some kk) → kids_wf h (kcmp h) (kok h) (Some kk) B hi0 →
  ctx_wf h (kcmp h) (kok h) lo0 hi0 c → st T' N' g' → split_off N (push (MemoPin p) g) p q g' →
  forked T' N' g' c ((p, A) : tree (Datatypes.S lv)) kk ((q, B) : tree (Datatypes.S lv)) lo0 hi0.
Proof using F EL Hlen EAB Hplace Hfull HNq Hn M2 Hcase.
  intros EL2 HsA HsB Hc I' [G Hpq [Dp Dq] _ Hrq _].
  pose proof (gr_header _ _ _ G) as Eh. cbn [g_header push] in Eh. destruct divide_lengths as (_ & _ & LA & LB & _). destruct divide_both as [BA BB].
  destruct divide_holds as (KA & KB & KC & KN). destruct divide_fresh as (_ & _ & _ & _ & Hfq).
  split; cbn [page_of fst snd]; rewrite ?Eh; try done.
  - pose proof (gr_loose _ _ _ G) as Hl. cbn in Hl. rewrite (fk_loose _ _ _ _ _ _ _ _ _ F) in Hl. set_solver.
  - rewrite (gr_mode _ _ _ G). apply F.
  - rewrite (gr_extra _ _ _ G). apply F.
  - split; [|done]. apply (grows_pinned _ _ _ _ G). left. cbn. apply elem_of_app. right. left.
  - split; [by eexists|done].
  - split; [by eexists|done].
  - cbn. refine (proj1 (NoDup_Permutation_proper (q :: p :: kids_pages kids' ++ ctx_pages c) _ _) _).
    + rewrite EAB, kids_pages_app. unfold kids_pages. solve_Permutation.
    + apply list.NoDup_cons. split; [done|apply forked_pages].
  - rewrite EL2 in *. destruct (s_nodes _ _ _ (fk_st _ _ _ _ _ _ _ _ _ F) p _ Hn) as (d & _ & R). pose proof (rep_items _ _ d R) as Hok. cbn [nd_items nd_leaf] in Hok.
    rewrite EL, kid_items_app in Hok. apply Forall_app in Hok as [_ Hok]. apply list.Forall_cons in Hok as [Hok _].
    by destruct (kid_item_key h (s_index _ _ _ (fk_st _ _ _ _ _ _ _ _ _ F)) (kk, page_of tk) Hok) as (_ & ? & ?).
  - apply (linked_frame N); [done|]. pose proof (fk_linked _ _ _ _ _ _ _ _ _ F) as HL. rewrite <-grown_leaves in HL.
    unfold leaves in *. rewrite gather_plug in HL. cbn in HL |- *. rewrite EAB, flat_map_app, <-app_assoc in HL. exact HL.
  - rewrite (fk_root _ _ _ _ _ _ _ _ _ F). by apply (plug_root c).
Qed.
End divide_nodes.
End divide.

(** The divided parent takes the new child. *)
Lemma divided_insert_ok T1 N1 g1 x n1 (a b : list (kid lv)) lo0 hi0 m2 :
  st T1 N1 g1 → g_header g1 = h → pinned g1 x → N1 !! x = Some n1 → nd_leaf n1 = false → nd_items n1 = kid_items (a ++ (k0, t1) :: b) →
  kids_wf h (kcmp h) (kok h) lo0 (a ++ (k0, t1) :: (k, t2) :: b) hi0 → Z.of_nat (length (a ++ (k0, t1) :: b)) < internal_max_size h →
  x ∈ g_dirty g1 → page_of t2 ∈ g_dirty g1 → pinned g1 (page_of t2) → N1 !! page_of t2 = Some m2 → x ≠ page_of t2 → in_srange 32 x →
  ∃ T2, (internal_insert x k (page_of t2);; ignore (set_parent_page_num (page_of t2) x)) T1 = Some (tt, T2) ∧
    st T2 (<[page_of t2 := with_parent x m2]> (<[x := with_items (kid_items (a ++ (k0, t1) :: (k, t2) :: b)) n1]> N1)) g1.
Proof using F.
  intros I1 Eh Hp Hn El Ei Hs Hmax Dx D2 P2 M2 Hne Hr. destruct (fk_key _ _ _ _ _ _ _ _ _ F) as [Hkl Hkc].
  destruct (internal_insert_ok T1 N1 g1 x n1 I1 Hp Hn El (length a + 1) (Z.of_nat (length a)) k (page_of t2)) as (T2 & E2 & I2); rewrite ?Eh; try done.
  - intros d R. apply (insert_position h (s_index _ _ _ (fk_st _ _ _ _ _ _ _ _ _ F)) _ _ n1 d lo0 a k0 t1 k t2 b hi0); done.
  - rewrite Ei, kid_items_length, length_app. cbn. lia.
  - by rewrite Ei, kid_items_length.
  - rewrite (touch_dirty x g1 Dx), Ei in I2. pose proof (kid_items_insert a (k0, t1) (k, t2) b) as Eits. cbn [fst snd] in Eits. rewrite Eits in I2.
    destruct (set_parent_ok T2 _ g1 (page_of t2) m2 x I2 P2 ltac:(by rewrite lookup_insert_ne) Hr) as (T3 & E3 & I3).
    rewrite (touch_dirty _ g1 D2) in I3. exists T3. split; [|done]. rewrite (exec E2). unfold ignore. by rewrite (exec E3).
Qed.

Lemma read_head_key T1 N1 g1 q (par nx : PageNum) kk (tk : tree lv) L : st T1 N1 g1 → g_header g1 = h → pinned g1 q →
  N1 !! q = Some (mkNode false par nx (kid_items ((kk, tk) :: L))) → read q (λ d, key_at h InternalHandler d 0) T1 = Some (kk, T1).
Proof using F.
  intros I1 Eh Hq Hn. pose proof (s_index _ _ _ (fk_st _ _ _ _ _ _ _ _ _ F)) as HI. destruct (read_page T1 N1 g1 q _ I1 Hq Hn) as (d & R & Hrd). rewrite Eh in R. apply Hrd.
  pose proof (rep_key_at h HI _ d 0 _ R eq_refl) as E. cbn [nd_leaf kind] in E. change (Z.of_nat 0) with 0 in E. cbn beta. rewrite E. f_equal.
  pose proof (rep_items _ _ d R) as Hok. apply list.Forall_cons in Hok as [Hok _].
  exact (proj1 (kid_item_key h HI (kk, page_of tk) Hok)).
Qed.

Lemma full_ok f j : Z.of_nat (length kids) = internal_max_size h → g_free g = Datatypes.S j →
  ∃ q kk A B lo0 hi0 T' N' g',
    insert_entry_into_parent f (page_of t1) (page_of t2) k T =
      (match f with O => abort | Datatypes.S f => insert_entry_into_parent f p q kk end) T' ∧
    forked T' N' g' c ((p, A) : tree (Datatypes.S lv)) kk ((q, B) : tree (Datatypes.S lv)) lo0 hi0 ∧ kids' = A ++ B ∧ stable 1 g g'.
Proof using F.
  intros Hfull Hfree. destruct (forked_parent f) as (T1 & I1 & ->). rewrite (proj2 (Z.ltb_ge _ _)) by lia.
  destruct divide_lists as (L1 & L2 & A & B & EL & Hlen & EAB & Hplace).
  destruct forked_node as [nx Hn]. destruct forked_page_range as [_ Hr]. pose proof (s_index _ _ _ (fk_st _ _ _ _ _ _ _ _ _ F)) as HI.
  destruct (divide_lengths L1 L2 A B EL Hlen EAB Hplace Hfull) as (_ & _ & _ & _ & HL1 & HL2).
  destruct (divide_cut L1 L2 A B EL Hlen EAB Hplace Hfull) as (kk & tk & L2' & B' & EL2 & (tb & EB & Etb) & _).
  destruct (divide_order L1 L2 A B EL Hlen EAB Hplace Hfull kk tk L2' EL2) as (lo0 & hi0 & HsA & HsB & Hc & Ok & Okk & Hleft & Hright).
  assert (pinned (push (MemoPin p) g) p) as Hp by (left; cbn; apply elem_of_app; right; left).
  destruct (holds_page N p t2 (fk_holds2 _ _ _ _ _ _ _ _ _ F)) as (m2 & M2 & _).
  destruct (split_internal_ok T1 N (push (MemoPin p) g) p _ j L1 L2 I1 Hp Hn eq_refl Hfree) as (q & T2 & g2 & E2 & I2 & O2); try rewrite <-EL; try done.
  { apply F. }
  { cbn. lia. }
  { intros y Hy. exists p. apply (divide_kids L1 L2 EL). apply elem_of_app. by right. }
  { pose proof (divide_pages L1 L2 EL) as [Hnp _]%list.NoDup_cons. rewrite !not_elem_of_app in Hnp. tauto. }
  pose proof O2 as [G Hpq [Dp Dq] HNq [Hrq Hrq'] _]. pose proof (gr_header _ _ _ G) as Eh. cbn [g_header push] in Eh.
  rewrite (exec E2). change (RC.OB_FAIL RC.SUCCESS) with false. cbn iota.
  destruct (divide_fresh L1 L2 EL q nx HNq Hn) as (F1 & F2 & F3 & F4 & _).
  assert (q ∉ roots L2) as F5 by (intros H; by apply F4, roots_pages).
  cbn [nd_parent] in I2. change (with_items (kid_items L1) _) with (mkNode false (ctx_parent c) nx (kid_items L1)) in I2. fold (roots L2) in I2.
  set (n1 := mkNode false (ctx_parent c) nx (kid_items L1)) in *. set (m1 := mkNode false (ctx_parent c) BP_INVALID_PAGE_NUM (kid_items L2)) in *.
  fold (divided_nodes N p q n1 m1 L2) in I2. set (N1 := divided_nodes N p q n1 m1 L2) in *.
  assert (N1 !! p = Some n1) as Hp1 by apply lookup_insert_eq.
  assert (N1 !! q = Some m1) as Hq1 by (unfold N1, divided_nodes; by rewrite lookup_insert_ne, reparent_other, lookup_insert_eq by done).
  assert (N1 !! page_of t2 = Some m2) as Ht1.
  { unfold N1, divided_nodes. rewrite lookup_insert_ne by done. rewrite reparent_other, lookup_insert_ne; [done|done|]. intros H%roots_pages.
    pose proof (divide_pages L1 L2 EL) as [_ (_ & Hd & _)%list.NoDup_app]%list.NoDup_cons. apply (Hd _ (page_of_elem t2)). rewrite !elem_of_app. auto. }
  assert (pinned g2 p ∧ pinned g2 (page_of t2) ∧ page_of t2 ∈ g_dirty g2) as (Pp & P2 & D2).
  { split_and!; [by apply (grows_pinned _ _ _ _ G)| |].
    - apply (grows_pinned _ _ _ _ G), (grows_pinned 0 g); [apply grows_push|]. apply F.
    - apply (gr_dirty _ _ _ G). apply F. }
  rewrite (exec (read_head_key T2 N1 g2 q _ _ kk tk L2' I2 Eh Hpq ltac:(by rewrite <-EL2))).
  rewrite (kc_eq (kcmp h) (kok h) k kk Ok Okk). exec_deref.
  assert (∃ x x1 T3, (if 0 <? kc (kcmp h) k kk then internal_insert q k (page_of t2);; ignore (set_parent_page_num (page_of t2) q)
      else internal_insert p k (page_of t2);; ignore (set_parent_page_num (page_of t2) p)) T2 = Some (tt, T3) ∧
      st T3 (inserted_nodes N p q n1 m1 x1 m2 L2 t2 x) g2 ∧
      ((goes_left L1 L2 A B ∧ x = p ∧ x1 = mkNode false (ctx_parent c) nx (kid_items A)) ∨
       (goes_right L1 L2 A B ∧ x = q ∧ x1 = mkNode false (ctx_parent c) BP_INVALID_PAGE_NUM (kid_items B)))) as (x & x1 & T3 & E3 & I3 & Hcase).
  { destruct Hplace as [Hpl|Hpl].
    - pose proof (Hleft Hpl) as Hlt. rewrite (proj2 (Z.ltb_ge _ _)) by lia. pose proof Hpl as [_ (a & b & E4 & E5)].
      destruct (divided_insert_ok T2 N1 g2 p n1 a b lo0 (Some kk) m2) as (T3 & E3 & I3); unfold n1; cbn [nd_items]; rewrite <-?E4, <-?E5; try done.
      exists p. eexists _, T3. split_and!; [exact E3|exact I3|]. left. split_and!; [done|done|]. by rewrite <-E5.
    - pose proof (Hright Hpl) as Hlt. rewrite (proj2 (Z.ltb_lt _ _)) by lia. pose proof Hpl as [_ (a & b & E4 & E5)].
      destruct (divided_insert_ok T2 N1 g2 q m1 a b (Some kk) hi0 m2) as (T3 & E3 & I3); unfold m1; cbn [nd_items]; rewrite <-?E4, <-?E5; try done.
      exists q. eexists _, T3. split_and!; [exact E3|exact I3|]. right. split_and!; [done|done|]. by rewrite <-E5. }
  rewrite (exec E3). destruct (divide_both L1 L2 A B EL q nx m2 x x1 HNq Hn Hcase) as [_ BB].
  rewrite (exec (read_head_key T3 _ g2 q _ _ kk tb B' I3 Eh Hpq ltac:(by rewrite <-EB))).
  exists q, kk, A, B, lo0, hi0, T3. eexists _, g2. split_and!; [done| |done|].
  - by apply (divide_forked L1 L2 A B EL Hlen EAB Hplace Hfull q nx m2 x x1 HNq Hn M2 Hcase T3 g2 kk tk L2' lo0 hi0).
  - apply (stable_trans 0 1 _ (push (MemoPin p) g)); apply grows_stable; [apply grows_push|done].
Qed.
End parent.

Lemma insert_into_parent_ok {lv} (c : ctx lv) : ∀ fuel T N g t1 k t2 lo hi,
  forked T N g c t1 k t2 lo hi → (ctx_depth c ≤ fuel)%nat → (ctx_depth c < g_free g)%nat →
  ∃ T' N' g' W, insert_entry_into_parent fuel (page_of t1) (page_of t2) k T = Some (RC.SUCCESS, T') ∧ st T' N' g' ∧
    stable (ctx_depth c + 1) g g' ∧ tree_in N' g' W ∧ (lv + ctx_depth c ≤ projT1 W ≤ lv + ctx_depth c + 1)%nat ∧
    flat (projT2 W) = ctx_before (λ _ its, its) c ++ flat t1 ++ flat t2 ++ ctx_after (λ _ its, its) c.
Proof.
  induction c as [lv|lv p l k0 r c IH]; intros fuel T N g t1 k t2 lo hi F Hfuel Hfree.
  - destruct (g_free g) as [|f] eqn:Ef; [cbn in Hfree; lia|]. destruct (grow_root_ok T N g t1 k t2 lo hi f F Ef) as (T' & N' & g' & W & E & I' & S' & HT & Hlv & Hfl).
    exists T', N', g', W. split_and!; try done; [|cbn; lia|cbn; lia|by rewrite Hfl, app_nil_r].
    destruct (holds_page N _ t1 (fk_holds1 _ _ _ _ _ _ _ _ _ F)) as (m1 & M1 & _ & _ & Epar). cbn in Epar. pose proof (fk_st _ _ _ _ _ _ _ _ _ F) as I.
    destruct fuel as [|fuel]; cbn [insert_entry_into_parent]; rewrite (exec (header_ok _ _ _ I));
      rewrite (exec (read_ok T N g (page_of t1) m1 parent_page_num _ I (proj1 (fk_pinned _ _ _ _ _ _ _ _ _ F)) M1 (rep_parent _ _)));
      by rewrite Epar, Z.eqb_refl.
  - cbn [ctx_depth] in *. destruct (decide (Z.of_nat (length (l ++ (k0, t1) :: r)) < internal_max_size (g_header g))) as [Hroom|Hfull].
    + destruct (room_ok T N g p l k0 r c t1 k t2 lo hi F fuel Hroom) as (T' & N' & g' & E & I' & S' & HT).
      exists T', N', g', (plug c ((p, l ++ (k0, t1) :: (k, t2) :: r) : tree (Datatypes.S lv))). 
      split_and!; [done|done| |done|rewrite plug_level; cbn; lia|rewrite plug_level; cbn; lia|apply grown_flat].
      destruct S'. split; try done. lia.
    + destruct (g_free g) as [|f] eqn:Ef; [lia|].
      assert (Z.of_nat (length (l ++ (k0, t1) :: r)) = internal_max_size (g_header g)) as Hfull'.
      { destruct (forked_segment T N g p l k0 r c t1 k t2 lo hi F) as (_ & _ & _ & _ & Hl). lia. }
      destruct (full_ok T N g p l k0 r c t1 k t2 lo hi F fuel f Hfull' Ef) as (q & kk & A & B & lo0 & hi0 & T1 & N1 & g1 & E & F1 & EAB & S1).
      destruct fuel as [|fuel]; [lia|].
      destruct (IH fuel T1 N1 g1 (p, A) kk (q, B) lo0 hi0 F1) as (T' & N' & g' & W & E' & I' & S' & HT & Hlv & Hfl); [lia|pose proof (sb_free _ _ _ S1); lia|].
      exists T', N', g', W. split_and!; [by rewrite E|done| |done|lia|lia|].
      * replace (Datatypes.S (ctx_depth c) + 1)%nat with (1 + (ctx_depth c + 1))%nat by lia. by eapply stable_trans.
      * rewrite Hfl. pose proof (grown_flat p l k0 r c t1 k t2) as E2. unfold flat in *. rewrite gather_plug in E2. rewrite <-E2. cbn. rewrite EAB, flat_map_app. by rewrite <-!app_assoc.
Qed.
End inserting.
