(* ===== verification/IndexInsertEntry.v ===== *)
(** * [insert_entry]

    The leaf takes the new entry or is divided, and the operation as a whole: on a tree
    in order [insert_entry] returns, reports a key that is there, and otherwise puts it
    at its place; the mini transaction gives every pin, latch and lock back. *)

From stdpp Require Import sorting.
From S2P Require Import Prelude Types Bytes RecordPage IndexKey IndexNode IndexNodeSpec IndexPool IndexLog BplusTree BplusTreeOps IndexLaws IndexSteps IndexRoot IndexNodeOps IndexTree IndexFind IndexInsert.
Local Open Scope Z_scope.

(** ** The specification: a list of items in the order of their keys *)
Section spec.
Context (h : IndexFileHeader).
Notation ikey := (item_key h).
Notation kc := (kc (comparator h)).
Notation kok := (key_ok (attr_type h) (attr_length h)).

Fixpoint insert_item (it : list Z) (l : list (list Z)) : list (list Z) :=
  match l with [] => [it] | x :: l' => if kc (ikey x) (ikey it) <? 0 then x :: insert_item it l' else it :: l end.

Definition has_key (key : list Z) (l : list (list Z)) : bool := existsb (λ x, kc (ikey x) key =? 0) l.

Lemma insert_item_app it l1 l2 : Forall (λ x, kc (ikey x) (ikey it) < 0) l1 → Forall (λ x, 0 < kc (ikey x) (ikey it)) l2 →
  insert_item it (l1 ++ l2) = l1 ++ it :: l2.
Proof.
  intros F1 F2. induction l1 as [|x l1 IH]; cbn.
  - destruct l2 as [|y l2]; [done|]. apply list.Forall_cons in F2 as [F2 _]. cbn. by rewrite (proj2 (Z.ltb_ge _ _)) by lia.
  - apply list.Forall_cons in F1 as [Hx F1]. rewrite (proj2 (Z.ltb_lt _ _)) by done. by rewrite IH.
Qed.

Lemma has_key_split key l1 l2 : Forall (λ x, kc (ikey x) key < 0) l1 → Forall (λ x, 0 < kc (ikey x) key) l2 → has_key key (l1 ++ l2) = false.
Proof.
  intros F1 F2. unfold has_key. rewrite existsb_app. apply orb_false_iff. split; apply not_true_iff_false; rewrite existsb_exists; intros (x & Hx & E);
    apply list_elem_of_In in Hx; rewrite list.Forall_forall in F1, F2; [specialize (F1 x Hx)|specialize (F2 x Hx)]; lia.
Qed.

Lemma has_key_in key l it : it ∈ l → kc (ikey it) key = 0 → has_key key l = true.
Proof. intros Hi E. apply existsb_exists. exists it. split; [by apply list_elem_of_In|]. by apply Z.eqb_eq. Qed.
End spec.

Section insert_entry.
Context {S : Type} `{!IndexPool S, !IndexPoolLaws S}.
Notation Tree := (Tree S).
Implicit Types (T : Tree) (N : gmap PageNum node) (g : ghost) (p q : PageNum) (n : node).
Notation kcmp h := (comparator h).
Notation kok h := (key_ok (attr_type h) (attr_length h)).

(** ** A leaf *)
(** The leaf that [find_leaf] found, with the tree around it. *)
Record at_leaf T N g (c : ctx 0) p its lo hi key : Prop := {
  al_st : st T N g;
  al_loose : g_loose g = ∅;
  al_extra : g_extra g = [];
  al_pinned : pinned g p;
  al_tree : tree_in N g (plug c ((p, its) : tree 0));
  al_ctx : ctx_wf (g_header g) (kcmp (g_header g)) (kok (g_header g)) lo hi c;
  al_wf : wf (g_header g) (kcmp (g_header g)) (kok (g_header g)) (is_top c) lo hi ((p, its) : tree 0);
  al_key : kok (g_header g) key;
  al_within : within (kcmp (g_header g)) lo hi key;
  al_chars : chars key
}.

Section leaf.
Context T N g (c : ctx 0) p its lo hi key (AL : at_leaf T N g c p its lo hi key).
Notation h := (g_header g).
Notation kc := (kc (kcmp h)).
Notation ikey := (item_key h).

Lemma leaf_node : ∃ nx, N !! p = Some (mkNode true (ctx_parent c) nx its) ∧ ctx_holds N p c.
Proof using AL.
  destruct (proj1 (holds_plug N c _) (ti_holds _ _ _ (al_tree _ _ _ _ _ _ _ _ _ AL))) as [[nx E] Hc]. by exists nx.
Qed.

Lemma key_length_ok : Z.of_nat (length key) = key_length h.
Proof using AL.
  rewrite (io_key _ (s_index _ _ _ (al_st _ _ _ _ _ _ _ _ _ AL))). apply (ko_length _ _ _ (al_key _ _ _ _ _ _ _ _ _ AL)).
Qed.

(** Where the key is among the items of the leaf. *)
Lemma leaf_search nx d : rep h (mkNode true (ctx_parent c) nx its) d →
  ∃ l1 l2 fd, its = l1 ++ l2 ∧ leaf_lookup h (kcmp h) d key = Some (Z.of_nat (length l1), fd) ∧
    Forall (λ it, kc (ikey it) key < 0) l1 ∧ Forall (λ it, 0 ≤ kc (ikey it) key) l2 ∧
    (fd = true → ∃ it, it ∈ its ∧ kc (ikey it) key = 0) ∧ (fd = false → Forall (λ it, 0 < kc (ikey it) key) l2).
Proof using AL.
  intros R. destruct (al_wf _ _ _ _ _ _ _ _ _ AL) as (_ & Hs & Hk & _). cbn [snd] in Hs, Hk. pose proof (al_key _ _ _ _ _ _ _ _ _ AL) as Ok.
  destruct (leaf_lookup_ok h (s_index _ _ _ (al_st _ _ _ _ _ _ _ _ _ AL)) _ _ _ d key R eq_refl Hs Hk Ok) as (l1 & l2 & fd & E & El & F1 & F2 & Hfd).
  cbn [nd_items] in E. exists l1, l2, fd. split_and!; try done.
  - intros Ef. apply Hfd in Ef as (it & Hit & E0). exists it. split; [|done]. destruct l2; [done|]. injection Hit as ->. rewrite E. apply elem_of_app. right. left.
  - intros ->. destruct l2 as [|x l2]; [constructor|]. apply list.Forall_cons in F2 as [Hx F2]. rewrite E in Hs, Hk. unfold keys_ok in Hk.
    apply Forall_app in Hk as [_ Hk]. apply list.Forall_cons in Hk as [Ox Hk]. apply StronglySorted_app_1_r, StronglySorted_inv in Hs as [_ Hs].
    assert (0 < kc (ikey x) key) as Hlt.
    { destruct (decide (kc (ikey x) key = 0)) as [E0|]; [|lia]. enough (false = true) by done. apply Hfd. by exists x. }
    constructor; [done|]. rewrite list.Forall_forall in Hs, Hk |- *. intros y Hy. specialize (Hs y Hy). specialize (Hk y Hy). unfold item_lt in Hs.
    apply (kc_pos (kcmp h) (kok h)); [done..|]. apply (kc_lt_trans (kcmp h) (kok h) key (ikey x)); [done..| |done]. by apply (kc_pos (kcmp h) (kok h)).
Qed.

Notation whole_items := (flat (projT2 (plug c ((p, its) : tree 0)))).

Lemma leaf_outside : Forall (λ it, kc (ikey it) key < 0) (ctx_before (λ _ its, its) c) ∧ Forall (λ it, 0 < kc (ikey it) key) (ctx_after (λ _ its, its) c).
Proof using AL.
  pose proof (s_index _ _ _ (al_st _ _ _ _ _ _ _ _ _ AL)) as HI. pose proof (al_key _ _ _ _ _ _ _ _ _ AL) as Ok.
  destruct (wf_bounds h HI _ _ _ _ _ _ (al_wf _ _ _ _ _ _ _ _ _ AL)) as (Blo & Bhi & _). destruct (al_within _ _ _ _ _ _ _ _ _ AL) as [W1 W2].
  destruct (ctx_outside h HI _ _ lo hi c key (al_ctx _ _ _ _ _ _ _ _ _ AL) Ok Blo Bhi (conj W1 W2)) as [F1 F2]. split.
  - eapply list.Forall_impl; [exact F1|]. intros it [Oit (a & -> & Ha)]. by apply (kc_lt_le (kcmp h) (kok h) _ a key).
  - eapply list.Forall_impl; [exact F2|]. intros it [Oit (b & -> & Hb)]. apply (kc_pos (kcmp h) (kok h)); [done..|]. by apply (kc_lt_le (kcmp h) (kok h) key b).
Qed.

Lemma whole_items_eq its' : flat (projT2 (plug c ((p, its') : tree 0))) = ctx_before (λ _ its, its) c ++ its' ++ ctx_after (λ _ its, its) c.
Proof. unfold flat. by rewrite gather_plug. Qed.

Lemma leaf_insert_items l1 l2 it : its = l1 ++ l2 → ikey it = key → Forall (λ it, kc (ikey it) key < 0) l1 → Forall (λ it, 0 < kc (ikey it) key) l2 →
  has_key h key whole_items = false ∧
  insert_item h it whole_items = ctx_before (λ _ its, its) c ++ (l1 ++ it :: l2) ++ ctx_after (λ _ its, its) c.
Proof using AL.
  intros E Ek F1 F2. destruct leaf_outside as [G1 G2]. rewrite whole_items_eq, E, <-!app_assoc, app_assoc. split.
  - apply has_key_split; by apply Forall_app_2.
  - rewrite insert_item_app; rewrite ?Ek; [by rewrite <-!app_assoc|by apply Forall_app_2..].
Qed.

(** *** The new item in the leaf *)
Context (rid : RID) (l1 l2 : list (list Z)) (Eits : its = l1 ++ l2).
Context (Hl1 : Forall (λ it, kc (ikey it) key < 0) l1) (Hl2 : Forall (λ it, 0 < kc (ikey it) key) l2).
Notation item := (leaf_item key rid).
Notation its' := (l1 ++ item :: l2).

Lemma leaf_item_key : ikey item = key.
Proof using AL. unfold item_key, leaf_item. apply take_app_length'. pose proof key_length_ok. lia. Qed.

Lemma insert_in_order : in_order h (kcmp h) (kok h) lo hi its'.
Proof using AL Eits Hl1 Hl2.
  destruct (al_wf _ _ _ _ _ _ _ _ _ AL) as (_ & Hs & Hk & Hr & _). cbn [snd] in *. pose proof (al_key _ _ _ _ _ _ _ _ _ AL) as Ok.
  rewrite Eits in Hs, Hk, Hr. unfold items_sorted in Hs. apply StronglySorted_app in Hs as (H12 & H1 & H2). unfold keys_ok in Hk. apply Forall_app in Hk as [K1 K2], Hr as [R1 R2].
  split.
  - unfold items_sorted. apply StronglySorted_app. split_and!; [|done|].
    + intros a b Ha [->|Hb]%elem_of_cons; [|by apply H12]. unfold item_lt. rewrite leaf_item_key. rewrite list.Forall_forall in Hl1. by apply Hl1.
    + constructor; [done|]. rewrite list.Forall_forall in Hl2, K2 |- *. intros b Hb. unfold item_lt. rewrite leaf_item_key.
      apply (kc_pos (kcmp h) (kok h)); [by apply K2|done|by apply Hl2].
  - unfold keys_ok. apply Forall_app_2; [done|]. constructor; [|done]. by rewrite leaf_item_key.
  - apply Forall_app_2; [done|]. constructor; [|done]. rewrite leaf_item_key. apply AL.
Qed.

Notation W' := (plug c ((p, its') : tree 0)).

Lemma leaf_room_tree nx : N !! p = Some (mkNode true (ctx_parent c) nx its) → Z.of_nat (length its) < leaf_max_size h →
  tree_in (<[p := mkNode true (ctx_parent c) nx its']> N) g W'.
Proof using AL Eits Hl1 Hl2.
  intros Hn Hroom. destruct insert_in_order as [Hs Hk Hr]. destruct (al_tree _ _ _ _ _ _ _ _ _ AL) as [_ Hnd _ HL Hroot].
  destruct leaf_node as (_ & _ & Hc). destruct (al_wf _ _ _ _ _ _ _ _ _ AL) as ([Hmin Hmax] & _ & _ & _ & Hb). cbn [snd] in *.
  rewrite pages_plug in Hnd. cbn in Hnd. split.
  - apply holds_plug. split; [exists nx; by rewrite lookup_insert_eq|]. apply (ctx_holds_frame N); [|done]. intros q Hq. apply lookup_insert_ne.
    intros <-. by apply list.NoDup_cons in Hnd as [? _].
  - by rewrite pages_plug.
  - apply wf_plug. exists lo, hi. split; [apply AL|].
    refine (conj (conj _ _) (conj Hs (conj Hk (conj Hr Hb)))); cbn; rewrite Eits, length_app in Hmin, Hmax, Hroom; rewrite length_app; cbn; lia.
  - apply (linked_frame N); [by eapply same_next_insert|]. unfold leaves in *. by rewrite gather_plug in HL |- *.
  - rewrite Hroot. by apply plug_root.
Qed.

Lemma leaf_room_ok nx : N !! p = Some (mkNode true (ctx_parent c) nx its) → Z.of_nat (length its) < leaf_max_size h →
  ∃ T' N' g', (leaf_insert p (Z.of_nat (length l1)) key (rid_bytes rid);; mark_dirty p;; mret RC.SUCCESS) T = Some (RC.SUCCESS, T') ∧ st T' N' g' ∧
    stable 0 g g' ∧ tree_in N' g' W'.
Proof using AL Eits Hl1 Hl2.
  intros Hn Hroom. pose proof (leaf_room_tree nx Hn Hroom) as HT. pose proof AL as [I Hlo Hx Hp _ _ _ _ _ Hc].
  destruct (leaf_insert_ok T N g p _ I Hp Hn eq_refl (length l1) key rid) as (T1 & E1 & I1); cbn [nd_items]; [rewrite Eits, length_app; lia|done|apply key_length_ok|done|].
  cbn [nd_items] in I1. rewrite Eits, take_app_length, drop_app_length in I1.
  destruct (mark_dirty_ok T1 _ _ p I1 Hp) as (T2 & E2 & I2). rewrite soil_touch in I2. exists T2. eexists _, (soil p g). split_and!.
  - by rewrite (exec E1), (exec E2).
  - exact I2.
  - apply grows_stable, grows_soil.
  - unfold with_items. cbn [nd_leaf nd_parent nd_next]. destruct HT. rewrite Eits in *. by split.
Qed.

(** *** A full leaf *)
Lemma divide_items i : (i ≤ length its)%nat → ∃ X Y A B, its = X ++ Y ∧ length X = i ∧ its' = A ++ B ∧
  ((length l1 < i)%nat ∧ (∃ x, X = l1 ++ x ∧ A = l1 ++ item :: x ∧ B = Y) ∨
   (i ≤ length l1)%nat ∧ (∃ x, Y = x ++ l2 ∧ length x = (length l1 - i)%nat ∧ A = X ∧ B = x ++ item :: l2)).
Proof using Eits Hl1.
  intros Hi. destruct (split_at its i Hi) as (X & Y & E & HX). exists X, Y. rewrite Eits in E. destruct (decide (length l1 < i)%nat) as [Hlt|Hge].
  - assert (∃ x, X = l1 ++ x ∧ l2 = x ++ Y) as (x & -> & E2).
    { apply app_eq_app in E as (x & [[-> E]|[-> E]]); [exfalso; rewrite length_app in Hlt; lia|]. by exists x. }
    exists (l1 ++ item :: x), Y. split_and!; [by rewrite Eits, E2, app_assoc|done|by rewrite E2, <-app_assoc|]. left. split; [done|]. by exists x.
  - assert (∃ x, l1 = X ++ x ∧ Y = x ++ l2) as (x & E1 & E2).
    { apply app_eq_app in E as (x & [[-> E]|[-> E]]); [by exists x|]. rewrite length_app in HX. destruct x; [|cbn in HX; lia]. exists []. by rewrite !app_nil_r. }
    exists X, (x ++ item :: l2). split_and!; [by rewrite Eits, E1, E2, <-app_assoc|done|by rewrite E1, <-app_assoc|]. right. split; [lia|]. exists x.
    split_and!; try done. rewrite E1, length_app. lia.
Qed.

Lemma leaf_forked nx q A B it0 B' T' g' :
  g_mode g = READ_WRITE → N !! p = Some (mkNode true (ctx_parent c) nx its) → its' = A ++ B → B = it0 :: B' →
  leaf_min h false ≤ Z.of_nat (length A) ≤ leaf_max_size h → leaf_min h false ≤ Z.of_nat (length B) ≤ leaf_max_size h →
  split_off N g p q g' → item_ok h true it0 →
  st T' (<[p := mkNode true (ctx_parent c) q A]> (<[q := mkNode true (ctx_parent c) nx B]> N)) g' →
  forked T' (<[p := mkNode true (ctx_parent c) q A]> (<[q := mkNode true (ctx_parent c) nx B]> N)) g' c ((p, A) : tree 0) (ikey it0) ((q, B) : tree 0) lo hi.
Proof using AL Eits Hl1 Hl2.
  intros Hm Hn EAB EB LA LB [G Hpq [Dp Dq] HNq Hrq _] Hit I'. pose proof (gr_header _ _ _ G) as Eh.
  destruct (al_wf _ _ _ _ _ _ _ _ _ AL) as (_ & _ & _ & _ & Blo & Bhi). pose proof insert_in_order as HO. rewrite EAB, EB in HO.
  destruct (in_order_split h _ _ lo hi A it0 B' Blo Bhi HO) as [[S1 K1 R1] [S2 K2 R2]].
  destruct leaf_node as (_ & _ & Hc). destruct (al_tree _ _ _ _ _ _ _ _ _ AL) as [HH Hnd _ HL Hroot]. rewrite pages_plug in Hnd. cbn in Hnd.
  assert (p ≠ q) as Hne by (intros <-; congruence).
  assert (q ∉ ctx_pages c) as Hqc by (intros H; destruct (ctx_holds_in N p c q Hc H); congruence).
  apply list.NoDup_cons in Hnd as [Hpc Hnd].
  assert (kok h (ikey it0)) as Oit.
  { unfold keys_ok in K2. apply list.Forall_cons in K2 as [? _]. done. }
  split; cbn [page_of fst snd]; rewrite ?Eh; try done.
  - pose proof (gr_loose _ _ _ G) as Hl. rewrite (al_loose _ _ _ _ _ _ _ _ _ AL) in Hl. set_solver.
  - by rewrite (gr_mode _ _ _ G).
  - rewrite (gr_extra _ _ _ G). apply AL.
  - split; [|done]. apply (grows_pinned _ _ _ _ G). apply AL.
  - apply (ctx_holds_frame N); [|done]. intros r Hr. rewrite !lookup_insert_ne; [done| |]; intros <-; done.
  - exists q. by rewrite lookup_insert_eq.
  - exists nx. cbn [fst snd]. by rewrite lookup_insert_ne, lookup_insert_eq.
  - cbn. apply list.NoDup_cons. split; [|by constructor]. intros [E|?]%elem_of_cons; done.
  - apply AL.
  - rewrite EB in LB |- *. refine (conj LB (conj S2 (conj K2 (conj R2 (conj Oit Bhi))))).
  - destruct (item_parts h (s_index _ _ _ (al_st _ _ _ _ _ _ _ _ _ AL)) true it0 Hit) as (_ & Hlk & _). split; [done|].
    destruct Hit as [_ Hch]. apply Forall_take, Hch.
  - unfold leaves in *. rewrite gather_plug in HL. cbn in HL |- *. apply (linked_insert N); [done| | |].
    + intros r Hr%ctx_leaves_pages. unfold next_of. rewrite !lookup_insert_ne; [done| |]; intros <-; done.
    + unfold next_of. by rewrite lookup_insert_ne, lookup_insert_eq, Hn.
    + unfold next_of. by rewrite lookup_insert_eq.
  - rewrite Hroot. by apply plug_root.
Qed.

Lemma insert_two (q : PageNum) (a b b' : node) : p ≠ q → <[q := b']> (<[p := a]> (<[q := b]> N)) = <[p := a]> (<[q := b']> N).
Proof. intros Hne. rewrite insert_insert_ne by done. by rewrite insert_insert_eq. Qed.

(** The new leaf is linked behind the old one. *)
Lemma leaf_link_ok T1 g1 q nx X Y :
  st T1 (<[p := mkNode true (ctx_parent c) nx X]> (<[q := mkNode true (ctx_parent c) BP_INVALID_PAGE_NUM Y]> N)) g1 →
  pinned g1 p → pinned g1 q → p ∈ g_dirty g1 → q ∈ g_dirty g1 → p ≠ q → in_srange 32 q → in_srange 32 nx → in_srange 32 (ctx_parent c) →
  ∃ T2, (∀ R (K : M Tree R),
      (next ← read p next_page; set_next_page q next;; par ← read p parent_page_num; set_parent_page_num q par;; set_next_page p q;; K) T1 = K T2) ∧
    st T2 (<[p := mkNode true (ctx_parent c) q X]> (<[q := mkNode true (ctx_parent c) nx Y]> N)) g1.
Proof.
  intros I1 Pp Pq Dp Dq Hne Rq Rn Rp.
  pose proof (read_ok T1 _ g1 p _ next_page nx I1 Pp (lookup_insert_eq _ _ _) (λ d R, rep_next _ _ d R eq_refl)) as E1.
  destruct (set_next_ok T1 _ g1 q _ nx I1 Pq ltac:(by rewrite lookup_insert_ne, lookup_insert_eq) eq_refl Rn) as (T2 & E2 & I2).
  rewrite (touch_dirty q g1 Dq) in I2. rewrite insert_two in I2 by done.
  pose proof (read_ok T2 _ g1 p _ parent_page_num _ I2 Pp (lookup_insert_eq _ _ _) (rep_parent _ _)) as E2'. cbn [nd_parent] in E2'.
  destruct (set_parent_ok T2 _ g1 q _ (ctx_parent c) I2 Pq ltac:(by rewrite lookup_insert_ne, lookup_insert_eq) Rp) as (T3 & E3 & I3).
  rewrite (touch_dirty q g1 Dq) in I3. rewrite insert_two in I3 by done.
  destruct (set_next_ok T3 _ g1 p _ q I3 Pp (lookup_insert_eq _ _ _) eq_refl Rq) as (T4 & E4 & I4).
  rewrite (touch_dirty p g1 Dp) in I4. rewrite insert_insert_eq in I4. exists T4. split; [|done].
  intros R K. by rewrite (exec E1), (exec E2), (exec E2'), (exec E3), (exec E4).
Qed.

(** The item goes to one of the halves. *)
Lemma leaf_half_ok T1 g1 q nx X Y A B i :
  st T1 (<[p := mkNode true (ctx_parent c) q X]> (<[q := mkNode true (ctx_parent c) nx Y]> N)) g1 → g_header g1 = h →
  pinned g1 p → pinned g1 q → p ∈ g_dirty g1 → q ∈ g_dirty g1 → p ≠ q → length X = i →
  Z.of_nat (length X) < leaf_max_size h → Z.of_nat (length Y) < leaf_max_size h →
  ((length l1 < i)%nat ∧ (∃ x, X = l1 ++ x ∧ A = l1 ++ item :: x ∧ B = Y) ∨
   (i ≤ length l1)%nat ∧ (∃ x, Y = x ++ l2 ∧ length x = (length l1 - i)%nat ∧ A = X ∧ B = x ++ item :: l2)) →
  ∃ T2, (∀ R (K : M Tree R),
        (n ← read p node_size;
         (if Z.of_nat (length l1) <? n then leaf_insert p (Z.of_nat (length l1)) key (rid_bytes rid)
          else leaf_insert q (Z.of_nat (length l1) - n) key (rid_bytes rid));; K) T1 = K T2) ∧
    st T2 (<[p := mkNode true (ctx_parent c) q A]> (<[q := mkNode true (ctx_parent c) nx B]> N)) g1.
Proof using AL.
  intros I1 Eh Pp Pq Dp Dq Hne HX LX LY Hcase. pose proof key_length_ok as Hkl. pose proof (al_chars _ _ _ _ _ _ _ _ _ AL) as Hkc.
  pose proof (read_ok T1 _ g1 p _ node_size _ I1 Pp (lookup_insert_eq _ _ _) (λ d R, rep_size _ (s_index _ _ _ I1) _ d R)) as E1. cbn [nd_items] in E1. rewrite HX in E1.
  destruct Hcase as [[Hlt (x & EX & -> & ->)]|[Hge (x & EY & Hx & -> & ->)]].
  - destruct (leaf_insert_ok T1 _ g1 p _ I1 Pp (lookup_insert_eq _ _ _) eq_refl (length l1) key rid) as (T2 & E2 & I2); rewrite ?Eh; cbn [nd_items]; try done; [rewrite HX; lia|].
    cbn [nd_items] in I2. rewrite (touch_dirty p g1 Dp), insert_insert_eq, EX, take_app_length, drop_app_length in I2. exists T2. split; [|done].
    intros R K. rewrite (exec E1), (proj2 (Z.ltb_lt _ _)) by lia. by rewrite (exec E2).
  - destruct (leaf_insert_ok T1 _ g1 q _ I1 Pq ltac:(by rewrite lookup_insert_ne, lookup_insert_eq) eq_refl (length x) key rid) as (T2 & E2 & I2);
      rewrite ?Eh; cbn [nd_items]; try done; [rewrite EY, length_app; lia|].
    cbn [nd_items] in I2. rewrite (touch_dirty q g1 Dq), insert_two, EY, take_app_length, drop_app_length in I2 by done. exists T2. split; [|done].
    intros R K. rewrite (exec E1), (proj2 (Z.ltb_ge _ _)) by lia. replace (Z.of_nat (length l1) - Z.of_nat i) with (Z.of_nat (length x)) by lia. by rewrite (exec E2).
Qed.

Lemma half_lengths X Y A B :
  its = X ++ Y → length X = (length its / 2)%nat → its' = A ++ B →
  ((length l1 < length its / 2)%nat ∧ (∃ x, X = l1 ++ x ∧ A = l1 ++ item :: x ∧ B = Y) ∨
   (length its / 2 ≤ length l1)%nat ∧ (∃ x, Y = x ++ l2 ∧ length x = (length l1 - length its / 2)%nat ∧ A = X ∧ B = x ++ item :: l2)) →
  Z.of_nat (length its) = leaf_max_size h →
  Z.of_nat (length X) < leaf_max_size h ∧ Z.of_nat (length Y) < leaf_max_size h ∧
  leaf_min h false ≤ Z.of_nat (length A) ≤ leaf_max_size h ∧ leaf_min h false ≤ Z.of_nat (length B) ≤ leaf_max_size h ∧ ∃ it0 B', B = it0 :: B'.
Proof using AL.
  intros EXY HX EAB Hcase Hfull. pose proof (s_index _ _ _ (al_st _ _ _ _ _ _ _ _ _ AL)) as [_ _ _ _ Hmin _].
  assert (length its = length X + length Y)%nat as Hsum by (by rewrite EXY, length_app).
  assert ((length A = length X + 1 ∧ length B = length Y) ∨ (length A = length X ∧ length B = length Y + 1))%nat as Hor.
  { destruct Hcase as [[_ (x & -> & -> & ->)]|[_ (x & -> & _ & -> & ->)]]; rewrite !length_app; cbn; lia. }
  unfold leaf_min. rewrite <-Hfull in *. change 2 with (Z.of_nat 2). rewrite <-Nat2Z.inj_div.
  pose proof (Nat.div_mod_eq (length its) 2). pose proof (Nat.mod_upper_bound (length its) 2 ltac:(lia)).
  split_and!; try lia. destruct B as [|it0 B']; [cbn in Hor; lia|]. by exists it0, B'.
Qed.

Lemma full_leaf_ok fuel nx : g_mode g = READ_WRITE → N !! p = Some (mkNode true (ctx_parent c) nx its) → Z.of_nat (length its) = leaf_max_size h →
  (ctx_depth c ≤ fuel)%nat → (ctx_depth c + 1 < g_free g)%nat →
  ∃ T' N' g' W, (
      '(rc, new_frame) ← split LeafHandler p;
      if RC.OB_FAIL rc then mret rc
      else
        next ← read p next_page;
        set_next_page new_frame next;;
        par ← read p parent_page_num;
        set_parent_page_num new_frame par;;
        set_next_page p new_frame;;
        n ← read p node_size;
        (if Z.of_nat (length l1) <? n then leaf_insert p (Z.of_nat (length l1)) key (rid_bytes rid)
         else leaf_insert new_frame (Z.of_nat (length l1) - n) key (rid_bytes rid));;
        k0 ← read new_frame (λ d, key_at h LeafHandler d 0);
        insert_entry_into_parent fuel p new_frame k0) T = Some (RC.SUCCESS, T') ∧
    st T' N' g' ∧ stable (ctx_depth c + 2) g g' ∧ tree_in N' g' W ∧ (ctx_depth c ≤ projT1 W ≤ ctx_depth c + 1)%nat ∧
    flat (projT2 W) = ctx_before (λ _ its, its) c ++ its' ++ ctx_after (λ _ its, its) c.
Proof using AL Eits Hl1 Hl2.
  intros Hm Hn Hfull Hfuel Hfree. pose proof (al_st _ _ _ _ _ _ _ _ _ AL) as I. pose proof (s_index _ _ _ I) as HI. pose proof (al_pinned _ _ _ _ _ _ _ _ _ AL) as Pp.
  destruct (g_free g) as [|f] eqn:Ef; [lia|].
  destruct (split_leaf_ok T N g p _ f I Pp Hn eq_refl Ef Hm) as (q & T1 & g1 & E1 & I1 & O1); [cbn; lia|]. cbn [nd_items nd_parent] in I1.
  pose proof O1 as [G Pq [Dp Dq] HNq [Rq Rq'] _]. pose proof (gr_header _ _ _ G) as Eh. assert (p ≠ q) as Hne by (intros <-; congruence).
  destruct (divide_items (length its / 2)) as (X & Y & A & B & EXY & HX & EAB & Hcase); [apply Nat.Div0.div_le_upper_bound; lia|].
  rewrite <-HX in I1. rewrite EXY, take_app_length, drop_app_length in I1. cbn [with_items nd_leaf nd_parent nd_next] in I1.
  destruct (s_nodes _ _ _ I p _ Hn) as (d & _ & R). assert (in_srange 32 (ctx_parent c) ∧ in_srange 32 nx) as [Rp Rn] by (by destruct R as (? & ? & ? & ? & ? & ? & ? & ? & ?)).
  assert (pinned g1 p) as Pp1 by (by apply (grows_pinned _ _ _ _ G)).
  destruct (leaf_link_ok T1 g1 q nx X Y I1 Pp1 Pq Dp Dq Hne Rq' Rn Rp) as (T2 & E2 & I2).
  destruct (half_lengths X Y A B EXY HX EAB Hcase Hfull) as (LX & LY & LA & LB & it0 & B' & EB).
  destruct (leaf_half_ok T2 g1 q nx X Y A B _ I2 Eh Pp1 Pq Dp Dq Hne HX LX LY Hcase) as (T3 & E3 & I3).
  assert (<[p := mkNode true (ctx_parent c) q A]> (<[q := mkNode true (ctx_parent c) nx B]> N) !! q = Some (mkNode true (ctx_parent c) nx B)) as Hq
    by (by rewrite lookup_insert_ne, lookup_insert_eq).
  destruct (read_page T3 _ g1 q _ I3 Pq Hq) as (d3 & R3 & Hrd). rewrite Eh in R3. rewrite EB in R3.
  pose proof (rep_key_at h HI _ d3 0 it0 R3 eq_refl) as Ek. cbn [nd_leaf kind] in Ek. change (Z.of_nat 0) with 0 in Ek.
  pose proof (rep_items _ _ _ R3) as Hok. cbn [nd_leaf nd_items] in Hok. apply list.Forall_cons in Hok as [Hok _].
  pose proof (leaf_forked nx q A B it0 B' T3 g1 Hm Hn EAB EB LA LB O1 Hok I3) as FK. pose proof (gr_free _ _ _ G) as Hfr.
  destruct (insert_into_parent_ok c fuel _ _ _ _ _ _ _ _ FK Hfuel) as (T4 & N4 & g4 & W & E4 & I4 & S4 & HT & Hlv & Hfl); [lia|].
  exists T4, N4, g4, W. split_and!; [|done| |done|lia|lia|].
  - rewrite (exec E1). change (RC.OB_FAIL RC.SUCCESS) with false. cbn iota. rewrite E2, E3. by rewrite (exec (Hrd _ (λ d, key_at h LeafHandler d 0) _ Ek)).
  - replace (ctx_depth c + 2)%nat with (1 + (ctx_depth c + 1))%nat by lia. eapply stable_trans; [by apply grows_stable|done].
  - rewrite Hfl. unfold flat. cbn. rewrite EAB. by rewrite <-!app_assoc.
Qed.
End leaf.

(** The two branches and the entry that is there. *)
Lemma insert_leaf_ok fuel T N g (c : ctx 0) p its lo hi key rid :
  at_leaf T N g c p its lo hi key → g_mode g = READ_WRITE → (ctx_depth c ≤ fuel)%nat → (ctx_depth c + 1 < g_free g)%nat →
  let l := flat (projT2 (plug c ((p, its) : tree 0))) in
  let dup := has_key (g_header g) key l in
  ∃ T' N' g' W', insert_entry_into_leaf_node fuel p key rid T = Some (if dup then RC.RECORD_DUPLICATE_KEY else RC.SUCCESS, T') ∧
    st T' N' g' ∧ stable (ctx_depth c + 2) g g' ∧ tree_in N' g' W' ∧ (ctx_depth c ≤ projT1 W' ≤ ctx_depth c + 1)%nat ∧
    flat (projT2 W') = (if dup then l else insert_item (g_header g) (leaf_item key rid) l) ∧ (dup = true → T' = T).
Proof.
  intros AL Hm Hfuel Hfree l dup. destruct (leaf_node T N g c p its lo hi key AL) as (nx & Hn & _). pose proof AL as [I Hlo Hx Hp HT Hc Hw Ok Hin Hch].
  destruct (read_page T N g p _ I Hp Hn) as (d & R & Hrd).
  destruct (leaf_search T N g c p its lo hi key AL nx d R) as (l1 & l2 & fd & Eits & Elk & F1 & _ & Ffd & Fnf).
  unfold insert_entry_into_leaf_node. rewrite (exec (header_ok _ _ _ I)), (exec (Hrd _ _ _ Elk)). destruct fd.
  - destruct (Ffd eq_refl) as (it & Hit & E0).
    assert (dup = true) as -> by (apply (has_key_in _ _ _ it); [unfold l; rewrite whole_items_eq, !elem_of_app; auto|done]).
    exists T, N, g, (plug c ((p, its) : tree 0)). split_and!; try done; rewrite ?plug_level; cbn; try lia.
    split; try done; [exists (root_page (g_header g)); apply header_eta|lia].
  - pose proof (Fnf eq_refl) as F2. pose proof (leaf_item_key T N g c p its lo hi key AL rid) as Ek.
    destruct (leaf_insert_items T N g c p its lo hi key AL l1 l2 (leaf_item key rid) Eits Ek F1 F2) as [Hd Hins].
    assert (dup = false) as -> by exact Hd. fold l in Hins.
    rewrite (exec (Hrd _ _ _ (rep_size _ (s_index _ _ _ I) _ d R))). cbn [nd_items].
    erewrite (bind_run (node_max_size p) _ T (leaf_max_size (g_header g)) T);
      [|unfold node_max_size; rewrite (exec (header_ok _ _ _ I)); by rewrite (exec (Hrd _ _ _ (rep_is_leaf _ _ d R)))].
    destruct (Z.ltb_spec (Z.of_nat (length its)) (leaf_max_size (g_header g))) as [Hroom|Hge].
    + destruct (leaf_room_ok T N g c p its lo hi key AL rid l1 l2 Eits F1 F2 nx Hn Hroom) as (T' & N' & g' & E' & I' & S' & HT').
      exists T', N', g'. eexists. split_and!; [exact E'|done| |exact HT'|rewrite plug_level; cbn; lia|rewrite plug_level; cbn; lia| |done].
      * destruct S'. split; try done. lia.
      * by rewrite whole_items_eq, Hins.
    + destruct (full_leaf_ok T N g c p its lo hi key AL rid l1 l2 Eits F1 F2 fuel nx Hm Hn) as (T' & N' & g' & W & E' & I' & S' & HT' & Hlv & Hfl);
        [destruct Hw as [[_ Hmx] _]; cbn [snd] in Hmx; lia|done|done|].
      exists T', N', g', W. split_and!; try done; [apply Hlv|apply Hlv|]. by rewrite Hfl, Hins.
Qed.
End insert_entry.
