(* ===== verification/IndexMtr.v ===== *)
(** * Mini transactions on a tree

    What a tree is between two operations: its items in the order of their keys, a
    level and a number of pages that can still be allocated, with nothing pinned,
    latched or locked.  Lemmas on the beginning and the end of a mini transaction, and
    [insert_entry] as a whole. *)

From stdpp Require Import sorting.
From S2P Require Import Prelude Types Bytes RecordPage IndexKey IndexNode IndexNodeSpec IndexPool IndexLog BplusTree BplusTreeOps IndexLaws IndexSteps IndexRoot IndexNodeOps IndexTree IndexFind IndexInsert IndexInsertEntry.
Local Open Scope Z_scope.

Definition idle (h : IndexFileHeader) (m : ReadWriteMode) (dirty : gset PageNum) (free : nat) : ghost :=
  mkGhost h [] [] m Unlocked [] ∅ dirty ∅ free.

Section mtr.
Context {S : Type} `{!IndexPool S, !IndexPoolLaws S}.
Notation Tree := (Tree S).
Implicit Types (T : Tree) (N : gmap PageNum node) (g : ghost) (p q : PageNum) (n : node).

(** ** Calls that log nothing *)
Definition keeps_log {A} (m : M Tree A) : Prop := ∀ T a T', m T = Some (a, T') → entries_ T' = entries_ T.

Lemma keeps_log_bind {A B} (m : M Tree A) (f : A → M Tree B) : keeps_log m → (∀ a, keeps_log (f a)) → keeps_log (m ≫= f).
Proof.
  intros Hm Hf T b T'. unfold mbind, M_bind. destruct (m T) as [[a T1]|] eqn:E; [|done]. intros E2.
  rewrite (Hf a T1 b T' E2). by apply (Hm T a).
Qed.
Lemma keeps_log_ret {A} (a : A) : keeps_log (mret a).
Proof. by intros T ? T' [= _ <-]. Qed.
Lemma keeps_pool {A} (m : M S A) : keeps_log (pool m).
Proof. intros T a T'. unfold pool. destruct (m (t_pool T)) as [[b s]|]; [|done]. by intros [= _ <-]. Qed.
Lemma keeps_modify (f : Tree → Tree) : (∀ T, entries_ (f T) = entries_ T) → keeps_log (modify f).
Proof. intros Hf T a T' [= _ <-]. apply Hf. Qed.
Lemma keeps_log_gets {A} (f : Tree → A) : keeps_log (gets f).
Proof. by intros T a T' [= _ <-]. Qed.
Lemma keeps_log_deref {A} (o : option A) : keeps_log (deref o).
Proof. intros T a T'. by destruct o; [intros [= _ <-]|]. Qed.
Lemma keeps_log_fetch : keeps_log fetch.
Proof. by intros T a T' [= _ <-]. Qed.

Local Ltac keeps_with tac :=
  repeat first
    [ assumption | tac | apply keeps_log_ret | apply keeps_pool | apply keeps_log_deref | apply keeps_log_fetch | apply keeps_log_gets | (apply keeps_modify; done)
    | (apply keeps_log_bind; [|intros ?])
    | match goal with |- keeps_log (match ?x with _ => _ end) => destruct x end ].
Local Ltac keeps := keeps_with fail.

Lemma keeps_release_to point : keeps_log (release_to (S := S) point).
Proof.
  assert (∀ l, keeps_log (release_items (S := S) l)) as Hl.
  { induction l as [|i l IH]; cbn; [apply keeps_log_ret|]. apply keeps_log_bind; [|done]. unfold release_item, root_unlock. keeps. }
  unfold release_to. apply keeps_log_bind; [apply keeps_log_fetch|]. intros T0. unfold assertb. apply keeps_log_bind.
  { destruct (bool_decide _); [apply keeps_log_ret|]. by intros ? ? ?. }
  intros _. apply keeps_log_bind; [apply Hl|]. intros _. by apply keeps_modify.
Qed.

Lemma keeps_read {A} p (f : list Z → option A) : keeps_log (read p f).
Proof. unfold read, node_data. keeps. Qed.

Lemma keeps_crab op p root : keeps_log (crabing_protocal_fetch_page op p root).
Proof.
  unfold crabing_protocal_fetch_page, memo_point, memo_get_page, memo_latch, add_item, file_header. keeps_with ltac:(first [apply keeps_read|apply keeps_release_to]).
Qed.

Lemma keeps_find_leaf fuel op key : keeps_log (find_leaf (S := S) fuel op key).
Proof.
  assert (∀ fuel p, keeps_log (find_leaf_loop (S := S) fuel op (child_for_key key) p)) as Hl.
  { clear fuel. induction fuel as [|fuel IH]; intros p; cbn; apply keeps_log_bind; try apply keeps_read; intros [|]; try apply keeps_log_ret; [by intros ? ? ?|].
    apply keeps_log_bind; [apply keeps_log_gets|]. intros hd. apply keeps_log_bind; [apply keeps_read|]. intros q. apply keeps_log_bind; [apply keeps_crab|].
    intros rc. destruct (RC.OB_FAIL rc); [apply keeps_log_ret|apply IH]. }
  unfold find_leaf, find_leaf_internal, latch_root, root_lock, add_item, is_empty, file_header. keeps_with ltac:(first [apply keeps_crab|apply Hl]).
Qed.

(** ** The beginning and the end *)
Lemma begin_ok T N h m dirty free : st T N (idle h m dirty free) → ∃ T', begin_mtr T = Some (tt, T') ∧ st T' N (idle h m dirty free) ∧ entries_ T' = [].
Proof. intros I. eexists. split; [done|]. split; [|done]. destruct I. by split. Qed.

(** The kind of latches is free while none is held. *)
Lemma idle_mode T N h m m' dirty free : st T N (idle h m dirty free) → st T N (idle h m' dirty free).
Proof. intros I. destruct I. split; try done. by intros ? ? ?%not_elem_of_nil. Qed.

Lemma set_entries_lsn_ok T N g es lsn : st T N g → ∃ T', set_entries_lsn es lsn T = Some (tt, T') ∧ st T' N g.
Proof.
  revert T. induction es as [|e es IH]; intros T I; [by exists T|]. destruct (pl_set_lsn S _ (entry_page e) lsn (s_inv _ _ _ I)) as (s & E & M & K).
  destruct (IH (set_pool s T)) as (T' & E' & I'); [by apply st_same|]. exists T'. split; [|done]. cbn.
  erewrite (bind_run (pool _)); [exact E'|]. unfold pool. by rewrite E.
Qed.

Lemma commit_ok T N g : st T N g → ∃ T', ignore logger_commit T = Some (tt, T') ∧ st T' N g.
Proof.
  intros I. unfold ignore, logger_commit. destruct (entries_ T) as [|e es] eqn:Ee; [exists T; split; [|done]; mstep; by rewrite Ee|].
  destruct (pl_id S _ (s_inv _ _ _ I)) as [i Ei].
  set (payload := le_bytes 4 i ++ concat (serialize <$> (e :: es))).
  destruct (pl_append_log S _ payload (s_inv _ _ _ I)) as (rc & lsn & s & Ea & M & K). pose proof (st_same _ _ _ _ I M K) as I1.
  destruct (set_entries_lsn_ok (set_pool s T) N g (e :: es) lsn I1) as (T2 & E2 & I2).
  assert (logger_commit T = Some (if bool_decide (rc ≠ RC.SUCCESS) then (rc, set_pool s T) else (RC.SUCCESS, set_log [] (need_log_ T2) T2))) as Ec.
  { unfold logger_commit. erewrite (bind_run fetch) by done. rewrite Ee. erewrite (bind_run (pool ip_id) _ T i T); [|unfold pool; rewrite Ei; by destruct T].
    fold payload. erewrite (bind_run (pool _)); [|unfold pool; by rewrite Ea]. cbn iota. destruct (bool_decide (rc ≠ RC.SUCCESS)); [done|]. by rewrite (exec E2). }
  unfold logger_commit in Ec. destruct (bool_decide (rc ≠ RC.SUCCESS)); rewrite (exec Ec); eexists; (split; [done|]); [done|]. by destruct I2.
Qed.

Lemma rollback_nothing T N g : st T N g → entries_ T = [] → ∃ T', ignore logger_rollback T = Some (tt, T') ∧ st T' N g.
Proof.
  intros I Ee. unfold ignore, logger_rollback. mstep. rewrite Ee. cbn. mstep. eexists. split; [done|]. by destruct I.
Qed.

(** The destructor of the mini transaction. *)
Lemma end_ok T N g rc :
  st T N g → (RC.OB_SUCC rc = false → entries_ T = []) → g_extra g = [] → g_lock g = Unlocked → g_disposed g = [] → g_raw g = ∅ → g_loose g = ∅ →
  ∃ T' dirty, end_mtr (Some rc) T = Some (tt, T') ∧ st T' N (idle (g_header g) (g_mode g) dirty (g_free g)).
Proof.
  intros I He Hx Hl Hd Hr Hlo. unfold end_mtr.
  assert (∃ T1, (if RC.OB_SUCC rc then ignore logger_commit else ignore logger_rollback) T = Some (tt, T1) ∧ st T1 N g) as (T1 & E1 & I1).
  { destruct (RC.OB_SUCC rc); [by apply commit_ok|]. apply rollback_nothing; auto. }
  rewrite (exec E1). destruct (memo_release_ok T1 N g I1 Hx) as (T2 & dy & E2 & I2); [rewrite Hd; constructor|by rewrite Hd; intros ? ?%not_elem_of_nil|done|].
  exists T2, dy. split; [done|]. unfold idle. rewrite Hd, Hr, Hl in I2. by replace (∅ ∖ list_to_set [] : gset PageNum) with (∅ : gset PageNum) in I2 by set_solver.
Qed.

(** ** A tree between operations *)
Definition index_tree T h (l : list (list Z)) (lv free : nat) : Prop :=
  ∃ N dirty, st T N (idle h READ_WRITE dirty free) ∧
    ((root_page h = BP_INVALID_PAGE_NUM ∧ l = [] ∧ lv = O) ∨
     ∃ W : whole, tree_in N (idle h READ_WRITE dirty free) W ∧ flat (projT2 W) = l ∧ projT1 W = lv).

Lemma tree_in_planted T N g W : st T N g → tree_in N g W → g_loose g = ∅ → g_lock g = Unlocked → g_items g = [] → planted T N g W.
Proof. intros I [H1 H2 H3 H4 H5] Hlo Hl Hi. by split. Qed.

Lemma tree_in_header N g g' W : g_header g' = g_header g → tree_in N g W → tree_in N g' W.
Proof. intros E [H1 H2 H3 H4 H5]. by split; rewrite ?E. Qed.

(** *** The first entry *)
Definition with_lock (k : RootLock) g : ghost :=
  mkGhost (g_header g) (g_items g) (g_extra g) (g_mode g) k (g_disposed g) (g_raw g) (g_dirty g) (g_loose g) (g_free g).

Lemma root_lock_ok T N g : st T N g → lock_items (g_items g) = [] → g_lock g = Unlocked →
  ∃ T', root_lock READ_WRITE T = Some (tt, T') ∧ st T' N (with_lock LockedExclusive g).
Proof.
  intros I Hi Hl. destruct (s_lock _ _ _ I) as [[_ E]|(m & E & _)]; [|congruence]. unfold root_lock. mstep. rewrite E, Hl. cbn. eexists. split; [done|].
  destruct I. split; try done. left. by split.
Qed.

Lemma root_unlock_ok T N g : st T N g → lock_items (g_items g) = [] → g_lock g = LockedExclusive →
  ∃ T', root_unlock READ_WRITE T = Some (tt, T') ∧ st T' N (with_lock Unlocked g).
Proof.
  intros I Hi Hl. destruct (s_lock _ _ _ I) as [[_ E]|(m & E & _)]; [|congruence]. unfold root_unlock. mstep. rewrite E, Hl. cbn. eexists. split; [done|].
  destruct I. split; try done. left. by split.
Qed.

Lemma create_new_tree_ok T N g f key rid :
  st T N g → g_free g = Datatypes.S f → g_mode g = READ_WRITE → g_extra g = [] → g_items g = [] → g_loose g = ∅ →
  root_page (g_header g) = BP_INVALID_PAGE_NUM → key_ok (attr_type (g_header g)) (attr_length (g_header g)) key → chars key →
  ∃ T' N' g' p, create_new_tree key rid T = Some (RC.SUCCESS, T') ∧ st T' N' g' ∧ stable 1 g g' ∧ lock_items (g_items g') = [] ∧
    tree_in N' g' (existT O ((p, [leaf_item key rid]) : tree 0)).
Proof.
  intros I Hf Hm Hx Hi Hlo Hroot Ok Hc. pose proof (s_index _ _ _ I) as HI.
  assert (Z.of_nat (length key) = key_length (g_header g)) as Hkl by (rewrite (io_key _ HI); apply Ok).
  destruct (memo_allocate_ok T N g f I Hf) as (p & T1 & E1 & I1 & HNp & Hraw & Hr & _ & Hfi).
  assert (in_srange 32 p) as Hrr by (unfold INT32_MAX in Hr; split; cbn; lia).
  set (g1 := push (MemoPin p) (with_raw ({[p]} ∪ g_raw g) f g)) in *. assert (pinned g1 p) as Hp by (left; cbn; apply elem_of_app; right; left).
  destruct (init_empty_ok T1 N g1 p true I1 Hp) as (T2 & E2 & I2); [cbn; set_solver|]. cbn [init_empty kind] in E2.
  destruct (leaf_insert_ok T2 _ _ p _ I2 Hp (lookup_insert_eq _ _ _) eq_refl 0 key rid) as (T3 & E3 & I3); [cbn; lia|cbn; destruct HI; lia|done|done|].
  rewrite insert_insert_eq, touch_raw_used in I3. cbn [nd_items empty_node take drop app] in I3.
  destruct (update_root_ok T3 _ _ p I3 Hm Hrr) as (T4 & E4 & I4).
  destruct (mark_dirty_ok T4 _ _ p I4) as (T5 & E5 & I5); [left; cbn; rewrite !elem_of_app; left; left; right; left|].
  exists T5. eexists _, _, p. split_and!; [|exact I5| | |].
  - unfold create_new_tree. rewrite (exec (header_ok _ _ _ I)), Hroot. change (negb (BP_INVALID_PAGE_NUM =? BP_INVALID_PAGE_NUM)) with false. cbn iota.
    rewrite (exec E1). change (RC.OB_FAIL RC.SUCCESS) with false. cbn iota. rewrite (exec E2). change 0 with (Z.of_nat 0). by rewrite (exec E3), (exec E4), (exec E5).
  - split; cbn; try done; [by exists p|clear -Hraw; set_solver|rewrite Hlo; repeat case_decide; set_solver|lia].
  - cbn. by rewrite Hi.
  - assert (item_key (g_header g) (leaf_item key rid) = key) as Ek by (unfold item_key, leaf_item; apply take_app_length'; lia).
    split; cbn [projT2]; cbn [g_header soil rooted with_header]; try done.
    + exists BP_INVALID_PAGE_NUM. by rewrite lookup_insert_eq.
    + apply NoDup_singleton.
    + apply wf_header. destruct HI. cbn. split_and!; try done; try lia.
      * unfold items_sorted. repeat constructor.
      * unfold keys_ok. apply Forall_singleton. by rewrite Ek.
      * by apply Forall_singleton.
    + cbn. split; [|done]. unfold next_of. by rewrite lookup_insert_eq.
Qed.

(** *** [insert_entry] *)
Lemma insert_key_ok fuel T N h dirty free (W : whole) key rid :
  st T N (idle h READ_WRITE dirty free) → tree_in N (idle h READ_WRITE dirty free) W → entries_ T = [] →
  key_ok (attr_type h) (attr_length h) key → chars key → (projT1 W ≤ fuel)%nat → (projT1 W + 1 < free)%nat →
  let l := flat (projT2 W) in
  let rc := if has_key h key l then RC.RECORD_DUPLICATE_KEY else RC.SUCCESS in
  ∃ T' N' g' W', insert_key fuel key rid T = Some (rc, T') ∧ st T' N' g' ∧ stable (projT1 W + 2) (idle h READ_WRITE dirty free) g' ∧
    tree_in N' g' W' ∧ (projT1 W ≤ projT1 W' ≤ projT1 W + 1)%nat ∧ (RC.OB_SUCC rc = false → entries_ T' = []) ∧
    flat (projT2 W') = (if has_key h key l then l else insert_item h (leaf_item key rid) l).
Proof.
  intros I HT He Ok Hc Hfuel Hfree l rc. set (g := idle h READ_WRITE dirty free) in *.
  destruct (find_leaf_ok OpInsert fuel T N g W key (tree_in_planted _ _ _ _ I HT eq_refl eq_refl eq_refl) eq_refl Ok Hfuel)
    as (p & T1 & g1 & E1 & I1 & [C1 [P1 _] (c & its & lo & hi & EW & Hcw & Hw & HQ & _)]).
  pose proof (keeps_find_leaf fuel OpInsert key T _ T1 E1) as Hlog. rewrite He in Hlog.
  pose proof (ca_header _ _ C1) as Eh. cbn in Eh. assert (projT1 W = ctx_depth c) as Elv by (by rewrite <-EW, plug_level).
  assert (at_leaf T1 N g1 c p its lo hi key) as AL.
  { split; rewrite ?Eh; try done; [by rewrite (ca_loose _ _ C1)|by rewrite (ca_extra _ _ C1)|by left|].
    rewrite EW. by apply (tree_in_header N g). }
  destruct (insert_leaf_ok fuel T1 N g1 c p its lo hi key rid AL) as (T2 & N2 & g2 & W2 & E2 & I2 & S2 & HT2 & Hlv & Hfl & Hdup); [by rewrite (ca_mode _ _ C1)|lia|rewrite (ca_free _ _ C1); cbn; lia|].
  rewrite EW, Eh in *. fold l in E2, Hfl, Hdup. exists T2, N2, g2, W2. split_and!; try done; [| |lia|lia|].
  - unfold insert_key. rewrite (exec E1). exact E2.
  - rewrite Elv. destruct S2, C1. split; try congruence; [destruct sb_header as [r' E]; exists r'; congruence|by rewrite <-ca_loose].
  - unfold rc. destruct (has_key h key l); [intros _; by rewrite Hdup|done].
Qed.

Lemma insert_entry_run fuel T h l lv free user_key rid key :
  index_tree T h l lv free → make_key h user_key rid = Some key → key_ok (attr_type h) (attr_length h) key →
  (lv ≤ fuel)%nat → (lv + 1 < free)%nat →
  let rc := if has_key h key l then RC.RECORD_DUPLICATE_KEY else RC.SUCCESS in
  ∃ T' r lv' free', insert_entry fuel (Some user_key) (Some rid) T = Some (rc, T') ∧
    index_tree T' (set_root_page r h) (if has_key h key l then l else insert_item h (leaf_item key rid) l) lv' free' ∧
    (lv ≤ lv' ≤ lv + 1)%nat ∧ (free ≤ lv + 2 + free')%nat.
Proof.
  intros (N & dirty & I & Hcase) Hkey Ok Hfuel Hfree rc. pose proof (ao_chars _ _ _ (ko_attr _ _ _ Ok)) as Hc. unfold insert_entry. rewrite (exec (header_ok _ _ _ I)). cbn [g_header idle]. rewrite Hkey. exec_deref.
  unfold with_mtr. destruct (begin_ok _ _ _ _ _ _ I) as (T1 & E1 & I1 & He). rewrite (exec E1).
  set (g := idle h READ_WRITE dirty free) in *.
  enough (∃ T2 N2 g2 W2, (empty ← is_empty;
      if empty : bool then root_lock READ_WRITE;; empty ← is_empty;
        if empty : bool then rc ← create_new_tree key rid; root_unlock READ_WRITE;; mret rc
        else root_unlock READ_WRITE;; insert_key fuel key rid
      else insert_key fuel key rid) T1 = Some (rc, T2) ∧ st T2 N2 g2 ∧ stable (lv + 2) g g2 ∧ tree_in N2 g2 W2 ∧ (lv ≤ projT1 W2 ≤ lv + 1)%nat ∧
      (RC.OB_SUCC rc = false → entries_ T2 = []) ∧
      flat (projT2 W2) = (if has_key h key l then l else insert_item h (leaf_item key rid) l)) as (T2 & N2 & g2 & W2 & E2 & I2 & [[r Er] S1 S2 S3 S4 S5 S6 S7] & HT2 & Hlv & He2 & Hfl).
  { rewrite (exec E2). destruct (end_ok T2 N2 g2 rc I2 He2) as (T3 & dy & E3 & I3); try done; [set_solver|]. rewrite (exec E3).
    exists T3, r, (projT1 W2), (g_free g2). split_and!; [done| |lia|lia|cbn in S7; lia]. exists N2, dy. rewrite S2, Er in I3. split; [done|]. right. exists W2.
    split_and!; [|done|done]. apply (tree_in_header N2 g2); [by rewrite Er|done]. }
  destruct Hcase as [(Hroot & -> & ->)|(W & HT & <- & <-)].
  - destruct (root_lock_ok T1 N g I1 eq_refl eq_refl) as (T2 & E2 & I2). destruct free as [|f]; [lia|].
    destruct (create_new_tree_ok T2 N _ f key rid I2) as (T3 & N3 & g3 & p & E3 & I3 & S3 & L3 & HT3); try done.
    destruct (root_unlock_ok T3 N3 g3 I3 L3) as (T4 & E4 & I4); [by rewrite (sb_lock _ _ _ S3)|].
    exists T4, N3, (with_lock Unlocked g3). eexists. split_and!; [|exact I4| |by eapply tree_in_header; [|exact HT3]|cbn; lia|cbn; lia|done|done].
    + unfold is_empty. erewrite (bind_run (_ ≫= _)); [|rewrite (exec (header_ok _ _ _ I1)); done]. cbn [g_header idle g]. rewrite Hroot, Z.eqb_refl.
      rewrite (exec E2). erewrite (bind_run (_ ≫= _)); [|rewrite (exec (header_ok _ _ _ I2)); done]. cbn [g_header idle g with_lock]. rewrite Hroot, Z.eqb_refl.
      by rewrite (exec E3), (exec E4).
    + destruct S3. split; try done. cbn in *. lia.
  - destruct (insert_key_ok fuel T1 N h dirty free W key rid I1 HT He Ok Hc Hfuel Hfree) as (T2 & N2 & g2 & W2 & E2 & I2 & S2 & HT2 & Hlv & He2 & Hfl).
    exists T2, N2, g2, W2. split_and!; try done; try lia. unfold is_empty. erewrite (bind_run (_ ≫= _)); [|rewrite (exec (header_ok _ _ _ I1)); done].
    cbn [g_header idle g]. destruct (holds_page _ _ _ (ti_holds _ _ _ HT)) as (m & Hm & _). pose proof (st_page_range _ _ _ _ _ I1 Hm) as [Hr _].
    pose proof (ti_root _ _ _ HT) as Hroot. cbn in Hroot. rewrite Hroot. rewrite (proj2 (Z.eqb_neq _ _)) by (change BP_INVALID_PAGE_NUM with (-1); lia). exact E2.
Qed.
End mtr.
