(* ===== verification/IndexScan.v ===== *)
(** * Scanning

    [BplusTreeScanner] along the leaves: the entries it returns are those between its
    bounds, in the order of their keys, and it ends.  [get_entry] returns the record
    ids of an attribute value. *)

From stdpp Require Import sorting.
From S2P Require Import Prelude Types Bytes RecordPage IndexKey IndexNode IndexNodeSpec IndexPool IndexLog BplusTree BplusTreeOps BplusTreeScan IndexLaws IndexSteps IndexRoot IndexNodeOps IndexTree IndexFind IndexInsert IndexInsertEntry IndexMtr.
Local Open Scope Z_scope.

(** ** The leaves with their items *)
Definition leaf_list {lv} (t : tree lv) : list (PageNum * list (list Z)) := gather (λ p its, [(p, its)]) t.

Fixpoint leaf_chain (N : gmap PageNum node) (l : list (PageNum * list (list Z))) : Prop :=
  match l with
  | [] => True
  | (p, its) :: l =>
      (∃ par, N !! p = Some (mkNode true par (default BP_INVALID_PAGE_NUM (head l.*1)) its)) ∧ its ≠ [] ∧ leaf_chain N l
  end.

Lemma gather_map {A B} (f : PageNum → list (list Z) → list A) (F : PageNum → list (list Z) → list B) (m : A → list B) {lv} (t : tree lv) :
  (∀ p its, flat_map m (f p its) = F p its) → flat_map m (gather f t) = gather F t.
Proof.
  intros Hm. revert t. induction lv as [|lv IH]; intros [p l]; cbn; [apply Hm|].
  induction l as [|x l IHl]; [done|]. cbn. by rewrite flat_map_app, IH, IHl.
Qed.

Lemma leaf_list_flat {lv} (t : tree lv) : flat t = concat (leaf_list t).*2.
Proof.
  unfold flat, leaf_list. rewrite <-(gather_map (λ p its, [(p, its)]) _ snd t) by (intros; cbn; by rewrite app_nil_r).
  by rewrite flat_map_concat_map.
Qed.
Lemma leaf_list_leaves {lv} (t : tree lv) : leaves t = (leaf_list t).*1.
Proof.
  unfold leaves, leaf_list. rewrite <-(gather_map (λ p its, [(p, its)]) _ (λ x, [x.1]) t) by done.
  induction (gather _ t) as [|x l IH]; [done|]. cbn. by rewrite IH.
Qed.

Lemma leaf_list_in {lv} (t : tree lv) N h cmp ok par root lo hi p its : index_ok h → holds N par t → wf h cmp ok root lo hi t →
  (p, its) ∈ leaf_list t → its ≠ [] ∧ ∃ par nx, N !! p = Some (mkNode true par nx its).
Proof.
  intros HI. revert par root lo hi t. induction lv as [|lv IH]; intros par root lo hi [q l]; cbn.
  - intros [nx E] ([Hmin _] & _) [= -> ->]%list_elem_of_singleton. split; [|by exists par, nx]. pose proof (leaf_min_pos h HI root). intros ->. cbn in Hmin. lia.
  - intros [_ Hk] [_ Hs] ([k t] & Hx & Hin)%list_elem_of_In%in_flat_map. apply list_elem_of_In in Hx, Hin.
    apply list_elem_of_split in Hx as Hsp. destruct Hsp as (l1 & l2 & ->). apply segment_focus in Hs as (lo' & hi' & _ & Ht & _).
    by apply (IH q false lo' hi' t (Hk _ Hx) Ht).
Qed.

Lemma leaf_chain_intro N l : linked N l.*1 → (∀ p its, (p, its) ∈ l → its ≠ [] ∧ ∃ par nx, N !! p = Some (mkNode true par nx its)) → leaf_chain N l.
Proof.
  induction l as [|[p its] l IH]; [done|]. cbn. intros [HL1 HL2] Hin. destruct (Hin p its) as (Hne & par & nx & E); [left|]. split_and!; [|done|].
  - exists par. unfold next_of in HL1. rewrite E in HL1. cbn in HL1. rewrite E. by injection HL1 as ->.
  - apply IH; [done|]. intros q its' Hq. apply Hin. by right.
Qed.

Lemma leaf_chain_app N l l' : leaf_chain N (l ++ l') → leaf_chain N l'.
Proof. induction l as [|[p its] l IH]; [done|]. cbn. intros (_ & _ & H). by apply IH. Qed.

(** ** What a scan returns *)
Section hits.
Context (h : IndexFileHeader).
Notation ikey := (item_key h).
Notation kc := (kc (comparator h)).

Definition from_left (lb : option (list Z)) (it : list Z) : bool := match lb with Some k => 0 <=? kc (ikey it) k | None => true end.
Definition to_right (rb : option (list Z)) (it : list Z) : bool := match rb with Some k => kc (ikey it) k <=? 0 | None => true end.
Definition item_rid (it : list Z) : RID := default rid_min (rid_at (item_value h it) 0).
Definition scan_result (lb rb : option (list Z)) (l : list (list Z)) : list RID :=
  item_rid <$> List.filter (λ it, from_left lb it && to_right rb it) l.

Lemma filter_none (f : list Z → bool) l : (∀ it, it ∈ l → f it = false) → List.filter f l = [].
Proof. induction l as [|x l IH]; [done|]. intros Hf. cbn. rewrite Hf by left. apply IH. intros it Hit. apply Hf. by right. Qed.
Lemma filter_all (f : list Z → bool) l : (∀ it, it ∈ l → f it = true) → List.filter f l = l.
Proof. induction l as [|x l IH]; [done|]. intros Hf. cbn. rewrite Hf by left. f_equal. apply IH. intros it Hit. apply Hf. by right. Qed.

(** The items behind one that is too large are too large. *)
Lemma to_right_sorted rb it l : keys_ok h (key_ok (attr_type h) (attr_length h)) (it :: l) → items_sorted h (comparator h) (it :: l) →
  (∀ k, rb = Some k → key_ok (attr_type h) (attr_length h) k) →
  to_right rb it = false → List.filter (to_right rb) (it :: l) = [].
Proof.
  intros K Hs Hrb Hit. destruct rb as [k|]; [|done]. specialize (Hrb k eq_refl). apply filter_none. intros x [->|Hx]%elem_of_cons; [done|]. cbn in Hit |- *.
  apply Z.leb_gt in Hit. apply Z.leb_gt. apply StronglySorted_inv in Hs as [_ Hs]. rewrite list.Forall_forall in Hs. specialize (Hs x Hx). unfold item_lt in Hs.
  unfold keys_ok in K. apply list.Forall_cons in K as [Oit K]. rewrite list.Forall_forall in K. specialize (K x Hx).
  apply (kc_pos (comparator h) (key_ok (attr_type h) (attr_length h))); [done..|].
  apply (kc_lt_trans (comparator h) (key_ok (attr_type h) (attr_length h)) k (ikey it)); [done..| |done].
  by apply (kc_pos (comparator h) (key_ok (attr_type h) (attr_length h))).
Qed.
End hits.

Section scanning.
Context {S : Type} `{!IndexPool S, !IndexPoolLaws S}.
Notation Tree := (Tree S).
Implicit Types (T : Tree) (N : gmap PageNum node) (g : ghost) (p q : PageNum) (s : BplusTreeScanner).
Notation kok h := (key_ok (attr_type h) (attr_length h)).

(** The scanner is on a leaf. *)
Record here T N g p its (rest : list (PageNum * list (list Z))) : Prop := {
  he_st : st T N g;
  he_loose : g_loose g = ∅;
  he_mode : g_mode g = READ_ONLY;
  he_latched : latched g p;
  he_chain : leaf_chain N ((p, its) :: rest)
}.

Lemma here_node T N g p its rest : here T N g p its rest →
  ∃ par, N !! p = Some (mkNode true par (default BP_INVALID_PAGE_NUM (head rest.*1)) its).
Proof. intros [_ _ _ _ [H _]]. exact H. Qed.

(** Reading the leaf. *)
Lemma here_read T N g p its rest {A} (f : list Z → option A) a :
  here T N g p its rest → (∀ n d, nd_leaf n = true → nd_items n = its → nd_next n = default BP_INVALID_PAGE_NUM (head rest.*1) → rep (g_header g) n d → f d = Some a) →
  read p f T = Some (a, T).
Proof.
  intros H Hf. destruct (here_node _ _ _ _ _ _ H) as [par Hn]. destruct H as [I _ _ [Hp _] _].
  apply (read_ok T N g p _ f a I (or_introl Hp) Hn). intros d R. by eapply Hf; [| | |exact R].
Qed.

Lemma item_rid_ok h n d i it : index_ok h → rep h n d → nd_leaf n = true → nd_items n !! i = Some it → rid_value_at h d (Z.of_nat i) = Some (item_rid h it).
Proof.
  intros HI R El Hi. pose proof (rep_value_at h HI n d i it R Hi) as E. rewrite El in E. unfold rid_value_at. cbn [kind] in E. rewrite E. cbn [mbind option_bind].
  pose proof (Forall_lookup_1 _ _ _ _ (rep_items h n d R) Hi) as Hok. rewrite El in Hok. destruct (item_parts h HI true it Hok) as (_ & _ & Hl). cbn in Hl.
  unfold item_rid, rid_at. change (RID_SIZE) with 8 in Hl.
  destruct (get_i32_Some (item_value h it) (Z.to_nat 0)) as [a Ea]; [cbn; lia|]. destruct (get_i32_Some (item_value h it) (Z.to_nat (0 + 4))) as [b Eb]; [cbn; lia|].
  rewrite Ea. cbn [mbind option_bind]. by rewrite Eb.
Qed.

Lemma fetch_item_ok T N g p its rest s i it : here T N g p its rest → current_frame_ s = Some p → iter_index_ s = Z.of_nat i → its !! i = Some it →
  fetch_item s T = Some (item_rid (g_header g) it, T).
Proof.
  intros H Ef Ei Hi. unfold fetch_item. rewrite (exec (header_ok _ _ _ (he_st _ _ _ _ _ _ H))), Ef. exec_deref.
  apply (here_read T N g p its rest _ _ H). intros n d El Eits _ R. rewrite Ei. apply (item_rid_ok _ n d i it (s_index _ _ _ (he_st _ _ _ _ _ _ H)) R El). by rewrite Eits.
Qed.

Lemma touch_end_ok T N g p its rest s i it :
  here T N g p its rest → current_frame_ s = Some p → iter_index_ s = Z.of_nat i → its !! i = Some it →
  (∀ k, right_key_ s = Some k → kok (g_header g) k) → kok (g_header g) (item_key (g_header g) it) →
  touch_end s T = Some (negb (to_right (g_header g) (right_key_ s) it), T).
Proof.
  intros H Ef Ei Hi Hrk Hit. unfold touch_end. destruct (right_key_ s) as [k|] eqn:Ek; [|done]. specialize (Hrk k eq_refl).
  rewrite (exec (header_ok _ _ _ (he_st _ _ _ _ _ _ H))), Ef. exec_deref.
  erewrite (bind_run (read _ _)).
  2:{ apply (here_read T N g p its rest _ (item_key (g_header g) it) H). intros n d El Eits _ R. rewrite Ei.
      pose proof (rep_key_at (g_header g) (s_index _ _ _ (he_st _ _ _ _ _ _ H)) n d i it R) as E. rewrite El, Eits in E. by apply E. }
  rewrite (kc_eq (comparator (g_header g)) (kok (g_header g)) _ k Hit Hrk). exec_deref. cbn. unfold mret, M_ret. do 2 f_equal.
  destruct (Z.ltb_spec 0 (kc (comparator (g_header g)) (item_key (g_header g) it) k)), (Z.leb_spec (kc (comparator (g_header g)) (item_key (g_header g) it) k) 0); cbn; lia || done.
Qed.

(** The next leaf is latched before the last one is let go. *)
Lemma move_ok T N g p its q its2 rest : here T N g p its ((q, its2) :: rest) →
  ∃ T1 T2 g', memo_get_page q T = Some (RC.SUCCESS, T1) ∧ try_slatch q T1 = Some (true, T2) ∧ length (items_ T) = length (g_items g) ∧
    (∃ T3, release_to (length (g_items g)) T2 = Some (tt, T3) ∧ here T3 N g' q its2 rest) ∧ calm g g'.
Proof.
  intros [I Hlo Hm Hl Hch]. pose proof Hch as (_ & _ & Hch2). pose proof Hch2 as ([par Hq] & _ & _).
  destruct (memo_get_ok T N g q _ I Hq) as (T1 & E1 & I1). set (g1 := push (MemoPin q) g) in *.
  assert (MemoPin q ∈ g_items g1) as Hp1 by (cbn; apply elem_of_app; right; left).
  destruct (pl_try_latch S _ q (s_inv _ _ _ I1)) as (s & E & M & K).
  { split; [apply (st_pinned _ _ _ _ I1); by left|]. rewrite (s_holds _ _ _ I1), elem_of_app, frame_items_elem by done.
    rewrite <-elem_of_app. intros Hx. pose proof (s_mode _ _ _ I1 _ _ Hx) as Ex. cbn in Ex. rewrite Hm in Ex. done. }
  destruct (push_ok T1 N g1 (MemoLatch READ_ONLY q) s I1 eq_refl) as (T2 & E2 & I2); [intros m r [= <- <-]; by rewrite <-Hm|done|done|].
  destruct (release_to_ok T2 N _ (g_items g) [MemoPin q; MemoLatch READ_ONLY q] I2) as (T3 & dy & E3 & I3 & _).
  { cbn. by rewrite <-app_assoc. }
  { apply (pins_first_snoc [MemoPin q]); [|intros ? ? [= _ <-]; left]. apply (pins_first_snoc []); [apply pins_first_nil|done]. }
  { cbn. rewrite Hlo. intros r _. apply not_elem_of_empty. }
  exists T1, T2. eexists. split_and!; [done| |by rewrite (s_items _ _ _ I)| |].
  - unfold try_slatch. erewrite (bind_run (pool _)); [|unfold pool; by rewrite E]. cbn iota. by rewrite (exec E2).
  - exists T3. split; [done|]. split; [exact I3|done|done|split; cbn; rewrite ?Hm; [left|right; left]|done].
  - by split.
Qed.

(** The next item of the leaf. *)
Lemma next_here fuel s T N g p its rest i it :
  here T N g p its rest → current_frame_ s = Some p → first_emitted_ s = true → iter_index_ s = Z.of_nat i - 1 → its !! i = Some it →
  (∀ k, right_key_ s = Some k → kok (g_header g) k) → kok (g_header g) (item_key (g_header g) it) →
  next_entry fuel s T =
    Some (if to_right (g_header g) (right_key_ s) it then (RC.SUCCESS, item_rid (g_header g) it, sc_set_index (Z.of_nat i) s)
          else (RC.RECORD_EOF, rid_min, sc_set_index (Z.of_nat i) s), T).
Proof.
  intros H Ef Ee Ei Hi Hrk Hit. set (s1 := sc_set_index (Z.of_nat i) s).
  assert (read p node_size T = Some (Z.of_nat (length its), T)) as En.
  { apply (here_read T N g p its rest _ _ H). intros n d El <- _ R. apply (rep_size _ (s_index _ _ _ (he_st _ _ _ _ _ _ H)) n d R). }
  assert ((e ← touch_end s1; if e : bool then mret (RC.RECORD_EOF, rid_min, s1) else rid ← fetch_item s1; mret (RC.SUCCESS, rid, s1)) T =
    Some (if to_right (g_header g) (right_key_ s) it then (RC.SUCCESS, item_rid (g_header g) it, s1) else (RC.RECORD_EOF, rid_min, s1), T)) as E.
  { rewrite (exec (touch_end_ok T N g p its rest s1 i it H Ef eq_refl Hi Hrk Hit)). change (right_key_ s1) with (right_key_ s).
    destruct (to_right _ _ it); cbn [negb]; [|done]. by rewrite (exec (fetch_item_ok T N g p its rest s1 i it H Ef eq_refl Hi)). }
  pose proof (lookup_lt_Some _ _ _ Hi).
  destruct fuel; cbn [next_entry]; rewrite Ef, Ee; cbn [negb]; rewrite Ei, Z.sub_add; fold s1; rewrite (exec En);
    cbn [iter_index_ s1 sc_set_index]; (rewrite (proj2 (Z.ltb_lt _ _)) by lia); exact E.
Qed.

(** What [next_entry] is left with. *)
Inductive next_outcome T N g s (rem : list (list Z)) : RC → RID → Tree → BplusTreeScanner → Prop :=
| NextNone T' s' : rem = [] → T' = T → next_outcome T N g s rem RC.RECORD_EOF rid_min T' s'
| NextEnd T' s' g' it rem' : rem = it :: rem' → to_right (g_header g) (right_key_ s) it = false → st T' N g' → calm g g' →
    next_outcome T N g s rem RC.RECORD_EOF rid_min T' s'
| NextItem T' s' g' it rem' p its rest i : rem = it :: rem' → to_right (g_header g) (right_key_ s) it = true → calm g g' →
    here T' N g' p its rest → current_frame_ s' = Some p → first_emitted_ s' = true → iter_index_ s' = Z.of_nat i → (i < length its)%nat →
    right_key_ s' = right_key_ s → rem' = drop (i + 1) its ++ concat rest.*2 →
    next_outcome T N g s rem RC.SUCCESS (item_rid (g_header g) it) T' s'.

Lemma next_entry_ok fuel s T N g p its rest i :
  here T N g p its rest → current_frame_ s = Some p → first_emitted_ s = true → iter_index_ s = Z.of_nat i → (i < length its)%nat →
  (∀ k, right_key_ s = Some k → kok (g_header g) k) → keys_ok (g_header g) (kok (g_header g)) (drop (i + 1) its ++ concat rest.*2) → (1 ≤ fuel)%nat →
  ∃ rc rid T' s', next_entry fuel s T = Some ((rc, rid, s'), T') ∧ next_outcome T N g s (drop (i + 1) its ++ concat rest.*2) rc rid T' s'.
Proof.
  intros H Ef Ee Ei Hlt Hrk K Hfuel. unfold keys_ok in K. apply Forall_app in K as [K1 K2]. destruct (decide (i + 1 < length its)%nat) as [Hin|Hout].
  - destruct (lookup_lt_is_Some_2 its (i + 1) Hin) as [it Hit]. assert (kok (g_header g) (item_key (g_header g) it)) as Kit.
    { rewrite (drop_S its it (i + 1) Hit) in K1. by apply list.Forall_cons in K1 as [? _]. }
    pose proof (next_here fuel s T N g p its rest (i + 1) it H Ef Ee ltac:(lia) Hit Hrk Kit) as E.
    rewrite (drop_S its it (i + 1) Hit). destruct (to_right _ _ it) eqn:Et; eexists _, _, T, _; (split; [exact E|]).
    + eapply (NextItem T N g s _ T _ g it _ p its rest (i + 1)); [done|done|apply calm_refl|done|done|done|done|done|done|by rewrite (Nat.add_1_r (i + 1))].
    + eapply (NextEnd T N g s _ T _ g it); [done|done|apply H|apply calm_refl].
  - rewrite (drop_ge its) by lia. cbn [app].
    assert (read p node_size T = Some (Z.of_nat (length its), T)) as En.
    { apply (here_read T N g p its rest _ _ H). intros n d El <- _ R. apply (rep_size _ (s_index _ _ _ (he_st _ _ _ _ _ _ H)) n d R). }
    assert (read p next_page T = Some (default BP_INVALID_PAGE_NUM (head rest.*1), T)) as Enx.
    { apply (here_read T N g p its rest _ _ H). intros n d El _ <- R. by apply (rep_next _ n d R). }
    destruct fuel as [|fuel]; [lia|]. cbn [next_entry]. rewrite Ef, Ee. cbn [negb]. rewrite (exec En). cbn [iter_index_ sc_set_index].
    rewrite (proj2 (Z.ltb_ge _ _)) by lia. rewrite (exec Enx). destruct rest as [|[q its2] rest].
    + cbn. eexists _, _, T, _. split; [done|]. by apply NextNone.
    + destruct (move_ok T N g p its q its2 rest H) as (T1 & T2 & g' & E1 & E2 & Hpt & (T3 & E3 & H3) & C). cbn [fmap list_fmap head fst default from_option id].
      pose proof (he_chain _ _ _ _ _ _ H3) as ([par Hq] & Hne & _). pose proof (st_page_range _ _ _ _ _ (he_st _ _ _ _ _ _ H3) Hq) as [Hr _].
      rewrite (proj2 (Z.eqb_neq _ _)) by (change BP_INVALID_PAGE_NUM with (-1); lia).
      erewrite (bind_run memo_point) by done. rewrite Hpt, (exec E1). change (RC.OB_FAIL RC.SUCCESS) with false. cbn iota. rewrite (exec E2). cbn [negb].
      rewrite (exec E3). destruct its2 as [|it its2]; [done|]. cbn [concat fmap list_fmap snd app] in K2 |- *. apply list.Forall_cons in K2 as [Kit K2].
      pose proof (ca_header _ _ C) as Eh.
      set (s3 := sc_set_index (-1) (sc_set_frame (Some q) (sc_set_index (iter_index_ s + 1) s))).
      pose proof (next_here fuel s3 T3 N g' q (it :: its2) rest 0 it H3 eq_refl Ee eq_refl eq_refl) as E. rewrite Eh in E. specialize (E Hrk Kit).
      change (right_key_ s3) with (right_key_ s) in E. destruct (to_right _ _ it) eqn:Et; eexists _, _, T3, _; (split; [exact E|]).
      * eapply (NextItem T N g s _ T3 _ g' it _ q (it :: its2) rest 0); [done|done|done|done|done|done|done|cbn; lia|done|done].
      * eapply (NextEnd T N g s _ T3 _ g' it); [done|done|apply H3|done].
Qed.

(** The loop from an entry that was returned. *)
Lemma collect_ok rem : ∀ fuel s T N g p its rest i rids,
  here T N g p its rest → current_frame_ s = Some p → first_emitted_ s = true → iter_index_ s = Z.of_nat i → (i < length its)%nat →
  (∀ k, right_key_ s = Some k → kok (g_header g) k) → drop (i + 1) its ++ concat rest.*2 = rem →
  keys_ok (g_header g) (kok (g_header g)) rem → items_sorted (g_header g) (comparator (g_header g)) rem → (length rem + 1 ≤ fuel)%nat →
  ∃ T' g', collect_entries fuel s rids T = Some ((RC.RECORD_EOF, rids ++ (item_rid (g_header g) <$> List.filter (to_right (g_header g) (right_key_ s)) rem)), T') ∧
    st T' N g' ∧ calm g g'.
Proof.
  induction rem as [|it rem IH]; intros fuel s T N g p its rest i rids H Ef Ee Ei Hlt Hrk Erem K Hs Hfuel;
    (destruct (next_entry_ok fuel s T N g p its rest i H Ef Ee Ei Hlt Hrk) as (rc & rid & T1 & s1 & E1 & O1); [by rewrite Erem|lia|]); rewrite Erem in O1.
  - inversion O1 as [T' s' _ -> | |]; [|done|done]. subst. exists T1, g. split_and!; [|apply H|apply calm_refl].
    destruct fuel; cbn [collect_entries]; rewrite (exec E1); by rewrite bool_decide_eq_false_2, app_nil_r.
  - inversion O1 as [|T' s' g' it' rem' [= <- <-] Ht I' C'|T' s' g' it' rem' p' its' rest' i' [= <- <-] Ht C' H' Ef' Ee' Ei' Hlt' Erk Erem']; [done| |].
    + subst. exists T1, g'. split_and!; [|done|done].
      rewrite (to_right_sorted (g_header g) (right_key_ s) it rem K Hs Hrk Ht). cbn [fmap list_fmap]. rewrite app_nil_r.
      destruct fuel; cbn [collect_entries]; rewrite (exec E1); by rewrite bool_decide_eq_false_2.
    + subst rc rid T' s'. pose proof (ca_header _ _ C') as Eh. destruct fuel as [|fuel]; [lia|].
      unfold keys_ok in K. apply list.Forall_cons in K as [_ K]. apply StronglySorted_inv in Hs as [Hs _].
      destruct (IH fuel s1 T1 N g' p' its' rest' i' (rids ++ [item_rid (g_header g) it]) H' Ef' Ee' Ei' Hlt') as (T2 & g2 & E2 & I2 & C2);
        rewrite ?Eh, ?Erk; try done; [cbn in Hfuel; lia|].
      rewrite Eh, Erk in E2. exists T2, g2. split_and!; [|done|by eapply calm_trans]. cbn [collect_entries]. rewrite (exec E1).
      rewrite bool_decide_eq_true_2 by done. rewrite E2. cbn [List.filter]. rewrite Ht. cbn [fmap list_fmap]. by rewrite <-app_assoc.
Qed.

(** From [open] on: the scanner has returned nothing yet. *)
Lemma collect_first fuel s T N g p its rest i it :
  here T N g p its rest → current_frame_ s = Some p → first_emitted_ s = false → iter_index_ s = Z.of_nat i → its !! i = Some it →
  (∀ k, right_key_ s = Some k → kok (g_header g) k) → to_right (g_header g) (right_key_ s) it = true →
  let rem := drop i its ++ concat rest.*2 in
  keys_ok (g_header g) (kok (g_header g)) rem → items_sorted (g_header g) (comparator (g_header g)) rem → (length rem + 1 ≤ fuel)%nat →
  ∃ T' g', collect_entries fuel s [] T = Some ((RC.RECORD_EOF, item_rid (g_header g) <$> List.filter (to_right (g_header g) (right_key_ s)) rem), T') ∧
    st T' N g' ∧ calm g g'.
Proof.
  intros H Ef Ee Ei Hi Hrk Ht rem K Hs Hfuel. pose proof (lookup_lt_Some _ _ _ Hi) as Hlt.
  assert (rem = it :: (drop (i + 1) its ++ concat rest.*2)) as Erem by (unfold rem; by rewrite (drop_S its it i Hi), Nat.add_1_r).
  rewrite Erem in K, Hs, Hfuel |- *. clear Erem rem. unfold keys_ok in K. apply list.Forall_cons in K as [_ K]. apply StronglySorted_inv in Hs as [Hs _].
  destruct fuel as [|fuel]; [cbn in Hfuel; lia|].
  assert (next_entry (Datatypes.S fuel) s T = Some ((RC.SUCCESS, item_rid (g_header g) it, sc_emitted s), T)) as E1.
  { cbn [next_entry]. rewrite Ef, Ee. cbn [negb]. by rewrite (exec (fetch_item_ok T N g p its rest s i it H Ef Ei Hi)). }
  destruct (collect_ok _ fuel (sc_emitted s) T N g p its rest i [item_rid (g_header g) it] H Ef eq_refl Ei Hlt Hrk eq_refl K Hs) as (T2 & g2 & E2 & I2 & C2);
    [cbn in Hfuel; lia|].
  exists T2, g2. split_and!; [|done|done]. cbn [collect_entries]. rewrite (exec E1), bool_decide_eq_true_2 by done. cbn [app]. rewrite E2.
  cbn [List.filter]. by rewrite Ht.
Qed.

(** ** [open] *)
Definition right_bound_of h (right : option (list Z * Z * bool)) (rb : option (list Z)) : Prop :=
  match right with
  | None => rb = None
  | Some (k, len, inclusive) => ∃ key, right_bound h k len inclusive = Some key ∧ rb = Some key ∧ kok h key
  end.
Definition left_bound_of h (left : option (list Z * Z * bool)) (lb : option (list Z)) : Prop :=
  match left with
  | None => lb = None
  | Some (k, len, inclusive) => ∃ key, left_bound h k len inclusive = Some key ∧ lb = Some key ∧ kok h key
  end.

(** The end of [open] and the loop, from the first item that is not before the left bound. *)
Lemma open_right_ok fuel right rb s T N g p its rest i :
  here T N g p its rest → current_frame_ s = Some p → first_emitted_ s = false → iter_index_ s = Z.of_nat i → (i < length its)%nat →
  right_bound_of (g_header g) right rb →
  let rem := drop i its ++ concat rest.*2 in
  keys_ok (g_header g) (kok (g_header g)) rem → items_sorted (g_header g) (comparator (g_header g)) rem → (length rem + 1 ≤ fuel)%nat →
  ∃ s' T' g', open_right right s T = Some ((RC.SUCCESS, s'), T) ∧
    collect_entries fuel s' [] T = Some ((RC.RECORD_EOF, item_rid (g_header g) <$> List.filter (to_right (g_header g) rb) rem), T') ∧
    st T' N g' ∧ calm g g'.
Proof.
  intros H Ef Ee Ei Hlt Hrb rem K Hs Hfuel. destruct (lookup_lt_is_Some_2 its i Hlt) as [it Hi].
  assert (rem = it :: (drop (i + 1) its ++ concat rest.*2)) as Erem by (unfold rem; by rewrite (drop_S its it i Hi), Nat.add_1_r).
  assert (kok (g_header g) (item_key (g_header g) it)) as Kit by (rewrite Erem in K; by apply list.Forall_cons in K as [? _]).
  assert (∀ k, rb = Some k → kok (g_header g) k) as Hrk by (destruct right as [[[k len] incl]|]; [destruct Hrb as (key & _ & -> & ?); by intros ? [= <-]|by rewrite Hrb]).
  set (s1 := sc_set_right rb s).
  assert (open_right right s T = Some ((RC.SUCCESS, if to_right (g_header g) rb it then s1 else sc_set_frame None s1), T)) as Eo.
  { unfold open_right. rewrite (exec (header_ok _ _ _ (he_st _ _ _ _ _ _ H))).
    erewrite (bind_run (match right with None => _ | _ => _ end) _ T s1 T).
    2:{ destruct right as [[[k len] incl]|]; [destruct Hrb as (key & E & -> & _); rewrite E; by exec_deref|unfold s1; cbn in Hrb; by rewrite Hrb]. }
    rewrite (exec (touch_end_ok T N g p its rest s1 i it H Ef Ei Hi Hrk Kit)). cbn [right_key_ s1 sc_set_right]. by destruct (to_right _ rb it). }
  destruct (to_right (g_header g) rb it) eqn:Et.
  - destruct (collect_first fuel s1 T N g p its rest i it H Ef Ee Ei Hi Hrk Et K Hs Hfuel) as (T' & g' & E' & I' & C'). by exists s1, T', g'.
  - exists (sc_set_frame None s1), T, g. split_and!; [done| |apply H|apply calm_refl]. rewrite Erem in K, Hs |- *.
    rewrite (to_right_sorted (g_header g) rb it _ K Hs Hrk Et). by destruct fuel.
Qed.

Lemma ctx_before_none {A} (f : PageNum → list (list Z) → list A) h hi {lv} (c : ctx lv) :
  ctx_wf h (comparator h) (kok h) None hi c → ctx_before f c = [].
Proof.
  revert hi. induction c as [lv|lv p l k r c IH]; [done|]. cbn. intros hi (lo0 & hi0 & [(-> & <- & _)|[_ ?]] & _ & _ & Hc); [|done].
  by rewrite (IH hi0 Hc).
Qed.

Lemma scan_split h lb rb l1 l2 :
  (∀ it, it ∈ l1 → from_left h lb it = false) → (∀ it, it ∈ l2 → from_left h lb it = true) →
  scan_result h lb rb (l1 ++ l2) = item_rid h <$> List.filter (to_right h rb) l2.
Proof.
  intros H1 H2. unfold scan_result. rewrite List.filter_app. rewrite (filter_none _ l1) by (intros it Hit; by rewrite H1). cbn [app]. f_equal.
  induction l2 as [|x l2 IH]; [done|]. cbn. rewrite H2 by left. cbn [andb]. rewrite IH by (intros it Hit; apply H2; by right). done.
Qed.

Lemma after_items {lv} (c : ctx lv) : ctx_after (λ _ its, its) c = concat (ctx_after (λ p its, [(p, its)]) c).*2.
Proof.
  induction c as [lv|lv p l k r c IH]; [done|]. cbn. rewrite fmap_app, concat_app, <-IH. f_equal.
  clear. induction r as [|x r IHr]; [done|]. cbn. rewrite fmap_app, concat_app, <-IHr. f_equal. apply (leaf_list_flat x.2).
Qed.

(** The leaf that was found, as a position of the scan. *)
Lemma found_here h Q op T N g (W : whole) p g' :
  st T N g' → tree_in N g W → g_header g = h → g_loose g = ∅ → g_mode g = READ_ONLY → found h Q op g W p g' →
  ∃ (c : ctx 0) its lo hi, plug c ((p, its) : tree 0) = W ∧ ctx_wf h (comparator h) (kok h) lo hi c ∧ wf h (comparator h) (kok h) (is_top c) lo hi ((p, its) : tree 0) ∧ Q lo hi ∧
    here T N g' p its (ctx_after (λ p its, [(p, its)]) c) ∧
    flat (projT2 W) = ctx_before (λ _ its, its) c ++ its ++ concat (ctx_after (λ p its, [(p, its)]) c).*2.
Proof.
  intros I HT <- Hlo Hm [C L (c & its & lo & hi & EW & Hc & Hw & HQ & _)]. exists c, its, lo, hi. split_and!; try done.
  - split; [done|by rewrite (ca_loose _ _ C)|by rewrite (ca_mode _ _ C)|done|].
    assert (leaf_list (projT2 W) = ctx_before (λ p its, [(p, its)]) c ++ (p, its) :: ctx_after (λ p its, [(p, its)]) c) as El
      by (rewrite <-EW; unfold leaf_list; by rewrite gather_plug).
    apply (leaf_chain_app N (ctx_before (λ p its, [(p, its)]) c)). rewrite <-El. apply leaf_chain_intro.
    + rewrite <-leaf_list_leaves. apply HT.
    + intros q its' Hin. destruct (tree_in_header N g g' W (ca_header _ _ C) HT) as [HH _ HW _ _]. by apply (leaf_list_in _ N _ _ _ _ _ _ _ q its' (s_index _ _ _ I) HH HW).
  - by rewrite <-EW, whole_items_eq, after_items.
Qed.

(** A scan of a tree and what it leaves. *)
Definition scans fuel left right T N g (rids : list RID) : Prop :=
  ∃ s T1 T2 g2, scanner_open fuel left right new_scanner T = Some ((RC.SUCCESS, s), T1) ∧
    collect_entries fuel s [] T1 = Some ((RC.RECORD_EOF, rids), T2) ∧ st T2 N g2 ∧ calm g g2.

Lemma collect_nothing fuel s T : current_frame_ s = None → collect_entries fuel s [] T = Some ((RC.RECORD_EOF, []), T).
Proof. intros E. by destruct fuel; cbn; rewrite E. Qed.

Lemma find_empty fuel op getter T N g : st T N g → g_lock g = Unlocked → g_items g = [] → root_page (g_header g) = BP_INVALID_PAGE_NUM →
  ∃ T', find_leaf_internal fuel op getter T = Some ((RC.EMPTY, BP_INVALID_PAGE_NUM), T') ∧ st T' N (push (MemoLock (op_mode op)) g).
Proof.
  intros I Hl Hi Hroot. destruct (latch_root_ok T N g (op_mode op) I Hl) as (T1 & E1 & I1); [by rewrite Hi|]. exists T1. split; [|done].
  unfold find_leaf_internal. fold (op_mode op). rewrite (exec E1). unfold is_empty. erewrite (bind_run (_ ≫= _)); [|rewrite (exec (header_ok _ _ _ I1)); done].
  cbn [g_header push]. by rewrite Hroot, Z.eqb_refl.
Qed.

Lemma scan_empty fuel left right lb T N g :
  st T N g → g_lock g = Unlocked → g_items g = [] → root_page (g_header g) = BP_INVALID_PAGE_NUM →
  left_bound_of (g_header g) left lb → valid_range (g_header g) left right = Some true → scans fuel left right T N g [].
Proof.
  intros I Hl Hi Hroot Hlb Hv. unfold scans, scanner_open. cbn [inited_ new_scanner]. rewrite (exec (header_ok _ _ _ I)), Hv. exec_deref. cbn [negb].
  destruct left as [[[k len] incl]|].
  - destruct Hlb as (lk & E & _ & _). rewrite E. exec_deref.
    destruct (find_empty fuel OpRead (child_for_key lk) T N g I Hl Hi Hroot) as (T1 & E1 & I1). fold (find_leaf fuel OpRead lk) in E1. rewrite (exec E1).
    change (bool_decide (RC.EMPTY = RC.EMPTY)) with true. eexists _, T1, T1, _. split_and!; [done|by apply collect_nothing|exact I1|apply calm_push].
  - destruct (find_empty fuel OpRead (λ hd d, child_at hd d 0) T N g I Hl Hi Hroot) as (T1 & E1 & I1). fold (left_most_page (S := S) fuel) in E1. rewrite (exec E1).
    change (RC.OB_FAIL RC.EMPTY) with true. cbn iota. change (bool_decide (RC.EMPTY = RC.EMPTY)) with true.
    eexists _, T1, T1, _. split_and!; [done|by apply collect_nothing|exact I1|apply calm_push].
Qed.

Lemma scan_left_most fuel right rb T N g (W : whole) :
  planted T N g W → tree_in N g W → g_mode g = READ_ONLY → right_bound_of (g_header g) right rb → (projT1 W ≤ fuel)%nat → (length (flat (projT2 W)) + 1 ≤ fuel)%nat →
  scans fuel None right T N g (scan_result (g_header g) None rb (flat (projT2 W))).
Proof.
  intros HP HT Hm Hrb Hlv Hfuel. destruct (left_most_ok fuel T N g W HP Hm Hlv) as (p & T1 & g1 & E1 & I1 & F1).
  destruct (found_here (g_header g) _ OpRead T1 N g W p g1 I1 HT eq_refl (pt_loose _ _ _ _ HP) Hm F1) as (c & its & lo & hi & EW & Hc & Hw & -> & H & Hfl).
  rewrite (ctx_before_none _ _ _ _ Hc) in Hfl. cbn [app] in Hfl. pose proof (fd_calm _ _ _ _ _ _ _ F1) as C1. pose proof (ca_header _ _ C1) as Eh.
  destruct (wf_in_order (g_header g) (s_index _ _ _ (pt_st _ _ _ _ HP)) _ _ _ _ _ _ (ti_wf _ _ _ HT)) as [Hs K _]. rewrite Hfl in Hs, K, Hfuel |- *.
  set (s1 := sc_set_index 0 (sc_set_frame (Some p) (sc_opened new_scanner))).
  destruct (open_right_ok fuel right rb s1 T1 N g1 p its _ 0 H eq_refl eq_refl eq_refl) as (s2 & T2 & g2 & E2 & E3 & I2 & C2); rewrite ?Eh; try done.
  { pose proof (he_chain _ _ _ _ _ _ H) as (_ & Hne & _). destruct its; [done|cbn; lia]. }
  exists s2, T1, T2, g2. split_and!; [| |done|by eapply calm_trans].
  - unfold scanner_open. cbn [inited_ new_scanner]. rewrite (exec (header_ok _ _ _ (pt_st _ _ _ _ HP))). cbn [valid_range]. exec_deref. cbn [negb]. rewrite (exec E1). exact E2.
  - by rewrite E3, Eh, drop_0.
Qed.

(** Taking the leaf behind the found one; nothing is released yet. *)
Lemma step_ok T N g p its q its2 rest : here T N g p its ((q, its2) :: rest) →
  ∃ T1 T2 g', memo_get_page q T = Some (RC.SUCCESS, T1) ∧ slatch q T1 = Some (tt, T2) ∧ here T2 N g' q its2 rest ∧ calm g g'.
Proof.
  intros [I Hlo Hm Hl Hch]. pose proof Hch as (_ & _ & Hch2). pose proof Hch2 as ([par Hq] & _ & _).
  destruct (memo_get_ok T N g q _ I Hq) as (T1 & E1 & I1).
  destruct (memo_latch_ok T1 N _ q I1) as (T2 & E2 & I2); [cbn; apply elem_of_app; right; left|]. cbn [g_mode push] in E2. rewrite Hm in E2.
  exists T1, T2. eexists. split_and!; [done|exact E2| |].
  - split; [exact I2|done|done|split; cbn; rewrite !elem_of_app; [left; right; left|right; left]|done].
  - by split.
Qed.

(** The part of [open] after the search in the leaf. *)
Definition open_from (left_index n : Z) p right s : M Tree (RC * BplusTreeScanner) :=
  if n <=? left_index then
    next_page_num ← read p next_page;
    if next_page_num =? BP_INVALID_PAGE_NUM then release;; mret (RC.SUCCESS, sc_set_frame None s)
    else
      rc ← memo_get_page next_page_num;
      if RC.OB_FAIL rc then mret (rc, sc_set_frame None s)
      else slatch next_page_num;; open_right right (sc_set_index 0 (sc_set_frame (Some next_page_num) s))
  else open_right right (sc_set_index left_index (sc_set_frame (Some p) s)).

Lemma scan_from_leaf fuel left right rb T T1 N g g1 p its rest l1 l2 :
  here T1 N g1 p its rest → its = l1 ++ l2 → calm g g1 → g_disposed g = [] → g_extra g1 = [] → right_bound_of (g_header g) right rb →
  keys_ok (g_header g) (kok (g_header g)) (l2 ++ concat rest.*2) → items_sorted (g_header g) (comparator (g_header g)) (l2 ++ concat rest.*2) →
  (length (l2 ++ concat rest.*2) + 1 ≤ fuel)%nat →
  (∀ s' T', (open_from (Z.of_nat (length l1)) (Z.of_nat (length its)) p right (sc_opened new_scanner)) T1 = Some ((RC.SUCCESS, s'), T') →
    scanner_open fuel left right new_scanner T = Some ((RC.SUCCESS, s'), T')) →
  scans fuel left right T N g (item_rid (g_header g) <$> List.filter (to_right (g_header g) rb) (l2 ++ concat rest.*2)).
Proof.
  intros H Eits C1 Hd Hx Hrb K Hs Hfuel Hopen. pose proof (ca_header _ _ C1) as Eh. unfold open_from in Hopen. destruct l2 as [|it l2].
  - rewrite app_nil_r in Eits. subst l1. rewrite Z.leb_refl in Hopen. cbn [app] in *.
    assert (read p next_page T1 = Some (default BP_INVALID_PAGE_NUM (head rest.*1), T1)) as Enx.
    { apply (here_read T1 N g1 p its rest _ _ H). intros n d El _ <- R. by apply (rep_next _ n d R). }
    setoid_rewrite (exec Enx) in Hopen. destruct rest as [|[q its2] rest].
    + cbn [fmap list_fmap head default from_option] in Hopen. change (BP_INVALID_PAGE_NUM =? BP_INVALID_PAGE_NUM) with true in Hopen. cbn iota in Hopen.
      destruct (memo_release_ok T1 N g1 (he_st _ _ _ _ _ _ H) Hx) as (T2 & dy & E2 & I2); rewrite ?(ca_disposed _ _ C1), ?Hd; [constructor|by intros ? ?%not_elem_of_nil|apply H|].
      setoid_rewrite (exec E2) in Hopen. eexists _, T2, T2, _. split_and!; [by apply Hopen|by apply collect_nothing|exact I2|].
      destruct C1. split; cbn; try congruence; [rewrite ca_disposed, Hd, <-ca_raw; set_solver|by rewrite <-ca_loose, (he_loose _ _ _ _ _ _ H)].
    + destruct (step_ok T1 N g1 p its q its2 rest H) as (T2 & T3 & g3 & E2 & E3 & H3 & C3). cbn [fmap list_fmap head default from_option fst id] in Hopen.
      pose proof (he_chain _ _ _ _ _ _ H3) as ([par Hq] & Hne & _). pose proof (st_page_range _ _ _ _ _ (he_st _ _ _ _ _ _ H3) Hq) as [Hr _].
      rewrite (proj2 (Z.eqb_neq _ _)) in Hopen by (change BP_INVALID_PAGE_NUM with (-1); lia).
      setoid_rewrite (exec E2) in Hopen. change (RC.OB_FAIL RC.SUCCESS) with false in Hopen. cbn iota in Hopen. setoid_rewrite (exec E3) in Hopen.
      pose proof (calm_trans _ _ _ C1 C3) as C. pose proof (ca_header _ _ C) as Eh3. cbn [concat fmap list_fmap snd] in K, Hs, Hfuel |- *.
      destruct (open_right_ok fuel right rb (sc_set_index 0 (sc_set_frame (Some q) (sc_opened new_scanner))) T3 N g3 q its2 rest 0 H3 eq_refl eq_refl eq_refl)
        as (s2 & T4 & g4 & E4 & E5 & I4 & C4); rewrite ?Eh3; try done; [destruct its2; [done|cbn; lia]|].
      exists s2, T3, T4, g4. split_and!; [by apply Hopen|by rewrite E5, Eh3|done|by eapply calm_trans].
  - rewrite (proj2 (Z.leb_gt _ _)) in Hopen by (rewrite Eits, length_app; cbn; lia).
    destruct (open_right_ok fuel right rb (sc_set_index (Z.of_nat (length l1)) (sc_set_frame (Some p) (sc_opened new_scanner))) T1 N g1 p its rest (length l1) H eq_refl eq_refl eq_refl)
      as (s2 & T4 & g4 & E4 & E5 & I4 & C4); rewrite ?Eh, ?Eits, ?drop_app_length; try done; [rewrite length_app; cbn; lia|].
    rewrite Eits, drop_app_length in E5. exists s2, T1, T4, g4. split_and!; [by apply Hopen|by rewrite E5, Eh|done|by eapply calm_trans].
Qed.

Lemma scan_from fuel k len incl lk right rb T N g (W : whole) :
  planted T N g W → tree_in N g W → g_mode g = READ_ONLY → g_extra g = [] → g_disposed g = [] →
  left_bound (g_header g) k len incl = Some lk → kok (g_header g) lk → right_bound_of (g_header g) right rb →
  valid_range (g_header g) (Some (k, len, incl)) right = Some true → (projT1 W ≤ fuel)%nat → (length (flat (projT2 W)) + 1 ≤ fuel)%nat →
  scans fuel (Some (k, len, incl)) right T N g (scan_result (g_header g) (Some lk) rb (flat (projT2 W))).
Proof.
  intros HP HT Hm Hx Hd Elk Ok Hrb Hv Hlv Hfuel. pose proof (pt_st _ _ _ _ HP) as I. pose proof (s_index _ _ _ I) as HI.
  destruct (find_leaf_ok OpRead fuel T N g W lk HP Hm Ok Hlv) as (p & T1 & g1 & E1 & I1 & F1).
  destruct (found_here (g_header g) _ OpRead T1 N g W p g1 I1 HT eq_refl (pt_loose _ _ _ _ HP) Hm F1) as (c & its & lo & hi & EW & Hc & Hw & HQ & H & Hfl).
  pose proof (fd_calm _ _ _ _ _ _ _ F1) as C1. pose proof (ca_header _ _ C1) as Eh. set (rest := ctx_after (λ p its, [(p, its)]) c) in *.
  assert (at_leaf T1 N g1 c p its lo hi lk) as AL.
  { split; rewrite ?Eh; try done; [apply H|by rewrite (ca_extra _ _ C1)|left; apply H|rewrite EW; by apply (tree_in_header N g)|apply (ao_chars _ _ _ (ko_attr _ _ _ Ok))]. }
  destruct (leaf_outside T1 N g1 c p its lo hi lk AL) as [O1 O2]. rewrite Eh in O1, O2.
  destruct (here_node _ _ _ _ _ _ H) as [par Hn]. destruct (read_page T1 N g1 p _ I1 (or_introl (proj1 (he_latched _ _ _ _ _ _ H))) Hn) as (d & R & Hrd).
  destruct (leaf_node T1 N g1 c p its lo hi lk AL) as (nx & Hn' & _). rewrite Hn in Hn'. injection Hn' as -> Enx.
  rewrite Enx in R. destruct (leaf_search T1 N g1 c p its lo hi lk AL nx d R) as (l1 & l2 & fd & Eits & Elook & G1 & G2 & _ & _). rewrite Eh in Elook, G1, G2.
  rewrite after_items in O2. fold rest in O2. set (pre := ctx_before (λ _ its, its) c ++ l1). set (suf := l2 ++ concat rest.*2).
  assert (flat (projT2 W) = pre ++ suf) as El by (rewrite Hfl, Eits; unfold pre, suf; by rewrite <-!app_assoc).
  destruct (wf_in_order (g_header g) HI _ _ _ _ _ _ (ti_wf _ _ _ HT)) as [Hs K _]. rewrite El in Hs, K, Hfuel |- *.
  assert (scan_result (g_header g) (Some lk) rb (pre ++ suf) = item_rid (g_header g) <$> List.filter (to_right (g_header g) rb) suf) as ->.
  { apply scan_split; cbn; intros it Hit.
    - apply Z.leb_gt. assert (Forall (λ it, kc (comparator (g_header g)) (item_key (g_header g) it) lk < 0) pre) as F by (by apply Forall_app_2).
      rewrite list.Forall_forall in F. by apply F.
    - apply Z.leb_le. assert (Forall (λ it, 0 ≤ kc (comparator (g_header g)) (item_key (g_header g) it) lk) suf) as F.
      { apply Forall_app_2; [done|]. eapply list.Forall_impl; [exact O2|]. cbn. lia. }
      rewrite list.Forall_forall in F. by apply F. }
  unfold items_sorted in Hs. apply StronglySorted_app_1_r in Hs. unfold keys_ok in K. apply Forall_app in K as [_ K]. rewrite length_app in Hfuel.
  assert (∀ s' T', (open_from (Z.of_nat (length l1)) (Z.of_nat (length its)) p right (sc_opened new_scanner)) T1 = Some ((RC.SUCCESS, s'), T') →
    scanner_open fuel (Some (k, len, incl)) right new_scanner T = Some ((RC.SUCCESS, s'), T')) as Hopen.
  { intros s' T' <-. unfold scanner_open. cbn [inited_ new_scanner]. rewrite (exec (header_ok _ _ _ I)), Hv. exec_deref. cbn [negb]. rewrite Elk. exec_deref.
    rewrite (exec E1). change (bool_decide (RC.SUCCESS = RC.EMPTY)) with false. cbn iota. change (RC.OB_FAIL RC.SUCCESS) with false. cbn iota.
    rewrite (exec (Hrd _ _ _ Elook)). by rewrite (exec (Hrd _ _ _ (rep_size _ (s_index _ _ _ I1) _ d R))). }
  eapply scan_from_leaf; [exact H|exact Eits|exact C1|exact Hd|by rewrite (ca_extra _ _ C1)|exact Hrb|exact K|exact Hs|fold suf; lia|exact Hopen].
Qed.
End scanning.

(** ** Bounds as attribute values *)
Section value.
Context (h : IndexFileHeader).
Notation t := (attr_type h).
Notation n := (attr_length h).
Notation kok := (key_ok t n).
Notation ikey := (item_key h).

Lemma get_i32_take k m r : (4 ≤ m ≤ length k)%nat → get_i32 (take m k ++ r) 0 = get_i32 k 0.
Proof.
  intros Hm. unfold get_i32, get_bytes. rewrite !decide_True by (rewrite ?length_app, ?length_take; lia). rewrite !drop_0.
  by rewrite take_app_le, take_take, Nat.min_l by (rewrite ?length_take; lia).
Qed.

Lemma attr_compare_take x k r : attr_ok t n k → attr_compare t n x (take (Z.to_nat n) k ++ r) = attr_compare t n x k.
Proof.
  intros [Hl Hs Hc]. assert (Z.to_nat n ≤ length k)%nat as Hn by lia. unfold attr_compare. destruct t; try done.
  - assert (set_string (take (Z.to_nat n) k ++ r) n = set_string k n) as ->; [|done].
    unfold set_string. rewrite (proj2 (Z.ltb_lt _ _)) by done. rewrite !c_strn_eq by (rewrite ?length_app, ?length_take; lia).
    by rewrite take_app_length' by (rewrite length_take; lia).
  - by rewrite get_i32_take by lia.
  - by rewrite get_i32_take by lia.
Qed.

Lemma bound_key k rid : attr_ok t n k → rid_ok rid → ∃ key, make_key h k rid = Some key ∧ key = take (Z.to_nat n) k ++ rid_bytes rid ∧ kok key ∧ rid_at key n = Some rid.
Proof.
  intros Ha Hr. pose proof Ha as [Hl Hs Hc]. assert (0 ≤ n) as Hn by (destruct t; try done; lia). exists (take (Z.to_nat n) k ++ rid_bytes rid).
  assert (rid_at (take (Z.to_nat n) k ++ rid_bytes rid) n = Some rid) as Hrid.
  { destruct Hr as [H1 H2]. unfold INT32_MAX in H1, H2. change (2 ^ 31 - 1) with 2147483647 in H1, H2. set (P := take (Z.to_nat n) k).
    assert (length P = Z.to_nat n) as HP by (unfold P; rewrite length_take; lia). unfold rid_at, rid_bytes.
    assert (get_i32 (P ++ le_bytes 4 (rid_page_num rid) ++ le_bytes 4 (rid_slot_num rid)) (Z.to_nat n) = Some (rid_page_num rid)) as ->.
    { apply get_i32_mid; [done|]. unfold in_srange. cbn. lia. }
    assert (get_i32 (P ++ le_bytes 4 (rid_page_num rid) ++ le_bytes 4 (rid_slot_num rid)) (Z.to_nat (n + 4)) = Some (rid_slot_num rid)) as ->.
    { rewrite <-(app_nil_r (le_bytes 4 (rid_slot_num rid))), (app_assoc P). apply get_i32_mid; [rewrite length_app, le_bytes_length; lia|]. unfold in_srange. cbn. lia. }
    by destruct rid. }
  split_and!; [|done| |done].
  - unfold make_key, read_at. rewrite (proj2 (Z.leb_le 0 n)) by done. cbn [andb Z.leb Z.compare]. unfold get_bytes. rewrite decide_True by lia. done.
  - split; [rewrite length_app, length_take; unfold rid_bytes; rewrite !length_app, !le_bytes_length; unfold RID_SIZE; lia| |by exists rid].
    split; [rewrite length_app, length_take; lia|done|]. apply Forall_app_2; [by apply Forall_take|]. unfold rid_bytes. apply Forall_app_2; apply le_bytes_chars.
Qed.

(** The comparison of the value in a key with an attribute value, of which [len] chars
    count when it is a string: a key has at most as many chars as the attribute is long,
    the value may have more. *)
Definition key_value_compare (x k : list Z) (len : Z) : Z :=
  match t with
  | CHARS => lex_compare (c_str (take (Z.to_nat n) x)) (take (Z.to_nat len) k)
  | _ => compare_int (default 0 (get_i32 x 0)) (default 0 (get_i32 k 0))
  end.
Definition item_compare (it k : list Z) (len : Z) : Z := key_value_compare (ikey it) k len.

Definition in_left (left : option (list Z * Z * bool)) (it : list Z) : bool :=
  match left with Some (k, len, incl) => if incl : bool then 0 <=? item_compare it k len else 0 <? item_compare it k len | None => true end.
Definition in_right (right : option (list Z * Z * bool)) (it : list Z) : bool :=
  match right with Some (k, len, incl) => if incl : bool then item_compare it k len <=? 0 else item_compare it k len <? 0 | None => true end.
Definition in_range (left right : option (list Z * Z * bool)) (it : list Z) : bool := in_left left it && in_right right it.

(** A value that a bound can be made of.  A string ends with a NUL, and the length given
    is at most its own; a left bound that is longer than the attribute gets its last char
    incremented, which must not overflow. *)
Record bound_ok (is_left : bool) (k : list Z) (len : Z) : Prop := {
  bo_size : match t with INTS | DATES => attr_ok t n k | CHARS => 0 < n ∧ 0 ∈ k ∧ chars k ∧ 0 ≤ len ≤ Z.of_nat (length (c_str k)) | _ => False end;
  bo_last : is_left = true → t = CHARS → n < len → uwrap 8 (nth (Z.to_nat (n - 1)) k 0) ≠ 255
}.
Definition left_ok (left : option (list Z * Z * bool)) : Prop := ∀ k len incl, left = Some (k, len, incl) → bound_ok true k len.
Definition right_ok (right : option (list Z * Z * bool)) : Prop := ∀ k len incl, right = Some (k, len, incl) → bound_ok false k len.

(** The record id of a key, which is not one of the two that bounds are made of. *)
Definition proper_rid (it : list Z) : Prop := rid_at (ikey it) n ≠ Some rid_min ∧ rid_at (ikey it) n ≠ Some rid_max.

(** *** Strings and their prefixes *)
Lemma lex_longer s p q : (length s ≤ length p)%nat → q ≠ [] → lex_compare s (p ++ q) = if lex_compare s p =? 0 then -1 else lex_compare s p.
Proof.
  revert p. induction s as [|a s IH]; intros [|b p] Hl Hq; cbn in Hl |- *.
  - by destruct q.
  - done.
  - lia.
  - destruct (uwrap 8 a =? uwrap 8 b) eqn:E; [apply IH; [lia|done]|]. apply Z.eqb_neq in E. by rewrite (proj2 (Z.eqb_neq _ 0)) by lia.
Qed.

Lemma lex_next s p c d : (length s ≤ length p + 1)%nat → uwrap 8 d = uwrap 8 c + 1 → 0 ≤ lex_compare s (p ++ [d]) ↔ 0 < lex_compare s (p ++ [c]).
Proof.
  intros Hl Hd. revert p Hl. induction s as [|a s IH]; intros [|b p] Hl; cbn in Hl |- *.
  - lia.
  - lia.
  - destruct s; [|cbn in Hl; lia]. rewrite Hd. cbn. destruct (Z.eqb_spec (uwrap 8 a) (uwrap 8 c + 1)), (Z.eqb_spec (uwrap 8 a) (uwrap 8 c)); lia.
  - case_match; [apply IH; lia|]. lia.
Qed.

Lemma c_str_take s m : (m ≤ length (c_str s))%nat → take m (c_str s) = take m s ∧ c_str (take m s) = take m s.
Proof.
  revert m. induction s as [|c s IH]; intros m Hm; cbn in *; [by destruct m|].
  destruct (Z.eqb_spec c 0); [cbn in Hm; by destruct m; [|lia]|]. cbn in Hm. destruct m as [|m]; [done|]. destruct (IH m) as [E1 E2]; [lia|].
  cbn. rewrite (proj2 (Z.eqb_neq _ _)) by done. by rewrite E1, E2.
Qed.

Lemma c_str_zeros s m r : c_str s = s → c_str (s ++ replicate m 0 ++ r) = if decide (m = 0%nat) then s ++ c_str r else s.
Proof.
  induction s as [|c s IH]; intros E; cbn [app].
  - destruct m; [done|]. by rewrite decide_False.
  - cbn in E |- *. destruct (c =? 0); [done|]. injection E as E. rewrite IH by done. by case_decide.
Qed.

Lemma c_strn_nul s m : 0 ∈ s → ∃ r, c_strn s m = Some r.
Proof.
  revert m. induction s as [|c s IH]; intros m H; [by apply not_elem_of_nil in H|]. destruct m as [|m]; [by eexists|]. cbn.
  destruct (Z.eqb_spec c 0); [by eexists|]. apply elem_of_cons in H as [?|H]; [congruence|]. destruct (IH m H) as [r ->]. by eexists.
Qed.

Lemma c_str_le s : (length (c_str s) ≤ length s)%nat.
Proof. induction s as [|c s IH]; [done|]. cbn. case_match; cbn; lia. Qed.

(** *** What the two bounds mean *)
Lemma bound_compare k r x key : attr_ok t n k → rid_ok r → make_key h k r = Some key → kok x →
  ∃ a rx, attr_compare t n x k = Some a ∧ rid_at x n = Some rx ∧ rid_ok rx ∧ kc (comparator h) x key = if a =? 0 then rid_compare rx r else a.
Proof.
  intros Ha Hr E Hx. destruct (bound_key k r Ha Hr) as (key' & E1 & E2 & Ok & R). rewrite E in E1. injection E1 as <-.
  destruct Hx as [Lx Ax (rx & Ex & Rx)]. destruct (ko_total x k Ax Ha) as [a Ea]. exists a, rx. split_and!; try done.
  rewrite E2 in R |- *. unfold kc, comparator, key_compare. rewrite attr_compare_take by done. rewrite Ea. cbn [mbind option_bind].
  destruct (a =? 0) eqn:E0; cbn [negb]; [|done]. by rewrite Ex, R.
Qed.

Lemma rid_bounds r : rid_ok r → rid_ok rid_min ∧ rid_ok rid_max ∧ 0 ≤ rid_compare r rid_min ∧ rid_compare r rid_max ≤ 0 ∧
  (rid_compare r rid_min ≤ 0 → r = rid_min) ∧ (0 ≤ rid_compare r rid_max → r = rid_max).
Proof.
  intros Hr. assert (rid_ok rid_min) as H1 by (by split; vm_compute). assert (rid_ok rid_max) as H2 by (by split; vm_compute).
  split; [done|]. split; [done|]. rewrite !rid_compare_eq by done. destruct Hr as [X1 X2]. destruct r as [a b].
  unfold INT32_MAX in X1, X2. change (2 ^ 31 - 1) with 2147483647 in X1, X2. unfold rid_min, rid_max in *. cbn [rid_page_num rid_slot_num] in *.
  change (2 ^ 31 - 1) with 2147483647. split_and!; [case_match; lia|case_match; lia| |].
  - intros H. assert (a = 0 ∧ b = 0) as [-> ->]; [|done]. case_match; lia.
  - intros H. assert (a = 2147483647 ∧ b = 2147483647) as [-> ->]; [|done]. case_match; lia.
Qed.

(** The item against the bare value of the bound. *)
Lemma item_value_compare k x c : attr_ok t n k → attr_compare t n x k = Some c → kok x →
  match t with CHARS => c = lex_compare (c_str (take (Z.to_nat n) x)) (c_str (take (Z.to_nat n) k)) | _ => c = compare_int (default 0 (get_i32 x 0)) (default 0 (get_i32 k 0)) end.
Proof.
  intros [Lk Sk Ck] E [_ [Lx Sx Cx] _]. unfold attr_compare in E. destruct t; try done.
  - unfold set_string in E. rewrite (proj2 (Z.ltb_lt _ _)) in E by done. rewrite !c_strn_eq in E by lia. cbn [mbind option_bind] in E. injection E as <-.
    apply compare_string_lex; apply c_str_no_nul; by apply Forall_take.
  - destruct (get_i32_Some x 0) as [a Ea]; [lia|]. destruct (get_i32_Some k 0) as [b Eb]; [lia|]. rewrite Ea, Eb in E. injection E as <-. by rewrite Ea, Eb.
  - destruct (get_i32_Some x 0) as [a Ea]; [lia|]. destruct (get_i32_Some k 0) as [b Eb]; [lia|]. rewrite Ea, Eb in E. injection E as <-. by rewrite Ea, Eb.
Qed.

(** [fix_user_key]: the value as it is, or a value of the length of the attribute that no
    key equals the longer one with. *)
Lemma fixed_value want k len : bound_ok want k len → t = CHARS →
  ∃ kk i, fix_user_key n k len want = Some (kk, i) ∧ attr_ok t n kk ∧ ∀ x a, kok x → attr_compare t n x kk = Some a →
    if i then key_value_compare x k len ≠ 0 ∧ (if want then 0 ≤ a ↔ 0 < key_value_compare x k len else a ≤ 0 ↔ key_value_compare x k len < 0)
    else a = key_value_compare x k len.
Proof.
  intros [Bs Bl] Ht. rewrite Ht in Bs. destruct Bs as (Hn & H0 & Hc & Hlen). pose proof (c_str_le k) as Hle. unfold fix_user_key.
  rewrite bool_decide_eq_true_2 by done. rewrite (proj2 (Z.leb_le len _)) by lia. cbn [negb orb].
  destruct (c_str_take k (Z.to_nat len)) as [E1 E2]; [lia|].
  assert (∀ m, 0 ≤ m ≤ len → read_at k 0 m = Some (take (Z.to_nat m) k)) as Hread.
  { intros m Hm. unfold read_at. rewrite (proj2 (Z.leb_le 0 m)) by lia. cbn [andb Z.leb Z.compare]. unfold get_bytes. rewrite decide_True by lia. done. }
  destruct (Z.leb_spec len n) as [Hs|Hs].
  - rewrite Hread by lia. cbn [mbind option_bind]. eexists _, false. split; [done|].
    assert (attr_ok t n (take (Z.to_nat len) k ++ replicate (Z.to_nat (n - len)) 0)) as Ok.
    { split; [rewrite length_app, length_take, length_replicate; lia|by rewrite Ht|].
      apply Forall_app_2; [by apply Forall_take|]. apply Forall_replicate. by split. }
    split; [done|]. intros x a Hx Ea. pose proof (item_value_compare _ x a Ok Ea Hx) as E. unfold key_value_compare. rewrite Ht in E |- *. rewrite E.
    rewrite (take_ge (_ ++ _)) by (rewrite length_app, length_take, length_replicate; lia).
    f_equal. rewrite <-(app_nil_r (replicate _ 0)), c_str_zeros by done. case_decide; [by rewrite app_nil_r|done].
  - rewrite Hread by lia. cbn [mbind option_bind].
    assert (∃ m, Z.to_nat n = S m) as [m Hm] by (exists (Z.to_nat n - 1)%nat; lia).
    destruct (lookup_lt_is_Some_2 k (Z.to_nat n)) as [c Ec]; [lia|]. destruct (lookup_lt_is_Some_2 k m) as [b Eb]; [lia|].
    assert (∃ q, take (Z.to_nat len) k = take (Z.to_nat n) k ++ q ∧ q ≠ []) as (q & Eq & Hq).
    { exists (drop (Z.to_nat n) (take (Z.to_nat len) k)). split.
      - rewrite <-(take_drop (Z.to_nat n) (take (Z.to_nat len) k)) at 1. rewrite take_take. by rewrite Nat.min_l by lia.
      - intros E. apply (f_equal length) in E. rewrite length_drop, length_take in E. cbn in E. lia. }
    destruct (c_str_take k (Z.to_nat n)) as [E3 E4]; [lia|].
    assert (c ≠ 0) as Hc0.
    { intros ->. destruct (c_str_take k (S (Z.to_nat n))) as [_ E]; [lia|]. rewrite (take_S_r _ _ _ Ec) in E.
      pose proof (c_str_zeros (take (Z.to_nat n) k) 1 [] E4) as E'. cbn [replicate app] in E'. rewrite E' in E. rewrite decide_False in E by done.
      apply (f_equal length) in E. rewrite length_app in E. cbn in E. lia. }
    rewrite Ec. cbn [mbind option_bind]. rewrite (proj2 (Z.eqb_neq _ _)) by done. eexists _, true. split; [done|].
    assert (∀ x, kok x → (length (c_str (take (Z.to_nat n) x)) ≤ Z.to_nat n)%nat) as Hxl.
    { intros x _. pose proof (c_str_le (take (Z.to_nat n) x)). rewrite length_take in *. lia. }
    assert (length (take (Z.to_nat n) k) = Z.to_nat n) as Hpl by (rewrite length_take; lia).
    assert (∀ x, kok x → key_value_compare x k len =
      if lex_compare (c_str (take (Z.to_nat n) x)) (take (Z.to_nat n) k) =? 0 then -1 else lex_compare (c_str (take (Z.to_nat n) x)) (take (Z.to_nat n) k)) as Hv.
    { intros x Hx. unfold key_value_compare. rewrite Ht, Eq. apply lex_longer; [|done]. rewrite Hpl. by apply Hxl. }
    destruct want.
    + specialize (Bl eq_refl Ht ltac:(lia)). pose proof (take_S_r _ _ _ Eb) as Ek. rewrite <-Hm in Ek.
      assert (nth (Z.to_nat (n - 1)) k 0 = b) as En by (replace (Z.to_nat (n - 1)) with m by lia; by apply nth_lookup_Some).
      rewrite En in Bl. set (d := swrap 8 (b + 1)).
      assert (alter (λ c, swrap 8 (c + 1)) (Z.to_nat (n - 1)) (take (Z.to_nat n) k) = take m k ++ [d]) as Ealt.
      { rewrite Ek. replace (Z.to_nat (n - 1)) with (length (take m k) + 0)%nat by (rewrite length_take; lia). by rewrite list.alter_app_r. }
      assert (uwrap 8 d = uwrap 8 b + 1) as Hd.
      { unfold d, uwrap in *. rewrite swrap_mod_id by done. pose proof (Z.mod_pos_bound b (2 ^ 8) eq_refl) as Hb.
        rewrite <-Z.add_mod_idemp_l by done. apply Z.mod_small. change (2 ^ 8) with 256 in *. lia. }
      rewrite Ealt. assert (length (take m k ++ [d]) = Z.to_nat n) as Hdl by (rewrite length_app, length_take; cbn; lia).
      assert (attr_ok t n (take m k ++ [d])) as Ok.
      { split; [lia|by rewrite Ht|]. apply Forall_app_2; [by apply Forall_take|]. constructor; [|constructor]. by apply swrap_range. }
      split; [exact Ok|]. intros x a Hx Ea. pose proof (item_value_compare _ x a Ok Ea Hx) as E. rewrite Ht in E. rewrite (take_ge (_ ++ _)) in E by lia.
      assert (c_str (take m k ++ [d]) = take m k ++ [d]) as Ecd.
      { rewrite Ek in E4. clear -E4 Hd. revert E4. generalize (take m k). intros l. induction l as [|y l IH]; cbn.
        - intros _. destruct (Z.eqb_spec d 0) as [E|]; [|done]. pose proof (Z.mod_pos_bound b (2 ^ 8) eq_refl) as Hb. unfold uwrap in Hd.
          rewrite E, Z.mod_0_l in Hd by done. lia.
        - destruct (y =? 0); [done|]. intros [= E]. by rewrite IH. }
      rewrite Ecd in E. rewrite (Hv x Hx). pose proof (lex_next (c_str (take (Z.to_nat n) x)) (take m k) b d) as Hnext. rewrite <-Ek in Hnext.
      specialize (Hxl x Hx). rewrite E. split; [case_match; lia|]. rewrite Hnext; [|rewrite length_take; lia|done].
      destruct (Z.eqb_spec (lex_compare (c_str (take (Z.to_nat n) x)) (take (Z.to_nat n) k)) 0); lia.
    + assert (attr_ok t n (take (Z.to_nat n) k)) as Ok by (split; [lia|by rewrite Ht|by apply Forall_take]).
      split; [exact Ok|]. intros x a Hx Ea. pose proof (item_value_compare _ x a Ok Ea Hx) as E. rewrite Ht in E. rewrite take_take, Nat.min_id, E4 in E.
      rewrite (Hv x Hx), <-E. destruct (Z.eqb_spec a 0); lia.
Qed.

Lemma bound_value want k len : bound_ok want k len →
  ∃ kk i, (if bool_decide (t = CHARS) then fix_user_key n k len want else Some (k, false)) = Some (kk, i) ∧ attr_ok t n kk ∧
    ∀ x a, kok x → attr_compare t n x kk = Some a →
      if i then key_value_compare x k len ≠ 0 ∧ (if want then 0 ≤ a ↔ 0 < key_value_compare x k len else a ≤ 0 ↔ key_value_compare x k len < 0)
      else a = key_value_compare x k len.
Proof.
  intros B. case_bool_decide as Ht; [by apply fixed_value|]. exists k, false. destruct B as [Bs _].
  assert (attr_ok t n k) as Ok by (by destruct t). split; [done|]. split; [done|]. intros x a Hx Ea.
  pose proof (item_value_compare k x a Ok Ea Hx) as E. unfold key_value_compare. by destruct t.
Qed.

(** A key is behind the key of the left bound exactly if its value is, and not behind
    the key of the right bound exactly if its value is not: whether the bound itself
    belongs to the range is decided by the record id in its key. *)
Lemma left_bound_ok k len incl : bound_ok true k len → ∃ key, left_bound h k len incl = Some key ∧ kok key ∧
  ∀ x, kok x → (incl = false → rid_at x n ≠ Some rid_max) →
    (0 <=? kc (comparator h) x key) = if incl then 0 <=? key_value_compare x k len else 0 <? key_value_compare x k len.
Proof.
  intros B. destruct (bound_value true k len B) as (kk & i & E & Ok & Hv). unfold left_bound. rewrite E. cbn [mbind option_bind].
  assert (rid_ok (if i || incl then rid_min else rid_max)) as Hr by (destruct (i || incl); by split; vm_compute).
  destruct (bound_key kk _ Ok Hr) as (key & Ek & _ & Hk & _). exists key. split; [done|]. split; [done|]. intros x Hx Hmax.
  destruct (bound_compare kk _ x key Ok Hr Ek Hx) as (a & rx & Ea & Erx & Hrx & ->). specialize (Hv x a Hx Ea).
  destruct (rid_bounds rx Hrx) as (_ & _ & R1 & R2 & R3 & R4). assert (incl = false → rx ≠ rid_max) as Hne by (intros ?; intros ->; by apply Hmax).
  destruct i; cbn [orb].
  - destruct Hv as [Hv0 Hv]. apply Bool.eq_iff_eq_true. destruct incl; rewrite ?Z.ltb_lt, ?Z.leb_le; destruct (Z.eqb_spec a 0); lia.
  - subst a. apply Bool.eq_iff_eq_true. destruct incl; rewrite ?Z.ltb_lt, ?Z.leb_le; destruct (Z.eqb_spec (key_value_compare x k len) 0) as [E0|]; try lia.
    rewrite E0. split; [intros H; destruct Hne; [done|by apply R4]|lia].
Qed.

Lemma right_bound_ok k len incl : bound_ok false k len → ∃ key, right_bound h k len incl = Some key ∧ kok key ∧
  ∀ x, kok x → (incl = false → rid_at x n ≠ Some rid_min) →
    (kc (comparator h) x key <=? 0) = if incl then key_value_compare x k len <=? 0 else key_value_compare x k len <? 0.
Proof.
  intros B. destruct (bound_value false k len B) as (kk & i & E & Ok & Hv). unfold right_bound. rewrite E. cbn [mbind option_bind].
  assert (rid_ok (if i || incl then rid_max else rid_min)) as Hr by (destruct (i || incl); by split; vm_compute).
  destruct (bound_key kk _ Ok Hr) as (key & Ek & _ & Hk & _). exists key. split; [done|]. split; [done|]. intros x Hx Hmin.
  destruct (bound_compare kk _ x key Ok Hr Ek Hx) as (a & rx & Ea & Erx & Hrx & ->). specialize (Hv x a Hx Ea).
  destruct (rid_bounds rx Hrx) as (_ & _ & R1 & R2 & R3 & R4). assert (incl = false → rx ≠ rid_min) as Hne by (intros ?; intros ->; by apply Hmin).
  destruct i; cbn [orb].
  - destruct Hv as [Hv0 Hv]. apply Bool.eq_iff_eq_true. destruct incl; rewrite ?Z.ltb_lt, ?Z.leb_le; destruct (Z.eqb_spec a 0); lia.
  - subst a. apply Bool.eq_iff_eq_true. destruct incl; rewrite ?Z.ltb_lt, ?Z.leb_le; destruct (Z.eqb_spec (key_value_compare x k len) 0) as [E0|]; try lia.
    rewrite E0. split; [intros H; destruct Hne; [done|by apply R3]|lia].
Qed.

Definition exclusive (b : option (list Z * Z * bool)) : bool := match b with Some (_, _, incl) => negb incl | None => false end.

Lemma left_bound_exists left : left_ok left → ∃ lb, left_bound_of h left lb ∧ ∀ it, kok (ikey it) → (exclusive left = true → proper_rid it) → from_left h lb it = in_left left it.
Proof.
  intros B. destruct left as [[[k len] incl]|]; [|by exists None]. destruct (left_bound_ok k len incl (B k len incl eq_refl)) as (key & E & Ok & H).
  exists (Some key). split; [by exists key|]. intros it Hit Hp. cbn. apply H; [done|]. intros ->. by apply Hp.
Qed.

Lemma right_bound_exists right : right_ok right → ∃ rb, right_bound_of h right rb ∧ ∀ it, kok (ikey it) → (exclusive right = true → proper_rid it) → to_right h rb it = in_right right it.
Proof.
  intros B. destruct right as [[[k len] incl]|]; [|by exists None]. destruct (right_bound_ok k len incl (B k len incl eq_refl)) as (key & E & Ok & H).
  exists (Some key). split; [by exists key|]. intros it Hit Hp. cbn. apply H; [done|]. intros ->. by apply Hp.
Qed.

Lemma scan_result_range left right lb rb l : (∀ it, kok (ikey it) → (exclusive left = true → proper_rid it) → from_left h lb it = in_left left it) →
  (∀ it, kok (ikey it) → (exclusive right = true → proper_rid it) → to_right h rb it = in_right right it) → keys_ok h kok l →
  (exclusive left || exclusive right = true → ∀ it, it ∈ l → proper_rid it) →
  scan_result h lb rb l = item_rid h <$> List.filter (in_range left right) l.
Proof.
  intros HL HR K Hp. unfold scan_result. f_equal. apply List.filter_ext_in. intros it Hit%list_elem_of_In. unfold keys_ok in K. rewrite list.Forall_forall in K.
  unfold in_range. rewrite HL, HR; auto; intros E; apply Hp; rewrite ?E, ?orb_true_r; done.
Qed.

(** The range that [open] accepts: the values of the bounds are in order, or the same
    and both inclusive. *)
Definition bounds_in_order (left right : option (list Z * Z * bool)) : bool :=
  match left, right with
  | Some (l, _, li), Some (r, _, ri) => let c := kc (attr_compare t n) l r in (c <? 0) || ((c =? 0) && li && ri)
  | _, _ => true
  end.

Lemma bound_compares wl wr l r len len' : bound_ok wl l len → bound_ok wr r len' → is_Some (attr_compare t n l r).
Proof.
  intros [Bl _] [Br _]. unfold attr_compare. destruct t; try done.
  - destruct Bl as (Hn & Hl & _), Br as (_ & Hr & _). unfold set_string. rewrite (proj2 (Z.ltb_lt _ _)) by done.
    destruct (c_strn_nul l (Z.to_nat n) Hl) as [a ->], (c_strn_nul r (Z.to_nat n) Hr) as [b ->]. by eexists.
  - destruct Bl as [Ll Sl _], Br as [Lr Sr _]. destruct (get_i32_Some l 0) as [a Ea]; [lia|]. destruct (get_i32_Some r 0) as [b Eb]; [lia|]. rewrite Ea, Eb. by eexists.
  - destruct Bl as [Ll Sl _], Br as [Lr Sr _]. destruct (get_i32_Some l 0) as [a Ea]; [lia|]. destruct (get_i32_Some r 0) as [b Eb]; [lia|]. rewrite Ea, Eb. by eexists.
Qed.

Lemma valid_range_ok left right : left_ok left → right_ok right → valid_range h left right = Some (bounds_in_order left right).
Proof.
  intros BL BR. destruct left as [[[l len] li]|]; [|done]. destruct right as [[[r len'] ri]|]; [|done].
  destruct (bound_compares _ _ l r len len' (BL _ _ _ eq_refl) (BR _ _ _ eq_refl)) as [c E]. unfold valid_range, bounds_in_order, kc. rewrite E. cbn.
  destruct (Z.ltb_spec 0 c), (Z.eqb_spec c 0), (Z.ltb_spec c 0), li, ri; cbn; (done || lia).
Qed.

(** A value is a bound of itself. *)
Lemma self_in_order k len : bound_ok true k len → bounds_in_order (Some (k, len, true)) (Some (k, len, true)) = true.
Proof.
  intros B. destruct (bound_compares _ _ k k len len B B) as [c E]. unfold bounds_in_order, kc. rewrite E. cbn.
  enough (c = 0) as -> by done. destruct B as [B _]. unfold attr_compare in E. destruct t; try done.
  - destruct (set_string k n) as [a|]; [|done]. cbn in E. injection E as <-. unfold compare_string. rewrite Z.min_id.
    assert (∀ m, strncmp a a m = 0) as ->; [|cbn; by rewrite Z.ltb_irrefl].
    intros m. clear. revert a. induction m as [|m IH]; intros a; [done|]. cbn. rewrite Z.eqb_refl. case_match; [done|apply IH].
  - destruct (get_i32 k 0) as [a|]; [|done]. cbn in E. injection E as <-. rewrite compare_int_sgn. by rewrite Z.sub_diag.
  - destruct (get_i32 k 0) as [a|]; [|done]. cbn in E. injection E as <-. rewrite compare_int_sgn. by rewrite Z.sub_diag.
Qed.

Lemma left_right_ok k len : bound_ok true k len → bound_ok false k len.
Proof. intros [B _]. by split. Qed.

Lemma range_of_value k len it : in_range (Some (k, len, true)) (Some (k, len, true)) it = (item_compare it k len =? 0).
Proof.
  unfold in_range, in_left, in_right. apply Bool.eq_iff_eq_true. rewrite andb_true_iff, !Z.leb_le, Z.eqb_eq. lia.
Qed.
End value.


(** ** [get_entry] *)
Section get_entry.
Context {S : Type} `{!IndexPool S, !IndexPoolLaws S}.
Notation Tree := (Tree S).
Implicit Types (T : Tree) (N : gmap PageNum node) (g : ghost).
Notation kok h := (key_ok (attr_type h) (attr_length h)).

Lemma scan_begins T h l lv free : index_tree T h l lv free → ∃ N g T1, begin_mtr T = Some (tt, T1) ∧ st T1 N g ∧ g_header g = h.
Proof.
  intros (N & dirty & I & _). destruct (begin_ok _ _ _ _ _ _ (idle_mode _ _ _ _ READ_ONLY _ _ I)) as (T1 & E1 & I1 & _).
  by exists N, (idle h READ_ONLY dirty free), T1.
Qed.

Lemma scan_ok fuel left right lb rb T h l lv free :
  index_tree T h l lv free → left_bound_of h left lb → right_bound_of h right rb → valid_range h left right = Some true →
  (lv ≤ fuel)%nat → (length l + 1 ≤ fuel)%nat →
  ∃ N g T', begin_mtr T = Some (tt, T') ∧ st T' N g ∧ scans fuel left right T' N g (scan_result h lb rb l) ∧
    (∀ T2 g2, st T2 N g2 → calm g g2 → ∃ T3, end_mtr None T2 = Some (tt, T3) ∧ index_tree T3 h l lv free).
Proof.
  intros (N & dirty & I & Hcase) Hlb Hrb Hv Hlv Hfuel.
  destruct (begin_ok _ _ _ _ _ _ (idle_mode _ _ _ _ READ_ONLY _ _ I)) as (T1 & E1 & I1 & _). set (g := idle h READ_ONLY dirty free) in *.
  exists N, g, T1. split_and!; [done|done| |].
  - destruct Hcase as [(Hroot & -> & ->)|(W & HT & <- & <-)]; [by apply (scan_empty _ _ _ lb)|].
    assert (tree_in N g W) as HT' by (by apply (tree_in_header N (idle h READ_WRITE dirty free))).
    assert (planted T1 N g W) as HP by (by apply tree_in_planted). destruct left as [[[k len] incl]|].
    + destruct Hlb as (lk & Elk & -> & Ok). by apply (scan_from fuel k len incl lk right rb T1 N g W).
    + rewrite Hlb. by apply (scan_left_most fuel right rb T1 N g W).
  - intros T2 g2 I2 C. destruct C as [C1 C2 C3 C4 C5 C6 C7 C8]. cbn in *.
    destruct (memo_release_ok T2 N g2 I2 C2) as (T3 & dy & E3 & I3); rewrite ?C5; [constructor|by intros ? ?%not_elem_of_nil|done|].
    exists T3. split; [unfold end_mtr; by erewrite (bind_run (mret tt)) by done|]. exists N, dy. split; [|].
    + apply (idle_mode T3 N h READ_ONLY). rewrite C1, C3, C4, C5, C6, C8 in I3. unfold idle.
      by replace (∅ ∖ list_to_set [] : gset PageNum) with (∅ : gset PageNum) in I3 by set_solver.
    + destruct Hcase as [?|(W & HT & El & Ev)]; [by left|]. right. exists W. split_and!; [|done|done]. by apply (tree_in_header N (idle h READ_WRITE dirty free)).
Qed.

Lemma get_entry_run fuel T h l lv free user_key len lk rk :
  index_tree T h l lv free → left_bound h user_key len true = Some lk → right_bound h user_key len true = Some rk → kok h lk → kok h rk →
  valid_range h (Some (user_key, len, true)) (Some (user_key, len, true)) = Some true → (lv ≤ fuel)%nat → (length l + 1 ≤ fuel)%nat →
  ∃ T', get_entry fuel user_key len T = Some ((RC.SUCCESS, scan_result h (Some lk) (Some rk) l), T') ∧ index_tree T' h l lv free.
Proof.
  intros HT El Er Hl Hr Hv Hlv Hfuel.
  destruct (scan_ok fuel (Some (user_key, len, true)) (Some (user_key, len, true)) (Some lk) (Some rk) T h l lv free HT) as (N & g & T1 & E1 & I1 & (s & T2 & T3 & g3 & E2 & E3 & I3 & C3) & Hend);
    [by exists lk|by exists rk|done|done|done|].
  destruct (Hend T3 g3 I3 C3) as (T4 & E4 & HT4). exists T4. split; [|done]. unfold get_entry. rewrite (exec E1), (exec E2).
  change (RC.OB_FAIL RC.SUCCESS) with false. cbn iota. rewrite (exec E3), (exec E4). done.
Qed.
End get_entry.
