(* ===== verification/IndexBody.v ===== *)
(** * The bodies of nodes

    A node of any level is a page with a list of elements: items in a leaf, children
    with their keys in an internal node.  Order, contents and pages of a node in terms
    of its elements, and what moving elements between two neighbors does to the nodes
    of a file, for both kinds of nodes at once. *)

From stdpp Require Import sorting.
From S2P Require Import Prelude Types Bytes RecordPage IndexKey IndexNode IndexNodeSpec IndexPool IndexNodeOps IndexTree.
Local Open Scope Z_scope.

(** ** Elements *)
Definition elt (lv : nat) : Type := match lv with O => list Z | S lv => kid lv end.
Definition mk {lv} : PageNum → list (elt lv) → tree lv := match lv with O => pair | S _ => pair end.
Definition body {lv} : tree lv → list (elt lv) := match lv with O => snd | S _ => snd end.
Definition at_leaves (lv : nat) : bool := match lv with O => true | S _ => false end.

Definition elt_item {lv} : elt lv → list Z := match lv with O => λ it, it | S _ => λ x, kid_item (kid_ref x) end.
Definition elt_key (h : IndexFileHeader) {lv} : elt lv → list Z := match lv with O => item_key h | S _ => fst end.
Definition elt_root {lv} : elt lv → list PageNum := match lv with O => λ _, [] | S _ => λ x, [page_of x.2] end.
Definition elt_pages {lv} : elt lv → list PageNum := match lv with O => λ _, [] | S _ => λ x, tree_pages x.2 end.
Definition elt_flat {lv} : elt lv → list (list Z) := match lv with O => λ it, [it] | S _ => λ x, flat x.2 end.
Definition elt_leaves {lv} : elt lv → list PageNum := match lv with O => λ _, [] | S _ => λ x, leaves x.2 end.
Definition elt_holds (N : gmap PageNum node) (p : PageNum) {lv} : elt lv → Prop :=
  match lv with O => λ _, True | S _ => λ x, holds N p x.2 end.

Definition items_of {lv} (xs : list (elt lv)) : list (list Z) := elt_item <$> xs.
Definition roots_of {lv} (xs : list (elt lv)) : list PageNum := flat_map elt_root xs.
Definition pages_of {lv} (xs : list (elt lv)) : list PageNum := flat_map elt_pages xs.
#[global] Arguments items_of : simpl never.
#[global] Arguments roots_of : simpl never.
#[global] Arguments pages_of : simpl never.

Section shape.
Context {lv : nat}.
Implicit Types (t : tree lv) (xs ys : list (elt lv)).

Lemma mk_body t : mk (page_of t) (body t) = t.
Proof. by destruct lv, t. Qed.
Lemma page_mk p xs : page_of (mk p xs) = p.
Proof. by destruct lv. Qed.
Lemma body_mk p xs : body (mk p xs) = xs.
Proof. by destruct lv. Qed.

Lemma flat_mk p xs : flat (mk p xs) = flat_map elt_flat xs.
Proof. destruct lv; [|done]. cbn. induction xs as [|x xs IH]; [done|]. cbn in *. by rewrite <-IH. Qed.
Lemma leaves_mk p xs : leaves (mk p xs) = (if at_leaves lv then [p] else []) ++ flat_map elt_leaves xs.
Proof. destruct lv; cbn; [|done]. by induction xs as [|x xs IH]. Qed.
Lemma pages_mk p xs : tree_pages (mk p xs) = p :: pages_of xs.
Proof. destruct lv; cbn; [|done]. unfold pages_of. f_equal. by induction xs as [|x xs IH]. Qed.

Lemma pages_body t : tree_pages t = page_of t :: pages_of (body t).
Proof. by rewrite <-(pages_mk (page_of t)), mk_body. Qed.
Lemma flat_body t : flat t = flat_map elt_flat (body t).
Proof. by rewrite <-(flat_mk (page_of t)), mk_body. Qed.

Lemma holds_mk N par p xs : holds N par (mk p xs) ↔
  (∃ nx, N !! p = Some (mkNode (at_leaves lv) par nx (items_of xs))) ∧ ∀ x, x ∈ xs → elt_holds N p x.
Proof.
  unfold items_of. destruct lv; cbn.
  - rewrite list_fmap_id. naive_solver.
  - unfold kid_items. rewrite <-list_fmap_compose. done.
Qed.

Lemma items_app xs ys : items_of (xs ++ ys) = items_of xs ++ items_of ys.
Proof. apply fmap_app. Qed.
Lemma items_len xs : length (items_of xs) = length xs.
Proof. apply length_fmap. Qed.
Lemma pages_app xs ys : pages_of (xs ++ ys) = pages_of xs ++ pages_of ys.
Proof. apply flat_map_app. Qed.

Lemma pages_elem xs x q : x ∈ xs → q ∈ elt_pages x → q ∈ pages_of xs.
Proof. intros Hx Hq. apply list_elem_of_In, in_flat_map. exists x. by rewrite <-!list_elem_of_In. Qed.
Lemma pages_inv xs q : q ∈ pages_of xs → ∃ x, x ∈ xs ∧ q ∈ elt_pages x.
Proof. intros (x & Hx & Hq)%list_elem_of_In%in_flat_map. exists x. by rewrite !list_elem_of_In. Qed.
Lemma root_page_in (x : elt lv) q : q ∈ elt_root x → q ∈ elt_pages x.
Proof. destruct lv; cbn; [done|]. intros ->%list_elem_of_singleton. apply page_of_elem. Qed.
Lemma roots_pages_of xs q : q ∈ roots_of xs → q ∈ pages_of xs.
Proof.
  intros (x & Hx & Hq)%list_elem_of_In%in_flat_map. apply (pages_elem xs x); [by apply list_elem_of_In|]. by apply root_page_in, list_elem_of_In.
Qed.
Lemma pages_perm xs ys : xs ≡ₚ ys → pages_of xs ≡ₚ pages_of ys.
Proof. intros E. unfold pages_of. by rewrite E. Qed.

Lemma elts_leaves_pages xs q : q ∈ flat_map elt_leaves xs → q ∈ pages_of xs.
Proof.
  intros (x & Hx & Hq)%list_elem_of_In%in_flat_map. apply (pages_elem xs x); [by apply list_elem_of_In|]. apply list_elem_of_In in Hq. clear Hx.
  destruct lv; [done|]. by apply leaves_pages.
Qed.
Lemma no_leaves xs : at_leaves lv = true → flat_map elt_leaves xs = [].
Proof. destruct lv; [|done]. intros _. by induction xs. Qed.

Lemma elt_frame N N' p (x : elt lv) : (∀ q, q ∈ elt_pages x → N' !! q = N !! q) → elt_holds N p x → elt_holds N' p x.
Proof. destruct lv; cbn; [done|]. apply holds_frame. Qed.

Lemma elt_holds_in N p (x : elt lv) q : elt_holds N p x → q ∈ elt_pages x → is_Some (N !! q).
Proof. destruct lv; cbn; [by intros _ ?%not_elem_of_nil|]. apply holds_in. Qed.
End shape.

(** Elements that go to another parent. *)
Lemma reparent_elts N p q {lv} (xs : list (elt lv)) :
  NoDup (pages_of xs) → (∀ x, x ∈ xs → elt_holds N p x) → ∀ x, x ∈ xs → elt_holds (reparent q (roots_of xs) N) q x.
Proof.
  destruct lv as [|lv]; [done|]. intros Hnd Hh x Hx.
  assert (roots_of xs = roots xs) as ->.
  { unfold roots_of, roots. induction xs as [|y xs IH]; [done|]. cbn in *. f_equal. clear. by induction xs as [|y xs IH]; cbn; [|f_equal]. }
  by apply (reparent_kids N p q xs).
Qed.

(** ** Moving elements [zs] from [p] to its neighbor [q] *)
Definition moved_nodes (N : gmap PageNum node) (p q : PageNum) (n m : node) {lv} (xs' ys' zs : list (elt lv)) : gmap PageNum node :=
  <[p := with_items (items_of xs') n]> (reparent q (roots_of zs) (<[q := with_items (items_of ys') m]> N)).

Section moved.
Context {lv : nat} (N : gmap PageNum node) (par p q : PageNum) (n m : node) (xs ys xs' ys' zs : list (elt lv)).
Context (Hn : N !! p = Some n) (Hm : N !! q = Some m).
Context (Hx : ∀ x, x ∈ xs → elt_holds N p x) (Hy : ∀ y, y ∈ ys → elt_holds N q y).
Context (Ex : xs ≡ₚ zs ++ xs') (Ey : ys' ≡ₚ ys ++ zs) (Hnd : NoDup (p :: q :: pages_of xs ++ pages_of ys)).
Notation N' := (moved_nodes N p q n m xs' ys' zs).

Lemma moved_distinct : p ≠ q ∧ p ∉ pages_of zs ∧ q ∉ pages_of zs ∧ NoDup (pages_of zs) ∧
  (∀ r, r ∈ pages_of xs' ++ pages_of ys → r ≠ p ∧ r ≠ q ∧ r ∉ pages_of zs) ∧ (∀ r, r ∈ pages_of zs → r ≠ p ∧ r ≠ q).
Proof using Ex Hnd.
  rewrite (pages_perm _ _ Ex), pages_app in Hnd. apply list.NoDup_cons in Hnd as [H1 (H2 & H3)%list.NoDup_cons].
  rewrite elem_of_cons, !elem_of_app in H1. rewrite !elem_of_app in H2. rewrite <-app_assoc in H3. apply list.NoDup_app in H3 as (H3 & H4 & H5).
  split_and!; try tauto.
  - intros r Hr. split_and!; [intros ->; rewrite elem_of_app in Hr; tauto|intros ->; rewrite elem_of_app in Hr; tauto|]. intros Hz. by apply (H4 r).
  - intros r Hr. split; intros ->; tauto.
Qed.

Lemma moved_other r : r ≠ p → r ≠ q → r ∉ pages_of zs → N' !! r = N !! r.
Proof using.
  intros H1 H2 H3. unfold moved_nodes. rewrite lookup_insert_ne by done. rewrite reparent_other by (intros H; by apply H3, roots_pages_of).
  by rewrite lookup_insert_ne.
Qed.

Lemma moved_p : N' !! p = Some (with_items (items_of xs') n).
Proof using. apply lookup_insert_eq. Qed.

Lemma moved_q : N' !! q = Some (with_items (items_of ys') m).
Proof using Ex Hnd.
  destruct moved_distinct as (Hne & _ & Hqz & _). unfold moved_nodes. rewrite lookup_insert_ne by done.
  rewrite reparent_other by (intros H; by apply Hqz, roots_pages_of). by rewrite lookup_insert_eq.
Qed.

Lemma moved_next : same_next N N'.
Proof using Hn Hm Ex Hnd.
  destruct moved_distinct as (Hne & Hpz & _). unfold moved_nodes.
  eapply same_next_trans; [by apply (same_next_insert N q m (with_items (items_of ys') m))|].
  eapply same_next_trans; [apply same_next_reparent|]. apply (same_next_insert _ p n); [|done].
  rewrite reparent_other by (intros H; by apply Hpz, roots_pages_of). by rewrite lookup_insert_ne.
Qed.

Lemma moved_elts : (∀ x, x ∈ xs' → elt_holds N' p x) ∧ (∀ y, y ∈ ys' → elt_holds N' q y).
Proof using Hx Hy Ex Ey Hnd.
  destruct moved_distinct as (Hne & Hpz & Hqz & Hz & H1 & H2). split.
  - intros x Hin. apply (elt_frame N); [|apply Hx; rewrite Ex; apply elem_of_app; by right]. intros r Hr.
    destruct (H1 r) as (? & ? & ?); [apply elem_of_app; left; by apply (pages_elem xs' x)|]. by apply moved_other.
  - intros y Hin. rewrite Ey in Hin. apply elem_of_app in Hin as [Hin|Hin].
    + apply (elt_frame N); [|by apply Hy]. intros r Hr. destruct (H1 r) as (? & ? & ?); [apply elem_of_app; right; by apply (pages_elem ys y)|]. by apply moved_other.
    + unfold moved_nodes. apply (elt_frame (reparent q (roots_of zs) (<[q := with_items (items_of ys') m]> N))).
      { intros r Hr. rewrite lookup_insert_ne; [done|]. intros E. destruct (H2 r) as [? _]; [by apply (pages_elem zs y)|]. done. }
      apply (reparent_elts _ p); [done| |done]. intros z Hzin. apply (elt_frame N); [|apply Hx; rewrite Ex; apply elem_of_app; by left].
      intros r Hr. rewrite lookup_insert_ne; [done|]. intros E. destruct (H2 r) as [_ ?]; [by apply (pages_elem zs z)|]. done.
Qed.

(** The two nodes keep their parent. *)
Lemma moved_holds : nd_leaf n = at_leaves lv → nd_leaf m = at_leaves lv → nd_parent n = par → nd_parent m = par →
  holds N' par (mk p xs') ∧ holds N' par (mk q ys').
Proof using Hx Hy Ex Ey Hnd.
  intros E1 E2 E3 E4. destruct moved_elts as [HX HY]. rewrite !holds_mk. split; (split; [|done]).
  - exists (nd_next n). rewrite moved_p. unfold with_items. by rewrite E1, E3.
  - exists (nd_next m). rewrite moved_q. unfold with_items. by rewrite E2, E4.
Qed.
End moved.

(** ** Order *)
Section order.
Context (h : IndexFileHeader) (HI : index_ok h).
Context (cmp : list Z → list Z → option Z) (ok : list Z → Prop) `{!KeyOrder cmp ok}.
Notation bound := (option (list Z)).
Implicit Types (lo hi : bound).

Definition fills lo hi {lv} : list (elt lv) → Prop :=
  match lv with
  | O => λ xs, in_order h cmp ok lo hi xs ∧ bound_ok ok lo ∧ bound_ok ok hi
  | S _ => λ xs, kids_wf h cmp ok lo xs hi
  end.
Definition node_min (root : bool) (leaf : bool) : Z := if leaf then leaf_min h root else internal_min h root.

Lemma wf_mk root lo hi {lv} p (xs : list (elt lv)) :
  wf h cmp ok root lo hi (mk p xs) ↔ node_min root (at_leaves lv) ≤ Z.of_nat (length xs) ≤ max_size h (at_leaves lv) ∧ fills lo hi xs.
Proof.
  destruct lv; cbn; [|done]. split.
  - intros (H1 & H2 & H3 & H4 & H5 & H6). by split_and!; [apply H1|apply H1| | |].
  - intros (H1 & [H2 H3 H4] & H5 & H6). done.
Qed.

Lemma fills_bounds lo hi {lv} (xs : list (elt lv)) : xs ≠ [] → fills lo hi xs → bound_ok ok lo ∧ bound_ok ok hi ∧ ∃ k, ok k ∧ within cmp lo hi k.
Proof using HI KeyOrder0.
  destruct lv; cbn.
  - intros Hne ([_ K R] & H1 & H2). split_and!; try done. destruct xs as [|x xs]; [done|]. exists (item_key h x).
    unfold keys_ok in K. apply list.Forall_cons in K as [K _], R as [R _]. done.
  - intros _. apply (segment_bounds h HI cmp ok).
Qed.

Lemma fills_join lo k hi {lv} (xs ys : list (elt lv)) : xs ≠ [] → ys ≠ [] → fills lo (Some k) xs → fills (Some k) hi ys → fills lo hi (xs ++ ys).
Proof using HI KeyOrder0.
  intros Hx Hy Fx Fy. destruct (fills_bounds _ _ _ Hx Fx) as (Bl & Bk & a & Oa & [A1 A2]). destruct (fills_bounds _ _ _ Hy Fy) as (_ & Bh & b & Ob & [B1 B2]).
  cbn in Bk, A2, B1. destruct lv; cbn in *.
  - destruct Fx as [Ix _], Fy as [Iy _]. split_and!; [|done|done]. apply (in_order_app h cmp ok lo k hi); try done.
    + destruct lo as [c|]; [|done]. cbn. pose proof (kc_le_lt cmp ok c a k Bl Oa Bk A1 A2). lia.
    + destruct hi as [c|]; [|done]. cbn in *. pose proof (kc_le_lt cmp ok k b c Bk Ob Bh B1 B2). lia.
  - destruct ys as [|[k' t] ys]; [done|]. assert (k = k') as ->.
    { cbn in Fy. destruct Fy as [[?|[= <-]] _]; done. }
    by apply segment_app.
Qed.

Lemma fills_cut lo hi {lv} (xs : list (elt lv)) x ys : xs ≠ [] → fills lo hi (xs ++ x :: ys) →
  fills lo (Some (elt_key h x)) xs ∧ fills (Some (elt_key h x)) hi (x :: ys).
Proof using HI KeyOrder0.
  intros Hx. destruct lv; cbn.
  - intros (Io & Bl & Bh). destruct (in_order_split h cmp ok lo hi xs x ys Bl Bh Io) as [I1 I2]. split_and!; try done.
    all: destruct I2 as [_ K _]; unfold keys_ok in K; by apply list.Forall_cons in K as [K _].
  - destruct x as [k t]. cbn. intros Hs. by apply segment_app in Hs.
Qed.

(** The key of an element behind the first is inside the bounds. *)
Lemma fills_key lo hi {lv} (xs : list (elt lv)) x : (at_leaves lv = true ∨ xs ≠ []) → fills lo hi (xs ++ [x]) → ok (elt_key h x) ∧ within cmp lo hi (elt_key h x).
Proof using HI KeyOrder0.
  destruct lv; cbn.
  - intros _ ([_ K R] & _). unfold keys_ok in K. apply Forall_app in K as [_ K], R as [_ R]. by apply list.Forall_cons in K as [K _], R as [R _].
  - intros [?|Hx] Hs; [done|]. destruct xs as [|[k0 t0] xs]; [done|]. destruct (segment_sorted h HI cmp ok lo (@app (kid lv) xs [x]) hi k0 t0 Hs) as (_ & O1 & F1).
    rewrite (fmap_app (A := kid lv)) in O1, F1. apply Forall_app in O1 as [_ O1], F1 as [_ F1]. apply list.Forall_cons in O1 as [O1 _], F1 as [[F1 F2] _]. split; [done|]. split; [|done].
    destruct lo as [b|]; [|done]. cbn in *. lia.
Qed.
End order.
