(* ===== verification/IndexPair.v ===== *)
(** * Nodes that give and take elements

    The ghost records of a deletion, the methods that move elements between two
    neighbors for both kinds of nodes, and the search of a child in its parent.  Then
    taking one element from a neighbor and merging two neighbors, as [redistribute] and
    [coalesce] of [bplus_tree.cpp] do, on a tree in which one node may be too small. *)

From stdpp Require Import sorting.
From S2P Require Import Prelude Types Bytes RecordPage IndexKey IndexNode IndexNodeSpec IndexPool IndexLog BplusTree IndexLaws IndexSteps IndexRoot IndexNodeOps IndexTree IndexFind IndexInsert IndexBody.
Local Open Scope Z_scope.

(** ** What a deletion changes of the ghost record *)
Record works (g g' : ghost) : Prop := {
  wk_header : g_header g' = g_header g;
  wk_items : ∃ l, g_items g' = g_items g ++ l;
  wk_extra : g_extra g' = g_extra g;
  wk_mode : g_mode g' = g_mode g;
  wk_lock : g_lock g' = g_lock g;
  wk_disposed : g_disposed g' = g_disposed g;
  wk_raw : g_raw g' = g_raw g;
  wk_free : g_free g' = g_free g
}.

(** Pages that are disposed of at the end are no nodes any more. *)
Definition disposed_ok (g : ghost) : Prop := NoDup (g_disposed g) ∧ g_raw g = list_to_set (g_disposed g).

Record trims (g g' : ghost) : Prop := {
  tr_header : ∃ r, g_header g' = set_root_page r (g_header g);
  tr_extra : g_extra g' = g_extra g;
  tr_mode : g_mode g' = g_mode g;
  tr_lock : g_lock g' = g_lock g;
  tr_disposed : disposed_ok g → disposed_ok g';
  tr_free : g_free g' = g_free g
}.

Lemma works_refl g : works g g.
Proof. split; try done. exists []. by rewrite app_nil_r. Qed.
Lemma works_trans g1 g2 g3 : works g1 g2 → works g2 g3 → works g1 g3.
Proof. intros [? [l1 E1] ? ? ? ? ? ?] [? [l2 E2] ? ? ? ? ? ?]. split; try congruence. exists (l1 ++ l2). by rewrite E2, E1, app_assoc. Qed.
Lemma works_touch p g : works g (touch p g).
Proof. split; try done. exists []. by rewrite app_nil_r. Qed.
Lemma works_soil p g : works g (soil p g).
Proof. split; try done. exists []. by rewrite app_nil_r. Qed.
Lemma works_push i g : works g (push i g).
Proof. split; try done. by exists [i]. Qed.
Lemma works_held cs g : works g (held cs g).
Proof. destruct (held_grows cs g) as [? ? ? ? ? ? ? ? ? Hf]. split; try done. Qed.
Lemma works_moved p q cs g : works g (touch p (held cs (touch q g))).
Proof. eapply works_trans; [apply (works_touch q)|]. eapply works_trans; [apply (works_held cs)|]. apply works_touch. Qed.
Lemma works_pinned g g' p : works g g' → pinned g p → pinned g' p.
Proof. intros [_ [l E] X _ _ _ _ _] [Hp|Hp]; [left; rewrite E; apply elem_of_app; by left|right; by rewrite X]. Qed.
Lemma works_trims g g' : works g g' → trims g g'.
Proof.
  intros [E ? ? ? ? Ed Er ?]. split; try done; [exists (root_page (g_header g)); rewrite E; apply header_eta|]. unfold disposed_ok. by rewrite Ed, Er.
Qed.
Lemma trims_refl g : trims g g.
Proof. apply works_trims, works_refl. Qed.
Lemma trims_trans g1 g2 g3 : trims g1 g2 → trims g2 g3 → trims g1 g3.
Proof. intros [[r E1] ? ? ? ? ?] [[r' E2] ? ? ? ? ?]. split; try congruence; [|auto]. exists r'. by rewrite E2, E1. Qed.

Section merging.
Context {S : Type} `{!IndexPool S, !IndexPoolLaws S}.
Notation Tree := (Tree S).
Implicit Types (T : Tree) (N : gmap PageNum node) (g : ghost) (p q : PageNum) (n m : node).
Notation kcmp h := (comparator h).
Notation kok h := (key_ok (attr_type h) (attr_length h)).

(** Where no frame is dropped, nothing is loose. *)
Definition tight g : ghost :=
  mkGhost (g_header g) (g_items g) (g_extra g) (g_mode g) (g_lock g) (g_disposed g) (g_raw g) (g_dirty g) ∅ (g_free g).
Lemma tighten `{!KeepsFrames S} T N g : st T N g → st T N (tight g).
Proof.
  intros I. pose proof (kf_loose S _ (s_inv _ _ _ I)) as E. destruct I. split; try done. cbn. by rewrite E.
Qed.

Lemma trims_dispose T N g p n : st T N g → N !! p = Some n →
  trims g (with_disposed (g_disposed g ++ [p]) (with_raw ({[p]} ∪ g_raw g) (g_free g) g)).
Proof.
  intros I Hn. split; try done; [exists (root_page (g_header g)); apply header_eta|]. intros [Hd Hr]. split; cbn.
  - apply list.NoDup_app. split_and!; [done| |apply NoDup_singleton]. intros q Hq ->%list_elem_of_singleton.
    destruct (s_raw _ _ _ I p) as (_ & Hn' & _); [rewrite Hr; by apply elem_of_list_to_set|]. congruence.
  - rewrite Hr, list_to_set_app_L. cbn. set_solver.
Qed.

(** ** Reading the elements of a node *)
Lemma elt_item_key h {lv} (x : elt lv) : index_ok h → item_ok h (at_leaves lv) (elt_item x) → item_key h (elt_item x) = elt_key h x.
Proof. intros HI. destruct lv; cbn; [done|]. intros Hok. by apply (kid_item_key h HI (kid_ref x)). Qed.

Lemma elts_ok T N g p n {lv} (xs : list (elt lv)) : st T N g → N !! p = Some n → nd_leaf n = at_leaves lv → nd_items n = items_of xs →
  ∀ x, x ∈ xs → item_ok (g_header g) (at_leaves lv) (elt_item x).
Proof.
  intros I Hn El Ei x Hx. destruct (s_nodes _ _ _ I p n Hn) as (d & _ & R). pose proof (rep_items _ _ _ R) as Hok. rewrite El, Ei in Hok.
  unfold items_of in Hok. rewrite Forall_fmap, list.Forall_forall in Hok. by apply Hok.
Qed.

Lemma read_elt_key T N g p n {lv} (xs : list (elt lv)) i x :
  st T N g → pinned g p → N !! p = Some n → nd_leaf n = at_leaves lv → nd_items n = items_of xs → xs !! i = Some x →
  read p (λ d, key_at (g_header g) (kind (at_leaves lv)) d (Z.of_nat i)) T = Some (elt_key (g_header g) x, T).
Proof.
  intros I Hp Hn El Ei Hx. pose proof (s_index _ _ _ I) as HI. destruct (read_page T N g p n I Hp Hn) as (d & R & Hrd). apply Hrd.
  assert (nd_items n !! i = Some (elt_item x)) as Hi by (rewrite Ei; unfold items_of; by rewrite list_lookup_fmap, Hx).
  rewrite <-El, (rep_key_at _ HI n d i _ R Hi). f_equal. apply elt_item_key; [done|]. apply (elts_ok T N g p n xs I Hn El Ei). by eapply list_elem_of_lookup_2.
Qed.

(** The children of an internal node as the node handlers see them. *)
Lemma kids_refs T N g p n {lv} (xs : list (kid lv)) : st T N g → N !! p = Some n → nd_leaf n = false → nd_items n = items_of (lv := Datatypes.S lv) xs →
  (∀ x, x ∈ xs → ∃ par, holds N par x.2) → Forall (kid_ok (g_header g)) (kid_ref <$> xs) ∧ Forall (λ x : list Z * PageNum, is_Some (N !! x.2)) (kid_ref <$> xs).
Proof.
  intros I Hn El Ei Hh. rewrite !Forall_fmap, !list.Forall_forall. split.
  - intros x Hx. pose proof (elts_ok T N g p n (lv := Datatypes.S lv) xs I Hn El Ei x Hx) as Hok.
    destruct (kid_item_key _ (s_index _ _ _ I) (kid_ref x) Hok) as (_ & H1 & H2). split_and!; [done|done|].
    destruct (Hh x Hx) as (par & H). destruct (holds_page N par x.2 H) as (m & Hm & _). by apply (st_page_range _ _ _ _ _ I Hm).
  - intros x Hx. destruct (Hh x Hx) as (par & H). destruct (holds_page N par x.2 H) as (m & Hm & _). by exists m.
Qed.

Lemma elt_roots_refs {lv} (xs : list (kid lv)) : roots_of (lv := Datatypes.S lv) xs = (kid_ref <$> xs).*2.
Proof. unfold roots_of. induction xs as [|x xs IH]; [done|]. cbn in *. by rewrite IH. Qed.
Lemma elt_items_refs {lv} (xs : list (kid lv)) : items_of (lv := Datatypes.S lv) xs = kid_item <$> (kid_ref <$> xs).
Proof. unfold items_of. by rewrite <-list_fmap_compose. Qed.

(** ** Moving elements between neighbors *)
Section move.
Context {lv : nat} T N g p n q m (xs ys : list (elt lv)).
Context (I : st T N g) (Hp : pinned g p) (Hn : N !! p = Some n) (Eln : nd_leaf n = at_leaves lv) (Ein : nd_items n = items_of xs).
Context (Hq : pinned g q) (Hm : N !! q = Some m) (Elm : nd_leaf m = at_leaves lv) (Eim : nd_items m = items_of ys).
Context (Hx : ∀ x, x ∈ xs → elt_holds N p x) (Hnd : NoDup (p :: q :: pages_of xs ++ pages_of ys)).

Lemma move_ne : p ≠ q.
Proof using Hnd. apply list.NoDup_cons in Hnd as [H _]. intros E. apply H. rewrite E. left. Qed.

Lemma move_first_ok x xs' : xs = x :: xs' → Z.of_nat (length ys) < max_size (g_header g) (at_leaves lv) →
  ∃ T' g', move_first_to_end (kind (at_leaves lv)) p q T = Some (RC.SUCCESS, T') ∧ works g g' ∧ st T' (moved_nodes N p q n m xs' (ys ++ [x]) [x]) g'.
Proof using I Hp Hn Eln Ein Hq Hm Elm Eim Hx Hnd.
  intros E Hmax. pose proof move_ne as Hne. subst xs. destruct lv as [|lv']; cbn [kind at_leaves move_first_to_end] in *.
  - destruct (leaf_move_first_ok T N g p n q m I Hp Hn Eln Hq Hm Elm Hne (elt_item x) (items_of xs')) as (T' & E & I'); [done|by rewrite Eim, items_len|].
    eexists T', _. split; [exact E|]. split; [|unfold moved_nodes; rewrite items_app, <-Eim; exact I'].
    eapply works_trans; [apply (works_touch q)|apply works_touch].
  - destruct (kids_refs T N g p n (x :: xs') I Hn Eln Ein) as [K1 K2]; [intros y Hy; exists p; by apply Hx|].
    apply list.Forall_cons in K1 as [K1 _], K2 as [K2 _].
    destruct (internal_move_first_ok T N g p n q m (kid_ref x) (items_of xs') I Hp Hn Eln Hq Hm Elm Hne) as (T' & E & I'); try done.
    + by apply (st_page_range _ _ _ _ _ I Hm).
    + intros E. apply list.NoDup_cons in Hnd as [H _]. apply H. right. apply elem_of_app. left. rewrite <-E.
      apply (pages_elem (lv := Datatypes.S lv') (x :: xs') x); [left|]. apply page_of_elem.
    + rewrite Eim, items_len. exact Hmax.
    + eexists T', _. split; [exact E|]. split; [|unfold moved_nodes; rewrite items_app, <-Eim; exact I']. apply works_moved.
Qed.

Lemma move_last_ok x xs' : xs = xs' ++ [x] → Z.of_nat (length ys) < max_size (g_header g) (at_leaves lv) →
  ∃ T' g', move_last_to_front (kind (at_leaves lv)) p q T = Some (RC.SUCCESS, T') ∧ works g g' ∧ st T' (moved_nodes N p q n m xs' (x :: ys) [x]) g'.
Proof using I Hp Hn Eln Ein Hq Hm Elm Eim Hx Hnd.
  intros E Hmax. pose proof move_ne as Hne. subst xs. rewrite items_app in Ein. destruct lv as [|lv']; cbn [kind at_leaves move_last_to_front] in *.
  - destruct (leaf_move_last_ok T N g p n q m I Hp Hn Eln Hq Hm Elm Hne (elt_item x) (items_of xs')) as (T' & E & I'); [done|by rewrite Eim, items_len|].
    eexists T', _. split; [exact E|]. split; [|unfold moved_nodes; rewrite Eim in I'; exact I'].
    eapply works_trans; [apply (works_touch q)|apply works_touch].
  - destruct (kids_refs T N g p n (xs' ++ [x]) I Hn Eln) as [K1 K2]; [by rewrite Ein, <-items_app|intros y Hy; exists p; by apply Hx|].
    rewrite (fmap_app (A := kid lv')) in K1, K2. apply Forall_app in K1 as [_ K1], K2 as [_ K2]. apply list.Forall_cons in K1 as [K1 _], K2 as [K2 _].
    destruct (internal_move_last_ok T N g p n q m (kid_ref x) (items_of xs') I Hp Hn Eln Hq Hm Elm Hne) as (T' & E & I'); try done.
    + by apply (st_page_range _ _ _ _ _ I Hm).
    + intros E. apply list.NoDup_cons in Hnd as [H _]. apply H. right. apply elem_of_app. left. rewrite <-E.
      apply (pages_elem (lv := Datatypes.S lv') (xs' ++ [x]) x); [apply elem_of_app; right; left|]. apply page_of_elem.
    + rewrite Eim, items_len. exact Hmax.
    + eexists T', _. split; [exact E|]. split; [|unfold moved_nodes; rewrite Eim in I'; exact I']. apply works_moved.
Qed.

(** A leaf hands its successor on as well. *)
Definition joined : node := if at_leaves lv then with_next (nd_next n) m else m.

Lemma move_to_ok : Z.of_nat (length ys + length xs) ≤ max_size (g_header g) (at_leaves lv) →
  ∃ T' g', move_to (kind (at_leaves lv)) p q T = Some (RC.SUCCESS, T') ∧ works g g' ∧ st T' (moved_nodes N p q n joined [] (ys ++ xs) xs) g'.
Proof using I Hp Hn Eln Ein Hq Hm Elm Eim Hx Hnd.
  intros Hmax. pose proof move_ne as Hne. unfold joined. destruct lv as [|lv']; cbn [kind at_leaves move_to] in *.
  - destruct (leaf_move_to_ok T N g p n q m I Hp Hn Eln Hq Hm Elm Hne) as (T' & E & I'); [by rewrite Ein, Eim, !items_len|].
    eexists T', _. split; [exact E|]. split; [eapply works_trans; [apply (works_touch q)|apply works_touch]|].
    unfold moved_nodes. rewrite Ein, Eim, <-items_app in I'. unfold with_next, with_items in *. cbn in I' |- *.
    assert (roots_of (lv := 0) xs = []) as -> by (clear; unfold roots_of; by induction xs). exact I'.
  - destruct (kids_refs T N g p n xs I Hn Eln Ein) as [K1 K2]; [intros y Hy; exists p; by apply Hx|].
    destruct (internal_move_to_ok T N g p n q m I Hp Hn Eln Hq Hm Elm Hne) with (l := kid_ref <$> xs) as (T' & E & I').
    + by apply (st_page_range _ _ _ _ _ I Hm).
    + done.
    + apply list.Forall_forall. intros y Hy. rewrite list.Forall_forall in K2. split; [by apply K2|]. apply list_elem_of_fmap in Hy as (x & -> & Hy).
      intros E. apply list.NoDup_cons in Hnd as [H _]. apply H. right. apply elem_of_app. left. rewrite <-E. apply (pages_elem (lv := Datatypes.S lv') xs x); [done|]. apply page_of_elem.
    + by rewrite Ein, elt_items_refs.
    + rewrite Eim, items_len, length_fmap. exact Hmax.
    + eexists T', _. split; [exact E|]. split; [apply works_moved|]. unfold moved_nodes. rewrite items_app, <-Eim, (elt_items_refs xs), elt_roots_refs. exact I'.
Qed.
End move.

(** ** The child in its parent *)
Lemma lookup_child h {lv} (kw := λ lo hi (t : tree lv), wf h (kcmp h) (kok h) false lo hi t) n d lo0 (l : list (kid lv)) k t r hi0 lo hi key :
  index_ok h → rep h n d → nd_leaf n = false → nd_items n = kid_items (l ++ (k, t) :: r) → left_of kw lo0 l k lo → kw lo hi t → right_of kw hi r hi0 →
  kok h key → within (kcmp h) lo hi key →
  ∃ pos, internal_lookup h (kcmp h) d key = Some (Z.of_nat (length l), pos).
Proof.
  intros HI R El Ei Hl Ht Hr Ok [W1 W2]. assert (kids_wf h (kcmp h) (kok h) lo0 (l ++ (k, t) :: r) hi0) as Hs by (apply segment_focus; by exists lo, hi).
  pose proof (rep_items h n d R) as Hok. rewrite El, Ei in Hok.
  assert (∃ x R1, l ++ [(k, t)] = x :: R1 ∧ length R1 = length l) as ([kx tx] & R1 & Ex & Hlen).
  { destruct l as [|x l]; [by eexists _, []|]. exists x, (l ++ [(k, t)]). split; [done|]. rewrite length_app. cbn. lia. }
  assert (l ++ (k, t) :: r = (kx, tx) :: R1 ++ r) as Ex' by (by rewrite app_comm_cons, <-Ex, <-app_assoc).
  rewrite Ex' in Hs, Ei, Hok. change (kid_items ((kx, tx) :: R1 ++ r)) with (kid_item (kx, page_of tx) :: kid_items (R1 ++ r)) in *.
  apply list.Forall_cons in Hok as [_ Hok]. pose proof (segment_sorted h HI (kcmp h) (kok h) _ _ _ _ _ Hs) as (S1 & O1 & _).
  destruct (kid_items_sorted h HI (kcmp h) (kok h) (R1 ++ r) Hok S1 O1) as [So Ko].
  destruct (internal_lookup_ok h HI (kcmp h) (kok h) n d key _ _ R El Ei So Ko Ok) as (l1 & l2 & pos & E & Hlk & G1 & G2 & _).
  rewrite fmap_app in S1, O1. apply Forall_app in O1 as [O1 O2].
  assert (Forall (λ a, kc (kcmp h) a key ≤ 0) R1.*1) as F1.
  { destruct R1 as [|y R1] using rev_ind; [constructor|clear IHR1]. rewrite app_comm_cons in Ex. apply app_inj_tail in Ex as [El1 <-].
    assert (lo = Some k) as -> by (destruct Hl as [(-> & _)|[_ ->]]; [rewrite length_app in Hlen; cbn in Hlen; lia|done]). cbn in W1.
    rewrite fmap_app in S1, O1 |- *. cbn [fmap list_fmap fst] in S1, O1 |- *. apply Forall_app in O1 as [O1 [Ok' _]%list.Forall_cons]. apply Forall_app_2; [|by repeat constructor].
    rewrite <-app_assoc in S1. apply list.Forall_forall. intros a Ha. rewrite list.Forall_forall in O1.
    assert (kc (kcmp h) a k < 0) as Hlt by (apply (StronglySorted_app_1_elem_of _ _ _ _ _ S1 Ha); left).
    apply (kc_le_trans (kcmp h) (kok h) a k key); [by apply O1|done|done|lia|done]. }
  assert (Forall (λ a, 0 < kc (kcmp h) a key) r.*1) as F2.
  { destruct Hr as [[-> _]|(k1 & t1 & r' & -> & -> & _)]; [constructor|]. cbn in W2. cbn [fmap list_fmap fst] in O2, S1 |- *. apply list.Forall_cons in O2 as [Ok1 O2].
    pose proof (StronglySorted_app_1_r _ _ _ S1) as S2. apply StronglySorted_inv in S2 as [_ S2]. constructor; [by apply (kc_pos (kcmp h) (kok h))|].
    rewrite list.Forall_forall in S2, O2 |- *. intros a Ha. apply (kc_pos (kcmp h) (kok h)); [by apply O2|done|].
    apply (kc_lt_trans (kcmp h) (kok h) key k1 a); [done|done|by apply O2|done|by apply S2]. }
  exists pos. rewrite Hlk. do 3 f_equal. rewrite kid_items_app in E, Hok. apply Forall_app in Hok as [H1 H2].
  assert (l1 = kid_items R1) as ->; [|by rewrite kid_items_length].
  symmetry. eapply (split_unique (λ it, kc (kcmp h) (item_key h it) key ≤ 0) (λ it, 0 < kc (kcmp h) (item_key h it) key)); [cbn; lia|exact E| | |done|done].
  - change (Forall ((λ a, kc (kcmp h) a key ≤ 0) ∘ item_key h) (kid_items R1)). by rewrite <-Forall_fmap, kid_items_keys.
  - change (Forall ((λ a, 0 < kc (kcmp h) a key) ∘ item_key h) (kid_items r)). by rewrite <-Forall_fmap, kid_items_keys.
Qed.
End merging.

(** What a deletion relies on: a node that lost an item is not empty, and an internal one
    has a key that is compared. *)
Record delete_ok (h : IndexFileHeader) : Prop := {
  do_leaf : 4 ≤ leaf_max_size h;
  do_internal : 6 ≤ internal_max_size h
}.

(** A node that lost one element. *)
Definition low_min (h : IndexFileHeader) (root leaf : bool) : Z := if root then (if leaf then 0 else 1) else max_size h leaf / 2 - 1.

Section pairs.
Context {S : Type} `{!IndexPool S, !IndexPoolLaws S}.
Notation Tree := (Tree S).
Implicit Types (T : Tree) (N : gmap PageNum node) (g : ghost) (p q : PageNum) (n m : node).
Notation kcmp h := (comparator h).
Notation kok h := (key_ok (attr_type h) (attr_length h)).
Notation kwf h := (λ lo hi t, wf h (kcmp h) (kok h) false lo hi t).
Notation fills h := (fills h (kcmp h) (kok h)).

Definition low h root lo hi {lv} (t : tree lv) : Prop :=
  low_min h root (at_leaves lv) ≤ Z.of_nat (length (body t)) ≤ max_size h (at_leaves lv) ∧ fills h lo hi (body t).

Record lowered T N g {lv} (c : ctx lv) (t : tree lv) : Prop := {
  lw_st : st T N g;
  lw_mode : g_mode g = READ_WRITE;
  lw_pinned : pinned g (page_of t);
  lw_holds : holds N BP_INVALID_PAGE_NUM (projT2 (plug c t));
  lw_pages : NoDup (tree_pages (projT2 (plug c t)));
  lw_order : ∃ lo hi (t0 : tree lv), ctx_wf (g_header g) (kcmp (g_header g)) (kok (g_header g)) lo hi c ∧ low (g_header g) (is_top c) lo hi t ∧
    page_of t0 = page_of t ∧ wf (g_header g) (kcmp (g_header g)) (kok (g_header g)) (is_top c) lo hi t0;
  lw_linked : linked N (leaves (projT2 (plug c t)));
  lw_root : root_page (g_header g) = page_of (projT2 (plug c t))
}.

Lemma lowered_works T T' N g g' {lv} (c : ctx lv) (t : tree lv) : lowered T N g c t → works g g' → st T' N g' → lowered T' N g' c t.
Proof.
  intros [I Hm Hp Hh Hnd Ho HL Hr] Wk I'. pose proof (wk_header _ _ Wk) as E. split; rewrite ?E; try done; [by rewrite (wk_mode _ _ Wk)|by apply (works_pinned g)].
Qed.

(** ** The pair *)
Record pair T N g (P : PageNum) {lv} (L : list (kid lv)) kl (tl : tree lv) kr (tr : tree lv) (R : list (kid lv)) (c : ctx (Datatypes.S lv)) lo hi : Prop := {
  pa_st : st T N g;
  pa_mode : g_mode g = READ_WRITE;
  pa_pinned : pinned g P ∧ pinned g (page_of tl) ∧ pinned g (page_of tr);
  pa_holds : holds N BP_INVALID_PAGE_NUM (projT2 (plug c ((P, L ++ (kl, tl) :: (kr, tr) :: R) : tree (Datatypes.S lv))));
  pa_pages : NoDup (tree_pages (projT2 (plug c ((P, L ++ (kl, tl) :: (kr, tr) :: R) : tree (Datatypes.S lv)))));
  pa_fills : fills (g_header g) lo (Some kr) (body tl) ∧ fills (g_header g) (Some kr) hi (body tr);
  pa_full : body tl ≠ [] ∧ body tr ≠ [];
  pa_order : ∃ lo0 hi0 (t0 : tree (Datatypes.S lv)), left_of (kwf (g_header g)) lo0 L kl lo ∧ right_of (kwf (g_header g)) hi R hi0 ∧
    ctx_wf (g_header g) (kcmp (g_header g)) (kok (g_header g)) lo0 hi0 c ∧ page_of t0 = P ∧
    wf (g_header g) (kcmp (g_header g)) (kok (g_header g)) (is_top c) lo0 hi0 t0;
  pa_length : internal_min (g_header g) (is_top c) ≤ Z.of_nat (length L + 2 + length R) ≤ internal_max_size (g_header g);
  pa_linked : linked N (leaves (projT2 (plug c ((P, L ++ (kl, tl) :: (kr, tr) :: R) : tree (Datatypes.S lv)))));
  pa_root : root_page (g_header g) = page_of (projT2 (plug c ((P, L ++ (kl, tl) :: (kr, tr) :: R) : tree (Datatypes.S lv))))
}.

Section one_pair.
Context {lv : nat} T N g (P : PageNum) (L : list (kid lv)) (kl : list Z) (tl : tree lv) (kr : list Z) (tr : tree lv) (R : list (kid lv)) (c : ctx (Datatypes.S lv)).
Context (lo hi : option (list Z)) (PA : pair T N g P L kl tl kr tr R c lo hi).
Notation h := (g_header g).
Notation kids := (L ++ (kl, tl) :: (kr, tr) :: R).
Notation xs := (body tl).
Notation ys := (body tr).
Notation pl := (page_of tl).
Notation pr := (page_of tr).

Lemma pair_parent : ∃ nx, N !! P = Some (mkNode false (ctx_parent c) nx (kid_items kids)).
Proof using PA. by destruct (proj1 (holds_plug N c _) (pa_holds _ _ _ _ _ _ _ _ _ _ _ _ _ PA)) as [[[nx E] _] _]; exists nx. Qed.

Lemma pair_kids x : x ∈ kids → holds N P x.2.
Proof using PA. destruct (proj1 (holds_plug N c _) (pa_holds _ _ _ _ _ _ _ _ _ _ _ _ _ PA)) as [[_ H] _]. apply H. Qed.

Lemma pair_ctx : ctx_holds N P c.
Proof using PA. by destruct (proj1 (holds_plug N c _) (pa_holds _ _ _ _ _ _ _ _ _ _ _ _ _ PA)) as [_ H]. Qed.

Lemma pair_left : (∃ nx, N !! pl = Some (mkNode (at_leaves lv) P nx (items_of xs))) ∧ ∀ x, x ∈ xs → elt_holds N pl x.
Proof using PA. apply holds_mk. rewrite mk_body. apply (pair_kids (kl, tl)), elem_of_app. right. left. Qed.

Lemma pair_right : (∃ nx, N !! pr = Some (mkNode (at_leaves lv) P nx (items_of ys))) ∧ ∀ y, y ∈ ys → elt_holds N pr y.
Proof using PA. apply holds_mk. rewrite mk_body. apply (pair_kids (kr, tr)), elem_of_app. right. right. left. Qed.

Lemma pair_nodup : NoDup (P :: (pl :: pages_of xs) ++ (pr :: pages_of ys) ++ kids_pages L ++ kids_pages R ++ ctx_pages c).
Proof using PA.
  pose proof (pa_pages _ _ _ _ _ _ _ _ _ _ _ _ _ PA) as Hnd. rewrite pages_plug in Hnd. cbn [tree_pages fst snd] in Hnd. fold (kids_pages kids) in Hnd.
  refine (proj1 (NoDup_Permutation_proper _ _ _) Hnd). rewrite kids_pages_app. change (kids_pages ((kl, tl) :: (kr, tr) :: R)) with (tree_pages tl ++ tree_pages tr ++ kids_pages R).
  rewrite (pages_body tl), (pages_body tr). solve_Permutation.
Qed.

(** Pages of the rest of the tree. *)
Lemma pair_rest r : r ∈ kids_pages L ++ kids_pages R ++ ctx_pages c → r ≠ P ∧ r ≠ pl ∧ r ≠ pr ∧ r ∉ pages_of xs ∧ r ∉ pages_of ys.
Proof using PA.
  intros Hr. pose proof pair_nodup as [HP (_ & H1 & (_ & H2 & _)%list.NoDup_app)%list.NoDup_app]%list.NoDup_cons.
  split_and!; intros E.
  - apply HP. rewrite <-E, !elem_of_app. rewrite !elem_of_app in Hr. tauto.
  - apply (H1 r); [rewrite E; left|]. apply elem_of_app. by right.
  - apply (H2 r); [rewrite E; left|done].
  - apply (H1 r); [by right|]. apply elem_of_app. by right.
  - apply (H2 r); [by right|done].
Qed.

Lemma pair_two : NoDup (pl :: pr :: pages_of xs ++ pages_of ys) ∧ P ≠ pl ∧ P ≠ pr ∧ P ∉ pages_of xs ∧ P ∉ pages_of ys.
Proof using PA.
  pose proof pair_nodup as [HP Hnd]%list.NoDup_cons. split.
  - rewrite app_assoc in Hnd. apply list.NoDup_app in Hnd as [Hnd _]. refine (proj1 (NoDup_Permutation_proper _ _ _) Hnd). solve_Permutation.
  - rewrite !elem_of_app, !elem_of_cons in HP. tauto.
Qed.

(** Changes inside the pair leave the rest alone. *)
Definition inside N' : Prop := ∀ r, r ≠ P → r ≠ pl → r ≠ pr → r ∉ pages_of xs → r ∉ pages_of ys → N' !! r = N !! r.

Lemma inside_frame N' r : inside N' → r ∈ kids_pages L ++ kids_pages R ++ ctx_pages c → N' !! r = N !! r.
Proof using PA. intros Hin Hr. destruct (pair_rest r Hr) as (? & ? & ? & ? & ?). by apply Hin. Qed.

Lemma inside_kids N' : inside N' → ∀ x, x ∈ L ++ R → holds N' P x.2.
Proof using PA.
  intros Hin x Hx. apply (holds_frame N).
  - intros r Hr. apply (inside_frame N' r Hin). rewrite !elem_of_app. apply elem_of_app in Hx as [Hx|Hx]; [left|right; left]; by apply (kids_pages_elem _ x).
  - apply pair_kids. rewrite elem_of_app, !elem_of_cons. apply elem_of_app in Hx. tauto.
Qed.

Lemma inside_ctx N' : inside N' → ctx_holds N' P c.
Proof using PA.
  intros Hin. apply (ctx_holds_frame N); [|apply pair_ctx]. intros r Hr. apply (inside_frame N' r Hin). rewrite !elem_of_app. auto.
Qed.

(** ** One element goes to the neighbor *)
Lemma leaves_pair (p q : PageNum) (xs' ys' us vs : list (elt lv)) : xs' ++ ys' = us ++ vs →
  leaves (mk p xs') ++ leaves (mk q ys') = leaves (mk p us) ++ leaves (mk q vs).
Proof.
  intros E. rewrite !leaves_mk. destruct lv; cbn [at_leaves].
  - assert (∀ l : list (elt 0), flat_map elt_leaves l = []) as H by (intros l; by induction l). by rewrite !H.
  - cbn [app]. by rewrite <-!flat_map_app, E.
Qed.

Section shift.
Context (xs' ys' : list (elt lv)) (Exy : xs' ++ ys' = xs ++ ys) (kr' : list Z).
Context (Hlx : fills h lo (Some kr') xs') (Hly : fills h (Some kr') hi ys').
Context (Lx : node_min h false (at_leaves lv) ≤ Z.of_nat (length xs') ≤ max_size h (at_leaves lv)).
Context (Ly : node_min h false (at_leaves lv) ≤ Z.of_nat (length ys') ≤ max_size h (at_leaves lv)).
Notation kids' := (L ++ (kl, mk pl xs') :: (kr', mk pr ys') :: R).
Notation W' := (plug c ((P, kids') : tree (Datatypes.S lv))).

Lemma shift_tree N' nx : inside N' → N' !! P = Some (mkNode false (ctx_parent c) nx (kid_items kids')) →
  holds N' P (mk pl xs') → holds N' P (mk pr ys') → same_next N N' → tree_in N' g W'.
Proof using PA Exy Hlx Hly Lx Ly.
  intros Hin HP Hl Hr Hnx. destruct (pa_order _ _ _ _ _ _ _ _ _ _ _ _ _ PA) as (lo0 & hi0 & t0 & OL & OR & OC & _ & _). split.
  - apply holds_plug. split; [split; [by exists nx|]|by apply inside_ctx]. cbn [snd].
    intros x [Hx|[->|[->|Hx]%elem_of_cons]%elem_of_cons]%elem_of_app; [|done|done|]; apply (inside_kids N' Hin), elem_of_app; auto.
  - pose proof (pa_pages _ _ _ _ _ _ _ _ _ _ _ _ _ PA) as Hnd. rewrite pages_plug in Hnd |- *. refine (proj1 (NoDup_Permutation_proper _ _ _) Hnd).
    cbn [tree_pages fst snd]. fold (kids_pages kids) (kids_pages kids'). rewrite !kids_pages_app.
    change (kids_pages ((kl, tl) :: (kr, tr) :: R)) with (tree_pages tl ++ tree_pages tr ++ kids_pages R).
    change (kids_pages ((kl, mk pl xs') :: (kr', mk pr ys') :: R)) with (tree_pages (mk pl xs') ++ tree_pages (mk pr ys') ++ kids_pages R).
    rewrite (pages_body tl), (pages_body tr), !pages_mk.
    assert (pages_of xs' ++ pages_of ys' = pages_of xs ++ pages_of ys) as Ep by (by rewrite <-!pages_app, Exy).
    transitivity (P :: pl :: pr :: (pages_of xs ++ pages_of ys) ++ kids_pages L ++ kids_pages R ++ ctx_pages c); [solve_Permutation|rewrite <-Ep; solve_Permutation].
  - apply wf_plug. exists lo0, hi0. split; [done|]. split.
    + cbn [snd]. rewrite length_app. cbn. pose proof (pa_length _ _ _ _ _ _ _ _ _ _ _ _ _ PA). lia.
    + cbn [snd]. apply (segment_insert _ lo0 L kl _ kr' _ R hi0 lo hi); [done| | |done]; by apply wf_mk.
  - apply (linked_frame N); [done|]. pose proof (pa_linked _ _ _ _ _ _ _ _ _ _ _ _ _ PA) as HL. unfold leaves in *. rewrite gather_plug in HL |- *.
    cbn in HL |- *. rewrite flat_map_app in HL |- *. cbn in HL |- *. pose proof (leaves_pair pl pr xs' ys' xs ys Exy) as El. rewrite !mk_body in El.
    unfold leaves in El. rewrite (app_assoc (gather _ (mk pl xs'))), El, <-!app_assoc. by rewrite <-!app_assoc in HL.
  - rewrite (pa_root _ _ _ _ _ _ _ _ _ _ _ _ _ PA). by apply (plug_root c).
Qed.

Lemma shift_flat : flat (projT2 W') = flat (projT2 (plug c ((P, kids) : tree (Datatypes.S lv)))).
Proof using Exy.
  unfold flat. rewrite !gather_plug. do 2 f_equal. cbn. rewrite !flat_map_app. cbn. f_equal. rewrite !app_assoc. f_equal.
  change (flat (mk pl xs') ++ flat (mk pr ys') = flat tl ++ flat tr). rewrite (flat_body tl), (flat_body tr), !flat_mk, <-!flat_map_app. by rewrite Exy.
Qed.
End shift.

(** The key of the right neighbor in the parent. *)
Lemma set_separator_ok T1 N1 g1 nx m tl' y ys' :
  st T1 N1 g1 → g_header g1 = h → pinned g1 P → pinned g1 pr → N1 !! P = Some (mkNode false (ctx_parent c) nx (kid_items kids)) →
  N1 !! pr = Some m → nd_leaf m = at_leaves lv → nd_items m = items_of (y :: ys') → page_of tl' = pl →
  ∃ T2, (key ← read pr (λ d, key_at h (kind (at_leaves lv)) d 0); set_key_at P (Z.of_nat (length L + 1)) key) T1 = Some (tt, T2) ∧
    st T2 (<[P := mkNode false (ctx_parent c) nx (kid_items (L ++ (kl, tl') :: (elt_key h y, mk pr (y :: ys')) :: R))]> N1) (touch P g1).
Proof using PA.
  intros I1 Eh Pp Prr HP Hm El Ei Etl. pose proof (s_index _ _ _ I1) as HI.
  pose proof (read_elt_key T1 N1 g1 pr m (y :: ys') 0 y I1 Prr Hm El Ei eq_refl) as Ek. change (Z.of_nat 0) with 0 in Ek. rewrite Eh in Ek. rewrite (exec Ek).
  pose proof (elts_ok T1 N1 g1 pr m (y :: ys') I1 Hm El Ei y ltac:(left)) as Hok.
  destruct (item_parts _ HI _ _ Hok) as (_ & Hkl & _). rewrite (elt_item_key _ y HI Hok), Eh in Hkl.
  assert (chars (elt_key h y)) as Hkc.
  { rewrite <-Eh, <-(elt_item_key _ y HI Hok). apply Forall_take, Hok. }
  set (nP := mkNode false (ctx_parent c) nx (kid_items kids)) in *.
  assert (nd_items nP !! (length L + 1)%nat = Some (child_item kr pr)) as Hi.
  { cbn. rewrite kid_items_app. rewrite lookup_app_r by (rewrite kid_items_length; lia). rewrite kid_items_length. by replace (length L + 1 - length L)%nat with 1%nat by lia. }
  destruct (set_key_ok T1 N1 g1 P nP I1 Pp HP eq_refl (length L + 1) (child_item kr pr) (elt_key h y) Hi) as (T2 & E2 & I2); [by rewrite Eh|done|].
  exists T2. split; [done|]. rewrite Eh in I2. replace (with_items _ nP) with (mkNode false (ctx_parent c) nx (kid_items (L ++ (kl, tl') :: (elt_key h y, mk pr (y :: ys')) :: R))) in I2; [done|].
  unfold with_items, nP. cbn [nd_leaf nd_parent nd_next nd_items]. f_equal.
  assert (item_value h (child_item kr pr) = le_bytes 4 pr) as ->.
  { destruct (s_nodes _ _ _ I1 P nP HP) as (d & _ & Rd). pose proof (Forall_lookup_1 _ _ _ _ (rep_items _ _ _ Rd) Hi) as Hok'. cbn [nd_leaf nP] in Hok'.
    destruct (kid_item_key _ HI (kr, pr) Hok') as (_ & Hl & _). cbn in Hl. unfold item_value, child_item. rewrite Eh in Hl. apply drop_app_length'. lia. }
  rewrite !kid_items_app. rewrite insert_app_r_alt by (rewrite kid_items_length; lia). rewrite kid_items_length. replace (length L + 1 - length L)%nat with 1%nat by lia.
  unfold kid_items. cbn. unfold kid_ref, kid_item. cbn. by rewrite Etl, page_mk.
Qed.
(** ** [redistribute] *)
Lemma marks_ok T1 N1 g1 (p q r : PageNum) : st T1 N1 g1 → pinned g1 p → pinned g1 q → pinned g1 r →
  ∃ T2 g2, (mark_dirty p;; mark_dirty q;; mark_dirty r;; mret RC.SUCCESS) T1 = Some (RC.SUCCESS, T2) ∧ st T2 N1 g2 ∧ works g1 g2.
Proof.
  intros I1 Hp Hq Hr. destruct (mark_dirty_ok T1 N1 g1 p I1 Hp) as (T2 & E2 & I2). destruct (mark_dirty_ok T2 N1 _ q I2 Hq) as (T3 & E3 & I3).
  destruct (mark_dirty_ok T3 N1 _ r I3 Hr) as (T4 & E4 & I4). eexists T4, _. split; [by rewrite (exec E2), (exec E3), (exec E4)|]. split; [exact I4|].
  eapply works_trans; [apply (works_soil p)|]. eapply works_trans; [apply (works_soil q)|]. apply works_soil.
Qed.

Lemma node_min_half : node_min h false (at_leaves lv) = max_size h (at_leaves lv) / 2.
Proof. by destruct lv. Qed.

Definition redistributed (m : M Tree RC) : Prop :=
  ∃ T' N' g' W', m T = Some (RC.SUCCESS, T') ∧ st T' N' g' ∧ works g g' ∧ tree_in N' g' W' ∧
    flat (projT2 W') = flat (projT2 (plug c ((P, kids) : tree (Datatypes.S lv)))) ∧ projT1 W' = (Datatypes.S lv + ctx_depth c)%nat.

(** The end of [redistribute], for both directions. *)
Lemma redistribute_end T1 N1 g1 nx xs' y ys' nl nr (a b : PageNum) : 
  works g g1 → st T1 N1 g1 → inside N1 → N1 !! P = Some (mkNode false (ctx_parent c) nx (kid_items kids)) →
  holds N1 P (mk pl xs') → holds N1 P (mk pr (y :: ys')) → same_next N N1 → xs' ++ y :: ys' = xs ++ ys → xs' ≠ [] →
  N1 !! pl = Some nl → N1 !! pr = Some nr → nd_leaf nr = at_leaves lv → nd_items nr = items_of (y :: ys') →
  node_min h false (at_leaves lv) ≤ Z.of_nat (length xs') ≤ max_size h (at_leaves lv) →
  node_min h false (at_leaves lv) ≤ Z.of_nat (length (y :: ys')) ≤ max_size h (at_leaves lv) →
  (a = pl ∧ b = pr ∨ a = pr ∧ b = pl) →
  redistributed (λ _, ((key ← read pr (λ d, key_at h (kind (at_leaves lv)) d 0); set_key_at P (Z.of_nat (length L + 1)) key);;
    mark_dirty a;; mark_dirty b;; mark_dirty P;; mret RC.SUCCESS) T1).
Proof using PA.
  intros Wk I1 Hin HP Hl Hr Hnx Exy Hne Hnl Hnr El Ei Lx Ly Hab. pose proof (wk_header _ _ Wk) as Eh.
  destruct (pa_pinned _ _ _ _ _ _ _ _ _ _ _ _ _ PA) as (PP & Ppl & Ppr). destruct pair_two as (_ & NP1 & NP2 & NP3 & NP4).
  destruct (set_separator_ok T1 N1 g1 nx nr (mk pl xs') y ys' I1 Eh) as (T2 & E2 & I2); try done; [by apply (works_pinned g)|by apply (works_pinned g)|apply page_mk|].
  destruct (marks_ok T2 _ _ a b P I2) as (T3 & g3 & E3 & I3 & W3).
  { apply (works_pinned g); [by eapply works_trans; [|apply works_touch]|]. destruct Hab as [[-> _]|[-> _]]; done. }
  { apply (works_pinned g); [by eapply works_trans; [|apply works_touch]|]. destruct Hab as [[_ ->]|[_ ->]]; done. }
  { apply (works_pinned g); [by eapply works_trans; [|apply works_touch]|done]. }
  assert (works g g3) as Wk3 by (eapply works_trans; [exact Wk|]; eapply works_trans; [apply works_touch|exact W3]).
  destruct (pa_fills _ _ _ _ _ _ _ _ _ _ _ _ _ PA) as [Fx Fy]. destruct (pa_full _ _ _ _ _ _ _ _ _ _ _ _ _ PA) as [Nx Ny].
  pose proof (fills_join h (s_index _ _ _ (pa_st _ _ _ _ _ _ _ _ _ _ _ _ _ PA)) (kcmp h) (kok h) lo kr hi xs ys Nx Ny Fx Fy) as FF. rewrite <-Exy in FF.
  destruct (fills_cut h (s_index _ _ _ (pa_st _ _ _ _ _ _ _ _ _ _ _ _ _ PA)) (kcmp h) (kok h) lo hi xs' y ys' Hne FF) as [F1 F2].
  exists T3. eexists _, g3, _. split_and!; [by rewrite (exec E2)|exact I3|done| | |].
  - destruct (shift_tree xs' (y :: ys') Exy (elt_key h y) F1 F2 Lx Ly (<[P := mkNode false (ctx_parent c) nx (kid_items (L ++ (kl, mk pl xs') :: (elt_key h y, mk pr (y :: ys')) :: R))]> N1) nx) as [H1 H2 H3 H4 H5].
    + intros r ? ? ? ? ?. rewrite lookup_insert_ne by done. by apply Hin.
    + apply lookup_insert_eq.
    + apply (holds_frame N1); [|done]. intros r Hr'. apply lookup_insert_ne. intros <-. rewrite pages_mk in Hr'. apply elem_of_cons in Hr' as [?|Hr']; [done|].
      assert (P ∈ pages_of (xs' ++ y :: ys')) as H by (rewrite pages_app; apply elem_of_app; by left). rewrite Exy, pages_app in H. apply elem_of_app in H as [?|?]; done.
    + apply (holds_frame N1); [|done]. intros r Hr'. apply lookup_insert_ne. intros <-. rewrite pages_mk in Hr'. apply elem_of_cons in Hr' as [?|Hr']; [done|].
      assert (P ∈ pages_of (xs' ++ y :: ys')) as H by (rewrite pages_app; apply elem_of_app; by right). rewrite Exy, pages_app in H. apply elem_of_app in H as [?|?]; done.
    + eapply same_next_trans; [exact Hnx|]. by eapply same_next_insert.
    + pose proof (wk_header _ _ Wk3) as E3h. split; rewrite ?E3h; [exact H1|exact H2|exact H3|exact H4|exact H5].
  - by apply shift_flat.
  - by rewrite plug_level.
Qed.

Lemma half_min (leaf : bool) : 2 ≤ max_size h leaf → min_size h leaf = max_size h leaf - max_size h leaf / 2 ∧ 1 ≤ max_size h leaf / 2 ∧ 2 * (max_size h leaf / 2) ≤ max_size h leaf.
Proof.
  intros Hm. unfold min_size. rewrite Z.quot_div_nonneg by lia. split; [done|]. split; [apply Z.div_le_lower_bound; lia|]. apply Z.mul_div_le. lia.
Qed.

Lemma max_two : 2 ≤ max_size h (at_leaves lv).
Proof using PA. pose proof (s_index _ _ _ (pa_st _ _ _ _ _ _ _ _ _ _ _ _ _ PA)) as [_ _ _ _ H1 H2]. destruct (at_leaves lv); cbn; lia. Qed.

Lemma redistribute_first_ok : L = [] → max_size h (at_leaves lv) / 2 - 1 ≤ Z.of_nat (length xs) → Z.of_nat (length xs) < min_size h (at_leaves lv) →
  Z.of_nat (length ys) ≤ max_size h (at_leaves lv) → max_size h (at_leaves lv) < Z.of_nat (length xs + length ys) →
  redistributed (redistribute (kind (at_leaves lv)) pr pl P 0).
Proof using PA.
  intros EL H1 H2 H3 H4. destruct (half_min (at_leaves lv) max_two) as (Em & Hh1 & Hh2). destruct (pa_pinned _ _ _ _ _ _ _ _ _ _ _ _ _ PA) as (PP & Ppl & Ppr).
  destruct pair_parent as [nx HP]. destruct pair_left as [[nxl Hl] Kl]. destruct pair_right as [[nxr Hr] Kr]. destruct pair_two as (Hnd & NP1 & NP2 & NP3 & NP4).
  pose proof (pa_st _ _ _ _ _ _ _ _ _ _ _ _ _ PA) as I. destruct (pa_full _ _ _ _ _ _ _ _ _ _ _ _ _ PA) as [Nx Ny].
  destruct ys as [|y [|y1 ys'']] eqn:Ey; [done|cbn in *; lia|].
  set (nl := mkNode (at_leaves lv) P nxl (items_of xs)) in *. set (nr := mkNode (at_leaves lv) P nxr (items_of (y :: y1 :: ys''))) in *.
  assert (NoDup (pr :: pl :: pages_of (y :: y1 :: ys'') ++ pages_of xs)) as Hnd' by (refine (proj1 (NoDup_Permutation_proper _ _ _) Hnd); solve_Permutation).
  destruct (move_first_ok T N g pr nr pl nl (y :: y1 :: ys'') xs I Ppr Hr eq_refl eq_refl Ppl Hl eq_refl eq_refl Kr Hnd' y (y1 :: ys'') eq_refl) as (T1 & g1 & E1 & W1 & I1); [lia|].
  assert (y :: y1 :: ys'' ≡ₚ [y] ++ y1 :: ys'') as Ex by done. assert (xs ++ [y] ≡ₚ xs ++ [y]) as Eyy by done.
  destruct (moved_holds N P pr pl nr nl (y :: y1 :: ys'') xs (y1 :: ys'') (xs ++ [y]) [y] Kr Kl Ex Eyy Hnd' eq_refl eq_refl eq_refl eq_refl) as [Hr1 Hl1].
  pose proof (moved_next N pr pl nr nl (y :: y1 :: ys'') xs (y1 :: ys'') (xs ++ [y]) [y] Hr Hl Ex Hnd') as Hnx.
  pose proof (moved_q N pr pl nr nl (y :: y1 :: ys'') xs (y1 :: ys'') (xs ++ [y]) [y] Ex Hnd') as Hql.
  set (N1 := moved_nodes N pr pl nr nl (y1 :: ys'') (xs ++ [y]) [y]) in *.
  assert (∀ r, r ≠ pl → r ≠ pr → r ∉ pages_of (y :: y1 :: ys'') → N1 !! r = N !! r) as Hoth.
  { intros r R1 R2 R3. apply moved_other; [done|done|]. intros H. apply R3. change (y :: y1 :: ys'') with ([y] ++ y1 :: ys''). rewrite pages_app. apply elem_of_app. by left. }
  destruct (redistribute_end T1 N1 g1 nx (xs ++ [y]) y1 ys'' (with_items (items_of (xs ++ [y])) nl) (with_items (items_of (y1 :: ys'')) nr) pr pl W1 I1) as (T2 & N2 & g2 & W2 & E2 & R2).
  - intros r ? ? ? ? HH. apply Hoth; try done. by rewrite Ey in HH.
  - rewrite Hoth; done.
  - done.
  - done.
  - done.
  - by rewrite Ey, <-app_assoc.
  - by destruct xs.
  - done.
  - by apply moved_p.
  - done.
  - done.
  - rewrite node_min_half, length_app. cbn. lia.
  - rewrite node_min_half. cbn in *. lia.
  - by right.
  - exists T2, N2, g2, W2. split; [|done]. rewrite <-E2. unfold redistribute. rewrite (exec (header_ok _ _ _ I)). change (0 =? 0) with true. cbn iota.
    rewrite EL. cbn [length Nat.add]. change (Z.of_nat 1) with (0 + 1). 
    assert (∀ A (k : unit → M Tree A), ((move_first_to_end (kind (at_leaves lv)) pr pl;; key ← read pr (λ d, key_at h (kind (at_leaves lv)) d 0); set_key_at P (0 + 1) key) ≫= k) T =
      ((key ← read pr (λ d, key_at h (kind (at_leaves lv)) d 0); set_key_at P (0 + 1) key) ≫= k) T1) as Hb.
    { intros A k. unfold mbind at 1, M_bind at 1. by rewrite (exec E1). }
    apply Hb.
Qed.

Lemma redistribute_last_ok : max_size h (at_leaves lv) / 2 - 1 ≤ Z.of_nat (length ys) → Z.of_nat (length ys) < min_size h (at_leaves lv) →
  Z.of_nat (length xs) ≤ max_size h (at_leaves lv) → max_size h (at_leaves lv) < Z.of_nat (length xs + length ys) →
  redistributed (redistribute (kind (at_leaves lv)) pl pr P (Z.of_nat (length L + 1))).
Proof using PA.
  intros H1 H2 H3 H4. destruct (half_min (at_leaves lv) max_two) as (Em & Hh1 & Hh2). destruct (pa_pinned _ _ _ _ _ _ _ _ _ _ _ _ _ PA) as (PP & Ppl & Ppr).
  destruct pair_parent as [nx HP]. destruct pair_left as [[nxl Hl] Kl]. destruct pair_right as [[nxr Hr] Kr]. destruct pair_two as (Hnd & NP1 & NP2 & NP3 & NP4).
  pose proof (pa_st _ _ _ _ _ _ _ _ _ _ _ _ _ PA) as I. destruct (pa_full _ _ _ _ _ _ _ _ _ _ _ _ _ PA) as [Nx Ny].
  destruct (exists_last Nx) as (xs' & y & Ex0).
  rewrite Ex0 in Hl, Kl, Hnd, NP3, H3, H4. rewrite length_app in H3, H4. cbn [length] in H3, H4.
  set (nl := mkNode (at_leaves lv) P nxl (items_of (xs' ++ [y]))) in *. set (nr := mkNode (at_leaves lv) P nxr (items_of ys)) in *.
  destruct (move_last_ok T N g pl nl pr nr (xs' ++ [y]) ys I Ppl Hl eq_refl eq_refl Ppr Hr eq_refl eq_refl Kl Hnd y xs' eq_refl) as (T1 & g1 & E1 & W1 & I1); [lia|].
  assert (xs' ++ [y] ≡ₚ [y] ++ xs') as Ex by apply Permutation_app_comm. assert (y :: ys ≡ₚ ys ++ [y]) as Eyy by apply Permutation_cons_append.
  destruct (moved_holds N P pl pr nl nr (xs' ++ [y]) ys xs' (y :: ys) [y] Kl Kr Ex Eyy Hnd eq_refl eq_refl eq_refl eq_refl) as [Hl1 Hr1].
  pose proof (moved_next N pl pr nl nr (xs' ++ [y]) ys xs' (y :: ys) [y] Hl Hr Ex Hnd) as Hnx.
  pose proof (moved_q N pl pr nl nr (xs' ++ [y]) ys xs' (y :: ys) [y] Ex Hnd) as Hqr.
  set (N1 := moved_nodes N pl pr nl nr xs' (y :: ys) [y]) in *.
  assert (∀ r, r ≠ pl → r ≠ pr → r ∉ pages_of (xs' ++ [y]) → N1 !! r = N !! r) as Hoth.
  { intros r R1 R2 R3. apply moved_other; [done|done|]. intros H. apply R3. rewrite pages_app. apply elem_of_app. by right. }
  destruct (redistribute_end T1 N1 g1 nx xs' y ys (with_items (items_of xs') nl) (with_items (items_of (y :: ys)) nr) pl pr W1 I1) as (T2 & N2 & g2 & W2 & E2 & R2).
  - intros r ? ? ? HH ?. apply Hoth; try done. by rewrite Ex0 in HH.
  - rewrite Hoth; done.
  - done.
  - done.
  - done.
  - by rewrite Ex0, <-app_assoc.
  - destruct xs' as [|x0 xs']; [cbn in H4; lia|done].
  - by apply moved_p.
  - done.
  - done.
  - done.
  - rewrite node_min_half. lia.
  - rewrite node_min_half. cbn [length]. lia.
  - by left.
  - exists T2, N2, g2, W2. split; [|done]. rewrite <-E2. unfold redistribute. rewrite (exec (header_ok _ _ _ I)). rewrite (proj2 (Z.eqb_neq _ _)) by lia.
    assert (∀ A (k : unit → M Tree A), ((move_last_to_front (kind (at_leaves lv)) pl pr;; key ← read pr (λ d, key_at h (kind (at_leaves lv)) d 0); set_key_at P (Z.of_nat (length L + 1)) key) ≫= k) T =
      ((key ← read pr (λ d, key_at h (kind (at_leaves lv)) d 0); set_key_at P (Z.of_nat (length L + 1)) key) ≫= k) T1) as Hb.
    { intros A k. unfold mbind at 1, M_bind at 1. by rewrite (exec E1). }
    apply Hb.
Qed.

(** ** [coalesce] *)
Notation merged := (mk pl (xs ++ ys)).
Notation kids_m := (L ++ (kl, merged) :: R).

Section merge.
Context (nx : PageNum) (nl nr : node).
Context (Hl : N !! pl = Some nl) (Hr : N !! pr = Some nr) (HP : N !! P = Some (mkNode false (ctx_parent c) nx (kid_items kids))).
Context (El : nd_leaf nl = at_leaves lv) (Pl : nd_parent nl = P).
Definition parent_less : gmap PageNum node := <[P := mkNode false (ctx_parent c) nx (kid_items kids_m)]> N.
Definition merged_nodes : gmap PageNum node := delete pr (moved_nodes parent_less pr pl nr (joined (lv := lv) nr nl) [] (xs ++ ys) ys).

Lemma less_elts : (∀ x, x ∈ xs → elt_holds parent_less pl x) ∧ (∀ y, y ∈ ys → elt_holds parent_less pr y).
Proof using PA.
  destruct pair_left as [_ Kl]. destruct pair_right as [_ Kr]. destruct pair_two as (_ & _ & _ & NP3 & NP4). split; intros x Hx.
  - apply (elt_frame N); [|by apply Kl]. intros r Hin. apply lookup_insert_ne. intros <-. by apply NP3, (pages_elem xs x).
  - apply (elt_frame N); [|by apply Kr]. intros r Hin. apply lookup_insert_ne. intros <-. by apply NP4, (pages_elem ys x).
Qed.

Lemma merge_two : NoDup (pr :: pl :: pages_of ys ++ pages_of xs).
Proof using PA. destruct pair_two as (Hnd & _). refine (proj1 (NoDup_Permutation_proper _ _ _) Hnd). solve_Permutation. Qed.

Lemma merged_lookup r : r ≠ pr → r ≠ pl → r ∉ pages_of ys → merged_nodes !! r = parent_less !! r.
Proof. intros H1 H2 H3. unfold merged_nodes. rewrite lookup_delete_ne by done. by apply moved_other. Qed.

Lemma merged_left : merged_nodes !! pl = Some (with_items (items_of (xs ++ ys)) (joined (lv := lv) nr nl)).
Proof using PA.
  destruct pair_two as (Hnd & _). unfold merged_nodes. rewrite lookup_delete_ne.
  - apply (moved_q parent_less pr pl nr _ ys xs [] (xs ++ ys) ys); [by rewrite app_nil_r|apply merge_two].
  - intros E. apply list.NoDup_cons in Hnd as [H _]. apply H. rewrite E. left.
Qed.

Lemma merged_inside : inside merged_nodes.
Proof. intros r H1 H2 H3 H4 H5. rewrite merged_lookup by done. by apply lookup_insert_ne. Qed.

Lemma merged_parent : merged_nodes !! P = Some (mkNode false (ctx_parent c) nx (kid_items kids_m)).
Proof using PA. destruct pair_two as (_ & ? & ? & ? & ?). rewrite merged_lookup by done. apply lookup_insert_eq. Qed.

Lemma joined_leaf : nd_leaf (joined (lv := lv) nr nl) = nd_leaf nl ∧ nd_parent (joined (lv := lv) nr nl) = nd_parent nl.
Proof using. unfold joined. by case (at_leaves lv). Qed.

Lemma merged_holds : holds merged_nodes P merged.
Proof using PA El Pl.
  apply holds_mk. destruct joined_leaf as [J1 J2]. split.
  - exists (nd_next (joined (lv := lv) nr nl)). rewrite merged_left. unfold with_items. rewrite J1, J2, El, Pl. reflexivity.
  - destruct less_elts as [Kx Ky].
    destruct (moved_elts parent_less pr pl nr (joined (lv := lv) nr nl) ys xs [] (xs ++ ys) ys Ky Kx ltac:(by rewrite app_nil_r) ltac:(done) merge_two) as [_ HH].
    intros x Hx. apply (elt_frame (moved_nodes parent_less pr pl nr (joined (lv := lv) nr nl) [] (xs ++ ys) ys)); [|by apply HH].
    intros r Hin. apply lookup_delete_ne. intros <-. pose proof merge_two as [H _]%list.NoDup_cons. apply H. right.
    apply (pages_elem (xs ++ ys) x _ Hx) in Hin. rewrite pages_app in Hin. rewrite !elem_of_app in *. tauto.
Qed.

Lemma rest_leaves r : r ∈ ctx_before (λ p _, [p]) c ++ flat_map (λ x : kid lv, leaves x.2) L ++ flat_map (λ x : kid lv, leaves x.2) R ++ ctx_after (λ p _, [p]) c →
  r ∈ kids_pages L ++ kids_pages R ++ ctx_pages c.
Proof.
  assert (∀ l : list (kid lv), r ∈ flat_map (λ x, leaves x.2) l → r ∈ kids_pages l) as Hk.
  { intros l (x & Hx & H)%list_elem_of_In%in_flat_map. apply (kids_pages_elem l x); [by apply list_elem_of_In|]. by apply leaves_pages, list_elem_of_In. }
  rewrite !elem_of_app. intros [H|[H|[H|H]]]; [|left; by apply Hk|right; left; by apply Hk|]; right; right; apply ctx_leaves_pages; rewrite elem_of_app; auto.
Qed.

Lemma merged_linked : linked merged_nodes (leaves (projT2 (plug c ((P, kids_m) : tree (Datatypes.S lv))))).
Proof using PA Hl Hr HP El.
  pose proof (pa_linked _ _ _ _ _ _ _ _ _ _ _ _ _ PA) as HL. unfold leaves in *. rewrite gather_plug in HL |- *. cbn in HL |- *.
  rewrite flat_map_app in HL |- *. cbn in HL |- *. fold (leaves tl) (leaves tr) in HL. fold (leaves merged). rewrite <-!app_assoc in *.
  rewrite <-(mk_body tl), <-(mk_body tr) in HL. rewrite !leaves_mk in HL. rewrite leaves_mk. pose proof merged_left as ML.
  assert (∀ r, r ∈ ctx_before (λ p _, [p]) c ++ flat_map (λ x : kid lv, leaves x.2) L ++ flat_map (λ x : kid lv, leaves x.2) R ++ ctx_after (λ p _, [p]) c →
    next_of merged_nodes r = next_of N r) as Hrest.
  { intros r Hin%rest_leaves. unfold next_of. by rewrite (inside_frame merged_nodes r merged_inside Hin). }
  destruct (at_leaves lv) eqn:Elv.
  - rewrite !no_leaves in HL by done. rewrite no_leaves by done. cbn [app] in HL |- *. rewrite app_assoc in HL |- *.
    apply (linked_remove N merged_nodes _ _ pl pr); [exact HL| |].
    + intros r Hin. apply Hrest. rewrite <-!app_assoc in Hin. exact Hin.
    + unfold next_of. rewrite ML, Hr. unfold joined. by rewrite Elv.
  - cbn [app] in HL |- *. rewrite flat_map_app, <-app_assoc. eapply (linked_frame_on N); [|exact HL]. intros r x Hin Hx. rewrite !elem_of_app in Hin.
    assert (r ∈ pages_of xs ++ pages_of ys ∨ r ∈ ctx_before (λ p _, [p]) c ++ flat_map (λ x : kid lv, leaves x.2) L ++ flat_map (λ x : kid lv, leaves x.2) R ++ ctx_after (λ p _, [p]) c) as [Hp|Ho].
    { rewrite !elem_of_app. destruct Hin as [?|[?|[H|[H|[?|?]]]]]; auto; left; [left|right]; by apply elts_leaves_pages. }
    + pose proof merge_two as Hnd. assert (r ≠ pr ∧ r ≠ pl ∧ r ≠ P) as (R1 & R2 & R3).
      { destruct pair_two as (_ & _ & _ & NP3 & NP4). apply list.NoDup_cons in Hnd as [H1 [H2 _]%list.NoDup_cons]. rewrite elem_of_cons, elem_of_app in H1. rewrite elem_of_app in H2.
        apply elem_of_app in Hp. split_and!; intros ->; tauto. }
      assert (parent_less !! pr = Some nr) as Q1 by (unfold parent_less; rewrite lookup_insert_ne; [done|apply pair_two]).
      assert (parent_less !! pl = Some nl) as Q2 by (unfold parent_less; rewrite lookup_insert_ne; [done|apply pair_two]).
      pose proof (moved_next parent_less pr pl nr nl ys xs [] (xs ++ ys) ys Q1 Q2 ltac:(by rewrite app_nil_r) Hnd r x) as Hn.
      unfold next_of in Hn |- *. unfold merged_nodes. rewrite lookup_delete_ne by done. unfold joined. rewrite Elv. apply Hn.
      unfold parent_less. rewrite lookup_insert_ne by done. exact Hx.
    + by rewrite Hrest.
Qed.

Lemma merged_pages : NoDup (tree_pages (projT2 (plug c ((P, kids_m) : tree (Datatypes.S lv))))).
Proof using PA.
  pose proof pair_nodup as Hnd. rewrite pages_plug. cbn [tree_pages fst snd]. fold (kids_pages kids_m). rewrite kids_pages_app.
  change (kids_pages ((kl, merged) :: R)) with (tree_pages merged ++ kids_pages R). rewrite pages_mk, pages_app.
  apply (NoDup_Permutation_proper _ (pr :: P :: (kids_pages L ++ (pl :: pages_of xs ++ pages_of ys) ++ kids_pages R) ++ ctx_pages c)) in Hnd; [|solve_Permutation].
  by apply list.NoDup_cons in Hnd as [_ Hnd].
Qed.

Lemma merged_lowered T' g' : st T' merged_nodes g' → trims g g' → g_header g' = h → pinned g' P → delete_ok h →
  max_size h (at_leaves lv) / 2 ≤ Z.of_nat (length xs + length ys) ≤ max_size h (at_leaves lv) →
  lowered T' merged_nodes g' c ((P, kids_m) : tree (Datatypes.S lv)).
Proof using PA Hl Hr HP El Pl.
  intros I' Tr Eh Pp HD Hlen. destruct (pa_order _ _ _ _ _ _ _ _ _ _ _ _ _ PA) as (lo0 & hi0 & t0 & OL & OR & OC & Pt & Wt).
  destruct (pa_fills _ _ _ _ _ _ _ _ _ _ _ _ _ PA) as [Fx Fy]. destruct (pa_full _ _ _ _ _ _ _ _ _ _ _ _ _ PA) as [Nx Ny].
  pose proof (fills_join h (s_index _ _ _ (pa_st _ _ _ _ _ _ _ _ _ _ _ _ _ PA)) (kcmp h) (kok h) lo kr hi xs ys Nx Ny Fx Fy) as FF.
  split; rewrite ?Eh; try done.
  - rewrite (tr_mode _ _ Tr). apply PA.
  - apply holds_plug. split; [split; [exists nx; apply merged_parent|]|apply inside_ctx, merged_inside]. cbn [fst snd].
    intros x [Hx|[->|Hx]%elem_of_cons]%elem_of_app; [|apply merged_holds|]; apply (inside_kids _ merged_inside), elem_of_app; auto.
  - apply merged_pages.
  - exists lo0, hi0, t0. split; [done|]. split; [|done]. split; [split|].
    + cbn [body snd]. rewrite length_app. cbn. pose proof (pa_length _ _ _ _ _ _ _ _ _ _ _ _ _ PA) as [H _]. destruct (is_top c); cbn in H |- *; lia.
    + cbn [body snd]. rewrite length_app. cbn. pose proof (pa_length _ _ _ _ _ _ _ _ _ _ _ _ _ PA). lia.
    + cbn. apply segment_focus. exists lo, hi. split_and!; [done| |done]. apply wf_mk. rewrite node_min_half, length_app. split; [lia|done].
  - apply merged_linked.
  - rewrite (pa_root _ _ _ _ _ _ _ _ _ _ _ _ _ PA). by apply (plug_root c).
Qed.

Lemma merged_flat : flat (projT2 (plug c ((P, kids_m) : tree (Datatypes.S lv)))) = flat (projT2 (plug c ((P, kids) : tree (Datatypes.S lv)))).
Proof.
  unfold flat. rewrite !gather_plug. do 2 f_equal. cbn. rewrite !flat_map_app. cbn. f_equal. rewrite !app_assoc. f_equal.
  change (flat merged = flat tl ++ flat tr). by rewrite (flat_body tl), (flat_body tr), flat_mk, flat_map_app.
Qed.
End merge.

(** The steps of [coalesce] before its recursive call, for both directions. *)
Definition merge_steps (k : HandlerType) (left_frame right_frame parent_frame : PageNum) (index : Z) : M Tree RC :=
  internal_remove parent_frame index;;
  rc ← move_to k right_frame left_frame;
  if RC.OB_FAIL rc then mret rc
  else
    leaf ← read left_frame is_leaf;
    (if leaf : bool then next ← read right_frame next_page; ignore (set_next_page left_frame next) else mret tt);;
    memo_dispose_page right_frame;;
    mret RC.SUCCESS.

Lemma hand_on_ok T1 N1 g1 nl' nr' : st T1 N1 g1 → pinned g1 pl → pinned g1 pr → N1 !! pl = Some nl' → N1 !! pr = Some nr' →
  nd_leaf nl' = at_leaves lv → nd_leaf nr' = at_leaves lv → (at_leaves lv = true → nd_next nl' = nd_next nr') →
  ∃ T2 g2, (leaf ← read pl is_leaf;
    if leaf : bool then next ← read pr next_page; ignore (set_next_page pl next) else mret tt) T1 = Some (tt, T2) ∧ st T2 N1 g2 ∧ works g1 g2.
Proof.
  intros I1 P1 P2 H1 H2 E1 E2 E3. rewrite (exec (read_ok T1 N1 g1 pl nl' is_leaf _ I1 P1 H1 (λ d Rd, rep_is_leaf _ _ d Rd))). rewrite E1. destruct (at_leaves lv).
  - rewrite (exec (read_ok T1 N1 g1 pr nr' next_page _ I1 P2 H2 (λ d Rd, rep_next _ nr' d Rd E2))).
    destruct (s_nodes _ _ _ I1 pr nr' H2) as (d & _ & Rd). assert (in_srange 32 (nd_next nr')) as Hr by (by destruct Rd as (? & ? & ? & ? & ? & ? & ? & ? & ?)).
    destruct (set_next_ok T1 N1 g1 pl nl' (nd_next nr') I1 P1 H1 E1 Hr) as (T2 & E & I2). eexists T2, _. unfold ignore. rewrite (exec E). split; [done|].
    rewrite insert_id in I2; [split; [exact I2|apply works_touch]|]. rewrite H1. f_equal. unfold with_next. rewrite <-E3 by done. by destruct nl'.
  - exists T1, g1. split; [done|]. split; [done|apply works_refl].
Qed.

Lemma merge_ok : delete_ok h → max_size h (at_leaves lv) / 2 ≤ Z.of_nat (length xs + length ys) ≤ max_size h (at_leaves lv) →
  ∃ T' N' g', merge_steps (kind (at_leaves lv)) pl pr P (Z.of_nat (length L + 1)) T = Some (RC.SUCCESS, T') ∧ trims g g' ∧
    lowered T' N' g' c ((P, kids_m) : tree (Datatypes.S lv)).
Proof using PA.
  intros HD Hlen. destruct (pa_pinned _ _ _ _ _ _ _ _ _ _ _ _ _ PA) as (PP & Ppl & Ppr). pose proof (pa_st _ _ _ _ _ _ _ _ _ _ _ _ _ PA) as I.
  destruct pair_parent as [nx HP]. destruct pair_left as [[nxl Hl] Kl]. destruct pair_right as [[nxr Hr] Kr]. destruct pair_two as (Hnd & NP1 & NP2 & NP3 & NP4).
  set (nl := mkNode (at_leaves lv) P nxl (items_of xs)) in *. set (nr := mkNode (at_leaves lv) P nxr (items_of ys)) in *.
  destruct (internal_remove_ok T N g P _ I PP HP eq_refl (length L + 1)) as (T1 & E1 & I1); [cbn; rewrite kid_items_length, length_app; cbn; lia|].
  assert (delete (length L + 1)%nat (kid_items kids) = kid_items kids_m) as Ed.
  { rewrite !kid_items_app. change (kid_items ((kl, tl) :: (kr, tr) :: R)) with ([child_item kl pl] ++ child_item kr pr :: kid_items R).
    replace (length L + 1)%nat with (length (kid_items L ++ [child_item kl pl])) by (rewrite length_app, kid_items_length; done).
    rewrite app_assoc, delete_middle, <-app_assoc. unfold kid_items. cbn. unfold kid_ref, kid_item. cbn. by rewrite page_mk. }
  unfold with_items in I1. cbn [nd_leaf nd_parent nd_next nd_items] in I1. rewrite Ed in I1. fold (parent_less nx) in I1. destruct (less_elts nx) as [Kx Ky].
  assert (parent_less nx !! pr = Some nr) as Q1 by (unfold parent_less; by rewrite lookup_insert_ne).
  assert (parent_less nx !! pl = Some nl) as Q2 by (unfold parent_less; by rewrite lookup_insert_ne).
  destruct (move_to_ok T1 (parent_less nx) _ pr nr pl nl ys xs I1 Ppr Q1 eq_refl eq_refl Ppl Q2 eq_refl eq_refl Ky merge_two) as (T2 & g2 & E2 & W2 & I2); [cbn; lia|].
  assert (works g g2) as Wk2 by (eapply works_trans; [apply (works_touch P)|exact W2]).
  set (N2 := moved_nodes (parent_less nx) pr pl nr (joined (lv := lv) nr nl) [] (xs ++ ys) ys) in *.
  assert (N2 !! pl = Some (with_items (items_of (xs ++ ys)) (joined (lv := lv) nr nl))) as Q3
    by (apply (moved_q (parent_less nx) pr pl nr _ ys xs [] (xs ++ ys) ys); [by rewrite app_nil_r|apply merge_two]).
  assert (N2 !! pr = Some (with_items (items_of (lv := lv) []) nr)) as Q4 by apply moved_p.
  pose proof (proj1 (joined_leaf nl nr)) as J1.
  destruct (hand_on_ok T2 N2 g2 (with_items (items_of (xs ++ ys)) (joined (lv := lv) nr nl)) (with_items (items_of (lv := lv) []) nr) I2) as (T3 & g3 & E3 & I3 & W3); [by apply (works_pinned g)|by apply (works_pinned g)|exact Q3|exact Q4|by cbn; rewrite J1|done|by unfold joined; intros ->|].
  assert (works g g3) as Wk3 by (by eapply works_trans).
  destruct (memo_dispose_ok T3 N2 g3 pr _ I3 Q4) as (T4 & E4 & I4). pose proof (trims_dispose T3 N2 g3 pr _ I3 Q4) as Tr.
  assert (trims g (with_disposed (g_disposed g3 ++ [pr]) (with_raw ({[pr]} ∪ g_raw g3) (g_free g3) g3))) as TT by (eapply trims_trans; [apply works_trims, Wk3|exact Tr]).
  exists T4. eexists _, _. split; [|split; [exact TT|]].
  - unfold merge_steps. rewrite (exec E1), (exec E2). change (RC.OB_FAIL RC.SUCCESS) with false. cbn iota.
    assert (∀ A (K : M Tree A), (leaf ← read pl is_leaf; (if leaf : bool then next ← read pr next_page; ignore (set_next_page pl next) else mret tt);; K) T2 = K T3) as Hb.
    { intros A K. change (K T3) with ((λ _ : unit, K) tt T3). rewrite <-(exec E3). unfold mbind, M_bind. by destruct (read pl is_leaf T2) as [[b U]|]. }
    rewrite Hb. by rewrite (exec E4).
  - apply (merged_lowered nx nl nr Hl Hr HP eq_refl eq_refl T4 _ I4 TT); [apply (wk_header _ _ Wk3)| |done|done]. apply (works_pinned g g3 P Wk3 PP).
Qed.
End one_pair.
End pairs.
