(* ===== verification/IndexDelete.v ===== *)
(** * [delete_entry]

    The way up after an item was removed: the root is adjusted, a node takes an element
    from its neighbor, or two nodes become one and the parent loses a child.  The pool
    keeps its frames: [coalesce] and [adjust_root] do not mark the pages they change. *)

From stdpp Require Import sorting.
From S2P Require Import Prelude Types Bytes RecordPage IndexKey IndexNode IndexNodeSpec IndexPool IndexLog BplusTree BplusTreeOps IndexLaws IndexSteps IndexRoot IndexNodeOps IndexTree IndexFind IndexInsert IndexInsertEntry IndexMtr IndexScan IndexBody IndexPair.
Local Open Scope Z_scope.

(** ** The specification: the items without those of a key *)
Definition delete_item (h : IndexFileHeader) (key : list Z) (l : list (list Z)) : list (list Z) :=
  List.filter (λ it, negb (kc (comparator h) (item_key h it) key =? 0)) l.

Section deleting.
Context {S : Type} `{!IndexPool S, !IndexPoolLaws S}.
Notation Tree := (Tree S).
Implicit Types (T : Tree) (N : gmap PageNum node) (g : ghost) (p q : PageNum) (n m : node).
Notation kcmp h := (comparator h).
Notation kok h := (key_ok (attr_type h) (attr_length h)).
Notation kwf h := (λ lo hi t, wf h (kcmp h) (kok h) false lo hi t).

(** What is left: no tree, or a tree with the items and no more levels. *)
Definition left_with N g (l : list (list Z)) (lv : nat) : Prop :=
  (l = [] ∧ root_page (g_header g) = BP_INVALID_PAGE_NUM) ∨ ∃ W : whole, tree_in N g W ∧ flat (projT2 W) = l ∧ (projT1 W ≤ lv)%nat.

Lemma trims_rooted r g : trims g (rooted r g).
Proof. split; try done. by exists r. Qed.

(** The node itself. *)
Lemma lowered_node T N g {lv} (c : ctx lv) (t : tree lv) : lowered T N g c t →
  (∃ nx, N !! page_of t = Some (mkNode (at_leaves lv) (ctx_parent c) nx (items_of (body t)))) ∧ (∀ x, x ∈ body t → elt_holds N (page_of t) x) ∧ ctx_holds N (page_of t) c.
Proof.
  intros LW. destruct (proj1 (holds_plug N c t) (lw_holds _ _ _ _ _ LW)) as [Ht Hc]. rewrite <-(mk_body t) in Ht at 1. apply holds_mk in Ht as [? ?]. done.
Qed.

Lemma lowered_enough T N g {lv} (c : ctx lv) (t : tree lv) : lowered T N g c t → node_min (g_header g) (is_top c) (at_leaves lv) ≤ Z.of_nat (length (body t)) →
  tree_in N g (plug c t).
Proof.
  intros [_ _ _ Hh Hnd (lo & hi & t0 & Hc & [Hlen Hf] & _) HL Hr] Hmin. split; try done. apply wf_plug. exists lo, hi. split; [done|].
  rewrite <-(mk_body t). apply wf_mk. split; [lia|done].
Qed.

(** ** The root *)
Lemma root_leaf_gone T N g (p : PageNum) : lowered T N g Top ((p, []) : tree 0) →
  ∃ T' N' g', adjust_root p T = Some (RC.SUCCESS, T') ∧ st T' N' g' ∧ trims g g' ∧ root_page (g_header g') = BP_INVALID_PAGE_NUM.
Proof.
  intros LW. destruct (lowered_node T N g Top _ LW) as ([nx Hn] & _). cbn in Hn. pose proof (lw_st _ _ _ _ _ LW) as I. pose proof (lw_pinned _ _ _ _ _ LW) as Hp. cbn in Hp.
  destruct (update_root_ok T N g BP_INVALID_PAGE_NUM I (lw_mode _ _ _ _ _ LW)) as (T1 & E1 & I1); [by vm_compute|].
  destruct (memo_dispose_ok T1 N _ p _ I1 Hn) as (T2 & E2 & I2). eexists T2, _, _. split; [|split; [exact I2|split; [|done]]].
  - unfold adjust_root. rewrite (exec (read_ok T N g p _ is_leaf true I Hp Hn (λ d R, rep_is_leaf _ _ d R))).
    rewrite (exec (read_ok T N g p _ node_size _ I Hp Hn (λ d R, rep_size _ (s_index _ _ _ I) _ d R))). cbn [nd_items andb].
    change (Z.of_nat (length (items_of (lv := 0) []))) with 0. change (0 <? 0) with false. cbn iota. change (0 =? 0) with true. erewrite (bind_run (assertb true;; _) _ T (RC.SUCCESS, BP_INVALID_PAGE_NUM) T) by done. cbn iota.
    change (RC.OB_FAIL RC.SUCCESS) with false. cbn iota. by rewrite (exec E1), (exec E2).
  - eapply trims_trans; [apply trims_rooted|]. by apply (trims_dispose T1 N _ p _ I1 Hn).
Qed.

Lemma root_child_ok T N g (p : PageNum) {lv} (k : list Z) (t : tree lv) : delete_ok (g_header g) →
  lowered T N g Top ((p, [(k, t)]) : tree (Datatypes.S lv)) →
  ∃ T' N' g', adjust_root p T = Some (RC.SUCCESS, T') ∧ st T' N' g' ∧ trims g g' ∧ tree_in N' g' (existT lv t).
Proof.
  intros HD LW. destruct (lowered_node T N g Top _ LW) as ([nx Hn] & Hk & _). cbn in Hn, Hk. pose proof (lw_st _ _ _ _ _ LW) as I. pose proof (lw_pinned _ _ _ _ _ LW) as Hp. cbn in Hp.
  pose proof (s_index _ _ _ I) as HI. specialize (Hk (k, t) ltac:(left)). cbn in Hk. destruct (holds_page N p t Hk) as (m & Hm & _ & _ & Epar).
  destruct (st_page_range _ _ _ _ _ I Hm) as [_ Hr].
  destruct (memo_get_ok T N g (page_of t) m I Hm) as (T1 & E1 & I1). assert (pinned (push (MemoPin (page_of t)) g) (page_of t)) as Hpt by (left; apply elem_of_app; right; left).
  destruct (set_parent_ok T1 N _ (page_of t) m BP_INVALID_PAGE_NUM I1 Hpt Hm ltac:(by vm_compute)) as (T2 & E2 & I2).
  destruct (update_root_ok T2 _ _ (page_of t) I2 (lw_mode _ _ _ _ _ LW) Hr) as (T3 & E3 & I3).
  pose proof (lw_pages _ _ _ _ _ LW) as Hnd. cbn in Hnd. rewrite app_nil_r in Hnd. apply list.NoDup_cons in Hnd as [Hpn Hnd].
  assert (page_of t ≠ p) as Hne by (intros E; apply Hpn; rewrite <-E; apply page_of_elem).
  assert (<[page_of t := with_parent BP_INVALID_PAGE_NUM m]> N !! p = Some (mkNode false BP_INVALID_PAGE_NUM nx (items_of (lv := Datatypes.S lv) [(k, t)]))) as Hn' by (by rewrite lookup_insert_ne).
  destruct (memo_dispose_ok T3 _ _ p _ I3 Hn') as (T4 & E4 & I4). eexists T4, _, _. split; [|split; [exact I4|split]].
  - unfold adjust_root. rewrite (exec (read_ok T N g p _ is_leaf false I Hp Hn (λ d R, rep_is_leaf _ _ d R))).
    rewrite (exec (read_ok T N g p _ node_size _ I Hp Hn (λ d R, rep_size _ HI _ d R))). cbn [andb].
    erewrite (bind_run (_ ≫= _) _ T (RC.SUCCESS, page_of t) T2).
    2:{ rewrite (exec (header_ok _ _ _ I)).
        rewrite (exec (read_ok T N g p _ (λ d, child_at (g_header g) d 0) (page_of t) I Hp Hn (λ d R, rep_child _ _ d 0 k (page_of t) HI R eq_refl eq_refl Hr))).
        rewrite (exec E1). change (RC.OB_FAIL RC.SUCCESS) with false. cbn iota. by rewrite (exec E2). }
    cbn iota. change (RC.OB_FAIL RC.SUCCESS) with false. cbn iota. by rewrite (exec E3), (exec E4).
  - eapply trims_trans; [apply works_trims, (works_push (MemoPin (page_of t)))|]. eapply trims_trans; [apply works_trims, (works_touch (page_of t))|].
    eapply trims_trans; [apply (trims_rooted (page_of t))|]. by apply (trims_dispose T3 _ _ p _ I3 Hn').
  - assert (∀ q, q ∈ tree_pages t → q ≠ p) as Hqp by (intros q Hq ->; done).
    split; cbn [projT2 projT1 g_header with_disposed with_raw rooted soil with_header touch push]; try done.
    + apply (holds_parent N _ p); [done| | |done].
      * intros q Hq Hqt. rewrite lookup_delete_ne, lookup_insert_ne by (done || (symmetry; by apply Hqp)). done.
      * rewrite lookup_delete_ne, lookup_insert_eq, Hm by done. done.
    + destruct (lw_order _ _ _ _ _ LW) as (lo & hi & t0 & [-> ->] & [_ Hf] & _). destruct Hf as [_ Hw]. apply (wf_header (page_of t)).
      apply (wf_root (g_header g) HI); [done|]. destruct lv; [done|]. destruct Hw as [[Hl _] _]. destruct HD as [_ H6]. cbn [internal_min] in Hl.
      pose proof (Z.div_le_mono 6 (internal_max_size (g_header g)) 2 ltac:(lia) H6) as H3. change (6 / 2) with 3 in H3. destruct t as [pt kt]. cbn [snd] in *. lia.
    + pose proof (lw_linked _ _ _ _ _ LW) as HL. unfold leaves in HL |- *. cbn in HL. rewrite app_nil_r in HL. eapply (linked_frame_on N); [|exact HL].
      intros q x Hq Hx. assert (q ≠ p) as Hqp' by (apply Hqp; by apply leaves_pages). unfold next_of in *. rewrite lookup_delete_ne by done.
      destruct (decide (page_of t = q)) as [<-|Hd]; [rewrite lookup_insert_eq; by rewrite Hm in Hx|by rewrite lookup_insert_ne].
Qed.

(** ** A node below the root *)
Lemma half_enough h leaf : delete_ok h → 2 ≤ max_size h leaf / 2 ∧ (leaf = false → 3 ≤ max_size h leaf / 2).
Proof. intros [H4 H6]. destruct leaf; unfold max_size; (split; [|intros E]); try done; apply Z.div_le_lower_bound; lia. Qed.

Section up.
Context {lv : nat} T N g (P : PageNum) (l : list (kid lv)) (kk : list Z) (r : list (kid lv)) (c : ctx (Datatypes.S lv)) (t : tree lv).
Context (LW : lowered T N g (Up P l kk r c) t) (HD : delete_ok (g_header g)).
Notation h := (g_header g).
Notation kids := (l ++ (kk, t) :: r).

Lemma up_parent : ∃ nx, N !! P = Some (mkNode false (ctx_parent c) nx (kid_items kids)) ∧ ∀ x, x ∈ kids → holds N P x.2.
Proof using LW.
  destruct (proj1 (holds_plug N (Up P l kk r c) t) (lw_holds _ _ _ _ _ LW)) as [Ht ([nx E] & Hk & _)]. exists nx. split; [by rewrite kid_items_app|].
  intros x [Hx|[->|Hx]%elem_of_cons]%elem_of_app; [|exact Ht|]; apply Hk, elem_of_app; auto.
Qed.

Lemma up_body : ∃ xs x, body t = xs ++ [x] ∧ (at_leaves lv = true ∨ xs ≠ []).
Proof using LW HD.
  destruct (lw_order _ _ _ _ _ LW) as (lo & hi & t0 & _ & [[Hlen _] _] & _). cbn [is_top low_min] in Hlen. destruct (half_enough h (at_leaves lv) HD) as [H2 H3].
  destruct (body t) as [|x xs] eqn:E using rev_ind; [cbn [length] in Hlen; lia|]. exists xs, x. split; [done|]. destruct (at_leaves lv) eqn:El; [by left|right].
  specialize (H3 eq_refl). rewrite length_app in Hlen. intros ->. cbn [length] in Hlen. lia.
Qed.

Notation n := (length (body t)).
Notation k := (kind (at_leaves lv)).

(** The steps before the neighbor is used. *)
Lemma up_prefix fuel i kn (tn : tree lv) : kids !! i = Some (kn, tn) →
  (if Z.of_nat (length l) =? 0 then 1 else Z.of_nat (length l) - 1) = Z.of_nat i → Z.of_nat n < min_size h (at_leaves lv) →
  ∃ T1 g1, works g g1 ∧ st T1 N g1 ∧ pinned g1 P ∧ pinned g1 (page_of tn) ∧
    coalesce_or_redistribute fuel k (page_of t) T =
      (if max_size h (at_leaves lv) <? Z.of_nat n + Z.of_nat (length (body tn)) then redistribute k (page_of tn) (page_of t) P (Z.of_nat (length l))
       else
         rc ← coalesce_nodes k (page_of tn) (page_of t) P (Z.of_nat (length l));
         if RC.OB_FAIL rc then mret rc
         else match fuel with O => abort | Datatypes.S fuel => coalesce_or_redistribute fuel InternalHandler P end) T1.
Proof using LW HD.
  intros Hi Ei Hn. pose proof (lw_st _ _ _ _ _ LW) as I. pose proof (s_index _ _ _ I) as HI. destruct up_parent as (nx & HP & HK). destruct up_body as (xs & x & Eb & Hne).
  destruct (lowered_node T N g _ t LW) as ([nxt Ht] & _). pose proof (lw_pinned _ _ _ _ _ LW) as Hp. cbn [ctx_parent] in Ht.
  destruct (st_page_range _ _ _ _ _ I HP) as [HPr _].
  assert (∀ z, z ∈ kids → in_srange 32 (page_of z.2)) as Hrange.
  { intros z Hz. destruct (holds_page N P z.2 (HK z Hz)) as (m & Hm & _). by apply (st_page_range _ _ _ _ _ I Hm). }
  pose proof (HK (kn, tn) ltac:(by eapply list_elem_of_lookup_2)) as Hkn. cbn in Hkn. rewrite <-(mk_body tn) in Hkn. apply holds_mk in Hkn as [[nxn Hn'] _].
  destruct (memo_get_ok T N g P _ I HP) as (T1 & E1 & I1). set (g1 := push (MemoPin P) g) in *. assert (works g g1) as W1 by apply works_push.
  assert (pinned g1 P) as Pp by (left; apply elem_of_app; right; left). assert (pinned g1 (page_of t)) as Pt by (by apply (works_pinned g)).
  destruct (memo_get_ok T1 N g1 (page_of tn) _ I1 Hn') as (T2 & E2 & I2). set (g2 := push (MemoPin (page_of tn)) g1) in *. assert (works g1 g2) as W2 by apply works_push.
  assert (MemoPin (page_of tn) ∈ g_items g2) as Pn2 by (apply elem_of_app; right; left).
  destruct (memo_latch_ok T2 N g2 (page_of tn) I2 Pn2) as (T3 & E3 & I3). cbn [g_mode g2 g1 push] in E3, I3. rewrite (lw_mode _ _ _ _ _ LW) in E3, I3.
  set (g3 := push (MemoLatch READ_WRITE (page_of tn)) g2) in *. assert (works g2 g3) as W3 by apply works_push.
  exists T3, g3. split; [eapply works_trans; [exact W1|by eapply works_trans]|]. split; [done|]. split; [by apply (works_pinned g2), (works_pinned g1)|].
  split; [apply (works_pinned g2); [done|by left]|].
  destruct (read_page T1 N g1 P _ I1 Pp HP) as (d & R & Hrd).
  pose proof (read_elt_key T1 N g1 (page_of t) _ (body t) (length xs) x I1 Pt Ht eq_refl eq_refl) as Ekey.
  rewrite Eb in Ekey. specialize (Ekey (list_lookup_middle xs [] x _ eq_refl)). cbn [g_header g1 push] in Ekey.
  destruct (lw_order _ _ _ _ _ LW) as (lo & hi & t0 & (lo0 & hi0 & OL & OR & _ & OC) & [_ Hf] & Pt0 & Wt0). rewrite Eb in Hf.
  destruct (fills_key h HI (kcmp h) (kok h) lo hi xs x Hne Hf) as [Ok Hw].
  assert (kid_items kids = kid_items (l ++ (kk, t0) :: r)) as Eits by (rewrite !kid_items_app; f_equal; unfold kid_items; cbn; unfold kid_ref; cbn; by rewrite Pt0).
  destruct (lookup_child h _ d lo0 l kk t0 r hi0 lo hi (elt_key h x) HI R eq_refl Eits OL Wt0 OR Ok Hw) as [pos Elk].
  assert (kids !! length l = Some (kk, t)) as Hlk by (by apply list_lookup_middle).
  assert (∀ j z, kids !! j = Some z → child_at h d (Z.of_nat j) = Some (page_of z.2)) as Hchild.
  { intros j z Hj. apply (rep_child h _ d j z.1 (page_of z.2) HI R eq_refl); [|apply Hrange; by eapply list_elem_of_lookup_2]. cbn. unfold kid_items.
    rewrite !list_lookup_fmap, Hj. by destruct z. }
  assert (∀ f, coalesce_or_redistribute f k (page_of t) T =
      (if max_size h (at_leaves lv) <? Z.of_nat n + Z.of_nat (length (body tn)) then redistribute k (page_of tn) (page_of t) P (Z.of_nat (length l))
       else
         rc ← coalesce_nodes k (page_of tn) (page_of t) P (Z.of_nat (length l));
         if RC.OB_FAIL rc then mret rc
         else match f with O => abort | Datatypes.S f => coalesce_or_redistribute f InternalHandler P end) T3) as Hgo; [|apply Hgo].
  intros f. assert (pinned g3 (page_of t)) as Pt3 by (by apply (works_pinned g2), (works_pinned g1)). assert (pinned g3 (page_of tn)) as Pn3 by (apply (works_pinned g2); [done|by left]).
  assert (st T3 N g3 ∧ g_header g3 = h) as [_ Eh3] by done.
  destruct f as [|f]; cbn [coalesce_or_redistribute]; rewrite (exec (header_ok _ _ _ I));
    rewrite (exec (read_ok T N g (page_of t) _ node_size _ I Hp Ht (λ d R, rep_size _ HI _ d R))); cbn [nd_items]; rewrite items_len;
    (erewrite (bind_run (node_min_size _) _ T); [|unfold node_min_size; rewrite (exec (header_ok _ _ _ I)); by rewrite (exec (read_ok T N g (page_of t) _ is_leaf _ I Hp Ht (λ d R, rep_is_leaf _ _ d R)))]);
    cbn [nd_leaf]; rewrite (proj2 (Z.leb_gt _ _)) by lia;
    rewrite (exec (read_ok T N g (page_of t) _ parent_page_num _ I Hp Ht (λ d R, rep_parent _ _ d R))); cbn [nd_parent];
    rewrite (proj2 (Z.eqb_neq _ _)) by (change BP_INVALID_PAGE_NUM with (-1); lia);
    rewrite (exec E1); change (RC.OB_FAIL RC.SUCCESS) with false; cbn iota;
    replace (Z.of_nat n - 1) with (Z.of_nat (length xs)) by (rewrite Eb, length_app; cbn; lia);
    rewrite (exec Ekey), (exec (Hrd _ _ _ Elk)), (exec (Hrd _ (λ d, child_at h d _) _ (Hchild _ _ Hlk)));
    cbn [snd]; rewrite Z.eqb_refl; (erewrite (bind_run (assertb true) _ T1 tt T1) by done);
    rewrite Ei, (exec (Hrd _ (λ d, child_at h d _) _ (Hchild _ _ Hi))); cbn [snd];
    rewrite (exec E2); change (RC.OB_FAIL RC.SUCCESS) with false; cbn iota; unfold xlatch; rewrite (exec E3);
    rewrite (exec (read_ok T3 N g3 (page_of tn) _ node_size _ I3 Pn3 Hn' (λ d R, rep_size _ HI _ d R))); cbn [nd_items]; rewrite items_len;
    (erewrite (bind_run (node_max_size _) _ T3); [|unfold node_max_size; rewrite (exec (header_ok _ _ _ I3)); by rewrite (exec (read_ok T3 N g3 (page_of t) _ is_leaf _ I3 Pt3 Ht (λ d R, rep_is_leaf _ _ d R)))]);
    cbn [nd_leaf]; rewrite Eh3; done.
Qed.

(** The node and its neighbor as a pair. *)
Section as_pair.
Context T1 g1 (I1 : st T1 N g1) (W1 : works g g1) (PP : pinned g1 P).

Lemma up_old lo0 hi0 lo hi (t0 : tree lv) : left_of (kwf h) lo0 l kk lo → right_of (kwf h) hi r hi0 → wf h (kcmp h) (kok h) false lo hi t0 →
  internal_min h (is_top c) ≤ Z.of_nat (length l + 1 + length r) ≤ internal_max_size h →
  wf h (kcmp h) (kok h) (is_top c) lo0 hi0 ((P, l ++ (kk, t0) :: r) : tree (Datatypes.S lv)).
Proof using.
  intros HL HR Ht Hlen. split; [cbn [snd]; rewrite length_app; cbn; lia|]. apply segment_focus. by exists lo, hi.
Qed.

Lemma wf_sizes lo hi (u : tree lv) : wf h (kcmp h) (kok h) false lo hi u →
  max_size h (at_leaves lv) / 2 ≤ Z.of_nat (length (body u)) ≤ max_size h (at_leaves lv) ∧ IndexBody.fills h (kcmp h) (kok h) lo hi (body u) ∧ body u ≠ [].
Proof using HD.
  intros Hw. rewrite <-(mk_body u) in Hw. apply wf_mk in Hw as [Hl Hf]. destruct (half_enough h (at_leaves lv) HD) as [H2 _].
  replace (node_min h false (at_leaves lv)) with (max_size h (at_leaves lv) / 2) in Hl by (unfold node_min; by case (at_leaves lv)). split; [done|]. split; [done|].
  intros E. rewrite E in Hl. cbn [length] in Hl. lia.
Qed.

Lemma low_sizes : max_size h (at_leaves lv) / 2 - 1 ≤ Z.of_nat n ≤ max_size h (at_leaves lv) ∧ body t ≠ [].
Proof using LW HD.
  destruct (lw_order _ _ _ _ _ LW) as (lo & hi & t0 & _ & [Hlen _] & _). cbn [is_top low_min] in Hlen. destruct up_body as (xs & x & E & _).
  split; [done|]. rewrite E. by destruct xs.
Qed.

Lemma up_pair_first kr (tr : tree lv) R : l = [] → r = (kr, tr) :: R → pinned g1 (page_of tr) →
  (∃ lo hi, pair T1 N g1 P [] kk t kr tr R c lo hi) ∧ max_size h (at_leaves lv) / 2 ≤ Z.of_nat (length (body tr)) ≤ max_size h (at_leaves lv).
Proof using LW HD I1 W1 PP.
  intros El Er Pn. pose proof low_sizes as [_ Hbt]. pose proof (wk_header _ _ W1) as Eh. destruct (lw_order _ _ _ _ _ LW) as (lo & hi & t0 & (lo0 & hi0 & OL & OR & Hlen & OC) & [_ Hf] & Pt0 & Wt0).
  pose proof (up_old lo0 hi0 lo hi t0 OL OR Wt0 Hlen) as Hold. pose proof LW as [_ Hm Hp Hh Hnd _ HL Hroot]. cbn [plug] in Hh, Hnd, HL, Hroot.
  rewrite El in OL, Hlen, Hold, Hh, Hnd, HL, Hroot. rewrite Er in OR, Hlen, Hold, Hh, Hnd, HL, Hroot. cbn [app length] in Hlen, Hold, Hh, Hnd, HL, Hroot.
  destruct OR as [[? _]|(k2 & t2 & r2 & [= <- <- <-] & -> & Hs)]; [done|]. apply (segment_focus _ (Some kr) [] kr tr R hi0) in Hs as (lo2 & hi2 & H1 & H2 & H3).
  assert (lo2 = Some kr) as -> by (destruct H1 as [(_ & -> & _)|[? _]]; done). destruct (wf_sizes _ _ _ H2) as (S1 & S2 & S3). split; [|done].
  exists lo, hi2. split; rewrite ?Eh; try done; [by rewrite (wk_mode _ _ W1)|..].
  - split; [done|]. split; [by apply (works_pinned g)|done].
  - exists lo0, hi0, ((P, (kk, t0) :: (kr, tr) :: R) : tree (Datatypes.S lv)). done.
Qed.

Lemma up_pair_last L kl (tl : tree lv) : l = L ++ [(kl, tl)] → pinned g1 (page_of tl) →
  (∃ lo hi, pair T1 N g1 P L kl tl kk t r c lo hi) ∧ max_size h (at_leaves lv) / 2 ≤ Z.of_nat (length (body tl)) ≤ max_size h (at_leaves lv).
Proof using LW HD I1 W1 PP.
  intros El Pn. pose proof (wk_header _ _ W1) as Eh. destruct (lw_order _ _ _ _ _ LW) as (lo & hi & t0 & (lo0 & hi0 & OL & OR & Hlen & OC) & [_ Hf] & Pt0 & Wt0).
  pose proof (up_old lo0 hi0 lo hi t0 OL OR Wt0 Hlen) as Hold. pose proof LW as [_ Hm Hp Hh Hnd _ HL Hroot]. cbn [plug] in Hh, Hnd, HL, Hroot.
  assert (∀ z, l ++ z = L ++ (kl, tl) :: z) as El' by (intros z; by rewrite El, <-app_assoc). rewrite El' in Hh, Hnd, HL, Hroot.
  destruct OL as [(E & _)|[Hs ->]]; [rewrite El in E; by destruct L|]. rewrite El in Hs. apply segment_focus in Hs as (lo2 & hi2 & H1 & H2 & H3).
  assert (hi2 = Some kk) as -> by (destruct H3 as [[_ ->]|(? & ? & ? & ? & _)]; done). destruct (wf_sizes _ _ _ H2) as (S1 & S2 & S3). split; [|done].
  exists lo2, hi. split; rewrite ?Eh; try done; [by rewrite (wk_mode _ _ W1)|..].
  - split; [done|]. split; [done|]. by apply (works_pinned g).
  - split; [done|]. apply low_sizes.
  - eexists lo0, hi0, _. split; [exact H1|]. split; [exact OR|]. split; [exact OC|]. split; [|exact Hold]. done.
  - rewrite El, length_app in Hlen. cbn [length] in Hlen. lia.
Qed.
End as_pair.
End up.

(** ** [coalesce_or_redistribute] *)
Lemma min_enough h lv' root : index_ok h → delete_ok h → node_min h root (at_leaves lv') ≤ min_size h (at_leaves lv').
Proof.
  intros HI [H4 H6]. unfold node_min, min_size, leaf_min, internal_min, max_size. destruct (at_leaves lv'); rewrite Z.quot_div_nonneg by lia.
  - pose proof (Z.mul_div_le (leaf_max_size h) 2 ltac:(lia)). destruct root; lia.
  - pose proof (Z.mul_div_le (internal_max_size h) 2 ltac:(lia)). destruct root; lia.
Qed.

Definition settles fuel T N g {lv} (c : ctx lv) (t : tree lv) : Prop :=
  ∃ T' N' g', coalesce_or_redistribute fuel (kind (at_leaves lv)) (page_of t) T = Some (RC.SUCCESS, T') ∧ st T' N' g' ∧ trims g g' ∧
    left_with N' g' (flat (projT2 (plug c t))) (lv + ctx_depth c).

(** Enough elements. *)
Lemma settles_enough fuel T N g {lv} (c : ctx lv) (t : tree lv) : delete_ok (g_header g) → lowered T N g c t →
  min_size (g_header g) (at_leaves lv) ≤ Z.of_nat (length (body t)) → settles fuel T N g c t.
Proof.
  intros HD LW Hn. pose proof (lw_st _ _ _ _ _ LW) as I. destruct (lowered_node T N g c t LW) as ([nx Ht] & _). pose proof (lw_pinned _ _ _ _ _ LW) as Hp.
  exists T, N, g. split; [|split; [done|split; [apply trims_refl|]]].
  - destruct fuel; cbn [coalesce_or_redistribute]; rewrite (exec (header_ok _ _ _ I));
      rewrite (exec (read_ok T N g (page_of t) _ node_size _ I Hp Ht (λ d R, rep_size _ (s_index _ _ _ I) _ d R))); cbn [nd_items]; rewrite items_len;
      (erewrite (bind_run (node_min_size _) _ T); [|unfold node_min_size; rewrite (exec (header_ok _ _ _ I)); by rewrite (exec (read_ok T N g (page_of t) _ is_leaf _ I Hp Ht (λ d R, rep_is_leaf _ _ d R)))]);
      cbn [nd_leaf]; by rewrite (proj2 (Z.leb_le _ _)) by lia.
  - right. exists (plug c t). split; [|split; [done|by rewrite plug_level]]. apply (lowered_enough T); [done|].
    pose proof (min_enough (g_header g) lv (is_top c) (s_index _ _ _ I) HD). lia.
Qed.

(** The root. *)
Lemma settles_root fuel T N g {lv} (t : tree lv) : delete_ok (g_header g) → lowered T N g Top t →
  Z.of_nat (length (body t)) < min_size (g_header g) (at_leaves lv) → settles fuel T N g Top t.
Proof.
  intros HD LW Hn. pose proof (lw_st _ _ _ _ _ LW) as I. destruct (lowered_node T N g Top t LW) as ([nx Ht] & _). pose proof (lw_pinned _ _ _ _ _ LW) as Hp. cbn [ctx_parent] in Ht.
  assert (∀ T', (if 1 <? Z.of_nat (length (body t)) then mret tt else ignore (adjust_root (page_of t))) T = Some (tt, T') →
    coalesce_or_redistribute fuel (kind (at_leaves lv)) (page_of t) T = Some (RC.SUCCESS, T')) as Hgo.
  { intros T' E. destruct fuel; cbn [coalesce_or_redistribute]; rewrite (exec (header_ok _ _ _ I));
      rewrite (exec (read_ok T N g (page_of t) _ node_size _ I Hp Ht (λ d R, rep_size _ (s_index _ _ _ I) _ d R))); cbn [nd_items]; rewrite items_len;
      (erewrite (bind_run (node_min_size _) _ T); [|unfold node_min_size; rewrite (exec (header_ok _ _ _ I)); by rewrite (exec (read_ok T N g (page_of t) _ is_leaf _ I Hp Ht (λ d R, rep_is_leaf _ _ d R)))]);
      cbn [nd_leaf]; rewrite (proj2 (Z.leb_gt _ _)) by lia;
      rewrite (exec (read_ok T N g (page_of t) _ parent_page_num _ I Hp Ht (λ d R, rep_parent _ _ d R))); cbn [nd_parent]; rewrite Z.eqb_refl; by rewrite (exec E). }
  destruct (lw_order _ _ _ _ _ LW) as (lo & hi & t0 & _ & [[Hmin _] _] & _). cbn [is_top low_min] in Hmin.
  assert (tree_in N g (plug Top t) → Z.of_nat (length (body t)) ≤ 0 ∨ settles fuel T N g Top t ∨ (length (body t) = 1)%nat) as Hbig.
  { intros HT. destruct (Z.ltb_spec 1 (Z.of_nat (length (body t)))) as [Hlt|Hge]; [|lia]. right. left. exists T, N, g. split; [by apply Hgo|]. split; [done|]. split; [apply trims_refl|].
    right. exists (plug Top t). split; [done|]. split; [done|]. by rewrite plug_level. }
  destruct (decide (Z.of_nat (length (body t)) ≤ 1)) as [Hle|Hgt].
  - destruct lv as [|lv], t as [p b]; cbn [body snd page_of fst at_leaves kind] in *.
    + destruct b as [|it [|]]; [|clear Hbig|cbn in Hle; lia].
      * destruct (root_leaf_gone T N g p LW) as (T' & N' & g' & E & I' & Tr & Hr). exists T', N', g'. split; [apply Hgo; unfold ignore; cbn [length]; change (1 <? Z.of_nat 0) with false; cbn iota; by rewrite (exec E)|].
        split; [done|]. split; [done|]. left. by split.
      * destruct (mark_dirty_ok T N g p I Hp) as (T1 & E1 & I1). exists T1, N, (soil p g). split; [|split; [done|split; [apply works_trims, works_soil|]]].
        -- apply Hgo. unfold ignore. cbn [length]. change (1 <? Z.of_nat 1) with false. cbn iota. erewrite (bind_run (adjust_root p)); [done|]. unfold adjust_root.
           rewrite (exec (read_ok T N g p _ is_leaf _ I Hp Ht (λ d R, rep_is_leaf _ _ d R))).
           rewrite (exec (read_ok T N g p _ node_size _ I Hp Ht (λ d R, rep_size _ (s_index _ _ _ I) _ d R))). cbn [nd_leaf nd_items]. rewrite items_len. cbn [length andb].
           change (0 <? Z.of_nat 1) with true. cbn iota. by rewrite (exec E1).
        -- right. exists (existT O ((p, [it]) : tree 0)). split; [|done]. destruct (lowered_enough T N g Top ((p, [it]) : tree 0) LW) as [H1 H2 H3 H4 H5]; [cbn; lia|]. by split.
    + destruct b as [|[k t] [|]]; [cbn in Hmin; lia|clear Hbig|cbn in Hle; lia].
      destruct (root_child_ok T N g p k t HD LW) as (T' & N' & g' & E & I' & Tr & HT). exists T', N', g'. split; [apply Hgo; unfold ignore; cbn [length]; change (1 <? Z.of_nat 1) with false; cbn iota; by rewrite (exec E)|].
      split; [done|]. split; [done|]. right. exists (existT lv t). split; [done|]. split; [|cbn; lia]. unfold flat. cbn. by rewrite app_nil_r.
  - destruct Hbig as [?|[?|?]]; [|lia|done|lia]. apply (lowered_enough T); [done|]. cbn [is_top]. unfold node_min. destruct (at_leaves lv); cbn; lia.
Qed.

(** A node below the root, with one unit of fuel for the level above. *)
Section settle_up.
Context {lv : nat} T N g (P : PageNum) (l : list (kid lv)) (kk : list Z) (r : list (kid lv)) (c : ctx (Datatypes.S lv)) (t : tree lv).
Context (LW : lowered T N g (Up P l kk r c) t) (HD : delete_ok (g_header g)) (fuel : nat).
Context (IH : ∀ T N g (u : tree (Datatypes.S lv)), lowered T N g c u → delete_ok (g_header g) → settles fuel T N g c u).
Context (Hn : Z.of_nat (length (body t)) < min_size (g_header g) (at_leaves lv)).
Notation h := (g_header g).
Notation k := (kind (at_leaves lv)).

Lemma settle_pair L kl (tl : tree lv) kr (tr : tree lv) R T1 g1 lo hi (rd : M Tree RC) :
  l ++ (kk, t) :: r = L ++ (kl, tl) :: (kr, tr) :: R → works g g1 → pair T1 N g1 P L kl tl kr tr R c lo hi →
  max_size h (at_leaves lv) / 2 ≤ Z.of_nat (length (body tl) + length (body tr)) →
  coalesce_or_redistribute (Datatypes.S fuel) k (page_of t) T =
    (if max_size h (at_leaves lv) <? Z.of_nat (length (body tl) + length (body tr)) then rd
     else rc ← merge_steps k (page_of tl) (page_of tr) P (Z.of_nat (length L + 1));
          if RC.OB_FAIL rc then mret rc else coalesce_or_redistribute fuel InternalHandler P) T1 →
  (max_size h (at_leaves lv) < Z.of_nat (length (body tl) + length (body tr)) → redistributed T1 g1 P L kl tl kr tr R c rd) →
  settles (Datatypes.S fuel) T N g (Up P l kk r c) t.
Proof using HD IH.
  intros Ek W1 PA Hlow Hrun Hred. pose proof (wk_header _ _ W1) as Eh.
  destruct (Z.ltb_spec (max_size h (at_leaves lv)) (Z.of_nat (length (body tl) + length (body tr)))) as [Hlt|Hge].
  - destruct (Hred Hlt) as (T2 & N2 & g2 & W2 & E2 & I2 & Wk2 & HT & Hfl & Hlv). exists T2, N2, g2. split; [by rewrite Hrun|]. split; [done|].
    split; [apply works_trims; by eapply works_trans|]. right. exists W2. split; [done|]. cbn [plug]. rewrite Hfl, Ek. split; [done|]. rewrite Hlv. cbn [ctx_depth]. lia.
  - destruct (merge_ok T1 N g1 P L kl tl kr tr R c lo hi PA) as (T2 & N2 & g2 & E2 & Tr2 & LW2); rewrite ?Eh; [done|lia|].
    destruct (IH T2 N2 g2 _ LW2) as (T3 & N3 & g3 & E3 & I3 & Tr3 & Hleft).
    { destruct (tr_header _ _ Tr2) as [r' ->]. rewrite Eh. by destruct HD. }
    exists T3, N3, g3. split; [|split; [done|split]].
    + rewrite Hrun, (exec E2). exact E3.
    + eapply trims_trans; [by apply works_trims|]. by eapply trims_trans.
    + rewrite (merged_flat P L kl tl kr tr R c) in Hleft. cbn [plug]. rewrite Ek. by replace (lv + ctx_depth (Up P l kk r c))%nat with (Datatypes.S lv + ctx_depth c)%nat by (cbn; lia).
Qed.

End settle_up.

Lemma settles_up {lv} T N g (P : PageNum) (l : list (kid lv)) (kk : list Z) (r : list (kid lv)) (c : ctx (Datatypes.S lv)) (t : tree lv) fuel :
  lowered T N g (Up P l kk r c) t → delete_ok (g_header g) →
  (∀ T N g (u : tree (Datatypes.S lv)), lowered T N g c u → delete_ok (g_header g) → settles fuel T N g c u) →
  Z.of_nat (length (body t)) < min_size (g_header g) (at_leaves lv) → settles (Datatypes.S fuel) T N g (Up P l kk r c) t.
Proof.
  intros LW HD IH Hn. pose proof (low_sizes T N g P l kk r c t LW HD) as [Hlow _]. destruct (half_enough (g_header g) (at_leaves lv) HD) as [H2 _].
  destruct l as [|[kl tl] L _] using rev_ind.
  - destruct r as [|[kr tr] R].
    { destruct (lw_order _ _ _ _ _ LW) as (lo & hi & t0 & (lo0 & hi0 & _ & _ & Hlen & _) & _). exfalso. unfold internal_min in Hlen.
      destruct (half_enough (g_header g) false HD) as [H3 _]. cbn [max_size] in H3. destruct (is_top c); cbn [length] in Hlen; lia. }
    destruct (up_prefix T N g P [] kk ((kr, tr) :: R) c t LW HD (Datatypes.S fuel) 1 kr tr) as (T1 & g1 & W1 & I1 & PP & Pn & Hrun); [done|done|done|].
    destruct (up_pair_first T N g P [] kk ((kr, tr) :: R) c t LW HD T1 g1 I1 W1 PP kr tr R eq_refl eq_refl Pn) as [(lo & hi & PA) Hsz]. pose proof (wk_header _ _ W1) as Eh.
    apply (settle_pair T N g P [] kk ((kr, tr) :: R) c t HD fuel IH [] kk t kr tr R T1 g1 lo hi (redistribute (kind (at_leaves lv)) (page_of tr) (page_of t) P 0)); try done.
    + lia.
    + rewrite Hrun, Nat2Z.inj_add. done.
    + intros Hlt. pose proof (redistribute_first_ok T1 N g1 P [] kk t kr tr R c lo hi PA) as HR. rewrite Eh in HR. apply HR; try done; lia.
  - destruct (up_prefix T N g P (L ++ [(kl, tl)]) kk r c t LW HD (Datatypes.S fuel) (length L) kl tl) as (T1 & g1 & W1 & I1 & PP & Pn & Hrun).
    { rewrite <-app_assoc. by apply list_lookup_middle. }
    { rewrite length_app. cbn [length]. rewrite (proj2 (Z.eqb_neq _ _)) by lia. lia. }
    { done. }
    destruct (up_pair_last T N g P (L ++ [(kl, tl)]) kk r c t LW HD T1 g1 I1 W1 PP L kl tl eq_refl Pn) as [(lo & hi & PA) Hsz]. pose proof (wk_header _ _ W1) as Eh.
    apply (settle_pair T N g P (L ++ [(kl, tl)]) kk r c t HD fuel IH L kl tl kk t r T1 g1 lo hi (redistribute (kind (at_leaves lv)) (page_of tl) (page_of t) P (Z.of_nat (length L + 1)))); try done.
    + by rewrite <-app_assoc.
    + lia.
    + rewrite Hrun, length_app. cbn [length]. rewrite Z.add_comm, <-Nat2Z.inj_add. unfold coalesce_nodes. rewrite (proj2 (Z.eqb_neq (Z.of_nat (length L + 1)) 0)) by lia. done.
    + intros Hlt. pose proof (redistribute_last_ok T1 N g1 P L kl tl kk t r c lo hi PA) as HR. rewrite Eh in HR. apply HR; lia.
Qed.

Lemma coalesce_ok {lv} (c : ctx lv) : ∀ fuel T N g (t : tree lv), lowered T N g c t → delete_ok (g_header g) → (ctx_depth c ≤ fuel)%nat → settles fuel T N g c t.
Proof.
  induction c as [lv|lv P l kk r c IH]; intros fuel T N g t LW HD Hfuel.
  - destruct (decide (min_size (g_header g) (at_leaves lv) ≤ Z.of_nat (length (body t)))); [by apply settles_enough|apply settles_root; [done|done|lia]].
  - destruct (decide (min_size (g_header g) (at_leaves lv) ≤ Z.of_nat (length (body t)))); [by apply settles_enough|].
    destruct fuel as [|fuel]; [cbn in Hfuel; lia|]. apply settles_up; [done|done| |lia]. intros. apply IH; [done|done|]. cbn in Hfuel. lia.
Qed.

(** ** The leaf *)
Section delete_leaf.
Context T N g (c : ctx 0) p its lo hi key (AL : at_leaf T N g c p its lo hi key).
Notation h := (g_header g).
Notation kc := (kc (kcmp h)).
Notation ikey := (item_key h).
Notation whole_items := (flat (projT2 (plug c ((p, its) : tree 0)))).

Lemma delete_outside l : Forall (λ it, kc (ikey it) key < 0) l ∨ Forall (λ it, 0 < kc (ikey it) key) l → delete_item h key l = l.
Proof. intros Hl. apply filter_all. intros it Hit. apply negb_true_iff, Z.eqb_neq. destruct Hl as [F|F]; rewrite list.Forall_forall in F; specialize (F it Hit); lia. Qed.

Lemma delete_absent l1 l2 : its = l1 ++ l2 → Forall (λ it, kc (ikey it) key < 0) l1 → Forall (λ it, 0 < kc (ikey it) key) l2 →
  has_key h key whole_items = false ∧ delete_item h key whole_items = whole_items.
Proof using AL.
  intros E F1 F2. destruct (leaf_outside T N g c p its lo hi key AL) as [G1 G2]. rewrite whole_items_eq, E, <-!app_assoc, app_assoc. split.
  - apply has_key_split; by apply Forall_app_2.
  - unfold delete_item. rewrite List.filter_app. f_equal; apply delete_outside; [left|right]; by apply Forall_app_2.
Qed.

Lemma delete_found l1 it l2 : its = l1 ++ it :: l2 → kc (ikey it) key = 0 → Forall (λ it, kc (ikey it) key < 0) l1 → Forall (λ it, 0 < kc (ikey it) key) l2 →
  has_key h key whole_items = true ∧ delete_item h key whole_items = flat (projT2 (plug c ((p, l1 ++ l2) : tree 0))).
Proof using AL.
  intros E E0 F1 F2. destruct (leaf_outside T N g c p its lo hi key AL) as [G1 G2]. rewrite !whole_items_eq, E. split.
  - apply (has_key_in h key _ it); [|done]. rewrite !elem_of_app, elem_of_cons. auto.
  - rewrite <-!app_assoc. unfold delete_item. rewrite !List.filter_app. cbn [List.filter app]. rewrite E0. cbn [negb Z.eqb].
    fold (delete_item h key (ctx_before (λ _ its, its) c)) (delete_item h key l1) (delete_item h key l2) (delete_item h key (ctx_after (λ _ its, its) c)).
    by rewrite !delete_outside by auto.
Qed.

Lemma leaf_found nx d : rep h (mkNode true (ctx_parent c) nx its) d → ∃ l1 l2 fd, leaf_lookup h (kcmp h) d key = Some (Z.of_nat (length l1), fd) ∧
  Forall (λ it, kc (ikey it) key < 0) l1 ∧ Forall (λ it, 0 < kc (ikey it) key) l2 ∧
  (fd = true ∧ (∃ it, its = l1 ++ it :: l2 ∧ kc (ikey it) key = 0) ∨ fd = false ∧ its = l1 ++ l2).
Proof using AL.
  intros R. destruct (al_wf _ _ _ _ _ _ _ _ _ AL) as (_ & Hs & Hk & _). cbn [snd] in Hs, Hk. pose proof (al_key _ _ _ _ _ _ _ _ _ AL) as Ok.
  destruct (leaf_lookup_ok h (s_index _ _ _ (al_st _ _ _ _ _ _ _ _ _ AL)) _ _ _ d key R eq_refl Hs Hk Ok) as (l1 & l2 & fd & E & El & F1 & F2 & Hfd).
  cbn [nd_items] in E. destruct fd.
  - destruct (proj1 Hfd eq_refl) as (it & Hit & E0). destruct l2 as [|x l2]; [done|]. injection Hit as ->. exists l1, l2, true. split; [done|]. split; [done|].
    split; [|left; split; [done|]; by exists it]. rewrite E in Hs, Hk. unfold keys_ok in Hk. apply Forall_app in Hk as [_ Hk]. apply list.Forall_cons in Hk as [Oit Hk].
    apply StronglySorted_app_1_r, StronglySorted_inv in Hs as [_ Hs]. rewrite list.Forall_forall in Hs, Hk |- *. intros y Hy. specialize (Hs y Hy). specialize (Hk y Hy). unfold item_lt in Hs.
    apply (kc_pos (kcmp h) (kok h)); [done..|]. apply (kc_le_lt (kcmp h) (kok h) key (ikey it)); [done..| |done]. pose proof (kc_zero (kcmp h) (kok h) (ikey it) key Oit Ok) as Hz. lia.
  - exists l1, l2, false. split; [done|]. split; [done|]. split; [|by right].
    destruct (leaf_search T N g c p its lo hi key AL nx d R) as (l1' & l2' & fd' & E' & El' & _ & _ & _ & Hnf). rewrite El in El'. injection El' as El' <-.
    assert (l1 = l1' ∧ l2 = l2') as [-> ->] by (rewrite E in E'; apply app_inj_1 in E' as [-> ->]; [done|lia]). by apply Hnf.
Qed.

(** The tree with the smaller leaf. *)
Lemma leaf_lowered nx l1 it l2 T' g' : delete_ok h → g_mode g = READ_WRITE → its = l1 ++ it :: l2 → N !! p = Some (mkNode true (ctx_parent c) nx its) → works g g' →
  st T' (<[p := mkNode true (ctx_parent c) nx (l1 ++ l2)]> N) g' → lowered T' (<[p := mkNode true (ctx_parent c) nx (l1 ++ l2)]> N) g' c ((p, l1 ++ l2) : tree 0).
Proof using AL.
  intros HD Hm E Hn Wk I'. pose proof (wk_header _ _ Wk) as Eh. destruct (al_tree _ _ _ _ _ _ _ _ _ AL) as [_ Hnd _ HL Hroot].
  destruct (leaf_node T N g c p its lo hi key AL) as (_ & _ & Hc). pose proof (al_wf _ _ _ _ _ _ _ _ _ AL) as Hw. rewrite pages_plug in Hnd. cbn in Hnd.
  split; rewrite ?Eh; try done.
  - by rewrite (wk_mode _ _ Wk).
  - apply (works_pinned g); [done|apply AL].
  - apply holds_plug. split; [exists nx; by rewrite lookup_insert_eq|]. apply (ctx_holds_frame N); [|done]. intros q Hq. apply lookup_insert_ne.
    intros <-. by apply list.NoDup_cons in Hnd as [? _].
  - by rewrite pages_plug.
  - exists lo, hi, ((p, its) : tree 0). split; [apply AL|]. split; [|by split]. destruct Hw as (Hlen & Hs & Hk & Hr & Hb). cbn [snd] in *. rewrite E in Hlen, Hs, Hk, Hr.
    rewrite length_app in Hlen. cbn [length] in Hlen. split.
    + cbn [body snd at_leaves]. rewrite length_app. unfold low_min, leaf_min, max_size in *. destruct (is_top c); lia.
    + cbn [body snd]. split; [|exact Hb]. apply StronglySorted_app in Hs as (H12 & H1 & H2). apply StronglySorted_inv in H2 as [H2 _]. unfold keys_ok in Hk.
      apply Forall_app in Hk as [K1 [_ K2]%list.Forall_cons], Hr as [R1 [_ R2]%list.Forall_cons]. split.
      * apply StronglySorted_app. split; [|done]. intros a b Ha Hb'. apply H12; [done|by right].
      * by apply Forall_app_2.
      * by apply Forall_app_2.
  - apply (linked_frame N); [by eapply same_next_insert|]. unfold leaves in *. by rewrite gather_plug in HL |- *.
  - rewrite Hroot. by apply plug_root.
Qed.

Lemma delete_leaf_ok fuel : delete_ok h → g_mode g = READ_WRITE → (ctx_depth c ≤ fuel)%nat →
  let l := whole_items in
  ∃ T' N' g', delete_entry_internal fuel p key T = Some (if has_key h key l then RC.SUCCESS else RC.RECORD_NOT_EXIST, T') ∧ st T' N' g' ∧ trims g g' ∧
    left_with N' g' (delete_item h key l) (ctx_depth c) ∧ (has_key h key l = false → T' = T).
Proof using AL.
  intros HD Hm Hfuel l. pose proof (al_st _ _ _ _ _ _ _ _ _ AL) as I. pose proof (al_pinned _ _ _ _ _ _ _ _ _ AL) as Hp. destruct (leaf_node T N g c p its lo hi key AL) as (nx & Hn & _).
  destruct (read_page T N g p _ I Hp Hn) as (d & R & Hrd). destruct (leaf_found nx d R) as (l1 & l2 & fd & Elk & F1 & F2 & Hcase).
  destruct Hcase as [(-> & it & E & E0)|(-> & E)].
  - destruct (delete_found l1 it l2 E E0 F1 F2) as [Hk Hd]. fold l in Hk, Hd. rewrite Hk, Hd.
    destruct (leaf_remove_ok T N g p _ I Hp Hn eq_refl (length l1)) as (T1 & E1 & I1); [cbn; rewrite E, length_app; cbn; lia|].
    unfold with_items in I1. cbn [nd_items nd_leaf nd_parent nd_next] in I1. assert (delete (length l1) its = l1 ++ l2) as Edel by (rewrite E; apply delete_middle). rewrite Edel in I1.
    destruct (mark_dirty_ok T1 _ _ p I1 Hp) as (T2 & E2 & I2).
    assert (works g (soil p (touch p g))) as Wk by (eapply works_trans; [apply (works_touch p)|apply works_soil]).
    pose proof (leaf_lowered nx l1 it l2 T2 _ HD Hm E Hn Wk I2) as LW. set (g2 := soil p (touch p g)) in *.
    assert (∀ A (K : Z → M Tree A), (leaf_remove_key p key ≫= K) T = K 1 T1) as Hrm.
    { intros A K. erewrite (bind_run (leaf_remove_key p key)); [done|]. unfold leaf_remove_key. rewrite (exec (header_ok _ _ _ I)), (exec (Hrd _ _ _ Elk)). by rewrite (exec E1). }
    unfold delete_entry_internal. rewrite Hrm. change (1 =? 0) with false. cbn iota. rewrite (exec E2).
    destruct (lowered_node T2 _ g2 c _ LW) as ([nx' Ht] & _). pose proof (lw_pinned _ _ _ _ _ LW) as Hp2. cbn [page_of fst] in Ht, Hp2.
    rewrite (exec (read_ok T2 _ g2 p _ node_size _ I2 Hp2 Ht (λ d R, rep_size _ (s_index _ _ _ I2) _ d R))). cbn [nd_items]. rewrite items_len. cbn [body snd].
    erewrite (bind_run (node_min_size _) _ T2); [|unfold node_min_size; rewrite (exec (header_ok _ _ _ I2)); by rewrite (exec (read_ok T2 _ g2 p _ is_leaf _ I2 Hp2 Ht (λ d R, rep_is_leaf _ _ d R)))].
    cbn [nd_leaf at_leaves]. destruct (Z.leb_spec (min_size h true) (Z.of_nat (length (l1 ++ l2)))) as [Hle|Hlt]; change (g_header g2) with h.
    + rewrite (proj2 (Z.leb_le _ _)) by exact Hle. exists T2. eexists _, g2. split; [done|]. split; [exact I2|]. split; [by apply works_trims|]. split; [|done]. right. exists (plug c ((p, l1 ++ l2) : tree 0)).
      split; [|split; [done|by rewrite plug_level]]. apply (lowered_enough T2); [done|]. etrans; [exact (min_enough h 0 (is_top c) (s_index _ _ _ I) HD)|exact Hle].
    + rewrite (proj2 (Z.leb_gt _ _)) by exact Hlt. destruct (coalesce_ok c fuel T2 _ g2 _ LW HD Hfuel) as (T3 & N3 & g3 & E3 & I3 & Tr3 & Hleft). exists T3, N3, g3.
      split; [exact E3|]. split; [done|]. split; [eapply trims_trans; [by apply works_trims|done]|]. by split.
  - destruct (delete_absent l1 l2 E F1 F2) as [Hk Hd]. fold l in Hk, Hd. rewrite Hk, Hd. exists T, N, g. split; [|split; [done|split; [apply trims_refl|]]].
    + unfold delete_entry_internal. erewrite (bind_run (leaf_remove_key p key) _ T 0 T); [done|]. unfold leaf_remove_key. by rewrite (exec (header_ok _ _ _ I)), (exec (Hrd _ _ _ Elk)).
    + split; [|done]. right. exists (plug c ((p, its) : tree 0)). split; [apply AL|]. split; [done|]. by rewrite plug_level.
Qed.
End delete_leaf.

(** ** The mini transaction *)
Lemma end_trimmed_ok `{!KeepsFrames S} T N g rc :
  st T N g → (RC.OB_SUCC rc = false → entries_ T = []) → g_extra g = [] → g_lock g = Unlocked → disposed_ok g →
  ∃ T' dirty, end_mtr (Some rc) T = Some (tt, T') ∧ st T' N (idle (g_header g) (g_mode g) dirty (g_free g)).
Proof.
  intros I He Hx Hl [Hnd Hraw]. unfold end_mtr.
  assert (∃ T1, (if RC.OB_SUCC rc then ignore logger_commit else ignore logger_rollback) T = Some (tt, T1) ∧ st T1 N g) as (T1 & E1 & I1).
  { destruct (RC.OB_SUCC rc); [by apply commit_ok|]. apply rollback_nothing; auto. }
  rewrite (exec E1). destruct (memo_release_ok T1 N (tight g) (tighten T1 N g I1) Hx Hnd) as (T2 & dy & E2 & I2); [|done|].
  { intros p Hp. cbn. rewrite Hraw. by apply elem_of_list_to_set. }
  exists T2, dy. split; [done|]. unfold idle. cbn in I2. rewrite Hl, Hraw in I2.
  by replace (list_to_set (g_disposed g) ∖ list_to_set (g_disposed g) : gset PageNum) with (∅ : gset PageNum) in I2 by set_solver.
Qed.

Lemma delete_entry_run `{!KeepsFrames S} fuel T h l lv free user_key rid key :
  index_tree T h l lv free → delete_ok h → make_key h user_key rid = Some key → kok h key → (lv ≤ fuel)%nat →
  let rc := if has_key h key l then RC.SUCCESS else RC.RECORD_NOT_EXIST in
  ∃ T' r lv', delete_entry fuel user_key rid T = Some (rc, T') ∧ index_tree T' (set_root_page r h) (delete_item h key l) lv' free ∧ (lv' ≤ lv)%nat.
Proof.
  intros (N & dirty & I & Hcase) HD Hkey Ok Hfuel rc. pose proof (ao_chars _ _ _ (ko_attr _ _ _ Ok)) as Hc. unfold delete_entry. rewrite (exec (header_ok _ _ _ I)). cbn [g_header idle]. rewrite Hkey. exec_deref.
  unfold with_mtr. destruct (begin_ok _ _ _ _ _ _ I) as (T1 & E1 & I1 & He). rewrite (exec E1). set (g := idle h READ_WRITE dirty free) in *.
  enough (∃ T2 N2 g2, ('(rc, leaf_frame) ← find_leaf fuel OpDelete key;
      if bool_decide (rc = RC.EMPTY) then mret RC.RECORD_NOT_EXIST
      else if RC.OB_FAIL rc then mret rc else delete_entry_internal fuel leaf_frame key) T1 = Some (rc, T2) ∧ st T2 N2 g2 ∧ trims g g2 ∧
      left_with N2 g2 (delete_item h key l) lv ∧ (RC.OB_SUCC rc = false → entries_ T2 = [])) as (T2 & N2 & g2 & E2 & I2 & [[r Er] S1 S2 S3 S4 S5] & Hleft & He2).
  { rewrite (exec E2). destruct (end_trimmed_ok T2 N2 g2 rc I2 He2) as (T3 & dy & E3 & I3); try done; [by apply S4; split; [constructor|]|]. rewrite (exec E3). rewrite S2, S5, Er in I3. cbn [g_header g_free g idle] in I3.
    destruct Hleft as [[El Hr]|(W & HT & El & Hlv)].
    - exists T3, r, O. split; [done|]. split; [|lia]. exists N2, dy. split; [done|]. left. rewrite El. by rewrite Er in Hr.
    - exists T3, r, (projT1 W). split; [done|]. split; [|done]. exists N2, dy. split; [done|]. right. exists W. split; [|done]. apply (tree_in_header N2 g2); [by rewrite Er|done]. }
  destruct Hcase as [(Hroot & -> & ->)|(W & HT & <- & <-)].
  - destruct (find_empty fuel OpDelete (child_for_key key) T1 N g I1 eq_refl eq_refl Hroot) as (T2 & E2 & I2). exists T2, N, (push (MemoLock (op_mode OpDelete)) g).
    split; [unfold find_leaf; by rewrite (exec E2)|]. split; [done|]. split; [apply works_trims, works_push|]. split; [by left|]. intros _.
    pose proof (keeps_find_leaf fuel OpDelete key T1 _ T2 E2) as Hlog. by rewrite Hlog.
  - destruct (find_leaf_ok OpDelete fuel T1 N g W key (tree_in_planted _ _ _ _ I1 HT eq_refl eq_refl eq_refl) eq_refl Ok Hfuel)
      as (p & T2 & g2 & E2 & I2 & [C2 [P2 _] (c & its & lo & hi & EW & Hcw & Hw & HQ & _)]).
    pose proof (keeps_find_leaf fuel OpDelete key T1 _ T2 E2) as Hlog. rewrite He in Hlog.
    pose proof (ca_header _ _ C2) as Eh. cbn in Eh. assert (projT1 W = ctx_depth c) as Elv by (by rewrite <-EW, plug_level).
    assert (at_leaf T2 N g2 c p its lo hi key) as AL.
    { split; rewrite ?Eh; try done; [by rewrite (ca_loose _ _ C2)|by rewrite (ca_extra _ _ C2)|by left|]. rewrite EW. by apply (tree_in_header N g). }
    destruct (delete_leaf_ok T2 N g2 c p its lo hi key AL fuel) as (T3 & N3 & g3 & E3 & I3 & Tr3 & Hleft & Habs); [by rewrite Eh|by rewrite (ca_mode _ _ C2)|lia|].
    rewrite EW, Eh in *. exists T3, N3, g3. split; [|split; [done|split; [|split]]].
    + rewrite (exec E2). exact E3.
    + destruct Tr3 as [[r Er] ? ? ? Hd ?], C2. split; try congruence; [exists r; congruence|]. intros Hdg. apply Hd. unfold disposed_ok in *. by rewrite ca_disposed, ca_raw.
    + by rewrite Elv.
    + unfold rc. destruct (has_key h key (flat (projT2 W))); [done|]. intros _. by rewrite Habs.
Qed.
End deleting.
