(* ===== verification/IndexTheorems.v ===== *)
(** * What the B+ tree guarantees

    The theorems on the operations of the index, and the indexes they are applied to: in
    memory, and on a pool that evicts every frame that is given back. *)

From stdpp Require Import sorting.
From S2P Require Import Prelude Types Bytes RecordPage IndexKey IndexNode IndexNodeSpec IndexPool IndexLog BplusTree BplusTreeOps BplusTreeScan IndexLaws IndexSteps IndexRoot IndexNodeOps IndexTree IndexFind IndexInsert IndexInsertEntry IndexMtr IndexScan IndexBody IndexPair IndexDelete.
Local Open Scope Z_scope.

(** ** An index in memory *)
(** The file after [create]: a header page, no tree. *)
Definition first_page (h : IndexFileHeader) : list Z := index_header_bytes h ++ replicate (Z.to_nat (BP_PAGE_DATA_SIZE - IndexFileHeader_SIZE)) 0.
Definition empty_index (h : IndexFileHeader) (limit : nat) : Tree Store :=
  mkTree (mkStore {[FIRST_INDEX_PAGE := first_page h]} ∅ ∅ [] limit []) h false Unlocked [] [] [] true true.

Lemma first_page_ok h : header_range h → header_page (first_page h) h.
Proof.
  intros Hr. split; [|by apply index_header_of_bytes]. unfold first_page, index_header_bytes. split.
  - rewrite !length_app, !le_bytes_length, length_replicate. done.
  - apply Forall_app_2; [repeat apply Forall_app_2; apply le_bytes_chars|]. apply Forall_replicate. unfold in_srange. cbn. lia.
Qed.

Lemma empty_index_ok h limit free : index_ok h → header_range h → root_page h = BP_INVALID_PAGE_NUM → Z.of_nat limit ≤ INT32_MAX →
  (free ≤ length (free_pages (t_pool (empty_index h limit))))%nat → index_tree (empty_index h limit) h [] 0 free.
Proof.
  intros HI Hr Hroot Hlim. pose proof (first_page_ok h Hr) as Hp. unfold empty_index. generalize dependent (first_page h). intros d Hp Hfree.
  exists ∅, ∅. split; [|by left]. split; try done; cbn [t_pool v_inv v_pages v_holds v_free v_dirty v_loose pv Store_laws store_view st_pages st_holds st_limit st_dirty].
  - split_and!; [|done|by intros ? ?%not_elem_of_nil|by intros ? ? ?%not_elem_of_nil]. apply map_Forall_singleton. split; [by vm_compute|apply Hp].
  - split; [done|]. exists d. by rewrite lookup_singleton_eq.
  - split; [apply pins_first_nil|by intros ? ? ?%not_elem_of_nil].
  - by intros ? ? ?%not_elem_of_nil.
  - by left.
Qed.

(** Four entries in a leaf, six in an internal node. *)
Definition demo_header : IndexFileHeader := mkIndexFileHeader BP_INVALID_PAGE_NUM 6 4 4 12 INTS.
Definition demo_index : Tree Store := empty_index demo_header 200.

Lemma demo_index_ok : index_tree demo_index demo_header [] 0 150.
Proof.
  apply empty_index_ok; [split; by vm_compute|by vm_compute|done|by vm_compute|]. apply Nat.leb_le. by vm_compute.
Qed.

(** The same file in the pool that evicts. *)
Definition evicting_index (h : IndexFileHeader) (limit : nat) : Tree Evicting :=
  let T := empty_index h limit in
  mkTree (mkEvicting (t_pool T) (st_pages (t_pool T)) ∅) h false Unlocked [] [] [] true true.

Lemma evicting_index_ok h limit free : index_ok h → header_range h → root_page h = BP_INVALID_PAGE_NUM → Z.of_nat limit ≤ INT32_MAX →
  (free ≤ length (free_pages (t_pool (empty_index h limit))))%nat → index_tree (evicting_index h limit) h [] 0 free.
Proof.
  intros HI Hr Hroot Hlim. pose proof (first_page_ok h Hr) as Hp. unfold evicting_index, empty_index. generalize dependent (first_page h). intros d Hp Hfree.
  exists ∅, ∅. split; [|by left].
  split; try done; cbn [t_pool v_inv v_pages v_holds v_free v_dirty v_loose pv Evicting_laws evicting_view store_view ev_store ev_loose st_pages st_holds st_limit st_dirty].
  - split; [|intros p; by right; right]. split_and!; [|done|by intros ? ?%not_elem_of_nil|by intros ? ? ?%not_elem_of_nil].
    apply map_Forall_singleton. split; [by vm_compute|apply Hp].
  - split; [done|]. exists d. by rewrite lookup_singleton_eq.
  - split; [apply pins_first_nil|by intros ? ? ?%not_elem_of_nil].
  - by intros ? ? ?%not_elem_of_nil.
  - by left.
Qed.

Definition demo_evicting : Tree Evicting := evicting_index demo_header 200.
Lemma demo_evicting_ok : index_tree demo_evicting demo_header [] 0 190.
Proof.
  apply evicting_index_ok; [split; by vm_compute|by vm_compute|done|by vm_compute|]. apply Nat.leb_le. by vm_compute.
Qed.

(** ** Lemmas on the specification *)
Section spec_lemmas.
Context (h : IndexFileHeader).
Notation kok := (key_ok (attr_type h) (attr_length h)).

Lemma insert_item_perm it l : insert_item h it l ≡ₚ it :: l.
Proof. induction l as [|x l IH]; cbn; [done|]. case_match; [|done]. rewrite IH. apply Permutation_swap. Qed.

(** The key of an entry. *)
Definition entry_key (user_key : list Z) (rid : RID) : list Z := take (Z.to_nat (attr_length h)) user_key ++ rid_bytes rid.

Lemma entry_key_ok k rid : attr_ok (attr_type h) (attr_length h) k → rid_ok rid →
  make_key h k rid = Some (entry_key k rid) ∧ kok (entry_key k rid).
Proof. intros Ha Hr. by destruct (bound_key h k rid Ha Hr) as (key & E & -> & Ok & _). Qed.

End spec_lemmas.

Section index_lemmas.
Context {S : Type} `{!IndexPool S, !IndexPoolLaws S}.
Notation Tree := (Tree S).
Implicit Types T : Tree.

Lemma index_tree_order T h l lv free : index_tree T h l lv free → index_ok h ∧ in_order h (comparator h) (key_ok (attr_type h) (attr_length h)) None None l.
Proof.
  intros (N & dirty & I & Hcase). pose proof (s_index _ _ _ I) as HI. cbn in HI. split; [done|].
  destruct Hcase as [(_ & -> & _)|(W & HT & <- & _)]; [split; [unfold items_sorted|unfold keys_ok|]; constructor|].
  apply (wf_in_order h HI _ _ true). apply HT.
Qed.

(** What [get_entry] returns. *)
Lemma get_entry_values fuel T h l lv free user_key len :
  index_tree T h l lv free → bound_ok h true user_key len → (lv ≤ fuel)%nat → (length l + 1 ≤ fuel)%nat →
  ∃ T', get_entry fuel user_key len T = Some ((RC.SUCCESS, item_rid h <$> List.filter (λ it, item_compare h it user_key len =? 0) l), T') ∧ index_tree T' h l lv free.
Proof.
  intros HT B Hlv Hfuel. destruct (index_tree_order T h l lv free HT) as [HI [_ K _]]. pose proof (left_right_ok _ _ _ B) as B'.
  set (v := Some (user_key, len, true)).
  destruct (left_bound_exists h v) as (lb & (lk & El & -> & Ol) & HL); [by intros ? ? ? [= <- <- <-]|].
  destruct (right_bound_exists h v) as (rb & (rk & Er & -> & Or) & HR); [by intros ? ? ? [= <- <- <-]|].
  destruct (get_entry_run fuel T h l lv free user_key len lk rk HT) as (T' & E & HT'); try done.
  - rewrite valid_range_ok by (by intros ? ? ? [= <- <- <-]). by rewrite (self_in_order h user_key len B).
  - exists T'. rewrite E. split; [|done]. do 3 f_equal. rewrite (scan_result_range h v v _ _ l HL HR K) by done. f_equal.
    apply List.filter_ext. intros it. apply range_of_value.
Qed.
End index_lemmas.

(** ** The operations *)
Section theorems.
Context {S : Type} `{!IndexPool S, !IndexPoolLaws S}.
Notation Tree := (Tree S).
Implicit Types T : Tree.

(** C9: [insert_entry] refines insertion into the ordered list of entries.  On a tree that holds the entries [l],
    whatever splits of leaves, internal nodes and the root it needs, the operation returns, reports a
    duplicate exactly if the key (value and record id) is there, and leaves a tree that holds [l] with
    the new entry at its place, or [l] itself.  The tree grows by at most one level.  The keys are integers,
    dates or strings, and the pool has memory for every page that is asked for. *)
Theorem insert_entry_refines fuel T h l lv free user_key rid :
  index_tree T h l lv free → attr_ok (attr_type h) (attr_length h) user_key → rid_ok rid → (lv ≤ fuel)%nat → (lv + 1 < free)%nat →
  let key := entry_key h user_key rid in
  ∃ T' r lv' free',
    insert_entry fuel (Some user_key) (Some rid) T = Some (if has_key h key l then RC.RECORD_DUPLICATE_KEY else RC.SUCCESS, T') ∧
    index_tree T' (set_root_page r h) (if has_key h key l then l else insert_item h (leaf_item key rid) l) lv' free' ∧
    (lv ≤ lv' ≤ lv + 1)%nat ∧ (free ≤ lv + 2 + free')%nat.
Proof.
  intros HT Ha Hr Hlv Hfree key. destruct (entry_key_ok h user_key rid Ha Hr) as [Ek Ok]. by apply insert_entry_run.
Qed.

(** C10: [delete_entry] refines the removal from the list of entries, on a pool that evicts no frame
    ([KeepsFrames]) and on nodes of at least four entries and six children ([delete_ok]).  Whatever nodes
    borrow, merge or disappear on the way, the operation returns, reports a missing entry exactly if the
    key is not there, and leaves a tree that holds the other entries; the tree gets no higher, and the
    pages it gave up are disposed of.  On a pool that evicts, the statement does not hold: [coalesce] and
    [adjust_root] change pages without marking them dirty, and [merge_is_lost_on_eviction] is a tree that
    cannot be searched after such a deletion. *)
Theorem delete_entry_refines `{!KeepsFrames S} fuel T h l lv free user_key rid :
  index_tree T h l lv free → delete_ok h → attr_ok (attr_type h) (attr_length h) user_key → rid_ok rid → (lv ≤ fuel)%nat →
  let key := entry_key h user_key rid in
  ∃ T' r lv',
    delete_entry fuel user_key rid T = Some (if has_key h key l then RC.SUCCESS else RC.RECORD_NOT_EXIST, T') ∧
    index_tree T' (set_root_page r h) (delete_item h key l) lv' free ∧ (lv' ≤ lv)%nat.
Proof.
  intros HT HD Ha Hr Hlv key. destruct (entry_key_ok h user_key rid Ha Hr) as [Ek Ok]. by apply delete_entry_run.
Qed.

(** C11: A scan with bounds that are in order returns exactly the record ids of the
    entries whose values lie between them, in the order of the keys, and leaves the tree
    and the latches as they were; other bounds are refused.  [in_range] compares the value
    of an entry with those of the bounds, an inclusive bound with its equals and an
    exclusive one without: integers and dates as integers, strings as strings of unsigned
    chars, also when the bound is longer than the attribute. *)
Theorem scan_correct fuel left right T h l lv free :
  index_tree T h l lv free → left_ok h left → right_ok h right → (exclusive left || exclusive right = true → ∀ it, it ∈ l → proper_rid h it) →
  (lv ≤ fuel)%nat → (length l + 1 ≤ fuel)%nat →
  ∃ T1, begin_mtr T = Some (tt, T1) ∧
    if bounds_in_order h left right then
      ∃ s T2 T3 T4, scanner_open fuel left right new_scanner T1 = Some ((RC.SUCCESS, s), T2) ∧
        collect_entries fuel s [] T2 = Some ((RC.RECORD_EOF, item_rid h <$> List.filter (in_range h left right) l), T3) ∧
        end_mtr None T3 = Some (tt, T4) ∧ index_tree T4 h l lv free
    else ∃ s, scanner_open fuel left right new_scanner T1 = Some ((RC.INVALID_ARGUMENT, s), T1).
Proof.
  intros HT BL BR Hp Hlv Hf. destruct (index_tree_order T h l lv free HT) as [HI [_ K _]]. pose proof (valid_range_ok h left right BL BR) as Hv.
  destruct (bounds_in_order h left right).
  - destruct (left_bound_exists h left BL) as (lb & Hl & HL), (right_bound_exists h right BR) as (rb & Hr & HR).
    destruct (scan_ok fuel left right lb rb T h l lv free HT Hl Hr Hv Hlv Hf) as (N & g & T1 & E1 & I1 & (s & T2 & T3 & g3 & E2 & E3 & I3 & C3) & Hend).
    destruct (Hend T3 g3 I3 C3) as (T4 & E4 & HT4). exists T1. split; [done|]. exists s, T2, T3, T4. rewrite (scan_result_range h left right lb rb l HL HR K Hp) in E3.
    by split_and!.
  - destruct (scan_begins T h l lv free HT) as (N & g & T1 & E1 & I1 & <-). exists T1. split; [done|]. eexists. unfold scanner_open. cbn [inited_ new_scanner].
    rewrite (exec (header_ok _ _ _ I1)), Hv. by exec_deref.
Qed.

(** *** Histories *)
Inductive request : Type := Insert (user_key : list Z) (rid : RID) | Delete (user_key : list Z) (rid : RID) | Get (user_key : list Z) (len : Z).
Inductive reply : Type := Done (rc : RC) | Found (rc : RC) (rids : list RID).

Definition serve (fuel : nat) (q : request) : M Tree reply :=
  match q with
  | Insert k rid => rc ← insert_entry fuel (Some k) (Some rid); mret (Done rc)
  | Delete k rid => rc ← delete_entry fuel k rid; mret (Done rc)
  | Get k len => '(rc, rids) ← get_entry fuel k len; mret (Found rc rids)
  end.
Fixpoint serve_all (fuel : nat) (qs : list request) : M Tree (list reply) :=
  match qs with [] => mret [] | q :: qs => a ← serve fuel q; l ← serve_all fuel qs; mret (a :: l) end.

(** What a list of entries in the order of the keys would answer. *)
Definition answer (h : IndexFileHeader) (q : request) (l : list (list Z)) : reply * list (list Z) :=
  match q with
  | Insert k rid =>
      let key := entry_key h k rid in
      if has_key h key l then (Done RC.RECORD_DUPLICATE_KEY, l) else (Done RC.SUCCESS, insert_item h (leaf_item key rid) l)
  | Delete k rid =>
      let key := entry_key h k rid in
      (Done (if has_key h key l then RC.SUCCESS else RC.RECORD_NOT_EXIST), delete_item h key l)
  | Get k len => (Found RC.SUCCESS (item_rid h <$> List.filter (λ it, item_compare h it k len =? 0) l), l)
  end.
Fixpoint answer_all (h : IndexFileHeader) (qs : list request) (l : list (list Z)) : list reply * list (list Z) :=
  match qs with
  | [] => ([], l)
  | q :: qs => let '(a, l) := answer h q l in let '(r, l) := answer_all h qs l in (a :: r, l)
  end.

Definition request_ok (h : IndexFileHeader) (q : request) : Prop :=
  match q with
  | Insert k rid | Delete k rid => attr_ok (attr_type h) (attr_length h) k ∧ rid_ok rid
  | Get k len => bound_ok h true k len
  end.
Definition is_delete (q : request) : bool := match q with Delete _ _ => true | _ => false end.

Lemma delete_item_length h key l : (length (delete_item h key l) ≤ length l)%nat.
Proof. apply List.filter_length_le. Qed.

Lemma serve_ok fuel T h l lv free q :
  index_tree T h l lv free → (is_delete q = true → KeepsFrames S ∧ delete_ok h) → request_ok h q → (lv ≤ fuel)%nat → (length l + 1 ≤ fuel)%nat → (lv + 1 < free)%nat →
  ∃ T' r lv' free', serve fuel q T = Some ((answer h q l).1, T') ∧ index_tree T' (set_root_page r h) (answer h q l).2 lv' free' ∧
    (lv' ≤ lv + 1)%nat ∧ (free ≤ lv + 2 + free')%nat ∧ (length (answer h q l).2 ≤ length l + 1)%nat.
Proof.
  intros HT HD Hq Hlv Hlen Hfree. destruct q as [k rid|k rid|k len]; cbn [answer serve].
  - destruct Hq as [Ha Hr]. destruct (entry_key_ok h k rid Ha Hr) as [Ek Ok].
    destruct (insert_entry_run fuel T h l lv free k rid _ HT Ek Ok Hlv Hfree) as (T' & r & lv' & free' & E & HT' & Hl & Hf). exists T', r, lv', free'. rewrite (exec E).
    destruct (has_key h (entry_key h k rid) l); cbn [fst snd]; (split; [done|split; [done|split; [lia|split; [lia|]]]]); [lia|]. rewrite insert_item_perm. cbn. lia.
  - destruct (HD eq_refl) as [HK HD']. destruct Hq as [Ha Hr]. destruct (entry_key_ok h k rid Ha Hr) as [Ek Ok].
    destruct (delete_entry_run fuel T h l lv free k rid _ HT HD' Ek Ok Hlv) as (T' & r & lv' & E & HT' & Hl). exists T', r, lv', free. rewrite (exec E). cbn [fst snd].
    split; [done|]. split; [done|]. split; [lia|]. split; [lia|]. pose proof (delete_item_length h (entry_key h k rid) l). lia.
  - destruct (get_entry_values fuel T h l lv free k len HT Hq Hlv Hlen) as (T' & E & HT'). exists T', (root_page h), lv, free. rewrite (exec E). cbn [fst snd].
    split; [done|]. split; [by rewrite <-header_eta|]. lia.
Qed.

Lemma serve_all_ok fuel T h l lv free qs :
  index_tree T h l lv free → (existsb is_delete qs = true → KeepsFrames S ∧ delete_ok h) → Forall (request_ok h) qs →
  (lv + length qs ≤ fuel)%nat → (length l + length qs + 1 ≤ fuel)%nat → (length qs * (lv + length qs + 2) < free)%nat →
  ∃ T' r lv' free', serve_all fuel qs T = Some ((answer_all h qs l).1, T') ∧ index_tree T' (set_root_page r h) (answer_all h qs l).2 lv' free' ∧ (lv' ≤ lv + length qs)%nat.
Proof.
  revert T h l lv free. induction qs as [|q qs IH]; intros T h l lv free HT HD Hq H1 H2 H3; cbn [length existsb] in HD, H1, H2, H3.
  - exists T, (root_page h), lv, free. split; [done|]. split; [by rewrite <-header_eta|]. cbn. lia.
  - apply list.Forall_cons in Hq as [Hq Hqs].
    destruct (serve_ok fuel T h l lv free q HT) as (T1 & r & lv1 & free1 & E1 & HT1 & Hl1 & Hf1 & Hn1); [intros Eq; apply HD; by rewrite Eq|done|lia|lia|nia|].
    destruct (IH T1 (set_root_page r h) (answer h q l).2 lv1 free1 HT1) as (T2 & r2 & lv2 & free2 & E2 & HT2 & Hl2);
      [intros Eq; destruct HD as [? []]; [by rewrite Eq, orb_true_r|done]|by eapply list.Forall_impl; [exact Hqs|]; intros []; cbn; [done..|intros []; split]|lia|lia|nia|].
    assert (∀ l', answer_all (set_root_page r h) qs l' = answer_all h qs l') as Ea.
    { clear. induction qs as [|q qs IH]; intros l; [done|]. cbn [answer_all]. replace (answer (set_root_page r h) q l) with (answer h q l) by (by destruct q).
      destruct (answer h q l) as [a l1]. by rewrite IH. }
    rewrite Ea in E2, HT2. exists T2, r2, lv2, free2. cbn [serve_all answer_all]. rewrite (exec E1), (exec E2).
    destruct (answer h q l) as [a l1]. cbn [fst snd length] in *. destruct (answer_all h qs l1) as [rs l2]. split; [done|]. split; [done|lia].
Qed.

(** C8: Every sequence of insertions, deletions and lookups, with memory for the frames and pages left for the
    insertions, runs to its end and gives the answers of an ordered list of entries; the index is again a
    well-formed tree that holds that list.  The keys are integers, dates or strings.  Deletions are only covered
    on a pool that evicts no frame while the history runs, since [coalesce] and [adjust_root] leave changed
    pages unmarked, and on nodes of at least four entries and six children; insertions and lookups on every pool. *)
Theorem index_history fuel T h l lv free qs :
  index_tree T h l lv free → (existsb is_delete qs = true → KeepsFrames S ∧ delete_ok h) → Forall (request_ok h) qs →
  (lv + length qs ≤ fuel)%nat → (length l + length qs + 1 ≤ fuel)%nat → (length qs * (lv + length qs + 2) < free)%nat →
  ∃ T' r lv' free', serve_all fuel qs T = Some ((answer_all h qs l).1, T') ∧ index_tree T' (set_root_page r h) (answer_all h qs l).2 lv' free'.
Proof.
  intros HT HD Hq H1 H2 H3. destruct (serve_all_ok fuel T h l lv free qs HT HD Hq H1 H2 H3) as (T' & r & lv' & free' & E & HT' & _).
  by exists T', r, lv', free'.
Qed.
End theorems.

(** *** The theorems on an empty index in memory *)
Definition demo_key : list Z := le_bytes 4 7.
Definition demo_rid : RID := mkRID 1 2.
Lemma demo_int_ok z : attr_ok (attr_type demo_header) (attr_length demo_header) (le_bytes 4 z).
Proof. split; [by rewrite le_bytes_length|by vm_compute|apply le_bytes_chars]. Qed.
Lemma demo_bound_ok z : bound_ok demo_header true (le_bytes 4 z) 4.
Proof. split; [apply demo_int_ok|done]. Qed.
Lemma demo_key_ok : attr_ok (attr_type demo_header) (attr_length demo_header) demo_key.
Proof. apply demo_int_ok. Qed.
Lemma demo_rid_ok : rid_ok demo_rid.
Proof. by split; vm_compute. Qed.

Lemma insert_entry_refines_witness : ∃ T', insert_entry 3 (Some demo_key) (Some demo_rid) demo_evicting = Some (RC.SUCCESS, T') ∧
  ∃ r lv' free', index_tree T' (set_root_page r demo_header) [demo_key ++ rid_bytes demo_rid ++ rid_bytes demo_rid] lv' free'.
Proof.
  destruct (insert_entry_refines 3 demo_evicting demo_header [] 0 190 demo_key demo_rid demo_evicting_ok demo_key_ok demo_rid_ok) as (T' & r & lv' & free' & E & HT & _);
    [lia|lia|].
  exists T'. split; [exact E|]. by exists r, lv', free'.
Defined.

Lemma demo_delete_ok r : delete_ok (set_root_page r demo_header).
Proof. by split; vm_compute. Qed.

Lemma delete_entry_refines_witness : ∃ T' T'', insert_entry 3 (Some demo_key) (Some demo_rid) demo_index = Some (RC.SUCCESS, T') ∧
  delete_entry 3 demo_key demo_rid T' = Some (RC.SUCCESS, T'').
Proof.
  destruct (entry_key_ok demo_header demo_key demo_rid demo_key_ok demo_rid_ok) as [Ek Ok].
  destruct (insert_entry_run 3 demo_index demo_header [] 0 150 demo_key demo_rid _ demo_index_ok Ek Ok) as (T' & r & lv & free & E & HT & Hlv & _); [lia|lia|].
  destruct (delete_entry_refines 3 T' (set_root_page r demo_header) _ lv free demo_key demo_rid HT (demo_delete_ok r) demo_key_ok demo_rid_ok) as (T'' & r' & lv' & E' & _); [lia|].
  exists T', T''. split; [exact E|exact E'].
Defined.

(** Six insertions that split a leaf, a duplicate, two deletions of which one finds nothing, and a lookup. *)
Definition demo_requests : list request :=
  [Insert (le_bytes 4 5) (mkRID 1 0); Insert (le_bytes 4 3) (mkRID 1 1); Insert (le_bytes 4 8) (mkRID 1 2); Insert (le_bytes 4 (-1)) (mkRID 1 3);
   Insert (le_bytes 4 9) (mkRID 1 4); Insert (le_bytes 4 9) (mkRID 2 0); Insert (le_bytes 4 5) (mkRID 1 0);
   Delete (le_bytes 4 3) (mkRID 1 1); Delete (le_bytes 4 4) (mkRID 1 1); Get (le_bytes 4 9) 4].

(** Insertions that split leaves, and lookups. *)
Definition insert_requests : list request :=
  ((λ z, Insert (le_bytes 4 z) (mkRID 1 z)) <$> [1; 2; 3; 4; 5; 6; 7; 8; 9; 10]) ++ [Get (le_bytes 4 4) 4; Get (le_bytes 4 11) 4].

(** The first history runs on the pool in memory, the second one on a pool that evicts. *)
Lemma index_history_witness : (∃ T', serve_all 12 demo_requests demo_index =
  Some ([Done RC.SUCCESS; Done RC.SUCCESS; Done RC.SUCCESS; Done RC.SUCCESS; Done RC.SUCCESS; Done RC.SUCCESS; Done RC.RECORD_DUPLICATE_KEY;
         Done RC.SUCCESS; Done RC.RECORD_NOT_EXIST; Found RC.SUCCESS [mkRID 1 4; mkRID 2 0]], T')) ∧
  ∃ T', serve_all 20 insert_requests demo_evicting =
    Some (replicate 10 (Done RC.SUCCESS) ++ [Found RC.SUCCESS [mkRID 1 4]; Found RC.SUCCESS []], T').
Proof.
  split.
  - destruct (index_history 12 demo_index demo_header [] 0 150 demo_requests demo_index_ok) as (T' & r & lv' & free' & E & _); [| |cbn; lia|cbn; lia|cbn; lia|].
    + intros _. split; [exact Store_keeps|exact (demo_delete_ok BP_INVALID_PAGE_NUM)].
    + unfold demo_requests. repeat (apply Forall_cons_2; [first [apply demo_bound_ok|split; [apply demo_int_ok|by split; vm_compute]]|]). constructor.
    + exists T'. rewrite E. f_equal.
  - destruct (index_history 20 demo_evicting demo_header [] 0 190 insert_requests demo_evicting_ok) as (T' & r & lv' & free' & E & _); [by intros [=]| |cbn; lia|cbn; lia|cbn; lia|].
    + unfold insert_requests. cbn [fmap list_fmap app]. repeat (apply Forall_cons_2; [first [apply demo_bound_ok|split; [apply demo_int_ok|by split; vm_compute]]|]). constructor.
    + exists T'. rewrite E. f_equal.
Defined.

(** What eviction does to a deletion that merges two leaves: [coalesce] takes the right
    leaf out of the parent without marking it dirty, the parent is evicted with the
    entry of the leaf that was disposed of, and the tree cannot be searched there any
    more.  On a pool that keeps its frames the same history is answered. *)
Definition merge_requests : list request :=
  ((λ z, Insert (le_bytes 4 z) (mkRID 1 z)) <$> [1; 2; 3; 4; 5; 6; 7; 8; 9; 10]) ++ [Delete (le_bytes 4 1) (mkRID 1 1); Get (le_bytes 4 4) 4].

Example merge_is_lost_on_eviction :
  fst <$> serve_all 30 merge_requests demo_evicting = Some (replicate 11 (Done RC.SUCCESS) ++ [Found RC.BUFFERPOOL_INVALID_PAGE_NUM []]) ∧
  fst <$> serve_all 30 merge_requests demo_index = Some (replicate 11 (Done RC.SUCCESS) ++ [Found RC.SUCCESS [mkRID 1 4]]).
Proof. split; by vm_compute. Qed.

(** *** An index on strings of at most four chars

    The entries are "AB", "ABC", "ABCD" and "ABCE"; the bound "ABCD1" is longer than the
    attribute, and only the last entry is behind it. *)
Definition chars_header : IndexFileHeader := mkIndexFileHeader BP_INVALID_PAGE_NUM 6 4 4 12 CHARS.
Definition chars_index : Tree Store := empty_index chars_header 200.
Definition chars_requests : list request :=
  [Insert [65; 66; 67; 69] (mkRID 1 0); Insert [65; 66; 0; 0] (mkRID 1 1); Insert [65; 66; 67; 68] (mkRID 1 2); Insert [65; 66; 67; 0] (mkRID 1 3);
   Get [65; 66; 67; 0] 3].
Definition long_bound : list Z := [65; 66; 67; 68; 49; 0].

Lemma chars_index_ok : index_tree chars_index chars_header [] 0 150.
Proof.
  apply empty_index_ok; [split; by vm_compute|by vm_compute|done|by vm_compute|]. apply Nat.leb_le. by vm_compute.
Qed.

Lemma chars_value_ok a b c d : chars [a; b; c; d] → attr_ok (attr_type chars_header) (attr_length chars_header) [a; b; c; d].
Proof. intros H. by split. Qed.

Lemma small_chars l : Forall (λ c, 0 ≤ c < 128) l → chars l.
Proof. intros H. eapply list.Forall_impl; [exact H|]. cbn. intros c Hc. unfold in_srange. cbn. lia. Qed.

Lemma chars_served : ∃ T r lv free, serve_all 12 chars_requests chars_index =
    Some ([Done RC.SUCCESS; Done RC.SUCCESS; Done RC.SUCCESS; Done RC.SUCCESS; Found RC.SUCCESS [mkRID 1 3]], T) ∧
  index_tree T (set_root_page r chars_header) (answer_all chars_header chars_requests []).2 lv free ∧ (lv ≤ 5)%nat.
Proof.
  destruct (serve_all_ok 12 chars_index chars_header [] 0 150 chars_requests chars_index_ok) as (T & r & lv & free & E & HT & Hlv); [done| |cbn; lia|cbn; lia|cbn; lia|].
  - unfold chars_requests. repeat (apply Forall_cons_2; [split; [apply chars_value_ok, small_chars; repeat (constructor; [lia|]); constructor|by split; vm_compute]|]).
    apply Forall_cons_2; [|constructor]. split; [|cbn; lia]. cbn. split; [lia|]. split; [set_solver|]. split; [apply small_chars; repeat (constructor; [lia|]); constructor|lia].
  - exists T, r, lv, free. rewrite E. split; [f_equal|]. by split.
Qed.

Lemma long_bound_ok r : bound_ok (set_root_page r chars_header) true long_bound 5.
Proof.
  split; [|by vm_compute]. cbn. split; [lia|]. split; [set_solver|]. split; [apply small_chars; repeat (constructor; [lia|]); constructor|lia].
Qed.

Lemma scan_correct_witness : ∃ T T1 s T2 T3, (∃ replies, serve_all 12 chars_requests chars_index = Some (replies, T)) ∧ begin_mtr T = Some (tt, T1) ∧
  scanner_open 12 (Some (long_bound, 5, true)) None new_scanner T1 = Some ((RC.SUCCESS, s), T2) ∧
  collect_entries 12 s [] T2 = Some ((RC.RECORD_EOF, [mkRID 1 0]), T3).
Proof.
  destruct chars_served as (T & r & lv & free & E & HT & Hlv). set (l := (answer_all chars_header chars_requests []).2) in HT.
  destruct (scan_correct 12 (Some (long_bound, 5, true)) None T (set_root_page r chars_header) l lv free HT) as (T1 & E1 & s & T2 & T3 & T4 & E2 & E3 & _).
  - intros k len incl [= <- <- <-]. apply long_bound_ok.
  - intros k len incl [=].
  - intros [=].
  - lia.
  - apply Nat.leb_le. vm_compute. reflexivity.
  - exists T, T1, s, T2, T3. split; [eexists; exact E|]. split; [exact E1|]. split; [exact E2|]. exact E3.
Defined.

(** ** Latches, pages and the log *)
Section more_theorems.
Context {S : Type} `{!IndexPool S, !IndexPoolLaws S}.
Notation Tree := (Tree S).
Implicit Types T : Tree.

(** C30: Latch crabbing.  [find_leaf] reaches the leaf whose bounds enclose the key and holds it
    pinned and latched in the mode of the operation; upwards from the leaf every node
    is still latched as long as the node below it may split or merge, and if the root itself
    may, the lock of the root is held. *)
Theorem find_leaf_latches op fuel T N g (W : whole) key :
  planted T N g W → g_mode g = op_mode op → key_ok (attr_type (g_header g)) (attr_length (g_header g)) key → (projT1 W ≤ fuel)%nat →
  ∃ p T' g' (c : ctx 0) its lo hi, find_leaf fuel op key T = Some ((RC.SUCCESS, p), T') ∧ st T' N g' ∧ plug c (p, its) = W ∧
    within (comparator (g_header g)) lo hi key ∧ ctx_wf (g_header g) (comparator (g_header g)) (key_ok (attr_type (g_header g)) (attr_length (g_header g))) lo hi c ∧
    MemoPin p ∈ g_items g' ∧ MemoLatch (op_mode op) p ∈ g_items g' ∧
    guarded op g' (node_safe (g_header g) op (is_top c) true (Z.of_nat (length its))) c.
Proof.
  intros HP Hm Hk Hf. destruct (find_leaf_ok op fuel T N g W key HP Hm Hk Hf) as (p & T' & g' & E & I & [C [L1 L2] (c & its & lo & hi & EW & Hc & _ & HQ & HG)]).
  exists p, T', g', c, its, lo, hi. rewrite (ca_mode _ _ C), Hm in L2. by split_and!.
Qed.

Lemma base_insert_none h d i its n : recover_insert_items h BaseHandler d i its n = None.
Proof. unfold recover_insert_items. by destruct (node_size d). Qed.

(** A rollback cannot undo the removal of items: the log entry works through the base class
    of the node handlers, whose items are at a null pointer. *)
Theorem rollback_of_remove_aborts page index items num T :
  entry_rollback (NormalOperation page NODE_REMOVE index items num) T = None.
Proof.
  unfold entry_rollback, normal_rollback, file_header, update, gets, mbind, M_bind. destruct (node_data page T) as [[d T1]|]; [|done].
  by rewrite base_insert_none.
Qed.

(** C32: Typed updates of a page.  On a page that represents a node, inserting items of the size of the
    node's items, as long as they fit on the page, and removing items that are there succeed, and so does
    overwriting the key of an item of an internal node, which keeps its child; the page keeps its length and
    represents the node with the items inserted, removed or overwritten. *)
Theorem node_update_typed h n d i l m :
  index_ok h → rep h n d → (i + m ≤ length (nd_items n))%nat → Forall (item_ok h (nd_leaf n)) l →
  hdr_size (nd_leaf n) + Z.of_nat (length (nd_items n) + length l) * item_size h (kind (nd_leaf n)) ≤ BP_PAGE_DATA_SIZE →
  ∃ d1 d2,
    recover_insert_items h (kind (nd_leaf n)) d (Z.of_nat i) (concat l) (Z.of_nat (length l)) = Some d1 ∧
    rep h (with_items (take i (nd_items n) ++ l ++ drop i (nd_items n)) n) d1 ∧
    recover_remove_items h (kind (nd_leaf n)) d (Z.of_nat i) (Z.of_nat m) = Some d2 ∧
    rep h (with_items (take i (nd_items n) ++ drop (i + m) (nd_items n)) n) d2 ∧
    ∀ j it key, nd_leaf n = false → nd_items n !! j = Some it → Z.of_nat (length key) = key_length h → chars key →
      ∃ d3, put_key_at h d (Z.of_nat j) key = Some d3 ∧ rep h (with_items (<[j := key ++ item_value h it]> (nd_items n)) n) d3.
Proof.
  intros HI R Hi Hl Hroom. destruct (rep_insert h HI n d i l R) as (d1 & E1 & R1); [lia|done|done|].
  destruct (rep_remove h HI n d i m R Hi) as (d2 & E2 & R2). exists d1, d2. do 4 (split; [done|]). intros j it key. by apply rep_put_key.
Qed.

(** C31: The entries of a mini transaction are read back from the payload they are serialized to, without
    the old values that only a rollback needs. *)
Theorem index_log_roundtrip es : Forall entry_range es → read_entries (concat (serialize <$> es)) = Some (forget_old <$> es).
Proof. apply read_entries_serialize. Qed.
End more_theorems.

Lemma find_leaf_latches_witness : ∃ (W : whole) (T : Tree Store) N g p T', planted T N g W ∧
  find_leaf 3 OpDelete (entry_key demo_header demo_key demo_rid) T = Some ((RC.SUCCESS, p), T').
Proof.
  destruct (entry_key_ok demo_header demo_key demo_rid demo_key_ok demo_rid_ok) as [_ Ok].
  destruct (insert_entry_run 3 demo_index demo_header [] 0 150 demo_key demo_rid _ demo_index_ok eq_refl Ok) as (T & r & lv & free & _ & (N & dirty & I & [(_ & ? & _)|(W & HT & _ & El)]) & Hlv & _);
    [lia|lia|done|].
  assert (planted T N (idle (set_root_page r demo_header) READ_WRITE dirty free) W) as HP by (by apply tree_in_planted).
  destruct (find_leaf_latches OpDelete 3 T N _ W _ HP eq_refl Ok) as (p & T' & _ & _ & _ & _ & _ & E & _); [lia|].
  exists W, T, N, (idle (set_root_page r demo_header) READ_WRITE dirty free), p, T'. by split.
Defined.

(** An empty page as a leaf. *)
Lemma node_update_typed_witness : ∃ d d', leaf_init_page (replicate (Z.to_nat BP_PAGE_DATA_SIZE) 0) = Some d ∧
  recover_insert_items demo_header LeafHandler d 0 (leaf_item (entry_key demo_header demo_key demo_rid) demo_rid) 1 = Some d'.
Proof.
  assert (index_ok demo_header) as HI by (split; by vm_compute).
  destruct (rep_leaf_init demo_header (replicate (Z.to_nat BP_PAGE_DATA_SIZE) 0)) as (d & E & R);
    [by rewrite length_replicate|apply Forall_replicate; unfold in_srange; cbn; lia|].
  destruct (node_update_typed demo_header _ d 0 [leaf_item (entry_key demo_header demo_key demo_rid) demo_rid] 0 HI R) as (d' & _ & E' & _);
    [cbn; lia|apply Forall_singleton; split; [done|]|by vm_compute|].
  - unfold leaf_item, entry_key, demo_key, rid_bytes. repeat apply Forall_app_2; try apply le_bytes_chars. apply Forall_take, le_bytes_chars.
  - exists d, d'. split; [exact E|]. cbn [concat length] in E'. rewrite app_nil_r in E'. exact E'.
Defined.

Lemma index_log_roundtrip_witness :
  read_entries (concat (serialize <$> [UpdateRootPage 1 3 2; NormalOperation 3 NODE_INSERT 0 (replicate 20 1) 1])) =
    Some [UpdateRootPage 1 3 (-1); NormalOperation 3 NODE_INSERT 0 (replicate 20 1) 1].
Proof. apply index_log_roundtrip. repeat apply Forall_cons_2; try constructor; by vm_compute. Defined.
