(* ===== verification/TableMeta.v ===== *)
(** * Table metadata

    Models [FieldMeta] of [storage/field/field_meta.cpp], [IndexMeta] of
    [storage/index/index_meta.cpp] and [TableMeta] of [storage/table/table_meta.cpp]:
    where the fields of a record lie.  The metadata as JSON text is left out. *)

From stdpp Require Import strings.
From S2P Require Import Prelude Types Bytes IndexKey.
Local Open Scope Z_scope.

(** ** [common::is_blank], [strcasecmp] *)
Definition isspace (c : Ascii.ascii) : bool :=
  let n := Z.of_N (Ascii.N_of_ascii c) in (n =? 32) || ((9 <=? n) && (n <=? 13)).
Fixpoint all_space (s : string) : bool :=
  match s with EmptyString => true | String c s => isspace c && all_space s end.
(** A null pointer is [None]. *)
Definition is_blank (s : option string) : bool := match s with None => true | Some s => all_space s end.

Definition tolower (c : Ascii.ascii) : Ascii.ascii :=
  let n := Ascii.N_of_ascii c in if (65 <=? n)%N && (n <=? 90)%N then Ascii.ascii_of_N (n + 32) else c.
Fixpoint same_but_case (a b : string) : bool :=
  match a, b with
  | EmptyString, EmptyString => true
  | String c a, String d b => bool_decide (tolower c = tolower d) && same_but_case a b
  | _, _ => false
  end.

(** ** [FieldMeta] *)
Record FieldMeta : Type := mkFieldMeta {
  fm_name : string;
  fm_type : AttrType;
  fm_offset : Z;
  fm_len : Z;
  fm_visible : bool;
  fm_field_id : Z;
  fm_nullable : bool
}.
#[global] Instance FieldMeta_eq_dec : EqDecision FieldMeta.
Proof. solve_decision. Defined.

Definition default_field : FieldMeta := mkFieldMeta "" UNDEFINED (-1) 0 false 0 true.
Definition set_nullable (b : bool) (f : FieldMeta) : FieldMeta :=
  mkFieldMeta (fm_name f) (fm_type f) (fm_offset f) (fm_len f) (fm_visible f) (fm_field_id f) b.

Definition field_init (f : FieldMeta) (name : string) (type : AttrType) (offset len : Z) (visible : bool) (field_id : Z) :
  RC * FieldMeta :=
  if is_blank (Some name) then (RC.INVALID_ARGUMENT, f)
  else if bool_decide (type = UNDEFINED) || (offset <? 0) || (len <=? 0) then (RC.INVALID_ARGUMENT, f)
  else (RC.SUCCESS, mkFieldMeta name type offset len visible field_id (fm_nullable f)).

(** The constructor asserts that [init] succeeds. *)
Definition new_field (name : string) (type : AttrType) (offset len : Z) (visible : bool) (field_id : Z) : option FieldMeta :=
  let '(rc, f) := field_init default_field name type offset len visible field_id in
  if RC.OB_SUCC rc then Some f else None.

(** ** [IndexMeta] *)
Record IndexMeta : Type := mkIndexMeta { im_name : string; im_field : string }.
Definition index_meta_init (name : option string) (field : FieldMeta) : RC * option IndexMeta :=
  match name with
  | Some n => if is_blank name then (RC.INVALID_ARGUMENT, None) else (RC.SUCCESS, Some (mkIndexMeta n (fm_name field)))
  | None => (RC.INVALID_ARGUMENT, None)
  end.

(** ** [TableMeta] *)
Record AttrInfoSqlNode : Type := mkAttrInfo {
  ai_type : AttrType;
  ai_name : string;
  ai_length : Z;
  ai_nullable : bool
}.

Record TableMeta : Type := mkTableMeta {
  tm_table_id : Z;
  tm_name : string;
  tm_trx_fields : list FieldMeta;
  tm_fields : list FieldMeta;
  tm_indexes : list IndexMeta;
  tm_primary_keys : list string;
  tm_storage_format : Z;
  tm_storage_engine : Z;
  tm_record_size : Z;
  tm_null_bitmap_offset : Z
}.

Definition field_num (t : TableMeta) : Z := Z.of_nat (length (tm_fields t)).
Definition sys_field_num (t : TableMeta) : Z := Z.of_nat (length (tm_trx_fields t)).
Definition null_bitmap_size (field_num : Z) : Z := Z.quot (field_num + 7) 8.
Definition trx_fields (t : TableMeta) : list FieldMeta := take (length (tm_trx_fields t)) (tm_fields t).

(** The first loop of [init]: the fields of the transaction get their offsets. *)
Fixpoint place_trx_fields (l : list FieldMeta) (offset : Z) : option (list FieldMeta * Z) :=
  match l with
  | [] => Some ([], offset)
  | f :: l =>
      f' ← new_field (fm_name f) (fm_type f) offset (fm_len f) false (fm_field_id f);
      '(l', offset) ← place_trx_fields l (swrap 32 (offset + fm_len f));
      Some (f' :: l', offset)
  end.

(** The second loop: the attributes, numbered from [i]; a length is a [size_t] that
    becomes an [int]. *)
Fixpoint place_attributes (l : list AttrInfoSqlNode) (i offset : Z) : RC * list FieldMeta * Z :=
  match l with
  | [] => (RC.SUCCESS, [], offset)
  | a :: l =>
      let '(rc, f) := field_init default_field (ai_name a) (ai_type a) offset (swrap 32 (ai_length a)) true i in
      if RC.OB_FAIL rc then (rc, [], offset)
      else
        let '(rc, fs, offset) := place_attributes l (i + 1) (swrap 32 (offset + ai_length a)) in
        (rc, set_nullable (ai_nullable a) f :: fs, offset)
  end.

(** [init] on an object [t] that has no fields yet.  When a field is refused the object stays half filled;
    [None]: a field of the transaction is refused. *)
Definition table_meta_init (t : TableMeta) (table_id : Z) (name : option string) (trx : option (list FieldMeta))
    (attributes : list AttrInfoSqlNode) (primary_keys : list string) (storage_format storage_engine : Z) : option (RC * TableMeta) :=
  match name with
  | Some n =>
      if is_blank name then Some (RC.INVALID_ARGUMENT, t)
      else if bool_decide (attributes = []) then Some (RC.INVALID_ARGUMENT, t)
      else
        '(sys, offset) ← place_trx_fields (default [] trx) 0;
        let trx_fields_ := default (tm_trx_fields t) trx in
        let '(rc, fields, offset) := place_attributes attributes 0 offset in
        if RC.OB_FAIL rc then
          Some (rc, mkTableMeta (tm_table_id t) (tm_name t) trx_fields_
                      (sys ++ fields ++ replicate (length attributes - length fields) default_field)
                      (tm_indexes t) (tm_primary_keys t) (tm_storage_format t) (tm_storage_engine t) (tm_record_size t) (tm_null_bitmap_offset t))
        else
          let fields_ := sys ++ fields in
          Some (RC.SUCCESS, mkTableMeta table_id n trx_fields_ fields_ (tm_indexes t) primary_keys storage_format storage_engine
                  (swrap 32 (offset + null_bitmap_size (Z.of_nat (length fields_)))) offset)
  | None => Some (RC.INVALID_ARGUMENT, t)
  end.

Definition fields_end (fields : list FieldMeta) : Z := foldl (λ e f, Z.max e (swrap 32 (fm_offset f + fm_len f))) 0 fields.

Definition init_from_catalog (t : TableMeta) (table_id : Z) (name : option string) (fields : list FieldMeta)
    (primary_keys : list string) (storage_format storage_engine : Z) : RC * TableMeta :=
  match name with
  | Some n =>
      if (table_id <? 0) || is_blank name || bool_decide (fields = []) then (RC.INVALID_ARGUMENT, t)
      else
        let data_end := fields_end fields in
        (RC.SUCCESS, mkTableMeta table_id n (List.filter (λ f, negb (fm_visible f)) fields) fields [] primary_keys storage_format storage_engine
           (swrap 32 (data_end + null_bitmap_size (Z.of_nat (length fields)))) data_end)
  | None => (RC.INVALID_ARGUMENT, t)
  end.

Definition add_index (t : TableMeta) (i : IndexMeta) : TableMeta :=
  mkTableMeta (tm_table_id t) (tm_name t) (tm_trx_fields t) (tm_fields t) (tm_indexes t ++ [i]) (tm_primary_keys t)
    (tm_storage_format t) (tm_storage_engine t) (tm_record_size t) (tm_null_bitmap_offset t).

Definition field_by_name (t : TableMeta) (name : string) : option FieldMeta :=
  List.find (λ f, same_but_case (fm_name f) name) (tm_fields t).
Definition find_field_by_offset (t : TableMeta) (offset : Z) : option FieldMeta :=
  List.find (λ f, fm_offset f =? offset) (tm_fields t).
Definition index_by_name (t : TableMeta) (name : string) : option IndexMeta :=
  List.find (λ i, bool_decide (im_name i = name)) (tm_indexes t).
Definition find_index_by_field (t : TableMeta) (field : string) : option IndexMeta :=
  List.find (λ i, bool_decide (im_field i = field)) (tm_indexes t).

(** ** [Field::set_int], [Field::get_int] *)
Definition field_set_int (f : FieldMeta) (d : list Z) (value : Z) : option (list Z) :=
  if bool_decide (fm_type f = INTS) && (fm_len f =? 4) then set_i32 d (Z.to_nat (fm_offset f)) value else None.
(** As [Field::get_int] reads a field of type [INTS]. *)
Definition field_get_int (f : FieldMeta) (d : list Z) : option Z := get_i32 d (Z.to_nat (fm_offset f)).

(** ** The layout of a record *)
(** The fields follow each other from [o] to [e]. *)
Fixpoint laid_out (o : Z) (fields : list FieldMeta) (e : Z) : Prop :=
  match fields with
  | [] => e = o
  | f :: fields => fm_offset f = o ∧ 0 < fm_len f ∧ laid_out (o + fm_len f) fields e
  end.

Definition total_length (l : list Z) : Z := foldr Z.add 0 l.

Lemma laid_out_app o l1 m l2 e : laid_out o l1 m → laid_out m l2 e → laid_out o (l1 ++ l2) e.
Proof. revert o. induction l1 as [|f l1 IH]; cbn; intros o; [by intros ->|]. intros (? & ? & ?). eauto. Qed.

Lemma laid_out_le o l e : laid_out o l e → o ≤ e.
Proof. revert o. induction l as [|f l IH]; cbn; intros o; [lia|]. intros (? & ? & H%IH). lia. Qed.

Lemma laid_out_bounds o l e i f : laid_out o l e → l !! i = Some f → o ≤ fm_offset f ∧ 0 < fm_len f ∧ fm_offset f + fm_len f ≤ e.
Proof.
  revert o i. induction l as [|g l IH]; intros o i; [done|]. cbn [laid_out]. intros (E & Hg & H). destruct i as [|i]; cbn.
  - intros [= ->]. pose proof (laid_out_le _ _ _ H). lia.
  - intros Hi. pose proof (IH _ _ H Hi). lia.
Qed.

Lemma laid_out_disjoint o l e i j f g : laid_out o l e → l !! i = Some f → l !! j = Some g → (i < j)%nat →
  fm_offset f + fm_len f ≤ fm_offset g.
Proof.
  revert o i j. induction l as [|h l IH]; intros o i j; [done|]. cbn [laid_out]. intros (E & Hh & H) Hi Hj Hij.
  destruct j as [|j]; [lia|]. cbn in Hj. destruct i as [|i]; cbn in Hi.
  - injection Hi as ->. pose proof (laid_out_bounds _ _ _ _ _ H Hj). lia.
  - eapply IH; [exact H|exact Hi|exact Hj|lia].
Qed.

Lemma field_init_ok f name type offset len visible id f' : field_init f name type offset len visible id = (RC.SUCCESS, f') →
  fm_offset f' = offset ∧ fm_len f' = len ∧ 0 ≤ offset ∧ 0 < len ∧ fm_type f' = type ∧ fm_name f' = name.
Proof.
  unfold field_init. destruct (is_blank _); [done|]. destruct (_ || _ || _)%bool eqn:E; [done|]. intros [= <-]. cbn.
  rewrite !orb_false_iff in E. destruct E as [[_ E1] E2]. split_and!; lia || done.
Qed.

Lemma place_trx_fields_ok l o l' e : place_trx_fields l o = Some (l', e) → o + total_length (fm_len <$> l) < 2 ^ 31 →
  laid_out o l' e ∧ e = o + total_length (fm_len <$> l) ∧ length l' = length l.
Proof.
  revert o l' e. induction l as [|f l IH]; cbn [place_trx_fields]; intros o l' e E Ho.
  - injection E as <- <-. cbn. lia.
  - unfold new_field in E. destruct (field_init _ _ _ _ _ _ _) as [rc f'] eqn:Ef. cbn [mbind option_bind] in E.
    destruct (RC.OB_SUCC rc) eqn:Er; [|done]. apply bool_decide_eq_true in Er as ->. apply field_init_ok in Ef as (E1 & E2 & Ho' & Hl & _).
    cbn in Ho. fold (total_length (fm_len <$> l)) in Ho. destruct (place_trx_fields l _) as [[l1 e1]|] eqn:El; [|done].
    injection E as <- <-.
    assert (0 ≤ total_length (fm_len <$> l)) as Hpos.
    { clear -El. revert l1 El. generalize (swrap 32 (o + fm_len f)). induction l as [|g l IH]; intros o1 l1 El; [cbn; lia|].
      cbn [place_trx_fields] in El. unfold new_field in El. destruct (field_init _ _ _ _ _ _ _) as [rc g'] eqn:Eg. cbn [mbind option_bind] in El.
      destruct (RC.OB_SUCC rc) eqn:Er; [|done]. apply bool_decide_eq_true in Er as ->. apply field_init_ok in Eg as (_ & _ & _ & Hg & _).
      destruct (place_trx_fields l _) as [[l2 e2]|] eqn:E2; [|done]. injection El as <- <-. cbn. fold (total_length (fm_len <$> l)).
      pose proof (IH _ _ E2). lia. }
    rewrite swrap_id in El by (unfold in_srange; lia). apply IH in El as (H1 & H2 & H3); [|lia].
    cbn. fold (total_length (fm_len <$> l)). rewrite E1, E2, H3. split_and!; lia || done.
Qed.

Lemma place_attributes_ok l i o fs e : place_attributes l i o = (RC.SUCCESS, fs, e) → Forall (λ a, 0 < ai_length a) l →
  0 ≤ o → o + total_length (ai_length <$> l) < 2 ^ 31 →
  laid_out o fs e ∧ e = o + total_length (ai_length <$> l) ∧ length fs = length l.
Proof.
  revert i o fs e. induction l as [|a l IH]; intros i o fs e E Hl Ho1 Ho; cbn [place_attributes] in E.
  - injection E as <- <-. cbn. lia.
  - apply list.Forall_cons in Hl as [Ha Hl]. cbn in Ho. fold (total_length (ai_length <$> l)) in Ho.
    assert (0 ≤ total_length (ai_length <$> l)) as Hpos by (clear -Hl; induction Hl; cbn; [lia|]; fold (total_length (ai_length <$> l)); lia).
    destruct (field_init _ _ _ _ _ _ _) as [rc f] eqn:Ef. destruct (RC.OB_FAIL rc) eqn:Er.
    { injection E as -> _ _. by apply bool_decide_eq_true in Er. }
    apply bool_decide_eq_false, dec_stable in Er as ->. destruct (place_attributes l _ _) as [[rc fs'] e'] eqn:El.
    injection E as -> <- ->. apply field_init_ok in Ef as (E1 & E2 & _). rewrite swrap_id in E2, El by (unfold in_srange; lia).
    apply IH in El as (H1 & H2 & H3); [|done|lia|lia]. cbn. fold (total_length (ai_length <$> l)). rewrite E1, E2, H3. split_and!; lia || done.
Qed.

(** The layout that [init] gives a table. *)
Record table_layout (t : TableMeta) : Prop := {
  tl_fields : laid_out 0 (tm_fields t) (tm_null_bitmap_offset t);
  tl_size : tm_record_size t = tm_null_bitmap_offset t + null_bitmap_size (field_num t);
  tl_sys : (length (tm_trx_fields t) ≤ length (tm_fields t))%nat
}.

Lemma table_meta_init_layout t0 id name trx attrs keys fmt eng t :
  table_meta_init t0 id name trx attrs keys fmt eng = Some (RC.SUCCESS, t) → tm_trx_fields t0 = [] → Forall (λ a, 0 < ai_length a) attrs →
  total_length (fm_len <$> default [] trx) + total_length (ai_length <$> attrs) + Z.of_nat (length (default [] trx) + length attrs) + 7 < 2 ^ 31 →
  table_layout t ∧ tm_null_bitmap_offset t = total_length (fm_len <$> default [] trx) + total_length (ai_length <$> attrs) ∧
  length (tm_fields t) = (length (default [] trx) + length attrs)%nat.
Proof.
  unfold table_meta_init. intros E Ht Ha Hb. destruct name as [n|]; [|done]. destruct (is_blank _); [done|]. case_bool_decide; [done|].
  assert (0 ≤ total_length (ai_length <$> attrs)) as Hpos by (clear -Ha; induction Ha; cbn; [lia|]; fold (total_length (ai_length <$> l)); lia).
  destruct (place_trx_fields _ 0) as [[sys o]|] eqn:Es; [|done]. cbn [mbind option_bind] in E.
  apply place_trx_fields_ok in Es as (L1 & -> & N1); [|lia].
  destruct (place_attributes attrs 0 _) as [[rc fs] e] eqn:Ea. destruct (RC.OB_FAIL rc) eqn:Er.
  { injection E as -> _. by apply bool_decide_eq_true in Er. }
  apply bool_decide_eq_false, dec_stable in Er as ->. injection E as <-. pose proof (laid_out_le _ _ _ L1) as Hle.
  apply place_attributes_ok in Ea as (L2 & -> & N2); [|done|lia|lia]. cbn [tm_null_bitmap_offset tm_fields]. split_and!; [|done|by rewrite length_app, N1, N2].
  assert (Z.of_nat (length (sys ++ fs)) = Z.of_nat (length (default [] trx) + length attrs)) as N by (by rewrite length_app, N1, N2).
  split; unfold field_num; cbn [tm_fields tm_null_bitmap_offset tm_record_size tm_trx_fields].
  - by eapply laid_out_app.
  - apply swrap_id; [lia|]. rewrite N. unfold null_bitmap_size, in_srange. pose proof (Z.quot_pos (Z.of_nat (length (default [] trx) + length attrs) + 7) 8).
    pose proof (Z.quot_le_upper_bound (Z.of_nat (length (default [] trx) + length attrs) + 7) 8 (Z.of_nat (length (default [] trx) + length attrs) + 7)). lia.
  - rewrite length_app, N1, Ht. destruct trx; cbn; lia.
Qed.

(** Every field lies in the record before the bitmap, and its NULL bit in the bitmap. *)
Lemma layout_field t i f : table_layout t → tm_fields t !! i = Some f →
  0 ≤ fm_offset f ∧ 0 < fm_len f ∧ fm_offset f + fm_len f ≤ tm_null_bitmap_offset t ∧
  tm_null_bitmap_offset t ≤ tm_null_bitmap_offset t + Z.of_nat i / 8 < tm_record_size t.
Proof.
  intros [L S _] Hi. pose proof (laid_out_bounds _ _ _ _ _ L Hi) as (H1 & H2 & H3). rewrite S. apply lookup_lt_Some in Hi.
  unfold null_bitmap_size, field_num. rewrite Z.quot_div_nonneg by lia. pose proof (Z.div_pos (Z.of_nat i) 8).
  assert (Z.of_nat i / 8 + 1 ≤ (Z.of_nat (length (tm_fields t)) + 7) / 8) as Hd; [|lia].
  replace (Z.of_nat i / 8 + 1) with ((Z.of_nat i + 1 * 8) / 8) by (by rewrite Z.div_add). apply Z.div_le_mono; lia.
Qed.
