(* ===== verification/Mvcc.v ===== *)
(** * Transactions

    Models [storage/trx/trx.cpp], [mvcc_trx.cpp], [mvcc_trx_log.cpp] and
    [vacuous_trx.cpp]: multi-version transactions over the tables of a database.
    The tables are behind the interface [Tables], which stands for the methods of the
    class [Table] that transactions call; the log is a [LogHandler].  Transaction
    objects live in a store and are named by pointers.

    A [visitor] that is given to [visit_record] may change the record in place and
    set variables it has captured; here it returns the value of those variables,
    whether it has changed the record, and the record.  [None]: an assertion in it
    fails. *)

From stdpp Require Import strings.
From S2P Require Import Prelude Types Bytes RecordPage IndexKey TableMeta BufferPool Frame.
Local Open Scope Z_scope.

Notation TableId := Z (only parsing).
Notation TrxPtr := positive (only parsing).

Definition visitor (A : Type) : Type := list Z → option (A * (bool * list Z)).

(** ** The interface of the tables *)
Class Tables (S : Type) := {
  tb_meta : TableId → S → option TableMeta;
  tb_insert_record : TableId → list Z → M S (RC * RID);
  tb_delete_record : TableId → RID → option (list Z) → M S RC;
  tb_get_record : TableId → RID → M S (RC * option (list Z));
  tb_visit_record : ∀ {A : Type}, TableId → RID → visitor A → M S (RC * option A)
}.

(** ** [Operation] *)
Inductive OperationType : Type := INSERT | UPDATE | DELETE | UNDEFINED_OPERATION.
#[global] Instance OperationType_eq_dec : EqDecision OperationType.
Proof. solve_decision. Defined.

Record Operation : Type := mkOperation {
  op_type : OperationType;
  op_table : TableId;
  op_rid : RID
}.
#[global] Instance Operation_eq_dec : EqDecision Operation.
Proof. solve_decision. Defined.

(** ** [MvccTrx], [MvccTrxKit] *)
Record MvccTrx : Type := mkMvccTrx {
  trx_id_ : Z;
  started_ : bool;
  recovering_ : bool;
  operations_ : list Operation
}.
Definition new_trx : MvccTrx := mkMvccTrx (-1) false false [].
Definition recovering_trx (trx_id : Z) : MvccTrx := mkMvccTrx trx_id true true [].
Definition set_started (id : Z) (b : bool) (x : MvccTrx) : MvccTrx := mkMvccTrx id b (recovering_ x) (operations_ x).
Definition set_operations (l : list Operation) (x : MvccTrx) : MvccTrx := mkMvccTrx (trx_id_ x) (started_ x) (recovering_ x) l.

Definition max_trx_id : Z := INT32_MAX.

(** [MvccTrxKit::init]: the offsets are given when a table is created. *)
Definition kit_fields : option (list FieldMeta) :=
  b ← new_field "__trx_xid_begin" INTS 0 4 false (-1);
  e ← new_field "__trx_xid_end" INTS 0 4 false (-2);
  Some [b; e].

(** ** Log entries of transactions *)
Inductive MvccTrxLogOperation : Type := INSERT_RECORD | DELETE_RECORD | COMMIT | ROLLBACK.
Definition trx_op_index (o : MvccTrxLogOperation) : Z :=
  match o with INSERT_RECORD => 0 | DELETE_RECORD => 1 | COMMIT => 2 | ROLLBACK => 3 end.
Definition trx_op_of (z : Z) : option MvccTrxLogOperation :=
  if z =? 0 then Some INSERT_RECORD else if z =? 1 then Some DELETE_RECORD else if z =? 2 then Some COMMIT
  else if z =? 3 then Some ROLLBACK else None.

(** [LogModule::Id::TRANSACTION]. *)
Definition TRANSACTION : Z := 3.
Definition MvccTrxLogHeader_SIZE : Z := 8.
Definition trx_header (o : MvccTrxLogOperation) (trx_id : Z) : list Z := le_bytes 4 (trx_op_index o) ++ le_bytes 4 trx_id.
Definition record_entry (o : MvccTrxLogOperation) (trx_id : Z) (table_id : TableId) (rid : RID) : list Z :=
  trx_header o trx_id ++ le_bytes 4 table_id ++ rid_bytes rid.
Definition commit_entry (o : MvccTrxLogOperation) (trx_id commit_trx_id : Z) : list Z :=
  trx_header o trx_id ++ le_bytes 4 commit_trx_id.

(** ** Visibility: the decision of [MvccTrx::visit_record] *)
Definition visibility (trx_id begin_xid end_xid : Z) (mode : ReadWriteMode) : RC :=
  if (0 <? begin_xid) && (0 <? end_xid) then
    if (begin_xid <=? trx_id) && (trx_id <=? end_xid) then RC.SUCCESS else RC.RECORD_INVISIBLE
  else if begin_xid <? 0 then
    if - begin_xid =? trx_id then RC.SUCCESS else RC.RECORD_INVISIBLE
  else if end_xid <? 0 then
    match mode with
    | READ_ONLY => if negb (- end_xid =? trx_id) then RC.SUCCESS else RC.RECORD_INVISIBLE
    | READ_WRITE => if negb (- end_xid =? trx_id) then RC.LOCKED_CONCURRENCY_CONFLICT else RC.RECORD_INVISIBLE
    end
  else RC.SUCCESS.

Record Db (S L : Type) : Type := mkDb {
  db_tables : S;
  db_log : L;
  current_trx_id_ : Z;
  trxes_ : list TrxPtr;
  trx_objects : gmap TrxPtr MvccTrx
}.
Arguments mkDb {S L}.
Arguments db_tables {S L}.
Arguments db_log {S L}.
Arguments current_trx_id_ {S L}.
Arguments trxes_ {S L}.
Arguments trx_objects {S L}.

Section transactions.
Context {S L : Type} `{!Tables S} `{!LogHandler L}.
(** What the stack holds in a field that is not set. *)
Context (uninit : Z).
Notation Db := (Db S L).
Implicit Types (p : TrxPtr) (t : TableId) (rid : RID).

Definition set_tables (s : S) (d : Db) : Db := mkDb s (db_log d) (current_trx_id_ d) (trxes_ d) (trx_objects d).
Definition set_db_log (l : L) (d : Db) : Db := mkDb (db_tables d) l (current_trx_id_ d) (trxes_ d) (trx_objects d).
Definition set_current (i : Z) (d : Db) : Db := mkDb (db_tables d) (db_log d) i (trxes_ d) (trx_objects d).
Definition set_trxes (l : list TrxPtr) (m : gmap TrxPtr MvccTrx) (d : Db) : Db :=
  mkDb (db_tables d) (db_log d) (current_trx_id_ d) l m.

Definition tables {A} (m : M S A) : M Db A := λ d, match m (db_tables d) with Some (a, s) => Some (a, set_tables s d) | None => None end.
Definition log {A} (m : M L A) : M Db A := λ d, match m (db_log d) with Some (a, l) => Some (a, set_db_log l d) | None => None end.

Definition trx_of p : M Db MvccTrx := d ← fetch; deref (trx_objects d !! p).
Definition put_trx p (x : MvccTrx) : M Db unit := modify (λ d, set_trxes (trxes_ d) (<[p := x]> (trx_objects d)) d).

(** *** [MvccTrxKit] *)
Definition next_trx_id : M Db Z :=
  d ← fetch; let i := swrap 32 (current_trx_id_ d + 1) in modify (set_current i);; mret i.

Definition create_trx : M Db TrxPtr :=
  d ← fetch;
  let p := fresh (dom (trx_objects d)) in
  modify (set_trxes (trxes_ d ++ [p]) (<[p := new_trx]> (trx_objects d)));;
  mret p.

Definition create_trx_with (trx_id : Z) : M Db TrxPtr :=
  d ← fetch;
  let p := fresh (dom (trx_objects d)) in
  modify (set_trxes (trxes_ d ++ [p]) (<[p := recovering_trx trx_id]> (trx_objects d)));;
  (if current_trx_id_ d <? trx_id then modify (set_current trx_id) else mret tt);;
  mret p.

(** Null pointers are allowed. *)
Definition destroy_trx (trx : option TrxPtr) : M Db unit :=
  match trx with
  | None => mret tt
  | Some p => modify (λ d, set_trxes (list_remove1 p (trxes_ d)) (delete p (trx_objects d)) d)
  end.

Definition all_trxes : M Db (list TrxPtr) := gets trxes_.

(** *** [MvccTrxLogHandler] *)
Definition log_trx_insert (trx_id : Z) t rid : M Db RC :=
  assertb (0 <? trx_id);;
  '(rc, lsn) ← log (log_append TRANSACTION (record_entry INSERT_RECORD trx_id t rid)); mret rc.

Definition log_trx_delete (trx_id : Z) t rid : M Db RC :=
  assertb (0 <? trx_id);;
  '(rc, lsn) ← log (log_append TRANSACTION (record_entry DELETE_RECORD trx_id t rid)); mret rc.

Definition log_trx_commit (trx_id commit_trx_id : Z) : M Db RC :=
  assertb ((0 <? trx_id) && (trx_id <? commit_trx_id));;
  '(rc, lsn) ← log (log_append TRANSACTION (commit_entry COMMIT trx_id commit_trx_id));
  if RC.OB_FAIL rc then mret rc else log (wait_lsn lsn).

Definition log_trx_rollback (trx_id : Z) : M Db RC :=
  assertb (0 <? trx_id);;
  '(rc, lsn) ← log (log_append TRANSACTION (commit_entry ROLLBACK trx_id uninit)); mret rc.

(** *** [MvccTrx] *)
(** [MvccTrx::trx_fields]. *)
Definition xid_fields t : M Db (FieldMeta * FieldMeta) :=
  d ← fetch;
  meta ← deref (tb_meta t (db_tables d));
  match trx_fields meta with b :: e :: _ => mret (b, e) | _ => abort end.

Definition visit_decision (trx_id : Z) (b e : FieldMeta) (record : list Z) (mode : ReadWriteMode) : option RC :=
  begin_xid ← field_get_int b record; end_xid ← field_get_int e record; Some (visibility trx_id begin_xid end_xid mode).

Definition trx_visit_record p t (record : list Z) (mode : ReadWriteMode) : M Db RC :=
  x ← trx_of p;
  '(b, e) ← xid_fields t;
  deref (visit_decision (trx_id_ x) b e record mode).

Definition trx_insert_record p t (record : list Z) : M Db (RC * RID) :=
  x ← trx_of p;
  '(b, e) ← xid_fields t;
  record ← deref (field_set_int b record (- trx_id_ x));
  record ← deref (field_set_int e record max_trx_id);
  '(rc, rid) ← tables (tb_insert_record t record);
  if bool_decide (rc ≠ RC.SUCCESS) then mret (rc, rid)
  else
    rc ← log_trx_insert (trx_id_ x) t rid;
    assertb (bool_decide (rc = RC.SUCCESS));;
    put_trx p (set_operations (operations_ x ++ [mkOperation INSERT t rid]) x);;
    mret (rc, rid).

(** The visitor of [delete_record]; it sets [delete_result]. *)
Definition delete_visitor (trx_id : Z) (b e : FieldMeta) : visitor RC := λ inplace_record,
  rc ← visit_decision trx_id b e inplace_record READ_WRITE;
  if RC.OB_FAIL rc then Some (rc, (false, inplace_record))
  else record ← field_set_int e inplace_record (- trx_id); Some (RC.SUCCESS, (true, record)).

Definition trx_delete_record p t rid : M Db RC :=
  x ← trx_of p;
  '(b, e) ← xid_fields t;
  '(rc, visited) ← tables (tb_visit_record t rid (delete_visitor (trx_id_ x) b e));
  let delete_result := default RC.SUCCESS visited in
  if RC.OB_FAIL rc then mret rc
  else if RC.OB_FAIL delete_result then mret delete_result
  else
    rc ← log_trx_delete (trx_id_ x) t rid;
    assertb (bool_decide (rc = RC.SUCCESS));;
    put_trx p (set_operations (operations_ x ++ [mkOperation DELETE t rid]) x);;
    mret RC.SUCCESS.

Definition trx_update_record : M Db RC := mret RC.UNIMPLEMENTED.

Definition start_if_need p : M Db RC :=
  x ← trx_of p;
  if negb (started_ x) then
    assertb (bool_decide (operations_ x = []));;
    i ← next_trx_id;
    put_trx p (set_started i true x);;
    mret RC.SUCCESS
  else mret RC.SUCCESS.

(** Replaces a transaction id in a field, which must be [- trx_id]. *)
Definition commit_visitor (trx_id : Z) (recovering : bool) (f : FieldMeta) (commit_xid : Z) : visitor unit := λ record,
  i ← field_get_int f record;
  if (i =? - trx_id) && negb recovering then record ← field_set_int f record commit_xid; Some (tt, (true, record)) else None.

Definition commit_operation (x : MvccTrx) (commit_xid : Z) (o : Operation) : M Db unit :=
  match op_type o with
  | INSERT =>
      '(b, e) ← xid_fields (op_table o);
      '(rc, _) ← tables (tb_visit_record (op_table o) (op_rid o) (commit_visitor (trx_id_ x) (recovering_ x) b commit_xid));
      assertb (bool_decide (rc = RC.SUCCESS))
  | DELETE =>
      '(b, e) ← xid_fields (op_table o);
      '(rc, _) ← tables (tb_visit_record (op_table o) (op_rid o) (commit_visitor (trx_id_ x) false e commit_xid));
      assertb (bool_decide (rc = RC.SUCCESS))
  | UPDATE | UNDEFINED_OPERATION => abort
  end.

Fixpoint commit_operations (x : MvccTrx) (commit_xid : Z) (l : list Operation) : M Db unit :=
  match l with [] => mret tt | o :: l => commit_operation x commit_xid o;; commit_operations x commit_xid l end.

Definition commit_with_trx_id p (commit_xid : Z) : M Db RC :=
  x ← trx_of p;
  put_trx p (set_started (trx_id_ x) false x);;
  commit_operations x commit_xid (operations_ x);;
  rc ← (if negb (recovering_ x) then log_trx_commit (trx_id_ x) commit_xid else mret RC.SUCCESS);
  put_trx p (set_operations [] (set_started (trx_id_ x) false x));;
  mret rc.

Definition trx_commit p : M Db RC := commit_xid ← next_trx_id; commit_with_trx_id p commit_xid.

(** A deletion is undone by a visitor that leaves records alone that a recovering
    transaction does not own any more. *)
Definition rollback_visitor (trx_id : Z) (recovering : bool) (e : FieldMeta) : visitor unit := λ record,
  i ← field_get_int e record;
  if recovering && negb (i =? - trx_id) then Some (tt, (false, record))
  else if i =? - trx_id then record ← field_set_int e record max_trx_id; Some (tt, (true, record))
  else None.

(** The record of an insertion: only its id is known, unless it is read first. *)
Definition undo_insert (x : MvccTrx) t rid (data : option (list Z)) : M Db RC :=
  rc ← tables (tb_delete_record t rid data);
  assertb (bool_decide (rc = RC.SUCCESS));;
  mret rc.

Definition undo_delete (x : MvccTrx) t rid (rc : RC) : M Db RC :=
  assertb (bool_decide (rc = RC.SUCCESS));;
  '(b, e) ← xid_fields t;
  '(rc, _) ← tables (tb_visit_record t rid (rollback_visitor (trx_id_ x) (recovering_ x) e));
  assertb (bool_decide (rc = RC.SUCCESS));;
  mret rc.

(** The loop of [rollback] over the operations, last one first; [inl]: it returns. *)
Fixpoint undo_operations (x : MvccTrx) (l : list Operation) (rc : RC) : M Db (RC + RC) :=
  match l with
  | [] => mret (inr rc)
  | o :: l =>
      match op_type o with
      | INSERT =>
          if recovering_ x then
            '(rc, record) ← tables (tb_get_record (op_table o) (op_rid o));
            if RC.OB_SUCC rc then
              record ← deref record;
              '(b, e) ← xid_fields (op_table o);
              i ← deref (field_get_int b record);
              if negb (i =? - trx_id_ x) then undo_operations x l rc
              else rc ← undo_insert x (op_table o) (op_rid o) (Some record); undo_operations x l rc
            else if bool_decide (rc = RC.RECORD_NOT_EXIST) then undo_operations x l rc
            else mret (inl rc)
          else rc ← undo_insert x (op_table o) (op_rid o) None; undo_operations x l rc
      | DELETE => rc ← undo_delete x (op_table o) (op_rid o) rc; undo_operations x l rc
      | UPDATE | UNDEFINED_OPERATION => abort
      end
  end.

Definition trx_rollback p : M Db RC :=
  x ← trx_of p;
  put_trx p (set_started (trx_id_ x) false x);;
  undone ← undo_operations x (rev (operations_ x)) RC.SUCCESS;
  match undone with
  | inl rc => mret rc
  | inr rc =>
      put_trx p (set_operations [] (set_started (trx_id_ x) false x));;
      if negb (recovering_ x) then log_trx_rollback (trx_id_ x) else mret rc
  end.

(** *** Replay of the log *)
(** [find_table]: the table a log entry is about. *)
Definition find_table (o : option MvccTrxLogOperation) (data : list Z) : M Db (RC * option TableId) :=
  match o with
  | Some (INSERT_RECORD | DELETE_RECORD) =>
      t ← deref (get_i32 data 8);
      d ← fetch;
      mret (match tb_meta t (db_tables d) with None => (RC.SCHEMA_TABLE_NOT_EXIST, None) | Some _ => (RC.SUCCESS, Some t) end)
  | _ => mret (RC.SUCCESS, None)
  end.

Definition redo_operation p (type : OperationType) (table : option TableId) (data : list Z) : M Db RC :=
  rid ← deref (rid_at data 12);
  t ← deref table;
  x ← trx_of p;
  put_trx p (set_operations (operations_ x ++ [mkOperation type t rid]) x);;
  mret RC.SUCCESS.

Definition trx_redo p (data : list Z) : M Db RC :=
  i ← deref (get_i32 data 0);
  let o := trx_op_of i in
  '(rc, table) ← find_table o data;
  if RC.OB_FAIL rc then mret rc
  else
    match o with
    | Some INSERT_RECORD => redo_operation p INSERT table data
    | Some DELETE_RECORD => redo_operation p DELETE table data
    | Some COMMIT => mret RC.SUCCESS
    | Some ROLLBACK => mret RC.SUCCESS
    | None => abort
    end.

(** [MvccTrxLogReplayer::replay] with [trx_map_]: reading [trx_map_[trx_id]] makes
    the entry when there is none. *)
Definition trx_replay (data : list Z) (trx_map_ : gmap Z TrxPtr) : M Db (RC * gmap Z TrxPtr) :=
  if Z.of_nat (length data) <? MvccTrxLogHeader_SIZE then mret (RC.LOG_ENTRY_INVALID, trx_map_)
  else
    trx_id ← deref (get_i32 data 4);
    i ← deref (get_i32 data 0);
    p ← (match trx_map_ !! trx_id with None => create_trx_with trx_id | Some p => mret p end);
    rc ← trx_redo p data;
    match trx_op_of i with
    | Some (ROLLBACK | COMMIT) => destroy_trx (trx_map_ !! trx_id);; mret (rc, delete trx_id trx_map_)
    | _ => mret (rc, trx_map_)
    end.

(** [on_done], for the transactions in the order of the map: rolled back and freed,
    but not taken from the kit. *)
Fixpoint finish_trxes (l : list (Z * TrxPtr)) : M Db unit :=
  match l with
  | [] => mret tt
  | (_, p) :: l =>
      trx_rollback p;;
      modify (λ d, set_trxes (trxes_ d) (delete p (trx_objects d)) d);;
      finish_trxes l
  end.
Definition trx_on_done (trx_map_ : gmap Z TrxPtr) : M Db (RC * gmap Z TrxPtr) :=
  finish_trxes (map_to_list trx_map_);; mret (RC.SUCCESS, ∅).

(** *** [VacuousTrx]: no transactions *)
Definition vacuous_insert_record t (record : list Z) : M Db (RC * RID) := tables (tb_insert_record t record).
Definition vacuous_delete_record t rid (record : list Z) : M Db RC := tables (tb_delete_record t rid (Some record)).
Definition vacuous_visit_record (mode : ReadWriteMode) : RC := RC.SUCCESS.
End transactions.

(** ** [TrxKit::create] *)
Inductive TrxKitType : Type := VACUOUS | MVCC | LSM.
Definition create_trx_kit (name : option string) : option TrxKitType :=
  match name with
  | None => Some VACUOUS
  | Some n =>
      if is_blank name || same_but_case n "vacuous" then Some VACUOUS
      else if same_but_case n "mvcc" then (_ ← kit_fields; Some MVCC)
      else None
  end.
