(* ===== verification/MvccSpec.v ===== *)
(** * What transactions promise

    [TablesLaws]: what transactions rely on in the tables, a finite map of records.
    [Snapshots]: the specification of the transactions, snapshot isolation: a
    transaction works on the rows that were committed when it began, with its own
    insertions and deletions.  [coupled] relates a database to its specification
    through the two transaction ids that every record begins with. *)

From stdpp Require Import strings.
From S2P Require Import Prelude Types Bytes RecordPage IndexKey TableMeta BufferPool PoolSafety RecordSafety Frame Mvcc.
Local Open Scope Z_scope.

Notation Key := (prod TableId RID) (only parsing).

(** ** The tables as a map *)
Section laws.
Context (S : Type) `{!Tables S}.

(** How a state of the tables is seen; a table is [bare] when it has no index. *)
Record tables_view : Type := mkTablesView {
  tv_inv : S → Prop;
  tv_recs : S → gmap Key (list Z);
  tv_bare : TableId → S → Prop
}.
Record same_tables (v : tables_view) (s s' : S) : Prop := {
  sm_inv : tv_inv v s';
  sm_meta t : tb_meta t s' = tb_meta t s;
  sm_bare t : tv_bare v t s → tv_bare v t s'
}.

(** A visitor may change the transaction ids only.  Records that are there are visited
    and deleted without a failure; heap tables are such tables when their storage is
    reliable. *)
Class TablesLaws : Type := {
  tv : tables_view;
  tl_insert s t r meta : tv_inv tv s → tb_meta t s = Some meta → Z.of_nat (length r) = tm_record_size meta →
    ∃ rc rid s', tb_insert_record t r s = Some ((rc, rid), s') ∧ same_tables tv s s' ∧
      (rc = RC.SUCCESS ∧ tv_recs tv s !! (t, rid) = None ∧ tv_recs tv s' = <[(t, rid) := r]> (tv_recs tv s) ∨
       rc ≠ RC.SUCCESS ∧ tv_recs tv s' = tv_recs tv s);
  tl_delete s t rid r data : tv_inv tv s → tv_recs tv s !! (t, rid) = Some r → data = Some r ∨ data = None ∧ tv_bare tv t s →
    ∃ s', tb_delete_record t rid data s = Some (RC.SUCCESS, s') ∧ same_tables tv s s' ∧ tv_recs tv s' = delete (t, rid) (tv_recs tv s);
  tl_get s t rid : tv_inv tv s → is_Some (tb_meta t s) →
    ∃ rc s', tb_get_record t rid s = Some ((rc, tv_recs tv s !! (t, rid)), s') ∧ same_tables tv s s' ∧ tv_recs tv s' = tv_recs tv s ∧
      (rc = RC.SUCCESS ↔ is_Some (tv_recs tv s !! (t, rid)));
  tl_visit {A} s t rid (f : visitor A) r a b r' : tv_inv tv s → tv_recs tv s !! (t, rid) = Some r → f r = Some (a, (b, r')) →
    (b = true → length r' = length r ∧ drop 8 r' = drop 8 r) →
    ∃ s', tb_visit_record t rid f s = Some ((RC.SUCCESS, Some a), s') ∧ same_tables tv s s' ∧
      tv_recs tv s' = if b then <[(t, rid) := r']> (tv_recs tv s) else tv_recs tv s;
  tl_visit_none {A} s t rid (f : visitor A) : tv_inv tv s → is_Some (tb_meta t s) → tv_recs tv s !! (t, rid) = None →
    ∃ rc s', tb_visit_record t rid f s = Some ((rc, None), s') ∧ rc ≠ RC.SUCCESS ∧ same_tables tv s s' ∧ tv_recs tv s' = tv_recs tv s
}.
End laws.
Arguments tv {S _ _}.
Arguments tv_inv {S}.
Arguments tv_recs {S}.
Arguments tv_bare {S}.
Arguments same_tables {S _}.
Arguments sm_inv {S _ _ _ _}.
Arguments sm_meta {S _ _ _ _}.
Arguments sm_bare {S _ _ _ _}.

Lemma same_tables_trans {S} `{!Tables S} (v : tables_view S) s1 s2 s3 : same_tables v s1 s2 → same_tables v s2 s3 → same_tables v s1 s3.
Proof. intros [I1 M1 B1] [I2 M2 B2]. split; [done|intros t; by rewrite M2, M1|auto]. Qed.

(** ** Snapshot isolation *)
Notation Row := (list Z) (only parsing).

Record Txn : Type := mkTxn {
  tx_id : Z;
  tx_snapshot : gmap Key Row;
  tx_inserted : gmap Key Row;
  tx_deleted : gset Key
}.
Record Snapshots : Type := mkSnapshots {
  committed : gmap Key Row;
  active : gmap TrxPtr Txn
}.

(** What a transaction sees. *)
Definition tx_view (x : Txn) (k : Key) : option Row :=
  match tx_inserted x !! k with
  | Some row => Some row
  | None => if decide (k ∈ tx_deleted x) then None else tx_snapshot x !! k
  end.

(** Another transaction has deleted the row and is still under way. *)
Definition deleted_by_other (A : Snapshots) (p : TrxPtr) (k : Key) : Prop :=
  ∃ q y, active A !! q = Some y ∧ q ≠ p ∧ k ∈ tx_deleted y.

Inductive request : Type :=
  | Begin (p : TrxPtr)
  | InsertRow (p : TrxPtr) (t : TableId) (record : list Z)
  | DeleteRow (p : TrxPtr) (t : TableId) (rid : RID)
  | ReadRow (p : TrxPtr) (t : TableId) (rid : RID)
  | Commit (p : TrxPtr)
  | Rollback (p : TrxPtr).
Inductive reply : Type := Did (rc : RC) | Inserted (rc : RC) (rid : RID) | Row_ (row : option Row).

Definition set_active (p : TrxPtr) (x : Txn) (A : Snapshots) : Snapshots := mkSnapshots (committed A) (<[p := x]> (active A)).
Definition ended (p : TrxPtr) (c : gmap Key Row) (A : Snapshots) : Snapshots := mkSnapshots c (delete p (active A)).
Definition after_commit (x : Txn) (c : gmap Key Row) : gmap Key Row :=
  tx_inserted x ∪ filter (λ kv, kv.1 ∉ tx_deleted x) c.

(** A step of the specification.  An insertion may be refused and picks the record
    id. *)
Inductive spec_step (A : Snapshots) : request → reply → Snapshots → Prop :=
  | spec_begin p i : active A !! p = None → (∀ q y, active A !! q = Some y → tx_id y < i) →
      spec_step A (Begin p) (Did RC.SUCCESS) (set_active p (mkTxn i (committed A) ∅ ∅) A)
  | spec_insert p x t record rid : active A !! p = Some x → tx_view x (t, rid) = None → committed A !! (t, rid) = None →
      spec_step A (InsertRow p t record) (Inserted RC.SUCCESS rid)
        (set_active p (mkTxn (tx_id x) (tx_snapshot x) (<[(t, rid) := drop 8 record]> (tx_inserted x)) (tx_deleted x)) A)
  | spec_insert_refused p t record rc rid : rc ≠ RC.SUCCESS → spec_step A (InsertRow p t record) (Inserted rc rid) A
  | spec_delete p x t rid : active A !! p = Some x → is_Some (tx_snapshot x !! (t, rid)) → (t, rid) ∉ tx_deleted x → ¬ deleted_by_other A p (t, rid) →
      spec_step A (DeleteRow p t rid) (Did RC.SUCCESS)
        (set_active p (mkTxn (tx_id x) (tx_snapshot x) (tx_inserted x) ({[(t, rid)]} ∪ tx_deleted x)) A)
  | spec_delete_conflict p t rid : deleted_by_other A p (t, rid) →
      spec_step A (DeleteRow p t rid) (Did RC.LOCKED_CONCURRENCY_CONFLICT) A
  | spec_delete_unseen p x t rid rc : active A !! p = Some x → tx_view x (t, rid) = None → ¬ deleted_by_other A p (t, rid) →
      rc ≠ RC.SUCCESS → spec_step A (DeleteRow p t rid) (Did rc) A
  | spec_read p x t rid : active A !! p = Some x → spec_step A (ReadRow p t rid) (Row_ (tx_view x (t, rid))) A
  | spec_commit p x rc : active A !! p = Some x → spec_step A (Commit p) (Did rc) (ended p (after_commit x (committed A)) A)
  | spec_rollback p x rc : active A !! p = Some x → spec_step A (Rollback p) (Did rc) (ended p (committed A) A).

Inductive spec_run (A : Snapshots) : list request → list reply → Snapshots → Prop :=
  | spec_nil : spec_run A [] [] A
  | spec_cons q a A1 qs l A2 : spec_step A q a A1 → spec_run A1 qs l A2 → spec_run A (q :: qs) (a :: l) A2.

(** ** Records *)
Definition begin_xid (r : list Z) : Z := default 0 (get_i32 r 0).
Definition end_xid (r : list Z) : Z := default 0 (get_i32 r 4).

(** Being deleted, or not deleted at all. *)
Definition live (r : list Z) : Prop := 0 < begin_xid r ∧ (end_xid r = max_trx_id ∨ end_xid r < 0).
(** Committed before the transaction with id [i] began, and not deleted by then. *)
Definition in_snapshot (i : Z) (r : list Z) : Prop := 0 < begin_xid r ≤ i ∧ (end_xid r < 0 ∨ i ≤ end_xid r).

(** The metadata of a table with the fields of transactions. *)
Record mvcc_meta (m : TableMeta) : Prop := {
  mm_fields : ∃ b e l, trx_fields m = b :: e :: l ∧ fm_type b = INTS ∧ fm_len b = 4 ∧ fm_offset b = 0 ∧
    fm_type e = INTS ∧ fm_len e = 4 ∧ fm_offset e = 4;
  mm_size : 8 ≤ tm_record_size m
}.

Section coupling.
Context {S L : Type} `{!Tables S, !TablesLaws S} `{!LogHandler L, !LogLaws L}.
Notation Db := (Db S L).

Definition recs (d : Db) : gmap Key (list Z) := tv_recs tv (db_tables d).

(** The state of a record: new, committed, being deleted, deleted. *)
Inductive record_state (A : Snapshots) (cur : Z) (k : Key) (r : list Z) : Prop :=
  | rs_new p x : active A !! p = Some x → is_Some (tx_inserted x !! k) → begin_xid r = - tx_id x → end_xid r = max_trx_id → record_state A cur k r
  | rs_live : 0 < begin_xid r ≤ cur → end_xid r = max_trx_id → record_state A cur k r
  | rs_marked p x : active A !! p = Some x → k ∈ tx_deleted x → 0 < begin_xid r ≤ cur → end_xid r = - tx_id x →
      (∀ q y, active A !! q = Some y → begin_xid r ≤ tx_id y) → record_state A cur k r
  | rs_deleted : 0 < begin_xid r ≤ end_xid r → end_xid r ≤ cur → record_state A cur k r.

Definition op_key (o : Operation) : Key := (op_table o, op_rid o).

(** The operations of a transaction are its insertions and deletions. *)
Record ops_of (l : list Operation) (x : Txn) : Prop := {
  oo_nodup : NoDup (op_key <$> l);
  oo_type o : o ∈ l → op_type o = INSERT ∨ op_type o = DELETE;
  oo_insert k : is_Some (tx_inserted x !! k) ↔ mkOperation INSERT k.1 k.2 ∈ l;
  oo_delete k : k ∈ tx_deleted x ↔ mkOperation DELETE k.1 k.2 ∈ l
}.

Record coupled (d : Db) (A : Snapshots) : Prop := {
  cp_inv : tv_inv tv (db_tables d);
  cp_log : log_ok (db_log d);
  cp_meta k r : recs d !! k = Some r → ∃ m, tb_meta k.1 (db_tables d) = Some m ∧ mvcc_meta m ∧ Z.of_nat (length r) = tm_record_size m;
  cp_cur : 0 ≤ current_trx_id_ d < max_trx_id;
  cp_state k r : recs d !! k = Some r → record_state A (current_trx_id_ d) k r;
  cp_objects p x : trx_objects d !! p = Some x → recovering_ x = false ∧
    if started_ x then ∃ y, active A !! p = Some y ∧ tx_id y = trx_id_ x ∧ ops_of (operations_ x) y
    else active A !! p = None ∧ operations_ x = [];
  cp_active p y : active A !! p = Some y → ∃ x, trx_objects d !! p = Some x ∧ started_ x = true;
  cp_ids p y : active A !! p = Some y → 0 < tx_id y ≤ current_trx_id_ d;
  cp_distinct p q y z : active A !! p = Some y → active A !! q = Some z → tx_id y = tx_id z → p = q;
  cp_committed k row : committed A !! k = Some row ↔ ∃ r, recs d !! k = Some r ∧ live r ∧ drop 8 r = row;
  cp_snapshot p y k row : active A !! p = Some y →
    tx_snapshot y !! k = Some row ↔ ∃ r, recs d !! k = Some r ∧ in_snapshot (tx_id y) r ∧ drop 8 r = row;
  cp_inserted p y k row : active A !! p = Some y →
    tx_inserted y !! k = Some row ↔ ∃ r, recs d !! k = Some r ∧ begin_xid r = - tx_id y ∧ drop 8 r = row;
  cp_deleted p y k : active A !! p = Some y →
    k ∈ tx_deleted y ↔ ∃ r, recs d !! k = Some r ∧ 0 < begin_xid r ∧ end_xid r = - tx_id y
}.

(** ** Serving requests *)
Section serve.
Context (uninit : Z).

(** How a scan reads a record: it is passed over when it is not visible. *)
Definition read_row (p : TrxPtr) (t : TableId) (rid : RID) : M Db (option (list Z)) :=
  '(rc, record) ← tables (tb_get_record t rid);
  match record with
  | Some r => rc ← trx_visit_record p t r READ_ONLY; mret (if RC.OB_SUCC rc then Some (drop 8 r) else None)
  | None => mret None
  end.

Definition serve (q : request) : M Db reply :=
  match q with
  | Begin p => rc ← start_if_need p; mret (Did rc)
  | InsertRow p t record => '(rc, rid) ← trx_insert_record p t record; mret (Inserted rc rid)
  | DeleteRow p t rid => rc ← trx_delete_record p t rid; mret (Did rc)
  | ReadRow p t rid => row ← read_row p t rid; mret (Row_ row)
  | Commit p => rc ← trx_commit p; mret (Did rc)
  | Rollback p => rc ← trx_rollback uninit p; mret (Did rc)
  end.
Fixpoint serve_all (qs : list request) : M Db (list reply) :=
  match qs with [] => mret [] | q :: qs => a ← serve q; l ← serve_all qs; mret (a :: l) end.
End serve.

(** A transaction that has been started. *)
Definition running (d : Db) (p : TrxPtr) : Prop := ∃ x, trx_objects d !! p = Some x ∧ started_ x = true.
Definition room (d : Db) : Prop := current_trx_id_ d + 1 < max_trx_id.

(** Deleting a record that the transaction inserted itself, that another transaction
    has deleted since, or that is newer than some running transaction is not covered:
    there the code does not isolate transactions. *)
Definition deletable (d : Db) (p : TrxPtr) (k : Key) : Prop :=
  ∀ r x, recs d !! k = Some r → trx_objects d !! p = Some x →
    begin_xid r ≠ - trx_id_ x ∧
    (in_snapshot (trx_id_ x) r → end_xid r = max_trx_id →
       ∀ q y, trx_objects d !! q = Some y → started_ y = true → begin_xid r ≤ trx_id_ y) ∧
    (in_snapshot (trx_id_ x) r → 0 < end_xid r → end_xid r = max_trx_id).

Definition allowed (d : Db) (q : request) : Prop :=
  match q with
  | Begin p => room d ∧ ∃ x, trx_objects d !! p = Some x ∧ started_ x = false
  | InsertRow p t record => running d p ∧ ∃ m, tb_meta t (db_tables d) = Some m ∧ mvcc_meta m ∧ Z.of_nat (length record) = tm_record_size m
  | DeleteRow p t rid => running d p ∧ (∃ m, tb_meta t (db_tables d) = Some m ∧ mvcc_meta m) ∧ deletable d p (t, rid)
  | ReadRow p t rid => running d p ∧ is_Some (tb_meta t (db_tables d))
  | Commit p => running d p ∧ room d
  | Rollback p => running d p ∧ ∀ x o, trx_objects d !! p = Some x → o ∈ operations_ x → tv_bare tv (op_table o) (db_tables d)
  end.

Fixpoint allowed_all (uninit : Z) (d : Db) (qs : list request) : Prop :=
  match qs with
  | [] => True
  | q :: qs => allowed d q ∧ ∀ a d', serve uninit q d = Some (a, d') → allowed_all uninit d' qs
  end.
End coupling.
