(* ===== verification/MvccRead.v ===== *)
(** * Transactions: reading and beginning

    The bytes of the transaction ids in a record, what a transaction sees of a record
    in a coupled state, and the requests that change no record: each on a coupled state
    returns, takes the step of the specification and leaves a coupled state. *)

From stdpp Require Import strings.
From S2P Require Import Prelude Types Bytes Frame BufferPool PoolSafety RecordPage RecordSafety IndexKey TableMeta Mvcc MvccSpec.
Local Open Scope Z_scope.

(** ** Transaction ids in records *)
Lemma int_field_get f r o : fm_offset f = Z.of_nat o → (o + 4 ≤ length r)%nat → field_get_int f r = Some (default 0 (get_i32 r o)).
Proof. intros E Hl. unfold field_get_int. rewrite E, Nat2Z.id. by destruct (get_i32_Some r o Hl) as [z ->]. Qed.

Lemma set_i32_drop l off z l' n : set_i32 l off z = Some l' → (off + 4 ≤ n)%nat → drop n l' = drop n l.
Proof.
  unfold set_i32, set_bytes. rewrite le_bytes_length. case_decide as Hb; [|done]. intros E%(inj Some) Hn. rewrite <-E. clear E l'.
  rewrite (app_assoc (take off l)), drop_app_ge by (rewrite length_app, le_bytes_length, length_take; lia).
  rewrite drop_drop, length_app, le_bytes_length, length_take. f_equal. lia.
Qed.

Definition id_field (f : FieldMeta) (o : Z) : Prop := fm_type f = INTS ∧ fm_len f = 4 ∧ fm_offset f = o.

Lemma int_field_set f r o z : id_field f (Z.of_nat o) → (o + 4 ≤ length r)%nat → in_srange 32 z →
  ∃ r', field_set_int f r z = Some r' ∧ get_i32 r' o = Some z ∧ (∀ o', (o' + 4 ≤ o ∨ o + 4 ≤ o')%nat → get_i32 r' o' = get_i32 r o') ∧
    length r' = length r ∧ ∀ n, (o + 4 ≤ n)%nat → drop n r' = drop n r.
Proof.
  intros (H1 & H2 & H3) Hl Hz. unfold field_set_int. rewrite bool_decide_eq_true_2, H2 by done. cbn [andb Z.eqb Pos.eqb].
  rewrite H3, Nat2Z.id. destruct (set_i32_Some r o z Hl) as [r' E]. exists r'. split_and!; [done|by eapply get_set_i32| | |].
  - intros o' Ho. eapply get_set_i32_other; [exact E|lia].
  - by eapply set_i32_length.
  - intros n. by eapply set_i32_drop.
Qed.

Lemma set_begin f r z : id_field f 0 → (8 ≤ length r)%nat → in_srange 32 z →
  ∃ r', field_set_int f r z = Some r' ∧ begin_xid r' = z ∧ end_xid r' = end_xid r ∧ length r' = length r ∧ drop 8 r' = drop 8 r.
Proof.
  intros Hf Hl Hz. destruct (int_field_set f r 0 z Hf) as (r' & E & E1 & E2 & E3 & E4); [lia|done|].
  exists r'. unfold begin_xid, end_xid. rewrite E1, E2 by lia. split_and!; [done|done|done|done|]. apply E4. lia.
Qed.

Lemma set_end f r z : id_field f 4 → (8 ≤ length r)%nat → in_srange 32 z →
  ∃ r', field_set_int f r z = Some r' ∧ begin_xid r' = begin_xid r ∧ end_xid r' = z ∧ length r' = length r ∧ drop 8 r' = drop 8 r.
Proof.
  intros Hf Hl Hz. destruct (int_field_set f r 4 z Hf) as (r' & E & E1 & E2 & E3 & E4); [lia|done|].
  exists r'. unfold begin_xid, end_xid. rewrite E1, E2 by lia. split_and!; [done|done|done|done|]. apply E4. lia.
Qed.

Lemma visit_decision_ok i b e r mode : id_field b 0 → id_field e 4 → (8 ≤ length r)%nat →
  visit_decision i b e r mode = Some (visibility i (begin_xid r) (end_xid r) mode).
Proof.
  intros (_ & _ & Hb) (_ & _ & He) Hl. unfold visit_decision. rewrite (int_field_get b r 0), (int_field_get e r 4) by (done || lia). done.
Qed.

Lemma mvcc_fields m : mvcc_meta m → ∃ b e l, trx_fields m = b :: e :: l ∧ id_field b 0 ∧ id_field e 4.
Proof. intros [(b & e & l & E & ? & ? & ? & ? & ? & ?) _]. by exists b, e, l. Qed.

Section steps.
Context {S L : Type} `{!Tables S, !TablesLaws S} `{!LogHandler L, !LogLaws L}.
Notation Db := (Db S L).
Implicit Types (d : Db) (A : Snapshots) (p q : TrxPtr) (k : Key).

(** ** Running the parts *)
Lemma tables_run {B} (m : M S B) d a s : m (db_tables d) = Some (a, s) → tables m d = Some (a, set_tables s d).
Proof. intros E. unfold tables. by rewrite E. Qed.

Lemma log_run {B} (m : M L B) d a l : m (db_log d) = Some (a, l) → log m d = Some (a, set_db_log l d).
Proof. intros E. unfold log. by rewrite E. Qed.

Lemma trx_of_run d p x : trx_objects d !! p = Some x → trx_of p d = Some (x, d).
Proof. intros E. unfold trx_of, fetch, mbind, M_bind, deref. by rewrite E. Qed.

Lemma xid_fields_run d t m b e l : tb_meta t (db_tables d) = Some m → trx_fields m = b :: e :: l → xid_fields t d = Some ((b, e), d).
Proof. intros E1 E2. unfold xid_fields, fetch, mbind, M_bind, deref. rewrite E1. cbn. by rewrite E2. Qed.

Lemma assert_run (b : bool) d : b = true → assertb b d = Some (tt, d).
Proof. by intros ->. Qed.

(** Appending to the log changes nothing else. *)
Lemma append_run (Hacc : log_accepts (L:=L)) d pl : log_ok (db_log d) →
  ∃ n l', log (log_append TRANSACTION pl) d = Some ((RC.SUCCESS, n), set_db_log l' d) ∧ log_ok l'.
Proof.
  intros Hl. destruct (append_total (db_log d) TRANSACTION pl Hl) as (rc & n & l' & E & Hl' & _).
  pose proof (Hacc _ _ _ _ _ _ Hl E) as ->. exists n, l'. split; [by apply log_run|done].
Qed.

Lemma log_insert_run (Hacc : log_accepts (L:=L)) d i t rid : log_ok (db_log d) → 0 < i →
  ∃ l', log_trx_insert i t rid d = Some (RC.SUCCESS, set_db_log l' d) ∧ log_ok l'.
Proof.
  intros Hl Hi. destruct (append_run Hacc d (record_entry INSERT_RECORD i t rid) Hl) as (n & l' & E & Hl').
  exists l'. unfold log_trx_insert. rewrite (exec (assert_run _ d (proj2 (Z.ltb_lt _ _) Hi))), (exec E). by split.
Qed.

Lemma log_delete_run (Hacc : log_accepts (L:=L)) d i t rid : log_ok (db_log d) → 0 < i →
  ∃ l', log_trx_delete i t rid d = Some (RC.SUCCESS, set_db_log l' d) ∧ log_ok l'.
Proof.
  intros Hl Hi. destruct (append_run Hacc d (record_entry DELETE_RECORD i t rid) Hl) as (n & l' & E & Hl').
  exists l'. unfold log_trx_delete. rewrite (exec (assert_run _ d (proj2 (Z.ltb_lt _ _) Hi))), (exec E). by split.
Qed.

Lemma log_commit_run (Hacc : log_accepts (L:=L)) d i c : log_ok (db_log d) → 0 < i < c →
  ∃ rc l', log_trx_commit i c d = Some (rc, set_db_log l' d) ∧ log_ok l'.
Proof.
  intros Hl Hi. destruct (append_run Hacc d (commit_entry COMMIT i c) Hl) as (n & l' & E & Hl').
  destruct (wait_total l' n Hl') as (rc & l2 & E2 & Hl2). exists rc, l2. unfold log_trx_commit.
  rewrite (exec (assert_run _ d (proj2 (andb_true_iff _ _) (conj (proj2 (Z.ltb_lt 0 i) (proj1 Hi)) (proj2 (Z.ltb_lt i c) (proj2 Hi)))))), (exec E).
  change (RC.OB_FAIL RC.SUCCESS) with false. cbn iota. split; [|done]. by rewrite (log_run _ (set_db_log l' d) rc l2 E2).
Qed.

Lemma log_rollback_run (Hacc : log_accepts (L:=L)) uninit d i : log_ok (db_log d) → 0 < i →
  ∃ l', log_trx_rollback uninit i d = Some (RC.SUCCESS, set_db_log l' d) ∧ log_ok l'.
Proof.
  intros Hl Hi. destruct (append_run Hacc d (commit_entry ROLLBACK i uninit) Hl) as (n & l' & E & Hl').
  exists l'. unfold log_trx_rollback. rewrite (exec (assert_run _ d (proj2 (Z.ltb_lt _ _) Hi))), (exec E). by split.
Qed.

(** ** Records with transaction ids *)
Definition tables_ok d : Prop :=
  tv_inv tv (db_tables d) ∧
  ∀ k r, recs d !! k = Some r → ∃ m, tb_meta k.1 (db_tables d) = Some m ∧ mvcc_meta m ∧ Z.of_nat (length r) = tm_record_size m.

Lemma record_length d k r : tables_ok d → recs d !! k = Some r → (8 ≤ length r)%nat.
Proof. intros [_ T] Hr. destruct (T k r Hr) as (m & _ & [_ Hs] & Hl). lia. Qed.

Lemma record_fields d k r : tables_ok d → recs d !! k = Some r → ∃ b e, xid_fields k.1 d = Some ((b, e), d) ∧ id_field b 0 ∧ id_field e 4.
Proof.
  intros [_ T] Hr. destruct (T k r Hr) as (m & Hm & Hv & _). destruct (mvcc_fields m Hv) as (b & e & l & E & Hb & He).
  exists b, e. split; [|done]. by eapply xid_fields_run.
Qed.

Lemma coupled_tables d A : coupled d A → tables_ok d.
Proof. intros C. split; [apply (cp_inv _ _ C)|apply (cp_meta _ _ C)]. Qed.

(** ** What a coupled state says about one record *)
Section coupled.
Context d A (C : coupled d A).

Lemma running_active p x : trx_objects d !! p = Some x → started_ x = true →
  ∃ y, active A !! p = Some y ∧ tx_id y = trx_id_ x ∧ ops_of (operations_ x) y ∧ recovering_ x = false ∧ 0 < trx_id_ x ≤ current_trx_id_ d.
Proof.
  intros Hx Hs. destruct (cp_objects _ _ C p x Hx) as [Hrec Ho]. rewrite Hs in Ho. destruct Ho as (y & Hy & Hi & Ho).
  exists y. pose proof (cp_ids _ _ C p y Hy) as Hb. rewrite Hi in Hb. split_and!; done || lia.
Qed.

(** What is in the sets of a transaction, by the ids of the record. *)
Lemma not_inserted p y k r : active A !! p = Some y → recs d !! k = Some r → begin_xid r ≠ - tx_id y → tx_inserted y !! k = None.
Proof.
  intros Hy Hr Hb. destruct (tx_inserted y !! k) as [row|] eqn:E; [|done]. exfalso.
  apply (cp_inserted _ _ C p y k row Hy) in E as (r' & Hr' & Hb' & _). congruence.
Qed.

Lemma not_deleted p y k r : active A !! p = Some y → recs d !! k = Some r → end_xid r ≠ - tx_id y ∨ begin_xid r ≤ 0 → k ∉ tx_deleted y.
Proof. intros Hy Hr He (r' & Hr' & Hb' & He')%(cp_deleted _ _ C p y k Hy). rewrite Hr in Hr'. injection Hr' as <-. lia. Qed.

Lemma is_deleted p y k r : active A !! p = Some y → recs d !! k = Some r → 0 < begin_xid r → end_xid r = - tx_id y → k ∈ tx_deleted y.
Proof. intros Hy Hr Hb He. apply (cp_deleted _ _ C p y k Hy). eauto. Qed.

Lemma snapshot_of p y k r : active A !! p = Some y → recs d !! k = Some r →
  (in_snapshot (tx_id y) r → tx_snapshot y !! k = Some (drop 8 r)) ∧ (¬ in_snapshot (tx_id y) r → tx_snapshot y !! k = None).
Proof.
  intros Hy Hr. split.
  - intros Hs. apply (cp_snapshot _ _ C p y k _ Hy). eauto.
  - intros Hs. destruct (tx_snapshot y !! k) as [row|] eqn:E; [|done]. exfalso.
    apply (cp_snapshot _ _ C p y k row Hy) in E as (r' & Hr' & Hs' & _). rewrite Hr in Hr'. by injection Hr' as <-.
Qed.

Lemma no_record p y k : active A !! p = Some y → recs d !! k = None → tx_inserted y !! k = None ∧ k ∉ tx_deleted y ∧ tx_snapshot y !! k = None.
Proof.
  intros Hy Hr. split_and!.
  - destruct (tx_inserted y !! k) as [row|] eqn:E; [|done]. apply (cp_inserted _ _ C p y k row Hy) in E as (r & Hr' & _). congruence.
  - intros (r & Hr' & _)%(cp_deleted _ _ C p y k Hy). congruence.
  - destruct (tx_snapshot y !! k) as [row|] eqn:E; [|done]. apply (cp_snapshot _ _ C p y k row Hy) in E as (r & Hr' & _). congruence.
Qed.

Lemma no_committed k : recs d !! k = None → committed A !! k = None.
Proof.
  intros Hr. destruct (committed A !! k) as [row|] eqn:E; [|done]. apply (cp_committed _ _ C k row) in E as (r & Hr' & _). congruence.
Qed.

(** A transaction sees of a record what its snapshot and its own changes say. *)
Lemma view_of_record p y k r : active A !! p = Some y → recs d !! k = Some r →
  tx_view y k = if RC.OB_SUCC (visibility (tx_id y) (begin_xid r) (end_xid r) READ_ONLY) then Some (drop 8 r) else None.
Proof.
  intros Hy Hr. pose proof (cp_ids _ _ C p y Hy) as Hi. pose proof (cp_cur _ _ C) as Hc. unfold tx_view, visibility.
  destruct (snapshot_of p y k r Hy Hr) as [S1 S2].
  destruct (cp_state _ _ C k r Hr) as [q x Hx Hin Hb He|Hb He|q x Hx Hd Hb He Hall|Hb He].
  - pose proof (cp_ids _ _ C q x Hx). rewrite (proj2 (Z.ltb_ge 0 (begin_xid r))) by lia. cbn [andb].
    rewrite (proj2 (Z.ltb_lt (begin_xid r) 0)) by lia. destruct (Z.eqb_spec (- begin_xid r) (tx_id y)) as [E|E].
    + assert (tx_inserted y !! k = Some (drop 8 r)) as -> by (apply (cp_inserted _ _ C p y k _ Hy); exists r; split_and!; [done|lia|done]). done.
    + rewrite (not_inserted p y k r), S2 by (done || lia || (unfold in_snapshot; lia)). by case_decide.
  - rewrite (proj2 (Z.ltb_lt 0 (begin_xid r))), He by lia. change (0 <? max_trx_id) with true. cbn [andb].
    rewrite (not_inserted p y k r) by (done || lia). rewrite decide_False by (apply (not_deleted p y k r Hy Hr); left; unfold max_trx_id, INT32_MAX in *; lia).
    destruct (Z.leb_spec (begin_xid r) (tx_id y)); cbn [andb].
    + rewrite (proj2 (Z.leb_le (tx_id y) max_trx_id)) by lia. apply S1. unfold in_snapshot. lia.
    + apply S2. unfold in_snapshot. lia.
  - pose proof (cp_ids _ _ C q x Hx). pose proof (Hall p y Hy). rewrite (proj2 (Z.ltb_lt 0 (begin_xid r))) by lia.
    rewrite (proj2 (Z.ltb_ge 0 (end_xid r))) by lia. cbn [andb]. rewrite (proj2 (Z.ltb_ge (begin_xid r) 0)), (proj2 (Z.ltb_lt (end_xid r) 0)) by lia.
    rewrite (not_inserted p y k r) by (done || lia). destruct (Z.eqb_spec (- end_xid r) (tx_id y)); cbn [negb].
    + rewrite decide_True; [done|]. apply (is_deleted p y k r Hy Hr); lia.
    + rewrite decide_False by (apply (not_deleted p y k r Hy Hr); lia). apply S1. unfold in_snapshot. lia.
  - rewrite (proj2 (Z.ltb_lt 0 (begin_xid r))), (proj2 (Z.ltb_lt 0 (end_xid r))) by lia. cbn [andb].
    rewrite (not_inserted p y k r) by (done || lia). rewrite decide_False by (apply (not_deleted p y k r Hy Hr); lia).
    destruct (Z.leb_spec (begin_xid r) (tx_id y)); cbn [andb]; [|apply S2; unfold in_snapshot; lia].
    destruct (Z.leb_spec (tx_id y) (end_xid r)); [apply S1|apply S2]; unfold in_snapshot; lia.
Qed.
End coupled.
End steps.

Section change.
Context {S L : Type} `{!Tables S, !TablesLaws S} `{!LogHandler L, !LogLaws L}.
Notation Db := (Db S L).
Implicit Types (d : Db) (A : Snapshots) (p q : TrxPtr) (k : Key).

(** What the cases of a record say about its transaction ids. *)
Lemma record_ids d A k r : coupled d A → recs d !! k = Some r →
  - current_trx_id_ d ≤ begin_xid r < 0 ∧ end_xid r = max_trx_id ∨ 0 < begin_xid r ≤ current_trx_id_ d ∧ end_xid r = max_trx_id ∨
  0 < begin_xid r ≤ current_trx_id_ d ∧ - current_trx_id_ d ≤ end_xid r < 0 ∨
  0 < begin_xid r ≤ end_xid r ∧ end_xid r ≤ current_trx_id_ d.
Proof.
  intros C Hr. destruct (cp_state _ _ C k r Hr) as [q x Hx _ Hb He|Hb He|q x Hx _ Hb He _|Hb He].
  - pose proof (cp_ids _ _ C q x Hx). lia.
  - lia.
  - pose proof (cp_ids _ _ C q x Hx). lia.
  - lia.
Qed.

(** Changes outside the records and the transactions. *)
Lemma coupled_same d A s l : coupled d A → same_tables tv (db_tables d) s → tv_recs tv s = recs d → log_ok l →
  coupled (set_db_log l (set_tables s d)) A.
Proof.
  intros [] [Hi Hm _] Hr Hl. split; cbn; try done.
  1: { intros k r. unfold recs. cbn. rewrite Hr, Hm. auto. }
  all: unfold recs; cbn; rewrite Hr; auto.
Qed.

(** ** Beginning *)
Lemma begin_step d A p : coupled d A → allowed d (Begin p) →
  ∃ d' i, start_if_need p d = Some (RC.SUCCESS, d') ∧
    spec_step A (Begin p) (Did RC.SUCCESS) (set_active p (mkTxn i (committed A) ∅ ∅) A) ∧ coupled d' (set_active p (mkTxn i (committed A) ∅ ∅) A).
Proof.
  intros C [Hroom (x & Hx & Hs)]. destruct (cp_objects _ _ C p x Hx) as [Hrec Ho]. rewrite Hs in Ho. destruct Ho as [Hp Hops].
  pose proof (cp_cur _ _ C) as Hc. unfold room in Hroom. set (i := current_trx_id_ d + 1).
  set (d' := set_trxes (trxes_ d) (<[p := set_started i true x]> (trx_objects d)) (set_current i d)).
  assert (swrap 32 (current_trx_id_ d + 1) = i) as Ei by (apply swrap_id; [lia|unfold in_srange, max_trx_id, INT32_MAX in *; lia]).
  exists d', i. split; [|split].
  - unfold start_if_need. rewrite (exec (trx_of_run d p x Hx)), Hs. cbn [negb]. rewrite Hops. unfold next_trx_id. mstep. rewrite Ei. done.
  - constructor; [done|]. intros q y Hq. pose proof (cp_ids _ _ C q y Hq). lia.
  - assert (∀ q, q ≠ p → active (set_active p (mkTxn i (committed A) ∅ ∅) A) !! q = active A !! q) as Hne by (intros q Hq; cbn; by rewrite lookup_insert_ne).
    assert (∀ q y, active (set_active p (mkTxn i (committed A) ∅ ∅) A) !! q = Some y → q = p ∧ y = mkTxn i (committed A) ∅ ∅ ∨ q ≠ p ∧ active A !! q = Some y) as Hcase.
    { intros q y Hq. destruct (decide (q = p)) as [->|Hqp]; [left|right; by rewrite Hne in Hq]. cbn in Hq. rewrite lookup_insert_eq in Hq. by injection Hq as <-. }
    assert (∀ q y, active A !! q = Some y → q ≠ p) as Hqp by (intros q y Hq ->; congruence).
    pose proof (λ k r, record_ids d A k r C) as Hids.
    split; cbn -[active set_active].
    + apply (cp_inv _ _ C).
    + apply (cp_log _ _ C).
    + apply (cp_meta _ _ C).
    + lia.
    + intros k r Hr. destruct (cp_state _ _ C k r Hr) as [q y Hq Hin Hb He|Hb He|q y Hq Hd Hb He Hall|Hb He].
      * eapply rs_new; [by rewrite Hne; [exact Hq|eauto]|done|done|done].
      * apply rs_live; [lia|done].
      * eapply rs_marked; [by rewrite Hne; [exact Hq|eauto]|done|lia|done|].
        intros q' y' [[-> ->]|[_ Hq']]%Hcase; [cbn; lia|eauto].
      * apply rs_deleted; lia.
    + intros q y Hq. destruct (decide (q = p)) as [->|Hqp'].
      * rewrite lookup_insert_eq in Hq. injection Hq as <-. cbn. split; [done|]. eexists. rewrite lookup_insert_eq. split; [done|]. split; [done|].
        rewrite Hops. split; [by apply list.NoDup_nil|by intros ? ?%not_elem_of_nil| |intros k; cbn; set_solver].
        intros k. cbn. rewrite lookup_empty. split; [by intros []|by intros ?%not_elem_of_nil].
      * rewrite lookup_insert_ne in Hq by done. destruct (cp_objects _ _ C q y Hq) as [H1 H2]. split; [done|]. by rewrite Hne.
    + intros q y [[-> ->]|[Hn Hq]]%Hcase.
      * eexists. rewrite lookup_insert_eq. by split.
      * rewrite lookup_insert_ne by done. by eapply (cp_active _ _ C).
    + intros q y [[-> ->]|[Hn Hq]]%Hcase; cbn; [lia|]. pose proof (cp_ids _ _ C q y Hq). lia.
    + intros q1 q2 y1 y2 [[-> ->]|[Hn1 Hq1]]%Hcase [[-> ->]|[Hn2 Hq2]]%Hcase; cbn; intros E; [done| | |by eapply (cp_distinct _ _ C)].
      * pose proof (cp_ids _ _ C q2 y2 Hq2). lia.
      * pose proof (cp_ids _ _ C q1 y1 Hq1). lia.
    + apply (cp_committed _ _ C).
    + intros q y k row [[-> ->]|[Hn Hq]]%Hcase; [|by apply (cp_snapshot _ _ C q)]. cbn. rewrite (cp_committed _ _ C k row).
      split; intros (r & Hr & Hl & Hp'); exists r; (split; [done|]); (split; [|done]); pose proof (Hids k r Hr);
        unfold live, in_snapshot in *; lia.
    + intros q y k row [[-> ->]|[Hn Hq]]%Hcase; [|by apply (cp_inserted _ _ C q)]. cbn. rewrite lookup_empty.
      split; [done|]. intros (r & Hr & Hb & _). pose proof (Hids k r Hr). lia.
    + intros q y k [[-> ->]|[Hn Hq]]%Hcase; [|by apply (cp_deleted _ _ C q)]. cbn.
      split; [set_solver|]. intros (r & Hr & Hb & He). pose proof (Hids k r Hr). unfold max_trx_id, INT32_MAX in *. lia.
Qed.

(** ** Reading *)
Lemma visit_run d A p x t rid r mode : coupled d A → trx_objects d !! p = Some x → recs d !! (t, rid) = Some r →
  trx_visit_record p t r mode d = Some (visibility (trx_id_ x) (begin_xid r) (end_xid r) mode, d).
Proof.
  intros C Hx Hr. destruct (record_fields d _ _ (coupled_tables d A C) Hr) as (b & e & Ef & Hb & He). unfold trx_visit_record.
  rewrite (exec (trx_of_run d p x Hx)), (exec Ef), visit_decision_ok by (done || by (eapply record_length; [by eapply coupled_tables|done])). done.
Qed.

Lemma read_step d A p t rid : coupled d A → running d p → is_Some (tb_meta t (db_tables d)) →
  ∃ d' y, active A !! p = Some y ∧ read_row p t rid d = Some (tx_view y (t, rid), d') ∧ coupled d' A.
Proof.
  intros C (x & Hx & Hs) Hm. destruct (running_active d A C p x Hx Hs) as (y & Hy & Hi & _ & _ & _).
  destruct (tl_get _ (db_tables d) t rid (cp_inv _ _ C) Hm) as (rc & s & E & Hsame & Hrecs & _).
  pose proof (coupled_same d A s (db_log d) C Hsame Hrecs (cp_log _ _ C)) as C'. set (d' := set_tables s d).
  replace (set_db_log (db_log d) (set_tables s d)) with d' in C' by done.
  exists d', y. split; [done|]. split; [|done]. unfold read_row. rewrite (exec (tables_run _ d _ _ E)). fold d'. change (tv_recs tv (db_tables d)) with (recs d).
  assert (recs d' = recs d) as Er by (unfold recs, d'; cbn; exact Hrecs).
  destruct (recs d !! (t, rid)) as [r|] eqn:Hr.
  - rewrite <-Er in Hr. rewrite (exec (visit_run d' A p x t rid r READ_ONLY C' Hx Hr)), (view_of_record d' A C' p y _ r Hy Hr), Hi. done.
  - destruct (no_record d A C p y _ Hy Hr) as (V1 & V2 & V3). unfold tx_view. rewrite V1, V3. by case_decide.
Qed.

(** ** One record changes *)
(** The records of a transaction other than [k] are as before. *)
Definition same_but (k : Key) (y y' : Txn) : Prop :=
  tx_id y' = tx_id y ∧ tx_snapshot y' = tx_snapshot y ∧
  ∀ k', k' ≠ k → tx_inserted y' !! k' = tx_inserted y !! k' ∧ (k' ∈ tx_deleted y' ↔ k' ∈ tx_deleted y).

(** What the sets say about the record [r] at [k]. *)
Definition fits (A : Snapshots) (k : Key) (r : list Z) : Prop :=
  (∀ row, committed A !! k = Some row ↔ live r ∧ drop 8 r = row) ∧
  ∀ q z, active A !! q = Some z →
    (∀ row, tx_snapshot z !! k = Some row ↔ in_snapshot (tx_id z) r ∧ drop 8 r = row) ∧
    (∀ row, tx_inserted z !! k = Some row ↔ begin_xid r = - tx_id z ∧ drop 8 r = row) ∧
    (k ∈ tx_deleted z ↔ 0 < begin_xid r ∧ end_xid r = - tx_id z).

(** The database after a change by [p]: the objects of the transactions and the
    counter are as before, but for the operations of [p]. *)
Record changed_by (p : TrxPtr) (x x' : MvccTrx) (d d' : Db) : Prop := {
  cb_tables : same_tables tv (db_tables d) (db_tables d');
  cb_log : log_ok (db_log d');
  cb_current : current_trx_id_ d' = current_trx_id_ d;
  cb_objects : trx_objects d' = <[p := x']> (trx_objects d);
  cb_trx : trx_id_ x' = trx_id_ x ∧ started_ x' = true ∧ recovering_ x' = false
}.

Lemma record_state_move A k0 p y y' cur k r : active A !! p = Some y → same_but k0 y y' → k ≠ k0 →
  record_state A cur k r → record_state (set_active p y' A) cur k r.
Proof.
  intros Hy (Hid & _ & Hk) Hne Hr. destruct (Hk k Hne) as [Hin Hdel].
  assert (∀ q z, active A !! q = Some z → ∃ z', active (set_active p y' A) !! q = Some z' ∧ tx_id z' = tx_id z ∧
    tx_inserted z' !! k = tx_inserted z !! k ∧ (k ∈ tx_deleted z' ↔ k ∈ tx_deleted z)) as Hmap.
  { intros q z Hq. cbn. destruct (decide (q = p)) as [->|Hqp].
    - assert (z = y) as -> by congruence. exists y'. by rewrite lookup_insert_eq.
    - exists z. by rewrite lookup_insert_ne. }
  assert (∀ q z', active (set_active p y' A) !! q = Some z' → ∃ z, active A !! q = Some z ∧ tx_id z' = tx_id z) as Hback.
  { intros q z'. cbn. destruct (decide (q = p)) as [->|Hqp]; [rewrite lookup_insert_eq; intros [= <-]; eauto|].
    rewrite lookup_insert_ne by done. eauto. }
  destruct Hr as [q z Hq Hi Hb He|Hb He|q z Hq Hd Hb He Hall|Hb He].
  - destruct (Hmap q z Hq) as (z' & Hz' & E1 & E2 & _). eapply rs_new; [exact Hz'|by rewrite E2|lia|done].
  - by apply rs_live.
  - destruct (Hmap q z Hq) as (z' & Hz' & E1 & _ & E3). eapply rs_marked; [exact Hz'|by apply E3|lia|lia|].
    intros q' w (w0 & Hw & ->)%Hback. eauto.
  - by apply rs_deleted.
Qed.

Lemma coupled_update d A d' p x x' y y' k r' m :
  coupled d A → trx_objects d !! p = Some x → started_ x = true → active A !! p = Some y →
  changed_by p x x' d d' → recs d' = <[k := r']> (recs d) → tb_meta k.1 (db_tables d) = Some m → mvcc_meta m →
  Z.of_nat (length r') = tm_record_size m → same_but k y y' → ops_of (operations_ x') y' →
  record_state (set_active p y' A) (current_trx_id_ d) k r' → fits (set_active p y' A) k r' →
  coupled d' (set_active p y' A).
Proof.
  intros C Hx Hs Hy [[Hinv Hmeta _] Hlog Hcur Hobj (Hid & Hst & Hrec)] Hr Hm Hmm Hlen Hsame Hops Hstate [Fc Fa].
  pose proof Hsame as (Hidy & Hsn & Hk). destruct (running_active d A C p x Hx Hs) as (y0 & Hy0 & Hxy & _).
  assert (y0 = y) as -> by congruence. clear Hy0.
  assert (∀ q z, active (set_active p y' A) !! q = Some z → q = p ∧ z = y' ∨ q ≠ p ∧ active A !! q = Some z) as Hcase.
  { intros q z. cbn. destruct (decide (q = p)) as [->|Hqp]; [rewrite lookup_insert_eq; intros [= <-]; by left|].
    rewrite lookup_insert_ne by done. by right. }
  split; try (rewrite Hr); try (rewrite Hcur); try (rewrite Hobj).
  - done.
  - done.
  - intros k' r. destruct (decide (k' = k)) as [->|Hne].
    + rewrite lookup_insert_eq. intros [= <-]. exists m. by rewrite Hmeta.
    + rewrite lookup_insert_ne by done. rewrite Hmeta. apply (cp_meta _ _ C).
  - apply (cp_cur _ _ C).
  - intros k' r. destruct (decide (k' = k)) as [->|Hne].
    + rewrite lookup_insert_eq. by intros [= <-].
    + rewrite lookup_insert_ne by done. intros H%(cp_state _ _ C). by eapply record_state_move.
  - intros q z. destruct (decide (q = p)) as [->|Hqp].
    + rewrite lookup_insert_eq. intros [= <-]. rewrite Hst. split; [done|]. exists y'. cbn. rewrite lookup_insert_eq. split_and!; [done|lia|done].
    + rewrite lookup_insert_ne by done. intros Hz. destruct (cp_objects _ _ C q z Hz) as [H1 H2]. split; [done|]. cbn. by rewrite lookup_insert_ne.
  - intros q z [[-> ->]|[Hqp Hq]]%Hcase; [exists x'; by rewrite lookup_insert_eq|]. rewrite lookup_insert_ne by done. by eapply (cp_active _ _ C).
  - intros q z [[-> ->]|[Hqp Hq]]%Hcase; [rewrite Hidy|]; by eapply (cp_ids _ _ C).
  - intros q1 q2 z1 z2 [[-> ->]|[Hq1 H1]]%Hcase [[-> ->]|[Hq2 H2]]%Hcase; rewrite ?Hidy; intros E; [done|..]; by eapply (cp_distinct _ _ C).
  - intros k' row. destruct (decide (k' = k)) as [->|Hne].
    + rewrite lookup_insert_eq, Fc. naive_solver.
    + rewrite lookup_insert_ne by done. apply (cp_committed _ _ C).
  - intros q z k' row Hq. destruct (decide (k' = k)) as [->|Hne].
    + rewrite lookup_insert_eq. destruct (Fa q z Hq) as (-> & _). naive_solver.
    + rewrite lookup_insert_ne by done. destruct (Hcase q z Hq) as [[-> ->]|[Hqp Hq']]; [rewrite Hidy, Hsn|]; by eapply (cp_snapshot _ _ C).
  - intros q z k' row Hq. destruct (decide (k' = k)) as [->|Hne].
    + rewrite lookup_insert_eq. destruct (Fa q z Hq) as (_ & -> & _). naive_solver.
    + rewrite lookup_insert_ne by done. destruct (Hcase q z Hq) as [[-> ->]|[Hqp Hq']]; [rewrite Hidy, (proj1 (Hk k' Hne))|]; by eapply (cp_inserted _ _ C).
  - intros q z k' Hq. destruct (decide (k' = k)) as [->|Hne].
    + rewrite lookup_insert_eq. destruct (Fa q z Hq) as (_ & _ & ->). naive_solver.
    + rewrite lookup_insert_ne by done. destruct (Hcase q z Hq) as [[-> ->]|[Hqp Hq']]; [rewrite Hidy, (proj2 (Hk k' Hne))|]; by eapply (cp_deleted _ _ C).
Qed.
End change.
