(* ===== verification/MvccWrite.v ===== *)
(** * Transactions: the requests that change records

    Inserting and deleting; then commit and rollback, whose loops over the operations
    of a transaction change exactly its records, and after which the database is
    coupled with the store in which the transaction has ended. *)

From stdpp Require Import strings.
From S2P Require Import Prelude Types Bytes Frame BufferPool PoolSafety RecordPage RecordSafety IndexKey TableMeta Mvcc MvccSpec MvccRead.
Local Open Scope Z_scope.

Section write.
Context {S L : Type} `{!Tables S, !TablesLaws S} `{!LogHandler L, !LogLaws L}.
Context (Hacc : log_accepts (L:=L)).
Notation Db := (Db S L).
Implicit Types (d : Db) (A : Snapshots) (p q : TrxPtr) (k : Key).

(** ** Operations of a transaction *)
Lemma ops_key l y k : ops_of l y → k ∈ op_key <$> l → is_Some (tx_inserted y !! k) ∨ k ∈ tx_deleted y.
Proof.
  intros O (o & -> & Ho)%list_elem_of_fmap. destruct (oo_type _ _ O o Ho) as [E|E].
  - left. apply (oo_insert _ _ O). destruct o as [ty t rid]. cbn in *. by subst.
  - right. apply (oo_delete _ _ O). destruct o as [ty t rid]. cbn in *. by subst.
Qed.

Lemma ops_snoc l y y' o : ops_of l y → op_key o ∉ op_key <$> l →
  (op_type o = INSERT ∧ (∃ row, tx_inserted y' = <[op_key o := row]> (tx_inserted y)) ∧ tx_deleted y' = tx_deleted y ∨
   op_type o = DELETE ∧ tx_inserted y' = tx_inserted y ∧ tx_deleted y' = {[op_key o]} ∪ tx_deleted y) →
  ops_of (l ++ [o]) y'.
Proof.
  intros O Hk Ho. assert (∀ ty k, op_type o = ty → mkOperation ty k.1 k.2 = o ↔ k = op_key o) as Heq.
  { intros ty [t rid] <-. destruct o as [ty' t' rid']. cbn. split; [by intros [= -> ->]|by intros [= -> ->]]. }
  split.
  - rewrite fmap_app. cbn. apply list.NoDup_app. split_and!; [apply (oo_nodup _ _ O)| |apply list.NoDup_singleton].
    intros k Hk' Hk2%list_elem_of_singleton. by subst.
  - intros o' [Ho'|Ho'%list_elem_of_singleton]%elem_of_app; [by apply (oo_type _ _ O)|subst; tauto].
  - intros k. rewrite elem_of_app, list_elem_of_singleton. destruct Ho as [(E & (row & ->) & _)|(E & -> & _)].
    + rewrite (Heq INSERT k E), <-(oo_insert _ _ O). destruct (decide (k = op_key o)) as [->|Hne].
      * rewrite lookup_insert_eq. naive_solver.
      * rewrite lookup_insert_ne by done. naive_solver.
    + rewrite (oo_insert _ _ O). split; [by left|]. intros [H|H]; [done|]. by rewrite <-H in E.
  - intros k. rewrite elem_of_app, list_elem_of_singleton. destruct Ho as [(E & _ & ->)|(E & _ & ->)].
    + rewrite (oo_delete _ _ O). split; [by left|]. intros [H|H]; [done|]. by rewrite <-H in E.
    + rewrite (Heq DELETE k E), <-(oo_delete _ _ O). set_solver.
Qed.

(** The database after the operation was added to the transaction. *)
Lemma add_operation_changed d p x s l o : trx_objects d !! p = Some x → started_ x = true → recovering_ x = false →
  same_tables tv (db_tables d) s → log_ok l →
  let x' := set_operations (operations_ x ++ [o]) x in
  ∃ d', put_trx p x' (set_db_log l (set_tables s d)) = Some (tt, d') ∧ changed_by p x x' d d' ∧ recs d' = tv_recs tv s.
Proof. intros Hx Hs Hr Hsame Hl x'. eexists. split; [reflexivity|]. split; [split; done|done]. Qed.

Lemma id_range d A p y : coupled d A → active A !! p = Some y → in_srange 32 (- tx_id y).
Proof. intros C Hy. pose proof (cp_ids _ _ C p y Hy). pose proof (cp_cur _ _ C). unfold in_srange, max_trx_id, INT32_MAX in *. lia. Qed.

(** ** Inserting *)
Lemma insert_fits d A p y k r row : coupled d A → active A !! p = Some y → recs d !! k = None →
  begin_xid r = - tx_id y → drop 8 r = row →
  fits (set_active p (mkTxn (tx_id y) (tx_snapshot y) (<[k := row]> (tx_inserted y)) (tx_deleted y)) A) k r.
Proof.
  intros C Hy Hk Hb Hrow. pose proof (cp_ids _ _ C p y Hy) as Hi. split.
  - intros row'. cbn [committed set_active]. rewrite (no_committed d A C k Hk). unfold live. split; [done|]. lia.
  - intros q z Hq. cbn in Hq. destruct (decide (q = p)) as [->|Hqp].
    + rewrite lookup_insert_eq in Hq. injection Hq as <-. cbn. destruct (no_record d A C p y k Hy Hk) as (_ & Hd & Hsn).
      rewrite Hsn, lookup_insert_eq. unfold in_snapshot. split_and!; intros; (split; [try done|try lia]); naive_solver lia.
    + rewrite lookup_insert_ne in Hq by done. destruct (no_record d A C q z k Hq Hk) as (Hn & Hd & Hsn). rewrite Hn, Hsn.
      unfold in_snapshot. split_and!; intros; (split; [done|try lia]). intros [E _]. exfalso. apply Hqp. symmetry. apply (cp_distinct _ _ C p q y z Hy Hq). lia.
Qed.

Lemma insert_step d A p t record : coupled d A → allowed d (InsertRow p t record) →
  ∃ rc rid d' A', trx_insert_record p t record d = Some ((rc, rid), d') ∧ spec_step A (InsertRow p t record) (Inserted rc rid) A' ∧ coupled d' A'.
Proof.
  intros C [(x & Hx & Hs) (m & Hm & Hv & Hl)]. destruct (running_active d A C p x Hx Hs) as (y & Hy & Hi & Hops & Hrec & Hid).
  destruct (mvcc_fields m Hv) as (b & e & l & Ef & Hb & He). pose proof (mm_size _ Hv) as H8.
  pose proof (id_range d A p y C Hy) as Hrange. rewrite Hi in Hrange.
  destruct (set_begin b record (- trx_id_ x) Hb ltac:(lia) Hrange) as (r1 & E1 & B1 & _ & L1 & P1).
  destruct (set_end e r1 max_trx_id He ltac:(lia) ltac:(unfold in_srange, max_trx_id, INT32_MAX; lia)) as (r2 & E2 & B2 & N2 & L2 & P2).
  destruct (tl_insert _ (db_tables d) t r2 m (cp_inv _ _ C) Hm ltac:(lia)) as (rc & rid & s & Et & Hsame & Hres).
  assert (trx_insert_record p t record d =
    (if bool_decide (rc ≠ RC.SUCCESS) then mret (rc, rid)
     else rc ← log_trx_insert (trx_id_ x) t rid; assertb (bool_decide (rc = RC.SUCCESS));;
          put_trx p (set_operations (operations_ x ++ [mkOperation INSERT t rid]) x);; mret (rc, rid)) (set_tables s d)) as Erun.
  { unfold trx_insert_record. rewrite (exec (trx_of_run d p x Hx)), (exec (xid_fields_run d t m b e l Hm Ef)).
    rewrite E1. cbn [deref]. mstep. rewrite E2. cbn. unfold tables. by rewrite Et. }
  destruct Hres as [(-> & Hfree & Hrecs)|[Hrc Hrecs]].
  - rewrite bool_decide_eq_false_2 in Erun by auto.
    destruct (log_insert_run Hacc (set_tables s d) (trx_id_ x) t rid (cp_log _ _ C) ltac:(lia)) as (l' & El & Hl').
    destruct (add_operation_changed d p x s l' (mkOperation INSERT t rid) Hx Hs Hrec Hsame Hl') as (d' & Ed & Hch & Hr').
    rewrite (exec El) in Erun. cbn [assertb bool_decide] in Erun. rewrite (exec (assert_run _ _ (bool_decide_eq_true_2 _ eq_refl))), (exec Ed) in Erun.
    set (y' := mkTxn (tx_id y) (tx_snapshot y) (<[(t, rid) := drop 8 record]> (tx_inserted y)) (tx_deleted y)).
    exists RC.SUCCESS, rid, d', (set_active p y' A). split; [exact Erun|].
    destruct (no_record d A C p y (t, rid) Hy Hfree) as (V1 & V2 & V3). split.
    + apply spec_insert; [done| |by eapply no_committed]. unfold tx_view. rewrite V1, V3. by case_decide.
    + eapply (coupled_update d A d' p x _ y y' (t, rid) r2 m); try done.
      * by rewrite Hr', Hrecs.
      * lia.
      * split; [done|]. split; [done|]. intros k' Hk'. cbn. by rewrite lookup_insert_ne.
      * eapply ops_snoc; [exact Hops| |left; cbn; eauto]. intros Hk%(ops_key _ y _ Hops).
        change (is_Some (tx_inserted y !! (t, rid)) ∨ (t, rid) ∈ tx_deleted y) in Hk. rewrite V1 in Hk. by destruct Hk as [[]|].
      * eapply rs_new; [cbn; by rewrite lookup_insert_eq|cbn; rewrite lookup_insert_eq; eauto|cbn; lia|done].
      * eapply insert_fits; [done|done|done|lia|by rewrite P2].
  - rewrite bool_decide_eq_true_2 in Erun by done. exists rc, rid, (set_tables s d), A. split; [exact Erun|].
    split; [by apply spec_insert_refused|]. apply (coupled_same d A s (db_log d) C Hsame Hrecs (cp_log _ _ C)).
Qed.

(** ** Deleting *)
Lemma fits_coupled d A k r : coupled d A → recs d !! k = Some r → fits A k r.
Proof.
  intros C Hr. split; [|intros q z Hq; split_and!].
  - intros row. rewrite (cp_committed _ _ C). naive_solver.
  - intros row. rewrite (cp_snapshot _ _ C q z k row Hq). naive_solver.
  - intros row. rewrite (cp_inserted _ _ C q z k row Hq). naive_solver.
  - rewrite (cp_deleted _ _ C q z k Hq). naive_solver.
Qed.

Lemma delete_fits d A p y k r r' : coupled d A → active A !! p = Some y → recs d !! k = Some r → 0 < begin_xid r → end_xid r = max_trx_id →
  begin_xid r' = begin_xid r → end_xid r' = - tx_id y → drop 8 r' = drop 8 r →
  fits (set_active p (mkTxn (tx_id y) (tx_snapshot y) (tx_inserted y) ({[k]} ∪ tx_deleted y)) A) k r'.
Proof.
  intros C Hy Hr Hb He Hb' He' Hp. destruct (fits_coupled d A k r C Hr) as [Fc Fa]. pose proof (cp_ids _ _ C p y Hy) as Hi. pose proof (cp_cur _ _ C).
  assert (∀ i, i ≤ current_trx_id_ d → in_snapshot i r' ↔ in_snapshot i r) as Hsn by (intros i ?; unfold in_snapshot; lia).
  split.
  - intros row. cbn [committed set_active]. rewrite Fc, Hp. unfold live. split; intros [? ?]; (split; [lia|done]).
  - intros q z Hq. cbn in Hq. destruct (decide (q = p)) as [->|Hqp].
    + rewrite lookup_insert_eq in Hq. injection Hq as <-. cbn. destruct (Fa p y Hy) as (F1 & F2 & F3). rewrite Hp, Hb'. split_and!.
      * intros row. by rewrite F1, Hsn by lia.
      * done.
      * split; [lia|set_solver].
    + rewrite lookup_insert_ne in Hq by done. destruct (Fa q z Hq) as (F1 & F2 & F3). pose proof (cp_ids _ _ C q z Hq). rewrite Hp, Hb'. split_and!.
      * intros row. by rewrite F1, Hsn by lia.
      * done.
      * rewrite F3. split; [lia|]. intros [_ E]. exfalso. apply Hqp. symmetry. apply (cp_distinct _ _ C p q y z Hy Hq). lia.
Qed.

Lemma active_running d A q z : coupled d A → active A !! q = Some z → ∃ x, trx_objects d !! q = Some x ∧ started_ x = true ∧ trx_id_ x = tx_id z.
Proof.
  intros C Hq. destruct (cp_active _ _ C q z Hq) as (x & Hx & Hs). destruct (running_active d A C q x Hx Hs) as (z' & Hz' & E & _).
  assert (z' = z) as -> by congruence. eauto.
Qed.

(** A deletion that is refused by the tables or by the visitor. *)
Lemma delete_refused d A p x y t rid m : coupled d A → trx_objects d !! p = Some x → started_ x = true → active A !! p = Some y →
  tb_meta t (db_tables d) = Some m → mvcc_meta m →
  match recs d !! (t, rid) with
  | None => True
  | Some r => visibility (trx_id_ x) (begin_xid r) (end_xid r) READ_WRITE ≠ RC.SUCCESS
  end →
  ∃ rc d', trx_delete_record p t rid d = Some (rc, d') ∧ coupled d' A ∧ rc ≠ RC.SUCCESS ∧
    ∀ r, recs d !! (t, rid) = Some r → rc = visibility (trx_id_ x) (begin_xid r) (end_xid r) READ_WRITE.
Proof.
  intros C Hx Hs Hy Hm Hv Hr. destruct (mvcc_fields m Hv) as (b & e & l & Ef & Hb & He). unfold trx_delete_record.
  rewrite (exec (trx_of_run d p x Hx)), (exec (xid_fields_run d t m b e l Hm Ef)).
  destruct (recs d !! (t, rid)) as [r|] eqn:E.
  - assert (delete_visitor (trx_id_ x) b e r = Some (visibility (trx_id_ x) (begin_xid r) (end_xid r) READ_WRITE, (false, r))) as Ev.
    { unfold delete_visitor. rewrite visit_decision_ok by (done || by (eapply record_length; [by eapply coupled_tables|done])). cbn [mbind option_bind].
      unfold RC.OB_FAIL. by rewrite bool_decide_eq_true_2. }
    destruct (tl_visit _ (db_tables d) t rid _ r _ _ _ (cp_inv _ _ C) E Ev) as (s & Et & Hsame & Hrecs); [done|].
    rewrite (exec (tables_run _ d _ s Et)). cbn [default]. change (RC.OB_FAIL RC.SUCCESS) with false. cbn iota.
    unfold RC.OB_FAIL. rewrite bool_decide_eq_true_2 by done. eexists _, (set_tables s d). split; [reflexivity|].
    split; [apply (coupled_same d A s (db_log d) C Hsame Hrecs (cp_log _ _ C))|]. split; [done|]. by intros r' [= <-].
  - destruct (tl_visit_none _ (db_tables d) t rid (delete_visitor (trx_id_ x) b e) (cp_inv _ _ C) (mk_is_Some _ _ Hm) E) as (rc & s & Et & Hrc & Hsame & Hrecs).
    rewrite (exec (tables_run _ d _ s Et)). cbn [default]. unfold RC.OB_FAIL. rewrite bool_decide_eq_true_2 by done.
    eexists rc, (set_tables s d). split; [reflexivity|]. split; [apply (coupled_same d A s (db_log d) C Hsame Hrecs (cp_log _ _ C))|]. by split.
Qed.

Lemma deletion_recorded d A p x y t rid r : coupled d A → trx_objects d !! p = Some x → started_ x = true → active A !! p = Some y →
  recs d !! (t, rid) = Some r → 0 < begin_xid r ≤ trx_id_ x → end_xid r = max_trx_id →
  (∀ q z, active A !! q = Some z → begin_xid r ≤ tx_id z) →
  ∃ d', trx_delete_record p t rid d = Some (RC.SUCCESS, d') ∧
    coupled d' (set_active p (mkTxn (tx_id y) (tx_snapshot y) (tx_inserted y) ({[(t, rid)]} ∪ tx_deleted y)) A).
Proof.
  intros C Hx Hs Hy Hr Hb He Hall. destruct (running_active d A C p x Hx Hs) as (y0 & Hy0 & Hi & Hops & Hrec & Hid). assert (y0 = y) as -> by congruence. clear Hy0.
  destruct (cp_meta _ _ C _ r Hr) as (m & Hm & Hv & Hl). cbn in Hm. destruct (mvcc_fields m Hv) as (b & e & l & Ef & Hfb & Hfe).
  pose proof (record_length d _ r (coupled_tables d A C) Hr) as H8. pose proof (id_range d A p y C Hy) as Hrange. rewrite Hi in Hrange. pose proof (cp_cur _ _ C).
  destruct (set_end e r (- trx_id_ x) Hfe H8 Hrange) as (r' & E1 & B1 & N1 & L1 & P1).
  assert (delete_visitor (trx_id_ x) b e r = Some (RC.SUCCESS, (true, r'))) as Ev.
  { unfold delete_visitor. rewrite visit_decision_ok by done. cbn [mbind option_bind]. unfold visibility.
    rewrite (proj2 (Z.ltb_lt 0 (begin_xid r))), He by lia. change (0 <? max_trx_id) with true. cbn [andb].
    rewrite (proj2 (Z.leb_le (begin_xid r) (trx_id_ x))), (proj2 (Z.leb_le (trx_id_ x) max_trx_id)) by lia. cbn. by rewrite E1. }
  destruct (tl_visit _ (db_tables d) t rid _ r _ _ _ (cp_inv _ _ C) Hr Ev) as (s & Et & Hsame & Hrecs); [done|].
  destruct (log_delete_run Hacc (set_tables s d) (trx_id_ x) t rid (cp_log _ _ C) ltac:(lia)) as (l' & El & Hl').
  destruct (add_operation_changed d p x s l' (mkOperation DELETE t rid) Hx Hs Hrec Hsame Hl') as (d' & Ed & Hch & Hr').
  exists d'. split.
  - unfold trx_delete_record. rewrite (exec (trx_of_run d p x Hx)), (exec (xid_fields_run d t m b e l Hm Ef)), (exec (tables_run _ d _ s Et)).
    cbn [from_option]. change (id RC.SUCCESS) with RC.SUCCESS. change (RC.OB_FAIL RC.SUCCESS) with false. cbn iota. rewrite (exec El), (exec (assert_run _ _ (bool_decide_eq_true_2 _ eq_refl))), (exec Ed). done.
  - assert ((t, rid) ∉ tx_deleted y) as Hnd by (apply (not_deleted d A C p y _ r Hy Hr); left; unfold max_trx_id, INT32_MAX in *; lia).
    assert (tx_inserted y !! (t, rid) = None) as Hni by (apply (not_inserted d A C p y _ r Hy Hr); lia).
    eapply (coupled_update d A d' p x _ y _ (t, rid) r' m); try done.
    + by rewrite Hr', Hrecs.
    + lia.
    + split; [done|]. split; [done|]. intros k' Hk'. cbn. split; [done|]. set_solver.
    + eapply ops_snoc; [exact Hops| |right; cbn; done]. intros Hk%(ops_key _ y _ Hops).
      change (is_Some (tx_inserted y !! (t, rid)) ∨ (t, rid) ∈ tx_deleted y) in Hk. rewrite Hni in Hk. by destruct Hk as [[]|].
    + eapply rs_marked; [cbn; by rewrite lookup_insert_eq|cbn; set_solver|lia|cbn; lia|]. intros q z. cbn.
      destruct (decide (q = p)) as [->|Hqp]; [rewrite lookup_insert_eq; intros [= <-]; cbn; rewrite B1; eauto|rewrite lookup_insert_ne by done; rewrite B1; eauto].
    + eapply delete_fits; [done|done|exact Hr|lia|done|done|lia|done].
Qed.

Lemma delete_step d A p t rid : coupled d A → allowed d (DeleteRow p t rid) →
  ∃ rc d' A', trx_delete_record p t rid d = Some (rc, d') ∧ spec_step A (DeleteRow p t rid) (Did rc) A' ∧ coupled d' A'.
Proof.
  intros C [(x & Hx & Hs) [(m & Hm & Hv) Hdel]]. destruct (running_active d A C p x Hx Hs) as (y & Hy & Hi & _ & _ & Hid). pose proof (cp_cur _ _ C).
  destruct (recs d !! (t, rid)) as [r|] eqn:Hr.
  2: { destruct (delete_refused d A p x y t rid m C Hx Hs Hy Hm Hv) as (rc & d' & E & C' & Hrc & _); [by rewrite Hr|].
       destruct (no_record d A C p y _ Hy Hr) as (V1 & V2 & V3). exists rc, d', A. split; [done|]. split; [|done].
       eapply spec_delete_unseen; [done| | |done]; [unfold tx_view; rewrite V1, V3; by case_decide|].
       intros (q & z & Hq & _ & Hk). by destruct (no_record d A C q z _ Hq Hr) as (_ & ? & _). }
  destruct (Hdel r x Hr Hx) as (Hown & Hnew & Hgone).
  assert (∀ v, visibility (trx_id_ x) (begin_xid r) (end_xid r) READ_WRITE = v → v ≠ RC.SUCCESS →
    spec_step A (DeleteRow p t rid) (Did v) A → ∃ rc d' A', trx_delete_record p t rid d = Some (rc, d') ∧ spec_step A (DeleteRow p t rid) (Did rc) A' ∧ coupled d' A') as Href.
  { intros v Ev Hv' Hst. destruct (delete_refused d A p x y t rid m C Hx Hs Hy Hm Hv) as (rc & d' & E & C' & Hrc & Hrcv); [by rewrite Hr, Ev|].
    rewrite (Hrcv r Hr), Ev in E. by exists v, d', A. }
  assert (tx_view y (t, rid) = None → ¬ deleted_by_other A p (t, rid) → spec_step A (DeleteRow p t rid) (Did RC.RECORD_INVISIBLE) A) as Hunseen
    by (intros; by eapply spec_delete_unseen).
  pose proof (view_of_record d A C p y _ r Hy Hr) as Hview. rewrite Hi in Hview.
  assert (∀ q z, active A !! q = Some z → (t, rid) ∈ tx_deleted z → 0 < begin_xid r ∧ end_xid r = - tx_id z) as Hby.
  { intros q z Hq Hk. destruct (fits_coupled d A _ r C Hr) as [_ Fa]. destruct (Fa q z Hq) as (_ & _ & F). by apply F. }
  destruct (record_ids d A _ r C Hr) as [[Hb He]|[[Hb He]|[[Hb He]|[Hb He]]]].
  - (* new, of another transaction *)
    assert (∀ mode, visibility (trx_id_ x) (begin_xid r) (end_xid r) mode = RC.RECORD_INVISIBLE) as Ev.
    { intros mode. unfold visibility. rewrite (proj2 (Z.ltb_ge 0 (begin_xid r))), (proj2 (Z.ltb_lt (begin_xid r) 0)) by lia. cbn [andb].
      by rewrite (proj2 (Z.eqb_neq _ _)) by lia. }
    apply (Href _ (Ev _)); [done|]. apply Hunseen; [by rewrite Hview, Ev|]. intros (q & z & Hq & _ & Hk). pose proof (Hby q z Hq Hk). lia.
  - (* live *)
    destruct (decide (begin_xid r ≤ trx_id_ x)) as [Hle|Hgt].
    + destruct (deletion_recorded d A p x y t rid r C Hx Hs Hy Hr) as (d' & E & C'); [lia|done| |].
      { intros q z Hq. destruct (active_running d A q z C Hq) as (xq & Hxq & Hsq & <-). apply (Hnew ltac:(unfold in_snapshot; lia) He q xq Hxq Hsq). }
      eexists _, d', _. split; [exact E|]. split; [|exact C'].
      apply spec_delete; [done| | |].
      * rewrite (proj1 (snapshot_of d A C p y _ r Hy Hr)); [eauto|]. unfold in_snapshot. lia.
      * intros Hk. pose proof (Hby p y Hy Hk). unfold max_trx_id, INT32_MAX in *. lia.
      * intros (q & z & Hq & _ & Hk). pose proof (Hby q z Hq Hk). pose proof (cp_ids _ _ C q z Hq). unfold max_trx_id, INT32_MAX in *. lia.
    + assert (∀ mode, visibility (trx_id_ x) (begin_xid r) (end_xid r) mode = RC.RECORD_INVISIBLE) as Ev.
      { intros mode. unfold visibility. rewrite (proj2 (Z.ltb_lt 0 (begin_xid r))), He by lia. change (0 <? max_trx_id) with true. cbn [andb].
        by rewrite (proj2 (Z.leb_gt _ _)) by lia. }
      apply (Href _ (Ev _)); [done|]. apply Hunseen; [by rewrite Hview, Ev|]. intros (q & z & Hq & _ & Hk). pose proof (Hby q z Hq Hk).
      pose proof (cp_ids _ _ C q z Hq). unfold max_trx_id, INT32_MAX in *. lia.
  - (* being deleted *)
    assert (∀ mode, visibility (trx_id_ x) (begin_xid r) (end_xid r) mode =
      if - end_xid r =? trx_id_ x then RC.RECORD_INVISIBLE else match mode with READ_ONLY => RC.SUCCESS | READ_WRITE => RC.LOCKED_CONCURRENCY_CONFLICT end) as Ev.
    { intros mode. unfold visibility. rewrite (proj2 (Z.ltb_lt 0 (begin_xid r))), (proj2 (Z.ltb_ge 0 (end_xid r))) by lia. cbn [andb].
      rewrite (proj2 (Z.ltb_ge (begin_xid r) 0)), (proj2 (Z.ltb_lt (end_xid r) 0)) by lia. destruct mode; by destruct (_ =? _). }
    pose proof (Ev READ_WRITE) as Ew. destruct (Z.eqb_spec (- end_xid r) (trx_id_ x)) as [E|E].
    + apply (Href _ Ew); [done|]. apply Hunseen; [by rewrite Hview, (Ev READ_ONLY)|].
      intros (q & z & Hq & Hqp & Hk). pose proof (Hby q z Hq Hk). apply Hqp. apply (cp_distinct _ _ C q p z y Hq Hy). lia.
    + apply (Href _ Ew); [done|]. apply spec_delete_conflict.
      destruct (cp_state _ _ C _ r Hr) as [q z Hz _ Hb2 _|_ He2|q z Hz Hk _ He2 _|Hb2 He2]; [pose proof (cp_ids _ _ C q z Hz); lia|unfold max_trx_id, INT32_MAX in *; lia| |lia].
      exists q, z. split; [done|]. split; [|done]. intros ->. assert (z = y) by congruence. subst z. lia.
  - (* deleted *)
    destruct (decide (begin_xid r ≤ trx_id_ x ≤ end_xid r)) as [Hin|Hout].
    { pose proof (Hgone ltac:(unfold in_snapshot; lia) ltac:(lia)). lia. }
    assert (∀ mode, visibility (trx_id_ x) (begin_xid r) (end_xid r) mode = RC.RECORD_INVISIBLE) as Ev.
    { intros mode. unfold visibility. rewrite (proj2 (Z.ltb_lt 0 (begin_xid r))), (proj2 (Z.ltb_lt 0 (end_xid r))) by lia. cbn [andb].
      destruct (Z.leb_spec (begin_xid r) (trx_id_ x)); cbn [andb]; [|done]. by rewrite (proj2 (Z.leb_gt _ _)) by lia. }
    apply (Href _ (Ev _)); [done|]. apply Hunseen; [by rewrite Hview, Ev|]. intros (q & z & Hq & _ & Hk). pose proof (Hby q z Hq Hk).
    pose proof (cp_ids _ _ C q z Hq). lia.
Qed.
End write.

Section loops.
Context {S L : Type} `{!Tables S, !TablesLaws S} `{!LogHandler L, !LogLaws L}.
Notation Db := (Db S L).
Implicit Types (d : Db) (A : Snapshots) (p q : TrxPtr) (k : Key) (o : Operation).

(** The record carries the mark of the operation. *)
Definition marked (i : Z) o (r : list Z) : Prop :=
  match op_type o with INSERT => begin_xid r = - i | DELETE => end_xid r = - i | _ => False end.
(** What becomes of it. *)
Definition commit_of (c : Z) o (r r' : list Z) : Prop :=
  length r' = length r ∧ drop 8 r' = drop 8 r ∧
  match op_type o with
  | INSERT => begin_xid r' = c ∧ end_xid r' = end_xid r
  | DELETE => begin_xid r' = begin_xid r ∧ end_xid r' = c
  | _ => False
  end.
Definition undone o (r : list Z) (after : option (list Z)) : Prop :=
  match op_type o with
  | INSERT => after = None
  | DELETE => ∃ r', after = Some r' ∧ length r' = length r ∧ drop 8 r' = drop 8 r ∧ begin_xid r' = begin_xid r ∧ end_xid r' = max_trx_id
  | _ => False
  end.

(** The tables after a change of one record. *)
Lemma tables_ok_insert d s k r r' : tables_ok d → same_tables tv (db_tables d) s → recs d !! k = Some r →
  tv_recs tv s = <[k := r']> (recs d) → length r' = length r → tables_ok (set_tables s d).
Proof.
  intros [_ T] [Hi Hm _] Hr Hs Hl. split; [done|]. intros k' r0. unfold recs. cbn. rewrite Hs, Hm. destruct (decide (k' = k)) as [->|Hne].
  - rewrite lookup_insert_eq. intros [= <-]. rewrite Hl. by apply T.
  - rewrite lookup_insert_ne by done. apply T.
Qed.

Lemma tables_ok_delete d s k : tables_ok d → same_tables tv (db_tables d) s → tv_recs tv s = delete k (recs d) → tables_ok (set_tables s d).
Proof.
  intros [_ T] [Hi Hm _] Hs. split; [done|]. intros k' r0. unfold recs. cbn. rewrite Hs, Hm. intros [_ H]%lookup_delete_Some. by apply T.
Qed.

Lemma commit_operation_run d x c o r : tables_ok d → recovering_ x = false → recs d !! op_key o = Some r → marked (trx_id_ x) o r → in_srange 32 c →
  ∃ s r', commit_operation x c o d = Some (tt, set_tables s d) ∧ same_tables tv (db_tables d) s ∧ tables_ok (set_tables s d) ∧
    tv_recs tv s = <[op_key o := r']> (recs d) ∧ commit_of c o r r'.
Proof.
  intros T Hx Hr Hm Hc. destruct (record_fields d _ r T Hr) as (b & e & Ef & Hb & He). pose proof (record_length d _ r T Hr) as H8. cbn in Ef.
  assert (∀ f z r', field_get_int f r = Some z → z = - trx_id_ x → field_set_int f r c = Some r' → length r' = length r → drop 8 r' = drop 8 r →
    ∃ s, tables (tb_visit_record (op_table o) (op_rid o) (commit_visitor (trx_id_ x) false f c)) d = Some ((RC.SUCCESS, Some tt), set_tables s d) ∧
      same_tables tv (db_tables d) s ∧ tables_ok (set_tables s d) ∧ tv_recs tv s = <[op_key o := r']> (recs d)) as Hvisit.
  { intros f z r' Eg -> Es Hl Hd. destruct (tl_visit _ (db_tables d) (op_table o) (op_rid o) (commit_visitor (trx_id_ x) false f c) r tt true r' (proj1 T) Hr) as (s & Et & Hsame & Hrecs).
    - unfold commit_visitor. rewrite Eg. cbn [mbind option_bind]. rewrite Z.eqb_refl. cbn. by rewrite Es.
    - done.
    - exists s. split; [by apply tables_run|]. split; [done|]. split; [by eapply tables_ok_insert|done]. }
  unfold commit_operation, marked, commit_of in *. destruct (op_type o); try done.
  - destruct (set_begin b r c Hb H8 Hc) as (r' & Es & B1 & N1 & L1 & P1).
    destruct (Hvisit b _ r' (int_field_get b r 0 (proj2 (proj2 Hb)) ltac:(lia)) Hm Es L1 P1) as (s & Ev & Hsame & HT & Hrecs).
    exists s, r'. rewrite (exec Ef), Hx, (exec Ev). by split_and!.
  - destruct (set_end e r c He H8 Hc) as (r' & Es & B1 & N1 & L1 & P1).
    destruct (Hvisit e _ r' (int_field_get e r 4 (proj2 (proj2 He)) ltac:(lia)) Hm Es L1 P1) as (s & Ev & Hsame & HT & Hrecs).
    exists s, r'. rewrite (exec Ef), (exec Ev). by split_and!.
Qed.

Lemma commit_operations_run d x c l : tables_ok d → recovering_ x = false → in_srange 32 c → NoDup (op_key <$> l) →
  (∀ o, o ∈ l → ∃ r, recs d !! op_key o = Some r ∧ marked (trx_id_ x) o r) →
  ∃ s, commit_operations x c l d = Some (tt, set_tables s d) ∧ same_tables tv (db_tables d) s ∧ tables_ok (set_tables s d) ∧
    (∀ k, k ∉ op_key <$> l → tv_recs tv s !! k = recs d !! k) ∧
    (∀ o, o ∈ l → ∃ r r', recs d !! op_key o = Some r ∧ tv_recs tv s !! op_key o = Some r' ∧ commit_of c o r r').
Proof.
  intros T Hx Hc. revert d T. induction l as [|o l IH]; intros d T Hnd Hl.
  - exists (db_tables d). destruct d. split; [done|]. split; [split; [apply T|done|done]|]. split; [done|]. split; [done|]. by intros o ?%not_elem_of_nil.
  - cbn in Hnd. apply list.NoDup_cons in Hnd as [Ho Hnd]. destruct (Hl o ltac:(left)) as (r & Hr & Hm).
    destruct (commit_operation_run d x c o r T Hx Hr Hm Hc) as (s & r' & E & Hsame & HT & Hrecs & Hcom).
    assert (∀ k, k ≠ op_key o → recs (set_tables s d) !! k = recs d !! k) as Hother by (intros k Hk; unfold recs; cbn; rewrite Hrecs; by rewrite lookup_insert_ne).
    assert (∀ o', o' ∈ l → op_key o' ≠ op_key o) as Hne by (intros o' Ho' Eq; apply Ho; rewrite <-Eq; by apply list_elem_of_fmap_2).
    destruct (IH (set_tables s d) HT Hnd) as (s2 & E2 & Hsame2 & HT2 & Hout & Hin).
    { intros o' Ho'. rewrite Hother by auto. apply Hl. by right. }
    exists s2. cbn [commit_operations]. rewrite (exec E). split; [exact E2|]. split; [by eapply same_tables_trans|]. split; [exact HT2|]. split.
    + intros k [Hk1 Hk2]%not_elem_of_cons. rewrite Hout by done. by apply Hother.
    + intros o' [->|Ho']%elem_of_cons.
      * exists r, r'. split; [done|]. split; [|done]. rewrite Hout by done. unfold recs. cbn. rewrite Hrecs. apply lookup_insert_eq.
      * destruct (Hin o' Ho') as (r0 & r1 & H0 & H1 & H2). exists r0, r1. split; [|done]. rewrite <-H0. symmetry. apply Hother. auto.
Qed.

Lemma undo_operation_run d x o r : tables_ok d → recovering_ x = false → recs d !! op_key o = Some r → marked (trx_id_ x) o r →
  (op_type o = INSERT → tv_bare tv (op_table o) (db_tables d)) →
  ∃ s, (∀ l, undo_operations x (o :: l) RC.SUCCESS d = undo_operations x l RC.SUCCESS (set_tables s d)) ∧ same_tables tv (db_tables d) s ∧
    tables_ok (set_tables s d) ∧ (∀ k, k ≠ op_key o → tv_recs tv s !! k = recs d !! k) ∧ undone o r (tv_recs tv s !! op_key o).
Proof.
  intros T Hx Hr Hm Hbare. destruct (record_fields d _ r T Hr) as (b & e & Ef & Hb & He). pose proof (record_length d _ r T Hr) as H8. cbn in Ef.
  unfold marked, undone in *. destruct (op_type o) eqn:Eo; try done.
  - destruct (tl_delete _ (db_tables d) (op_table o) (op_rid o) r None (proj1 T) Hr) as (s & Et & Hsame & Hrecs); [right; auto|].
    exists s. split_and!; [|done|by eapply tables_ok_delete|intros k Hk; rewrite Hrecs; by rewrite lookup_delete_ne|rewrite Hrecs; apply lookup_delete_eq].
    intros l. cbn [undo_operations]. rewrite Eo, Hx. unfold undo_insert. mstep. unfold tables. by rewrite Et.
  - destruct (set_end e r max_trx_id He H8 ltac:(unfold in_srange, max_trx_id, INT32_MAX; lia)) as (r' & Es & B1 & N1 & L1 & P1).
    assert (rollback_visitor (trx_id_ x) false e r = Some (tt, (true, r'))) as Ev.
    { unfold rollback_visitor. rewrite (int_field_get e r 4 (proj2 (proj2 He)) ltac:(lia)). change (default 0 (get_i32 r 4)) with (end_xid r). rewrite Hm.
      cbn. rewrite Z.eqb_refl. cbn. by rewrite Es. }
    destruct (tl_visit _ (db_tables d) (op_table o) (op_rid o) _ r _ _ _ (proj1 T) Hr Ev) as (s & Et & Hsame & Hrecs); [done|].
    exists s. split_and!; [|done|by eapply tables_ok_insert|intros k Hk; rewrite Hrecs; by rewrite lookup_insert_ne|].
    + assert (undo_delete x (op_table o) (op_rid o) RC.SUCCESS d = Some (RC.SUCCESS, set_tables s d)) as Eu.
      { unfold undo_delete. rewrite (exec (assert_run _ d (bool_decide_eq_true_2 _ eq_refl))), (exec Ef), Hx, (exec (tables_run _ d _ s Et)). done. }
      intros l. cbn [undo_operations]. by rewrite Eo, (exec Eu).
    + rewrite Hrecs, lookup_insert_eq. exists r'. by split_and!.
Qed.

Lemma undo_operations_run d x l : tables_ok d → recovering_ x = false → NoDup (op_key <$> l) →
  (∀ o, o ∈ l → ∃ r, recs d !! op_key o = Some r ∧ marked (trx_id_ x) o r) → (∀ o, o ∈ l → tv_bare tv (op_table o) (db_tables d)) →
  ∃ s, undo_operations x l RC.SUCCESS d = Some (inr RC.SUCCESS, set_tables s d) ∧ same_tables tv (db_tables d) s ∧ tables_ok (set_tables s d) ∧
    (∀ k, k ∉ op_key <$> l → tv_recs tv s !! k = recs d !! k) ∧
    (∀ o, o ∈ l → ∃ r, recs d !! op_key o = Some r ∧ undone o r (tv_recs tv s !! op_key o)).
Proof.
  intros T Hx. revert d T. induction l as [|o l IH]; intros d T Hnd Hl Hbare.
  - exists (db_tables d). destruct d. split; [done|]. split; [split; [apply T|done|done]|]. split; [done|]. split; [done|]. by intros o ?%not_elem_of_nil.
  - cbn in Hnd. apply list.NoDup_cons in Hnd as [Ho Hnd]. destruct (Hl o ltac:(left)) as (r & Hr & Hm).
    destruct (undo_operation_run d x o r T Hx Hr Hm ltac:(intros _; apply Hbare; left)) as (s & E & Hsame & HT & Hother & Hun).
    assert (∀ o', o' ∈ l → op_key o' ≠ op_key o) as Hne by (intros o' Ho' Eq; apply Ho; rewrite <-Eq; by apply list_elem_of_fmap_2).
    destruct (IH (set_tables s d) HT Hnd) as (s2 & E2 & Hsame2 & HT2 & Hout & Hin).
    { intros o' Ho'. unfold recs. cbn. rewrite Hother by auto. apply Hl. by right. }
    { intros o' Ho'. cbn. apply (sm_bare Hsame), Hbare. by right. }
    exists s2. rewrite (E l). split; [exact E2|]. split; [by eapply same_tables_trans|]. split; [exact HT2|]. split.
    + intros k [Hk1 Hk2]%not_elem_of_cons. rewrite Hout by done. by apply Hother.
    + intros o' [->|Ho']%elem_of_cons.
      * exists r. split; [done|]. by rewrite Hout.
      * destruct (Hin o' Ho') as (r0 & H0 & H1). exists r0. split; [|done]. rewrite <-H0. symmetry. apply Hother. auto.
Qed.
End loops.

(** A statement about the record of a key, when there is one and when there is none. *)
Ltac by_record r := split; [intros ?; by exists r|by intros (? & [= <-] & ?)].
Ltac by_no_record := by split; [intros ?|intros (? & ? & _)].

Section ending.
Context {S L : Type} `{!Tables S, !TablesLaws S} `{!LogHandler L, !LogLaws L}.
Context (Hacc : log_accepts (L:=L)).
Notation Db := (Db S L).
Implicit Types (d : Db) (A : Snapshots) (p q : TrxPtr) (k : Key) (o : Operation).

(** Nothing is said about the key. *)
Definition nothing (A : Snapshots) k : Prop :=
  committed A !! k = None ∧ ∀ q z, active A !! q = Some z → tx_snapshot z !! k = None ∧ tx_inserted z !! k = None ∧ k ∉ tx_deleted z.

Lemma nothing_coupled d A k : coupled d A → recs d !! k = None → nothing A k.
Proof.
  intros C Hk. split; [by eapply no_committed|]. intros q z Hq. by destruct (no_record d A C q z k Hq Hk) as (? & ? & ?).
Qed.

Lemma active_ended A p c q z : active (ended p c A) !! q = Some z → q ≠ p ∧ active A !! q = Some z.
Proof. cbn. intros [Hne Hz]%lookup_delete_Some. by split. Qed.

(** Without the transaction [p] the sets of the others are as before. *)
Lemma fits_ended A p c k r r' : fits A k r →
  (∀ row, c !! k = Some row ↔ live r' ∧ drop 8 r' = row) → drop 8 r' = drop 8 r →
  (∀ q z, q ≠ p → active A !! q = Some z → (in_snapshot (tx_id z) r' ↔ in_snapshot (tx_id z) r) ∧
     (begin_xid r' = - tx_id z ↔ begin_xid r = - tx_id z) ∧ (0 < begin_xid r' ∧ end_xid r' = - tx_id z ↔ 0 < begin_xid r ∧ end_xid r = - tx_id z)) →
  fits (ended p c A) k r'.
Proof.
  intros [_ Fa] Hc Hp Hq. split; [done|]. intros q z [Hne Hz]%active_ended. destruct (Fa q z Hz) as (F1 & F2 & F3).
  destruct (Hq q z Hne Hz) as (Q1 & Q2 & Q3). rewrite Hp. split_and!.
  - intros row. by rewrite F1, Q1.
  - intros row. by rewrite F2, Q2.
  - by rewrite F3, Q3.
Qed.

Lemma record_state_ended A p x c cur cur' k r : active A !! p = Some x → tx_inserted x !! k = None → k ∉ tx_deleted x → cur ≤ cur' →
  record_state A cur k r → record_state (ended p c A) cur' k r.
Proof.
  intros Hp Hi Hd Hcur [q z Hz Hin Hb He|Hb He|q z Hz Hk Hb He Hall|Hb He].
  - assert (q ≠ p) by (intros ->; assert (z = x) as -> by congruence; rewrite Hi in Hin; by destruct Hin).
    eapply rs_new; [cbn; by rewrite lookup_delete_ne|done|done|done].
  - apply rs_live; [lia|done].
  - assert (q ≠ p) by (intros ->; by assert (z = x) as -> by congruence).
    eapply rs_marked; [cbn; by rewrite lookup_delete_ne|done|lia|done|]. intros q' y [_ Hq']%active_ended. eauto.
  - apply rs_deleted; lia.
Qed.

Lemma coupled_ended d A d' p x x' c : coupled d A → trx_objects d !! p = Some x → trx_objects d' = <[p := x']> (trx_objects d) →
  started_ x' = false → operations_ x' = [] → recovering_ x' = false → tables_ok d' → log_ok (db_log d') →
  current_trx_id_ d ≤ current_trx_id_ d' < max_trx_id →
  (∀ k r, recs d' !! k = Some r → record_state (ended p c A) (current_trx_id_ d') k r ∧ fits (ended p c A) k r) →
  (∀ k, recs d' !! k = None → nothing (ended p c A) k) →
  coupled d' (ended p c A).
Proof.
  intros C Hx Hobj H1 H2 H3 [T1 T2] Hl Hcur Hsome Hnone. pose proof (cp_cur _ _ C).
  split; [done|done|done|lia| | | | | | | | |].
  - intros k r Hr. by apply Hsome.
  - intros q z. rewrite Hobj. destruct (decide (q = p)) as [->|Hqp].
    + rewrite lookup_insert_eq. intros [= <-]. rewrite H1. split; [done|]. split; [apply lookup_delete_eq|done].
    + rewrite lookup_insert_ne by done. intros Hq. destruct (cp_objects _ _ C q z Hq) as [E1 E2]. split; [done|]. cbn. by rewrite lookup_delete_ne.
  - intros q z [Hqp Hq]%active_ended. rewrite Hobj, lookup_insert_ne by done. by eapply (cp_active _ _ C).
  - intros q z [Hqp Hq]%active_ended. pose proof (cp_ids _ _ C q z Hq). lia.
  - intros q1 q2 z1 z2 [_ E1]%active_ended [_ E2]%active_ended. by eapply (cp_distinct _ _ C).
  - intros k row. destruct (recs d' !! k) as [r|] eqn:Hr.
    + destruct (Hsome k r Hr) as [_ [-> _]]. by_record r.
    + destruct (Hnone k Hr) as [-> _]. by_no_record.
  - intros q z k row Hq. destruct (recs d' !! k) as [r|] eqn:Hr.
    + destruct (Hsome k r Hr) as [_ [_ F]]. destruct (F q z Hq) as (-> & _). by_record r.
    + destruct (Hnone k Hr) as [_ N]. destruct (N q z Hq) as (-> & _). by_no_record.
  - intros q z k row Hq. destruct (recs d' !! k) as [r|] eqn:Hr.
    + destruct (Hsome k r Hr) as [_ [_ F]]. destruct (F q z Hq) as (_ & -> & _). by_record r.
    + destruct (Hnone k Hr) as [_ N]. destruct (N q z Hq) as (_ & -> & _). by_no_record.
  - intros q z k Hq. destruct (recs d' !! k) as [r|] eqn:Hr.
    + destruct (Hsome k r Hr) as [_ [_ F]]. destruct (F q z Hq) as (_ & _ & ->). by_record r.
    + destruct (Hnone k Hr) as [_ N]. destruct (N q z Hq) as (_ & _ & Hn). by_no_record.
Qed.

(** The operations of a transaction find their marks. *)
Lemma ops_marked d A p x y : coupled d A → active A !! p = Some y → tx_id y = trx_id_ x → ops_of (operations_ x) y →
  ∀ o, o ∈ operations_ x → ∃ r, recs d !! op_key o = Some r ∧ marked (trx_id_ x) o r ∧
    match op_type o with INSERT => is_Some (tx_inserted y !! op_key o) | _ => op_key o ∈ tx_deleted y end.
Proof.
  intros C Hy Hi O o Ho. unfold marked. destruct (oo_type _ _ O o Ho) as [E|E]; rewrite E.
  - assert (is_Some (tx_inserted y !! op_key o)) as [row Hrow] by (apply (oo_insert _ _ O); destruct o; cbn in *; by subst).
    pose proof Hrow as (r & Hr & Hb & _)%(cp_inserted _ _ C p y _ _ Hy). exists r. rewrite <-Hi. eauto.
  - assert (op_key o ∈ tx_deleted y) as Hk by (apply (oo_delete _ _ O); destruct o; cbn in *; by subst).
    pose proof Hk as (r & Hr & _ & He)%(cp_deleted _ _ C p y _ Hy). exists r. rewrite <-Hi. eauto.
Qed.

(** A key that no operation is about. *)
Lemma ops_untouched l y k : ops_of l y → k ∉ op_key <$> l → tx_inserted y !! k = None ∧ k ∉ tx_deleted y.
Proof.
  intros O Hk. split.
  - destruct (tx_inserted y !! k) as [row|] eqn:E; [|done]. exfalso. apply Hk. pose proof (proj1 (oo_insert _ _ O k) (mk_is_Some _ _ E)) as H.
    apply list_elem_of_fmap. eexists. split; [|exact H]. by destruct k.
  - intros H%(oo_delete _ _ O). apply Hk. apply list_elem_of_fmap. eexists. split; [|exact H]. by destruct k.
Qed.

(** Any other transaction has another id. *)
Lemma other_id d A p y q z : coupled d A → active A !! p = Some y → q ≠ p → active A !! q = Some z → tx_id z ≠ tx_id y.
Proof. intros C Hy Hne Hz E. apply Hne. by apply (cp_distinct _ _ C q p z y). Qed.

Lemma committed_record d A p y k r r' o cur' :
  coupled d A → active A !! p = Some y → recs d !! k = Some r → k = op_key o → marked (tx_id y) o r →
  match op_type o with INSERT => is_Some (tx_inserted y !! k) | _ => k ∈ tx_deleted y end →
  commit_of cur' o r r' → cur' = current_trx_id_ d + 1 → cur' < max_trx_id →
  let A' := ended p (after_commit y (committed A)) A in record_state A' cur' k r' ∧ fits A' k r'.
Proof.
  intros C Hy Hr -> Hm Hset (Hl & Hp & Hc) Hcur Hmax A'. pose proof (cp_ids _ _ C p y Hy) as Hi. pose proof (cp_cur _ _ C).
  pose proof (record_ids d A _ r C Hr) as Hids. pose proof (fits_coupled d A _ r C Hr) as F. pose proof F as [Fc Fa]. unfold marked in Hm.
  destruct (Fa p y Hy) as (_ & Fin & Fdel). destruct (op_type o); try done; destruct Hc as [Hb He].
  - split; [apply rs_live; unfold max_trx_id, INT32_MAX in *; lia|]. eapply fits_ended; [exact F| |exact Hp|].
    + intros row. unfold after_commit. rewrite lookup_union. destruct Hset as [row0 Hrow0]. rewrite Hrow0.
      pose proof (proj1 (Fin row0) Hrow0) as [_ E0]. rewrite union_Some_l. rewrite Hp, E0. unfold live. split; [intros [= <-]; split; [lia|done]|by intros [_ ->]].
    + intros q z Hne Hz. pose proof (cp_ids _ _ C q z Hz). pose proof (other_id d A p y q z C Hy Hne Hz). unfold in_snapshot, max_trx_id, INT32_MAX in *. lia.
  - pose proof (proj1 Fdel Hset) as [Hb0 _].
    split; [apply rs_deleted; lia|]. eapply fits_ended; [exact F| |exact Hp|].
    + intros row. unfold after_commit. rewrite lookup_union. assert (tx_inserted y !! op_key o = None) as -> by (apply (not_inserted d A C p y _ r Hy Hr); lia).
      rewrite (left_id None union). rewrite map_lookup_filter_Some. unfold live. split; [by intros [_ ?]|]. unfold max_trx_id, INT32_MAX in *. lia.
    + intros q z Hne Hz. pose proof (cp_ids _ _ C q z Hz). pose proof (other_id d A p y q z C Hy Hne Hz). unfold in_snapshot, max_trx_id, INT32_MAX in *. lia.
Qed.

Lemma kept_record d A p y k r c cur' :
  coupled d A → active A !! p = Some y → recs d !! k = Some r → tx_inserted y !! k = None → k ∉ tx_deleted y →
  current_trx_id_ d ≤ cur' → c !! k = committed A !! k →
  record_state (ended p c A) cur' k r ∧ fits (ended p c A) k r.
Proof.
  intros C Hy Hr Hi Hd Hcur Hc. split; [eapply record_state_ended; try done; by apply (cp_state _ _ C)|].
  pose proof (fits_coupled d A k r C Hr) as F. eapply fits_ended; [exact F| |done|done]. rewrite Hc. apply F.
Qed.

Lemma commit_step d A p : coupled d A → allowed d (Commit p) →
  ∃ rc d' A', trx_commit p d = Some (rc, d') ∧ spec_step A (Commit p) (Did rc) A' ∧ coupled d' A'.
Proof.
  intros C [(x & Hx & Hs) Hroom]. destruct (running_active d A C p x Hx Hs) as (y & Hy & Hi & Hops & Hrec & Hid). unfold room in Hroom.
  pose proof (cp_cur _ _ C) as Hc0. set (c := current_trx_id_ d + 1). assert (swrap 32 c = c) as Ec by (apply swrap_id; unfold in_srange, max_trx_id, INT32_MAX in *; lia).
  set (x1 := set_started (trx_id_ x) false x). set (d1 := set_trxes (trxes_ d) (<[p := x1]> (trx_objects d)) (set_current c d)).
  pose proof (ops_marked d A p x y C Hy Hi Hops) as Hm.
  destruct (commit_operations_run d1 x c (operations_ x)) as (s & El & Hsame & HT & Hout & Hin);
    [split; [apply (cp_inv _ _ C)|apply (cp_meta _ _ C)]|done|unfold in_srange, max_trx_id, INT32_MAX in *; lia|apply (oo_nodup _ _ Hops)|intros o Ho; destruct (Hm o Ho) as (r & ? & ? & _); eauto|].
  set (d2 := set_tables s d1) in *.
  destruct (log_commit_run Hacc d2 (trx_id_ x) c (cp_log _ _ C)) as (rc & l' & Elog & Hl'); [lia|].
  set (x2 := set_operations [] x1). set (d3 := set_trxes (trxes_ d) (<[p := x2]> (<[p := x1]> (trx_objects d))) (set_db_log l' d2)).
  exists rc, d3, (ended p (after_commit y (committed A)) A). split; [|split; [by constructor|]].
  - assert (next_trx_id d = Some (c, set_current c d)) as En by (unfold next_trx_id; mstep; fold c; by rewrite Ec).
    unfold trx_commit, commit_with_trx_id. rewrite (exec En), (exec (trx_of_run (set_current c d) p x Hx)).
    rewrite (exec (m := put_trx p x1) (s := set_current c d) (a := tt) (s1 := d1) eq_refl), (exec El), Hrec. cbn [negb]. rewrite (exec Elog).
    by rewrite (exec (m := put_trx p x2) (s := set_db_log l' d2) (a := tt) (s1 := d3) eq_refl).
  - assert (∀ k, tx_inserted y !! k = None → k ∉ tx_deleted y → after_commit y (committed A) !! k = committed A !! k) as Hkeep.
    { intros k H1 H2. unfold after_commit. rewrite lookup_union, H1, (left_id None union). destruct (committed A !! k) as [row|] eqn:E.
      - by apply map_lookup_filter_Some.
      - apply map_lookup_filter_None. by left. }
    eapply (coupled_ended d A d3 p x x2); try done; [cbn; apply insert_insert_eq|cbn; lia| |].
    + intros k r Hr. change (recs d3 !! k) with (tv_recs tv s !! k) in Hr. destruct (decide (k ∈ op_key <$> operations_ x)) as [(o & -> & Ho)%list_elem_of_fmap|Hk].
      * destruct (Hin o Ho) as (r0 & r1 & Hr0 & Hr1 & Hcom). rewrite Hr in Hr1. injection Hr1 as <-. change (recs d1) with (recs d) in Hr0.
        destruct (Hm o Ho) as (r2 & Hr2 & Hmark & Hset). assert (r2 = r0) as -> by congruence. rewrite <-Hi in Hmark.
        by eapply committed_record.
      * destruct (ops_untouched _ y k Hops Hk) as [H1 H2]. rewrite Hout in Hr by done. change (recs d1) with (recs d) in Hr.
        eapply kept_record; try done; [cbn; lia|]. by apply Hkeep.
    + intros k Hr. change (recs d3 !! k) with (tv_recs tv s !! k) in Hr. assert (k ∉ op_key <$> operations_ x) as Hk.
      { intros (o & -> & Ho)%list_elem_of_fmap. destruct (Hin o Ho) as (? & ? & _ & ? & _). congruence. }
      destruct (ops_untouched _ y k Hops Hk) as [H1 H2]. rewrite Hout in Hr by done. change (recs d1) with (recs d) in Hr.
      destruct (nothing_coupled d A k C Hr) as [N1 N2]. split; [cbn; by rewrite Hkeep|]. intros q z [_ Hz]%active_ended. eauto.
Qed.

Lemma undone_record d A p y k r r' : coupled d A → active A !! p = Some y → recs d !! k = Some r → k ∈ tx_deleted y →
  drop 8 r' = drop 8 r → begin_xid r' = begin_xid r → end_xid r' = max_trx_id →
  record_state (ended p (committed A) A) (current_trx_id_ d) k r' ∧ fits (ended p (committed A) A) k r'.
Proof.
  intros C Hy Hr Hk Hp Hb He. pose proof (cp_ids _ _ C p y Hy) as Hi. pose proof (cp_cur _ _ C). pose proof (record_ids d A _ r C Hr) as Hids.
  pose proof (fits_coupled d A _ r C Hr) as F. pose proof F as [Fc Fa]. destruct (Fa p y Hy) as (_ & _ & Fdel). apply Fdel in Hk as [Hb0 He0].
  split; [apply rs_live; lia|]. eapply fits_ended; [exact F| |exact Hp|].
  - intros row. rewrite Fc, Hp. unfold live. split; intros [? ?]; (split; [lia|done]).
  - intros q z Hne Hz. pose proof (cp_ids _ _ C q z Hz). pose proof (other_id d A p y q z C Hy Hne Hz). unfold in_snapshot, max_trx_id, INT32_MAX in *. lia.
Qed.

Lemma removed_record d A p y k r : coupled d A → active A !! p = Some y → recs d !! k = Some r → begin_xid r = - tx_id y →
  nothing (ended p (committed A) A) k.
Proof.
  intros C Hy Hr Hb. pose proof (cp_ids _ _ C p y Hy) as Hi. split.
  - cbn. destruct (committed A !! k) as [row|] eqn:E; [|done]. apply (fits_coupled d A k r C Hr) in E as [[? _] _]. lia.
  - intros q z [Hne Hz]%active_ended. pose proof (cp_ids _ _ C q z Hz). pose proof (other_id d A p y q z C Hy Hne Hz). split_and!.
    + apply (proj2 (snapshot_of d A C q z k r Hz Hr)). unfold in_snapshot. lia.
    + apply (not_inserted d A C q z k r Hz Hr). lia.
    + apply (not_deleted d A C q z k r Hz Hr). lia.
Qed.

Lemma rollback_step uninit d A p : coupled d A → allowed d (Rollback p) →
  ∃ rc d' A', trx_rollback uninit p d = Some (rc, d') ∧ spec_step A (Rollback p) (Did rc) A' ∧ coupled d' A'.
Proof.
  intros C [(x & Hx & Hs) Hbare]. destruct (running_active d A C p x Hx Hs) as (y & Hy & Hi & Hops & Hrec & Hid).
  set (x1 := set_started (trx_id_ x) false x). set (d1 := set_trxes (trxes_ d) (<[p := x1]> (trx_objects d)) d).
  pose proof (ops_marked d A p x y C Hy Hi Hops) as Hm. pose proof (cp_cur _ _ C) as Hc0.
  assert (∀ o, o ∈ rev (operations_ x) ↔ o ∈ operations_ x) as Hrev by (intros o; rewrite !list_elem_of_In; symmetry; apply in_rev).
  destruct (undo_operations_run d1 x (rev (operations_ x))) as (s & El & Hsame & HT & Hout & Hin);
    [split; [apply (cp_inv _ _ C)|apply (cp_meta _ _ C)]|done| | | |].
  { by rewrite <-Permutation_rev; apply (oo_nodup _ _ Hops). }
  { intros o Ho%Hrev. destruct (Hm o Ho) as (r & ? & ? & _). eauto. }
  { intros o Ho%Hrev. by eapply Hbare. }
  set (d2 := set_tables s d1) in *. set (x2 := set_operations [] x1).
  set (d3 := set_trxes (trxes_ d) (<[p := x2]> (<[p := x1]> (trx_objects d))) d2).
  destruct (log_rollback_run Hacc uninit d3 (trx_id_ x) (cp_log _ _ C)) as (l' & Elog & Hl'); [lia|].
  exists RC.SUCCESS, (set_db_log l' d3), (ended p (committed A) A). split; [|split; [by eapply spec_rollback|]].
  - unfold trx_rollback. rewrite (exec (trx_of_run d p x Hx)), (exec (m := put_trx p x1) (s := d) (a := tt) (s1 := d1) eq_refl), (exec El).
    rewrite (exec (m := put_trx p x2) (s := d2) (a := tt) (s1 := d3) eq_refl), Hrec. exact Elog.
  - assert (∀ k, k ∈ op_key <$> rev (operations_ x) ↔ k ∈ op_key <$> operations_ x) as Hkrev by (intros k; by rewrite <-Permutation_rev).
    eapply (coupled_ended d A _ p x x2); try done; [cbn; apply insert_insert_eq|cbn; lia| |].
    + intros k r Hr. change (tv_recs tv s !! k = Some r) in Hr. destruct (decide (k ∈ op_key <$> operations_ x)) as [(o & -> & Ho)%list_elem_of_fmap|Hk].
      * destruct (Hin o (proj2 (Hrev o) Ho)) as (r0 & Hr0 & Hun). change (recs d1) with (recs d) in Hr0. destruct (Hm o Ho) as (r2 & Hr2 & _ & Hset).
        rewrite Hr in Hun. unfold undone in Hun. destruct (op_type o); try done. destruct Hun as (r' & [= <-] & _ & Hp & Hb & He).
        exact (undone_record d A p y _ r0 r C Hy Hr0 Hset Hp Hb He).
      * destruct (ops_untouched _ y k Hops Hk) as [H1 H2]. rewrite Hout in Hr by (by rewrite Hkrev). change (recs d1) with (recs d) in Hr.
        by apply (kept_record d A p y k r _ (current_trx_id_ d) C Hy Hr H1 H2).
    + intros k Hr. change (tv_recs tv s !! k = None) in Hr. destruct (decide (k ∈ op_key <$> operations_ x)) as [(o & -> & Ho)%list_elem_of_fmap|Hk].
      * destruct (Hin o (proj2 (Hrev o) Ho)) as (r0 & Hr0 & Hun). change (recs d1) with (recs d) in Hr0. destruct (Hm o Ho) as (r2 & Hr2 & Hmark & _).
        assert (r2 = r0) as -> by congruence. unfold undone, marked in *. destruct (op_type o); [|done|by destruct Hun as (? & ? & _); congruence|done].
        by eapply removed_record; [..|rewrite Hi].
      * rewrite Hout in Hr by (by rewrite Hkrev). change (recs d1) with (recs d) in Hr.
        destruct (nothing_coupled d A k C Hr) as [N1 N2]. split; [done|]. intros q z [_ Hz]%active_ended. eauto.
Qed.
End ending.
