(* ===== verification/HeapTable.v ===== *)
(** * Heap tables

    Models [storage/table/heap_table_engine.cpp] with [storage/index/bplus_tree_index.cpp],
    [storage/index/index.cpp] and the part of [storage/table/table.cpp] that passes on
    to the engine: a file of records together with its indexes.  Record files and
    B+ trees are behind the interface [Storage], which stands for the methods of
    [RecordFileHandler], [HeapRecordScanner], [BplusTreeHandler] and the buffer pool
    that a table calls; they share the state [W].  What opening, writing and renaming
    the metadata file gives is input. *)

From stdpp Require Import strings.
From S2P Require Import Prelude Types Bytes RecordPage IndexKey TableMeta Mvcc.
Local Open Scope Z_scope.

Notation FileId := Z (only parsing).
Notation IndexId := Z (only parsing).

(** ** File names ([storage/common/meta_util.cpp]) *)
Definition table_meta_file (base_dir table_name : string) : string := base_dir +:+ "/" +:+ table_name +:+ ".table".
Definition table_data_file (base_dir table_name : string) : string := base_dir +:+ "/" +:+ table_name +:+ ".data".
Definition table_index_file (base_dir table_name index_name : string) : string :=
  base_dir +:+ "/" +:+ table_name +:+ "-" +:+ index_name +:+ ".index".

(** ** The interface of record files and B+ trees *)
Class Storage (W : Type) := {
  bpm_open_file : string → M W (RC * FileId);
  bp_flush_all_pages : FileId → M W RC;
  rf_init : FileId → TableMeta → M W RC;
  rf_insert_record : FileId → list Z → Z → M W (RC * RID);
  rf_delete_record : FileId → RID → M W RC;
  rf_get_record : FileId → RID → M W (RC * option (list Z));
  rf_visit_record : ∀ {A : Type}, FileId → RID → visitor A → M W (RC * option A);
  scanner : Type;
  sc_open_scan : FileId → (list Z → option RC) → M W (RC * scanner);
  sc_next : scanner → M W (RC * option (RID * list Z) * scanner);
  sc_close_scan : scanner → M W RC;
  bt_create : string → AttrType → Z → M W (RC * IndexId);
  bt_open : string → M W (RC * IndexId);
  bt_close : IndexId → M W RC;
  bt_insert_entry : IndexId → list Z → RID → M W RC;
  bt_delete_entry : IndexId → list Z → RID → M W RC;
  bt_sync : IndexId → M W RC
}.

(** ** [BplusTreeIndex] *)
Record BplusTreeIndex : Type := mkIndex {
  inited_ : bool;
  index_meta_ : IndexMeta;
  field_meta_ : FieldMeta;
  index_handler_ : option IndexId
}.
Definition new_index : BplusTreeIndex := mkIndex false (mkIndexMeta "" "") default_field None.
Definition index_init (x : BplusTreeIndex) (im : IndexMeta) (fm : FieldMeta) : BplusTreeIndex :=
  mkIndex (inited_ x) im fm (index_handler_ x).

(** ** [HeapTableEngine] *)
Record HeapTable : Type := mkHeapTable {
  table_meta_ : TableMeta;
  data_buffer_pool_ : option FileId;
  record_handler_ : option FileId;
  indexes_ : list BplusTreeIndex
}.
Definition new_table (m : TableMeta) : HeapTable := mkHeapTable m None None [].
Definition set_indexes (l : list BplusTreeIndex) (T : HeapTable) : HeapTable :=
  mkHeapTable (table_meta_ T) (data_buffer_pool_ T) (record_handler_ T) l.
Definition set_table_meta (m : TableMeta) (T : HeapTable) : HeapTable :=
  mkHeapTable m (data_buffer_pool_ T) (record_handler_ T) (indexes_ T).

(** A [Record]: its id and its data, which can be null. *)
Record TableRecord : Type := mkTableRecord { tr_rid : RID; tr_data : option (list Z) }.

(** What the calls on the metadata file give while an index is created. *)
Record MetaFile : Type := mkMetaFile { mf_is_open : bool; mf_serialized : Z; mf_rename : Z }.

Section heap_table.
Context {W : Type} `{!Storage W}.
Implicit Types (x : BplusTreeIndex) (T : HeapTable) (rid : RID) (record : list Z).

(** *** [BplusTreeIndex] *)
Definition index_create x (file_name : string) (im : IndexMeta) (fm : FieldMeta) : M W (RC * BplusTreeIndex) :=
  if inited_ x then mret (RC.RECORD_OPENNED, x)
  else
    let x := index_init x im fm in
    '(rc, i) ← bt_create file_name (fm_type fm) (fm_len fm);
    if bool_decide (rc ≠ RC.SUCCESS) then mret (rc, x) else mret (RC.SUCCESS, mkIndex true im fm (Some i)).

Definition index_open x (file_name : string) (im : IndexMeta) (fm : FieldMeta) : M W (RC * BplusTreeIndex) :=
  if inited_ x then mret (RC.RECORD_OPENNED, x)
  else
    let x := index_init x im fm in
    '(rc, i) ← bt_open file_name;
    if bool_decide (rc ≠ RC.SUCCESS) then mret (rc, x) else mret (RC.SUCCESS, mkIndex true im fm (Some i)).

Definition index_close x : M W (RC * BplusTreeIndex) :=
  if inited_ x then
    i ← deref (index_handler_ x);
    bt_close i;;
    mret (RC.SUCCESS, mkIndex false (index_meta_ x) (field_meta_ x) (index_handler_ x))
  else mret (RC.SUCCESS, x).

Definition index_insert_entry x record rid : M W RC :=
  i ← deref (index_handler_ x); bt_insert_entry i (drop (Z.to_nat (fm_offset (field_meta_ x))) record) rid.
Definition index_delete_entry x record rid : M W RC :=
  i ← deref (index_handler_ x); bt_delete_entry i (drop (Z.to_nat (fm_offset (field_meta_ x))) record) rid.
Definition index_sync x : M W RC := i ← deref (index_handler_ x); bt_sync i.

(** *** Entries of a record in the indexes *)
Fixpoint insert_entry_of_indexes (l : list BplusTreeIndex) record rid : M W RC :=
  match l with
  | [] => mret RC.SUCCESS
  | x :: l => rc ← index_insert_entry x record rid; if bool_decide (rc ≠ RC.SUCCESS) then mret rc else insert_entry_of_indexes l record rid
  end.

(** [rc]: the result of the index before. *)
Fixpoint delete_entry_of_indexes (l : list BplusTreeIndex) record rid (error_on_not_exists : bool) (rc : RC) : M W RC :=
  match l with
  | [] => mret rc
  | x :: l =>
      rc ← index_delete_entry x record rid;
      if bool_decide (rc ≠ RC.SUCCESS) && (bool_decide (rc ≠ RC.RECORD_INVALID_KEY) || negb error_on_not_exists) then mret rc
      else delete_entry_of_indexes l record rid error_on_not_exists rc
  end.

(** *** Records *)
Definition engine_insert_record T record : M W (RC * RID) :=
  f ← deref (record_handler_ T);
  '(rc, rid) ← rf_insert_record f record (tm_record_size (table_meta_ T));
  if bool_decide (rc ≠ RC.SUCCESS) then mret (rc, rid)
  else
    rc ← insert_entry_of_indexes (indexes_ T) record rid;
    if bool_decide (rc ≠ RC.SUCCESS) then
      delete_entry_of_indexes (indexes_ T) record rid false RC.SUCCESS;;
      rf_delete_record f rid;;
      mret (rc, rid)
    else mret (rc, rid).

Definition engine_visit_record {A} T rid (f : visitor A) : M W (RC * option A) :=
  h ← deref (record_handler_ T); rf_visit_record h rid f.

Definition engine_get_record T rid : M W (RC * option (list Z)) :=
  h ← deref (record_handler_ T); rf_get_record h rid.

(** The entries of a record are deleted from all indexes; its data is dereferenced as
    soon as there is one. *)
Fixpoint delete_entries (l : list BplusTreeIndex) (r : TableRecord) : M W unit :=
  match l with
  | [] => mret tt
  | x :: l =>
      data ← deref (tr_data r);
      rc ← index_delete_entry x data (tr_rid r);
      assertb (bool_decide (rc = RC.SUCCESS));;
      delete_entries l r
  end.

Definition engine_delete_record T (r : TableRecord) : M W RC :=
  delete_entries (indexes_ T) r;;
  f ← deref (record_handler_ T);
  rf_delete_record f (tr_rid r).

(** *** Updating *)
Definition field_bytes (f : FieldMeta) record : option (list Z) := get_bytes record (Z.to_nat (fm_offset f)) (Z.to_nat (fm_len f)).

(** The indexes whose key is changed; [inl]: an index on a field that is not there. *)
Fixpoint affected_indexes (m : TableMeta) (l : list BplusTreeIndex) (old new : list Z) : M W (RC + list BplusTreeIndex) :=
  match l with
  | [] => mret (inr [])
  | x :: l =>
      match field_by_name m (im_field (index_meta_ x)) with
      | None => mret (inl RC.SCHEMA_FIELD_MISSING)
      | Some f =>
          a ← deref (field_bytes f old);
          b ← deref (field_bytes f new);
          rest ← affected_indexes m l old new;
          mret (match rest with inl rc => inl rc | inr l => inr (if bool_decide (a = b) then l else x :: l) end)
      end
  end.

(** The loops that put entries back; their results are ignored. *)
Fixpoint put_entries (l : list BplusTreeIndex) record rid : M W unit :=
  match l with [] => mret tt | x :: l => index_insert_entry x record rid;; put_entries l record rid end.
Fixpoint take_entries (l : list BplusTreeIndex) record rid : M W unit :=
  match l with [] => mret tt | x :: l => index_delete_entry x record rid;; take_entries l record rid end.

(** The old entries are deleted, those in [deleted] already were. *)
Fixpoint delete_old_entries (l deleted : list BplusTreeIndex) (old : list Z) rid : M W RC :=
  match l with
  | [] => mret RC.SUCCESS
  | x :: l =>
      rc ← index_delete_entry x old rid;
      if RC.OB_FAIL rc then put_entries deleted old rid;; mret rc
      else delete_old_entries l (deleted ++ [x]) old rid
  end.

(** The new entries are inserted, those in [inserted] already were; [affected] are all
    indexes whose old entry is deleted. *)
Fixpoint insert_new_entries (l inserted affected : list BplusTreeIndex) (old new : list Z) old_rid new_rid : M W RC :=
  match l with
  | [] => mret RC.SUCCESS
  | x :: l =>
      rc ← index_insert_entry x new new_rid;
      if RC.OB_FAIL rc then take_entries inserted new new_rid;; put_entries affected old old_rid;; mret rc
      else insert_new_entries l (inserted ++ [x]) affected old new old_rid new_rid
  end.

(** The visitor overwrites the record. *)
Definition overwrite (new : list Z) : visitor unit := λ r,
  if decide (length new ≤ length r)%nat then Some (tt, (true, new ++ drop (length new) r)) else None.

Definition update_record_with_trx T (old_rid : RID) (old : list Z) (new_rid : RID) (new : list Z) : M W RC :=
  if bool_decide (old_rid ≠ new_rid) || negb (Nat.eqb (length old) (length new)) then mret RC.INVALID_ARGUMENT
  else
    found ← affected_indexes (table_meta_ T) (indexes_ T) old new;
    match found with
    | inl rc => mret rc
    | inr affected =>
        rc ← delete_old_entries affected [] old old_rid;
        if RC.OB_FAIL rc then mret rc
        else
          rc ← insert_new_entries affected [] affected old new old_rid new_rid;
          if RC.OB_FAIL rc then mret rc
          else
            f ← deref (record_handler_ T);
            '(rc, _) ← rf_visit_record f old_rid (overwrite new);
            if RC.OB_FAIL rc then
              take_entries affected new new_rid;;
              put_entries affected old old_rid;;
              mret rc
            else mret rc
    end.

(** *** Indexes *)
Definition find_index T (index_name : string) : option BplusTreeIndex :=
  List.find (λ x, bool_decide (im_name (index_meta_ x) = index_name)) (indexes_ T).
Definition engine_find_index_by_field T (field_name : string) : option BplusTreeIndex :=
  match find_index_by_field (table_meta_ T) field_name with Some im => find_index T (im_name im) | None => None end.

(** The rows that the scanner returns are put into the new index.  [inl]: the function
    returns without closing the scanner. *)
Fixpoint populate (fuel : nat) x (sc : scanner) : M W (RC + RC * scanner) :=
  match fuel with
  | O => abort
  | S fuel =>
      '(rc, row, sc) ← sc_next sc;
      if RC.OB_SUCC rc then
        '(rid, data) ← deref row;
        rc ← index_insert_entry x data rid;
        if bool_decide (rc ≠ RC.SUCCESS) then mret (inl rc) else populate fuel x sc
      else mret (inr (rc, sc))
  end.

(** [base_dir]: the path of the database; [visible]: what the transaction says about a
    record. *)
Definition create_index (fuel : nat) (base_dir : string) (visible : list Z → option RC) (io : MetaFile) T
    (field_meta : option FieldMeta) (index_name : option string) : M W (RC * HeapTable) :=
  match field_meta, index_name with
  | Some fm, Some n =>
      if is_blank index_name then mret (RC.INVALID_ARGUMENT, T)
      else
        match index_meta_init index_name fm with
        | (rc, Some im) =>
            '(rc, x) ← index_create new_index (table_index_file base_dir (tm_name (table_meta_ T)) n) im fm;
            if bool_decide (rc ≠ RC.SUCCESS) then mret (rc, T)
            else
              f ← deref (data_buffer_pool_ T);
              '(rc, sc) ← sc_open_scan f visible;
              if bool_decide (rc ≠ RC.SUCCESS) then mret (rc, T)
              else
                done ← populate fuel x sc;
                match done with
                | inl rc => mret (rc, T)
                | inr (rc, sc) =>
                    if negb (bool_decide (rc = RC.RECORD_EOF)) then mret (rc, T)
                    else
                      sc_close_scan sc;;
                      let T := set_indexes (indexes_ T ++ [x]) T in
                      if negb (mf_is_open io) then mret (RC.IOERR_OPEN, T)
                      else if mf_serialized io <? 0 then mret (RC.IOERR_WRITE, T)
                      else if negb (mf_rename io =? 0) then mret (RC.IOERR_WRITE, T)
                      else mret (RC.SUCCESS, set_table_meta (add_index (table_meta_ T) im) T)
                end
        | (rc, None) => mret (rc, T)
        end
  | _, _ => mret (RC.INVALID_ARGUMENT, T)
  end.

Fixpoint sync_indexes (l : list BplusTreeIndex) : M W RC :=
  match l with [] => mret RC.SUCCESS | x :: l => rc ← index_sync x; if bool_decide (rc ≠ RC.SUCCESS) then mret rc else sync_indexes l end.
Definition engine_sync T : M W RC :=
  rc ← sync_indexes (indexes_ T);
  if bool_decide (rc ≠ RC.SUCCESS) then mret rc else f ← deref (data_buffer_pool_ T); bp_flush_all_pages f.

(** *** Opening *)
Definition engine_init (base_dir : string) T : M W (RC * HeapTable) :=
  '(rc, f) ← bpm_open_file (table_data_file base_dir (tm_name (table_meta_ T)));
  if bool_decide (rc ≠ RC.SUCCESS) then mret (rc, T)
  else
    let T := mkHeapTable (table_meta_ T) (Some f) (Some f) (indexes_ T) in
    rc ← rf_init f (table_meta_ T);
    if bool_decide (rc ≠ RC.SUCCESS) then mret (rc, mkHeapTable (table_meta_ T) (Some f) None (indexes_ T)) else mret (rc, T).

Fixpoint open_indexes (base_dir : string) (l : list IndexMeta) T : M W (RC * HeapTable) :=
  match l with
  | [] => mret (RC.SUCCESS, T)
  | im :: l =>
      match field_by_name (table_meta_ T) (im_field im) with
      | None => mret (RC.INTERNAL, T)
      | Some fm =>
          '(rc, x) ← index_open new_index (table_index_file base_dir (tm_name (table_meta_ T)) (im_name im)) im fm;
          if bool_decide (rc ≠ RC.SUCCESS) then mret (rc, T) else open_indexes base_dir l (set_indexes (indexes_ T ++ [x]) T)
      end
  end.

(** The result of [init] is ignored. *)
Definition engine_open (base_dir : string) T : M W (RC * HeapTable) :=
  '(rc, T) ← engine_init base_dir T; open_indexes base_dir (tm_indexes (table_meta_ T)) T.
End heap_table.

(** ** Tables by their id

    [Table] passes its methods on to the engine. *)
Record TableWorld (W : Type) : Type := mkTableWorld { tw_world : W; tw_tables : gmap TableId HeapTable }.
Arguments mkTableWorld {W}.
Arguments tw_world {W}.
Arguments tw_tables {W}.

Section tables.
Context {W : Type} `{!Storage W}.
Notation TW := (TableWorld W).

(** A method of a table that leaves the engine as it is. *)
Definition with_table {A} (t : TableId) (m : HeapTable → M W A) : M TW A := λ s,
  T ← tw_tables s !! t; '(a, w) ← m T (tw_world s); Some (a, mkTableWorld w (tw_tables s)).

#[global] Instance HeapTables : Tables TW := {|
  tb_meta t s := table_meta_ <$> tw_tables s !! t;
  tb_insert_record t record := with_table t (λ T, engine_insert_record T record);
  tb_delete_record t rid data := with_table t (λ T, engine_delete_record T (mkTableRecord rid data));
  tb_get_record t rid := with_table t (λ T, engine_get_record T rid);
  tb_visit_record A t rid f := with_table t (λ T, engine_visit_record T rid f)
|}.
End tables.
