(* ===== verification/HeapTableSpec.v ===== *)
(** * Heap tables: what they rely on, and when they are consistent

    [StorageLaws]: record files are finite maps from record ids to records and B+ trees
    finite sets of keys with record ids, whatever the buffer pool does underneath; every
    call may fail, and then nothing has changed.  [TreesReturn]: a change of a tree ends.
    [ReliableStorage]: no call fails on what is there.
    [table_ok]: the indexes of a table hold exactly the keys of its records. *)

From stdpp Require Import strings.
From S2P Require Import Prelude Types Bytes RecordPage IndexKey TableMeta Mvcc HeapTable.
Local Open Scope Z_scope.

Notation Records := (gmap RID (list Z)) (only parsing).
Notation Entries := (gset (list Z * RID)) (only parsing).

(** ** The interface, seen from above *)
Record BTree : Type := mkBTree { bt_type : AttrType; bt_len : Z; bt_entries : gset (list Z * RID) }.

Section laws.
Context (W : Type) `{!Storage W}.

(** [sv_key]: what a tree keeps of the bytes of a key; two keys are the same for the
    comparator of the tree when this is the same.  [sv_key_ok]: the types and lengths of
    the keys whose trees are sets; for the B+ trees of the program these are the ones of
    [IndexKey.attr_ok], so no floats, whose comparator is not transitive, and no booleans,
    with nodes of the size [delete_ok] asks for.  [sv_scan]: the rows a scanner will still
    return. *)
Record storage_view : Type := mkStorageView {
  sv_inv : W → Prop;
  sv_files : W → gmap FileId Records;
  sv_trees : W → gmap IndexId BTree;
  sv_key : AttrType → Z → list Z → list Z;
  sv_key_ok : AttrType → Z → Prop;
  sv_scan : W → scanner → FileId → list (RID * list Z) → Prop
}.

Record same_files (v : storage_view) (w w' : W) : Prop := {
  sf_inv : sv_inv v w';
  sf_files : sv_files v w' = sv_files v w;
  sf_scan sc f l : sv_scan v w sc f l → sv_scan v w' sc f l
}.

Definition seen_rows (visible : list Z → option RC) (σ : Records) (l : list (RID * list Z)) : Prop :=
  NoDup l.*1 ∧ ∀ rid r, (rid, r) ∈ l ↔ σ !! rid = Some r ∧ visible r = Some RC.SUCCESS.

(** A call of a record file fails when no frame can be had for a page, and a call of a
    tree for the same reason or because the key is there already, or is not there.  What
    is said of a call of a tree is said of one that returns: when the frames run out in
    the middle of a change, the rollback of the mini-transaction dereferences a null
    pointer ([bplus_tree_log_entry.cpp]), and the call does not return. *)
Class StorageLaws : Type := {
  sv : storage_view;
  sl_key ty len k k' : take (Z.to_nat len) k = take (Z.to_nat len) k' → sv_key sv ty len k = sv_key sv ty len k';
  sl_insert w f σ r : sv_inv sv w → sv_files sv w !! f = Some σ →
    ∃ rc rid w', rf_insert_record f r (Z.of_nat (length r)) w = Some ((rc, rid), w') ∧ sv_inv sv w' ∧ sv_trees sv w' = sv_trees sv w ∧
      (rc = RC.SUCCESS ∧ σ !! rid = None ∧ sv_files sv w' = <[f := <[rid := r]> σ]> (sv_files sv w) ∨
       rc ≠ RC.SUCCESS ∧ sv_files sv w' = sv_files sv w);
  sl_delete w f σ rid r : sv_inv sv w → sv_files sv w !! f = Some σ → σ !! rid = Some r →
    ∃ rc w', rf_delete_record f rid w = Some (rc, w') ∧ sv_inv sv w' ∧ sv_trees sv w' = sv_trees sv w ∧
      (rc = RC.SUCCESS ∧ sv_files sv w' = <[f := delete rid σ]> (sv_files sv w) ∨
       rc ≠ RC.SUCCESS ∧ sv_files sv w' = sv_files sv w);
  sl_get w f σ rid : sv_inv sv w → sv_files sv w !! f = Some σ →
    ∃ rc w', rf_get_record f rid w = Some ((rc, σ !! rid), w') ∧ sv_inv sv w' ∧ sv_trees sv w' = sv_trees sv w ∧ sv_files sv w' = sv_files sv w ∧
      (rc = RC.SUCCESS ↔ is_Some (σ !! rid));
  sl_visit {A} w f σ rid (g : visitor A) r a b r' : sv_inv sv w → sv_files sv w !! f = Some σ → σ !! rid = Some r → g r = Some (a, (b, r')) →
    (b = true → length r' = length r) →
    ∃ rc o w', rf_visit_record f rid g w = Some ((rc, o), w') ∧ sv_inv sv w' ∧ sv_trees sv w' = sv_trees sv w ∧
      (rc = RC.SUCCESS ∧ o = Some a ∧ sv_files sv w' = (if b then <[f := <[rid := r']> σ]> (sv_files sv w) else sv_files sv w) ∨
       rc ≠ RC.SUCCESS ∧ o = None ∧ sv_files sv w' = sv_files sv w);
  sl_visit_none {A} w f σ rid (g : visitor A) : sv_inv sv w → sv_files sv w !! f = Some σ → σ !! rid = None →
    ∃ rc w', rf_visit_record f rid g w = Some ((rc, None), w') ∧ rc ≠ RC.SUCCESS ∧ sv_inv sv w' ∧ sv_trees sv w' = sv_trees sv w ∧
      sv_files sv w' = sv_files sv w;
  sl_open w f σ visible : sv_inv sv w → sv_files sv w !! f = Some σ → (∀ rid r, σ !! rid = Some r → is_Some (visible r)) →
    ∃ rc sc w', sc_open_scan f visible w = Some ((rc, sc), w') ∧ same_files sv w w' ∧ sv_trees sv w' = sv_trees sv w ∧
      (rc = RC.SUCCESS → ∃ l, sv_scan sv w' sc f l ∧ seen_rows visible σ l);
  sl_next w sc f l : sv_inv sv w → sv_scan sv w sc f l →
    ∃ rc row sc' w', sc_next sc w = Some ((rc, row, sc'), w') ∧ sv_inv sv w' ∧ sv_files sv w' = sv_files sv w ∧ sv_trees sv w' = sv_trees sv w ∧
      (rc = RC.SUCCESS ∧ (∃ r l', l = r :: l' ∧ row = Some r ∧ sv_scan sv w' sc' f l') ∨
       rc = RC.RECORD_EOF ∧ l = [] ∧ sv_scan sv w' sc' f [] ∨ rc ≠ RC.SUCCESS ∧ rc ≠ RC.RECORD_EOF);
  sl_close w sc f l : sv_inv sv w → sv_scan sv w sc f l →
    ∃ rc w', sc_close_scan sc w = Some (rc, w') ∧ sv_inv sv w' ∧ sv_files sv w' = sv_files sv w ∧ sv_trees sv w' = sv_trees sv w;
  sl_create w name ty len : sv_inv sv w →
    ∃ rc i w', bt_create name ty len w = Some ((rc, i), w') ∧ same_files sv w w' ∧
      (rc = RC.SUCCESS ∧ sv_trees sv w !! i = None ∧ sv_trees sv w' = <[i := mkBTree ty len ∅]> (sv_trees sv w) ∨
       rc ≠ RC.SUCCESS ∧ sv_trees sv w' = sv_trees sv w);
  sl_bt_insert w i t k rid rc w' : sv_inv sv w → sv_trees sv w !! i = Some t → sv_key_ok sv (bt_type t) (bt_len t) → bt_len t ≤ Z.of_nat (length k) →
    bt_insert_entry i k rid w = Some (rc, w') → same_files sv w w' ∧
      let e := (sv_key sv (bt_type t) (bt_len t) k, rid) in
      (rc = RC.SUCCESS ∧ e ∉ bt_entries t ∧ sv_trees sv w' = <[i := mkBTree (bt_type t) (bt_len t) ({[e]} ∪ bt_entries t)]> (sv_trees sv w) ∨
       rc ≠ RC.SUCCESS ∧ sv_trees sv w' = sv_trees sv w);
  sl_bt_delete w i t k rid rc w' : sv_inv sv w → sv_trees sv w !! i = Some t → sv_key_ok sv (bt_type t) (bt_len t) → bt_len t ≤ Z.of_nat (length k) →
    bt_delete_entry i k rid w = Some (rc, w') → same_files sv w w' ∧
      let e := (sv_key sv (bt_type t) (bt_len t) k, rid) in
      (rc = RC.SUCCESS ∧ e ∈ bt_entries t ∧ sv_trees sv w' = <[i := mkBTree (bt_type t) (bt_len t) (bt_entries t ∖ {[e]})]> (sv_trees sv w) ∨
       rc ≠ RC.SUCCESS ∧ sv_trees sv w' = sv_trees sv w)
}.

(** There are frames enough for the nodes that a change of a tree needs once it has begun. *)
Class TreesReturn `{!StorageLaws} : Prop := {
  tr_insert w i t k rid : sv_inv sv w → sv_trees sv w !! i = Some t → sv_key_ok sv (bt_type t) (bt_len t) → bt_len t ≤ Z.of_nat (length k) →
    is_Some (bt_insert_entry i k rid w);
  tr_delete w i t k rid : sv_inv sv w → sv_trees sv w !! i = Some t → sv_key_ok sv (bt_type t) (bt_len t) → bt_len t ≤ Z.of_nat (length k) →
    is_Some (bt_delete_entry i k rid w)
}.

(** There is a frame for every page: a record that is there can be deleted and visited, an
    entry that is there can be deleted. *)
Class ReliableStorage `{!StorageLaws} : Prop := {
  rs_delete w f σ rid r rc w' : sv_inv sv w → sv_files sv w !! f = Some σ → σ !! rid = Some r →
    rf_delete_record f rid w = Some (rc, w') → rc = RC.SUCCESS;
  rs_visit {A} w f σ rid (g : visitor A) r a b r' rc o w' : sv_inv sv w → sv_files sv w !! f = Some σ → σ !! rid = Some r → g r = Some (a, (b, r')) →
    (b = true → length r' = length r) → rf_visit_record f rid g w = Some ((rc, o), w') → rc = RC.SUCCESS;
  rs_bt_delete w i t k rid rc w' : sv_inv sv w → sv_trees sv w !! i = Some t → sv_key_ok sv (bt_type t) (bt_len t) → bt_len t ≤ Z.of_nat (length k) →
    (sv_key sv (bt_type t) (bt_len t) k, rid) ∈ bt_entries t → bt_delete_entry i k rid w = Some (rc, w') → rc = RC.SUCCESS
}.
End laws.
Arguments sv {W _ _}.
Arguments sv_inv {W _}.
Arguments sv_files {W _}.
Arguments sv_trees {W _}.
Arguments sv_key {W _}.
Arguments sv_key_ok {W _}.
Arguments sv_scan {W _}.
Arguments same_files {W _}.
Arguments sf_inv {W _ _ _ _}.
Arguments sf_files {W _ _ _ _}.
Arguments sf_scan {W _ _ _ _}.

Section table.
Context {W : Type} `{!Storage W, !StorageLaws W}.
Implicit Types (w : W) (x : BplusTreeIndex) (T : HeapTable) (rid : RID) (r : list Z) (σ : Records).

(** The key of a record in an index. *)
Definition index_key x r : list Z := sv_key sv (fm_type (field_meta_ x)) (fm_len (field_meta_ x)) (drop (Z.to_nat (fm_offset (field_meta_ x))) r).

(** What the tree of an index holds. *)
Definition entries_of w (i : IndexId) : Entries := match sv_trees sv w !! i with Some t => bt_entries t | None => ∅ end.

(** The index is open on its tree, and its field lies in records of [size] bytes. *)
Record index_ok w (size : Z) x : Prop := {
  io_handle : ∃ i t, index_handler_ x = Some i ∧ sv_trees sv w !! i = Some t ∧ bt_type t = fm_type (field_meta_ x) ∧ bt_len t = fm_len (field_meta_ x);
  io_type : sv_key_ok sv (fm_type (field_meta_ x)) (fm_len (field_meta_ x));
  io_field : 0 ≤ fm_offset (field_meta_ x) ∧ 0 < fm_len (field_meta_ x) ∧ fm_offset (field_meta_ x) + fm_len (field_meta_ x) ≤ size
}.

(** The records are [σ]; an index may lack the entry of a record in [missing]. *)
Record table_but (missing : gset RID) w T σ : Prop := {
  tk_inv : sv_inv sv w;
  tk_file : ∃ f, record_handler_ T = Some f ∧ data_buffer_pool_ T = Some f ∧ sv_files sv w !! f = Some σ;
  tk_size rid r : σ !! rid = Some r → Z.of_nat (length r) = tm_record_size (table_meta_ T);
  tk_open x : x ∈ indexes_ T → index_ok w (tm_record_size (table_meta_ T)) x;
  tk_distinct : NoDup (index_handler_ <$> indexes_ T);
  tk_field x : x ∈ indexes_ T → field_by_name (table_meta_ T) (im_field (index_meta_ x)) = Some (field_meta_ x);
  tk_sound x i k rid : x ∈ indexes_ T → index_handler_ x = Some i → (k, rid) ∈ entries_of w i → ∃ r, σ !! rid = Some r ∧ k = index_key x r;
  tk_complete x i rid r : x ∈ indexes_ T → index_handler_ x = Some i → σ !! rid = Some r → rid ∉ missing → (index_key x r, rid) ∈ entries_of w i
}.
Definition table_ok : W → HeapTable → Records → Prop := table_but ∅.
End table.
