(* ===== verification/HeapTableOps.v ===== *)
(** * Heap tables: the operations

    What each loop does to the entries of every index, whatever it returns; what
    inserting, deleting and updating do to the records and the indexes of a table; and
    that a new index holds the keys of the rows that the scanner returned. *)

From stdpp Require Import strings.
From S2P Require Import Prelude Types Bytes RecordPage IndexKey TableMeta Mvcc HeapTable HeapTableSpec.
Local Open Scope Z_scope.

Section loops.
Context {W : Type} `{!Storage W, !StorageLaws W, !TreesReturn W}.
Implicit Types (w : W) (x : BplusTreeIndex) (l : list BplusTreeIndex) (rid : RID) (r : list Z).

(** Every tree is still there. *)
Definition kinds_kept w w' : Prop :=
  ∀ i t, sv_trees sv w !! i = Some t → ∃ t', sv_trees sv w' !! i = Some t' ∧ bt_type t' = bt_type t ∧ bt_len t' = bt_len t.

Lemma index_ok_kept w w' size x : kinds_kept w w' → index_ok w size x → index_ok w' size x.
Proof. intros K [(i & t & Hi & Ht & H1 & H2) ? ?]. split; [|done|done]. destruct (K i t Ht) as (t' & Ht' & ? & ?). exists i, t'. split_and!; congruence. Qed.

Lemma kinds_trans w1 w2 w3 : kinds_kept w1 w2 → kinds_kept w2 w3 → kinds_kept w1 w3.
Proof. intros K1 K2 i t Ht. destruct (K1 i t Ht) as (t2 & Ht2 & ? & ?). destruct (K2 i t2 Ht2) as (t3 & ? & ? & ?). exists t3. split_and!; congruence. Qed.

Lemma kinds_same w w' : sv_trees sv w' = sv_trees sv w → kinds_kept w w'.
Proof. intros E i t Ht. exists t. by rewrite E. Qed.

(** The storage after calls on the indexes in [l]: the files are as before, the trees are
    still there, and [R] relates what an index held to what it holds. *)
Record moved (R : BplusTreeIndex → Entries → Entries → Prop) l w w' : Prop := {
  mv_inv : sv_inv sv w';
  mv_files : sv_files sv w' = sv_files sv w;
  mv_kind : kinds_kept w w';
  mv_in x i : x ∈ l → index_handler_ x = Some i → R x (entries_of w i) (entries_of w' i);
  mv_out i : Some i ∉ index_handler_ <$> l → entries_of w' i = entries_of w i
}.

Definition added r rid x (E E' : Entries) : Prop := E' = {[(index_key x r, rid)]} ∪ E.
Definition removed r rid x (E E' : Entries) : Prop := (index_key x r, rid) ∈ E ∧ E' = E ∖ {[(index_key x r, rid)]}.
Definition fresh_added r rid x (E E' : Entries) : Prop := (index_key x r, rid) ∉ E ∧ added r rid x E E'.

Lemma moved_refl R l w : sv_inv sv w → (∀ x E, x ∈ l → R x E E) → moved R l w w.
Proof. intros I H. split; [done|done|by apply kinds_same|auto|done]. Qed.

Lemma moved_nil R w : sv_inv sv w → moved R [] w w.
Proof. intros I. apply moved_refl; [done|]. by intros x E ?%not_elem_of_nil. Qed.

Lemma same_files_trans w1 w2 w3 : same_files sv w1 w2 → same_files sv w2 w3 → same_files sv w1 w3.
Proof. intros [I1 F1 S1] [I2 F2 S2]. split; [done|congruence|auto]. Qed.

(** Calls on the same indexes, one after the other. *)
Lemma moved_trans (R1 R2 R : BplusTreeIndex → Entries → Entries → Prop) l w1 w2 w3 : moved R1 l w1 w2 → moved R2 l w2 w3 →
  (∀ x E1 E2 E3, x ∈ l → R1 x E1 E2 → R2 x E2 E3 → R x E1 E3) → moved R l w1 w3.
Proof.
  intros [V1 F1 K1 I1 O1] [V2 F2 K2 I2 O2] H. split; [done|congruence| | |].
  - by eapply kinds_trans.
  - intros x i Hx Hi. eapply H; eauto.
  - intros i Hi. by rewrite O2, O1.
Qed.

(** Calls on different indexes. *)
Lemma moved_app R l1 l2 w1 w2 w3 : NoDup (index_handler_ <$> l1 ++ l2) → moved R l1 w1 w2 → moved R l2 w2 w3 → moved R (l1 ++ l2) w1 w3.
Proof.
  intros Hnd [V1 F1 K1 I1 O1] [V2 F2 K2 I2 O2]. rewrite fmap_app in Hnd. apply list.NoDup_app in Hnd as (_ & Hd & _). split; [done|congruence| | |].
  - by eapply kinds_trans.
  - intros x i Hx Hi. apply elem_of_app in Hx as [Hx|Hx].
    + rewrite O2; [by apply I1|]. intros H. apply (Hd (Some i)); [|done]. rewrite <-Hi. by apply list_elem_of_fmap_2.
    + rewrite <-(O1 i); [by apply I2|]. intros H. apply (Hd (Some i)); [done|]. rewrite <-Hi. by apply list_elem_of_fmap_2.
  - intros i Hi. rewrite fmap_app in Hi. rewrite O2, O1 by set_solver. done.
Qed.

Lemma moved_weaken (R R' : BplusTreeIndex → Entries → Entries → Prop) l w w' : moved R l w w' → (∀ x E E', x ∈ l → R x E E' → R' x E E') → moved R' l w w'.
Proof. intros [V F K I O] H. split; [done|done|done|eauto|done]. Qed.

(** More indexes, to which nothing happens. *)
Lemma moved_more R l l' w w' : moved R l w w' → (∀ x E, x ∈ l' → x ∉ l → R x E E) → (∀ x y, x ∈ l → y ∈ l' → index_handler_ x = index_handler_ y → x = y) →
  (∀ x, x ∈ l → x ∈ l') → moved R l' w w'.
Proof.
  intros [V F K I O] H Hinj Hsub. split; [done|done|done| |].
  - intros x i Hx Hi. destruct (decide (Some i ∈ index_handler_ <$> l)) as [(y & Hy & Hyl)%list_elem_of_fmap|Hn].
    + assert (y = x) as -> by (apply Hinj; [done|done|congruence]). by apply I.
    + rewrite O by done. apply H; [done|]. intros Hxl. apply Hn. rewrite <-Hi. by apply list_elem_of_fmap_2.
  - intros i Hi. apply O. intros (y & Hy & Hyl)%list_elem_of_fmap. apply Hi. rewrite Hy. apply list_elem_of_fmap_2. auto.
Qed.

Lemma handles_distinct l : NoDup (index_handler_ <$> l) → ∀ x y, x ∈ l → y ∈ l → index_handler_ x = index_handler_ y → x = y.
Proof.
  intros Hd x y Hx Hy E. apply list_elem_of_lookup in Hx as [a Ha]. apply list_elem_of_lookup in Hy as [b Hb].
  assert (a = b) as -> by (eapply list.NoDup_lookup; [exact Hd| |]; rewrite list_lookup_fmap; [by rewrite Ha|by rewrite Hb, E]). congruence.
Qed.

(** ** One call *)
Lemma entries_of_insert w w' i t : sv_trees sv w' = <[i := t]> (sv_trees sv w) →
  entries_of w' i = bt_entries t ∧ ∀ j, j ≠ i → entries_of w' j = entries_of w j.
Proof.
  intros E. unfold entries_of. rewrite E. split; [by rewrite lookup_insert_eq|]. intros j Hj. by rewrite lookup_insert_ne.
Qed.

Lemma kinds_insert w w' i t t' : sv_trees sv w !! i = Some t → bt_type t' = bt_type t → bt_len t' = bt_len t → sv_trees sv w' = <[i := t']> (sv_trees sv w) → kinds_kept w w'.
Proof.
  intros Ht H1 H2 E j u Hu. rewrite E. destruct (decide (j = i)) as [->|Hj].
  - rewrite lookup_insert_eq. exists t'. split; [done|]. split; congruence.
  - rewrite lookup_insert_ne by done. eauto.
Qed.

Lemma entries_same w w' : sv_trees sv w' = sv_trees sv w → ∀ i, entries_of w' i = entries_of w i.
Proof. intros E i. unfold entries_of. by rewrite E. Qed.

Lemma moved_same R l w w' : sv_inv sv w' → sv_files sv w' = sv_files sv w → sv_trees sv w' = sv_trees sv w → (∀ x E, x ∈ l → R x E E) → moved R l w w'.
Proof.
  intros I F E H. split; [done|done| | |].
  - by apply kinds_same.
  - intros x i Hx Hi. rewrite (entries_same w w' E). auto.
  - intros i _. by rewrite (entries_same w w' E).
Qed.

Lemma insert_call w size x r rid : sv_inv sv w → index_ok w size x → size ≤ Z.of_nat (length r) →
  ∃ rc w', index_insert_entry x r rid w = Some (rc, w') ∧ same_files sv w w' ∧
    (rc = RC.SUCCESS ∧ moved (fresh_added r rid) [x] w w' ∨ rc ≠ RC.SUCCESS ∧ sv_trees sv w' = sv_trees sv w).
Proof.
  intros I [(i & t & Hi & Ht & H1 & H2) Hf [Ho Hl]] Hr. rewrite <-H1, <-H2 in Hf.
  assert (bt_len t ≤ Z.of_nat (length (drop (Z.to_nat (fm_offset (field_meta_ x))) r))) as Hk by (rewrite length_drop; lia).
  destruct (tr_insert _ w i t _ rid I Ht Hf Hk) as [[rc w'] E]. destruct (sl_bt_insert _ w i t _ rid rc w' I Ht Hf Hk E) as [F Hres].
  exists rc, w'. unfold index_insert_entry. rewrite Hi. mstep. split; [exact E|]. split; [exact F|].
  cbn zeta in Hres. rewrite H1, H2 in Hres. fold (index_key x r) in Hres.
  destruct Hres as [(-> & Hn & Et)|[Hrc Et]]; [left|by right]. split; [done|]. destruct (entries_of_insert w w' i _ Et) as [E1 E2]. split; [apply (sf_inv F)|apply (sf_files F)| | |].
  - eapply kinds_insert; [exact Ht| | |exact Et]; by cbn.
  - intros y j Hy%list_elem_of_singleton Hj. subst y. assert (j = i) as -> by congruence. rewrite E1. cbn. unfold entries_of. rewrite Ht. by split.
  - intros j Hj. apply E2. intros ->. apply Hj. cbn. rewrite Hi. left.
Qed.

Lemma delete_call w size x r rid : sv_inv sv w → index_ok w size x → size ≤ Z.of_nat (length r) →
  ∃ rc w', index_delete_entry x r rid w = Some (rc, w') ∧ same_files sv w w' ∧
    (rc = RC.SUCCESS ∧ moved (removed r rid) [x] w w' ∨ rc ≠ RC.SUCCESS ∧ sv_trees sv w' = sv_trees sv w).
Proof.
  intros I [(i & t & Hi & Ht & H1 & H2) Hf [Ho Hl]] Hr. rewrite <-H1, <-H2 in Hf.
  assert (bt_len t ≤ Z.of_nat (length (drop (Z.to_nat (fm_offset (field_meta_ x))) r))) as Hk by (rewrite length_drop; lia).
  destruct (tr_delete _ w i t _ rid I Ht Hf Hk) as [[rc w'] E]. destruct (sl_bt_delete _ w i t _ rid rc w' I Ht Hf Hk E) as [F Hres].
  exists rc, w'. unfold index_delete_entry. rewrite Hi. mstep. split; [exact E|]. split; [exact F|].
  cbn zeta in Hres. rewrite H1, H2 in Hres. fold (index_key x r) in Hres.
  destruct Hres as [(-> & Hn & Et)|[Hrc Et]]; [left|by right]. split; [done|].
  destruct (entries_of_insert w w' i _ Et) as [E1 E2]. split; [apply (sf_inv F)|apply (sf_files F)| | |].
  - eapply kinds_insert; [exact Ht| | |exact Et]; by cbn.
  - intros y j Hy%list_elem_of_singleton Hj. subst y. assert (j = i) as -> by congruence. rewrite E1. cbn. unfold removed, entries_of. rewrite Ht. by split.
  - intros j Hj. apply E2. intros ->. apply Hj. cbn. rewrite Hi. left.
Qed.

(** ** The loops *)
Section run.
Context (size : Z) (r : list Z) (rid : RID) (Hr : size ≤ Z.of_nat (length r)).

Definition all_ok w l : Prop := sv_inv sv w ∧ (∀ x, x ∈ l → index_ok w size x) ∧ NoDup (index_handler_ <$> l).

Lemma all_ok_cons w x l : all_ok w (x :: l) → index_ok w size x ∧ all_ok w l ∧ index_handler_ x ∉ index_handler_ <$> l.
Proof.
  intros (I & H & Hnd). cbn in Hnd. apply list.NoDup_cons in Hnd as [Hx Hnd]. split; [apply H; left|]. split; [|done].
  split; [done|]. split; [|done]. intros y Hy. apply H. by right.
Qed.

Lemma all_ok_moved R l' w w' l : moved R l' w w' → all_ok w l → all_ok w' l.
Proof. intros M (I & H & Hnd). split; [apply (mv_inv _ _ _ _ M)|]. split; [|done]. intros x Hx. eapply index_ok_kept, H, Hx. apply (mv_kind _ _ _ _ M). Qed.

Lemma all_ok_app w l1 l2 : all_ok w (l1 ++ l2) → all_ok w l1 ∧ all_ok w l2.
Proof.
  intros (I & H & Hnd). rewrite fmap_app in Hnd. apply list.NoDup_app in Hnd as (H1 & _ & H2).
  split; (split; [done|]; split; [|done]); intros x Hx; apply H, elem_of_app; auto.
Qed.

Lemma moved_cons R x l w1 w2 w3 : NoDup (index_handler_ <$> x :: l) → moved R [x] w1 w2 → moved R l w2 w3 → moved R (x :: l) w1 w3.
Proof. intros Hnd M1 M2. by apply (moved_app R [x] l w1 w2 w3). Qed.

(** What an index that was not called holds. *)
Lemma untouched R x l w w' y i : moved R [x] w w' → index_handler_ x ∉ index_handler_ <$> l → y ∈ l → index_handler_ y = Some i → entries_of w' i = entries_of w i.
Proof.
  intros M Hx Hy Hi. apply (mv_out _ _ _ _ M). cbn. intros Hj%list_elem_of_singleton. apply Hx. rewrite <-Hj, <-Hi. by apply list_elem_of_fmap_2.
Qed.

Definition has_entry w x : Prop := ∀ i, index_handler_ x = Some i → (index_key x r, rid) ∈ entries_of w i.
Definition lacks_entry w x : Prop := ∀ i, index_handler_ x = Some i → (index_key x r, rid) ∉ entries_of w i.

(** The tree of an index refuses to delete an entry that it holds. *)
Definition delete_refused x : Prop :=
  ∃ w rc w', sv_inv sv w ∧ index_ok w size x ∧ has_entry w x ∧ index_delete_entry x r rid w = Some (rc, w') ∧ rc ≠ RC.SUCCESS.

Lemma reliable_delete `{!ReliableStorage W} x : ¬ delete_refused x.
Proof using Hr.
  intros (w & rc & w' & I & [(i & t & Hi & Ht & H1 & H2) Hf [Ho Hl]] & H & E & Hrc). apply Hrc. rewrite <-H1, <-H2 in Hf.
  unfold index_delete_entry in E. rewrite Hi in E. cbn in E. specialize (H i Hi). unfold entries_of in H. rewrite Ht in H.
  unfold index_key in H. rewrite <-H1, <-H2 in H. eapply (rs_bt_delete _ w i t _ rid rc w'); [done|done|done| |exact H|exact E]. rewrite length_drop. lia.
Qed.

Lemma delete_present `{!ReliableStorage W} w x : sv_inv sv w → index_ok w size x → has_entry w x →
  ∃ w', index_delete_entry x r rid w = Some (RC.SUCCESS, w') ∧ moved (removed r rid) [x] w w'.
Proof using Hr TreesReturn0.
  intros I O H. destruct (delete_call w size x r rid I O Hr) as (rc & w' & E & _ & [[-> M]|[Hrc _]]); [by exists w'|].
  destruct (reliable_delete x). by exists w, rc, w'.
Qed.

Lemma insert_loop w l : all_ok w l →
  ∃ rc w', insert_entry_of_indexes l r rid w = Some (rc, w') ∧
    (rc = RC.SUCCESS ∧ moved (fresh_added r rid) l w w' ∨
     rc ≠ RC.SUCCESS ∧ ∃ l1 x l2, l = l1 ++ x :: l2 ∧ moved (fresh_added r rid) l1 w w').
Proof.
  revert w. induction l as [|x l IH]; intros w H.
  - exists RC.SUCCESS, w. split; [done|]. left. split; [done|]. by apply moved_nil, H.
  - pose proof H as (I & _ & Hnd). destruct (all_ok_cons w x l H) as (Ox & Hl & Hx). cbn [insert_entry_of_indexes].
    destruct (insert_call w size x r rid I Ox Hr) as (rc & w1 & E & F & [[-> M]|[Hrc Et]]); rewrite (exec E).
    + rewrite bool_decide_eq_false_2 by auto. destruct (IH w1) as (rc & w2 & E2 & [[-> M2]|(Hrc & l1 & y & l2 & -> & M2)]); [by eapply all_ok_moved| |].
      * exists RC.SUCCESS, w2. split; [done|]. left. split; [done|]. by eapply moved_cons.
      * exists rc, w2. split; [done|]. right. split; [done|]. exists (x :: l1), y, l2. split; [done|]. eapply moved_cons; [|done|done].
        rewrite app_comm_cons, fmap_app in Hnd. by apply list.NoDup_app in Hnd as (? & _ & _).
    + rewrite bool_decide_eq_true_2 by done. exists rc, w1. split; [done|]. right. split; [done|]. exists [], x, l. split; [done|].
      apply moved_same; [apply (sf_inv F)|apply (sf_files F)|done|]. by intros y E0 ?%not_elem_of_nil.
Qed.

(** Undoing an insertion that stopped at [x]. *)
Lemma undo_loop `{!ReliableStorage W} w l1 x l2 rc0 : all_ok w (l1 ++ x :: l2) → (∀ y, y ∈ l1 → has_entry w y) → lacks_entry w x →
  ∃ rc w', delete_entry_of_indexes (l1 ++ x :: l2) r rid false rc0 w = Some (rc, w') ∧ moved (removed r rid) l1 w w'.
Proof.
  revert w rc0. induction l1 as [|y l1 IH]; intros w rc0 H H1 H2; cbn [app delete_entry_of_indexes].
  - pose proof H as (I & _ & _). destruct (all_ok_cons w x l2 H) as (Ox & _ & _).
    destruct (delete_call w size x r rid I Ox Hr) as (rc & w' & E & F & [[-> M]|[Hrc Et]]); rewrite (exec E).
    + destruct (io_handle _ _ _ Ox) as (i & t & Hi & _). destruct (mv_in _ _ _ _ M x i ltac:(left) Hi) as [Hin _]. by destruct (H2 i Hi).
    + rewrite bool_decide_eq_true_2, orb_true_r by done. exists rc, w'. split; [done|]. apply moved_same; [apply (sf_inv F)|apply (sf_files F)|done|]. by intros z E0 ?%not_elem_of_nil.
  - pose proof H as (I & _ & Hnd). destruct (all_ok_cons w y _ H) as (Oy & Hl & Hy). destruct (delete_present w y I Oy (H1 y ltac:(left))) as (w1 & E & M).
    rewrite (exec E). rewrite bool_decide_eq_false_2 by auto. cbn [andb]. destruct (IH w1 RC.SUCCESS) as (rc & w' & E' & M').
    + by eapply all_ok_moved.
    + intros z Hz i Hi. rewrite (untouched _ y (l1 ++ x :: l2) w w1 z i M Hy); [apply H1; [by right|done]| |done]. apply elem_of_app. by left.
    + intros i Hi. rewrite (untouched _ y (l1 ++ x :: l2) w w1 x i M Hy); [by apply H2| |done]. apply elem_of_app. right. left.
    + exists rc, w'. split; [done|]. eapply moved_cons; [|done|done]. cbn in Hnd. apply list.NoDup_cons in Hnd as [Ha Hb].
      rewrite fmap_app in Ha, Hb. cbn. apply list.NoDup_cons. split; [set_solver|]. by apply list.NoDup_app in Hb as (? & _ & _).
Qed.

(** Deleting the entries of a record: the assertion fails only when a tree refuses to
    delete an entry that it holds. *)
Lemma delete_entries_run w l : all_ok w l → (∀ x, x ∈ l → has_entry w x) →
  match delete_entries l (mkTableRecord rid (Some r)) w with
  | Some (_, w') => moved (removed r rid) l w w'
  | None => ∃ x, x ∈ l ∧ delete_refused x
  end.
Proof.
  revert w. induction l as [|x l IH]; intros w H H1; cbn [delete_entries]; [apply moved_nil, H|].
  pose proof H as (I & _ & Hnd). destruct (all_ok_cons w x l H) as (Ox & Hl & Hx). cbn [tr_data tr_rid].
  rewrite (exec (m := deref (Some r)) (s := w) (a := r) (s1 := w) eq_refl).
  destruct (delete_call w size x r rid I Ox Hr) as (rc & w1 & E & _ & [[-> M]|[Hrc _]]); rewrite (exec E).
  - rewrite bool_decide_eq_true_2 by done. rewrite (exec (m := assertb true) (s := w1) (a := tt) (s1 := w1) eq_refl).
    specialize (IH w1 ltac:(by eapply all_ok_moved)). destruct (delete_entries l _ w1) as [[[] w2]|].
    + eapply moved_cons; [done|exact M|]. apply IH. intros z Hz i Hi. rewrite (untouched _ x l w w1 z i M Hx Hz Hi). apply H1; [by right|done].
    + destruct IH as (z & Hz & Href); [|exists z; split; [by right|done]].
      intros z Hz i Hi. rewrite (untouched _ x l w w1 z i M Hx Hz Hi). apply H1; [by right|done].
  - rewrite bool_decide_eq_false_2 by done. cbn. exists x. split; [left|]. exists w, rc, w1. split_and!; try done. apply H1. left.
Qed.

(** *** Putting back and taking out

    The results of these calls are ignored. *)
Definition puts_back x : Prop :=
  ∀ w rc w', sv_inv sv w → index_ok w size x → lacks_entry w x → index_insert_entry x r rid w = Some (rc, w') → rc = RC.SUCCESS.
Definition takes_out x : Prop := ¬ delete_refused x.

Definition put x (E E' : Entries) : Prop := (E' = E ∨ added r rid x E E') ∧ (puts_back x → added r rid x E E').
Definition taken x (E E' : Entries) : Prop :=
  (E' = E ∨ E' = E ∖ {[(index_key x r, rid)]}) ∧ (takes_out x → (index_key x r, rid) ∈ E → E' = E ∖ {[(index_key x r, rid)]}).

Lemma put_call w x : sv_inv sv w → index_ok w size x → ∃ rc w', index_insert_entry x r rid w = Some (rc, w') ∧ moved put [x] w w'.
Proof.
  intros I Ox. destruct (insert_call w size x r rid I Ox Hr) as (rc & w' & E & F & Hres). exists rc, w'. split; [done|].
  destruct Hres as [[_ M]|[Hrc Et]].
  - eapply moved_weaken; [exact M|]. intros y E0 E1 _ [_ H]. split; [by right|done].
  - split; [apply (sf_inv F)|apply (sf_files F)|by apply kinds_same| |intros i _; by apply entries_same].
    intros y i Hy%list_elem_of_singleton Hi. subst y. rewrite (entries_same w w' Et). split; [by left|]. intros Hput.
    unfold added. destruct (decide ((index_key x r, rid) ∈ entries_of w i)) as [?|Hn]; [set_solver|].
    destruct Hrc. eapply Hput; [exact I|exact Ox| |exact E]. intros j Hj. assert (j = i) as -> by congruence. done.
Qed.

Lemma take_call w x : sv_inv sv w → index_ok w size x → ∃ rc w', index_delete_entry x r rid w = Some (rc, w') ∧ moved taken [x] w w'.
Proof.
  intros I Ox. destruct (delete_call w size x r rid I Ox Hr) as (rc & w' & E & F & Hres). exists rc, w'. split; [done|].
  destruct Hres as [[_ M]|[Hrc Et]].
  - eapply moved_weaken; [exact M|]. intros y E0 E1 _ [_ H]. split; [by right|done].
  - split; [apply (sf_inv F)|apply (sf_files F)|by apply kinds_same| |intros i _; by apply entries_same].
    intros y i Hy%list_elem_of_singleton Hi. subst y. rewrite (entries_same w w' Et). split; [by left|]. intros Ht Hin. destruct Ht.
    exists w, rc, w'. split_and!; try done. intros j Hj. assert (j = i) as -> by congruence. done.
Qed.

Lemma put_entries_run w l : all_ok w l → ∃ w', put_entries l r rid w = Some (tt, w') ∧ moved put l w w'.
Proof.
  revert w. induction l as [|x l IH]; intros w H; cbn [put_entries]; [exists w; split; [done|apply moved_nil, H]|].
  pose proof H as (I & _ & Hnd). destruct (all_ok_cons w x l H) as (Ox & Hl & Hx). destruct (put_call w x I Ox) as (rc & w1 & E & M). rewrite (exec E).
  destruct (IH w1) as (w' & E' & M'); [by eapply all_ok_moved|]. exists w'. split; [done|]. by eapply moved_cons.
Qed.

Lemma take_entries_run w l : all_ok w l → ∃ w', take_entries l r rid w = Some (tt, w') ∧ moved taken l w w'.
Proof.
  revert w. induction l as [|x l IH]; intros w H; cbn [take_entries]; [exists w; split; [done|apply moved_nil, H]|].
  pose proof H as (I & _ & Hnd). destruct (all_ok_cons w x l H) as (Ox & Hl & Hx). destruct (take_call w x I Ox) as (rc & w1 & E & M). rewrite (exec E).
  destruct (IH w1) as (w' & E' & M'); [by eapply all_ok_moved|]. exists w'. split; [done|]. by eapply moved_cons.
Qed.

End run.
End loops.

Section table.
Context {W : Type} `{!Storage W, !StorageLaws W, !TreesReturn W}.
Implicit Types (w : W) (x : BplusTreeIndex) (T : HeapTable) (rid : RID) (r : list Z) (σ : Records).

(** The storage outside a table. *)
Record elsewhere T w w' : Prop := {
  ew_files f : record_handler_ T ≠ Some f → sv_files sv w' !! f = sv_files sv w !! f;
  ew_kind : kinds_kept w w';
  ew_entries i : Some i ∉ index_handler_ <$> indexes_ T → entries_of w' i = entries_of w i
}.

Lemma elsewhere_trans T w1 w2 w3 : elsewhere T w1 w2 → elsewhere T w2 w3 → elsewhere T w1 w3.
Proof.
  intros [F1 K1 E1] [F2 K2 E2]. split.
  - intros f Hf. by rewrite F2, F1.
  - by eapply kinds_trans.
  - intros i Hi. by rewrite E2, E1.
Qed.

Lemma elsewhere_moved T R l w w' : moved R l w w' → (∀ x, x ∈ l → x ∈ indexes_ T) → elsewhere T w w'.
Proof.
  intros [_ F K _ O] Hl. split; [intros f _; by rewrite F|done|]. intros i Hi. apply O.
  intros (x & Hx & Hxl)%list_elem_of_fmap. apply Hi. rewrite Hx. apply list_elem_of_fmap_2. auto.
Qed.

Lemma elsewhere_file T w w' f σ : record_handler_ T = Some f → sv_trees sv w' = sv_trees sv w → sv_files sv w' = <[f := σ]> (sv_files sv w) → elsewhere T w w'.
Proof.
  intros Hf Et Ef. split; [|by apply kinds_same|intros i _; by apply entries_same].
  intros f' Hf'. rewrite Ef, lookup_insert_ne; [done|]. congruence.
Qed.

Lemma elsewhere_same T w w' : sv_trees sv w' = sv_trees sv w → sv_files sv w' = sv_files sv w → elsewhere T w w'.
Proof. intros Et Ef. split; [intros f _; by rewrite Ef|by apply kinds_same|intros i _; by apply entries_same]. Qed.

(** A table after its records and entries have changed. *)
Lemma table_rebuild m m' w w' T σ σ' : table_but m w T σ → elsewhere T w w' → sv_inv sv w' →
  (∀ f, record_handler_ T = Some f → sv_files sv w' !! f = Some σ') →
  (∀ rid r, σ' !! rid = Some r → Z.of_nat (length r) = tm_record_size (table_meta_ T)) →
  (∀ x i, x ∈ indexes_ T → index_handler_ x = Some i →
     (∀ k rid, (k, rid) ∈ entries_of w' i → ∃ r, σ' !! rid = Some r ∧ k = index_key x r) ∧
     (∀ rid r, σ' !! rid = Some r → rid ∉ m' → (index_key x r, rid) ∈ entries_of w' i)) →
  table_but m' w' T σ'.
Proof.
  intros [I (f & Hf1 & Hf2 & Hf3) Hs Ho Hd Hfi _ _] Ew I' Hf Hs' Hx. split; [done| |done| |done|done| |].
  - exists f. split_and!; auto.
  - intros x Hin. eapply index_ok_kept; [apply (ew_kind _ _ _ Ew)|auto].
  - intros x i k rid Hin Hi. by apply (Hx x i Hin Hi).
  - intros x i rid r Hin Hi. by apply (Hx x i Hin Hi).
Qed.

Lemma table_all_ok m w T σ : table_but m w T σ → all_ok (tm_record_size (table_meta_ T)) w (indexes_ T).
Proof. intros Tk. split; [apply (tk_inv _ _ _ _ Tk)|]. split; [apply (tk_open _ _ _ _ Tk)|apply (tk_distinct _ _ _ _ Tk)]. Qed.

(** Tables that share no file and no tree. *)
Definition apart T1 T2 : Prop :=
  record_handler_ T1 ≠ record_handler_ T2 ∧ ∀ i, Some i ∈ index_handler_ <$> indexes_ T1 → Some i ∉ index_handler_ <$> indexes_ T2.

Lemma table_elsewhere m w w' T T2 σ : apart T2 T → elsewhere T w w' → sv_inv sv w' → table_but m w T2 σ → table_but m w' T2 σ.
Proof.
  intros [Hf Hi] Ew I [I0 (f & Hf1 & Hf2 & Hf3) Hs Ho Hd Hfi Hso Hco].
  assert (∀ x i, x ∈ indexes_ T2 → index_handler_ x = Some i → entries_of w' i = entries_of w i) as He.
  { intros x i Hx Hxi. apply (ew_entries _ _ _ Ew), Hi. rewrite <-Hxi. by apply list_elem_of_fmap_2. }
  split; [done| |done| |done|done| |].
  - exists f. split; [done|]. split; [done|]. rewrite (ew_files _ _ _ Ew); [done|]. congruence.
  - intros x Hx. eapply index_ok_kept; [apply (ew_kind _ _ _ Ew)|auto].
  - intros x i k rid Hx Hxi. rewrite (He x i) by done. eauto.
  - intros x i rid r Hx Hxi. rewrite (He x i) by done. eauto.
Qed.

(** With frames for all pages. *)
Lemma reliable_remove `{!ReliableStorage W} w f σ rid r : sv_inv sv w → sv_files sv w !! f = Some σ → σ !! rid = Some r →
  ∃ w', rf_delete_record f rid w = Some (RC.SUCCESS, w') ∧ sv_inv sv w' ∧ sv_trees sv w' = sv_trees sv w ∧
    sv_files sv w' = <[f := delete rid σ]> (sv_files sv w).
Proof.
  intros I Hf Hr. destruct (sl_delete _ w f σ rid r I Hf Hr) as (rc & w' & E & I' & Et & [[-> Ef]|[Hrc _]]); [by exists w'|].
  by destruct (Hrc (rs_delete _ w f σ rid r rc w' I Hf Hr E)).
Qed.

Lemma reliable_visit `{!ReliableStorage W} {A} w f σ rid (g : visitor A) r a b r' : sv_inv sv w → sv_files sv w !! f = Some σ → σ !! rid = Some r → g r = Some (a, (b, r')) →
  (b = true → length r' = length r) →
  ∃ w', rf_visit_record f rid g w = Some ((RC.SUCCESS, Some a), w') ∧ sv_inv sv w' ∧ sv_trees sv w' = sv_trees sv w ∧
    sv_files sv w' = if b then <[f := <[rid := r']> σ]> (sv_files sv w) else sv_files sv w.
Proof.
  intros I Hf Hr Hg Hb. destruct (sl_visit _ w f σ rid g r a b r' I Hf Hr Hg Hb) as (rc & o & w' & E & I' & Et & [(-> & -> & Ef)|(Hrc & _)]); [by exists w'|].
  by destruct (Hrc (rs_visit _ w f σ rid g r a b r' rc o w' I Hf Hr Hg Hb E)).
Qed.

(** ** Inserting *)
Lemma fresh_lacks m w T σ rid r x : table_but m w T σ → σ !! rid = None → x ∈ indexes_ T → lacks_entry r rid w x.
Proof. intros Tk Hn Hx i Hi H. destruct (tk_sound _ _ _ _ Tk x i _ _ Hx Hi H) as (r' & Hr' & _). congruence. Qed.

Lemma add_then_remove r rid x (E1 E2 E3 : Entries) : fresh_added r rid x E1 E2 → removed r rid x E2 E3 → E3 = E1.
Proof. unfold fresh_added, added, removed. intros [Hn ->] [_ ->]. set_solver. Qed.

Lemma insert_done w w1 w2 T σ f rid r : table_ok w T σ → record_handler_ T = Some f → σ !! rid = None → sv_trees sv w1 = sv_trees sv w →
  sv_files sv w1 = <[f := <[rid := r]> σ]> (sv_files sv w) → Z.of_nat (length r) = tm_record_size (table_meta_ T) →
  moved (fresh_added r rid) (indexes_ T) w1 w2 → table_ok w2 T (<[rid := r]> σ) ∧ elsewhere T w w2.
Proof.
  intros Tk Hf Hn Et Ef Hl M. pose proof (elsewhere_file T w w1 f _ Hf Et Ef) as E1. pose proof (elsewhere_moved T _ _ _ _ M ltac:(auto)) as E2.
  assert (elsewhere T w w2) as E by by eapply elsewhere_trans. split; [|done]. eapply (table_rebuild _ _ w); [exact Tk|done|apply (mv_inv _ _ _ _ M)| | |].
  - intros f' Hf'. rewrite (mv_files _ _ _ _ M), Ef. assert (f' = f) as -> by congruence. apply lookup_insert_eq.
  - intros rid' r' [[_ <-]|[_ Hr']]%lookup_insert_Some; [done|by eapply (tk_size _ _ _ _ Tk)].
  - intros x i Hx Hi. destruct (mv_in _ _ _ _ M x i Hx Hi) as [_ Ha]. unfold added in Ha. rewrite (entries_same w w1 Et) in Ha. rewrite Ha. split.
    + intros k rid' [[= -> ->]%elem_of_singleton|Hk]%elem_of_union; [exists r; by rewrite lookup_insert_eq|].
      destruct (tk_sound _ _ _ _ Tk x i k rid' Hx Hi Hk) as (r' & Hr' & ->). exists r'. split; [|done]. rewrite lookup_insert_ne; [done|]. congruence.
    + intros rid' r' [[<- <-]|[Hne Hr']]%lookup_insert_Some _; [set_solver|]. apply elem_of_union_r. by eapply (tk_complete _ _ _ _ Tk).
Qed.

Lemma insert_undone w w1 w2 T σ f : table_ok w T σ → record_handler_ T = Some f → elsewhere T w w1 → sv_inv sv w2 →
  sv_trees sv w2 = sv_trees sv w1 → sv_files sv w2 = <[f := σ]> (sv_files sv w1) →
  (∀ x i, x ∈ indexes_ T → index_handler_ x = Some i → entries_of w1 i = entries_of w i) → table_ok w2 T σ ∧ elsewhere T w w2.
Proof.
  intros Tk Hf E1 I Et Ef He. assert (elsewhere T w w2) as E by (eapply elsewhere_trans; [exact E1|by eapply elsewhere_file]). split; [|done].
  eapply (table_rebuild _ _ w); [exact Tk|done|done| |apply (tk_size _ _ _ _ Tk)|].
  - intros f' Hf'. assert (f' = f) as -> by congruence. rewrite Ef. apply lookup_insert_eq.
  - intros x i Hx Hi. rewrite (entries_same w1 w2 Et), (He x i Hx Hi). split; [intros k rid; by apply (tk_sound _ _ _ _ Tk)|intros rid r; by apply (tk_complete _ _ _ _ Tk)].
Qed.

Lemma insert_record_ok `{!ReliableStorage W} w T σ r : table_ok w T σ → Z.of_nat (length r) = tm_record_size (table_meta_ T) →
  ∃ rc rid w', engine_insert_record T r w = Some ((rc, rid), w') ∧ elsewhere T w w' ∧
    (rc = RC.SUCCESS ∧ σ !! rid = None ∧ table_ok w' T (<[rid := r]> σ) ∨ rc ≠ RC.SUCCESS ∧ table_ok w' T σ).
Proof.
  intros Tk Hl. destruct (tk_file _ _ _ _ Tk) as (f & Hf & _ & Hσ). unfold engine_insert_record. rewrite Hf, <-Hl.
  destruct (sl_insert _ w f σ r (tk_inv _ _ _ _ Tk) Hσ) as (rc & rid & w1 & E & I1 & Et & Hres).
  rewrite (exec (m := deref (Some f)) (s := w) (a := f) (s1 := w) eq_refl), (exec E).
  destruct Hres as [(-> & Hn & Ef)|[Hrc Ef]].
  2: { rewrite bool_decide_eq_true_2 by done. exists rc, rid, w1. split; [done|]. split; [by apply elsewhere_same|]. right. split; [done|].
       eapply (table_rebuild _ _ w); [exact Tk|by apply elsewhere_same|done| |apply (tk_size _ _ _ _ Tk)|].
       - intros f' Hf'. rewrite Ef. congruence.
       - intros x i Hx Hi. rewrite (entries_same w w1 Et). split; [intros k rid'; by apply (tk_sound _ _ _ _ Tk)|intros rid' r'; by apply (tk_complete _ _ _ _ Tk)]. }
  rewrite bool_decide_eq_false_2 by auto. pose proof (elsewhere_file T w w1 f _ Hf Et Ef) as Ew1.
  assert (all_ok (tm_record_size (table_meta_ T)) w1 (indexes_ T)) as Hall.
  { destruct (table_all_ok _ _ _ _ Tk) as (_ & Ho & Hd). split; [done|]. split; [|done]. intros x Hx. eapply index_ok_kept; [apply (ew_kind _ _ _ Ew1)|auto]. }
  destruct (insert_loop (tm_record_size (table_meta_ T)) r rid ltac:(lia) w1 (indexes_ T) Hall) as (rc & w2 & E2 & Hres). rewrite (exec E2).
  destruct Hres as [[-> M]|(Hrc & l1 & x & l2 & Hsplit & M)].
  - rewrite bool_decide_eq_false_2 by auto. exists RC.SUCCESS, rid, w2. split; [done|].
    destruct (insert_done w w1 w2 T σ f rid r Tk Hf Hn Et Ef Hl M) as [Tk' Ew]. split; [done|]. left. by split_and!.
  - rewrite bool_decide_eq_true_2 by done. assert (∀ y, y ∈ l1 → y ∈ indexes_ T) as Hsub by (intros y Hy; rewrite Hsplit; apply elem_of_app; by left).
    assert (∀ y, y ∈ indexes_ T → lacks_entry r rid w1 y) as Hlack.
    { intros y Hy i Hi. rewrite (entries_same w w1 Et). by eapply fresh_lacks. }
    destruct (undo_loop (tm_record_size (table_meta_ T)) r rid ltac:(lia) w2 l1 x l2 RC.SUCCESS) as (rc2 & w3 & E3 & M3).
    { rewrite <-Hsplit. by eapply all_ok_moved. }
    { intros y Hy i Hi. destruct (mv_in _ _ _ _ M y i Hy Hi) as [_ ->]. set_solver. }
    { destruct Hall as (_ & _ & Hd). rewrite Hsplit, fmap_app in Hd. cbn in Hd. apply list.NoDup_app in Hd as (_ & Hd & _).
      intros i Hi. rewrite (mv_out _ _ _ _ M); [apply (Hlack x); [rewrite Hsplit; set_solver|done]|]. intros H. apply (Hd (Some i)); [done|]. rewrite Hi. left. }
    rewrite <-Hsplit in E3. rewrite (exec E3).
    assert (sv_files sv w3 !! f = Some (<[rid := r]> σ)) as Hf3 by (rewrite (mv_files _ _ _ _ M3), (mv_files _ _ _ _ M), Ef; apply lookup_insert_eq).
    destruct (reliable_remove w3 f _ rid r (mv_inv _ _ _ _ M3) Hf3) as (w4 & E4 & I4 & Et4 & Ef4); [apply lookup_insert_eq|].
    rewrite (exec E4). exists rc, rid, w4. split; [done|]. rewrite delete_insert_id in Ef4 by done.
    destruct (insert_undone w w3 w4 T σ f Tk Hf) as [Tk' Ew]; try done.
    + eapply elsewhere_trans; [exact Ew1|]. eapply elsewhere_trans; [by eapply elsewhere_moved|by eapply elsewhere_moved].
    + intros y i Hy Hi. rewrite <-(entries_same w w1 Et). pose proof (moved_trans _ _ (λ _ E0 E1, E1 = E0) l1 w1 w2 w3 M M3 ltac:(intros; by eapply add_then_remove)) as M13.
      destruct (decide (Some i ∈ index_handler_ <$> l1)) as [(z & Hz & Hzl)%list_elem_of_fmap|Hn']; [by apply (mv_in _ _ _ _ M13 z)|by apply (mv_out _ _ _ _ M13)].
    + split; [done|]. right. by split.
Qed.
(** ** Deleting *)
Lemma record_has w T σ rid r x : table_ok w T σ → σ !! rid = Some r → x ∈ indexes_ T → has_entry r rid w x.
Proof. intros Tk Hr Hx i Hi. by eapply (tk_complete _ _ _ _ Tk). Qed.

Lemma delete_done w w1 w2 T σ f rid r : table_ok w T σ → record_handler_ T = Some f → σ !! rid = Some r →
  moved (removed r rid) (indexes_ T) w w1 → sv_inv sv w2 → sv_trees sv w2 = sv_trees sv w1 → sv_files sv w2 = <[f := delete rid σ]> (sv_files sv w1) →
  table_ok w2 T (delete rid σ) ∧ elsewhere T w w2.
Proof.
  intros Tk Hf Hr M I Et Ef. pose proof (elsewhere_moved T _ _ _ _ M ltac:(auto)) as E1. pose proof (elsewhere_file T w1 w2 f _ Hf Et Ef) as E2.
  assert (elsewhere T w w2) as E by by eapply elsewhere_trans. split; [|done]. eapply (table_rebuild _ _ w); [exact Tk|done|done| | |].
  - intros f' Hf'. assert (f' = f) as -> by congruence. rewrite Ef. apply lookup_insert_eq.
  - intros rid' r' [_ Hr']%lookup_delete_Some. by eapply (tk_size _ _ _ _ Tk).
  - intros x i Hx Hi. destruct (mv_in _ _ _ _ M x i Hx Hi) as [_ He]. rewrite (entries_same w1 w2 Et), He. split.
    + intros k rid' [Hk Hne]%elem_of_difference. destruct (tk_sound _ _ _ _ Tk x i k rid' Hx Hi Hk) as (r' & Hr' & ->). exists r'. split; [|done].
      rewrite lookup_delete_ne; [done|]. intros <-. apply Hne. rewrite Hr in Hr'. injection Hr' as ->. by apply elem_of_singleton.
    + intros rid' r' [Hne Hr']%lookup_delete_Some _. apply elem_of_difference. split; [by eapply (tk_complete _ _ _ _ Tk)|]. intros [= _ ->]%elem_of_singleton. done.
Qed.

(** The entries of a record are gone. *)
Definition keys_removed rid r T w w' : Prop :=
  ∀ x i, x ∈ indexes_ T → index_handler_ x = Some i → entries_of w' i = entries_of w i ∖ {[(index_key x r, rid)]}.

Lemma delete_stopped w w1 w2 T σ rid r : table_ok w T σ → σ !! rid = Some r →
  moved (removed r rid) (indexes_ T) w w1 → sv_inv sv w2 → sv_trees sv w2 = sv_trees sv w1 → sv_files sv w2 = sv_files sv w1 →
  table_but {[rid]} w2 T σ ∧ elsewhere T w w2.
Proof.
  intros Tk Hr M I Et Ef. assert (elsewhere T w w2) as E by (eapply elsewhere_trans; [by eapply elsewhere_moved|by apply elsewhere_same]). split; [|done].
  eapply (table_rebuild _ _ w); [exact Tk|done|done| |apply (tk_size _ _ _ _ Tk)|].
  - intros f Hf. rewrite Ef, (mv_files _ _ _ _ M). destruct (tk_file _ _ _ _ Tk) as (f' & Hf' & _ & ?). congruence.
  - intros x i Hx Hi. destruct (mv_in _ _ _ _ M x i Hx Hi) as [_ He]. rewrite (entries_same w1 w2 Et), He. split.
    + intros k rid' [Hk _]%elem_of_difference. by apply (tk_sound _ _ _ _ Tk x i).
    + intros rid' r' Hr' Hne. apply elem_of_difference. split; [by eapply (tk_complete _ _ _ _ Tk)|]. intros [= _ ->]%elem_of_singleton. set_solver.
Qed.

Lemma delete_record_cases w T σ rid r data : table_ok w T σ → σ !! rid = Some r → data = Some r ∨ data = None ∧ indexes_ T = [] →
  match engine_delete_record T (mkTableRecord rid data) w with
  | Some (rc, w') => elsewhere T w w' ∧ keys_removed rid r T w w' ∧
      (rc = RC.SUCCESS ∧ table_ok w' T (delete rid σ) ∨ rc ≠ RC.SUCCESS ∧ table_but {[rid]} w' T σ)
  | None => ∃ x, x ∈ indexes_ T ∧ delete_refused (tm_record_size (table_meta_ T)) r rid x
  end.
Proof.
  intros Tk Hr Hdata. destruct (tk_file _ _ _ _ Tk) as (f & Hf & _ & Hσ). pose proof (tk_size _ _ _ _ Tk rid r Hr) as Hl.
  assert (match delete_entries (indexes_ T) (mkTableRecord rid data) w with
          | Some (_, w1) => moved (removed r rid) (indexes_ T) w w1
          | None => ∃ x, x ∈ indexes_ T ∧ delete_refused (tm_record_size (table_meta_ T)) r rid x end) as H.
  { destruct Hdata as [->|[-> Hnil]]; [|rewrite Hnil; apply moved_nil, (tk_inv _ _ _ _ Tk)].
    apply delete_entries_run; [lia|by eapply table_all_ok|]. intros x Hx. by eapply record_has. }
  unfold engine_delete_record. destruct (delete_entries _ _ w) as [[[] w1]|] eqn:E1.
  - rewrite (exec E1), Hf. rewrite (exec (m := deref (Some f)) (s := w1) (a := f) (s1 := w1) eq_refl). cbn [tr_rid].
    assert (sv_files sv w1 !! f = Some σ) as Hσ1 by (by rewrite (mv_files _ _ _ _ H)).
    destruct (sl_delete _ w1 f σ rid r (mv_inv _ _ _ _ H) Hσ1 Hr) as (rc & w2 & E2 & I2 & Et & Hres). rewrite E2.
    assert (keys_removed rid r T w w2) as Hk.
    { intros x i Hx Hi. rewrite (entries_same w1 w2 Et). apply (mv_in _ _ _ _ H x i Hx Hi). }
    destruct Hres as [[-> Ef]|[Hrc Ef]].
    + destruct (delete_done w w1 w2 T σ f rid r Tk Hf Hr H I2 Et Ef) as [Tk' Ew]. split; [done|]. split; [done|]. by left.
    + destruct (delete_stopped w w1 w2 T σ rid r Tk Hr H I2 Et Ef) as [Tk' Ew]. split; [done|]. split; [done|]. by right.
  - unfold mbind, M_bind. rewrite E1. exact H.
Qed.

Lemma delete_record_ok `{!ReliableStorage W} w T σ rid r data : table_ok w T σ → σ !! rid = Some r → data = Some r ∨ data = None ∧ indexes_ T = [] →
  ∃ w', engine_delete_record T (mkTableRecord rid data) w = Some (RC.SUCCESS, w') ∧ table_ok w' T (delete rid σ) ∧ elsewhere T w w'.
Proof.
  intros Tk Hr Hdata. destruct (tk_file _ _ _ _ Tk) as (f & Hf & _ & Hσ). pose proof (tk_size _ _ _ _ Tk rid r Hr) as Hl.
  pose proof (delete_record_cases w T σ rid r data Tk Hr Hdata) as H. 
  destruct (engine_delete_record T (mkTableRecord rid data) w) as [[rc w']|] eqn:E.
  - destruct H as (Ew & Hk & [[-> Tk']|[Hrc Tk']]); [by exists w'|]. exfalso. apply Hrc. revert E. unfold engine_delete_record.
    destruct (delete_entries (indexes_ T) (mkTableRecord rid data) w) as [[[] w1]|] eqn:E1; [|unfold mbind, M_bind; by rewrite E1].
    rewrite (exec E1), Hf. rewrite (exec (m := deref (Some f)) (s := w1) (a := f) (s1 := w1) eq_refl). cbn [tr_rid]. intros E2.
    assert (moved (removed r rid) (indexes_ T) w w1) as M.
    { destruct Hdata as [->|[-> Hnil]].
      - pose proof (delete_entries_run (tm_record_size (table_meta_ T)) r rid ltac:(lia) w (indexes_ T) (table_all_ok _ _ _ _ Tk)) as M. rewrite E1 in M.
        apply M. intros x Hx. by eapply record_has.
      - rewrite Hnil in E1 |- *. injection E1 as <-. apply moved_nil, (tk_inv _ _ _ _ Tk). }
    eapply (rs_delete _ w1 f σ rid r rc w'); [apply M|by rewrite (mv_files _ _ _ _ M)|done|exact E2].
  - destruct H as (x & Hx & Href). by destruct (reliable_delete (tm_record_size (table_meta_ T)) r rid ltac:(lia) x).
Qed.

(** ** Updating *)
(** The indexes whose key differs, as the code compares them. *)
Definition key_changes (old new : list Z) x : Prop := field_bytes (field_meta_ x) old ≠ field_bytes (field_meta_ x) new.

Lemma field_bytes_Some w size x r : index_ok w size x → size ≤ Z.of_nat (length r) → is_Some (field_bytes (field_meta_ x) r).
Proof. intros [_ _ [H1 H2]] Hr. unfold field_bytes, get_bytes. rewrite decide_True by lia. eauto. Qed.

Lemma same_bytes_same_key w size x old new : index_ok w size x → size ≤ Z.of_nat (length old) → size ≤ Z.of_nat (length new) →
  field_bytes (field_meta_ x) old = field_bytes (field_meta_ x) new → index_key x old = index_key x new.
Proof.
  intros [_ _ [H1 H2]] Ho Hn E. apply sl_key. unfold field_bytes, get_bytes in E. rewrite !decide_True in E by lia. by injection E.
Qed.

Lemma affected_run w size m l old new : (∀ x, x ∈ l → index_ok w size x ∧ field_by_name m (im_field (index_meta_ x)) = Some (field_meta_ x)) →
  NoDup (index_handler_ <$> l) → size ≤ Z.of_nat (length old) → size ≤ Z.of_nat (length new) →
  ∃ l', affected_indexes m l old new w = Some (inr l', w) ∧ NoDup (index_handler_ <$> l') ∧ ∀ x, x ∈ l' ↔ x ∈ l ∧ key_changes old new x.
Proof.
  intros Hl Hnd Ho Hn. induction l as [|x l IH].
  - exists []. split; [done|]. split; [by apply list.NoDup_nil|]. set_solver.
  - cbn in Hnd. apply list.NoDup_cons in Hnd as [Hx Hnd]. destruct (Hl x ltac:(left)) as [Ox Hf].
    destruct IH as (l' & E & Hnd' & Hl'); [intros y Hy; apply Hl; by right|done|].
    destruct (field_bytes_Some w size x old Ox Ho) as [a Ha]. destruct (field_bytes_Some w size x new Ox Hn) as [b Hb].
    exists (if bool_decide (a = b) then l' else x :: l'). split; [|split].
    + cbn [affected_indexes]. rewrite Hf, Ha, Hb. mstep. rewrite E. by case_bool_decide.
    + case_bool_decide; [done|]. cbn. apply list.NoDup_cons. split; [|done]. intros (y & Hy & Hyl)%list_elem_of_fmap. apply Hx.
      rewrite Hy. apply list_elem_of_fmap_2. by apply Hl'.
    + intros y. assert (key_changes old new x ↔ a ≠ b) as Hc by (unfold key_changes; rewrite Ha, Hb; split; [intros ? ->; done|intros ? [= ?]; done]).
      case_bool_decide as Hab; rewrite ?elem_of_cons, Hl'; split.
      * intros [? ?]. split; [by right|done].
      * intros [[->|Hy] Hk]; [by apply Hc in Hk|done].
      * intros [->|[? ?]]; [split; [by left|by apply Hc]|split; [by right|done]].
      * intros [[->|?] ?]; [by left|by right].
Qed.
Section update.
Context (size : Z) (rid : RID) (old new : list Z) (Ho : size ≤ Z.of_nat (length old)) (Hn : size ≤ Z.of_nat (length new)).

Lemma put_back (e : list Z * RID) (E : Entries) : e ∈ E → {[e]} ∪ E ∖ {[e]} = E.
Proof. intros He. symmetry. apply union_difference_L. by apply singleton_subseteq_l. Qed.

(** An index whose update was given up: at most the old entry is lost, at most the new
    one is left, and neither when the calls that restore the index succeed. *)
Definition restorable x : Prop := puts_back size old rid x ∧ takes_out size new rid x.
Definition undone x (E E' : Entries) : Prop :=
  E ∖ {[(index_key x old, rid)]} ⊆ E' ∧ E' ⊆ {[(index_key x new, rid)]} ∪ E ∧ (restorable x → E' = E).

Lemma undone_refl x (E : Entries) : undone x E E.
Proof. split; [set_solver|]. split; [set_solver|done]. Qed.

(** The undoing of an update that has deleted all old entries and inserted the new ones
    in [inserted]. *)
Lemma undo_update w0 w1 w2 w3 inserted rest : let l := inserted ++ rest in
  all_ok size w0 l → moved (removed old rid) l w0 w1 → moved (fresh_added new rid) inserted w1 w2 →
  sv_inv sv w3 → sv_files sv w3 = sv_files sv w2 → sv_trees sv w3 = sv_trees sv w2 →
  ∃ w4 w5, take_entries inserted new rid w3 = Some (tt, w4) ∧ put_entries l old rid w4 = Some (tt, w5) ∧ moved undone l w0 w5.
Proof.
  intros l H M1 M2 I Ef Et. destruct H as (I0 & Ho0 & Hnd). assert (all_ok size w0 l) as H by done.
  pose proof (moved_trans _ _ (fresh_added new rid) inserted w1 w2 w3 M2
    (moved_same (λ _ E E', E' = E) inserted w2 w3 I Ef Et ltac:(done)) ltac:(by intros x E1 E2 E3 _ ? ->)) as M3.
  pose proof (all_ok_moved size _ _ _ _ _ M1 H) as H1. destruct (all_ok_app _ _ _ _ H1) as [Hin1 _].
  pose proof (all_ok_moved size _ _ _ _ _ M3 Hin1) as Hin3. pose proof (all_ok_moved size _ _ _ _ _ M3 H1) as H3.
  destruct (take_entries_run size new rid Hn w3 inserted Hin3) as (w4 & E4 & M4).
  destruct (put_entries_run size old rid Ho w4 l (all_ok_moved size _ _ _ _ _ M4 H3)) as (w5 & E5 & M5).
  exists w4, w5. split; [exact E4|]. split; [exact E5|].
  set (R x (E E' : Entries) := E ⊆ E' ∧ E' ⊆ {[(index_key x new, rid)]} ∪ E ∧ (takes_out size new rid x → E' = E)).
  assert (moved R inserted w1 w4) as M14.
  { eapply moved_trans; [exact M3|exact M4|]. unfold fresh_added, added, taken, R. intros x E1 E2 E3 _ [Hf ->] [Hor Ht]. split_and!; [|set_solver|].
    - destruct Hor as [-> | ->]; set_solver.
    - intros Hx. rewrite (Ht Hx) by set_solver. set_solver. }
  assert (moved R l w1 w4) as M14'.
  { eapply moved_more; [exact M14|intros x E _ _; split; [done|split; [set_solver|done]]| |intros y Hy; apply elem_of_app; by left].
    intros y z Hy Hz. apply (handles_distinct l Hnd); [apply elem_of_app; by left|done]. }
  eapply moved_trans; [exact M1|eapply (moved_trans _ _ (λ x E E', ∃ F, R x E F ∧ put size old rid x F E')); [exact M14'|exact M5|by eauto]|].
  unfold removed, R, put, added, undone, restorable. intros x E1 E2 E3 _ [Hin ->] (F & (F1 & F2 & F3) & Hor & Hput). split_and!.
  - destruct Hor as [-> | ->]; set_solver.
  - destruct Hor as [-> | ->]; set_solver.
  - intros [Hp Ht]. rewrite (Hput Hp), (F3 Ht). by apply put_back.
Qed.

(** The first loop of an update, which puts back what it has deleted when an index
    refuses. *)
Lemma delete_old_run w0 w l deleted : all_ok size w0 (deleted ++ l) → (∀ x, x ∈ l → has_entry old rid w0 x) → moved (removed old rid) deleted w0 w →
  ∃ rc w', delete_old_entries l deleted old rid w = Some (rc, w') ∧
    (rc = RC.SUCCESS ∧ moved (removed old rid) (deleted ++ l) w0 w' ∨ rc ≠ RC.SUCCESS ∧ moved undone (deleted ++ l) w0 w').
Proof.
  revert w deleted. induction l as [|x l IH]; intros w deleted H Hhas M; cbn [delete_old_entries].
  - rewrite app_nil_r. exists RC.SUCCESS, w. split; [done|]. by left.
  - destruct (all_ok_app _ _ _ _ H) as [Hd Hxl]. pose proof (all_ok_moved size _ _ w0 w _ M Hxl) as Hxl'. destruct (all_ok_cons _ _ _ _ Hxl') as (Ox & Hl & _).
    destruct (delete_call w size x old rid (proj1 Hxl') Ox Ho) as (rc & w1 & E & F & [[-> M1]|[Hrc Et]]); rewrite (exec E).
    + change (RC.OB_FAIL RC.SUCCESS) with false. cbn iota.
      replace (deleted ++ x :: l) with ((deleted ++ [x]) ++ l) in * by (by rewrite <-app_assoc). apply IH; [done|intros y Hy; apply Hhas; by right|].
      eapply moved_app; [|exact M|exact M1]. destruct H as (_ & _ & Hnd). rewrite fmap_app in Hnd. by apply list.NoDup_app in Hnd as (? & _ & _).
    + unfold RC.OB_FAIL. rewrite bool_decide_eq_true_2 by done.
      pose proof (moved_trans _ _ (removed old rid) deleted w0 w w1 M
        (moved_same (λ _ E E', E' = E) deleted w w1 (sf_inv F) (sf_files F) Et ltac:(done)) ltac:(by intros y E1 E2 E3 _ ? ->)) as M1.
      destruct (put_entries_run size old rid Ho w1 deleted) as (w2 & E2 & M2); [by eapply all_ok_moved|].
      rewrite (exec E2). exists rc, w2. split; [done|]. right. split; [done|].
      eapply moved_more; [eapply moved_trans; [exact M1|exact M2|]|intros; apply undone_refl| |intros y Hy; apply elem_of_app; by left].
      * unfold removed, put, added, undone, restorable. intros y E0 E1 E3 _ [Hin ->] (Hor & Hput). split_and!.
        { destruct Hor as [-> | ->]; set_solver. }
        { destruct Hor as [-> | ->]; set_solver. }
        { intros [Hp _]. rewrite (Hput Hp). by apply put_back. }
      * intros y z Hy Hz. destruct H as (_ & _ & Hnd). apply (handles_distinct _ Hnd); [apply elem_of_app; by left|done].
Qed.

(** The second loop, which takes back what it has inserted and puts back what was
    deleted when an index refuses a key. *)
Lemma insert_new_run w0 w1 w l inserted : all_ok size w0 (inserted ++ l) → moved (removed old rid) (inserted ++ l) w0 w1 → moved (fresh_added new rid) inserted w1 w →
  ∃ rc w', insert_new_entries l inserted (inserted ++ l) old new rid rid w = Some (rc, w') ∧
    (rc = RC.SUCCESS ∧ moved (fresh_added new rid) (inserted ++ l) w1 w' ∨ rc ≠ RC.SUCCESS ∧ moved undone (inserted ++ l) w0 w').
Proof.
  revert w inserted. induction l as [|x l IH]; intros w inserted H M0 M; cbn [insert_new_entries].
  - rewrite app_nil_r. exists RC.SUCCESS, w. split; [done|]. by left.
  - pose proof (all_ok_moved size _ _ w0 w1 _ M0 H) as H1.
    destruct (all_ok_app _ _ _ _ H1) as [Hi Hxl]. pose proof (all_ok_moved size _ _ w1 w _ M Hxl) as Hxl'. destruct (all_ok_cons _ _ _ _ Hxl') as (Ox & Hl & _).
    destruct (insert_call w size x new rid (proj1 Hxl') Ox Hn) as (rc & w2 & E & F & [[-> M1]|[Hrc Et]]); rewrite (exec E).
    + change (RC.OB_FAIL RC.SUCCESS) with false. cbn iota.
      replace (inserted ++ x :: l) with ((inserted ++ [x]) ++ l) in * by (by rewrite <-app_assoc). apply IH; [done|done|].
      eapply moved_app; [|exact M|exact M1]. destruct H as (_ & _ & Hnd). rewrite fmap_app in Hnd. by apply list.NoDup_app in Hnd as (? & _ & _).
    + unfold RC.OB_FAIL. rewrite bool_decide_eq_true_2 by done.
      destruct (undo_update w0 w1 w w2 inserted (x :: l) H M0 M (sf_inv F) (sf_files F) Et) as (w4 & w5 & E4 & E5 & M5).
      rewrite (exec E4), (exec E5). exists rc, w5. split; [done|]. by right.
Qed.
End update.

(** An index of the table was called, or holds what it held. *)
Lemma called_or_not T (R : BplusTreeIndex → Entries → Entries → Prop) l w w' x i : NoDup (index_handler_ <$> indexes_ T) → (∀ y, y ∈ l → y ∈ indexes_ T) →
  moved R l w w' → x ∈ indexes_ T → index_handler_ x = Some i →
  x ∈ l ∧ R x (entries_of w i) (entries_of w' i) ∨ x ∉ l ∧ entries_of w' i = entries_of w i.
Proof.
  intros Hd Hsub M Hx Hi. destruct (decide (Some i ∈ index_handler_ <$> l)) as [(z & Hz & Hzl)%list_elem_of_fmap|Hn].
  - assert (z = x) as -> by (apply (handles_distinct _ Hd); [by apply Hsub|done|congruence]). left. split; [done|]. by apply (mv_in _ _ _ _ M).
  - right. split; [|by apply (mv_out _ _ _ _ M)]. intros Hxl. apply Hn. rewrite <-Hi. by apply list_elem_of_fmap_2.
Qed.

Definition rekeyed rid (old new : list Z) x (E E' : Entries) : Prop := E' = {[(index_key x new, rid)]} ∪ E ∖ {[(index_key x old, rid)]}.
Lemma update_done w w1 w2 w3 T σ f l rid old new : table_ok w T σ → record_handler_ T = Some f → σ !! rid = Some old → length new = length old →
  (∀ x, x ∈ l ↔ x ∈ indexes_ T ∧ key_changes old new x) →
  moved (removed old rid) l w w1 → moved (fresh_added new rid) l w1 w2 → sv_inv sv w3 → sv_trees sv w3 = sv_trees sv w2 →
  sv_files sv w3 = <[f := <[rid := new]> σ]> (sv_files sv w2) → table_ok w3 T (<[rid := new]> σ) ∧ elsewhere T w w3.
Proof.
  intros Tk Hf Hr Hlen Hl M1 M2 I Et Ef. assert (∀ x, x ∈ l → x ∈ indexes_ T) as Hsub by (intros x Hx; by apply Hl).
  pose proof (tk_size _ _ _ _ Tk rid old Hr) as Hsz.
  assert (moved (rekeyed rid old new) l w w2) as M by (eapply moved_trans; [exact M1|exact M2|]; by intros x E1 E2 E3 _ [_ ->] [_ ->]).
  assert (elsewhere T w w3) as E by (eapply elsewhere_trans; [by eapply elsewhere_moved|by eapply elsewhere_file]). split; [|done].
  eapply (table_rebuild _ _ w); [exact Tk|done|done| | |].
  - intros f' Hf'. assert (f' = f) as -> by congruence. rewrite Ef. apply lookup_insert_eq.
  - intros rid' r' [[_ <-]|[_ Hr']]%lookup_insert_Some; [lia|by eapply (tk_size _ _ _ _ Tk)].
  - intros x i Hx Hi. rewrite (entries_same w2 w3 Et).
    destruct (called_or_not T _ l w w2 x i (tk_distinct _ _ _ _ Tk) Hsub M Hx Hi) as [[_ ->]|[Hxl ->]].
    + split.
      * intros k rid' [[= -> ->]%elem_of_singleton|[Hk Hne]%elem_of_difference]%elem_of_union; [exists new; by rewrite lookup_insert_eq|].
        destruct (tk_sound _ _ _ _ Tk x i k rid' Hx Hi Hk) as (r' & Hr' & ->). exists r'. split; [|done]. rewrite lookup_insert_ne; [done|].
        intros <-. apply Hne. rewrite Hr in Hr'. injection Hr' as ->. by apply elem_of_singleton.
      * intros rid' r' [[<- <-]|[Hne Hr']]%lookup_insert_Some _; [set_solver|]. apply elem_of_union_r, elem_of_difference.
        split; [by eapply (tk_complete _ _ _ _ Tk)|]. by intros [= _ ->]%elem_of_singleton.
    + assert (index_key x new = index_key x old) as Hk.
      { symmetry. eapply (same_bytes_same_key w); [by apply (tk_open _ _ _ _ Tk)|lia|lia|]. apply dec_stable. intros Hc. apply Hxl, Hl. by split. }
      split.
      * intros k rid' Hin. destruct (tk_sound _ _ _ _ Tk x i k rid' Hx Hi Hin) as (r' & Hr' & ->). destruct (decide (rid' = rid)) as [->|Hne].
        { exists new. rewrite lookup_insert_eq. split; [done|]. congruence. }
        { exists r'. by rewrite lookup_insert_ne. }
      * intros rid' r' [[<- <-]|[Hne Hr']]%lookup_insert_Some _; [rewrite Hk|]; by eapply (tk_complete _ _ _ _ Tk).
Qed.

(** What an update that failed leaves of the indexes. *)
Definition update_undone rid (old new : list Z) T w w' : Prop :=
  ∀ x i, x ∈ indexes_ T → index_handler_ x = Some i →
    entries_of w' i = entries_of w i ∨ key_changes old new x ∧ undone (tm_record_size (table_meta_ T)) rid old new x (entries_of w i) (entries_of w' i).

Lemma update_failed w w' T σ l rid old new : table_ok w T σ → (∀ x, x ∈ l ↔ x ∈ indexes_ T ∧ key_changes old new x) →
  moved (undone (tm_record_size (table_meta_ T)) rid old new) l w w' →
  elsewhere T w w' ∧ sv_files sv w' = sv_files sv w ∧ update_undone rid old new T w w' ∧
    ((∀ x, x ∈ indexes_ T → restorable (tm_record_size (table_meta_ T)) rid old new x) → table_ok w' T σ).
Proof.
  intros Tk Hl M. assert (∀ x, x ∈ l → x ∈ indexes_ T) as Hsub by (intros x Hx; by apply Hl).
  assert (elsewhere T w w') as E by by eapply elsewhere_moved. split; [done|]. split; [apply M|].
  assert (update_undone rid old new T w w') as U.
  { intros x i Hx Hi. destruct (called_or_not T _ l w w' x i (tk_distinct _ _ _ _ Tk) Hsub M Hx Hi) as [[Hxl Hu]|[_ ?]]; [right|by left].
    split; [by apply Hl|done]. }
  split; [done|]. intros Hrest. eapply (table_rebuild _ _ w); [exact Tk|done|apply M| |apply (tk_size _ _ _ _ Tk)|].
  - intros f Hf. rewrite (mv_files _ _ _ _ M). destruct (tk_file _ _ _ _ Tk) as (f' & Hf' & _ & ?). congruence.
  - intros x i Hx Hi. assert (entries_of w' i = entries_of w i) as ->.
    { destruct (U x i Hx Hi) as [?|(_ & _ & _ & Hu)]; [done|]. by apply Hu, Hrest. }
    split; [intros k rid' Hk; by apply (tk_sound _ _ _ _ Tk x i)|]. intros rid' r' Hr' _. by eapply (tk_complete _ _ _ _ Tk).
Qed.

End table.

Section create.
Context {W : Type} `{!Storage W, !StorageLaws W, !TreesReturn W}.
Implicit Types (w : W) (x : BplusTreeIndex) (T : HeapTable) (rid : RID) (r : list Z) (σ : Records).

(** At most the tree [i] was changed. *)
Record only (i : IndexId) w w' : Prop := {
  on_inv : sv_inv sv w';
  on_files : sv_files sv w' = sv_files sv w;
  on_kind : kinds_kept w w';
  on_entries j : j ≠ i → entries_of w' j = entries_of w j
}.

Lemma only_trans i w1 w2 w3 : only i w1 w2 → only i w2 w3 → only i w1 w3.
Proof.
  intros [I1 F1 K1 E1] [I2 F2 K2 E2]. split; [done|congruence| |].
  - by eapply kinds_trans.
  - intros j Hj. by rewrite E2, E1.
Qed.

Lemma only_same i w w' : sv_inv sv w' → sv_files sv w' = sv_files sv w → sv_trees sv w' = sv_trees sv w → only i w w'.
Proof. intros I F E. split; [done|done|by apply kinds_same|intros j _; by apply entries_same]. Qed.

Lemma only_moved R x i w w' : index_handler_ x = Some i → moved R [x] w w' → only i w w'.
Proof.
  intros Hi M. split; [apply (mv_inv _ _ _ _ M)|apply (mv_files _ _ _ _ M)|apply (mv_kind _ _ _ _ M)|].
  intros j Hj. apply (mv_out _ _ _ _ M). cbn. intros Hx%list_elem_of_singleton. congruence.
Qed.

Definition row_entry x (row : RID * list Z) : list Z * RID := (index_key x row.2, row.1).

Lemma populate_run fuel size x i sc f l w : index_handler_ x = Some i → sv_inv sv w → index_ok w size x → sv_scan sv w sc f l →
  (∀ row, row ∈ l → size ≤ Z.of_nat (length row.2)) → (length l < fuel)%nat →
  ∃ res w', populate fuel x sc w = Some (res, w') ∧ only i w w' ∧
    match res with
    | inl rc => rc ≠ RC.SUCCESS
    | inr (rc, sc') => rc ≠ RC.SUCCESS ∧ (rc = RC.RECORD_EOF → sv_scan sv w' sc' f [] ∧ entries_of w' i = list_to_set (row_entry x <$> l) ∪ entries_of w i)
    end.
Proof.
  intros Hi. revert fuel sc w. induction l as [|[rid r] l IH]; intros [|fuel] sc w I Ox Hsc Hl Hfuel; cbn in Hfuel; try lia; cbn [populate].
  - destruct (sl_next _ w sc f [] I Hsc) as (rc & row & sc' & w1 & E & I1 & F1 & T1 & Hres). rewrite (exec E).
    destruct Hres as [(_ & r & l' & [=] & _)|Hres]. assert (rc ≠ RC.SUCCESS) as Hrc by (by destruct Hres as [(-> & _)|[? _]]).
    unfold RC.OB_SUCC. rewrite bool_decide_eq_false_2 by done. exists (inr (rc, sc')), w1. split; [done|]. split; [by apply only_same|]. split; [done|].
    intros ->. destruct Hres as [(_ & _ & Hs)|[_ ?]]; [|done]. split; [done|]. rewrite (entries_same w w1 T1). cbn. set_solver.
  - destruct (sl_next _ w sc f _ I Hsc) as (rc & row & sc' & w1 & E & I1 & F1 & T1 & Hres). rewrite (exec E). pose proof (only_same i w w1 I1 F1 T1) as O1.
    destruct Hres as [(-> & r0 & l' & [= <- <-] & -> & Hs)|Hres].
    2: { assert (rc ≠ RC.SUCCESS ∧ rc ≠ RC.RECORD_EOF) as [Hrc Hne] by (by destruct Hres as [(_ & ? & _)|?]).
         unfold RC.OB_SUCC. rewrite bool_decide_eq_false_2 by done. exists (inr (rc, sc')), w1. split; [done|]. split; [done|]. by split. }
    change (RC.OB_SUCC RC.SUCCESS) with true. cbn iota. rewrite (exec (m := deref (Some (rid, r))) (s := w1) (a := (rid, r)) (s1 := w1) eq_refl).
    pose proof (index_ok_kept _ _ _ _ (on_kind _ _ _ O1) Ox) as Ox1.
    destruct (insert_call w1 size x r rid I1 Ox1) as (rc & w2 & E2 & F & Hcall); [apply (Hl (rid, r)); left|]. rewrite (exec E2).
    destruct Hcall as [[-> M]|[Hrc Et]].
    + rewrite bool_decide_eq_false_2 by auto. pose proof (only_moved _ x i w1 w2 Hi M) as O2.
      destruct (IH fuel sc' w2) as (res & w3 & E3 & O3 & Hfin); [apply (on_inv _ _ _ O2)|by eapply index_ok_kept; [apply (on_kind _ _ _ O2)|]| |intros row Hrow; apply Hl; by right|lia|].
      { by apply (sf_scan F). }
      exists res, w3. split; [done|]. split; [eapply only_trans; [exact O1|by eapply only_trans]|]. destruct res as [rc|[rc sc3]]; [done|].
      destruct Hfin as [Hrc Heof]. split; [done|]. intros Hrc'. destruct (Heof Hrc') as [Hs3 ->]. split; [done|].
      destruct (mv_in _ _ _ _ M x i ltac:(left) Hi) as [_ ->]. rewrite (entries_same w w1 T1). cbn. set_solver.
    + rewrite bool_decide_eq_true_2 by done. exists (inl rc), w2. split; [done|]. split; [|done].
      eapply only_trans; [exact O1|]. by apply only_same; [apply (sf_inv F)|apply (sf_files F)|].
Qed.

(** ** The table with the index *)
(** The records that the scanner does not return. *)
Definition invisible (visible : list Z → option RC) σ : gset RID := dom (filter (λ kv : RID * list Z, visible kv.2 ≠ Some RC.SUCCESS) σ).

Lemma invisible_spec visible σ rid r : σ !! rid = Some r → rid ∉ invisible visible σ → visible r = Some RC.SUCCESS.
Proof.
  intros Hr Hn. destruct (decide (visible r = Some RC.SUCCESS)) as [?|Hv]; [done|]. exfalso. apply Hn. unfold invisible.
  apply elem_of_dom. exists r. by apply map_lookup_filter_Some.
Qed.

Lemma seen_rows_length visible σ l : seen_rows visible σ l → (length l ≤ size σ)%nat.
Proof.
  intros [Hnd Hl]. rewrite <-(length_fmap fst l), <-(size_list_to_set (C:=gset RID) _ Hnd), <-(size_dom (D:=gset RID) σ).
  apply subseteq_size. intros rid (row & -> & Hrow)%elem_of_list_to_set%list_elem_of_fmap. destruct row as [rid r]. apply elem_of_dom. exists r. by apply Hl.
Qed.

Lemma table_mono m m' w T σ : m ⊆ m' → table_but m w T σ → table_but m' w T σ.
Proof. intros Hm [? ? ? ? ? ? ? Hc]. split; try done. intros x i rid r Hx Hi Hr Hn. apply (Hc x i rid r); [done..|]. set_solver. Qed.

Lemma table_kept m w w' T σ i : table_but m w T σ → only i w w' → Some i ∉ index_handler_ <$> indexes_ T → table_but m w' T σ.
Proof.
  intros [I (f & Hf1 & Hf2 & Hf3) Hs Ho Hd Hfi Hso Hco] O Hi.
  assert (∀ x j, x ∈ indexes_ T → index_handler_ x = Some j → entries_of w' j = entries_of w j) as He.
  { intros x j Hx Hj. apply (on_entries _ _ _ O). intros ->. apply Hi. rewrite <-Hj. by apply list_elem_of_fmap_2. }
  split; [apply (on_inv _ _ _ O)|exists f; by rewrite (on_files _ _ _ O)|done| |done|done| |].
  - intros x Hx. eapply index_ok_kept; [apply (on_kind _ _ _ O)|auto].
  - intros x j k rid Hx Hj. rewrite (He x j Hx Hj). eauto.
  - intros x j rid r Hx Hj. rewrite (He x j Hx Hj). eauto.
Qed.

(** A tree that was not there is not one of the table's. *)
Lemma handle_fresh m w T σ i : table_but m w T σ → sv_trees sv w !! i = None → Some i ∉ index_handler_ <$> indexes_ T.
Proof.
  intros Tk Hi (x & Hx & Hin)%list_elem_of_fmap. destruct (io_handle _ _ _ (tk_open _ _ _ _ Tk x Hin)) as (j & t & Hj & Ht & _). congruence.
Qed.

(** The new index has joined the table, in memory and perhaps in its metadata. *)
Definition joined T x (m : TableMeta) (T' : HeapTable) : Prop :=
  indexes_ T' = indexes_ T ++ [x] ∧ record_handler_ T' = record_handler_ T ∧ data_buffer_pool_ T' = data_buffer_pool_ T ∧
  table_meta_ T' = m ∧ tm_record_size m = tm_record_size (table_meta_ T) ∧ tm_fields m = tm_fields (table_meta_ T).

Lemma table_joined w T T' σ x m i visible l : table_ok w T σ → joined T x m T' → index_handler_ x = Some i → Some i ∉ index_handler_ <$> indexes_ T →
  index_ok w (tm_record_size (table_meta_ T)) x → field_by_name (table_meta_ T) (im_field (index_meta_ x)) = Some (field_meta_ x) →
  seen_rows visible σ l → entries_of w i = list_to_set (row_entry x <$> l) → table_but (invisible visible σ) w T' σ.
Proof.
  intros [I (f & Hf1 & Hf2 & Hf3) Hs Ho Hd Hfi Hso Hco] (J1 & J2 & J3 & J4 & J5 & J6) Hi Hn Ox Hfx [_ Hl] He.
  assert (∀ name, field_by_name (table_meta_ T') name = field_by_name (table_meta_ T) name) as Hname by (intros name; unfold field_by_name; by rewrite J4, J6).
  assert (∀ y, y ∈ indexes_ T' → y ∈ indexes_ T ∨ y = x) as Hin by (intros y; rewrite J1; set_solver).
  split; [done|exists f; by rewrite J2, J3|rewrite J4, J5; done| | | | |].
  - intros y [Hy| ->]%Hin; rewrite J4, J5; [by apply Ho|done].
  - rewrite J1, fmap_app. apply list.NoDup_app. split; [done|]. split; [|cbn; apply list.NoDup_singleton]. intros j Hj. cbn. rewrite Hi. set_solver.
  - intros y [Hy| ->]%Hin; rewrite Hname; [by apply Hfi|done].
  - intros y j k rid [Hy| ->]%Hin Hj; [by eapply Hso|]. assert (j = i) as -> by congruence. rewrite He.
    intros ([rid' r] & [= -> ->] & Hrow)%elem_of_list_to_set%list_elem_of_fmap. exists r. split; [|done]. by apply Hl.
  - intros y j rid r [Hy| ->]%Hin Hj Hr Hv; [eapply Hco; [done|done|done|set_solver]|]. assert (j = i) as -> by congruence. rewrite He.
    apply elem_of_list_to_set, list_elem_of_fmap. exists (rid, r). split; [done|]. apply Hl. split; [done|]. by eapply invisible_spec.
Qed.
(** The entries of the new index are those of the rows that were returned. *)
Lemma rows_indexed w σ x i visible l : seen_rows visible σ l → entries_of w i = list_to_set (row_entry x <$> l) →
  ∀ k rid, (k, rid) ∈ entries_of w i ↔ ∃ r, σ !! rid = Some r ∧ visible r = Some RC.SUCCESS ∧ k = index_key x r.
Proof.
  intros [_ Hl] He k rid. rewrite He, elem_of_list_to_set, list_elem_of_fmap. split.
  - intros ([rid' r] & [= -> ->] & Hrow). exists r. apply Hl in Hrow as [? ?]. done.
  - intros (r & Hr & Hv & ->). exists (rid, r). split; [done|]. by apply Hl.
Qed.

(** What becomes of the metadata file. *)
Definition meta_written (io : MetaFile) : bool := mf_is_open io && negb (mf_serialized io <? 0) && (mf_rename io =? 0).

Lemma create_run w T σ fm n base_dir : table_ok w T σ →
  sv_key_ok sv (fm_type fm) (fm_len fm) → 0 ≤ fm_offset fm ∧ 0 < fm_len fm ∧ fm_offset fm + fm_len fm ≤ tm_record_size (table_meta_ T) →
  ∃ rc x w1, index_create new_index (table_index_file base_dir (tm_name (table_meta_ T)) n) (mkIndexMeta n (fm_name fm)) fm w = Some ((rc, x), w1) ∧
    (rc ≠ RC.SUCCESS ∧ table_ok w1 T σ ∨
     rc = RC.SUCCESS ∧ table_ok w1 T σ ∧ ∃ i, x = mkIndex true (mkIndexMeta n (fm_name fm)) fm (Some i) ∧ Some i ∉ index_handler_ <$> indexes_ T ∧
       index_ok w1 (tm_record_size (table_meta_ T)) x ∧ entries_of w1 i = ∅).
Proof.
  intros Tk Hft Hfm. unfold index_create. cbn [inited_ new_index].
  destruct (sl_create _ w (table_index_file base_dir (tm_name (table_meta_ T)) n) (fm_type fm) (fm_len fm) (tk_inv _ _ _ _ Tk)) as (rc & i & w1 & E & F & Hres).
  rewrite (exec E). destruct Hres as [(-> & Hi & Et)|[Hrc Et]].
  - rewrite bool_decide_eq_false_2 by auto. pose proof (handle_fresh _ _ _ _ _ Tk Hi) as Hn. destruct (entries_of_insert w w1 i _ Et) as [E1 E2].
    eexists _, _, w1. split; [reflexivity|]. right. split; [done|]. split; [|exists i; split_and!; try done].
    + eapply (table_kept _ w w1 T σ i); [done| |done]. split; [apply (sf_inv F)|apply (sf_files F)| |done].
      intros j u Hu. exists u. rewrite Et, lookup_insert_ne by congruence. done.
    + split; [|done|done]. exists i, (mkBTree (fm_type fm) (fm_len fm) ∅). rewrite Et, lookup_insert_eq. done.
  - rewrite bool_decide_eq_true_2 by done. eexists rc, _, w1. split; [reflexivity|]. left. split; [done|].
    destruct (tk_file _ _ _ _ Tk) as (f & Hf & _). eapply (table_rebuild _ _ w); [exact Tk| |apply (sf_inv F)| |apply (tk_size _ _ _ _ Tk)|].
    + apply elsewhere_same; [done|apply (sf_files F)].
    + intros f' Hf'. rewrite (sf_files F). destruct (tk_file _ _ _ _ Tk) as (f2 & Hf2 & _ & ?). congruence.
    + intros y j Hy Hj. rewrite (entries_same w w1 Et). split; [intros k rid Hk; by apply (tk_sound _ _ _ _ Tk y j)|intros rid r; by apply (tk_complete _ _ _ _ Tk)].
Qed.

End create.
