(* ===== verification/HeapTableTrx.v ===== *)
(** * Heap tables under transactions

    The heap tables of a database keep what transactions rely on ([TablesLaws]), as long
    as there are frames for their pages ([ReliableStorage]): so the theorems on
    transactions hold of them. *)

From stdpp Require Import strings.
From S2P Require Import Prelude Types Bytes RecordPage IndexKey TableMeta Mvcc MvccSpec HeapTable HeapTableSpec HeapTableOps.
Local Open Scope Z_scope.

Section tables.
Context {W : Type} `{!Storage W, !StorageLaws W, !TreesReturn W, !ReliableStorage W}.
Notation TW := (TableWorld W).
Implicit Types (s : TW) (w : W) (T : HeapTable) (σ : Records) (t : TableId) (rid : RID) (r : list Z).

(** The records of a table. *)
Definition records_of w T : Records := default ∅ (record_handler_ T ≫= λ f, sv_files sv w !! f).

(** The tables are consistent and share nothing, and no index is on the ids of
    transactions. *)
Record tables_inv s : Prop := {
  ti_table t T : tw_tables s !! t = Some T → table_ok (tw_world s) T (records_of (tw_world s) T);
  ti_world : sv_inv sv (tw_world s);
  ti_apart t1 t2 T1 T2 : tw_tables s !! t1 = Some T1 → tw_tables s !! t2 = Some T2 → t1 ≠ t2 → apart T1 T2;
  ti_index t T x : tw_tables s !! t = Some T → x ∈ indexes_ T → 8 ≤ fm_offset (field_meta_ x)
}.

Definition tables_seen : tables_view TW := {|
  tv_inv := tables_inv;
  tv_recs s := map_uncurry (M12:=gmap (TableId * RID)) (records_of (tw_world s) <$> tw_tables s);
  tv_bare t s := ∀ T, tw_tables s !! t = Some T → indexes_ T = []
|}.

Lemma records_of_ok m w T σ : table_but m w T σ → records_of w T = σ.
Proof. intros Tk. destruct (tk_file _ _ _ _ Tk) as (f & Hf & _ & Hσ). unfold records_of. rewrite Hf. cbn. by rewrite Hσ. Qed.

Lemma seen_lookup s t T rid : tw_tables s !! t = Some T → tv_recs tables_seen s !! (t, rid) = records_of (tw_world s) T !! rid.
Proof. intros Ht. cbn. rewrite lookup_map_uncurry, lookup_fmap, Ht. done. Qed.

Lemma seen_none s t rid : tw_tables s !! t = None → tv_recs tables_seen s !! (t, rid) = None.
Proof. intros Ht. cbn. rewrite lookup_map_uncurry, lookup_fmap, Ht. done. Qed.

Lemma seen_table s k r : tv_recs tables_seen s !! k = Some r → ∃ T, tw_tables s !! k.1 = Some T ∧ records_of (tw_world s) T !! k.2 = Some r.
Proof.
  destruct k as [t rid]. intros Hr. destruct (tw_tables s !! t) as [T|] eqn:Ht.
  - exists T. by rewrite (seen_lookup s t T rid Ht) in Hr.
  - by rewrite (seen_none s t rid Ht) in Hr.
Qed.

(** A call on the table [t] that leaves it consistent with the records [σ]. *)
Lemma after_call s t T w' σ : tables_inv s → tw_tables s !! t = Some T → elsewhere T (tw_world s) w' → table_ok w' T σ →
  let s' := mkTableWorld w' (tw_tables s) in same_tables tables_seen s s' ∧
    (∀ rid, tv_recs tables_seen s' !! (t, rid) = σ !! rid) ∧ (∀ k, k.1 ≠ t → tv_recs tables_seen s' !! k = tv_recs tables_seen s !! k).
Proof.
  intros I Ht Ew Tk s'. assert (∀ t2 T2, tw_tables s !! t2 = Some T2 → t2 ≠ t → table_ok w' T2 (records_of (tw_world s) T2)) as Hother.
  { intros t2 T2 Ht2 Hne. eapply table_elsewhere; [exact (ti_apart _ I t2 t T2 T Ht2 Ht Hne)|exact Ew|apply (tk_inv _ _ _ _ Tk)|exact (ti_table _ I t2 T2 Ht2)]. }
  split; [split; [split|done|done]|split].
  - intros t2 T2 Ht2. cbn in Ht2 |- *. destruct (decide (t2 = t)) as [->|Hne].
    + assert (T2 = T) as -> by congruence. by rewrite (records_of_ok _ _ _ _ Tk).
    + pose proof (Hother t2 T2 Ht2 Hne) as Tk2. by rewrite (records_of_ok _ _ _ _ Tk2).
  - apply (tk_inv _ _ _ _ Tk).
  - apply (ti_apart _ I).
  - apply (ti_index _ I).
  - intros rid. rewrite (seen_lookup s' t T) by done. cbn. by rewrite (records_of_ok _ _ _ _ Tk).
  - intros [t2 rid] Hne. cbn in Hne. destruct (tw_tables s !! t2) as [T2|] eqn:Ht2.
    + rewrite (seen_lookup s' t2 T2), (seen_lookup s t2 T2) by done. cbn. by rewrite (records_of_ok _ _ _ _ (Hother t2 T2 Ht2 Hne)).
    + by rewrite !seen_none.
Qed.

(** As an equation between the maps. *)
Lemma recs_after s s' t σ (f : gmap (TableId * RID) (list Z)) : (∀ rid, tv_recs tables_seen s' !! (t, rid) = σ !! rid) →
  (∀ k, k.1 ≠ t → tv_recs tables_seen s' !! k = tv_recs tables_seen s !! k) →
  (∀ rid, f !! (t, rid) = σ !! rid) → (∀ k, k.1 ≠ t → f !! k = tv_recs tables_seen s !! k) → tv_recs tables_seen s' = f.
Proof.
  intros H1 H2 H3 H4. apply map_eq. intros [t2 rid]. destruct (decide (t2 = t)) as [->|Hne]; [by rewrite H1, H3|].
  by rewrite (H2 (t2, rid) Hne), (H4 (t2, rid) Hne).
Qed.

Lemma table_same w w' T σ : table_ok w T σ → sv_inv sv w' → sv_trees sv w' = sv_trees sv w → sv_files sv w' = sv_files sv w → table_ok w' T σ.
Proof.
  intros Tk I Et Ef. eapply (table_rebuild _ _ w); [exact Tk|by apply elsewhere_same|done| |apply (tk_size _ _ _ _ Tk)|].
  - intros f Hf. rewrite Ef. destruct (tk_file _ _ _ _ Tk) as (f' & Hf' & _ & ?). congruence.
  - intros x i Hx Hi. rewrite (entries_same w w' Et). split; [intros k rid; by apply (tk_sound _ _ _ _ Tk)|intros rid r; by apply (tk_complete _ _ _ _ Tk)].
Qed.

(** Changing the transaction ids of a record changes no key. *)
Lemma visit_keeps w w' T σ f rid r r' : table_ok w T σ → record_handler_ T = Some f → σ !! rid = Some r → (∀ x, x ∈ indexes_ T → 8 ≤ fm_offset (field_meta_ x)) →
  length r' = length r → drop 8 r' = drop 8 r → sv_inv sv w' → sv_trees sv w' = sv_trees sv w → sv_files sv w' = <[f := <[rid := r']> σ]> (sv_files sv w) →
  table_ok w' T (<[rid := r']> σ) ∧ elsewhere T w w'.
Proof.
  intros Tk Hf Hr H8 Hl Hd I Et Ef. assert (elsewhere T w w') as Ew by by eapply elsewhere_file. split; [|done].
  assert (∀ x, x ∈ indexes_ T → index_key x r' = index_key x r) as Hk.
  { intros x Hx. unfold index_key. f_equal. replace (Z.to_nat (fm_offset (field_meta_ x))) with (8 + (Z.to_nat (fm_offset (field_meta_ x)) - 8))%nat by (specialize (H8 x Hx); lia).
    by rewrite <-!drop_drop, Hd. }
  eapply (table_rebuild _ _ w); [exact Tk|done|done| | |].
  - intros f' Hf'. assert (f' = f) as -> by congruence. rewrite Ef. apply lookup_insert_eq.
  - intros rid' q [[_ <-]|[_ Hq]]%lookup_insert_Some; [rewrite Hl|]; by eapply (tk_size _ _ _ _ Tk).
  - intros x i Hx Hi. rewrite (entries_same w w' Et). split.
    + intros k rid' Hin. destruct (tk_sound _ _ _ _ Tk x i k rid' Hx Hi Hin) as (q & Hq & ->). destruct (decide (rid' = rid)) as [->|Hne].
      * exists r'. rewrite lookup_insert_eq, Hk by done. split; [done|]. congruence.
      * exists q. by rewrite lookup_insert_ne.
    + intros rid' q [[<- <-]|[Hne Hq]]%lookup_insert_Some _; [rewrite Hk by done|]; by eapply (tk_complete _ _ _ _ Tk).
Qed.

#[global] Instance HeapTablesLaws : TablesLaws TW.
Proof.
  refine {| tv := tables_seen |}.
  - intros s t r meta I Hm Hlen. cbn in Hm. apply fmap_Some in Hm as (T & Ht & ->). pose proof (ti_table _ I t T Ht) as Tk.
    destruct (insert_record_ok (tw_world s) T _ r Tk Hlen) as (rc & rid & w' & E & Ew & Hres).
    assert (tb_insert_record t r s = Some ((rc, rid), mkTableWorld w' (tw_tables s))) as Er by (cbn; unfold with_table; rewrite Ht; cbn; by rewrite E).
    exists rc, rid, (mkTableWorld w' (tw_tables s)). split; [exact Er|]. destruct Hres as [(-> & Hn & Tk')|[Hrc Tk']].
    + destruct (after_call s t T w' _ I Ht Ew Tk') as (Hsame & H1 & H2). split; [done|]. left. split; [done|]. split; [by rewrite (seen_lookup s t T)|].
      eapply recs_after; [exact H1|exact H2| |].
      * intros rid'. destruct (decide (rid' = rid)) as [->|Hne]; [by rewrite !lookup_insert_eq|]. rewrite !lookup_insert_ne by congruence. by rewrite (seen_lookup s t T).
      * intros k Hk. by rewrite lookup_insert_ne by (intros <-; by cbn in Hk).
    + destruct (after_call s t T w' _ I Ht Ew Tk') as (Hsame & H1 & H2). split; [done|]. right. split; [done|].
      eapply recs_after; [exact H1|exact H2|intros rid'; by rewrite (seen_lookup s t T)|done].
  - intros s t rid r data I Hr Hdata. destruct (seen_table s _ r Hr) as (T & Ht & Hr'). cbn in Ht, Hr'. pose proof (ti_table _ I t T Ht) as Tk.
    destruct (delete_record_ok (tw_world s) T _ rid r data Tk Hr') as (w' & E & Tk' & Ew).
    { destruct Hdata as [->|[-> Hb]]; [by left|]. right. split; [done|]. by apply Hb. }
    destruct (after_call s t T w' _ I Ht Ew Tk') as (Hsame & H1 & H2).
    exists (mkTableWorld w' (tw_tables s)). split; [cbn; unfold with_table; rewrite Ht; cbn; by rewrite E|]. split; [done|].
    eapply recs_after; [exact H1|exact H2| |].
    + intros rid'. destruct (decide (rid' = rid)) as [->|Hne]; [by rewrite !lookup_delete_eq|]. rewrite !lookup_delete_ne by congruence. by rewrite (seen_lookup s t T).
    + intros k Hk. by rewrite lookup_delete_ne by (intros <-; by cbn in Hk).
  - intros s t rid I [m Hm]. cbn in Hm. apply fmap_Some in Hm as (T & Ht & _). pose proof (ti_table _ I t T Ht) as Tk.
    destruct (tk_file _ _ _ _ Tk) as (f & Hf & _ & Hσ). destruct (sl_get _ (tw_world s) f _ rid (ti_world _ I) Hσ) as (rc & w' & E & I' & Et & Ef & Hrc).
    assert (table_ok w' T (records_of (tw_world s) T)) as Tk' by by eapply table_same.
    destruct (after_call s t T w' _ I Ht (elsewhere_same T _ _ Et Ef) Tk') as (Hsame & H1 & H2).
    exists rc, (mkTableWorld w' (tw_tables s)). rewrite (seen_lookup s t T rid Ht). split; [|split; [done|split; [|done]]].
    + cbn. unfold with_table. rewrite Ht. cbn. unfold engine_get_record. rewrite Hf. rewrite (exec (m := deref (Some f)) (s := tw_world s) (a := f) (s1 := tw_world s) eq_refl). by rewrite E.
    + eapply recs_after; [exact H1|exact H2|intros rid'; by rewrite (seen_lookup s t T)|done].
  - intros A s t rid g r a b r' I Hr Hg Hb. destruct (seen_table s _ r Hr) as (T & Ht & Hr'). cbn in Ht, Hr'. pose proof (ti_table _ I t T Ht) as Tk.
    destruct (tk_file _ _ _ _ Tk) as (f & Hf & _ & Hσ).
    destruct (reliable_visit (tw_world s) f _ rid g r a b r' (ti_world _ I) Hσ Hr' Hg) as (w' & E & I' & Et & Ef); [intros ->; by apply Hb|].
    assert (tb_visit_record t rid g s = Some ((RC.SUCCESS, Some a), mkTableWorld w' (tw_tables s))) as Er.
    { cbn. unfold with_table. rewrite Ht. cbn. unfold engine_visit_record. rewrite Hf. rewrite (exec (m := deref (Some f)) (s := tw_world s) (a := f) (s1 := tw_world s) eq_refl). by rewrite E. }
    exists (mkTableWorld w' (tw_tables s)). split; [exact Er|]. destruct b.
    + destruct (Hb eq_refl) as [Hl Hd]. destruct (visit_keeps (tw_world s) w' T _ f rid r r' Tk Hf Hr') as [Tk' Ew]; try done; [intros x; by apply (ti_index _ I t T)|].
      destruct (after_call s t T w' _ I Ht Ew Tk') as (Hsame & H1 & H2). split; [done|]. eapply recs_after; [exact H1|exact H2| |].
      * intros rid'. destruct (decide (rid' = rid)) as [->|Hne]; [by rewrite !lookup_insert_eq|]. rewrite !lookup_insert_ne by congruence. by rewrite (seen_lookup s t T).
      * intros k Hk. by rewrite lookup_insert_ne by (intros <-; by cbn in Hk).
    + assert (table_ok w' T (records_of (tw_world s) T)) as Tk' by by eapply table_same.
      destruct (after_call s t T w' _ I Ht (elsewhere_same T _ _ Et Ef) Tk') as (Hsame & H1 & H2). split; [done|].
      eapply recs_after; [exact H1|exact H2|intros rid'; by rewrite (seen_lookup s t T)|done].
  - intros A s t rid g I [m Hm] Hn. cbn in Hm. apply fmap_Some in Hm as (T & Ht & _). pose proof (ti_table _ I t T Ht) as Tk. rewrite (seen_lookup s t T rid Ht) in Hn.
    destruct (tk_file _ _ _ _ Tk) as (f & Hf & _ & Hσ). destruct (sl_visit_none _ (tw_world s) f _ rid g (ti_world _ I) Hσ Hn) as (rc & w' & E & Hrc & I' & Et & Ef).
    assert (table_ok w' T (records_of (tw_world s) T)) as Tk' by by eapply table_same.
    destruct (after_call s t T w' _ I Ht (elsewhere_same T _ _ Et Ef) Tk') as (Hsame & H1 & H2).
    exists rc, (mkTableWorld w' (tw_tables s)). split; [|split; [done|split; [done|]]].
    + cbn. unfold with_table. rewrite Ht. cbn. unfold engine_visit_record. rewrite Hf. rewrite (exec (m := deref (Some f)) (s := tw_world s) (a := f) (s1 := tw_world s) eq_refl). by rewrite E.
    + eapply recs_after; [exact H1|exact H2|intros rid'; by rewrite (seen_lookup s t T)|done].
Defined.
End tables.
