(* ===== verification/HeapTableDemo.v ===== *)
(** * Heap tables: a storage in memory

    Record files and trees as finite maps, for the examples, with calls that fail as they
    are told to: so the paths on which a table gives up can be run.  Without faults it is
    reliable. *)

From stdpp Require Import strings.
From S2P Require Import Prelude Types Bytes RecordPage IndexKey TableMeta Mvcc HeapTable HeapTableSpec HeapTableOps.
Local Open Scope Z_scope.

Module MemStorage.
Record Mem : Type := mkMem { files : gmap Z (gmap RID (list Z)); trees : gmap Z BTree; next : Z }.
Implicit Types (s : Mem) (f i : Z) (rid : RID).

(** Which calls fail: the insertion and the deletion of an entry of a tree, and changes of
    records. *)
Record Faults : Type := mkFaults { refuses : Z → list Z → bool; stuck : Z → list Z → bool; frozen : bool }.
Definition no_faults : Faults := mkFaults (λ _ _, false) (λ _ _, false) false.

Definition put_file f σ s : Mem := mkMem (<[f := σ]> (files s)) (trees s) (next s).
Definition put_tree i t s : Mem := mkMem (files s) (<[i := t]> (trees s)) (next s).

Definition insert f (r : list Z) (size : Z) : M Mem (RC * RID) := λ s,
  σ ← files s !! f;
  let rid := mkRID 1 (next s) in Some ((RC.SUCCESS, rid), mkMem (<[f := <[rid := r]> σ]> (files s)) (trees s) (next s + 1)).
Definition remove (F : Faults) f rid : M Mem RC := λ s,
  σ ← files s !! f;
  if frozen F then Some (RC.BUFFERPOOL_NOBUF, s) else
  match σ !! rid with None => Some (RC.RECORD_NOT_EXIST, s) | Some _ => Some (RC.SUCCESS, put_file f (delete rid σ) s) end.
Definition get f rid : M Mem (RC * option (list Z)) := λ s,
  σ ← files s !! f;
  Some (match σ !! rid with None => (RC.RECORD_NOT_EXIST, None) | Some r => (RC.SUCCESS, Some r) end, s).
Definition visit (F : Faults) {A} f rid (g : visitor A) : M Mem (RC * option A) := λ s,
  σ ← files s !! f;
  if frozen F then Some ((RC.BUFFERPOOL_NOBUF, None), s) else
  match σ !! rid with
  | None => Some ((RC.RECORD_NOT_EXIST, None), s)
  | Some r => '(a, (b, r')) ← g r; Some ((RC.SUCCESS, Some a), if b : bool then put_file f (<[rid := r']> σ) s else s)
  end.
Definition seen (visible : list Z → option RC) (σ : gmap RID (list Z)) : list (RID * list Z) :=
  map_to_list (filter (λ kv : RID * list Z, visible kv.2 = Some RC.SUCCESS) σ).
Definition mem_open_scan f (visible : list Z → option RC) : M Mem (RC * list (RID * list Z)) := λ s,
  σ ← files s !! f; Some ((RC.SUCCESS, seen visible σ), s).
Definition next_row (l : list (RID * list Z)) : M Mem (RC * option (RID * list Z) * list (RID * list Z)) := λ s,
  Some (match l with [] => (RC.RECORD_EOF, None, []) | r :: l => (RC.SUCCESS, Some r, l) end, s).

Definition create (name : string) (ty : AttrType) (len : Z) : M Mem (RC * Z) := λ s,
  Some ((RC.SUCCESS, next s), mkMem (files s) (<[next s := mkBTree ty len ∅]> (trees s)) (next s + 1)).
Definition key_of (ty : AttrType) (len : Z) (k : list Z) : list Z := take (Z.to_nat len) k.
Definition add_entry (F : Faults) i (k : list Z) rid : M Mem RC := λ s,
  t ← trees s !! i;
  let e := (key_of (bt_type t) (bt_len t) k, rid) in
  if refuses F i e.1 then Some (RC.BUFFERPOOL_NOBUF, s) else
  if decide (e ∈ bt_entries t) then Some (RC.RECORD_DUPLICATE_KEY, s)
  else Some (RC.SUCCESS, put_tree i (mkBTree (bt_type t) (bt_len t) ({[e]} ∪ bt_entries t)) s).
Definition drop_entry (F : Faults) i (k : list Z) rid : M Mem RC := λ s,
  t ← trees s !! i;
  let e := (key_of (bt_type t) (bt_len t) k, rid) in
  if stuck F i e.1 then Some (RC.BUFFERPOOL_NOBUF, s) else
  if decide (e ∈ bt_entries t) then Some (RC.SUCCESS, put_tree i (mkBTree (bt_type t) (bt_len t) (bt_entries t ∖ {[e]})) s)
  else Some (RC.RECORD_NOT_EXIST, s).
Definition succeed : M Mem RC := mret RC.SUCCESS.

Definition FaultyStorage (F : Faults) : Storage Mem := {|
  bpm_open_file _ := mret (RC.SUCCESS, 0);
  bp_flush_all_pages _ := succeed;
  rf_init _ _ := succeed;
  rf_insert_record := insert;
  rf_delete_record := remove F;
  rf_get_record := get;
  rf_visit_record := @visit F;
  scanner := list (RID * list Z);
  sc_open_scan := mem_open_scan;
  sc_next := next_row;
  sc_close_scan _ := succeed;
  bt_create := create;
  bt_open _ := mret (RC.FILE_NOT_EXIST, 0);
  bt_close _ := succeed;
  bt_insert_entry := add_entry F;
  bt_delete_entry := drop_entry F;
  bt_sync _ := succeed
|}.
#[global] Instance MemStorage : Storage Mem := FaultyStorage no_faults.

Record mem_inv s : Prop := {
  mi_rows f σ rid : files s !! f = Some σ → is_Some (σ !! rid) → rid_slot_num rid < next s;
  mi_trees i : is_Some (trees s !! i) → i < next s
}.
Definition mem_view F : @storage_view Mem (FaultyStorage F) := {|
  sv_inv := mem_inv;
  sv_files := files;
  sv_trees := trees;
  sv_key := key_of;
  sv_key_ok _ _ := True;
  sv_scan s (l : @scanner _ (FaultyStorage F)) f l' := l = l'
|}.

Lemma put_file_inv f σ σ' s : mem_inv s → files s !! f = Some σ → (∀ rid, is_Some (σ' !! rid) → is_Some (σ !! rid)) → mem_inv (put_file f σ' s).
Proof.
  intros [R T] Hf H. split; [|done]. cbn. intros f' σ0 rid [[<- <-]|[_ Hf']]%lookup_insert_Some; [intros Hr; eapply R; eauto|by eapply R].
Qed.

Lemma put_tree_same F i t t' s : mem_inv s → trees s !! i = Some t → @same_files _ (FaultyStorage F) (mem_view F) s (put_tree i t' s).
Proof.
  intros [R T] Hi. split; [split; [done|]|done|done]. cbn. intros j [u [[<- _]|[_ Hj]]%lookup_insert_Some]; [apply T; eauto|apply T; eauto].
Qed.

Lemma seen_ok visible σ : seen_rows visible σ (seen visible σ).
Proof.
  split; [apply NoDup_fst_map_to_list|]. intros rid r. unfold seen. rewrite elem_of_map_to_list, map_lookup_filter_Some. done.
Qed.

Definition FaultyLaws F : @StorageLaws Mem (FaultyStorage F).
Proof.
  refine {| sv := mem_view F |}; cbn.
  - done.
  - intros s f σ r I Hf. unfold insert. rewrite Hf. cbn. eexists _, _, _. split; [reflexivity|]. destruct I as [R T].
    assert (σ !! mkRID 1 (next s) = None) as Hn.
    { destruct (σ !! _) eqn:E; [|done]. specialize (R f σ (mkRID 1 (next s)) Hf (mk_is_Some _ _ E)). cbn in R. lia. }
    split; [|split; [done|by left]]. split; cbn.
    + intros f' σ0 rid [[<- <-]|[_ Hf']]%lookup_insert_Some [x Hx]; [|specialize (R f' σ0 rid Hf' (mk_is_Some _ _ Hx)); lia].
      apply lookup_insert_Some in Hx as [[<- _]|[_ Hx]]; [cbn; lia|]. specialize (R f σ rid Hf (mk_is_Some _ _ Hx)). lia.
    + intros i Hi. specialize (T i Hi). lia.
  - intros s f σ rid r I Hf Hr. unfold remove. rewrite Hf. cbn. destruct (frozen F); [eexists _, s; split; [reflexivity|]; split_and!; try done; by right|].
    rewrite Hr. eexists _, _. split; [reflexivity|]. split; [|split; [done|by left]].
    eapply put_file_inv; [done|done|]. intros rid' [x [_ Hx]%lookup_delete_Some]. eauto.
  - intros s f σ rid I Hf. unfold get. rewrite Hf. cbn. destruct (σ !! rid); eexists _, s; (split; [reflexivity|]); split_and!; done.
  - intros A s f σ rid g r a b r' I Hf Hr Hg Hb. unfold visit. rewrite Hf. cbn. destruct (frozen F); [eexists _, _, s; split; [reflexivity|]; split_and!; try done; by right|].
    rewrite Hr, Hg. cbn. eexists _, _, _. split; [reflexivity|].
    destruct b; [|split_and!; try done; by left]. split; [|split; [done|by left]]. eapply put_file_inv; [done|done|]. intros rid' [x [[<- _]|[_ Hx]]%lookup_insert_Some]; eauto.
  - intros A s f σ rid g I Hf Hr. unfold visit. rewrite Hf. cbn. destruct (frozen F); [|rewrite Hr]; eexists _, s; (split; [reflexivity|]); by split_and!.
  - intros s f σ visible I Hf _. unfold mem_open_scan. rewrite Hf. cbn. eexists _, _, s. split; [reflexivity|]. split; [by split|]. split; [done|].
    intros _. eexists. split; [reflexivity|]. apply seen_ok.
  - intros s sc f l I ->. unfold next_row. destruct l as [|r l]; eexists _, _, _, s; (split; [reflexivity|]); split_and!; try done; [right; left|left]; split_and!; try done; eauto.
  - intros s sc f l I _. eexists _, s. split; [reflexivity|]. by split_and!.
  - intros s name ty len I. unfold create. eexists _, _, _. split; [reflexivity|]. destruct I as [R T]. split.
    + split; [split; cbn|done|done]; [intros f σ rid Hf Hr; specialize (R f σ rid Hf Hr); lia|].
      intros i [t [[<- _]|[_ Hi]]%lookup_insert_Some]; [lia|]. specialize (T i (mk_is_Some _ _ Hi)). lia.
    + left. split; [done|]. split; [|done]. destruct (trees s !! next s) eqn:E; [|done]. specialize (T _ (mk_is_Some _ _ E)). lia.
  - intros s i t k rid rc s' I Hi _ _. unfold add_entry. rewrite Hi. cbn.
    destruct (refuses F i _); [intros [= <- <-]; split; [by split|by right]|]. case_decide; intros [= <- <-].
    + split; [by split|]. by right.
    + split; [by eapply put_tree_same|]. left. by split_and!.
  - intros s i t k rid rc s' I Hi _ _. unfold drop_entry. rewrite Hi. cbn.
    destruct (stuck F i _); [intros [= <- <-]; split; [by split|by right]|]. case_decide; intros [= <- <-].
    + split; [by eapply put_tree_same|]. left. by split_and!.
    + split; [by split|]. by right.
Defined.

Lemma FaultyReturn F : @TreesReturn Mem (FaultyStorage F) (FaultyLaws F).
Proof.
  split; cbn; intros s i t k rid I Hi _ _; [unfold add_entry|unfold drop_entry]; rewrite Hi; cbn;
    [destruct (refuses F i _)|destruct (stuck F i _)]; try (by eexists); case_decide; by eexists.
Qed.

#[global] Instance MemStorageLaws : StorageLaws Mem := FaultyLaws no_faults.
#[global] Instance MemTreesReturn : TreesReturn Mem := FaultyReturn no_faults.
#[global] Instance MemReliable : ReliableStorage Mem.
Proof.
  split; cbn.
  - intros s f σ rid r rc s' I Hf Hr. unfold remove. rewrite Hf. cbn. rewrite Hr. by intros [= <- _].
  - intros A s f σ rid g r a b r' rc o s' I Hf Hr Hg _. unfold visit. rewrite Hf. cbn. rewrite Hr, Hg. by intros [= <- _ _].
  - intros s i t k rid rc s' I Hi _ _ He. unfold drop_entry. rewrite Hi. cbn. case_decide; [by intros [= <- _]|done].
Qed.
End MemStorage.
