(* ===== verification/HeapTableTheorems.v ===== *)
(** * Heap tables: the theorems

    Inserting, deleting and updating keep the indexes of a table equal to its records,
    what they leave when a call below them fails, and creating an index makes one for
    the records a transaction sees.  The calls of trees are taken to return ([TreesReturn]).  With examples on a table in memory. *)

From stdpp Require Import strings.
From S2P Require Import Prelude Types Bytes RecordPage IndexKey TableMeta Mvcc HeapTable HeapTableSpec HeapTableOps HeapTableDemo.
Local Open Scope Z_scope.

Section theorems.
Context {W : Type} `{!Storage W, !StorageLaws W, !TreesReturn W}.
Implicit Types (w : W) (x : BplusTreeIndex) (T : HeapTable) (rid : RID) (r : list Z) (σ : Records).

(** C16: [insert_record] stores the record and its key in every index, or fails and
    leaves records and indexes as they were, whichever index refuses the key: the
    table stays consistent.  Nothing outside the table changes.  The storage deletes what
    is there ([ReliableStorage]), so that undoing does not fail. *)
Theorem insert_record_correct `{!ReliableStorage W} w T σ r : table_ok w T σ → Z.of_nat (length r) = tm_record_size (table_meta_ T) →
  ∃ rc rid w', engine_insert_record T r w = Some ((rc, rid), w') ∧ elsewhere T w w' ∧
    (rc = RC.SUCCESS ∧ σ !! rid = None ∧ table_ok w' T (<[rid := r]> σ) ∨ rc ≠ RC.SUCCESS ∧ table_ok w' T σ).
Proof. apply insert_record_ok. Qed.

(** C17: [delete_record] on a record of the table takes its key out of every index, then
    the record out of the file.  When it returns, the keys are gone from all indexes, and
    so is the record, or the file failed to delete it and the record stays without its
    keys.  It does not return only when the assertion of its loop fails, and that is when
    the tree of an index refuses to delete an entry that it holds ([TreesReturn]: its calls
    return).  When the storage does not fail, neither does the deletion.  When the data of the record is not given, this
    needs a table without indexes. *)
Theorem delete_record_correct w T σ rid r data : table_ok w T σ → σ !! rid = Some r → data = Some r ∨ data = None ∧ indexes_ T = [] →
  match engine_delete_record T (mkTableRecord rid data) w with
  | Some (rc, w') => elsewhere T w w' ∧ keys_removed rid r T w w' ∧
      (rc = RC.SUCCESS ∧ table_ok w' T (delete rid σ) ∨ rc ≠ RC.SUCCESS ∧ table_but {[rid]} w' T σ)
  | None => ∃ x, x ∈ indexes_ T ∧ delete_refused (tm_record_size (table_meta_ T)) r rid x
  end ∧
  (ReliableStorage W → ∃ w', engine_delete_record T (mkTableRecord rid data) w = Some (RC.SUCCESS, w') ∧ table_ok w' T (delete rid σ)).
Proof.
  intros Tk Hr Hdata. split; [by apply delete_record_cases|]. intros Hrel.
  destruct (delete_record_ok w T σ rid r data Tk Hr Hdata) as (w' & E & Tk' & _). by exists w'.
Qed.

(** C18: [update_record_with_trx] on a record of the table overwrites the record and
    changes its key in exactly the indexes where it differs; or the deletion of an old
    key, the insertion of a new one or the overwriting of the record fails.  Then the
    records are as they were, an index whose key was to change has lost at most the old
    entry and kept at most the new one, and the others are untouched; and everything is
    as before the update when the calls that restore the indexes, whose results the
    code ignores, succeed: [restorable], an index takes back the old entry when it is not
    there, and gives up the new one when it is. *)
Theorem update_record_correct w T σ rid old new : table_ok w T σ → σ !! rid = Some old → length new = length old →
  ∃ rc w', update_record_with_trx T rid old rid new w = Some (rc, w') ∧ elsewhere T w w' ∧
    (rc = RC.SUCCESS ∧ table_ok w' T (<[rid := new]> σ) ∨
     rc ≠ RC.SUCCESS ∧ sv_files sv w' = sv_files sv w ∧ update_undone rid old new T w w' ∧
       ((∀ x, x ∈ indexes_ T → restorable (tm_record_size (table_meta_ T)) rid old new x) → table_ok w' T σ)).
Proof.
  intros Tk Hr Hlen. destruct (tk_file _ _ _ _ Tk) as (f & Hf & _ & Hσ). pose proof (tk_size _ _ _ _ Tk rid old Hr) as Hl.
  set (size := tm_record_size (table_meta_ T)) in *. assert (size ≤ Z.of_nat (length old)) as Ho by lia. assert (size ≤ Z.of_nat (length new)) as Hn by lia.
  destruct (affected_run w size (table_meta_ T) (indexes_ T) old new) as (l & E & Hnd & Hl'); [|apply (tk_distinct _ _ _ _ Tk)|done|done|].
  { intros x Hx. split; [by apply (tk_open _ _ _ _ Tk)|by apply (tk_field _ _ _ _ Tk)]. }
  assert (∀ x, x ∈ l → x ∈ indexes_ T) as Hsub by (intros x Hx; by apply Hl').
  assert (all_ok size w l) as Hall by (split; [apply (tk_inv _ _ _ _ Tk)|split; [intros x Hx; by apply (tk_open _ _ _ _ Tk), Hsub|done]]).
  unfold update_record_with_trx. rewrite bool_decide_eq_false_2 by auto. rewrite Hlen, Nat.eqb_refl. cbn [negb orb]. rewrite (exec E).
  destruct (delete_old_run size rid old new Ho Hn w w l [] Hall) as (rc & w1 & E1 & Hres1); [intros x Hx; by eapply record_has, Hsub|by apply moved_nil, Hall|].
  rewrite (exec E1). cbn [app] in Hres1. destruct Hres1 as [[-> M1]|[Hrc M1]].
  2: { unfold RC.OB_FAIL. rewrite bool_decide_eq_true_2 by done. exists rc, w1. split; [done|]. destruct (update_failed w w1 T σ l rid old new Tk Hl' M1) as [Ew Hrest].
       split; [done|]. by right. }
  destruct (insert_new_run size rid old new Ho Hn w w1 w1 l []) as (rc & w2 & E2 & Hres); [done|done|apply moved_nil, M1|].
  change (RC.OB_FAIL RC.SUCCESS) with false. cbn iota. cbn [app] in E2, Hres. rewrite (exec E2).
  destruct Hres as [[-> M2]|[Hrc M2]].
  2: { unfold RC.OB_FAIL. rewrite bool_decide_eq_true_2 by done. exists rc, w2. split; [done|]. destruct (update_failed w w2 T σ l rid old new Tk Hl' M2) as [Ew Hrest].
       split; [done|]. by right. }
  change (RC.OB_FAIL RC.SUCCESS) with false. cbn iota. rewrite Hf. rewrite (exec (m := deref (Some f)) (s := w2) (a := f) (s1 := w2) eq_refl).
  assert (sv_files sv w2 !! f = Some σ) as Hσ2 by (by rewrite (mv_files _ _ _ _ M2), (mv_files _ _ _ _ M1)).
  destruct (sl_visit _ w2 f σ rid (overwrite new) old tt true new (mv_inv _ _ _ _ M2) Hσ2 Hr) as (rc & o & w3 & E3 & I3 & Et & Hres).
  { unfold overwrite. rewrite decide_True by lia. rewrite drop_ge, app_nil_r by lia. done. }
  { done. }
  rewrite (exec E3). destruct Hres as [(-> & -> & Ef)|(Hrc & -> & Ef)].
  - change (RC.OB_FAIL RC.SUCCESS) with false. cbn iota. exists RC.SUCCESS, w3. split; [done|].
    destruct (update_done w w1 w2 w3 T σ f l rid old new Tk Hf Hr Hlen Hl' M1 M2 I3 Et Ef) as [Tk' Ew]. split; [done|]. by left.
  - unfold RC.OB_FAIL. rewrite bool_decide_eq_true_2 by done.
    pose proof (undo_update size rid old new Ho Hn w w1 w2 w3 l []) as Hundo. cbn zeta in Hundo. rewrite app_nil_r in Hundo.
    destruct (Hundo Hall M1 M2 I3 Ef Et) as (w4 & w5 & E4 & E5 & M5). rewrite (exec E4), (exec E5). exists rc, w5. split; [done|].
    destruct (update_failed w w5 T σ l rid old new Tk Hl' M5) as [Ew Hrest]. split; [done|]. by right.
Qed.

(** C19: [create_index] on a field of a table returns on every path on which the calls
    of trees return.  When the rows are scanned and inserted without an error the table has one more index, which holds an
    entry for every record that the transaction sees and no other entry, and its other
    indexes hold exactly the keys of the records, as before.  When it fails the table is
    as before, or has the index without its metadata, when the metadata file could not be
    written.  [fuel] is the number of rows that are read. *)
Theorem create_index_correct fuel w T σ fm n base_dir (visible : list Z → option RC) io : table_ok w T σ → is_blank (Some n) = false → (size σ < fuel)%nat →
  (∀ rid r, σ !! rid = Some r → is_Some (visible r)) → field_by_name (table_meta_ T) (fm_name fm) = Some fm →
  sv_key_ok sv (fm_type fm) (fm_len fm) → 0 ≤ fm_offset fm ∧ 0 < fm_len fm ∧ fm_offset fm + fm_len fm ≤ tm_record_size (table_meta_ T) →
  ∃ rc T' w', create_index fuel base_dir visible io T (Some fm) (Some n) w = Some ((rc, T'), w') ∧ table_ok w' T σ ∧
    (T' = T ∧ rc ≠ RC.SUCCESS ∨
     (∃ x i, field_meta_ x = fm ∧ im_name (index_meta_ x) = n ∧ index_handler_ x = Some i ∧
       joined T x (if meta_written io then add_index (table_meta_ T) (mkIndexMeta n (fm_name fm)) else table_meta_ T) T' ∧
       ∀ k rid, (k, rid) ∈ entries_of w' i ↔ ∃ r, σ !! rid = Some r ∧ visible r = Some RC.SUCCESS ∧ k = index_key x r) ∧
     table_but (invisible visible σ) w' T' σ ∧ (rc = RC.SUCCESS ↔ meta_written io = true)).
Proof.
  intros Tk Hn Hfuel Hvis Hfn Hft Hfm. destruct (tk_file _ _ _ _ Tk) as (f & Hf & Hp & _). unfold create_index, index_meta_init. rewrite !Hn.
  destruct (create_run w T σ fm n base_dir Tk Hft Hfm) as (rc & x & w1 & E1 & [[Hrc Tk1]|(-> & Tk1 & i & -> & Hi & Ox & He)]); rewrite (exec E1).
  { rewrite bool_decide_eq_true_2 by done. exists rc, T, w1. split; [done|]. split; [done|]. by left. }
  rewrite bool_decide_eq_false_2 by auto. rewrite Hp. rewrite (exec (m := deref (Some f)) (s := w1) (a := f) (s1 := w1) eq_refl).
  destruct (tk_file _ _ _ _ Tk1) as (f' & Hf' & _ & Hσ). assert (f' = f) as -> by congruence.
  destruct (sl_open _ w1 f σ visible (tk_inv _ _ _ _ Tk1) Hσ Hvis) as (rc & sc & w2 & E2 & F2 & T2 & Hsc). rewrite (exec E2).
  pose proof (only_same i w1 w2 (sf_inv F2) (sf_files F2) T2) as O2. pose proof (table_kept _ _ _ _ _ _ Tk1 O2 Hi) as Tk2.
  destruct (decide (rc = RC.SUCCESS)) as [->|Hrc].
  2: { rewrite bool_decide_eq_true_2 by done. exists rc, T, w2. split; [done|]. split; [done|]. by left. }
  rewrite bool_decide_eq_false_2 by auto. destruct (Hsc eq_refl) as (l & Hs & Hl).
  set (x := mkIndex true (mkIndexMeta n (fm_name fm)) fm (Some i)) in *.
  destruct (populate_run fuel (tm_record_size (table_meta_ T)) x i sc f l w2 eq_refl (sf_inv F2)) as (res & w3 & E3 & O3 & Hres).
  { eapply index_ok_kept; [apply (on_kind _ _ _ O2)|done]. }
  { done. }
  { intros [rid r] Hrow. destruct Hl as [_ Hl]. pose proof (tk_size _ _ _ _ Tk rid r (proj1 (proj1 (Hl rid r) Hrow))). cbn. lia. }
  { pose proof (seen_rows_length _ _ _ Hl). lia. }
  rewrite (exec E3). pose proof (table_kept _ _ _ _ _ _ Tk2 O3 Hi) as Tk3.
  destruct res as [rc|[rc sc3]]; [exists rc, T, w3; split; [done|]; split; [done|]; by left|]. destruct Hres as [Hrc Heof].
  destruct (decide (rc = RC.RECORD_EOF)) as [->|Hne].
  2: { rewrite (bool_decide_eq_false_2 (rc = _)) by done. cbn [negb]. exists rc, T, w3. split; [done|]. split; [done|]. by left. }
  rewrite bool_decide_eq_true_2 by done. cbn [negb]. destruct (Heof eq_refl) as [Hs3 He3].
  destruct (sl_close _ w3 sc3 f [] (on_inv _ _ _ O3) Hs3) as (rc4 & w4 & E4 & I4 & F4 & T4). rewrite (exec E4).
  pose proof (only_same i w3 w4 I4 F4 T4) as O4. pose proof (table_kept _ _ _ _ _ _ Tk3 O4 Hi) as Tk4.
  assert (entries_of w4 i = list_to_set (row_entry x <$> l)) as He4 by (rewrite (entries_same w3 w4 T4), He3, (entries_same w1 w2 T2), He; set_solver).
  assert (index_ok w4 (tm_record_size (table_meta_ T)) x) as Ox4.
  { eapply index_ok_kept; [|exact Ox]. eapply kinds_trans; [apply (on_kind _ _ _ O2)|]. eapply kinds_trans; [apply (on_kind _ _ _ O3)|apply (on_kind _ _ _ O4)]. }
  assert (∀ m T', joined T x m T' → table_but (invisible visible σ) w4 T' σ) as Hj by (intros m T' J; by eapply table_joined).
  pose proof (rows_indexed w4 σ x i visible l Hl He4) as Hiff.
  unfold meta_written. destruct (mf_is_open io); cbn [negb andb]; [|by eexists _, _, w4; split; [reflexivity|]; split; [done|]; right; split; [exists x, i; by repeat split; apply Hiff|split; [eapply Hj; by repeat split|by split]]].
  destruct (mf_serialized io <? 0); cbn [negb andb]; [by eexists _, _, w4; split; [reflexivity|]; split; [done|]; right; split; [exists x, i; by repeat split; apply Hiff|split; [eapply Hj; by repeat split|by split]]|].
  destruct (mf_rename io =? 0); cbn [negb andb]; eexists _, _, w4; (split; [reflexivity|]); (split; [done|]); right; (split; [exists x, i; by repeat split; apply Hiff|split; [eapply Hj; by repeat split|by split]]).
Qed.
End theorems.

(** ** A table with an index and a record *)
Module TableDemo.
Import MemStorage.
Definition meta : TableMeta :=
  match table_meta_init (mkTableMeta (-1) "" [] [] [] [] 0 0 0 0) 1 (Some "t") None [mkAttrInfo INTS "a" 4 false; mkAttrInfo CHARS "b" 3 false] [] 0 0 with
  | Some (_, m) => add_index m (mkIndexMeta "i_a" "a")
  | None => mkTableMeta (-1) "" [] [] [] [] 0 0 0 0
  end.
Definition field_a : FieldMeta := mkFieldMeta "a" INTS 0 4 true 0 false.
Definition field_b : FieldMeta := mkFieldMeta "b" CHARS 4 3 true 1 false.
Definition index_a : BplusTreeIndex := mkIndex true (mkIndexMeta "i_a" "a") field_a (Some 5).
Definition table : HeapTable := mkHeapTable meta (Some 0) (Some 0) [index_a].
Definition row (z : Z) : list Z := le_bytes 4 z ++ [120; 121; 122] ++ [0].
Definition rid : RID := mkRID 1 1.
Definition rows : gmap RID (list Z) := {[rid := row 7]}.
Definition world : Mem := mkMem {[0 := rows]} {[5 := mkBTree INTS 4 {[(le_bytes 4 7, rid)]}]} 6.

Lemma rows_rid : rows !! rid = Some (row 7).
Proof. apply lookup_singleton_eq. Qed.

Lemma faulty_world_ok F : @table_ok _ (FaultyStorage F) (FaultyLaws F) world table rows.
Proof.
  split.
  - split; cbn.
    + intros f σ r [<- <-]%lookup_singleton_Some [x [<- _]%lookup_singleton_Some]. done.
    + intros i [x [<- _]%lookup_singleton_Some]. done.
  - by exists 0.
  - unfold rows. intros r x [<- <-]%lookup_singleton_Some. done.
  - intros x Hx%list_elem_of_singleton. subst x. split; [|done|done]. eexists 5, _. split; [done|]. split; [cbn; apply lookup_singleton_eq|]. by split.
  - cbn. apply list.NoDup_singleton.
  - intros x Hx%list_elem_of_singleton. by subst x.
  - intros x i k r Hx%list_elem_of_singleton Hi. subst x. cbn in Hi. injection Hi as <-. unfold entries_of. cbn. rewrite lookup_singleton_eq. cbn.
    intros [= -> ->]%elem_of_singleton. exists (row 7). split; [exact rows_rid|done].
  - unfold rows. intros x i r y Hx%list_elem_of_singleton Hi [<- <-]%lookup_singleton_Some _. subst x. cbn in Hi. injection Hi as <-.
    unfold entries_of. cbn. rewrite lookup_singleton_eq. cbn. by apply elem_of_singleton.
Qed.

Lemma world_ok : table_ok world table rows.
Proof. exact (faulty_world_ok no_faults). Qed.

(** Inserting, updating and deleting on the example. *)
Example demo_run :
  (λ p, p.1) <$> (('(r1, rid1) ← engine_insert_record table (row 8); r2 ← update_record_with_trx table rid (row 7) rid (row 9);
      r3 ← engine_delete_record table (mkTableRecord rid1 (Some (row 8))); '(_, d) ← engine_get_record table rid; mret (r1, r2, r3, d)) world) =
  Some (RC.SUCCESS, RC.SUCCESS, RC.SUCCESS, Some (row 9)).
Proof. vm_compute. reflexivity. Qed.

(** A record whose data is not given: the table has an index, which needs the data. *)
Example delete_without_data_aborts : engine_delete_record table (mkTableRecord rid None) world = None.
Proof. vm_compute. reflexivity. Qed.

(** The three ways in which the update to the key 9 fails: the old key cannot be deleted,
    the new one cannot be inserted, the record cannot be overwritten.  Each time all is as
    before. *)
Definition has_key (z : Z) (k : list Z) : bool := bool_decide (k = le_bytes 4 z).
Definition stuck_old : Faults := mkFaults (λ _ _, false) (λ _, has_key 7) false.
Definition refuse_new : Faults := mkFaults (λ _, has_key 9) (λ _ _, false) false.
Definition frozen_file : Faults := mkFaults (λ _ _, false) (λ _ _, false) true.
Definition update_with F : option (RC * Mem) := @update_record_with_trx _ (FaultyStorage F) table rid (row 7) rid (row 9) world.

Example failed_updates : (update_with <$> [stuck_old; refuse_new; frozen_file]) = replicate 3 (Some (RC.BUFFERPOOL_NOBUF, world)).
Proof. vm_compute. reflexivity. Qed.

(** The deletion runs into its assertion, or leaves the record without its key. *)
Definition delete_with F : option (RC * Mem) := @engine_delete_record _ (FaultyStorage F) table (mkTableRecord rid (Some (row 7))) world.

Example failed_deletions : delete_with stuck_old = None ∧
  delete_with frozen_file = Some (RC.BUFFERPOOL_NOBUF, mkMem (files world) {[5 := mkBTree INTS 4 ∅]} 6).
Proof. split; vm_compute; reflexivity. Qed.

Lemma refuse_new_restorable x : x ∈ indexes_ table →
  @restorable _ (FaultyStorage refuse_new) (FaultyLaws refuse_new) 8 rid (row 7) (row 9) x.
Proof.
  intros Hx%list_elem_of_singleton. subst x. split.
  - intros w rc w' I O Hl E. destruct (io_handle _ _ _ O) as (i & t & [= <-] & Ht & H1 & H2).
    specialize (Hl 5 eq_refl). unfold entries_of in Hl. rewrite Ht in Hl. change (trees w !! 5 = Some t) in Ht.
    change (add_entry refuse_new 5 (row 7) rid w = Some (rc, w')) in E. unfold add_entry in E. rewrite Ht in E. cbn [mbind option_bind] in E.
    rewrite H1, H2 in E. change (refuses refuse_new 5 _) with false in E. cbv iota in E. case_decide as Hin; [by destruct Hl|]. by injection E as <- _.
  - intros (w & rc & w' & I & O & Hh & E & Hrc). destruct (io_handle _ _ _ O) as (i & t & [= <-] & Ht & H1 & H2).
    specialize (Hh 5 eq_refl). unfold entries_of in Hh. rewrite Ht in Hh. change (trees w !! 5 = Some t) in Ht.
    change (drop_entry refuse_new 5 (row 9) rid w = Some (rc, w')) in E. unfold drop_entry in E. rewrite Ht in E. cbn [mbind option_bind] in E.
    rewrite H1, H2 in E. change (stuck refuse_new 5 _) with false in E. cbv iota in E. case_decide as Hin; [|by destruct Hin]. injection E as <- _. by destruct Hrc.
Qed.
End TableDemo.

Lemma insert_record_correct_witness : ∃ rc rid w', engine_insert_record TableDemo.table (TableDemo.row 8) TableDemo.world = Some ((rc, rid), w') ∧
  elsewhere TableDemo.table TableDemo.world w' ∧
  (rc = RC.SUCCESS ∧ TableDemo.rows !! rid = None ∧ table_ok w' TableDemo.table (<[rid := TableDemo.row 8]> TableDemo.rows) ∨
   rc ≠ RC.SUCCESS ∧ table_ok w' TableDemo.table TableDemo.rows).
Proof. apply (insert_record_correct _ _ _ _ TableDemo.world_ok). reflexivity. Defined.

Lemma delete_record_correct_witness : ∃ w', engine_delete_record TableDemo.table (mkTableRecord TableDemo.rid (Some (TableDemo.row 7))) TableDemo.world = Some (RC.SUCCESS, w') ∧
  table_ok w' TableDemo.table (delete TableDemo.rid TableDemo.rows).
Proof.
  destruct (delete_record_correct _ _ _ _ (TableDemo.row 7) (Some (TableDemo.row 7)) TableDemo.world_ok TableDemo.rows_rid) as [_ H]; [left; reflexivity|].
  exact (H MemStorage.MemReliable).
Defined.

(** On a storage whose trees refuse the new key. *)
Lemma update_record_correct_witness :
  ∃ w', TableDemo.update_with TableDemo.refuse_new = Some (RC.BUFFERPOOL_NOBUF, w') ∧
    @table_ok _ (MemStorage.FaultyStorage TableDemo.refuse_new) (MemStorage.FaultyLaws TableDemo.refuse_new) w' TableDemo.table TableDemo.rows.
Proof.
  destruct (@update_record_correct _ _ _ (MemStorage.FaultyReturn TableDemo.refuse_new) TableDemo.world TableDemo.table TableDemo.rows TableDemo.rid (TableDemo.row 7)
    (TableDemo.row 9) (TableDemo.faulty_world_ok _) TableDemo.rows_rid eq_refl) as (rc & w' & E & _ & Hres).
  assert (TableDemo.update_with TableDemo.refuse_new = Some (RC.BUFFERPOOL_NOBUF, TableDemo.world)) as E' by (vm_compute; reflexivity).
  assert (rc = RC.BUFFERPOOL_NOBUF) as -> by (change (TableDemo.update_with TableDemo.refuse_new = Some (rc, w')) in E; congruence).
  exists w'. split; [exact E|]. destruct Hres as [[Hrc _]|(_ & _ & _ & H)]; [discriminate Hrc|].
  apply H. exact TableDemo.refuse_new_restorable.
Defined.

Lemma create_index_correct_witness :
  let visible := λ _ : list Z, Some RC.SUCCESS in let io := mkMetaFile true 100 0 in
  ∃ rc T' w', create_index 2 "db" visible io TableDemo.table (Some TableDemo.field_b) (Some "i_b") TableDemo.world = Some ((rc, T'), w') ∧
    table_ok w' TableDemo.table TableDemo.rows.
Proof.
  intros visible io. destruct (create_index_correct 2 _ _ _ TableDemo.field_b "i_b" "db" visible io TableDemo.world_ok) as (rc & T' & w' & E & H & _);
    [reflexivity|vm_compute; lia|intros; eexists; reflexivity|reflexivity|exact I|cbn; split_and!; vm_compute; congruence|].
  exists rc, T', w'. split; [exact E|exact H].
Defined.
