(* ===== verification/MvccTheorems.v ===== *)
(** * Transactions: the theorems

    Snapshot isolation of the transactions as they are written, with the side
    conditions the code needs, and what recovery does with the transactions that were
    under way.  The witnesses run on tables that are a finite map. *)

From stdpp Require Import strings.
From S2P Require Import Prelude Types Bytes RecordPage IndexKey TableMeta BufferPool PoolSafety RecordSafety Frame RecordReplay Mvcc MvccSpec MvccRead MvccWrite HeapTable HeapTableSpec HeapTableOps HeapTableTrx HeapTableDemo.
Local Open Scope Z_scope.

(** ** Tables with the fields of transactions *)
Lemma created_mvcc t0 id name attrs keys fmt eng t :
  table_meta_init t0 id name kit_fields attrs keys fmt eng = Some (RC.SUCCESS, t) → 8 ≤ tm_record_size t → mvcc_meta t.
Proof.
  unfold table_meta_init. intros E Hs. split; [|done]. destruct name as [n|]; [|done]. destruct (is_blank _); [done|]. case_bool_decide; [done|].
  set (sys := place_trx_fields _ 0) in E. vm_compute in sys. subst sys. cbn [mbind option_bind] in E.
  destruct (place_attributes attrs 0 8) as [[rc fs] e]. destruct (RC.OB_FAIL rc) eqn:Er.
  { injection E as -> _. by apply bool_decide_eq_true in Er. }
  injection E as <-. unfold trx_fields. cbn. by eexists _, _, _.
Qed.

(** C15: what a record of a table with transactions looks like.  The ids of the
    transactions are its first eight bytes; the fields lie in the record one after the
    other and before the bitmap of NULLs, which ends with the record and has a bit for
    every field.  The fields have positive lengths that add up to less than 2^31. *)
Theorem created_table_layout t0 id name attrs keys fmt eng t :
  table_meta_init t0 id name kit_fields attrs keys fmt eng = Some (RC.SUCCESS, t) → tm_trx_fields t0 = [] → Forall (λ a, 0 < ai_length a) attrs →
  total_length (ai_length <$> attrs) + Z.of_nat (length attrs) + 17 < 2 ^ 31 →
  mvcc_meta t ∧ length (tm_fields t) = (2 + length attrs)%nat ∧
  (∀ i f, tm_fields t !! i = Some f → 0 ≤ fm_offset f ∧ 0 < fm_len f ∧ fm_offset f + fm_len f ≤ tm_null_bitmap_offset t ∧
     tm_null_bitmap_offset t ≤ tm_null_bitmap_offset t + Z.of_nat i / 8 < tm_record_size t) ∧
  (∀ i j f g, tm_fields t !! i = Some f → tm_fields t !! j = Some g → (i < j)%nat → fm_offset f + fm_len f ≤ fm_offset g).
Proof.
  intros E Ht Ha Hb. destruct (table_meta_init_layout t0 id name kit_fields attrs keys fmt eng t E Ht Ha) as (Hl & Ho & Hn).
  { change (total_length (fm_len <$> default [] kit_fields)) with 8. change (length (default [] kit_fields)) with 2%nat. lia. }
  change (total_length (fm_len <$> default [] kit_fields)) with 8 in Ho. change (length (default [] kit_fields)) with 2%nat in Hn.
  assert (0 ≤ total_length (ai_length <$> attrs)) as Hpos by (clear -Ha; induction Ha; cbn; [lia|]; fold (total_length (ai_length <$> l)); lia).
  split; [|split; [exact Hn|split; [intros i f; by apply layout_field|intros i j f g; eapply laid_out_disjoint, Hl]]].
  eapply created_mvcc; [exact E|]. destruct (lookup_lt_is_Some_2 (tm_fields t) 0) as [f Hf]; [lia|].
  pose proof (layout_field t 0 f Hl Hf). lia.
Qed.

Lemma created_table_layout_witness :
  let t0 := mkTableMeta (-1) "" [] [] [] [] 0 0 0 0 in let attrs := [mkAttrInfo INTS "a" 4 false; mkAttrInfo CHARS "b" 9 true] in
  ∃ t, table_meta_init t0 1 (Some "t") kit_fields attrs [] 0 0 = Some (RC.SUCCESS, t) ∧ mvcc_meta t ∧ length (tm_fields t) = 4%nat.
Proof.
  intros t0 attrs. eexists. split; [reflexivity|]. match goal with |- mvcc_meta ?t ∧ _ =>
    destruct (created_table_layout t0 1 (Some "t") attrs [] 0 0 t) as (H1 & H2 & _) end; [reflexivity|reflexivity|repeat constructor|reflexivity|].
  by split.
Defined.

(** ** Histories of requests *)
Section history.
Context {S L : Type} `{!Tables S, !TablesLaws S} `{!LogHandler L, !LogLaws L}.
Notation Db := (Db S L).

Lemma serve_step uninit (d : Db) A q : log_accepts (L:=L) → coupled d A → allowed d q →
  ∃ a d' A', serve uninit q d = Some (a, d') ∧ spec_step A q a A' ∧ coupled d' A'.
Proof.
  intros Hacc C. unfold serve. destruct q as [p|p t r|p t rid|p t rid|p|p]; intros H.
  - destruct (begin_step d A p C H) as (d' & i & E & Hs & C'). rewrite (exec E). by eexists _, d', _.
  - destruct (insert_step Hacc d A p t r C H) as (rc & rid & d' & A' & E & Hs & C'). rewrite (exec E). by exists (Inserted rc rid), d', A'.
  - destruct (delete_step Hacc d A p t rid C H) as (rc & d' & A' & E & Hs & C'). rewrite (exec E). by exists (Did rc), d', A'.
  - destruct (read_step d A p t rid C (proj1 H) (proj2 H)) as (d' & y & Hy & E & C'). rewrite (exec E). exists (Row_ (tx_view y (t, rid))), d', A. split_and!; [done|by constructor|done].
  - destruct (commit_step Hacc d A p C H) as (rc & d' & A' & E & Hs & C'). rewrite (exec E). by exists (Did rc), d', A'.
  - destruct (rollback_step Hacc uninit d A p C H) as (rc & d' & A' & E & Hs & C'). rewrite (exec E). by exists (Did rc), d', A'.
Qed.

End history.

(** ** A transaction and its own rows *)
Section own.
Context {S L : Type} `{!Tables S, !TablesLaws S} `{!LogHandler L, !LogLaws L}.
Notation Db := (Db S L).

Lemma own_visibility i r mode : 0 < i → begin_xid r = - i → visibility i (begin_xid r) (end_xid r) mode = RC.SUCCESS.
Proof.
  intros Hi Hb. unfold visibility. rewrite (proj2 (Z.ltb_ge 0 (begin_xid r))) by lia. cbn [andb].
  rewrite (proj2 (Z.ltb_lt (begin_xid r) 0)) by lia. by rewrite (proj2 (Z.eqb_eq _ _)) by lia.
Qed.

(** A row that the transaction with id [i] has inserted, deleted by it or not. *)
Record owns (d : Db) (p : TrxPtr) (i : Z) (k : TableId * RID) (row : list Z) : Prop := {
  ow_tables : tables_ok d;
  ow_log : log_ok (db_log d);
  ow_id : 0 < i ∧ in_srange 32 (- i);
  ow_trx : ∃ x, trx_objects d !! p = Some x ∧ trx_id_ x = i;
  ow_record : ∃ r, recs d !! k = Some r ∧ begin_xid r = - i ∧ drop 8 r = row
}.

Lemma coupled_owns (d : Db) A p y k row : coupled d A → active A !! p = Some y → tx_inserted y !! k = Some row → owns d p (tx_id y) k row.
Proof.
  intros C Hy Hin. destruct (active_running d A p y C Hy) as (x & Hx & _ & Hi). pose proof (cp_ids _ _ C p y Hy).
  split; [by eapply coupled_tables|apply (cp_log _ _ C)|split; [lia|by eapply id_range]|by exists x|]. by apply (cp_inserted _ _ C p y).
Qed.

Lemma owns_delete (d : Db) p i t rid row : log_accepts (L:=L) → owns d p i (t, rid) row →
  ∃ d', trx_delete_record p t rid d = Some (RC.SUCCESS, d') ∧ owns d' p i (t, rid) row.
Proof.
  intros Hacc [T Hl [Hi Hrange] (x & Hx & Hxi) (r & Hr & Hb & Hrow)]. pose proof (record_length d _ r T Hr) as H8.
  destruct (record_fields d _ r T Hr) as (b & e & Ef & Hfb & Hfe). cbn in Ef. destruct (set_end e r (- i) Hfe H8 Hrange) as (r' & E1 & B1 & _ & L1 & P1).
  assert (delete_visitor i b e r = Some (RC.SUCCESS, (true, r'))) as Ev.
  { unfold delete_visitor. rewrite visit_decision_ok by done. cbn [mbind option_bind]. rewrite own_visibility by done. cbn. by rewrite E1. }
  destruct (tl_visit _ (db_tables d) t rid _ r _ _ _ (proj1 T) Hr Ev) as (s & Et & Hsame & Hrecs); [done|].
  destruct (log_delete_run Hacc (set_tables s d) i t rid Hl Hi) as (l' & El & Hl').
  eexists. split.
  - unfold trx_delete_record. rewrite (exec (trx_of_run d p x Hx)), (exec Ef), Hxi, (exec (tables_run _ d _ s Et)).
    cbn [from_option]. change (id RC.SUCCESS) with RC.SUCCESS. change (RC.OB_FAIL RC.SUCCESS) with false. cbn iota.
    rewrite (exec El), (exec (assert_run _ _ (bool_decide_eq_true_2 _ eq_refl))). reflexivity.
  - split; [exact (tables_ok_insert d s _ _ _ T Hsame Hr Hrecs L1)|exact Hl'|done| |].
    + eexists. split; [apply lookup_insert_eq|done].
    + exists r'. split; [unfold recs; cbn; rewrite Hrecs; apply lookup_insert_eq|split; congruence].
Qed.

Lemma owns_read (d : Db) p i t rid row : owns d p i (t, rid) row → ∃ d', read_row p t rid d = Some (Some row, d') ∧ owns d' p i (t, rid) row.
Proof.
  intros [T Hl [Hi Hrange] (x & Hx & Hxi) (r & Hr & Hb & Hrow)]. pose proof (record_length d _ r T Hr) as H8.
  destruct (record_fields d _ r T Hr) as (b & e & Ef & Hfb & Hfe). cbn in Ef.
  destruct (proj2 T _ r Hr) as (m0 & Hm & _). destruct (tl_get _ (db_tables d) t rid (proj1 T) (mk_is_Some _ _ Hm)) as (rc & s & Eg & Hsame & Hrecs & _). pose proof Hr as Hr0. unfold recs in Hr. rewrite Hr in Eg.
  exists (set_tables s d). unfold read_row. rewrite (exec (tables_run _ d _ s Eg)).
  assert (trx_visit_record p t r READ_ONLY (set_tables s d) = Some (RC.SUCCESS, set_tables s d)) as Ev.
  { unfold trx_visit_record. rewrite (exec (trx_of_run (set_tables s d) p x Hx)).
    assert (xid_fields t (set_tables s d) = Some ((b, e), set_tables s d)) as E2.
    { revert Ef. unfold xid_fields. mstep. rewrite (sm_meta Hsame). destruct (tb_meta t (db_tables d)) as [m|]; [|done]. mstep.
      destruct (trx_fields m) as [|b0 [|e0 l]]; try done. by intros [= -> ->]. }
    rewrite (exec E2), visit_decision_ok by done. rewrite Hxi, own_visibility by done. done. }
  split; [rewrite (exec Ev); cbn; by rewrite Hrow|]. split; [|exact Hl|done|by exists x|exists r; unfold recs; cbn; by rewrite Hrecs].
  split; [apply (sm_inv Hsame)|]. intros k q. unfold recs. cbn. rewrite Hrecs, (sm_meta Hsame). apply T.
Qed.

(** Deletions and reads of one row by one transaction, and what they answer. *)
Definition of_row (p : TrxPtr) (t : TableId) (rid : RID) (q : request) : Prop := q = DeleteRow p t rid ∨ q = ReadRow p t rid.
Definition still_there (row : list Z) (q : request) : reply := match q with ReadRow _ _ _ => Row_ (Some row) | _ => Did RC.SUCCESS end.

Lemma owns_history uninit (d : Db) p i t rid row qs : log_accepts (L:=L) → owns d p i (t, rid) row → Forall (of_row p t rid) qs →
  ∃ d', serve_all uninit qs d = Some (still_there row <$> qs, d') ∧ owns d' p i (t, rid) row.
Proof.
  intros Hacc. revert d. induction qs as [|q qs IH]; intros d O Hq; [by exists d|]. apply list.Forall_cons in Hq as [Hq Hqs].
  assert (∃ d1, serve uninit q d = Some (still_there row q, d1) ∧ owns d1 p i (t, rid) row) as (d1 & E1 & O1).
  { destruct Hq as [->| ->]; cbn [serve still_there].
    - destruct (owns_delete d p i t rid row Hacc O) as (d1 & E & O1). exists d1. by rewrite (exec E).
    - destruct (owns_read d p i t rid row O) as (d1 & E & O1). exists d1. by rewrite (exec E). }
  destruct (IH d1 O1 Hqs) as (d2 & E2 & O2). exists d2. split; [|done]. cbn [serve_all fmap list_fmap]. by rewrite (exec E1), (exec E2).
Qed.

(** C14: a row that a transaction has inserted stays there for it however often it
    deletes it.  Every deletion of the row by the transaction succeeds, and every read,
    before, between and after the deletions, returns the row, when the log takes the
    records and the table visits the record that is there. *)
Theorem own_row_survives_deletion uninit (d : Db) A p y t rid row qs : log_accepts (L:=L) → coupled d A →
  active A !! p = Some y → tx_inserted y !! (t, rid) = Some row → Forall (of_row p t rid) qs →
  ∃ d', serve_all uninit qs d = Some (still_there row <$> qs, d').
Proof.
  intros Hacc C Hy Hin Hq. destruct (owns_history uninit d p _ t rid row qs Hacc (coupled_owns d A p y _ row C Hy Hin) Hq) as (d' & E & _). by exists d'.
Qed.
End own.

(** ** Recovery *)
Section recovery.
Context {S L : Type} `{!Tables S} `{!LogHandler L}.
Notation Db := (Db S L).

(** What the log holds of transactions. *)
Inductive trx_entry : Type :=
  | InsertedEntry (trx_id : Z) (t : TableId) (rid : RID)
  | DeletedEntry (trx_id : Z) (t : TableId) (rid : RID)
  | CommitEntry (trx_id commit_trx_id : Z)
  | RollbackEntry (trx_id undefined : Z).
Definition entry_id (e : trx_entry) : Z :=
  match e with InsertedEntry i _ _ | DeletedEntry i _ _ | CommitEntry i _ | RollbackEntry i _ => i end.
Definition entry_bytes (e : trx_entry) : list Z :=
  match e with
  | InsertedEntry i t rid => record_entry INSERT_RECORD i t rid
  | DeletedEntry i t rid => record_entry DELETE_RECORD i t rid
  | CommitEntry i c => commit_entry COMMIT i c
  | RollbackEntry i c => commit_entry ROLLBACK i c
  end.
(** The table of the entry exists. *)
Definition entry_ok (s : S) (e : trx_entry) : Prop :=
  in_srange 32 (entry_id e) ∧
  match e with
  | InsertedEntry _ t rid | DeletedEntry _ t rid =>
      in_srange 32 t ∧ is_Some (tb_meta t s) ∧ in_srange 32 (rid_page_num rid) ∧ in_srange 32 (rid_slot_num rid)
  | _ => True
  end.

(** Entries are replayed one after the other, up to the first that fails. *)
Fixpoint replay_entries (l : list (list Z)) (trx_map_ : gmap Z TrxPtr) : M Db (RC * gmap Z TrxPtr) :=
  match l with
  | [] => mret (RC.SUCCESS, trx_map_)
  | data :: l =>
      '(rc, trx_map_) ← trx_replay data trx_map_;
      if RC.OB_FAIL rc then mret (rc, trx_map_) else replay_entries l trx_map_
  end.

(** The transaction that an entry is replayed with. *)
Definition redone (e : trx_entry) : MvccTrx :=
  match e with
  | InsertedEntry i t rid => set_operations [mkOperation INSERT t rid] (recovering_trx i)
  | DeletedEntry i t rid => set_operations [mkOperation DELETE t rid] (recovering_trx i)
  | CommitEntry i _ | RollbackEntry i _ => recovering_trx i
  end.

Lemma record_entry_fields o i t rid : in_srange 32 i → in_srange 32 t → in_srange 32 (rid_page_num rid) → in_srange 32 (rid_slot_num rid) →
  get_i32 (record_entry o i t rid) 0 = Some (trx_op_index o) ∧ get_i32 (record_entry o i t rid) 4 = Some i ∧
  get_i32 (record_entry o i t rid) 8 = Some t ∧ rid_at (record_entry o i t rid) 12 = Some rid.
Proof.
  intros Hi Ht Hp Hs. unfold record_entry, trx_header, rid_bytes, rid_at. rewrite <-!app_assoc.
  change (Z.to_nat 12) with 12%nat. change (Z.to_nat (12 + 4)) with 16%nat.
  assert (∀ P R off z, in_srange 32 z → off = length P → get_i32 (P ++ le_bytes 4 z ++ R) off = Some z) as At by (intros; subst; by apply get_i32_at).
  split; [apply (At [] _ 0%nat); [by destruct o|done]|]. split; [by apply At|]. rewrite (app_assoc (le_bytes 4 (trx_op_index o))).
  split; [by apply At|]. rewrite (app_assoc _ (le_bytes 4 t)), (At _ _ 12%nat) by done. rewrite (app_assoc _ (le_bytes 4 (rid_page_num rid))).
  rewrite <-(app_nil_r (le_bytes 4 (rid_slot_num rid))), (At _ _ 16%nat) by done. cbn. by destruct rid.
Qed.

Lemma commit_entry_fields o i c : in_srange 32 i →
  get_i32 (commit_entry o i c) 0 = Some (trx_op_index o) ∧ get_i32 (commit_entry o i c) 4 = Some i.
Proof.
  intros Hi. unfold commit_entry, trx_header. rewrite <-!app_assoc. split.
  - apply (get_i32_at [] _ (trx_op_index o)). by destruct o.
  - by apply (get_i32_at (le_bytes 4 (trx_op_index o)) (le_bytes 4 c) i).
Qed.

Lemma replay_fields e : in_srange 32 (entry_id e) →
  (Z.of_nat (length (entry_bytes e)) <? MvccTrxLogHeader_SIZE) = false ∧ get_i32 (entry_bytes e) 4 = Some (entry_id e) ∧
  get_i32 (entry_bytes e) 0 = Some (trx_op_index match e with InsertedEntry _ _ _ => INSERT_RECORD | DeletedEntry _ _ _ => DELETE_RECORD
                                                 | CommitEntry _ _ => COMMIT | RollbackEntry _ _ => ROLLBACK end).
Proof.
  intros Hi. split; [by destruct e|]. destruct e as [i t rid|i t rid|i c|i c]; cbn [entry_id entry_bytes] in *.
  1,2: unfold record_entry, trx_header; rewrite <-!app_assoc.
  3,4: unfold commit_entry, trx_header; rewrite <-!app_assoc.
  all: split; [by apply (get_i32_at (le_bytes 4 (trx_op_index _)))|by apply (get_i32_at [])].
Qed.

(** Making the transaction. *)
Definition after_create (d : Db) (i : Z) (p : TrxPtr) (x : MvccTrx) : Db :=
  mkDb (db_tables d) (db_log d) (Z.max (current_trx_id_ d) i) (trxes_ d ++ [p]) (<[p := x]> (trx_objects d)).

Lemma create_trx_with_run (d : Db) i : let p := fresh (dom (trx_objects d)) in
  create_trx_with i d = Some (p, after_create d i p (recovering_trx i)) ∧ trx_objects d !! p = None.
Proof.
  intros p. split; [|apply not_elem_of_dom; apply is_fresh]. unfold create_trx_with, after_create. mstep. fold p.
  destruct (Z.ltb_spec (current_trx_id_ d) i); mstep; [rewrite Z.max_r by lia|rewrite Z.max_l by lia]; done.
Qed.

Lemma redo_run (d : Db) p i e : entry_ok (db_tables d) e → i = entry_id e →
  trx_redo p (entry_bytes e) (after_create d i p (recovering_trx i)) = Some (RC.SUCCESS, after_create d i p (redone e)).
Proof.
  intros [Hi He] ->. set (d1 := after_create _ _ _ _).
  assert (trx_of p d1 = Some (recovering_trx (entry_id e), d1)) as Ex by (unfold trx_of; mstep; unfold d1; cbn; by rewrite lookup_insert_eq).
  destruct (replay_fields e Hi) as (_ & _ & E0). unfold trx_redo. rewrite E0. mstep.
  destruct e as [i t rid|i t rid|i c|i c]; cbn [entry_id entry_bytes redone] in *; try done.
  - destruct He as (Ht & [m Hm] & Hp & Hs). destruct (record_entry_fields INSERT_RECORD i t rid Hi Ht Hp Hs) as (_ & _ & E2 & E3).
    remember (record_entry INSERT_RECORD i t rid) as data. clear Heqdata E0.
    cbn [trx_op_index trx_op_of Z.eqb Pos.eqb find_table]. rewrite E2. mstep. cbn [db_tables after_create d1]. rewrite Hm. mstep. change (RC.OB_FAIL RC.SUCCESS) with false. cbn iota.
    unfold redo_operation. rewrite E3. mstep. rewrite Ex. unfold d1, after_create, set_trxes. cbn. by rewrite insert_insert_eq.
  - destruct He as (Ht & [m Hm] & Hp & Hs). destruct (record_entry_fields DELETE_RECORD i t rid Hi Ht Hp Hs) as (_ & _ & E2 & E3).
    remember (record_entry DELETE_RECORD i t rid) as data. clear Heqdata E0.
    cbn [trx_op_index trx_op_of Z.eqb Pos.eqb find_table]. rewrite E2. mstep. cbn [db_tables after_create d1]. rewrite Hm. mstep. change (RC.OB_FAIL RC.SUCCESS) with false. cbn iota.
    unfold redo_operation. rewrite E3. mstep. rewrite Ex. unfold d1, after_create, set_trxes. cbn. by rewrite insert_insert_eq.
Qed.

(** One entry: the transaction that is made for it is not put into the map. *)
Lemma replay_entry (d : Db) e : entry_ok (db_tables d) e →
  ∃ p, trx_objects d !! p = None ∧ trx_replay (entry_bytes e) ∅ d = Some ((RC.SUCCESS, ∅), after_create d (entry_id e) p (redone e)).
Proof.
  intros He. pose proof He as [Hi _]. destruct (create_trx_with_run d (entry_id e)) as [Ec Hfree]. eexists. split; [exact Hfree|].
  destruct (replay_fields e Hi) as (El & E4 & E0). unfold trx_replay. rewrite El, E4. mstep. rewrite E0. mstep.
  rewrite lookup_empty. mstep. rewrite Ec, (redo_run d _ _ e He eq_refl). destruct e; cbn; mstep; try done.
Qed.

(** All entries: what was there stays. *)
Lemma replay_entries_run (d : Db) l : Forall (entry_ok (db_tables d)) l →
  ∃ d' ps, replay_entries (entry_bytes <$> l) ∅ d = Some ((RC.SUCCESS, ∅), d') ∧ db_tables d' = db_tables d ∧ db_log d' = db_log d ∧
    trxes_ d' = trxes_ d ++ ps ∧ Forall2 (λ p e, trx_objects d' !! p = Some (redone e)) ps l ∧ trx_objects d ⊆ trx_objects d' ∧
    current_trx_id_ d ≤ current_trx_id_ d' ∧ Forall (λ e, entry_id e ≤ current_trx_id_ d') l.
Proof.
  revert d. induction l as [|e l IH]; intros d Hl.
  - exists d, []. split_and!; try done. by rewrite app_nil_r.
  - apply list.Forall_cons in Hl as [He Hl]. destruct (replay_entry d e He) as (p & Hp & E). set (d1 := after_create d (entry_id e) p (redone e)) in E.
    destruct (IH d1 Hl) as (d' & ps & E' & Ht & Hlog & Htr & H2 & Hsub & Hcur & Hids). cbn [current_trx_id_ after_create d1] in Hcur.
    exists d', (p :: ps). split; [|split_and!].
    + cbn [fmap list_fmap replay_entries]. rewrite (exec E). exact E'.
    + done.
    + done.
    + rewrite Htr. cbn. by rewrite <-app_assoc.
    + constructor; [|done]. eapply lookup_weaken; [|exact Hsub]. cbn. apply lookup_insert_eq.
    + etrans; [|exact Hsub]. by apply insert_subseteq.
    + lia.
    + constructor; [lia|done].
Qed.

(** C13: the transactions that were under way when the system stopped are not rolled
    back.  The entries of transactions in the log are replayed without any effect on
    the tables; every entry makes a transaction of its own, which the kit keeps, even
    when the entry says that the transaction has ended; and [on_done] has nothing to
    roll back.  The ids of the entries are not given to new transactions. *)
Theorem recovery_never_rolls_back (d : Db) l : Forall (entry_ok (db_tables d)) l →
  ∃ d', replay_entries (entry_bytes <$> l) ∅ d = Some ((RC.SUCCESS, ∅), d') ∧ trx_on_done (L:=L) 0 ∅ d' = Some ((RC.SUCCESS, ∅), d') ∧
    db_tables d' = db_tables d ∧ db_log d' = db_log d ∧
    (∃ ps, trxes_ d' = trxes_ d ++ ps ∧ Forall2 (λ p e, trx_objects d' !! p = Some (redone e)) ps l) ∧
    current_trx_id_ d ≤ current_trx_id_ d' ∧ Forall (λ e, entry_id e ≤ current_trx_id_ d') l.
Proof.
  intros Hl. destruct (replay_entries_run d l Hl) as (d' & ps & E & Ht & Hlog & Htr & H2 & _ & Hcur & Hids).
  exists d'. split; [exact E|]. split; [done|]. split_and!; try done. by exists ps.
Qed.
End recovery.

(** ** Heap tables in memory *)
Module Memory.
Import MemStorage.
Notation MemDb := (Db (TableWorld Mem) unit).
Implicit Types (d : MemDb) (p : TrxPtr).

(** Whether a request is allowed. *)
Definition runningb d p : bool := match trx_objects d !! p with Some x => started_ x | None => false end.
Definition mvcc_metab (m : TableMeta) : bool :=
  match trx_fields m with
  | b :: e :: _ =>
      bool_decide (fm_type b = INTS ∧ fm_len b = 4 ∧ fm_offset b = 0 ∧ fm_type e = INTS ∧ fm_len e = 4 ∧ fm_offset e = 4 ∧ 8 ≤ tm_record_size m)
  | _ => false
  end.
Definition in_snapshotb (i : Z) (r : list Z) : bool :=
  (0 <? begin_xid r) && (begin_xid r <=? i) && ((end_xid r <? 0) || (i <=? end_xid r)).
Definition deletableb d p (k : Z * RID) : bool :=
  match recs d !! k, trx_objects d !! p with
  | Some r, Some x =>
      negb (begin_xid r =? - trx_id_ x) &&
      (negb (in_snapshotb (trx_id_ x) r) ||
       forallb (λ qy, negb (started_ qy.2) || (begin_xid r <=? trx_id_ qy.2)) (map_to_list (trx_objects d)) &&
       ((end_xid r <=? 0) || (end_xid r =? max_trx_id)))
  | _, _ => true
  end.
Definition bareb (s : TableWorld Mem) (t : TableId) : bool := match tw_tables s !! t with Some T => match indexes_ T with [] => true | _ => false end | None => true end.
Definition allowedb d (q : request) : bool :=
  match q with
  | Begin p => (current_trx_id_ d + 1 <? max_trx_id) && match trx_objects d !! p with Some x => negb (started_ x) | None => false end
  | InsertRow p t record => runningb d p && match tb_meta t (db_tables d) with Some m => mvcc_metab m && (Z.of_nat (length record) =? tm_record_size m) | None => false end
  | DeleteRow p t rid => runningb d p && match tb_meta t (db_tables d) with Some m => mvcc_metab m | None => false end && deletableb d p (t, rid)
  | ReadRow p t rid => runningb d p && match tb_meta t (db_tables d) with Some _ => true | None => false end
  | Commit p => runningb d p && (current_trx_id_ d + 1 <? max_trx_id)
  | Rollback p => runningb d p && match trx_objects d !! p with Some x => forallb (λ o, bareb (db_tables d) (op_table o)) (operations_ x) | None => true end
  end.

Lemma running_ok d p : runningb d p = true → running d p.
Proof. unfold runningb, running. destruct (trx_objects d !! p) as [x|]; [eauto|done]. Qed.

Lemma meta_ok m : mvcc_metab m = true → mvcc_meta m.
Proof.
  unfold mvcc_metab. destruct (trx_fields m) as [|b [|e l]] eqn:E; [done..|]. intros (? & ? & ? & ? & ? & ? & ?)%bool_decide_eq_true.
  split; [|done]. rewrite E. exists b, e, l. by split_and!.
Qed.

Lemma in_snapshot_ok i r : in_snapshot i r → in_snapshotb i r = true.
Proof. unfold in_snapshot, in_snapshotb. lia. Qed.

Lemma deletable_ok d p k : deletableb d p k = true → deletable d p k.
Proof.
  intros H r x Hr Hx. unfold deletableb in H. rewrite Hr, Hx in H.
  apply andb_true_iff in H as [Hb H]. split; [lia|]. apply orb_true_iff in H as [H|[Hf He]%andb_true_iff].
  - split; intros Hs%in_snapshot_ok; by rewrite Hs in H.
  - split; [|lia]. intros _ _ q y Hq Hy. rewrite forallb_forall in Hf. specialize (Hf (q, y)). cbn in Hf. rewrite Hy in Hf. cbn in Hf.
    apply Z.leb_le, Hf, list_elem_of_In. by apply elem_of_map_to_list.
Qed.

Lemma bare_ok (s : TableWorld Mem) t : bareb s t = true → tv_bare tv t s.
Proof. unfold bareb. cbn. intros H T Ht. rewrite Ht in H. by destruct (indexes_ T). Qed.

Lemma allowed_ok d q : allowedb d q = true → allowed d q.
Proof.
  destruct q as [p|p t r|p t rid|p t rid|p|p]; unfold allowedb, allowed.
  - destruct (trx_objects d !! p) as [x|] eqn:E; [|by rewrite andb_false_r]. intros [H1 H2]%andb_true_iff. split; [unfold room; lia|]. exists x. by destruct (started_ x).
  - destruct (tb_meta t (db_tables d)) as [m|] eqn:E; [|by destruct (runningb d p)]. intros [H1%running_ok [H2%meta_ok H3]%andb_true_iff]%andb_true_iff. split; [done|]. exists m. split_and!; [done|done|lia].
  - destruct (tb_meta t (db_tables d)) as [m|] eqn:E; [|by destruct (runningb d p)]. intros [[H1%running_ok H2%meta_ok]%andb_true_iff H3%deletable_ok]%andb_true_iff. split_and!; eauto.
  - destruct (tb_meta t (db_tables d)) as [m|] eqn:E; [|by destruct (runningb d p)]. intros [H1%running_ok _]%andb_true_iff. by split.
  - intros [H1%running_ok H2]%andb_true_iff. split; [done|]. unfold room. lia.
  - intros [H1%running_ok H2]%andb_true_iff. split; [done|]. intros x o Hx Ho. rewrite Hx in H2. rewrite forallb_forall in H2. apply bare_ok, H2. by apply list_elem_of_In.
Qed.


(** A database without records and with transactions that have not begun. *)
Definition new_db (s : TableWorld Mem) (l : list TrxPtr) : MemDb := mkDb s tt 0 l (list_to_map ((λ p, (p, new_trx)) <$> l)).

Lemma new_db_coupled s l : tv_inv tv s → (∀ k, tv_recs tv s !! k = None) → coupled (new_db s l) (mkSnapshots ∅ ∅).
Proof.
  intros I H. assert (∀ k, recs (new_db s l) !! k = None) as Hr by done. split; try done.
  - intros k r Hk. by rewrite Hr in Hk.
  - intros k r Hk. by rewrite Hr in Hk.
  - intros p x Hp%elem_of_list_to_map_2. apply list_elem_of_fmap in Hp as (q & [= _ ->] & _). by cbn.
  - intros k row. cbn. rewrite lookup_empty. split; [done|]. intros (r & Hk & _). by rewrite Hr in Hk.
Qed.
End Memory.

(** ** Example: two tables, the second one with an index *)
Module Demo.
Import MemStorage Memory.
Definition no_meta : TableMeta := mkTableMeta (-1) "" [] [] [] [] 0 0 0 0.
Definition meta (t : Z) (name : string) : TableMeta :=
  match table_meta_init no_meta t (Some name) kit_fields [mkAttrInfo INTS "a" 4 false] [] 0 0 with Some (_, m) => m | None => no_meta end.
Definition meta_t : TableMeta := Eval vm_compute in meta 1 "t".
Definition meta_u : TableMeta := Eval vm_compute in add_index (meta 2 "u") (mkIndexMeta "i_a" "a").
Definition index_a : BplusTreeIndex := mkIndex true (mkIndexMeta "i_a" "a") (mkFieldMeta "a" INTS 8 4 true 0 false) (Some 7).
Definition plain_table : HeapTable := mkHeapTable meta_t (Some 1) (Some 1) [].
Definition indexed_table : HeapTable := mkHeapTable meta_u (Some 2) (Some 2) [index_a].
Definition tables : TableWorld Mem := mkTableWorld (mkMem {[1 := ∅; 2 := ∅]} {[7 := mkBTree INTS 4 ∅]} 10) {[1 := plain_table; 2 := indexed_table]}.
Definition db : MemDb := new_db tables [1%positive; 2%positive].

Lemma tables_cases t T : tw_tables tables !! t = Some T → t = 1 ∧ T = plain_table ∨ t = 2 ∧ T = indexed_table.
Proof. cbn. rewrite lookup_insert_Some, lookup_singleton_Some. naive_solver. Qed.

Lemma empty_tables t T : tw_tables tables !! t = Some T → table_ok (tw_world tables) T ∅.
Proof.
  intros HT. split.
  - split; cbn.
    + intros f σ rid [[_ <-]|[_ [_ <-]%lookup_singleton_Some]]%lookup_insert_Some [r Hr]; by rewrite lookup_empty in Hr.
    + intros i [x [<- _]%lookup_singleton_Some]. done.
  - exists t. by destruct (tables_cases t T HT) as [[-> ->]|[-> ->]].
  - intros rid r Hr. by rewrite lookup_empty in Hr.
  - intros x Hx. destruct (tables_cases t T HT) as [[-> ->]|[-> ->]]; cbn in Hx; [set_solver|]. apply list_elem_of_singleton in Hx as ->.
    split; [|done|done]. by eexists 7, _.
  - destruct (tables_cases t T HT) as [[-> ->]|[-> ->]]; cbn; [by apply list.NoDup_nil|apply list.NoDup_singleton].
  - intros x Hx. destruct (tables_cases t T HT) as [[-> ->]|[-> ->]]; cbn in Hx; [set_solver|]. by apply list_elem_of_singleton in Hx as ->.
  - intros x i k rid Hx Hi Hk. destruct (tables_cases t T HT) as [[-> ->]|[-> ->]]; cbn in Hx; [set_solver|]. apply list_elem_of_singleton in Hx as ->.
    cbn in Hi. injection Hi as <-. exfalso. change (entries_of (tw_world tables) 7) with (∅ : gset (list Z * RID)) in Hk. set_solver.
  - intros x i rid r _ _ Hr. by rewrite lookup_empty in Hr.
Qed.

Lemma tables_ready : tv_inv tv tables ∧ ∀ k, tv_recs tv tables !! k = None.
Proof.
  split.
  - split.
    + intros t T HT. pose proof (empty_tables t T HT) as Tk. by rewrite (records_of_ok _ _ _ _ Tk).
    + apply (tk_inv _ _ _ _ (empty_tables 1 plain_table eq_refl)).
    + intros t1 t2 T1 T2 H1 H2 Hne. destruct (tables_cases _ _ H1) as [[-> ->]|[-> ->]], (tables_cases _ _ H2) as [[-> ->]|[-> ->]]; try done; (split; [done|]); cbn; set_solver.
    + intros t T x HT Hx. destruct (tables_cases t T HT) as [[-> ->]|[-> ->]]; cbn in Hx; [set_solver|]. by apply list_elem_of_singleton in Hx as ->.
  - intros [t rid]. change (tv_recs tables_seen tables !! (t, rid) = None). destruct (tw_tables tables !! t) as [T|] eqn:HT; [|by apply seen_none].
    rewrite (seen_lookup _ t T rid HT), (records_of_ok _ _ _ _ (empty_tables t T HT)). apply lookup_empty.
Qed.

Lemma db_coupled : coupled db (mkSnapshots ∅ ∅).
Proof. apply new_db_coupled; apply tables_ready. Qed.

Definition row (z : Z) : list Z := replicate 8 0 ++ le_bytes 4 z ++ [0].
Definition rid (i : Z) : RID := mkRID 1 (10 + i).

(** A row that one transaction deletes while another one reads it, then a row of the
    table with the index. *)
Definition history : list request :=
  [Begin 1%positive; InsertRow 1%positive 1 (row 7); Commit 1%positive; Begin 1%positive; Begin 2%positive; ReadRow 2%positive 1 (rid 0);
   DeleteRow 1%positive 1 (rid 0); ReadRow 1%positive 1 (rid 0); ReadRow 2%positive 1 (rid 0); DeleteRow 2%positive 1 (rid 0);
   InsertRow 1%positive 1 (row 8); ReadRow 2%positive 1 (rid 1); Commit 1%positive; ReadRow 2%positive 1 (rid 0); ReadRow 2%positive 1 (rid 1);
   InsertRow 2%positive 1 (row 9); Rollback 2%positive; Begin 2%positive; ReadRow 2%positive 1 (rid 0); ReadRow 2%positive 1 (rid 1); ReadRow 2%positive 1 (rid 2);
   Begin 1%positive; InsertRow 1%positive 2 (row 5); Commit 1%positive].

Definition content (z : Z) : list Z := le_bytes 4 z ++ [0].
Example history_replies : fst <$> serve_all 0 history db = Some
  [Did RC.SUCCESS; Inserted RC.SUCCESS (rid 0); Did RC.SUCCESS; Did RC.SUCCESS; Did RC.SUCCESS; Row_ (Some (content 7));
   Did RC.SUCCESS; Row_ None; Row_ (Some (content 7)); Did RC.LOCKED_CONCURRENCY_CONFLICT;
   Inserted RC.SUCCESS (rid 1); Row_ None; Did RC.SUCCESS; Row_ (Some (content 7)); Row_ None;
   Inserted RC.SUCCESS (rid 2); Did RC.SUCCESS; Did RC.SUCCESS; Row_ None; Row_ (Some (content 8)); Row_ None;
   Did RC.SUCCESS; Inserted RC.SUCCESS (rid 3); Did RC.SUCCESS].
Proof. vm_compute. reflexivity. Qed.

(** What is not allowed in a history, and why.  A row that was inserted and deleted
    twice by one transaction: its commit fails an assertion. *)
Example deleting_twice_aborts :
  serve_all 0 [Begin 1%positive; InsertRow 1%positive 1 (row 7); DeleteRow 1%positive 1 (rid 0); DeleteRow 1%positive 1 (rid 0)] db ≠ None ∧
  serve_all 0 [Begin 1%positive; InsertRow 1%positive 1 (row 7); DeleteRow 1%positive 1 (rid 0); DeleteRow 1%positive 1 (rid 0); Commit 1%positive] db = None.
Proof. by vm_compute. Qed.

(** A deletion that was committed is undone by the rollback of an older transaction. *)
Example deletion_is_lost : fst <$> serve_all 0
  [Begin 1%positive; InsertRow 1%positive 1 (row 7); Commit 1%positive; Begin 1%positive; Begin 2%positive;
   DeleteRow 2%positive 1 (rid 0); Commit 2%positive; DeleteRow 1%positive 1 (rid 0); Rollback 1%positive;
   Begin 1%positive; ReadRow 1%positive 1 (rid 0)] db =
  Some [Did RC.SUCCESS; Inserted RC.SUCCESS (rid 0); Did RC.SUCCESS; Did RC.SUCCESS; Did RC.SUCCESS;
        Did RC.SUCCESS; Did RC.SUCCESS; Did RC.SUCCESS; Did RC.SUCCESS; Did RC.SUCCESS; Row_ (Some (content 7))].
Proof. vm_compute. reflexivity. Qed.

(** A transaction sees a row that was committed after it began, while a third one
    deletes the row. *)
Example newer_row_is_seen : fst <$> serve_all 0
  [Begin 2%positive; Begin 1%positive; InsertRow 1%positive 1 (row 7); Commit 1%positive; Begin 1%positive;
   ReadRow 2%positive 1 (rid 0); DeleteRow 1%positive 1 (rid 0); ReadRow 2%positive 1 (rid 0)] db =
  Some [Did RC.SUCCESS; Did RC.SUCCESS; Inserted RC.SUCCESS (rid 0); Did RC.SUCCESS; Did RC.SUCCESS;
        Row_ None; Did RC.SUCCESS; Row_ (Some (content 7))].
Proof. vm_compute. reflexivity. Qed.

Lemma takes_all : log_accepts (L:=unit).
Proof. intros l md pl rc n l' _. cbn. by intros [= <- _ _]. Qed.

(** A transaction that has inserted a row. *)
Definition inserting : MemDb := match serve_all 0 [Begin 1%positive; InsertRow 1%positive 1 (row 7)] db with Some (_, d) => d | None => db end.
Lemma inserting_coupled : ∃ A y, coupled inserting A ∧ active A !! 1%positive = Some y ∧ tx_inserted y !! (1, rid 0) = Some (content 7).
Proof.
  set (qs := [Begin 1%positive; InsertRow 1%positive 1 (row 7)]).
  destruct (serve_step 0 db _ (Begin 1%positive) takes_all db_coupled) as (a1 & d1 & A1 & E1 & S1 & C1); [by apply allowed_ok; vm_compute|].
  destruct (serve_step 0 d1 A1 (InsertRow 1%positive 1 (row 7)) takes_all C1) as (a2 & d2 & A2 & E2 & S2 & C2).
  { apply allowed_ok. revert E1. vm_compute. by intros [= <- <-]. }
  assert (serve_all 0 [InsertRow 1%positive 1 (row 7)] d1 = Some ([a2], d2)) as E3 by (cbn [serve_all]; by rewrite (exec E2)).
  assert (serve_all 0 qs db = Some ([a1; a2], d2)) as E by (unfold qs; cbn [serve_all] in *; by rewrite (exec E1), (exec E3)).
  assert (d2 = inserting) as -> by (unfold inserting; fold qs; by rewrite E).
  assert (fst <$> serve_all 0 qs db = Some [Did RC.SUCCESS; Inserted RC.SUCCESS (rid 0)]) as Er by (vm_compute; reflexivity).
  rewrite E in Er. injection Er as _ ->. inversion S2; subst; [|done]. eexists _, _. split; [exact C2|].
  cbn. rewrite lookup_insert_eq. split; [done|]. cbn. by rewrite lookup_insert_eq.
Qed.
End Demo.



Lemma own_row_survives_deletion_witness :
  let delete := DeleteRow 1%positive 1 (Demo.rid 0) in let read := ReadRow 1%positive 1 (Demo.rid 0) in
  ∃ d', serve_all 0 [delete; read; delete; delete; read] Demo.inserting =
    Some ([Did RC.SUCCESS; Row_ (Some (Demo.content 7)); Did RC.SUCCESS; Did RC.SUCCESS; Row_ (Some (Demo.content 7))], d').
Proof.
  intros delete read. destruct Demo.inserting_coupled as (A & y & C & Hy & Hr).
  destruct (own_row_survives_deletion 0 _ A 1%positive y 1 (Demo.rid 0) _ [delete; read; delete; delete; read] Demo.takes_all C Hy Hr) as (d' & E).
  - repeat (apply Forall_cons_2; [unfold of_row; auto|]). by apply Forall_nil_2.
  - exists d'. exact E.
Defined.

(** Transaction 5 has inserted a row and is under way, 6 has committed a deletion. *)
Lemma recovery_never_rolls_back_witness :
  let d := Demo.inserting in let l := [InsertedEntry 5 1 (Demo.rid 0); DeletedEntry 6 1 (Demo.rid 0); CommitEntry 6 7] in
  ∃ d', replay_entries (entry_bytes <$> l) ∅ d = Some ((RC.SUCCESS, ∅), d') ∧ trx_on_done (L:=unit) 0 ∅ d' = Some ((RC.SUCCESS, ∅), d') ∧
    db_tables d' = db_tables d ∧ db_log d' = db_log d ∧
    (∃ ps, trxes_ d' = trxes_ d ++ ps ∧ Forall2 (λ p e, trx_objects d' !! p = Some (redone e)) ps l) ∧
    current_trx_id_ d ≤ current_trx_id_ d' ∧ Forall (λ e, entry_id e ≤ current_trx_id_ d') l.
Proof.
  apply recovery_never_rolls_back. repeat constructor; cbn; try lia; vm_compute; eauto.
Defined.
