(* ===== verification/Value.v ===== *)
(** * Values and data types

    Models [Value] of [common/value.cpp] and the [DataType] classes of
    [common/type/]: how values are set, copied, compared, converted, computed with and
    printed.  Numbers in strings are read as [strtol], [strtof] and [sscanf] do; a
    [float] is an IEEE binary32 number.  A value owns the string it points to, so that
    a pointer is modelled by what it points to; releasing the memory is left out.
    [None] is undefined behaviour: a failed assertion, or signed arithmetic out of the
    range of an [int]. *)

From Stdlib Require Import SpecFloat.
From S2P Require Import Prelude Types Bytes RecordPage IndexKey.
Local Open Scope Z_scope.

(** ** Numbers in strings: what the C library does *)
Definition is_digit (c : Z) : bool := (48 <=? c) && (c <=? 57).
Definition is_space (c : Z) : bool := (c =? 32) || ((9 <=? c) && (c <=? 13)).
Definition lower (c : Z) : Z := if (65 <=? c) && (c <=? 90) then c + 32 else c.

Fixpoint span {A} (p : A → bool) (s : list A) : list A * list A :=
  match s with
  | [] => ([], [])
  | c :: s' => if p c then let '(a, b) := span p s' in (c :: a, b) else ([], s)
  end.

(** The value of a digit, also of a hexadecimal one. *)
Definition digit_val (c : Z) : Z := if is_digit c then c - 48 else lower c - 87.
Definition digits_val (base : Z) (l : list Z) : Z := foldl (λ n c, base * n + digit_val c) 0 l.

Definition scan_sign (s : list Z) : bool * list Z :=
  match s with c :: s' => if c =? 45 then (true, s') else if c =? 43 then (false, s') else (false, s) | [] => (false, []) end.

(** A number as [strtol] and [%d] read it, and what follows; [None]: no digit. *)
Definition scan_int (s : list Z) : option (Z * list Z) :=
  let '(neg, s) := scan_sign (span is_space s).2 in
  match span is_digit s with
  | ([], _) => None
  | (ds, rest) => Some (if neg then - digits_val 10 ds else digits_val 10 ds, rest)
  end.

(** Decimal digits, most significant first. *)
Fixpoint show_loop (fuel : nat) (n : Z) (acc : list Z) : list Z :=
  let acc := 48 + n mod 10 :: acc in
  if n <? 10 then acc else match fuel with O => acc | S fuel => show_loop fuel (n / 10) acc end.
Definition show_nat (n : Z) : list Z := show_loop (Z.to_nat (Z.log2 n)) n [].
Definition show_int (z : Z) : list Z := if z <? 0 then 45 :: show_nat (- z) else show_nat z.

(** [stol]: [None] when it throws. *)
Definition stol (s : list Z) : option Z :=
  '(z, _) ← scan_int s; if (- 2 ^ 63 <=? z) && (z <? 2 ^ 63) then Some z else None.

(** *** [strtof] *)
(** [n * 2 ^ e] for [m * base ^ k]: exact, or below the last place of any [float] with
    a last bit that stands for the rest. *)
Definition scaled (m base k : Z) : Z * Z :=
  if 0 <=? k then (m * base ^ k, 0)
  else
    let d := base ^ (- k) in
    let s := Z.log2 d + 64 in
    (2 * (m * 2 ^ s / d) + (if m * 2 ^ s mod d =? 0 then 0 else 1), - (s + 1)).

Definition is_exact (f : spec_float) (n e : Z) : bool :=
  match f with
  | S754_zero _ => n =? 0
  | S754_finite _ m e' => let e0 := Z.min e e' in Zpos m * 2 ^ (e' - e0) =? Z.abs n * 2 ^ (e - e0)
  | _ => false
  end.

(** The result of rounding to 24 bits with any exponent is below [2 ^ -126]. *)
Definition is_tiny (n e : Z) : bool :=
  match binary_normalize 24 (2 ^ 20) n e false with
  | S754_finite _ m e' => Z.log2 (Zpos m) + e' <? -126
  | S754_zero _ => negb (n =? 0)
  | _ => false
  end.

(** [None]: out of range. *)
Definition round_float (neg : bool) (m base k : Z) : option spec_float :=
  let '(n, e) := scaled m base k in
  let f := binary_normalize 24 128 (cond_Zopp neg n) e neg in
  match f with
  | S754_infinity _ => None
  | _ => if is_tiny n e && negb (is_exact f n e) then None else Some f
  end.

Definition is_hex (c : Z) : bool := is_digit c || ((97 <=? lower c) && (lower c <=? 102)).

(** Digits with a point among them: their value, how many follow the point, what
    follows; [None]: no digit. *)
Definition scan_mantissa (base : Z) (p : Z → bool) (s : list Z) : option (Z * Z * list Z) :=
  let '(a, s) := span p s in
  let '(b, s') := match s with c :: s' => if c =? 46 then span p s' else ([], s) | [] => ([], []) end in
  match a ++ b with [] => None | l => Some (digits_val base l, Z.of_nat (length b), s') end.

Definition scan_exponent (mark : Z) (s : list Z) : Z :=
  match s with
  | c :: s => if lower c =? mark then
                let '(neg, s) := scan_sign s in
                let z := digits_val 10 (span is_digit s).1 in if neg then - z else z
              else 0
  | [] => 0
  end.

Definition starts_with (p s : list Z) : bool := bool_decide (lower <$> take (length p) s = p).

(** [stof]: [None] when it throws. *)
Definition stof (s : list Z) : option spec_float :=
  let '(neg, s) := scan_sign (span is_space s).2 in
  if starts_with [105; 110; 102] s then Some (S754_infinity neg)
  else if starts_with [110; 97; 110] s then Some S754_nan
  else
    match (if starts_with [48; 120] s then scan_mantissa 16 is_hex (drop 2 s) else None) with
    | Some (m, frac, rest) => round_float neg m 2 (scan_exponent 112 rest - 4 * frac)
    | None =>
        '(m, frac, rest) ← scan_mantissa 10 is_digit s;
        round_float neg m 10 (scan_exponent 101 rest - frac)
    end.

(** ** [Value] *)
Inductive Val : Type :=
  | IntVal (z : Z)
  | FloatVal (f : spec_float)
  | BoolVal (b : bool)
  | PointerVal (s : option (list Z)).

Record Value : Type := mkValue {
  attr_type_ : AttrType;
  length_ : Z;
  value_ : Val;
  own_data_ : bool;
  is_null_ : bool
}.
#[global] Instance Val_eq_dec : EqDecision Val.
Proof. intros x y. unfold Decision. decide equality; try apply Z.eq_dec; try apply bool_dec; [decide equality; try apply bool_dec; try apply Z.eq_dec; apply Pos.eq_dec|apply option_eq_dec]. Defined.
#[global] Instance Value_eq_dec : EqDecision Value.
Proof. solve_decision. Defined.

Definition default_value : Value := mkValue UNDEFINED 0 (IntVal 0) false false.

(** *** Setting *)
Definition reset (v : Value) : Value :=
  mkValue UNDEFINED 0
    (match attr_type_ v, own_data_ v, value_ v with CHARS, true, PointerVal (Some _) => PointerVal None | _, _, x => x end)
    false false.
Definition set_null (v : Value) : Value := let v := reset v in mkValue (attr_type_ v) (length_ v) (value_ v) (own_data_ v) true.
Definition set_type (t : AttrType) (v : Value) : Value := mkValue t (length_ v) (value_ v) (own_data_ v) (is_null_ v).
Definition set_int (z : Z) (v : Value) : Value := let v := reset v in mkValue INTS 4 (IntVal z) (own_data_ v) (is_null_ v).
Definition set_float (f : spec_float) (v : Value) : Value := let v := reset v in mkValue FLOATS 4 (FloatVal f) (own_data_ v) (is_null_ v).
Definition set_boolean (b : bool) (v : Value) : Value := let v := reset v in mkValue BOOLEANS 1 (BoolVal b) (own_data_ v) (is_null_ v).

(** [s]: the memory from the pointer on; [None]: a null pointer. *)
Definition value_set_string (s : option (list Z)) (len : Z) (v : Value) : option Value :=
  let v := reset v in
  match s with
  | None => Some (mkValue CHARS 0 (PointerVal None) (own_data_ v) (is_null_ v))
  | Some s => c ← set_string s len; Some (mkValue CHARS (Z.of_nat (length c)) (PointerVal (Some c)) true (is_null_ v))
  end.
(** [None]: [new char[len + 1]] on a negative number. *)
Definition set_empty_string (len : Z) (v : Value) : option Value :=
  let v := reset v in
  if len <? 0 then None else Some (mkValue CHARS len (PointerVal (Some (replicate (Z.to_nat len) 0))) true (is_null_ v)).

Definition null_value : Value := set_null default_value.
Definition int_value (z : Z) : Value := set_int z default_value.
Definition float_value (f : spec_float) : Value := set_float f default_value.
Definition bool_value (b : bool) : Value := set_boolean b default_value.

(** The bytes are read as the type of the value says; an unknown type leaves it as it is. *)
Definition set_data (data : list Z) (len : Z) (v : Value) : option Value :=
  match attr_type_ v with
  | CHARS => value_set_string (Some data) len v
  | INTS | DATES => z ← get_i32 data 0; Some (mkValue (attr_type_ v) len (IntVal z) (own_data_ v) (is_null_ v))
  | FLOATS => z ← get_i32 data 0; Some (mkValue FLOATS len (FloatVal (float_of_bits z)) (own_data_ v) (is_null_ v))
  | BOOLEANS => z ← get_i32 data 0; Some (mkValue BOOLEANS len (BoolVal (negb (z =? 0))) (own_data_ v) (is_null_ v))
  | UNDEFINED | VECTORS => Some v
  end.

(** The copy constructor and the assignment: an owned string is copied. *)
Definition copy_string (v : Value) : option Val :=
  match value_ v with
  | PointerVal s => if negb (own_data_ v) then Some (PointerVal s)
                    else match s with
                         | Some s => Some (PointerVal (Some (take (Z.to_nat (length_ v)) s)))
                         | None => if length_ v =? 0 then Some (PointerVal (Some [])) else None
                         end
  | _ => None
  end.
Definition copy_value (v : Value) : option Value :=
  match attr_type_ v with
  | CHARS => p ← copy_string v; Some (mkValue CHARS (length_ v) p (own_data_ v) (is_null_ v))
  | t => Some (mkValue t (length_ v) (value_ v) (own_data_ v) (is_null_ v))
  end.

(** *** Reading *)
Definition string_of (v : Value) : option (list Z) := match value_ v with PointerVal (Some s) => Some s | _ => None end.

(** An [int], unless it overflows. *)
Definition as_int (z : Z) : option Z := if (- 2 ^ 31 <=? z) && (z <? 2 ^ 31) then Some z else None.
Lemma as_int_id z : in_srange 32 z → as_int z = Some z.
Proof. unfold in_srange, as_int. change (32 - 1) with 31. intros [H1 H2]. by rewrite (proj2 (Z.leb_le _ _) H1), (proj2 (Z.ltb_lt _ _) H2). Qed.

Definition int_of_float (f : spec_float) : option Z :=
  match f with
  | S754_zero _ => Some 0
  | S754_finite s m e =>
      let n := if 0 <=? e then Zpos m * 2 ^ e else Zpos m / 2 ^ (- e) in
      as_int (cond_Zopp s n)
  | _ => None
  end.
Definition float_of_int (z : Z) : spec_float := binary_normalize 24 128 z 0 false.

(** [None]: undefined behaviour, as when a float does not fit. *)
Definition get_int (v : Value) : option Z :=
  match attr_type_ v with
  | CHARS => s ← string_of v; Some (match stol (c_str s) with Some z => swrap 32 z | None => 0 end)
  | INTS | DATES => match value_ v with IntVal z => Some z | _ => None end
  | FLOATS => match value_ v with FloatVal f => int_of_float f | _ => None end
  | BOOLEANS => match value_ v with BoolVal b => Some (Z.b2z b) | _ => None end
  | UNDEFINED | VECTORS => Some 0
  end.

Definition get_float (v : Value) : option spec_float :=
  match attr_type_ v with
  | CHARS => s ← string_of v; Some (match stof (c_str s) with Some f => f | None => S754_zero false end)
  | INTS => match value_ v with IntVal z => Some (float_of_int z) | _ => None end
  | FLOATS => match value_ v with FloatVal f => Some f | _ => None end
  | BOOLEANS => match value_ v with BoolVal b => Some (float_of_int (Z.b2z b)) | _ => None end
  | UNDEFINED | VECTORS | DATES => Some (S754_zero false)
  end.

(** A float that is not within [EPSILON] of zero. *)
Definition float_true (f : spec_float) : bool := SFleb EPSILON (promote f) || SFleb (promote f) (SFopp EPSILON).

Definition get_boolean (v : Value) : option bool :=
  match attr_type_ v with
  | CHARS =>
      s ← string_of v;
      Some (match stof (c_str s) with
            | Some f => if float_true f then true
                        else match stol (c_str s) with Some z => if negb (swrap 32 z =? 0) then true else true | None => true end
            | None => true
            end)
  | INTS => match value_ v with IntVal z => Some (negb (z =? 0)) | _ => None end
  | FLOATS => match value_ v with FloatVal f => Some (float_true f) | _ => None end
  | BOOLEANS => match value_ v with BoolVal b => Some b | _ => None end
  | UNDEFINED | VECTORS | DATES => Some false
  end.

(** *** Comparing: [None] is a failed assertion. *)
Definition numeric (v : Value) : bool := bool_decide (attr_type_ v = INTS) || bool_decide (attr_type_ v = FLOATS).

Definition type_compare (left right : Value) : option Z :=
  match attr_type_ left with
  | CHARS =>
      if bool_decide (attr_type_ right = CHARS) then
        match value_ left, value_ right with
        | PointerVal a, PointerVal b => Some (compare_string (default [] a) (length_ left) (default [] b) (length_ right))
        | _, _ => None
        end
      else None
  | INTS =>
      if numeric right then
        if bool_decide (attr_type_ right = INTS) then a ← get_int left; b ← get_int right; Some (compare_int a b)
        else a ← get_float left; b ← get_float right; Some (compare_float a b)
      else None
  | FLOATS => if numeric right then a ← get_float left; b ← get_float right; Some (compare_float a b) else None
  | DATES => a ← get_int left; b ← get_int right; Some (compare_int a b)
  | UNDEFINED | VECTORS | BOOLEANS => Some INT32_MAX
  end.

Definition value_compare (left right : Value) : option Z :=
  if is_null_ left || is_null_ right then Some (if is_null_ left && is_null_ right then 0 else if is_null_ left then -1 else 1)
  else if bool_decide (attr_type_ left = BOOLEANS) && bool_decide (attr_type_ right = BOOLEANS) then
    match value_ left, value_ right with
    | BoolVal a, BoolVal b => Some (if eqb a b then 0 else if a then 1 else -1)
    | _, _ => None
    end
  else type_compare left right.

(** [Value::set_value]; a type without a case fails an assertion. *)
Definition set_value (value v : Value) (to_string : Value → option (list Z)) : option Value :=
  match attr_type_ value with
  | INTS => z ← get_int value; Some (set_int z v)
  | FLOATS => f ← get_float value; Some (set_float f v)
  | CHARS => s ← to_string value; value_set_string (Some (c_str s ++ [0])) 0 v
  | BOOLEANS => b ← get_boolean value; Some (set_boolean b v)
  | UNDEFINED | VECTORS | DATES => None
  end.

(** *** Computing

    The methods of the data type of [result]; [result] is an argument because it stays
    as it is when the type does not implement the operation. *)
Definition FLOAT_MAX : spec_float := S754_finite false 16777215 104.
Definition float_divide (a b : spec_float) : spec_float :=
  if SFltb (SFopp EPSILON) (promote b) && SFltb (promote b) EPSILON then FLOAT_MAX else SFdiv 24 128 a b.

Definition arithmetic (ints : option (Z → Z → Z)) (floats : spec_float → spec_float → spec_float) (vectors : RC)
    (left right result : Value) : option (RC * Value) :=
  match attr_type_ result with
  | INTS =>
      match ints with
      | Some f => a ← get_int left; b ← get_int right; c ← as_int (f a b); Some (RC.SUCCESS, set_int c result)
      | None => Some (RC.UNSUPPORTED, result)
      end
  | FLOATS => a ← get_float left; b ← get_float right; Some (RC.SUCCESS, set_float (floats a b) result)
  | VECTORS => Some (vectors, result)
  | UNDEFINED | CHARS | BOOLEANS | DATES => Some (RC.UNSUPPORTED, result)
  end.

Definition value_add : Value → Value → Value → option (RC * Value) := arithmetic (Some Z.add) (SFadd 24 128) RC.UNIMPLEMENTED.
Definition value_subtract : Value → Value → Value → option (RC * Value) := arithmetic (Some Z.sub) (SFsub 24 128) RC.UNIMPLEMENTED.
Definition value_multiply : Value → Value → Value → option (RC * Value) := arithmetic (Some Z.mul) (SFmul 24 128) RC.UNIMPLEMENTED.
Definition value_divide : Value → Value → Value → option (RC * Value) := arithmetic None float_divide RC.UNSUPPORTED.
Definition value_negative (v result : Value) : option (RC * Value) :=
  match attr_type_ result with
  | INTS => a ← get_int v; c ← as_int (- a); Some (RC.SUCCESS, set_int c result)
  | FLOATS => a ← get_float v; Some (RC.SUCCESS, set_float (SFopp a) result)
  | UNDEFINED | CHARS | VECTORS | BOOLEANS | DATES => Some (RC.UNSUPPORTED, result)
  end.

(** *** Dates: [DateType] *)
(** [sscanf] with [%d-%d-%d%n]: the three numbers and how much was read; [Some None]:
    fewer than three.  A number that does not fit an [int] is undefined. *)
Definition scan_d (s : list Z) : option (option (Z * list Z)) :=
  match scan_int s with
  | Some (z, rest) => if (- 2 ^ 31 <=? z) && (z <? 2 ^ 31) then Some (Some (z, rest)) else None
  | None => Some None
  end.
Definition scan_dash (s : list Z) : option (list Z) := match s with c :: s => if c =? 45 then Some s else None | [] => None end.

Definition scan_date (s : list Z) : option (option (Z * Z * Z * Z)) :=
  first ← scan_d s;
  match first with
  | None => Some None
  | Some (year, r) =>
      match scan_dash r with
      | None => Some None
      | Some r =>
          second ← scan_d r;
          match second with
          | None => Some None
          | Some (month, r) =>
              match scan_dash r with
              | None => Some None
              | Some r =>
                  third ← scan_d r;
                  Some (match third with
                        | None => None
                        | Some (day, r) => Some (year, month, day, Z.of_nat (length s - length r))
                        end)
              end
          end
      end
  end.

(** [data]: a [std::string], which is read up to its first NUL. *)
Definition date_from_str (data : list Z) (v : Value) : option (RC * Value) :=
  scanned ← scan_date (c_str data);
  match scanned with
  | None => Some (RC.SCHEMA_FIELD_TYPE_MISMATCH, v)
  | Some (year, month, day, used) =>
      if negb (used =? Z.of_nat (length data)) || (year <? 0) || (month <? 1) || (12 <? month) || (day <? 1) || (31 <? day)
      then Some (RC.SCHEMA_FIELD_TYPE_MISMATCH, v)
      else date ← as_int (year * 10000 + month * 100 + day); Some (RC.SUCCESS, set_type DATES (set_int date v))
  end.

Definition two_digits (z : Z) : list Z := (if z <? 10 then [48] else []) ++ show_int z.
Definition date_to_string (v : Value) : option (list Z) :=
  date_int ← get_int v;
  let year := Z.quot date_int 10000 in
  let month := Z.rem (Z.quot date_int 100) 100 in
  let day := Z.rem date_int 100 in
  Some (show_int year ++ [45] ++ two_digits month ++ [45] ++ two_digits day).

(** *** Printing *)
(** [round] of [math.h]: half away from zero. *)
Definition round_half_away (f : spec_float) : spec_float :=
  match f with
  | S754_finite s m e =>
      if 0 <=? e then f
      else binary_normalize 53 1024 (cond_Zopp s ((2 * Zpos m + 2 ^ (- e)) / 2 ^ (1 - e))) 0 s
  | _ => f
  end.
(** The number of hundredths, as [%.2f] rounds. *)
Definition hundredths (m e : Z) : Z :=
  if 0 <=? e then m * 2 ^ e * 100
  else
    let q := m * 100 / 2 ^ (- e) in let r := m * 100 mod 2 ^ (- e) in
    if 2 * r <? 2 ^ (- e) then q else if 2 ^ (- e) <? 2 * r then q + 1 else if Z.even q then q else q + 1.
Definition show_hundredths (s : bool) (n : Z) : list Z :=
  (if s then [45] else []) ++ show_nat (n / 100) ++ [46; 48 + n mod 100 / 10; 48 + n mod 10].

(** The sign of a NaN is unspecified. *)
Definition show_double (f : spec_float) : option (list Z) :=
  match f with
  | S754_finite s m e => Some (show_hundredths s (hundredths (Zpos m) e))
  | S754_zero s => Some (show_hundredths s 0)
  | S754_infinity s => Some ((if s then [45] else []) ++ [105; 110; 102])
  | S754_nan => None
  end.

(** Trailing zeros, then a trailing point. *)
Fixpoint drop_zeros (l : list Z) : list Z := match l with c :: l' => if c =? 48 then drop_zeros l' else l | [] => [] end.
Definition drop_point (l : list Z) : list Z := match l with c :: l' => if c =? 46 then l' else l | [] => [] end.

Definition double_to_str (v : spec_float) : option (list Z) :=
  let hundred := binary_normalize 53 1024 100 0 false in
  let rounded_v := SFdiv 53 1024 (round_half_away (SFmul 53 1024 v hundred)) hundred in
  (λ buf, rev (drop_point (drop_zeros (rev buf)))) <$> show_double rounded_v.

(** [Value::to_string]: an empty string when the type cannot be printed. *)
Definition value_to_string (v : Value) : option (list Z) :=
  if is_null_ v then Some [110; 117; 108; 108]
  else
    match attr_type_ v with
    | CHARS => s ← string_of v; Some (c_str s)
    | INTS => match value_ v with IntVal z => Some (show_int z) | _ => None end
    | FLOATS => match value_ v with FloatVal f => double_to_str (promote f) | _ => None end
    | DATES => date_to_string v
    | UNDEFINED | VECTORS | BOOLEANS => Some []
    end.

(** *** Converting: [Value::cast_to] *)
Definition date_cast (v : Value) (result : Value) : option (RC * Value) :=
  match attr_type_ v with
  | DATES => c ← copy_value v; Some (RC.SUCCESS, c)
  | CHARS => s ← value_to_string v; date_from_str s result
  | INTS => z ← get_int v; Some (RC.SUCCESS, set_type DATES (set_int z result))
  | _ => Some (RC.SCHEMA_FIELD_TYPE_MISMATCH, result)
  end.

Definition cast_to (v : Value) (to_type : AttrType) (result : Value) : option (RC * Value) :=
  if is_null_ v then Some (RC.SUCCESS, set_null result)
  else if bool_decide (to_type = DATES) then date_cast v result
  else
    match attr_type_ v with
    | INTS =>
        if bool_decide (to_type = FLOATS) then z ← get_int v; Some (RC.SUCCESS, set_float (float_of_int z) result)
        else Some (RC.SCHEMA_FIELD_TYPE_MISMATCH, result)
    | CHARS => Some (RC.UNIMPLEMENTED, result)
    | DATES => Some (RC.SCHEMA_FIELD_TYPE_MISMATCH, result)
    | UNDEFINED | FLOATS | VECTORS | BOOLEANS => Some (RC.UNSUPPORTED, result)
    end.

(** ** Decimal digits are read back *)
Definition digits (l : list Z) : Prop := Forall (λ c, is_digit c = true) l.

Lemma is_digit_char d : 0 ≤ d < 10 → is_digit (48 + d) = true ∧ digit_val (48 + d) = d.
Proof.
  intros Hd. assert (is_digit (48 + d) = true) as E by (unfold is_digit; rewrite andb_true_iff, !Z.leb_le; lia).
  split; [done|]. unfold digit_val. rewrite E. lia.
Qed.

Lemma digits_val_app base l1 l2 : digits_val base (l1 ++ l2) = digits_val base l1 * base ^ Z.of_nat (length l2) + digits_val base l2.
Proof.
  unfold digits_val. rewrite foldl_app. generalize (foldl (λ n c, base * n + digit_val c) 0 l1). induction l2 as [|c l2 IH] using rev_ind; intros n.
  - cbn. lia.
  - rewrite !foldl_app, IH, length_app. cbn. rewrite Nat.add_1_r, Nat2Z.inj_succ, Z.pow_succ_r by lia. lia.
Qed.

Lemma show_loop_ok fuel n acc : 0 ≤ n < 2 ^ Z.of_nat (S fuel) → digits acc →
  digits (show_loop fuel n acc) ∧ digits_val 10 (show_loop fuel n acc) = n * 10 ^ Z.of_nat (length acc) + digits_val 10 acc ∧
  show_loop fuel n acc ≠ [].
Proof.
  revert n acc. induction fuel as [|fuel IH]; intros n acc Hn Ha; cbn [show_loop];
    pose proof (is_digit_char (n mod 10) ltac:(pose proof (Z.mod_pos_bound n 10); lia)) as [D V];
    (assert (digits (48 + n mod 10 :: acc)) as Ha' by (constructor; done));
    (assert (digits_val 10 (48 + n mod 10 :: acc) = n mod 10 * 10 ^ Z.of_nat (length acc) + digits_val 10 acc) as Ev
      by (change (48 + n mod 10 :: acc) with ([48 + n mod 10] ++ acc); rewrite digits_val_app; unfold digits_val at 1; cbn [foldl]; rewrite V; lia)).
  - rewrite (proj2 (Z.ltb_lt _ _)) by (cbn in Hn; lia). split_and!; [done| |done]. rewrite Ev, Z.mod_small; [done|cbn in Hn; lia].
  - destruct (Z.ltb_spec n 10) as [H10|H10]; [split_and!; [done| |done]; rewrite Ev, Z.mod_small; [done|lia]|].
    destruct (IH (n / 10) (48 + n mod 10 :: acc)) as (D1 & D2 & D3); [|exact Ha'|].
    { rewrite Nat2Z.inj_succ, Z.pow_succ_r in Hn by lia. split; [apply Z.div_pos; lia|]. apply Z.div_lt_upper_bound; lia. }
    split_and!; [done| |done]. rewrite D2, Ev. cbn [length]. rewrite Nat2Z.inj_succ, Z.pow_succ_r by lia.
    rewrite (Z.div_mod n 10) at 3 by lia. lia.
Qed.

Lemma show_nat_ok n : 0 ≤ n → digits (show_nat n) ∧ digits_val 10 (show_nat n) = n ∧ show_nat n ≠ [].
Proof.
  intros Hn. unfold show_nat. destruct (show_loop_ok (Z.to_nat (Z.log2 n)) n []) as (H1 & H2 & H3).
  - rewrite Nat2Z.inj_succ, Z2Nat.id by apply Z.log2_nonneg. split; [done|].
    destruct (Z.eq_dec n 0) as [->|]; [done|]. apply Z.log2_spec. lia.
  - constructor.
  - split_and!; [done| |done]. rewrite H2. cbn. lia.
Qed.

Lemma span_stop {A} (p : A → bool) l r : Forall (λ c, p c = true) l → match r with c :: _ => p c = false | [] => True end → span p (l ++ r) = (l, r).
Proof.
  intros Hl Hr. induction Hl as [|c l Hc Hl IH]; cbn.
  - destruct r as [|c r]; cbn; [done|]. by rewrite Hr.
  - by rewrite Hc, IH.
Qed.

Lemma digit_not_space c : is_digit c = true → is_space c = false ∧ c ≠ 45 ∧ c ≠ 43.
Proof.
  unfold is_digit, is_space. rewrite andb_true_iff, !Z.leb_le. intros ?.
  rewrite orb_false_iff, andb_false_iff, Z.eqb_neq, !Z.leb_gt. lia.
Qed.

(** A number that was printed is read back, up to a char that is no digit. *)
Lemma scan_show n rest : 0 ≤ n → match rest with c :: _ => is_digit c = false | [] => True end → scan_int (show_nat n ++ rest) = Some (n, rest).
Proof.
  intros Hn Hr. destruct (show_nat_ok n Hn) as (D & V & N). destruct (show_nat n) as [|c l] eqn:E; [done|].
  pose proof D as D'. apply list.Forall_cons in D' as [Hc _]. destruct (digit_not_space c Hc) as (Hs & H1 & H2).
  unfold scan_int. cbn [app span]. rewrite Hs. cbn [snd]. unfold scan_sign.
  rewrite (proj2 (Z.eqb_neq _ _) H1), (proj2 (Z.eqb_neq _ _) H2). change (c :: l ++ rest) with ((c :: l) ++ rest).
  by rewrite (span_stop _ _ _ D Hr), V.
Qed.

Lemma show_int_nonneg z : 0 ≤ z → show_int z = show_nat z.
Proof. intros. unfold show_int. by rewrite (proj2 (Z.ltb_ge _ _)). Qed.

Lemma scan_two_digits n rest : 0 ≤ n → match rest with c :: _ => is_digit c = false | [] => True end → scan_int (two_digits n ++ rest) = Some (n, rest).
Proof.
  intros Hn Hr. unfold two_digits. rewrite show_int_nonneg by done. destruct (n <? 10); [|by apply scan_show].
  destruct (show_nat_ok n Hn) as (D & V & N). unfold scan_int. cbn [app span].
  change (is_space 48) with false. cbn [snd]. change (scan_sign (48 :: show_nat n ++ rest)) with (false, [48] ++ show_nat n ++ rest).
  rewrite app_assoc, (span_stop is_digit ([48] ++ show_nat n) rest); [|by constructor|done].
  cbn [app]. change (48 :: show_nat n) with ([48] ++ show_nat n). by rewrite digits_val_app, V.
Qed.

(** *** Strings without a NUL *)
Lemma digits_no_nul l : digits l → 0 ∉ l.
Proof. intros D H. unfold digits in D. rewrite list.Forall_forall in D. by specialize (D 0 H). Qed.
Lemma c_str_id s : 0 ∉ s → c_str s = s.
Proof.
  induction s as [|c s IH]; [done|]. intros [Hc Hs]%not_elem_of_cons. cbn. rewrite (proj2 (Z.eqb_neq c 0)) by congruence. by rewrite IH.
Qed.

(** ** Dates *)
Definition date_ok (year month day : Z) : Prop := 0 ≤ year < 214748 ∧ 1 ≤ month ≤ 12 ∧ 1 ≤ day ≤ 31.
Definition date_int (year month day : Z) : Z := year * 10000 + month * 100 + day.
Definition date_value (year month day : Z) : Value := set_type DATES (int_value (date_int year month day)).

Lemma date_parts year month day : date_ok year month day →
  Z.quot (date_int year month day) 10000 = year ∧ Z.rem (Z.quot (date_int year month day) 100) 100 = month ∧ Z.rem (date_int year month day) 100 = day.
Proof.
  intros (? & ? & ?). set (d := date_int year month day). assert (d = year * 10000 + month * 100 + day) as Ed by done.
  assert (Z.quot d 100 = year * 100 + month) as ->.
  { rewrite Z.quot_div_nonneg by lia. symmetry. apply (Z.div_unique _ _ _ day); lia. }
  rewrite Z.quot_div_nonneg, !Z.rem_mod_nonneg by lia. split_and!; symmetry.
  - apply (Z.div_unique _ _ _ (month * 100 + day)); lia.
  - apply (Z.mod_unique _ _ year); lia.
  - apply (Z.mod_unique _ _ (year * 100 + month)); lia.
Qed.

Lemma date_string year month day : date_ok year month day →
  date_to_string (date_value year month day) = Some (show_nat year ++ [45] ++ two_digits month ++ [45] ++ two_digits day).
Proof.
  intros D. destruct (date_parts _ _ _ D) as (E1 & E2 & E3). unfold date_to_string. cbn [get_int date_value set_type attr_type_ value_ mbind option_bind int_value set_int].
  rewrite E1, E2, E3, show_int_nonneg by (destruct D; lia). done.
Qed.

Lemma two_digits_digits n : 0 ≤ n → digits (two_digits n).
Proof.
  intros Hn. unfold two_digits. rewrite show_int_nonneg by done. destruct (show_nat_ok n Hn) as (D & _ & _).
  case_match; cbn; [by constructor|done].
Qed.

Lemma scan_d_ok s z rest : scan_int s = Some (z, rest) → - 2 ^ 31 ≤ z < 2 ^ 31 → scan_d s = Some (Some (z, rest)).
Proof. intros E Hz. unfold scan_d. rewrite E. by rewrite (proj2 (Z.leb_le _ _)), (proj2 (Z.ltb_lt _ _)) by lia. Qed.

(** What was printed is read back as the same date. *)
Lemma date_read_back year month day v : date_ok year month day →
  date_from_str (show_nat year ++ [45] ++ two_digits month ++ [45] ++ two_digits day) v = Some (RC.SUCCESS, date_value year month day).
Proof.
  intros D. pose proof D as (Hy & Hm & Hd). set (s := show_nat year ++ _). unfold date_from_str.
  assert (c_str s = s) as ->.
  { apply c_str_id. unfold s. rewrite !elem_of_app. pose proof (digits_no_nul _ (proj1 (show_nat_ok year ltac:(lia)))).
    pose proof (digits_no_nul _ (two_digits_digits month ltac:(lia))). pose proof (digits_no_nul _ (two_digits_digits day ltac:(lia))).
    rewrite !list_elem_of_singleton. naive_solver lia. }
  unfold scan_date. rewrite (scan_d_ok s year ([45] ++ two_digits month ++ [45] ++ two_digits day)) by (apply scan_show || lia; done || lia).
  cbn [mbind option_bind app scan_dash]. change (45 =? 45) with true. cbn iota.
  rewrite (scan_d_ok _ month (45 :: two_digits day)) by (apply scan_two_digits || lia; done || lia).
  cbn [mbind option_bind app scan_dash]. change (45 =? 45) with true. cbn iota.
  pose proof (scan_two_digits day [] ltac:(lia) I) as E. rewrite app_nil_r in E.
  rewrite (scan_d_ok _ day []) by (done || lia). cbn [mbind option_bind].
  rewrite (proj2 (Z.eqb_eq _ _)) by (cbn [length]; lia). cbn [negb orb].
  repeat rewrite (proj2 (Z.ltb_ge _ _)) by lia. cbn [orb]. unfold date_value, date_int.
  by rewrite as_int_id by (unfold in_srange; lia).
Qed.

(** ** The order of values

    Values of one type other than [FLOATS], and NULL, are ordered by a rank: NULL
    first, then numbers, dates and booleans as numbers, strings lexicographically. *)
Definition value_ok (t : AttrType) (v : Value) : Prop :=
  is_null_ v = true ∨
  is_null_ v = false ∧ attr_type_ v = t ∧
  match t with
  | INTS | DATES => ∃ z, value_ v = IntVal z
  | BOOLEANS => ∃ b, value_ v = BoolVal b
  | FLOATS => ∃ f, value_ v = FloatVal f
  | CHARS => ∃ s, value_ v = PointerVal (Some s) ∧ length_ v = Z.of_nat (length s) ∧ no_nul s
  | UNDEFINED | VECTORS => False
  end.

Definition rank (v : Value) : option (Z + list Z) :=
  if is_null_ v then None
  else Some (match value_ v with
             | IntVal z => inl z
             | BoolVal b => inl (Z.b2z b)
             | PointerVal s => inr (default [] s)
             | FloatVal _ => inl 0
             end).

Definition rank_compare (x y : option (Z + list Z)) : Z :=
  match x, y with
  | None, None => 0
  | None, _ => -1
  | _, None => 1
  | Some (inl a), Some (inl b) => compare_int a b
  | Some (inr a), Some (inr b) => lex_compare a b
  | Some (inl _), _ => -1
  | _, Some (inl _) => 1
  end.

Lemma rank_flip x y : Z.sgn (rank_compare y x) = - Z.sgn (rank_compare x y).
Proof.
  destruct x as [[a|a]|], y as [[b|b]|]; cbn; try done.
  - rewrite !compare_int_sgn. lia.
  - rewrite lex_flip. lia.
Qed.

Lemma rank_trans x y z : rank_compare x y ≤ 0 → rank_compare y z ≤ 0 → rank_compare x z ≤ 0.
Proof.
  destruct x as [[a|a]|], y as [[b|b]|], z as [[c|c]|]; cbn; try lia.
  - rewrite !compare_int_sgn. lia.
  - apply lex_trans.
Qed.

Lemma value_compare_rank t x y : t ≠ FLOATS → value_ok t x → value_ok t y → value_compare x y = Some (rank_compare (rank x) (rank y)).
Proof.
  intros Ht [Nx|(Nx & Tx & Hx)] [Ny|(Ny & Ty & Hy)]; unfold value_compare, rank; rewrite Nx, Ny; cbn [orb andb]; [done|done|by destruct (value_ x)|].
  destruct t; try done; try congruence; unfold type_compare, numeric, get_int; rewrite Tx, Ty.
  - destruct Hx as (s & -> & -> & Ns), Hy as (s' & -> & -> & Ns'). cbn. by rewrite compare_string_lex.
  - by destruct Hx as [a ->], Hy as [b ->].
  - destruct Hx as [a ->], Hy as [b ->]. by destruct a, b.
  - by destruct Hx as [a ->], Hy as [b ->].
Qed.

(** Values of such a type can be sorted and grouped. *)
#[global] Instance value_compare_order t : t ≠ FLOATS → KeyOrder value_compare (value_ok t).
Proof.
  intros Ht. split.
  - intros x y Hx Hy. rewrite (value_compare_rank t) by done. by eexists.
  - intros x y a b Hx Hy. rewrite !(value_compare_rank t) by done. intros [= <-] [= <-]. apply rank_flip.
  - intros x y z a b c Hx Hy Hz. rewrite !(value_compare_rank t) by done. intros [= <-] [= <-] [= <-]. apply rank_trans.
Qed.

(** Copying changes nothing but an owned null pointer. *)
Lemma copy_value_ok t v : value_ok t v → is_null_ v = false → copy_value v = Some v.
Proof.
  intros [N|(N & T & H)] N'; [congruence|]. unfold copy_value. rewrite T. destruct v as [ty len x own null]. cbn in *. subst ty null.
  destruct t; try done. destruct H as (s & -> & -> & _). unfold copy_string. cbn. destruct own; cbn; [|done].
  by rewrite Nat2Z.id, firstn_all.
Qed.

(** ** The claim on dates *)
(** C35: a date is printed as a string that is read back as the same date, and dates
    compare as their years, then their months, then their days.  Years from 214748 on
    are left out: their number does not fit an [int]. *)
Theorem date_roundtrip year month day year' month' day' v : date_ok year month day → date_ok year' month' day' →
  (∃ s, value_to_string (date_value year month day) = Some s ∧ date_from_str s v = Some (RC.SUCCESS, date_value year month day)) ∧
  value_compare (date_value year month day) (date_value year' month' day') =
    Some (if year =? year' then if month =? month' then compare_int day day' else compare_int month month' else compare_int year year').
Proof.
  intros D D'. split; [eexists; split; [apply (date_string _ _ _ D)|by apply date_read_back]|].
  change (value_compare _ _) with (Some (compare_int (date_int year month day) (date_int year' month' day'))). f_equal.
  destruct D as (? & ? & ?), D' as (? & ? & ?). unfold date_int. rewrite !compare_int_sgn.
  destruct (Z.eqb_spec year year'), (Z.eqb_spec month month'); nia.
Qed.

Lemma date_roundtrip_witness :
  (∃ s, value_to_string (date_value 2024 2 9) = Some s ∧ date_from_str s default_value = Some (RC.SUCCESS, date_value 2024 2 9)) ∧
  value_compare (date_value 2024 2 9) (date_value 2023 11 30) = Some 1.
Proof. apply (date_roundtrip 2024 2 9 2023 11 30); unfold date_ok; lia. Defined.

(** The days of a month are not looked at: the thirtieth of February is a date. *)
Example february_30 : date_from_str [50; 48; 50; 52; 45; 50; 45; 51; 48] default_value = Some (RC.SUCCESS, date_value 2024 2 30).
Proof. reflexivity. Qed.
(** Every string counts as true, also [0]. *)
Example zero_string_is_true : get_boolean (mkValue CHARS 1 (PointerVal (Some [48])) true false) = Some true.
Proof. reflexivity. Qed.
