(* ===== verification/Row.v ===== *)
(** * Rows: from values to records and back

    [Table::make_record] and [Table::set_value_to_record] of [storage/table/table.cpp]
    write the values of a row into a record; [RowTuple::cell_at] of [sql/expr/tuple.h]
    reads them.  What is read is what was written, NULLs included, up to the width of
    the field. *)

From Stdlib Require Import SpecFloat.
From stdpp Require Import strings.
From S2P Require Import Prelude Types Bytes Bitmap RecordPage IndexKey TableMeta Value.
Local Open Scope Z_scope.

(** ** The bytes of a value *)
(** The bytes of a [float]; those of a NaN are unspecified. *)
Definition bits_of_float (f : spec_float) : option Z :=
  match f with
  | S754_zero s => Some (Z.b2z s * 2 ^ 31)
  | S754_infinity s => Some (Z.b2z s * 2 ^ 31 + 255 * 2 ^ 23)
  | S754_nan => None
  | S754_finite s m e =>
      if (Zpos m <? 2 ^ 23) && (e =? -149) then Some (Z.b2z s * 2 ^ 31 + Zpos m)
      else if (2 ^ 23 <=? Zpos m) && (Zpos m <? 2 ^ 24) && (-149 <=? e) && (e <=? 104)
      then Some (Z.b2z s * 2 ^ 31 + (e + 150) * 2 ^ 23 + (Zpos m - 2 ^ 23))
      else None
  end.

(** The union of a [Value]: only the bytes of the member that was written are known. *)
Definition union_bytes (x : Val) : option (list Z) :=
  match x with
  | IntVal z => Some (le_bytes 4 z)
  | FloatVal f => le_bytes 4 <$> bits_of_float f
  | BoolVal b => Some [Z.b2z b]
  | PointerVal _ => None
  end.

(** [Value::data]: the memory behind the pointer; [Some None] is a null pointer. *)
Definition value_data (v : Value) : option (option (list Z)) :=
  match attr_type_ v with
  | CHARS => match value_ v with PointerVal s => Some ((.++ [0]) <$> s) | _ => None end
  | _ => Some <$> union_bytes (value_ v)
  end.

(** ** Writing *)
(** The bit of a field in the bitmap of NULLs is set. *)
Definition set_null_bit (m : TableMeta) (record_data : list Z) (field_index : Z) : option (list Z) :=
  let off := Z.to_nat (tm_null_bitmap_offset m + Z.quot field_index 8) in
  b ← record_data !! off;
  Some (<[off := swrap 8 (Z.lor b (swrap 8 (Z.shiftl 1 (Z.rem field_index 8))))]> record_data).

Definition set_value_to_record (m : TableMeta) (record_data : list Z) (value : Value) (field : FieldMeta) (field_index : Z) : option (RC * list Z) :=
  if is_null_ value then d ← set_null_bit m record_data field_index; Some (RC.SUCCESS, d)
  else
    let copy_len := if bool_decide (fm_type field = CHARS) && (0 <=? length_ value) && (length_ value <? fm_len field) then length_ value + 1 else fm_len field in
    src ← value_data value;
    match src with
    | None => d ← set_bytes record_data (Z.to_nat (fm_offset field)) (replicate (Z.to_nat (fm_len field)) 0); Some (RC.SUCCESS, d)
    | Some src => bs ← get_bytes src 0 (Z.to_nat copy_len); d ← set_bytes record_data (Z.to_nat (fm_offset field)) bs; Some (RC.SUCCESS, d)
    end.

(** The loop of [make_record] from field [field_index] on. *)
Fixpoint fill_record (m : TableMeta) (values : list Value) (field_index : nat) (record_data : list Z) : option (RC * list Z) :=
  match values with
  | [] => Some (RC.SUCCESS, record_data)
  | value :: values =>
      field ← tm_fields m !! field_index;
      '(rc, d) ←
        (if is_null_ value then
           if negb (fm_nullable field) then Some (RC.SCHEMA_FIELD_NOT_NULL, record_data)
           else set_value_to_record m record_data value field (Z.of_nat field_index)
         else if bool_decide (fm_type field ≠ attr_type_ value) then
           '(rc, real_value) ← cast_to value (fm_type field) default_value;
           if RC.OB_FAIL rc then Some (rc, record_data) else set_value_to_record m record_data real_value field (Z.of_nat field_index)
         else set_value_to_record m record_data value field (Z.of_nat field_index));
      if RC.OB_SUCC rc then fill_record m values (S field_index) d else Some (rc, d)
  end.

Definition make_record (m : TableMeta) (values : list Value) : option (RC * option (list Z)) :=
  if negb (Z.of_nat (length values) + sys_field_num m =? field_num m) then Some (RC.SCHEMA_FIELD_MISSING, None)
  else
    '(rc, d) ← fill_record m values (Z.to_nat (sys_field_num m)) (replicate (Z.to_nat (tm_record_size m)) 0);
    if RC.OB_FAIL rc then Some (rc, None) else Some (RC.SUCCESS, Some d).

(** ** Reading: [RowTuple] *)
(** [speces_]: the fields of the tuple.  A pointer to a [FieldMeta] of the table is
    its place among the fields; the loop that looks for the pointer finds that place. *)
Definition field_index_of (m : TableMeta) (field : nat) (index : Z) : Z :=
  if bool_decide (field < length (tm_fields m))%nat then Z.of_nat field else index.

Definition row_cell_at (m : TableMeta) (speces : list nat) (record : option (list Z)) (index : Z) (cell : Value) : option (RC * Value) :=
  if (index <? 0) || (Z.of_nat (length speces) <=? index) then Some (RC.INVALID_ARGUMENT, cell)
  else
    p ← speces !! Z.to_nat index;
    field_meta ← tm_fields m !! p;
    let cell := reset cell in
    let field_index := field_index_of m p index in
    data ← record;
    b ← data !! Z.to_nat (tm_null_bitmap_offset m + Z.quot field_index 8);
    if negb (Z.land b (Z.shiftl 1 (Z.rem field_index 8)) =? 0) then Some (RC.SUCCESS, set_null cell)
    else
      cell ← set_data (drop (Z.to_nat (fm_offset field_meta)) data) (fm_len field_meta) (set_type (fm_type field_meta) cell);
      Some (RC.SUCCESS, cell).

(** [find_cell]: the first field of that name, if the table has the name. *)
Fixpoint find_spec (m : TableMeta) (speces : list nat) (field_name : string) (i : Z) : option (option Z) :=
  match speces with
  | [] => Some None
  | p :: speces =>
      f ← tm_fields m !! p;
      if bool_decide (field_name = fm_name f) then Some (Some i) else find_spec m speces field_name (i + 1)
  end.
Definition row_find_cell (m : TableMeta) (speces : list nat) (record : option (list Z)) (table_name field_name : string) (cell : Value) : option (RC * Value) :=
  if bool_decide (table_name ≠ tm_name m) then Some (RC.NOTFOUND, cell)
  else
    found ← find_spec m speces field_name 0;
    match found with Some i => row_cell_at m speces record i cell | None => Some (RC.NOTFOUND, cell) end.

(** [set_schema] with all fields of the table. *)
Definition all_fields (m : TableMeta) : list nat := seq 0 (length (tm_fields m)).

(** ** The bytes of a [float] are read back *)
Lemma bits_of_float_range f z : bits_of_float f = Some z → 0 ≤ z < 2 ^ 32.
Proof.
  destruct f as [s|s| |s m e]; cbn [bits_of_float]; try done.
  - intros [= <-]. destruct s; cbn; lia.
  - intros [= <-]. destruct s; cbn; lia.
  - destruct ((_ <? _) && _) eqn:E1.
    { apply andb_true_iff in E1 as [E1%Z.ltb_lt _]. intros [= <-]. destruct s; cbn [Z.b2z]; lia. }
    destruct (_ && _ && _ && _) eqn:E2; [|done]. rewrite !andb_true_iff, !Z.leb_le, Z.ltb_lt in E2. intros [= <-].
    assert ((e + 150) * 2 ^ 23 ≤ 254 * 2 ^ 23) by nia. assert (0 ≤ (e + 150) * 2 ^ 23) by nia. destruct s; cbn [Z.b2z]; lia.
Qed.

(** The three fields of the bits. *)
Lemma float_fields (s : bool) e m : 0 ≤ e < 256 → 0 ≤ m < 2 ^ 23 →
  let b := Z.b2z s * 2 ^ 31 + e * 2 ^ 23 + m in
  uwrap 32 b = b ∧ Z.testbit b 31 = s ∧ Z.land (Z.shiftr b 23) 255 = e ∧ Z.land b (2 ^ 23 - 1) = m.
Proof.
  intros He Hm b. assert (0 ≤ b < 2 ^ 32) as Hb by (unfold b; destruct s; cbn [Z.b2z]; lia). split_and!.
  - by apply uwrap_id.
  - rewrite Z.testbit_odd, Z.shiftr_div_pow2 by lia. replace (b / 2 ^ 31) with (Z.b2z s); [by destruct s|].
    apply (Z.div_unique _ _ _ (e * 2 ^ 23 + m)); [left; lia|unfold b; lia].
  - change 255 with (Z.ones 8). rewrite Z.land_ones, Z.shiftr_div_pow2 by lia.
    replace (b / 2 ^ 23) with (Z.b2z s * 2 ^ 8 + e).
    2: { apply (Z.div_unique _ _ _ m); [left; lia|unfold b; lia]. }
    symmetry. apply (Z.mod_unique _ _ (Z.b2z s)); [left; change (2 ^ 8) with 256; lia|lia].
  - change (2 ^ 23 - 1) with (Z.ones 23). rewrite Z.land_ones by lia.
    symmetry. apply (Z.mod_unique _ _ (Z.b2z s * 2 ^ 8 + e)); [left; lia|unfold b; lia].
Qed.

Lemma float_of_bits_of f z : bits_of_float f = Some z → float_of_bits z = f.
Proof.
  destruct f as [s|s| |s m e]; cbn [bits_of_float]; try done.
  - intros [= <-]. destruct (float_fields s 0 0) as (E1 & E2 & E3 & E4); [lia|lia|]. cbn [Z.mul Z.add] in *.
    rewrite !Z.add_0_r in *. unfold float_of_bits. by rewrite E1, E2, E3, E4.
  - intros [= <-]. destruct (float_fields s 255 0) as (E1 & E2 & E3 & E4); [lia|lia|]. rewrite !Z.add_0_r in *.
    unfold float_of_bits. by rewrite E1, E2, E3, E4.
  - destruct ((_ <? _) && _) eqn:E.
    { apply andb_true_iff in E as [H1%Z.ltb_lt ->%Z.eqb_eq]. intros [= <-].
      destruct (float_fields s 0 (Zpos m)) as (E1 & E2 & E3 & E4); [lia|lia|]. cbn [Z.mul] in *. rewrite !Z.add_0_r in *.
      unfold float_of_bits. by rewrite E1, E2, E3, E4. }
    destruct (_ && _ && _ && _) eqn:E'; [|done]. rewrite !andb_true_iff, !Z.leb_le, Z.ltb_lt in E'. destruct E' as [[[H1 H2] H3] H4]. intros [= <-].
    destruct (float_fields s (e + 150) (Zpos m - 2 ^ 23)) as (E1 & E2 & E3 & E4); [lia|lia|].
    unfold float_of_bits. rewrite E1, E2, E3, E4, !(proj2 (Z.eqb_neq _ _)) by lia.
    replace (Zpos m - 2 ^ 23 + 2 ^ 23) with (Zpos m) by lia. f_equal. lia.
Qed.

Lemma stored_float f z : bits_of_float f = Some z → float_of_bits (swrap 32 (le_val (le_bytes 4 z))) = f.
Proof.
  intros E. rewrite <-(float_of_bits_of _ _ E). pose proof (bits_of_float_range _ _ E). rewrite le_unsigned by (cbn; lia).
  unfold float_of_bits. assert (uwrap 32 (swrap 32 z) = uwrap 32 z) as ->; [|done]. unfold uwrap. by apply swrap_mod_id.
Qed.

(** ** Fields and bits of a record *)
Section layout.
Context (m : TableMeta) (L : table_layout m).
Implicit Types (r : list Z) (i j : nat) (f : FieldMeta) (v : Value).

Definition field_bit r i : option bool :=
  b ← r !! Z.to_nat (tm_null_bitmap_offset m + Z.quot (Z.of_nat i) 8); Some (Z.testbit b (Z.rem (Z.of_nat i) 8)).
Definition field_at r f : option (list Z) := get_bytes r (Z.to_nat (fm_offset f)) (Z.to_nat (fm_len f)).
Definition is_record r : Prop := Z.of_nat (length r) = tm_record_size m.

Lemma bit_place i : (i < length (tm_fields m))%nat →
  tm_null_bitmap_offset m ≤ tm_null_bitmap_offset m + Z.quot (Z.of_nat i) 8 < tm_record_size m ∧ 0 ≤ tm_null_bitmap_offset m ∧ 0 ≤ Z.rem (Z.of_nat i) 8 < 8.
Proof.
  intros Hi. destruct (lookup_lt_is_Some_2 _ _ Hi) as [f Hf]. destruct (layout_field m i f L Hf) as (H1 & H2 & H3 & H4).
  rewrite Z.quot_div_nonneg, Z.rem_mod_nonneg by lia. pose proof (Z.mod_pos_bound (Z.of_nat i) 8). lia.
Qed.

Lemma bit_known r i : is_record r → (i < length (tm_fields m))%nat → is_Some (field_bit r i).
Proof.
  intros Hr Hi. destruct (bit_place i Hi) as (H1 & H2 & _). unfold field_bit, is_record in *.
  destruct (lookup_lt_is_Some_2 r (Z.to_nat (tm_null_bitmap_offset m + Z.quot (Z.of_nat i) 8))) as [b ->]; [lia|]. by eexists.
Qed.

(** A bit is set and nothing else changes. *)
Lemma set_null_bit_ok r j : is_record r → (j < length (tm_fields m))%nat →
  ∃ r', set_null_bit m r (Z.of_nat j) = Some r' ∧ is_record r' ∧
    (∀ i, (i < length (tm_fields m))%nat → field_bit r' i = if decide (i = j) then Some true else field_bit r i) ∧
    (∀ i f, tm_fields m !! i = Some f → field_at r' f = field_at r f).
Proof.
  intros Hr Hj. destruct (bit_place j Hj) as (P1 & P2 & P3). unfold is_record in *. unfold set_null_bit.
  destruct (lookup_lt_is_Some_2 r (Z.to_nat (tm_null_bitmap_offset m + Z.quot (Z.of_nat j) 8))) as [b Hb]; [lia|]. rewrite Hb. cbn [mbind option_bind].
  eexists. split; [done|]. split; [by rewrite length_insert|]. split.
  - intros i Hi. destruct (bit_place i Hi) as (Q1 & Q2 & Q3). unfold field_bit.
    destruct (decide (Z.quot (Z.of_nat i) 8 = Z.quot (Z.of_nat j) 8)) as [E|E].
    + rewrite E, list_lookup_insert_eq by lia. cbn [mbind option_bind]. rewrite swrap_testbit by lia. rewrite Z.lor_spec, swrap_testbit by lia.
      rewrite Z.shiftl_1_l, Hb. cbn [mbind option_bind]. pose proof (Z.quot_rem' (Z.of_nat i) 8). pose proof (Z.quot_rem' (Z.of_nat j) 8).
      case_decide as Hij.
      * subst. by rewrite Z.pow2_bits_true, orb_true_r by lia.
      * rewrite Z.pow2_bits_false by lia. by rewrite orb_false_r.
    + rewrite list_lookup_insert_ne by lia. case_decide; [congruence|done].
  - intros i f Hi. destruct (layout_field m i f L Hi) as (H1 & H2 & H3 & _). unfold field_at. apply get_bytes_eq; [by rewrite length_insert|].
    intros k Hk. rewrite list_lookup_insert_ne by lia. done.
Qed.

(** Bytes that fit the field change that field and nothing else. *)
Lemma set_field_ok r j f bs : is_record r → tm_fields m !! j = Some f → Z.of_nat (length bs) ≤ fm_len f →
  ∃ r', set_bytes r (Z.to_nat (fm_offset f)) bs = Some r' ∧ is_record r' ∧
    (∀ i, (i < length (tm_fields m))%nat → field_bit r' i = field_bit r i) ∧
    (∀ i g, i ≠ j → tm_fields m !! i = Some g → field_at r' g = field_at r g) ∧
    ∃ rest, field_at r' f = Some (bs ++ rest).
Proof.
  intros Hr Hj Hbs. destruct (layout_field m j f L Hj) as (H1 & H2 & H3 & H4). unfold is_record in *.
  assert (Z.to_nat (fm_offset f) + length bs ≤ length r)%nat as Hfit by lia.
  pose proof (set_bytes_Some r _ bs Hfit) as E. eexists. split; [exact E|]. pose proof (set_bytes_length _ _ _ _ E) as El.
  split; [by rewrite El|]. split_and!.
  - intros i Hi. destruct (bit_place i Hi) as (Q1 & Q2 & _). unfold field_bit. rewrite (set_bytes_lookup _ _ _ _ _ E), decide_False by lia. done.
  - intros i g Hij Hg. destruct (layout_field m i g L Hg) as (G1 & G2 & G3 & _). unfold field_at. apply (get_set_other _ _ _ _ _ _ E).
    destruct (decide (i < j)%nat).
    + left. pose proof (laid_out_disjoint _ _ _ _ _ _ _ (tl_fields _ L) Hg Hj). lia.
    + right. pose proof (laid_out_disjoint _ _ _ _ _ _ _ (tl_fields _ L) Hj Hg). lia.
  - unfold field_at, get_bytes. rewrite decide_True by lia. exists (drop (length bs) (take (Z.to_nat (fm_len f)) (drop (Z.to_nat (fm_offset f)) r))).
    f_equal. rewrite drop_app_length' by (rewrite length_take; lia).
    rewrite take_app_ge by lia. f_equal. rewrite <-drop_drop, take_drop_commute. f_equal. f_equal. lia.
Qed.
End layout.

(** ** What is read is what was written *)
(** A value, after conversion, that a field can hold.  Booleans are left out: only one
    of the bytes that are copied is known. *)
Definition fits (f : FieldMeta) (v : Value) : Prop :=
  is_null_ v = true ∨
  is_null_ v = false ∧ attr_type_ v = fm_type f ∧
  match fm_type f with
  | INTS | DATES => fm_len f = 4 ∧ ∃ z, value_ v = IntVal z ∧ in_srange 32 z
  | FLOATS => fm_len f = 4 ∧ ∃ x z, value_ v = FloatVal x ∧ bits_of_float x = Some z
  | CHARS => ∃ s, value_ v = PointerVal (Some s) ∧ length_ v = Z.of_nat (length s) ∧ 0 ∉ s
  | UNDEFINED | VECTORS | BOOLEANS => False
  end.

(** The bytes that are written. *)
Definition image (f : FieldMeta) (v : Value) : list Z :=
  match value_ v with
  | PointerVal s => take (Z.to_nat (fm_len f)) (default [] s ++ [0])
  | x => default [] (union_bytes x)
  end.

(** The value that is read: a string is cut off at the width of the field. *)
Definition read_back (f : FieldMeta) (v : Value) : Value :=
  match value_ v with
  | PointerVal s =>
      let s := take (Z.to_nat (fm_len f)) (default [] s) in mkValue (fm_type f) (Z.of_nat (length s)) (PointerVal (Some s)) true false
  | x => mkValue (fm_type f) (fm_len f) x false false
  end.

Lemma image_length f v : fits f v → is_null_ v = false → 0 < fm_len f → Z.of_nat (length (image f v)) ≤ fm_len f.
Proof.
  intros [N|(_ & _ & H)] N' Hf; [congruence|]. unfold image. destruct (fm_type f); try done.
  - destruct H as (s & -> & _). rewrite length_take. lia.
  - destruct H as (E & z & -> & _). cbn [union_bytes default from_option id]. rewrite le_bytes_length. lia.
  - destruct H as (E & x & z & -> & Ez). cbn [union_bytes]. rewrite Ez. cbn [fmap option_fmap option_map default from_option id]. rewrite le_bytes_length. lia.
  - destruct H as (E & z & -> & _). cbn [union_bytes default from_option id]. rewrite le_bytes_length. lia.
Qed.

Lemma get_bytes_0 l n : (n ≤ length l)%nat → get_bytes l 0 n = Some (take n l).
Proof. intros. unfold get_bytes. by rewrite decide_True by (cbn; lia). Qed.

Lemma set_value_image m r v f i : fits f v → is_null_ v = false → 0 < fm_len f →
  set_value_to_record m r v f i = d ← set_bytes r (Z.to_nat (fm_offset f)) (image f v); Some (RC.SUCCESS, d).
Proof.
  intros [N|(_ & T & H)] N' Hf; [congruence|]. unfold set_value_to_record, value_data, image. rewrite N', T.
  destruct (fm_type f); try done; cbn [bool_decide decide_rel andb].
  - destruct H as (s & -> & -> & _). rewrite bool_decide_eq_true_2, (proj2 (Z.leb_le 0 _)) by (done || lia). cbn [andb mbind option_bind fmap option_fmap option_map default from_option id].
    destruct (Z.ltb_spec (Z.of_nat (length s)) (fm_len f)).
    + rewrite get_bytes_0 by (rewrite length_app; cbn; lia). cbn [mbind option_bind]. by rewrite !take_ge by (rewrite length_app; cbn; lia).
    + by rewrite get_bytes_0 by (rewrite length_app; cbn; lia).
  - destruct H as (-> & z & -> & _). cbn [mbind option_bind union_bytes fmap option_fmap option_map default from_option id]. done.
  - destruct H as (-> & x & z & -> & Ez). cbn [union_bytes]. rewrite Ez. done.
  - destruct H as (-> & z & -> & _). done.
Qed.

Lemma c_strn_read n d s rest : 0 ∉ s → take n d = take n (s ++ [0]) ++ rest → c_strn d n = Some (take n s).
Proof.
  revert d s. induction n as [|n IH]; intros d s Hs E; [by destruct d|]. destruct d as [|c d]; [exfalso; by destruct s|].
  destruct s as [|c' s]; cbn in E |- *.
  - by injection E as -> _.
  - injection E as -> E. apply not_elem_of_cons in Hs as [Hc Hs].
    rewrite (proj2 (Z.eqb_neq c' 0)) by congruence. by rewrite (IH d s Hs E).
Qed.

Lemma field_at_take r f bs : field_at r f = Some bs → take (Z.to_nat (fm_len f)) (drop (Z.to_nat (fm_offset f)) r) = bs.
Proof. unfold field_at, get_bytes. case_decide; [|done]. by intros [= ->]. Qed.

Lemma get_i32_first d bs : take 4 d = bs → length bs = 4%nat → get_i32 d 0 = Some (swrap 32 (le_val bs)).
Proof.
  intros <- Hl. unfold get_i32. rewrite get_bytes_0; [done|]. rewrite length_take in Hl. lia.
Qed.

Lemma set_data_read f v r rest cell : fits f v → is_null_ v = false → 0 < fm_len f → field_at r f = Some (image f v ++ rest) →
  set_data (drop (Z.to_nat (fm_offset f)) r) (fm_len f) (set_type (fm_type f) (reset cell)) = Some (read_back f v).
Proof.
  intros [N|(_ & T & H)] N' Hf E%field_at_take; [congruence|]. unfold set_data, read_back, image in *. cbn [set_type attr_type_].
  assert (∀ x, fm_len f = 4 → length x = 4%nat → take 4 (drop (Z.to_nat (fm_offset f)) r) = x ++ rest →
    take 4 (drop (Z.to_nat (fm_offset f)) r) = x) as Hrest.
  { intros x _ Hx E'. assert (length (x ++ rest) ≤ 4)%nat as Hle by (rewrite <-E', length_take; lia). rewrite length_app in Hle.
    destruct rest; [by rewrite app_nil_r in E'|cbn in Hle; lia]. }
  destruct (fm_type f); try done.
  - destruct H as (s & Ev & _ & Hs). rewrite Ev in E |- *. cbn [default from_option id] in *. unfold value_set_string, set_string.
    rewrite (proj2 (Z.ltb_lt _ _)) by lia. rewrite (c_strn_read _ _ s rest Hs E). done.
  - destruct H as (Hl & z & Ev & Hz). rewrite Ev in E |- *. rewrite Hl in E |- *. apply Hrest in E; [|done|done].
    rewrite (get_i32_first _ _ E) by done. cbn [union_bytes default from_option id mbind option_bind]. by rewrite (le_signed 4) by (done || lia).
  - destruct H as (Hl & x & z & Ev & Hz). rewrite Ev in E |- *. rewrite Hl in E |- *. cbn [union_bytes] in E. rewrite Hz in E. apply Hrest in E; [|done|done].
    rewrite (get_i32_first _ _ E) by done. cbn [union_bytes fmap option_fmap option_map default from_option id mbind option_bind]. by rewrite (stored_float _ _ Hz).
  - destruct H as (Hl & z & Ev & Hz). rewrite Ev in E |- *. rewrite Hl in E |- *. apply Hrest in E; [|done|done].
    rewrite (get_i32_first _ _ E) by done. cbn [union_bytes default from_option id mbind option_bind]. by rewrite (le_signed 4) by (done || lia).
Qed.

(** The value that is stored: converted to the type of the field, unless it is NULL. *)
Definition converted (f : FieldMeta) (v : Value) : option (RC * Value) :=
  if is_null_ v || bool_decide (fm_type f = attr_type_ v) then Some (RC.SUCCESS, v) else cast_to v (fm_type f) default_value.

(** The row fits the table from field [i] on: [reals] are the converted values. *)
Definition row_fits (m : TableMeta) (i : nat) (values reals : list Value) : Prop :=
  length values = length reals ∧ (i + length values ≤ length (tm_fields m))%nat ∧
  ∀ k f v rv, tm_fields m !! (i + k)%nat = Some f → values !! k = Some v → reals !! k = Some rv →
    converted f v = Some (RC.SUCCESS, rv) ∧ fits f rv ∧ is_null_ rv = is_null_ v ∧ (is_null_ v = true → fm_nullable f = true).

(** Field [i] of the record holds [v]. *)
Definition holds (m : TableMeta) (r : list Z) (i : nat) (f : FieldMeta) (v : Value) : Prop :=
  field_bit m r i = Some (is_null_ v) ∧ (is_null_ v = false → ∃ rest, field_at r f = Some (image f v ++ rest)).

Section rows.
Context (m : TableMeta) (L : table_layout m).

Lemma row_cell_holds r i f v cell : is_record m r → tm_fields m !! i = Some f → fits f v → holds m r i f v →
  row_cell_at m (all_fields m) (Some r) (Z.of_nat i) cell = Some (RC.SUCCESS, if is_null_ v then set_null (reset cell) else read_back f v).
Proof.
  intros Hr Hf Hfit [Hb Hv]. pose proof (lookup_lt_Some _ _ _ Hf) as Hi. destruct (layout_field m i f L Hf) as (_ & Hl & _).
  unfold row_cell_at, all_fields. rewrite length_seq, (proj2 (Z.ltb_ge _ _)), (proj2 (Z.leb_gt _ _)) by lia. cbn [orb].
  rewrite Nat2Z.id, lookup_seq_lt by done. cbn [mbind option_bind Nat.add]. rewrite Hf. cbn [mbind option_bind].
  unfold field_index_of. rewrite bool_decide_eq_true_2 by done. unfold field_bit in Hb.
  destruct (r !! _) as [b|]; [|done]. cbn [mbind option_bind] in Hb |- *. injection Hb as Hb.
  rewrite Bitmap.land_pow2_testbit, negb_involutive by (destruct (bit_place m L i Hi); lia). rewrite Hb.
  destruct (is_null_ v) eqn:N; [done|]. destruct (Hv eq_refl) as [rest E]. by rewrite (set_data_read f v r rest cell).
Qed.

(** One field of [make_record]. *)
Lemma put_value r i f v : is_record m r → tm_fields m !! i = Some f → fits f v → field_bit m r i = Some false →
  ∃ r', set_value_to_record m r v f (Z.of_nat i) = Some (RC.SUCCESS, r') ∧ is_record m r' ∧ holds m r' i f v ∧
    ∀ j g, j ≠ i → tm_fields m !! j = Some g → field_bit m r' j = field_bit m r j ∧ field_at r' g = field_at r g.
Proof.
  intros Hr Hf Hfit Hb. pose proof (lookup_lt_Some _ _ _ Hf) as Hi. destruct (layout_field m i f L Hf) as (_ & Hl & _).
  destruct (is_null_ v) eqn:N.
  - destruct (set_null_bit_ok m L r i Hr Hi) as (r' & E & Hr' & B & F). exists r'. unfold set_value_to_record. rewrite N, E.
    split; [done|]. split; [done|]. split; [split; rewrite N; [by rewrite B, decide_True|done]|].
    intros j g Hj Hg. rewrite B, decide_False by (by apply lookup_lt_Some in Hg). split; [done|by apply (F j)].
  - destruct (set_field_ok m L r i f (image f v) Hr Hf) as (r' & E & Hr' & B & F & rest & Hat); [by apply image_length|].
    exists r'. rewrite set_value_image by done. rewrite E. split; [done|]. split; [done|].
    split; [split; [by rewrite B, N, Hb|by exists rest]|]. intros j g Hj Hg. split; [apply B; by apply lookup_lt_Some in Hg|by apply (F j)].
Qed.

(** Loop of [make_record]: every field gets its value, the fields before it stay. *)
Lemma fill_record_ok values reals i r : is_record m r → row_fits m i values reals →
  (∀ j, (i ≤ j < length (tm_fields m))%nat → field_bit m r j = Some false) →
  ∃ r', fill_record m values i r = Some (RC.SUCCESS, r') ∧ is_record m r' ∧
    (∀ j g, (j < i)%nat → tm_fields m !! j = Some g → field_bit m r' j = field_bit m r j ∧ field_at r' g = field_at r g) ∧
    (∀ k f rv, tm_fields m !! (i + k)%nat = Some f → reals !! k = Some rv → holds m r' (i + k) f rv).
Proof.
  revert reals i r. induction values as [|v values IH]; intros reals i r Hr (Hlen & Hfit & Hk) Hbits.
  - destruct reals; [|done]. exists r. split; [done|]. split; [done|]. split; [done|]. intros k f rv _. by rewrite lookup_nil.
  - destruct reals as [|rv reals]; [done|]. cbn [length] in Hlen, Hfit.
    destruct (lookup_lt_is_Some_2 (tm_fields m) i) as [f Hf]; [lia|].
    destruct (Hk 0%nat f v rv) as (Hc & Hfits & Hnull & Hok); [by rewrite Nat.add_0_r|done|done|].
    destruct (put_value r i f rv Hr Hf Hfits) as (r1 & E1 & Hr1 & H1 & O1); [apply Hbits; lia|].
    destruct (IH reals (S i) r1 Hr1) as (r2 & E2 & Hr2 & O2 & H2).
    + split; [lia|]. split; [lia|]. intros k g w rw Hg Hw Hrw. apply (Hk (S k) g w rw); [by rewrite Nat.add_succ_r|done|done].
    + intros j Hj. destruct (lookup_lt_is_Some_2 (tm_fields m) j) as [g Hg]; [lia|].
      destruct (O1 j g ltac:(lia) Hg) as [-> _]. apply Hbits. lia.
    + exists r2. split; [|split; [done|split]].
      * cbn [fill_record]. rewrite Hf. cbn [mbind option_bind]. unfold converted in Hc. destruct (is_null_ v) eqn:N.
        { injection Hc as ->. rewrite (Hok eq_refl). cbn [negb]. rewrite E1. cbn [mbind option_bind]. exact E2. }
        cbn [orb] in Hc. case_bool_decide as T.
        { injection Hc as ->. rewrite bool_decide_eq_false_2 by (intros X; by apply X). rewrite E1. cbn [mbind option_bind]. exact E2. }
        rewrite bool_decide_eq_true_2 by done. rewrite Hc. cbn [mbind option_bind]. change (RC.OB_FAIL RC.SUCCESS) with false. cbn iota.
        rewrite E1. cbn [mbind option_bind]. exact E2.
      * intros j g Hj Hg. destruct (O2 j g ltac:(lia) Hg) as [-> ->]. apply O1; [lia|done].
      * intros k g w Hg Hw. destruct k as [|k]; cbn in Hw.
        -- injection Hw as ->. rewrite Nat.add_0_r in *. replace g with f by congruence.
           destruct (O2 i f ltac:(lia) Hf) as [Eb Ea]. destruct H1 as [Hb' Hv']. split; [by rewrite Eb|by rewrite Ea].
        -- rewrite <-Nat.add_succ_comm in *. by apply H2.
Qed.

Lemma zero_record_bit j : (j < length (tm_fields m))%nat → 0 ≤ tm_record_size m → field_bit m (replicate (Z.to_nat (tm_record_size m)) 0) j = Some false.
Proof.
  intros Hj Hs. destruct (bit_place m L j Hj) as (H1 & H2 & _). unfold field_bit. rewrite lookup_replicate_2 by lia. cbn. by rewrite Z.testbit_0_l.
Qed.

(** A row that fits is stored. *)
Lemma make_record_ok values reals : length (tm_fields m) = (length (tm_trx_fields m) + length values)%nat → row_fits m (length (tm_trx_fields m)) values reals →
  ∃ r, make_record m values = Some (RC.SUCCESS, Some r) ∧ is_record m r ∧
    ∀ k f rv, tm_fields m !! (length (tm_trx_fields m) + k)%nat = Some f → reals !! k = Some rv → holds m r (length (tm_trx_fields m) + k) f rv.
Proof.
  intros Hn Hfit. assert (0 ≤ tm_record_size m) as Hs.
  { pose proof (laid_out_le _ _ _ (tl_fields _ L)). rewrite (tl_size _ L). unfold null_bitmap_size, field_num.
    pose proof (Z.quot_pos (Z.of_nat (length (tm_fields m)) + 7) 8). lia. }
  destruct (fill_record_ok values reals (length (tm_trx_fields m)) (replicate (Z.to_nat (tm_record_size m)) 0)) as (r & E & Hr & _ & H).
  - unfold is_record. rewrite length_replicate. lia.
  - done.
  - intros j Hj. apply zero_record_bit; [lia|done].
  - exists r. split; [|done]. unfold make_record, field_num, sys_field_num. rewrite (proj2 (Z.eqb_eq _ _)) by lia. cbn [negb].
    rewrite Nat2Z.id, E. done.
Qed.
End rows.

(** ** The claim on rows *)
(** C20: a row whose values, converted to the types of the fields, fit the fields is
    made into a record of the size of the table; reading the record gives every value
    back: NULL where it was NULL, strings cut off at the width of their field, and
    everything else unchanged. *)
Theorem row_roundtrip m values reals : table_layout m → length (tm_fields m) = (length (tm_trx_fields m) + length values)%nat →
  row_fits m (length (tm_trx_fields m)) values reals →
  ∃ r, make_record m values = Some (RC.SUCCESS, Some r) ∧ is_record m r ∧
    ∀ k f rv cell, tm_fields m !! (length (tm_trx_fields m) + k)%nat = Some f → reals !! k = Some rv →
      row_cell_at m (all_fields m) (Some r) (Z.of_nat (length (tm_trx_fields m) + k)) cell =
        Some (RC.SUCCESS, if is_null_ rv then set_null (reset cell) else read_back f rv).
Proof.
  intros L Hn Hfit. destruct (make_record_ok m L values reals Hn Hfit) as (r & E & Hr & H). exists r. split; [done|]. split; [done|].
  intros k f rv cell Hf Hrv. destruct Hfit as (Hlen & _ & Hk). destruct (lookup_lt_is_Some_2 values k) as [v Hv].
  { rewrite Hlen. by eapply lookup_lt_Some. }
  destruct (Hk k f v rv Hf Hv Hrv) as (_ & Hfits & _). by apply (row_cell_holds m L); [| | |apply H].
Qed.

(** A table with a number, a string of four chars and a date that may be NULL. *)
Module RowDemo.
Definition meta : TableMeta :=
  mkTableMeta 1 "t" [] [mkFieldMeta "id" INTS 0 4 true 0 false; mkFieldMeta "name" CHARS 4 4 true 1 false; mkFieldMeta "born" DATES 8 4 true 2 true]
    [] [] 1 1 13 12.
Definition name_value : Value := mkValue CHARS 5 (PointerVal (Some [97; 108; 105; 99; 101])) true false.
Definition born : Value := mkValue CHARS 8 (PointerVal (Some [49; 57; 57; 48; 45; 53; 45; 49])) true false.

Example record_bytes : make_record meta [int_value 7; name_value; null_value] = Some (RC.SUCCESS, Some [7; 0; 0; 0; 97; 108; 105; 99; 0; 0; 0; 0; 4]).
Proof. reflexivity. Qed.
Example no_null_name : make_record meta [int_value 7; null_value; null_value] = Some (RC.SCHEMA_FIELD_NOT_NULL, None).
Proof. reflexivity. Qed.
Example too_few_values : make_record meta [int_value 7] = Some (RC.SCHEMA_FIELD_MISSING, None).
Proof. reflexivity. Qed.
End RowDemo.

Lemma row_roundtrip_witness :
  ∃ r, make_record RowDemo.meta [int_value 7; RowDemo.name_value; RowDemo.born] = Some (RC.SUCCESS, Some r) ∧ is_record RowDemo.meta r ∧
    ∀ k f rv cell, tm_fields RowDemo.meta !! (0 + k)%nat = Some f → [int_value 7; RowDemo.name_value; date_value 1990 5 1] !! k = Some rv →
      row_cell_at RowDemo.meta (all_fields RowDemo.meta) (Some r) (Z.of_nat (0 + k)) cell =
        Some (RC.SUCCESS, if is_null_ rv then set_null (reset cell) else read_back f rv).
Proof.
  apply (row_roundtrip RowDemo.meta [int_value 7; RowDemo.name_value; RowDemo.born] [int_value 7; RowDemo.name_value; date_value 1990 5 1]).
  - split; cbn; [lia|reflexivity|lia].
  - reflexivity.
  - split; [reflexivity|]. split; [cbn; lia|]. intros k f v rv. cbn [length RowDemo.meta tm_trx_fields Nat.add tm_fields].
    destruct k as [|[|[|k]]]; cbn [lookup list_lookup]; intros Hf Hv Hrv; try discriminate Hf;
      injection Hf as <-; injection Hv as <-; injection Hrv as <-; (split; [vm_compute; reflexivity|]); (split; [|split; [reflexivity|discriminate]]); right; (split; [reflexivity|]); (split; [reflexivity|]).
    + split; [reflexivity|]. exists 7. split; [reflexivity|unfold in_srange; cbn; lia].
    + eexists. split; [reflexivity|]. split; [reflexivity|]. apply (bool_decide_eq_true _). vm_compute. reflexivity.
    + split; [reflexivity|]. exists 19900501. split; [reflexivity|unfold in_srange; cbn; lia].
Defined.
