(* ===== verification/Expression.v ===== *)
(** * Expressions, tuples and aggregators

    [sql/expr/expression.cpp], the row-at-a-time half: what an expression is worth on a
    tuple.  [sql/expr/tuple.h], [tuple_cell.h], [composite_tuple.cpp] and
    [expression_tuple.h]: the tuples that operators hand on.  [sql/expr/aggregator.cpp]:
    sums, counts, averages, minima and maxima.

    A function with an out parameter takes its old value and returns the new one.
    [None]: an assertion fails or behaviour is undefined. *)

From Stdlib Require Import SpecFloat.
From stdpp Require Import strings.
From S2P Require Import Prelude Types Bytes RecordPage IndexKey TableMeta Value Row.
Local Open Scope Z_scope.

(** ** [TupleCellSpec] *)
Record TupleCellSpec : Type := mkCellSpec { table_name_ : string; field_name_ : string; alias_ : string }.
#[global] Instance TupleCellSpec_eq_dec : EqDecision TupleCellSpec.
Proof. solve_decision. Defined.

Definition spec_of_field (table_name field_name : string) : TupleCellSpec :=
  mkCellSpec table_name field_name (if bool_decide (table_name = "") then field_name else table_name +:+ "." +:+ field_name).
Definition spec_of_alias (alias : string) : TupleCellSpec := mkCellSpec "" "" alias.

(** ** Expressions *)
Inductive CompOp : Type := EQUAL_TO | LESS_EQUAL | NOT_EQUAL | LESS_THAN | GREAT_EQUAL | GREAT_THAN | IS_NULL | IS_NOT_NULL | NO_OP.
#[global] Instance CompOp_eq_dec : EqDecision CompOp.
Proof. solve_decision. Defined.
Inductive ConjunctionType : Type := AND | OR.
#[global] Instance ConjunctionType_eq_dec : EqDecision ConjunctionType.
Proof. solve_decision. Defined.
Inductive ArithmeticType : Type := ADD | SUB | MUL | DIV | NEGATIVE.
#[global] Instance ArithmeticType_eq_dec : EqDecision ArithmeticType.
Proof. solve_decision. Defined.
Inductive AggregateType : Type := COUNT | SUM | AVG | MAX | MIN.
#[global] Instance AggregateType_eq_dec : EqDecision AggregateType.
Proof. solve_decision. Defined.

(** The first argument is [name_]. *)
Inductive Expression : Type :=
  | StarExpr (name table_name : string)
  | UnboundFieldExpr (name table_name field_name : string)
  | FieldExpr (name table_name : string) (field : FieldMeta)
  | ValueExpr (name : string) (value : Value)
  | CastExpr (name : string) (child : Expression) (cast_type : AttrType)
  | ComparisonExpr (name : string) (comp : CompOp) (left right : Expression)
  | ConjunctionExpr (name : string) (type : ConjunctionType) (children : list Expression)
  | ArithmeticExpr (name : string) (type : ArithmeticType) (left : Expression) (right : option Expression)
  | UnboundAggregateExpr (name aggregate_name : string) (child : Expression)
  | AggregateExpr (name : string) (type : AggregateType) (child : Expression).

Definition expr_name (e : Expression) : string :=
  match e with
  | StarExpr n _ | UnboundFieldExpr n _ _ | FieldExpr n _ _ | ValueExpr n _ | CastExpr n _ _ | ComparisonExpr n _ _ _
  | ConjunctionExpr n _ _ | ArithmeticExpr n _ _ _ | UnboundAggregateExpr n _ _ | AggregateExpr n _ _ => n
  end.

Fixpoint value_type (e : Expression) : AttrType :=
  match e with
  | StarExpr _ _ | UnboundFieldExpr _ _ _ => UNDEFINED
  | FieldExpr _ _ f => fm_type f
  | ValueExpr _ v => attr_type_ v
  | CastExpr _ _ t => t
  | ComparisonExpr _ _ _ _ | ConjunctionExpr _ _ _ => BOOLEANS
  | ArithmeticExpr _ t l None => value_type l
  | ArithmeticExpr _ t l (Some r) =>
      if bool_decide (value_type l = INTS) && bool_decide (value_type r = INTS) && negb (bool_decide (t = DIV)) then INTS else FLOATS
  | UnboundAggregateExpr _ _ c => value_type c
  | AggregateExpr _ COUNT c => INTS
  | AggregateExpr _ AVG c => FLOATS
  | AggregateExpr _ _ c => value_type c
  end.

(** *** Evaluation *)
Definition compare_value (comp : CompOp) (left right : Value) : option (RC * bool) :=
  match comp with
  | IS_NULL => Some (RC.SUCCESS, is_null_ left)
  | IS_NOT_NULL => Some (RC.SUCCESS, negb (is_null_ left))
  | _ =>
      if is_null_ left || is_null_ right then Some (RC.SUCCESS, false)
      else
        cmp_result ← value_compare left right;
        Some (match comp with
              | EQUAL_TO => (RC.SUCCESS, 0 =? cmp_result)
              | LESS_EQUAL => (RC.SUCCESS, cmp_result <=? 0)
              | NOT_EQUAL => (RC.SUCCESS, negb (cmp_result =? 0))
              | LESS_THAN => (RC.SUCCESS, cmp_result <? 0)
              | GREAT_EQUAL => (RC.SUCCESS, 0 <=? cmp_result)
              | GREAT_THAN => (RC.SUCCESS, 0 <? cmp_result)
              | IS_NULL | IS_NOT_NULL | NO_OP => (RC.INTERNAL, false)
              end)
  end.

Definition expr_cast (cast_type : AttrType) (value cast_value : Value) : option (RC * Value) :=
  if bool_decide (cast_type = attr_type_ value) then c ← copy_value value; Some (RC.SUCCESS, c)
  else cast_to value cast_type cast_value.

(** The result code of the computation is ignored. *)
Definition calc_value (type : ArithmeticType) (target_type : AttrType) (left right value : Value) : option (RC * Value) :=
  let value := set_type target_type value in
  '(_, value) ← (match type with
                 | ADD => value_add left right value
                 | SUB => value_subtract left right value
                 | MUL => value_multiply left right value
                 | DIV => value_divide left right value
                 | NEGATIVE => value_negative left value
                 end);
  Some (RC.SUCCESS, value).

Definition set_comparison (comp : CompOp) (left right value : Value) : option (RC * Value) :=
  '(rc, b) ← compare_value comp left right;
  Some (rc, if RC.OB_SUCC rc then set_boolean b value else value).

(** The loop of a conjunction; [tmp_value] lives through it. *)
Section conjunction.
Context (get_value : Expression → Value → option (RC * Value)) (type : ConjunctionType) (value : Value).
Fixpoint conjunction (children : list Expression) (tmp_value : Value) : option (RC * Value) :=
  match children with
  | [] => Some (RC.SUCCESS, set_boolean (bool_decide (type = AND)) value)
  | e :: children =>
      '(rc, tmp_value) ← get_value e tmp_value;
      if RC.OB_FAIL rc then Some (rc, value)
      else
        b ← get_boolean tmp_value;
        if (bool_decide (type = AND) && negb b) || (bool_decide (type = OR) && b) then Some (RC.SUCCESS, set_boolean b value)
        else conjunction children tmp_value
  end.
End conjunction.

Section evaluation.
(** [Tuple::find_cell] of the tuple. *)
Context (find_cell : TupleCellSpec → Value → option (RC * Value)).

Fixpoint get_value (e : Expression) (value : Value) {struct e} : option (RC * Value) :=
  match e with
  | StarExpr _ _ => Some (RC.UNIMPLEMENTED, value)
  | UnboundFieldExpr _ _ _ => Some (RC.INTERNAL, value)
  | FieldExpr _ t f => find_cell (spec_of_field t (fm_name f)) value
  | ValueExpr _ v => c ← copy_value v; Some (RC.SUCCESS, c)
  | CastExpr _ c t =>
      '(rc, v) ← get_value c default_value;
      if RC.OB_FAIL rc then Some (rc, value) else expr_cast t v value
  | ComparisonExpr _ comp l r =>
      '(rc, left_value) ← get_value l default_value;
      if RC.OB_FAIL rc then Some (rc, value)
      else
        '(rc, right_value) ← get_value r default_value;
        if RC.OB_FAIL rc then Some (rc, value) else set_comparison comp left_value right_value value
  | ConjunctionExpr _ _ [] => Some (RC.SUCCESS, set_boolean true value)
  | ConjunctionExpr _ type children => conjunction get_value type value children default_value
  | ArithmeticExpr _ t l r =>
      '(rc, left_value) ← get_value l default_value;
      if RC.OB_FAIL rc then Some (rc, value)
      else
        match r with
        | None => calc_value t (value_type e) left_value default_value value
        | Some r =>
            '(rc, right_value) ← get_value r default_value;
            if RC.OB_FAIL rc then Some (rc, value) else calc_value t (value_type e) left_value right_value value
        end
  | UnboundAggregateExpr _ _ _ => Some (RC.INTERNAL, value)
  | AggregateExpr n _ _ => find_cell (spec_of_alias n) value
  end.
End evaluation.

(** Without a tuple. *)
Fixpoint try_get_value (e : Expression) (value : Value) : option (RC * Value) :=
  match e with
  | ValueExpr _ v => c ← copy_value v; Some (RC.SUCCESS, c)
  | CastExpr _ c t =>
      '(rc, v) ← try_get_value c default_value;
      if RC.OB_FAIL rc then Some (rc, value) else expr_cast t v value
  | ComparisonExpr _ comp (ValueExpr _ l) (ValueExpr _ r) => set_comparison comp l r value
  | ComparisonExpr _ _ _ _ => Some (RC.INVALID_ARGUMENT, value)
  | ArithmeticExpr _ t l r =>
      '(rc, left_value) ← try_get_value l default_value;
      if RC.OB_FAIL rc then Some (rc, value)
      else
        match r with
        | None => calc_value t (value_type e) left_value default_value value
        | Some r =>
            '(rc, right_value) ← try_get_value r default_value;
            if RC.OB_FAIL rc then Some (rc, value) else calc_value t (value_type e) left_value right_value value
        end
  | _ => Some (RC.UNIMPLEMENTED, value)
  end.

(** ** Tuples

    A row tuple knows the metadata of its table and the places of its fields.  The
    tuples that others point to are part of them; [None] is a null pointer. *)
Inductive Tuple : Type :=
  | RowTuple (table : TableMeta) (speces : list nat) (record : option (RID * list Z))
  | ProjectTuple (expressions : list Expression) (tuple : option Tuple)
  | ValueListTuple (cells : list Value) (specs : list TupleCellSpec)
  | JoinedTuple (left right : option Tuple)
  | CompositeTuple (tuples : list Tuple)
  | ExpressionTuple (expressions : list Expression) (child_tuple : option Tuple).

Fixpoint cell_num (t : Tuple) : option Z :=
  match t with
  | RowTuple _ speces _ => Some (Z.of_nat (length speces))
  | ProjectTuple expressions _ => Some (Z.of_nat (length expressions))
  | ValueListTuple cells _ => Some (Z.of_nat (length cells))
  | JoinedTuple (Some l) (Some r) => a ← cell_num l; b ← cell_num r; Some (a + b)
  | JoinedTuple _ _ => None
  | CompositeTuple tuples => foldr (λ t n, a ← cell_num t; b ← n; Some (a + b)) (Some 0) tuples
  | ExpressionTuple expressions _ => Some (Z.of_nat (length expressions))
  end.

(** The first cell with the description. *)
Fixpoint find_value (cells : list Value) (specs : list TupleCellSpec) (spec : TupleCellSpec) (cell : Value) : option (RC * Value) :=
  match cells, specs with
  | v :: cells, s :: specs => if bool_decide (s = spec) then c ← copy_value v; Some (RC.SUCCESS, c) else find_value cells specs spec cell
  | _, _ => Some (RC.NOTFOUND, cell)
  end.

(** The first expression with the name. *)
Fixpoint find_expression (get : Expression → Value → option (RC * Value)) (expressions : list Expression) (alias : string) (cell : Value) : option (RC * Value) :=
  match expressions with
  | [] => Some (RC.NOTFOUND, cell)
  | e :: expressions => if bool_decide (alias = expr_name e) then get e cell else find_expression get expressions alias cell
  end.

Section first_found.
Context (find : Tuple → Value → option (RC * Value)).
Fixpoint first_found (tuples : list Tuple) (rc : RC) (cell : Value) : option (RC * Value) :=
  match tuples with
  | [] => Some (rc, cell)
  | t :: tuples => '(rc, cell) ← find t cell; if RC.OB_SUCC rc then Some (rc, cell) else first_found tuples rc cell
  end.
End first_found.

Fixpoint find_cell (t : Tuple) (spec : TupleCellSpec) (cell : Value) {struct t} : option (RC * Value) :=
  match t with
  | RowTuple m speces record => row_find_cell m speces (snd <$> record) (table_name_ spec) (field_name_ spec) cell
  | ProjectTuple _ (Some tuple) => find_cell tuple spec cell
  | ProjectTuple _ None => None
  | ValueListTuple cells specs => if Nat.eqb (length cells) (length specs) then find_value cells specs spec cell else None
  | JoinedTuple (Some l) r =>
      '(rc, cell) ← find_cell l spec cell;
      if negb (bool_decide (rc = RC.NOTFOUND)) then Some (rc, cell)
      else match r with Some r => find_cell r spec cell | None => None end
  | JoinedTuple None _ => None
  | CompositeTuple tuples => first_found (λ t, find_cell t spec) tuples RC.NOTFOUND cell
  | ExpressionTuple expressions (Some child) =>
      '(rc, cell) ← find_cell child spec cell;
      if RC.OB_SUCC rc then Some (rc, cell) else find_expression (get_value (find_cell child)) expressions (alias_ spec) cell
  | ExpressionTuple expressions None => find_expression try_get_value expressions (alias_ spec) cell
  end.

(** [Expression::get_value] on a tuple. *)
Definition evaluate (e : Expression) (t : Tuple) (value : Value) : option (RC * Value) := get_value (find_cell t) e value.

Section at_index.
Context {A : Type} (at_ : Tuple → Z → A → option (RC * A)).
Fixpoint tuple_at (tuples : list Tuple) (index : Z) (a : A) : option (RC * A) :=
  match tuples with
  | [] => Some (RC.NOTFOUND, a)
  | t :: tuples => n ← cell_num t; if index <? n then at_ t index a else tuple_at tuples (index - n) a
  end.
End at_index.

Fixpoint cell_at (t : Tuple) (index : Z) (cell : Value) {struct t} : option (RC * Value) :=
  match t with
  | RowTuple m speces record => row_cell_at m speces (snd <$> record) index cell
  | ProjectTuple expressions tuple =>
      if (index <? 0) || (Z.of_nat (length expressions) <=? index) then Some (RC.INTERNAL, cell)
      else
        match tuple with
        | Some tuple => e ← expressions !! Z.to_nat index; evaluate e tuple cell
        | None => Some (RC.INTERNAL, cell)
        end
  | ValueListTuple cells _ =>
      if (index <? 0) || (Z.of_nat (length cells) <=? index) then Some (RC.NOTFOUND, cell)
      else v ← cells !! Z.to_nat index; c ← copy_value v; Some (RC.SUCCESS, c)
  | JoinedTuple (Some l) r =>
      left_cell_num ← cell_num l;
      if (0 <=? index) && (index <? left_cell_num) then cell_at l index cell
      else if index <? left_cell_num then Some (RC.NOTFOUND, cell)
      else
        match r with
        | Some r =>
            right_cell_num ← cell_num r;
            if index <? left_cell_num + right_cell_num then cell_at r (index - left_cell_num) cell else Some (RC.NOTFOUND, cell)
        | None => None
        end
  | JoinedTuple None _ => None
  | CompositeTuple tuples => tuple_at cell_at tuples index cell
  | ExpressionTuple expressions child =>
      if (index <? 0) || (Z.of_nat (length expressions) <=? index) then Some (RC.INVALID_ARGUMENT, cell)
      else
        e ← expressions !! Z.to_nat index;
        match child with Some child => evaluate e child cell | None => try_get_value e cell end
  end.

Fixpoint spec_at (t : Tuple) (index : Z) (spec : TupleCellSpec) {struct t} : option (RC * TupleCellSpec) :=
  match t with
  | RowTuple m speces _ => if index <? 0 then None else p ← speces !! Z.to_nat index; f ← tm_fields m !! p; Some (RC.SUCCESS, spec_of_field (tm_name m) (fm_name f))
  | ProjectTuple expressions _ => if index <? 0 then None else e ← expressions !! Z.to_nat index; Some (RC.SUCCESS, spec_of_alias (expr_name e))
  | ValueListTuple cells specs =>
      if (index <? 0) || (Z.of_nat (length cells) <=? index) then Some (RC.NOTFOUND, spec)
      else s ← specs !! Z.to_nat index; Some (RC.SUCCESS, s)
  | JoinedTuple (Some l) r =>
      left_cell_num ← cell_num l;
      if (0 <=? index) && (index <? left_cell_num) then spec_at l index spec
      else if index <? left_cell_num then Some (RC.NOTFOUND, spec)
      else
        match r with
        | Some r =>
            right_cell_num ← cell_num r;
            if index <? left_cell_num + right_cell_num then spec_at r (index - left_cell_num) spec else Some (RC.NOTFOUND, spec)
        | None => None
        end
  | JoinedTuple None _ => None
  | CompositeTuple tuples => tuple_at spec_at tuples index spec
  | ExpressionTuple expressions _ =>
      if (index <? 0) || (Z.of_nat (length expressions) <=? index) then Some (RC.INVALID_ARGUMENT, spec)
      else e ← expressions !! Z.to_nat index; Some (RC.SUCCESS, spec_of_alias (expr_name e))
  end.

(** [ValueListTuple::make]: the cells from [i] on are added to the list. *)
Fixpoint make_loop (n : nat) (i : Z) (t : Tuple) (cells : list Value) (specs : list TupleCellSpec) : option (RC * (list Value * list TupleCellSpec)) :=
  match n with
  | O => Some (RC.SUCCESS, (cells, specs))
  | S n =>
      '(rc, cell) ← cell_at t i default_value;
      if RC.OB_FAIL rc then Some (rc, (cells, specs))
      else
        '(rc, spec) ← spec_at t i (mkCellSpec "" "" "");
        if RC.OB_FAIL rc then Some (rc, (cells, specs))
        else cell ← copy_value cell; make_loop n (i + 1) t (cells ++ [cell]) (specs ++ [spec])
  end.
Definition make_value_list (t : Tuple) : option (RC * Tuple) :=
  n ← cell_num t;
  '(rc, (cells, specs)) ← make_loop (Z.to_nat n) 0 t [] [];
  Some (rc, ValueListTuple cells specs).

(** [Tuple::compare]: the result, which stays as it is on a failure. *)
Fixpoint compare_loop (n : nat) (i : Z) (this other : Tuple) (this_value other_value : Value) (result : Z) : option (RC * Z) :=
  match n with
  | O => Some (RC.SUCCESS, 0)
  | S n =>
      '(rc, this_value) ← cell_at this i this_value;
      if RC.OB_FAIL rc then Some (rc, result)
      else
        '(rc, other_value) ← cell_at other i other_value;
        if RC.OB_FAIL rc then Some (rc, result)
        else
          result ← value_compare this_value other_value;
          if negb (result =? 0) then Some (RC.SUCCESS, result) else compare_loop n (i + 1) this other this_value other_value result
  end.
Definition tuple_compare (this other : Tuple) (result : Z) : option (RC * Z) :=
  a ← cell_num this;
  b ← cell_num other;
  if a <? b then Some (RC.SUCCESS, -1)
  else if b <? a then Some (RC.SUCCESS, 1)
  else compare_loop (Z.to_nat a) 0 this other default_value default_value result.

(** ** Aggregators *)
Record Aggregator : Type := mkAggregator {
  ag_type : AggregateType;
  has_value_ : bool;
  ag_value : Value;
  count_ : Z;
  sum_ : spec_float
}.
Definition create_aggregator (t : AggregateType) : Aggregator := mkAggregator t false default_value 0 (S754_zero false).
Definition set_ag_value (v : Value) (a : Aggregator) : Aggregator := mkAggregator (ag_type a) true v (count_ a) (sum_ a).

Definition accumulate (a : Aggregator) (value : Value) : option (RC * Aggregator) :=
  if is_null_ value then Some (RC.SUCCESS, a)
  else
    match ag_type a with
    | SUM =>
        if negb (has_value_ a) then v ← copy_value value; Some (RC.SUCCESS, set_ag_value v a)
        else if bool_decide (attr_type_ value = attr_type_ (ag_value a)) then
          '(_, v) ← value_add value (ag_value a) (ag_value a); Some (RC.SUCCESS, set_ag_value v a)
        else None
    | COUNT => n ← as_int (count_ a + 1); Some (RC.SUCCESS, mkAggregator COUNT (has_value_ a) (ag_value a) n (sum_ a))
    | AVG => f ← get_float value; n ← as_int (count_ a + 1); Some (RC.SUCCESS, mkAggregator AVG (has_value_ a) (ag_value a) n (SFadd 24 128 (sum_ a) f))
    | MIN =>
        better ← (if has_value_ a then c ← value_compare value (ag_value a); Some (c <? 0) else Some true);
        if (better : bool) then v ← copy_value value; Some (RC.SUCCESS, set_ag_value v a) else Some (RC.SUCCESS, a)
    | MAX =>
        better ← (if has_value_ a then c ← value_compare value (ag_value a); Some (0 <? c) else Some true);
        if (better : bool) then v ← copy_value value; Some (RC.SUCCESS, set_ag_value v a) else Some (RC.SUCCESS, a)
    end.

Definition ag_evaluate (a : Aggregator) (result : Value) : option (RC * Value) :=
  match ag_type a with
  | COUNT => Some (RC.SUCCESS, set_int (count_ a) result)
  | AVG => Some (RC.SUCCESS, if count_ a =? 0 then set_null result else set_float (SFdiv 24 128 (sum_ a) (float_of_int (count_ a))) result)
  | SUM | MAX | MIN => if has_value_ a then v ← copy_value (ag_value a); Some (RC.SUCCESS, v) else Some (RC.SUCCESS, set_null result)
  end.

(** ** Comparisons in three-valued logic *)
(** What SQL says of a comparison; [None] is unknown. *)
Definition sql_compare (comp : CompOp) (x y : option (Z + list Z)) : option bool :=
  match comp with
  | IS_NULL => Some (bool_decide (x = None))
  | IS_NOT_NULL => Some (bool_decide (x ≠ None))
  | _ =>
      match x, y with
      | Some _, Some _ =>
          let c := rank_compare x y in
          Some (match comp with
                | EQUAL_TO => c =? 0 | NOT_EQUAL => negb (c =? 0) | LESS_THAN => c <? 0 | LESS_EQUAL => c <=? 0
                | GREAT_THAN => 0 <? c | GREAT_EQUAL => 0 <=? c | IS_NULL | IS_NOT_NULL | NO_OP => false
                end)
      | _, _ => None
      end
  end.

Lemma rank_null v : rank v = None ↔ is_null_ v = true.
Proof. unfold rank. by destruct (is_null_ v). Qed.

Lemma some_true b : bool_decide (Some b = Some true) = b.
Proof. by destruct b. Qed.

(** C21: comparing two values of one type other than [FLOATS] with one of the eight
    operators returns, and is true
    exactly when SQL says that the comparison is true: unknown, the result for a NULL,
    becomes false. *)
Theorem comparison_correct t comp left right : t ≠ FLOATS → value_ok t left → value_ok t right → comp ≠ NO_OP →
  compare_value comp left right = Some (RC.SUCCESS, bool_decide (sql_compare comp (rank left) (rank right) = Some true)).
Proof.
  intros Ht Hl Hr Hc. pose proof (value_compare_rank t left right Ht Hl Hr) as E.
  assert (∀ v, rank v = None → is_null_ v = true) as N by (intros v; apply rank_null).
  assert (∀ v x, rank v = Some x → is_null_ v = false) as N' by (intros v x; unfold rank; by destruct (is_null_ v)).
  unfold compare_value, sql_compare. destruct (rank left) as [a|] eqn:El, (rank right) as [b|] eqn:Er;
    rewrite ?(N _ El), ?(N _ Er), ?(N' _ _ El), ?(N' _ _ Er); destruct comp; try done; cbn [orb]; rewrite E; cbn [mbind option_bind];
    by rewrite some_true, ?(Z.eqb_sym 0).
Qed.

Lemma comparison_correct_witness :
  compare_value LESS_EQUAL (int_value 3) (int_value 7) = Some (RC.SUCCESS, true) ∧ compare_value NOT_EQUAL (int_value 3) null_value = Some (RC.SUCCESS, false).
Proof.
  split.
  - rewrite (comparison_correct INTS); [reflexivity|done|right; cbn; eauto|right; cbn; eauto|done].
  - rewrite (comparison_correct INTS); [reflexivity|done|right; cbn; eauto|by left|done].
Defined.

(** [NOT e] is parsed as [e = FALSE]: the unknown result of a comparison with NULL has
    become false by then, and its negation is true. *)
Example not_of_unknown_is_true :
  evaluate (ComparisonExpr "" EQUAL_TO (ComparisonExpr "" EQUAL_TO (ValueExpr "" null_value) (ValueExpr "" (int_value 1))) (ValueExpr "" (bool_value false)))
    (ValueListTuple [] []) default_value = Some (RC.SUCCESS, bool_value true).
Proof. reflexivity. Qed.
(** A NULL operand counts as zero. *)
Example null_plus_five :
  evaluate (ArithmeticExpr "" ADD (CastExpr "" (ValueExpr "" null_value) INTS) (Some (ValueExpr "" (int_value 5)))) (ValueListTuple [] []) default_value =
    Some (RC.SUCCESS, int_value 5).
Proof. reflexivity. Qed.

(** ** Aggregates *)
(** The values of a group are accumulated one after the other. *)
Fixpoint accumulate_all (a : Aggregator) (values : list Value) : option (RC * Aggregator) :=
  match values with
  | [] => Some (RC.SUCCESS, a)
  | v :: values => '(rc, a) ← accumulate a v; if RC.OB_FAIL rc then Some (rc, a) else accumulate_all a values
  end.

Definition int_of (v : Value) : Z := match value_ v with IntVal z => z | _ => 0 end.
Definition total (l : list Value) : Z := foldr Z.add 0 (int_of <$> l).
Definition not_null (values : list Value) : list Value := List.filter (λ v, negb (is_null_ v)) values.

(** The state of an aggregator after the values [l], which are not NULL. *)
Definition best (sign : Z) (v : Value) (l : list Value) : Prop := v ∈ l ∧ ∀ u, u ∈ l → sign * rank_compare (rank v) (rank u) ≤ 0.
Definition aggregated (a : Aggregator) (l : list Value) : Prop :=
  match ag_type a with
  | COUNT => count_ a = Z.of_nat (length l)
  | SUM => has_value_ a = negb (bool_decide (l = [])) ∧ (l ≠ [] → value_ok INTS (ag_value a) ∧ is_null_ (ag_value a) = false ∧ int_of (ag_value a) = total l)
  | MIN => has_value_ a = negb (bool_decide (l = [])) ∧ (l ≠ [] → best 1 (ag_value a) l)
  | MAX => has_value_ a = negb (bool_decide (l = [])) ∧ (l ≠ [] → best (-1) (ag_value a) l)
  | AVG => True
  end.

(** Nothing overflows: the number of the values, or any partial sum. *)
Definition within (kind : AggregateType) (l : list Value) : Prop :=
  match kind with
  | COUNT => Z.of_nat (length l) < 2 ^ 31
  | SUM => ∀ n, in_srange 32 (total (take n l))
  | AVG | MAX | MIN => True
  end.

Lemma within_app kind l1 l2 : within kind (l1 ++ l2) → within kind l1.
Proof.
  destruct kind; cbn; try done; [rewrite length_app; lia|]. intros H n. specialize (H (n `min` length l1)%nat).
  rewrite take_app_le in H by lia. destruct (decide (n ≤ length l1)%nat); [by rewrite Nat.min_l in H|].
  rewrite Nat.min_r, (take_ge l1 (length l1)) in H by lia. by rewrite (take_ge l1 n) by lia.
Qed.

Lemma rank_refl x : rank_compare x x = 0.
Proof. pose proof (rank_flip x x). lia. Qed.

Lemma total_snoc l v : total (l ++ [v]) = total l + int_of v.
Proof. unfold total. rewrite fmap_app, foldr_app. cbn. induction l as [|u l IH]; cbn; lia. Qed.

(** The best of a list and one more value. *)
Lemma best_keep s v l u : s = 1 ∨ s = -1 → best s v l → s * rank_compare (rank v) (rank u) ≤ 0 → best s v (l ++ [u]).
Proof.
  intros Hs [Hv H] Hu. split; [apply elem_of_app; by left|]. intros x [Hx|Hx]%elem_of_app; [by apply H|].
  apply list_elem_of_singleton in Hx as ->. done.
Qed.
Lemma best_new s v l u : s = 1 ∨ s = -1 → best s v l → s * rank_compare (rank u) (rank v) ≤ 0 → best s u (l ++ [u]).
Proof.
  intros Hs [Hv H] Hu. split; [apply elem_of_app; right; by left|]. intros x [Hx|Hx]%elem_of_app.
  - specialize (H x Hx). pose proof (rank_flip (rank u) (rank v)). pose proof (rank_flip (rank v) (rank x)). pose proof (rank_flip (rank u) (rank x)).
    destruct Hs as [-> | ->].
    + enough (rank_compare (rank u) (rank x) ≤ 0) by lia. apply (rank_trans _ (rank v)); lia.
    + enough (rank_compare (rank x) (rank u) ≤ 0) by lia. apply (rank_trans _ (rank v)); lia.
  - apply list_elem_of_singleton in Hx as ->. rewrite rank_refl. lia.
Qed.
Lemma best_single s v : best s v ([] ++ [v]).
Proof. split; [by left|]. intros x Hx%list_elem_of_singleton. subst. rewrite rank_refl. lia. Qed.

Lemma snoc_not_nil {A} (l : list A) x : negb (bool_decide (l ++ [x] = [])) = true.
Proof. by destruct l. Qed.

Lemma better_ok s v l u : s = 1 ∨ s = -1 → best s v l →
  if s * rank_compare (rank u) (rank v) <? 0 then best s u (l ++ [u]) else best s v (l ++ [u]).
Proof.
  intros Hs Hb. pose proof (rank_flip (rank u) (rank v)). destruct (Z.ltb_spec (s * rank_compare (rank u) (rank v)) 0).
  - apply (best_new _ v); [done|done|lia].
  - apply best_keep; [done|done|]. destruct Hs as [-> | ->]; lia.
Qed.

(** One more value. *)
Lemma sum_step a l v : ag_type a = SUM → value_ok INTS v → is_null_ v = false → within SUM (l ++ [v]) → aggregated a l →
  ∃ a', accumulate a v = Some (RC.SUCCESS, a') ∧ ag_type a' = SUM ∧ aggregated a' (l ++ [v]).
Proof.
  intros T Hv N Hw Ha. unfold accumulate. rewrite N, T. unfold aggregated in Ha. rewrite T in Ha. destruct Ha as [H1 H2]. rewrite H1.
  destruct Hv as [?|(_ & Tv & z & Ez)]; [congruence|]. assert (int_of v = z) as Ev by (unfold int_of; by rewrite Ez). destruct (decide (l = [])) as [->|Hl].
  - rewrite bool_decide_eq_true_2 by done. cbn [negb]. rewrite (copy_value_ok INTS) by (by eauto || (right; eauto)). cbn [mbind option_bind].
    eexists. split; [done|]. split; [done|]. unfold aggregated. cbn [ag_type set_ag_value has_value_ ag_value]. rewrite T, snoc_not_nil. split; [done|]. intros _.
    split_and!; [right; eauto|done|]. rewrite total_snoc. done.
  - rewrite bool_decide_eq_false_2 by done. cbn [negb]. destruct (H2 Hl) as (Ok & Na & Ei). destruct Ok as [?|(_ & Ta & y & Ey)]; [congruence|].
    rewrite bool_decide_eq_true_2 by congruence. unfold value_add, arithmetic, get_int. rewrite Ta, Tv, Ez, Ey. cbn [mbind option_bind].
    unfold int_of in Ei. rewrite Ey in Ei. pose proof (Hw (length (l ++ [v]))) as Hr. rewrite take_ge, total_snoc, Ev, <-Ei in Hr by done.
    rewrite as_int_id by (by rewrite Z.add_comm). cbn [mbind option_bind].
    eexists. split; [done|]. split; [done|]. unfold aggregated. cbn [ag_type set_ag_value has_value_ ag_value]. rewrite T, snoc_not_nil. split; [done|]. intros _.
    split_and!; [right; cbn; eauto|done|]. rewrite total_snoc, Ev, <-Ei. cbn [int_of value_ set_int]. lia.
Qed.

Lemma extremum_step t s a l v : (ag_type a = MIN ∧ s = 1 ∨ ag_type a = MAX ∧ s = -1) → t ≠ FLOATS → value_ok t v → Forall (value_ok t) l → is_null_ v = false →
  aggregated a l → ∃ a', accumulate a v = Some (RC.SUCCESS, a') ∧ ag_type a' = ag_type a ∧ aggregated a' (l ++ [v]).
Proof.
  intros Hs Ht Hv Hl N Ha. assert (has_value_ a = negb (bool_decide (l = [])) ∧ (l ≠ [] → best s (ag_value a) l)) as [H1 H2].
  { unfold aggregated in Ha. by destruct Hs as [[T ->]|[T ->]]; rewrite T in Ha. }
  assert (∀ b : bool, (if b then best s v (l ++ [v]) else l ≠ [] ∧ best s (ag_value a) (l ++ [v])) → (has_value_ a = false → b = true) →
    ∃ a', (if b then v ← copy_value v; Some (RC.SUCCESS, set_ag_value v a) else Some (RC.SUCCESS, a)) = Some (RC.SUCCESS, a') ∧
      ag_type a' = ag_type a ∧ aggregated a' (l ++ [v])) as K.
  { intros b Hb Hn. rewrite (copy_value_ok t) by done. cbn [mbind option_bind]. exists (if b then set_ag_value v a else a). split; [by destruct b|]. split; [by destruct b|].
    assert (has_value_ (if b then set_ag_value v a else a) = true) as Hh by (destruct b; [done|]; destruct (has_value_ a); [done|by specialize (Hn eq_refl)]).
    assert (best s (ag_value (if b then set_ag_value v a else a)) (l ++ [v])) as Hbest by (destruct b; [done|apply Hb]).
    unfold aggregated. assert (ag_type (if b then set_ag_value v a else a) = ag_type a) as -> by (by destruct b). rewrite snoc_not_nil.
    destruct Hs as [[T ->]|[T ->]]; rewrite T; done. }
  unfold accumulate. rewrite N. destruct (decide (l = [])) as [->|Hne].
  - rewrite bool_decide_eq_true_2 in H1 by done. cbn [negb] in H1. rewrite H1. destruct (K true (best_single s v)) as (a' & E & H); [done|].
    exists a'. rewrite <-E. destruct Hs as [[T ->]|[T ->]]; rewrite T at 1; (split; [done|exact H]).
  - rewrite bool_decide_eq_false_2 in H1 by done. cbn [negb] in H1. rewrite H1. pose proof (H2 Hne) as Hb.
    assert (value_ok t (ag_value a)) as Ok by (rewrite list.Forall_forall in Hl; apply Hl, Hb). rewrite (value_compare_rank t) by done. cbn [mbind option_bind].
    pose proof (better_ok s (ag_value a) l v ltac:(destruct Hs as [[_ ->]|[_ ->]]; lia) Hb) as Hbest.
    destruct (K (s * rank_compare (rank v) (rank (ag_value a)) <? 0)) as (a' & E & H); [by destruct (_ <? 0)|by rewrite H1|]. exists a'. rewrite <-E.
    destruct Hs as [[T ->]|[T ->]]; rewrite T at 1; (split; [|exact H]).
    + by rewrite Z.mul_1_l.
    + replace (-1 * rank_compare (rank v) (rank (ag_value a)) <? 0) with (0 <? rank_compare (rank v) (rank (ag_value a))); [done|].
      destruct (Z.ltb_spec 0 (rank_compare (rank v) (rank (ag_value a)))), (Z.ltb_spec (-1 * rank_compare (rank v) (rank (ag_value a))) 0); lia.
Qed.

Lemma accumulate_step t a l v : t ≠ FLOATS → (ag_type a = SUM → t = INTS) → ag_type a ≠ AVG → value_ok t v → Forall (value_ok t) l →
  within (ag_type a) (l ++ not_null [v]) → aggregated a l → ∃ a', accumulate a v = Some (RC.SUCCESS, a') ∧ ag_type a' = ag_type a ∧ aggregated a' (l ++ not_null [v]).
Proof.
  intros Ht Hsum Havg Hv Hl Hw Ha. unfold not_null in *. cbn [List.filter] in *. destruct (is_null_ v) eqn:N; cbn [negb] in *.
  { exists a. unfold accumulate. by rewrite N, app_nil_r. }
  destruct (ag_type a) eqn:T; [|rewrite (Hsum eq_refl) in Hv; by apply sum_step|done| |].
  - unfold accumulate, aggregated in *. rewrite N, T in *. cbn [within] in Hw. rewrite length_app in Hw. cbn [length] in Hw.
    rewrite as_int_id by (unfold in_srange; change (32 - 1) with 31; lia). eexists. split; [done|]. split; [done|]. cbn. rewrite length_app. cbn. lia.
  - rewrite <-T. apply (extremum_step t (-1)); auto.
  - rewrite <-T. apply (extremum_step t 1); auto.
Qed.

Lemma accumulate_all_ok t values a l : t ≠ FLOATS → (ag_type a = SUM → t = INTS) → ag_type a ≠ AVG → Forall (value_ok t) values → Forall (value_ok t) l →
  within (ag_type a) (l ++ not_null values) → aggregated a l → ∃ a', accumulate_all a values = Some (RC.SUCCESS, a') ∧ ag_type a' = ag_type a ∧ aggregated a' (l ++ not_null values).
Proof.
  intros Ht. revert a l. induction values as [|v values IH]; intros a l Hsum Havg Hv Hl Hw Ha; cbn [accumulate_all].
  { exists a. unfold not_null. cbn. by rewrite app_nil_r. }
  assert (l ++ not_null (v :: values) = (l ++ not_null [v]) ++ not_null values) as El by (unfold not_null; cbn; destruct (negb _); by rewrite <-app_assoc).
  rewrite El in Hw |- *. apply list.Forall_cons in Hv as [Hv Hvs]. destruct (accumulate_step t a l v) as (a1 & E1 & T1 & A1); try done; [by eapply within_app|].
  rewrite E1. cbn [mbind option_bind]. destruct (IH a1 (l ++ not_null [v])) as (a2 & E2 & T2 & A2); [by rewrite T1|by rewrite T1|done| |by rewrite T1|done|].
  { apply Forall_app. split; [done|]. unfold not_null. cbn. destruct (negb _); [|done]. by constructor. }
  exists a2. split; [exact E2|]. split; [congruence|done].
Qed.

(** C22: as long as neither the number of the values nor a partial sum overflows,
    [COUNT] is the number of the values that are not NULL and [SUM] of integers is
    their sum; [MIN] and [MAX] of values of a type other than [FLOATS] are a smallest
    and a largest one; except for [COUNT] the result is NULL when all values are
    NULL.  [AVG] is left out. *)
Theorem aggregate_correct t kind values : t ≠ FLOATS → (kind = SUM → t = INTS) → kind ≠ AVG → Forall (value_ok t) values → within kind (not_null values) →
  ∃ a v, accumulate_all (create_aggregator kind) values = Some (RC.SUCCESS, a) ∧ ag_evaluate a default_value = Some (RC.SUCCESS, v) ∧
    match kind with
    | COUNT => v = int_value (Z.of_nat (length (not_null values)))
    | SUM => if bool_decide (not_null values = []) then is_null_ v = true else is_null_ v = false ∧ int_of v = total (not_null values)
    | MIN => if bool_decide (not_null values = []) then is_null_ v = true else best 1 v (not_null values)
    | MAX => if bool_decide (not_null values = []) then is_null_ v = true else best (-1) v (not_null values)
    | AVG => True
    end.
Proof.
  intros Ht Hsum Havg Hv Hw. destruct (accumulate_all_ok t values (create_aggregator kind) []) as (a & E & T & A); try done.
  { destruct kind; done. }
  cbn [app ag_type create_aggregator] in *. set (l := not_null values) in *. exists a. unfold ag_evaluate. rewrite T. unfold aggregated in A. rewrite T in A.
  assert (∀ w, w ∈ l → value_ok t w ∧ is_null_ w = false) as Hl.
  { intros w Hin. unfold l, not_null in Hin. apply list_elem_of_In, filter_In in Hin as [Hin Hn]. rewrite list.Forall_forall in Hv.
    split; [apply Hv; by apply list_elem_of_In|by apply negb_true_iff]. }
  destruct kind; try done.
  - eexists. split; [done|]. split; [done|]. by rewrite A.
  - destruct A as [-> A]. case_bool_decide as Hn; cbn [negb]; [by eexists|]. destruct (A Hn) as (Ok & N & Ei). rewrite (copy_value_ok INTS) by done. eauto.
  - destruct A as [-> A]. case_bool_decide as Hn; cbn [negb]; [by eexists|]. destruct (Hl _ (proj1 (A Hn))) as [Ok N]. rewrite (copy_value_ok t) by done. eauto.
  - destruct A as [-> A]. case_bool_decide as Hn; cbn [negb]; [by eexists|]. destruct (Hl _ (proj1 (A Hn))) as [Ok N]. rewrite (copy_value_ok t) by done. eauto.
Qed.

Lemma aggregate_correct_witness :
  ∃ a v, accumulate_all (create_aggregator SUM) [int_value 3; null_value; int_value 4] = Some (RC.SUCCESS, a) ∧ ag_evaluate a default_value = Some (RC.SUCCESS, v) ∧
    is_null_ v = false ∧ int_of v = 7.
Proof.
  destruct (aggregate_correct INTS SUM [int_value 3; null_value; int_value 4]) as (a & v & H1 & H2 & H3 & H4); [done|done|done| | |by exists a, v].
  - constructor; [right; cbn; eauto|]. constructor; [by left|]. constructor; [right; cbn; eauto|constructor].
  - intros [|[|n]]; unfold in_srange; cbn; rewrite ?take_nil; cbn; lia.
Defined.

(** The sum of dates is the first date: no addition is defined for them, and that it
    fails is ignored. *)
Example sum_of_dates :
  (a ← accumulate_all (create_aggregator SUM) [date_value 2024 1 1; date_value 2024 1 2]; ag_evaluate a.2 default_value) = Some (RC.SUCCESS, date_value 2024 1 1).
Proof. reflexivity. Qed.
